(* ===== verification/_CoqProject ===== *)
-Q . S2P
Prelude.v
Util.v
FailoverController.v
FailoverDetectors.v
FailoverRunner.v
Failsafe.v
BoundedLog.v
Traffic.v
Watchdog.v
CoreLog.v
CoreSupervisor.v
HealthLog.v
HealthMonitor.v
HealthGroups.v
GoStrings.v
AuthRecord.v
Auth.v
QrField.v
Qr.v
Netip.v
GoText.v
GoCodec.v
Netlink.v
PbrPlan.v
CtFlush.v
Model.v
Faults.v
ByeDPI.v
Dns.v
PbrLists.v
Validate.v
EndpointPins.v
EndpointEch.v
EndpointSsh.v
ValidateSpec.v
Store.v
StoreKeeps.v
StoreHistory.v
StoreTheorems.v
Pbr.v
PbrFacts.v
PbrTheorems.v
Json.v
GenSplit.v
GenRoute.v
EndpointLoads.v
GenTls.v
GenOutbound.v
GenFields.v
GenDns.v
Override.v
OverrideTheorems.v
GenConfig.v
GenEmit.v
GenResolve.v
GenRefs.v
GenWiring.v
GenSchema.v
GenTheorems.v
ApplyPlan.v
ApplyRecord.v
ApplyExec.v
ApplyExecFacts.v
ApplyServer.v
ApplyControl.v
ApplyInv.v
ApplyControlInv.v
ApplyTheorems.v
Changeset.v
ChangesetUndo.v
ChangesetFacts.v
ChangesetOrder.v
ChangesetSweep.v
ChangesetSpec.v
ChangesetTheorems.v
Awg.v
Uci.v
Netvpn.v
NetvpnApply.v
NativePlan.v
