(* ===== verification/Prelude.v ===== *)
(** * WayHop: a verification library for the router panel's decision code

    WayHop is a daemon that runs on a router and sends its clients' traffic through tunnels: a panel
    edits a profile, Apply turns the profile into kernel rules and into the configuration of a proxy
    engine, and background loops watch the engine, probe the exits and move traffic between them. Its
    Go code is mostly text for other programs and calls to them; what it decides by itself is modelled
    here, each operation from its source, and the theorems are about those definitions.

    ** The parts, and the files that model them

    - Go itself. [Prelude]: 64-bit integers with their wrap-around, record update, shared tactics and
      lemmas. [Util]: the tunnel's device name ([internal/util/iface.go]), and [float64] on the Standard
      Library's specification floats.
      [GoStrings] and [GoText]: [strings], [strconv], [%d], UTF-8 widths, [net]. [GoCodec]:
      base64, hex, durations. [Json]: a decoded JSON value ([any]) read the way the code reads maps.
      [Netip]: [net/netip]'s addresses, prefixes and texts, with the round trip of a prefix through its
      text.
    - Failover ([internal/failover]). [FailoverController]: [ideal] and [Decide], per policy.
      [FailoverDetectors]: the flap damper and the outlier detector. [FailoverRunner]: [tickGroup], the
      loop that composes them with the probes and the engine's API.
    - Fail-safe ([internal/failsafe]). [Failsafe]: the window a risky Apply opens, its health ticks,
      confirmation, escalation, and the rollback, automatic or manual.
    - Engine process ([internal/core], [internal/watchdog]). [CoreSupervisor]: start, stop, reload and
      shutdown as interleaved steps over processes. [CoreLog]: the escape stripper and the line ring.
      [Watchdog]: the restart loop and its backoff.
    - Health ([internal/health]). [HealthLog]: event history and probe windows. [HealthMonitor]: the
      poll, confirmation of states, counters. [HealthGroups]: group state and its history.
      [BoundedLog] is the promise every ring buffer makes; [Traffic] ([internal/traffic]) the sample ring.
    - Panel access ([internal/server/auth.go]). [AuthRecord]: password records. [Auth]: sessions,
      throttling, and the routes that change credentials, as steps over one store.
    - QR codes ([internal/qr]). [QrField]: GF(256) and Reed-Solomon. [Qr]: placement, masks and
      format bits, and [Encode], against a reader written from the standard.
    - The profile ([internal/model]). [Model]: its data. [Faults]: the errors of validation and their
      monad. [ByeDPI], [Dns] and [Validate]: the checks, in the order the code makes them.
      [ValidateSpec]: what a valid profile is, without loops or maps.
      One protocol's parameters: [EndpointPins] ([pin.go]), [EndpointEch] ([ech.go]), [EndpointSsh]
      ([ssh.go]) and [EndpointLoads], which adds realms ([hysteria2_realm.go]), multiplex and QUIC settings and
      puts them together into the check [Validate] takes as an argument.
    - The profile store ([internal/store]). [Store]: every operation.
      [StoreKeeps]: what each edit keeps. [StoreHistory]: writes as steps. [StoreTheorems]:
      what holds over them.
    - Kernel plane ([internal/pbr/pbr.go]). [PbrPlan]: the plan.
      [PbrLists]: addresses, names and MACs of a list. [Pbr]: [Compile]. [PbrFacts] and
      [PbrTheorems]: what is proved of it.
    - The engine's configuration ([internal/generator]). [GenSplit]: which plane carries what, and what
      hybrid mode still reaches. [GenRoute] and [GenDns]: route rules, rule sets, groups, the DNS block, and fitting them to the
      core's version.
      [GenTls] and [GenOutbound]: the outbound or endpoint of every protocol; the class [Renderer] is the interface
      the configuration is built against, and [GenFields] proves the outbounds keep it. [GenConfig]:
      [Generate]. [GenSchema]: what a version leaves of it. [Override]:
      the operator's own JSON patch and what the panel says of it.
      [GenEmit], [GenResolve], [GenRefs], [GenWiring], [GenTheorems] and
      [OverrideTheorems]: what is proved of it.
    - Apply ([internal/server]: [apply.go], [applyexec.go], [applystate.go], [applyboot.go],
      [applyplan.go], [routingswitch.go], [failsafe.go]). [ApplyPlan]: the review's findings. [ApplyRecord]: the monad of operations the daemon may
      die in, with its weakest preconditions, and the record of what was applied with every write of it. [ApplyExec]: the executor, teardown, rollback.
      [ApplyServer]: an Apply from its refusals to its record. [ApplyControl]: Keep, Roll back, a window's
      rollback, reconciling, the routing switch, and what a start does with the record.
      [ApplyExecFacts], [ApplyInv], [ApplyControlInv] and [ApplyTheorems]: what is proved of it, with a
      small router that keeps the laws, the witnesses, and behaviours worth knowing.
    - Change review and undo ([internal/changeset]). [Changeset]: the differ, its words and its redaction,
      and the lifecycle verdict. [ChangesetUndo]: [Undo], from one field to everything. [ChangesetFacts],
      [ChangesetOrder] and [ChangesetSweep]: rows and objects, slots, passes; [ChangesetSpec]: what the
      review compares, without its rows, and replacing secrets; [ChangesetTheorems]: what is proved of it.
    - Native tunnels ([internal/awg], [internal/netvpn], [internal/nativeplan]). [Awg]: generations, what
      settings need, I-packets, and the framing of the engine's socket. [Uci]: the protocols a router
      knows and the reader of [uci show]. [Netvpn]: a connection as a device, the commands of its tunnel,
      plans, removals, bindings, and the comparison. [NetvpnApply]: the appliers, over any router.
      [NativePlan]: who carries a connection ([Compile]), what the previous plan owned, and [Reconcile].
    - Conntrack flush ([internal/ctflush]). [Netlink]: the wire format and the receive loops. [CtFlush]:
      the view of a plan, [stale] and [Flush].

    The store calls validation at every publish, and [ValidateSpec]'s account of it is what the store's
    theorems are stated with. The generator refuses what [Validate] refuses and then relies on it: no
    reference it writes dangles. It leaves out what the kernel plane carries. The kernel plane's parts compose: [Compile]'s plan is the one [CtFlush] reads, and the texts of its
    zones are parsed back by [Netip] in [PbrFacts] and [PbrTheorems]. The health states the fail-safe and
    the failover loop act on are arguments of their steps, as they are interfaces in the code. Apply reads the
    profile with [Validate]'s verdict, installs [Compile]'s plan, and arms [Failsafe]'s window, whose
    rollback is [ApplyControl.windowRollback].

    ** What is shown

    - From any router and any record, as a crash or a reboot leaves them, once a start's boot attempt
      finished the record names what the router runs, and every later operation, failed ones included,
      keeps it so, a failed reconcile tick or converge after an install apart ([record_names_what_runs]). An Apply's answer is true ([apply_answers_true]), Keep
      commits what was tested and asked about ([keep_commits_the_test]), and nothing but a saving Apply
      and Keep touches the committed configuration, wherever the daemon dies ([committed_survives]). An
      execution goes in make-before-break order ([execution_in_order]); a review loses no finding
      ([fold_findings_complete]).
    - The change review tells no secret ([review_tells_no_secret]) and is empty exactly where nothing it
      compares differs ([review_empty_iff_same]). Undoing an object it shows leaves no row of it and the
      rows of the others, list moves apart ([undo_object_clears]); discarding a subsystem or everything takes its rows and
      no other, moves apart, and is refused only where there is none ([undo_batch_takes_its_rows]).
    - Whatever the router answers, a native write stages, reads back and then commits, or turns back what
      it touched, a commit that fails halfway apart ([router_writes_are_careful]; of a tunnel, the network configuration is what is read). A
      native plan writes only under names the router's tunnels do not have or the previous plan owned, and
      [Reconcile] takes it where what it drops can be removed ([native_writes_are_owned]); what is no longer managed is removed, and nothing
      else is ([reconcile_removes_its_own]). The check around a write sees everything but peers' keys
      ([diff_sees_all_but_peer_keys]), and quoted values are read back ([quoted_values_read_back]).
    - [Validate] accepts exactly the profiles that can be applied ([Validate_accepts_appliable]); the
      store's guarded writes keep them so ([guarded_writes_keep_appliable]) and take every reference
      with what leaves ([nothing_is_left_behind]); what the panel lists as blockers is what refuses
      ([blockers_are_refusals]); a reorder is a permutation ([reorder_is_a_permutation]); the file, the
      generation and the published profile agree, and a conditional write loses nothing
      ([generation_names_profile], [conditional_write_loses_nothing]). An accepted ByeDPI strategy
      keeps to its options ([accepted_strategy_is_harmless]).
    - Without an override, and for profiles without five things validation accepts and the generator
      cannot wire ([GenWiring.clean]), the generated configuration names nothing it does not define, in any
      mode and for any core ([generated_config_is_wired]); its outbounds have only fields the core knows
      ([outbound_fields_known]). An override does what it says, and one reported to take nothing
      leaves the daemon what it uses
      ([override_does_what_it_says], [unreported_override_is_harmless],
      [own_rules_send_to_what_exists]). Pins, ECH lists, SSH keys and realms are read as the formats
      say ([canonical_pin_reads_back], [check_is_framing], [host_key_is_one_key], [pinned_algorithms],
      [realm_is_usable]); kept multiplex settings are valid ([normalized_multiplex]).
    - A kernel plan routes what its lists name and nothing a rule did not ask for
      ([listed_is_routed], [listed_addresses_match], [no_destination_only_if_none_named]); blocks win
      ([blocks_win]); marks, names and egresses are distinct and well formed ([marks_are_distinct],
      [zone_names_safe_and_distinct], [plan_well_formed]); nested groups are walked to an end and in
      order ([walk_ends_and_finds], [walk_in_preference_order]).
    - A flow is flushed exactly when its next packet would go elsewhere (between the WAN and a TUN apart), and a flush is bounded and
      reports what it did ([stale_iff_moved], [Flush_is_bounded_and_honest]); a delete on the wire names
      its one entry ([delete_names_the_entry], [late_answers_are_skipped]).
    - A rollback is handed out once, for the current window, by the rules of the health ticks
      ([rollback_at_most_once], [tickHealth_refines], and the theorems after them).
    - Failover implements its policies and keeps its holds ([ideal_refines], [Decide_commits],
      [failback_hold_enforced], [suppression_bounded]).
    - At most one engine runs, a shutdown is final, restarts back off and do not stop
      ([at_most_one_engine], [shutdown_is_final], [restarts_back_off], [dead_is_retried]).
    - Health reports confirmed states and true counters, groups report their contents
      ([state_is_last_confirmed], [totals_follow_counters], [group_health_is_contents]).
    - A protected route needs a live session of the current credential, credentials change only as
      authorised, and guessing is slow between right
      passwords ([access_needs_session], [credential_changes_are_authorised],
      [guessing_is_slow], [verify_encoded]).
    - A standard reader gets a QR code's text back ([Encode_reads_back], [draw_follows_standard],
      [rs_codeword]); logs and rings show what was written ([Lines_after_writes],
      [strip_removes_escapes], [RecentN_after_any_history]).

    ** Fuel and bounds

    Recursion that is not structural carries fuel that is proved enough where a result depends on it:
    the walk of groups takes the number of groups plus two ([walk_ends_and_finds]; the same for the
    store's [groupReaches], [StoreKeeps.groupReaches_ok]), the search for cycles the number of groups
    plus one ([ValidateSpec.dfs_all_cycle]), a batch of undos the code's own four passes, a free set name the
    number of names taken ([PbrFacts.free_name_free]), what hybrid mode reaches the number of groups plus
    two ([GenSplit]), a list of ECH entries or a duration its length, the binary search the list's length
    ([CtFlush.Search_spec]), the receive loops the buffer's. Decimal texts take 20 digits, more than an
    [int64] has; IPv6 texts take the eight groups an address has. Integers are 64-bit where the code
    computes with clocks and counters, and 32-bit for marks; [marks_are_distinct] states how many
    egresses the default mask has room for.

    ** Arguments of the model

    Argon2, SHA-256, random bytes, clocks, probe outcomes, the engine's API, conntrack's dumps
    and deletes, processes and their exits, the host's byte order, Unicode's case tables and [%q], the
    decoding of JSON, PEM and URLs, and [fmt.Sprint] of a parameter are arguments, with their documented behaviour as named hypotheses where a theorem needs it.
    Of the native plan, a router's answers to commands, [strconv.FormatFloat], the KeeneticOS compiler and
    the two readers of its plan.
    Of an Apply: each platform's adapters (the functions of [applyExecOps], as in the code), the host
    capture, the materializer, [nativeplan.Reconcile] (a function of what Apply hands it; [NativePlan]
    models it by itself), the sources of findings and the write of the
    record's file ([Router], [Front]); the laws asked of them are [ApplyExecFacts.RouterLaws] (a core or
    kernel step that answers success did it, and none touches the other's plane) and
    [ApplyInv.FrontLaws] (reading changes nothing), and the router at the end of [ApplyTheorems] keeps them.

    ** Not modelled

    Rendering and running: nft, ip, ipset and dnsmasq texts ([internal/pbr]'s other files), importers and exporters, host commands, package managers,
    downloads and updates, HTTP handlers other than authentication's, the Telegram bot, JSON codecs.
    Of native tunnels: the KeeneticOS compiler, probing the kernel, the connection to the engine's socket, and
    discovery of other programs' tunnels. Of an Apply: the adapters, the capture and the materializer, the sources of the review's findings,
    and the import of records of earlier releases.
    Of the generator, the questions the panel asks about pins, ECH and old cores. Of the store, the JSON text
    of its file and the sharing of slices between a snapshot and its readers. Of the modelled packages: the engine's config checks and the reaper of stray processes
    ([core]), causes and knowledge-base texts and the assembled views ([health]), the sockets
    themselves ([ctflush]). *)

From stdpp Require Export base list gmap strings.
From Stdlib Require Export ZArith Lia ZifyBool.

(** ** Go's fixed-width integers

    [wrap64] is the two's complement reduction every [int64] operation of Go performs; the
    operators below are Go's [+], [-] and [*] on [int64]. *)
Definition min_int64 : Z := - 2 ^ 63.
Definition max_int64 : Z := 2 ^ 63 - 1.
Definition wrap64 (z : Z) : Z := ((z + 2 ^ 63) mod 2 ^ 64 - 2 ^ 63)%Z.

Declare Scope go_scope.
Delimit Scope go_scope with go.
Notation "x +! y" := (wrap64 (x + y)%Z) (at level 50, left associativity) : go_scope.
Notation "x -! y" := (wrap64 (x - y)%Z) (at level 50, left associativity) : go_scope.
Notation "x *! y" := (wrap64 (x * y)%Z) (at level 40, left associativity) : go_scope.

Definition is_int64 (z : Z) : Prop := (min_int64 <= z <= max_int64)%Z.

(** A byte. *)
Definition is_byte (b : Z) : Prop := (0 <= b < 256)%Z.

(** A clock reading, or a duration, that leaves room for one sum or difference. *)
Definition is_time (z : Z) : Prop := (0 <= z < 2 ^ 62)%Z.

Lemma wrap64_id z : is_int64 z -> wrap64 z = z.
Proof.
  unfold is_int64, wrap64, min_int64, max_int64. intros H.
  rewrite Z.mod_small by lia. lia.
Qed.

Lemma wrap64_range z : is_int64 (wrap64 z).
Proof.
  unfold is_int64, wrap64, min_int64, max_int64.
  pose proof (Z.mod_pos_bound (z + 2 ^ 63) (2 ^ 64)). lia.
Qed.

Lemma wrap64_sub_time a b : is_time a -> is_time b -> wrap64 (a - b) = (a - b)%Z.
Proof. unfold is_time. intros. apply wrap64_id. unfold is_int64, min_int64, max_int64. lia. Qed.

Lemma wrap64_add_time a b : is_time a -> is_time b -> wrap64 (a + b) = (a + b)%Z.
Proof. unfold is_time. intros. apply wrap64_id. unfold is_int64, min_int64, max_int64. lia. Qed.

Create HintDb wayhop.
Create Rewrite HintDb wayhop_rw.
#[export] Hint Resolve wrap64_range : wayhop.
#[export] Hint Rewrite wrap64_sub_time wrap64_add_time using assumption : wayhop_rw.

(** ** Tactics

    [inv_ifs] splits every remaining conditional of the goal; [bool_facts] turns boolean
    hypotheses into propositions; [go_lia] closes an arithmetic goal over 64-bit clocks. *)
Ltac bool_facts :=
  repeat match goal with
  | H : negb _ = true |- _ => apply negb_true_iff in H
  | H : negb _ = false |- _ => apply negb_false_iff in H
  | H : (_ && _)%bool = true |- _ => apply andb_true_iff in H as [? ?]
  | H : (_ || _)%bool = false |- _ => apply orb_false_iff in H as [? ?]
  | H : bool_decide _ = true |- _ => apply bool_decide_eq_true in H
  | H : bool_decide _ = false |- _ => apply bool_decide_eq_false in H
  end.
Ltac inv_ifs := repeat (case_match; simplify_eq/=); bool_facts.
Ltac go_lia := autorewrite with wayhop_rw in *; unfold is_time in *; lia.

(** ** Functional update of one field of a record

    A record type gives its eta expansion once ([Eta]); [r <| f := v |>] is [r] with field [f]
    replaced, which is what an assignment to a struct field does. *)
Class Eta (R : Type) := eta_of : R -> R.
Class Setter {R T : Type} (proj : R -> T) := set_field : (T -> T) -> R -> R.
Ltac build_setter proj :=
  lazymatch type of proj with
  | ?R -> ?T =>
      let i := constr:(_ : Eta R) in
      let e := eval red in i in
      lazymatch eval pattern proj in e with
      | ?F _ => exact (fun (g : T -> T) => F (fun r => g (proj r)))
      end
  end.
#[export] Hint Extern 1 (Setter ?proj) => build_setter proj : typeclass_instances.
Notation "m <| f := v |>" := (set_field (proj := f) (fun _ => v) m)
  (at level 1, f at level 9, v at level 200, left associativity).

(** ** Lists *)
Lemma length_omap_le {A B} (f : A -> option B) (l : list A) : (length (omap f l) <= length l)%nat.
Proof.
  induction l as [|x l IH]; [done|].
  change (omap f (x :: l)) with (match f x with Some y => y :: omap f l | None => omap f l end).
  destruct (f x); cbn [length]; lia.
Qed.
Lemma Forall_snoc_2 {A} (P : A -> Prop) l x : Forall P l -> P x -> Forall P (l ++ [x]).
Proof. intros Hl Hx. apply Forall_app. split; [done|]. by constructor. Qed.

Lemma app_nil_iff {A} (l k : list A) : l ++ k = [] <-> l = [] /\ k = [].
Proof. destruct l; naive_solver. Qed.
