(* ===== verification/Util.v ===== *)
(** * The device name of a tunnel

    Models [src/internal/util/iface.go]: the interface name every plane derives from an endpoint's id.

    Further on: [float64] on the Standard Library's specification floats. *)
From Stdlib Require Import SpecFloat.
From S2P Require Import Prelude.
Local Open Scope Z_scope.

(** [fnv.New32a] and the interface name made of it. *)
Definition fnv32a (s : string) : Z :=
  fold_left (fun h c => (Z.lxor h (Z.of_nat (Ascii.nat_of_ascii c)) * 16777619) mod 2 ^ 32)
    (String.list_ascii_of_string s) 2166136261.

Definition hex_char (d : Z) : Ascii.ascii :=
  Ascii.ascii_of_nat (Z.to_nat (if d <? 10 then 48 + d else 87 + d)).
Definition hex8 (z : Z) : string :=
  String.string_of_list_ascii
    (map (fun i => hex_char (Z.land (Z.shiftr z (4 * Z.of_nat i)) 15)) (rev (seq 0 8))).

Definition AWGIface (id : string) : string := String.append "wr_" (hex8 (fnv32a id)).

(** * Go's [float64]

    IEEE 754 binary64 with round to nearest even, computed on the Standard Library's specification
    floats: every Go [float64] operation the modelled code uses, and the conversions from and to
    [int64]. *)
Local Open Scope Z_scope.

Definition f64 : Set := spec_float.
Definition f64_prec : Z := 53.
Definition f64_emax : Z := 1024.

Definition f64_of_int64 (z : Z) : f64 := binary_normalize f64_prec f64_emax z 0 false.
Definition f64_zero : f64 := S754_zero false.
Definition f64_add : f64 -> f64 -> f64 := SFadd f64_prec f64_emax.
Definition f64_sub : f64 -> f64 -> f64 := SFsub f64_prec f64_emax.
Definition f64_mul : f64 -> f64 -> f64 := SFmul f64_prec f64_emax.
Definition f64_div : f64 -> f64 -> f64 := SFdiv f64_prec f64_emax.
Definition f64_opp : f64 -> f64 := SFopp.
Definition f64_ltb : f64 -> f64 -> bool := SFltb.
Definition f64_leb : f64 -> f64 -> bool := SFleb.

(** The bit pattern of a finite double: sign, biased exponent, fraction. *)
Definition f64_of_bits (b : Z) : f64 :=
  let s := Z.testbit b 63 in
  let e := Z.land (Z.shiftr b 52) 2047 in
  let m := Z.land b (2 ^ 52 - 1) in
  match (if e =? 0 then m else m + 2 ^ 52) with
  | Zpos p => S754_finite s p (if e =? 0 then -1074 else e - 1075)
  | _ => S754_zero s
  end.

(** [int64(f)]: truncation towards zero. A value outside [int64] (where Go leaves the result to the
    implementation) and NaN give the amd64 answer. *)
Definition f64_trunc (f : f64) : Z :=
  match f with
  | S754_finite s m e =>
      let a := if 0 <=? e then Zpos m * 2 ^ e else Zpos m / 2 ^ (- e) in
      let z := if s then - a else a in
      if (min_int64 <=? z) && (z <=? max_int64) then z else min_int64
  | S754_zero _ => 0
  | _ => min_int64
  end.

(** [f == math.Trunc(f)], with the number it is; infinities are taken for none, as every bound on [f]
    refuses them. *)
Definition f64_whole (f : f64) : option Z :=
  match f with
  | S754_finite s m e =>
      if (0 <=? e) || (Zpos m mod 2 ^ (- e) =? 0) then
        let a := if 0 <=? e then Zpos m * 2 ^ e else Zpos m / 2 ^ (- e) in Some (if s then - a else a)
      else None
  | S754_zero _ => Some 0
  | _ => None
  end.

(** ** [math.Exp2]: the portable routine of Go's math package

    Argument reduction by the nearest integer, then the minimax polynomial of the exponential. *)
Definition ln2_hi : f64 := f64_of_bits 0x3FE62E42FEE00000.
Definition ln2_lo : f64 := f64_of_bits 0x3DEA39EF35793C76.
Definition exp_p1 : f64 := f64_of_bits 0x3FC5555555555555.
Definition exp_p2 : f64 := f64_of_bits 0xBF66C16C16BEBD93.
Definition exp_p3 : f64 := f64_of_bits 0x3F11566AAF25DE2C.
Definition exp_p4 : f64 := f64_of_bits 0xBEBBBD41C5D26BF1.
Definition exp_p5 : f64 := f64_of_bits 0x3E66376972BEA4D0.
Definition f64_half : f64 := f64_of_bits 0x3FE0000000000000.
Definition f64_one : f64 := f64_of_int64 1.
Definition f64_two : f64 := f64_of_int64 2.

Definition expmulti (hi lo : f64) (k : Z) : f64 :=
  let r := f64_sub hi lo in
  let t := f64_mul r r in
  let poly :=
    f64_mul t (f64_add exp_p1 (f64_mul t (f64_add exp_p2 (f64_mul t
      (f64_add exp_p3 (f64_mul t (f64_add exp_p4 (f64_mul t exp_p5)))))))) in
  let c := f64_sub r poly in
  let y := f64_sub f64_one
             (f64_sub (f64_sub lo (f64_div (f64_mul r c) (f64_sub f64_two c))) hi) in
  SFldexp f64_prec f64_emax y k.

Definition math_Exp2 (x : f64) : f64 :=
  match x with
  | S754_nan => x
  | S754_infinity false => x
  | S754_infinity true => f64_zero
  | _ =>
      if f64_ltb (f64_of_bits 0x408FFFFFFFFFFFFF) x then S754_infinity false
      else if f64_ltb x (f64_opp (f64_of_int64 1074)) then f64_zero
      else
        let k := if f64_ltb f64_zero x then f64_trunc (f64_add x f64_half)
                 else if f64_ltb x f64_zero then f64_trunc (f64_sub x f64_half) else 0 in
        let t := f64_sub x (f64_of_int64 k) in
        expmulti (f64_mul t ln2_hi) (f64_mul (f64_opp t) ln2_lo) k
  end.

Example Exp2_minus_one : math_Exp2 (f64_of_int64 (-1)) = f64_half.
Proof. vm_compute. reflexivity. Qed.
Example Exp2_ten : math_Exp2 (f64_of_int64 10) = f64_of_int64 1024.
Proof. vm_compute. reflexivity. Qed.
Example trunc_quotient : f64_trunc (f64_div (f64_of_int64 1000) (f64_of_int64 3)) = 333.
Proof. vm_compute. reflexivity. Qed.
