(* ===== verification/FailoverController.v ===== *)
(** * Failover: the selection brain of one managed group

    Models [src/internal/failover/controller.go]: the health view a group is decided over, the
    policies and their tuning, [ideal] (the member a policy wants) and [Decide] (whether that
    switch may commit now). *)
From S2P Require Import Prelude.
Local Open Scope Z_scope.
Local Open Scope go_scope.

Record MemberHealth := {
  mh_ID : string;
  mh_Alive : bool;
  mh_LatencyMs : Z
}.

#[export] Instance MemberHealth_eq_dec : EqDecision MemberHealth.
Proof. solve_decision. Defined.

(** [Policy] is a Go string type, so a policy of another spelling exists and takes [ideal]'s
    default branch. *)
Definition Policy := string.
Definition PolicyLatency : Policy := "urltest".
Definition PolicyOrdered : Policy := "fallback".
Definition PolicySelector : Policy := "selector".

Record Config := {
  ToleranceMs : Z;
  MinDwellMS : Z;
  FailbackHoldMS : Z
}.

Definition defaultToleranceMs : Z := 50.
Definition defaultMinDwellMS : Z := 10000.
Definition defaultFailbackHoldMS : Z := 30000.

Definition tolerance (c : Config) : Z :=
  if 0 <? ToleranceMs c then ToleranceMs c else defaultToleranceMs.
Definition minDwell (c : Config) : Z :=
  if 0 <? MinDwellMS c then MinDwellMS c else defaultMinDwellMS.
Definition failbackHold (c : Config) : Z :=
  if 0 <? FailbackHoldMS c then FailbackHoldMS c else defaultFailbackHoldMS.

Record DecideInput := {
  in_Policy : Policy;
  in_Members : list MemberHealth;
  in_Current : string;
  in_LastSwitch : Z;
  in_Now : Z;
  in_Cfg : Config;
  in_CurrentRawAlive : option bool  (* nil or a pointer to a bool *)
}.

(** The three lookups over a member list. [memberAlive] and [lowestLatencyAlive] return the
    zero values Go returns beside a false [present] / [ok]. *)
Fixpoint memberAlive (ms : list MemberHealth) (id : string) : bool * Z * bool :=
  match ms with
  | [] => (false, 0, false)
  | m :: ms' =>
      if decide (mh_ID m = id) then (mh_Alive m, mh_LatencyMs m, true) else memberAlive ms' id
  end.

Fixpoint firstAlive (ms : list MemberHealth) : option string :=
  match ms with
  | [] => None
  | m :: ms' => if mh_Alive m then Some (mh_ID m) else firstAlive ms'
  end.

Fixpoint lowestLatencyAlive_loop (ms : list MemberHealth) (best : string) (bestLat : Z)
    (found : bool) : string * Z * bool :=
  match ms with
  | [] => (best, bestLat, found)
  | m :: ms' =>
      if negb (mh_Alive m) then lowestLatencyAlive_loop ms' best bestLat found
      else if negb found || (mh_LatencyMs m <? bestLat)
      then lowestLatencyAlive_loop ms' (mh_ID m) (mh_LatencyMs m) true
      else lowestLatencyAlive_loop ms' best bestLat found
  end.

Definition lowestLatencyAlive (ms : list MemberHealth) : string * Z * bool :=
  lowestLatencyAlive_loop ms "" 0 false.

(** [ideal]: the member the policy wants, and why, ignoring min-dwell. Latencies are measured
    times, so their difference is exact at any width of Go's [int]. *)
Definition ideal (i : DecideInput) : string * string :=
  let '(curAlive, curLat, _) := memberAlive (in_Members i) (in_Current i) in
  if decide (in_Policy i = PolicyOrdered) then
    match firstAlive (in_Members i) with
    | None => ("", "no live member")
    | Some m =>
        if decide (m = in_Current i) then (in_Current i, "stable (top healthy member)")
        else if curAlive then (m, "higher-priority member recovered")
        else (m, "current down → next healthy in order")
    end
  else if decide (in_Policy i = PolicySelector) then
    if negb (bool_decide (in_Current i = "")) && curAlive
    then (in_Current i, "manual pick still healthy")
    else match firstAlive (in_Members i) with
         | None => (in_Current i, "no live member")
         | Some m => (m, "manual pick down → first healthy")
         end
  else
    let '(best, bestLat, ok) := lowestLatencyAlive (in_Members i) in
    if negb ok then (in_Current i, "no live member")
    else if bool_decide (in_Current i = "") || negb curAlive then (best, "select fastest alive")
    else if tolerance (in_Cfg i) <? curLat - bestLat
    then (best, "a faster member beats current beyond tolerance")
    else (in_Current i, "stable (within latency tolerance)").

(** [Decide]: the member to route through, a reason, and whether the change may commit now. *)
Definition Decide (i : DecideInput) : string * string * bool :=
  let '(want, why) := ideal i in
  if bool_decide (want = "") || bool_decide (want = in_Current i)
  then (in_Current i, why, false)
  else
    let '(curAlive0, _, _) := memberAlive (in_Members i) (in_Current i) in
    let curAlive := match in_CurrentRawAlive i with Some b => b | None => curAlive0 end in
    let emergency := bool_decide (in_Current i = "") || negb curAlive in
    if negb emergency && (0 <? in_LastSwitch i)
       && ((in_Now i -! in_LastSwitch i) <? minDwell (in_Cfg i))
    then (in_Current i, "held (min-dwell)", false)
    else (want, why, true).

(** ** What a policy promises

    The abstract specification: the member a policy wants, stated by position and latency and not
    by a traversal. *)
Definition alive_at (ms : list MemberHealth) (k : nat) (m : MemberHealth) : Prop :=
  ms !! k = Some m /\ mh_Alive m = true.

Definition no_live (ms : list MemberHealth) : Prop :=
  forall k m, ms !! k = Some m -> mh_Alive m = false.

Definition first_live (ms : list MemberHealth) (m : MemberHealth) : Prop :=
  exists k, alive_at ms k m /\ forall j m', alive_at ms j m' -> (k <= j)%nat.

(** The earliest among the members of least latency. *)
Definition fastest_live (ms : list MemberHealth) (m : MemberHealth) : Prop :=
  exists k, alive_at ms k m /\
    forall j m', alive_at ms j m' ->
      mh_LatencyMs m < mh_LatencyMs m' \/ (mh_LatencyMs m = mh_LatencyMs m' /\ (k <= j)%nat).

Lemma alive_at_cons m ms j m' :
  alive_at (m :: ms) j m' <->
  (j = 0%nat /\ m' = m /\ mh_Alive m = true) \/ exists j', j = S j' /\ alive_at ms j' m'.
Proof. unfold alive_at. destruct j as [|j]; simpl; naive_solver. Qed.

Lemma firstAlive_None ms : firstAlive ms = None <-> no_live ms.
Proof.
  induction ms as [|m ms IH]; simpl.
  - split; [intros _ k m Hk; by rewrite lookup_nil in Hk | done].
  - destruct (mh_Alive m) eqn:Em.
    + split; [done|]. intros H. specialize (H 0%nat m eq_refl). congruence.
    + rewrite IH. split.
      * intros H [|k] m' Hk; simplify_eq/=; eauto.
      * intros H k m' Hk. by apply (H (S k) m').
Qed.

Lemma firstAlive_Some ms id :
  firstAlive ms = Some id -> exists m, first_live ms m /\ mh_ID m = id.
Proof.
  induction ms as [|m ms IH]; simpl; [done|]. destruct (mh_Alive m) eqn:Em.
  - intros [= <-]. exists m. split; [|done]. exists 0%nat. split; [done|]. intros; lia.
  - intros (m' & (k & Hk & Hmin) & Hid)%IH. exists m'. split; [|done].
    exists (S k). split; [apply alive_at_cons; eauto|].
    intros j m'' [(_ & _ & ?)|(j' & -> & Hj)]%alive_at_cons; [congruence|].
    specialize (Hmin j' m'' Hj). lia.
Qed.

Lemma first_live_unique ms m m' : first_live ms m -> first_live ms m' -> m = m'.
Proof.
  intros (k & Hk & Hmin) (k' & Hk' & Hmin').
  assert (k = k') as -> by (apply Nat.le_antisymm; eauto).
  destruct Hk, Hk'. congruence.
Qed.

Lemma fastest_live_unique ms m m' : fastest_live ms m -> fastest_live ms m' -> m = m'.
Proof.
  intros (k & Hk & Hmin) (k' & Hk' & Hmin').
  pose proof (Hmin k' m' Hk'). pose proof (Hmin' k m Hk).
  assert (k = k') as -> by lia. destruct Hk, Hk'. congruence.
Qed.

Lemma fastest_live_skip m ms m' :
  mh_Alive m = false \/ mh_LatencyMs m' < mh_LatencyMs m ->
  fastest_live ms m' -> fastest_live (m :: ms) m'.
Proof.
  intros Hm (k & Hk & Hmin). exists (S k). split; [apply alive_at_cons; eauto|].
  intros j m'' [(-> & -> & ?)|(j' & -> & Hj)]%alive_at_cons.
  - destruct Hm; [congruence|]. by left.
  - specialize (Hmin j' m'' Hj). lia.
Qed.

Lemma fastest_live_here m ms :
  mh_Alive m = true -> (forall k m', alive_at ms k m' -> mh_LatencyMs m <= mh_LatencyMs m') ->
  fastest_live (m :: ms) m.
Proof.
  intros Hm Hmin. exists 0%nat. split; [by split|].
  intros j m' [(-> & -> & _)|(j' & -> & Hj)]%alive_at_cons; [lia|].
  specialize (Hmin j' m' Hj). lia.
Qed.

(** The loop with a candidate in hand: the candidate stays unless something later is strictly
    faster, and then the earliest fastest of what follows wins. *)
Lemma lowestLatencyAlive_loop_found ms best lat id l ok :
  lowestLatencyAlive_loop ms best lat true = (id, l, ok) ->
  ok = true /\
  ((id = best /\ l = lat /\ forall k m, alive_at ms k m -> lat <= mh_LatencyMs m) \/
   (exists m, fastest_live ms m /\ id = mh_ID m /\ l = mh_LatencyMs m /\ l < lat)).
Proof.
  revert best lat; induction ms as [|m ms IH]; intros best lat; simpl.
  - intros [= <- <- <-]. split; [done|]. left. split_and!; try done.
    intros k m [Hk _]. by rewrite lookup_nil in Hk.
  - destruct (mh_Alive m) eqn:Em; simpl; [destruct (mh_LatencyMs m <? lat) eqn:El|];
      intros [-> Hr]%IH; (split; [done|]);
      destruct Hr as [(-> & -> & H)|(m' & Hf & -> & -> & Hl)].
    + right. exists m. split_and!; try done; [|lia]. by apply fastest_live_here.
    + right. exists m'. split_and!; try done; [|lia]. apply fastest_live_skip; [lia|done].
    + left. split_and!; try done.
      intros j m' [(-> & -> & _)|(j' & -> & Hj)]%alive_at_cons; [lia|eauto].
    + right. exists m'. split_and!; try done. apply fastest_live_skip; [lia|done].
    + left. split_and!; try done.
      intros j m' [(_ & _ & ?)|(j' & -> & Hj)]%alive_at_cons; [congruence|eauto].
    + right. exists m'. split_and!; try done. apply fastest_live_skip; [by left|done].
Qed.

Lemma lowestLatencyAlive_spec ms id l ok :
  lowestLatencyAlive ms = (id, l, ok) ->
  (ok = true /\ exists m, fastest_live ms m /\ id = mh_ID m /\ l = mh_LatencyMs m) \/
  (ok = false /\ no_live ms).
Proof.
  unfold lowestLatencyAlive. induction ms as [|m ms IH]; simpl.
  - intros [= <- <- <-]. right. split; [done|]. intros k m Hk. by rewrite lookup_nil in Hk.
  - destruct (mh_Alive m) eqn:Em; simpl.
    + intros [-> [(-> & -> & H)|(m' & Hf & -> & -> & Hl)]]%lowestLatencyAlive_loop_found;
        left; (split; [done|]).
      * exists m. split_and!; try done. by apply fastest_live_here.
      * exists m'. split_and!; try done. apply fastest_live_skip; [lia|done].
    + intros [[-> (m' & Hf & -> & ->)]|[-> Hn]]%IH.
      * left. split; [done|]. exists m'. split_and!; try done.
        apply fastest_live_skip; [by left|done].
      * right. split; [done|]. intros [|k] m' Hk; simplify_eq/=; eauto.
Qed.

(** The entry the code reads for the current member: the first of that name. *)
Definition incumbent (ms : list MemberHealth) (id : string) (m : MemberHealth) : Prop :=
  exists k, ms !! k = Some m /\ mh_ID m = id /\
    forall j m', ms !! j = Some m' -> mh_ID m' = id -> (k <= j)%nat.

Definition incumbent_live (i : DecideInput) (m : MemberHealth) : Prop :=
  in_Current i <> "" /\ incumbent (in_Members i) (in_Current i) m /\ mh_Alive m = true.

Lemma incumbent_cons m ms id m' :
  incumbent (m :: ms) id m' <->
  (mh_ID m = id /\ m' = m) \/ (mh_ID m <> id /\ incumbent ms id m').
Proof.
  split.
  - intros ([|k] & Hk & Hid & Hmin); simplify_eq/=; [by left|].
    destruct (decide (mh_ID m = mh_ID m')) as [E|E]; [specialize (Hmin 0%nat m eq_refl E); lia|].
    right. split; [done|]. exists k. split_and!; try done.
    intros j mj Hj Hidj. specialize (Hmin (S j) mj Hj Hidj). lia.
  - intros [[Hid ->]|[Hne (k & Hk & Hid & Hmin)]].
    + exists 0%nat. split_and!; try done. intros; lia.
    + exists (S k). split_and!; try done. intros [|j] mj Hj Hidj; simplify_eq/=.
      specialize (Hmin j mj Hj Hidj). lia.
Qed.

Lemma incumbent_unique ms id m m' : incumbent ms id m -> incumbent ms id m' -> m = m'.
Proof.
  induction ms as [|x ms IH].
  - intros (k & Hk & _) _. by rewrite lookup_nil in Hk.
  - rewrite !incumbent_cons. intuition congruence.
Qed.

Lemma memberAlive_spec ms id a l p :
  memberAlive ms id = (a, l, p) ->
  (p = true /\ exists m, incumbent ms id m /\ a = mh_Alive m /\ l = mh_LatencyMs m) \/
  (p = false /\ a = false /\ forall m, ~ incumbent ms id m).
Proof.
  induction ms as [|m ms IH]; simpl.
  - intros [= <- <- <-]. right. split_and!; try done.
    intros m (k & Hk & _). by rewrite lookup_nil in Hk.
  - case_decide as E.
    + intros [= <- <- <-]. left. split; [done|]. exists m. rewrite incumbent_cons. eauto.
    + intros [[-> (m' & Hi & -> & ->)]|(-> & -> & H)]%IH.
      * left. split; [done|]. exists m'. rewrite incumbent_cons. eauto.
      * right. split_and!; try done. intros m'. rewrite incumbent_cons. naive_solver.
Qed.

Lemma incumbent_live_unique i c c' : incumbent_live i c -> incumbent_live i c' -> c = c'.
Proof. intros (_ & H & _) (_ & H' & _). eauto using incumbent_unique. Qed.

(** What each policy wants of a view. *)
Inductive wants (i : DecideInput) : string -> Prop :=
| wants_ordered m :
    in_Policy i = PolicyOrdered -> first_live (in_Members i) m -> wants i (mh_ID m)
| wants_ordered_none :
    in_Policy i = PolicyOrdered -> no_live (in_Members i) -> wants i ""
| wants_pick m :
    in_Policy i = PolicySelector -> incumbent_live i m -> wants i (in_Current i)
| wants_pick_down m :
    in_Policy i = PolicySelector -> (forall c, ~ incumbent_live i c) ->
    first_live (in_Members i) m -> wants i (mh_ID m)
| wants_pick_none :
    in_Policy i = PolicySelector -> no_live (in_Members i) -> wants i (in_Current i)
| wants_fastest m :
    in_Policy i <> PolicyOrdered -> in_Policy i <> PolicySelector ->
    (forall c, ~ incumbent_live i c) -> fastest_live (in_Members i) m -> wants i (mh_ID m)
| wants_faster c m :
    in_Policy i <> PolicyOrdered -> in_Policy i <> PolicySelector ->
    incumbent_live i c -> fastest_live (in_Members i) m ->
    tolerance (in_Cfg i) < mh_LatencyMs c - mh_LatencyMs m -> wants i (mh_ID m)
| wants_stable c m :
    in_Policy i <> PolicyOrdered -> in_Policy i <> PolicySelector ->
    incumbent_live i c -> fastest_live (in_Members i) m ->
    mh_LatencyMs c - mh_LatencyMs m <= tolerance (in_Cfg i) -> wants i (in_Current i)
| wants_latency_none :
    in_Policy i <> PolicyOrdered -> in_Policy i <> PolicySelector ->
    no_live (in_Members i) -> wants i (in_Current i).

(** The lookups compute exactly the specification's members. *)
Lemma firstAlive_eq ms m : first_live ms m -> firstAlive ms = Some (mh_ID m).
Proof.
  intros H. destruct (firstAlive ms) as [id|] eqn:E.
  - apply firstAlive_Some in E as (m' & H' & <-). by rewrite (first_live_unique _ _ _ H H').
  - destruct H as (k & [Hk Ha] & _).
    rewrite (proj1 (firstAlive_None ms) E k m Hk) in Ha. done.
Qed.

Lemma lowestLatencyAlive_eq ms m :
  fastest_live ms m -> lowestLatencyAlive ms = (mh_ID m, mh_LatencyMs m, true).
Proof.
  intros H. destruct (lowestLatencyAlive ms) as [[id l] ok] eqn:E.
  apply lowestLatencyAlive_spec in E as [[-> (m' & H' & -> & ->)]|[-> Hn]].
  - by rewrite (fastest_live_unique _ _ _ H H').
  - destruct H as (k & [Hk Ha] & _). rewrite (Hn k m Hk) in Ha. done.
Qed.

Lemma lowestLatencyAlive_none ms : no_live ms -> (lowestLatencyAlive ms).2 = false.
Proof.
  intros Hn. destruct (lowestLatencyAlive ms) as [[id l] ok] eqn:E.
  apply lowestLatencyAlive_spec in E as [[-> (m' & (k & [Hk Ha] & _) & _)]|[-> _]]; [|done].
  rewrite (Hn k m' Hk) in Ha. done.
Qed.

Lemma memberAlive_eq ms id m :
  incumbent ms id m -> memberAlive ms id = (mh_Alive m, mh_LatencyMs m, true).
Proof.
  intros H. destruct (memberAlive ms id) as [[a l] p] eqn:E.
  apply memberAlive_spec in E as [[-> (m' & H' & -> & ->)]|(_ & _ & Hn)]; [|by destruct (Hn m)].
  by rewrite (incumbent_unique _ _ _ _ H H').
Qed.

(** The incumbent's aliveness as the code tests it. *)
Lemma incumbent_live_dec i a l p :
  memberAlive (in_Members i) (in_Current i) = (a, l, p) ->
  (negb (bool_decide (in_Current i = "")) && a = true /\
     exists c, incumbent_live i c /\ a = true /\ l = mh_LatencyMs c) \/
  (negb (bool_decide (in_Current i = "")) && a = false /\ forall c, ~ incumbent_live i c).
Proof.
  intros E. unfold incumbent_live. case_bool_decide as Ec; simpl.
  - right. split; [done|]. naive_solver.
  - apply memberAlive_spec in E as [[-> (m & Hm & -> & ->)]|(-> & -> & Hn)].
    + destruct (mh_Alive m) eqn:Ea; [left; eauto 10|right; split; [done|]].
      intros c (_ & Hc & Hca). rewrite (incumbent_unique _ _ _ _ Hc Hm) in Hca. congruence.
    + right. split; [done|]. naive_solver.
Qed.

Lemma ideal_sound i : wants i (ideal i).1.
Proof.
  unfold ideal. destruct (memberAlive _ _) as [[a l] p] eqn:E.
  apply incumbent_live_dec in E.
  destruct (decide (in_Policy i = PolicyOrdered)) as [Ho|Ho];
    [|destruct (decide (in_Policy i = PolicySelector)) as [Hs|Hs]].
  - destruct (firstAlive _) as [m|] eqn:Ef.
    + apply firstAlive_Some in Ef as (m' & Hm & <-).
      pose proof (wants_ordered i m' Ho Hm). repeat case_match; simpl; congruence.
    + apply wants_ordered_none; [done|]. by apply firstAlive_None.
  - destruct E as [[-> (c & Hc & _ & _)]|[-> Hn]]; [by eapply wants_pick|].
    destruct (firstAlive _) as [m|] eqn:Ef; simpl.
    + apply firstAlive_Some in Ef as (m' & Hm & <-). by apply wants_pick_down.
    + apply wants_pick_none; [done|]. by apply firstAlive_None.
  - destruct (lowestLatencyAlive _) as [[best bl] ok] eqn:El.
    apply lowestLatencyAlive_spec in El as [[-> (m & Hm & -> & ->)]|[-> Hn]]; simpl;
      [|by apply wants_latency_none].
    assert (bool_decide (in_Current i = "") || negb a
            = negb (negb (bool_decide (in_Current i = "")) && a)) as ->
      by (destruct (bool_decide _), a; done).
    destruct E as [[-> (c & Hc & -> & ->)]|[-> Hn]]; simpl; [|by apply wants_fastest].
    case_match; simpl; [eapply wants_faster|eapply wants_stable]; eauto; lia.
Qed.

Lemma alive_not_none ms k m : alive_at ms k m -> ~ no_live ms.
Proof. intros [Hk Ha] H. rewrite (H k m Hk) in Ha. done. Qed.
Lemma incumbent_live_live i c : incumbent_live i c -> ~ no_live (in_Members i).
Proof. intros (_ & (k & Hk & _) & Ha). by apply (alive_not_none _ k c). Qed.

(** Closes a case where two clauses of [wants] exclude each other. *)
Ltac clauses_exclude :=
  match goal with
  | H : ?p = _, H' : ?p <> _ |- _ => contradiction
  | H : ?p = PolicyOrdered, H' : ?p = PolicySelector |- _ => rewrite H in H'; discriminate
  | H : first_live ?ms _, H' : no_live ?ms |- _ =>
      destruct H as (? & ? & _); by eapply alive_not_none in H'
  | H : fastest_live ?ms _, H' : no_live ?ms |- _ =>
      destruct H as (? & ? & _); by eapply alive_not_none in H'
  | H : incumbent_live _ _, H' : no_live _ |- _ => by apply incumbent_live_live in H
  | H : incumbent_live _ ?c, H' : forall c, ~ incumbent_live _ c |- _ => by destruct (H' c)
  end.

Lemma wants_unique i x y : wants i x -> wants i y -> x = y.
Proof.
  intros Hx Hy. destruct Hx; destruct Hy; try done; try (exfalso; clauses_exclude);
    repeat match goal with
    | H : first_live ?a ?b, H' : first_live ?a ?c |- _ =>
        pose proof (first_live_unique _ _ _ H H'); clear H'
    | H : fastest_live ?a ?b, H' : fastest_live ?a ?c |- _ =>
        pose proof (fastest_live_unique _ _ _ H H'); clear H'
    | H : incumbent_live ?a ?b, H' : incumbent_live ?a ?c |- _ =>
        pose proof (incumbent_live_unique _ _ _ H H'); clear H'
    end; subst; try done; lia.
Qed.

(** [changed] is decided by the incumbent's raw verdict when the caller gives one. *)
Definition incumbent_dead (i : DecideInput) : bool :=
  bool_decide (in_Current i = "") ||
  negb (match in_CurrentRawAlive i with
        | Some b => b
        | None => (memberAlive (in_Members i) (in_Current i)).1.1
        end).

Definition dwell_elapsed (i : DecideInput) : bool :=
  (in_LastSwitch i <=? 0) || (minDwell (in_Cfg i) <=? (in_Now i -! in_LastSwitch i)).

Lemma Decide_unfold i :
  Decide i =
    if bool_decide ((ideal i).1 = "") || bool_decide ((ideal i).1 = in_Current i)
    then (in_Current i, (ideal i).2, false)
    else if incumbent_dead i || dwell_elapsed i then ((ideal i).1, (ideal i).2, true)
    else (in_Current i, "held (min-dwell)", false).
Proof.
  unfold Decide, incumbent_dead, dwell_elapsed. destruct (ideal i) as [w r]; simpl.
  destruct (memberAlive _ _) as [[a l] p]; simpl.
  case_match; [done|].
  destruct (bool_decide (in_Current i = "")), (match in_CurrentRawAlive i with _ => _ end); simpl;
    try done; destruct (0 <? in_LastSwitch i) eqn:E1, (_ <? minDwell _) eqn:E2;
    simpl; repeat case_match; try done; lia.
Qed.

(** C38: [ideal] implements the policies' specification: the member it returns is the one the
    policy wants, and the only one. Latencies are taken as integers without a width: the difference of
    two measured delays does not wrap. *)
Theorem ideal_refines i x : wants i x <-> x = (ideal i).1.
Proof.
  split; [|intros ->; apply ideal_sound].
  intros H. eapply wants_unique; [done|apply ideal_sound].
Qed.

(** A switch commits exactly when the policy wants another named member, and the incumbent is
    dead (by the raw verdict when there is one) or min-dwell has elapsed; otherwise the answer is
    the current member. *)
Theorem Decide_commits i d :
  (exists r, Decide i = (d, r, true)) <->
  (wants i d /\ d <> "" /\ d <> in_Current i /\ (incumbent_dead i = true \/ dwell_elapsed i = true)).
Proof.
  rewrite ideal_refines, Decide_unfold. split.
  - intros [r H]. repeat case_match; simplify_eq.
    apply orb_false_iff in H0 as [H0 H0']. bool_facts. rewrite orb_true_iff in H1. naive_solver.
  - intros (-> & He & Hc & Hd). rewrite !bool_decide_false by done. simpl.
    apply orb_true_iff in Hd. rewrite Hd. eauto.
Qed.

(** [Decide] never moves traffic to a dead exit, and an answer without a change is the member
    already selected. *)
Theorem Decide_live i d r ch :
  Decide i = (d, r, ch) ->
  (ch = false /\ d = in_Current i) \/
  (ch = true /\ exists m, m ∈ in_Members i /\ mh_ID m = d /\ mh_Alive m = true).
Proof.
  intros E. destruct ch; [right|left].
  - split; [done|].
    destruct (proj1 (Decide_commits i d)) as (Hw & He & Hc & _); [by exists r|].
    assert (Hin : forall k m, alive_at (in_Members i) k m -> m ∈ in_Members i)
      by (intros k m [Hk _]; by apply list_elem_of_lookup_2 in Hk).
    inversion Hw as [m ? (k & Hk & _)| | |m ? ? (k & Hk & _)| |m ? ? ? (k & Hk & _)
                    |c m ? ? ? (k & Hk & _)| |]; subst; try done;
      destruct (Hk) as [_ ?]; eauto.
  - rewrite Decide_unfold in E. repeat case_match; by simplify_eq.
Qed.

Lemma alive_at_mono ms k m : alive_at ms k m -> m ∈ ms.
Proof. intros [Hk _]. by eapply list_elem_of_lookup_2. Qed.

Lemma ideal_other i m :
  m ∈ in_Members i -> mh_Alive m = true ->
  (forall m', m' ∈ in_Members i -> mh_Alive m' = true -> mh_ID m' <> "" /\ mh_ID m' <> in_Current i) ->
  (ideal i).1 <> "" /\ (ideal i).1 <> in_Current i.
Proof.
  intros Hm Ha Hall. apply list_elem_of_lookup in Hm as [k Hk].
  assert (Hnn : ~ no_live (in_Members i)) by (by eapply (alive_not_none _ k m)).
  assert (Hni : forall c, ~ incumbent_live i c).
  { intros c (Hne & (j & Hj & Hid & _) & Hca). apply list_elem_of_lookup_2 in Hj.
    by destruct (Hall c Hj Hca). }
  pose proof (ideal_sound i) as Hw.
  inversion Hw as [x ? (j & Hj & _)|?|x ? Hc|x ? ? (j & Hj & _)|?|x ? ? ? (j & Hj & _)
                  |c x ? ? Hc|c x ? ? Hc|?]; try done; try (by destruct (Hni _ Hc));
    (apply Hall; [by eapply alive_at_mono|by destruct Hj]).
Qed.

(** An emergency is never held: when the incumbent is dead and some exit with another name is
    alive, [Decide] commits a switch at once, whatever the dwell clock says. *)
Theorem Decide_emergency i m :
  incumbent_dead i = true ->
  m ∈ in_Members i -> mh_Alive m = true ->
  (forall m', m' ∈ in_Members i -> mh_Alive m' = true -> mh_ID m' <> "" /\ mh_ID m' <> in_Current i) ->
  exists d r, Decide i = (d, r, true).
Proof.
  intros Hd Hm Ha Hall. destruct (ideal_other i m Hm Ha Hall) as [He Hc].
  rewrite Decide_unfold, Hd, !bool_decide_false by done. simpl. eauto.
Qed.

(** A group of three exits: the current one is dead, the third answers fastest. *)
Definition sample_members : list MemberHealth :=
  [ {| mh_ID := "a"; mh_Alive := false; mh_LatencyMs := 0 |};
    {| mh_ID := "b"; mh_Alive := true; mh_LatencyMs := 80 |};
    {| mh_ID := "c"; mh_Alive := true; mh_LatencyMs := 30 |} ].
Definition sample_input : DecideInput :=
  {| in_Policy := PolicyLatency; in_Members := sample_members; in_Current := "a";
     in_LastSwitch := 1000; in_Now := 1500;
     in_Cfg := {| ToleranceMs := 0; MinDwellMS := 0; FailbackHoldMS := 0 |};
     in_CurrentRawAlive := None |}.

Lemma Decide_live_witness :
  (true = false /\ "c"%string = in_Current sample_input) \/
  (true = true /\ exists m, m ∈ in_Members sample_input /\ mh_ID m = "c" /\ mh_Alive m = true).
Proof. apply (Decide_live sample_input "c" "select fastest alive" true). reflexivity. Defined.

Lemma Decide_emergency_witness : exists d r, Decide sample_input = (d, r, true).
Proof.
  apply (Decide_emergency sample_input {| mh_ID := "b"; mh_Alive := true; mh_LatencyMs := 80 |}).
  - reflexivity.
  - simpl. set_solver.
  - reflexivity.
  - simpl. unfold sample_members. set_unfold. intros m' [->|[->|[->|[]]]]; done.
Defined.
