(* ===== verification/FailoverDetectors.v ===== *)
(** * Failover: the two detectors that hide a member from selection

    [Damper] models [src/internal/failover/damper.go] (route-flap damping: a decaying penalty with
    hysteresis and a hard cap) and [Outlier] models [src/internal/failover/outlier.go] (passive
    ejection on real-traffic failures). Both keep one record per member, in a Go map of pointers
    that no other code holds, so the map is a [gmap] and a pointer's write is an insert. *)
From S2P Require Import Prelude Util.
Local Open Scope Z_scope.
Local Open Scope go_scope.

Module Damper.

Record dampState := {
  penalty : f64;
  lastUpdate : Z;
  seen : bool;
  suppressed : bool;
  suppSince : Z
}.

Record DampConfig := {
  FlapPenalty : f64;
  HalfLifeMS : Z;
  SuppressAt : f64;
  ReuseAt : f64;
  MaxSuppressMS : Z
}.

Definition defaultFlapPenalty : f64 := f64_of_int64 1000.
Definition defaultHalfLifeMS : Z := 90000.
Definition defaultSuppressAt : f64 := f64_of_int64 2000.
Definition defaultReuseAt : f64 := f64_of_int64 750.
Definition defaultMaxSuppressMS : Z := 600000.

Definition flapPenalty (c : DampConfig) : f64 :=
  if f64_ltb f64_zero (FlapPenalty c) then FlapPenalty c else defaultFlapPenalty.
Definition halfLife (c : DampConfig) : Z :=
  if 0 <? HalfLifeMS c then HalfLifeMS c else defaultHalfLifeMS.
Definition suppressAt (c : DampConfig) : f64 :=
  if f64_ltb f64_zero (SuppressAt c) then SuppressAt c else defaultSuppressAt.
Definition reuseAt (c : DampConfig) : f64 :=
  if f64_ltb f64_zero (ReuseAt c) then ReuseAt c else defaultReuseAt.
Definition maxSuppress (c : DampConfig) : Z :=
  if 0 <? MaxSuppressMS c then MaxSuppressMS c else defaultMaxSuppressMS.

Record t := { cfg : DampConfig; state : gmap string dampState }.

Definition NewDamper (c : DampConfig) : t := {| cfg := c; state := ∅ |}.

(** [&dampState{}]: the zero value [get] creates. *)
Definition zeroState : dampState :=
  {| penalty := f64_zero; lastUpdate := 0; seen := false; suppressed := false; suppSince := 0 |}.

Definition get (d : t) (member : string) : dampState := default zeroState (state d !! member).

Definition put (d : t) (member : string) (s : dampState) : t :=
  {| cfg := cfg d; state := <[member := s]> (state d) |}.

Section damper.
(** [math.Exp2], the only transcendental the penalty uses: the lemmas below hold whatever it
    computes; [math_Exp2] is the instance the examples evaluate. *)
Variable Exp2 : f64 -> f64.

Definition decay (d : t) (s : dampState) (now : Z) : dampState :=
  {| penalty :=
       if seen s && (lastUpdate s <? now)
       then f64_mul (penalty s)
              (Exp2 (f64_div (f64_opp (f64_of_int64 (now -! lastUpdate s)))
                             (f64_of_int64 (halfLife (cfg d)))))
       else penalty s;
     lastUpdate := now; seen := true;
     suppressed := suppressed s; suppSince := suppSince s |}.

Definition Penalize (d : t) (member : string) (now : Z) : t :=
  let s := decay d (get d member) now in
  put d member
    {| penalty := f64_add (penalty s) (flapPenalty (cfg d)); lastUpdate := lastUpdate s;
       seen := seen s; suppressed := suppressed s; suppSince := suppSince s |}.

(** [Suppressed] reads and writes: it decays, then applies the hysteresis. *)
Definition Suppressed (d : t) (member : string) (now : Z) : t * bool :=
  match state d !! member with
  | None => (d, false)
  | Some s0 =>
      let s := decay d s0 now in
      let s' :=
        if suppressed s then
          if f64_leb (penalty s) (reuseAt (cfg d)) || (maxSuppress (cfg d) <=? (now -! suppSince s))
          then {| penalty := penalty s; lastUpdate := lastUpdate s; seen := seen s;
                  suppressed := false; suppSince := suppSince s |}
          else s
        else if f64_ltb (suppressAt (cfg d)) (penalty s)
        then {| penalty := penalty s; lastUpdate := lastUpdate s; seen := seen s;
                suppressed := true; suppSince := now |}
        else s in
      (put d member s', suppressed s')
  end.

(** What the runner does to a damper: a flap, or a question. *)
Inductive op := Flap (member : string) (now : Z) | Ask (member : string) (now : Z).

Definition run_op (d : t) (o : op) : t :=
  match o with
  | Flap m now => Penalize d m now
  | Ask m now => (Suppressed d m now).1
  end.

Definition run (d : t) (os : list op) : t := foldl run_op d os.

Definition op_time (o : op) : Z := match o with Flap _ now | Ask _ now => now end.
Definition op_flaps (m : string) (o : op) : bool :=
  match o with Flap m' _ => bool_decide (m' = m) | Ask _ _ => false end.

(** Both operations touch one member's record and leave the tuning alone. *)
Lemma run_op_cfg d o : cfg (run_op d o) = cfg d.
Proof. destruct o as [|m now]; [done|]. simpl. unfold Suppressed. by destruct (state d !! m). Qed.

Lemma Penalize_other d m m' now : m <> m' -> state (Penalize d m now) !! m' = state d !! m'.
Proof. intros. simpl. by rewrite lookup_insert_ne. Qed.
Lemma Suppressed_other d m m' now :
  m <> m' -> state (Suppressed d m now).1 !! m' = state d !! m'.
Proof.
  intros. unfold Suppressed. destruct (state d !! m); [|done].
  simpl. by rewrite lookup_insert_ne.
Qed.

Lemma run_op_untouched d m o : op_flaps m o = false -> state d !! m = None ->
  state (run_op d o) !! m = None.
Proof.
  destruct o as [m' now|m' now]; simpl; intros Hf Hn.
  - bool_facts. by rewrite lookup_insert_ne.
  - destruct (decide (m' = m)) as [->|]; [unfold Suppressed; by rewrite Hn|].
    by rewrite Suppressed_other.
Qed.

Lemma run_untouched d m os : state d !! m = None -> forallb (fun o => negb (op_flaps m o)) os = true ->
  state (run d os) !! m = None.
Proof.
  revert d; induction os as [|o os IH]; intros d Hd Ho; [done|].
  simpl in Ho. bool_facts. apply IH; [|done]. by apply run_op_untouched.
Qed.

(** ** The cap: a suppression that is still reported began less than the cap ago *)
Definition since_ok (now : Z) (s : dampState) : Prop :=
  suppressed s = true -> is_time (suppSince s) /\ suppSince s <= now.

Definition clock_ok (now : Z) (d : t) : Prop :=
  forall m s, state d !! m = Some s -> since_ok now s.

Lemma clock_ok_put now d m s : clock_ok now d -> since_ok now s -> clock_ok now (put d m s).
Proof.
  intros Hd Hs m' s'. simpl. destruct (decide (m = m')) as [->|Hne].
  - rewrite lookup_insert_eq. by intros [= <-].
  - rewrite lookup_insert_ne by done. apply Hd.
Qed.

Lemma clock_ok_mono t1 t2 d : t1 <= t2 -> clock_ok t1 d -> clock_ok t2 d.
Proof. intros Ht Hd m s Hs Hsup. destruct (Hd m s Hs Hsup). split; [done|lia]. Qed.

Lemma Suppressed_clock d m now d' b :
  is_time now -> clock_ok now d -> Suppressed d m now = (d', b) ->
  clock_ok now d' /\
  (b = true -> exists s, state d' !! m = Some s /\
     0 <= now - suppSince s < maxSuppress (cfg d)).
Proof.
  intros Hnow Hd. unfold Suppressed. destruct (state d !! m) as [s0|] eqn:E.
  2: { intros [= <- <-]. done. }
  specialize (Hd m s0 E) as H0. assert (Hm : 0 < maxSuppress (cfg d)).
  { unfold maxSuppress, defaultMaxSuppressMS. case_match; lia. }
  cbn [suppressed decay penalty lastUpdate seen suppSince].
  destruct (suppressed s0) eqn:Es.
  - destruct (H0 Es) as [Ht Hle]. rewrite (wrap64_sub_time now (suppSince s0)) by done. case_match; intros [= <- <-].
    + split; [by apply clock_ok_put|simpl; discriminate].
    + split; [apply clock_ok_put; [done|]; by intros _|].
      intros _. eexists. simpl. rewrite lookup_insert_eq. split; [done|]. simpl. bool_facts. lia.
  - case_match; intros [= <- <-].
    + split; [apply clock_ok_put; [done|]; by intros _|].
      intros _. eexists. simpl. rewrite lookup_insert_eq. split; [done|]. simpl. lia.
    + split; [apply clock_ok_put; [done|]; intros ?; simpl in *; congruence|].
      simpl. rewrite Es. discriminate.
Qed.

Lemma run_op_clock d o now :
  is_time (op_time o) -> now <= op_time o -> clock_ok now d -> clock_ok (op_time o) (run_op d o).
Proof.
  intros Ht Hle Hd%(clock_ok_mono _ (op_time o)); [|done]. destruct o as [m tm|m tm]; simpl in *.
  - apply clock_ok_put; [done|]. unfold since_ok, get. simpl.
    destruct (state d !! m) as [s|] eqn:E; simpl; [|done]. by apply (Hd m s).
  - destruct (Suppressed d m tm) as [d' b] eqn:E. by eapply Suppressed_clock in E as [? _].
Qed.

(** The calls come with a clock that never goes back. *)
Fixpoint ordered_from (now : Z) (os : list op) : Prop :=
  match os with
  | [] => True
  | o :: os' => is_time (op_time o) /\ now <= op_time o /\ ordered_from (op_time o) os'
  end.
Definition last_time (now : Z) (os : list op) : Z := foldl (fun _ o => op_time o) now os.

Lemma run_clock d os now :
  clock_ok now d -> ordered_from now os -> clock_ok (last_time now os) (run d os).
Proof.
  revert d now; induction os as [|o os IH]; intros d now Hd Ho; [done|].
  destruct Ho as (Ht & Hle & Ho). apply IH; [by eapply run_op_clock|done].
Qed.

Lemma run_cfg d os : cfg (run d os) = cfg d.
Proof. revert d; induction os as [|o os IH]; intros d; [done|]. simpl. by rewrite IH, run_op_cfg. Qed.

End damper.

(** After any history of flaps and questions, in clock order, a member reported suppressed has
    flapped before, and its current suppression began less than MaxSuppress ago: damping cannot
    exclude an exit for longer than the cap. *)
Theorem suppression_bounded Exp2 c os m now d b :
  ordered_from 0 os -> is_time now -> last_time 0 os <= now ->
  Suppressed Exp2 (run Exp2 (NewDamper c) os) m now = (d, b) -> b = true ->
  existsb (op_flaps m) os = true /\
  exists s, state d !! m = Some s /\ 0 <= now - suppSince s < maxSuppress c.
Proof.
  intros Ho Hnow Hle HS ->. split.
  - destruct (existsb (op_flaps m) os) eqn:E; [done|]. exfalso.
    assert (Hn : state (run Exp2 (NewDamper c) os) !! m = None).
    { apply run_untouched; [done|]. apply forallb_forall. intros o Ho'.
      destruct (op_flaps m o) eqn:Ef; [|done]. exfalso.
      assert (existsb (op_flaps m) os = true) by (apply existsb_exists; eauto). congruence. }
    unfold Suppressed in HS. by rewrite Hn in HS.
  - assert (Hc : clock_ok now (run Exp2 (NewDamper c) os)).
    { apply (clock_ok_mono (last_time 0 os)); [done|]. apply run_clock; [|done].
      intros m' s'. simpl. by rewrite lookup_empty. }
    eapply Suppressed_clock in HS as [_ HS]; [|done|done]. rewrite run_cfg in HS. by apply HS.
Qed.

(** The hysteresis. A question decays the penalty to now; a free member becomes suppressed
    exactly when the decayed penalty exceeds SuppressAt, a suppressed one is released exactly when
    it has fallen to ReuseAt or the cap has elapsed, and nothing else changes. *)
Theorem Suppressed_hysteresis Exp2 d m now s :
  state d !! m = Some s ->
  let p := penalty (decay Exp2 d s now) in
  (Suppressed Exp2 d m now).2 =
    (if suppressed s
     then negb (f64_leb p (reuseAt (cfg d))) && (now -! suppSince s <? maxSuppress (cfg d))
     else f64_ltb (suppressAt (cfg d)) p) /\
  (exists s', state (Suppressed Exp2 d m now).1 !! m = Some s' /\ penalty s' = p /\
     suppressed s' = (Suppressed Exp2 d m now).2 /\
     suppSince s' = if negb (suppressed s) && suppressed s' then now else suppSince s) /\
  forall m', m <> m' -> state (Suppressed Exp2 d m now).1 !! m' = state d !! m'.
Proof.
  intros Hs p. split_and!; [| |intros; by apply Suppressed_other];
    unfold Suppressed; rewrite Hs; cbn [suppressed decay]; fold p;
    destruct (suppressed s) eqn:Es.
  - destruct (f64_leb p _) eqn:El; simpl; [done|].
    destruct (maxSuppress _ <=? _) eqn:Em; simpl; rewrite ?Es; lia.
  - destruct (f64_ltb _ p) eqn:El; simpl; congruence.
  - eexists. simpl. rewrite lookup_insert_eq. split; [done|]. by case_match; simpl; rewrite ?Es.
  - eexists. simpl. rewrite lookup_insert_eq. split; [done|]. by case_match; simpl; rewrite ?Es.
Qed.

(** The production tuning: two flaps together do not suppress, a third does, and the cap frees the
    member ten minutes later even if it kept flapping. *)
Definition default_cfg : DampConfig :=
  {| FlapPenalty := f64_zero; HalfLifeMS := 0; SuppressAt := f64_zero; ReuseAt := f64_zero;
     MaxSuppressMS := 0 |}.
Definition flaps (n : nat) (tm : Z) : list op := replicate n (Flap "x" tm).

Example two_flaps_pass :
  (Suppressed math_Exp2 (run math_Exp2 (NewDamper default_cfg) (flaps 2 1000)) "x" 1000).2 = false.
Proof. vm_compute. reflexivity. Qed.
Example third_flap_suppresses :
  (Suppressed math_Exp2 (run math_Exp2 (NewDamper default_cfg) (flaps 3 1000)) "x" 1000).2 = true.
Proof. vm_compute. reflexivity. Qed.
Example cap_releases :
  (Suppressed math_Exp2
     (run math_Exp2 (NewDamper default_cfg)
        (flaps 3 1000 ++ [Ask "x" 1000] ++ flaps 9 600999)) "x" 601000).2 = false.
Proof. vm_compute. reflexivity. Qed.

Lemma suppression_bounded_witness :
  existsb (op_flaps "x") (flaps 3 1000) = true /\
  exists s,
    state (Suppressed math_Exp2 (run math_Exp2 (NewDamper default_cfg) (flaps 3 1000)) "x" 2000).1
      !! "x" = Some s /\ 0 <= 2000 - suppSince s < maxSuppress default_cfg.
Proof.
  apply (suppression_bounded math_Exp2 default_cfg (flaps 3 1000) "x" 2000 _ true).
  - simpl. unfold is_time. lia.
  - unfold is_time. lia.
  - vm_compute. discriminate.
  - vm_compute. reflexivity.
  - reflexivity.
Defined.

Lemma Suppressed_hysteresis_witness :
  (Suppressed math_Exp2 (put (NewDamper default_cfg) "x" zeroState) "x" 5).2 = false.
Proof.
  destruct (Suppressed_hysteresis math_Exp2 (put (NewDamper default_cfg) "x" zeroState) "x" 5
              zeroState) as [H _]; [reflexivity|].
  rewrite H. vm_compute. reflexivity.
Defined.

End Damper.

Module Outlier.

Record outlierState := {
  consecFails : Z;
  ejections : Z;
  ejectedUntil : Z
}.

Record OutlierConfig := {
  ConsecutiveFailures : Z;
  BaseEjectionMS : Z;
  MaxEjectionMS : Z
}.

Definition defaultConsecutiveFailures : Z := 5.
Definition defaultBaseEjectionMS : Z := 30000.
Definition defaultMaxEjectionMS : Z := 300000.

Definition consecutiveFailures (c : OutlierConfig) : Z :=
  if 0 <? ConsecutiveFailures c then ConsecutiveFailures c else defaultConsecutiveFailures.
Definition baseEjection (c : OutlierConfig) : Z :=
  if 0 <? BaseEjectionMS c then BaseEjectionMS c else defaultBaseEjectionMS.
Definition maxEjection (c : OutlierConfig) : Z :=
  if 0 <? MaxEjectionMS c then MaxEjectionMS c else defaultMaxEjectionMS.

Record t := { cfg : OutlierConfig; state : gmap string outlierState }.

Definition NewOutlierDetector (c : OutlierConfig) : t := {| cfg := c; state := ∅ |}.

Definition zeroState : outlierState := {| consecFails := 0; ejections := 0; ejectedUntil := 0 |}.
Definition get (o : t) (member : string) : outlierState := default zeroState (state o !! member).

Definition put (o : t) (member : string) (s : outlierState) : t :=
  {| cfg := cfg o; state := <[member := s]> (state o) |}.

(** [ejectionWindow]: base times the ejection count, capped; the product is an [int64] one. *)
Definition ejectionWindow (c : OutlierConfig) (n : Z) : Z :=
  let window := baseEjection c *! n in
  if maxEjection c <? window then maxEjection c else window.

(** [Record] (a Rocq keyword, hence the trailing underscore): one real-traffic outcome. *)
Definition Record_ (o : t) (member : string) (success : bool) (now : Z) : t :=
  let s := get o member in
  put o member
    (if success then
       {| consecFails := 0; ejections := ejections s; ejectedUntil := ejectedUntil s |}
     else
       let n := consecFails s + 1 in
       if (consecutiveFailures (cfg o) <=? n) && (ejectedUntil s <=? now) then
         {| consecFails := 0; ejections := ejections s + 1;
            ejectedUntil := now +! ejectionWindow (cfg o) (ejections s + 1) |}
       else {| consecFails := n; ejections := ejections s; ejectedUntil := ejectedUntil s |}).

Definition Ejected (o : t) (member : string) (now : Z) : bool :=
  match state o !! member with
  | None => false
  | Some s => now <? ejectedUntil s
  end.

(** ** Histories of outcomes *)
Record outcome := { oc_member : string; oc_success : bool; oc_now : Z }.

Definition run (o : t) (h : list outcome) : t :=
  foldl (fun o e => Record_ o (oc_member e) (oc_success e) (oc_now e)) o h.

(** The outcomes of one member, latest first. *)
Definition outcomes_of (m : string) (h : list outcome) : list outcome :=
  rev (filter (fun e => oc_member e = m) h).

(** At least [n] of a member's latest outcomes are failures, and nothing else came between. *)
Definition failing_run (m : string) (n : Z) (h : list outcome) : Prop :=
  n <= Z.of_nat (length (outcomes_of m h)) /\
  Forall (fun e => oc_success e = false) (take (Z.to_nat n) (outcomes_of m h)).

Lemma history_app o h1 h2 : run o (h1 ++ h2) = run (run o h1) h2.
Proof. apply foldl_app. Qed.

Lemma history_cfg o h : cfg (run o h) = cfg o.
Proof. revert o; induction h as [|e h IH]; intros o; [done|]. simpl. by rewrite IH. Qed.

Lemma get_put o m m' s : get (put o m s) m' = if decide (m = m') then s else get o m'.
Proof.
  unfold get; simpl. case_decide; subst; [by rewrite lookup_insert_eq|by rewrite lookup_insert_ne].
Qed.

(** One outcome changes one member's record, as a function of that record and the tuning. *)
Definition advance (c : OutlierConfig) (s : outlierState) (success : bool) (now : Z) : outlierState :=
  get (Record_ {| cfg := c; state := {[ EmptyString := s ]} |} EmptyString success now) EmptyString.

Lemma Record_get o m m' b now :
  get (Record_ o m b now) m' = if decide (m = m') then advance (cfg o) (get o m) b now else get o m'.
Proof.
  unfold advance, Record_. rewrite !get_put.
  assert (get {| cfg := cfg o; state := {[ EmptyString := get o m ]} |} EmptyString = get o m) as ->
    by (unfold get at 1; simpl; by rewrite lookup_singleton_eq).
  by rewrite (decide_True (P := EmptyString = EmptyString)).
Qed.

Lemma Ejected_get o m now : 0 <= now -> Ejected o m now = (now <? ejectedUntil (get o m)).
Proof. intros. unfold Ejected, get. destruct (state o !! m); simpl; [done|]. lia. Qed.

Lemma outcomes_of_snoc m h e :
  outcomes_of m (h ++ [e]) = if decide (oc_member e = m) then e :: outcomes_of m h else outcomes_of m h.
Proof.
  unfold outcomes_of. rewrite filter_app, filter_cons, filter_nil.
  case_decide; rewrite rev_app_distr; done.
Qed.

Lemma failing_run_other m n h e : oc_member e <> m -> failing_run m n h -> failing_run m n (h ++ [e]).
Proof. intros Hne. unfold failing_run. by rewrite outcomes_of_snoc, decide_False. Qed.

Lemma failing_run_snoc m n h e :
  0 <= n -> oc_member e = m -> oc_success e = false -> failing_run m n h ->
  failing_run m (n + 1) (h ++ [e]).
Proof.
  intros Hn He Hs [Hl Hf]. unfold failing_run. rewrite outcomes_of_snoc, decide_True by done.
  rewrite Z2Nat.inj_add, Nat.add_1_r by lia. simpl. split; [lia|]. by constructor.
Qed.

Lemma failing_run_zero m h : failing_run m 0 h.
Proof. split; [lia|]. constructor. Qed.

(** What the detector's record of one member says of the history that produced it. *)
Record explains (c : OutlierConfig) (h : list outcome) (m : string) (s : outlierState) : Prop := {
  ex_run : 0 <= consecFails s /\ failing_run m (consecFails s) h;
  ex_count : 0 <= ejections s <= Z.of_nat (length h);
  ex_window : ejectedUntil s <> 0 ->
    exists h1 e h2, h = h1 ++ e :: h2 /\ oc_member e = m /\
      failing_run m (consecutiveFailures c) (h1 ++ [e]) /\
      ejectedUntil s = oc_now e + ejectionWindow c (ejections s)
}.

Lemma ejectionWindow_bounds c n :
  0 < n -> n * baseEjection c < 2 ^ 62 ->
  0 < ejectionWindow c n <= maxEjection c /\
  ejectionWindow c n = Z.min (n * baseEjection c) (maxEjection c).
Proof.
  assert (0 < baseEjection c) by (unfold baseEjection, defaultBaseEjectionMS; case_match; lia).
  assert (0 < maxEjection c) by (unfold maxEjection, defaultMaxEjectionMS; case_match; lia).
  intros Hn Hb. unfold ejectionWindow. rewrite wrap64_id; [case_match; nia|].
  unfold is_int64, min_int64, max_int64. nia.
Qed.

(** The tuning and the history stay inside the 64-bit arithmetic of the window. *)
Definition no_overflow (c : OutlierConfig) (h : list outcome) : Prop :=
  Z.of_nat (length h) * baseEjection c < 2 ^ 62 /\ is_time (maxEjection c) /\
  Forall (fun e => is_time (oc_now e)) h.

Lemma no_overflow_app c h1 h2 : no_overflow c (h1 ++ h2) -> no_overflow c h1.
Proof.
  assert (0 < baseEjection c) by (unfold baseEjection, defaultBaseEjectionMS; case_match; lia).
  intros (Hl & Hm & Ht). rewrite length_app in Hl. apply Forall_app in Ht as [? ?].
  split_and!; [nia|done|done].
Qed.

Lemma explains_extend c h m s e :
  explains c h m s -> oc_member e <> m -> explains c (h ++ [e]) m s.
Proof.
  intros [[H0 Hr] Hc Hw] Hne. split.
  - split; [done|]. by apply failing_run_other.
  - rewrite length_app; simpl; lia.
  - intros (h1 & e' & h2 & -> & He & Hf & Hu)%Hw.
    exists h1, e', (h2 ++ [e]). by rewrite <- app_assoc.
Qed.

Lemma explains_step o h m e :
  explains (cfg o) h m (get o m) -> oc_member e = m -> no_overflow (cfg o) (h ++ [e]) ->
  explains (cfg o) (h ++ [e]) m (get (Record_ o m (oc_success e) (oc_now e)) m).
Proof.
  set (c := cfg o). set (s := get o m).
  intros [[H0 Hr] Hc Hw] He (Hl & Hm & Ht).
  assert (Hw' : ejectedUntil s <> 0 -> exists h1 e' h2, h ++ [e] = h1 ++ e' :: h2 /\
     oc_member e' = m /\ failing_run m (consecutiveFailures c) (h1 ++ [e']) /\
     ejectedUntil s = oc_now e' + ejectionWindow c (ejections s)).
  { intros (h1 & e' & h2 & -> & ? & ? & ?)%Hw. exists h1, e', (h2 ++ [e]).
    by rewrite <- app_assoc. }
  rewrite length_app in Hl; simpl in Hl. apply Forall_app in Ht as [_ Ht].
  apply Forall_cons in Ht as [Ht _].
  assert (0 < baseEjection c) by (unfold baseEjection, defaultBaseEjectionMS; case_match; lia).
  unfold Record_. rewrite get_put, decide_True by done. fold c s.
  destruct (oc_success e) eqn:Es; [|destruct (_ && _) eqn:Eb; bool_facts].
  - split; simpl; [|rewrite length_app; simpl; lia|done].
    split; [lia|apply failing_run_zero].
  - destruct (ejectionWindow_bounds c (ejections s + 1)) as [Hb _]; [lia|nia|].
    split; simpl; [|rewrite length_app; simpl; lia|].
    + split; [lia|apply failing_run_zero].
    + intros _. exists h, e, []. split_and!; try done.
      * assert (Hf : failing_run m (consecFails s + 1) (h ++ [e]))
          by by apply failing_run_snoc.
        destruct Hf as [Hlen Hf]. split; [lia|].
        eapply Forall_take with (n := Z.to_nat (consecutiveFailures c)) in Hf.
        rewrite take_take in Hf. by rewrite Nat.min_l in Hf by lia.
      * unfold is_time in *. rewrite wrap64_id; [done|].
        unfold is_int64, min_int64, max_int64. lia.
  - split; simpl; [|rewrite length_app; simpl; lia|done].
    split; [lia|]. by apply failing_run_snoc.
Qed.

Lemma run_explains c h m :
  no_overflow c h -> explains c h m (get (run (NewOutlierDetector c) h) m).
Proof.
  induction h as [|e h IH] using rev_ind; intros Ho.
  - assert (get (run (NewOutlierDetector c) []) m = zeroState) as ->
      by (unfold get; simpl; by rewrite lookup_empty).
    split; simpl; [|lia|done]. split; [lia|apply failing_run_zero].
  - specialize (IH (no_overflow_app _ _ _ Ho)). rewrite history_app. simpl.
    set (o := run (NewOutlierDetector c) h) in *.
    assert (Hcfg : cfg o = c) by apply history_cfg.
    destruct (decide (oc_member e = m)) as [<-|Hne].
    + rewrite <- Hcfg in IH, Ho |- *. by apply explains_step.
    + unfold Record_. rewrite get_put, decide_False by done. by apply explains_extend.
Qed.

(** Passive ejection is earned and bounded. After any history of outcomes, a member is ejected
    at [now] only if at some moment its latest ConsecutiveFailures outcomes were all failures, and
    that moment is less than MaxEjection before [now]. *)
Theorem Ejected_sound c h m now :
  no_overflow c h -> is_time now ->
  Ejected (run (NewOutlierDetector c) h) m now = true ->
  exists h1 e h2, h = h1 ++ e :: h2 /\ oc_member e = m /\
    failing_run m (consecutiveFailures c) (h1 ++ [e]) /\
    now < oc_now e + maxEjection c.
Proof.
  intros Ho [Hn _] HE. rewrite Ejected_get in HE by done.
  destruct (run_explains c h m Ho) as [_ Hc Hw].
  destruct Hw as (h1 & e & h2 & Hh & He & Hf & Hu); [lia|].
  exists h1, e, h2. split_and!; try done. rewrite Hu in HE.
  unfold ejectionWindow in HE. case_match; lia.
Qed.

(** The growth of the window: the failure that completes a run outside an ejection starts one,
    whose length is the ejection count times the base, capped. *)
Theorem Record_ejects o m now :
  let s := get o m in
  0 <= ejections s -> (ejections s + 1) * baseEjection (cfg o) < 2 ^ 62 ->
  is_time now -> is_time (maxEjection (cfg o)) -> ejectedUntil s <= now ->
  consecutiveFailures (cfg o) <= consecFails s + 1 ->
  let o' := Record_ o m false now in
  ejections (get o' m) = ejections s + 1 /\ consecFails (get o' m) = 0 /\
  forall tm, 0 <= tm ->
    Ejected o' m tm =
      (tm <? now + Z.min ((ejections s + 1) * baseEjection (cfg o)) (maxEjection (cfg o))).
Proof.
  intros s He Hb Hnow Hmax Hu Hf o'.
  destruct (ejectionWindow_bounds (cfg o) (ejections s + 1)) as [Hw Hm]; [lia|done|].
  assert (Ho : get o' m = {| consecFails := 0; ejections := ejections s + 1;
                             ejectedUntil := now + ejectionWindow (cfg o) (ejections s + 1) |}).
  { unfold o', Record_. rewrite get_put, decide_True by done. fold s.
    assert ((consecutiveFailures (cfg o) <=? consecFails s + 1) && (ejectedUntil s <=? now) = true)
      as -> by lia.
    rewrite wrap64_id; [done|]. unfold is_time, is_int64, min_int64, max_int64 in *. lia. }
  rewrite Ho; simpl. split_and!; [done|done|].
  intros tm Htm. rewrite Ejected_get, Ho, Hm by done. done.
Qed.

(** Five failures in a row with the production tuning. *)
Definition default_cfg : OutlierConfig :=
  {| ConsecutiveFailures := 0; BaseEjectionMS := 0; MaxEjectionMS := 0 |}.
Definition five_failures : list outcome :=
  replicate 5 {| oc_member := "x"; oc_success := false; oc_now := 1000 |}.

Lemma Ejected_sound_witness :
  exists h1 e h2, five_failures = h1 ++ e :: h2 /\ oc_member e = "x" /\
    failing_run "x" (consecutiveFailures default_cfg) (h1 ++ [e]) /\
    30999 < oc_now e + maxEjection default_cfg.
Proof.
  apply (Ejected_sound default_cfg five_failures "x" 30999).
  - split_and!; [vm_compute; done|vm_compute; done|].
    unfold five_failures. simpl. repeat constructor; vm_compute; done.
  - vm_compute; done.
  - vm_compute. reflexivity.
Defined.

Lemma Record_ejects_witness :
  Ejected (Record_ (run (NewOutlierDetector default_cfg) (take 4 five_failures)) "x" false 2000)
    "x" 31999 = true.
Proof.
  destruct (Record_ejects (run (NewOutlierDetector default_cfg) (take 4 five_failures)) "x" 2000)
    as (_ & _ & H); [vm_compute; done..|].
  rewrite H; vm_compute; done.
Defined.

End Outlier.
