(* ===== verification/FailoverRunner.v ===== *)
(** * Failover: the runner that drives every managed group

    Models [src/internal/failover/runner.go]: the interfaces it depends on, the filtered health
    view, the incumbent's verdict and [Tick], with the calls it makes recorded in order. *)
From S2P Require Import Prelude Util FailoverController FailoverDetectors.
Local Open Scope Z_scope.
Local Open Scope go_scope.

Record GroupSpec := {
  gs_ID : string;
  gs_Policy : Policy;
  gs_Members : list string;
  gs_Cfg : Config
}.

(** [HealthSource]: one view of the members' health, in the order asked for. The runner calls it
    from the goroutine that updates the monitor, so one tick sees one state [h]. *)
Class HealthSource (H : Type) := {
  MemberHealth_of : H -> list string -> list MemberHealth;
  MemberHealth_ids : forall h ids, map mh_ID (MemberHealth_of h ids) = ids
}.

(** [Selector]: the live selections, read once per tick, and whether a switch call succeeds. *)
Record Selector := {
  Selections : gmap string string;
  Select : string -> string -> bool  (* group, member: true for a nil error *)
}.

Record Switch := {
  sw_Group : string; sw_From : string; sw_To : string; sw_Reason : string;
  sw_Emergency : bool
}.

Record pendingSwitch := { ps_to : string; ps_since : Z }.

(** The damper and the detector are pointers that may be nil; [failures] says whether a
    FailureSource is wired (its answers belong to the environment of a tick). *)
Record Runner := {
  lastSwitch : gmap string Z;
  pending : gmap string pendingSwitch;
  damper : option Damper.t;
  lastAlive : gmap string bool;
  outlier : option Outlier.t;
  failures : bool
}.

Definition NewRunner : Runner :=
  {| lastSwitch := ∅; pending := ∅; damper := Some (Damper.NewDamper Damper.default_cfg);
     lastAlive := ∅; outlier := Some (Outlier.NewOutlierDetector Outlier.default_cfg);
     failures := false |}.

Definition SetFailureSource (r : Runner) (fs : bool) : Runner :=
  {| lastSwitch := lastSwitch r; pending := pending r; damper := damper r;
     lastAlive := lastAlive r; outlier := outlier r; failures := fs |}.

Definition set_pending (r : Runner) (p : gmap string pendingSwitch) : Runner :=
  {| lastSwitch := lastSwitch r; pending := p; damper := damper r;
     lastAlive := lastAlive r; outlier := outlier r; failures := failures r |}.
Definition set_committed (r : Runner) (g : string) (now : Z) : Runner :=
  {| lastSwitch := <[g := now]> (lastSwitch r); pending := delete g (pending r);
     damper := damper r; lastAlive := lastAlive r; outlier := outlier r;
     failures := failures r |}.
Definition set_detectors (r : Runner) (d : option Damper.t) (la : gmap string bool)
    (o : option Outlier.t) : Runner :=
  {| lastSwitch := lastSwitch r; pending := pending r; damper := d; lastAlive := la;
     outlier := o; failures := failures r |}.

Section runner.
Variable Exp2 : f64 -> f64.

(** ** filteredHealth

    First pass: record this tick's drops, and the real-traffic outcomes (once per member and
    tick, by [recorded]). [failing] is the source's answer: [None] when no source is consulted or
    it returned a nil map. *)
Record detectors := {
  dt_damper : Damper.t;
  dt_lastAlive : gmap string bool;
  dt_outlier : option Outlier.t;
  dt_recorded : gset string
}.

Definition observe (failing : option (gset string)) (now : Z) (s : detectors) (mh : MemberHealth)
    : detectors :=
  let d := if (match dt_lastAlive s !! mh_ID mh with Some prev => prev | None => false end)
              && negb (mh_Alive mh)
           then Damper.Penalize Exp2 (dt_damper s) (mh_ID mh) now else dt_damper s in
  let la := <[mh_ID mh := mh_Alive mh]> (dt_lastAlive s) in
  match failing, dt_outlier s with
  | Some f, Some o =>
      if bool_decide (mh_ID mh ∈ dt_recorded s)
      then {| dt_damper := d; dt_lastAlive := la; dt_outlier := Some o;
              dt_recorded := dt_recorded s |}
      else {| dt_damper := d; dt_lastAlive := la;
              dt_outlier := Some (Outlier.Record_ o (mh_ID mh)
                                    (negb (bool_decide (mh_ID mh ∈ f))) now);
              dt_recorded := {[mh_ID mh]} ∪ dt_recorded s |}
  | _, _ => {| dt_damper := d; dt_lastAlive := la; dt_outlier := dt_outlier s;
               dt_recorded := dt_recorded s |}
  end.

Definition set_alive (mh : MemberHealth) (b : bool) : MemberHealth :=
  {| mh_ID := mh_ID mh; mh_Alive := b; mh_LatencyMs := mh_LatencyMs mh |}.

(** Second pass: hide suppressed and ejected members; asking the damper updates it. *)
Fixpoint hide (failing : bool) (o : option Outlier.t) (now : Z) (d : Damper.t)
    (hs : list MemberHealth) : Damper.t * list MemberHealth :=
  match hs with
  | [] => (d, [])
  | mh :: hs' =>
      if mh_Alive mh then
        let '(d1, sup) := Damper.Suppressed Exp2 d (mh_ID mh) now in
        let ej := failing && (match o with Some o => Outlier.Ejected o (mh_ID mh) now | None => false end) in
        let '(d2, out) := hide failing o now d1 hs' in
        (d2, (if sup || ej then set_alive mh false else mh) :: out)
      else let '(d2, out) := hide failing o now d hs' in (d2, mh :: out)
  end.

Definition count_alive (hs : list MemberHealth) : nat := length (filter (fun m => mh_Alive m = true) hs).

Definition filteredHealth (r : Runner) (health : list MemberHealth) (now : Z)
    (recorded : gset string) (answer : option (gset string))
    : Runner * gset string * list MemberHealth :=
  match damper r with
  | None => (r, recorded, health)
  | Some d =>
      let failing := match outlier r with
                     | Some _ => if failures r then answer else None
                     | None => None
                     end in
      let s := foldl (observe failing now)
                 {| dt_damper := d; dt_lastAlive := lastAlive r; dt_outlier := outlier r;
                    dt_recorded := recorded |} health in
      let '(d', out) := hide (bool_decide (is_Some failing)) (dt_outlier s) now (dt_damper s) health in
      (set_detectors r (Some d') (dt_lastAlive s) (dt_outlier s), dt_recorded s,
       if bool_decide (0 < count_alive health)%nat && bool_decide (count_alive out = 0%nat)
       then health else out)
  end.

(** ** The incumbent's verdict *)
Fixpoint dead_in (current : string) (health : list MemberHealth) : bool :=
  match health with
  | [] => true
  | m :: ms => if decide (mh_ID m = current) then negb (mh_Alive m) else dead_in current ms
  end.
Definition currentDeadOrEmpty (current : string) (health : list MemberHealth) : bool :=
  if decide (current = "") then true else dead_in current health.

Definition currentEjected (r : Runner) (current : string) (now : Z) : bool :=
  negb (bool_decide (current = "")) && failures r &&
  match outlier r with Some o => Outlier.Ejected o current now | None => false end.

(** ** Tick *)

(** What a tick did, in order. [ASwitch] is an element of the returned slice. *)
Inductive action :=
| AStable (g : string)
| AHold (g to : string)      (* a graceful switch starts its hold *)
| AHolding (g to : string)   (* ... and is still holding *)
| ASelect (g to : string) (ok : bool)
| AInterrupt (g : string)
| ASwitch (s : Switch).

Context `{HealthSource H}.

Record TickEnv := {
  te_hs : H;
  te_sel : Selector;
  te_failing : string -> option (gset string);  (* Failing(), per group being filtered *)
  te_now : Z
}.

Definition tickGroup (e : TickEnv) (st : Runner * gset string) (g : GroupSpec)
    : Runner * gset string * list action :=
  let '(r, recorded) := st in
  let now := te_now e in
  let from := default "" (Selections (te_sel e) !! gs_ID g) in
  let health := MemberHealth_of (te_hs e) (gs_Members g) in
  let rawCurrentAlive := negb (currentDeadOrEmpty from health || currentEjected r from now) in
  let '(r1, recorded1, members) := filteredHealth r health now recorded (te_failing e (gs_ID g)) in
  let '(desired, reason, changed) :=
    Decide {| in_Policy := gs_Policy g; in_Members := members; in_Current := from;
              in_LastSwitch := default 0 (lastSwitch r1 !! gs_ID g); in_Now := now;
              in_Cfg := gs_Cfg g; in_CurrentRawAlive := Some rawCurrentAlive |} in
  if negb changed then
    (set_pending r1 (delete (gs_ID g) (pending r1)), recorded1, [AStable (gs_ID g)])
  else
    let emergency := negb rawCurrentAlive in
    let apply :=
      if Select (te_sel e) (gs_ID g) desired then
        (set_committed r1 (gs_ID g) now, recorded1,
         [ASelect (gs_ID g) desired true] ++ (if emergency then [AInterrupt (gs_ID g)] else []) ++
         [ASwitch {| sw_Group := gs_ID g; sw_From := from; sw_To := desired; sw_Reason := reason;
                     sw_Emergency := emergency |}])
      else (r1, recorded1, [ASelect (gs_ID g) desired false]) in
    if emergency then apply
    else match pending r1 !! gs_ID g with
         | Some p =>
             if negb (bool_decide (ps_to p = desired)) then
               (set_pending r1 (<[gs_ID g := {| ps_to := desired; ps_since := now |}]> (pending r1)),
                recorded1, [AHold (gs_ID g) desired])
             else if (now -! ps_since p) <? failbackHold (gs_Cfg g)
             then (r1, recorded1, [AHolding (gs_ID g) desired])
             else apply
         | None =>
             (set_pending r1 (<[gs_ID g := {| ps_to := desired; ps_since := now |}]> (pending r1)),
              recorded1, [AHold (gs_ID g) desired])
         end.

Fixpoint tickGroups (e : TickEnv) (st : Runner * gset string) (gs : list GroupSpec)
    : Runner * list action :=
  match gs with
  | [] => (st.1, [])
  | g :: gs' =>
      let '(r1, rec1, a) := tickGroup e st g in
      let '(r2, as') := tickGroups e (r1, rec1) gs' in
      (r2, a ++ as')
  end.

Definition switches (l : list action) : list Switch :=
  omap (fun a => match a with ASwitch s => Some s | _ => None end) l.

(** [Tick] with its nil guards: a nil health source or selector leaves the runner as it was. *)
Definition Tick (groups : list GroupSpec) (hs : option H) (sel : option Selector)
    (failing : string -> option (gset string)) (now : Z) (r : Runner) : Runner * list action :=
  match hs, sel, groups with
  | None, _, _ | _, None, _ | _, _, [] => (r, [])
  | Some h, Some s, _ =>
      tickGroups {| te_hs := h; te_sel := s; te_failing := failing; te_now := now |} (r, ∅) groups
  end.


(** ** The filtered view *)

(** [m'] is [m], or [m] hidden. *)
Definition hidden_from (m m' : MemberHealth) : Prop := m' = m \/ m' = set_alive m false.

Lemma hide_hidden f o now d hs : Forall2 hidden_from hs (hide f o now d hs).2.
Proof.
  revert d; induction hs as [|m hs IH]; intros d; simpl; [constructor|].
  destruct (mh_Alive m); [destruct (Damper.Suppressed _ _ _ _) as [d1 sup]|].
  - specialize (IH d1). destruct (hide f o now d1 hs) as [d2 out]; simpl in *.
    constructor; [|done]. unfold hidden_from. case_match; auto.
  - specialize (IH d). destruct (hide f o now d hs) as [d2 out]; simpl in *.
    constructor; [by left|done].
Qed.

Lemma hidden_from_refl hs : Forall2 hidden_from hs hs.
Proof. induction hs; constructor; [by left|done]. Qed.

Lemma hidden_alive hs out m' :
  Forall2 hidden_from hs out -> m' ∈ out -> mh_Alive m' = true -> m' ∈ hs.
Proof.
  induction 1 as [|m m0 hs out Hm _ IH]; [done|].
  rewrite !elem_of_cons. intros [->|Hin] Ha; [|auto].
  destruct Hm as [->| ->]; [by left|done].
Qed.

Lemma hidden_ids hs out : Forall2 hidden_from hs out -> map mh_ID out = map mh_ID hs.
Proof.
  induction 1 as [|m m0 hs out Hm _ IH]; [done|]. simpl. rewrite IH. by destruct Hm as [->| ->].
Qed.

Lemma count_alive_pos hs : (0 < count_alive hs)%nat <-> exists m, m ∈ hs /\ mh_Alive m = true.
Proof.
  unfold count_alive. split.
  - intros Hl. destruct (filter _ hs) as [|m l] eqn:E; [simpl in Hl; lia|].
    exists m. assert (Hm : m ∈ m :: l) by set_solver. rewrite <- E, list_elem_of_filter in Hm. naive_solver.
  - intros (m & Hm & Ha). assert (m ∈ filter (fun m => mh_Alive m = true) hs) as Hf
      by (by apply list_elem_of_filter).
    destruct (filter _ hs); [by apply not_elem_of_nil in Hf|simpl; lia].
Qed.

Lemma filteredHealth_hidden r health now rec ans :
  Forall2 hidden_from health (filteredHealth r health now rec ans).2.
Proof.
  unfold filteredHealth. destruct (damper r) as [d|]; [|apply hidden_from_refl].
  match goal with |- context [hide ?f ?o now ?d' health] => pose proof (hide_hidden f o now d' health) as Hh;
    destruct (hide f o now d' health) as [d2 out] end.
  simpl in *. case_match; [apply hidden_from_refl|done].
Qed.

Lemma filteredHealth_keeps_one r health now rec ans :
  (0 < count_alive health)%nat -> (0 < count_alive (filteredHealth r health now rec ans).2)%nat.
Proof.
  intros Hc. unfold filteredHealth. destruct (damper r) as [d|]; [|done].
  match goal with |- context [hide ?f ?o now ?d' health] =>
    destruct (hide f o now d' health) as [d2 out] end.
  simpl. rewrite bool_decide_true by done. simpl.
  case_bool_decide; [done|]. lia.
Qed.

(** What filtering changes of the runner: only the detectors. *)
Lemma filteredHealth_frame r health now rec ans r1 rec1 out :
  filteredHealth r health now rec ans = (r1, rec1, out) ->
  lastSwitch r1 = lastSwitch r /\ pending r1 = pending r /\ failures r1 = failures r.
Proof.
  unfold filteredHealth. destruct (damper r) as [d|]; [|by intros [= <- <- <-]].
  match goal with |- context [hide ?f ?o now ?d' health] =>
    destruct (hide f o now d' health) as [d2 out'] end.
  by intros [= <- <- <-].
Qed.

(** ** What one group's turn does

    Every outcome of [tickGroup], with the incumbent's verdict [dead] and the answer of [Decide]. *)
Inductive outcome (e : TickEnv) (r : Runner) (g : GroupSpec) (dead : bool) (desired : string)
  : Runner -> list action -> Prop :=
| out_stable r1 :
    lastSwitch r1 = lastSwitch r -> pending r1 = delete (gs_ID g) (pending r) ->
    outcome e r g dead desired r1 [AStable (gs_ID g)]
| out_hold r1 :
    dead = false ->
    (forall p, pending r !! gs_ID g = Some p -> ps_to p <> desired) ->
    lastSwitch r1 = lastSwitch r ->
    pending r1 = <[gs_ID g := {| ps_to := desired; ps_since := te_now e |}]> (pending r) ->
    outcome e r g dead desired r1 [AHold (gs_ID g) desired]
| out_holding r1 p :
    dead = false -> pending r !! gs_ID g = Some p -> ps_to p = desired ->
    te_now e -! ps_since p < failbackHold (gs_Cfg g) ->
    lastSwitch r1 = lastSwitch r -> pending r1 = pending r ->
    outcome e r g dead desired r1 [AHolding (gs_ID g) desired]
| out_failed r1 :
    Select (te_sel e) (gs_ID g) desired = false ->
    lastSwitch r1 = lastSwitch r -> pending r1 = pending r ->
    outcome e r g dead desired r1 [ASelect (gs_ID g) desired false]
| out_commit r1 reason :
    Select (te_sel e) (gs_ID g) desired = true ->
    (dead = true \/ exists p, pending r !! gs_ID g = Some p /\ ps_to p = desired /\
                     failbackHold (gs_Cfg g) <= te_now e -! ps_since p) ->
    lastSwitch r1 = <[gs_ID g := te_now e]> (lastSwitch r) ->
    pending r1 = delete (gs_ID g) (pending r) ->
    outcome e r g dead desired r1
      ([ASelect (gs_ID g) desired true] ++ (if dead then [AInterrupt (gs_ID g)] else []) ++
       [ASwitch {| sw_Group := gs_ID g; sw_From := default "" (Selections (te_sel e) !! gs_ID g);
                   sw_To := desired; sw_Reason := reason; sw_Emergency := dead |}]).

Definition from_of (e : TickEnv) (g : GroupSpec) : string :=
  default "" (Selections (te_sel e) !! gs_ID g).
Definition health_of (e : TickEnv) (g : GroupSpec) : list MemberHealth :=
  MemberHealth_of (te_hs e) (gs_Members g).
Definition dead_of (e : TickEnv) (r : Runner) (g : GroupSpec) : bool :=
  currentDeadOrEmpty (from_of e g) (health_of e g) || currentEjected r (from_of e g) (te_now e).

(** The decision a group's turn is taken on. *)
Definition decision_of (e : TickEnv) (r : Runner) (rec : gset string) (g : GroupSpec) : DecideInput :=
  {| in_Policy := gs_Policy g;
     in_Members := (filteredHealth r (health_of e g) (te_now e) rec (te_failing e (gs_ID g))).2;
     in_Current := from_of e g;
     in_LastSwitch := default 0 (lastSwitch r !! gs_ID g); in_Now := te_now e;
     in_Cfg := gs_Cfg g; in_CurrentRawAlive := Some (negb (dead_of e r g)) |}.

Lemma tickGroup_outcome e r rec g r' rec' acts :
  tickGroup e (r, rec) g = (r', rec', acts) ->
  let '(desired, _, changed) := Decide (decision_of e r rec g) in
  outcome e r g (dead_of e r g) desired r' acts /\
  (changed = false <-> acts = [AStable (gs_ID g)]).
Proof.
  unfold tickGroup, decision_of, dead_of, health_of, from_of.
  destruct (filteredHealth _ _ _ _ _) as [[r1 rec1] members] eqn:Ef.
  apply filteredHealth_frame in Ef as (Hl & Hp & _). cbn [snd fst]. rewrite Hl.
  destruct (Decide _) as [[desired reason] changed] eqn:Ed. rewrite negb_involutive.
  set (dead := currentDeadOrEmpty _ _ || _).
  destruct changed; simpl.
  2: { intros [= <- <- <-]. split; [|done]. apply out_stable; simpl; congruence. }
  destruct dead eqn:Edead; simpl.
  - destruct (Select _ _ _) eqn:Es; intros [= <- <- <-]; (split; [|done]).
    + apply (out_commit e r g true desired _ reason); simpl; auto; congruence.
    + by apply out_failed.
  - rewrite Hp. destruct (pending r !! gs_ID g) as [p|] eqn:Ep.
    + case_bool_decide as Et; simpl; [destruct (_ <? _) eqn:Eh|].
      * intros [= <- <- <-]. split; [|done]. eapply out_holding; eauto; lia.
      * destruct (Select _ _ _) eqn:Es; intros [= <- <- <-]; (split; [|done]).
        -- apply (out_commit e r g false desired _ reason); simpl; try congruence.
           right. exists p. split_and!; try done. lia.
        -- by apply out_failed.
      * intros [= <- <- <-]. split; [|done]. apply out_hold; simpl; try congruence.
    + intros [= <- <- <-]. split; [|done]. apply out_hold; simpl; congruence.
Qed.

End runner.

(** ** Sessions: a runner's life as a sequence of group turns

    [session r log]: [r] is reached from a new runner by wiring the failure source and by group
    turns, and [log] lists what the turns did, oldest first, each with its tick's time. *)
Section sessions.
Context (Exp2 : f64 -> f64) `{HS : HealthSource H}.

Definition timed (t : Z) (l : list action) : list (Z * action) := map (fun a => (t, a)) l.

Lemma timed_app t l1 l2 : timed t (l1 ++ l2) = timed t l1 ++ timed t l2.
Proof. apply map_app. Qed.

Inductive session : Runner -> list (Z * action) -> Prop :=
| session_new : session NewRunner []
| session_wire r b log : session r log -> session (SetFailureSource r b) log
| session_turn (e : TickEnv) r rec g log r' rec' acts :
    session r log -> tickGroup Exp2 e (r, rec) g = (r', rec', acts) ->
    session r' (log ++ timed (te_now e) acts).

Lemma session_groups (e : TickEnv) gs r rec log :
  session r log ->
  session (tickGroups Exp2 e (r, rec) gs).1
          (log ++ timed (te_now e) (tickGroups Exp2 e (r, rec) gs).2).
Proof.
  revert r rec log; induction gs as [|g gs IH]; intros r rec log Hs; cbn [tickGroups].
  - simpl. by rewrite app_nil_r.
  - destruct (tickGroup Exp2 e (r, rec) g) as [[r1 rec1] a] eqn:Et.
    specialize (IH r1 rec1 (log ++ timed (te_now e) a) (session_turn e r rec g log _ _ _ Hs Et)).
    destruct (tickGroups Exp2 e (r1, rec1) gs) as [r2 as']; cbn [fst snd] in *.
    by rewrite timed_app, app_assoc.
Qed.

(** A whole tick of a session is a session. *)
Lemma session_Tick groups hs sel failing now r log :
  session r log ->
  session (Tick Exp2 groups hs sel failing now r).1
          (log ++ timed now (Tick Exp2 groups hs sel failing now r).2).
Proof.
  intros Hs. unfold Tick.
  destruct hs as [h|], sel as [s|], groups as [|g gs]; try (simpl; by rewrite app_nil_r).
  exact (session_groups {| te_hs := h; te_sel := s; te_failing := failing; te_now := now |}
           (g :: gs) r ∅ log Hs).
Qed.

(** An entry that is about group [g] without giving up its want for [to]. *)
Definition keeps_want (g to : string) (a : action) : Prop :=
  match a with
  | AStable g' => g' <> g
  | AHold g' _ => g' <> g
  | AHolding g' to' => g' = g -> to' = to
  | ASelect g' _ ok => g' = g -> ok = false
  | AInterrupt _ | ASwitch _ => True
  end.

(** The want for [to] appeared at [t0] and every later turn of the group held it, or tried to
    switch and was refused by the core. *)
Definition held_since (log : list (Z * action)) (g to : string) (t0 : Z) : Prop :=
  exists l1 l2, log = l1 ++ (t0, AHold g to) :: l2 /\
    Forall (fun x => keeps_want g to x.2) l2.

Lemma held_since_snoc log g to t0 now acts :
  held_since log g to t0 -> Forall (keeps_want g to) acts ->
  held_since (log ++ timed now acts) g to t0.
Proof.
  intros (l1 & l2 & -> & Hl) Ha. exists l1, (l2 ++ timed now acts).
  rewrite <- app_assoc. split; [done|]. apply Forall_app. split; [done|].
  unfold timed. apply Forall_map. done.
Qed.

(** A turn's actions are about its own group. *)
Lemma outcome_other e r g dead d r' acts g' to :
  outcome (H := H) e r g dead d r' acts -> gs_ID g <> g' -> Forall (keeps_want g' to) acts.
Proof.
  intros Ho Hne. destruct Ho; repeat (apply Forall_cons; split); simpl; try done;
    try (case_match; repeat constructor; done).
Qed.

Lemma outcome_pending e r g dead d r' acts g' p log :
  outcome (H := H) e r g dead d r' acts ->
  (forall g p, pending r !! g = Some p -> held_since log g (ps_to p) (ps_since p)) ->
  pending r' !! g' = Some p ->
  held_since (log ++ timed (te_now e) acts) g' (ps_to p) (ps_since p).
Proof.
  intros Ho Hinv Hp. destruct (decide (gs_ID g = g')) as [<-|Hne].
  - inversion Ho as [r1 Hl Hpe|r1 Hd Hn Hl Hpe|r1 p0 Hd Hp0 Hto Ht Hl Hpe|r1 Hs Hl Hpe
                    |r1 rs Hs Hd Hl Hpe]; subst; rewrite Hpe in Hp.
    + by rewrite lookup_delete_eq in Hp.
    + rewrite lookup_insert_eq in Hp. injection Hp as <-.
      exists log, []. simpl. split; [done|constructor].
    + rewrite Hp in Hp0. injection Hp0 as <-. apply held_since_snoc; [by apply Hinv|].
      repeat constructor; done.
    + apply held_since_snoc; [by apply Hinv|]. repeat constructor.
    + by rewrite lookup_delete_eq in Hp.
  - apply held_since_snoc; [|by eapply outcome_other].
    apply Hinv. destruct Ho as [r1 Hl Hpe|r1 Hd Hn Hl Hpe|r1 p0 Hd Hp0 Hto Ht Hl Hpe|r1 Hs Hl Hpe
                    |r1 rs Hs Hd Hl Hpe]; rewrite Hpe in Hp;
      rewrite ?lookup_delete_ne, ?lookup_insert_ne in Hp by done; done.
Qed.

Lemma session_pending r log :
  session r log -> forall g p, pending r !! g = Some p -> held_since log g (ps_to p) (ps_since p).
Proof.
  induction 1 as [|r b log Hs IH|e r rec g log r' rec' acts Hs IH Ht]; intros g' p Hp.
  - simpl in Hp. by rewrite lookup_empty in Hp.
  - by apply IH.
  - apply tickGroup_outcome in Ht. destruct (Decide _) as [[d rs] ch].
    destruct Ht as [Ho _]. by eapply outcome_pending.
Qed.

(** C31: failback dampening. In every session, a graceful switch (one whose incumbent was alive) is
    committed only for a target whose want appeared at least FailbackHold earlier and was never
    given up by a turn of that group since. *)
Theorem failback_hold_enforced e r rec g log r' rec' acts sw :
  session r log -> tickGroup Exp2 e (r, rec) g = (r', rec', acts) ->
  ASwitch sw ∈ acts -> sw_Emergency sw = false ->
  sw_Group sw = gs_ID g /\
  exists t0, held_since log (gs_ID g) (sw_To sw) t0 /\
             failbackHold (gs_Cfg g) <= te_now e -! t0.
Proof.
  intros Hs Ht Hin Hem. apply tickGroup_outcome in Ht.
  destruct (Decide _) as [[d rs] ch]. destruct Ht as [Ho _].
  inversion Ho as [r1 Hl Hpe|r1 Hd Hn Hl Hpe|r1 p0 Hd Hp0 Hto Ht Hl Hpe|r1 Hse Hl Hpe
                  |r1 rs' Hse Hd Hl Hpe]; subst acts; try set_solver.
  assert (sw = {| sw_Group := gs_ID g; sw_From := from_of e g; sw_To := d; sw_Reason := rs';
                  sw_Emergency := dead_of e r g |}) as ->.
  { unfold from_of. destruct (dead_of e r g); set_solver. }
  simpl in *. rewrite Hem in Hd. destruct Hd as [?|(p & Hp & <- & Hh)]; [done|].
  split; [done|]. exists (ps_since p). split; [|done]. by eapply session_pending in Hp.
Qed.

(** What a committed switch is. Its target is a configured member that the raw health calls
    alive; the core accepted it; the connections of the group are cut exactly when the incumbent
    was dead; and the runner restarts the group's clocks. Without a commit the last switch time
    is untouched. *)
Theorem tickGroup_commit e r rec g r' rec' acts :
  tickGroup Exp2 e (r, rec) g = (r', rec', acts) ->
  (switches acts = [] /\ (AInterrupt (gs_ID g) ∉ acts) /\ lastSwitch r' = lastSwitch r) \/
  exists sw, switches acts = [sw] /\ sw_Group sw = gs_ID g /\ sw_From sw = from_of e g /\
    sw_To sw <> sw_From sw /\ sw_To sw ∈ gs_Members g /\
    (exists m, m ∈ health_of e g /\ mh_ID m = sw_To sw /\ mh_Alive m = true) /\
    Select (te_sel e) (gs_ID g) (sw_To sw) = true /\
    (AInterrupt (gs_ID g) ∈ acts <-> sw_Emergency sw = true) /\
    sw_Emergency sw = dead_of e r g /\
    lastSwitch r' !! gs_ID g = Some (te_now e) /\ pending r' !! gs_ID g = None.
Proof.
  intros Ht. apply tickGroup_outcome in Ht.
  destruct (Decide _) as [[d rs] ch] eqn:Ed. destruct Ht as [Ho Hch].
  inversion Ho as [r1 Hl Hpe|r1 Hd Hn Hl Hpe|r1 p0 Hd Hp0 Hto Ht Hl Hpe|r1 Hse Hl Hpe
                  |r1 rs' Hse Hd Hl Hpe]; subst acts r1; [left; set_solver..|right].
  assert (ch = true) as -> by (destruct ch; [done|]; by destruct Hch as [Hch _]; specialize (Hch eq_refl)).
  destruct (Decide_commits (decision_of Exp2 e r rec g) d) as [Hc _].
  destruct Hc as (_ & _ & Hne & _); [by exists rs|].
  apply Decide_live in Ed as [[? _]|(_ & m & Hm & Hid & Ha)]; [done|].
  pose proof (filteredHealth_hidden Exp2 r (health_of e g) (te_now e) rec (te_failing e (gs_ID g))) as Hf.
  exists {| sw_Group := gs_ID g; sw_From := from_of e g; sw_To := d; sw_Reason := rs';
            sw_Emergency := dead_of e r g |}.
  split; [by destruct (dead_of e r g)|]. cbn [sw_Group sw_From sw_To sw_Emergency].
  split_and!; try done.
  - rewrite <- Hid, <- (MemberHealth_ids (te_hs e) (gs_Members g)).
    apply list_elem_of_In, in_map, list_elem_of_In. by eapply hidden_alive.
  - exists m. split_and!; try done. by eapply hidden_alive.
  - destruct (dead_of e r g); set_solver.
  - by rewrite Hl, lookup_insert_eq.
  - by rewrite Hpe, lookup_delete_eq.
Qed.

(** Filtering never blackholes. The view selection reads is the raw one with some members
    hidden (same names, same latencies, nobody revived), and if any exit is alive in the raw
    health, one is alive in the view. *)
Theorem filteredHealth_sound r health now rec ans :
  let out := (filteredHealth Exp2 r health now rec ans).2 in
  Forall2 hidden_from health out /\ map mh_ID out = map mh_ID health /\
  (count_alive health = 0%nat \/ (0 < count_alive out)%nat).
Proof.
  pose proof (filteredHealth_hidden Exp2 r health now rec ans) as Hh. split_and!; [done| |].
  - by apply hidden_ids.
  - destruct (count_alive health) eqn:E; [by left|right].
    apply filteredHealth_keeps_one. lia.
Qed.

(** ** One outcome per member and tick *)
Definition recorded_once (now : Z) (o o' : Outlier.t) (rec : gset string) : Prop :=
  Outlier.cfg o' = Outlier.cfg o /\
  forall m, (m ∉ rec -> Outlier.get o' m = Outlier.get o m) /\
    (Outlier.get o' m = Outlier.get o m \/
     exists b, Outlier.get o' m = Outlier.get (Outlier.Record_ o m b now) m).

Lemma recorded_once_record now o o' rec m b :
  recorded_once now o o' rec -> m ∉ rec ->
  recorded_once now o (Outlier.Record_ o' m b now) ({[m]} ∪ rec).
Proof.
  intros [Hc Hg] Hm. split; [done|]. intros m'. rewrite Outlier.Record_get. case_decide as E.
  - subst m'. split; [set_solver|]. right. exists b.
    rewrite Outlier.Record_get, decide_True by done. by rewrite (proj1 (Hg m) Hm), Hc.
  - destruct (Hg m') as [H1 H2]. split; [|done]. intros. apply H1. set_solver.
Qed.

Definition detectors_once (now : Z) (o : Outlier.t) (s : detectors) : Prop :=
  forall o', dt_outlier s = Some o' -> recorded_once now o o' (dt_recorded s).

Lemma observe_once failing now o s mh :
  detectors_once now o s -> detectors_once now o (observe Exp2 failing now s mh).
Proof.
  intros Hs o'. unfold observe. destruct failing as [f|], (dt_outlier s) as [o0|] eqn:Eo;
    simpl; try done; [|by intros [= <-]; apply Hs].
  case_bool_decide; simpl; intros [= <-]; [by apply Hs|].
  apply recorded_once_record; [by apply Hs|done].
Qed.

Lemma fold_once failing now o health s :
  detectors_once now o s -> detectors_once now o (foldl (observe Exp2 failing now) s health).
Proof.
  revert s. induction health as [|mh hs IH]; intros s Hs; [done|]. simpl. by apply IH, observe_once.
Qed.

Lemma filteredHealth_once r health now rec ans r1 rec1 out o :
  filteredHealth Exp2 r health now rec ans = (r1, rec1, out) ->
  (forall o', outlier r = Some o' -> recorded_once now o o' rec) ->
  forall o', outlier r1 = Some o' -> recorded_once now o o' rec1.
Proof.
  unfold filteredHealth. destruct (damper r) as [d|]; [|intros [= <- <- <-]; auto].
  set (fa := match outlier r with Some _ => if failures r then ans else None | None => None end).
  set (s0 := {| dt_damper := d; dt_lastAlive := lastAlive r; dt_outlier := outlier r;
                dt_recorded := rec |}).
  intros Hf Hr. assert (Hs : detectors_once now o (foldl (observe Exp2 fa now) s0 health))
    by (by apply fold_once).
  destruct (hide _ _ _ _ _ _) as [d' out'] in Hf. injection Hf as <- <- <-. exact Hs.
Qed.

Lemma tickGroup_once (e : TickEnv) r rec g r' rec' acts o :
  tickGroup Exp2 e (r, rec) g = (r', rec', acts) ->
  (forall o', outlier r = Some o' -> recorded_once (te_now e) o o' rec) ->
  forall o', outlier r' = Some o' -> recorded_once (te_now e) o o' rec'.
Proof.
  unfold tickGroup. destruct (filteredHealth _ _ _ _ _ _) as [[r1 rec1] members] eqn:Ef.
  intros Ht Hr. pose proof (filteredHealth_once _ _ _ _ _ _ _ _ o Ef Hr) as H1.
  clear Ef Hr. repeat case_match; simplify_eq; exact H1.
Qed.

(** A member shared by several groups is counted once. Over a whole tick the outlier record of
    every member is either untouched or advanced by one single outcome. *)
Theorem Tick_records_once groups hs sel failing now r r' acts o o' m :
  Tick Exp2 groups hs sel failing now r = (r', acts) ->
  outlier r = Some o -> outlier r' = Some o' ->
  Outlier.get o' m = Outlier.get o m \/
  exists b, Outlier.get o' m = Outlier.get (Outlier.Record_ o m b now) m.
Proof.
  intros Ht Ho Ho'.
  assert (Hinit : forall o0, outlier r = Some o0 -> recorded_once now o o0 ∅).
  { rewrite Ho. intros o0 [= <-]. split; [done|]. auto. }
  enough (exists rec, recorded_once now o o' rec) as (rec & _ & Hg) by apply Hg.
  unfold Tick in Ht. destruct hs as [h|], sel as [s|], groups as [|g0 gs0];
    try (injection Ht as <- <-; exists ∅; by apply Hinit).
  set (e := {| te_hs := h; te_sel := s; te_failing := failing; te_now := now |}) in *.
  revert Ht Hinit. generalize (g0 :: gs0) (∅ : gset string). clear Ho. intros gs rec.
  revert r rec acts. induction gs as [|g gs IH]; intros r rec acts; cbn [tickGroups].
  - intros [= <- <-] Hinit. eauto.
  - destruct (tickGroup Exp2 e (r, rec) g) as [[r1 rec1] a] eqn:Et.
    destruct (tickGroups Exp2 e (r1, rec1) gs) as [r2 as'] eqn:Es. intros [= <- <-] Hinit.
    eapply IH; [exact Es|]. by eapply (tickGroup_once e).
Qed.

End sessions.

(** ** Concrete runs *)

(** A fixed health table as a health source: an unknown member is dead. *)
Definition table := gmap string (bool * Z).
Definition table_health (t : table) (ids : list string) : list MemberHealth :=
  map (fun id => {| mh_ID := id; mh_Alive := (default (false, 0) (t !! id)).1;
                    mh_LatencyMs := (default (false, 0) (t !! id)).2 |}) ids.
Lemma table_health_ids t ids : map mh_ID (table_health t ids) = ids.
Proof. induction ids as [|id ids IH]; [done|]. simpl. by rewrite IH. Qed.
#[export] Instance table_HealthSource : HealthSource table :=
  {| MemberHealth_of := table_health; MemberHealth_ids := table_health_ids |}.

Definition ordered_group : GroupSpec :=
  {| gs_ID := "g"; gs_Policy := PolicyOrdered; gs_Members := ["a"; "b"];
     gs_Cfg := {| ToleranceMs := 0; MinDwellMS := 0; FailbackHoldMS := 0 |} |}.
Definition both_up : table := {[ "a" := (true, 20); "b" := (true, 30) ]}.
Definition on_b : Selector := {| Selections := {[ "g" := "b" ]}; Select := fun _ _ => true |}.

Definition tick_at (now : Z) (failing : string -> option (gset string)) (r : Runner)
    : Runner * list action :=
  Tick math_Exp2 [ordered_group] (Some both_up) (Some on_b) failing now r.
Definition env_at (now : Z) : TickEnv (H := table) :=
  {| te_hs := both_up; te_sel := on_b; te_failing := fun _ => None; te_now := now |}.

(** A failback to the preferred exit: the want appears at 1000 and commits at 31000. *)
Definition failback : Switch :=
  {| sw_Group := "g"; sw_From := "b"; sw_To := "a"; sw_Reason := "higher-priority member recovered";
     sw_Emergency := false |}.
Definition after_1000 : Runner := (tick_at 1000 (fun _ => None) NewRunner).1.

Example holding_at_20s : (tick_at 21000 (fun _ => None) after_1000).2 = [AHolding "g" "a"].
Proof. vm_compute. reflexivity. Qed.
Example committed_at_30s :
  switches (tick_at 31000 (fun _ => None) after_1000).2 = [failback].
Proof. vm_compute. reflexivity. Qed.

Definition turn_31000 : Runner * gset string * list action :=
  tickGroup math_Exp2 (env_at 31000) (after_1000, ∅) ordered_group.

Lemma failback_hold_enforced_witness :
  exists t0, held_since [(1000, AHold "g" "a")] "g" "a" t0 /\ 30000 <= wrap64 (31000 - t0).
Proof.
  destruct (failback_hold_enforced math_Exp2 (env_at 31000) after_1000 ∅ ordered_group
    [(1000, AHold "g" "a")] turn_31000.1.1 turn_31000.1.2 turn_31000.2 failback)
    as [_ (t0 & Hh & Ht)].
  - exact (session_Tick math_Exp2 [ordered_group] (Some both_up) (Some on_b) (fun _ => None) 1000
             NewRunner [] (session_new math_Exp2)).
  - unfold turn_31000. by destruct (tickGroup _ _ _ _) as [[? ?] ?].
  - vm_compute. right. left.
  - reflexivity.
  - exists t0. split; [exact Hh|exact Ht].
Defined.

Lemma tickGroup_commit_witness :
  exists sw, switches turn_31000.2 = [sw] /\ sw_To sw ∈ ["a"; "b"].
Proof.
  destruct (tickGroup_commit math_Exp2 (env_at 31000) after_1000 ∅ ordered_group
    turn_31000.1.1 turn_31000.1.2 turn_31000.2) as [(H & _)|(sw & Hs & _ & _ & _ & Hin & _)].
  - unfold turn_31000. by destruct (tickGroup _ _ _ _) as [[? ?] ?].
  - vm_compute in H. discriminate.
  - exists sw. split; [exact Hs|exact Hin].
Defined.

(** The member "b" is in two groups and fails real traffic: one tick counts one failure. *)
Definition two_groups : list GroupSpec :=
  [ordered_group; {| gs_ID := "h"; gs_Policy := PolicySelector; gs_Members := ["b"];
                     gs_Cfg := gs_Cfg ordered_group |}].
Definition failing_b : string -> option (gset string) := fun _ => Some {[ "b" ]}.
Definition shared_tick : Runner * list action :=
  Tick math_Exp2 two_groups (Some both_up) (Some on_b) failing_b 1000 (SetFailureSource NewRunner true).
Definition fresh_outlier : Outlier.t := Outlier.NewOutlierDetector Outlier.default_cfg.

Lemma Tick_records_once_witness :
  let o' := default fresh_outlier (outlier shared_tick.1) in
  Outlier.get o' "b" = Outlier.get fresh_outlier "b" \/
  exists b, Outlier.get o' "b" = Outlier.get (Outlier.Record_ fresh_outlier "b" b 1000) "b".
Proof.
  apply (Tick_records_once math_Exp2 two_groups (Some both_up) (Some on_b) failing_b 1000
           (SetFailureSource NewRunner true) shared_tick.1 shared_tick.2).
  - unfold shared_tick. by destruct (Tick _ _ _ _ _ _ _).
  - reflexivity.
  - vm_compute. reflexivity.
Defined.
Example shared_failure_counted_once :
  (fun o => Outlier.consecFails (Outlier.get o "b")) <$> outlier shared_tick.1 = Some 1.
Proof. vm_compute. reflexivity. Qed.

(** Two consequences of the order of the reads, seen on concrete runs. The fifth failure ejects
    "b" inside the tick at 5000, but the incumbent's verdict was read before it: that turn starts
    a graceful hold, and the emergency switch happens one tick later. *)
Definition fails_until (n : nat) : Runner :=
  foldl (fun r k => (Tick math_Exp2 [ordered_group]
                       (Some ({[ "b" := (true, 30); "a" := (true, 20) ]} : table)) (Some on_b)
                       failing_b (Z.of_nat k * 1000) r).1)
        (SetFailureSource NewRunner true) (seq 1 n).
Example ejection_seen_one_tick_late :
  (tick_at 5000 failing_b (fails_until 4)).2 = [AHolding "g" "a"] /\
  map sw_Emergency (switches (tick_at 6000 failing_b (fails_until 5)).2) = [true].
Proof. split; vm_compute; reflexivity. Qed.

(** A pending want is only dropped by a turn of its own group, so a group that leaves the managed
    set and returns 30 s later commits at once, with no turn in between. *)
Example hold_survives_unmanaged :
  let r1 := (tick_at 1000 (fun _ => None) NewRunner).1 in
  let r2 := (Tick math_Exp2 [] (Some both_up) (Some on_b) (fun _ => None) 16000 r1).1 in
  switches (tick_at 31000 (fun _ => None) r2).2 = [failback].
Proof. vm_compute. reflexivity. Qed.
