(* ===== verification/Failsafe.v ===== *)
(** * Fail-safe: the window after an un-saved Apply

    Models [src/internal/failsafe/failsafe.go]: the manager's state, [tickHealth] (the escalation
    degrade, roll back, reboot), the claims that make a rollback fire once, the operator's calls
    (Confirm, Disarm, MarkRolledBack, RollbackNow), and the interleavings of the window goroutines
    with those calls as a step relation: one step per critical section of [m.mu]. *)
From S2P Require Import Prelude.
Local Open Scope Z_scope.
Local Open Scope go_scope.

Inductive Action := ActNone | ActRollback | ActReboot | ActDone.
#[export] Instance Action_eq_dec : EqDecision Action.
Proof. solve_decision. Defined.

(** A [time.Duration] is an int64 of nanoseconds; [d/time.Millisecond] truncates. *)
Definition Second : Z := 1000000000.
Definition Minute : Z := 60 * Second.
Definition millis (d : Z) : Z := Z.quot d 1000000.

Record Durations := {
  Grace : Z;
  Interval : Z;
  RollbackAfter : Z;
  RebootAfter : Z;
  KeepWindow : Z
}.

Definition DefaultDurations : Durations :=
  {| Grace := 20 * Second; Interval := 15 * Second; RollbackAfter := 45 * Second;
     RebootAfter := 5 * Minute; KeepWindow := 3 * Minute |}.

Record Status := {
  st_Pending : bool;
  st_Phase : string;
  st_SecondsLeft : Z;
  st_LastCheckOk : bool;
  st_LastCheckAt : Z;
  st_LastError : string
}.

Inductive error := ErrSuperseded | ErrInProgress | ErrOther (msg : string).
#[export] Instance error_eq_dec : EqDecision error.
Proof. solve_decision. Defined.
Definition Error (e : error) : string :=
  match e with
  | ErrSuperseded => "a newer Apply, Keep or routing switch replaced this fail-safe window before the rollback ran — nothing was rolled back"
  | ErrInProgress => "a rollback is already in progress — retry once it finishes (status will show rolled_back or rollback_failed)"
  | ErrOther msg => msg
  end.

(** A closure given to Arm is named by the window (epoch) it was armed with; [None] is nil. So is a
    window's context: cancelling it is recorded by the system below. The epoch counts windows and
    is unbounded here (its int64 would take 2^63 Arms to wrap). *)
Record Manager := mkManager {
  dur : Durations;
  pending : bool;
  phase : string;
  armedAt : Z;
  deadline : Z;
  bad : bool;
  badSince : Z;
  rolledBack : bool;
  dispatched : bool;
  rollbackDone : bool;
  rollbackFailed : bool;
  epoch : Z;
  lastOk : bool;
  lastAt : Z;
  lastErr : string;
  rollback : option Z;
  reboot : option Z;
  allowReboot : bool;
  cancel : option Z
}.
#[export] Instance eta_Manager : Eta Manager := fun m =>
  mkManager (dur m) (pending m) (phase m) (armedAt m) (deadline m) (bad m) (badSince m)
    (rolledBack m) (dispatched m) (rollbackDone m) (rollbackFailed m) (epoch m) (lastOk m)
    (lastAt m) (lastErr m) (rollback m) (reboot m) (allowReboot m) (cancel m).

Definition New (d : Durations) : Manager :=
  mkManager d false "idle" 0 0 false 0 false false false false 0 false 0 "" None None false None.

(** [ArmHealth] under the lock: the new state, whose epoch names the window; the context the old
    [cancel] field held is cancelled (its caller reads it from the old state). *)
Definition ArmHealth (m : Manager) (now : Z) (rb reb : bool) (allow : bool) : Manager :=
  let e := epoch m + 1 in
  m <| cancel := Some e |> <| epoch := e |> <| pending := true |> <| phase := "armed" |>
    <| rolledBack := false |> <| dispatched := false |> <| rollbackDone := false |>
    <| rollbackFailed := false |> <| bad := false |> <| badSince := 0 |> <| lastErr := "" |>
    <| armedAt := now |> <| deadline := now +! millis (KeepWindow (dur m)) |>
    <| rollback := if rb then Some e else None |> <| reboot := if reb then Some e else None |>
    <| allowReboot := allow |>.

Definition IsCurrent (m : Manager) (e : Z) : bool := epoch m =? e.
Definition Epoch (m : Manager) : Z := epoch m.

Definition claimRollback (m : Manager) (myEpoch : Z) : Manager * bool :=
  if negb (epoch m =? myEpoch) || dispatched m then (m, false)
  else (m <| dispatched := true |>, true).

Definition claimReboot (m : Manager) (myEpoch : Z) : bool := epoch m =? myEpoch.

Definition markRollbackDone (m : Manager) (myEpoch : Z) : Manager :=
  if epoch m =? myEpoch then m <| rollbackDone := true |> else m.

Definition markRollbackFailed (m : Manager) (myEpoch : Z) (err : option error) : Manager :=
  if negb (epoch m =? myEpoch) then m
  else
    let m1 := m <| phase := "rollback_failed" |> <| rollbackFailed := true |> in
    match err with Some e => m1 <| lastErr := Error e |> | None => m1 end.

Inductive Health := HealthUnknown | HealthUp | HealthDown.
#[export] Instance Health_eq_dec : EqDecision Health.
Proof. solve_decision. Defined.

(** The branches of [tickHealth] after its [pending] guard. *)
Definition blind_since (m : Manager) (now : Z) : Z :=
  let prevAt := lastAt m in
  if bad m && (0 <? prevAt) && (prevAt <? now) then
    let s := badSince m +! (now -! prevAt) in
    if now <? s then now else s
  else badSince m.

Definition tick_unknown (m : Manager) (now : Z) : Manager * Action :=
  let m1 := m <| badSince := blind_since m now |> <| lastAt := now |> in
  (if negb (rolledBack m) && negb (rollbackFailed m) then m1 <| phase := "unverified" |> else m1,
   ActNone).

Definition tick_up (m : Manager) (now : Z) : Manager * Action :=
  let m1 := m <| bad := false |> <| badSince := 0 |> in
  if rolledBack m1 then (m1 <| pending := false |>, ActDone)
  else if deadline m1 <=? now then
    let m2 := m1 <| pending := false |> in
    (if negb (rollbackFailed m2) then m2 <| phase := "live_unsaved" |> else m2, ActDone)
  else (if negb (rollbackFailed m1) then m1 <| phase := "armed" |> else m1, ActNone).

Definition tick_down (m : Manager) (now : Z) : Manager * Action :=
  let m1 := if negb (bad m) then m <| bad := true |> <| badSince := now |> else m in
  let badFor := now -! badSince m1 in
  if (millis (RebootAfter (dur m1)) <=? badFor) && rolledBack m1 then
    let m2 := m1 <| pending := false |> in
    (if allowReboot m2 && bool_decide (is_Some (reboot m2)) then m2 <| phase := "reboot" |> else m2,
     ActReboot)
  else if negb (rolledBack m1) && (millis (RollbackAfter (dur m1)) <=? badFor) then
    (m1 <| rolledBack := true |> <| phase := "rolled_back" |>, ActRollback)
  else
    (if negb (rolledBack m1) && negb (rollbackFailed m1) then m1 <| phase := "degraded" |> else m1,
     ActNone).

Definition tickHealth (m : Manager) (now : Z) (h : Health) : Manager * Action :=
  if negb (pending m) then (m, ActNone)
  else match h with
       | HealthUnknown => tick_unknown m now
       | HealthUp => tick_up (m <| lastOk := true |> <| lastAt := now |>) now
       | HealthDown => tick_down (m <| lastOk := false |> <| lastAt := now |>) now
       end.

Definition tick (m : Manager) (now : Z) (ok : bool) : Manager * Action :=
  if ok then tickHealth m now HealthUp else tickHealth m now HealthDown.

Definition Confirm (m : Manager) : Manager :=
  m <| pending := false |> <| phase := "committed" |> <| epoch := epoch m + 1 |>.

Definition Disarm (m : Manager) : Manager * bool :=
  (m <| pending := false |> <| phase := "idle" |> <| epoch := epoch m + 1 |> <| cancel := None |>,
   pending m).

Definition MarkRolledBack (m : Manager) : Manager :=
  if negb (pending m) && negb (bool_decide (phase m = "rollback_failed")) then m
  else m <| pending := false |> <| phase := "rolled_back" |> <| rolledBack := true |>
         <| rollbackDone := true |> <| rollbackFailed := false |> <| lastErr := "" |>
         <| epoch := epoch m + 1 |>.

(** [rollbackNow] is two critical sections with the closure's run in between. The first decides:
    an error, a finished earlier dispatch to finalize, or the closure to run and the window it was
    claimed for. *)
Inductive rollback_start :=
| RsError (e : error)
| RsFinalized (m : Manager)
| RsRun (m : Manager) (ep : Z) (rb : option Z).

Definition rollbackNow_start (m : Manager) (e : Z) (only : bool) : rollback_start :=
  if only && negb (epoch m =? e) then RsError ErrSuperseded
  else if dispatched m && negb (rollbackDone m) && negb (rollbackFailed m)
  then RsError ErrInProgress
  else if rollbackDone m && negb (rollbackFailed m) then
    RsFinalized (m <| dispatched := true |> <| pending := false |> <| phase := "rolled_back" |>
                   <| rolledBack := true |>)
  else RsRun (m <| dispatched := true |> <| rollbackDone := false |> <| rollbackFailed := false |>)
             (epoch m) (rollback m).

(** The second settles: the state, and the error the caller gets. *)
Definition rollbackNow_settle (m : Manager) (ep : Z) (rbErr : option error)
    : Manager * option error :=
  if negb (epoch m =? ep) || bool_decide (rbErr = Some ErrSuperseded) then (m, rbErr)
  else match rbErr with
       | Some e => (markRollbackFailed m ep (Some e), Some e)
       | None =>
           (m <| pending := false |> <| phase := "rolled_back" |> <| rolledBack := true |>
              <| rollbackDone := true |> <| rollbackFailed := false |> <| lastErr := "" |>, None)
       end.

Definition Status_ (m : Manager) (now : Z) : Status :=
  let left := Z.quot (deadline m -! now) 1000 in
  {| st_Pending := pending m; st_Phase := phase m;
     st_SecondsLeft := if pending m && negb (rolledBack m) && (0 <? left) then left else 0;
     st_LastCheckOk := lastOk m; st_LastCheckAt := lastAt m; st_LastError := lastErr m |}.

(** ** The escalation as a measurement of downtime

    The specification of one window: how long connectivity has been measured bad. An interval is
    counted when the observation that ends it is Down and the outage had already begun; an interval
    that ends in Unknown counts for nothing, and Up ends the outage. *)
Record window := mkWindow {
  w_open : bool;
  w_rolled : bool;
  w_outage : option Z;
  w_prev : Z
}.

Definition spec_step (dl rollbackMs rebootMs : Z) (w : window) (o : Z * Health) : window * Action :=
  let '(t, h) := o in
  if negb (w_open w) then (w, ActNone)
  else match h with
       | HealthUnknown => (mkWindow true (w_rolled w) (w_outage w) t, ActNone)
       | HealthUp =>
           if w_rolled w || (dl <=? t) then (mkWindow false (w_rolled w) None t, ActDone)
           else (mkWindow true false None t, ActNone)
       | HealthDown =>
           let down := match w_outage w with Some x => x + (t - w_prev w) | None => 0 end in
           if w_rolled w then
             if rebootMs <=? down then (mkWindow false true (Some down) t, ActReboot)
             else (mkWindow true true (Some down) t, ActNone)
           else if rollbackMs <=? down then (mkWindow true true (Some down) t, ActRollback)
           else (mkWindow true false (Some down) t, ActNone)
       end.

Fixpoint run_steps {S : Type} (step : S -> Z * Health -> S * Action) (s : S)
    (os : list (Z * Health)) : S * list Action :=
  match os with
  | [] => (s, [])
  | o :: os' =>
      let '(s1, a) := step s o in
      let '(s2, as') := run_steps step s1 os' in (s2, a :: as')
  end.

Definition run_ticks : Manager -> list (Z * Health) -> Manager * list Action :=
  run_steps (fun m o => tickHealth m o.1 o.2).

(** Observation times: clock readings that never go back. *)
Fixpoint times_from (t : Z) (os : list (Z * Health)) : Prop :=
  match os with
  | [] => True
  | o :: os' => 0 < o.1 /\ is_time o.1 /\ t <= o.1 /\ times_from o.1 os'
  end.

(** The abstraction: what the manager's [bad], [badSince] and [lastAt] say of the window. *)
Record measures (m : Manager) (w : window) : Prop := {
  ms_open : pending m = w_open w;
  ms_rolled : rolledBack m = w_rolled w;
  ms_outage : w_open w = true ->
    match w_outage w with
    | None => bad m = false
    | Some x => bad m = true /\ 0 < w_prev w /\ lastAt m = w_prev w /\ is_time (w_prev w) /\
                0 <= x <= w_prev w /\ badSince m = w_prev w - x
    end
}.

(** [tick_down] once the outage's start [s] is known. *)
Definition down_from (m : Manager) (now s : Z) : Manager * Action :=
  let m1 := m <| bad := true |> <| badSince := s |> in
  if (millis (RebootAfter (dur m)) <=? now -! s) && rolledBack m then
    (m1 <| pending := false |>
        <| phase := if allowReboot m && bool_decide (is_Some (reboot m)) then "reboot" else phase m |>,
     ActReboot)
  else if negb (rolledBack m) && (millis (RollbackAfter (dur m)) <=? now -! s) then
    (m1 <| rolledBack := true |> <| phase := "rolled_back" |>, ActRollback)
  else (m1 <| phase := if negb (rolledBack m) && negb (rollbackFailed m) then "degraded" else phase m |>,
        ActNone).

Lemma tick_down_from m now :
  tick_down m now = down_from m now (if bad m then badSince m else now).
Proof.
  unfold tick_down, down_from. destruct m as []; simpl. destruct bad0; simpl;
    repeat case_match; simpl; done.
Qed.

(** One observation of the specification, with a window's own deadlines. *)
Definition spec_of (m : Manager) : window -> Z * Health -> window * Action :=
  spec_step (deadline m) (millis (RollbackAfter (dur m))) (millis (RebootAfter (dur m))).

Lemma tick_down_measures m w t :
  measures m w -> w_open w = true -> 0 < t -> is_time t ->
  (forall x, w_outage w = Some x -> w_prev w <= t) ->
  let m0 := m <| lastOk := false |> <| lastAt := t |> in
  (tick_down m0 t).2 = (spec_of m w (t, HealthDown)).2 /\
  measures (tick_down m0 t).1 (spec_of m w (t, HealthDown)).1.
Proof.
  intros [Ho Hr Hout] Hopen Ht0 Ht Hprev m0. rewrite tick_down_from. specialize (Hout Hopen).
  set (down := match w_outage w with Some x => x + (t - w_prev w) | None => 0 end).
  assert (Hs : (if bad m0 then badSince m0 else t) = t - down /\ 0 <= down <= t).
  { unfold m0, down, is_time in *; simpl. destruct (w_outage w) as [x|].
    - destruct Hout as (-> & Hp & _ & Htp & Hx & ->). specialize (Hprev x eq_refl). lia.
    - rewrite Hout. lia. }
  destruct Hs as [-> Hdown].
  assert (Hw : t -! (t - down) = down).
  { rewrite wrap64_id; [lia|]. unfold is_time, is_int64, min_int64, max_int64 in *. lia. }
  unfold spec_of, spec_step, down_from. rewrite Hopen, Hw. simpl. fold down. rewrite Hr.
  destruct (w_rolled w) eqn:Ew; simpl; rewrite ?andb_true_r, ?andb_false_r;
    [destruct (millis (RebootAfter (dur m)) <=? down)
    |destruct (millis (RollbackAfter (dur m)) <=? down)]; simpl;
    (split; [done|]); split; simpl; try done; try congruence; intros _;
    unfold is_time in *; split_and!; try done; lia.
Qed.

Lemma tick_unknown_measures m w t :
  measures m w -> w_open w = true -> 0 < t -> is_time t ->
  (forall x, w_outage w = Some x -> w_prev w <= t) ->
  measures (tick_unknown m t).1 (spec_of m w (t, HealthUnknown)).1.
Proof.
  intros [Ho Hr Hout] Hopen Ht0 Ht Hprev. specialize (Hout Hopen).
  unfold spec_of, spec_step, tick_unknown. rewrite Hopen. simpl.
  assert (Hb : forall x, w_outage w = Some x -> blind_since m t = t - x).
  { intros x Hx. rewrite Hx in Hout. destruct Hout as (Hb & Hp & Hl & Htp & Hxr & Hs).
    specialize (Hprev x Hx). unfold blind_since, is_time in *. rewrite Hb, Hl, Hs.
    rewrite (wrap64_id (t - w_prev w)) by (unfold is_int64, min_int64, max_int64; lia).
    rewrite wrap64_id by (unfold is_int64, min_int64, max_int64; lia).
    simpl. repeat case_match; lia. }
  destruct (negb (rolledBack m) && negb (rollbackFailed m)); simpl;
    (split; simpl; [congruence..|]); intros _; destruct (w_outage w) as [x|]; try done;
    destruct Hout as (Hbm & _ & _ & _ & Hx & _); specialize (Hb x eq_refl);
    specialize (Hprev x eq_refl); unfold is_time in *; split_and!; try done; lia.
Qed.

Lemma tick_up_measures m w t :
  measures m w -> w_open w = true ->
  let m0 := m <| lastOk := true |> <| lastAt := t |> in
  (tick_up m0 t).2 = (spec_of m w (t, HealthUp)).2 /\
  measures (tick_up m0 t).1 (spec_of m w (t, HealthUp)).1.
Proof.
  intros [Ho Hr Hout] Hopen m0. specialize (Hout Hopen).
  unfold spec_of, spec_step, tick_up, m0. rewrite Hopen. simpl. rewrite Hr.
  destruct (w_rolled w) eqn:Ew; simpl; [by split; [|split]|].
  destruct (deadline m <=? t); simpl; (split; [done|]); destruct (rollbackFailed m); simpl;
    split; simpl; try done; congruence.
Qed.

(** One observation keeps the abstraction, and the clocks ordered. *)
Lemma tickHealth_measures m w t h :
  measures m w -> 0 < t -> is_time t -> w_prev w <= t ->
  (tickHealth m t h).2 = (spec_of m w (t, h)).2 /\
  measures (tickHealth m t h).1 (spec_of m w (t, h)).1 /\
  w_prev (spec_of m w (t, h)).1 <= t.
Proof.
  intros Hm Ht0 Ht Hprev. unfold tickHealth. rewrite (ms_open _ _ Hm).
  destruct (w_open w) eqn:Hopen; simpl.
  2: { unfold spec_of, spec_step. by rewrite Hopen. }
  assert (Hle : w_prev (spec_of m w (t, h)).1 <= t).
  { unfold spec_of, spec_step. rewrite Hopen. destruct h; simpl; repeat case_match; simpl; lia. }
  destruct h.
  - split; [unfold tick_unknown, spec_of, spec_step; by rewrite Hopen|].
    split; [by apply tick_unknown_measures|done].
  - destruct (tick_up_measures m w t Hm Hopen) as [-> H]. done.
  - destruct (tick_down_measures m w t Hm Hopen Ht0 Ht) as [-> H]; done.
Qed.

Lemma tickHealth_frame m t h :
  deadline (tickHealth m t h).1 = deadline m /\ dur (tickHealth m t h).1 = dur m /\
  epoch (tickHealth m t h).1 = epoch m /\ dispatched (tickHealth m t h).1 = dispatched m /\
  rollbackDone (tickHealth m t h).1 = rollbackDone m /\
  rollbackFailed (tickHealth m t h).1 = rollbackFailed m.
Proof.
  unfold tickHealth, tick_unknown, tick_up, tick_down. destruct m as []; simpl.
  repeat (case_match; simpl in *; simplify_eq); done.
Qed.

Lemma run_steps_cons {S} (step : S -> Z * Health -> S * Action) s o os :
  run_steps step s (o :: os) =
    ((run_steps step (step s o).1 os).1, (step s o).2 :: (run_steps step (step s o).1 os).2).
Proof. simpl. destruct (step s o) as [s1 a]; simpl. by destruct (run_steps step s1 os). Qed.

Lemma run_ticks_measures m w os :
  measures m w -> times_from (w_prev w) os ->
  (run_ticks m os).2 = (run_steps (spec_of m) w os).2.
Proof.
  revert m w. induction os as [|[t h] os IH]; intros m w Hm Hos; [done|].
  destruct Hos as (Ht0 & Ht & Hprev & Hos). cbn [fst] in *.
  destruct (tickHealth_measures m w t h Hm Ht0 Ht Hprev) as (Ha & Hm1 & Hp1).
  destruct (tickHealth_frame m t h) as (Hd & Hdur & _).
  assert (Hspec : spec_of (tickHealth m t h).1 = spec_of m) by (unfold spec_of; by rewrite Hd, Hdur).
  assert (Hos1 : times_from (w_prev (spec_of m w (t, h)).1) os)
    by (destruct os as [|o os]; [done|]; simpl in *; intuition lia).
  specialize (IH _ _ Hm1 Hos1). rewrite Hspec in IH.
  unfold run_ticks in *. rewrite !run_steps_cons. cbn [snd fst]. by rewrite Ha, IH.
Qed.

(** The window a fresh Arm opens. *)
Definition armed_window : window := mkWindow true false None 0.

Lemma ArmHealth_measures m now rb reb allow : measures (ArmHealth m now rb reb allow) armed_window.
Proof. by split. Qed.

(** C37: the escalation is a measurement. From a fresh Arm, whatever the connectivity probe answers,
    the actions of the window are exactly those of the specification: roll back when the measured
    downtime of one outage reaches RollbackAfter, reboot when it reaches RebootAfter after the
    rollback, finish when connectivity is up after a rollback or past the keep window; a probe that
    could not run never counts as downtime and never finishes a window. *)
Theorem tickHealth_refines m now rb reb allow os :
  times_from 0 os ->
  let m0 := ArmHealth m now rb reb allow in
  (run_ticks m0 os).2 =
    (run_steps (spec_step (now +! millis (KeepWindow (dur m)))
                 (millis (RollbackAfter (dur m))) (millis (RebootAfter (dur m)))) armed_window os).2.
Proof. intros Hos m0. apply run_ticks_measures; [apply ArmHealth_measures|done]. Qed.

(** Where a window's actions sit: a rollback is asked for at most once, a reboot only after it. *)
Definition order_ok (rolled : bool) (l : list Action) : Prop :=
  (length (filter (fun a => a = ActRollback) l) <= if rolled then 0 else 1)%nat /\
  forall l1 l2, l = l1 ++ ActReboot :: l2 -> rolled = true \/ ActRollback ∈ l1.

Lemma order_ok_cons rolled a l rolled' :
  (a = ActRollback -> rolled = false) -> (a = ActReboot -> rolled = true) ->
  (rolled' = rolled || bool_decide (a = ActRollback)) ->
  order_ok rolled' l -> order_ok rolled (a :: l).
Proof.
  intros Hrb Hre -> [Hn Ho]. split.
  - rewrite filter_cons. case_decide as E.
    + rewrite (Hrb E) in *. rewrite bool_decide_true in Hn by done. simpl in *. lia.
    + rewrite bool_decide_false, orb_false_r in Hn by done. done.
  - intros [|a' l1] l2 Heq; simplify_eq/=; [left; auto|].
    destruct (Ho l1 l2 eq_refl) as [H|H]; [|right; set_solver].
    apply orb_true_iff in H as [H|H]; [by left|]. bool_facts. right. subst. set_solver.
Qed.

Lemma order_ok_nil b : order_ok b [].
Proof. split; [simpl; case_match; lia|]. by intros [|? ?] ?. Qed.

Definition order_step (m : Manager) (r : Manager * Action) : Prop :=
  (r.2 = ActRollback -> rolledBack m = false) /\ (r.2 = ActReboot -> rolledBack m = true) /\
  rolledBack r.1 = rolledBack m || bool_decide (r.2 = ActRollback).

Lemma order_step_same m m' a :
  rolledBack m' = rolledBack m -> a <> ActRollback -> (a = ActReboot -> rolledBack m = true) ->
  order_step m (m', a).
Proof.
  intros Hr Ha Hre. unfold order_step; simpl. rewrite bool_decide_false, orb_false_r by done.
  done.
Qed.

Lemma tickHealth_order m t h : order_step m (tickHealth m t h).
Proof.
  unfold tickHealth. destruct (pending m); simpl; [|by apply order_step_same].
  destruct h; [unfold tick_unknown|unfold tick_up|rewrite tick_down_from; unfold down_from]; simpl.
  - apply order_step_same; [by case_match|done..].
  - destruct (rolledBack m) eqn:E; [|case_match]; apply order_step_same; simpl; try done;
      by case_match; simpl; rewrite E.
  - destruct (rolledBack m) eqn:E; simpl; rewrite ?andb_true_r, ?andb_false_r; case_match;
      try (by apply order_step_same); unfold order_step; simpl; rewrite E; done.
Qed.

(** Escalation order. In any window, from any state of the manager, a rollback is asked for at
    most once, and a reboot never before it. *)
Theorem escalation_order m os : order_ok (rolledBack m) (run_ticks m os).2.
Proof.
  revert m. induction os as [|[t h] os IH]; intros m; [apply order_ok_nil|].
  unfold run_ticks in *. rewrite run_steps_cons. cbn [snd fst].
  pose proof (tickHealth_order m t h) as H. specialize (IH (tickHealth m t h).1).
  destruct H as (H1 & H2 & H3). by apply (order_ok_cons _ _ _ (rolledBack (tickHealth m t h).1)).
Qed.

(** ** The goroutines

    One goroutine per Arm runs [run]; the operator's calls come from HTTP handlers. Everything under
    [m.mu] is one step. A goroutine reads the clock, then probes (outside the lock), then ticks: so
    a probe that outlives its window ticks the next one. *)
Inductive run_pc :=
| PWaiting                  (* in the select before the next check *)
| PChecked                  (* ctx.Err() was nil, about to read pending *)
| PProbing (now : Z)        (* nowMS() read, check() running *)
| PClaiming                 (* ActRollback, about to claim *)
| PRolling                  (* claimed: rollback() running *)
| PRebooting                (* ActReboot with a reboot to do *)
| PStopped.
#[export] Instance run_pc_eq_dec : EqDecision run_pc.
Proof. solve_decision. Defined.

Record goroutine := mkG { g_rb : bool; g_reb : bool; g_allow : bool; g_pc : run_pc }.
#[export] Instance eta_goroutine : Eta goroutine := fun g =>
  mkG (g_rb g) (g_reb g) (g_allow g) (g_pc g).

(** What the outside world sees: a rollback closure starting for a window (by its goroutine, or by
    an operator), one returning nil, and a reboot. *)
Inductive event :=
| EvRollback (e : Z) (auto : bool)
| EvSucceeded (e : Z)
| EvMarked
| EvReboot (e : Z).

#[export] Instance event_eq_dec : EqDecision event.
Proof. solve_decision. Defined.

Record Sys := mkSys {
  mgr : Manager;
  cancelled : gset Z;
  gos : gmap Z goroutine;
  manual : list Z;      (* the windows of the RollbackNow calls in flight *)
  log : list event      (* newest first *)
}.

Definition cancel_of (m : Manager) (c : gset Z) : gset Z :=
  match cancel m with Some e => {[e]} ∪ c | None => c end.

Definition after_tick (g : goroutine) (a : Action) : run_pc :=
  match a with
  | ActNone => PWaiting
  | ActRollback => if g_rb g then PClaiming else PWaiting
  | ActReboot => if g_allow g && g_reb g then PRebooting else PStopped
  | ActDone => PStopped
  end.

Definition set_pc (gs : gmap Z goroutine) (e : Z) (g : goroutine) (pc : run_pc) : gmap Z goroutine :=
  <[e := g <| g_pc := pc |>]> gs.

Fixpoint remove_one (e : Z) (l : list Z) : list Z :=
  match l with
  | [] => []
  | x :: l' => if decide (x = e) then l' else x :: remove_one e l'
  end.

Inductive step : Sys -> Sys -> Prop :=
| st_arm m c gs ms l now rb reb allow :
    step (mkSys m c gs ms l)
         (mkSys (ArmHealth m now rb reb allow) (cancel_of m c)
                (<[epoch m + 1 := mkG rb reb allow PWaiting]> gs) ms l)
| st_confirm m c gs ms l :
    step (mkSys m c gs ms l) (mkSys (Confirm m) (cancel_of m c) gs ms l)
| st_disarm m c gs ms l :
    step (mkSys m c gs ms l) (mkSys (Disarm m).1 (cancel_of m c) gs ms l)
| st_mark m c gs ms l :
    step (mkSys m c gs ms l) (mkSys (MarkRolledBack m) (cancel_of m c) gs ms (EvMarked :: l))
| st_ctx m c gs ms l e g :
    gs !! e = Some g -> g_pc g = PWaiting ->
    step (mkSys m c gs ms l)
         (mkSys m c (set_pc gs e g (if decide (e ∈ c) then PStopped else PChecked)) ms l)
| st_probe m c gs ms l e g now :
    gs !! e = Some g -> g_pc g = PChecked ->
    step (mkSys m c gs ms l)
         (mkSys m c (set_pc gs e g (if pending m then PProbing now else PStopped)) ms l)
| st_tick m c gs ms l e g now h :
    gs !! e = Some g -> g_pc g = PProbing now ->
    step (mkSys m c gs ms l)
         (mkSys (tickHealth m now h).1 c (set_pc gs e g (after_tick g (tickHealth m now h).2)) ms l)
| st_claim m c gs ms l e g :
    gs !! e = Some g -> g_pc g = PClaiming ->
    step (mkSys m c gs ms l)
         (mkSys (claimRollback m e).1 c
                (set_pc gs e g (if (claimRollback m e).2 then PRolling else PWaiting)) ms
                (if (claimRollback m e).2 then EvRollback e true :: l else l))
| st_rolled m c gs ms l e g (err : option error) :
    gs !! e = Some g -> g_pc g = PRolling ->
    step (mkSys m c gs ms l)
         (mkSys (match err with None => markRollbackDone m e | Some _ => markRollbackFailed m e err end)
                c (set_pc gs e g PWaiting) ms
                (match err with None => EvSucceeded e :: l | Some _ => l end))
| st_reboot m c gs ms l e g :
    gs !! e = Some g -> g_pc g = PRebooting ->
    step (mkSys m c gs ms l)
         (mkSys m c (set_pc gs e g PStopped) ms
                (if claimReboot m e then EvReboot e :: l else l))
| st_manual_finalized m c gs ms l e only m' :
    rollbackNow_start m e only = RsFinalized m' ->
    step (mkSys m c gs ms l) (mkSys m' (cancel_of m c) gs ms l)
| st_manual_start m c gs ms l e only m' ep rb :
    rollbackNow_start m e only = RsRun m' ep rb ->
    step (mkSys m c gs ms l) (mkSys m' c gs (ep :: ms)
                (match rb with Some _ => EvRollback ep false :: l | None => l end))
| st_manual_settle m c gs ms l ep err :
    ep ∈ ms ->
    step (mkSys m c gs ms l)
         (mkSys (rollbackNow_settle m ep err).1
                (if bool_decide (epoch m = ep) && bool_decide (err = None) then cancel_of m c else c)
                gs (remove_one ep ms)
                (match err with None => EvSucceeded ep :: l | Some _ => l end)).

Definition init (d : Durations) : Sys := mkSys (New d) ∅ ∅ [] [].

Inductive reachable (d : Durations) : Sys -> Prop :=
| reach_init : reachable d (init d)
| reach_step s s' : reachable d s -> step s s' -> reachable d s'.

(** The rollback closures running for window [e]: its goroutine's, and the operators'. *)
Definition rolling (gs : gmap Z goroutine) (e : Z) : nat :=
  match gs !! e with Some g => if decide (g_pc g = PRolling) then 1 else 0 | None => 0 end.
Definition occurrences (e : Z) (l : list Z) : nat := length (filter (fun x => x = e) l).
Definition in_flight (s : Sys) (e : Z) : nat := (rolling (gos s) e + occurrences e (manual s))%nat.
Definition auto_rollbacks (e : Z) (l : list event) : nat :=
  length (filter (fun x => x = EvRollback e true) l).

Record inv (s : Sys) : Prop := {
  inv_epoch : 0 <= epoch (mgr s);
  inv_gos : forall e g, gos s !! e = Some g -> e <= epoch (mgr s);
  inv_manual : forall e, e ∈ manual s -> e <= epoch (mgr s);
  inv_one : forall e, (in_flight s e <= 1)%nat;
  inv_busy : in_flight s (epoch (mgr s)) = 1%nat ->
    dispatched (mgr s) = true /\ rollbackDone (mgr s) = false /\ rollbackFailed (mgr s) = false;
  inv_fresh : is_Some (gos s !! epoch (mgr s)) -> dispatched (mgr s) = false ->
    rollbackDone (mgr s) = false /\ rollbackFailed (mgr s) = false;
  inv_auto : forall e, (auto_rollbacks e (log s) <= 1)%nat /\
    (epoch (mgr s) < e -> auto_rollbacks e (log s) = 0%nat) /\
    (e = epoch (mgr s) -> auto_rollbacks e (log s) = 1%nat -> dispatched (mgr s) = true)
}.

Lemma rolling_set gs e g e' :
  rolling (<[e := g]> gs) e' =
    if decide (e = e') then (if decide (g_pc g = PRolling) then 1%nat else 0%nat) else rolling gs e'.
Proof.
  unfold rolling. destruct (decide (e = e')) as [<-|Hne];
    [by rewrite lookup_insert_eq|by rewrite lookup_insert_ne].
Qed.

Lemma rolling_at gs e g : gs !! e = Some g ->
  rolling gs e = if decide (g_pc g = PRolling) then 1%nat else 0%nat.
Proof. intros H. unfold rolling. rewrite H. done. Qed.

Lemma occurrences_none e l : e ∉ l -> occurrences e l = 0%nat.
Proof.
  intros H. unfold occurrences. induction l as [|x l IH]; [done|].
  rewrite filter_cons. set_unfold. case_decide; [naive_solver|]. apply IH. naive_solver.
Qed.
Lemma occurrences_cons e x l :
  occurrences e (x :: l) = ((if decide (x = e) then 1 else 0) + occurrences e l)%nat.
Proof. unfold occurrences. rewrite filter_cons. by case_decide. Qed.
Lemma occurrences_remove e x l : x ∈ l ->
  occurrences e l = ((if decide (x = e) then 1 else 0) + occurrences e (remove_one x l))%nat.
Proof.
  induction l as [|y l IH]; [intros ?%elem_of_nil; done|]. intros [->|Hin]%elem_of_cons; simpl.
  - rewrite occurrences_cons. destruct (decide (y = y)) as [_|[]]; done.
  - rewrite occurrences_cons, IH by done. destruct (decide (y = x)) as [->|Hne];
      [rewrite (IH Hin)|rewrite occurrences_cons]; lia.
Qed.
Lemma remove_one_in e x l : e ∈ remove_one x l -> e ∈ l.
Proof.
  induction l as [|y l IH]; simpl; [done|]. case_decide; set_unfold; naive_solver.
Qed.

Lemma auto_cons e x l :
  auto_rollbacks e (x :: l) = ((if decide (x = EvRollback e true) then 1 else 0) + auto_rollbacks e l)%nat.
Proof. unfold auto_rollbacks. rewrite filter_cons. by case_decide. Qed.
Lemma auto_other e x l : x <> EvRollback e true -> auto_rollbacks e (x :: l) = auto_rollbacks e l.
Proof. intros. rewrite auto_cons, decide_False by done. done. Qed.

(** Nothing of a window that does not exist yet is running. *)
Lemma in_flight_future s e : inv s -> epoch (mgr s) < e -> in_flight s e = 0%nat.
Proof.
  intros Hi He. unfold in_flight, rolling.
  rewrite occurrences_none by (intros H; pose proof (inv_manual s Hi e H); lia).
  destruct (gos s !! e) as [g|] eqn:E; [|done]. pose proof (inv_gos s Hi e g E). lia.
Qed.

(** The next window: a state whose epoch moved on, with at most a fresh goroutine for it. *)
Lemma inv_next m c gs ms l m' c' gs' l' :
  inv (mkSys m c gs ms l) ->
  epoch m' = epoch m + 1 ->
  (gs' = gs \/ (exists g, gs' = <[epoch m + 1 := g]> gs /\ g_pc g = PWaiting /\
                rollbackDone m' = false /\ rollbackFailed m' = false)) ->
  (forall e, auto_rollbacks e l' = auto_rollbacks e l) ->
  inv (mkSys m' c' gs' ms l').
Proof.
  intros Hi He Hgs Hl. pose proof (in_flight_future _ (epoch m + 1) Hi ltac:(simpl; lia)) as Hz.
  unfold in_flight in Hz; simpl in Hz.
  assert (Hroll : forall e, rolling gs' e = rolling gs e).
  { intros e. destruct Hgs as [->|(g & -> & Hpc & _)]; [done|].
    rewrite rolling_set. case_decide as E; [|done]. subst e.
    rewrite decide_False by (by rewrite Hpc). lia. }
  split; simpl; rewrite ?He.
  - pose proof (inv_epoch _ Hi). simpl in *. lia.
  - intros e g. destruct Hgs as [->|(g' & -> & _)].
    + intros H. pose proof (inv_gos _ Hi e g H). simpl in *. lia.
    + destruct (decide (epoch m + 1 = e)) as [<-|Hne]; [lia|].
      rewrite lookup_insert_ne by done. intros H. pose proof (inv_gos _ Hi e g H). simpl in *. lia.
  - intros e H. pose proof (inv_manual _ Hi e H). simpl in *. lia.
  - intros e. unfold in_flight; simpl. rewrite Hroll. apply (inv_one _ Hi e).
  - unfold in_flight; simpl. rewrite Hroll. lia.
  - intros [g Hg] _. destruct Hgs as [->|(g' & _ & _ & Hd & Hf)]; [|done].
    pose proof (inv_gos _ Hi _ g Hg). simpl in *. lia.
  - intros e. rewrite Hl. destruct (inv_auto _ Hi e) as (H1 & H2 & H3). simpl in *.
    split_and!; [done|intros; apply H2; lia|]. intros -> H. rewrite H2 in H; lia.
Qed.

(** A step that leaves the claims alone and moves a goroutine that is not rolling back. *)
Lemma inv_pc m c gs ms l m' c' e g pc l' :
  inv (mkSys m c gs ms l) -> gs !! e = Some g -> g_pc g <> PRolling -> pc <> PRolling ->
  epoch m' = epoch m -> dispatched m' = dispatched m -> rollbackDone m' = rollbackDone m ->
  rollbackFailed m' = rollbackFailed m ->
  (forall e, auto_rollbacks e l' = auto_rollbacks e l) ->
  inv (mkSys m' c' (set_pc gs e g pc) ms l').
Proof.
  intros Hi Hg Hpc Hpc' He Hd Hdone Hf Hl.
  assert (Hroll : forall e', rolling (set_pc gs e g pc) e' = rolling gs e').
  { intros e'. unfold set_pc. rewrite rolling_set. case_decide as E; [subst e'|done].
    simpl. rewrite decide_False by done. rewrite (rolling_at _ _ _ Hg).
    by rewrite decide_False. }
  split; simpl; rewrite ?He, ?Hd, ?Hdone, ?Hf.
  - apply (inv_epoch _ Hi).
  - intros e' g'. unfold set_pc. destruct (decide (e = e')) as [<-|Hne].
    + intros _. apply (inv_gos _ Hi e g Hg).
    + rewrite lookup_insert_ne by done. apply (inv_gos _ Hi).
  - apply (inv_manual _ Hi).
  - intros e'. unfold in_flight; simpl. rewrite Hroll. apply (inv_one _ Hi e').
  - unfold in_flight; simpl. rewrite Hroll. apply (inv_busy _ Hi).
  - intros [g' Hg'] Hn. apply (inv_fresh _ Hi); [|done]. simpl.
    unfold set_pc in Hg'. destruct (decide (e = epoch m)) as [<-|Hne]; [by exists g|].
    rewrite lookup_insert_ne in Hg' by done. by exists g'.
  - intros e'. rewrite Hl. apply (inv_auto _ Hi e').
Qed.

(** A step of the manager alone, within one window, that leaves the claims as they are. *)
Lemma inv_same m c gs ms l m' c' l' :
  inv (mkSys m c gs ms l) ->
  epoch m' = epoch m -> dispatched m' = dispatched m -> rollbackDone m' = rollbackDone m ->
  rollbackFailed m' = rollbackFailed m ->
  (forall e, auto_rollbacks e l' = auto_rollbacks e l) ->
  inv (mkSys m' c' gs ms l').
Proof.
  intros [H1 H2 H3 H4 H5 H6 H7] He Hd Hdone Hf Hl; simpl in *. unfold in_flight in *; simpl in *.
  split; unfold in_flight; simpl; rewrite ?He, ?Hd, ?Hdone, ?Hf; try done.
  intros e. rewrite Hl. apply H7.
Qed.

Lemma inv_tick m c gs ms l e g now h :
  inv (mkSys m c gs ms l) -> gs !! e = Some g -> g_pc g = PProbing now ->
  inv (mkSys (tickHealth m now h).1 c (set_pc gs e g (after_tick g (tickHealth m now h).2)) ms l).
Proof.
  intros Hi Hg Hpc. destruct (tickHealth_frame m now h) as (_ & _ & H1 & H2 & H3 & H4).
  apply (inv_pc _ _ _ _ _ _ _ _ _ _ _ Hi Hg); try done; [by rewrite Hpc|].
  unfold after_tick. repeat case_match; done.
Qed.

Lemma inv_claim m c gs ms l e g :
  inv (mkSys m c gs ms l) -> gs !! e = Some g -> g_pc g = PClaiming ->
  inv (mkSys (claimRollback m e).1 c
         (set_pc gs e g (if (claimRollback m e).2 then PRolling else PWaiting)) ms
         (if (claimRollback m e).2 then EvRollback e true :: l else l)).
Proof.
  intros Hi Hg Hpc. unfold claimRollback.
  destruct (negb (epoch m =? e) || dispatched m) eqn:E; simpl.
  { apply (inv_pc _ _ _ _ _ _ _ _ _ _ _ Hi Hg); try done. by rewrite Hpc. }
  bool_facts. apply Z.eqb_eq in H. subst e. rename H0 into Hd.
  destruct Hi as [H1 H2 H3 H4 H5 H6 H7]; unfold in_flight in *; simpl in *.
  destruct (H6 (ex_intro _ g Hg) Hd) as [Hdone Hf].
  assert (Hz : rolling gs (epoch m) = 0%nat /\ occurrences (epoch m) ms = 0%nat).
  { specialize (H4 (epoch m)). split; [rewrite (rolling_at _ _ _ Hg), Hpc; done|].
    destruct (decide (rolling gs (epoch m) + occurrences (epoch m) ms = 1)%nat) as [E1|]; [|lia].
    apply H5 in E1 as [E1 _]. congruence. }
  destruct Hz as [Hz1 Hz2]. unfold set_pc. split; unfold in_flight; simpl; try done.
  - intros e' g'. destruct (decide (epoch m = e')) as [<-|Hne]; [lia|].
    rewrite lookup_insert_ne by done. apply H2.
  - intros e'. rewrite rolling_set; simpl. destruct (decide (epoch m = e')) as [<-|Hne];
      [rewrite Hz2; done|apply H4].
  - intros e'. destruct (H7 e') as (Ha & Hb & Hc). rewrite auto_cons.
    destruct (decide (EvRollback (epoch m) true = EvRollback e' true)) as [E'|E'].
    + injection E' as <-. destruct (decide (auto_rollbacks (epoch m) l = 1)%nat) as [E1|E1];
        [rewrite Hc in Hd; done|]. split_and!; [lia|lia|done].
    + simpl. by split_and!.
Qed.

(** The end of a rollback: the claims may become anything when the window stays the current one and
    nothing of it is left running. *)
Lemma inv_done m c gs ms l m' c' gs' ms' l' ep :
  inv (mkSys m c gs ms l) ->
  (forall e, (rolling gs e + occurrences e ms)%nat =
     ((if decide (ep = e) then 1 else 0) + (rolling gs' e + occurrences e ms'))%nat) ->
  (forall e g, gs' !! e = Some g -> e <= epoch m) -> (forall e, e ∈ ms' -> e <= epoch m) ->
  epoch m' = epoch m -> dispatched m' = dispatched m ->
  (epoch m <> ep -> m' = m) ->
  (is_Some (gs' !! epoch m) -> is_Some (gs !! epoch m)) ->
  (forall e, auto_rollbacks e l' = auto_rollbacks e l) ->
  inv (mkSys m' c' gs' ms' l').
Proof.
  intros [H1 H2 H3 H4 H5 H6 H7] Hcount Hgs Hms He Hd Hother Hsome Hl.
  unfold in_flight in *; simpl in *. split; unfold in_flight; simpl; rewrite ?He; try done.
  - intros e. specialize (H4 e). rewrite Hcount in H4. lia.
  - intros Hone. rewrite Hcount in H5. specialize (H4 (epoch m)). rewrite Hcount in H4.
    destruct (decide (ep = epoch m)) as [->|Hne]; [lia|].
    rewrite (Hother (not_eq_sym Hne)). apply H5. lia.
  - intros Hg Hnd. rewrite Hd in Hnd. destruct (decide (ep = epoch m)) as [Heq|Hne].
    + exfalso. specialize (H5). rewrite Hcount in H5. specialize (H4 (epoch m)).
      rewrite Hcount in H4. rewrite Heq, decide_True in * by done. destruct H5 as [H5 _]; [lia|].
      congruence.
    + rewrite (Hother (not_eq_sym Hne)). by apply H6; [apply Hsome|].
  - intros e. rewrite Hl, Hd. apply H7.
Qed.

Lemma mark_facts m e err :
  let m' := match err with
            | None => markRollbackDone m e | Some _ => markRollbackFailed m e err end in
  epoch m' = epoch m /\ dispatched m' = dispatched m /\ (epoch m <> e -> m' = m).
Proof.
  unfold markRollbackDone, markRollbackFailed. destruct err; simpl;
    destruct (Z.eqb_spec (epoch m) e); done.
Qed.

Lemma settle_facts m ep err :
  let m' := (rollbackNow_settle m ep err).1 in
  epoch m' = epoch m /\ dispatched m' = dispatched m /\ (epoch m <> ep -> m' = m).
Proof.
  unfold rollbackNow_settle, markRollbackFailed. destruct (Z.eqb_spec (epoch m) ep); simpl;
    repeat case_match; done.
Qed.

Lemma inv_rolled m c gs ms l e g err :
  inv (mkSys m c gs ms l) -> gs !! e = Some g -> g_pc g = PRolling ->
  inv (mkSys (match err with None => markRollbackDone m e | Some _ => markRollbackFailed m e err end)
         c (set_pc gs e g PWaiting) ms (match err with None => EvSucceeded e :: l | Some _ => l end)).
Proof.
  intros Hi Hg Hpc. destruct (mark_facts m e err) as (He & Hd & Hm). unfold set_pc.
  apply (inv_done _ _ _ _ _ _ _ _ _ _ e Hi); try done.
  - intros e'. rewrite rolling_set; simpl. destruct (decide (e = e')) as [<-|Hne]; [|lia].
    by rewrite (rolling_at _ _ _ Hg), Hpc.
  - intros e' g'. destruct (decide (e = e')) as [<-|Hne].
    + intros _. apply (inv_gos _ Hi _ _ Hg).
    + rewrite lookup_insert_ne by done. apply (inv_gos _ Hi).
  - apply (inv_manual _ Hi).
  - destruct (decide (e = epoch m)) as [->|Hne]; [by exists g|]. by rewrite lookup_insert_ne.
  - intros e'. destruct err; [done|]. by apply auto_other.
Qed.

Lemma inv_settle m c gs ms l ep err :
  inv (mkSys m c gs ms l) -> ep ∈ ms ->
  forall c', inv (mkSys (rollbackNow_settle m ep err).1 c' gs (remove_one ep ms)
         (match err with None => EvSucceeded ep :: l | Some _ => l end)).
Proof.
  intros Hi Hin c'. destruct (settle_facts m ep err) as (He & Hd & Hm).
  apply (inv_done _ _ _ _ _ _ _ _ _ _ ep Hi); try done.
  - intros e. rewrite (occurrences_remove e ep ms Hin). lia.
  - apply (inv_gos _ Hi).
  - intros e H. apply (inv_manual _ Hi). by eapply remove_one_in.
  - intros e'. destruct err; [done|]. by apply auto_other.
Qed.

Lemma inv_manual_start m c gs ms l e only m' ep rb :
  inv (mkSys m c gs ms l) -> rollbackNow_start m e only = RsRun m' ep rb ->
  inv (mkSys m' c gs (ep :: ms)
         (match rb with Some _ => EvRollback ep false :: l | None => l end)).
Proof.
  intros [H1 H2 H3 H4 H5 H6 H7]. unfold rollbackNow_start, in_flight in *; simpl in *.
  destruct (only && negb (epoch m =? e)); [done|].
  destruct (dispatched m && negb (rollbackDone m) && negb (rollbackFailed m)) eqn:Ebusy; [done|].
  destruct (rollbackDone m && negb (rollbackFailed m)); [done|]. intros [= <- <- <-].
  assert (Hz : (rolling gs (epoch m) + occurrences (epoch m) ms)%nat = 0%nat).
  { specialize (H4 (epoch m)).
    destruct (decide (rolling gs (epoch m) + occurrences (epoch m) ms = 1)%nat) as [E1|]; [|lia].
    apply H5 in E1 as (E1 & E2 & E3). by rewrite E1, E2, E3 in Ebusy. }
  split; unfold in_flight; simpl; try done.
  - intros e'. rewrite elem_of_cons. intros [->|H]; [lia|by apply H3].
  - intros e'. rewrite occurrences_cons. destruct (decide (epoch m = e')) as [<-|Hne]; [lia|].
    specialize (H4 e'). lia.
  - intros e'. destruct (H7 e') as (Ha & Hb & Hc).
    assert (Hl : auto_rollbacks e'
              (match rollback m with Some _ => EvRollback (epoch m) false :: l | None => l end)
            = auto_rollbacks e' l) by (destruct (rollback m); [by apply auto_other|done]).
    rewrite Hl. by split_and!.
Qed.

Lemma inv_finalized m c gs ms l e only m' c' :
  inv (mkSys m c gs ms l) -> rollbackNow_start m e only = RsFinalized m' ->
  inv (mkSys m' c' gs ms l).
Proof.
  intros [H1 H2 H3 H4 H5 H6 H7]. unfold rollbackNow_start, in_flight in *; simpl in *.
  destruct (only && negb (epoch m =? e)); [done|].
  destruct (dispatched m && _ && _); [done|].
  destruct (rollbackDone m && negb (rollbackFailed m)) eqn:Edone; [|done]. intros [= <-].
  bool_facts. split; unfold in_flight; simpl; try done.
  - intros Hone. apply H5 in Hone as (_ & Hone & _). congruence.
  - intros e'. destruct (H7 e') as (Ha & Hb & Hc). by split_and!.
Qed.

Lemma step_inv s s' : inv s -> step s s' -> inv s'.
Proof.
  intros Hi Hs. destruct Hs.
  - eapply inv_next; [done|done| |done]. right. by eexists.
  - eapply inv_next; [done|done|by left|done].
  - eapply inv_next; [done|done|by left|done].
  - unfold MarkRolledBack. case_match; [eapply inv_same; try done; intros; by apply auto_other|].
    eapply inv_next; [done|done|by left|]. intros. by apply auto_other.
  - eapply inv_pc; try done; [congruence|]. by case_decide.
  - eapply inv_pc; try done; [congruence|]. by destruct (pending m).
  - by eapply inv_tick.
  - by apply inv_claim.
  - by apply inv_rolled.
  - eapply inv_pc; try done; [congruence|]. intros. case_match; [by apply auto_other|done].
  - by eapply inv_finalized.
  - by eapply inv_manual_start.
  - by apply (inv_settle _ _ _ _ _ _ _ Hi).
Qed.

Lemma init_inv d : inv (init d).
Proof.
  split; unfold init, in_flight; simpl; try done.
  - intros e H. by apply elem_of_nil in H.
  - intros e. change (0 <= 1)%nat. lia.
  - intros e. unfold auto_rollbacks. simpl. by split_and!; [lia|..].
Qed.

Lemma reachable_inv d s : reachable d s -> inv s.
Proof. induction 1; [apply init_inv|by eapply step_inv]. Qed.

(** C12: a window's rollback never runs twice at once. However Arm, Keep, Disarm, MarkRolledBack,
    operators' rollbacks and the windows' goroutines interleave, at most one run of a window's
    rollback closure is in progress, and the automatic path starts it at most once per window. *)
Theorem rollback_at_most_once d s e :
  reachable d s -> (in_flight s e <= 1)%nat /\ (auto_rollbacks e (log s) <= 1)%nat.
Proof. intros [_ _ _ H _ _ H']%reachable_inv. split; [apply H|apply H']. Qed.

(** A superseded window does nothing to the router. A step that starts a rollback closure or a
    reboot does so for the window that is current at that step, and an automatic rollback only in a
    window where none was dispatched. *)
Theorem effects_are_of_the_current_window s s' ev :
  step s s' -> log s' = ev :: log s ->
  match ev with
  | EvRollback e auto => e = epoch (mgr s) /\ (auto = true -> dispatched (mgr s) = false)
  | EvReboot e => e = epoch (mgr s)
  | _ => True
  end.
Proof.
  assert (Hnil : forall (l : list event) x, l <> x :: l)
    by (intros l x H; apply (f_equal length) in H; simpl in H; lia).
  intros Hs Hl. destruct Hs; simpl in *; try (by exfalso; eapply Hnil); try by simplify_eq.
  - unfold claimRollback in Hl. destruct (negb (epoch m =? e) || dispatched m) eqn:E; simpl in Hl.
    + by exfalso; eapply Hnil.
    + simplify_eq. bool_facts. split; [lia|done].
  - by destruct err; [exfalso; eapply Hnil|simplify_eq].
  - unfold claimReboot in Hl. destruct (Z.eqb_spec (epoch m) e); [by injection Hl as <-|].
    by exfalso; eapply Hnil.
  - unfold rollbackNow_start in *. repeat case_match; simplify_eq/=; try done;
      by exfalso; eapply Hnil.
  - by destruct err; [exfalso; eapply Hnil|simplify_eq].
Qed.

(** A window that a rollback succeeded in: the record of it, kept by every step. *)
Definition success_logged (s : Sys) : Prop :=
  is_Some (gos s !! epoch (mgr s)) -> rollbackDone (mgr s) = true ->
  EvSucceeded (epoch (mgr s)) ∈ log s.

Lemma success_next m c gs ms l m' c' l' :
  inv (mkSys m c gs ms l) -> epoch m' = epoch m + 1 -> success_logged (mkSys m' c' gs ms l').
Proof.
  intros Hi He [g Hg] _; simpl in *. rewrite He in Hg.
  pose proof (inv_gos _ Hi _ _ Hg). simpl in *. lia.
Qed.

Lemma success_same m c gs ms l m' c' gs' ms' l' :
  success_logged (mkSys m c gs ms l) -> epoch m' = epoch m ->
  (rollbackDone m' = true -> rollbackDone m = true \/ EvSucceeded (epoch m) ∈ l') ->
  (is_Some (gs' !! epoch m) -> is_Some (gs !! epoch m)) -> l ⊆ l' ->
  success_logged (mkSys m' c' gs' ms' l').
Proof.
  intros Hs He Hd Hg Hl. unfold success_logged in *; simpl in *. rewrite He.
  intros Hsome Hdone. destruct (Hd Hdone) as [H|H]; [|done]. apply Hl. apply Hs; auto.
Qed.

Lemma set_pc_some gs e g pc e' : gs !! e = Some g ->
  is_Some (set_pc gs e g pc !! e') -> is_Some (gs !! e').
Proof.
  intros Hg. unfold set_pc. destruct (decide (e = e')) as [<-|]; [by exists g|].
  by rewrite lookup_insert_ne.
Qed.

Lemma step_success s s' : inv s -> success_logged s -> step s s' -> success_logged s'.
Proof.
  intros Hi Hs Hstep. destruct Hstep;
    try (by apply (success_next m c gs ms l));
    try (eapply success_same;
         [exact Hs|try done|auto|eauto using set_pc_some|try set_solver]; fail).
  - intros _ H. done.
  - unfold MarkRolledBack. case_match; [|by eapply success_next].
    eapply success_same; [exact Hs|done|auto|auto|set_solver].
  - destruct (tickHealth_frame m now h) as (_ & _ & He & _ & Hd & _).
    eapply success_same; [exact Hs|done|rewrite Hd; auto|eauto using set_pc_some|done].
  - eapply success_same; [exact Hs|by unfold claimRollback; case_match| |
      eauto using set_pc_some|case_match; set_solver].
    unfold claimRollback. case_match; simpl; auto.
  - destruct (mark_facts m e err) as (He & _ & Hm).
    eapply success_same; [exact Hs|done| |eauto using set_pc_some|destruct err; set_solver].
    destruct (decide (epoch m = e)) as [<-|Hne]; [|rewrite (Hm Hne); auto].
    destruct err; [|set_solver]. unfold markRollbackFailed. rewrite Z.eqb_refl. simpl. auto.
  - eapply success_same; [exact Hs|done|auto|eauto using set_pc_some|case_match; set_solver].
  - unfold rollbackNow_start in H. repeat case_match; simplify_eq/=.
    eapply success_same; [exact Hs|done|simpl; auto|auto|done].
  - unfold rollbackNow_start in H. repeat case_match; simplify_eq/=;
      (eapply success_same; [exact Hs|done|by simpl|auto|set_solver]).
  - destruct (settle_facts m ep err) as (He & _ & Hm).
    eapply success_same; [exact Hs|done| |auto|destruct err; set_solver].
    destruct (decide (epoch m = ep)) as [<-|Hne]; [|rewrite (Hm Hne); auto].
    destruct err; [|set_solver]. unfold rollbackNow_settle, markRollbackFailed.
    rewrite Z.eqb_refl. simpl. case_match; simpl; auto.
Qed.

Lemma reachable_success d s : reachable d s -> success_logged s.
Proof.
  induction 1 as [|s s' Hr IH Hs]; [by intros [g Hg]; simpl in Hg; rewrite lookup_empty in Hg|].
  eapply step_success; [by eapply reachable_inv|done|done].
Qed.

(** RollbackNow decides truthfully. In every reachable state it refuses exactly a superseded
    window or a dispatch still in flight; it reports success without running anything only when, in
    an armed window, that window's own rollback returned nil; otherwise it claims the current
    window's closure, leaving the window pending and its timers as they are. *)
Theorem manual_rollback_start_truthful d s e only :
  reachable d s ->
  let m := mgr s in
  match rollbackNow_start m e only with
  | RsError err =>
      (err = ErrSuperseded /\ only = true /\ epoch m <> e) \/
      (err = ErrInProgress /\ dispatched m = true /\ rollbackDone m = false)
  | RsFinalized m' =>
      (is_Some (gos s !! epoch m) -> EvSucceeded (epoch m) ∈ log s) /\
      in_flight s (epoch m) = 0%nat /\ pending m' = false /\ phase m' = "rolled_back"
  | RsRun m' ep rb =>
      ep = epoch m /\ rb = rollback m /\ in_flight s (epoch m) = 0%nat /\
      pending m' = pending m /\ bad m' = bad m /\ badSince m' = badSince m /\
      deadline m' = deadline m /\ rolledBack m' = rolledBack m
  end.
Proof.
  intros Hr m. pose proof (reachable_success _ _ Hr) as Hs. apply reachable_inv in Hr.
  pose proof (inv_one _ Hr (epoch m)) as Hone. pose proof (inv_busy _ Hr) as Hbusy. fold m in Hbusy.
  assert (Hz : ~ (dispatched m = true /\ rollbackDone m = false /\ rollbackFailed m = false) ->
    in_flight s (epoch m) = 0%nat).
  { intros Hn. destruct (decide (in_flight s (epoch m) = 1%nat)) as [E|E]; [|lia].
    by apply Hbusy in E. }
  unfold rollbackNow_start. destruct (only && negb (epoch m =? e)) eqn:E1;
    [left; bool_facts; split_and!; [done|done|lia]|].
  destruct (dispatched m), (rollbackDone m) eqn:E2, (rollbackFailed m); simpl;
    try (right; done); split_and!; try done; try (apply Hz; intros (?&?&?); done);
    intros; by apply Hs.
Qed.

(** RollbackNow settles truthfully. The caller gets exactly what the closure returned. A window
    replaced while the closure ran is left untouched; success closes the window as rolled back; a
    failure reports rollback_failed and leaves the window armed, so the reboot fallback still runs. *)
Theorem manual_rollback_settle_truthful m ep err :
  let r := rollbackNow_settle m ep err in
  r.2 = err /\
  (epoch m <> ep -> r.1 = m) /\
  (epoch m = ep -> err = None ->
     pending r.1 = false /\ phase r.1 = "rolled_back" /\ lastErr r.1 = "" /\
     rollbackDone r.1 = true /\ rollbackFailed r.1 = false) /\
  (forall x, epoch m = ep -> err = Some x -> x <> ErrSuperseded ->
     phase r.1 = "rollback_failed" /\ lastErr r.1 = Error x /\ rollbackFailed r.1 = true /\
     pending r.1 = pending m /\ rolledBack r.1 = rolledBack m /\ bad r.1 = bad m /\
     badSince r.1 = badSince m /\ deadline r.1 = deadline m /\ allowReboot r.1 = allowReboot m).
Proof.
  unfold rollbackNow_settle, markRollbackFailed. destruct (Z.eqb_spec (epoch m) ep) as [<-|Hne]; simpl.
  - destruct err as [x|]; [|split_and!; done].
    destruct (decide (x = ErrSuperseded)) as [->|Hx];
      [split_and!; try done; by intros ? _ [= <-]|].
    rewrite bool_decide_false by congruence. simpl. split_and!; try done.
    intros ? _ [= <-] _. done.
  - destruct err; split_and!; done.
Qed.

(** ** Witnesses *)
Definition demo_obs : list (Z * Health) :=
  [(20000, HealthDown); (50000, HealthUnknown); (65000, HealthDown); (95000, HealthDown);
   (395000, HealthDown)].

Lemma tickHealth_refines_witness :
  times_from 0 demo_obs /\
  (run_ticks (ArmHealth (New DefaultDurations) 0 true true true) demo_obs).2 =
    (run_steps (spec_step (0 +! millis (3 * Minute)) (millis (45 * Second)) (millis (5 * Minute)))
       armed_window demo_obs).2.
Proof.
  assert (H : times_from 0 demo_obs) by (unfold demo_obs, times_from, is_time; simpl; lia).
  split; [exact H|].
  exact (tickHealth_refines (New DefaultDurations) 0 true true true demo_obs H).
Defined.

(** The blind 30 s are not counted: the rollback comes at 95 s, not at 65 s. *)
Example demo_actions :
  (run_ticks (ArmHealth (New DefaultDurations) 0 true true true) demo_obs).2 =
    [ActNone; ActNone; ActNone; ActRollback; ActReboot].
Proof. vm_compute. reflexivity. Qed.

(** Two windows: the second is armed while the first one's probe is still running. *)
Definition two_windows : Sys :=
  let m := ArmHealth (ArmHealth (New DefaultDurations) 0 true true true) 30000 true true true in
  let g := mkG true true true PWaiting in
  mkSys (tickHealth m 20000 HealthDown).1 {[1]}
    (set_pc (<[2 := g]> (set_pc (set_pc {[1 := g]} 1 g PChecked) 1 g (PProbing 20000))) 1 g PWaiting)
    [] [].

Lemma two_windows_reachable : reachable DefaultDurations two_windows.
Proof.
  pose (g := mkG true true true PWaiting).
  pose proof (reach_init DefaultDurations) as H0. unfold init in H0.
  eapply reach_step in H0; [|exact (st_arm _ _ _ _ _ 0 true true true)].
  eapply reach_step in H0; [|eapply (st_ctx _ _ _ _ _ 1 g); reflexivity].
  eapply reach_step in H0; [|eapply (st_probe _ _ _ _ _ 1 (g <| g_pc := PChecked |>) 20000); reflexivity].
  eapply reach_step in H0; [|exact (st_arm _ _ _ _ _ 30000 true true true)].
  eapply reach_step in H0;
    [|eapply (st_tick _ _ _ _ _ 1 (g <| g_pc := PProbing 20000 |>) 20000 HealthDown); reflexivity].
  vm_compute in H0. exact H0.
Qed.

(** The new window's outage starts before the window does: the previous window's probe, still
    running when the second Apply re-armed, ticked the new window. *)
Example stale_probe_ticks_next_window :
  epoch (mgr two_windows) = 2 /\ armedAt (mgr two_windows) = 30000 /\
  phase (mgr two_windows) = "degraded" /\ bad (mgr two_windows) = true /\
  badSince (mgr two_windows) = 20000.
Proof. vm_compute. done. Qed.

Lemma rollback_at_most_once_witness :
  reachable DefaultDurations two_windows /\
  (in_flight two_windows 2 <= 1)%nat /\ (auto_rollbacks 2 (log two_windows) <= 1)%nat.
Proof.
  split; [exact two_windows_reachable|].
  exact (rollback_at_most_once _ _ 2 two_windows_reachable).
Defined.

Definition one_window : Manager := Eval vm_compute in ArmHealth (New DefaultDurations) 0 true true true.
Definition claimed_window : Manager := Eval vm_compute in one_window <| dispatched := true |>.

Definition armed_once : Sys :=
  mkSys one_window ∅ (<[1 := mkG true true true PWaiting]> ∅) [] [].

Lemma manual_rollback_start_truthful_witness :
  reachable DefaultDurations armed_once /\
  rollbackNow_start one_window 1 true = RsRun claimed_window 1 (Some 1) /\
  (1 = epoch one_window) /\ (Some 1 = rollback one_window) /\
  (pending claimed_window = pending one_window).
Proof.
  assert (Hr : reachable DefaultDurations armed_once).
  { pose proof (reach_init DefaultDurations) as H0. unfold init in H0.
    eapply reach_step in H0; [|exact (st_arm _ _ _ _ _ 0 true true true)]. exact H0. }
  assert (E : rollbackNow_start one_window 1 true = RsRun claimed_window 1 (Some 1))
    by (vm_compute; reflexivity).
  pose proof (manual_rollback_start_truthful _ _ 1 true Hr) as H. cbv zeta in H.
  change (mgr armed_once) with one_window in H. rewrite E in H.
  destruct H as (H1 & H2 & _ & H3 & _). exact (conj Hr (conj E (conj H1 (conj H2 H3)))).
Defined.

Lemma effects_are_of_the_current_window_witness :
  let s := mkSys one_window ∅ ∅ [] [] in
  let s' := mkSys claimed_window ∅ ∅ [1] [EvRollback 1 false] in
  step s s' /\ log s' = EvRollback 1 false :: log s /\
  (1 = epoch (mgr s) /\ (false = true -> dispatched (mgr s) = false)).
Proof.
  intros s s'.
  assert (H : step s s')
    by (exact (st_manual_start one_window ∅ ∅ [] [] 1 true claimed_window 1 (Some 1) eq_refl)).
  split; [exact H|]. split; [reflexivity|].
  exact (effects_are_of_the_current_window s s' (EvRollback 1 false) H eq_refl).
Defined.
