(* ===== verification/BoundedLog.v ===== *)
(** * Bounded logs: the interface of the program's ring buffers

    The traffic hub, the core's log ring, the health event ring and the per-endpoint sample window
    all promise the same thing: what they show is the most recent part of what was pushed, in order,
    never more than a bound. This file states the promise once ([BoundedLog]) and derives what a
    client sees after any history of pushes. *)
From S2P Require Import Prelude.

(** What a push must do to what the log shows: keep a suffix of it followed by the new element, at
    least [bl_lo] of it (when there is that much), at most [bl_hi]. *)
Class BoundedLog (T A : Type) := {
  bl_push : A -> T -> T;
  bl_view : T -> list A;
  bl_inv : T -> Prop;
  bl_lo : T -> nat;
  bl_hi : T -> nat
}.

Class BoundedLogLaws (T A : Type) `{BoundedLog T A} := {
  bl_push_inv x t : bl_inv t -> bl_inv (bl_push x t);
  bl_push_lo x t : bl_lo (bl_push x t) = bl_lo t;
  bl_push_hi x t : bl_hi (bl_push x t) = bl_hi t;
  bl_push_suffix x t : bl_inv t -> bl_view (bl_push x t) `suffix_of` (bl_view t ++ [x]);
  bl_push_least x t : bl_inv t ->
    (bl_lo t `min` S (length (bl_view t)) <= length (bl_view (bl_push x t)))%nat;
  bl_view_most t : bl_inv t -> (length (bl_view t) <= bl_hi t)%nat
}.

(** The last [n] elements of a list. *)
Definition last_n {A} (n : nat) (l : list A) : list A := drop (length l - n) l.

Lemma last_n_all {A} n (l : list A) : (length l <= n)%nat -> last_n n l = l.
Proof. intros H. unfold last_n. by replace (length l - n)%nat with 0%nat by lia. Qed.

Lemma last_n_length {A} n (l : list A) : length (last_n n l) = (n `min` length l)%nat.
Proof. unfold last_n. rewrite length_drop. lia. Qed.

Lemma suffix_last_n {A} (k l : list A) : k `suffix_of` l -> k = last_n (length k) l.
Proof.
  intros [pre ->]. unfold last_n. rewrite length_app.
  by rewrite drop_app_length' by lia.
Qed.

Lemma last_n_lookup {A} n (l : list A) i : (n <= length l)%nat ->
  last_n n l !! i = l !! (length l - n + i)%nat.
Proof. intros. unfold last_n. by rewrite lookup_drop. Qed.

Section client.
Context `{BoundedLogLaws T A}.

Definition bl_pushes (h : list A) (t : T) : T := fold_left (fun t x => bl_push x t) h t.

Lemma bl_pushes_app h1 h2 t : bl_pushes (h1 ++ h2) t = bl_pushes h2 (bl_pushes h1 t).
Proof. apply fold_left_app. Qed.

Lemma bl_pushes_frame h t : bl_inv t ->
  bl_inv (bl_pushes h t) /\ bl_lo (bl_pushes h t) = bl_lo t /\ bl_hi (bl_pushes h t) = bl_hi t.
Proof.
  revert t. induction h as [|x h IH]; intros t Ht; [done|]. simpl.
  destruct (IH (bl_push x t)) as (H1 & H2 & H3); [by apply bl_push_inv|].
  by rewrite H2, H3, bl_push_lo, bl_push_hi.
Qed.

(** After any pushes the log shows a suffix of everything pushed, at least [bl_lo] of it. *)
Lemma bl_pushes_suffix h t pre : bl_inv t ->
  bl_view t `suffix_of` pre -> (bl_lo t `min` length pre <= length (bl_view t))%nat ->
  bl_view (bl_pushes h t) `suffix_of` (pre ++ h) /\
  (bl_lo t `min` length (pre ++ h) <= length (bl_view (bl_pushes h t)))%nat.
Proof.
  revert t pre. induction h as [|x h IH]; intros t pre Ht Hsuf Hlen; [by rewrite app_nil_r|].
  simpl. replace (pre ++ x :: h) with ((pre ++ [x]) ++ h) by (by rewrite <- app_assoc).
  rewrite <- (bl_push_lo x t). apply IH; [by apply bl_push_inv| |].
  - etrans; [by apply bl_push_suffix|]. destruct Hsuf as [k ->].
    exists k. by rewrite app_assoc.
  - rewrite bl_push_lo, length_app. pose proof (bl_push_least x t Ht). simpl.
    apply suffix_length in Hsuf. lia.
Qed.

(** When the bounds meet, the log shows exactly the last [bl_hi] elements pushed. *)
Lemma bl_pushes_exact h t : bl_inv t -> bl_view t = [] -> bl_lo t = bl_hi t ->
  bl_view (bl_pushes h t) = last_n (bl_hi t) h.
Proof.
  intros Ht Hv Hb. destruct (bl_pushes_suffix h t [] Ht) as [Hs Hl];
    [rewrite Hv; done|rewrite Hv; simpl; lia|].
  simpl in *. destruct (bl_pushes_frame h t Ht) as (Hi & _ & Hhi).
  pose proof (bl_view_most _ Hi) as Hm. pose proof (suffix_length _ _ Hs).
  rewrite (suffix_last_n _ _ Hs). unfold last_n. f_equal. lia.
Qed.
End client.

(** ** Rings: a bounded log in a fixed array

    The elements sit at [start], [start+1], ... modulo the array's length. *)
Definition ring_view {A} (d : A) (buf : list A) (start count n : nat) : list A :=
  map (fun i => default d (buf !! ((start + i) mod n)%nat)) (seq 0 count).

Lemma ring_view_length {A} (d : A) buf start count n :
  length (ring_view d buf start count n) = count.
Proof. unfold ring_view. by rewrite length_map, length_seq. Qed.

Lemma ring_index_inj n s i j : (i < j)%nat -> (j < i + n)%nat ->
  ((s + i) mod n <> (s + j) mod n)%nat.
Proof.
  intros Hij Hj Heq. assert (Hn : n <> 0%nat) by lia.
  pose proof (Nat.div_mod_eq (s + i) n). pose proof (Nat.div_mod_eq (s + j) n).
  assert ((s + j) / n = (s + i) / n \/ (s + j) / n >= S ((s + i) / n))%nat as [E|E].
  { pose proof (Nat.Div0.div_le_mono (s + i) (s + j) n ltac:(lia)). lia. }
  - rewrite E in *. lia.
  - nia.
Qed.

#[local] Arguments Nat.modulo : simpl never.

(** Writing behind the newest element of a ring with room. *)
Lemma ring_view_add {A} (d : A) buf start count n x :
  length buf = n -> (count < n)%nat ->
  ring_view d (<[((start + count) mod n)%nat := x]> buf) start (S count) n =
    ring_view d buf start count n ++ [x].
Proof.
  intros Hb Hc. unfold ring_view. rewrite seq_S, map_app; simpl. f_equal.
  - apply map_ext_in. intros i Hi%in_seq. rewrite list_lookup_insert_ne; [done|].
    intros E. symmetry in E. revert E. apply ring_index_inj; lia.
  - rewrite list_lookup_insert_eq; [done|]. rewrite Hb. apply Nat.mod_upper_bound. lia.
Qed.

(** Overwriting the oldest element of a full ring. *)
Lemma ring_view_over {A} (d : A) buf start n x :
  length buf = n -> (start < n)%nat ->
  ring_view d (<[start := x]> buf) ((start + 1) mod n) n n = tail (ring_view d buf start n n) ++ [x].
Proof.
  intros Hb Hs. unfold ring_view. destruct n as [|n]; [lia|].
  rewrite (seq_S n 0) at 1. rewrite map_app. simpl. f_equal.
  - rewrite <- seq_shift, map_map. apply map_ext_in. intros i Hi%in_seq.
    rewrite Nat.Div0.add_mod_idemp_l. replace (start + 1 + i)%nat with (start + S i)%nat by lia.
    rewrite list_lookup_insert_ne; [done|].
    intros E. rewrite <- (Nat.mod_small start (S n)) in E at 1 by lia.
    rewrite <- (Nat.add_0_r start) in E at 1. revert E. apply ring_index_inj; lia.
  - rewrite Nat.Div0.add_mod_idemp_l.
    replace (start + 1 + n)%nat with (start + 1 * S n)%nat by lia.
    rewrite Nat.Div0.mod_add, Nat.mod_small by lia.
    rewrite list_lookup_insert_eq by lia. done.
Qed.

(** A ring that has not wrapped is its array. *)
Lemma ring_view_flat {A} (d : A) buf n : (length buf <= n)%nat ->
  ring_view d buf 0 (length buf) n = buf.
Proof.
  intros Hn. unfold ring_view. transitivity (map (fun i => default d (buf !! i)) (seq 0 (length buf))).
  - apply map_ext_in. intros i Hi%in_seq. simpl. by rewrite Nat.mod_small by lia.
  - clear Hn. induction buf as [|x buf IH]; [done|]. simpl. f_equal. rewrite <- seq_shift, map_map.
    exact IH.
Qed.

(** Its [i]-th element, and that no index leaves the array. *)
Lemma ring_view_lookup {A} (d : A) buf start count n i : length buf = n -> (i < count)%nat ->
  (0 < n)%nat -> Some (default d (buf !! ((start + i) mod n)%nat)) = buf !! ((start + i) mod n)%nat.
Proof.
  intros Hb Hi Hn. destruct (lookup_lt_is_Some_2 buf ((start + i) mod n)) as [x Hx].
  { rewrite Hb. apply Nat.mod_upper_bound. lia. }
  by rewrite Hx.
Qed.

Lemma seq_map_add k c : seq k c = map (fun i => k + i)%nat (seq 0 c).
Proof. induction c as [|c IH]; [done|]. by rewrite !seq_S, map_app, IH. Qed.

(** The last [c] elements of a ring, read in place. *)
Lemma ring_view_last {A} (d : A) buf start count c n : length buf = n -> (c <= count)%nat ->
  (0 < n)%nat ->
  map (fun i => buf !! ((start + count - c + i) mod n)%nat) (seq 0 c) =
    map Some (last_n c (ring_view d buf start count n)).
Proof.
  intros Hb Hc Hn. unfold last_n. rewrite ring_view_length. unfold ring_view.
  assert (Hseq : seq 0 count = seq 0 (count - c) ++ seq (count - c) c).
  { replace count with ((count - c) + c)%nat at 1 by lia. by rewrite seq_app. }
  rewrite Hseq, map_app, drop_app_length' by (by rewrite length_map, length_seq).
  rewrite map_map, (seq_map_add (count - c) c), map_map. apply map_ext_in. intros i Hi%in_seq.
  replace (start + (count - c + i))%nat with (start + count - c + i)%nat by lia.
  symmetry. apply (ring_view_lookup d buf (start + count - c) count n i); lia.
Qed.

Lemma ring_view_nth {A} (d : A) buf start count n i : length buf = n -> (i < count)%nat ->
  (0 < n)%nat -> ring_view d buf start count n !! i = buf !! ((start + i) mod n)%nat.
Proof.
  intros Hb Hi Hn. unfold ring_view.
  change (map ?f ?l) with (f <$> l). rewrite list_lookup_fmap, lookup_seq_lt by done. simpl.
  by apply (ring_view_lookup d buf start count n).
Qed.
