(* ===== verification/Traffic.v ===== *)
(** * Traffic: the rolling buffer of throughput samples

    Models [src/internal/traffic/ring.go]: [NewHub], [Push] with its broadcast, [RecentN] and
    [Subscribe]. A subscriber's channel is a bounded queue of capacity 16, named by a number. *)
From S2P Require Import Prelude BoundedLog.
#[local] Arguments Nat.modulo : simpl never.

Record Sample := { T : Z; Up : Z; Down : Z }.

(** A [chan Sample] made with capacity 16: what is queued, and whether it was closed. *)
Record channel := mkChan { queued : list Sample; closed : bool }.
#[export] Instance eta_channel : Eta channel := fun c => mkChan (queued c) (closed c).
Definition chan_cap : nat := 16.

Record Hub := mkHub {
  buf : list Sample;
  size : nat;
  start : nat;
  count : nat;
  subs : gset nat;          (* the keys of the map *)
  chans : gmap nat channel  (* the channels they name, whoever holds them *)
}.
#[export] Instance eta_Hub : Eta Hub := fun h =>
  mkHub (buf h) (size h) (start h) (count h) (subs h) (chans h).

Definition zero_sample : Sample := {| T := 0; Up := 0; Down := 0 |}.

Definition NewHub (sz : Z) : Hub :=
  let sz := if (sz <=? 0)%Z then 300%Z else sz in
  mkHub (replicate (Z.to_nat sz) zero_sample) (Z.to_nat sz) 0 0 ∅ ∅.

(** [select { case ch <- s: default: }]: dropped when the queue is full; on a closed channel the
    send panics ([None]). *)
Definition try_send (s : Sample) (c : channel) : option channel :=
  if closed c then None
  else if length (queued c) <? chan_cap then Some (c <| queued := queued c ++ [s] |>)
  else Some c.

Definition broadcast (s : Sample) (ks : list nat) (cs : gmap nat channel)
    : option (gmap nat channel) :=
  fold_left (fun acc k => cs ← acc; c ← cs !! k; c' ← try_send s c; Some (<[k := c']> cs)) ks
    (Some cs).

(** The ring write of [Push]. *)
Definition ring_push (s : Sample) (h : Hub) : Hub :=
  if (count h <? size h)%nat then
    h <| buf := <[((start h + count h) mod size h)%nat := s]> (buf h) |> <| count := S (count h) |>
  else
    h <| buf := <[start h := s]> (buf h) |> <| start := ((start h + 1) mod size h)%nat |>.

Definition Push (s : Sample) (h : Hub) : option Hub :=
  let h1 := ring_push s h in
  cs ← broadcast s (elements (subs h1)) (chans h1); Some (h1 <| chans := cs |>).

Definition RecentN (h : Hub) (n : Z) : list (option Sample) :=
  let c := if ((0 <? n) && (n <? Z.of_nat (count h)))%Z then Z.to_nat n else count h in
  let begin := (start h + count h - c)%nat in
  map (fun i => buf h !! ((begin + i) mod size h)%nat) (seq 0 c).

Definition Recent (h : Hub) : list (option Sample) := RecentN h 0.

(** [Subscribe]: a channel nobody holds yet ([ch], fresh). *)
Definition Subscribe (ch : nat) (h : Hub) : Hub :=
  h <| chans := <[ch := mkChan [] false]> (chans h) |> <| subs := {[ch]} ∪ subs h |>.

Definition cancel (ch : nat) (h : Hub) : option Hub :=
  if decide (ch ∈ subs h) then
    c ← chans h !! ch;
    (if closed c then None   (* close of a closed channel panics *)
     else Some (h <| subs := subs h ∖ {[ch]} |> <| chans := <[ch := c <| closed := true |>]> (chans h) |>))
  else Some h.

(** A subscriber receiving: the oldest queued sample. *)
Definition receive (ch : nat) (h : Hub) : Hub :=
  match chans h !! ch with
  | Some c => h <| chans := <[ch := c <| queued := tail (queued c) |>]> (chans h) |>
  | None => h
  end.

(** ** The ring is the list of the last [size] samples *)
Definition view (h : Hub) : list Sample :=
  ring_view zero_sample (buf h) (start h) (count h) (size h).

Record ring_ok (h : Hub) : Prop := {
  ro_buf : length (buf h) = size h;
  ro_size : (0 < size h)%nat;
  ro_start : (start h < size h)%nat;
  ro_count : (count h <= size h)%nat
}.

#[export] Instance Hub_log : BoundedLog Hub Sample :=
  {| bl_push := ring_push; bl_view := view; bl_inv := ring_ok; bl_lo := size; bl_hi := size |}.

Lemma view_length h : length (view h) = count h.
Proof. apply ring_view_length. Qed.

Lemma ring_push_ok s h : ring_ok h -> ring_ok (ring_push s h).
Proof.
  intros [Hb Hs Hst Hc]. unfold ring_push.
  destruct (Nat.ltb_spec (count h) (size h)); split; simpl; rewrite ?length_insert; try lia.
  apply Nat.mod_upper_bound. lia.
Qed.

Lemma ring_push_size s h : size (ring_push s h) = size h.
Proof. unfold ring_push. by destruct (_ <? _)%nat. Qed.

Lemma ring_push_view s h : ring_ok h ->
  view (ring_push s h) = if (count h <? size h)%nat then view h ++ [s] else tail (view h) ++ [s].
Proof.
  intros [Hb Hs Hst Hc]. unfold ring_push, view.
  destruct (Nat.ltb_spec (count h) (size h)) as [Hlt|Hge]; simpl.
  - by apply ring_view_add.
  - assert (Hcnt : count h = size h) by lia. rewrite Hcnt. by apply ring_view_over.
Qed.

#[export] Instance Hub_log_laws : BoundedLogLaws Hub Sample.
Proof.
  split; simpl.
  - apply ring_push_ok.
  - intros. apply ring_push_size.
  - intros. apply ring_push_size.
  - intros s h Hok. rewrite ring_push_view by done. case_match; [done|].
    destruct (view h) as [|x v]; simpl; [done|]. by exists [x].
  - intros s h Hok. pose proof (ro_count _ Hok). rewrite ring_push_view, view_length by done.
    destruct (Nat.ltb_spec (count h) (size h)); rewrite length_app; simpl;
      [rewrite view_length|rewrite length_tl, view_length]; lia.
  - intros h Hok. rewrite view_length. apply Hok.
Qed.

Lemma NewHub_ok sz : ring_ok (NewHub sz) /\ view (NewHub sz) = [] /\
  size (NewHub sz) = Z.to_nat (if (sz <=? 0)%Z then 300 else sz)%Z.
Proof.
  unfold NewHub, view. split; [|done].
  split; simpl; rewrite ?length_replicate; destruct (Z.leb_spec sz 0); lia.
Qed.

(** [RecentN] reads the end of the view, and no index is out of range. *)
Lemma RecentN_view h n : ring_ok h ->
  RecentN h n =
    map Some (last_n (if ((0 <? n) && (n <? Z.of_nat (count h)))%Z then Z.to_nat n else count h) (view h)).
Proof.
  intros [Hb Hs Hst Hc]. unfold RecentN.
  set (c := if _ : bool then Z.to_nat n else count h).
  assert (Hle : (c <= count h)%nat) by (unfold c; case_match; bool_facts; lia).
  by apply ring_view_last.
Qed.

(** ** Subscribers *)
Definition deliver (s : Sample) (c : channel) : channel :=
  if (length (queued c) <? chan_cap)%nat then c <| queued := queued c ++ [s] |> else c.

Definition chans_ok (ks : list nat) (cs : gmap nat channel) : Prop :=
  forall k, k ∈ ks -> exists c, cs !! k = Some c /\ closed c = false.

(** A broadcast to distinct open channels never panics and reaches each of them once. *)
Lemma broadcast_spec s ks cs : NoDup ks -> chans_ok ks cs ->
  exists cs', broadcast s ks cs = Some cs' /\
    forall k, cs' !! k = if decide (k ∈ ks) then deliver s <$> cs !! k else cs !! k.
Proof.
  unfold broadcast. revert cs. induction ks as [|k ks IH]; intros cs Hnd Hok.
  { exists cs. split; [done|]. intros k. by rewrite decide_False by apply not_elem_of_nil. }
  apply NoDup_cons in Hnd as [Hk Hnd]. destruct (Hok k) as (c & Hc & Hopen); [set_solver|].
  cbn [fold_left]. simpl. rewrite Hc. simpl.
  assert (Hts : try_send s c = Some (deliver s c))
    by (unfold try_send, deliver; rewrite Hopen; by case_match).
  rewrite Hts. simpl. destruct (IH (<[k := deliver s c]> cs) Hnd) as (cs' & He & Hl).
  { intros k' Hk'. destruct (Hok k') as (c' & ? & ?); [set_solver|].
    exists c'. rewrite lookup_insert_ne by (by intros ->). done. }
  exists cs'. split; [exact He|]. intros k'. rewrite Hl.
  destruct (decide (k' = k)) as [->|Hne].
  - rewrite decide_False by done. rewrite decide_True by set_solver.
    by rewrite lookup_insert_eq, Hc.
  - rewrite lookup_insert_ne by done.
    destruct (decide (k' ∈ ks)); [rewrite decide_True by set_solver|rewrite decide_False by set_solver];
      done.
Qed.

Record hub_ok (h : Hub) : Prop := {
  ho_ring : ring_ok h;
  ho_subs : forall k, k ∈ subs h -> exists c, chans h !! k = Some c /\ closed c = false;
  ho_cap : forall k c, chans h !! k = Some c -> (length (queued c) <= chan_cap)%nat
}.

Lemma ring_push_frame s h : subs (ring_push s h) = subs h /\ chans (ring_push s h) = chans h.
Proof. unfold ring_push. by destruct (_ <? _)%nat. Qed.

Lemma deliver_cap s c : (length (queued c) <= chan_cap)%nat ->
  (length (queued (deliver s c)) <= chan_cap)%nat.
Proof.
  unfold deliver. destruct (Nat.ltb_spec (length (queued c)) chan_cap); simpl; [|done].
  rewrite length_app. simpl. lia.
Qed.

Lemma Push_spec s h : hub_ok h ->
  exists h', Push s h = Some h' /\ hub_ok h' /\ view h' = view (ring_push s h) /\
    size h' = size h /\ subs h' = subs h /\
    forall k, chans h' !! k =
      if decide (k ∈ subs h) then deliver s <$> chans h !! k else chans h !! k.
Proof.
  intros [Hr Hs Hc]. destruct (ring_push_frame s h) as [Es Ec].
  destruct (broadcast_spec s (elements (subs h)) (chans h)) as (cs & Hb & Hl).
  { apply NoDup_elements. }
  { intros k Hk. apply Hs. by apply elem_of_elements. }
  assert (Hl' : forall k, cs !! k =
      if decide (k ∈ subs h) then deliver s <$> chans h !! k else chans h !! k).
  { intros k. rewrite Hl. destruct (decide (k ∈ subs h)) as [E|E].
    - by rewrite decide_True by (by apply elem_of_elements).
    - by rewrite decide_False by (by rewrite elem_of_elements). }
  exists ((ring_push s h) <| chans := cs |>). unfold Push. rewrite Es, Ec, Hb.
  split; [done|]. split; [|split_and!; [done|by apply ring_push_size|done|done]].
  pose proof (ring_push_ok s h Hr) as [H1 H2 H3 H4]. split; [by split| |]; simpl; rewrite ?Es.
  - intros k Hk. destruct (Hs k Hk) as (c & Hck & Ho). exists (deliver s c).
    rewrite Hl', decide_True, Hck by done. split; [done|]. unfold deliver. by case_match.
  - intros k c. rewrite Hl'. destruct (decide _) as [E|E]; [|by apply Hc].
    intros (c0 & Hc0 & ->)%fmap_Some. apply deliver_cap. by eapply Hc.
Qed.

(** The program's operations on one hub, in any order; a fresh channel per Subscribe. *)
Inductive op := OPush (s : Sample) | OSubscribe | OCancel (ch : nat) | OReceive (ch : nat).

Definition exec (o : op) (h : Hub) : option Hub :=
  match o with
  | OPush s => Push s h
  | OSubscribe => Some (Subscribe (fresh (dom (chans h))) h)
  | OCancel ch => cancel ch h
  | OReceive ch => Some (receive ch h)
  end.

Definition exec_all (os : list op) (h : Hub) : option Hub :=
  fold_left (fun acc o => h ← acc; exec o h) os (Some h).

Definition pushed (os : list op) : list Sample :=
  omap (fun o => match o with OPush s => Some s | _ => None end) os.

Lemma Subscribe_ok ch h : hub_ok h -> ch ∉ dom (chans h) -> hub_ok (Subscribe ch h).
Proof.
  intros [[] Hs Hc] Hf. split; [by split| |]; simpl.
  - intros k. rewrite elem_of_union, elem_of_singleton. intros [->|Hk].
    + exists (mkChan [] false). by rewrite lookup_insert_eq.
    + destruct (Hs k Hk) as (c & Hck & Ho). exists c.
      rewrite lookup_insert_ne; [done|]. intros ->. apply Hf. by apply elem_of_dom.
  - intros k c. destruct (decide (ch = k)) as [->|Hne];
      [rewrite lookup_insert_eq; intros [= <-]; simpl; lia|].
    rewrite lookup_insert_ne by done. apply Hc.
Qed.

Lemma cancel_ok ch h : hub_ok h -> exists h', cancel ch h = Some h' /\ hub_ok h' /\
  view h' = view h /\ size h' = size h.
Proof.
  intros Hok. pose proof Hok as [[] Hs Hc]. unfold cancel.
  destruct (decide (ch ∈ subs h)) as [E|E]; [|by exists h].
  destruct (Hs ch E) as (c & Hck & Ho). rewrite Hck. simpl. rewrite Ho.
  eexists; split; [done|]. split_and!; [|done|done]. split; [by split| |]; simpl.
  - intros k [Hk Hne]%elem_of_difference. destruct (Hs k Hk) as (c' & ? & ?). exists c'.
    rewrite lookup_insert_ne; [done|]. set_solver.
  - intros k c'. destruct (decide (ch = k)) as [->|Hne];
      [rewrite lookup_insert_eq; intros [= <-]; simpl; by apply (Hc k c)|].
    rewrite lookup_insert_ne by done. apply Hc.
Qed.

Lemma receive_ok ch h : hub_ok h ->
  hub_ok (receive ch h) /\ view (receive ch h) = view h /\ size (receive ch h) = size h.
Proof.
  intros Hok. unfold receive. destruct (chans h !! ch) as [c|] eqn:Ec; [|done].
  split_and!; [|done|done]. pose proof Hok as [[] Hs Hc]. split; [by split| |]; simpl.
  - intros k Hk. destruct (Hs k Hk) as (c' & Hk' & Ho'). destruct (decide (ch = k)) as [->|Hne].
    + exists (c <| queued := tail (queued c) |>). rewrite lookup_insert_eq. split; [done|].
      simpl. congruence.
    + exists c'. by rewrite lookup_insert_ne.
  - intros k c'. destruct (decide (ch = k)) as [->|Hne].
    + rewrite lookup_insert_eq. intros [= <-]. simpl. rewrite length_tl.
      pose proof (Hc _ _ Ec). lia.
    + rewrite lookup_insert_ne by done. apply Hc.
Qed.

Lemma exec_spec o h : hub_ok h -> exists h', exec o h = Some h' /\ hub_ok h' /\
  view h' = view (bl_pushes (pushed [o]) h) /\ size h' = size h.
Proof.
  intros Hok. destruct o as [s| |ch|ch]; simpl.
  - destruct (Push_spec s h Hok) as (h' & ? & ? & ? & ? & _). by exists h'.
  - eexists. split; [done|]. split; [|done]. apply Subscribe_ok; [done|]. apply is_fresh.
  - by apply cancel_ok.
  - eexists. split; [done|]. by apply receive_ok.
Qed.

Lemma exec_all_spec os h : hub_ok h -> exists h', exec_all os h = Some h' /\ hub_ok h' /\
  view h' = view (bl_pushes (pushed os) h) /\ size h' = size h.
Proof.
  assert (Hv : forall ss (h1 h2 : Hub), ring_ok h1 -> ring_ok h2 -> view h1 = view h2 ->
    size h1 = size h2 -> view (bl_pushes ss h1) = view (bl_pushes ss h2)).
  { induction ss as [|s ss IH]; intros h1 h2 H1 H2 Hv Hs; [done|]. simpl.
    apply IH; simpl; rewrite ?ring_push_size;
      [by apply ring_push_ok|by apply ring_push_ok| |done].
    rewrite !ring_push_view by done. by rewrite <- !view_length, Hv, Hs. }
  revert h. induction os as [|o os IH]; intros h Hok; [by exists h|].
  destruct (exec_spec o h Hok) as (h1 & He & Hok1 & Hv1 & Hs1).
  destruct (IH h1 Hok1) as (h2 & He2 & Hok2 & Hv2 & Hs2). exists h2.
  unfold exec_all in *. cbn [fold_left]. cbn [mbind option_bind]. rewrite He.
  split; [done|]. split; [done|]. split; [|congruence]. rewrite Hv2.
  assert (Ep : pushed (o :: os) = pushed [o] ++ pushed os) by (by destruct o).
  rewrite Ep.
  rewrite bl_pushes_app.
  destruct (@bl_pushes_frame Hub Sample _ Hub_log_laws (pushed [o]) h (ho_ring _ Hok)) as (Hok' & _ & E).
  apply Hv; [apply Hok1|exact Hok'|exact Hv1|]. etrans; [exact Hs1|symmetry; exact E].
Qed.

(** The live graph shows the last samples. Whatever pushes, subscriptions, cancellations (also
    repeated ones) and receives happen on a hub, nothing panics, and RecentN returns, oldest first,
    exactly the last min(n, size) samples pushed; no ring index is ever out of range. *)
Theorem RecentN_after_any_history sz os n :
  exists h, exec_all os (NewHub sz) = Some h /\
    let cap := Z.to_nat (if (sz <=? 0)%Z then 300 else sz)%Z in
    RecentN h n = map Some (last_n (if (n <=? 0)%Z then cap else Z.to_nat n `min` cap)%nat (pushed os)).
Proof.
  destruct (NewHub_ok sz) as (Hr & Hv & Hsz).
  assert (Hok : hub_ok (NewHub sz)).
  { split; [done|intros k Hk; set_solver|].
    intros k c Hc. unfold NewHub in Hc. simpl in Hc. by rewrite lookup_empty in Hc. }
  destruct (exec_all_spec os _ Hok) as (h & He & Hokh & Hvh & Hs). exists h. split; [done|].
  rewrite <- Hsz. set (cap := size (NewHub sz)) in *.
  rewrite RecentN_view by apply Hokh. f_equal. rewrite <- view_length, Hvh.
  pose proof (@bl_pushes_exact Hub Sample _ Hub_log_laws (pushed os) (NewHub sz) Hr Hv eq_refl) as E.
  cbn [bl_view bl_hi Hub_log] in E. fold cap in E. rewrite E.
  unfold last_n at 1. rewrite last_n_length. unfold last_n. rewrite drop_drop.
  f_equal. clearbody cap.
  destruct (Z.ltb_spec 0 n), (Z.leb_spec n 0); try lia; simpl;
    [destruct (Z.ltb_spec n (Z.of_nat (cap `min` length (pushed os))))|]; lia.
Qed.

(** A push reaches every subscriber that keeps up. On a well-formed hub a push never panics; every
    subscribed channel with room gets the sample at its end, a full one misses it, no other channel
    changes, and no queue outgrows its capacity. *)
Theorem Push_delivers s h :
  hub_ok h ->
  exists h', Push s h = Some h' /\ hub_ok h' /\ subs h' = subs h /\
    forall k c, chans h !! k = Some c ->
      exists c', chans h' !! k = Some c' /\ closed c' = closed c /\
        queued c' = if decide (k ∈ subs h) then
                      if (length (queued c) <? chan_cap)%nat then queued c ++ [s] else queued c
                    else queued c.
Proof.
  intros Hok. destruct (Push_spec s h Hok) as (h' & Hp & Hok' & _ & _ & Hs & Hl). exists h'.
  split_and!; try done. intros k c Hc. rewrite Hl, Hc. destruct (decide (k ∈ subs h)); simpl.
  - exists (deliver s c). unfold deliver. by case_match.
  - by exists c.
Qed.

Definition demo_hub : Hub := Subscribe 7 (NewHub 2).
Lemma Push_delivers_witness :
  hub_ok demo_hub /\
  exists h', Push zero_sample demo_hub = Some h' /\ hub_ok h' /\ subs h' = subs demo_hub /\
    forall k c, chans demo_hub !! k = Some c ->
      exists c', chans h' !! k = Some c' /\ closed c' = closed c /\
        queued c' = if decide (k ∈ subs demo_hub) then
                      if (length (queued c) <? chan_cap)%nat then queued c ++ [zero_sample] else queued c
                    else queued c.
Proof.
  assert (H : hub_ok demo_hub).
  { apply Subscribe_ok; [|set_solver]. destruct (NewHub_ok 2) as [H _].
    split; [exact H|intros k Hk; set_solver|].
    intros k c Hc. simpl in Hc. by rewrite lookup_empty in Hc. }
  split; [exact H|]. exact (Push_delivers zero_sample demo_hub H).
Defined.

Example recent_wraps :
  let s i := {| T := i; Up := 0; Down := 0 |} in
  (h ← exec_all [OPush (s 1%Z); OPush (s 2%Z); OPush (s 3%Z)] (NewHub 2); Some (RecentN h 0)) =
    Some [Some (s 2%Z); Some (s 3%Z)].
Proof. reflexivity. Qed.
