(* ===== verification/Watchdog.v ===== *)
(** * Watchdog: crash restarts with exponential backoff

    Models [src/internal/watchdog/watchdog.go]. The supervised process is an interface
    ([Supervisor]), as in the source; what the watchdog relies on of its optional
    [StartIfDesiredDead] is [AtomicRestarterLaws], which [CoreSupervisor] discharges for the engine.
    A tick reads the process several times, and other goroutines act in between: each call of a tick
    sees the process in a state of its own. *)
From S2P Require Import Prelude.
Local Open Scope Z_scope.
Local Open Scope go_scope.

Class Supervisor (P E : Type) := {
  Desired : P -> bool;
  Alive : P -> bool;
  Start : P -> P * option E;
  (* the optional interface atomicRestarter: the type assertion fails on None *)
  StartIfDesiredDead : option (P -> P * (bool * option E))
}.

Class AtomicRestarterLaws (P E : Type) `{Supervisor P E} := {
  restarter : P -> P * (bool * option E);
  restarter_eq : StartIfDesiredDead = Some restarter;
  restarter_idle p : Desired p = false \/ Alive p = true -> restarter p = (p, (false, None));
  restarter_started p p' e : restarter p = (p', (true, e)) ->
    Desired p = true /\ Alive p = false /\ e = None;
  restarter_intent p : Desired (restarter p).1 = Desired p;
  restarter_acts p : Desired p = true -> Alive p = false -> (restarter p).2 <> (false, None)
}.

(** A [time.Time] is a number of nanoseconds, its zero value [None]; [Sub] saturates. *)
Definition time_Sub (a b : Z) : Z := Z.max min_int64 (Z.min max_int64 (a - b)).

Record Watchdog := mkWatchdog {
  name : string;
  interval : Z;
  minBackoff : Z;
  maxBackoff : Z;
  stable : Z;
  rng : bool;   (* whether a random source is installed *)
  restarts : Z;
  failed : Z;
  lastRestart : option Z;
  lastErr : string;
  backoff : Z;
  nextAttempt : option Z
}.
#[export] Instance eta_Watchdog : Eta Watchdog := fun w =>
  mkWatchdog (name w) (interval w) (minBackoff w) (maxBackoff w) (stable w) (rng w) (restarts w)
    (failed w) (lastRestart w) (lastErr w) (backoff w) (nextAttempt w).

Definition Second : Z := 1000000000.
Definition New (nm : string) : Watchdog :=
  mkWatchdog nm (3 * Second) (1 * Second) (60 * Second) (30 * Second) true 0 0 None "" 0 None.

(** [New]'s random source over [rand.Int63n]. *)
Definition rng_of (int63n : Z -> Z) (n : Z) : Z := if n <=? 0 then 0 else int63n n.

Definition jittered (w : Watchdog) (int63n : Z -> Z) (d : Z) : Z :=
  if negb (rng w) || (d <=? 0) then d
  else let half := Z.quot d 2 in half +! rng_of int63n (half +! 1).

Definition clearBackoff (w : Watchdog) : Watchdog := w <| backoff := 0 |> <| nextAttempt := None |>.

Record Stats := {
  st_Supervised : bool;
  st_Alive : bool;
  st_Restarts : Z;
  st_Failed : Z;
  st_LastRestart : option Z;
  st_LastError : string;
  st_BackoffMS : Z
}.

(** The alert of a restart: how it went, its number, and the backoff window it announces. *)
Inductive notice (E : Type) :=
| NRestart (name : string) (n : Z) (next : Z)
| NFailed (name : string) (n : Z) (err : E).
Arguments NRestart {E} name n next.
Arguments NFailed {E} name n err.

(** The growth of the window: doubled up to the maximum. *)
Definition grow (w : Watchdog) : Z :=
  if backoff w =? 0 then minBackoff w
  else if backoff w <? maxBackoff w then
    let b := backoff w *! 2 in if maxBackoff w <? b then maxBackoff w else b
  else backoff w.

Section tick.
Context `{Supervisor P E} (err_text : E -> string).

(** [restart]: the process afterwards, the error, and whether this was a deliberate stop. *)
Definition restart (p : P) : P * (option E * bool) :=
  match StartIfDesiredDead with
  | Some ar =>
      let '(p', (started, err)) := ar p in
      match started, err with
      | false, None => (p', (None, true))
      | _, _ => (p', (err, false))
      end
  | None => let '(p', err) := Start p in (p', (err, false))
  end.

(** What a tick did to the process: nothing, or a call of [restart] with its outcome. *)
Inductive outcome :=
| Quiet
| Deliberate (p' : P)
| Attempt (p' : P) (err : option E) (alert : notice E).

(** One tick: [p0], [p1] and [p2] are the process when Desired, Alive and restart are called. *)
Definition tick (w : Watchdog) (now : Z) (int63n : Z -> Z) (p0 p1 p2 : P)
    : Watchdog * outcome :=
  if negb (Desired p0) then (clearBackoff w, Quiet)
  else if Alive p1 then
    match lastRestart w with
    | Some t =>
        if (0 <? backoff w) && (stable w <=? time_Sub now t) then (clearBackoff w, Quiet)
        else (w, Quiet)
    | None => (w, Quiet)
    end
  else if match nextAttempt w with Some na => now <? na | None => false end then (w, Quiet)
  else
    let w1 := w <| backoff := grow w |> in
    let w2 := w1 <| nextAttempt := Some (now + jittered w1 int63n (backoff w1)) |> in
    let '(p', (err, deliberateStop)) := restart p2 in
    if deliberateStop then
      (w2 <| backoff := backoff w |> <| nextAttempt := nextAttempt w |>, Deliberate p')
    else
      let w3 := w2 <| restarts := restarts w2 +! 1 |> <| lastRestart := Some now |> in
      let w4 := match err with
                | Some e => w3 <| failed := failed w3 +! 1 |> <| lastErr := err_text e |>
                | None => w3 <| lastErr := "" |>
                end in
      (w4, Attempt p' err
             (match err with
              | Some e => NFailed (name w4) (restarts w4) e
              | None => NRestart (name w4) (restarts w4) (backoff w4)
              end)).

Definition Stats_ (w : Watchdog) (p0 p1 : P) : Stats :=
  {| st_Supervised := Desired p0; st_Alive := Alive p1; st_Restarts := restarts w;
     st_Failed := failed w; st_LastError := lastErr w;
     st_BackoffMS := Z.quot (backoff w) 1000000; st_LastRestart := lastRestart w |}.

(** [Run]: the ticks, each with its clock, its random draws and the process states it meets. *)
Record moment := { m_now : Z; m_rand : Z -> Z; m_p0 : P; m_p1 : P; m_p2 : P }.

Definition tick_at (w : Watchdog) (m : moment) : Watchdog * outcome :=
  tick w (m_now m) (m_rand m) (m_p0 m) (m_p1 m) (m_p2 m).

Fixpoint Run (w : Watchdog) (ms : list moment) : Watchdog * list (Z * outcome) :=
  match ms with
  | [] => (w, [])
  | m :: ms' =>
      let '(w1, o) := tick_at w m in
      let '(w2, os) := Run w1 ms' in (w2, (m_now m, o) :: os)
  end.

Lemma Run_cons w m ms :
  Run w (m :: ms) = ((Run (tick_at w m).1 ms).1, (m_now m, (tick_at w m).2) :: (Run (tick_at w m).1 ms).2).
Proof. simpl. destruct (tick_at w m) as [w1 o]. simpl. by destruct (Run w1 ms). Qed.

(** ** What a tick does, by cases *)
Definition config_ok (w : Watchdog) : Prop :=
  0 < minBackoff w <= maxBackoff w /\ maxBackoff w < 2 ^ 62.

Definition rand_ok (int63n : Z -> Z) : Prop := forall n, 0 < n -> 0 <= int63n n < n.

Lemma jittered_bounds w int63n d : rand_ok int63n -> 0 <= d < 2 ^ 62 ->
  d <= 2 * jittered w int63n d + 1 /\ 0 <= jittered w int63n d <= d.
Proof.
  intros Hr Hd. unfold jittered. destruct (negb (rng w) || (d <=? 0)) eqn:Eq; [lia|].
  bool_facts. rewrite Z.quot_div_nonneg by lia.
  pose proof (Z.div_mod d 2). pose proof (Z.mod_pos_bound d 2).
  rewrite (wrap64_id (d / 2 + 1)) by (unfold is_int64, min_int64, max_int64; lia).
  unfold rng_of. destruct (Z.leb_spec (d / 2 + 1) 0); [lia|]. specialize (Hr (d / 2 + 1)).
  rewrite wrap64_id by (unfold is_int64, min_int64, max_int64; lia). lia.
Qed.

(** The window after the [k]-th attempt of a crash loop. *)
Fixpoint window (w : Watchdog) (k : nat) : Z :=
  match k with
  | O => 0
  | S O => minBackoff w
  | S k' => Z.min (2 * window w k') (maxBackoff w)
  end.

Lemma window_S w k : (0 < k)%nat -> window w (S k) = Z.min (2 * window w k) (maxBackoff w).
Proof. destruct k; [lia|done]. Qed.

Lemma window_bounds w k : config_ok w -> (0 < k)%nat -> minBackoff w <= window w k <= maxBackoff w.
Proof.
  intros [Hc _]. induction k as [|k IH]; [lia|]. intros _. destruct (decide (k = 0)%nat) as [->|Hk];
    [simpl; lia|]. rewrite window_S by lia. specialize (IH ltac:(lia)). lia.
Qed.

(** The window is the doubling the source computes, in closed form. *)
Lemma window_closed w k : config_ok w ->
  window w (S k) = Z.min (minBackoff w * 2 ^ Z.of_nat k) (maxBackoff w).
Proof.
  intros [Hc _]. induction k as [|k IH]; [simpl; lia|].
  rewrite window_S, IH by lia. rewrite Nat2Z.inj_succ, Z.pow_succ_r by lia. nia.
Qed.

Lemma grow_window w k : config_ok w -> backoff w = window w k -> grow w = window w (S k).
Proof.
  intros Hc Hb. unfold grow. rewrite Hb. destruct (decide (k = 0)%nat) as [->|Hk]; [done|].
  pose proof (window_bounds w k Hc ltac:(lia)) as Hw. destruct Hc as [Hc Hmax].
  rewrite window_S by lia. destruct (Z.eqb_spec (window w k) 0); [lia|].
  destruct (Z.ltb_spec (window w k) (maxBackoff w)); [|lia].
  rewrite wrap64_id by (unfold is_int64, min_int64, max_int64; lia).
  destruct (Z.ltb_spec (maxBackoff w) (window w k * 2)); lia.
Qed.

Definition config_of (w : Watchdog) := (minBackoff w, maxBackoff w, stable w, rng w).

Lemma tick_config w m : config_of (tick_at w m).1 = config_of w.
Proof.
  unfold tick_at, tick, clearBackoff. repeat (case_match; simpl in *; simplify_eq/=; try done).
Qed.

Lemma window_config w w' k : config_of w' = config_of w -> window w' k = window w k.
Proof. intros [= H1 H2 _ _]. induction k as [|[|k] IH]; simpl in *; congruence. Qed.

(** A tick that attempts a restart: when, and what it sets. *)
Lemma tick_attempt w m p' err alert :
  (tick_at w m).2 = Attempt p' err alert ->
  let w' := (tick_at w m).1 in
  restart (m_p2 m) = (p', (err, false)) /\ Desired (m_p0 m) = true /\ Alive (m_p1 m) = false /\
  (forall na, nextAttempt w = Some na -> na <= m_now m) /\
  backoff w' = grow w /\ lastRestart w' = Some (m_now m) /\
  nextAttempt w' = Some (m_now m + jittered (w <| backoff := grow w |>) (m_rand m) (grow w)) /\
  restarts w' = restarts w +! 1 /\
  failed w' = (match err with Some _ => failed w +! 1 | None => failed w end) /\
  lastErr w' = (match err with Some e => err_text e | None => ""%string end).
Proof.
  unfold tick_at, tick. destruct (Desired (m_p0 m)) eqn:E1; simpl; [|done].
  destruct (Alive (m_p1 m)) eqn:E2; [repeat case_match; done|].
  destruct (match nextAttempt w with Some na => m_now m <? na | None => false end) eqn:E3; [done|].
  destruct (restart (m_p2 m)) as [q [e [|]]] eqn:E4; simpl; [done|]. intros [= -> -> <-].
  assert (Hna : forall na, nextAttempt w = Some na -> na <= m_now m)
    by (intros na Hna; rewrite Hna in E3; lia).
  destruct err; simpl; split_and!; done.
Qed.

(** A tick that does not: the accounting stays, and the backoff is kept or cleared. *)
Lemma tick_idle w m : match (tick_at w m).2 with Attempt _ _ _ => False | _ => True end ->
  (tick_at w m).1 = w \/
  ((tick_at w m).1 = clearBackoff w /\
   (Desired (m_p0 m) = false \/
    exists t, Alive (m_p1 m) = true /\ lastRestart w = Some t /\ stable w <= time_Sub (m_now m) t)).
Proof.
  unfold tick_at, tick. destruct (Desired (m_p0 m)) eqn:E1; simpl; [|by right; split; [|left]].
  destruct (Alive (m_p1 m)) eqn:E2.
  - destruct (lastRestart w) as [t|] eqn:El; simpl; [|by left].
    destruct ((0 <? backoff w) && (stable w <=? time_Sub (m_now m) t)) eqn:Es; simpl; [|by left].
    bool_facts. right. split; [done|]. right. exists t. split_and!; [done|done|lia].
  - destruct (match nextAttempt w with Some na => m_now m <? na | None => false end); [by left|].
    destruct (restart (m_p2 m)) as [q [e [|]]]; simpl; [|done]. intros _. left. by destruct w.
Qed.

(** ** A crash loop backs off

    A run that never clears the backoff: always desired, and never alive for [stable] after the
    last restart. *)
Fixpoint crash_loop (w : Watchdog) (ms : list moment) : Prop :=
  match ms with
  | [] => True
  | m :: ms' =>
      Desired (m_p0 m) = true /\
      (forall t, Alive (m_p1 m) = true -> lastRestart w = Some t -> time_Sub (m_now m) t < stable w) /\
      rand_ok (m_rand m) /\ crash_loop (tick_at w m).1 ms'
  end.

Definition attempt_times (os : list (Z * outcome)) : list Z :=
  omap (fun o => match o.2 with Attempt _ _ _ => Some o.1 | _ => None end) os.

(** The [k]-th next attempt comes at least half of the [k]-th window after the previous one. *)
Fixpoint spaced (w : Watchdog) (k : nat) (last : option Z) (ts : list Z) : Prop :=
  match ts with
  | [] => True
  | t :: ts' =>
      (forall t0, last = Some t0 -> window w k <= 2 * (t - t0) + 1) /\
      spaced w (S k) (Some t) ts'
  end.

Definition loop_state (w : Watchdog) (k : nat) : Prop :=
  backoff w = window w k /\
  ((k = 0)%nat \/ exists t na, lastRestart w = Some t /\ nextAttempt w = Some na /\
     window w k <= 2 * (na - t) + 1).

Lemma spaced_config w w' k last ts :
  config_of w' = config_of w -> spaced w' k last ts -> spaced w k last ts.
Proof.
  intros Hc. revert k last. induction ts as [|t ts IH]; intros k last; [done|]. simpl.
  rewrite (window_config _ _ _ Hc). intros [H1 H2]. split; [done|by apply IH].
Qed.

(** A crash loop backs off. While the process stays desired and keeps dying before it has been
    up for [stable], the k-th restart is followed by a pause of at least half of
    min(minBackoff*2^(k-1), maxBackoff) before the next one (half, because of the jitter), whatever
    the tick times, the random draws and the restarts' outcomes. *)
Theorem restarts_back_off w k ms :
  config_ok w -> loop_state w k -> crash_loop w ms ->
  spaced w k (if decide (k = 0)%nat then None else lastRestart w) (attempt_times (Run w ms).2).
Proof.
  revert w k. induction ms as [|m ms IH]; intros w k Hc [Hb Hs] Hl; [done|].
  destruct Hl as (Hd & Ha & Hr & Hl). rewrite Run_cons. cbn [snd]. unfold attempt_times. simpl.
  pose proof (tick_config w m) as Hcfg.
  assert (Hc' : config_ok (tick_at w m).1)
    by (injection Hcfg as E1 E2 _ _; unfold config_ok in *; by rewrite E1, E2).
  destruct ((tick_at w m).2) as [|q|q err alert] eqn:Eo; simpl.
  1, 2: (destruct (tick_idle w m) as [Ew|[_ [Ed|(t & E1 & E2 & E3)]]];
    [by rewrite Eo|rewrite Ew in *; by apply IH|congruence|specialize (Ha t E1 E2); lia]).
  destruct (tick_attempt w m _ _ _ Eo) as (_ & _ & _ & Hna & Hb' & Hl' & Hn' & _).
  rewrite (grow_window w k Hc Hb) in Hb', Hn'.
  pose proof (window_bounds w (S k) Hc ltac:(lia)) as Hw. pose proof Hc as [Hc1 Hc2].
  split.
  - intros t0. destruct Hs as [->|(t & na & Et & Ena & Hw')]; [done|].
    destruct (decide (k = 0)%nat); [done|]. rewrite Et. intros [= <-]. specialize (Hna na Ena). lia.
  - apply (spaced_config _ _ _ _ _ Hcfg). rewrite <- Hl'.
    specialize (IH (tick_at w m).1 (S k) Hc'). simpl in IH. apply IH; [|done].
    split; [by rewrite (window_config _ _ _ Hcfg)|]. right. eexists _, _. split_and!; [done|done|].
    rewrite (window_config _ _ _ Hcfg).
    pose proof (jittered_bounds (w <| backoff := window w (S k) |>) (m_rand m) (window w (S k)) Hr).
    lia.
Qed.

(** ** The pause is bounded, and a dead process is retried *)
Definition pause_ok (w : Watchdog) : Prop :=
  0 <= backoff w <= maxBackoff w /\
  forall na, nextAttempt w = Some na ->
    exists t, lastRestart w = Some t /\ na - t <= maxBackoff w.

Lemma grow_bounds w : config_ok w -> 0 <= backoff w <= maxBackoff w ->
  0 < grow w <= maxBackoff w.
Proof.
  intros [Hc Hm] Hb. unfold grow. destruct (Z.eqb_spec (backoff w) 0); [lia|].
  destruct (Z.ltb_spec (backoff w) (maxBackoff w)); [|lia].
  rewrite wrap64_id by (unfold is_int64, min_int64, max_int64; lia).
  destruct (Z.ltb_spec (maxBackoff w) (backoff w * 2)); lia.
Qed.

Lemma tick_pause w m : config_ok w -> rand_ok (m_rand m) -> pause_ok w ->
  config_ok (tick_at w m).1 /\ pause_ok (tick_at w m).1.
Proof.
  intros Hc Hr [Hb Hn]. pose proof (tick_config w m) as Hcfg.
  assert (Hmax : maxBackoff (tick_at w m).1 = maxBackoff w) by (by injection Hcfg).
  split; [injection Hcfg as E1 E2 _ _; unfold config_ok in *; by rewrite E1, E2|].
  unfold pause_ok. rewrite Hmax.
  destruct ((tick_at w m).2) as [|q|q err alert] eqn:Eo.
  1, 2: (destruct (tick_idle w m) as [Ew|[Ew _]]; [by rewrite Eo|by rewrite Ew|];
    rewrite Ew; simpl; split; [destruct Hc; lia|done]).
  destruct (tick_attempt w m _ _ _ Eo) as (_ & _ & _ & _ & Hb' & Hl' & Hn' & _).
  pose proof (grow_bounds w Hc Hb) as Hg. destruct Hc as [_ Hm]. rewrite Hb', Hn', Hl'.
  split; [lia|]. intros na [= <-]. eexists; split; [done|].
  pose proof (jittered_bounds (w <| backoff := grow w |>) (m_rand m) (grow w) Hr). lia.
Qed.

Lemma Run_pause w ms : config_ok w -> pause_ok w -> Forall (fun m => rand_ok (m_rand m)) ms ->
  config_of (Run w ms).1 = config_of w /\ config_ok (Run w ms).1 /\ pause_ok (Run w ms).1.
Proof.
  intros Hc Hp Hms. revert w Hc Hp. induction Hms as [|m ms Hm _ IH]; intros w Hc Hp; [done|].
  rewrite Run_cons. cbn [fst]. destruct (tick_pause w m Hc Hm Hp) as [Hc1 Hp1].
  destruct (IH _ Hc1 Hp1) as (Ec & ? & ?). split_and!; [|done|done].
  etrans; [exact Ec|apply tick_config].
Qed.

(** What a tick that comes to the restart does: exactly what [restart] did and answered. *)
Definition acted (w : Watchdog) (m : moment) (o : outcome) : Prop :=
  let '(p', (err, deliberateStop)) := restart (m_p2 m) in
  if deliberateStop then o = Deliberate p' else exists alert, o = Attempt p' err alert.

(** [restart] declines only for an atomic supervisor, and only of a process it should leave alone. *)
Lemma restart_acts p :
  StartIfDesiredDead = None \/ (inhabited (AtomicRestarterLaws P E) /\ Desired p = true /\ Alive p = false) -> (restart p).2.2 = false.
Proof.
  unfold restart. intros [->|([L] & Hd & Ha)]; [by destruct (Start p)|].
  rewrite restarter_eq. pose proof (restarter_acts p Hd Ha) as Hn.
  destruct (restarter p) as [p' [[] [e|]]]; done.
Qed.

(** C40: a dead process is never given up on. After any history, a tick that finds the process desired
    and dead, at least maxBackoff after the last restart (or with none so far), calls restart, and its
    outcome is restart's answer: an attempt with its error, or none because the process was stopped
    meanwhile. So it is an attempt wherever the supervisor restarts unconditionally, and with an atomic
    one wherever the process still is desired and dead when restart is called: backoff delays a retry by
    at most maxBackoff and cannot suspend it. *)
Theorem dead_is_retried w ms m :
  config_ok w -> pause_ok w -> Forall (fun m => rand_ok (m_rand m)) ms ->
  let w' := (Run w ms).1 in
  Desired (m_p0 m) = true -> Alive (m_p1 m) = false ->
  (forall t, lastRestart w' = Some t -> t + maxBackoff w <= m_now m) ->
  let o := (tick_at w' m).2 in
  acted w' m o /\
  (StartIfDesiredDead = None \/ (inhabited (AtomicRestarterLaws P E) /\ Desired (m_p2 m) = true /\ Alive (m_p2 m) = false) ->
   exists p' err alert, restart (m_p2 m) = (p', (err, false)) /\ o = Attempt p' err alert).
Proof.
  intros Hc Hp Hms w' Hd Ha Ht. destruct (Run_pause w ms Hc Hp Hms) as (Hcfg & _ & _ & Hna).
  fold w' in Hcfg, Hna. assert (Hmax : maxBackoff w' = maxBackoff w) by (by injection Hcfg).
  unfold tick_at, tick, acted. rewrite Hd, Ha. cbn [negb].
  assert (match nextAttempt w' with Some na => m_now m <? na | None => false end = false) as ->.
  { destruct (nextAttempt w') as [na|]; [|done]. destruct (Hna na eq_refl) as (t & Et & Hle).
    specialize (Ht t Et). lia. }
  pose proof (restart_acts (m_p2 m)) as Hacts. destruct (restart (m_p2 m)) as [q [e [|]]]; cbn [snd].
  - split; [done|]. intros Hr. by specialize (Hacts Hr).
  - split; [by eexists|]. intros _. by eexists _, _, _.
Qed.

(** ** The accounting *)
Definition attempts (os : list (Z * outcome)) : list (Z * option E) :=
  omap (fun o => match o.2 with Attempt _ err _ => Some (o.1, err) | _ => None end) os.

Lemma wrap64_count a n : wrap64 a +! n = wrap64 (a + n).
Proof.
  unfold wrap64. f_equal.
  replace ((a + 2 ^ 63) `mod` 2 ^ 64 - 2 ^ 63 + n + 2 ^ 63) with ((a + 2 ^ 63) `mod` 2 ^ 64 + n) by lia.
  rewrite Zplus_mod_idemp_l. f_equal. lia.
Qed.

(** The counters tell the truth. After any run from boot, [restarts] is the number of restart
    attempts, [failed] the number of those whose spawn errored, and the last error and time are
    the last attempt's; a deliberate stop counts as neither. *)
Theorem stats_are_honest nm ms p0 p1 :
  let r := Run (New nm) ms in
  let st := Stats_ r.1 p0 p1 in
  let n l := wrap64 (Z.of_nat (length l)) in
  st_Restarts st = n (attempts r.2) /\
  st_Failed st = n (filter (fun a => is_Some a.2) (attempts r.2)) /\
  st_LastRestart st = fst <$> last (attempts r.2) /\
  st_LastError st = (match last (attempts r.2) with
                     | Some (_, Some e) => err_text e | _ => ""%string end).
Proof.
  cbv zeta. unfold Stats_; simpl. induction ms as [|m ms IH] using rev_ind; [done|].
  assert (Happ : forall w l, Run w (l ++ [m]) =
    ((tick_at (Run w l).1 m).1, (Run w l).2 ++ [(m_now m, (tick_at (Run w l).1 m).2)])).
  { intros w l. revert w. induction l as [|m' l IHl]; intros w.
    - simpl. by destruct (tick_at w m).
    - rewrite <- app_comm_cons, !Run_cons, IHl. done. }
  rewrite Happ. cbn [fst snd]. set (w := (Run (New nm) ms).1) in *.
  unfold attempts in *. rewrite omap_app. cbn [omap list_omap].
  destruct ((tick_at w m).2) as [|q|q err alert] eqn:Eo; cbn [fst snd].
  1, 2: (rewrite app_nil_r; destruct (tick_idle w m) as [Ew|[Ew _]]; [by rewrite Eo| |];
    rewrite Ew; exact IH).
  destruct (tick_attempt w m _ _ _ Eo) as (_ & _ & _ & _ & _ & Hl & _ & Hn & Hf & He).
  destruct IH as (I1 & I2 & _ & _). rewrite Hl, Hn, Hf, He, I1, I2.
  rewrite last_snoc, filter_app, !length_app. cbn [length fmap option_fmap option_map fst].
  split_and!; try done; [by rewrite wrap64_count, Nat2Z.inj_add|].
  rewrite filter_cons. destruct err; cbn [snd].
  - rewrite decide_True by done. simpl. by rewrite wrap64_count, Nat2Z.inj_add.
  - rewrite decide_False by (by intros []). simpl. by rewrite Nat.add_0_r.
Qed.

(** A deliberate stop is never undone. When the supervisor restarts atomically, a tick whose
    process was stopped on purpose before the restart decision leaves the process as it is, counts
    nothing, alerts nobody and charges no backoff, even if it saw the process desired and dead. *)
Theorem stop_is_not_undone `{!AtomicRestarterLaws P E} w m :
  Desired (m_p2 m) = false \/ Alive (m_p2 m) = true ->
  Desired (m_p0 m) = true -> Alive (m_p1 m) = false ->
  (tick_at w m).1 = w /\
  ((tick_at w m).2 = Quiet \/ (tick_at w m).2 = Deliberate (m_p2 m)).
Proof.
  intros Hp2 Hd Ha.
  assert (Hr : restart (m_p2 m) = (m_p2 m, (None, true)))
    by (unfold restart; by rewrite restarter_eq, restarter_idle).
  unfold tick_at, tick. rewrite Hd, Ha. cbn [negb].
  destruct (match nextAttempt w with Some na => m_now m <? na | None => false end); [by split; [|left]|].
  rewrite Hr. split; [by destruct w|by right].
Qed.
End tick.

(** ** Witnesses: a toy process that is desired, dead, and whose spawns fail. *)
Definition toy : Supervisor bool string :=
  {| Desired := fun _ => true; Alive := fun p => p; Start := fun p => (p, Some "no"%string);
     StartIfDesiredDead := None |}.
Definition toy_moment (t : Z) : moment (P := bool) :=
  {| m_now := t; m_rand := fun _ => 0; m_p0 := false; m_p1 := false; m_p2 := false |}.
Definition crash_run : list moment := [toy_moment 0; toy_moment Second; toy_moment (2 * Second)].

Lemma toy_rand n : rand_ok (m_rand (toy_moment n)).
Proof. intros k Hk. simpl. lia. Qed.

Lemma New_config nm : config_ok (New nm).
Proof. unfold config_ok, New, Second; simpl. lia. Qed.

Lemma restarts_back_off_witness :
  let w := New "core" in
  config_ok w /\ loop_state w 0 /\ crash_loop (H := toy) id w crash_run /\
  spaced w 0 None (attempt_times (Run (H := toy) id w crash_run).2).
Proof.
  assert (Hl : crash_loop (H := toy) id (New "core") crash_run).
  { unfold crash_run. simpl. split_and!; try done; apply toy_rand. }
  assert (Hs : loop_state (New "core") 0) by (split; [done|by left]).
  split; [apply New_config|]. split; [exact Hs|]. split; [exact Hl|].
  exact (restarts_back_off (H := toy) id (New "core") 0 crash_run (New_config _) Hs Hl).
Defined.

Lemma dead_is_retried_witness :
  let w := (Run (H := toy) id (New "core") crash_run).1 in
  lastRestart w = Some (2 * Second) /\
  exists p' err alert, restart (H := toy) false = (p', (err, false)) /\
    (tick_at (H := toy) id w (toy_moment (62 * Second))).2 = Attempt p' err alert.
Proof.
  split; [vm_compute; reflexivity|].
  apply (dead_is_retried (H := toy) id (New "core") crash_run (toy_moment (62 * Second))).
  - apply New_config.
  - split; [unfold New, Second; simpl; lia|done].
  - repeat (apply Forall_cons_2; [exact (toy_rand _)|]). apply Forall_nil_2.
  - reflexivity.
  - reflexivity.
  - intros t Ht. vm_compute in Ht. injection Ht as <-. vm_compute. discriminate.
  - by left.
Defined.

Definition toy_atomic : Supervisor bool string :=
  {| Desired := fun p : bool => p; Alive := fun _ : bool => false;
     Start := fun p : bool => (p, None);
     StartIfDesiredDead := Some (fun p : bool => (p, if p then (true, None) else (false, None))) |}.

Lemma toy_atomic_laws : @AtomicRestarterLaws bool string toy_atomic.
Proof.
  apply (@Build_AtomicRestarterLaws bool string toy_atomic
    (fun p => (p, if p then (true, None) else (false, None))) eq_refl); simpl.
  - by intros p [->|?].
  - intros [] p' e [= <- <-]; done.
  - done.
  - by intros [].
Qed.

Lemma stop_is_not_undone_witness :
  let m := {| m_now := 0; m_rand := fun _ => 0; m_p0 := true; m_p1 := true; m_p2 := false |} in
  let r := tick_at (H := toy_atomic) id (New "core") m in
  r.1 = New "core" /\ (r.2 = Quiet \/ r.2 = Deliberate false).
Proof.
  exact (stop_is_not_undone (H := toy_atomic) id (New "core")
    {| m_now := 0; m_rand := fun _ => 0; m_p0 := true; m_p1 := true; m_p2 := false |}
    (AtomicRestarterLaws0 := toy_atomic_laws) (or_introl eq_refl) eq_refl eq_refl).
Defined.
