(* ===== verification/CoreLog.v ===== *)
(** * Core log: what reaches the log from the engine's output

    Models the log half of [src/internal/core/singbox.go]: [ansiStripWriter] (the parser that removes
    terminal escapes) and [ringLog] (the last lines, for the Diagnostics page). A byte is a [Z]. *)
From S2P Require Import Prelude BoundedLog.
Local Open Scope Z_scope.

Abbreviation bytes := (list Z).

(** ** [ansiStripWriter] *)
Inductive ansiState := ansiText | ansiEsc | ansiCSI | ansiString | ansiStringEsc | ansiNF.

Definition asciiBEL : Z := 0x07.
Definition asciiESC : Z := 0x1b.

Record ansiStripWriter := mkStrip { state : ansiState; out : bytes }.
#[export] Instance eta_strip : Eta ansiStripWriter := fun a => mkStrip (state a) (out a).

Definition in_range (lo hi b : Z) : bool := (lo <=? b) && (b <=? hi).

(** [feed] in the state [ansiText]; [abort] is the only other way into it. *)
Definition feed_text (a : ansiStripWriter) (b : Z) : ansiStripWriter :=
  if b =? asciiESC then a <| state := ansiEsc |> else a <| out := out a ++ [b] |>.

Definition abort (a : ansiStripWriter) (b : Z) : ansiStripWriter :=
  feed_text (a <| state := ansiText |>) b.

Definition feed_esc (a : ansiStripWriter) (b : Z) : ansiStripWriter :=
  if b =? 91 then a <| state := ansiCSI |>
  else if (b =? 93) || (b =? 80) || (b =? 88) || (b =? 94) || (b =? 95)
  then a <| state := ansiString |>
  else if in_range 0x20 0x2f b then a <| state := ansiNF |>
  else if in_range 0x30 0x7e b then a <| state := ansiText |>
  else abort a b.

Definition feed (a : ansiStripWriter) (b : Z) : ansiStripWriter :=
  match state a with
  | ansiText => feed_text a b
  | ansiEsc => feed_esc a b
  | ansiCSI =>
      if in_range 0x40 0x7e b then a <| state := ansiText |>
      else if in_range 0x20 0x3f b then a
      else abort a b
  | ansiNF =>
      if in_range 0x30 0x7e b then a <| state := ansiText |>
      else if in_range 0x20 0x2f b then a
      else abort a b
  | ansiString =>
      if b =? asciiBEL then a <| state := ansiText |>
      else if b =? asciiESC then a <| state := ansiStringEsc |>
      else if b <? 0x20 then abort a b
      else a
  | ansiStringEsc =>
      if b =? 92 then a <| state := ansiText |>
      else feed_esc (a <| state := ansiEsc |>) b
  end.

(** [Write] over the writer it wraps: the new states, and the result [(n, err)]. *)
Section strip_write.
Context {W : Type} (w_write : W -> bytes -> W * (Z * option string)).

Definition strip_Write (aw : ansiStripWriter * W) (p : bytes)
    : (ansiStripWriter * W) * (Z * option string) :=
  let '(a, w) := aw in
  let a1 := fold_left feed p (a <| out := [] |>) in
  match out a1 with
  | [] => ((a1, w), (Z.of_nat (length p), None))
  | _ => match w_write w (out a1) with
         | (w1, (_, Some err)) => ((a1, w1), (0, Some err))
         | (w1, (_, None)) => ((a1, w1), (Z.of_nat (length p), None))
         end
  end.
End strip_write.

(** ** [ringLog] *)
Record ringLog := mkRing { lines : list bytes; size : nat; buf : bytes }.
#[export] Instance eta_ringLog : Eta ringLog := fun r => mkRing (lines r) (size r) (buf r).

Definition newRingLog (n : nat) : ringLog := mkRing [] n [].

Fixpoint IndexByte (p : bytes) (b : Z) : option nat :=
  match p with
  | [] => None
  | x :: p' => if x =? b then Some 0%nat else S <$> IndexByte p' b
  end.

(** [strings.TrimRight(s, "\r")]. *)
Fixpoint trim_left_cr (p : bytes) : bytes :=
  match p with 13 :: p' => trim_left_cr p' | _ => p end.
Definition TrimRight_cr (p : bytes) : bytes := rev (trim_left_cr (rev p)).

Definition push_line (line : bytes) (r : ringLog) : ringLog :=
  let ls := lines r ++ [line] in
  r <| lines := if (2 * size r <? length ls)%nat then drop (length ls - size r) ls else ls |>.

(** The loop of [Write]: one line per turn, while the buffer holds a newline. *)
Fixpoint write_loop (fuel : nat) (r : ringLog) : ringLog :=
  match fuel with
  | O => r
  | S fuel' =>
      match IndexByte (buf r) 10 with
      | None => r
      | Some i =>
          let line := TrimRight_cr (take i (buf r)) in
          let r1 := r <| buf := drop (S i) (buf r) |> in
          write_loop fuel' (if decide (line = []) then r1 else push_line line r1)
      end
  end.

Definition ring_Write (r : ringLog) (p : bytes) : ringLog * (Z * option string) :=
  let r1 := r <| buf := buf r ++ p |> in
  (write_loop (S (length (buf r1))) r1, (Z.of_nat (length p), None)).

#[local] Arguments ring_Write : simpl never.

Definition Lines (r : ringLog) : list bytes := lines r.

(** ** The stripper: every byte either is text or belongs to an escape *)
Definition strip_from (s : ansiState) (p : bytes) : ansiStripWriter :=
  fold_left feed p (mkStrip s []).
Definition strip (p : bytes) : bytes := out (strip_from ansiText p).

(** One byte: where the parser goes, and whether the byte is kept. *)
Definition keeps (s : ansiState) (b : Z) : bytes := out (feed (mkStrip s []) b).
Definition next (s : ansiState) (b : Z) : ansiState := state (feed (mkStrip s []) b).

Lemma feed_keeps s o b : feed (mkStrip s o) b = mkStrip (next s b) (o ++ keeps s b).
Proof.
  unfold next, keeps, feed, feed_esc, abort, feed_text.
  destruct s; simpl; repeat (case_match; simpl); by rewrite ?app_nil_r.
Qed.

Lemma feeds_keep p s o :
  fold_left feed p (mkStrip s o) = mkStrip (state (strip_from s p)) (o ++ out (strip_from s p)).
Proof.
  unfold strip_from. revert s o. induction p as [|b p IH]; intros s o; simpl; [by rewrite app_nil_r|].
  rewrite !feed_keeps. simpl. rewrite IH, (IH _ (keeps s b)). simpl. by rewrite app_assoc.
Qed.

Lemma strip_from_app s p q :
  strip_from s (p ++ q) =
    mkStrip (state (strip_from (state (strip_from s p)) q))
            (out (strip_from s p) ++ out (strip_from (state (strip_from s p)) q)).
Proof.
  unfold strip_from at 1. rewrite fold_left_app. fold (strip_from s p).
  destruct (strip_from s p) as [s' o']. simpl. by rewrite feeds_keep.
Qed.

Lemma keeps_self s b : keeps s b = [] \/ (keeps s b = [b] /\ b <> asciiESC).
Proof.
  unfold keeps, feed, feed_esc, abort, feed_text.
  destruct s; simpl; repeat (case_match; simpl); auto; right; split; auto; lia.
Qed.

(** A newline is always text, and always puts the parser back into the text state. *)
Lemma newline_kept s : keeps s 10 = [10] /\ next s 10 = ansiText.
Proof. by destruct s. Qed.

Lemma strip_from_newline s p : strip_from s (10 :: p) = mkStrip (state (strip_from ansiText p)) (10 :: strip p).
Proof.
  destruct (newline_kept s) as [Hk Hn]. change (10 :: p) with ([10] ++ p).
  rewrite strip_from_app. unfold strip_from at 2 3 5. simpl. rewrite feed_keeps, Hk, Hn. done.
Qed.

(** The forms an engine's logger emits: CSI, the string forms up to BEL or ST, nF and the two-byte
    escapes, each complete. *)
Inductive escape : bytes -> Prop :=
| esc_csi ps b : Forall (fun x => in_range 0x20 0x3f x = true) ps -> in_range 0x40 0x7e b = true ->
    escape (asciiESC :: 91 :: ps ++ [b])
| esc_string i body :
    i ∈ [93; 80; 88; 94; 95] -> Forall (fun x => 0x20 <= x) body ->
    escape (asciiESC :: i :: body ++ [asciiBEL])
| esc_string_st i body :
    i ∈ [93; 80; 88; 94; 95] -> Forall (fun x => 0x20 <= x) body ->
    escape (asciiESC :: i :: body ++ [asciiESC; 92])
| esc_nf i ps b : in_range 0x20 0x2f i = true -> Forall (fun x => in_range 0x20 0x2f x = true) ps ->
    in_range 0x30 0x7e b = true -> escape (asciiESC :: i :: ps ++ [b])
| esc_two b : in_range 0x30 0x7e b = true -> b ∉ [91; 93; 80; 88; 94; 95] -> escape [asciiESC; b].

(** Bytes that leave the state alone and are dropped. *)
Lemma strip_from_loop s p : Forall (fun b => next s b = s /\ keeps s b = []) p ->
  strip_from s p = mkStrip s [].
Proof.
  unfold strip_from. induction 1 as [|b p [Hn Hk] _ IH]; [done|].
  simpl. by rewrite feed_keeps, Hn, Hk.
Qed.

Lemma csi_loop b : in_range 0x20 0x3f b = true -> next ansiCSI b = ansiCSI /\ keeps ansiCSI b = [].
Proof.
  unfold next, keeps, feed, in_range. intros H. bool_facts. simpl.
  destruct (Z.leb_spec 64 b); simpl; [lia|]. by rewrite (proj2 (Z.leb_le 32 b)), (proj2 (Z.leb_le b 63)) by lia.
Qed.
Lemma nf_loop b : in_range 0x20 0x2f b = true -> next ansiNF b = ansiNF /\ keeps ansiNF b = [].
Proof.
  unfold next, keeps, feed, in_range. intros H. bool_facts. simpl.
  destruct (Z.leb_spec 48 b); simpl; [lia|]. by rewrite (proj2 (Z.leb_le 32 b)), (proj2 (Z.leb_le b 47)) by lia.
Qed.
Lemma string_loop b : 0x20 <= b -> next ansiString b = ansiString /\ keeps ansiString b = [].
Proof.
  unfold next, keeps, feed, asciiBEL, asciiESC. intros H. simpl.
  destruct (Z.eqb_spec b 7), (Z.eqb_spec b 27), (Z.ltb_spec b 32); try lia; done.
Qed.

Lemma strip_from_snoc s p s' b :
  strip_from s p = mkStrip s' [] -> next s' b = ansiText -> keeps s' b = [] ->
  strip_from s (p ++ [b]) = mkStrip ansiText [].
Proof.
  intros Hp Hn Hk. rewrite strip_from_app, Hp. simpl. unfold strip_from. simpl.
  by rewrite feed_keeps, Hn, Hk.
Qed.

Lemma strip_from_cons s b p : keeps s b = [] -> strip_from s (b :: p) = strip_from (next s b) p.
Proof. intros Hk. unfold strip_from at 1. simpl. rewrite feed_keeps, Hk. done. Qed.

Lemma string_intro i : i ∈ [93; 80; 88; 94; 95] -> keeps ansiEsc i = [] /\ next ansiEsc i = ansiString.
Proof. rewrite !elem_of_cons, elem_of_nil. intuition (subst; done). Qed.

(** An escape sequence leaves nothing behind and hands over to text. *)
Lemma escape_stripped e : escape e -> strip_from ansiText e = mkStrip ansiText [].
Proof.
  assert (Hesc : forall p, strip_from ansiText (asciiESC :: p) = strip_from ansiEsc p)
    by (intros; by rewrite strip_from_cons).
  intros He. destruct He as [ps b Hps Hb|i body Hi Hbody|i body Hi Hbody|i ps b Hi Hps Hb|b Hb Hn];
    rewrite Hesc.
  - rewrite strip_from_cons by done. apply (strip_from_snoc _ _ ansiCSI).
    + apply strip_from_loop. eapply Forall_impl; [exact Hps|]. apply csi_loop.
    + unfold next, feed. simpl. by rewrite Hb.
    + unfold keeps, feed. simpl. by rewrite Hb.
  - destruct (string_intro i Hi) as [Hk Hnx]. rewrite strip_from_cons, Hnx by done.
    apply (strip_from_snoc _ _ ansiString); [|done|done].
    apply strip_from_loop. eapply Forall_impl; [exact Hbody|]. apply string_loop.
  - destruct (string_intro i Hi) as [Hk Hnx]. rewrite strip_from_cons, Hnx by done.
    change [asciiESC; 92] with ([asciiESC] ++ [92]). rewrite app_assoc.
    apply (strip_from_snoc _ _ ansiStringEsc); [|done|done].
    assert (E : strip_from ansiString body = mkStrip ansiString [])
      by (apply strip_from_loop; eapply Forall_impl; [exact Hbody|apply string_loop]).
    by rewrite strip_from_app, E.
  - assert (Hnf : keeps ansiEsc i = [] /\ next ansiEsc i = ansiNF).
    { unfold in_range in Hi. bool_facts.
      assert (exists k, (k < 16)%nat /\ i = 32 + Z.of_nat k) as (k & Hk & ->)
        by (exists (Z.to_nat (i - 32)); lia).
      do 16 (destruct k as [|k]; [done|]). lia. }
    destruct Hnf as [Hk Hnx]. rewrite strip_from_cons, Hnx by done.
    apply (strip_from_snoc _ _ ansiNF).
    + apply strip_from_loop. eapply Forall_impl; [exact Hps|]. apply nf_loop.
    + unfold next, feed. simpl. by rewrite Hb.
    + unfold keeps, feed. simpl. by rewrite Hb.
  - unfold in_range in Hb. bool_facts.
    assert (exists k, (k < 79)%nat /\ b = 48 + Z.of_nat k) as (k & Hk & ->)
      by (exists (Z.to_nat (b - 48)); lia).
    do 79 (destruct k as [|k]; [first [done|destruct Hn; by apply (bool_decide_unpack _)]|]). lia.
Qed.

(** What the engine writes: runs of text without ESC, and complete escapes. *)
Inductive segment := Text (t : bytes) | Escape (e : bytes).
Definition segment_ok (s : segment) : Prop :=
  match s with Text t => asciiESC ∉ t | Escape e => escape e end.
Definition segment_bytes (s : segment) : bytes := match s with Text t => t | Escape e => e end.
Definition segment_text (s : segment) : bytes := match s with Text t => t | Escape _ => [] end.

Lemma text_kept t : asciiESC ∉ t -> strip_from ansiText t = mkStrip ansiText t.
Proof.
  induction t as [|b t IH]; [done|]. rewrite not_elem_of_cons. intros [Hb Ht].
  change (b :: t) with ([b] ++ t). rewrite strip_from_app.
  assert (E : strip_from ansiText [b] = mkStrip ansiText [b]).
  { unfold strip_from. simpl. unfold feed, feed_text. simpl.
    destruct (Z.eqb_spec b asciiESC); [congruence|done]. }
  rewrite E. simpl. by rewrite IH.
Qed.

(** Stripping removes the escapes and nothing else. Output made of text and complete escape
    sequences (CSI, OSC/DCS/SOS/PM/APC ended by BEL or ST, nF, two-byte) comes out as its text, byte
    for byte. *)
Theorem strip_removes_escapes segs :
  Forall segment_ok segs -> strip (concat (map segment_bytes segs)) = concat (map segment_text segs).
Proof.
  intros H. unfold strip.
  enough (E : strip_from ansiText (concat (map segment_bytes segs)) =
    mkStrip ansiText (concat (map segment_text segs))) by by rewrite E.
  induction H as [|s segs Hs _ IH]; [done|]. simpl. rewrite strip_from_app.
  assert (E : strip_from ansiText (segment_bytes s) = mkStrip ansiText (segment_text s))
    by (destruct s; [by apply text_kept|by apply escape_stripped]).
  rewrite E. simpl. by rewrite IH.
Qed.

(** An unfinished escape costs at most its own line. Whatever the engine writes, no ESC byte gets
    through, every newline does, and what a line becomes depends on that line alone. *)
Theorem strip_line_local p q :
  strip (p ++ 10 :: q) = strip p ++ 10 :: strip q /\ asciiESC ∉ strip p.
Proof.
  split.
  - unfold strip at 1. by rewrite strip_from_app, strip_from_newline.
  - unfold strip. generalize ansiText. induction p as [|b p IH]; intros s; [apply not_elem_of_nil|].
    change (b :: p) with ([b] ++ p). rewrite strip_from_app. simpl. rewrite elem_of_app.
    intros [H|H]; [|by eapply IH]. unfold strip_from in H. simpl in H.
    change (asciiESC ∈ keeps s b) in H. destruct (keeps_self s b) as [E|[E Hb]]; rewrite E in H.
    + by apply elem_of_nil in H.
    + apply list_elem_of_singleton in H. congruence.
Qed.

(** ** The ring log keeps the last lines *)

(** A stream's lines: the complete ones, and what follows the last newline. *)
Fixpoint split_lines (p : bytes) : list bytes * bytes :=
  match p with
  | [] => ([], [])
  | b :: p' =>
      let '(ls, r) := split_lines p' in
      if b =? 10 then ([] :: ls, r)
      else match ls with [] => ([], b :: r) | l :: ls' => ((b :: l) :: ls', r) end
  end.

Definition kept (ls : list bytes) : list bytes :=
  filter (fun l => l <> []) (map TrimRight_cr ls).
(** The lines a stream should leave in the log. *)
Definition log_lines (p : bytes) : list bytes := kept (split_lines p).1.

Lemma split_index_none p : IndexByte p 10 = None -> split_lines p = ([], p).
Proof.
  induction p as [|b p IH]; [done|]. simpl. destruct (b =? 10); [done|].
  intros H%fmap_None. by rewrite IH.
Qed.

Lemma split_index_some p i : IndexByte p 10 = Some i ->
  split_lines p = (take i p :: (split_lines (drop (S i) p)).1, (split_lines (drop (S i) p)).2).
Proof.
  revert i. induction p as [|b p IH]; intros i; [done|]. simpl. destruct (b =? 10) eqn:E.
  - intros [= <-]. simpl. rewrite drop_0. by destruct (split_lines p).
  - intros (j & Hj & ->)%fmap_Some. simpl. rewrite (IH j Hj). simpl. done.
Qed.

Lemma split_lines_app p q :
  split_lines (p ++ q) =
    ((split_lines p).1 ++ (split_lines ((split_lines p).2 ++ q)).1,
     (split_lines ((split_lines p).2 ++ q)).2).
Proof.
  induction p as [|b p IH]; simpl; [by destruct (split_lines q)|].
  rewrite IH. destruct (split_lines p) as [ls r]. simpl. destruct (b =? 10) eqn:E; simpl; [done|].
  destruct ls as [|l ls]; simpl; [|done].
  rewrite E. destruct (split_lines (r ++ q)) as [[|l ls] r']; simpl; done.
Qed.

Lemma split_lines_rest p : IndexByte (split_lines p).2 10 = None.
Proof.
  induction p as [|b p IH]; [done|]. simpl. destruct (split_lines p) as [ls r]; simpl in *.
  destruct (b =? 10) eqn:E; simpl; [done|]. destruct ls; simpl; [|done]. by rewrite E, IH.
Qed.

#[export] Instance ring_log : BoundedLog ringLog bytes :=
  {| bl_push := push_line; bl_view := lines;
     bl_inv := fun r => (length (lines r) <= 2 * size r)%nat;
     bl_lo := size; bl_hi := fun r => (2 * size r)%nat |}.

Lemma push_line_cases x r :
  ((2 * size r < S (length (lines r)))%nat /\
     lines (push_line x r) = drop (S (length (lines r)) - size r) (lines r ++ [x])) \/
  ((S (length (lines r)) <= 2 * size r)%nat /\ lines (push_line x r) = lines r ++ [x]).
Proof.
  unfold push_line. rewrite length_app, Nat.add_1_r. cbn [length lines].
  destruct (Nat.ltb_spec (2 * size r) (S (length (lines r)))) as [H|H]; [left|right]; done.
Qed.

#[export] Instance ring_log_laws : BoundedLogLaws ringLog bytes.
Proof.
  split; try done; cbn [bl_push bl_view bl_inv bl_lo bl_hi ring_log]; intros x r H;
    (destruct (push_line_cases x r) as [[Hl ->]|[Hl ->]]);
    change (size (push_line x r)) with (size r); rewrite ?length_drop, ?length_app; simpl; try lia; try done.
  apply suffix_drop.
Qed.

Lemma push_line_buf l r b : (push_line l r) <| buf := b |> = push_line l (r <| buf := b |>).
Proof. done. Qed.

Lemma push_lines_buf ls r b :
  (bl_pushes ls r) <| buf := b |> = bl_pushes ls (r <| buf := b |>).
Proof. revert r. induction ls as [|l ls IH]; intros r; [done|]. simpl. apply IH. Qed.

Lemma kept_cons l ls :
  kept (l :: ls) = if decide (TrimRight_cr l = []) then kept ls else TrimRight_cr l :: kept ls.
Proof. unfold kept. simpl. rewrite filter_cons. repeat case_decide; done. Qed.

(** The loop is the pushes of the buffered lines; the fuel [Write] gives it is enough. *)
Lemma write_loop_spec fuel r : (length (buf r) < fuel)%nat ->
  write_loop fuel r = (bl_pushes (log_lines (buf r)) r) <| buf := (split_lines (buf r)).2 |>.
Proof.
  revert r. induction fuel as [|fuel IH]; intros r Hf; [lia|]. cbn [write_loop].
  destruct (IndexByte (buf r) 10) as [i|] eqn:E.
  - assert (Hd : (length (drop (S i) (buf r)) < fuel)%nat).
    { rewrite length_drop. destruct (buf r); [done|]. simpl in *. lia. }
    unfold log_lines. rewrite (split_index_some _ _ E). cbn [fst snd]. rewrite kept_cons.
    set (rest := drop (S i) (buf r)) in *. set (line := TrimRight_cr _).
    destruct (decide (line = [])) as [El|El]; rewrite IH by exact Hd; unfold log_lines; simpl.
    + rewrite push_lines_buf. simpl. by rewrite push_lines_buf.
    + rewrite !push_lines_buf. done.
  - unfold log_lines. rewrite (split_index_none _ E). simpl. by destruct r.
Qed.

Lemma log_lines_app p q : log_lines (p ++ q) = log_lines p ++ log_lines ((split_lines p).2 ++ q).
Proof.
  unfold log_lines, kept. rewrite split_lines_app. cbn [fst]. by rewrite map_app, filter_app.
Qed.

(** After any sequence of writes: which lines the log holds, and the unfinished one. *)
Definition ring_holds (n : nat) (p : bytes) (r : ringLog) : Prop :=
  size r = n /\ (length (lines r) <= 2 * n)%nat /\ buf r = (split_lines p).2 /\
  lines r `suffix_of` log_lines p /\ (n `min` length (log_lines p) <= length (lines r))%nat.

Lemma ring_Write_holds n p q r : ring_holds n p r ->
  ring_holds n (p ++ q) (ring_Write r q).1 /\ (ring_Write r q).2 = (Z.of_nat (length q), None).
Proof.
  intros (<- & Hinv & Hb & Hsuf & Hlen). split; [|done]. unfold ring_Write. cbn [fst].
  rewrite write_loop_spec by (simpl; lia). simpl. rewrite Hb.
  set (r1 := r <| buf := (split_lines p).2 ++ q |>).
  set (new := log_lines ((split_lines p).2 ++ q)).
  destruct (@bl_pushes_frame _ _ _ ring_log_laws new r1 Hinv) as (Hi & _ & Hh). simpl in Hi, Hh.
  destruct (@bl_pushes_suffix _ _ _ ring_log_laws new r1 (log_lines p) Hinv Hsuf Hlen) as [Hs Hl].
  assert (Hsz : size (bl_pushes new r1) = size r) by (simpl in Hh; change (size r1) with (size r) in Hh; lia).
  unfold ring_holds. rewrite (log_lines_app p q), (split_lines_app p q). cbn [snd].
  split_and!; [exact Hsz|simpl; rewrite <- Hsz; exact Hi|done|exact Hs|exact Hl].
Qed.

Lemma newRingLog_holds n : ring_holds n [] (newRingLog n).
Proof. unfold ring_holds, log_lines, kept. simpl. split_and!; [done|lia|done|by exists []|lia]. Qed.

(** The writer the engine's stdout and stderr share, over the log. *)
Definition log_Write (aw : ansiStripWriter * ringLog) (p : bytes)
    : (ansiStripWriter * ringLog) * (Z * option string) := strip_Write ring_Write aw p.

Lemma log_Write_holds n p q a r :
  a = (strip_from ansiText p) <| out := out a |> -> ring_holds n (strip p) r ->
  let '((a', r'), res) := log_Write (a, r) q in
  a' = (strip_from ansiText (p ++ q)) <| out := out a' |> /\ ring_holds n (strip (p ++ q)) r' /\
  res = (Z.of_nat (length q), None).
Proof.
  intros Ha Hr. unfold log_Write, strip_Write.
  assert (E : fold_left feed q (a <| out := [] |>) = strip_from (state (strip_from ansiText p)) q).
  { rewrite Ha. done. }
  rewrite E. unfold strip. rewrite strip_from_app. cbn [state out].
  destruct (strip_from (state (strip_from ansiText p)) q) as [s o]. cbn [state out].
  destruct o as [|b o]; [rewrite app_nil_r; by split_and!|].
  destruct (ring_Write_holds n _ (b :: o) r Hr) as [H1 H2].
  destruct (ring_Write r (b :: o)) as [r' res]. cbn [fst snd] in *. subst res. by split_and!.
Qed.

Definition log_writes (n : nat) (ps : list bytes) : ansiStripWriter * ringLog :=
  fold_left (fun aw p => (log_Write aw p).1) ps (mkStrip ansiText [], newRingLog n).

Lemma log_writes_hold n ps :
  (log_writes n ps).1 =
    (strip_from ansiText (concat ps)) <| out := out (log_writes n ps).1 |> /\
  ring_holds n (strip (concat ps)) (log_writes n ps).2.
Proof.
  induction ps as [|q ps IH] using rev_ind; [split; [done|apply newRingLog_holds]|].
  unfold log_writes in *. rewrite fold_left_app, concat_app. simpl. rewrite app_nil_r.
  destruct (fold_left _ ps _) as [a w]. cbn [fst snd] in *. destruct IH as [Ha Hr].
  pose proof (log_Write_holds n (concat ps) q a w Ha Hr) as H.
  destruct (log_Write (a, w) q) as [[a' w'] res]. cbn [fst snd] in *. by destruct H as (? & ? & _).
Qed.

(** The log shows the end of the engine's output. However the output is cut into writes (also in
    the middle of an escape or a line), the log's lines are the last ones of the stripped stream's
    non-empty complete lines: at least the last n of them, never more than 2n, in order; the bytes
    after the last newline wait for the rest of their line. *)
Theorem Lines_after_writes n ps :
  let p := strip (concat ps) in
  let r := (log_writes n ps).2 in
  Lines r `suffix_of` log_lines p /\
  (n `min` length (log_lines p) <= length (Lines r) <= 2 * n)%nat /\
  buf r = (split_lines p).2 /\ IndexByte (buf r) 10 = None.
Proof.
  intros p r. destruct (log_writes_hold n ps) as (_ & _ & H1 & H2 & H3 & H4). unfold Lines.
  split_and!; try done. unfold r. rewrite H2. apply split_lines_rest.
Qed.

Lemma strip_removes_escapes_witness :
  Forall segment_ok [Text [104; 105]; Escape [27; 91; 51; 49; 109]; Text [10]] /\
  strip [104; 105; 27; 91; 51; 49; 109; 10] = [104; 105; 10].
Proof.
  assert (H : Forall segment_ok [Text [104; 105]; Escape [27; 91; 51; 49; 109]; Text [10]]).
  { repeat constructor; simpl; try (by apply (bool_decide_unpack _)).
    by apply (esc_csi [51; 49] 109); [repeat constructor|]. }
  split; [exact H|]. exact (strip_removes_escapes _ H).
Defined.

(** The log of size 1 shows two lines. *)
Example ring_shows_more_than_size :
  Lines (ring_Write (newRingLog 1) [97; 10; 98; 10]).1 = [[97]; [98]].
Proof. reflexivity. Qed.
