(* ===== verification/CoreSupervisor.v ===== *)
(** * Core supervisor: the engine process and its lifecycle

    Models the process half of [src/internal/core/singbox.go]: Start, StartIfDesiredDead,
    startLocked, Stop, Shutdown, Reload, Alive, Running, Desired. The operating system's processes
    are part of the state; what a call to it answers (the binary's presence, the spawn, the signals)
    is an argument. [CoreLog] models the log the process writes to. *)
From S2P Require Import Prelude Watchdog.
Local Open Scope Z_scope.

Inductive error :=
| ErrShuttingDown
| ErrNotFound (bin : string)
| ErrStart (cause : string)
| ErrKill (cause : string).

(** A spawned process is named by a number, which also names its [done] channel: [cmd] and [done]
    are set and cleared together. *)
Record SingBox := mkSingBox {
  bin : string;
  cmd : option nat;
  desired : bool;
  closed : bool;
  startedAt : Z;
  exitErr : option string
}.
#[export] Instance eta_SingBox : Eta SingBox := fun s =>
  mkSingBox (bin s) (cmd s) (desired s) (closed s) (startedAt s) (exitErr s).

(** The supervisor, the processes alive in the system, those whose [Wait] returned, those whose
    [done] is closed, and the next process number. *)
Record World := mkWorld {
  sb : SingBox;
  live : gset nat;
  waited : gset nat;
  done_ : gset nat;
  next : nat
}.
#[export] Instance eta_World : Eta World := fun w =>
  mkWorld (sb w) (live w) (waited w) (done_ w) (next w).

Definition New (b : string) : World := mkWorld (mkSingBox b None false false 0 None) ∅ ∅ ∅ 0.

Definition aliveLocked (w : World) : bool :=
  match cmd (sb w) with None => false | Some p => bool_decide (p ∉ done_ w) end.
Definition Alive_ (w : World) : bool := aliveLocked w.
Definition Running (w : World) : bool := aliveLocked w.
Definition Desired_ (w : World) : bool := desired (sb w).

(** What a spawn meets: is the binary there, does [cmd.Start] fail, what time is it. *)
Record spawn_env := { available : bool; start_err : option string; clock : Z }.

Definition startLocked (e : spawn_env) (w : World) : World * option error :=
  if closed (sb w) then (w, Some ErrShuttingDown)
  else if negb (available e) then (w, Some (ErrNotFound (bin (sb w))))
  else match start_err e with
       | Some c => (w, Some (ErrStart c))
       | None =>
           let s := (sb w) <| cmd := Some (next w) |> <| desired := true |>
                      <| startedAt := clock e |> <| exitErr := None |> in
           (w <| sb := s |> <| live := {[next w]} ∪ live w |> <| next := S (next w) |>, None)
       end.

Definition Start_ (e : spawn_env) (w : World) : World * option error :=
  if bool_decide (is_Some (cmd (sb w))) && aliveLocked w then
    (w <| sb := (sb w) <| desired := true |> |>, None)
  else startLocked e w.

Definition StartIfDesiredDead_ (e : spawn_env) (w : World) : World * (bool * option error) :=
  if negb (desired (sb w)) || aliveLocked w then (w, (false, None))
  else match startLocked e w with
       | (w1, Some err) => (w1, (false, Some err))
       | (w1, None) => (w1, (true, None))
       end.

(** [Stop] is a critical section that takes the process away from the supervisor, then the killing,
    outside the lock. *)
Definition Stop_take (w : World) : World * option nat :=
  (w <| sb := (sb w) <| desired := false |> <| cmd := None |> |>, cmd (sb w)).

Inductive kill_result := KillOk | KillDone | KillFailed (cause : string).

(** How the taken process dies: already gone, gone within the grace period after SIGTERM (which
    itself may fail), or killed. *)
Record kill_env := { already_done : bool; term_ok : bool; in_grace : bool; kill : kill_result }.

Definition Stop_kill (k : kill_env) (taken : option nat) : option error :=
  match taken with
  | None => None
  | Some _ =>
      if already_done k then None
      else if term_ok k && in_grace k then None
      else match kill k with
           | KillOk => None
           | KillDone => None
           | KillFailed c => Some (ErrKill c)
           end
  end.

(** What the killing does to the processes: a clean end or a delivered SIGKILL leaves none; only a
    failed kill leaves it running. *)
Definition Stop_effect (k : kill_env) (taken : option nat) (w : World) : World :=
  match taken, Stop_kill k taken with
  | Some p, None => w <| live := live w ∖ {[p]} |>
  | _, _ => w
  end.

Definition Stop (k : kill_env) (w : World) : World * option error :=
  let '(w1, taken) := Stop_take w in (Stop_effect k taken w1, Stop_kill k taken).

Definition Shutdown (k : kill_env) (w : World) : World * option error :=
  Stop k (w <| sb := (sb w) <| closed := true |> |>).

Definition Reload (k : kill_env) (e : spawn_env) (w : World) : World * option error :=
  let '(w1, err) := Stop k w in
  match err with
  | Some _ => (w1 <| sb := (sb w1) <| desired := true |> |>, err)
  | None =>
      let '(w2, err2) := Start_ e w1 in
      match err2 with
      | Some _ => (w2 <| sb := (sb w2) <| desired := true |> |>, err2)
      | None => (w2, None)
      end
  end.

(** ** Interleavings

    The critical sections of concurrent callers, the processes exiting, and their exit goroutines.
    [taken] holds the processes handed to a Stop; the ones of a Stop in progress are [stopping]. *)
Record Sys := mkSys { world : World; taken : gset nat; stopping : list nat }.

Inductive step : Sys -> Sys -> Prop :=
| st_start w t ps e : step (mkSys w t ps) (mkSys (Start_ e w).1 t ps)
| st_restart w t ps e : step (mkSys w t ps) (mkSys (StartIfDesiredDead_ e w).1 t ps)
| st_stop_take w t ps w1 p :
    Stop_take w = (w1, Some p) -> step (mkSys w t ps) (mkSys w1 ({[p]} ∪ t) (p :: ps))
| st_stop_none w t ps w1 :
    Stop_take w = (w1, None) -> step (mkSys w t ps) (mkSys w1 t ps)
| st_stop_kill w t ps1 p ps2 k :
    (already_done k = true -> p ∈ done_ w) ->
    step (mkSys w t (ps1 ++ p :: ps2)) (mkSys (Stop_effect k (Some p) w) t (ps1 ++ ps2))
| st_close w t ps :
    step (mkSys w t ps) (mkSys (w <| sb := (sb w) <| closed := true |> |>) t ps)
| st_reassert w t ps :   (* Reload, after a failure *)
    step (mkSys w t ps) (mkSys (w <| sb := (sb w) <| desired := true |> |>) t ps)
| st_exit w t ps p :
    p ∈ live w -> step (mkSys w t ps) (mkSys (w <| live := live w ∖ {[p]} |>) t ps)
| st_wait w t ps p err :
    (p < next w)%nat -> p ∉ live w ->
    step (mkSys w t ps)
         (mkSys (w <| sb := (sb w) <| exitErr := err |> |> <| waited := {[p]} ∪ waited w |>) t ps)
| st_done w t ps p :
    p ∈ waited w -> step (mkSys w t ps) (mkSys (w <| done_ := {[p]} ∪ done_ w |>) t ps).

Inductive reachable (b : string) : Sys -> Prop :=
| reach_new : reachable b (mkSys (New b) ∅ [])
| reach_step s s' : reachable b s -> step s s' -> reachable b s'.

Record inv (s : Sys) : Prop := {
  inv_live : forall p, p ∈ live (world s) -> (p < next (world s))%nat;
  inv_cmd : forall p, cmd (sb (world s)) = Some p -> (p < next (world s))%nat;
  inv_waited : forall p, p ∈ waited (world s) -> (p < next (world s))%nat /\ p ∉ live (world s);
  inv_done : forall p, p ∈ done_ (world s) -> p ∈ waited (world s);
  inv_owned : forall p, p ∈ live (world s) -> cmd (sb (world s)) = Some p \/ p ∈ taken s
}.

Lemma sup_init_inv b : inv (mkSys (New b) ∅ []).
Proof. split; simpl; intros p; set_solver. Qed.

(** A spawn, in a world whose process is not alive: the new process is the supervised one. *)
Lemma startLocked_inv e w t ps : inv (mkSys w t ps) -> aliveLocked w = false ->
  inv (mkSys (startLocked e w).1 t ps).
Proof.
  intros Hi Ha. unfold startLocked. repeat case_match; try exact Hi. simpl.
  destruct Hi as [L1 L2 L3 L4 L5]; simpl in *. split; simpl.
  - intros p [->%elem_of_singleton|Hp]%elem_of_union; [lia|]. specialize (L1 p Hp). lia.
  - intros p [= <-]. lia.
  - intros p Hp. destruct (L3 p Hp) as [Hlt Hl]. split; [lia|].
    rewrite elem_of_union, elem_of_singleton. intros [->|?]; [lia|done].
  - exact L4.
  - intros p [->%elem_of_singleton|Hp]%elem_of_union; [by left|].
    destruct (L5 p Hp) as [Hc|Ht]; [|by right]. exfalso.
    unfold aliveLocked in Ha. rewrite Hc in Ha. apply bool_decide_eq_false in Ha.
    apply dec_stable in Ha. by apply (L3 p (L4 p Ha)).
Qed.

Lemma inv_intent w t ps s' : inv (mkSys w t ps) -> cmd s' = cmd (sb w) ->
  inv (mkSys (w <| sb := s' |>) t ps).
Proof. intros [H1 H2 H3 H4 H5] Hc. split; simpl in *; rewrite ?Hc; done. Qed.

Lemma inv_ps w t ps ps' : inv (mkSys w t ps) -> inv (mkSys w t ps').
Proof. by intros [H1 H2 H3 H4 H5]. Qed.

Lemma inv_dies w t ps p : inv (mkSys w t ps) -> inv (mkSys (w <| live := live w ∖ {[p]} |>) t ps).
Proof.
  intros [H1 H2 H3 H4 H5]. split; simpl in *; try done.
  - intros q Hq. apply H1. set_solver.
  - intros q Hq. destruct (H3 q Hq). split; [done|set_solver].
  - intros q Hq. apply H5. set_solver.
Qed.

Lemma sup_step_inv s s' : inv s -> step s s' -> inv s'.
Proof.
  intros Hi Hs. destruct Hs as [w t ps e|w t ps e|w t ps w1 p Ht|w t ps w1 Ht|w t ps1 p ps2 k Hk
    |w t ps|w t ps|w t ps p Hp|w t ps p err Hp Hn|w t ps p Hp].
  - unfold Start_. destruct (bool_decide _ && aliveLocked w) eqn:E.
    + by apply inv_intent.
    + apply startLocked_inv; [done|]. unfold aliveLocked in *.
      destruct (cmd (sb w)); [|done]. rewrite bool_decide_true in E by (by eexists). done.
  - unfold StartIfDesiredDead_. destruct (negb (desired (sb w)) || aliveLocked w) eqn:E; [done|].
    bool_facts. pose proof (startLocked_inv e w t ps Hi ltac:(done)) as H'.
    destruct (startLocked e w) as [w1 [err|]]; exact H'.
  - unfold Stop_take in Ht. injection Ht as <- Hc. destruct Hi as [H1 H2 H3 H4 H5].
    split; simpl in *; try done. intros q Hq. right. destruct (H5 q Hq); set_solver.
  - unfold Stop_take in Ht. injection Ht as <- Hc. destruct Hi as [H1 H2 H3 H4 H5].
    split; simpl in *; try done. intros q Hq. destruct (H5 q Hq); [congruence|by right].
  - apply (inv_ps _ _ _ (ps1 ++ ps2)) in Hi. unfold Stop_effect.
    destruct (Stop_kill k (Some p)); [done|by apply inv_dies].
  - by apply inv_intent.
  - by apply inv_intent.
  - by apply inv_dies.
  - destruct Hi as [H1 H2 H3 H4 H5]. split; simpl in *; try done; set_solver.
  - destruct Hi as [H1 H2 H3 H4 H5]. split; simpl in *; try done; set_solver.
Qed.

Lemma sup_reachable_inv b s : reachable b s -> inv s.
Proof. induction 1; [apply sup_init_inv|by eapply sup_step_inv]. Qed.

(** C33: at most one engine. In every interleaving of starts, watchdog restarts, stops, reloads and
    process exits, a live engine process that no Stop has taken is the one the supervisor holds: two
    of them never run side by side, and Alive reports it. *)
Theorem at_most_one_engine b s p q :
  reachable b s -> p ∈ live (world s) -> q ∈ live (world s) -> p ∉ taken s -> q ∉ taken s ->
  p = q /\ cmd (sb (world s)) = Some p /\ Alive_ (world s) = true.
Proof.
  intros Hr Hp Hq Htp Htq. apply sup_reachable_inv in Hr.
  destruct (inv_owned _ Hr p Hp) as [Ep|]; [|done].
  destruct (inv_owned _ Hr q Hq) as [Eq|]; [|done].
  split; [congruence|]. split; [done|]. unfold Alive_, aliveLocked. rewrite Ep.
  apply bool_decide_true. intros Hd. by apply (inv_waited _ Hr p (inv_done _ Hr p Hd)).
Qed.

(** Once closed and without a process, the supervisor stays so and nothing is ever spawned. *)
Lemma closed_stable s s' : closed (sb (world s)) = true -> step s s' ->
  closed (sb (world s')) = true /\ next (world s') = next (world s) /\
  (cmd (sb (world s)) = None -> cmd (sb (world s')) = None).
Proof.
  intros Hc Hs. destruct Hs; simpl in *; try done; try (by unfold Stop_take in *; simplify_eq/=).
  - unfold Start_, startLocked. rewrite Hc. by case_match.
  - unfold StartIfDesiredDead_, startLocked. rewrite Hc. by case_match.
  - unfold Stop_effect. by repeat case_match.
Qed.

(** After Shutdown no engine survives. From the moment Shutdown has set [closed] and its Stop has
    taken the process, whatever late Start, restart or Reload still runs, no process is spawned, the
    supervisor holds none, and every engine process still alive is one handed to a Stop. *)
Theorem shutdown_is_final b s s' :
  reachable b s -> closed (sb (world s)) = true -> cmd (sb (world s)) = None -> rtc step s s' ->
  next (world s') = next (world s) /\ Alive_ (world s') = false /\ live (world s') ⊆ taken s'.
Proof.
  intros Hr Hc Hn Hs.
  assert (H : reachable b s' /\ closed (sb (world s')) = true /\ cmd (sb (world s')) = None /\
              next (world s') = next (world s)).
  { induction Hs as [s|s s1 s' Hs _ IH]; [done|]. destruct (closed_stable s s1 Hc Hs) as (H1 & H2 & H3).
    destruct IH as (? & ? & ? & Hnx); [by eapply reach_step|done|by apply H3|]. by rewrite Hnx. }
  destruct H as (Hr' & _ & Hn' & Hnx). split; [done|]. unfold Alive_, aliveLocked.
  rewrite Hn'. split; [done|]. intros p Hp. apply sup_reachable_inv in Hr'.
  by destruct (inv_owned _ Hr' p Hp) as [E|]; [congruence|].
Qed.

(** Shutdown reaches that state. *)
Lemma Shutdown_state k w : closed (sb (Shutdown k w).1) = true /\ cmd (sb (Shutdown k w).1) = None.
Proof. unfold Shutdown, Stop, Stop_effect. simpl. by repeat case_match. Qed.

(** Reload keeps the intent. Whether the stop, the spawn or neither fails, after a Reload the
    engine is desired, so the watchdog keeps retrying; without an error it is running afresh. *)
Theorem Reload_keeps_intent k e w w' err :
  (forall p, p ∈ done_ w -> (p < next w)%nat) ->
  Reload k e w = (w', err) ->
  Desired_ w' = true /\ (err = None -> Alive_ w' = true /\ cmd (sb w') = Some (next w) /\ next w ∈ live w').
Proof.
  intros Hd. unfold Reload, Stop, Stop_take.
  set (w0 := w <| sb := _ |>). set (w1 := Stop_effect k (cmd (sb w)) w0). intros H.
  assert (Hw1 : cmd (sb w1) = None /\ next w1 = next w /\ done_ w1 = done_ w)
    by (unfold w1, Stop_effect; simpl; by repeat case_match).
  destruct Hw1 as (Hc & Hn & Hdn). clearbody w1.
  destruct (Stop_kill k (cmd (sb w))); [simplify_eq/=; done|].
  unfold Start_, startLocked, aliveLocked in H. rewrite Hc in H. simpl in H.
  repeat case_match; simplify_eq/=; try done.
  unfold Desired_, Alive_, aliveLocked; simpl. split; [done|]. intros _. rewrite Hn, Hdn.
  split_and!; [|done|set_solver]. apply bool_decide_true. intros Hx. specialize (Hd _ Hx). lia.
Qed.

(** ** The engine as the watchdog's process *)
Section supervised.
Context (e : spawn_env).

#[export] Instance core_supervisor : Supervisor World error :=
  {| Desired := Desired_; Alive := Alive_; Start := Start_ e;
     StartIfDesiredDead := Some (StartIfDesiredDead_ e) |}.

#[export] Instance core_restarts_atomically : AtomicRestarterLaws World error.
Proof.
  refine {| restarter := StartIfDesiredDead_ e : World -> World * (bool * option error);
            restarter_eq := eq_refl |}; simpl; unfold StartIfDesiredDead_, Desired_, Alive_.
  - intros w [H|H]; rewrite H; [done|by rewrite orb_true_r].
  - intros w w' err. destruct (negb (desired (sb w)) || aliveLocked w) eqn:E; [done|].
    bool_facts. destruct (startLocked e w) as [w1 [err1|]]; intros; simplify_eq. done.
  - intros w. destruct (negb (desired (sb w)) || aliveLocked w) eqn:E; [done|]. bool_facts.
    unfold startLocked. repeat case_match; simplify_eq/=; done.
  - intros w -> ->. cbn [negb orb]. by destruct (startLocked e w) as [w1 [err|]].
Qed.
End supervised.

(** The watchdog does not resurrect a stopped engine. Over the real supervisor, a watchdog tick
    that saw the engine desired and dead, but decides after a Stop, spawns nothing: the world is
    unchanged, and so are the watchdog's backoff and counters. *)
Theorem stopped_engine_stays_down e (text : error -> string) wd now rand w0 w1 w2 k :
  Desired_ w0 = true -> Alive_ w1 = false ->
  let stopped := (Stop k w2).1 in
  tick (H := core_supervisor e) text wd now rand w0 w1 stopped = (wd, Quiet) \/
  tick (H := core_supervisor e) text wd now rand w0 w1 stopped = (wd, Deliberate stopped).
Proof.
  intros Hd Ha stopped.
  assert (Hs : Desired_ stopped = false)
    by (unfold stopped, Stop, Stop_effect, Desired_; simpl; by repeat case_match).
  assert (Hr : restart (H := core_supervisor e) stopped = (stopped, (None, true))).
  { unfold restart; simpl. unfold StartIfDesiredDead_. unfold Desired_ in Hs. by rewrite Hs. }
  unfold tick. simpl. rewrite Hd, Ha. cbn [negb].
  destruct (match nextAttempt wd with Some na => now <? na | None => false end); [by left|].
  right. rewrite Hr. by destruct wd.
Qed.

(** ** Witnesses *)
Definition ok_env : spawn_env := {| available := true; start_err := None; clock := 5 |}.
Definition clean_kill : kill_env :=
  {| already_done := false; term_ok := true; in_grace := true; kill := KillOk |}.
Definition running : World := Eval vm_compute in (Start_ ok_env (New "sing-box")).1.

Lemma running_reachable : reachable "sing-box" (mkSys running ∅ []).
Proof.
  eapply reach_step; [apply reach_new|].
  exact (st_start (New "sing-box") ∅ [] ok_env).
Qed.

Lemma at_most_one_engine_witness :
  reachable "sing-box" (mkSys running ∅ []) /\ (0%nat ∈ live running) /\
  (0%nat = 0%nat /\ cmd (sb running) = Some 0%nat /\ Alive_ running = true).
Proof.
  assert (Hl : 0%nat ∈ live running) by (unfold running; simpl; set_solver).
  split; [exact running_reachable|]. split; [exact Hl|].
  refine (at_most_one_engine _ _ 0 0 running_reachable Hl Hl _ _); set_solver.
Defined.

Lemma shutdown_is_final_witness :
  exists s, reachable "sing-box" s /\ closed (sb (world s)) = true /\ cmd (sb (world s)) = None /\
    rtc step s s /\
    (next (world s) = next (world s) /\ Alive_ (world s) = false /\ live (world s) ⊆ taken s).
Proof.
  pose proof running_reachable as H.
  eapply reach_step in H; [|exact (st_close running ∅ [])].
  eapply reach_step in H; [|eapply (st_stop_take (running <| sb := (sb running) <| closed := true |> |>)
    ∅ [] _ 0); reflexivity].
  match type of H with reachable _ ?s => exists s end.
  split; [exact H|]. split; [reflexivity|]. split; [reflexivity|].
  split; [apply rtc_refl|].
  refine (shutdown_is_final _ _ _ H _ _ (rtc_refl _ _)); reflexivity.
Defined.

Lemma Reload_keeps_intent_witness :
  let w' := (Reload clean_kill ok_env running).1 in
  Desired_ w' = true /\ (@None error = None -> Alive_ w' = true /\ cmd (sb w') = Some 1%nat /\ 1%nat ∈ live w').
Proof.
  refine (Reload_keeps_intent clean_kill ok_env running _ None _ _); [|reflexivity].
  intros p Hp. change (p ∈ (∅ : gset nat)) in Hp. set_solver.
Defined.

Lemma stopped_engine_stays_down_witness :
  let wd := Watchdog.New "core" in
  let stopped := (Stop clean_kill running).1 in
  let r := tick (H := core_supervisor ok_env) (fun _ => ""%string) wd 100 (fun _ => 0) running
             (New "sing-box") stopped in
  r = (wd, Quiet) \/ r = (wd, Deliberate stopped).
Proof.
  exact (stopped_engine_stays_down ok_env (fun _ => ""%string) (Watchdog.New "core") 100 (fun _ => 0)
    running (New "sing-box") running clean_kill eq_refl eq_refl).
Defined.
