(* ===== verification/HealthLog.v ===== *)
(** * Health log: the monitor's data, its probe windows and its event ring

    Models the data of [src/internal/health/monitor.go] ([stat], [Monitor]) and, with
    [src/internal/health/events.go], the two rings it keeps: the last probe outcomes of a target and
    the failover log. Both are instances of [BoundedLog]. *)
From S2P Require Import Prelude BoundedLog.
Local Open Scope Z_scope.
Local Open Scope go_scope.

Inductive State := Alive | Down | Unknown.
#[export] Instance State_eq_dec : EqDecision State.
Proof. solve_decision. Defined.
(** The string a State is. *)
Definition state_string (s : State) : string :=
  match s with Alive => "alive" | Down => "down" | Unknown => "unknown" end.

Record probeSample := mkSample { s_ok : bool; s_latency : Z }.
Definition healthWindow : nat := 30.
Definition flapThreshold : Z := 2.
Definition aliveThreshold : Z := 2.

Record stat := mkStat {
  name : string; kind : string;
  probes : Z; ok : Z; fail : Z;
  sumLatency : Z;
  lastLatency : Z;
  state : State;
  reconnects : Z;
  consecFail : Z;
  consecOK : Z;
  firstSeen : Z; lastChange : Z; lastProbe : Z;
  activeUp : Z; activeDown : Z;
  rateUp : Z; rateDown : Z;
  totalUp : Z; totalDown : Z;
  lastConnSample : Z;
  recent : list probeSample;
  recentN : nat;
  recentPos : nat
}.
#[export] Instance eta_stat : Eta stat := fun s =>
  mkStat (name s) (kind s) (probes s) (ok s) (fail s) (sumLatency s) (lastLatency s) (state s)
    (reconnects s) (consecFail s) (consecOK s) (firstSeen s) (lastChange s) (lastProbe s)
    (activeUp s) (activeDown s) (rateUp s) (rateDown s) (totalUp s) (totalDown s)
    (lastConnSample s) (recent s) (recentN s) (recentPos s).

Definition no_sample : probeSample := mkSample false 0.

(** [&stat{state: Unknown, firstSeen: now, lastChange: now}]. *)
Definition new_stat (now : Z) : stat :=
  mkStat "" "" 0 0 0 0 0 Unknown 0 0 0 now now 0 0 0 0 0 0 0 0 (replicate healthWindow no_sample) 0 0.

Definition pushSample (p : probeSample) (s : stat) : stat :=
  let s1 := s <| recent := <[recentPos s := p]> (recent s) |>
              <| recentPos := ((recentPos s + 1) mod healthWindow)%nat |> in
  if (recentN s1 <? healthWindow)%nat then s1 <| recentN := S (recentN s1) |> else s1.

Definition EventDown : string := "down".
Definition EventUp : string := "up".
Definition EventSwitch : string := "switch".
Definition eventCap : nat := 256.

Record Event := {
  At : Z;
  Kind : string;
  ID : string;
  Name : string;
  From : string;
  To : string;
  LatencyMS : Z
}.
Definition no_event : Event :=
  {| At := 0; Kind := ""; ID := ""; Name := ""; From := ""; To := ""; LatencyMS := 0 |}.

Record Monitor := mkMonitor {
  stats : gmap string stat;
  localFault : bool;
  demo : bool;
  interval : Z;
  timeoutMS : Z;
  events : list Event;
  evHead : nat;
  elected : gmap string string
}.
#[export] Instance eta_Monitor : Eta Monitor := fun m =>
  mkMonitor (stats m) (localFault m) (demo m) (interval m) (timeoutMS m) (events m) (evHead m)
    (elected m).

Definition Second : Z := 1000000000.
Definition NewMonitor (dm : bool) : Monitor := mkMonitor ∅ false dm (10 * Second) 5000 [] 0 ∅.

Definition pushEvent (e : Event) (m : Monitor) : Monitor :=
  if (length (events m) <? eventCap)%nat then m <| events := events m ++ [e] |>
  else m <| events := <[evHead m := e]> (events m) |>
         <| evHead := ((evHead m + 1) mod eventCap)%nat |>.

(** [Events]: an index out of range would be [None]. *)
Definition Events (m : Monitor) (limit : Z) : list (option Event) :=
  let n := length (events m) in
  if (n =? 0)%nat then []
  else
    let lim := if (limit <=? 0) || (Z.of_nat n <? limit) then n else Z.to_nat limit in
    map (fun i => events m !! ((evHead m + n - 1 - i) mod n)%nat) (seq 0 lim).

Definition EventCount (m : Monitor) : nat := length (events m).
Definition EventLogFull (m : Monitor) : bool := (eventCap <=? length (events m))%nat.
Definition OldestEventAt (m : Monitor) : Z :=
  if (length (events m) =? 0)%nat then 0
  else At (default no_event (events m !! (evHead m mod length (events m))%nat)).

Record RecentWindow := {
  rw_ID : string;
  rw_Name : string;
  rw_Samples : list bool;
  rw_IntervalS : Z;
  rw_Full : bool
}.

(** One entry of [RecentWindows]; the map's iteration order is the caller's. *)
Definition window_of (m : Monitor) (id : string) (s : stat) : option RecentWindow :=
  if (recentN s =? 0)%nat then None
  else
    let iv := Z.quot (interval m) Second in
    let start := if (recentN s =? healthWindow)%nat then recentPos s else 0%nat in
    Some {| rw_ID := id; rw_Name := name s;
            rw_IntervalS := if iv <? 1 then 1 else iv;
            rw_Full := (recentN s =? healthWindow)%nat;
            rw_Samples := map (fun i => s_ok (default no_sample (recent s !! ((start + i) mod healthWindow)%nat)))
                              (seq 0 (recentN s)) |}.

Definition RecentWindows (m : Monitor) : list RecentWindow :=
  omap (fun '(id, s) => window_of m id s) (map_to_list (stats m)).

(** [nameForLocked], [RecordSwitch]. *)
Definition nameForLocked (m : Monitor) (id : string) : string :=
  match stats m !! id with
  | Some s => if bool_decide (name s = "") then id else name s
  | None => id
  end.

Definition RecordSwitch (m : Monitor) (now : Z) (groupID nm from to : string) : Monitor :=
  if bool_decide (groupID = "") || bool_decide (to = "") then m
  else pushEvent {| At := now; Kind := "switch"; ID := groupID; Name := nm; From := from; To := to;
                    LatencyMS := 0 |} m.

#[local] Arguments Nat.modulo : simpl never.
#[local] Arguments Nat.min : simpl never.

(** ** The probe window *)
Record window_ok (s : stat) : Prop := {
  wo_len : length (recent s) = healthWindow;
  wo_pos : (recentPos s < healthWindow)%nat;
  wo_n : (recentN s <= healthWindow)%nat;
  wo_fill : (recentN s < healthWindow)%nat -> recentPos s = recentN s
}.

Definition window_start (s : stat) : nat :=
  if (recentN s =? healthWindow)%nat then recentPos s else 0%nat.

(** The window's outcomes, oldest first. *)
Definition window (s : stat) : list probeSample :=
  ring_view no_sample (recent s) (window_start s) (recentN s) healthWindow.

Lemma new_stat_window now : window_ok (new_stat now) /\ window (new_stat now) = [].
Proof. split; [split; simpl; unfold healthWindow; lia || done|done]. Qed.

Lemma pushSample_ok p s : window_ok s -> window_ok (pushSample p s).
Proof.
  intros [Hl Hp Hn Hf]. unfold pushSample. cbn [recentN set_field].
  change (recentN (s <| recent := _ |> <| recentPos := _ |>)) with (recentN s).
  assert (Hm : ((recentPos s + 1) mod healthWindow < healthWindow)%nat)
    by (apply Nat.mod_upper_bound; done).
  destruct (Nat.ltb_spec (recentN s) healthWindow) as [Hlt|Hge]; split; simpl;
    rewrite ?length_insert; try done; try lia.
  intros Hlt'. rewrite (Hf Hlt). rewrite Nat.mod_small by lia; lia.
Qed.

Lemma pushSample_window p s : window_ok s ->
  window (pushSample p s) =
    if (recentN s <? healthWindow)%nat then window s ++ [p] else tail (window s) ++ [p].
Proof.
  intros [Hl Hp Hn Hf]. unfold window, window_start, pushSample.
  change (recentN (s <| recent := _ |> <| recentPos := _ |>)) with (recentN s).
  destruct (Nat.ltb_spec (recentN s) healthWindow) as [Hlt|Hge]; cbn [recentN recentPos recent set_field].
  - change (recentN (s <| recent := _ |> <| recentPos := _ |> <| recentN := S (recentN s) |>)) with (S (recentN s)).
    change (recent (s <| recent := <[recentPos s := p]> (recent s) |> <| recentPos := _ |> <| recentN := S (recentN s) |>))
      with (<[recentPos s := p]> (recent s)).
    change (recentPos (s <| recent := _ |> <| recentPos := ((recentPos s + 1) mod healthWindow)%nat |> <| recentN := S (recentN s) |>))
      with ((recentPos s + 1) mod healthWindow)%nat.
    rewrite (Hf Hlt). destruct (Nat.eqb_spec (recentN s) healthWindow); [lia|].
    pose proof (ring_view_add no_sample (recent s) 0 (recentN s) healthWindow p Hl Hlt) as R.
    rewrite Nat.add_0_l, (Nat.mod_small (recentN s)) in R by lia.
    destruct (Nat.eqb_spec (S (recentN s)) healthWindow) as [E|E]; [|exact R].
    replace ((recentN s + 1) mod healthWindow)%nat with 0%nat; [exact R|].
    by rewrite Nat.add_1_r, E, Nat.Div0.mod_same.
  - assert (Hfull : recentN s = healthWindow) by lia.
    change (recentN (s <| recent := <[recentPos s := p]> (recent s) |> <| recentPos := ((recentPos s + 1) mod healthWindow)%nat |>)) with (recentN s).
    rewrite Hfull, Nat.eqb_refl. by apply ring_view_over.
Qed.

#[export] Instance window_log : BoundedLog stat probeSample :=
  {| bl_push := pushSample; bl_view := window; bl_inv := window_ok;
     bl_lo := fun _ => healthWindow; bl_hi := fun _ => healthWindow |}.

(** A ring that appends until full, then overwrites its oldest, keeps the promise. *)
Lemma ring_laws {A} (x : A) (v v' : list A) (n cap : nat) :
  length v = n -> (n <= cap)%nat -> v' = (if (n <? cap)%nat then v ++ [x] else tail v ++ [x]) ->
  v' `suffix_of` (v ++ [x]) /\ (cap `min` S (length v) <= length v')%nat.
Proof.
  intros Hl Hn ->. destruct (Nat.ltb_spec n cap); rewrite length_app; simpl.
  - split; [done|lia].
  - rewrite length_tl. split; [|destruct v; simpl in *; lia].
    destruct v as [|y v]; [by simpl|]. by exists [y].
Qed.

#[export] Instance window_log_laws : BoundedLogLaws stat probeSample.
Proof.
  split; simpl; try done.
  - apply pushSample_ok.
  - intros x s H. apply (ring_laws x (window s) _ (recentN s) healthWindow);
      [apply ring_view_length|apply H|by apply pushSample_window].
  - intros x s H. eapply (ring_laws x (window s) _ (recentN s) healthWindow);
      [apply ring_view_length|apply H|by apply pushSample_window].
  - intros s H. unfold window. rewrite ring_view_length. apply H.
Qed.

(** ** The event ring *)
Record log_ok (m : Monitor) : Prop := {
  lo_len : (length (events m) <= eventCap)%nat;
  lo_head : (evHead m < eventCap)%nat;
  lo_fill : (length (events m) < eventCap)%nat -> evHead m = 0%nat
}.

(** The log, oldest first. *)
Definition log (m : Monitor) : list Event :=
  ring_view no_event (events m) (evHead m) (length (events m)) eventCap.

Lemma log_flat m : log_ok m -> (length (events m) < eventCap)%nat -> log m = events m.
Proof.
  intros [Hl Hh Hf] Hlt. unfold log. rewrite (Hf Hlt). apply ring_view_flat. lia.
Qed.

Lemma pushEvent_ok e m : log_ok m -> log_ok (pushEvent e m).
Proof.
  intros [Hl Hh Hf]. unfold pushEvent.
  destruct (Nat.ltb_spec (length (events m)) eventCap) as [Hlt|Hge]; split; simpl;
    rewrite ?length_app, ?length_insert; simpl; try lia; try done.
  - by apply Nat.mod_upper_bound.
Qed.

Lemma pushEvent_log e m : log_ok m ->
  log (pushEvent e m) =
    if (length (events m) <? eventCap)%nat then log m ++ [e] else tail (log m) ++ [e].
Proof.
  intros Hok. pose proof Hok as [Hl Hh Hf]. unfold log at 1, pushEvent.
  destruct (Nat.ltb_spec (length (events m)) eventCap) as [Hlt|Hge]; simpl.
  - rewrite (log_flat m Hok Hlt), (Hf Hlt). apply ring_view_flat. rewrite length_app. simpl. lia.
  - rewrite length_insert. assert (E : length (events m) = eventCap) by lia. unfold log. rewrite E.
    by apply ring_view_over.
Qed.

#[export] Instance event_log : BoundedLog Monitor Event :=
  {| bl_push := pushEvent; bl_view := log; bl_inv := log_ok;
     bl_lo := fun _ => eventCap; bl_hi := fun _ => eventCap |}.

#[export] Instance event_log_laws : BoundedLogLaws Monitor Event.
Proof.
  split; simpl; try done.
  - apply pushEvent_ok.
  - intros x m H. apply (ring_laws x (log m) _ (length (events m)) eventCap);
      [apply ring_view_length|apply H|by apply pushEvent_log].
  - intros x m H. eapply (ring_laws x (log m) _ (length (events m)) eventCap);
      [apply ring_view_length|apply H|by apply pushEvent_log].
  - intros m H. unfold log. rewrite ring_view_length. apply H.
Qed.

(** Reading a list by index, from its start. *)
Lemma map_seq_lookup {A} (g : nat -> option A) (l : list A) k : (k <= length l)%nat ->
  (forall i, (i < k)%nat -> g i = l !! i) -> map g (seq 0 k) = map Some (take k l).
Proof.
  intros Hk Hg. induction k as [|k IH]; [done|]. rewrite seq_S, map_app, IH by (lia || auto).
  destruct (lookup_lt_is_Some_2 l k) as [x Hx]; [lia|].
  rewrite (take_S_r _ _ x) by done. rewrite map_app. simpl. by rewrite Hg, Hx by lia.
Qed.

Lemma log_lookup m i : log_ok m -> (i < length (events m))%nat ->
  events m !! ((evHead m + i) mod length (events m))%nat = log m !! i.
Proof.
  intros Hok Hi. pose proof Hok as [Hl Hh Hf].
  destruct (decide (length (events m) < eventCap)%nat) as [Hlt|Hge].
  - rewrite (log_flat m Hok Hlt), (Hf Hlt). by rewrite Nat.mod_small by lia.
  - assert (E : length (events m) = eventCap) by lia. unfold log. rewrite E in *.
    rewrite ring_view_nth; [done|done|lia|unfold eventCap; lia].
Qed.

Lemma Events_log m limit : log_ok m ->
  Events m limit =
    map Some (take (if limit <=? 0 then length (log m) else Z.to_nat limit) (rev (log m))).
Proof.
  intros Hok. unfold Events. assert (Hlen : length (log m) = length (events m)) by apply ring_view_length.
  destruct (Nat.eqb_spec (length (events m)) 0) as [E|E].
  { rewrite E in Hlen. apply nil_length_inv in Hlen. rewrite Hlen. by destruct (if _ : bool then _ else _). }
  set (n := length (events m)) in *. set (lim := if _ : bool then n else _).
  assert (Hlim : (lim <= n)%nat).
  { unfold lim. destruct (Z.leb_spec limit 0), (Z.ltb_spec (Z.of_nat n) limit); simpl; lia. }
  transitivity (map Some (take lim (rev (log m)))).
  - apply map_seq_lookup; [rewrite length_rev; lia|]. intros i Hi.
    replace (evHead m + n - 1 - i)%nat with (evHead m + (n - 1 - i))%nat by lia.
    unfold n. rewrite log_lookup by (done || lia). fold n.
    rewrite rev_alt. change (rev_append ?l []) with (reverse l).
    rewrite reverse_lookup by lia. f_equal. lia.
  - f_equal. unfold lim.
    destruct (Z.leb_spec limit 0), (Z.ltb_spec (Z.of_nat n) limit); simpl; try (f_equal; lia).
    rewrite !take_ge; [done|rewrite length_rev; lia..].
Qed.

(** The failover log is the recent history. After any events, Events returns the newest first, the
    last 256 of them or as many as asked for; the count, the full flag and the oldest timestamp agree
    with that, and no index is out of range. *)
Theorem Events_after_history dm es limit :
  let m := bl_pushes es (NewMonitor dm) in
  let kept := last_n eventCap es in
  Events m limit = map Some (take (if limit <=? 0 then eventCap else Z.to_nat limit) (rev kept)) /\
  EventCount m = length kept /\
  EventLogFull m = (eventCap <=? length es)%nat /\
  OldestEventAt m = (match kept with [] => 0 | e :: _ => At e end).
Proof.
  intros m kept.
  assert (Hok0 : log_ok (NewMonitor dm)) by (split; simpl; unfold eventCap; lia || done).
  destruct (@bl_pushes_frame Monitor Event _ event_log_laws es _ Hok0) as (Hok & _ & _).
  pose proof (@bl_pushes_exact Monitor Event _ event_log_laws es (NewMonitor dm) Hok0 eq_refl eq_refl) as Hv.
  change (log m = kept) in Hv. change (log_ok m) in Hok.
  assert (Hlen : length (events m) = length kept)
    by (rewrite <- Hv; symmetry; apply ring_view_length).
  assert (Hk : length kept = (eventCap `min` length es)%nat) by apply last_n_length.
  split_and!.
  - rewrite (Events_log m limit Hok), Hv. f_equal. destruct (limit <=? 0); [|done].
    rewrite !take_ge; [done|rewrite length_rev; lia..].
  - exact Hlen.
  - unfold EventLogFull. rewrite Hlen, Hk.
    destruct (Nat.leb_spec eventCap (eventCap `min` length es)), (Nat.leb_spec eventCap (length es)); lia.
  - unfold OldestEventAt. rewrite Hlen. destruct kept as [|e l] eqn:Ek; [done|].
    simpl (length _ =? 0)%nat. cbn iota.
    pose proof (log_lookup m 0 Hok ltac:(rewrite Hlen; simpl; lia)) as Hl.
    rewrite Nat.add_0_r, Hlen in Hl. simpl length in *. rewrite Hl, Hv. done.
Qed.
