(* ===== verification/HealthMonitor.v ===== *)
(** * Health monitor: probes to committed states

    Models [src/internal/health/monitor.go] and the election half of [events.go]: [record] with its
    hysteresis, the local-fault gate, group derivation, traffic accounting, election sampling and
    the tick that composes them. Probing itself (ping through an interface, the Clash delay test) is
    an argument. *)
From S2P Require Import Prelude Util BoundedLog FailoverController FailoverRunner HealthLog.
Local Open Scope Z_scope.
Local Open Scope go_scope.

(** ** Recording a probe *)

(** The switch on the probe's outcome. *)
Definition count_outcome (s : stat) (st : State) (latency : Z) : stat :=
  match st with
  | Alive =>
      pushSample (mkSample true latency)
        (s <| ok := ok s +! 1 |> <| sumLatency := sumLatency s +! latency |>
           <| lastLatency := latency |> <| consecFail := 0 |> <| consecOK := consecOK s +! 1 |>)
  | Down =>
      pushSample (mkSample false 0)
        (s <| fail := fail s +! 1 |> <| consecFail := consecFail s +! 1 |> <| consecOK := 0 |>)
  | Unknown => s
  end.

(** The switch on the thresholds: the state to commit. *)
Definition commit_state (dm : bool) (s : stat) (st : State) : State :=
  let downThreshold := if dm then 1 else flapThreshold in
  let upThreshold := if dm then 1 else aliveThreshold in
  if bool_decide (st = Down) && (consecFail s <? downThreshold) then state s
  else if bool_decide (st = Alive) && bool_decide (state s = Down) && (consecOK s <? upThreshold)
  then state s
  else if bool_decide (st = Unknown) && negb (bool_decide (state s = Unknown)) then state s
  else st.

Definition eventKindFor (from to : State) : string :=
  match to, from with
  | Down, Alive | Down, Unknown => EventDown
  | Alive, Down => EventUp
  | _, _ => ""
  end.

Definition seen (s : stat) (nm kd : string) (now : Z) : stat :=
  s <| name := if bool_decide (nm = "") then name s else nm |>
    <| kind := if bool_decide (kd = "") then kind s else kd |>
    <| probes := probes s +! 1 |> <| lastProbe := now |>.

Definition transition_event (id : string) (s : stat) (commit : State) (latency now : Z) : Event :=
  {| At := now; Kind := eventKindFor (state s) commit; ID := id; Name := name s;
     From := state_string (state s); To := state_string commit; LatencyMS := latency |}.

Definition record (m : Monitor) (id nm kd : string) (st : State) (latency now : Z) : Monitor :=
  let s := default (new_stat now) (stats m !! id) in
  let s1 := count_outcome (seen s nm kd now) st latency in
  let commit := commit_state (demo m) s1 st in
  if bool_decide (commit = state s1) then m <| stats := <[id := s1]> (stats m) |>
  else
    let s2 := if bool_decide (commit = Alive) && bool_decide (state s1 = Down)
              then s1 <| reconnects := reconnects s1 +! 1 |> else s1 in
    let m1 := if bool_decide (eventKindFor (state s1) commit = "") then m
              else pushEvent (transition_event id s1 commit latency now) m in
    m1 <| stats := <[id := s2 <| state := commit |> <| lastChange := now |>]> (stats m) |>.

(** ** The local-fault gate and group derivation *)
Record target := mkTarget {
  t_id : string; t_name : string; t_kind : string; t_testURL : string; t_iface : string
}.

Fixpoint count_down (l : list (target * State)) (definite : nat) : bool :=
  match l with
  | [] => (2 <=? definite)%nat
  | (tg, st) :: l' =>
      if negb (bool_decide (t_kind tg = "endpoint")) then count_down l' definite
      else match st with
           | Alive => false
           | Down => count_down l' (S definite)
           | Unknown => count_down l' definite
           end
  end.
Definition allEndpointsDown (tgs : list target) (states : list State) : bool :=
  count_down (combine tgs states) 0.

Record Group := mkGroup { g_ID : string; g_Name : string; g_Members : list string; g_TestURL : string }.

Record derivedHealth := mkDerived { d_state : State; d_latency : Z }.
#[export] Instance derivedHealth_eq_dec : EqDecision derivedHealth.
Proof. solve_decision. Defined.

Definition OutboundDirect : string := "direct".

(** One group's health from its members': the first alive one, else down if any is. *)
Fixpoint derive (byID : gmap string derivedHealth) (members : list string)
    (next : derivedHealth) (anyDown : bool) : derivedHealth :=
  match members with
  | [] => if negb (bool_decide (d_state next = Alive)) && anyDown then mkDerived Down 0 else next
  | member :: ms =>
      match byID !! member with
      | None => derive byID ms next anyDown
      | Some mh =>
          match d_state mh with
          | Alive => derive byID ms (if bool_decide (d_state next = Alive) then next else mh) anyDown
          | Down => derive byID ms next true
          | Unknown => derive byID ms next anyDown
          end
      end
  end.

Definition derive_group (byID : gmap string derivedHealth) (g : Group) : derivedHealth :=
  derive byID (g_Members g) (mkDerived Unknown 0) false.

(** One pass over the groups, updating as it goes; and the passes, at most one per group. *)
Definition derive_one (acc : gmap string derivedHealth * bool) (g : Group)
    : gmap string derivedHealth * bool :=
  let '(byID, changed) := acc in
  let next := derive_group byID g in
  if bool_decide (byID !! g_ID g = Some next) then (byID, changed)
  else (<[g_ID g := next]> byID, true).

Definition derive_pass (groups : list Group) (byID : gmap string derivedHealth)
    : gmap string derivedHealth * bool := fold_left derive_one groups (byID, false).

Fixpoint derive_passes (n : nat) (groups : list Group) (byID : gmap string derivedHealth)
    : gmap string derivedHealth :=
  match n with
  | O => byID
  | S n' =>
      let '(byID', changed) := derive_pass groups byID in
      if changed then derive_passes n' groups byID' else byID'
  end.

(** What derivation starts from: the endpoints' committed states, [direct], and no group's. *)
Definition seed (m : Monitor) (groups : list Group) : gmap string derivedHealth :=
  let endpoints := omap (fun s => if bool_decide (kind s = "group") then None
                                  else Some (mkDerived (state s) (lastLatency s))) (stats m) in
  fold_left (fun acc g => <[g_ID g := mkDerived Unknown 0]> acc) groups
    (<[OutboundDirect := mkDerived Alive 0]> endpoints).

Definition derived (m : Monitor) (groups : list Group) : gmap string derivedHealth :=
  derive_passes (length groups) groups (seed m groups).

Definition recordDerivedGroups (m : Monitor) (groups : list Group) (now : Z) : Monitor :=
  match groups with
  | [] => m
  | _ =>
      let byID := derived m groups in
      fold_left (fun m g =>
        let h := default (mkDerived Unknown 0) (byID !! g_ID g) in
        record m (g_ID g) (g_Name g) "group" (d_state h) (d_latency h) now) groups m
  end.

(** The probe results of one tick, per target: its state and latency. *)
Definition record_target (fault : bool) (now : Z) (m : Monitor) (r : target * (State * Z)) : Monitor :=
  let '(tg, (st, lat)) := r in
  if negb (bool_decide (t_kind tg = "endpoint")) then m
  else if fault && bool_decide (st = Down) then m
  else record m (t_id tg) (t_name tg) (t_kind tg) st lat now.

Definition applyResultsWithGroups (m : Monitor) (tgs : list target) (groups : list Group)
    (results : list (State * Z)) (now : Z) : Monitor :=
  let fault := allEndpointsDown tgs (map fst results) in
  let m1 := m <| localFault := fault |> in
  let m2 := fold_left (record_target fault now) (combine tgs results) m1 in
  recordDerivedGroups m2 groups now.

Definition applyResults (m : Monitor) (tgs : list target) (results : list (State * Z)) (now : Z)
    : Monitor := applyResultsWithGroups m tgs [] results now.

Definition LocalFault (m : Monitor) : bool := localFault m.

(** ** The failover loop's view *)
Definition MemberHealth_ (m : Monitor) (ids : list string) : list MemberHealth :=
  map (fun id =>
    if bool_decide (id = "direct") then {| mh_ID := id; mh_Alive := true; mh_LatencyMs := 0 |}
    else match stats m !! id with
         | Some s => {| mh_ID := id; mh_Alive := bool_decide (state s = Alive);
                        mh_LatencyMs := lastLatency s |}
         | None => {| mh_ID := id; mh_Alive := false; mh_LatencyMs := 0 |}
         end) ids.

(** The monitor is what the failover runner reads. *)
#[export] Instance monitor_health_source : HealthSource Monitor.
Proof.
  refine {| MemberHealth_of := MemberHealth_ |}. intros m ids. unfold MemberHealth_.
  rewrite map_map. rewrite <- (map_id ids) at 2. apply map_ext. intros id. by repeat case_match.
Defined.

Definition pruneStats (m : Monitor) (tgs : list target) : Monitor :=
  m <| stats := filter (fun p => p.1 ∈ map t_id tgs) (stats m) |>.

(** ** Traffic *)
Definition rate_of (delta dt_ms : Z) : Z :=
  f64_trunc (f64_div (f64_of_int64 delta) (f64_div (f64_of_int64 dt_ms) (f64_of_int64 1000))).

Definition addCumulativeTraffic (s : stat) (up down now : Z) : stat :=
  let s1 :=
    if (0 <? lastConnSample s) && (lastConnSample s <? now) then
      let dt := now -! lastConnSample s in
      let du := up -! activeUp s in
      let s1 := if 0 <? du then s <| rateUp := rate_of du dt |> <| totalUp := totalUp s +! du |>
                else s <| rateUp := 0 |> in
      let dd := down -! activeDown s1 in
      if 0 <? dd then s1 <| rateDown := rate_of dd dt |> <| totalDown := totalDown s1 +! dd |>
      else s1 <| rateDown := 0 |>
    else s in
  s1 <| activeUp := up |> <| activeDown := down |> <| lastConnSample := now |>.

(** A Clash connection: its tags, its byte counts. The poll is [None] when it failed (or there is no
    client); an interface's counters are [None] when it cannot be read. *)
Record connection := { Chains : list string; Upload : Z; Download : Z }.

Definition add_connection (agg : gmap string (Z * Z)) (c : connection) : gmap string (Z * Z) :=
  fold_left (fun agg tag =>
    let v := default (0, 0) (agg !! tag) in
    <[tag := (v.1 +! Upload c, v.2 +! Download c)]> agg) (Chains c) agg.

Definition has_iface (tg : target) : bool :=
  bool_decide (t_kind tg = "endpoint") && negb (bool_decide (t_iface tg = "")).

Definition kernelIface (tgs : list target) (id : string) : bool :=
  existsb (fun tg => has_iface tg && bool_decide (t_id tg = id)) tgs.

Definition aggregate (conns : option (list connection)) (ifaceBytes : string -> option (Z * Z))
    (tgs : list target) : gmap string (Z * Z) :=
  let agg := match conns with Some cs => fold_left add_connection cs ∅ | None => ∅ end in
  fold_left (fun agg tg =>
    if has_iface tg then
      match ifaceBytes (t_iface tg) with
      | Some (rx, tx) => <[t_id tg := (tx, rx)]> agg
      | None => agg
      end
    else agg) tgs agg.

(** A target that contributed no bytes this tick. *)
Definition decay (clashOK kernel : bool) (s : stat) (now : Z) : stat :=
  let s1 := s <| rateUp := 0 |> <| rateDown := 0 |> in
  if negb clashOK && negb kernel then s1
  else s1 <| activeUp := 0 |> <| activeDown := 0 |> <| lastConnSample := now |>.

Definition sampleTraffic (m : Monitor) (conns : option (list connection))
    (ifaceBytes : string -> option (Z * Z)) (tgs : list target) (now : Z) : Monitor :=
  let agg := aggregate conns ifaceBytes tgs in
  m <| stats := map_imap (fun id s => Some
         match agg !! id with
         | Some (up, down) => addCumulativeTraffic s up down now
         | None => decay (bool_decide (is_Some conns)) (kernelIface tgs id) s now
         end) (stats m) |>.

(** ** Elections *)
Definition sample_group (proxies : gmap string string) (now : Z) (m : Monitor) (g : Group) : Monitor :=
  match proxies !! g_ID g with
  | Some pNow =>
      if bool_decide (pNow = "") then m
      else
        let m1 := m <| elected := <[g_ID g := pNow]> (elected m) |> in
        match elected m !! g_ID g with
        | None => m1
        | Some prev =>
            if bool_decide (prev = pNow) then m1
            else pushEvent {| At := now; Kind := EventSwitch; ID := g_ID g; Name := g_Name g;
                              From := nameForLocked m1 prev; To := nameForLocked m1 pNow;
                              LatencyMS := 0 |} m1
        end
  | None => m
  end.

Definition readable (proxies : gmap string string) (id : string) : Prop :=
  exists p, proxies !! id = Some p /\ p <> "".
#[export] Instance readable_dec proxies id : Decision (readable proxies id).
Proof.
  destruct (proxies !! id) as [p|] eqn:E.
  - destruct (decide (p = "")) as [->|Hp]; [right|left].
    + intros (q & Hq & Hn). by simplify_eq.
    + by exists p.
  - right. intros (q & Hq & _). congruence.
Defined.

(** [proxies]: each group's [now] at the core, [None] when the core could not be read. *)
Definition sampleElection (m : Monitor) (proxies : option (gmap string string))
    (groups : list Group) (now : Z) : Monitor :=
  match proxies with
  | None => m
  | Some ps =>
      let m1 := fold_left (sample_group ps now) groups m in
      m1 <| elected := filter (fun p => p.1 ∈ map g_ID groups /\ readable ps p.1) (elected m1) |>
  end.

(** ** Probing and the tick *)

Record Endpoint := {
  e_ID : string;
  e_Name : string;
  e_Engine : string;
  e_Enabled : bool;
  e_interface : string;      (* params["interface"], "" when absent or not a string *)
  e_HealthURL : string       (* "" without a Health *)
}.
Definition EngineAmneziaWG : string := "amneziawg".
Definition EngineSingBox : string := "singbox".

Record Profile := { Endpoints : list Endpoint; Groups : list Group }.

(** [native]: the applied interface bindings, [None] when they are not known. *)
Definition EndpointIface (e : Endpoint) (native : option (gmap string string)) : string :=
  match native with
  | Some b => default "" (b !! e_ID e)
  | None =>
      if bool_decide (e_interface e = "") && bool_decide (e_Engine e = EngineAmneziaWG)
      then AWGIface (e_ID e) else e_interface e
  end.

Definition targetsFrom (native : option (gmap string string)) (p : Profile) : list target :=
  omap (fun e => if e_Enabled e
                 then Some (mkTarget (e_ID e) (e_Name e) "endpoint" (e_HealthURL e) (EndpointIface e native))
                 else None) (Endpoints p) ++
  map (fun g => mkTarget (g_ID g) (g_Name g) "group" (g_TestURL g) "") (Groups p).

(** What a probe meets: the ping through an interface ([alive], the milliseconds, and whether it ran
    at all), and the Clash delay test. *)
Inductive delay_result := DelayMs (ms : Z) | DelayProxyDown | DelayError.
Record network := {
  ping : string -> string -> bool * Z * bool;             (* interface, health URL *)
  delay : option (string -> string -> Z -> delay_result)  (* nil client; proxy, URL, timeout *)
}.
Definition default_testURL : string := "http://cp.cloudflare.com/generate_204".

Definition probe (m : Monitor) (net : network) (id testURL iface : string) : State * Z :=
  if negb (bool_decide (iface = "")) then
    let '(alive, ms, ran) := ping net iface testURL in
    if negb ran then (Unknown, 0) else if alive then (Alive, ms) else (Down, 0)
  else match delay net with
       | None => (Unknown, 0)
       | Some d =>
           match d id (if bool_decide (testURL = "") then default_testURL else testURL) (timeoutMS m) with
           | DelayMs ms => (Alive, ms)
           | DelayProxyDown => (Down, 0)
           | DelayError => (Unknown, 0)
           end
       end.

Record tick_env := {
  te_profile : Profile;
  te_native : option (gmap string string);
  te_net : network;
  te_expired : bool;                       (* the tick's context ended before the probes did *)
  te_conns : option (list connection);
  te_ifaceBytes : string -> option (Z * Z);
  te_proxies : option (gmap string string);
  te_now : Z;
  te_now_election : Z
}.

(** [tick] outside demo mode. *)
Definition tick (m : Monitor) (e : tick_env) : Monitor :=
  let tgs := targetsFrom (te_native e) (te_profile e) in
  let results := map (fun tg => if bool_decide (t_kind tg = "group") then (Unknown, 0)
                                else probe m (te_net e) (t_id tg) (t_testURL tg) (t_iface tg)) tgs in
  if te_expired e then m
  else
    let m1 := applyResultsWithGroups m tgs (Groups (te_profile e)) results (te_now e) in
    let m2 := sampleTraffic m1 (te_conns e) (te_ifaceBytes e) tgs (te_now e) in
    let m3 := sampleElection m2 (te_proxies e) (Groups (te_profile e)) (te_now_election e) in
    pruneStats m3 tgs.

(** ** What [record] does to its target's statistics *)
Definition stat_step (dm : bool) (s : stat) (nm kd : string) (st : State) (latency now : Z) : stat :=
  let s1 := count_outcome (seen s nm kd now) st latency in
  let commit := commit_state dm s1 st in
  if bool_decide (commit = state s1) then s1
  else (if bool_decide (commit = Alive) && bool_decide (state s1 = Down)
        then s1 <| reconnects := reconnects s1 +! 1 |> else s1)
         <| state := commit |> <| lastChange := now |>.

Lemma pushEvent_stats e m : stats (pushEvent e m) = stats m /\ demo (pushEvent e m) = demo m /\
  elected (pushEvent e m) = elected m /\ localFault (pushEvent e m) = localFault m.
Proof. unfold pushEvent. by case_match. Qed.

Lemma record_stats m id nm kd st lat now :
  stats (record m id nm kd st lat now) =
    <[id := stat_step (demo m) (default (new_stat now) (stats m !! id)) nm kd st lat now]> (stats m).
Proof. unfold record, stat_step. by repeat case_match. Qed.

Lemma record_demo m id nm kd st lat now : demo (record m id nm kd st lat now) = demo m.
Proof.
  unfold record. repeat case_match; simpl; try done; by destruct (pushEvent_stats (transition_event id
    (count_outcome (seen (default (new_stat now) (stats m !! id)) nm kd now) st lat)
    (commit_state (demo m) (count_outcome (seen (default (new_stat now) (stats m !! id)) nm kd now) st lat) st)
    lat now) m) as (_ & -> & _).
Qed.

(** The committed state of a target, [Unknown] when it has none. *)
Definition state_of (m : Monitor) (id : string) : State := from_option state Unknown (stats m !! id).

Lemma count_outcome_fields s st lat :
  let s' := count_outcome s st lat in
  state s' = state s /\ name s' = name s /\ kind s' = kind s /\ reconnects s' = reconnects s /\
  consecFail s' = (match st with Alive => 0 | Down => consecFail s +! 1 | Unknown => consecFail s end) /\
  consecOK s' = (match st with Alive => consecOK s +! 1 | Down => 0 | Unknown => consecOK s end).
Proof.
  destruct s, st; unfold count_outcome, pushSample; cbn; try (split_and!; reflexivity);
    case_match; split_and!; reflexivity.
Qed.

Lemma stat_step_state dm s nm kd st lat now :
  state (stat_step dm s nm kd st lat now) =
    commit_state dm (count_outcome (seen s nm kd now) st lat) st.
Proof.
  unfold stat_step. case_bool_decide as E; [done|]. by case_match.
Qed.

Lemma stat_step_consec dm s nm kd st lat now :
  let s' := stat_step dm s nm kd st lat now in
  let s1 := count_outcome (seen s nm kd now) st lat in
  consecFail s' = consecFail s1 /\ consecOK s' = consecOK s1.
Proof. unfold stat_step. cbv zeta. case_match; [done|]. by case_match. Qed.

(** ** Hysteresis: the committed state is the last confirmed verdict

    The definite outcomes of a target, newest first: the state is that of the latest two equal
    outcomes in a row; before any, the first answer brings it up. Probes that established nothing
    count for nothing. *)
Fixpoint verdict (r : list bool) : State :=
  match r with
  | [] => Unknown
  | a :: r' =>
      match r' with
      | [] => if a then Alive else Unknown
      | b :: r'' => if Bool.eqb a b then (if a then Alive else Down)
                    else match r'' with [] => Alive | _ => verdict r' end
      end
  end.

Definition outcome (st : State) : option bool :=
  match st with Alive => Some true | Down => Some false | Unknown => None end.

(** The length of the run of [b] the history ends with. *)
Fixpoint streak (b : bool) (r : list bool) : Z :=
  match r with [] => 0 | a :: r' => if Bool.eqb a b then 1 + streak b r' else 0 end.

Lemma streak_bounds b r : 0 <= streak b r <= Z.of_nat (length r).
Proof. induction r as [|a r IH]; simpl; [lia|]. destruct (Bool.eqb a b); lia. Qed.

Record tracks (s : stat) (r : list bool) : Prop := {
  tr_state : state s = verdict r;
  tr_fail : consecFail s = streak false r;
  tr_ok : consecOK s = streak true r
}.

Lemma verdict_definite a b r : verdict (a :: b :: r) <> Unknown.
Proof.
  revert a b. induction r as [|c r IH]; intros a b; simpl; [by destruct a, b|].
  destruct (Bool.eqb a b); [by destruct a|]. apply (IH b c).
Qed.

Lemma verdict_flip a b c r : a <> b -> verdict (a :: b :: c :: r) = verdict (b :: c :: r).
Proof. by destruct a, b. Qed.

Lemma stat_step_tracks s r nm kd st lat now : tracks s r -> Z.of_nat (length r) < 2 ^ 62 ->
  tracks (stat_step false s nm kd st lat now)
         (match outcome st with Some b => b :: r | None => r end).
Proof.
  intros [Hs Hf Ho] Hlen.
  destruct (stat_step_consec false s nm kd st lat now) as [Hcf Hco]. cbv zeta in *.
  destruct (count_outcome_fields (seen s nm kd now) st lat) as (Hst & _ & _ & _ & Hf1 & Ho1).
  change (state (seen s nm kd now)) with (state s) in Hst.
  change (consecFail (seen s nm kd now)) with (consecFail s) in Hf1.
  change (consecOK (seen s nm kd now)) with (consecOK s) in Ho1.
  pose proof (streak_bounds false r). pose proof (streak_bounds true r).
  assert (Hw : forall z, 0 <= z <= Z.of_nat (length r) -> wrap64 (z + 1) = z + 1)
    by (intros; apply wrap64_id; unfold is_int64, min_int64, max_int64; lia).
  split.
  - rewrite stat_step_state. unfold commit_state, flapThreshold, aliveThreshold. rewrite Hst, Hf1, Ho1, Hs.
    rewrite Hf, Ho. destruct st; cbn [outcome].
    + rewrite Hw by done. destruct r as [|[] [|c r]]; [done|done| |done|].
      * cbn [streak Bool.eqb]. pose proof (streak_bounds true (c :: r)) as Hb. cbn [streak] in Hb.
        set (k := if Bool.eqb c true then _ else 0) in *.
        destruct (Z.ltb_spec (1 + k + 1) 2); [lia|]. rewrite !andb_false_r. done.
      * rewrite (verdict_flip true false c r) by done. pose proof (verdict_definite false c r).
        by destruct (verdict (false :: c :: r)).
    + rewrite Hw by done. destruct r as [|[] [|c r]]; [done|done| |done|].
      * rewrite (verdict_flip false true c r) by done. done.
      * cbn [streak Bool.eqb]. pose proof (streak_bounds false (c :: r)) as Hb. cbn [streak] in Hb.
        set (k := if Bool.eqb c false then _ else 0) in *.
        destruct (Z.ltb_spec (1 + k + 1) 2); [lia|]. done.
    + by destruct (verdict r).
  - rewrite Hcf, Hf1, Hf. destruct st; simpl; [done| |done]. rewrite Hw by done. lia.
  - rewrite Hco, Ho1, Ho. destruct st; simpl; [|done|done]. rewrite Hw by done. lia.
Qed.

(** A sequence of probe results, of any targets. *)
Record result := mkResult {
  r_id : string; r_name : string; r_kind : string; r_state : State; r_latency : Z; r_now : Z
}.
Definition record_all (m : Monitor) (rs : list result) : Monitor :=
  fold_left (fun m r => record m (r_id r) (r_name r) (r_kind r) (r_state r) (r_latency r) (r_now r)) rs m.

(** The definite outcomes of [id], newest first. *)
Definition outcomes (id : string) (rs : list result) : list bool :=
  reverse (omap (fun r => if bool_decide (r_id r = id) then outcome (r_state r) else None) rs).

Lemma record_all_demo m rs : demo (record_all m rs) = demo m.
Proof.
  unfold record_all. revert m. induction rs as [|r rs IH]; intros m; [done|]. simpl.
  rewrite IH. apply record_demo.
Qed.

Lemma new_stat_tracks now : tracks (new_stat now) [].
Proof. by split. Qed.

(** C32: hysteresis. After any sequence of probe results, of any targets, interleaved in any way, a
    target's committed state is the last outcome it gave twice in a row (two dropped probes confirm
    an outage, two answers a recovery); until then, the first answer brings it up; a probe that
    could not run changes nothing. *)
Theorem state_is_last_confirmed rs id :
  Z.of_nat (length rs) < 2 ^ 62 ->
  state_of (record_all (NewMonitor false) rs) id = verdict (outcomes id rs).
Proof.
  intros Hlen.
  enough (H : match stats (record_all (NewMonitor false) rs) !! id with
              | Some s => tracks s (outcomes id rs)
              | None => outcomes id rs = []
              end).
  { unfold state_of. destruct (stats _ !! id); simpl; [apply H|by rewrite H]. }
  induction rs as [|r rs IH] using rev_ind; [done|].
  rewrite length_app in Hlen. simpl in Hlen. specialize (IH ltac:(lia)).
  pose proof (record_all_demo (NewMonitor false) rs) as Hdm.
  unfold record_all in *. rewrite fold_left_app. simpl. rewrite record_stats, Hdm.
  set (m := fold_left _ rs _) in *. unfold outcomes in *. rewrite omap_app, reverse_app.
  cbn [omap list_omap]. destruct (bool_decide (r_id r = id)) eqn:E.
  - apply bool_decide_eq_true in E. rewrite E, lookup_insert_eq. cbn [demo NewMonitor].
    set (outs := reverse (omap _ rs)) in *.
    assert (Htr : tracks (default (new_stat (r_now r)) (stats m !! id)) outs).
    { destruct (stats m !! id); simpl; [done|]. rewrite IH. apply new_stat_tracks. }
    assert (Hol : Z.of_nat (length outs) < 2 ^ 62).
    { unfold outs. rewrite length_reverse.
      pose proof (length_omap_le (fun r0 => if bool_decide (r_id r0 = id) then outcome (r_state r0) else None) rs).
      lia. }
    pose proof (stat_step_tracks _ outs (r_name r) (r_kind r) (r_state r) (r_latency r) (r_now r) Htr Hol).
    by destruct (outcome (r_state r)).
  - apply bool_decide_eq_false in E. rewrite lookup_insert_ne by done. exact IH.
Qed.

(** The log has exactly the confirmed crossings. Recording a probe logs one event when the target
    goes down, one when it comes back (counting a reconnect), each naming the states it moved
    between, and nothing otherwise; no other target's statistics change. *)
Theorem record_logs_crossings m id nm kd st lat now :
  let m' := record m id nm kd st lat now in
  let from := state_of m id in
  let to := state_of m' id in
  let reconnects_of m := from_option reconnects 0 (stats m !! id) in
  (forall id', id' <> id -> stats m' !! id' = stats m !! id') /\
  (to = from \/ to = st) /\
  match eventKindFor from to with
  | "" => events m' = events m /\ evHead m' = evHead m /\ reconnects_of m' = reconnects_of m
  | k =>
      exists e, events m' = events (pushEvent e m) /\ evHead m' = evHead (pushEvent e m) /\
        Kind e = k /\ ID e = id /\ At e = now /\ LatencyMS e = lat /\
        From e = state_string from /\ To e = state_string to /\
        reconnects_of m' = (if bool_decide (to = Alive) then reconnects_of m +! 1 else reconnects_of m)
  end%string.
Proof.
  intros m' from to rc. unfold to, m', rc. unfold state_of. rewrite record_stats.
  split; [intros id' Hne; by rewrite lookup_insert_ne|]. rewrite lookup_insert_eq.
  change (from_option ?f ?d (Some ?x)) with (f x).
  set (s0 := default (new_stat now) (stats m !! id)).
  assert (Hfrom : state s0 = from /\ reconnects s0 = rc m)
    by (unfold s0, from, rc, state_of; by destruct (stats m !! id)).
  destruct Hfrom as [Hfrom Hrc]. rewrite stat_step_state.
  set (s1 := count_outcome (seen s0 nm kd now) st lat).
  destruct (count_outcome_fields (seen s0 nm kd now) st lat) as (Hs & _ & _ & Hr & _ & _).
  fold s1 in Hs, Hr. change (state (seen s0 nm kd now)) with (state s0) in Hs.
  change (reconnects (seen s0 nm kd now)) with (reconnects s0) in Hr.
  set (c := commit_state (demo m) s1 st).
  split; [unfold c, commit_state; rewrite Hs, <- Hfrom; repeat case_match; auto|].
  unfold record, stat_step. fold s0. fold s1. fold c. rewrite <- Hfrom, <- Hs.
  destruct (bool_decide (c = state s1)) eqn:Ec.
  - apply bool_decide_eq_true in Ec. rewrite Ec.
    assert (eventKindFor (state s1) (state s1) = "") as -> by (by destruct (state s1)).
    simpl. split_and!; [done|done|]. by rewrite Hr, Hrc.
  - apply bool_decide_eq_false in Ec.
    destruct (state s1) eqn:E1, c eqn:E2; try done; simpl; try (split_and!; [done|done|by rewrite Hr, Hrc]);
      (eexists; split_and!; [reflexivity|reflexivity|..]; try done;
       first [by (unfold transition_event; simpl; rewrite E1)|by rewrite Hr, Hrc]).
Qed.

(** ** The local-fault gate *)
Lemma commit_unknown dm s : commit_state dm s Unknown = state s.
Proof. unfold commit_state. simpl. by destruct (state s). Qed.

Lemma record_state m id nm kd st lat now id' :
  id' <> id \/ st = Unknown -> state_of (record m id nm kd st lat now) id' = state_of m id'.
Proof.
  intros H. unfold state_of. rewrite record_stats. destruct (decide (id = id')) as [->|Hne].
  - destruct H as [?| ->]; [done|]. rewrite lookup_insert_eq. change (from_option ?f ?d (Some ?x)) with (f x).
    rewrite stat_step_state, commit_unknown. simpl. by destruct (stats m !! id').
  - by rewrite lookup_insert_ne.
Qed.

Lemma count_down_no_alive l n tg st :
  count_down l n = true -> (tg, st) ∈ l -> t_kind tg = "endpoint" -> st <> Alive.
Proof.
  revert n. induction l as [|[tg' st'] l IH]; intros n; [intros _ H; by apply elem_of_nil in H|].
  simpl. intros Hc [E|H]%elem_of_cons Hk.
  - simplify_eq. rewrite bool_decide_true in Hc by done. simpl in Hc. by destruct st'.
  - destruct (bool_decide (t_kind tg' = "endpoint")); simpl in Hc; [destruct st'; [done|..]|]; by eapply IH.
Qed.

Lemma combine_fst (tgs : list target) (results : list (State * Z)) tg st lat :
  (tg, (st, lat)) ∈ combine tgs results -> (tg, st) ∈ combine tgs (map fst results).
Proof.
  revert results. induction tgs as [|t tgs IH]; intros [|r results]; simpl;
    try (intros H; by apply elem_of_nil in H).
  rewrite !elem_of_cons. intros [E|H]; [left; by simplify_eq|right; by apply IH].
Qed.

Lemma record_groups_other (f : Group -> derivedHealth) gs now m id :
  id ∉ map g_ID gs ->
  stats (fold_left (fun m g => record m (g_ID g) (g_Name g) "group" (d_state (f g)) (d_latency (f g)) now) gs m) !! id
    = stats m !! id.
Proof.
  revert m. induction gs as [|g gs IH]; intros m Hid; [done|]. simpl in *.
  rewrite IH by set_solver. rewrite record_stats, lookup_insert_ne by set_solver. done.
Qed.

Lemma recordDerivedGroups_other m gs now id : id ∉ map g_ID gs ->
  stats (recordDerivedGroups m gs now) !! id = stats m !! id.
Proof.
  intros Hid. unfold recordDerivedGroups. destruct gs as [|g gs]; [done|].
  by apply (record_groups_other (fun g' => default (mkDerived Unknown 0) (derived m (g :: gs) !! g_ID g'))).
Qed.

(** A local fault is not N outages. When every endpoint with a definite answer is down, at least
    two of them, the tick raises the local-fault flag and no endpoint's committed state moves: no
    uptime is lost, nothing is elected away. *)
Theorem local_fault_holds_states m tgs groups results now :
  allEndpointsDown tgs (map fst results) = true ->
  let m' := applyResultsWithGroups m tgs groups results now in
  LocalFault (applyResults m tgs results now) = true /\
  forall id, id ∉ map g_ID groups -> state_of m' id = state_of m id.
Proof.
  intros Hf m'. split.
  - unfold LocalFault, applyResults, applyResultsWithGroups, recordDerivedGroups. rewrite Hf.
    set (m1 := m <| localFault := true |>). assert (H1 : localFault m1 = true) by done. clearbody m1.
    revert m1 H1. generalize (combine tgs results). intros l. induction l as [|[tg [st lat]] l IH];
      intros m1 H1; [done|]. cbn [fold_left]. apply IH. unfold record_target.
    destruct (negb _); [done|]. destruct (_ && _); [done|].
    unfold record. repeat case_match; simpl; try done;
      match goal with |- context [pushEvent ?e ?x] => destruct (pushEvent_stats e x) as (_ & _ & _ & ->) end; done.
  - intros id Hid. unfold m', applyResultsWithGroups, state_of. rewrite Hf.
    rewrite recordDerivedGroups_other by done. fold (state_of m id).
    set (m1 := m <| localFault := true |>). assert (H1 : state_of m1 id = state_of m id) by done.
    clearbody m1.
    assert (Hall : forall tg st lat, (tg, (st, lat)) ∈ combine tgs results ->
      t_kind tg = "endpoint" -> st <> Alive).
    { intros tg st lat Hin Hk. eapply count_down_no_alive; [exact Hf|by eapply combine_fst|done]. }
    revert m1 H1 Hall. generalize (combine tgs results). intros l.
    induction l as [|[tg [st lat]] l IH]; intros m1 H1 Hall; [exact H1|]. cbn [fold_left].
    apply IH; [|intros; eapply Hall; [apply elem_of_cons; by right|done]].
    unfold record_target. case_bool_decide as Hk; [|done]. cbn [negb].
    case_bool_decide as Hst; [done|]. simpl.
    rewrite record_state; [done|]. right.
    specialize (Hall tg st lat ltac:(apply elem_of_cons; by left) Hk). by destruct st.
Qed.

(** ** Traffic: totals follow the counters *)

(** What a tick does to one target's counters: a reading, or none, the poll having failed or not. *)
Inductive reading := Reading (up down : Z) | Missing (clashOK kernel : bool).
Definition account (s : stat) (r : reading) (now : Z) : stat :=
  match r with
  | Reading up down => addCumulativeTraffic s up down now
  | Missing c k => decay c k s now
  end.
Definition reading_of (agg : gmap string (Z * Z)) (clashOK kernel : bool) (id : string) : reading :=
  match agg !! id with Some (up, down) => Reading up down | None => Missing clashOK kernel end.

Lemma sampleTraffic_account m conns ib tgs now id :
  stats (sampleTraffic m conns ib tgs now) !! id =
    (fun s => account s (reading_of (aggregate conns ib tgs) (bool_decide (is_Some conns))
                           (kernelIface tgs id) id) now) <$> stats m !! id.
Proof.
  unfold sampleTraffic. simpl. rewrite map_lookup_imap. destruct (stats m !! id) as [s|]; [|done].
  simpl. f_equal. unfold reading_of. by destruct (aggregate conns ib tgs !! id) as [[up down]|].
Qed.

(** A connection's counters while it stays open: they never fall, and the polls that fail in between
    say nothing. *)
Fixpoint steady (up down last : Z) (rs : list (reading * Z)) : Prop :=
  match rs with
  | [] => True
  | (Reading u d, t) :: rs' =>
      up <= u < 2 ^ 62 /\ down <= d < 2 ^ 62 /\ last < t < 2 ^ 62 /\ steady u d t rs'
  | (Missing c k, t) :: rs' => c = false /\ k = false /\ steady up down last rs'
  end.
Definition account_all (s : stat) (rs : list (reading * Z)) : stat :=
  fold_left (fun s r => account s r.1 r.2) rs s.
Definition last_reading (up down : Z) (rs : list (reading * Z)) : Z * Z :=
  fold_left (fun acc r => match r.1 with Reading u d => (u, d) | Missing _ _ => acc end) rs (up, down).

Lemma add_traffic_fields s up down now :
  0 < lastConnSample s < now -> 0 <= activeUp s <= up -> 0 <= activeDown s <= down ->
  up < 2 ^ 62 -> down < 2 ^ 62 ->
  let s' := addCumulativeTraffic s up down now in
  activeUp s' = up /\ activeDown s' = down /\ lastConnSample s' = now /\
  totalUp s' = (if 0 <? up - activeUp s then totalUp s +! (up - activeUp s) else totalUp s) /\
  totalDown s' = (if 0 <? down - activeDown s then totalDown s +! (down - activeDown s) else totalDown s).
Proof.
  intros Hl Hu Hd Hup Hdn. unfold addCumulativeTraffic.
  assert ((0 <? lastConnSample s) && (lastConnSample s <? now) = true) as -> by lia.
  rewrite (wrap64_id (up - activeUp s)) by (unfold is_int64, min_int64, max_int64; lia).
  destruct (0 <? up - activeUp s); cbn zeta;
    match goal with |- context [wrap64 (down - ?x)] => change x with (activeDown s) end;
    rewrite (wrap64_id (down - activeDown s)) by (unfold is_int64, min_int64, max_int64; lia);
    destruct (0 <? down - activeDown s); done.
Qed.

(** Bytes are counted once. While a target's counters only grow, its totals grow by exactly what
    the counters grew by over the whole span, however many samples were taken and however many polls
    failed in between: a failed poll neither loses nor recounts traffic. *)
Theorem totals_follow_counters s rs :
  0 < lastConnSample s -> 0 <= activeUp s -> 0 <= activeDown s ->
  0 <= totalUp s < 2 ^ 62 -> 0 <= totalDown s < 2 ^ 62 ->
  steady (activeUp s) (activeDown s) (lastConnSample s) rs ->
  let s' := account_all s rs in
  let l := last_reading (activeUp s) (activeDown s) rs in
  totalUp s' = totalUp s + (l.1 - activeUp s) /\ totalDown s' = totalDown s + (l.2 - activeDown s).
Proof.
  intros Hl Hu Hd Htu Htd Hst s' l.
  enough (H : totalUp s' = totalUp s + (l.1 - activeUp s) /\
    totalDown s' = totalDown s + (l.2 - activeDown s) /\ activeUp s <= l.1 /\ activeDown s <= l.2)
    by (split; apply H).
  (* generalise over the totals so far *)
  assert (Hgen : forall rs s u0 d0, 0 < lastConnSample s -> 0 <= u0 <= activeUp s -> 0 <= d0 <= activeDown s ->
    activeUp s < 2 ^ 62 \/ u0 = activeUp s -> activeDown s < 2 ^ 62 \/ d0 = activeDown s ->
    0 <= totalUp s - (activeUp s - u0) < 2 ^ 62 -> 0 <= totalDown s - (activeDown s - d0) < 2 ^ 62 ->
    steady (activeUp s) (activeDown s) (lastConnSample s) rs ->
    let l := last_reading (activeUp s) (activeDown s) rs in
    totalUp (account_all s rs) = totalUp s + (l.1 - activeUp s) /\
    totalDown (account_all s rs) = totalDown s + (l.2 - activeDown s) /\
    activeUp s <= l.1 /\ activeDown s <= l.2).
  { clear. induction rs as [|[[u d|c k] t] rs IH]; intros s u0 d0 Hl Hu Hd Hbu Hbd Htu Htd Hst; [simpl; lia| |].
    - destruct Hst as (H1 & H2 & H3 & Hst). cbn [account_all fold_left fst snd account].
      destruct (add_traffic_fields s u d t ltac:(lia) ltac:(lia) ltac:(lia) ltac:(lia) ltac:(lia))
        as (Ea & Eb & Ec & Ed & Ee).
      set (s1 := addCumulativeTraffic s u d t) in *.
      assert (Etu : totalUp s1 = totalUp s + (u - activeUp s)).
      { rewrite Ed. destruct (Z.ltb_spec 0 (u - activeUp s)); [|lia].
        apply wrap64_id. unfold is_int64, min_int64, max_int64. lia. }
      assert (Etd : totalDown s1 = totalDown s + (d - activeDown s)).
      { rewrite Ee. destruct (Z.ltb_spec 0 (d - activeDown s)); [|lia].
        apply wrap64_id. unfold is_int64, min_int64, max_int64. lia. }
      rewrite <- Ea, <- Eb, <- Ec in Hst.
      destruct (IH s1 u0 d0) as (I1 & I2 & I3 & I4); try done; try lia.
      cbn [last_reading fold_left fst] in *. rewrite Ea, Eb in *.
      fold (last_reading u d rs) in *. unfold account_all in *. lia.
    - destruct Hst as (-> & -> & Hst). cbn [account_all fold_left fst snd account].
      exact (IH (decay false false s t) u0 d0 Hl Hu Hd Hbu Hbd Htu Htd Hst). }
  apply (Hgen rs s (activeUp s) (activeDown s)); [lia|lia|lia|by right|by right|lia|lia|done].
Qed.

(** ** Elections: a switch is logged when the core's choice changed *)
Definition switch_event (m : Monitor) (ps : gmap string string) (now : Z) (g : Group) : option Event :=
  match ps !! g_ID g, elected m !! g_ID g with
  | Some p, Some prev =>
      if bool_decide (p = "") || bool_decide (prev = p) then None
      else Some {| At := now; Kind := EventSwitch; ID := g_ID g; Name := g_Name g;
                   From := nameForLocked m prev; To := nameForLocked m p; LatencyMS := 0 |}
  | _, _ => None
  end.

Definition note_elected (ps : gmap string string) (el : gmap string string) (g : Group) : gmap string string :=
  match ps !! g_ID g with
  | Some p => if bool_decide (p = "") then el else <[g_ID g := p]> el
  | None => el
  end.

Lemma pushEvent_elected e m el :
  pushEvent e (m <| elected := el |>) = (pushEvent e m) <| elected := el |>.
Proof. unfold pushEvent. simpl. by case_match. Qed.

Lemma pushEvents_elected es m el :
  bl_pushes es (m <| elected := el |>) = (bl_pushes es m) <| elected := el |>.
Proof.
  revert m. induction es as [|e es IH]; intros m; [done|]. cbn [bl_pushes fold_left].
  change (bl_push e ?x) with (pushEvent e x). rewrite pushEvent_elected. apply IH.
Qed.

Lemma pushEvents_stats es m : stats (bl_pushes es m) = stats m.
Proof.
  revert m. induction es as [|e es IH]; intros m; [done|]. cbn [bl_pushes fold_left].
  change (fold_left _ es ?x) with (bl_pushes es x). rewrite IH.
  change (bl_push e m) with (pushEvent e m). by destruct (pushEvent_stats e m) as (-> & _).
Qed.

Lemma sample_group_eq ps now m g :
  sample_group ps now m g =
    (match switch_event m ps now g with Some e => pushEvent e m | None => m end)
      <| elected := note_elected ps (elected m) g |>.
Proof.
  unfold sample_group, switch_event, note_elected.
  destruct (ps !! g_ID g) as [p|]; [|by destruct m].
  destruct (bool_decide (p = "")); simpl; [destruct (elected m !! g_ID g); by destruct m|].
  destruct (elected m !! g_ID g) as [prev|]; [|done].
  destruct (bool_decide (prev = p)); [done|]. by rewrite pushEvent_elected.
Qed.

Lemma switch_event_frame m m' ps now g :
  stats m' = stats m -> elected m' !! g_ID g = elected m !! g_ID g ->
  switch_event m' ps now g = switch_event m ps now g.
Proof. intros Hs He. unfold switch_event, nameForLocked. by rewrite He, Hs. Qed.

Lemma omap_ext_in {A B} (f f' : A -> option B) (l : list A) : (forall x, x ∈ l -> f x = f' x) -> omap f l = omap f' l.
Proof.
  induction l as [|x l IH]; intros H; [done|]. cbn. rewrite (H x) by set_solver.
  rewrite (IH ltac:(set_solver)). done.
Qed.

Lemma sample_groups_eq ps now gs m : NoDup (map g_ID gs) ->
  fold_left (sample_group ps now) gs m =
    (bl_pushes (omap (switch_event m ps now) gs) m) <| elected := fold_left (note_elected ps) gs (elected m) |>.
Proof.
  revert m. induction gs as [|g gs IH]; intros m Hnd; [by destruct m|].
  cbn [map] in Hnd. apply NoDup_cons in Hnd as [Hg Hnd]. cbn [fold_left]. rewrite IH by done.
  rewrite sample_group_eq. set (m1 := match switch_event m ps now g with Some e => pushEvent e m | None => m end).
  rewrite pushEvents_elected. cbn [elected set_field].
  assert (Hs1 : stats m1 = stats m).
  { unfold m1. destruct (switch_event m ps now g) as [e|]; [|done].
    by destruct (pushEvent_stats e m) as (-> & _). }
  assert (Hext : omap (switch_event (m1 <| elected := note_elected ps (elected m) g |>) ps now) gs =
                 omap (switch_event m ps now) gs).
  { apply omap_ext_in. intros g' Hg'. apply switch_event_frame; [done|]. simpl.
    assert (g_ID g' <> g_ID g).
    { intros E. apply Hg. rewrite <- E. by apply list_elem_of_In, in_map, list_elem_of_In. }
    unfold note_elected. repeat case_match; try done. by rewrite lookup_insert_ne. }
  rewrite Hext. change (omap ?f (g :: gs)) with (match f g with Some y => y :: omap f gs | None => omap f gs end).
  unfold m1. by destruct (switch_event m ps now g).
Qed.

Lemma note_elected_lookup ps gs el id :
  fold_left (note_elected ps) gs el !! id =
    if decide (id ∈ map g_ID gs /\ readable ps id) then ps !! id else el !! id.
Proof.
  revert el. induction gs as [|g gs IH]; intros el; cbn [fold_left map].
  { rewrite decide_False; [done|]. intros [H _]. by apply elem_of_nil in H. }
  rewrite IH. unfold note_elected.
  destruct (decide (id ∈ map g_ID gs /\ readable ps id)) as [[H1 H2]|Hn].
  { rewrite decide_True; [done|]. split; [set_solver|done]. }
  destruct (ps !! g_ID g) as [p|] eqn:Ep; [case_bool_decide as Hp|].
  - rewrite decide_False; [done|]. intros [[->|Hin]%elem_of_cons (q & Hq & Hqn)]; [congruence|].
    apply Hn. split; [done|]. by exists q.
  - destruct (decide (id = g_ID g)) as [->|Hne].
    + rewrite lookup_insert_eq, decide_True; [done|]. split; [set_solver|]. by exists p.
    + rewrite lookup_insert_ne, decide_False; [done| |done]. set_solver.
  - rewrite decide_False; [done|]. intros [[->|Hin]%elem_of_cons (q & Hq & Hqn)]; [congruence|].
    apply Hn. split; [done|]. by exists q.
Qed.

(** A switch is a change the core reported. A readable poll logs, in the groups' order, exactly
    the groups whose reported member differs from the one last reported, and remembers the new ones;
    the first reading of a group is only a baseline, a group the core does not report is forgotten,
    and a failed poll changes nothing. *)
Theorem switches_are_reported_changes m ps groups now :
  NoDup (map g_ID groups) ->
  sampleElection m None groups now = m /\
  let m' := sampleElection m (Some ps) groups now in
  let switches := omap (switch_event m ps now) groups in
  events m' = events (bl_pushes switches m) /\ evHead m' = evHead (bl_pushes switches m) /\
  stats m' = stats m /\
  forall id, elected m' !! id = if decide (id ∈ map g_ID groups /\ readable ps id) then ps !! id else None.
Proof.
  intros Hnd. split; [done|]. intros m' switches. unfold m', sampleElection.
  rewrite sample_groups_eq by done. simpl. split_and!; [done|done|apply pushEvents_stats|].
  intros id. rewrite map_lookup_filter, note_elected_lookup.
  destruct (decide (id ∈ map g_ID groups /\ readable ps id)) as [H|H].
  - destruct (ps !! id); [|done]. simpl. by rewrite option_guard_True.
  - destruct (elected m !! id); [|done]. simpl. by rewrite option_guard_False.
Qed.

(** ** Witnesses *)
Definition demo_results : list result :=
  [mkResult "a" "A" "endpoint" Alive 20 1; mkResult "a" "A" "endpoint" Down 0 2;
   mkResult "b" "B" "endpoint" Down 0 2; mkResult "a" "A" "endpoint" Unknown 0 3;
   mkResult "a" "A" "endpoint" Down 0 4].

Lemma state_is_last_confirmed_witness :
  Z.of_nat (length demo_results) < 2 ^ 62 /\
  state_of (record_all (NewMonitor false) demo_results) "a" = verdict [false; false; true].
Proof.
  assert (H : Z.of_nat (length demo_results) < 2 ^ 62) by (simpl; lia).
  split; [exact H|]. exact (state_is_last_confirmed demo_results "a" H).
Defined.

Definition two_endpoints : list target :=
  [mkTarget "a" "A" "endpoint" "" ""; mkTarget "b" "B" "endpoint" "" ""].

Lemma local_fault_holds_states_witness :
  let m := record_all (NewMonitor false) demo_results in
  let rs := [(Down, 0); (Down, 0)] in
  allEndpointsDown two_endpoints (map fst rs) = true /\
  LocalFault (applyResults m two_endpoints rs 9) = true /\
  forall id, id ∉ map g_ID [] -> state_of (applyResultsWithGroups m two_endpoints [] rs 9) id = state_of m id.
Proof.
  intros m rs. assert (H : allEndpointsDown two_endpoints (map fst rs) = true) by reflexivity.
  split; [exact H|]. exact (local_fault_holds_states m two_endpoints [] rs 9 H).
Defined.

Definition sampled : stat :=
  (new_stat 0) <| lastConnSample := 1000 |> <| activeUp := 10 |> <| activeDown := 20 |>.
Definition demo_readings : list (reading * Z) :=
  [(Reading 15 40, 2000); (Missing false false, 3000); (Reading 25 90, 4000)].

Lemma totals_follow_counters_witness :
  steady 10 20 1000 demo_readings /\
  totalUp (account_all sampled demo_readings) = 0 + (25 - 10) /\
  totalDown (account_all sampled demo_readings) = 0 + (90 - 20).
Proof.
  assert (H : steady 10 20 1000 demo_readings) by (unfold demo_readings, steady; lia).
  split; [exact H|].
  apply (totals_follow_counters sampled demo_readings); [reflexivity|simpl; lia..|exact H].
Defined.

Definition pool : Group := mkGroup "g" "Pool" ["a"; "b"] "".
Lemma switches_are_reported_changes_witness :
  let m := (NewMonitor false) <| elected := {["g" := "a"]} |> in
  NoDup (map g_ID [pool]) /\
  events (sampleElection m (Some {["g" := "b"]}) [pool] 7) =
    events (bl_pushes (omap (switch_event m {["g" := "b"]} 7) [pool]) m).
Proof.
  intros m. assert (H : NoDup (map g_ID [pool])) by (apply NoDup_cons; split; [set_solver|by apply NoDup_nil_2]).
  split; [exact H|].
  destruct (switches_are_reported_changes m {["g" := "b"]} [pool] 7 H) as (_ & H' & _). exact H'.
Defined.
Example switch_logged :
  let m := (NewMonitor false) <| elected := {["g" := "a"]} |> in
  map Kind (events (sampleElection m (Some {["g" := "b"]}) [pool] 7)) = ["switch"].
Proof. vm_compute. reflexivity. Qed.
