(* ===== verification/HealthGroups.v ===== *)
(** * Health of groups: the derivation reaches its fixpoint

    [derive_passes] of [HealthMonitor] runs at most one pass per group. This file shows that this is
    enough: whatever the nesting (parents before children, cycles), a group ends alive exactly when
    it contains, directly or through other groups, an alive endpoint or [direct], and down exactly
    when it does not but contains one that is down. *)
From S2P Require Import Prelude BoundedLog HealthLog HealthMonitor.

Definition st_of (b : gmap string derivedHealth) (id : string) : State :=
  from_option d_state Unknown (b !! id).

(** What a group contains: an endpoint that satisfies [Q], possibly through other groups. *)
Inductive contains (groups : list Group) (Q : string -> Prop) : string -> Prop :=
| contains_endpoint id : id ∉ map g_ID groups -> Q id -> contains groups Q id
| contains_member g m : g ∈ groups -> m ∈ g_Members g -> contains groups Q m ->
    contains groups Q (g_ID g).

Lemma contains_iff groups (Q R : string -> Prop) id :
  (forall id, id ∉ map g_ID groups -> Q id -> R id) -> contains groups Q id -> contains groups R id.
Proof.
  intros HQR H. induction H as [id Hn HQ|g m Hg Hm _ IH];
    [by apply contains_endpoint; auto|by apply (contains_member _ _ g m)].
Qed.

Lemma contains_or groups (Q R : string -> Prop) id :
  contains groups (fun id => Q id \/ R id) id -> contains groups Q id \/ contains groups R id.
Proof.
  induction 1 as [id Hn [HQ|HR]|g m Hg Hm _ [IH|IH]];
    [left; by apply contains_endpoint|right; by apply contains_endpoint
    |left; by apply (contains_member _ _ g m)|right; by apply (contains_member _ _ g m)].
Qed.

Lemma derive_state b ms next anyDown : d_state next <> Down ->
  d_state (derive b ms next anyDown) =
    if bool_decide (d_state next = Alive) || existsb (fun m => bool_decide (st_of b m = Alive)) ms
    then Alive
    else if anyDown || existsb (fun m => bool_decide (st_of b m = Down)) ms then Down else Unknown.
Proof.
  revert next anyDown. induction ms as [|m ms IH]; intros next anyDown Hn.
  - cbn [derive existsb]. rewrite !orb_false_r.
    destruct (d_state next) eqn:E; try done; simpl; rewrite ?E; by destruct anyDown; simpl; rewrite ?E.
  - cbn [derive existsb]. assert (Est : st_of b m = from_option d_state Unknown (b !! m)) by done.
    rewrite Est. destruct (b !! m) as [mh|]; simpl; [|by apply IH].
    destruct (d_state mh) eqn:Em; rewrite IH; try done;
      destruct (d_state next) eqn:E; simpl; rewrite ?E, ?Em, ?orb_true_r; done.
Qed.

Lemma filter_length_le {A} (Q R : A -> Prop) `{!forall x, Decision (Q x), !forall x, Decision (R x)}
    (l : list A) : (forall x, x ∈ l -> Q x -> R x) ->
  (length (filter Q l) <= length (filter R l))%nat /\
  (length (filter Q l) = length (filter R l) -> forall x, x ∈ l -> R x -> Q x).
Proof.
  induction l as [|x l IH]; intros Himp; [split; [done|intros _ y Hy; by apply elem_of_nil in Hy]|].
  destruct IH as [IH1 IH2]; [set_solver|]. rewrite !filter_cons.
  pose proof (Himp x ltac:(set_solver)) as Hx.
  destruct (decide (Q x)) as [Hq|Hq]; [rewrite decide_True by auto|destruct (decide (R x)) as [Hr|Hr]];
    simpl; (split; [lia|]); intros E y [->|Hy]%elem_of_cons HR; try done; try (by apply IH2; [lia|..]);
    lia.
Qed.

Section fixpoint.
Context (groups : list Group) (P : State -> Prop) `{!forall s, Decision (P s)}.
Context (P_unknown : ~ P Unknown).
Context (derive_P : forall b g,
  P (d_state (derive_group b g)) <-> exists m, m ∈ g_Members g /\ P (st_of b m)).
Context (groups_nodup : NoDup (map g_ID groups)).

Lemma same_group g g' : g ∈ groups -> g' ∈ groups -> g_ID g = g_ID g' -> g = g'.
Proof.
  intros Hg Hg' E. clear -groups_nodup Hg Hg' E. induction groups as [|x l IH]; [by apply elem_of_nil in Hg|].
  apply NoDup_cons in groups_nodup as [Hx Hl].
  apply elem_of_cons in Hg as [->|Hg]; apply elem_of_cons in Hg' as [->|Hg']; [done| | |by apply IH].
  - destruct Hx. rewrite E. by apply list_elem_of_In, in_map, list_elem_of_In.
  - destruct Hx. rewrite <- E. by apply list_elem_of_In, in_map, list_elem_of_In.
Qed.

Lemma derive_one_lookup b c g id :
  (derive_one (b, c) g).1 !! id = if decide (id = g_ID g) then Some (derive_group b g) else b !! id.
Proof.
  unfold derive_one. destruct (bool_decide (b !! g_ID g = Some (derive_group b g))) eqn:E; simpl.
  - apply bool_decide_eq_true in E. by destruct (decide (id = g_ID g)) as [->|].
  - destruct (decide (id = g_ID g)) as [->|]; [by rewrite lookup_insert_eq|].
    by rewrite lookup_insert_ne.
Qed.

Lemma derive_one_st b c g id :
  st_of (derive_one (b, c) g).1 id =
    if decide (id = g_ID g) then d_state (derive_group b g) else st_of b id.
Proof. unfold st_of. rewrite derive_one_lookup. by case_decide. Qed.

(** What every derivation step keeps, relative to the start [b0]: endpoints as they were, groups
    only as good as what they contain, and never better than a recomputation. *)
Record sound (b0 b : gmap string derivedHealth) : Prop := {
  so_leaf : forall id, id ∉ map g_ID groups -> st_of b id = st_of b0 id;
  so_real : forall g, g ∈ groups -> P (st_of b (g_ID g)) -> contains groups (fun id => P (st_of b0 id)) (g_ID g);
  so_infl : forall g, g ∈ groups -> P (st_of b (g_ID g)) ->
    exists m, m ∈ g_Members g /\ P (st_of b m)
}.

Definition closed (b : gmap string derivedHealth) : Prop :=
  forall g m, g ∈ groups -> m ∈ g_Members g -> P (st_of b m) -> P (st_of b (g_ID g)).

Lemma contains_st b0 b id : sound b0 b -> P (st_of b id) -> contains groups (fun id => P (st_of b0 id)) id.
Proof.
  intros Hs HP. destruct (decide (id ∈ map g_ID groups)) as [Hin|Hn].
  - apply list_elem_of_In, in_map_iff in Hin as (g & <- & Hg). apply list_elem_of_In in Hg.
    by apply (so_real _ _ Hs).
  - apply contains_endpoint; [done|]. by rewrite <- (so_leaf _ _ Hs id Hn).
Qed.

Lemma step_grows b0 b c g id : sound b0 b -> g ∈ groups ->
  P (st_of b id) -> P (st_of (derive_one (b, c) g).1 id).
Proof.
  intros Hs Hg HP. rewrite derive_one_st. destruct (decide (id = g_ID g)) as [->|]; [|done].
  apply derive_P. by apply (so_infl _ _ Hs).
Qed.

Lemma step_sound b0 b c g : sound b0 b -> g ∈ groups -> sound b0 (derive_one (b, c) g).1.
Proof.
  intros Hs Hg. split.
  - intros id Hid. rewrite derive_one_st. destruct (decide (id = g_ID g)) as [->|].
    + destruct Hid. by apply list_elem_of_In, in_map, list_elem_of_In.
    + by apply (so_leaf _ _ Hs).
  - intros g' Hg'. rewrite derive_one_st. destruct (decide (g_ID g' = g_ID g)) as [E|].
    + rewrite E. intros (m & Hm & HP)%derive_P. apply (contains_member _ _ g m Hg Hm).
      by apply (contains_st b0 b).
    + by apply (so_real _ _ Hs).
  - intros g' Hg' HP. destruct (decide (g_ID g' = g_ID g)) as [E|Hne].
    + assert (g' = g) as -> by (by apply same_group). rewrite derive_one_st, decide_True in HP by done.
      apply derive_P in HP as (m & Hm & HP). exists m. split; [done|]. by apply (step_grows b0).
    + rewrite derive_one_st, decide_False in HP by done.
      destruct (so_infl _ _ Hs g' Hg' HP) as (m & Hm & HPm). exists m. split; [done|].
      by apply (step_grows b0).
Qed.

(** A whole pass, or a suffix of one. *)
Lemma steps_sound gs b0 b c : gs ⊆ groups -> sound b0 b ->
  sound b0 (fold_left derive_one gs (b, c)).1 /\
  (forall id, P (st_of b id) -> P (st_of (fold_left derive_one gs (b, c)).1 id)).
Proof.
  revert b c. induction gs as [|g gs IH]; intros b c Hgs Hs; [done|]. cbn [fold_left].
  assert (Hg : g ∈ groups) by set_solver.
  pose proof (step_sound b0 b c g Hs Hg) as Hs'. pose proof (step_grows b0 b c g) as Hgrow.
  destruct (derive_one (b, c) g) as [b' c']. cbn [fst] in *.
  destruct (IH b' c' ltac:(set_solver) Hs') as [H1 H2]. split; [done|]. intros id HP.
  apply H2. by apply Hgrow.
Qed.

(** If a pass adds nothing to the set, the set is closed. *)
Lemma steps_closed gs b0 b c : gs ⊆ groups -> sound b0 b ->
  (forall id, P (st_of (fold_left derive_one gs (b, c)).1 id) -> P (st_of b id)) ->
  forall g m, g ∈ gs -> m ∈ g_Members g -> P (st_of b m) -> P (st_of b (g_ID g)).
Proof.
  revert b c. induction gs as [|g gs IH]; intros b c Hgs Hs Hsame g' m Hg' Hm HP;
    [by apply elem_of_nil in Hg'|]. cbn [fold_left] in Hsame.
  assert (Hg : g ∈ groups) by set_solver.
  pose proof (step_sound b0 b c g Hs Hg) as Hs'. pose proof (step_grows b0 b c g) as Hgrow.
  pose proof (derive_one_st b c g) as Hst. destruct (derive_one (b, c) g) as [b' c']. cbn [fst] in *.
  destruct (steps_sound gs b0 b' c' ltac:(set_solver) Hs') as [_ H2].
  assert (Hback : forall id, P (st_of b' id) -> P (st_of b id)) by (intros; apply Hsame; auto).
  apply elem_of_cons in Hg' as [->|Hg'].
  - apply Hback. rewrite Hst, decide_True by done. apply derive_P. by exists m.
  - apply Hback. apply (IH b' c' ltac:(set_solver) Hs' ltac:(auto) g' m Hg' Hm). by apply Hgrow.
Qed.

Lemma pass_unchanged gs b : (fold_left derive_one gs (b, false)).2 = false ->
  (fold_left derive_one gs (b, false)).1 = b.
Proof.
  assert (Htrue : forall gs b, (fold_left derive_one gs (b, true)).2 = true).
  { clear. intros gs. induction gs as [|g gs IH]; intros b; [done|]. cbn [fold_left].
    unfold derive_one at 2. case_match; apply IH. }
  induction gs as [|g gs IH]; [done|]. cbn [fold_left].
  destruct (derive_one (b, false) g) as [b' []] eqn:E; [by rewrite Htrue|].
  unfold derive_one in E. case_match; simplify_eq. exact IH.
Qed.

Definition members_in (b : gmap string derivedHealth) : list Group :=
  filter (fun g => P (st_of b (g_ID g))) groups.

Lemma closed_all b0 b : sound b0 b -> closed b -> forall id, contains groups (fun id => P (st_of b0 id)) id -> P (st_of b id).
Proof.
  intros Hs Hc id Hin. induction Hin as [id Hn HP|g m Hg Hm _ IH].
  - by rewrite (so_leaf _ _ Hs id Hn).
  - by apply (Hc g m).
Qed.

(** The passes: closed at the end, or one more group in the set per pass. *)
Lemma passes_progress n b0 b : sound b0 b ->
  let b' := derive_passes n groups b in
  sound b0 b' /\ (forall id, P (st_of b id) -> P (st_of b' id)) /\
  (closed b' \/ (n + length (members_in b) <= length (members_in b'))%nat).
Proof.
  revert b. induction n as [|n IH]; intros b Hs; cbv zeta; [by split_and!; [| |right]|].
  cbn [derive_passes]. unfold derive_pass.
  destruct (steps_sound groups b0 b false ltac:(done) Hs) as [Hs1 Hgrow].
  pose proof (pass_unchanged groups b) as Hun. pose proof (steps_closed groups b0 b false ltac:(done) Hs) as Hcl.
  destruct (fold_left derive_one groups (b, false)) as [b1 changed]. cbn [fst snd] in *.
  destruct changed.
  - destruct (IH b1 Hs1) as (H1 & H2 & H3). split; [done|]. split; [auto|].
    destruct H3 as [H3|H3]; [by left|].
    destruct (filter_length_le (fun g => P (st_of b (g_ID g))) (fun g => P (st_of b1 (g_ID g))) groups)
      as [Hle Heq]; [auto|].
    destruct (decide (length (members_in b) = length (members_in b1))) as [E|E];
      [|right; unfold members_in in *; lia].
    assert (Hsame : forall id, P (st_of b1 id) -> P (st_of b id)).
    { intros id HP. destruct (decide (id ∈ map g_ID groups)) as [Hin|Hn].
      - apply list_elem_of_In, in_map_iff in Hin as (g & <- & Hg). apply list_elem_of_In in Hg.
        by apply (Heq E g Hg).
      - rewrite (so_leaf _ _ Hs1 id Hn) in HP. by rewrite (so_leaf _ _ Hs id Hn). }
    assert (Hc : closed b) by (intros g m Hg Hm HP; by apply (Hcl Hsame g m)).
    left. intros g m Hg Hm HP. apply H2, Hgrow, (closed_all b0 b Hs Hc).
    apply (contains_member _ _ g m Hg Hm). by apply (contains_st b0 _ m H1).
  - rewrite (Hun eq_refl) in *. split; [done|]. split; [done|]. left.
    intros g m Hg Hm HP. by apply (Hcl ltac:(auto) g m).
Qed.

(** The derivation decides containment. *)
Lemma passes_decide b0 : (forall g, g ∈ groups -> st_of b0 (g_ID g) = Unknown) ->
  forall id, P (st_of (derive_passes (length groups) groups b0) id) <-> contains groups (fun id => P (st_of b0 id)) id.
Proof.
  intros H0.
  assert (Hs : sound b0 b0) by (split; [done|..]; intros g Hg; rewrite H0 by done; done).
  destruct (passes_progress (length groups) b0 b0 Hs) as (H1 & H2 & H3). intros id.
  split; [by apply (contains_st b0)|]. apply (closed_all b0); [done|]. destruct H3 as [H3|H3]; [done|].
  intros g m Hg _ _. unfold members_in in H3.
  destruct (filter_length_le (fun g => P (st_of (derive_passes (length groups) groups b0) (g_ID g)))
    (fun _ => True) groups) as [Hle Heq]; [done|].
  apply Heq; [|done|done]. assert (E : filter (fun _ : Group => True) groups = groups).
  { clear. induction groups as [|x l IH]; [done|]. rewrite filter_cons, decide_True by done. by rewrite IH. }
  rewrite E in *. lia.
Qed.
End fixpoint.

(** ** The derivation's seed is the endpoints' committed states *)
Definition endpoint_state (m : Monitor) (id : string) : State :=
  if bool_decide (id = OutboundDirect) then Alive
  else match stats m !! id with
       | Some s => if bool_decide (kind s = "group") then Unknown else state s
       | None => Unknown
       end.

Lemma fold_insert_lookup (gs : list Group) (b : gmap string derivedHealth) id :
  fold_left (fun acc g => <[g_ID g := mkDerived Unknown 0]> acc) gs b !! id =
    if decide (id ∈ map g_ID gs) then Some (mkDerived Unknown 0) else b !! id.
Proof.
  revert b. induction gs as [|g gs IH]; intros b; cbn [fold_left map].
  - by rewrite decide_False by apply not_elem_of_nil.
  - rewrite IH. destruct (decide (id ∈ map g_ID gs)); [by rewrite decide_True by set_solver|].
    destruct (decide (id = g_ID g)) as [->|Hne].
    + by rewrite decide_True, lookup_insert_eq by set_solver.
    + by rewrite decide_False, lookup_insert_ne by set_solver.
Qed.

Lemma seed_group m gs g : g ∈ gs -> st_of (seed m gs) (g_ID g) = Unknown.
Proof.
  intros Hg. unfold st_of, seed. rewrite fold_insert_lookup, decide_True; [done|].
  by apply list_elem_of_In, in_map, list_elem_of_In.
Qed.

Lemma seed_endpoint m gs id : id ∉ map g_ID gs -> st_of (seed m gs) id = endpoint_state m id.
Proof.
  intros Hid. unfold st_of, seed, endpoint_state. rewrite fold_insert_lookup, decide_False by done.
  case_bool_decide as E; [by rewrite E, lookup_insert_eq|].
  rewrite lookup_insert_ne by done. rewrite lookup_omap.
  destruct (stats m !! id) as [s|]; [|done]. simpl. by case_bool_decide.
Qed.

Lemma derive_alive b g : Alive = d_state (derive_group b g) <-> exists m, m ∈ g_Members g /\ Alive = st_of b m.
Proof.
  unfold derive_group. rewrite derive_state by done. simpl.
  destruct (existsb (fun m => bool_decide (st_of b m = Alive)) (g_Members g)) eqn:E.
  - apply existsb_exists in E as (m & Hm & E). apply bool_decide_eq_true in E.
    split; [intros _; exists m; split; [by apply list_elem_of_In|done]|done].
  - split; [by case_match|]. intros (m & Hm & HP). exfalso.
    rewrite <- not_true_iff_false, existsb_exists in E. apply E. exists m.
    split; [by apply list_elem_of_In|]. by apply bool_decide_eq_true.
Qed.

Lemma derive_known b g : d_state (derive_group b g) <> Unknown <->
  exists m, m ∈ g_Members g /\ st_of b m <> Unknown.
Proof.
  unfold derive_group. rewrite derive_state by done. simpl.
  destruct (existsb (fun m => bool_decide (st_of b m = Alive)) (g_Members g)) eqn:E1;
    [|destruct (existsb (fun m => bool_decide (st_of b m = Down)) (g_Members g)) eqn:E2].
  - apply existsb_exists in E1 as (m & Hm & E). apply bool_decide_eq_true in E.
    split; [intros _; exists m; rewrite E; split; [by apply list_elem_of_In|done]|done].
  - apply existsb_exists in E2 as (m & Hm & E). apply bool_decide_eq_true in E.
    split; [intros _; exists m; rewrite E; split; [by apply list_elem_of_In|done]|done].
  - split; [done|]. intros (m & Hm & HP). exfalso. apply list_elem_of_In in Hm.
    rewrite <- not_true_iff_false, existsb_exists in E1, E2.
    destruct (st_of b m) eqn:E; [apply E1|apply E2|done]; exists m; (split; [done|]);
      by apply bool_decide_eq_true.
Qed.

(** A group's health is its contents'. Whatever the nesting of groups, and although the code runs
    at most one pass per group, a group is derived alive exactly when it contains, directly or through
    other groups, an endpoint committed alive or [direct]; down exactly when it contains none of those
    but an endpoint committed down; unknown otherwise. *)
Theorem group_health_is_contents m groups g :
  NoDup (map g_ID groups) -> g ∈ groups ->
  let h := st_of (derived m groups) (g_ID g) in
  let has S := contains groups (fun id => endpoint_state m id = S) (g_ID g) in
  (h = Alive <-> has Alive) /\ (h = Down <-> ~ has Alive /\ has Down) /\
  (h = Unknown <-> ~ has Alive /\ ~ has Down).
Proof.
  intros Hnd Hg h has.
  pose proof (passes_decide groups (eq Alive) ltac:(done) derive_alive Hnd (seed m groups)
    (fun g => seed_group m groups g) (g_ID g)) as Ha.
  pose proof (passes_decide groups (fun s => s <> Unknown) ltac:(intros H; done) derive_known Hnd (seed m groups)
    (fun g => seed_group m groups g) (g_ID g)) as Hk.
  fold (derived m groups) in Ha, Hk. change (st_of (derived m groups) (g_ID g)) with h in Ha, Hk.
  assert (Ha' : h = Alive <-> has Alive).
  { split; [intros E; apply (contains_iff _ _ _ _ (fun id Hn HQ => eq_trans (eq_sym (seed_endpoint m groups id Hn)) (eq_sym HQ)));
      by apply Ha|].
    intros Hc. symmetry. apply Ha. eapply contains_iff; [|exact Hc]. intros id Hn HQ. simpl in *.
    by rewrite seed_endpoint, HQ. }
  assert (Hk' : h <> Unknown <-> has Alive \/ has Down).
  { split.
    - intros Hn%Hk. apply contains_or. eapply contains_iff; [|exact Hn]. intros id Hid HQ. simpl in *.
      rewrite seed_endpoint in HQ by done. destruct (endpoint_state m id); auto. done.
    - intros Hc. apply Hk. destruct Hc as [Hc|Hc]; (eapply contains_iff; [|exact Hc]);
        intros id Hid HQ; simpl in *; by rewrite seed_endpoint, HQ. }
  split_and!; [exact Ha'| |]; destruct h eqn:E; intuition (try done; try congruence).
Qed.

(** ** Witness: a group of groups, listed parent first *)
Definition parent : Group := mkGroup "p" "Parent" ["c"] "".
Definition child : Group := mkGroup "c" "Child" ["x"; "a"] "".
Definition demo_monitor : Monitor :=
  record_all (NewMonitor false) [mkResult "a" "A" "endpoint" Alive 20 1].

Lemma group_health_is_contents_witness :
  NoDup (map g_ID [parent; child]) /\ parent ∈ [parent; child] /\
  (st_of (derived demo_monitor [parent; child]) "p" = Alive <->
   contains [parent; child] (fun id => endpoint_state demo_monitor id = Alive) "p").
Proof.
  assert (H1 : NoDup (map g_ID [parent; child])) by (apply (bool_decide_unpack _); vm_compute; exact I).
  assert (H2 : parent ∈ [parent; child]) by set_solver.
  split; [exact H1|]. split; [exact H2|].
  destruct (group_health_is_contents demo_monitor [parent; child] parent H1 H2) as (H & _). exact H.
Defined.
Example parent_alive : st_of (derived demo_monitor [parent; child]) "p" = Alive.
Proof. vm_compute. reflexivity. Qed.
