(* ===== verification/GoStrings.v ===== *)
(** * Go strings

    What the components use of Go's [strings], [strconv], [fmt] and [unicode/utf8]. A string is its
    bytes: a [list Z] where its bytes are taken apart, a [string] where it is data; [str] and [unstr]
    go between the two. *)
From S2P Require Import Prelude.
Local Open Scope Z_scope.

Abbreviation bytes := (list Z).

Definition str (s : string) : bytes :=
  map (fun c => Z.of_nat (Ascii.nat_of_ascii c)) (String.list_ascii_of_string s).

Definition in_range (lo hi b : Z) : bool := (lo <=? b) && (b <=? hi).

Fixpoint strip_prefix (pre p : bytes) : option bytes :=
  match pre, p with
  | [], _ => Some p
  | c :: pre', d :: p' => if c =? d then strip_prefix pre' p' else None
  | _, [] => None
  end.

(** ** Decimals: [%d] *)
Fixpoint dec_digits (fuel : nat) (z : Z) (acc : bytes) : bytes :=
  match fuel with
  | O => acc
  | S fuel' =>
      let acc' := 48 + z mod 10 :: acc in
      if z <? 10 then acc' else dec_digits fuel' (z / 10) acc'
  end.
Definition fmt_d (z : Z) : bytes := dec_digits 20 z [].

(** The UTF-8 encodings of Unicode's white space, which [strings.TrimSpace] removes. *)
Definition white_space : list bytes :=
  [[9]; [10]; [11]; [12]; [13]; [32]; [0xC2; 0x85]; [0xC2; 0xA0]; [0xE1; 0x9A; 0x80];
   [0xE2; 0x80; 0x80]; [0xE2; 0x80; 0x81]; [0xE2; 0x80; 0x82]; [0xE2; 0x80; 0x83];
   [0xE2; 0x80; 0x84]; [0xE2; 0x80; 0x85]; [0xE2; 0x80; 0x86]; [0xE2; 0x80; 0x87];
   [0xE2; 0x80; 0x88]; [0xE2; 0x80; 0x89]; [0xE2; 0x80; 0x8A]; [0xE2; 0x80; 0xA8];
   [0xE2; 0x80; 0xA9]; [0xE2; 0x80; 0xAF]; [0xE2; 0x81; 0x9F]; [0xE3; 0x80; 0x80]].

Definition drop_space (spaces : list bytes) (p : bytes) : option bytes :=
  head (omap (fun w => strip_prefix w p) spaces).
Fixpoint trim_left (fuel : nat) (spaces : list bytes) (p : bytes) : bytes :=
  match fuel with
  | O => p
  | S fuel' => match drop_space spaces p with Some p' => trim_left fuel' spaces p' | None => p end
  end.
Definition TrimSpace (p : bytes) : bytes :=
  let l := trim_left (length p) white_space p in
  reverse (trim_left (length l) (map reverse white_space) (reverse l)).

(** ** Texts as data *)
Definition unstr (p : bytes) : string :=
  String.string_of_list_ascii (map (fun c => Ascii.ascii_of_nat (Z.to_nat c)) p).
(** [strings.TrimSpace], on data. *)
Definition trim (s : string) : string := unstr (TrimSpace (str s)).
(** [strings.TrimPrefix]. *)
Definition TrimPrefix (pre p : bytes) : bytes := match strip_prefix pre p with Some q => q | None => p end.
(** [strings.CutPrefix], its [ok] as an option. *)
Definition CutPrefix (s pre : string) : option string := unstr <$> strip_prefix (str pre) (str s).
(** [strings.Contains] and [strings.ContainsAny] for single bytes. *)
Definition has_byte (c : Z) (p : bytes) : bool := existsb (Z.eqb c) p.
Definition has_any (cs p : bytes) : bool := existsb (fun c => has_byte c p) cs.

Definition is_digit (c : Z) : bool := in_range 48 57 c.
Definition is_letter (c : Z) : bool := in_range 65 90 c || in_range 97 122 c.
Definition is_ascii (p : bytes) : bool := forallb (in_range 0 127) p.
Definition ascii_lower (c : Z) : Z := if in_range 65 90 c then c + 32 else c.
(** [strings.ToLower]: letter by letter on ASCII; [unicode_lower] beyond it, by Unicode's tables. *)
Definition ToLower (unicode_lower : bytes -> bytes) (p : bytes) : bytes :=
  if is_ascii p then map ascii_lower p else unicode_lower p.

(** The bytes a [range] over a string consumes for the rune at its head: the length of a well-formed
    UTF-8 sequence, or 1. *)
Definition cont (lo hi : Z) (p : bytes) (i : nat) : bool :=
  match p !! i with Some c => in_range lo hi c | None => false end.
Definition rune_width (p : bytes) : nat :=
  match p with
  | [] => 0%nat
  | c :: _ =>
      let any := cont 128 191 p in
      if in_range 194 223 c && any 1%nat then 2%nat
      else if in_range 224 239 c
              && cont (if c =? 224 then 160 else 128) (if c =? 237 then 159 else 191) p 1 && any 2%nat then 3%nat
      else if in_range 240 244 c
              && cont (if c =? 240 then 144 else 128) (if c =? 244 then 143 else 191) p 1
              && any 2%nat && any 3%nat then 4%nat
      else 1%nat
  end.

(** ** Facts *)
Lemma str_unstr p : Forall is_byte p -> str (unstr p) = p.
Proof.
  unfold str, unstr. rewrite String.list_ascii_of_string_of_list_ascii, map_map.
  induction 1 as [|c p Hc _ IH]; [done|]. cbn [map]. rewrite IH. unfold is_byte in Hc.
  rewrite Ascii.nat_ascii_embedding by lia. f_equal. lia.
Qed.
Lemma unstr_str s : unstr (str s) = s.
Proof.
  unfold str, unstr. rewrite map_map. rewrite <- (String.string_of_list_ascii_of_string s) at 2.
  f_equal. induction (String.list_ascii_of_string s) as [|c l IH]; [done|].
  cbn [map]. rewrite IH, Nat2Z.id, Ascii.ascii_nat_embedding. done.
Qed.
#[export] Instance str_inj : Inj (=) (=) str.
Proof. intros a b H. by rewrite <- (unstr_str a), H, unstr_str. Qed.
Lemma str_bytes s : Forall is_byte (str s).
Proof.
  unfold str. apply Forall_map. apply Forall_true. intros c.
  pose proof (Ascii.nat_ascii_bounded c). unfold is_byte. simpl. lia.
Qed.
Lemma str_nil s : str s = [] <-> s = "".
Proof. by destruct s. Qed.
Lemma unstr_nil p : unstr p = "" <-> p = [].
Proof. by destruct p. Qed.
Lemma str_app a b : str (String.append a b) = str a ++ str b.
Proof. induction a as [|c a IH]; [done|]. change (str (String.String c a)) with (Z.of_nat (Ascii.nat_of_ascii c) :: str a). cbn [app]. rewrite <- IH. done. Qed.

Lemma has_byte_spec c p : has_byte c p = true <-> c ∈ p.
Proof.
  unfold has_byte. rewrite existsb_exists. setoid_rewrite <- list_elem_of_In.
  split; [intros (x & Hx & E); apply Z.eqb_eq in E; by subst|intros H; exists c; split; [done|lia]].
Qed.
Lemma has_byte_app c p q : has_byte c (p ++ q) = has_byte c p || has_byte c q.
Proof. apply existsb_app. Qed.

(** A visible ASCII byte: none of these is trimmed. *)
Definition visible (c : Z) : Prop := 33 <= c < 127.
Lemma trim_left_visible fuel spaces c p :
  Forall (fun w => match w with d :: _ => d <> c | [] => False end) spaces ->
  trim_left fuel spaces (c :: p) = c :: p.
Proof.
  intros H. destruct fuel as [|fuel]; [done|]. cbn [trim_left].
  assert (drop_space spaces (c :: p) = None) as ->; [|done].
  unfold drop_space. induction H as [|w ws Hw _ IH]; [done|]. destruct w as [|d w]; [done|].
  change (omap ?f (?w :: ws)) with (match f w with Some y => y :: omap f ws | None => omap f ws end).
  cbn [strip_prefix]. destruct (Z.eqb_spec d c); [done|]. apply IH.
Qed.
Lemma TrimSpace_visible p : Forall visible p -> TrimSpace p = p.
Proof.
  intros H. unfold TrimSpace.
  assert (E : trim_left (length p) white_space p = p).
  { destruct H as [|c p Hc _]; [done|]. apply trim_left_visible.
    unfold visible in Hc. repeat (constructor; [lia|]). constructor. }
  rewrite E. assert (Hr : Forall visible (reverse p)) by by apply Forall_reverse.
  assert (E' : trim_left (length p) (map reverse white_space) (reverse p) = reverse p).
  { destruct Hr as [|c q Hc _]; [by destruct (length p)|]. apply trim_left_visible.
    unfold visible in Hc. vm_compute map. repeat (constructor; [lia|]). constructor. }
  by rewrite E', reverse_involutive.
Qed.
