(* ===== verification/AuthRecord.v ===== *)
(** * Authentication: the stored password record

    Models the credential half of [src/internal/server/auth.go]: the record a password is stored as
    ([encodePasswordRecord]), its verification ([verifyPasswordRecord]), and the policy of a new
    credential ([validNewCredential]). A Go string is its bytes, each a [Z]. Argon2 is third-party
    code and is a parameter. *)
From S2P Require Import Prelude GoStrings.
Local Open Scope Z_scope.

(** ** Base64 without padding

    [RawStdEncoding] and [RawURLEncoding] differ in their last two letters; decoding skips CR and LF,
    as Go's decoder does. *)
Definition b64_digit (c62 c63 i : Z) : Z :=
  if i <? 26 then 65 + i
  else if i <? 52 then 71 + i
  else if i <? 62 then i - 4
  else if i =? 62 then c62 else c63.

Definition b64_value (c62 c63 c : Z) : option Z :=
  if in_range 65 90 c then Some (c - 65)
  else if in_range 97 122 c then Some (c - 71)
  else if in_range 48 57 c then Some (c + 4)
  else if c =? c62 then Some 62
  else if c =? c63 then Some 63
  else None.

Fixpoint b64_encode (c62 c63 : Z) (p : bytes) : bytes :=
  let d := b64_digit c62 c63 in
  match p with
  | [] => []
  | [a] => [d (a / 4); d (a mod 4 * 16)]
  | [a; b] => [d (a / 4); d (a mod 4 * 16 + b / 16); d (b mod 16 * 4)]
  | a :: b :: c :: p' =>
      d (a / 4) :: d (a mod 4 * 16 + b / 16) :: d (b mod 16 * 4 + c / 64) :: d (c mod 64)
        :: b64_encode c62 c63 p'
  end.

Fixpoint b64_quads (vs : list Z) : option bytes :=
  match vs with
  | [] => Some []
  | [_] => None
  | [v; w] => Some [v * 4 + w / 16]
  | [v; w; x] => Some [v * 4 + w / 16; w mod 16 * 16 + x / 4]
  | v :: w :: x :: y :: vs' =>
      r ← b64_quads vs';
      Some (v * 4 + w / 16 :: w mod 16 * 16 + x / 4 :: x mod 4 * 64 + y :: r)
  end.

Definition b64_decode (c62 c63 : Z) (p : bytes) : option bytes :=
  vs ← mapM (b64_value c62 c63) (filter (fun c => c <> 10 /\ c <> 13) p); b64_quads vs.

Definition RawStd_encode : bytes -> bytes := b64_encode 43 47.
Definition RawStd_decode : bytes -> option bytes := b64_decode 43 47.
Definition RawURL_encode : bytes -> bytes := b64_encode 45 95.

(** The digits at the head of a text, and the rest; [None] without a digit. *)
Fixpoint scan_digits (p : bytes) (acc : Z) (any : bool) : option (Z * bytes) :=
  match p with
  | c :: p' => if in_range 48 57 c then scan_digits p' (acc * 10 + (c - 48)) true
               else if any then Some (acc, p) else None
  | [] => if any then Some (acc, []) else None
  end.

(** [fmt.Sprintf("m=%d,t=%d,p=%d", ...)] and its [Sscanf]. [Sscanf] also accepts texts [Sprintf]
    does not write (signs, leading zeros, trailing text); the caller compares its input with the
    canonical text, so only that one matters. *)
Definition params_text (m t p : Z) : bytes :=
  str "m=" ++ fmt_d m ++ str ",t=" ++ fmt_d t ++ str ",p=" ++ fmt_d p.

Definition scan_params (s : bytes) : option (Z * Z * Z) :=
  s1 ← strip_prefix (str "m=") s;
  '(m, s2) ← scan_digits s1 0 false;
  s3 ← strip_prefix (str ",t=") s2;
  '(t, s4) ← scan_digits s3 0 false;
  s5 ← strip_prefix (str ",p=") s4;
  '(p, _) ← scan_digits s5 0 false;
  if (m <? 2 ^ 32) && (t <? 2 ^ 32) && (p <? 2 ^ 8) then Some (m, t, p) else None.

(** [strings.Split(s, "$")]. *)
Fixpoint split_dollar (p : bytes) : list bytes :=
  match p with
  | [] => [[]]
  | c :: p' =>
      if c =? 36 then [] :: split_dollar p'
      else match split_dollar p' with
           | l :: ls => (c :: l) :: ls
           | [] => [[c]]
           end
  end.

(** ** The record *)
Definition authTokenBytes : nat := 32.
Definition authSaltBytes : nat := 16.
Definition authHashBytes : nat := 32.
Definition authArgonMemoryKiB : Z := 16 * 1024.
Definition authArgonIterations : Z := 2.
Definition authArgonParallelism : Z := 1.

Section record.
(* argon2.IDKey: password, salt, time, memory, threads, key length *)
Context (IDKey : bytes -> bytes -> Z -> Z -> Z -> nat -> bytes).

Definition encodePasswordRecord (password salt : bytes) : bytes :=
  let digest := IDKey password salt authArgonIterations authArgonMemoryKiB authArgonParallelism
                  authHashBytes in
  str "$argon2id$v=" ++ fmt_d 19 ++ str "$" ++
  params_text authArgonMemoryKiB authArgonIterations authArgonParallelism ++ str "$" ++
  RawStd_encode salt ++ str "$" ++ RawStd_encode digest.

Definition verifyPasswordRecord (password record : bytes) : bool :=
  match split_dollar record with
  | [p0; p1; p2; p3; p4; p5] =>
      if negb (bool_decide (p0 = [])) || negb (bool_decide (p1 = str "argon2id"))
         || negb (bool_decide (p2 = str "v=19")) then false
      else match scan_params p3 with
           | None => false
           | Some (memory, iterations, parallelism) =>
               if (memory <? 8 * 1024) || (64 * 1024 <? memory) || (iterations <? 1)
                  || (4 <? iterations) || (parallelism <? 1) || (4 <? parallelism)
                  || negb (bool_decide (p3 = params_text memory iterations parallelism))
               then false
               else match RawStd_decode p4, RawStd_decode p5 with
                    | Some salt, Some want =>
                        if negb (length salt =? authSaltBytes)%nat
                           || negb (length want =? authHashBytes)%nat then false
                        else bool_decide (IDKey password salt iterations memory parallelism
                                            (length want) = want)
                    | _, _ => false
                    end
           end
  | _ => false
  end.

Definition dummyPasswordRecord : bytes :=
  encodePasswordRecord (str "not-a-real-password") (str "wayhop-dummy-v1!").
End record.

(** ** The policy of a new credential *)
Definition authPasswordMinBytes : nat := 12.
Definition authPasswordMaxBytes : nat := 256.

Definition is_alnum (c : Z) : bool := in_range 65 90 c || in_range 97 122 c || in_range 48 57 c.
Definition is_name_char (c : Z) : bool := is_alnum c || (c =? 46) || (c =? 95) || (c =? 45).

(** [^[A-Za-z0-9][A-Za-z0-9._-]{0,63}$] *)
Definition authUsernamePattern (u : bytes) : bool :=
  match u with
  | [] => false
  | c :: u' => is_alnum c && forallb is_name_char u' && (length u' <=? 63)%nat
  end.

Record authCredentialRequest := mkCred { c_Username : bytes; c_Password : bytes; c_Skip : bool }.

Definition validNewCredential (request : authCredentialRequest) : bool :=
  authUsernamePattern (c_Username request) &&
  (authPasswordMinBytes <=? length (c_Password request))%nat &&
  (length (c_Password request) <=? authPasswordMaxBytes)%nat &&
  bool_decide (TrimSpace (c_Password request) = c_Password request) &&
  negb (existsb (fun c => (c =? 0) || (c =? 13) || (c =? 10)) (c_Password request)).

(** ** Round trip *)
Lemma b64_value_digit i : 0 <= i < 64 ->
  b64_value 43 47 (b64_digit 43 47 i) = Some i /\ b64_digit 43 47 i <> 10 /\
  b64_digit 43 47 i <> 13 /\ b64_digit 43 47 i <> 36.
Proof.
  intros H. assert (exists k, (k < 64)%nat /\ i = Z.of_nat k) as (k & Hk & ->)
    by (exists (Z.to_nat i); lia).
  do 64 (destruct k as [|k]; [done|]). lia.
Qed.

(** The six-bit groups of a byte string. *)
Fixpoint sextets (p : bytes) : list Z :=
  match p with
  | [] => []
  | [a] => [a / 4; a mod 4 * 16]
  | [a; b] => [a / 4; a mod 4 * 16 + b / 16; b mod 16 * 4]
  | a :: b :: c :: p' =>
      a / 4 :: a mod 4 * 16 + b / 16 :: b mod 16 * 4 + c / 64 :: c mod 64 :: sextets p'
  end.

(** Induction three bytes at a time. *)
Lemma bytes_ind3 (P : bytes -> Prop) :
  P [] -> (forall a, P [a]) -> (forall a b, P [a; b]) ->
  (forall a b c p, P p -> P (a :: b :: c :: p)) -> forall p, P p.
Proof.
  intros H0 H1 H2 H3. fix IH 1. intros [|a [|b [|c p]]]; [exact H0|apply H1|apply H2|].
  apply H3, IH.
Qed.

Lemma encode_sextets p : RawStd_encode p = map (b64_digit 43 47) (sextets p).
Proof.
  unfold RawStd_encode. induction p as [|a|a b|a b c p IH] using bytes_ind3; try done.
  cbn [b64_encode sextets map]. by rewrite IH.
Qed.

Lemma sextets_range p : Forall is_byte p -> Forall (fun v => 0 <= v < 64) (sextets p).
Proof.
  unfold is_byte. induction p as [|a|a b|a b c p IH] using bytes_ind3; intros H; cbn [sextets];
    rewrite ?Forall_cons in *; rewrite ?Forall_nil in *; intuition;
    try (by Z.to_euclidean_division_equations; lia).
Qed.

Lemma quads_sextets p : Forall is_byte p -> b64_quads (sextets p) = Some p.
Proof.
  unfold is_byte. induction p as [|a|a b|a b c p IH] using bytes_ind3; intros H;
    rewrite ?Forall_cons in H; [done| | |].
  - cbn [sextets b64_quads]. f_equal. f_equal. Z.to_euclidean_division_equations; lia.
  - cbn [sextets b64_quads]. f_equal. f_equal; [|f_equal]; Z.to_euclidean_division_equations; lia.
  - cbn [sextets b64_quads]. rewrite IH by apply H. simpl. f_equal.
    f_equal; [|f_equal; [|f_equal]]; Z.to_euclidean_division_equations; lia.
Qed.

Lemma decode_digits vs : Forall (fun v => 0 <= v < 64) vs ->
  mapM (b64_value 43 47) (filter (fun c => c <> 10 /\ c <> 13) (map (b64_digit 43 47) vs)) = Some vs /\
  36 ∉ map (b64_digit 43 47) vs.
Proof.
  induction 1 as [|v vs Hv _ [IH1 IH2]]; [split; [done|apply not_elem_of_nil]|].
  destruct (b64_value_digit v Hv) as (E & H1 & H2 & H3). cbn [map].
  rewrite filter_cons, decide_True by done. cbn [mapM]. rewrite E. simpl. rewrite IH1.
  split; [done|]. by apply not_elem_of_cons.
Qed.

Lemma RawStd_round_trip p : Forall is_byte p ->
  RawStd_decode (RawStd_encode p) = Some p /\ 36 ∉ RawStd_encode p.
Proof.
  intros H. destruct (decode_digits (sextets p) (sextets_range p H)) as [E Hn].
  rewrite encode_sextets. split; [|exact Hn]. unfold RawStd_decode, b64_decode. rewrite E. simpl.
  by apply quads_sextets.
Qed.

Lemma split_dollar_app p q : 36 ∉ p -> split_dollar (p ++ 36 :: q) = p :: split_dollar q.
Proof.
  induction p as [|c p IH]; intros H; [done|]. simpl. apply not_elem_of_cons in H as [Hc Hp].
  destruct (Z.eqb_spec c 36); [congruence|]. by rewrite IH.
Qed.
Lemma split_dollar_none p : 36 ∉ p -> split_dollar p = [p].
Proof.
  induction p as [|c p IH]; intros H; [done|]. simpl. apply not_elem_of_cons in H as [Hc Hp].
  destruct (Z.eqb_spec c 36); [congruence|]. by rewrite IH.
Qed.

(** A password record verifies exactly its password. The record stored for a password is well
    formed, and verifying any password against it succeeds exactly when Argon2, with the stored salt
    and parameters, gives the same digest. *)
Theorem verify_encoded IDKey password salt password' :
  (forall pw s t m p n, length (IDKey pw s t m p n) = n /\ Forall is_byte (IDKey pw s t m p n)) ->
  length salt = authSaltBytes -> Forall is_byte salt ->
  verifyPasswordRecord IDKey password' (encodePasswordRecord IDKey password salt) =
    bool_decide (
      IDKey password' salt authArgonIterations authArgonMemoryKiB authArgonParallelism authHashBytes =
      IDKey password salt authArgonIterations authArgonMemoryKiB authArgonParallelism authHashBytes).
Proof.
  intros HK Hlen Hsalt. unfold encodePasswordRecord.
  set (digest := IDKey password salt _ _ _ _).
  destruct (HK password salt authArgonIterations authArgonMemoryKiB authArgonParallelism authHashBytes)
    as [Hdl Hdb]. fold digest in Hdl, Hdb.
  destruct (RawStd_round_trip salt Hsalt) as [Es Hs36].
  destruct (RawStd_round_trip digest Hdb) as [Ed Hd36].
  set (P := params_text authArgonMemoryKiB authArgonIterations authArgonParallelism).
  assert (Hrec : split_dollar (str "$argon2id$v=" ++ fmt_d 19 ++ str "$" ++ P ++ str "$" ++
      RawStd_encode salt ++ str "$" ++ RawStd_encode digest) =
    [[]; str "argon2id"; str "v=19"; P; RawStd_encode salt; RawStd_encode digest]).
  { change (str "$argon2id$v=" ++ fmt_d 19 ++ str "$" ++ P ++ str "$" ++ ?r)
      with ([] ++ 36 :: str "argon2id" ++ 36 :: str "v=19" ++ 36 :: P ++ 36 :: r).
    change (str "$" ++ ?r) with (36 :: r).
    rewrite !split_dollar_app by (done || apply (bool_decide_unpack _); vm_compute; exact I).
    by rewrite split_dollar_none. }
  unfold verifyPasswordRecord. rewrite Hrec.
  rewrite !(bool_decide_true (_ = _)) by done. cbn [negb orb].
  assert (Hp : scan_params P = Some (authArgonMemoryKiB, authArgonIterations, authArgonParallelism))
    by (vm_compute; reflexivity).
  rewrite Hp. cbn -[encodePasswordRecord P RawStd_decode RawStd_encode authHashBytes authSaltBytes].
  rewrite bool_decide_true by done. rewrite Es, Ed, Hlen, Hdl. done.
Qed.

(** ** Witness: a stand-in for Argon2 with its documented shape *)
Definition toy_IDKey (pw salt : bytes) (t m p : Z) (n : nat) : bytes :=
  replicate n ((foldr Z.add 0 pw + foldr Z.add 0 salt) mod 256).

Lemma toy_IDKey_shape pw s t m p n :
  length (toy_IDKey pw s t m p n) = n /\ Forall is_byte (toy_IDKey pw s t m p n).
Proof.
  unfold toy_IDKey. split; [apply length_replicate|]. apply Forall_replicate. unfold is_byte.
  apply Z.mod_pos_bound. lia.
Qed.

Lemma verify_encoded_witness :
  let salt := str "wayhop-dummy-v1!" in
  verifyPasswordRecord toy_IDKey (str "guess") (encodePasswordRecord toy_IDKey (str "secret") salt) =
    bool_decide (
      toy_IDKey (str "guess") salt authArgonIterations authArgonMemoryKiB authArgonParallelism authHashBytes =
      toy_IDKey (str "secret") salt authArgonIterations authArgonMemoryKiB authArgonParallelism authHashBytes).
Proof.
  apply (verify_encoded toy_IDKey (str "secret") (str "wayhop-dummy-v1!") (str "guess")).
  - apply toy_IDKey_shape.
  - reflexivity.
  - unfold is_byte. vm_compute. repeat constructor; discriminate.
Defined.
