(* ===== verification/Auth.v ===== *)
(** * Authentication: sessions, lockout and the handlers

    Models [src/internal/server/auth.go]: the session table, the per-address lockout, the middleware
    [requireSession] and the setup, login, password, logout and status handlers. A request carries
    what the handlers read of it; the stored credentials and both tables are the manager's state.
    SHA-256 and Argon2 are arguments ([AuthRecord] models the password record); the random source
    and the config file's save are inputs of a request, which may fail. *)
From S2P Require Import Prelude GoStrings AuthRecord.
Local Open Scope Z_scope.
Local Open Scope go_scope.

(** Durations, in nanoseconds. *)
Definition Second : Z := 1000000000.
Definition Minute : Z := 60 * Second.
Definition Hour : Z := 60 * Minute.
Definition authSessionIdle : Z := 30 * Minute.
Definition authSessionAbsolute : Z := 12 * Hour.
Definition authFailureWindow : Z := 10 * Minute.
Definition authLockout : Z := 5 * Minute.
Definition authMaxFailures : Z := 5.

(** A [time.Time] in nanoseconds; [Sub] saturates. The zero time is [None]: any reading is more than
    the largest duration after it. *)
Definition time_Sub (a b : Z) : Z := Z.max min_int64 (Z.min max_int64 (a - b)).
Definition time_Sub0 (a : Z) (b : option Z) : Z :=
  match b with Some b => time_Sub a b | None => max_int64 end.
Definition After0 (a : option Z) (b : Z) : bool :=
  match a with Some a => b <? a | None => false end.

Record authSession := mkSession {
  Principal : bytes; CSRF : bytes; CreatedAt : Z; LastSeen : Z
}.
#[export] Instance eta_session : Eta authSession := fun s =>
  mkSession (Principal s) (CSRF s) (CreatedAt s) (LastSeen s).

Record authFailure := mkFailure {
  Count : Z; WindowStart : option Z; LockedUntil : option Z
}.
#[export] Instance eta_failure : Eta authFailure := fun f =>
  mkFailure (Count f) (WindowStart f) (LockedUntil f).
Definition no_failure : authFailure := mkFailure 0 None None.

(** [config.Auth]. *)
Record credentials_ := mkCreds { Username : bytes; PasswordHash : bytes; Disabled : bool }.
Definition RedactedMark : bytes := str "***".

Record authManager := mkManager {
  credentials : credentials_;
  sessions : gmap bytes authSession;    (* by the token's digest *)
  failures : gmap bytes authFailure     (* by the client's address *)
}.
#[export] Instance eta_manager : Eta authManager := fun m =>
  mkManager (credentials m) (sessions m) (failures m).

(** What a request is to these handlers: its method, the session cookie, the CSRF header, the peer's
    address, whether the development or demo bypass applies to it, its decoded bodies ([None] when
    decoding fails), the clock, the tokens the random source would give, a salt, and whether a save
    would succeed. *)
Record request := {
  rq_method : string;
  rq_cookie : option bytes;
  rq_csrf : bytes;
  rq_ip : bytes;
  rq_bypass : bool;
  rq_credential : option authCredentialRequest;
  rq_change : option (bytes * bytes * bytes);   (* username, current password, new password *)
  rq_now : Z;
  rq_token : option bytes;
  rq_token2 : option bytes;
  rq_salt : option bytes;
  rq_save_ok : bool
}.

Inductive response :=
| RError (status : Z) (code : string)
| RSession (status : Z) (principal csrf token : bytes)   (* sets the session cookie *)
| RPasswordless (status : Z)
| RStatus (configured authenticated passwordless : bool) (session : option authSession)
| RCleared.
#[export] Instance session_eq_dec : EqDecision authSession.
Proof. solve_decision. Defined.
#[export] Instance response_eq_dec : EqDecision response.
Proof. solve_decision. Defined.

Definition configured (m : authManager) : bool :=
  let auth := credentials m in
  negb (bool_decide (Username auth = [])) && negb (bool_decide (PasswordHash auth = []))
  && negb (bool_decide (PasswordHash auth = RedactedMark)).

Definition passwordless (m : authManager) : bool :=
  if configured m then false else Disabled (credentials m).

Definition requestMutates (method : string) : bool :=
  negb (bool_decide (method = "GET")) && negb (bool_decide (method = "HEAD"))
  && negb (bool_decide (method = "OPTIONS")).

(** [locked]: also forgets an entry whose lock or window is over. *)
Definition locked (m : authManager) (now : Z) (ip : bytes) : authManager * bool :=
  let failure := default no_failure (failures m !! ip) in
  if After0 (LockedUntil failure) now then (m, true)
  else if bool_decide (is_Some (LockedUntil failure))
          || (authFailureWindow <? time_Sub0 now (WindowStart failure))
  then (m <| failures := delete ip (failures m) |>, false)
  else (m, false).

Definition recordLogin (m : authManager) (now : Z) (ip : bytes) (success : bool) : authManager :=
  if success then m <| failures := delete ip (failures m) |>
  else
    let failure := default no_failure (failures m !! ip) in
    let failure :=
      if bool_decide (WindowStart failure = None)
         || (authFailureWindow <? time_Sub0 now (WindowStart failure))
      then mkFailure 0 (Some now) None else failure in
    let failure := failure <| Count := Count failure +! 1 |> in
    let failure := if authMaxFailures <=? Count failure
                   then failure <| LockedUntil := Some (now + authLockout) |> else failure in
    m <| failures := <[ip := failure]> (failures m) |>.

Definition revokeAllSessions (m : authManager) : authManager := m <| sessions := ∅ |>.

Section auth.
Context (IDKey : bytes -> bytes -> Z -> Z -> Z -> nat -> bytes) (sha256 : bytes -> bytes).

Definition constantTextEqual (left right : bytes) : bool :=
  bool_decide (sha256 left = sha256 right).

Definition cookie_digest (r : request) : option bytes :=
  match rq_cookie r with
  | Some c => if bool_decide (c = []) then None else Some (sha256 c)
  | None => None
  end.

Definition expired (now : Z) (s : authSession) : bool :=
  (authSessionIdle <=? time_Sub now (LastSeen s)) || (authSessionAbsolute <=? time_Sub now (CreatedAt s)).

Definition sessionForRequest (m : authManager) (r : request) (touch : bool)
    : authManager * option authSession :=
  match cookie_digest r with
  | None => (m, None)
  | Some digest =>
      match sessions m !! digest with
      | None => (m, None)
      | Some session =>
          let now := rq_now r in
          if expired now session then (m <| sessions := delete digest (sessions m) |>, None)
          else
            let session := if touch then session <| LastSeen := now |> else session in
            ((if touch then m <| sessions := <[digest := session]> (sessions m) |> else m),
             Some session)
      end
  end.

Definition revokeRequestSession (m : authManager) (r : request) : authManager :=
  match cookie_digest r with
  | Some digest => m <| sessions := delete digest (sessions m) |>
  | None => m
  end.

(** [newSession]: the session and its token; the caller's old session is gone either way. *)
Definition newSession (m : authManager) (r : request) (principal : bytes)
    : authManager * option (authSession * bytes) :=
  if bool_decide (principal = []) then (m, None)
  else
    let m1 := revokeRequestSession m r in
    match rq_token r, rq_token2 r with
    | Some token, Some csrf =>
        let session := mkSession principal csrf (rq_now r) (rq_now r) in
        (m1 <| sessions := <[sha256 token := session]> (sessions m1) |>, Some (session, token))
    | _, _ => (m1, None)
    end.

(** [requireSession]: the manager, and the principal the request goes on as, or the refusal. *)
Definition authLocalDemoPrincipal : bytes := str "local-demo".
Definition authPasswordlessPrincipal : bytes := str "no-password".

Definition requireSession (m : authManager) (r : request) : authManager * (bytes + response) :=
  if rq_bypass r then (m, inl authLocalDemoPrincipal)
  else if passwordless m then (m, inl authPasswordlessPrincipal)
  else if negb (configured m) then (m, inr (RError 403 "AUTH_SETUP_REQUIRED"))
  else
    let '(m1, session) := sessionForRequest m r true in
    match session with
    | None => (m1, inr (RError 401 "AUTH_REQUIRED"))
    | Some session =>
        if requestMutates (rq_method r) && negb (constantTextEqual (rq_csrf r) (CSRF session))
        then (m1, inr (RError 403 "AUTH_CSRF_REQUIRED"))
        else (m1, inl (Principal session))
    end.

Definition handleAuthStatus (m : authManager) (r : request) : authManager * response :=
  if rq_bypass r then (m, RStatus true true false None)
  else if configured m then
    let '(m1, session) := sessionForRequest m r true in
    (m1, RStatus true (bool_decide (is_Some session)) false session)
  else (m, RStatus false (passwordless m) (passwordless m) None).

(** [hashPassword] with its salt; the record must verify before it is stored. *)
Definition hashPassword (r : request) (password : bytes) : option bytes :=
  salt ← rq_salt r; Some (encodePasswordRecord IDKey password salt).

Definition checked_hash (r : request) (password : bytes) : option bytes :=
  record ← hashPassword r password;
  if verifyPasswordRecord IDKey password record then Some record else None.

Definition save (m : authManager) (r : request) (c : credentials_) : option authManager :=
  if rq_save_ok r then Some (m <| credentials := c |>) else None.

Definition finish (status : Z) (failed : response) (x : authManager * option (authSession * bytes))
    : authManager * response :=
  match x with
  | (m, Some (session, token)) => (m, RSession status (Principal session) (CSRF session) token)
  | (m, None) => (m, failed)
  end.

Definition unavailable : response := RError 503 "AUTH_UNAVAILABLE".

Definition handleAuthSetup (m : authManager) (r : request) : authManager * response :=
  if configured m then (m, RError 403 "AUTH_ALREADY_CONFIGURED")
  else match rq_credential r with
       | None => (m, RError 400 "AUTH_INVALID_REQUEST")
       | Some request =>
           if c_Skip request then
             match save m r (mkCreds [] [] true) with
             | None => (m, unavailable)
             | Some m1 => (m1, RPasswordless 201)
             end
           else if negb (validNewCredential request) then (m, RError 400 "AUTH_INVALID_REQUEST")
           else match checked_hash r (c_Password request) with
                | None => (m, unavailable)
                | Some record =>
                    match save m r (mkCreds (c_Username request) record false) with
                    | None => (m, unavailable)
                    | Some m1 => finish 201 unavailable (newSession m1 r (c_Username request))
                    end
                end
       end.

(** The record a password is checked against: the stored one, or the dummy. *)
Definition record_or_dummy (m : authManager) : bytes :=
  let record := PasswordHash (credentials m) in
  if bool_decide (record = []) || bool_decide (record = RedactedMark)
  then dummyPasswordRecord IDKey else record.

Definition login_ok (m : authManager) (r : request) : bool :=
  let request := default (mkCred [] [] false) (rq_credential r) in
  bool_decide (is_Some (rq_credential r))
  && verifyPasswordRecord IDKey (c_Password request) (record_or_dummy m)
  && constantTextEqual (c_Username request) (Username (credentials m)) && configured m.

Definition handleAuthLogin (m : authManager) (r : request) : authManager * response :=
  let ip := rq_ip r in
  let '(m1, is_locked) := locked m (rq_now r) ip in
  if is_locked then (m1, RError 429 "AUTH_RATE_LIMITED")
  else
    let success := login_ok m1 r in
    let m2 := recordLogin m1 (rq_now r) ip success in
    if negb success then (m2, RError 401 "AUTH_INVALID_CREDENTIALS")
    else finish 200 unavailable (newSession m2 r (Username (credentials m2))).

(** The name the changed credential gets: the one asked for, or the stored one. *)
Definition change_principal (m : authManager) (username : bytes) : bytes :=
  if bool_decide (username = []) then Username (credentials m) else username.

Definition handleAuthPassword (m : authManager) (r : request) : authManager * response :=
  if negb (configured m) then (m, RError 403 "AUTH_SETUP_REQUIRED")
  else
    let ip := rq_ip r in
    let '(m1, is_locked) := locked m (rq_now r) ip in
    if is_locked then (m1, RError 429 "AUTH_RATE_LIMITED")
    else match rq_change r with
         | None => (m1, RError 400 "AUTH_INVALID_REQUEST")
         | Some (username, current, new) =>
             let principal := change_principal m1 username in
             if negb (validNewCredential (mkCred principal new false))
             then (m1, RError 400 "AUTH_INVALID_REQUEST")
             else
               let ok := verifyPasswordRecord IDKey current (record_or_dummy m1) && configured m1 in
               let m2 := recordLogin m1 (rq_now r) ip ok in
               if negb ok then (m2, RError 401 "AUTH_INVALID_CREDENTIALS")
               else match checked_hash r new with
                    | None => (m2, unavailable)
                    | Some next =>
                        match save m2 r (mkCreds principal next false) with
                        | None => (m2, unavailable)
                        | Some m3 => finish 200 unavailable (newSession (revokeAllSessions m3) r principal)
                        end
                    end
         end.

Definition handleAuthLogout (m : authManager) (r : request) : authManager * response :=
  (revokeRequestSession m r, RCleared).

(** ** Histories of requests *)
Inductive op := OAccess (r : request) | OStatus (r : request) | OSetup (r : request)
  | OLogin (r : request) | OPassword (r : request) | OLogout (r : request).
Inductive outcome := Granted (principal : bytes) | Answer (a : response).

Definition answer (x : authManager * response) : authManager * outcome := (x.1, Answer x.2).

(** [route] wraps the handlers of the protected routes in [requireSession]. *)
Definition route_protected (h : authManager -> request -> authManager * response)
    (m : authManager) (r : request) : authManager * outcome :=
  match requireSession m r with
  | (m1, inl _) => answer (h m1 r)
  | (m1, inr a) => (m1, Answer a)
  end.

Definition serve (m : authManager) (o : op) : authManager * outcome :=
  match o with
  | OAccess r => match requireSession m r with
                 | (m1, inl p) => (m1, Granted p)
                 | (m1, inr a) => (m1, Answer a)
                 end
  | OStatus r => answer (handleAuthStatus m r)
  | OSetup r => answer (handleAuthSetup m r)
  | OLogin r => answer (handleAuthLogin m r)
  | OPassword r => route_protected handleAuthPassword m r
  | OLogout r => route_protected handleAuthLogout m r
  end.

Definition req (o : op) : request :=
  match o with OAccess r | OStatus r | OSetup r | OLogin r | OPassword r | OLogout r => r end.

(** What was served, newest first. *)
Inductive history (m0 : authManager) : authManager -> list (op * outcome) -> Prop :=
| history_nil : history m0 m0 []
| history_cons m tr o : history m0 m tr ->
    history m0 (serve m o).1 ((o, (serve m o).2) :: tr).

Fixpoint run (m0 : authManager) (os : list op) : authManager * list (op * outcome) :=
  match os with
  | [] => (m0, [])
  | o :: os' => let '(m, tr) := run m0 os' in ((serve m o).1, (o, (serve m o).2) :: tr)
  end.
Lemma run_history m0 os : history m0 (run m0 os).1 (run m0 os).2.
Proof.
  induction os as [|o os IH]; [constructor|]. simpl. destruct (run m0 os) as [m tr]. by constructor.
Qed.

(** ** A session is one that was handed out and not revoked since

    The session a digest names, read off the history: issued by the last answer that set its cookie,
    unless a later logout with that cookie, sign-in with it, or password change ended it. *)
Fixpoint holder (tr : list (op * outcome)) (d : bytes) : option (bytes * bytes * Z) :=
  match tr with
  | [] => None
  | (o, Answer (RSession _ p c tok)) :: tr' =>
      if bool_decide (sha256 tok = d) then Some (p, c, rq_now (req o))
      else match o with
           | OPassword _ => None
           | _ => if bool_decide (cookie_digest (req o) = Some d) then None else holder tr' d
           end
  | (OLogout r, Answer RCleared) :: tr' => if bool_decide (cookie_digest r = Some d) then None else holder tr' d
  | _ :: tr' => holder tr' d
  end.

Definition of_session (s : authSession) : bytes * bytes * Z := (Principal s, CSRF s, CreatedAt s).

(** Every stored session is issued, and not revoked. *)
Definition sessions_held (m : authManager) (tr : list (op * outcome)) : Prop :=
  forall d s, sessions m !! d = Some s -> holder tr d = Some (of_session s).

(** The table after a step is the table before with sessions removed or touched. *)
Definition shrinks (m m' : authManager) : Prop :=
  forall d s', sessions m' !! d = Some s' ->
    exists s, sessions m !! d = Some s /\ of_session s' = of_session s.

Lemma shrinks_refl m m' : sessions m' = sessions m -> shrinks m m'.
Proof. intros E d s. rewrite E. by exists s. Qed.
Lemma shrinks_trans m1 m2 m3 : shrinks m1 m2 -> shrinks m2 m3 -> shrinks m1 m3.
Proof.
  intros H1 H2 d s3 H. destruct (H2 d s3 H) as (s2 & Hs2 & E2). destruct (H1 d s2 Hs2) as (s1 & ? & ?).
  exists s1. split; [done|congruence].
Qed.
Lemma shrinks_delete m d : shrinks m (m <| sessions := delete d (sessions m) |>).
Proof. intros d' s H. simpl in H. apply lookup_delete_Some in H as [_ H]. by exists s. Qed.

Lemma sessionForRequest_shrinks m r touch : shrinks m (sessionForRequest m r touch).1.
Proof.
  unfold sessionForRequest. destruct (cookie_digest r) as [d|]; [|by apply shrinks_refl].
  destruct (sessions m !! d) as [s|] eqn:E; [|by apply shrinks_refl].
  destruct (expired (rq_now r) s); [apply shrinks_delete|].
  destruct touch; [|by apply shrinks_refl]. intros d' s' H. simpl in H.
  destruct (decide (d = d')) as [<-|Hne].
  - rewrite lookup_insert_eq in H. injection H as <-. by exists s.
  - rewrite lookup_insert_ne in H by done. by exists s'.
Qed.

Lemma revokeRequestSession_shrinks m r : shrinks m (revokeRequestSession m r).
Proof.
  unfold revokeRequestSession. case_match; [apply shrinks_delete|by apply shrinks_refl].
Qed.

Lemma locked_sessions m now ip : sessions (locked m now ip).1 = sessions m /\
  credentials (locked m now ip).1 = credentials m.
Proof. unfold locked. by repeat case_match. Qed.
Lemma recordLogin_sessions m now ip ok : sessions (recordLogin m now ip ok) = sessions m /\
  credentials (recordLogin m now ip ok) = credentials m.
Proof. unfold recordLogin. by case_match. Qed.
Lemma save_sessions m r c m' : save m r c = Some m' -> sessions m' = sessions m /\ credentials m' = c.
Proof. unfold save. case_match; [|done]. by intros [= <-]. Qed.

(** A new session: the caller's old one is gone, the new one is in, nothing else appears. *)
Lemma newSession_spec m r p : match newSession m r p with
  | (m', None) => shrinks m m'
  | (m', Some (s, tok)) =>
      of_session s = (p, CSRF s, rq_now r) /\
      forall d s', sessions m' !! d = Some s' ->
        (sha256 tok = d /\ s' = s) \/
        (sha256 tok <> d /\ cookie_digest r <> Some d /\ sessions m !! d = Some s')
  end.
Proof.
  unfold newSession. case_bool_decide; [by apply shrinks_refl|].
  pose proof (revokeRequestSession_shrinks m r) as Hs.
  destruct (rq_token r) as [tok|]; [|done]. destruct (rq_token2 r) as [csrf|]; [|done].
  split; [done|]. intros d s' H'. simpl in H'.
  destruct (decide (sha256 tok = d)) as [<-|Hne].
  - rewrite lookup_insert_eq in H'. injection H' as <-. by left.
  - rewrite lookup_insert_ne in H' by done. right. split; [done|].
    unfold revokeRequestSession in H'. destruct (cookie_digest r) as [d'|]; [|done].
    simpl in H'. apply lookup_delete_Some in H' as [? ?]. split; [congruence|done].
Qed.

Lemma held_shrinks m m' tr tr' : sessions_held m tr -> shrinks m m' ->
  (forall d, is_Some (sessions m' !! d) -> holder tr' d = holder tr d) -> sessions_held m' tr'.
Proof.
  intros Hh Hs Ht d s' H. rewrite Ht by (by eexists).
  destruct (Hs d s' H) as (s & Hs' & ->). by apply Hh.
Qed.

Lemma requireSession_spec m r :
  shrinks m (requireSession m r).1 /\
  credentials (requireSession m r).1 = credentials m /\
  failures (requireSession m r).1 = failures m /\
  match (requireSession m r).2 with
  | inl _ => True
  | inr a => a = RError 403 "AUTH_SETUP_REQUIRED" \/ a = RError 401 "AUTH_REQUIRED" \/
             a = RError 403 "AUTH_CSRF_REQUIRED"
  end.
Proof.
  unfold requireSession. pose proof (sessionForRequest_shrinks m r true) as Hs.
  assert (Hc : credentials (sessionForRequest m r true).1 = credentials m /\
               failures (sessionForRequest m r true).1 = failures m)
    by (unfold sessionForRequest; by repeat case_match).
  destruct Hc as [Hc Hf].
  destruct (rq_bypass r); [split_and!; try done; by apply shrinks_refl|].
  destruct (passwordless m); [split_and!; try done; by apply shrinks_refl|].
  destruct (negb (configured m)); [split_and!; try done; [by apply shrinks_refl|by left]|].
  destruct (sessionForRequest m r true) as [m1 [s|]]; cbn [fst snd] in *; [|by split_and!; auto].
  destruct (_ && _); cbn [fst snd]; by split_and!; auto.
Qed.

(** The end of a handler: either a session or a refusal. *)
Lemma held_finish m0 m r p status failed tr o :
  sessions_held m0 tr -> shrinks m0 m -> req o = r ->
  (match failed with RSession _ _ _ _ => False | _ => True end) ->
  (match o with OLogout _ => False | OPassword _ => sessions m = ∅ | _ => True end) ->
  let x := finish status failed (newSession m r p) in
  sessions_held x.1 ((o, Answer x.2) :: tr).
Proof.
  intros Hh Hs Hr Hf Ho x. pose proof (newSession_spec m r p) as Hn. unfold x, finish.
  destruct (newSession m r p) as [m' [[s tok]|]]; cbn [fst snd].
  - destruct Hn as [Es Hn]. intros d s' H. destruct (Hn d s' H) as [[Ed ->]|(Ed & Ec & Hd)].
    + cbn [holder]. rewrite bool_decide_true by done. rewrite Hr.
      unfold of_session in *. destruct o; congruence.
    + cbn [holder]. rewrite bool_decide_false by done. destruct (Hs d s' Hd) as (s0 & Hs0 & E0).
      assert (Hgo : (if bool_decide (cookie_digest (req o) = Some d) then None else holder tr d) = Some (of_session s')).
      { rewrite bool_decide_false by (by rewrite Hr). rewrite E0. by apply Hh. }
      destruct o; try done. exfalso. rewrite Ho, lookup_empty in Hd. done.
  - eapply held_shrinks; [exact Hh|by eapply shrinks_trans|]. intros d _.
    destruct failed; try done; by destruct o.
Qed.

Lemma password_held m r tr : sessions_held m tr ->
  sessions_held (handleAuthPassword m r).1 ((OPassword r, Answer (handleAuthPassword m r).2) :: tr).
Proof.
  intros Hh. unfold handleAuthPassword.
  destruct (negb (configured m)); [by eapply held_shrinks; [|apply shrinks_refl|]|].
  destruct (locked_sessions m (rq_now r) (rq_ip r)) as [El _].
  destruct (locked m (rq_now r) (rq_ip r)) as [m1 b]; cbn [fst] in El.
  destruct b; [by eapply held_shrinks; [|apply shrinks_refl|]|].
  destruct (rq_change r) as [[[u cur] new]|]; [|by eapply held_shrinks; [|apply shrinks_refl|]].
  destruct (negb (validNewCredential _)); [by eapply held_shrinks; [|apply shrinks_refl|]|].
  set (ok := verifyPasswordRecord IDKey cur (record_or_dummy m1) && configured m1).
  destruct (recordLogin_sessions m1 (rq_now r) (rq_ip r) ok) as [Er _].
  set (m2 := recordLogin _ _ _ _) in *.
  destruct (negb ok); [eapply held_shrinks; [done|apply shrinks_refl; by etrans|done]|].
  destruct (checked_hash r new) as [rec|];
    [|eapply held_shrinks; [done|apply shrinks_refl; by etrans|done]].
  destruct (save m2 r _) as [m3|] eqn:E;
    [|eapply held_shrinks; [done|apply shrinks_refl; by etrans|done]].
  eapply held_finish; [done| |done..]. intros d s H. simpl in H. by rewrite lookup_empty in H.
Qed.

Lemma logout_held m r tr : sessions_held m tr ->
  sessions_held (handleAuthLogout m r).1 ((OLogout r, Answer (handleAuthLogout m r).2) :: tr).
Proof.
  intros Hh. unfold handleAuthLogout. cbn [fst snd]. intros d s H.
  unfold revokeRequestSession in H. cbn [holder].
  destruct (cookie_digest r) as [d'|] eqn:E; simpl in H.
  + apply lookup_delete_Some in H as [Hne H]. rewrite bool_decide_false by congruence. by apply Hh.
  + by apply Hh.
Qed.

Lemma protected_held h o m r tr :
  (forall m, sessions_held m tr -> sessions_held (h m r).1 ((o, Answer (h m r).2) :: tr)) ->
  sessions_held m tr ->
  sessions_held (route_protected h m r).1 ((o, (route_protected h m r).2) :: tr).
Proof.
  intros Hstep Hh. unfold route_protected. destruct (requireSession_spec m r) as (Hs & _ & _ & Ha).
  destruct (requireSession m r) as [m1 [p|a]]; cbn [fst snd] in *.
  - apply Hstep. by eapply held_shrinks.
  - destruct Ha as [->|[->| ->]]; (eapply held_shrinks; [done|done|by destruct o]).
Qed.

Lemma serve_held m o tr : sessions_held m tr ->
  sessions_held (serve m o).1 ((o, (serve m o).2) :: tr).
Proof.
  intros Hh. destruct o as [r|r|r|r|r|r]; cbn [serve].
  - destruct (requireSession_spec m r) as (Hs & _ & _ & Ha).
    destruct (requireSession m r) as [m1 [p|a]]; cbn [fst snd] in *; [by eapply held_shrinks|].
    destruct Ha as [->|[->| ->]]; by eapply held_shrinks.
  - unfold handleAuthStatus. pose proof (sessionForRequest_shrinks m r true) as Hs.
    destruct (rq_bypass r); [by eapply held_shrinks; [|apply shrinks_refl|]|].
    destruct (configured m); [|by eapply held_shrinks; [|apply shrinks_refl|]].
    destruct (sessionForRequest m r true) as [m1 s]; cbn [fst] in Hs. by eapply held_shrinks.
  - unfold answer, handleAuthSetup.
    destruct (configured m); [by eapply held_shrinks; [|apply shrinks_refl|]|].
    destruct (rq_credential r) as [c|]; [|by eapply held_shrinks; [|apply shrinks_refl|]].
    destruct (c_Skip c).
    { destruct (save m r _) as [m1|] eqn:E; [apply save_sessions in E as [E _]|];
        by eapply held_shrinks; [|apply shrinks_refl|]. }
    destruct (negb (validNewCredential c)); [by eapply held_shrinks; [|apply shrinks_refl|]|].
    destruct (checked_hash r (c_Password c)) as [rec|]; [|by eapply held_shrinks; [|apply shrinks_refl|]].
    destruct (save m r _) as [m1|] eqn:E; [|by eapply held_shrinks; [|apply shrinks_refl|]].
    apply save_sessions in E as [E _]. by eapply held_finish; [|apply shrinks_refl|..].
  - unfold answer, handleAuthLogin. destruct (locked_sessions m (rq_now r) (rq_ip r)) as [El _].
    destruct (locked m (rq_now r) (rq_ip r)) as [m1 b]; cbn [fst] in El.
    destruct b; [by eapply held_shrinks; [|apply shrinks_refl|]|].
    destruct (recordLogin_sessions m1 (rq_now r) (rq_ip r) (login_ok m1 r)) as [Er _].
    set (m2 := recordLogin _ _ _ _) in *.
    destruct (negb (login_ok m1 r)); [eapply held_shrinks; [done|apply shrinks_refl; by etrans|done]|].
    eapply held_finish; [done|apply shrinks_refl; by etrans|done..].
  - by apply protected_held; [intros; apply password_held|].
  - by apply protected_held; [intros; apply logout_held|].
Qed.

Lemma history_held m0 m tr : sessions m0 = ∅ -> history m0 m tr -> sessions_held m tr.
Proof.
  intros H0 H. induction H as [|m tr o _ IH]; [|by apply serve_held].
  intros d s Hs. by rewrite H0, lookup_empty in Hs.
Qed.

(** C13: only a live, unrevoked session opens a protected route. Whatever requests were served before,
    when a configured panel lets a request through (outside the bypass), its cookie names a session
    that sign-in, setup or a password change handed out to that principal less than 12 hours ago and
    used less than 30 minutes ago, that no logout, sign-in or password change has revoked since; and
    a request that changes something carries that session's CSRF token. *)
Theorem access_needs_session m0 m tr r m' p :
  sessions m0 = ∅ -> history m0 m tr ->
  configured m = true -> rq_bypass r = false -> requireSession m r = (m', inl p) ->
  exists d csrf issued s,
    cookie_digest r = Some d /\ holder tr d = Some (p, csrf, issued) /\
    sessions m !! d = Some s /\
    time_Sub (rq_now r) issued < authSessionAbsolute /\
    time_Sub (rq_now r) (LastSeen s) < authSessionIdle /\
    (requestMutates (rq_method r) = true -> sha256 (rq_csrf r) = sha256 csrf).
Proof.
  intros H0 Hh Hc Hb. pose proof (history_held m0 m tr H0 Hh) as Hheld.
  unfold requireSession, passwordless. rewrite Hb, Hc. cbn [negb].
  unfold sessionForRequest. destruct (cookie_digest r) as [d|] eqn:Ed; [|done].
  destruct (sessions m !! d) as [s|] eqn:Es; [|done].
  destruct (expired (rq_now r) s) eqn:Ex; [done|].
  unfold expired in Ex. bool_facts. cbn [CSRF Principal set_field].
  destruct (requestMutates (rq_method r) && negb (constantTextEqual (rq_csrf r) _)) eqn:Em; [done|].
  intros [= _ <-]. exists d, (CSRF s), (CreatedAt s), s.
  split_and!; [done|by apply Hheld|done|lia|lia|]. intros Hm. rewrite Hm in Em. simpl in Em.
  apply negb_false_iff, bool_decide_eq_true in Em. exact Em.
Qed.

(** ** The credential *)
Lemma newSession_credentials m r p : credentials (newSession m r p).1 = credentials m.
Proof.
  unfold newSession, revokeRequestSession. case_bool_decide; [done|].
  destruct (cookie_digest r), (rq_token r), (rq_token2 r); done.
Qed.
Lemma finish_credentials st failed m r p : credentials (finish st failed (newSession m r p)).1 = credentials m.
Proof.
  rewrite <- (newSession_credentials m r p). unfold finish. by destruct (newSession m r p) as [m' [[s t]|]].
Qed.
Lemma sessionForRequest_credentials m r t : credentials (sessionForRequest m r t).1 = credentials m.
Proof. unfold sessionForRequest. by repeat case_match. Qed.

Lemma encoded_not_redacted pw salt :
  encodePasswordRecord IDKey pw salt <> [] /\ encodePasswordRecord IDKey pw salt <> RedactedMark.
Proof. unfold encodePasswordRecord. by split. Qed.

Lemma checked_hash_some r pw record : checked_hash r pw = Some record ->
  verifyPasswordRecord IDKey pw record = true /\ record <> [] /\ record <> RedactedMark.
Proof.
  unfold checked_hash, hashPassword. destruct (rq_salt r) as [salt|]; simpl; [|done].
  destruct (verifyPasswordRecord IDKey pw _) eqn:E; [|done]. intros [= <-].
  split; [done|]. apply encoded_not_redacted.
Qed.

Lemma valid_name_nonempty c : validNewCredential c = true -> c_Username c <> [].
Proof. unfold validNewCredential, authUsernamePattern. by destruct (c_Username c). Qed.

Lemma configured_creds m c : credentials m = c -> Username c <> [] -> PasswordHash c <> [] ->
  PasswordHash c <> RedactedMark -> configured m = true.
Proof. intros <- H1 H2 H3. unfold configured. by rewrite !bool_decide_false. Qed.

Lemma configured_same m m' : credentials m' = credentials m -> configured m' = configured m.
Proof. intros E. unfold configured. by rewrite E. Qed.

(** The credential after a request, and why it changed. *)
Inductive changes (m : authManager) (c' : credentials_) : op -> Prop :=
| change_decline r c : configured m = false -> rq_credential r = Some c -> c_Skip c = true ->
    c' = mkCreds [] [] true -> changes m c' (OSetup r)
| change_setup r c record : configured m = false -> rq_credential r = Some c ->
    validNewCredential c = true -> verifyPasswordRecord IDKey (c_Password c) record = true ->
    c' = mkCreds (c_Username c) record false -> record <> [] -> record <> RedactedMark ->
    changes m c' (OSetup r)
| change_password r u cur new record p m1 : configured m = true ->
    requireSession m r = (m1, inl p) ->
    rq_change r = Some (u, cur, new) ->
    verifyPasswordRecord IDKey cur (PasswordHash (credentials m)) = true ->
    validNewCredential (mkCred (change_principal m u) new false) = true ->
    verifyPasswordRecord IDKey new record = true ->
    c' = mkCreds (change_principal m u) record false -> record <> [] -> record <> RedactedMark ->
    changes m c' (OPassword r).

Lemma record_stored m : configured m = true -> record_or_dummy m = PasswordHash (credentials m).
Proof.
  unfold configured, record_or_dummy. intros H. bool_facts. by rewrite !bool_decide_false.
Qed.

Lemma password_credentials m r : credentials (handleAuthPassword m r).1 = credentials m \/
  exists u cur new record, configured m = true /\ rq_change r = Some (u, cur, new) /\
    verifyPasswordRecord IDKey cur (PasswordHash (credentials m)) = true /\
    validNewCredential (mkCred (change_principal m u) new false) = true /\
    verifyPasswordRecord IDKey new record = true /\ record <> [] /\ record <> RedactedMark /\
    credentials (handleAuthPassword m r).1 = mkCreds (change_principal m u) record false.
Proof.
  unfold handleAuthPassword. destruct (configured m) eqn:Ec; [|by left]. cbn [negb].
  destruct (locked_sessions m (rq_now r) (rq_ip r)) as [_ El].
  destruct (locked m (rq_now r) (rq_ip r)) as [m1 b]; cbn [fst] in El. destruct b; [by left|].
  destruct (rq_change r) as [[[u cur] new]|] eqn:Ech; [|by left].
  assert (Hp : change_principal m1 u = change_principal m u) by (unfold change_principal; by rewrite El).
  rewrite Hp. destruct (validNewCredential _) eqn:Ev; [|by left]. cbn [negb].
  assert (Ec1 : configured m1 = true) by (by rewrite (configured_same m m1 El)).
  rewrite (record_stored m1 Ec1), El, Ec1, andb_true_r.
  destruct (verifyPasswordRecord IDKey cur (PasswordHash (credentials m))) eqn:Eok.
  2: { left. cbn [negb fst]. destruct (recordLogin_sessions m1 (rq_now r) (rq_ip r) false) as [_ ->]. done. }
  destruct (recordLogin_sessions m1 (rq_now r) (rq_ip r) true) as [_ Er]. cbn [negb].
  destruct (checked_hash r new) as [rec|] eqn:Eh; [|left; cbn [fst]; congruence].
  destruct (save _ r _) as [m3|] eqn:E; [|left; cbn [fst]; congruence].
  apply save_sessions in E as [_ E]. apply checked_hash_some in Eh as (H1 & H2 & H3).
  right. cbn [fst]. rewrite finish_credentials.
  change (credentials (revokeAllSessions m3)) with (credentials m3). by exists u, cur, new, rec.
Qed.

Lemma serve_credentials m o :
  credentials (serve m o).1 = credentials m \/ changes m (credentials (serve m o).1) o.
Proof.
  destruct o as [r|r|r|r|r|r]; cbn [serve].
  - left. destruct (requireSession_spec m r) as (_ & E & _ & _).
    by destruct (requireSession m r) as [m1 [p|a]].
  - left. unfold answer, handleAuthStatus. pose proof (sessionForRequest_credentials m r true) as E.
    destruct (rq_bypass r); [done|]. destruct (configured m); [|done].
    by destruct (sessionForRequest m r true).
  - unfold answer, handleAuthSetup. destruct (configured m) eqn:Ec; [by left|].
    destruct (rq_credential r) as [c|] eqn:Er; [|by left]. destruct (c_Skip c) eqn:Es.
    { destruct (save m r _) as [m1|] eqn:E; [|by left]. apply save_sessions in E as [_ E].
      right. by eapply change_decline. }
    destruct (validNewCredential c) eqn:Ev; [|by left]. cbn [negb].
    destruct (checked_hash r (c_Password c)) as [rec|] eqn:Eh; [|by left].
    destruct (save m r _) as [m1|] eqn:E; [|by left]. apply save_sessions in E as [_ E].
    apply checked_hash_some in Eh as (H1 & H2 & H3). right. cbn [fst]. rewrite finish_credentials.
    by eapply change_setup.
  - left. unfold answer, handleAuthLogin. destruct (locked_sessions m (rq_now r) (rq_ip r)) as [_ El].
    destruct (locked m (rq_now r) (rq_ip r)) as [m1 b]; cbn [fst] in El. destruct b; [done|].
    destruct (recordLogin_sessions m1 (rq_now r) (rq_ip r) (login_ok m1 r)) as [_ Er].
    cbn [fst]. case_match; cbn [fst]; [congruence|]. rewrite finish_credentials. congruence.
  - unfold route_protected. destruct (requireSession_spec m r) as (_ & E & _ & _).
    destruct (requireSession m r) as [m1 [p|a]] eqn:Er; cbn [fst snd answer] in *; [|by left].
    destruct (password_credentials m1 r) as [Hp|(u & cur & new & rec & H1 & H2 & H3 & H4 & H5 & H6 & H7 & H8)];
      [left; congruence|right]. rewrite (configured_same _ _ E) in H1. unfold change_principal in *.
    rewrite E in H3, H4, H8. by eapply change_password.
  - left. unfold route_protected. destruct (requireSession_spec m r) as (_ & E & _ & _).
    destruct (requireSession m r) as [m1 [p|a]]; cbn [fst snd answer] in *; [|done].
    rewrite <- E. unfold handleAuthLogout, revokeRequestSession. cbn [fst]. by case_match.
Qed.

(** The password cannot be taken off. No request turns a configured panel's authentication off or
    replaces its credential, except a password change that was let through and presents the current
    password, and then the new credential meets the policy and verifies; first-run setup (or declining a password) works
    only while none is configured. *)
Theorem credential_changes_are_authorised m o :
  (configured m = true -> configured (serve m o).1 = true) /\
  (credentials (serve m o).1 <> credentials m -> changes m (credentials (serve m o).1) o).
Proof.
  destruct (serve_credentials m o) as [E|H].
  - split; [by rewrite (configured_same m _ E)|done].
  - split; [|done]. intros Hc. remember (credentials (serve m o).1) as c' eqn:Ec'. symmetry in Ec'.
    apply (configured_creds _ _ Ec'); destruct H as [r c H|r c rec H|r u cur new rec p m1 _ _ _ _ Hv _ E Hn Hr];
      try congruence; rewrite E; [by apply (valid_name_nonempty _ Hv)|done|done].
Qed.

(** ** Guessing is slow

    The times of the wrong guesses one address made, newest first: sign-ins and password changes
    that were checked and refused, since its last accepted one. *)
Definition is_guess (o : op) (ip : bytes) : bool :=
  match o with OLogin r | OPassword r => bool_decide (rq_ip r = ip) | _ => false end.
Definition wrong (a : response) : bool := bool_decide (a = RError 401 "AUTH_INVALID_CREDENTIALS").
Definition accepted (a : response) : bool :=
  match a with RSession _ _ _ _ => true | _ => bool_decide (a = unavailable) end.

Definition guesses_after (a : response) (now : Z) (gs : list Z) : list Z :=
  if wrong a then now :: gs else if accepted a then [] else gs.

Fixpoint guesses (ip : bytes) (tr : list (op * outcome)) : list Z :=
  match tr with
  | [] => []
  | (o, Answer a) :: tr' =>
      if is_guess o ip then guesses_after a (rq_now (req o)) (guesses ip tr') else guesses ip tr'
  | _ :: tr' => guesses ip tr'
  end.

(** The guesses come in rounds: at most five, then a lock of five minutes; a shorter round is
    forgotten ten minutes after it began. *)
Definition round_over (e : list Z) (t : Z) : Prop :=
  if (length e =? 5)%nat then default 0 (head e) + authLockout <= t
  else default 0 (last e) + authFailureWindow < t.

Fixpoint rounds (es : list (list Z)) : Prop :=
  match es with
  | [] => True
  | e :: es' =>
      (0 < length e <= 5)%nat /\
      (match es' with e' :: _ => forall t, t ∈ e -> round_over e' t | [] => True end) /\
      rounds es'
  end.

Fixpoint falling (l : list Z) : Prop :=
  match l with [] => True | x :: l' => (forall y, y ∈ l' -> y <= x) /\ falling l' end.

Lemma falling_app l1 l2 : falling (l1 ++ l2) ->
  falling l1 /\ falling l2 /\ forall x y, x ∈ l1 -> y ∈ l2 -> y <= x.
Proof.
  induction l1 as [|x l1 IH]; simpl; [intros H; split_and!; [done|done|intros x y Hx; by apply elem_of_nil in Hx]|].
  intros [H1 H2]. destruct (IH H2) as (I1 & I2 & I3). split_and!; [set_solver|done|done|].
  intros a b [->|Ha]%elem_of_cons Hb; [apply H1; set_solver|by apply I3].
Qed.

Lemma falling_head l x : falling l -> x ∈ l -> x <= default x (head l).
Proof. destruct l as [|a l]; [done|]. simpl. intros [H _] [->|Hx]%elem_of_cons; [lia|by apply H]. Qed.
Lemma falling_last l z x : falling l -> last l = Some z -> x ∈ l -> z <= x.
Proof.
  intros Hf [l' ->]%last_Some. destruct (falling_app _ _ Hf) as (_ & _ & H).
  intros [Hx|Hx]%elem_of_app; [apply H; set_solver|]. apply list_elem_of_singleton in Hx. lia.
Qed.

(** Ten guesses in a row span the lock's five minutes. *)
Lemma rounds_span es i t t' : rounds es -> falling (concat es) ->
  concat es !! i = Some t -> concat es !! (i + 9)%nat = Some t' -> t' + authLockout <= t.
Proof.
  revert i. induction es as [|e es IH]; intros i Hr Hf; [done|]. destruct Hr as (Hlen & Hgap & Hr).
  cbn [concat] in *. destruct (falling_app _ _ Hf) as (Hfe & Hfs & Hle).
  intros Hi Hj. rewrite lookup_app_r in Hj by lia.
  destruct (decide (i < length e)%nat) as [Hlt|Hge].
  2: { rewrite lookup_app_r in Hi by lia. apply (IH (i - length e)%nat Hr Hfs Hi).
       by replace (i - length e + 9)%nat with (i + 9 - length e)%nat by lia. }
  rewrite lookup_app_l in Hi by lia. apply list_elem_of_lookup_2 in Hi.
  destruct es as [|e' es']; [done|]. destruct Hr as (Hlen' & _ & _). cbn [concat] in *.
  specialize (Hgap t Hi). unfold round_over in Hgap.
  destruct (falling_app _ _ Hfs) as (Hfe' & _ & Hle').
  destruct (decide (i + 9 - length e < length e')%nat) as [Hin|Hout].
  - rewrite lookup_app_l in Hj by lia. apply list_elem_of_lookup_2 in Hj as Hj'.
    destruct (Nat.eqb_spec (length e') 5); [|lia]. pose proof (falling_head e' t' Hfe' Hj').
    destruct e'; [done|]. simpl in *. lia.
  - rewrite lookup_app_r in Hj by lia. apply list_elem_of_lookup_2 in Hj.
    destruct e' as [|x e']; [simpl in *; lia|].
    destruct (Nat.eqb_spec (length (x :: e')) 5).
    + specialize (Hle' x t' ltac:(set_solver) Hj). simpl in *. lia.
    + destruct (last_is_Some (x :: e')) as [_ [z Hz]]; [done|]. rewrite Hz in Hgap. simpl in Hgap.
      assert (Hzin : z ∈ x :: e') by (by eapply last_Some_elem_of).
      specialize (Hle' z t' Hzin Hj). unfold authFailureWindow, authLockout, Minute, Second in *. lia.
Qed.

(** The entry of an address, and the guesses it counts. *)
Definition entry_ok (f : option authFailure) (es : list (list Z)) (now : Z) : Prop :=
  match f with
  | Some f =>
      exists e es', es = e :: es' /\ (0 < length e <= 5)%nat /\
        Count f = Z.of_nat (length e) /\ WindowStart f = last e /\
        LockedUntil f = (if (length e =? 5)%nat then Some (default 0 (head e) + authLockout) else None)
  | None => match es with e :: _ => round_over e now | [] => True end
  end.

Definition lock_inv (m : authManager) (ip : bytes) (gs : list Z) (now : Z) : Prop :=
  exists es, gs = concat es /\ rounds es /\ falling gs /\
    (forall t, t ∈ gs -> 0 <= t <= now) /\ entry_ok (failures m !! ip) es now.

Lemma round_over_later e t t' : round_over e t -> t <= t' -> round_over e t'.
Proof. unfold round_over. case_match; lia. Qed.

Lemma lock_inv_later m m' ip gs now now' : lock_inv m ip gs now -> now <= now' ->
  failures m' !! ip = failures m !! ip -> lock_inv m' ip gs now'.
Proof.
  intros (es & H1 & H2 & H3 & H4 & H5) Hle Hf. exists es. split_and!; try done.
  - intros t Ht. specialize (H4 t Ht). lia.
  - rewrite Hf. unfold entry_ok in *. destruct (failures m !! ip); [done|].
    destruct es as [|e es]; [done|]. by eapply round_over_later.
Qed.

(** [locked]: refuses during a lock; afterwards the entry is either gone or an open round. *)
Lemma locked_inv m ip gs now : lock_inv m ip gs now -> is_time now ->
  let x := locked m now ip in
  lock_inv x.1 ip gs now /\
  (x.2 = false -> match failures x.1 !! ip with
                  | Some f => Count f < 5 /\ exists w, WindowStart f = Some w /\ now - w <= authFailureWindow
                  | None => True end).
Proof.
  intros Hinv Hnow. pose proof Hinv as (es & H1 & H2 & H3 & H4 & H5). unfold locked, entry_ok in *.
  destruct (failures m !! ip) as [f|] eqn:Ef; cbn [from_option id].
  - destruct H5 as (e & es' & He & Hlen & Hc & Hw & Hl). rewrite Hl.
    destruct (last_is_Some e) as [_ [w Hlast]]; [by intros ->; simpl in Hlen; lia|].
    rewrite Hw, Hlast. cbn [time_Sub0].
    assert (Hwin : w ∈ gs) by (rewrite H1, He; simpl; apply elem_of_app; left; by eapply last_Some_elem_of).
    specialize (H4 w Hwin) as Hw0.
    assert (Hsub : time_Sub now w = now - w)
      by (unfold time_Sub, is_time, min_int64, max_int64 in *; lia).
    rewrite Hsub. destruct (Nat.eqb_spec (length e) 5) as [E5|E5]; cbn [After0].
    + destruct (Z.ltb_spec now (default 0 (head e) + authLockout)) as [Hlt|Hge].
      * by split.
      * rewrite bool_decide_true by (by eexists). cbn [orb fst snd].
        split; [|intros _; simpl; by rewrite lookup_delete_eq].
        exists es. split_and!; try done. simpl. rewrite lookup_delete_eq, He. unfold entry_ok, round_over.
        destruct (Nat.eqb_spec (length e) 5); [|done]. destruct e; [done|]. simpl in *. lia.
    + rewrite bool_decide_false by (by intros [? ?]). cbn [orb].
      destruct (Z.ltb_spec authFailureWindow (now - w)) as [Hlt|Hge]; cbn [fst snd].
      * split; [|intros _; simpl; by rewrite lookup_delete_eq].
        exists es. split_and!; try done. simpl. rewrite lookup_delete_eq, He. unfold entry_ok, round_over.
        destruct (Nat.eqb_spec (length e) 5); [done|]. rewrite Hlast. simpl. lia.
      * split; [done|]. intros _. rewrite Ef. split; [lia|exists w; split; [congruence|lia]].
  - cbn [no_failure LockedUntil WindowStart After0 time_Sub0]. rewrite bool_decide_false by (by intros [? ?]).
    cbn [orb]. assert ((authFailureWindow <? max_int64) = true) as -> by reflexivity.
    cbn [fst snd]. split; [|intros _; simpl; by rewrite lookup_delete_eq].
    exists es. split_and!; try done. simpl. rewrite lookup_delete_eq. exact H5.
Qed.

Lemma failures_insert (m : authManager) (fs : gmap bytes authFailure) : failures (m <| failures := fs |>) = fs.
Proof. done. Qed.

(** A wrong guess joins the open round or opens one. *)
Lemma recordLogin_guess m ip gs now : lock_inv m ip gs now -> is_time now ->
  match failures m !! ip with
  | Some f => Count f < 5 /\ exists w, WindowStart f = Some w /\ now - w <= authFailureWindow
  | None => True
  end ->
  lock_inv (recordLogin m now ip false) ip (now :: gs) now.
Proof.
  intros (es & H1 & H2 & H3 & H4 & H5) Hnow Hopen. unfold recordLogin. unfold entry_ok in H5.
  assert (Hfall : falling (now :: gs)) by (split; [intros y Hy; by apply H4|done]).
  assert (Hrange : forall t, t ∈ now :: gs -> 0 <= t <= now).
  { intros t [->|Ht]%elem_of_cons; [unfold is_time in Hnow; lia|by apply H4]. }
  destruct (failures m !! ip) as [f|] eqn:Ef; cbn [from_option id].
  - destruct H5 as (e & es' & He & Hlen & Hc & Hw & Hl). destruct Hopen as (Hc5 & w & Ew & Hwin).
    rewrite Ew. rewrite bool_decide_false by done. cbn [orb time_Sub0].
    assert (Hwgs : w ∈ gs).
    { rewrite H1, He. simpl. apply elem_of_app. left. rewrite Ew in Hw. by eapply last_Some_elem_of. }
    specialize (H4 w Hwgs) as Hw0.
    assert (Hsub : time_Sub now w = now - w) by (unfold time_Sub, is_time, min_int64, max_int64 in *; lia).
    rewrite Hsub. destruct (Z.ltb_spec authFailureWindow (now - w)); [lia|]. cbn [Count set_field].
    assert (Hwrap : Count f +! 1 = Z.of_nat (length (now :: e)))
      by (rewrite wrap64_id; [simpl; lia|unfold is_int64, min_int64, max_int64; lia]).
    exists ((now :: e) :: es'). split; [simpl; by rewrite H1, He|].
    split.
    { rewrite He in H2. destruct H2 as (G1 & G2 & G3). simpl. split; [lia|]. split; [|done].
      destruct es' as [|e' es'']; [done|]. intros t [->|Ht]%elem_of_cons; [|by apply G2].
      destruct e as [|x e]; [simpl in Hlen; lia|]. apply (round_over_later _ x); [apply G2; set_solver|].
      apply (H4 x). rewrite H1, He. simpl. set_solver. }
    split; [done|]. split; [done|]. rewrite failures_insert, lookup_insert_eq.
    exists (now :: e), es'. rewrite Hwrap. unfold authMaxFailures.
    assert (Hlast : last (now :: e) = Some w) by (rewrite Ew in Hw; by destruct e).
    destruct (Z.leb_spec 5 (Z.of_nat (length (now :: e)))), (Nat.eqb_spec (length (now :: e)) 5);
      try (exfalso; simpl in *; lia);
      (split_and!; [done|simpl; lia|simpl; lia|done|by rewrite Hlast|]); [done|].
    etrans; [exact Hl|]. destruct (Nat.eqb_spec (length e) 5); [lia|done].
  - cbn [no_failure WindowStart]. rewrite bool_decide_true by done. cbn [orb].
    exists ([now] :: es). split; [simpl; by rewrite H1|]. split.
    { simpl. split; [lia|]. split; [|done]. destruct es as [|e es]; [done|].
      intros t ->%list_elem_of_singleton. exact H5. }
    split; [done|]. split; [done|]. rewrite failures_insert, lookup_insert_eq. exists [now], es.
    split_and!; [done|simpl; lia|simpl; lia|done..].
Qed.

Lemma lock_inv_reset m ip gs now : lock_inv m ip gs now -> lock_inv (recordLogin m now ip true) ip [] now.
Proof.
  intros _. exists []. split_and!; try done; [intros t Ht; by apply elem_of_nil in Ht|].
  simpl. by rewrite lookup_delete_eq.
Qed.
(** The lock's state follows the history: what is not a guess leaves the entry alone, a guess that is
    checked extends it, an accepted one clears it. *)
Lemma newSession_failures m r p : failures (newSession m r p).1 = failures m.
Proof.
  unfold newSession, revokeRequestSession. case_bool_decide; [done|].
  by destruct (cookie_digest r), (rq_token r), (rq_token2 r).
Qed.
Lemma finish_spec st m r p :
  failures (finish st unavailable (newSession m r p)).1 = failures m /\
  (finish st unavailable (newSession m r p)).2 = unavailable \/
  failures (finish st unavailable (newSession m r p)).1 = failures m /\
  exists q c t, (finish st unavailable (newSession m r p)).2 = RSession st q c t.
Proof.
  rewrite <- (newSession_failures m r p). unfold finish.
  destruct (newSession m r p) as [m' [[s t]|]]; [right; split; [done|by eauto]|by left].
Qed.

(** What the checked part of a guess does to its address's entry. *)
Inductive guess_step (m : authManager) (now : Z) (ip : bytes) : authManager * response -> Prop :=
| guess_refused m' a : failures m' = failures (locked m now ip).1 ->
    (forall s, a <> RError s "AUTH_INVALID_CREDENTIALS") -> (forall s p c t, a <> RSession s p c t) ->
    a <> unavailable -> guess_step m now ip (m', a)
| guess_wrong m' : (locked m now ip).2 = false ->
    failures m' = failures (recordLogin (locked m now ip).1 now ip false) ->
    guess_step m now ip (m', RError 401 "AUTH_INVALID_CREDENTIALS")
| guess_right m' a : failures m' = failures (recordLogin (locked m now ip).1 now ip true) ->
    a = unavailable \/ (exists s p c t, a = RSession s p c t) -> guess_step m now ip (m', a).

Lemma guess_right_finish m now ip m' r p st :
  failures m' = failures (recordLogin (locked m now ip).1 now ip true) ->
  guess_step m now ip (finish st unavailable (newSession m' r p)).
Proof.
  intros Hf. destruct (finish_spec st m' r p) as [[E1 E2]|(E1 & q & c & t & E2)];
    destruct (finish _ _ _) as [m2 a]; cbn [fst snd] in *; subst;
    (apply guess_right; [congruence|eauto 10]).
Qed.

Lemma login_step m r : guess_step m (rq_now r) (rq_ip r) (handleAuthLogin m r).
Proof.
  unfold handleAuthLogin. destruct (locked m (rq_now r) (rq_ip r)) as [m1 b] eqn:El.
  assert (E1 : (locked m (rq_now r) (rq_ip r)).1 = m1) by (by rewrite El).
  assert (E2 : (locked m (rq_now r) (rq_ip r)).2 = b) by (by rewrite El).
  destruct b; [by apply guess_refused; rewrite ?E1|].
  destruct (login_ok m1 r); cbn [negb].
  - apply guess_right_finish. by rewrite E1.
  - apply guess_wrong; by rewrite ?E1.
Qed.

Lemma save_failures m r c m' : save m r c = Some m' -> failures m' = failures m.
Proof. unfold save. case_match; [|done]. by intros [= <-]. Qed.

Lemma password_step m r : configured m = true ->
  guess_step m (rq_now r) (rq_ip r) (handleAuthPassword m r).
Proof.
  intros Hc. unfold handleAuthPassword. rewrite Hc. cbn [negb].
  destruct (locked m (rq_now r) (rq_ip r)) as [m1 b] eqn:El.
  assert (E1 : (locked m (rq_now r) (rq_ip r)).1 = m1) by (by rewrite El).
  assert (E2 : (locked m (rq_now r) (rq_ip r)).2 = b) by (by rewrite El).
  destruct b; [by apply guess_refused; rewrite ?E1|].
  destruct (rq_change r) as [[[u cur] new]|]; [|by apply guess_refused; rewrite ?E1].
  destruct (validNewCredential _); [|by apply guess_refused; rewrite ?E1]. cbn [negb].
  destruct (_ && _); cbn [negb]; [|by apply guess_wrong; rewrite ?E1].
  destruct (checked_hash r new) as [next|]; [|apply guess_right; [by rewrite E1|by left]].
  destruct (save _ r _) as [m3|] eqn:E; [|apply guess_right; [by rewrite E1|by left]].
  apply guess_right_finish. rewrite E1. by apply save_failures in E.
Qed.
Lemma locked_other m now ip ip' : ip <> ip' -> failures (locked m now ip).1 !! ip' = failures m !! ip'.
Proof.
  intros Hne. unfold locked. repeat case_match; try done. cbn [fst]. rewrite failures_insert.
  by rewrite lookup_delete_ne.
Qed.
Lemma recordLogin_other m now ip ip' ok : ip <> ip' ->
  failures (recordLogin m now ip ok) !! ip' = failures m !! ip'.
Proof.
  intros Hne. unfold recordLogin. destruct ok; rewrite failures_insert;
    [by rewrite lookup_delete_ne|by rewrite lookup_insert_ne].
Qed.

Lemma guess_step_other m now ip ip' x : ip <> ip' -> guess_step m now ip x ->
  failures x.1 !! ip' = failures m !! ip'.
Proof.
  intros Hne [m' a E _ _ _|m' _ E|m' a E _]; cbn [fst]; rewrite E, ?recordLogin_other by done;
    by apply locked_other.
Qed.

Lemma guess_step_inv m now ip x gs : lock_inv m ip gs now -> is_time now -> guess_step m now ip x ->
  lock_inv x.1 ip (guesses_after x.2 now gs) now.
Proof.
  intros Hinv Hnow Hs. destruct (locked_inv m ip gs now Hinv Hnow) as [Hl Hopen].
  destruct Hs as [m' a E H1 H2 H3|m' Eb E|m' a E Ha]; cbn [fst snd]; unfold guesses_after, wrong.
  - rewrite bool_decide_false by done.
    assert (accepted a = false) as ->.
    { destruct a as [|s p c t| | |]; [|by destruct (H2 s p c t)|..]; by apply bool_decide_eq_false. }
    eapply lock_inv_later; [exact Hl|lia|by rewrite E].
  - rewrite bool_decide_true by done.
    eapply lock_inv_later; [by apply recordLogin_guess; [exact Hl| |apply Hopen]|lia|by rewrite E].
  - rewrite bool_decide_false by (destruct Ha as [->|(s & p & c & t & ->)]; done).
    assert (accepted a = true) as -> by (destruct Ha as [->|(s & p & c & t & ->)]; done).
    eapply lock_inv_later; [eapply lock_inv_reset, Hl|lia|by rewrite E].
Qed.

(** One request, at a clock that does not run backwards. *)
Lemma serve_failures m o ip : is_guess o ip = false ->
  failures (serve m o).1 !! ip = failures m !! ip.
Proof.
  intros Hg. destruct o as [r|r|r|r|r|r]; cbn [serve is_guess] in *; bool_facts.
  - destruct (requireSession_spec m r) as (_ & _ & E & _). destruct (requireSession m r) as [m1 [p|a]]; simpl in *; by rewrite E.
  - unfold answer, handleAuthStatus. cbn [fst]. destruct (rq_bypass r); [done|]. destruct (configured m); [|done].
    assert (E : failures (sessionForRequest m r true).1 = failures m) by (unfold sessionForRequest; by repeat case_match).
    destruct (sessionForRequest m r true). simpl in *. by rewrite E.
  - unfold answer, handleAuthSetup. destruct (configured m); [done|].
    destruct (rq_credential r) as [c|]; [|done]. destruct (c_Skip c).
    { destruct (save m r _) as [m1|] eqn:E; [|done]. apply save_failures in E. cbn [fst]. by rewrite E. }
    destruct (negb _); [done|]. destruct (checked_hash _ _); [|done].
    destruct (save m r _) as [m1|] eqn:E; [|done]. apply save_failures in E. cbn [fst].
    destruct (finish_spec 201 m1 r (c_Username c)) as [[-> _]|[-> _]]; by rewrite E.
  - unfold answer. cbn [fst]. eapply guess_step_other; [done|apply login_step].
  - unfold route_protected. destruct (requireSession_spec m r) as (_ & Ec & E & _).
    destruct (requireSession m r) as [m1 [p|a]]; cbn [fst answer] in *; [|by rewrite E].
    rewrite <- E. destruct (configured m1) eqn:Econf; [eapply guess_step_other; [done|by apply password_step]|].
    unfold handleAuthPassword. by rewrite Econf.
  - unfold route_protected. destruct (requireSession_spec m r) as (_ & _ & E & _).
    destruct (requireSession m r) as [m1 [p|a]]; cbn [fst answer] in *; [|by rewrite E].
    rewrite <- E. unfold handleAuthLogout, revokeRequestSession. by destruct (cookie_digest r).
Qed.
Lemma serve_guess m o ip gs : is_guess o ip = true -> is_time (rq_now (req o)) ->
  lock_inv m ip gs (rq_now (req o)) ->
  lock_inv (serve m o).1 ip
    (match (serve m o).2 with
     | Answer a => guesses_after a (rq_now (req o)) gs
     | Granted _ => gs
     end) (rq_now (req o)).
Proof.
  intros Hg Ht Hinv. destruct o as [r|r|r|r|r|r]; cbn [is_guess serve req] in *; try done;
    apply bool_decide_eq_true in Hg as <-.
  - unfold answer. cbn [fst snd]. apply (guess_step_inv m); [done..|apply login_step].
  - unfold route_protected. destruct (requireSession_spec m r) as (_ & Ec & E & Ha).
    destruct (requireSession m r) as [m1 [p|a]]; cbn [fst snd answer] in *.
    + assert (H1 : lock_inv m1 (rq_ip r) gs (rq_now r)) by (eapply lock_inv_later; [done|lia|by rewrite E]).
      destruct (configured m1) eqn:Econf; [by apply (guess_step_inv m1); [..|apply password_step]|].
      unfold handleAuthPassword. rewrite Econf. exact H1.
    + assert (guesses_after a (rq_now r) gs = gs) as -> by (destruct Ha as [->|[->| ->]]; done).
      eapply lock_inv_later; [done|lia|by rewrite E].
Qed.

(** The clock of a history: readings in range that never run backwards. *)
Definition times (tr : list (op * outcome)) : list Z := map (fun x => rq_now (req x.1)) tr.
Definition clock_ok (tr : list (op * outcome)) : Prop := falling (times tr) /\ Forall is_time (times tr).

Lemma history_lock m0 m tr ip : failures m0 = ∅ -> history m0 m tr -> clock_ok tr ->
  lock_inv m ip (guesses ip tr) (default 0 (head (times tr))).
Proof.
  intros H0 H. induction H as [|m tr o H IH]; intros [Hf Ht].
  - exists []. split_and!; try done; [intros t Hin; by apply elem_of_nil in Hin|].
    by rewrite H0, lookup_empty.
  - simpl in Hf, Ht. destruct Hf as [Hle Hf]. apply Forall_cons in Ht as [Hnow Ht].
    specialize (IH (conj Hf Ht)). simpl.
    assert (Hnext : default 0 (head (times tr)) <= rq_now (req o)).
    { destruct (times tr) as [|t ts]; simpl; [by destruct Hnow|apply Hle; set_solver]. }
    pose proof (lock_inv_later m m _ _ _ _ IH Hnext eq_refl) as Hinv.
    destruct (is_guess o ip) eqn:Eg.
    + pose proof (serve_guess m o ip _ Eg Hnow Hinv) as Hs. by destruct (serve m o).2.
    + assert (Hs : lock_inv (serve m o).1 ip (guesses ip tr) (rq_now (req o)))
        by (apply (lock_inv_later m _ _ _ (rq_now (req o))); [exact Hinv|lia|by apply serve_failures]).
      by destruct (serve m o).2.
Qed.

(** C34: guessing the password is slow. Over any history of requests whose clock does not run backwards,
    an address gets at most nine wrong guesses checked in any five minutes since its last right one (all
    of them, where it never gave a right one), sign-ins and password changes counted together: the tenth
    guess back is at least the lockout away. A right password clears the address's count, so wrong
    guesses before and after one are not bounded together. *)
Theorem guessing_is_slow m0 m tr ip i t t' :
  failures m0 = ∅ -> history m0 m tr -> clock_ok tr ->
  guesses ip tr !! i = Some t -> guesses ip tr !! (i + 9)%nat = Some t' -> t' + authLockout <= t.
Proof.
  intros H0 H Hc. destruct (history_lock m0 m tr ip H0 H Hc) as (es & -> & Hr & Hf & _).
  by apply rounds_span.
Qed.
End auth.

(** ** Witnesses: SHA-256 and Argon2 replaced by stand-ins *)
Definition toy_request (now : Z) (pw : string) (cookie : option bytes) (csrf : bytes) : request := {|
  rq_method := "POST"; rq_cookie := cookie; rq_csrf := csrf; rq_ip := str "192.168.1.20";
  rq_bypass := false; rq_credential := Some (mkCred (str "operator") (str pw) false);
  rq_change := None; rq_now := now; rq_token := Some (str "token"); rq_token2 := Some (str "csrf");
  rq_salt := Some (str "wayhop-salt-v1!!"); rq_save_ok := true |}.
Definition fresh : authManager := mkManager (mkCreds [] [] false) ∅ ∅.
Definition signed_in : list op := [OSetup (toy_request 100 "correct horse" None [])].
Definition signed_in_state : authManager := (run toy_IDKey id fresh signed_in).1.
Definition signed_in_trace : list (op * outcome) := (run toy_IDKey id fresh signed_in).2.
Definition visit : request := toy_request (100 + Minute) "" (Some (str "token")) (str "csrf").

Lemma access_needs_session_witness :
  exists (d csrf : bytes) (issued : Z) (s : authSession),
    cookie_digest id visit = Some d /\
    holder id signed_in_trace d = Some (str "operator", csrf, issued) /\
    sessions signed_in_state !! d = Some s /\
    time_Sub (rq_now visit) issued < authSessionAbsolute /\
    time_Sub (rq_now visit) (LastSeen s) < authSessionIdle /\
    (requestMutates (rq_method visit) = true -> id (rq_csrf visit) = id csrf).
Proof.
  eapply (access_needs_session toy_IDKey id fresh signed_in_state signed_in_trace visit _ (str "operator"));
    [done|apply run_history|vm_compute; reflexivity|done|].
  rewrite (surjective_pairing (requireSession _ _ _)). apply f_equal2; [reflexivity|vm_compute; reflexivity].
Defined.

(** Five wrong guesses, and five more after the lock. *)
Definition guess_at (t : Z) : op := OLogin (toy_request t "wrong" None []).
Definition ten_guesses : list op :=
  map (fun k => guess_at (5 + authLockout + k)) [5; 4; 3; 2; 1] ++ map guess_at [5; 4; 3; 2; 1].

Lemma guessing_is_slow_witness : 1 + authLockout <= 5 + authLockout + 5.
Proof.
  apply (guessing_is_slow toy_IDKey id fresh (run toy_IDKey id fresh ten_guesses).1
    (run toy_IDKey id fresh ten_guesses).2 (str "192.168.1.20") 0).
  - done.
  - apply run_history.
  - assert (Et : times (run toy_IDKey id fresh ten_guesses).2 =
      [300000000010; 300000000009; 300000000008; 300000000007; 300000000006; 5; 4; 3; 2; 1])
      by (vm_compute; reflexivity).
    unfold clock_ok. rewrite Et. split.
    + cbn [falling]. repeat split; intros y Hy;
        repeat (apply elem_of_cons in Hy as [->|Hy]; [lia|]); by apply elem_of_nil in Hy.
    + unfold is_time. repeat constructor; lia.
  - vm_compute. reflexivity.
  - vm_compute. reflexivity.
Defined.
