(* ===== verification/QrField.v ===== *)
(** * QR codes: the field GF(256) and Reed-Solomon error correction

    Models the field and error-correction part of [src/internal/qr/qr.go]: the exponent and logarithm
    tables, [gfMul], [rsGenerator], [rsRemainder]. A byte is a [Z] between 0 and 255. The theorem is
    what a scanner relies on: a block followed by its error correction is a Reed-Solomon codeword, its
    syndromes are all zero. *)
From S2P Require Import Prelude.
Local Open Scope Z_scope.


(** Indexing an array of bytes. *)
Definition idx (l : list Z) (i : Z) : Z := nth (Z.to_nat i) l 0.

(** ** The tables *)
Fixpoint gf_fill (k : nat) (i x : Z) (exp log : list Z) : list Z * list Z :=
  match k with
  | O => (exp, log)
  | S k =>
      let exp := <[Z.to_nat i := x mod 256]> exp in
      let log := <[Z.to_nat x := i mod 256]> log in
      let x := Z.shiftl x 1 in
      let x := if negb (Z.land x 256 =? 0) then Z.lxor x 285 else x in
      gf_fill k (i + 1) x exp log
  end.
Fixpoint gf_repeat (k : nat) (i : Z) (exp : list Z) : list Z :=
  match k with
  | O => exp
  | S k => gf_repeat k (i + 1) (<[Z.to_nat i := idx exp (i - 255)]> exp)
  end.
Definition gf_tables : list Z * list Z :=
  let '(exp, log) := gf_fill 255 0 1 (replicate 512 0) (replicate 256 0) in
  (gf_repeat 257 255 exp, log).
Definition gfExp : list Z := Eval vm_compute in gf_tables.1.
Definition gfLog : list Z := Eval vm_compute in gf_tables.2.

Definition gfMul (a b : Z) : Z :=
  if (a =? 0) || (b =? 0) then 0 else idx gfExp (idx gfLog a + idx gfLog b).

(** ** The generator and the remainder *)
Fixpoint xor_at (l : list Z) (j : nat) (v : Z) : list Z :=
  match l, j with
  | [], _ => []
  | x :: l, O => Z.lxor x v :: l
  | x :: l, S j => x :: xor_at l j v
  end.

(** One factor: [next[j] ^= c; next[j+1] ^= gfMul(c, gfExp[i])] over the old coefficients. *)
Fixpoint rs_factor (a : Z) (j : nat) (g next : list Z) : list Z :=
  match g with
  | [] => next
  | c :: g => rs_factor a (S j) g (xor_at (xor_at next j c) (S j) (gfMul c a))
  end.
Fixpoint rs_product (k : nat) (i : Z) (g : list Z) : list Z :=
  match k with
  | O => g
  | S k => rs_product k (i + 1) (rs_factor (idx gfExp i) 0 g (replicate (S (length g)) 0))
  end.
Definition rsGenerator (degree : nat) : list Z := tail (rs_product degree 0 [1]).

Definition rs_step (g rem : list Z) (d : Z) : list Z :=
  let factor := Z.lxor d (nth 0 rem 0) in
  let rem := tail rem ++ [0] in
  zip_with (fun r gi => Z.lxor r (gfMul gi factor)) rem g.
Definition rsRemainder (data : list Z) (n : nat) : list Z :=
  let g := rsGenerator n in foldl (rs_step g) (replicate n 0) data.


Lemma gf_tables_computed : gf_tables = (gfExp, gfLog).
Proof. reflexivity. Qed.

(** ** The field

    [ex i] is the generator's [i]-th power; every nonzero byte is one. Multiplying by it is iterating
    [xtime], which is linear. *)
Definition xtime (b : Z) : Z := Z.lxor (Z.shiftl b 1) (if Z.testbit b 7 then 285 else 0).
Definition ex (i : Z) : Z := idx gfExp (i mod 255).

Lemma forall_bytes (f : Z -> bool) (n : nat) :
  forallb (fun k => f (Z.of_nat k)) (seq 0 n) = true -> forall i, 0 <= i < Z.of_nat n -> f i = true.
Proof.
  rewrite forallb_forall. intros H i Hi. specialize (H (Z.to_nat i)).
  rewrite Z2Nat.id in H by lia. apply H, in_seq. lia.
Qed.

Lemma exp_log a : 0 < a < 256 -> 0 <= idx gfLog a < 255 /\ idx gfExp (idx gfLog a) = a.
Proof.
  intros Ha. pose proof (forall_bytes (fun a => (a =? 0) || ((0 <=? idx gfLog a) &&
    (idx gfLog a <? 255) && (idx gfExp (idx gfLog a) =? a))) 256 eq_refl a). lia.
Qed.
Lemma exp_table i : 0 <= i < 255 ->
  0 < idx gfExp i < 256 /\ idx gfLog (idx gfExp i) = i /\ idx gfExp (i + 255) = idx gfExp i /\
  idx gfExp ((i + 1) mod 255) = xtime (idx gfExp i).
Proof.
  intros Hi. pose proof (forall_bytes (fun i => (0 <? idx gfExp i) && (idx gfExp i <? 256) &&
    (idx gfLog (idx gfExp i) =? i) && (idx gfExp (i + 255) =? idx gfExp i) &&
    (idx gfExp ((i + 1) mod 255) =? xtime (idx gfExp i))) 255 eq_refl i Hi). lia.
Qed.

Lemma mod255 i : 0 <= i mod 255 < 255.
Proof. apply Z.mod_pos_bound. lia. Qed.
Lemma ex_range i : 0 < ex i < 256.
Proof. apply exp_table, mod255. Qed.
Lemma ex_log a : 0 < a < 256 -> ex (idx gfLog a) = a.
Proof. intros Ha. destruct (exp_log a Ha). unfold ex. by rewrite Z.mod_small. Qed.
Lemma xtime_ex i : xtime (ex i) = ex (i + 1).
Proof.
  unfold ex. destruct (exp_table (i mod 255) (mod255 i)) as (_ & _ & _ & <-).
  by rewrite Zplus_mod_idemp_l.
Qed.
Lemma gfMul_ex i j : gfMul (ex i) (ex j) = ex (i + j).
Proof.
  unfold gfMul. pose proof (ex_range i). pose proof (ex_range j).
  destruct (Z.eqb_spec (ex i) 0), (Z.eqb_spec (ex j) 0); try lia. cbn [orb].
  pose proof (mod255 i) as Hi. pose proof (mod255 j) as Hj. unfold ex.
  destruct (exp_table (i mod 255) Hi) as (_ & -> & _). destruct (exp_table (j mod 255) Hj) as (_ & -> & _).
  rewrite Zplus_mod. destruct (Z.ltb_spec (i mod 255 + j mod 255) 255) as [Hlt|Hge].
  { by rewrite (Z.mod_small (i mod 255 + j mod 255)) by lia. }
  destruct (exp_table (i mod 255 + j mod 255 - 255)) as (_ & _ & E & _); [lia|].
  rewrite Z.sub_add in E. rewrite E. f_equal.
  rewrite <- (Z_mod_plus_full (i mod 255 + j mod 255) (-1) 255).
  rewrite (Z.mod_small (i mod 255 + j mod 255 + -1 * 255)); lia.
Qed.

Lemma gfMul_0_l b : gfMul 0 b = 0.
Proof. done. Qed.
Lemma gfMul_0_r a : gfMul a 0 = 0.
Proof. unfold gfMul. by rewrite orb_true_r. Qed.
Lemma gfMul_comm a b : gfMul a b = gfMul b a.
Proof. unfold gfMul. rewrite orb_comm. by rewrite (Z.add_comm (idx gfLog a)). Qed.

(** A byte is zero or a power of the generator. *)
Lemma byte_cases a : is_byte a -> a = 0 \/ exists i, 0 <= i /\ a = ex i.
Proof.
  unfold is_byte. intros Ha. destruct (decide (a = 0)); [by left|right].
  exists (idx gfLog a). rewrite ex_log by lia. destruct (exp_log a); lia.
Qed.
Lemma gfMul_byte a b : is_byte a -> is_byte b -> is_byte (gfMul a b).
Proof.
  intros [->|(i & _ & ->)]%byte_cases [->|(j & _ & ->)]%byte_cases;
    rewrite ?gfMul_0_l, ?gfMul_0_r, ?gfMul_ex; [done..|].
  pose proof (ex_range (i + j)). unfold is_byte. lia.
Qed.
Lemma gfMul_assoc a b c : is_byte a -> is_byte b -> is_byte c ->
  gfMul (gfMul a b) c = gfMul a (gfMul b c).
Proof.
  intros [->|(i & _ & ->)]%byte_cases [->|(j & _ & ->)]%byte_cases [->|(k & _ & ->)]%byte_cases;
    rewrite ?gfMul_ex, ?gfMul_0_l, ?gfMul_0_r, ?gfMul_ex, ?gfMul_0_l, ?gfMul_0_r; try done. f_equal. lia.
Qed.
Lemma gfMul_1_l b : is_byte b -> gfMul 1 b = b.
Proof.
  intros [->|(j & _ & ->)]%byte_cases; [done|]. change 1 with (ex 0). by rewrite gfMul_ex.
Qed.

Lemma byte_shiftr c : is_byte c <-> 0 <= c /\ Z.shiftr c 8 = 0.
Proof.
  unfold is_byte. rewrite Z.shiftr_div_pow2 by lia. split; intros Hc; split; try lia.
  - apply Z.div_small. lia.
  - assert (c < 256); [|lia]. destruct Hc as [_ Hc]. apply Z.div_small_iff in Hc; lia.
Qed.
Lemma lxor_byte a b : is_byte a -> is_byte b -> is_byte (Z.lxor a b).
Proof.
  rewrite !byte_shiftr. intros [Ha Sa] [Hb Sb]. split; [by apply Z.lxor_nonneg|].
  by rewrite Z.shiftr_lxor, Sa, Sb.
Qed.
Lemma lor_byte a b : is_byte a -> is_byte b -> is_byte (Z.lor a b).
Proof.
  rewrite !byte_shiftr. intros [Ha Sa] [Hb Sb]. split; [by apply Z.lor_nonneg|].
  by rewrite Z.shiftr_lor, Sa, Sb.
Qed.
Lemma xtime_lxor a b : xtime (Z.lxor a b) = Z.lxor (xtime a) (xtime b).
Proof.
  unfold xtime. rewrite Z.shiftl_lxor, Z.lxor_spec. apply Z.bits_inj. intros n.
  rewrite !Z.lxor_spec. destruct (Z.testbit a 7), (Z.testbit b 7); simpl;
    rewrite ?Z.bits_0; by destruct (Z.testbit (Z.shiftl a 1) n), (Z.testbit (Z.shiftl b 1) n),
      (Z.testbit 285 n).
Qed.
Lemma iter_xtime_lxor k a b :
  Nat.iter k xtime (Z.lxor a b) = Z.lxor (Nat.iter k xtime a) (Nat.iter k xtime b).
Proof. induction k as [|k IH]; [done|]. simpl. by rewrite IH, xtime_lxor. Qed.
Lemma iter_xtime_ex k j : Nat.iter k xtime (ex j) = ex (Z.of_nat k + j).
Proof.
  induction k as [|k IH]; [done|]. simpl Nat.iter. rewrite IH, xtime_ex. f_equal. lia.
Qed.
Lemma gfMul_iter i b : 0 <= i -> is_byte b -> gfMul (ex i) b = Nat.iter (Z.to_nat i) xtime b.
Proof.
  intros Hi [->|(j & _ & ->)]%byte_cases.
  - rewrite gfMul_0_r. induction (Z.to_nat i) as [|k IH]; [done|]. simpl. by rewrite <- IH.
  - rewrite iter_xtime_ex, gfMul_ex. f_equal. lia.
Qed.
Lemma gfMul_lxor_r a b c : is_byte a -> is_byte b -> is_byte c ->
  gfMul a (Z.lxor b c) = Z.lxor (gfMul a b) (gfMul a c).
Proof.
  intros [->|(i & Hi & ->)]%byte_cases Hb Hc; [done|].
  rewrite !gfMul_iter by (try done; by apply lxor_byte). apply iter_xtime_lxor.
Qed.
Lemma gfMul_lxor_l a b c : is_byte a -> is_byte b -> is_byte c ->
  gfMul (Z.lxor a b) c = Z.lxor (gfMul a c) (gfMul b c).
Proof. intros. by rewrite gfMul_comm, gfMul_lxor_r, !(gfMul_comm c). Qed.

(** ** A block and its error correction have no syndrome

    [gf_eval p z] is the polynomial with coefficients [p], highest power first, at [z]. *)
Definition horner (z acc c : Z) : Z := Z.lxor (gfMul acc z) c.
Definition gf_eval (p : list Z) (z : Z) : Z := foldl (horner z) 0 p.
Definition gf_pow (z : Z) (n : nat) : Z := Nat.iter n (fun w => gfMul w z) 1.

Lemma horner_byte z acc c : is_byte z -> is_byte acc -> is_byte c -> is_byte (horner z acc c).
Proof. intros. by apply lxor_byte; [apply gfMul_byte|]. Qed.
Lemma horner_fold_byte z p acc : is_byte z -> is_byte acc -> Forall is_byte p ->
  is_byte (foldl (horner z) acc p).
Proof.
  intros Hz Ha Hp. revert acc Ha. induction Hp as [|c p Hc Hp IH]; intros acc Ha; [done|].
  apply IH, horner_byte; done.
Qed.
Lemma gf_pow_byte z n : is_byte z -> is_byte (gf_pow z n).
Proof. intros Hz. induction n as [|n IH]; [done|]. simpl. by apply gfMul_byte. Qed.

Lemma gf_eval_byte p z : is_byte z -> Forall is_byte p -> is_byte (gf_eval p z).
Proof. intros. by apply horner_fold_byte. Qed.
#[export] Hint Resolve gf_eval_byte lxor_byte gfMul_byte horner_byte gf_pow_byte horner_fold_byte : wayhop.

(** The value at [z] of a sum with a multiple. *)
Lemma horner_sum z f : is_byte z -> is_byte f -> forall r g a b, length r = length g ->
  is_byte a -> is_byte b -> Forall is_byte r -> Forall is_byte g ->
  foldl (horner z) (Z.lxor a (gfMul b f)) (zip_with (fun x y => Z.lxor x (gfMul y f)) r g) =
  Z.lxor (foldl (horner z) a r) (gfMul (foldl (horner z) b g) f).
Proof.
  intros Hz Hf. induction r as [|x r IH]; intros [|y g] a b Hl Ha Hb Hr Hg; try done.
  apply Forall_cons in Hr as [Hx Hr], Hg as [Hy Hg]. cbn [zip_with foldl].
  rewrite <- IH by (done || (by injection Hl) || by apply horner_byte). f_equal. unfold horner.
  rewrite !gfMul_lxor_l by eauto with wayhop.
  rewrite (gfMul_assoc b f z), (gfMul_comm f z), <- (gfMul_assoc b z f) by done.
  rewrite !Z.lxor_assoc. f_equal. rewrite <- !Z.lxor_assoc. by rewrite (Z.lxor_comm _ x).
Qed.

(** A leading coefficient counts its power of [z]. *)
Lemma horner_lead z p acc : is_byte z -> is_byte acc -> Forall is_byte p ->
  foldl (horner z) acc p = Z.lxor (gfMul acc (gf_pow z (length p))) (gf_eval p z).
Proof.
  intros Hz. revert acc. induction p as [|c p IH] using rev_ind; intros acc Ha Hp.
  - change (gf_eval [] z) with 0. change (gf_pow z (length [])) with 1.
    by rewrite gfMul_comm, gfMul_1_l, Z.lxor_0_r.
  - apply Forall_app in Hp as [Hp Hc]. apply Forall_cons in Hc as [Hc _].
    unfold gf_eval. rewrite !foldl_app. simpl. rewrite IH by done. unfold horner at 1 2. fold (gf_eval p z).
    assert (He : is_byte (gf_eval p z)) by (by apply horner_fold_byte).
    rewrite gfMul_lxor_l by eauto with wayhop.
    rewrite gfMul_assoc by eauto with wayhop. rewrite length_app, Nat.add_1_r.
    by rewrite Z.lxor_assoc.
Qed.

(** The generator's roots are the first [n] powers, for the degrees the versions use. *)
Definition degrees : list nat := [10; 16; 18; 24; 26]%nat.
Definition has_roots (n : nat) (g : list Z) : bool :=
  (length g =? n)%nat && forallb (fun c => (0 <=? c) && (c <? 256)) g &&
  forallb (fun i => gf_eval (1 :: g) (idx gfExp (Z.of_nat i)) =? 0) (seq 0 n).
Definition generator_ok (n : nat) : bool := has_roots n (rsGenerator n).
Lemma generators_ok : forallb generator_ok degrees = true.
Proof. vm_compute. reflexivity. Qed.

Lemma rsGenerator_spec n : n ∈ degrees ->
  length (rsGenerator n) = n /\ Forall is_byte (rsGenerator n) /\ (0 < n)%nat /\
  forall i, (i < n)%nat -> gf_eval (1 :: rsGenerator n) (idx gfExp (Z.of_nat i)) = 0.
Proof.
  intros Hn. pose proof generators_ok as H. rewrite forallb_forall in H.
  assert (Hin : In n degrees) by (by apply list_elem_of_In).
  assert (0 < n)%nat by (destruct Hin as [<-|[<-|[<-|[<-|[<-|[]]]]]]; lia).
  specialize (H n Hin). unfold generator_ok, has_roots in H. rewrite !andb_true_iff, !forallb_forall in H.
  destruct H as [[Hl Hb] Hr]. split_and!; [lia| |done|].
  - apply Forall_forall. intros c Hc. apply list_elem_of_In in Hc. specialize (Hb c Hc).
    unfold is_byte. lia.
  - intros i Hi. specialize (Hr i). rewrite in_seq in Hr. lia.
Qed.

Lemma rs_step_spec g rem d : length rem = length g -> rem <> [] -> Forall is_byte g ->
  Forall is_byte rem -> is_byte d ->
  length (rs_step g rem d) = length g /\ Forall is_byte (rs_step g rem d).
Proof.
  intros Hl Hne Hg Hr Hd. destruct rem as [|x rem]; [done|]. apply Forall_cons in Hr as [Hx Hr].
  unfold rs_step. simpl. assert (Hlen : length (rem ++ [0]) = length g)
    by (rewrite length_app; simpl in *; lia).
  split; [rewrite length_zip_with; lia|].
  assert (Hr0 : Forall is_byte (rem ++ [0])) by (apply Forall_app; split; [done|by constructor]).
  clear Hl Hr. revert Hlen Hr0 Hg. generalize (rem ++ [0]). induction g as [|y g IH]; intros [|r l] Hl Hr Hg;
    try done. apply Forall_cons in Hr as [? ?], Hg as [? ?]. constructor; [|by apply IH; [injection Hl|..]].
  apply lxor_byte; [done|]. by apply gfMul_byte, lxor_byte.
Qed.

(** One step of the division multiplies the remainder's value by [z] and adds the new coefficient's
    multiple of [z]^n. *)
Lemma rs_step_eval g rem d z : length rem = length g -> rem <> [] -> Forall is_byte g ->
  Forall is_byte rem -> is_byte d -> is_byte z -> gf_eval (1 :: g) z = 0 ->
  gf_eval (rs_step g rem d) z =
  Z.lxor (gfMul (gf_eval rem z) z) (gfMul d (gf_pow z (length g))).
Proof.
  intros Hl Hne Hg Hr Hd Hz Hroot. destruct rem as [|x rem]; [done|].
  apply Forall_cons in Hr as [Hx Hr]. set (zn := gf_pow z (length g)).
  assert (Hzn : is_byte zn) by (by apply gf_pow_byte).
  assert (Hgz : gf_eval g z = zn).
  { change (gf_eval (1 :: g) z) with (foldl (horner z) 1 g) in Hroot.
    rewrite horner_lead, gfMul_1_l in Hroot by done. by apply Z.lxor_eq in Hroot. }
  unfold rs_step, gf_eval. simpl. set (f := Z.lxor d x).
  assert (Hf : is_byte f) by (by apply lxor_byte).
  assert (Hr0 : Forall is_byte (rem ++ [0])) by (apply Forall_app; split; [done|by constructor]).
  change 0 with (Z.lxor 0 (gfMul 0 f)) at 1.
  rewrite horner_sum by (try done; rewrite length_app; simpl in *; lia).
  fold (gf_eval g z). rewrite Hgz. unfold horner at 2. change (Z.lxor (gfMul 0 z) x) with x.
  rewrite foldl_app. simpl. unfold horner at 1. rewrite Z.lxor_0_r.
  rewrite !(horner_lead z rem) by done. change (gfMul 0 _) with 0. rewrite Z.lxor_0_l.
  assert (He : is_byte (gf_eval rem z)) by (by apply horner_fold_byte).
  assert (Hp : is_byte (gf_pow z (length rem))) by (by apply gf_pow_byte).
  rewrite gfMul_lxor_l by eauto with wayhop. rewrite gfMul_assoc by done.
  change (gfMul (gf_pow z (length rem)) z) with (gf_pow z (S (length rem))).
  change (S (length rem)) with (length (x :: rem)). rewrite Hl. fold zn.
  unfold f. rewrite gfMul_lxor_r, !(gfMul_comm zn) by done.
  rewrite (Z.lxor_comm (gfMul d zn)), <- Z.lxor_assoc. f_equal. apply Z.lxor_comm.
Qed.

(** The remainder's value is the data's, shifted. *)
Lemma rs_fold_eval g z : Forall is_byte g -> g <> [] -> is_byte z -> gf_eval (1 :: g) z = 0 ->
  forall data, Forall is_byte data ->
  let rem := foldl (rs_step g) (replicate (length g) 0) data in
  length rem = length g /\ Forall is_byte rem /\
  gf_eval rem z = gfMul (gf_eval data z) (gf_pow z (length g)).
Proof.
  intros Hg Hne Hz Hroot data. induction data as [|d data IH] using rev_ind; intros Hd rem.
  - subst rem. simpl. rewrite length_replicate. split_and!; [done|by apply Forall_replicate|].
    unfold gf_eval. simpl. rewrite gfMul_0_l. clear. induction (length g) as [|n IH]; [done|].
    simpl. unfold horner at 2. by rewrite gfMul_0_l.
  - apply Forall_app in Hd as [Hd H1]. apply Forall_cons in H1 as [H1 _]. destruct (IH Hd) as (I1 & I2 & I3).
    subst rem. rewrite foldl_app. simpl. set (rem := foldl _ _ data) in *.
    assert (Hrem : rem <> []) by (intros E; rewrite E in I1; by destruct g).
    destruct (rs_step_spec g rem d) as [L B]; try done. split_and!; [done|done|].
    rewrite rs_step_eval, I3 by done. unfold gf_eval at 2. rewrite foldl_app. simpl.
    fold (gf_eval data z). unfold horner.
    assert (He : is_byte (gf_eval data z)) by (by apply horner_fold_byte).
    assert (Hp : is_byte (gf_pow z (length g))) by (by apply gf_pow_byte).
    rewrite gfMul_lxor_l by eauto with wayhop. f_equal.
    by rewrite !gfMul_assoc, (gfMul_comm z).
Qed.

Lemma rsRemainder_spec n data : n ∈ degrees -> Forall is_byte data ->
  length (rsRemainder data n) = n /\ Forall is_byte (rsRemainder data n).
Proof.
  intros Hn Hd. destruct (rsGenerator_spec n Hn) as (Hl & Hg & H0 & Hr). unfold rsRemainder.
  destruct (rs_fold_eval (rsGenerator n) (idx gfExp 0) Hg) with (data := data)
    as (L & B & _); try done; [intros E; rewrite E in Hl; simpl in Hl; lia|by apply (Hr 0%nat)|].
  rewrite Hl in L, B. by split.
Qed.

(** Error correction is Reed-Solomon. For every block and every error-correction length the
    versions use, the block followed by [rsRemainder] has value zero at each of the generator's first
    [n] powers, which is what a decoder's syndromes test. *)
Theorem rs_codeword n data i : n ∈ degrees -> Forall is_byte data -> (i < n)%nat ->
  gf_eval (data ++ rsRemainder data n) (idx gfExp (Z.of_nat i)) = 0.
Proof.
  intros Hn Hd Hi. destruct (rsGenerator_spec n Hn) as (Hl & Hg & H0 & Hr).
  assert (Hz : is_byte (idx gfExp (Z.of_nat i))).
  { rewrite <- (Z.mod_small (Z.of_nat i) 255); [pose proof (ex_range (Z.of_nat i)); unfold is_byte, ex in *; lia|].
    assert (n <= 26)%nat; [|lia]. by repeat (apply elem_of_cons in Hn as [->|Hn]; [lia|]); apply elem_of_nil in Hn. }
  destruct (rs_fold_eval (rsGenerator n) (idx gfExp (Z.of_nat i)) Hg) with (data := data) as (L & B & E); try done;
    [intros E; rewrite E in Hl; simpl in Hl; lia|by apply Hr|].
  unfold rsRemainder. rewrite Hl in *. unfold gf_eval. rewrite foldl_app. fold (gf_eval data (idx gfExp (Z.of_nat i))).
  rewrite horner_lead by eauto with wayhop. rewrite L, E. apply Z.lxor_nilpotent.
Qed.

Lemma rs_codeword_witness :
  gf_eval (map Z.of_nat (seq 1 16) ++ rsRemainder (map Z.of_nat (seq 1 16)) 10) (idx gfExp (Z.of_nat 3)) = 0.
Proof.
  apply (rs_codeword 10 (map Z.of_nat (seq 1 16)) 3).
  - unfold degrees. left.
  - unfold is_byte. simpl. repeat constructor; lia.
  - lia.
Defined.

(** The reference block "HELLO WORLD" of version 1-M. *)
Example hello_world_ec :
  rsRemainder [32; 91; 11; 120; 209; 114; 220; 77; 67; 64; 236; 17; 236; 17; 236; 17] 10 =
  [196; 35; 39; 119; 235; 215; 231; 226; 93; 23].
Proof. vm_compute. reflexivity. Qed.
