(* ===== verification/Qr.v ===== *)
(** * QR codes: the symbol

    Models the drawing half of [src/internal/qr/qr.go]: the grid of modules with its function patterns
    ([newCode], [drawFinder], [drawFormat]), the zigzag placement of codewords ([drawCodewords]), the
    masks and the penalty score. A slice index out of range panics in Go; a write outside the grid is
    [None] here, and the drawing steps thread it.

    Further on: QR codes: encoding text. *)
From S2P Require Import Prelude QrField.
Local Open Scope Z_scope.

(** ** Loops and grids *)
Fixpoint foldM {A B} (f : A -> B -> option A) (a : A) (l : list B) : option A :=
  match l with [] => Some a | x :: l => a ← f a x; foldM f a l end.
(** The indices [lo, lo+1, ...] of a counting loop. *)
Definition range (lo : Z) (n : nat) : list Z := map (fun k => lo + Z.of_nat k) (seq 0 n).
Definition pairs (ys xs : list Z) : list (Z * Z) := ys ≫= fun y => map (fun x => (y, x)) xs.

Abbreviation bitmap := (list (list bool)).
Definition grid (n : nat) : bitmap := replicate n (replicate n false).
Definition get (g : bitmap) (y x : Z) : option bool :=
  if (0 <=? y) && (0 <=? x) then row ← g !! Z.to_nat y; row !! Z.to_nat x else None.
Definition upd (g : bitmap) (y x : Z) (b : bool) : option bitmap :=
  if (0 <=? y) && (0 <=? x) then
    row ← g !! Z.to_nat y;
    _ ← row !! Z.to_nat x;
    Some (<[Z.to_nat y := <[Z.to_nat x := b]> row]> g)
  else None.

(** ** The symbol being drawn *)
Record symbol := mkSymbol { size : Z; version : nat; modules : bitmap; function : bitmap }.
#[export] Instance eta_symbol : Eta symbol := fun s =>
  mkSymbol (size s) (version s) (modules s) (function s).

Definition set (s : symbol) (x y : Z) (dark : bool) : option symbol :=
  m ← upd (modules s) y x dark;
  f ← upd (function s) y x true;
  Some (s <| modules := m |> <| function := f |>).

Definition alignCenter : list Z := [0; 0; 18; 22; 26; 30; 34].
Definition formatLevelM : Z := 0.

Definition drawFinder (s : symbol) (x y : Z) : option symbol :=
  foldM (fun s '(dy, dx) =>
    let xx := x + dx in let yy := y + dy in
    if (xx <? 0) || (yy <? 0) || (size s <=? xx) || (size s <=? yy) then Some s
    else
      let ring := Z.max (Z.abs dx) (Z.abs dy) in
      set s xx yy (negb (ring =? 2) && negb (ring =? 4)))
    s (pairs (range (-4) 9) (range (-4) 9)).

(** [formatBits]: the BCH(15,5) word of level M and the mask. *)
Definition formatBits (mask : Z) : Z :=
  let data := Z.lor (Z.shiftl formatLevelM 3) mask in
  let rem := Nat.iter 10 (fun rem => Z.lxor (Z.shiftl rem 1) (Z.shiftr rem 9 * 1335)) data in
  Z.lxor (Z.lor (Z.shiftl data 10) rem) 21522.

(** The cells [drawFormat] writes, in its order: column, row, dark. *)
Definition format_cells (n : Z) (mask : Z) : list (Z * Z * bool) :=
  let bit i := Z.testbit (formatBits mask) i in
  map (fun i => (8, i, bit i)) (range 0 6) ++
  [(8, 7, bit 6); (8, 8, bit 7); (7, 8, bit 8)] ++
  map (fun i => (14 - i, 8, bit i)) (range 9 6) ++
  map (fun i => (n - 1 - i, 8, bit i)) (range 0 8) ++
  map (fun i => (8, n - 15 + i, bit i)) (range 8 7) ++
  [(8, n - 8, true)].
Definition drawFormat (s : symbol) (mask : Z) : option symbol :=
  foldM (fun s '(x, y, b) => set s x y b) s (format_cells (size s) mask).

Definition draw_timing (s : symbol) : option symbol :=
  foldM (fun (s : symbol) (i : Z) =>
    f ← get (function s) 6 i;
    s ← (if f : bool then Some s else set s i 6 (i mod 2 =? 0));
    f ← get (function s) i 6;
    if f : bool then Some s else set s 6 i (i mod 2 =? 0))
    s (range 0 (Z.to_nat (size s))).

Definition draw_alignment (s : symbol) : option symbol :=
  let c := nth (version s) alignCenter 0 in
  if 0 <? c then
    foldM (fun s '(dy, dx) =>
      let ring := Z.max (Z.abs dx) (Z.abs dy) in set s (c + dx) (c + dy) (negb (ring =? 1)))
      s (pairs (range (-2) 5) (range (-2) 5))
  else Some s.

Definition newCode (version : nat) : option symbol :=
  let n := (17 + 4 * version)%nat in
  let size := Z.of_nat n in
  let s := mkSymbol size version (grid n) (grid n) in
  s ← drawFinder s 3 3;
  s ← drawFinder s (size - 4) 3;
  s ← drawFinder s 3 (size - 4);
  s ← draw_timing s;
  s ← draw_alignment s;
  drawFormat s 0.

(** ** Placing the codewords *)
Fixpoint columns (fuel : nat) (right : Z) : list Z :=
  match fuel with
  | O => []
  | S fuel =>
      if right <? 1 then []
      else let right := if right =? 6 then 5 else right in right :: columns fuel (right - 2)
  end.

(** The modules visited, in order, as row and column. *)
Definition zigzag (size : Z) : list (Z * Z) :=
  columns (Z.to_nat size) (size - 1) ≫= fun right =>
    let upward := Z.land (right + 1) 2 =? 0 in
    range 0 (Z.to_nat size) ≫= fun vert =>
      let y := if upward then size - 1 - vert else vert in
      map (fun j => (y, right - j)) (range 0 2).

Definition data_bit (data : list Z) (i : nat) : bool :=
  Z.testbit (nth (i / 8) data 0) (Z.of_nat (7 - i mod 8)).
Definition place (data : list Z) (st : symbol * nat) (p : Z * Z) : option (symbol * nat) :=
  let '(s, i) := st in let '(y, x) := p in
  f ← get (function s) y x;
  if f || (length data * 8 <=? i)%nat then Some (s, i)
  else m ← upd (modules s) y x (data_bit data i); Some (s <| modules := m |>, S i).
Definition drawCodewords (s : symbol) (data : list Z) : option symbol :=
  fst <$> foldM (place data) (s, O) (zigzag (size s)).

(** ** Masks *)
Definition maskBit (mask x y : Z) : bool :=
  match mask with
  | 0 => (x + y) mod 2 =? 0
  | 1 => y mod 2 =? 0
  | 2 => x mod 3 =? 0
  | 3 => (x + y) mod 3 =? 0
  | 4 => (x / 3 + y / 2) mod 2 =? 0
  | 5 => x * y mod 2 + x * y mod 3 =? 0
  | 6 => (x * y mod 2 + x * y mod 3) mod 2 =? 0
  | _ => ((x + y) mod 2 + x * y mod 3) mod 2 =? 0
  end.

Definition mask_module (mask : Z) (s : symbol) (p : Z * Z) : option symbol :=
  let '(y, x) := p in
  f ← get (function s) y x;
  if negb f && maskBit mask x y then
    m ← get (modules s) y x;
    g ← upd (modules s) y x (negb m);
    Some (s <| modules := g |>)
  else Some s.
Definition cells (s : symbol) : list (Z * Z) :=
  let n := Z.to_nat (size s) in pairs (range 0 n) (range 0 n).
Definition applyMask (s : symbol) (mask : Z) : option symbol :=
  foldM (mask_module mask) s (cells s).

(** ** The penalty *)
Definition at_ (g : bitmap) (y x : Z) : bool := default false (get g y x).
Definition run_score (run : Z) : Z := if 5 <=? run then 3 + run - 5 else 0.
Fixpoint run_scores (prev : bool) (run : Z) (l : list bool) : Z :=
  match l with
  | [] => run_score run
  | b :: l => if eqb b prev then run_scores prev (run + 1) l else run_score run + run_scores b 1 l
  end.

Fixpoint starts_with (pat l : list bool) : bool :=
  match pat, l with
  | [], _ => true
  | p :: pat, b :: l => eqb p b && starts_with pat l
  | _ :: _, [] => false
  end.
(** [strings.Count]: occurrences that do not overlap. *)
Fixpoint count (pat : list bool) (skip : nat) (l : list bool) : Z :=
  match l with
  | [] => 0
  | _ :: l' =>
      match skip with
      | S skip => count pat skip l'
      | O => if starts_with pat l then 1 + count pat (length pat - 1) l' else count pat O l'
      end
  end.
Definition finder_before : list bool := [true; false; true; true; true; false; true; false; false; false; false].
Definition finder_after : list bool := [false; false; false; false; true; false; true; true; true; false; true].

Definition line_score (row : list bool) : Z :=
  match row with
  | [] => 0
  | b :: row' => run_scores b 1 row'
  end + 40 * (count finder_before 0 row + count finder_after 0 row).

Definition zsum (l : list Z) : Z := foldr Z.add 0 l.
Definition same_block (m : bitmap) (y x : Z) : bool :=
  let c := at_ m y x in
  eqb (at_ m y (x + 1)) c && eqb (at_ m (y + 1) x) c && eqb (at_ m (y + 1) (x + 1)) c.
Definition penalty (s : symbol) : Z :=
  let n := size s in
  let ix := range 0 (Z.to_nat n) in
  let m := modules s in
  let lines := zsum (map (fun y => line_score (map (fun i => at_ m y i) ix)) ix) +
               zsum (map (fun x => line_score (map (fun i => at_ m i x) ix)) ix) in
  let dark := zsum (map (fun '(y, x) => if at_ m y x then 1 else 0) (pairs ix ix)) in
  let blocks := zsum (map (fun '(y, x) =>
    if (x <? n - 1) && (y <? n - 1) && same_block m y x then 3 else 0) (pairs ix ix)) in
  let total := n * n in
  let k := Z.quot (Z.abs (dark * 20 - total * 10) + total - 1) total - 1 in
  lines + blocks + (if 0 <? k then 10 * k else 0).

(** ** Grids of one size *)
Definition shaped (n : nat) (g : bitmap) : Prop := length g = n /\ Forall (fun r => length r = n) g.
Definition inside (n : nat) (p : Z * Z) : Prop := 0 <= p.1 < Z.of_nat n /\ 0 <= p.2 < Z.of_nat n.
Definition cell (g : bitmap) (p : Z * Z) : option bool := get g p.1 p.2.

Lemma grid_shaped n : shaped n (grid n).
Proof. unfold grid. split; [apply length_replicate|]. apply Forall_replicate, length_replicate. Qed.

Lemma cell_some n g p : shaped n g -> inside n p -> is_Some (cell g p).
Proof.
  destruct p as [y x]. intros [Hl Hr] [Hy Hx]. unfold cell, get. simpl in *.
  replace ((0 <=? y) && (0 <=? x)) with true by lia.
  destruct (lookup_lt_is_Some_2 g (Z.to_nat y)) as [row Erow]; [lia|]. rewrite Erow. simpl.
  apply lookup_lt_is_Some_2. rewrite Forall_lookup in Hr. rewrite (Hr _ _ Erow). lia.
Qed.

(** A write inside the grid changes its cell only. *)
Lemma upd_spec n g p b : shaped n g -> inside n p ->
  exists g', upd g p.1 p.2 b = Some g' /\ shaped n g' /\
    forall q, inside n q -> cell g' q = if decide (q = p) then Some b else cell g q.
Proof.
  intros Hs Hp. destruct (cell_some n g p Hs Hp) as [old Hold]. destruct p as [y x], Hp as [Hy Hx].
  unfold cell, get, upd in *. simpl in *. replace ((0 <=? y) && (0 <=? x)) with true in * by lia.
  destruct (g !! Z.to_nat y) as [row|] eqn:Er; [|done]. simpl in *. rewrite Hold. simpl.
  eexists. split; [done|]. destruct Hs as [Hl Hr]. split.
  - split; [by rewrite length_insert|]. apply Forall_insert; [done|]. rewrite length_insert.
    rewrite Forall_lookup in Hr. by eapply Hr.
  - intros [y' x'] [Hy' Hx']. simpl in *. replace ((0 <=? y') && (0 <=? x')) with true by lia.
    assert (Hyl : (Z.to_nat y < length g)%nat) by lia.
    destruct (decide (y' = y)) as [->|Hne].
    + rewrite list_lookup_insert_eq by done. rewrite Er. simpl.
      destruct (decide (x' = x)) as [->|Hnx].
      * rewrite decide_True by done. apply list_lookup_insert_eq. by eapply lookup_lt_Some.
      * rewrite decide_False by congruence. apply list_lookup_insert_ne. lia.
    + rewrite decide_False by congruence. by rewrite list_lookup_insert_ne by lia.
Qed.

(** A symbol of size [n] whose grids have that shape. *)
Definition sound (n : nat) (s : symbol) : Prop :=
  size s = Z.of_nat n /\ shaped n (modules s) /\ shaped n (function s).

Lemma foldM_app {A B} (f : A -> B -> option A) a l1 l2 :
  foldM f a (l1 ++ l2) = a' ← foldM f a l1; foldM f a' l2.
Proof. revert a. induction l1 as [|x l1 IH]; intros a; [done|]. simpl. destruct (f a x); [apply IH|done]. Qed.

(** *** Placement: the [k]-th free cell visited gets bit [k] *)
Definition free (s : symbol) (ps : list (Z * Z)) : list (Z * Z) :=
  filter (fun p => cell (function s) p = Some false) ps.

Lemma free_same s s' ps : function s' = function s -> free s' ps = free s ps.
Proof. intros E. unfold free. by rewrite E. Qed.

Lemma place_spec n data ps : Forall (inside n) ps -> forall s i, sound n s -> NoDup (free s ps) ->
  exists s' i', foldM (place data) (s, i) ps = Some (s', i') /\ sound n s' /\
    function s' = function s /\ version s' = version s /\
    (forall q, inside n q -> q ∉ free s ps -> cell (modules s') q = cell (modules s) q) /\
    (forall k q, free s ps !! k = Some q -> (i + k < length data * 8)%nat ->
       cell (modules s') q = Some (data_bit data (i + k))).
Proof.
  induction 1 as [|p ps Hp Hps IH]; intros s i Hs Hnd; [by exists s, i|].
  destruct Hs as (Hsz & Hm & Hf). destruct (cell_some n (function s) p Hf Hp) as [f Ef].
  pose proof Ef as Ef'. destruct p as [y x]. unfold cell in Ef. cbn [foldM place].
  unfold free in Hnd |- *. rewrite filter_cons in Hnd |- *. cbn [fst snd] in Ef. rewrite Ef. cbn [mbind option_bind].
  destruct f; cbn [orb].
  { rewrite decide_False in Hnd |- * by congruence. by apply IH. }
  rewrite decide_True in Hnd |- * by done. apply NoDup_cons in Hnd as [Hnew Hnd]. fold (free s ps) in *.
  destruct (Nat.leb_spec (length data * 8) i) as [Hover|Hroom].
  - destruct (IH s i) as (s' & i' & E & H1 & H2 & H3 & H4 & H5); [done|done|].
    exists s', i'. split_and!; try done.
    + intros q Hq Hn. apply H4; [done|]. set_solver.
    + intros k q Hk Hi. lia.
  - destruct (upd_spec n (modules s) (y, x) (data_bit data i) Hm Hp) as (g & Eg & Hg & Hcell).
    cbn [fst snd] in Eg. rewrite Eg. cbn [mbind option_bind].
    destruct (IH (s <| modules := g |>) (S i)) as (s' & i' & E & H1 & H2 & H3 & H4 & H5); [by split_and!|done|].
    rewrite (free_same s) in H4, H5 by done. exists s', i'. split_and!; try done.
    + intros q Hq Hn. rewrite H4 by (done || set_solver). simpl. rewrite Hcell by done.
      rewrite decide_False; [done|]. intros ->. apply Hn. left.
    + intros [|k] q Hk Hi; simpl in Hk.
      * injection Hk as <-. rewrite H4 by done. simpl. rewrite Hcell, decide_True by done. by rewrite Nat.add_0_r.
      * rewrite Nat.add_succ_r. apply H5; [done|lia].
Qed.

(** *** Masking: a free cell is flipped where the mask says *)
Lemma mask_spec n mask ps : Forall (inside n) ps -> NoDup ps -> forall s, sound n s ->
  exists s', foldM (mask_module mask) s ps = Some s' /\ sound n s' /\
    function s' = function s /\ version s' = version s /\
    (forall q, inside n q -> q ∉ free s ps -> cell (modules s') q = cell (modules s) q) /\
    (forall q, q ∈ free s ps ->
       cell (modules s') q = xorb (maskBit mask q.2 q.1) <$> cell (modules s) q).
Proof.
  induction 1 as [|p ps Hp Hps IH]; intros Hnd s Hs; [exists s; split_and!; try done; intros q Hq; by apply elem_of_nil in Hq|].
  apply NoDup_cons in Hnd as [Hnew Hnd]. destruct Hs as (Hsz & Hm & Hf).
  destruct (cell_some n (function s) p Hf Hp) as [f Ef]. destruct (cell_some n (modules s) p Hm Hp) as [m Em].
  assert (Hfr : free s (p :: ps) = if f then free s ps else p :: free s ps).
  { unfold free. rewrite filter_cons, Ef. by destruct f. }
  assert (Hnf : p ∉ free s ps) by (intros [_ ?]%list_elem_of_filter; done).
  assert (Hstep : exists s1, mask_module mask s p = Some s1 /\ sound n s1 /\ function s1 = function s /\
    version s1 = version s /\
    (forall q, inside n q -> cell (modules s1) q =
       if decide (q = p) then Some (if f then m else xorb (maskBit mask p.2 p.1) m) else cell (modules s) q)).
  { destruct p as [y x]. unfold mask_module. pose proof Ef as Ef'. pose proof Em as Em'.
    unfold cell in Ef, Em. cbn [fst snd] in *. rewrite Ef. cbn [mbind option_bind].
    destruct (negb f && maskBit mask x y) eqn:Eb.
    - rewrite Em. cbn [mbind option_bind].
      destruct (upd_spec n (modules s) (y, x) (negb m) Hm Hp) as (g & Eg & Hg & Hcell).
      cbn [fst snd] in Eg. rewrite Eg. cbn [mbind option_bind]. eexists. split_and!; try done.
      intros q Hq. destruct f; [done|]. simpl in Eb. rewrite Eb, xorb_true_l. exact (Hcell q Hq).
    - exists s. split_and!; try done. intros q Hq. case_decide as Hd; [|done]. subst q. rewrite Em'.
      destruct f; [done|]. simpl in Eb. by rewrite Eb, xorb_false_l. }
  destruct Hstep as (s1 & E1 & Hs1 & Hf1 & Hv1 & Hc1).
  destruct (IH Hnd s1 Hs1) as (s' & E & H1 & H2 & H3 & H4 & H5). rewrite (free_same s s1) in H4, H5 by done.
  exists s'. cbn [foldM]. rewrite E1. cbn [mbind option_bind].
  split_and!; [done|done|congruence|congruence|..]; rewrite Hfr.
  - intros q Hq Hn. destruct f.
    + rewrite H4, Hc1 by done. case_decide; [congruence|done].
    + rewrite H4 by (done || set_solver). rewrite Hc1, decide_False by (done || set_solver). done.
  - intros q Hq.
    assert (Hcase : q = p /\ f = false \/ q <> p /\ q ∈ free s ps).
    { destruct f; [right|apply elem_of_cons in Hq as [->|Hq]; [by left|right]]; (split; [|done]); by intros ->. }
    destruct Hcase as [[-> ->]|[Hne Hin]].
    + rewrite H4 by done. rewrite Hc1, decide_True by done. by rewrite Em.
    + rewrite H5 by done. assert (Hi : inside n q).
      { apply list_elem_of_filter in Hin as [_ Hin]. by eapply Forall_forall in Hin. }
      by rewrite Hc1, decide_False.
Qed.

(** *** Function patterns: the cells written, and nothing else *)
Definition spot (c : Z * Z * bool) : Z * Z := (c.1.2, c.1.1).
Lemma set_cells_spec n cs : Forall (inside n) (map spot cs) -> NoDup (map spot cs) ->
  forall s, sound n s ->
  exists s', foldM (fun s '(x, y, b) => set s x y b) s cs = Some s' /\ sound n s' /\
    version s' = version s /\
    (forall q, inside n q -> q ∉ map spot cs ->
       cell (modules s') q = cell (modules s) q /\ cell (function s') q = cell (function s) q) /\
    (forall c, c ∈ cs -> cell (modules s') (spot c) = Some c.2 /\ cell (function s') (spot c) = Some true).
Proof.
  induction cs as [|[[x y] b] cs IH]; intros Hin Hnd s Hs;
    [exists s; split_and!; try done; intros c Hc; by apply elem_of_nil in Hc|].
  cbn [map] in Hin, Hnd. apply Forall_cons in Hin as [Hp Hin]. apply NoDup_cons in Hnd as [Hnew Hnd].
  destruct Hs as (Hsz & Hm & Hf).
  destruct (upd_spec n (modules s) (y, x) b Hm Hp) as (m1 & E1 & S1 & C1).
  destruct (upd_spec n (function s) (y, x) true Hf Hp) as (f1 & E2 & S2 & C2). cbn [fst snd] in E1, E2.
  destruct (IH Hin Hnd (s <| modules := m1 |> <| function := f1 |>)) as (s' & E & G1 & G2 & G3 & G4); [by split_and!|].
  assert (Eset : set s x y b = Some (s <| modules := m1 |> <| function := f1 |>)).
  { unfold set. rewrite E1. cbn [mbind option_bind]. by rewrite E2. }
  exists s'. cbn [foldM]. rewrite Eset. cbn [mbind option_bind].
  split_and!; try done.
  - intros q Hq Hn. cbn [map] in Hn. apply not_elem_of_cons in Hn as [Hne Hn].
    destruct (G3 q Hq Hn) as [-> ->]. simpl. rewrite C1, C2 by done. by rewrite !decide_False.
  - intros c [->|Hc]%elem_of_cons; [|by apply G4]. destruct (G3 (y, x) Hp Hnew) as [X Y].
    change (spot (x, y, b)) with (y, x). rewrite X, Y. simpl. rewrite C1, C2 by done. by rewrite !decide_True.
Qed.

(** ** The layout of each version

    What ISO/IEC 18004 says of versions 1 to 6, independently of the drawing code: which modules are
    function patterns, and the order in which the others carry the codewords. *)
Definition side (v : nat) : nat := (17 + 4 * v)%nat.
Definition iso_function (v : nat) (p : Z * Z) : bool :=
  let '(y, x) := p in
  let n := Z.of_nat (side v) in
  (x <? 9) && (y <? 9) || (n - 8 <=? x) && (y <? 9) || (x <? 9) && (n - 8 <=? y)
  || (x =? 6) || (y =? 6)
  || (2 <=? v)%nat && (Z.abs (x - (n - 7)) <=? 2) && (Z.abs (y - (n - 7)) <=? 2).

(** Pairs of columns from the right edge, over the timing column, first upwards, then alternating. *)
Definition iso_columns (v : nat) : list Z :=
  let n := Z.of_nat (side v) in
  map (fun k => n - 1 - 2 * k) (range 0 ((side v - 7) / 2)) ++ [5; 3; 1].
Definition iso_order (v : nat) : list (Z * Z) :=
  concat (imap (fun k right =>
    let ys := range 0 (side v) in
    (if Nat.even k then reverse ys else ys) ≫= fun y => [(y, right); (y, right - 1)]) (iso_columns v)).
Definition iso_path (v : nat) : list (Z * Z) := filter (fun p => iso_function v p = false) (iso_order v).

(** A linear-time test that positions are distinct. *)
Definition key (p : Z * Z) : positive := Z.to_pos (p.1 * 64 + p.2 + 1).
Fixpoint distinct (seen : gset positive) (ps : list (Z * Z)) : bool :=
  match ps with
  | [] => true
  | p :: ps => negb (bool_decide (key p ∈ seen)) && distinct ({[key p]} ∪ seen) ps
  end.
Lemma distinct_NoDup seen ps : distinct seen ps = true ->
  NoDup ps /\ forall p, p ∈ ps -> key p ∉ seen.
Proof.
  revert seen. induction ps as [|p ps IH]; intros seen H; [split; [constructor|intros p Hp; by apply elem_of_nil in Hp]|].
  simpl in H. bool_facts. destruct (IH _ H0) as [Hnd Hout]. split.
  - constructor; [|done]. intros Hin. specialize (Hout p Hin). set_solver.
  - intros q [->|Hq]%elem_of_cons; [done|]. specialize (Hout q Hq). set_solver.
Qed.

Definition inside_b (n : nat) (p : Z * Z) : bool :=
  (0 <=? p.1) && (p.1 <? Z.of_nat n) && (0 <=? p.2) && (p.2 <? Z.of_nat n).
Definition shaped_b (n : nat) (g : bitmap) : bool :=
  (length g =? n)%nat && forallb (fun r => (length r =? n)%nat) g.
Definition layout_ok (v : nat) : bool :=
  match newCode v with
  | None => false
  | Some s =>
      let n := side v in
      let visited := zigzag (Z.of_nat n) in
      let spots := map spot (format_cells (Z.of_nat n) 0) in
      (size s =? Z.of_nat n) && (version s =? v)%nat && shaped_b n (modules s) && shaped_b n (function s) &&
      forallb (fun p => bool_decide (cell (function s) p = Some (iso_function v p)))
        (pairs (range 0 n) (range 0 n)) &&
      forallb (inside_b n) visited && bool_decide (visited = iso_order v) &&
      distinct ∅ (iso_path v) &&
      forallb (fun p => inside_b n p && iso_function v p) spots && distinct ∅ spots
  end.
Lemma layouts_ok : forallb layout_ok (seq 1 6) = true.
Proof. vm_compute. reflexivity. Qed.

Lemma inside_b_spec n p : inside_b n p = true -> inside n p.
Proof. unfold inside_b, inside. lia. Qed.
Lemma shaped_b_spec n g : shaped_b n g = true -> shaped n g.
Proof.
  unfold shaped_b, shaped. rewrite andb_true_iff, forallb_forall. intros [H1 H2]. split; [lia|].
  apply Forall_forall. intros r Hr. apply list_elem_of_In in Hr. specialize (H2 r Hr). lia.
Qed.
Lemma Forall_of_forallb {A} (P : A -> Prop) (f : A -> bool) l :
  (forall x, f x = true -> P x) -> forallb f l = true -> Forall P l.
Proof.
  intros H. rewrite forallb_forall. intros Hl. apply Forall_forall. intros x Hx.
  apply H, Hl. by apply list_elem_of_In.
Qed.

Lemma range_elem lo n z : z ∈ range lo n <-> lo <= z < lo + Z.of_nat n.
Proof.
  unfold range. rewrite list_elem_of_fmap. split.
  - intros (k & -> & Hk). apply elem_of_seq in Hk. lia.
  - intros Hz. exists (Z.to_nat (z - lo)). split; [lia|]. apply elem_of_seq. lia.
Qed.
Lemma pairs_elem ys xs y x : (y, x) ∈ pairs ys xs <-> y ∈ ys /\ x ∈ xs.
Proof.
  unfold pairs. rewrite list_elem_of_bind. split.
  - intros (y' & Hp & Hy). apply list_elem_of_fmap in Hp as (x' & [= -> ->] & Hx). done.
  - intros [Hy Hx]. exists y. split; [|done]. apply list_elem_of_fmap. by exists x.
Qed.
Lemma square_elem n p : p ∈ pairs (range 0 n) (range 0 n) <-> inside n p.
Proof. destruct p as [y x]. rewrite pairs_elem, !range_elem. unfold inside. simpl. lia. Qed.
Lemma range_NoDup lo n : NoDup (range lo n).
Proof. apply NoDup_fmap_2; [intros a b; lia|apply NoDup_seq]. Qed.
Lemma pairs_NoDup ys xs : NoDup ys -> NoDup xs -> NoDup (pairs ys xs).
Proof.
  intros Hys Hxs. induction Hys as [|y l Hy Hnd IH]; [constructor|].
  change (pairs (y :: l) xs) with (map (fun x => (y, x)) xs ++ pairs l xs). apply NoDup_app. split_and!.
  - apply NoDup_fmap_2; [by intros a b [= ->]|done].
  - intros [y' x'] Hin Hbad. apply list_elem_of_fmap in Hin as (x & [= -> ->] & _).
    by apply pairs_elem in Hbad as [Hbad _].
  - exact IH.
Qed.
Lemma square_NoDup n : NoDup (pairs (range 0 n) (range 0 n)).
Proof. apply pairs_NoDup; apply range_NoDup. Qed.

(** The freshly drawn symbol of a version. *)
Record layout (v : nat) (s : symbol) : Prop := {
  layout_new : newCode v = Some s;
  layout_sound : sound (side v) s;
  layout_version : version s = v;
  layout_function : forall p, inside (side v) p -> cell (function s) p = Some (iso_function v p);
  layout_visited : zigzag (Z.of_nat (side v)) = iso_order v;
  layout_inside : Forall (inside (side v)) (iso_order v);
  layout_path : NoDup (iso_path v);
  layout_spots_inside : Forall (inside (side v)) (map spot (format_cells (Z.of_nat (side v)) 0));
  layout_spots_function : Forall (fun p => iso_function v p = true) (map spot (format_cells (Z.of_nat (side v)) 0));
  layout_spots : NoDup (map spot (format_cells (Z.of_nat (side v)) 0))
}.
Lemma layout_of v : (1 <= v <= 6)%nat -> exists s, layout v s.
Proof.
  intros Hv. pose proof layouts_ok as H. rewrite forallb_forall in H.
  specialize (H v). rewrite in_seq in H. specialize (H ltac:(lia)). unfold layout_ok in H.
  destruct (newCode v) as [s|] eqn:E; [|done]. exists s.
  rewrite !andb_true_iff in H. destruct H as [[[[[[[[[H1 H2] H3] H4] H5] H6] H7] H8] H9] H10].
  apply bool_decide_eq_true in H7. split; try done.
  - split_and!; [lia|by apply shaped_b_spec..].
  - lia.
  - intros p Hp. rewrite forallb_forall in H5. eapply bool_decide_eq_true_1, H5, list_elem_of_In.
    by apply square_elem.
  - rewrite <- H7. eapply Forall_of_forallb; [|exact H6]. apply inside_b_spec.
  - by apply distinct_NoDup in H8 as [? _].
  - eapply Forall_of_forallb; [|exact H9]. intros p [Hp _]%andb_true_iff. by apply inside_b_spec.
  - eapply Forall_of_forallb; [|exact H9]. by intros p [_ Hp]%andb_true_iff.
  - by apply distinct_NoDup in H10 as [? _].
Qed.

Lemma free_iso v s ps : (forall p, inside (side v) p -> cell (function s) p = Some (iso_function v p)) ->
  Forall (inside (side v)) ps -> free s ps = filter (fun p => iso_function v p = false) ps.
Proof.
  intros Hf. induction 1 as [|p ps Hp Hps IH]; [done|]. unfold free in *.
  rewrite !filter_cons, (Hf p Hp), IH. by destruct (iso_function v p).
Qed.

(** One symbol as [Encode] draws it. *)
Definition draw (v : nat) (codewords : list Z) (mask : Z) : option symbol :=
  s ← newCode v;
  s ← drawCodewords s codewords;
  s ← applyMask s mask;
  drawFormat s mask.

(** The symbol drawn is the one the standard describes. For every version, mask and codewords,
    nothing is written outside the grid, the module the standard's zigzag visits at step [k] shows bit
    [k] of the codewords under the mask, and the format cells show the format word, both copies. *)
Theorem draw_follows_standard v codewords mask : (1 <= v <= 6)%nat -> 
  exists s, draw v codewords mask = Some s /\ sound (side v) s /\ version s = v /\
    (forall k p, iso_path v !! k = Some p -> (k < length codewords * 8)%nat ->
       cell (modules s) p = Some (xorb (maskBit mask p.2 p.1) (data_bit codewords k))) /\
    (forall x y b, (x, y, b) ∈ format_cells (Z.of_nat (side v)) mask -> cell (modules s) (y, x) = Some b).
Proof.
  intros Hv. destruct (layout_of v Hv) as [s0 [E0 S0 V0 F0 Z0 I0 P0 SI SF SN]].
  unfold draw. rewrite E0. cbn [mbind option_bind]. unfold drawCodewords.
  pose proof (proj1 S0) as Hsize. rewrite Hsize, Z0.
  pose proof (free_iso v s0 _ F0 I0) as Hfree. fold (iso_path v) in Hfree.
  destruct (place_spec (side v) codewords (iso_order v) I0 s0 0 S0) as (s1 & i & E1 & S1 & F1 & V1 & _ & B1);
    [by rewrite Hfree|]. rewrite E1, Hfree in *. cbn [fmap option_fmap option_map fst mbind option_bind].
  unfold applyMask, cells. rewrite (proj1 S1), Nat2Z.id.
  assert (Hsq : Forall (inside (side v)) (pairs (range 0 (side v)) (range 0 (side v))))
    by (apply Forall_forall; intros p; apply square_elem).
  destruct (mask_spec (side v) mask _ Hsq (square_NoDup _) s1 S1) as (s2 & E2 & S2 & F2 & V2 & _ & M2).
  rewrite E2. cbn [mbind option_bind]. unfold drawFormat. rewrite (proj1 S2).
  assert (Hspots : map spot (format_cells (Z.of_nat (side v)) mask) =
    map spot (format_cells (Z.of_nat (side v)) 0)) by done.
  destruct (set_cells_spec (side v) (format_cells (Z.of_nat (side v)) mask)) with (s := s2)
    as (s3 & E3 & S3 & V3 & K3 & C3); [by rewrite Hspots|by rewrite Hspots|done|].
  exists s3. split_and!; [done|done|congruence| |intros x y b Hc; by destruct (C3 _ Hc)].
  intros k p Hk Hlen. assert (Hp : p ∈ iso_path v) by (by eapply list_elem_of_lookup_2).
  pose proof Hp as [Hfun Hord]%list_elem_of_filter.
  assert (Hin : inside (side v) p) by (by eapply Forall_forall in I0).
  destruct (K3 p Hin) as [-> _].
  { rewrite Hspots. intros Hbad. eapply Forall_forall in SF; [|exact Hbad]. congruence. }
  rewrite M2.
  - by rewrite (B1 k p Hk Hlen).
  - apply list_elem_of_filter. split; [|by apply square_elem]. rewrite F1, F0 by done. by rewrite Hfun.
Qed.

Lemma draw_follows_standard_witness :
  exists s, draw 1 (map Z.of_nat (seq 1 26)) 3 = Some s /\ sound (side 1) s /\ version s = 1%nat /\
    (forall k p, iso_path 1 !! k = Some p -> (k < length (map Z.of_nat (seq 1 26)) * 8)%nat ->
       cell (modules s) p = Some (xorb (maskBit 3 p.2 p.1) (data_bit (map Z.of_nat (seq 1 26)) k))) /\
    (forall x y b, (x, y, b) ∈ format_cells (Z.of_nat (side 1)) 3 -> cell (modules s) (y, x) = Some b).
Proof. apply (draw_follows_standard 1 (map Z.of_nat (seq 1 26)) 3). lia. Defined.

(** * QR codes: encoding text

    Models [Encode] of [src/internal/qr/qr.go] and what it calls besides the drawing: the bit writer,
    [dataCodewords], [interleave], the choice of version and mask. The main theorem reads the code
    back with a reader written from the standard. *)

(** ** Error-correction levels *)
Record ecM := mkEc { ec : nat; blocks : nat; data : nat }.
Definition levelM : list ecM :=
  [mkEc 0 0 0; mkEc 10 1 16; mkEc 16 1 28; mkEc 26 1 44; mkEc 18 2 32; mkEc 24 2 43; mkEc 16 4 27].
Definition level (v : nat) : ecM := nth v levelM (mkEc 0 0 0).
Definition capacity (v : nat) : nat := (blocks (level v) * data (level v))%nat.

(** ** The bit writer *)
Record bitWriter := mkWriter { buf : list Z; n : nat }.
Definition put_bit (w : bitWriter) (b : bool) : bitWriter :=
  let bf := if (n w mod 8 =? 0)%nat then buf w ++ [0] else buf w in
  let bf := if b then alter (fun x => Z.lor x (Z.shiftr 128 (Z.of_nat (n w mod 8)))) (n w / 8)%nat bf else bf in
  mkWriter bf (S (n w)).
Fixpoint put (w : bitWriter) (v : Z) (bits : nat) : bitWriter :=
  match bits with
  | O => w
  | S i => put (put_bit w (Z.testbit v (Z.of_nat i))) v i
  end.

(** ** Codewords *)
Fixpoint pads (k : nat) (pad : Z) : list Z :=
  match k with O => [] | S k => pad :: pads k (Z.lxor pad (Z.lxor 236 17)) end.

Definition dataCodewords (version : nat) (text : list Z) : list Z :=
  let capacity := capacity version in
  let w := put (mkWriter [] 0) 4 4 in
  let w := put w (Z.of_nat (length text)) 8 in
  let w := foldl (fun w b => put w b 8) w text in
  let w := if (n w <? capacity * 8)%nat
           then let room := (capacity * 8 - n w)%nat in put w 0 (if (4 <? room)%nat then 4 else room)
           else w in
  let w := if (n w mod 8 =? 0)%nat then w else put w 0 (8 - n w mod 8)%nat in
  buf w ++ pads (capacity - length (buf w)) 236.

Definition interleave (version : nat) (text : list Z) : list Z :=
  let m := level version in
  let bs := map (fun b => take (data m) (drop (b * data m) text)) (seq 0 (blocks m)) in
  let es := map (fun block => rsRemainder block (ec m)) bs in
  (seq 0 (data m) ≫= fun i => map (fun b => nth i b 0) bs) ++
  (seq 0 (ec m) ≫= fun i => map (fun e => nth i e 0) es).

(** ** [Encode] *)
Record Code := mkCode { Size : Z; Version : nat; Mask : Z; Modules : bitmap }.
Inductive encoded := ErrTooLong | Encoded (c : Code).

Definition fits (text : list Z) (v : nat) : bool := (4 + 8 + 8 * length text <=? capacity v * 8)%nat.
Definition snapshot (s : symbol) (mask : Z) : Code := mkCode (size s) (version s) mask (modules s).

Definition try_mask (version : nat) (codewords : list Z) (best : option (Code * Z)) (mask : Z)
    : option (option (Code * Z)) :=
  s ← draw version codewords mask;
  let score := penalty s in
  Some (match best with
        | Some (_, bestScore) => if score <? bestScore then Some (snapshot s mask, score) else best
        | None => Some (snapshot s mask, score)
        end).

Definition Encode (text : list Z) : option encoded :=
  match List.find (fits text) (seq 1 6) with
  | None => Some ErrTooLong
  | Some version =>
      let codewords := interleave version (dataCodewords version text) in
      best ← foldM (try_mask version codewords) None (range 0 8);
      '(c, _) ← best;
      Some (Encoded c)
  end.

(** ** A reader, from the standard

    The format word's modules, both copies, bit 0 first (row, column). *)
Definition iso_format (v : nat) (copy : bool) : list (Z * Z) :=
  let n := Z.of_nat (side v) in
  if copy then [(0, 8); (1, 8); (2, 8); (3, 8); (4, 8); (5, 8); (7, 8); (8, 8); (8, 7);
                (8, 5); (8, 4); (8, 3); (8, 2); (8, 1); (8, 0)]
  else map (fun i => (8, n - 1 - i)) (range 0 8) ++ map (fun i => (n - 7 + i, 8)) (range 0 7).
Fixpoint word (bs : list bool) : Z :=
  match bs with [] => 0 | b :: bs => Z.b2z b + 2 * word bs end.
Definition module_ (c : Code) (p : Z * Z) : bool := default false (cell (Modules c) p).
Definition read_mask (c : Code) (copy : bool) : option Z :=
  let data := Z.shiftr (Z.lxor (word (map (module_ c) (iso_format (Version c) copy))) 21522) 10 in
  if Z.shiftr data 3 =? 0 then Some (Z.land data 7) else None.

(** Bits, most significant first, and bytes. *)
Fixpoint bytes_of (bs : list bool) : list Z :=
  match bs with
  | b7 :: b6 :: b5 :: b4 :: b3 :: b2 :: b1 :: b0 :: bs => word [b0; b1; b2; b3; b4; b5; b6; b7] :: bytes_of bs
  | _ => []
  end.
Definition byte_bits (x : Z) : list bool :=
  map (Z.testbit x) [7; 6; 5; 4; 3; 2; 1; 0].
Definition bits_of (l : list Z) : list bool := l ≫= byte_bits.

Definition read_codewords (c : Code) (mask : Z) : list Z :=
  bytes_of (map (fun p => xorb (maskBit mask p.2 p.1) (module_ c p)) (iso_path (Version c))).
Definition deinterleave (v : nat) (codewords : list Z) : list Z :=
  let m := level v in
  seq 0 (blocks m) ≫= fun b => map (fun i => nth (i * blocks m + b) codewords 0) (seq 0 (data m)).
(** Byte mode: four bits of mode, eight of count, the bytes. *)
Definition parse (bs : list bool) : option (list Z) :=
  if bool_decide (take 4 bs = [false; true; false; false]) then
    count ← head (bytes_of (take 8 (drop 4 bs)));
    let text := bytes_of (take (8 * Z.to_nat count) (drop 12 bs)) in
    if (length text =? Z.to_nat count)%nat then Some text else None
  else None.
Definition read (copy : bool) (c : Code) : option (list Z) :=
  mask ← read_mask c copy;
  parse (bits_of (deinterleave (Version c) (read_codewords c mask))).

(** ** Bits and bytes *)
Lemma bits_of_app l1 l2 : bits_of (l1 ++ l2) = bits_of l1 ++ bits_of l2.
Proof. unfold bits_of. apply bind_app. Qed.
Lemma bits_of_cons x l : bits_of (x :: l) = byte_bits x ++ bits_of l.
Proof. done. Qed.
Lemma bits_of_length l : length (bits_of l) = (8 * length l)%nat.
Proof. induction l as [|x l IH]; [done|]. rewrite bits_of_cons, length_app, IH. simpl. lia. Qed.

Lemma word_byte x : is_byte x -> word (reverse (byte_bits x)) = x.
Proof.
  intros Hx. pose proof (forall_bytes (fun x => word (reverse (byte_bits x)) =? x) 256 eq_refl x). 
  unfold is_byte in Hx. lia.
Qed.
Lemma bytes_of_bits l rest : Forall is_byte l -> length rest = 0%nat ->
  bytes_of (bits_of l ++ rest) = l.
Proof.
  intros Hl Hr. destruct rest; [|done]. rewrite app_nil_r.
  induction Hl as [|x l Hx Hl IH]; [done|]. rewrite bits_of_cons.
  change (bytes_of (byte_bits x ++ bits_of l)) with (word (reverse (byte_bits x)) :: bytes_of (bits_of l)).
  by rewrite word_byte, IH.
Qed.
Lemma bytes_of_app l bs : Forall is_byte l -> bytes_of (bits_of l ++ bs) = l ++ bytes_of bs.
Proof.
  induction 1 as [|x l Hx Hl IH]; [done|]. rewrite bits_of_cons, <- app_assoc.
  change (bytes_of (byte_bits x ++ bits_of l ++ bs))
    with (word (reverse (byte_bits x)) :: bytes_of (bits_of l ++ bs)).
  by rewrite word_byte, IH.
Qed.
Lemma byte_bits_lookup x r : (r < 8)%nat -> byte_bits x !! r = Some (Z.testbit x (Z.of_nat (7 - r))).
Proof. intros Hr. by do 8 (destruct r as [|r]; [done|]); lia. Qed.
Lemma bits_of_lookup l k : (k < 8 * length l)%nat -> bits_of l !! k = Some (data_bit l k).
Proof.
  revert k. induction l as [|x l IH]; intros k Hk; [simpl in Hk; lia|]. rewrite bits_of_cons.
  unfold data_bit. destruct (decide (k < 8)%nat) as [Hlt|Hge].
  - rewrite lookup_app_l by done. rewrite byte_bits_lookup by done.
    by rewrite Nat.div_small, Nat.mod_small.
  - rewrite lookup_app_r by (simpl; lia). change (length (byte_bits x)) with 8%nat.
    rewrite IH by (simpl in Hk; lia). unfold data_bit.
    replace k with (k - 8 + 1 * 8)%nat at 3 4 by lia. rewrite Nat.div_add, Nat.Div0.mod_add by done.
    by rewrite Nat.add_1_r.
Qed.

(** *** The writer: [w] has written the bits [bs], the rest of its last byte is zero *)
Definition writes (w : bitWriter) (bs : list bool) : Prop :=
  n w = length bs /\ Forall is_byte (buf w) /\
  bits_of (buf w) = bs ++ replicate (8 * length (buf w) - n w) false /\
  (n w <= 8 * length (buf w) < n w + 8)%nat.

Lemma set_byte_bit x r : (r < 8)%nat ->
  byte_bits (Z.lor x (Z.shiftr 128 (Z.of_nat r))) = <[r := true]> (byte_bits x).
Proof.
  intros Hr. unfold byte_bits. cbn [map].
  do 8 (destruct r as [|r]; [rewrite !Z.lor_spec; simpl; by rewrite ?orb_true_r, ?orb_false_r|]). lia.
Qed.
Lemma set_byte x r : is_byte x -> is_byte (Z.lor x (Z.shiftr 128 (Z.of_nat r))).
Proof.
  intros Hx. apply lor_byte; [done|]. unfold is_byte. rewrite Z.shiftr_div_pow2 by lia.
  pose proof (Z.pow_pos_nonneg 2 (Z.of_nat r)).
  split; [apply Z.div_pos; lia|]. apply Z.div_lt_upper_bound; lia.
Qed.
Lemma bits_of_alter l q r : (q < length l)%nat -> (r < 8)%nat ->
  bits_of (alter (fun x => Z.lor x (Z.shiftr 128 (Z.of_nat r))) q l) = <[(8 * q + r)%nat := true]> (bits_of l).
Proof.
  revert q. induction l as [|x l IH]; intros [|q] Hq Hr; simpl in Hq; try lia.
  - change (alter ?f 0%nat (x :: l)) with (f x :: l). rewrite !bits_of_cons, set_byte_bit by done.
    by rewrite insert_app_l.
  - change (alter ?f (S q) (x :: l)) with (x :: alter f q l). rewrite !bits_of_cons, IH by lia.
    rewrite insert_app_r_alt by (simpl; lia). f_equal. f_equal. simpl. lia.
Qed.

Lemma put_bit_writes w bs b : writes w bs -> writes (put_bit w b) (bs ++ [b]).
Proof.
  intros (Hn & Hb & Hbits & Hlen). set (q := (n w / 8)%nat). set (r := (n w mod 8)%nat).
  assert (Hqr : n w = (8 * q + r)%nat) by (apply Nat.div_mod_eq). assert (Hr : (r < 8)%nat) by (apply Nat.mod_upper_bound; lia).
  set (bf := if (r =? 0)%nat then buf w ++ [0] else buf w).
  assert (Hbf : Forall is_byte bf /\ bits_of bf = bs ++ replicate (8 * length bf - n w) false /\
    length bf = S q).
  { unfold bf. destruct (Nat.eqb_spec r 0) as [E|E].
    - assert (Hl : (8 * length (buf w) = n w)%nat) by lia. rewrite bits_of_app, Hbits, length_app. split_and!.
      + apply Forall_app. split; [done|]. by constructor.
      + rewrite <- app_assoc. f_equal. replace (8 * length (buf w) - n w)%nat with 0%nat by lia.
        cbn [length]. by replace (8 * (length (buf w) + 1) - n w)%nat with 8%nat by lia.
      + simpl. lia.
    - split_and!; [done|done|lia]. }
  destruct Hbf as (B1 & B2 & B3).
  unfold writes, put_bit. fold r q bf. cbn [n buf]. rewrite length_app, <- Hn. cbn [length]. destruct b; rewrite ?length_alter, ?B3.
  - split_and!; [lia| | |lia|lia].
    + apply Forall_alter; [done|]. intros x _ Hx. by apply set_byte.
    + rewrite bits_of_alter by lia. rewrite B2, B3. rewrite <- Hqr, Hn.
      rewrite <- (Nat.add_0_r (length bs)) at 1. rewrite insert_app_r.
      replace (8 * S q - length bs)%nat with (S (8 * S q - S (length bs))) by lia. simpl replicate.
      by rewrite <- app_assoc.
  - split_and!; [lia|done| |lia|lia].
    rewrite B2, B3. replace (8 * S q - n w)%nat with (S (8 * S q - S (n w))) by lia. simpl replicate.
    by rewrite <- app_assoc.
Qed.

Fixpoint msb (v : Z) (k : nat) : list bool :=
  match k with O => [] | S i => Z.testbit v (Z.of_nat i) :: msb v i end.
Lemma put_writes k v w bs : writes w bs -> writes (put w v k) (bs ++ msb v k).
Proof.
  revert w bs. induction k as [|k IH]; intros w bs H; simpl; [by rewrite app_nil_r|].
  apply (put_bit_writes _ _ (Z.testbit v (Z.of_nat k))) in H. apply IH in H. by rewrite <- app_assoc in H.
Qed.
Lemma msb_length v k : length (msb v k) = k.
Proof. induction k as [|k IH]; [done|]. simpl. by rewrite IH. Qed.
Lemma msb_byte v : msb v 8 = byte_bits v.
Proof. done. Qed.
Lemma put_text text w bs : writes w bs -> writes (foldl (fun w b => put w b 8) w text) (bs ++ bits_of text).
Proof.
  revert w bs. induction text as [|x text IH]; intros w bs H; [by rewrite app_nil_r|].
  apply (put_writes 8 x) in H. cbn [foldl]. rewrite bits_of_cons, app_assoc. by apply IH.
Qed.

(** ** The data codewords *)
Lemma pads_bytes k pad : is_byte pad -> Forall is_byte (pads k pad) /\ length (pads k pad) = k.
Proof.
  revert pad. induction k as [|k IH]; intros pad Hp; [by split|]. cbn [pads length].
  destruct (IH (Z.lxor pad (Z.lxor 236 17))) as [H1 H2]; [by apply lxor_byte|]. split; [by constructor|by rewrite H2].
Qed.

(** Mode, count and text come first; the codewords fill the version's capacity. *)
Lemma dataCodewords_spec v text : Forall is_byte text -> fits text v = true ->
  Forall is_byte (dataCodewords v text) /\ length (dataCodewords v text) = capacity v /\
  exists rest, bits_of (dataCodewords v text) =
    [false; true; false; false] ++ byte_bits (Z.of_nat (length text)) ++ bits_of text ++ rest.
Proof.
  intros Ht Hfit. unfold fits in Hfit. apply Nat.leb_le in Hfit. unfold dataCodewords.
  assert (W0 : writes (mkWriter [] 0) []) by (unfold writes; simpl; split_and!; by (done || lia)).
  apply (put_writes 4 4) in W0. apply (put_writes 8 (Z.of_nat (length text))) in W0.
  apply (put_text text) in W0. set (w1 := foldl _ _ text) in *. cbn [app] in W0.
  set (bs := (_ ++ bits_of text)) in W0.
  assert (Hbs : length bs = (12 + 8 * length text)%nat).
  { unfold bs. rewrite !length_app, bits_of_length. simpl. lia. }
  assert (N1 : n w1 = (12 + 8 * length text)%nat) by (by rewrite (proj1 W0)).
  rewrite N1. destruct (Nat.ltb_spec (12 + 8 * length text) (capacity v * 8)) as [_|]; [|lia].
  assert (E4 : (if (4 <? capacity v * 8 - (12 + 8 * length text))%nat then 4%nat
    else (capacity v * 8 - (12 + 8 * length text))%nat) = 4%nat) by (case_match; lia).
  rewrite E4. apply (put_writes 4 0) in W0. set (w2 := put w1 0 4) in *.
  destruct W0 as (N2 & B2 & Bits & Len). rewrite length_app, msb_length, Hbs in N2.
  assert (Hm : (n w2 mod 8 = 0)%nat).
  { rewrite N2. replace (12 + 8 * length text + 4)%nat with ((2 + length text) * 8)%nat by lia. by apply Nat.Div0.mod_mul. }
  rewrite Hm. cbn [Nat.eqb]. assert (Hlen : length (buf w2) = (2 + length text)%nat) by lia.
  destruct (pads_bytes (capacity v - length (buf w2)) 236) as [Pb Pl]; [done|]. split_and!.
  - by apply Forall_app.
  - rewrite length_app, Pl. lia.
  - rewrite bits_of_app, Bits. eexists. unfold bs. rewrite <- !app_assoc. cbn [app]. do 4 f_equal.
Qed.

(** ** Interleaving and back *)
Lemma concat_rows {A} (f : nat -> list A) w d k i b x :
  (forall i, length (f i) = w) -> (i < d)%nat -> (b < w)%nat -> f (k + i)%nat !! b = Some x ->
  (seq k d ≫= f) !! (i * w + b)%nat = Some x.
Proof.
  intros Hw. revert k i. induction d as [|d IH]; intros k i Hi Hb Hx; [lia|]. cbn [seq mbind list_bind].
  destruct i as [|i].
  - rewrite lookup_app_l by (rewrite Hw; lia). simpl. by rewrite Nat.add_0_r in Hx.
  - rewrite lookup_app_r by (rewrite Hw; simpl; lia). rewrite Hw.
    replace (S i * w + b - w)%nat with (i * w + b)%nat by (simpl; lia). apply IH; [lia|done|].
    by replace (S k + i)%nat with (k + S i)%nat by lia.
Qed.
Lemma rows_length {A} (f : nat -> list A) w d k : (forall i, length (f i) = w) ->
  length (seq k d ≫= f) = (d * w)%nat.
Proof.
  intros Hw. revert k. induction d as [|d IH]; intros k; [done|]. cbn [seq mbind list_bind].
  rewrite length_app, Hw, IH. lia.
Qed.
Lemma concat_blocks {A} (l : list A) d nb :
  (seq 0 nb ≫= fun b => take d (drop (b * d) l)) = take (nb * d) l.
Proof.
  induction nb as [|nb IH]; [done|]. rewrite seq_S, bind_app, IH. cbn [mbind list_bind plus]. rewrite app_nil_r.
  replace (S nb * d)%nat with (nb * d + d)%nat by lia. by rewrite take_take_drop.
Qed.

Lemma nth_map_seq {A} (f : nat -> A) k b x : (b < k)%nat -> nth b (map f (seq 0 k)) x = f b.
Proof.
  intros Hb. apply nth_lookup_Some. rewrite list_lookup_fmap, lookup_seq_lt by done. done.
Qed.
Lemma lookup_nth {A} (l : list A) b x : (b < length l)%nat -> l !! b = Some (nth b l x).
Proof. intros Hb. destruct (nth_lookup_or_length l b x); [done|lia]. Qed.

Lemma deinterleave_interleave v text junk : length text = capacity v ->
  deinterleave v (interleave v text ++ junk) = text.
Proof.
  unfold capacity, deinterleave, interleave. destruct (level v) as [e nb d]. cbn [blocks data ec]. intros Hl.
  set (bs := map _ (seq 0 nb)). 
  assert (Hbs : length bs = nb) by (unfold bs; by rewrite length_map, length_seq).
  transitivity (seq 0 nb ≫= fun b => take d (drop (b * d) text)).
  2: { rewrite concat_blocks. apply take_ge. lia. }
  apply Forall_bind_ext, Forall_forall. intros b Hb. apply elem_of_seq in Hb.
  set (blk := take d (drop (b * d) text)).
  assert (Hblk : nth b bs [] = blk) by (apply (nth_map_seq (fun b => take d (drop (b * d) text)) nb); lia).
  assert (Hd : length blk = d) by (unfold blk; rewrite length_take, length_drop; nia).
  apply list_eq. intros i. destruct (decide (i < d)%nat) as [Hi|Hi].
  2: { rewrite !lookup_ge_None_2; [done|lia|rewrite length_map, length_seq; lia]. }
  rewrite list_lookup_fmap, lookup_seq_lt by done. simpl.
  destruct (lookup_lt_is_Some_2 blk i) as [x Hx]; [lia|]. rewrite Hx. f_equal.
  apply nth_lookup_Some with (d := 0). rewrite <- app_assoc, lookup_app_l.
  2: { rewrite (rows_length _ nb) by (intros; by rewrite length_map). nia. }
  apply concat_rows; [intros; by rewrite length_map|done|lia|]. simpl.
  rewrite list_lookup_fmap. rewrite (lookup_nth bs b []) by lia. rewrite Hblk. simpl. f_equal.
  by apply nth_lookup_Some.
Qed.

Lemma level_degrees v : (1 <= v <= 6)%nat -> ec (level v) ∈ degrees /\ (capacity v <= 108)%nat.
Proof.
  intros Hv. do 7 (destruct v as [|v]; [first [lia|split; [unfold degrees; set_solver|vm_compute; lia]]|]). lia.
Qed.

(** The codewords: the data's bytes and the corrections'. *)
Lemma interleave_bytes v text : (1 <= v <= 6)%nat -> Forall is_byte text ->
  Forall is_byte (interleave v text) /\
  length (interleave v text) = (blocks (level v) * (data (level v) + ec (level v)))%nat.
Proof.
  intros Hv Ht. destruct (level_degrees v Hv) as [Hec _]. unfold interleave. revert Hec.
  destruct (level v) as [e nb d]. cbn [blocks data ec]. intros Hec.
  set (bs := map _ (seq 0 nb)). set (es := map (fun block => rsRemainder block e) bs).
  assert (Hb : Forall (Forall is_byte) bs).
  { apply Forall_map, Forall_forall. intros b _. by apply Forall_take, Forall_drop. }
  assert (He : Forall (Forall is_byte) es).
  { apply Forall_map. eapply Forall_impl; [exact Hb|]. intros blk Hblk. by apply rsRemainder_spec. }
  assert (Hnth : forall i (ls : list (list Z)), Forall (Forall is_byte) ls -> Forall is_byte (map (fun b => nth i b 0) ls)).
  { intros i ls Hls. apply Forall_map. eapply Forall_impl; [exact Hls|]. intros l Hl.
    destruct (nth_lookup_or_length l i 0) as [Hi|Hi]; [by eapply Forall_lookup_1|by rewrite nth_overflow]. }
  split.
  - apply Forall_app. split; apply Forall_bind, Forall_forall; intros i _; by apply Hnth.
  - rewrite length_app, !(rows_length _ nb); [lia|intros; unfold es, bs; by rewrite !length_map, length_seq|
      intros; unfold bs; by rewrite !length_map, length_seq].
Qed.

(** ** Reading a drawn symbol *)
Definition format_readable (v : nat) (mask : Z) (copy : bool) : bool :=
  let cs := format_cells (Z.of_nat (side v)) mask in
  let ps := iso_format v copy in
  (length ps =? 15)%nat &&
  forallb (fun '(p, i) => bool_decide ((p.2, p.1, Z.testbit (formatBits mask) i) ∈ cs)) (zip ps (range 0 15)) &&
  (let data := Z.shiftr (Z.lxor (word (map (Z.testbit (formatBits mask)) (range 0 15))) 21522) 10 in
   (Z.shiftr data 3 =? 0) && (Z.land data 7 =? mask)) &&
  (8 * (blocks (level v) * (data (level v) + ec (level v))) <=? length (iso_path v))%nat.
Lemma formats_readable : forallb (fun v => forallb (fun mask =>
  format_readable v mask true && format_readable v mask false) (range 0 8)) (seq 1 6) = true.
Proof. vm_compute. reflexivity. Qed.

Lemma map_zip_range (g : Z -> bool) (f : Z * Z -> bool) ps lo k : length ps = k ->
  Forall (fun pi => f pi.1 = g pi.2) (zip ps (range lo k)) -> map f ps = map g (range lo k).
Proof.
  unfold range. generalize 0%nat as j. revert k. induction ps as [|p ps IH]; intros [|k] j Hl Hf; try done.
  cbn [seq map zip zip_with] in *. apply Forall_cons in Hf as [H1 H2]. cbn [fst snd] in H1. rewrite H1.
  f_equal. apply IH; [by injection Hl|done].
Qed.

Lemma read_mask_drawn v codewords mask s copy : (1 <= v <= 6)%nat -> 0 <= mask < 8 ->
  draw v codewords mask = Some s -> read_mask (snapshot s mask) copy = Some mask /\
  (8 * (blocks (level v) * (data (level v) + ec (level v))) <= length (iso_path v))%nat.
Proof.
  intros Hv Hm Hd. destruct (draw_follows_standard v codewords mask Hv) as (s' & Es & Hs & Hver & _ & Hfmt).
  rewrite Hd in Es. injection Es as <-.
  pose proof formats_readable as H. rewrite forallb_forall in H. specialize (H v). rewrite in_seq in H.
  specialize (H ltac:(lia)). rewrite forallb_forall in H. specialize (H mask).
  rewrite <- list_elem_of_In, range_elem in H. specialize (H ltac:(lia)).
  assert (Hc : format_readable v mask copy = true) by (apply andb_true_iff in H as [? ?]; by destruct copy).
  clear H. unfold format_readable in Hc. rewrite !andb_true_iff in Hc. destruct Hc as [[[H1 H2] [H3 H4]] H5].
  split; [|lia]. unfold read_mask. change (Version (snapshot s mask)) with (version s). rewrite Hver.
  rewrite (map_zip_range (Z.testbit (formatBits mask)) _ (iso_format v copy) 0 15); [rewrite H3; f_equal; lia|lia|].
  eapply Forall_of_forallb; [|exact H2]. intros [[y x] i] Hin. apply bool_decide_eq_true in Hin.
  cbn [fst snd] in *. unfold module_. change (Modules (snapshot s mask)) with (modules s).
  by rewrite (Hfmt _ _ _ Hin).
Qed.

Lemma read_codewords_drawn v codewords mask s : (1 <= v <= 6)%nat -> Forall is_byte codewords ->
  (8 * length codewords <= length (iso_path v))%nat -> draw v codewords mask = Some s ->
  exists junk, read_codewords (snapshot s mask) mask = codewords ++ junk.
Proof.
  intros Hv Hb Hfit Hd. destruct (draw_follows_standard v codewords mask Hv) as (s' & Es & Hs & Hver & Hbits & _).
  rewrite Hd in Es. injection Es as <-. unfold read_codewords. change (Version (snapshot s mask)) with (version s).
  rewrite Hver. set (f := fun p : Z * Z => xorb _ _).
  assert (E : map f (iso_path v) = bits_of codewords ++ drop (8 * length codewords) (map f (iso_path v))).
  { rewrite <- (take_drop (8 * length codewords) (map f (iso_path v))) at 1. f_equal.
    apply list_eq. intros k. destruct (decide (k < 8 * length codewords)%nat) as [Hk|Hk].
    2: { rewrite !lookup_ge_None_2; [done|rewrite bits_of_length; lia|]. rewrite length_take. lia. }
    rewrite lookup_take_lt by done. rewrite bits_of_lookup by done. rewrite list_lookup_fmap.
    destruct (lookup_lt_is_Some_2 (iso_path v) k) as [p Hp]; [lia|]. rewrite Hp. simpl. f_equal.
    unfold f, module_. change (Modules (snapshot s mask)) with (modules s).
    rewrite (Hbits k p Hp) by lia. simpl. by destruct (maskBit mask p.2 p.1), (data_bit codewords k). }
  rewrite E, bytes_of_app by done. by eexists.
Qed.

Lemma parse_text text rest : Forall is_byte text -> (length text < 256)%nat ->
  parse ([false; true; false; false] ++ byte_bits (Z.of_nat (length text)) ++ bits_of text ++ rest) = Some text.
Proof.
  intros Ht Hl. unfold parse. cbn [app take]. rewrite bool_decide_true by done.
  change (drop 4 _) with (byte_bits (Z.of_nat (length text)) ++ bits_of text ++ rest).
  rewrite take_app_length' by done. change (bytes_of (byte_bits ?x)) with [word (reverse (byte_bits x))].
  rewrite word_byte by (unfold is_byte; lia). cbn [head mbind option_bind]. rewrite Nat2Z.id.
  change (drop 12 _) with (bits_of text ++ rest). rewrite take_app_length' by (by rewrite bits_of_length).
  rewrite <- (app_nil_r (bits_of text)), bytes_of_bits by done. by rewrite Nat.eqb_refl.
Qed.

(** What [Encode]'s loop over the masks keeps: the first of the best so far. *)
Definition best_so_far (v : nat) (cw : list Z) (best : option (Code * Z)) (hi : Z) : Prop :=
  match best with
  | None => hi = 0
  | Some (c, score) =>
      0 <= Mask c < hi /\
      (exists s, draw v cw (Mask c) = Some s /\ c = snapshot s (Mask c) /\ score = penalty s) /\
      forall m, 0 <= m < hi -> exists s, draw v cw m = Some s /\ score <= penalty s /\
        (m < Mask c -> score < penalty s)
  end.

Lemma try_mask_best v cw best hi : (1 <= v <= 6)%nat -> 0 <= hi -> best_so_far v cw best hi ->
  exists best', try_mask v cw best hi = Some best' /\ best_so_far v cw best' (hi + 1) /\ is_Some best'.
Proof.
  intros Hv Hhi Hb. destruct (draw_follows_standard v cw hi Hv) as (s & Es & _).
  unfold try_mask. rewrite Es. cbn [mbind option_bind]. eexists. split; [done|].
  assert (Hnew : forall P : Z -> Prop, P hi -> (forall m, 0 <= m < hi -> P m) -> forall m, 0 <= m < hi + 1 -> P m).
  { intros P H1 H2 m Hm. destruct (decide (m = hi)) as [->|]; [done|apply H2; lia]. }
  destruct best as [[c score]|]; cbn [best_so_far] in Hb.
  - destruct Hb as (Hm & Hc & Hall). destruct (Z.ltb_spec (penalty s) score) as [Hlt|Hge]; (split; [|by eexists]).
    + cbn [best_so_far Mask snapshot]. split; [lia|]. split; [by exists s|].
      apply Hnew; [exists s; split; [done|lia]|].
      intros m Hr. destruct (Hall m Hr) as (s' & E' & Hle & _). exists s'. split; [done|]. lia.
    + split; [lia|]. split; [done|]. apply Hnew; [|done]. exists s. split; [done|]. lia.
  - subst hi. split; [|by eexists]. cbn [best_so_far Mask snapshot]. split; [lia|]. split; [by exists s|].
    apply Hnew; [exists s; split; [done|lia]|lia].
Qed.

Lemma masks_best v cw : (1 <= v <= 6)%nat ->
  exists c score, foldM (try_mask v cw) None (range 0 8) = Some (Some (c, score)) /\
    best_so_far v cw (Some (c, score)) 8.
Proof.
  intros Hv. assert (H : forall k, exists best, foldM (try_mask v cw) None (range 0 k) = Some best /\
    best_so_far v cw best (Z.of_nat k) /\ (is_Some best \/ k = 0%nat)).
  { induction k as [|k (best & E & Hb & _)]; [exists None; split_and!; try done; by right|].
    assert (Er : range 0 (S k) = range 0 k ++ [Z.of_nat k]) by (unfold range; by rewrite seq_S, map_app).
    rewrite Er, foldM_app, E. cbn [mbind option_bind foldM].
    destruct (try_mask_best v cw best (Z.of_nat k) Hv) as (best' & E' & Hb' & Hs); [lia|done|].
    exists best'. rewrite E'. replace (Z.of_nat (S k)) with (Z.of_nat k + 1) by lia. by auto. }
  destruct (H 8%nat) as (best & E & Hb & [[[c score] ->]|]); [|done]. by exists c, score.
Qed.

Lemma find_first (f : nat -> bool) k a v : List.find f (seq a k) = Some v ->
  forall u, (a <= u < v)%nat -> f u = false.
Proof.
  revert a. induction k as [|k IH]; intros a E u Hu; [done|]. cbn [seq List.find] in E.
  destruct (f a) eqn:Ea; [injection E as <-; lia|].
  destruct (decide (u = a)) as [->|]; [done|]. apply (IH (S a) E). lia.
Qed.

(** What [Encode] returns. *)
Lemma Encode_cases text : Encode text =
    match List.find (fits text) (seq 1 6) with
    | None => Some ErrTooLong
    | Some v => Encode text
    end /\
  match List.find (fits text) (seq 1 6) with
  | None => (106 < length text)%nat
  | Some v => (1 <= v <= 6)%nat /\ fits text v = true /\ (length text <= 106)%nat /\
      (forall u, (1 <= u < v)%nat -> fits text u = false) /\
      exists c score, Encode text = Some (Encoded c) /\
        best_so_far v (interleave v (dataCodewords v text)) (Some (c, score)) 8
  end.
Proof.
  unfold Encode. destruct (List.find (fits text) (seq 1 6)) as [v|] eqn:E.
  - split; [done|]. apply List.find_some in E as Hv. destruct Hv as [Hin Hf]. apply in_seq in Hin.
    assert (Hv : (1 <= v <= 6)%nat) by lia. split; [done|]. split; [done|].
    destruct (level_degrees v Hv) as [_ Hcap]. split; [unfold fits in Hf; lia|]. split.
    + intros u Hu. by apply (find_first (fits text) 6 1 v E).
    + destruct (masks_best v (interleave v (dataCodewords v text)) Hv) as (c & score & E' & Hb).
      exists c, score. rewrite E'. by split.
  - split; [done|]. pose proof (List.find_none _ _ E 6%nat) as Hn. rewrite in_seq in Hn.
    specialize (Hn ltac:(lia)). unfold fits in Hn. change (capacity 6) with 108%nat in Hn. lia.
Qed.

(** C30: the code reads back. [Encode] never panics; it refuses exactly the texts over 106 bytes, and
    otherwise draws the smallest version that holds the text, from which the standard's reader gets
    the same bytes, whichever copy of the format it reads. *)
Theorem Encode_reads_back text : Forall is_byte text ->
  match Encode text with
  | None => False
  | Some ErrTooLong => (106 < length text)%nat
  | Some (Encoded c) =>
      (length text <= 106)%nat /\ fits text (Version c) = true /\
      (forall u, (1 <= u < Version c)%nat -> fits text u = false) /\
      read true c = Some text /\ read false c = Some text
  end.
Proof.
  intros Ht. destruct (Encode_cases text) as [E H]. destruct (List.find _ _) as [v|]; [|by rewrite E].
  destruct H as (Hv & Hf & Hl & Hmin & c & score & -> & Hm & (s & Es & Ec & _) & _).
  assert (Hver : Version c = v).
  { rewrite Ec. destruct (draw_follows_standard v (interleave v (dataCodewords v text)) (Mask c) Hv)
      as (s' & Es' & _ & Hver & _). rewrite Es in Es'. by injection Es' as <-. }
  rewrite Hver. split; [done|]. split; [done|]. split; [done|].
  destruct (dataCodewords_spec v text Ht Hf) as (Db & Dl & rest & Dbits).
  destruct (interleave_bytes v _ Hv Db) as [Ib Il].
  assert (Hread : forall copy, read copy c = Some text); [|by split].
  intros copy. destruct (read_mask_drawn v _ (Mask c) s copy Hv Hm Es) as [Em Hfit].
  destruct (read_codewords_drawn v _ (Mask c) s Hv Ib) as [junk Ej]; [by rewrite Il|done|].
  unfold read. rewrite Hver. rewrite Ec at 1. rewrite Em. cbn [mbind option_bind]. rewrite Ec at 1. 
  rewrite Ej, deinterleave_interleave, Dbits by done. apply parse_text; [done|lia].
Qed.

(** The mask is the best one. The code [Encode] returns is a symbol drawn with its mask, no mask
    scores less by the standard's penalty, and every smaller mask scores more. *)
Theorem Encode_mask_is_best text c m : Encode text = Some (Encoded c) -> 0 <= m < 8 ->
  exists best s, draw (Version c) (interleave (Version c) (dataCodewords (Version c) text)) (Mask c) = Some best /\
    c = snapshot best (Mask c) /\
    draw (Version c) (interleave (Version c) (dataCodewords (Version c) text)) m = Some s /\
    penalty best <= penalty s /\ (m < Mask c -> penalty best < penalty s).
Proof.
  intros Hc Hm. destruct (Encode_cases text) as [E H]. destruct (List.find _ _) as [v|]; [|by rewrite E in Hc].
  destruct H as (Hv & _ & _ & _ & c' & score & E' & _ & (s & Es & Ec & ->) & Hall).
  rewrite Hc in E'. injection E' as <-.
  assert (Hver : Version c = v).
  { rewrite Ec. destruct (draw_follows_standard v (interleave v (dataCodewords v text)) (Mask c) Hv)
      as (s' & Es' & _ & Hver & _). rewrite Es in Es'. by injection Es' as <-. }
  rewrite Hver. destruct (Hall m Hm) as (s' & H1 & H2 & H3). by exists s, s'.
Qed.

Definition link : list Z :=
  [104; 116; 116; 112; 115; 58; 47; 47; 116; 46; 109; 101; 47; 119; 97; 121; 104; 111; 112].
Lemma link_bytes : Forall is_byte link.
Proof. unfold link, is_byte. repeat constructor; lia. Qed.

Lemma Encode_reads_back_witness :
  match Encode link with
  | None => False
  | Some ErrTooLong => (106 < length link)%nat
  | Some (Encoded c) =>
      (length link <= 106)%nat /\ fits link (Version c) = true /\
      (forall u, (1 <= u < Version c)%nat -> fits link u = false) /\
      read true c = Some link /\ read false c = Some link
  end.
Proof. apply (Encode_reads_back link). apply link_bytes. Defined.

Lemma Encode_mask_is_best_witness : exists c best s,
  Encode link = Some (Encoded c) /\
  draw (Version c) (interleave (Version c) (dataCodewords (Version c) link)) 5 = Some s /\
  penalty best <= penalty s /\ c = snapshot best (Mask c).
Proof.
  destruct (Encode_cases link) as [_ H]. change (List.find (fits link) (seq 1 6)) with (Some 2%nat) in H.
  destruct H as (_ & _ & _ & _ & c & score & E & _).
  destruct (Encode_mask_is_best link c 5 E ltac:(lia)) as (best & s & _ & H2 & H3 & H4 & _).
  exists c, best, s. exact (conj E (conj H3 (conj H4 H2))).
Defined.
