(* ===== verification/Netip.v ===== *)
(** * Addresses and prefixes

    What the components use of [net/netip]: the values, the order, containment, and the texts
    ([ParseAddr], [ParsePrefix], [Prefix.String]), with the round trip of a prefix through its text.
    An address carries no zone: every use here drops it. *)
From S2P Require Import Prelude GoStrings.
Local Open Scope Z_scope.

(** [netip.Addr], without zones. *)
Inductive Addr := NoAddr | Addr4 (a : Z) | Addr16 (a : Z).
#[export] Instance Addr_eq_dec : EqDecision Addr.
Proof. solve_decision. Defined.

Definition value (a : Addr) : Z := match a with NoAddr => 0 | Addr4 x | Addr16 x => x end.
Definition BitLen (a : Addr) : Z := match a with NoAddr => 0 | Addr4 _ => 32 | Addr16 _ => 128 end.
Definition Less (a b : Addr) : bool :=
  (BitLen a <? BitLen b) || (BitLen a =? BitLen b) && (value a <? value b).
Definition IsValid (a : Addr) : bool := match a with NoAddr => false | _ => true end.
Definition Is6 (a : Addr) : bool := match a with Addr16 _ => true | _ => false end.
Definition Unmap (a : Addr) : Addr :=
  match a with
  | Addr16 x => if Z.shiftr x 32 =? 65535 then Addr4 (x mod 2 ^ 32) else a
  | _ => a
  end.
Definition IsLoopback (a : Addr) : bool :=
  match a with Addr4 x => Z.shiftr x 24 =? 127 | Addr16 x => x =? 1 | NoAddr => false end.

Record Prefix := mkPrefix { p_addr : Addr; p_bits : Z }.
#[export] Instance Prefix_eq_dec : EqDecision Prefix.
Proof. solve_decision. Defined.
(** The address without its host bits. *)
Definition net (p : Prefix) (a : Addr) : Z := Z.shiftr (value a) (BitLen a - p_bits p).
Definition Contains (p : Prefix) (a : Addr) : bool :=
  IsValid (p_addr p) && (BitLen (p_addr p) =? BitLen a) && (net p (p_addr p) =? net p a).
Definition Masked (p : Prefix) : Prefix :=
  let cut x := Z.shiftl (net p (p_addr p)) (BitLen (p_addr p) - p_bits p) in
  mkPrefix match p_addr p with NoAddr => NoAddr | Addr4 x => Addr4 (cut x) | Addr16 x => Addr16 (cut x) end (p_bits p).

Definition Is4In6 (a : Addr) : bool := match a with Addr16 x => Z.shiftr x 32 =? 65535 | _ => false end.

(** ** Texts *)
Definition hex_digit (i : Z) : Z := if i <? 10 then 48 + i else 87 + i.
(** [appendHex]: a 16-bit group without leading zeros. *)
Definition appendHex (x : Z) : bytes :=
  (if 4096 <=? x then [hex_digit (x / 4096)] else []) ++
  (if 256 <=? x then [hex_digit (x / 256 mod 16)] else []) ++
  (if 16 <=? x then [hex_digit (x / 16 mod 16)] else []) ++ [hex_digit (x mod 16)].

Definition group (x : Z) (i : nat) : Z := x / 2 ^ (16 * (7 - Z.of_nat i)) mod 65536.
Definition groups (x : Z) : list Z := map (group x) (seq 0 8).
Definition of_groups (gs : list Z) : Z := foldl (fun acc g => acc * 65536 + g) 0 gs.

Definition octet (x : Z) (i : nat) : Z := x / 2 ^ (8 * (3 - Z.of_nat i)) mod 256.
Definition octets (x : Z) : list Z := map (octet x) (seq 0 4).
Definition of_octets (os : list Z) : Z := foldl (fun acc g => acc * 256 + g) 0 os.

Fixpoint join (sep : bytes) (ps : list bytes) : bytes :=
  match ps with
  | [] => []
  | [p] => p
  | p :: ps => p ++ sep ++ join sep ps
  end.

(** The first longest run of at least two zero groups, as [appendTo6] looks for it. *)
Fixpoint zeros_from (gs : list Z) : nat :=
  match gs with 0 :: gs => S (zeros_from gs) | _ => O end.
Fixpoint zero_run (i : nat) (gs : list Z) (best : nat * nat) : nat * nat :=
  match gs with
  | [] => best
  | _ :: gs' =>
      let l := zeros_from gs in
      zero_run (S i) gs' (if (2 <=? l)%nat && (snd best - fst best <? l)%nat then (i, i + l)%nat else best)
  end.

Definition appendTo4 (x : Z) : bytes := join [46] (map fmt_d (octets x)).
Definition appendTo6 (x : Z) : bytes :=
  let gs := groups x in
  let '(s, e) := zero_run 0 gs (0, 0)%nat in
  if (s =? e)%nat then join [58] (map appendHex gs)
  else join [58] (map appendHex (take s gs)) ++ [58; 58] ++ join [58] (map appendHex (drop e gs)).
Definition addr_text (a : Addr) : bytes :=
  match a with
  | NoAddr => str "invalid IP"
  | Addr4 x => appendTo4 x
  | Addr16 x => if Is4In6 a then str "::ffff:" ++ appendTo4 (x mod 2 ^ 32) else appendTo6 x
  end.
Definition valid_prefix (p : Prefix) : bool :=
  IsValid (p_addr p) && (0 <=? p_bits p) && (p_bits p <=? BitLen (p_addr p)).
Definition prefix_text (p : Prefix) : bytes :=
  if valid_prefix p then addr_text (p_addr p) ++ [47] ++ fmt_d (p_bits p) else str "invalid Prefix".
(** [Prefix.String]. *)
Definition PrefixString (p : Prefix) : string := unstr (prefix_text p).

(** [parseIPv4Fields]: [val] and [dig] are the field being read, [fs] the ones before it. *)
Fixpoint fields4 (s : bytes) (val : Z) (dig : nat) (fs : list Z) : option (list Z) :=
  match s with
  | [] => if (length fs <? 3)%nat then None else Some (fs ++ [val])
  | c :: s' =>
      if is_digit c then
        if (dig =? 1)%nat && (val =? 0) then None
        else let val := val * 10 + (c - 48) in if 255 <? val then None else fields4 s' val (S dig) fs
      else if c =? 46 then
        if (dig =? 0)%nat || (length s' =? 0)%nat || (length fs =? 3)%nat then None
        else fields4 s' 0 0 (fs ++ [val])
      else None
  end.
Definition parseIPv4 (s : bytes) : option (list Z) := fields4 s 0 0 [].

Definition hex_value (c : Z) : option Z :=
  if in_range 48 57 c then Some (c - 48)
  else if in_range 97 102 c then Some (c - 87)
  else if in_range 65 70 c then Some (c - 55)
  else None.
(** The hexadecimal number at the head: how many digits, at most four, its value, and the rest. *)
Fixpoint scan_hex (s : bytes) (off : nat) (acc : Z) : option (nat * Z * bytes) :=
  match s with
  | [] => Some (off, acc, s)
  | c :: s' =>
      match hex_value c with
      | None => Some (off, acc, s)
      | Some v => if (3 <? off)%nat then None else scan_hex s' (S off) (acc * 16 + v)
      end
  end.

(** The loop of [parseIPv6]: the groups read, where the [::] was, and the text left. *)
Fixpoint loop6 (fuel : nat) (gs : list Z) (ell : option nat) (s : bytes)
    : option (list Z * option nat * bytes) :=
  match fuel with
  | O => Some (gs, ell, s)
  | S fuel =>
      '(off, acc, r) ← scan_hex s 0 0;
      if (off =? 0)%nat then None
      else match r with
      | [] => Some (gs ++ [acc], ell, [])
      | c :: r' =>
          if c =? 46 then
            if (match ell with None => negb (length gs =? 6)%nat | Some _ => false end) || (8 <? length gs + 2)%nat
            then None
            else match parseIPv4 s with
                 | Some [a; b; c; d] => Some (gs ++ [a * 256 + b; c * 256 + d], ell, [])
                 | _ => None
                 end
          else if negb (c =? 58) then None
          else match r' with
          | [] => None
          | c :: r'' =>
              if c =? 58 then
                match ell with
                | Some _ => None
                | None =>
                    let ell := Some (S (length gs)) in
                    match r'' with
                    | [] => Some (gs ++ [acc], ell, [])
                    | _ => loop6 fuel (gs ++ [acc]) ell r''
                    end
                end
              else loop6 fuel (gs ++ [acc]) ell r'
          end
      end
  end.

Fixpoint split_at (c : Z) (s : bytes) : bytes * option bytes :=
  match s with
  | [] => ([], None)
  | d :: s' => if d =? c then ([], Some s') else let '(a, b) := split_at c s' in (d :: a, b)
  end.

(** After the loop: the groups the [::] stands for are put in. *)
Definition finish6 (st : list Z * option nat * bytes) : option (list Z) :=
  let '(gs, ell, r) := st in
  match r, ell with
  | [], Some e =>
      if (length gs <? 8)%nat then Some (take e gs ++ replicate (8 - length gs) 0 ++ drop e gs) else None
  | [], None => if (length gs <? 8)%nat then None else Some gs
  | _, _ => None
  end.
Definition parse6_groups (s : bytes) : option (list Z) :=
  match strip_prefix [58; 58] s with
  | Some [] => Some (replicate 8 0)
  | Some s' => loop6 8 [] (Some 0%nat) s' ≫= finish6
  | None => loop6 8 [] None s ≫= finish6
  end.
(** [parseIPv6]: the address, and the zone after a [%]. *)
Definition parseIPv6 (s : bytes) : option (Addr * bytes) :=
  let '(s, z) := split_at 37 s in
  match z with
  | Some [] => None
  | _ => gs ← parse6_groups s; Some (Addr16 (of_groups gs), default [] z)
  end.

(** [ParseAddr]: the first of [.], [:] and [%] decides. *)
Fixpoint addr_kind (s : bytes) : Z :=
  match s with
  | [] => 0
  | c :: s' => if (c =? 46) || (c =? 58) || (c =? 37) then c else addr_kind s'
  end.
Definition parse_addr (s : bytes) : option (Addr * bytes) :=
  let k := addr_kind s in
  if k =? 46 then fs ← parseIPv4 s; Some (Addr4 (of_octets fs), [])
  else if k =? 58 then parseIPv6 s
  else None.
Definition ParseAddr (s : string) : option Addr := fst <$> parse_addr (str s).

(** The last [/]: what is before it and after it. *)
Definition split_last (c : Z) (s : bytes) : option (bytes * bytes) :=
  match split_at c (reverse s) with
  | (b, Some a) => Some (reverse a, reverse b)
  | (_, None) => None
  end.
Definition dec_value (s : bytes) : Z := foldl (fun acc c => acc * 10 + (c - 48)) 0 s.
Definition parse_bits (b : bytes) : option Z :=
  match b with
  | [] => None
  | c :: r =>
      if (match r with [] => true | _ => in_range 49 57 c end) && forallb is_digit b then Some (dec_value b) else None
  end.
Definition parse_prefix (s : bytes) : option Prefix :=
  '(ip, b) ← split_last 47 s;
  '(a, z) ← parse_addr ip;
  if Is6 a && negb (length z =? 0)%nat then None
  else bits ← parse_bits b; if BitLen a <? bits then None else Some (mkPrefix a bits).
Definition ParsePrefix (s : string) : option Prefix := parse_prefix (str s).

(** ** Facts: a prefix is an interval *)
(** A prefix with no host bits set. *)
Definition wf_prefix (p : Prefix) : Prop :=
  IsValid (p_addr p) = true /\ 0 <= value (p_addr p) /\ 0 <= p_bits p <= BitLen (p_addr p) /\
  value (p_addr p) = Z.shiftl (net p (p_addr p)) (BitLen (p_addr p) - p_bits p).

Lemma Less_spec a b : Less a b = true <->
  BitLen a < BitLen b \/ (BitLen a = BitLen b /\ value a < value b).
Proof. unfold Less. lia. Qed.

(** A prefix holds an interval that starts at its address. *)
Lemma Contains_block p a : wf_prefix p -> Contains p a = true ->
  let s := 2 ^ (BitLen (p_addr p) - p_bits p) in
  0 < s /\ BitLen a = BitLen (p_addr p) /\ value a / s = value (p_addr p) / s /\ value (p_addr p) <= value a.
Proof.
  intros (Hv & H0 & Hb & Hm) Hc s. unfold Contains in Hc. rewrite Hv in Hc. cbn [andb] in Hc.
  apply andb_true_iff in Hc as [Hbit Hnet]. apply Z.eqb_eq in Hbit, Hnet.
  assert (Hpos : 0 < s) by (apply Z.pow_pos_nonneg; lia).
  rewrite Z.shiftl_mul_pow2 in Hm by lia. unfold net in Hnet, Hm. rewrite <- Hbit in Hnet.
  rewrite Z.shiftr_div_pow2 in Hm by lia. rewrite !Z.shiftr_div_pow2 in Hnet by lia. fold s in Hnet, Hm.
  split_and!; [done|done|done|]. rewrite Hm, Hnet. pose proof (Z.mul_div_le (value a) s). lia.
Qed.
Lemma Contains_above p a : wf_prefix p -> Contains p a = true -> Less a (p_addr p) = false.
Proof. intros Hw Hc. destruct (Contains_block p a Hw Hc) as (_ & Hb & _ & Hv). unfold Less. lia. Qed.
Lemma Contains_between p a b : wf_prefix p -> Contains p a = true ->
  Less b (p_addr p) = false -> Less a b = false -> Contains p b = true.
Proof.
  intros Hw Hc Hlo Hhi. destruct (Contains_block p a Hw Hc) as (Hs & Ha & Hd & Hv).
  destruct Hw as (Hval & H0 & Hb & _). unfold Less in Hlo, Hhi.
  assert (Bb : BitLen b = BitLen (p_addr p)) by lia.
  assert (Vb : value (p_addr p) <= value b <= value a) by lia.
  unfold Contains, net. rewrite Hval, Bb, Z.eqb_refl. cbn [andb]. apply Z.eqb_eq.
  rewrite !Z.shiftr_div_pow2 by lia. set (s := 2 ^ (BitLen (p_addr p) - p_bits p)) in *.
  pose proof (Z.div_le_mono (value (p_addr p)) (value b) s). pose proof (Z.div_le_mono (value b) (value a) s). lia.
Qed.


(** One zone's members: sorted, no host bits, none inside another. *)
Definition disjoint_sorted (ps : list Prefix) : Prop :=
  Forall wf_prefix ps /\
  (forall i j p q, (i < j)%nat -> ps !! i = Some p -> ps !! j = Some q ->
     Less (p_addr q) (p_addr p) = false /\ Contains p (p_addr q) = false).

(** ** Facts: texts

    [addr_ok]: a value within the width. *)
Definition addr_ok (a : Addr) : Prop :=
  match a with NoAddr => False | Addr4 x => 0 <= x < 2 ^ 32 | Addr16 x => 0 <= x < 2 ^ 128 end.
Definition prefix_ok (p : Prefix) : Prop := addr_ok (p_addr p) /\ 0 <= p_bits p <= BitLen (p_addr p).

Lemma foldl_base_bound b gs : 0 < b -> Forall (fun g => 0 <= g < b) gs ->
  0 <= foldl (fun acc g => acc * b + g) 0 gs < b ^ Z.of_nat (length gs).
Proof.
  intros Hb. induction gs as [|g gs IH] using rev_ind; [cbn; lia|].
  intros [Hgs Hg]%Forall_app. inversion Hg as [|? ? Hg' _]; subst. specialize (IH Hgs).
  rewrite foldl_app, length_app. cbn [foldl length].
  replace (Z.of_nat (length gs + 1)) with (Z.succ (Z.of_nat (length gs))) by lia.
  rewrite Z.pow_succ_r by lia. nia.
Qed.
(** The base-[2^w] digits of [x], most significant first, give [x] back. *)
Lemma foldl_digits w n x k : 0 < w -> Z.of_nat k <= n -> 0 <= x < 2 ^ (w * n) ->
  foldl (fun acc g => acc * 2 ^ w + g) 0 (map (fun i => x / 2 ^ (w * (n - 1 - Z.of_nat i)) mod 2 ^ w) (seq 0 k))
  = x / 2 ^ (w * (n - Z.of_nat k)).
Proof.
  intros Hw. induction k as [|k IH]; intros Hk Hx.
  - cbn [seq map foldl]. rewrite Z.div_small; [done|]. by rewrite Z.sub_0_r.
  - rewrite seq_S, map_app, foldl_app. cbn [map foldl]. rewrite IH by lia.
    replace (0 + k)%nat with k by lia.
    replace (n - Z.of_nat (S k)) with (n - 1 - Z.of_nat k) by lia.
    replace (w * (n - Z.of_nat k)) with (w * (n - 1 - Z.of_nat k) + w) by lia.
    assert (0 <= w * (n - 1 - Z.of_nat k)) by nia.
    rewrite Z.pow_add_r, <- Z.div_div by lia.
    set (y := x / 2 ^ (w * (n - 1 - Z.of_nat k))). pose proof (Z.div_mod y (2 ^ w)). lia.
Qed.
Lemma of_groups_groups x : 0 <= x < 2 ^ 128 -> of_groups (groups x) = x.
Proof. intros H. etrans; [apply (foldl_digits 16 8 x 8); lia|]. apply Z.div_1_r. Qed.
Lemma of_octets_octets x : 0 <= x < 2 ^ 32 -> of_octets (octets x) = x.
Proof. intros H. etrans; [apply (foldl_digits 8 4 x 4); lia|]. apply Z.div_1_r. Qed.
Lemma groups_ok x : Forall (fun g => 0 <= g < 65536) (groups x) /\ length (groups x) = 8%nat.
Proof.
  split; [|done]. apply Forall_map, Forall_true. intros i. unfold group; cbv beta.
  apply Z.mod_pos_bound. lia.
Qed.
Lemma octets_ok x : Forall (fun g => 0 <= g < 256) (octets x) /\ length (octets x) = 4%nat.
Proof.
  split; [|done]. apply Forall_map, Forall_true. intros i. unfold octet; cbv beta.
  apply Z.mod_pos_bound. lia.
Qed.

(** What parses is within its width. *)
Lemma fields4_ok s : forall val dig fs r, fields4 s val dig fs = Some r ->
  0 <= val < 256 -> Forall (fun g => 0 <= g < 256) fs -> (length fs <= 3)%nat ->
  Forall (fun g => 0 <= g < 256) r /\ length r = 4%nat.
Proof.
  induction s as [|c s IH]; intros val dig fs r; cbn [fields4]; intros H Hv Hf Hl; repeat case_match; simplify_eq.
  - split; [by apply Forall_snoc_2|]. rewrite length_app. cbn.
    match goal with H : (_ <? _)%nat = false |- _ => apply Nat.ltb_ge in H end. lia.
  - unfold is_digit, in_range in *. eapply IH; [done|lia|done|done].
  - eapply IH; [done|lia|by apply Forall_snoc_2|]. rewrite length_app. cbn.
    match goal with H : (_ || _)%bool = false |- _ => apply orb_false_iff in H as [_ H%Nat.eqb_neq] end. lia.
Qed.
Lemma parseIPv4_ok s r : parseIPv4 s = Some r -> Forall (fun g => 0 <= g < 256) r /\ length r = 4%nat.
Proof. intros H. eapply fields4_ok; [exact H|lia|constructor|cbn; lia]. Qed.

Lemma hex_value_ok c v : hex_value c = Some v -> 0 <= v < 16.
Proof. unfold hex_value, in_range. repeat case_match; intros; simplify_eq; lia. Qed.
Lemma scan_hex_ok s : forall off acc off' acc' r, scan_hex s off acc = Some (off', acc', r) ->
  0 <= acc < 16 ^ Z.of_nat off -> (off <= 4)%nat -> 0 <= acc' < 65536.
Proof.
  induction s as [|c s IH]; intros off acc off' acc' r; cbn [scan_hex]; intros H Ha Ho.
  - simplify_eq. pose proof (Z.pow_le_mono_r 16 (Z.of_nat off') 4). lia.
  - destruct (hex_value c) as [v|] eqn:Ev.
    + destruct (Nat.ltb_spec 3 off); [done|]. apply hex_value_ok in Ev. eapply IH; [exact H| |lia].
      rewrite Nat2Z.inj_succ, Z.pow_succ_r by lia. lia.
    + simplify_eq. pose proof (Z.pow_le_mono_r 16 (Z.of_nat off') 4). lia.
Qed.
Lemma loop6_ok fuel : forall gs ell s gs' ell' r, loop6 fuel gs ell s = Some (gs', ell', r) ->
  (length gs + fuel <= 8)%nat -> Forall (fun g => 0 <= g < 65536) gs ->
  Forall (fun g => 0 <= g < 65536) gs' /\ (length gs' <= 8)%nat.
Proof.
  induction fuel as [|fuel IH]; intros gs ell s gs' ell' r; cbn [loop6]; intros H Hl Hg.
  { simplify_eq. split; [done|lia]. }
  destruct (scan_hex s 0 0) as [[[off acc] t]|] eqn:Es; cbn in H; [|done].
  assert (Ha : 0 <= acc < 65536) by (eapply scan_hex_ok; [exact Es|cbn; lia|lia]).
  assert (Hs : Forall (fun g => 0 <= g < 65536) (gs ++ [acc])) by by apply Forall_snoc_2.
  assert (Hn : length (gs ++ [acc]) = S (length gs)) by (rewrite length_app; cbn; lia).
  destruct (off =? 0)%nat; [done|]. destruct t as [|c t].
  { simplify_eq. split; [done|lia]. }
  destruct (c =? 46).
  - destruct (_ || _) eqn:Eb; [done|]. apply orb_false_iff in Eb as [_ Eb].
    assert (length gs + 2 <= 8)%nat by (by apply Nat.ltb_ge).
    destruct (parseIPv4 s) as [r4|] eqn:E4; [|done].
    apply parseIPv4_ok in E4 as [Hf Hl4]. destruct r4 as [|a4 [|b4 [|c4 [|d4 [|? ?]]]]]; try done. simplify_eq.
    rewrite !Forall_cons in Hf.
    rewrite length_app. cbn. split; [|lia]. apply Forall_app. split; [done|]. repeat constructor; lia.
  - destruct (negb _); [done|]. destruct t as [|c' t]; [done|]. destruct (c' =? 58).
    + destruct ell; [done|]. destruct t; [simplify_eq; split; [done|lia]|].
      eapply IH; [exact H|lia|done].
    + eapply IH; [exact H|lia|done].
Qed.
Lemma parse6_groups_ok s gs : parse6_groups s = Some gs ->
  Forall (fun g => 0 <= g < 65536) gs /\ length gs = 8%nat.
Proof.
  assert (Hz : forall k, Forall (fun g => 0 <= g < 65536) (replicate k 0)).
  { intros k. apply Forall_replicate. lia. }
  assert (Hb : forall ell s, loop6 8 [] ell s ≫= finish6 = Some gs ->
    Forall (fun g => 0 <= g < 65536) gs /\ length gs = 8%nat).
  { intros ell t Ht. destruct (loop6 8 [] ell t) as [[[gs' ell'] r]|] eqn:El; [|done].
    apply loop6_ok in El as [Hg Hl]; [|done|constructor]. cbn [mbind option_bind] in Ht. unfold finish6 in Ht.
    destruct r; [|done]. destruct ell' as [e|]; destruct (Nat.ltb_spec (length gs') 8); simplify_eq; [|split; [done|lia]].
    split; [repeat apply Forall_app_2; auto using Forall_take, Forall_drop|].
    rewrite !length_app, length_replicate, length_take, length_drop. lia. }
  unfold parse6_groups. destruct (strip_prefix _ s) as [[|c s']|]; [|by apply Hb..].
  intros [= <-]. split; [apply (Hz 8%nat)|done].
Qed.

Lemma parse_addr_ok s a z : parse_addr s = Some (a, z) -> addr_ok a.
Proof.
  unfold parse_addr, parseIPv6. intros H. destruct (_ =? 46).
  - destruct (parseIPv4 s) as [fs|] eqn:E; simplify_eq/=.
    apply parseIPv4_ok in E as [Hf Hl]. apply (foldl_base_bound 256) in Hf; [|lia]. by rewrite Hl in Hf.
  - destruct (_ =? 58); [|done]. destruct (split_at 37 s) as [t zo].
    assert (Hp : (gs ← parse6_groups t; Some (Addr16 (of_groups gs), default [] zo)) = Some (a, z)) by (by destruct zo as [[|]|]).
    destruct (parse6_groups t) as [gs|] eqn:E; simplify_eq/=.
    apply parse6_groups_ok in E as [Hf Hl]. apply (foldl_base_bound 65536) in Hf; [|lia]. by rewrite Hl in Hf.
Qed.
Lemma ParseAddr_ok s a : ParseAddr s = Some a -> addr_ok a.
Proof. unfold ParseAddr. intros ([b z] & H & E)%fmap_Some. simplify_eq/=. by eapply parse_addr_ok. Qed.
Lemma dec_value_nonneg s acc : forallb is_digit s = true -> 0 <= acc ->
  0 <= foldl (fun acc c => acc * 10 + (c - 48)) acc s.
Proof.
  revert acc. induction s as [|c s IH]; intros acc; cbn [forallb foldl]; [done|].
  intros [Hc Hs]%andb_true_iff Ha. unfold is_digit, in_range in Hc. apply IH; [done|lia].
Qed.
Lemma ParsePrefix_ok s p : ParsePrefix s = Some p -> prefix_ok p.
Proof.
  unfold ParsePrefix, parse_prefix. destruct (split_last 47 (str s)) as [[ip b]|]; cbn; [|done].
  destruct (parse_addr ip) as [[a z]|] eqn:Ea; cbn; [|done]. destruct (_ && _); [done|].
  unfold parse_bits. destruct b as [|c r]; [done|]. destruct (_ && _) eqn:Ed; [|done]. cbn [mbind option_bind].
  apply andb_true_iff in Ed as [_ Ed]. destruct (Z.ltb_spec (BitLen a) (dec_value (c :: r))); [done|].
  intros [= <-]. split; [by eapply parse_addr_ok|]. cbn [p_addr p_bits].
  split; [|done]. by apply dec_value_nonneg.
Qed.

Lemma addr_ok_value a : addr_ok a -> IsValid a = true /\ 0 <= value a < 2 ^ BitLen a.
Proof. destruct a; cbn; [done|done|done]. Qed.
Lemma Masked_ok p : prefix_ok p -> prefix_ok (Masked p) /\ wf_prefix (Masked p).
Proof.
  intros [Ha Hb]. destruct (addr_ok_value _ Ha) as [Hv Hx].
  set (k := BitLen (p_addr p) - p_bits p). assert (Hk : 0 <= k) by lia.
  assert (Hc : forall x, 0 <= x < 2 ^ BitLen (p_addr p) ->
    0 <= Z.shiftl (Z.shiftr x k) k < 2 ^ BitLen (p_addr p) /\
    Z.shiftr (Z.shiftl (Z.shiftr x k) k) k = Z.shiftr x k).
  { intros x Hx'. rewrite Z.shiftl_mul_pow2, !Z.shiftr_div_pow2 by done.
    assert (0 < 2 ^ k) by (by apply Z.pow_pos_nonneg). rewrite Z.div_mul by lia.
    pose proof (Z.mul_div_le x (2 ^ k)). pose proof (Z.div_pos x (2 ^ k)). split; [|done]. nia. }
  specialize (Hc (value (p_addr p)) Hx) as [Hr Hs].
  unfold Masked, net. fold k. destruct p as [[|x|x] b]; cbn [p_addr p_bits value BitLen] in *; [done| |];
    (split; [by split|]); unfold wf_prefix, net; cbn [p_addr p_bits value BitLen IsValid]; fold k;
    (split_and!; [done|lia|lia|lia|]); by rewrite Hs.
Qed.
Lemma Masked_wf p : wf_prefix p -> Masked p = p.
Proof.
  intros (Hv & H0 & Hb & Hm). unfold Masked. rewrite <- Hm. by destruct p as [[|x|x] b].
Qed.
Lemma Masked_Contains p a : prefix_ok p -> Contains (Masked p) a = Contains p a.
Proof.
  intros [Ha Hb]. unfold Contains.
  assert (HB : BitLen (p_addr (Masked p)) = BitLen (p_addr p) /\ IsValid (p_addr (Masked p)) = IsValid (p_addr p)).
  { by destruct p as [[|x|x] b]. }
  destruct HB as [-> ->]. f_equal. change (net (Masked p)) with (net p).
  enough (net p (p_addr (Masked p)) = net p (p_addr p)) as -> by done.
  assert (Hs : Z.shiftr (Z.shiftl (net p (p_addr p)) (BitLen (p_addr p) - p_bits p)) (BitLen (p_addr p) - p_bits p)
               = net p (p_addr p)).
  { rewrite Z.shiftr_shiftl_l by lia. by rewrite Z.sub_diag, Z.shiftl_0_r. }
  by destruct p as [[|x|x] b].
Qed.

(** ** The round trip of a prefix through its text *)
Lemma split_at_absent c s : c ∉ s -> split_at c s = (s, None).
Proof.
  induction s as [|d s IH]; [done|]. intros [Hd Hs]%not_elem_of_cons. cbn [split_at].
  destruct (Z.eqb_spec d c); [by subst|]. by rewrite IH.
Qed.
Lemma split_at_first c s t : c ∉ s -> split_at c (s ++ c :: t) = (s, Some t).
Proof.
  induction s as [|d s IH]; cbn [app split_at]; [by rewrite Z.eqb_refl|].
  intros [Hd Hs]%not_elem_of_cons. destruct (Z.eqb_spec d c); [by subst|]. by rewrite IH.
Qed.
Lemma split_last_app c a b : c ∉ b -> split_last c (a ++ c :: b) = Some (a, b).
Proof.
  intros H. unfold split_last. rewrite reverse_app, reverse_cons, <- app_assoc. cbn [app].
  rewrite split_at_first by by rewrite elem_of_reverse. by rewrite !reverse_involutive.
Qed.

(** Numbers below 256, one by one. *)
Lemma below_256 (P : Z -> Prop) : (forall k, (k < 256)%nat -> P (Z.of_nat k)) -> forall z, 0 <= z < 256 -> P z.
Proof. intros H z Hz. rewrite <- (Z2Nat.id z) by lia. apply H. lia. Qed.
Lemma fmt_d_digits z : 0 <= z < 256 -> Forall (fun c => 48 <= c <= 57) (fmt_d z) /\ fmt_d z <> [].
Proof.
  revert z. apply below_256. intros k Hk.
  do 256 (destruct k as [|k]; [vm_compute fmt_d; split; [repeat constructor; done|done]|]). lia.
Qed.
Lemma parse_bits_fmt_d z : 0 <= z < 256 -> parse_bits (fmt_d z) = Some z.
Proof. revert z. apply below_256. intros k Hk. do 256 (destruct k as [|k]; [reflexivity|]). lia. Qed.
Lemma fields4_octet z r fs : 0 <= z < 256 ->
  fields4 (fmt_d z ++ r) 0 0 fs = fields4 r z (length (fmt_d z)) fs.
Proof. revert z. apply below_256. intros k Hk. do 256 (destruct k as [|k]; [reflexivity|]). lia. Qed.
Lemma parseIPv4_join os : length os = 4%nat -> Forall (fun g => 0 <= g < 256) os ->
  parseIPv4 (join [46] (map fmt_d os)) = Some os.
Proof.
  intros Hl Ho. destruct os as [|a [|b [|c [|d [|? ?]]]]]; try done. rewrite !Forall_cons in Ho.
  destruct Ho as (Ha & Hb & Hc & Hd & _).
  assert (Hlen : forall z, 0 <= z < 256 -> exists n, length (fmt_d z) = S n).
  { intros z Hz. destruct (fmt_d_digits z Hz) as [_ Hne]. destruct (fmt_d z); [done|]. by eexists. }
  assert (Hdot : forall z w r fs n, 0 <= w < 256 -> (length fs < 3)%nat ->
    fields4 (46 :: fmt_d w ++ r) z (S n) fs = fields4 r w (length (fmt_d w)) (fs ++ [z])).
  { intros z w r fs n Hw Hfs. cbn [fields4].
    change (is_digit 46) with false. change (46 =? 46) with true. cbv iota.
    destruct (Hlen w Hw) as [m Em]. rewrite length_app, Em. cbn [Nat.eqb orb Nat.add].
    destruct (Nat.eqb_spec (length fs) 3); [lia|]. by rewrite fields4_octet, Em. }
  unfold parseIPv4. cbn [map join app]. rewrite fields4_octet by done.
  destruct (Hlen a Ha) as [n ->]. rewrite Hdot by (cbn; lia || done).
  destruct (Hlen b Hb) as [n' ->]. rewrite Hdot by (cbn; lia || done).
  destruct (Hlen c Hc) as [n'' ->]. rewrite <- (app_nil_r (fmt_d d)), Hdot by (cbn; lia || done).
  done.
Qed.
Lemma join_Forall (P : Z -> Prop) sep ps : Forall P sep -> Forall (Forall P) ps -> Forall P (join sep ps).
Proof.
  intros Hs. induction 1 as [|p ps Hp Hps IH]; [constructor|]. cbn [join].
  destruct ps; [done|]. by repeat apply Forall_app_2.
Qed.

(** Hexadecimal groups. *)
Lemma below_16 (P : Z -> Prop) : (forall k, (k < 16)%nat -> P (Z.of_nat k)) -> forall z, 0 <= z < 16 -> P z.
Proof. intros H z Hz. rewrite <- (Z2Nat.id z) by lia. apply H. lia. Qed.
Lemma hex_value_digit i : 0 <= i < 16 -> hex_value (hex_digit i) = Some i.
Proof. revert i. apply below_16. intros k Hk. do 16 (destruct k as [|k]; [reflexivity|]). lia. Qed.
Definition is_hex (c : Z) : Prop := 48 <= c <= 57 \/ 97 <= c <= 102.
Lemma hex_digit_hex i : 0 <= i < 16 -> is_hex (hex_digit i).
Proof. unfold hex_digit, is_hex. intros. destruct (Z.ltb_spec i 10); lia. Qed.
Lemma mod16_range x : 0 <= x mod 16 < 16.
Proof. apply Z.mod_pos_bound. lia. Qed.
Lemma appendHex_hex x : 0 <= x < 65536 -> Forall is_hex (appendHex x).
Proof.
  intros Hx. unfold appendHex.
  assert (H1 : forall i, 0 <= i < 16 -> Forall is_hex [hex_digit i]).
  { intros i Hi. constructor; [by apply hex_digit_hex|constructor]. }
  repeat apply Forall_app_2; repeat case_match; try apply Forall_nil_2; apply H1; try apply mod16_range.
  Z.to_euclidean_division_equations. lia.
Qed.
Lemma appendHex_cons x : exists c t, appendHex x = c :: t.
Proof. unfold appendHex. repeat case_match; cbn [app]; eauto. Qed.
Lemma scan_hex_digit i s off acc : 0 <= i < 16 -> (off <= 3)%nat ->
  scan_hex (hex_digit i :: s) off acc = scan_hex s (S off) (acc * 16 + i).
Proof.
  intros Hi Ho. cbn [scan_hex]. rewrite hex_value_digit by done. destruct (Nat.ltb_spec 3 off); [lia|done].
Qed.
Lemma scan_hex_stop s off acc : (forall c t, s = c :: t -> hex_value c = None) -> scan_hex s off acc = Some (off, acc, s).
Proof. intros H. destruct s as [|c t]; [done|]. cbn. by rewrite (H c t). Qed.
Lemma scan_hex_group g r : 0 <= g < 65536 -> (forall c t, r = c :: t -> hex_value c = None) ->
  exists k, scan_hex (appendHex g ++ r) 0 0 = Some (S k, g, r).
Proof.
  intros Hg Hr. unfold appendHex.
  assert (H1 : 0 <= g / 16 mod 16 < 16) by apply mod16_range.
  assert (H2 : 0 <= g / 256 mod 16 < 16) by apply mod16_range.
  assert (H0 : 0 <= g mod 16 < 16) by apply mod16_range.
  destruct (Z.leb_spec 4096 g); [|destruct (Z.leb_spec 256 g); [|destruct (Z.leb_spec 16 g)]];
    repeat (match goal with |- context [?a <=? g] => rewrite (proj2 (Z.leb_le a g)) by lia end);
    repeat (match goal with |- context [?a <=? g] => rewrite (proj2 (Z.leb_gt a g)) by lia end);
    cbn [app]; rewrite ?scan_hex_digit by (lia || (Z.to_euclidean_division_equations; lia));
    rewrite scan_hex_stop by done; eexists; f_equal; f_equal; f_equal; Z.to_euclidean_division_equations; lia.
Qed.

(** One group of [parseIPv6]'s loop, by what follows it. *)
Lemma loop6_last fuel gs ell g : 0 <= g < 65536 -> loop6 (S fuel) gs ell (appendHex g) = Some (gs ++ [g], ell, []).
Proof.
  intros Hg. destruct (scan_hex_group g [] Hg) as [k E]; [done|]. rewrite app_nil_r in E.
  cbn [loop6]. by rewrite E.
Qed.
Lemma loop6_more fuel gs ell g c t : 0 <= g < 65536 -> c <> 58 ->
  loop6 (S fuel) gs ell (appendHex g ++ 58 :: c :: t) = loop6 fuel (gs ++ [g]) ell (c :: t).
Proof.
  intros Hg Hc. destruct (scan_hex_group g (58 :: c :: t) Hg) as [k E]; [by intros ? ? [= <- <-]|].
  cbn [loop6]. rewrite E. cbn. destruct (Z.eqb_spec c 58); [done|]. done.
Qed.
Lemma loop6_ellipsis fuel gs g t : 0 <= g < 65536 ->
  loop6 (S fuel) gs None (appendHex g ++ 58 :: 58 :: t) =
  match t with [] => Some (gs ++ [g], Some (S (length gs)), []) | _ => loop6 fuel (gs ++ [g]) (Some (S (length gs))) t end.
Proof.
  intros Hg. destruct (scan_hex_group g (58 :: 58 :: t) Hg) as [k E]; [by intros ? ? [= <- <-]|].
  cbn [loop6]. rewrite E. done.
Qed.
Abbreviation group_range := (fun g => 0 <= g < 65536).
Lemma join_hex_cons g gs : exists c t, 0 <= g < 65536 -> join [58] (map appendHex (g :: gs)) = c :: t /\ c <> 58.
Proof.
  destruct (appendHex_cons g) as (c & t & E).
  assert (exists t', join [58] (map appendHex (g :: gs)) = c :: t') as [t' E'].
  { cbn [map join]. rewrite E. destruct gs; cbn [map]; eauto. }
  exists c, t'. intros Hg. split; [done|]. pose proof (appendHex_hex g Hg) as Hf. rewrite E in Hf.
  apply Forall_cons in Hf as [Hc _]. unfold is_hex in Hc. lia.
Qed.
Lemma loop6_join gs : forall fuel acc ell, gs <> [] -> Forall group_range gs -> (length gs <= fuel)%nat ->
  loop6 fuel acc ell (join [58] (map appendHex gs)) = Some (acc ++ gs, ell, []).
Proof.
  induction gs as [|g gs IH]; intros fuel acc ell Hne Hf Hl; [done|].
  apply Forall_cons in Hf as [Hg Hf]. destruct fuel as [|fuel]; [cbn in Hl; lia|]. cbn [length] in Hl.
  destruct gs as [|g' gs]; [by apply loop6_last|].
  destruct (join_hex_cons g' gs) as (c & t & Hj). apply Forall_cons in Hf as Hf'. destruct (Hj (proj1 Hf')) as [Ej Hc].
  change (join [58] (map appendHex (g :: g' :: gs)))
    with (appendHex g ++ 58 :: join [58] (map appendHex (g' :: gs))).
  rewrite Ej, loop6_more, <- Ej, IH by (done || lia). by rewrite <- app_assoc.
Qed.
Lemma loop6_join_ellipsis gs : forall fuel acc hs, gs <> [] -> Forall group_range (gs ++ hs) ->
  (length gs + length hs <= fuel)%nat ->
  loop6 fuel acc None (join [58] (map appendHex gs) ++ [58; 58] ++ join [58] (map appendHex hs)) =
  Some (acc ++ gs ++ hs, Some (length acc + length gs)%nat, []).
Proof.
  induction gs as [|g gs IH]; intros fuel acc hs Hne Hf Hl; [done|].
  cbn [app] in Hf. apply Forall_cons in Hf as [Hg Hf]. destruct fuel as [|fuel]; [cbn in Hl; lia|]. cbn [length] in Hl.
  destruct gs as [|g' gs].
  - cbn [map join app length] in *. rewrite loop6_ellipsis by done.
    replace (length acc + 1)%nat with (S (length acc)) by lia. destruct hs as [|h hs]; [done|].
    destruct (join_hex_cons h hs) as (c & t & Hj). apply Forall_cons in Hf as Hf'.
    destruct (Hj (proj1 Hf')) as [Ej Hc]. rewrite Ej, <- Ej.
    rewrite loop6_join by (done || lia). by rewrite <- app_assoc.
  - destruct (join_hex_cons g' gs) as (c & t & Hj). cbn [app] in Hf. apply Forall_cons in Hf as Hf'.
    destruct (Hj (proj1 Hf')) as [Ej Hc].
    change (join [58] (map appendHex (g :: g' :: gs)))
      with (appendHex g ++ 58 :: join [58] (map appendHex (g' :: gs))).
    rewrite <- app_assoc. cbn [app]. rewrite Ej. cbn [app]. rewrite loop6_more by done.
    specialize (IH fuel (acc ++ [g]) hs). rewrite Ej in IH. cbn [app] in IH. rewrite IH; [|done|done|cbn [length] in *; lia].
    rewrite <- app_assoc, length_app. cbn [app length]. do 3 f_equal. f_equal. lia.
Qed.

(** The run [appendTo6] elides holds only zeros. *)
Lemma zeros_from_spec gs j : (j < zeros_from gs)%nat -> gs !! j = Some 0.
Proof.
  revert j. induction gs as [|g gs IH]; intros j; cbn [zeros_from]; [lia|].
  destruct (Z.eq_dec g 0) as [->|Hg]; [|by destruct g; [|lia|lia]].
  destruct j as [|j]; [done|]. intros Hj. apply IH. lia.
Qed.
Definition good_run (gs : list Z) (se : nat * nat) : Prop :=
  (fst se <= snd se <= length gs)%nat /\ (forall k, (fst se <= k < snd se)%nat -> gs !! k = Some 0).
Lemma zero_run_spec all gs i best : drop i all = gs -> good_run all best -> good_run all (zero_run i gs best).
Proof.
  revert i best. induction gs as [|g gs IH]; intros i best Hd Hb; cbn [zero_run]; [done|].
  apply IH. { by rewrite <- skipn_skipn with (x := 1%nat), Hd || rewrite <- (drop_drop all i 1), Hd. }
  destruct (_ && _) eqn:E; [|done]. clear E.
  assert (Hk : forall j, (j < zeros_from (g :: gs))%nat -> all !! (i + j)%nat = Some 0).
  { intros j Hj. rewrite <- lookup_drop, Hd. by apply zeros_from_spec. }
  split; cbn [fst snd].
  - split; [lia|]. destruct (zeros_from (g :: gs)) as [|l].
    + assert (length (drop i all) = length (g :: gs)) by by rewrite Hd. rewrite length_drop in *. cbn in *. lia.
    + specialize (Hk l ltac:(lia)). apply lookup_lt_Some in Hk. lia.
  - intros k Hk'. replace k with (i + (k - i))%nat by lia. apply Hk. lia.
Qed.
Lemma run_split gs s e : good_run gs (s, e) -> gs = take s gs ++ replicate (e - s) 0 ++ drop e gs.
Proof.
  intros [Hse Hz]. cbn [fst snd] in *. rewrite <- (take_drop s gs) at 1. f_equal.
  rewrite <- (take_drop (e - s) (drop s gs)) at 1. rewrite drop_drop.
  replace (s + (e - s))%nat with e by lia. f_equal. apply list_eq. intros k.
  destruct (decide (k < e - s)%nat) as [Hk|Hk].
  - rewrite lookup_take_lt, lookup_drop, lookup_replicate_2 by done. apply Hz. lia.
  - rewrite !lookup_ge_None_2; [done|rewrite length_replicate; lia|].
    rewrite length_take, length_drop. lia.
Qed.

Lemma parse6_groups_plain s : head s <> Some 58 -> parse6_groups s = loop6 8 [] None s ≫= finish6.
Proof.
  intros H. unfold parse6_groups. destruct s as [|c s]; [done|]. cbn [strip_prefix].
  destruct (Z.eqb_spec 58 c) as [<-|]; done.
Qed.

Lemma appendTo6_groups x : 0 <= x < 2 ^ 128 -> parse6_groups (appendTo6 x) = Some (groups x).
Proof.
  intros Hx. unfold appendTo6. destruct (groups_ok x) as [Hg Hl].
  pose proof (zero_run_spec (groups x) (groups x) 0 (0, 0)%nat eq_refl) as Hrun.
  destruct (zero_run 0 (groups x) (0, 0)%nat) as [s e].
  destruct Hrun as [Hse Hz]; [split; cbn; lia|]. pose proof (run_split _ s e (conj Hse Hz)) as Hsplit.
  cbn [fst snd] in *. set (gs := groups x) in *. clearbody gs.
  destruct (Nat.eqb_spec s e) as [->|Hne].
  - destruct gs as [|g gs]; [done|]. destruct (join_hex_cons g gs) as (c & t & Hj).
    apply Forall_cons in Hg as Hg'. destruct (Hj (proj1 Hg')) as [Ej Hc].
    rewrite parse6_groups_plain by (rewrite Ej; cbn; congruence).
    rewrite loop6_join by (done || lia). cbn [mbind option_bind app finish6]. by rewrite Hl.
  - assert (Hlt : (length (take s gs ++ drop e gs) = 8 - (e - s))%nat).
    { rewrite length_app, length_take, length_drop. lia. }
    assert (Hfin : take s (take s gs ++ drop e gs) ++ replicate (8 - length (take s gs ++ drop e gs)) 0
                   ++ drop s (take s gs ++ drop e gs) = gs).
    { rewrite Hlt. assert (Hs : length (take s gs) = s) by (rewrite length_take; lia).
      rewrite take_app_length', drop_app_length' by done.
      replace (8 - (8 - (e - s)))%nat with (e - s)%nat by lia. by symmetry. }
    destruct s as [|s].
    + change (take 0 gs) with (@nil Z) in *. cbn [map join app] in *. destruct (drop e gs) as [|h hs] eqn:Ed.
      * cbn [map join]. cbn in Hfin, Hlt. by rewrite <- Hfin.
      * destruct (join_hex_cons h hs) as (c & t & Hj).
        assert (Hh : Forall group_range (h :: hs)) by (rewrite <- Ed; by apply Forall_drop).
        apply Forall_cons in Hh as Hg'. destruct (Hj (proj1 Hg')) as [Ej Hc].
        rewrite Ej. unfold parse6_groups. cbn [strip_prefix Z.eqb Pos.eqb]. rewrite <- Ej.
        rewrite loop6_join by (done || lia).
        cbn [mbind option_bind app finish6]. rewrite Hlt. destruct (Nat.ltb_spec (8 - (e - 0)) 8); [|lia].
        f_equal. rewrite Hlt in Hfin. exact Hfin.
    + destruct gs as [|g gs]; [done|]. change (take (S s) (g :: gs)) with (g :: take s gs) in *.
      destruct (join_hex_cons g (take s gs)) as (c & t & Hj). apply Forall_cons in Hg as Hg'.
      destruct (Hj (proj1 Hg')) as [Ej Hc].
      rewrite parse6_groups_plain by (rewrite Ej; cbn; congruence).
      rewrite loop6_join_ellipsis; [|done| |].
      * cbn [mbind option_bind finish6]. change ([] ++ ?l) with l. rewrite Hlt.
        destruct (Nat.ltb_spec (8 - (e - S s)) 8); [|lia]. f_equal. rewrite Hlt in Hfin.
        replace (length [] + length (g :: take s gs))%nat with (S s); [exact Hfin|].
        cbn [length]. rewrite length_take. cbn [length] in *. lia.
      * apply (Forall_app_2 _ _ _ (Forall_take _ (S s) _ Hg) (Forall_drop _ e _ Hg)).
      * rewrite <- length_app. rewrite Hlt. lia.
Qed.

(** The bytes of an address's text. *)
Definition text4_byte (c : Z) : Prop := 48 <= c <= 57 \/ c = 46.
Definition text6_byte (c : Z) : Prop := is_hex c \/ c = 58.
Lemma appendTo4_bytes x : Forall text4_byte (appendTo4 x).
Proof.
  apply join_Forall; [by repeat constructor; right|]. apply Forall_map.
  eapply Forall_impl; [apply octets_ok|]. intros g Hg. cbn beta.
  eapply Forall_impl; [by apply fmt_d_digits|]. intros c Hc. by left.
Qed.
Lemma appendTo6_bytes x : Forall text6_byte (appendTo6 x).
Proof.
  destruct (groups_ok x) as [Hg _]. unfold appendTo6. destruct (zero_run _ _ _) as [s e].
  assert (Hsep : Forall text6_byte [58]) by (repeat constructor; by right).
  assert (Hj : forall gs, Forall group_range gs -> Forall text6_byte (join [58] (map appendHex gs))).
  { intros gs Hgs. apply join_Forall; [done|]. apply Forall_map. eapply Forall_impl; [exact Hgs|].
    intros g Hr. cbn beta. eapply Forall_impl; [by apply appendHex_hex|]. intros c Hc. by left. }
  destruct (s =? e)%nat; [by apply Hj|].
  apply Forall_app_2; [by apply Hj, Forall_take|]. apply Forall_app_2; [|by apply Hj, Forall_drop].
  by apply (Forall_app_2 _ [58] [58]).
Qed.
(** The first separator of an address's text is its own. *)
Lemma addr_kind_skip p c t : Forall (fun d => 48 <= d <= 57 \/ 97 <= d <= 102) p ->
  (c = 46 \/ c = 58) -> addr_kind (p ++ c :: t) = c.
Proof.
  intros Hp Hc. induction Hp as [|d p Hd _ IH]; cbn [app addr_kind].
  - by destruct Hc as [-> | ->].
  - assert ((d =? 46) || (d =? 58) || (d =? 37) = false) as -> by lia. done.
Qed.
Lemma addr_kind4 x : addr_kind (appendTo4 x) = 46.
Proof.
  change (appendTo4 x) with (fmt_d (octet x 0) ++ 46 :: join [46] (map fmt_d (map (octet x) (seq 1 3)))).
  apply addr_kind_skip; [|by left]. eapply Forall_impl; [apply fmt_d_digits; apply Z.mod_pos_bound; lia|].
  intros d Hd. by left.
Qed.
Lemma join_hex_split g gs t : exists r, join [58] (map appendHex (g :: gs)) ++ 58 :: t = appendHex g ++ 58 :: r.
Proof.
  destruct gs as [|g' gs]; [by eexists|]. eexists. cbn [map join]. rewrite <- !app_assoc. cbn [app]. reflexivity.
Qed.
Lemma addr_kind6 x : addr_kind (appendTo6 x) = 58.
Proof.
  destruct (groups_ok x) as [Hg Hl]. unfold appendTo6. destruct (zero_run _ _ _) as [s e].
  destruct (groups x) as [|g gs] eqn:E; [done|]. clear E. apply Forall_cons in Hg as Hg'.
  assert (Hskip : forall r, addr_kind (appendHex g ++ 58 :: r) = 58).
  { intros r. apply addr_kind_skip; [|by right]. exact (appendHex_hex g (proj1 Hg')). }
  destruct (s =? e)%nat.
  - destruct gs as [|g' gs]; [done|]. exact (Hskip (join [58] (map appendHex (g' :: gs)))).
  - destruct s as [|s]; [done|]. change (take (S s) (g :: gs)) with (g :: take s gs).
    destruct (join_hex_split g (take s gs) (58 :: join [58] (map appendHex (drop e (g :: gs))))) as [r Er].
    cbn [app]. rewrite Er. apply Hskip.
Qed.

Lemma parse_addr_text a : addr_ok a -> Is4In6 a = false -> parse_addr (addr_text a) = Some (a, []).
Proof.
  destruct a as [|x|x]; [done| |]; intros Ha H4; unfold parse_addr; cbn [addr_text addr_ok] in *.
  - rewrite addr_kind4. cbn [Z.eqb Pos.eqb]. unfold appendTo4.
    destruct (octets_ok x) as [Ho Hl]. rewrite parseIPv4_join by done. cbn [mbind option_bind].
    by rewrite of_octets_octets.
  - rewrite H4, addr_kind6. cbn [Z.eqb Pos.eqb]. unfold parseIPv6.
    rewrite split_at_absent.
    2:{ intros Hin. pose proof (appendTo6_bytes x) as Hb. rewrite Forall_forall in Hb.
        specialize (Hb _ Hin). unfold text6_byte, is_hex in Hb. lia. }
    rewrite appendTo6_groups by done. cbn [mbind option_bind default]. by rewrite of_groups_groups.
Qed.

Lemma prefix_text_bytes p : prefix_ok p -> Forall visible (prefix_text p) /\ has_byte 47 (prefix_text p) = true.
Proof.
  intros [Ha Hb]. unfold prefix_text, valid_prefix. destruct (addr_ok_value _ Ha) as [-> _].
  assert ((true && (0 <=? p_bits p) && (p_bits p <=? BitLen (p_addr p)))%bool = true) as -> by lia.
  assert (Hb' : 0 <= p_bits p < 256) by (destruct (p_addr p); cbn in *; lia).
  assert (H4 : forall x, Forall visible (appendTo4 x)).
  { intros x. eapply Forall_impl; [apply appendTo4_bytes|]. unfold text4_byte, visible. lia. }
  assert (H6 : forall x, Forall visible (appendTo6 x)).
  { intros x. eapply Forall_impl; [apply appendTo6_bytes|]. unfold text6_byte, is_hex, visible. lia. }
  split.
  - apply Forall_app_2; [|apply Forall_app_2].
    + destruct (p_addr p) as [|x|x]; [done|apply H4|]. cbn [addr_text]. destruct (Is4In6 _); [|apply H6].
      apply Forall_app_2; [|apply H4]. set (pre := str _). vm_compute in pre. subst pre.
      repeat (constructor; [unfold visible; lia|]). constructor.
    + by repeat constructor.
    + eapply Forall_impl; [by apply fmt_d_digits|]. unfold visible. cbn beta. lia.
  - rewrite !has_byte_app. cbn. by rewrite orb_true_r.
Qed.
Lemma visible_bytes p : Forall visible p -> Forall is_byte p.
Proof. intros H. eapply Forall_impl; [exact H|]. unfold visible, is_byte. cbn beta. lia. Qed.

(** A prefix reads back from its text, which trimming leaves alone. *)
Lemma ParsePrefix_String p : prefix_ok p -> Is4In6 (p_addr p) = false -> ParsePrefix (PrefixString p) = Some p.
Proof.
  intros Hp H4. unfold ParsePrefix, PrefixString.
  rewrite str_unstr by by apply visible_bytes, prefix_text_bytes. destruct Hp as [Ha Hb].
  unfold prefix_text, valid_prefix. destruct (addr_ok_value _ Ha) as [-> _].
  assert ((true && (0 <=? p_bits p) && (p_bits p <=? BitLen (p_addr p)))%bool = true) as -> by lia.
  assert (Hb' : 0 <= p_bits p < 256) by (destruct (p_addr p); cbn in *; lia).
  unfold parse_prefix. cbn [app]. rewrite split_last_app.
  2:{ intros Hin. destruct (fmt_d_digits _ Hb') as [Hd _]. rewrite Forall_forall in Hd. specialize (Hd _ Hin). cbn in Hd. lia. }
  cbn [mbind option_bind]. rewrite parse_addr_text by done. cbn [mbind option_bind length Nat.eqb negb].
  rewrite andb_false_r, parse_bits_fmt_d by done. cbn [mbind option_bind].
  destruct (Z.ltb_spec (BitLen (p_addr p)) (p_bits p)); [lia|]. by destruct p.
Qed.
Lemma trim_PrefixString p : prefix_ok p -> trim (PrefixString p) = PrefixString p.
Proof.
  intros Hp. destruct (prefix_text_bytes p Hp) as [Hv _]. unfold trim, PrefixString.
  rewrite str_unstr by by apply visible_bytes. by rewrite TrimSpace_visible.
Qed.
