(* ===== verification/GoText.v ===== *)
(** * More of Go's text: [strings.Fields], [strconv.Atoi], [net]

    What validation uses of [strings], [strconv] and [net]: words, splitting, prefixes, decimal
    integers, [net.ParseIP] and [net.ParseCIDR] (over [Netip], as in Go), and case folding, whose tables
    beyond ASCII are arguments.

    Further on: host and port: [net.SplitHostPort], [net.JoinHostPort]. *)
From S2P Require Import Prelude GoStrings Netip.
Local Open Scope Z_scope.

Definition HasPrefix (s pre : string) : bool :=
  match strip_prefix (str pre) (str s) with Some _ => true | None => false end.
Definition TrimSuffix1 (c : Z) (p : bytes) : bytes :=
  match reverse p with d :: r => if d =? c then reverse r else p | [] => p end.

(** [strings.Split] at one byte. *)
Fixpoint Split (c : Z) (s : bytes) : list bytes :=
  match s with
  | [] => [[]]
  | d :: s =>
      if d =? c then [] :: Split c s
      else match Split c s with w :: ws => (d :: w) :: ws | [] => [[d]] end
  end.

(** [strings.Fields]: the words between white space, rune by rune. *)
Fixpoint fields_from (fuel : nat) (word : bytes) (p : bytes) : list bytes :=
  let flush := match word with [] => [] | _ => [word] end in
  match fuel, p with
  | S fuel, _ :: _ =>
      match drop_space white_space p with
      | Some p' => flush ++ fields_from fuel [] p'
      | None => fields_from fuel (word ++ take (rune_width p) p) (drop (rune_width p) p)
      end
  | _, _ => flush
  end.
Definition Fields (p : bytes) : list bytes := fields_from (length p) [] p.

(** [strconv.Atoi] on a 64-bit [int]. *)
Definition Atoi (p : bytes) : option Z :=
  let '(neg, d) := match p with c :: r => if c =? 45 then (true, r) else if c =? 43 then (false, r) else (false, p)
                   | [] => (false, p) end in
  match d with
  | [] => None
  | _ =>
      if forallb is_digit d then
        let v := (if neg : bool then - dec_value d else dec_value d) in
        if (min_int64 <=? v) && (v <=? max_int64) then Some v else None
      else None
  end.

(** ** Case: letter by letter on ASCII, by Unicode's tables beyond it *)
Definition ascii_upper (c : Z) : Z := if in_range 97 122 c then c - 32 else c.
Definition ToUpper (unicode_upper : bytes -> bytes) (p : bytes) : bytes :=
  if is_ascii p then map ascii_upper p else unicode_upper p.
Definition EqualFold (unicode_fold : bytes -> bytes -> bool) (p q : bytes) : bool :=
  if is_ascii p && is_ascii q then bool_decide (map ascii_lower p = map ascii_lower q) else unicode_fold p q.

(** ** [net] *)
Definition net_ParseIP (s : string) : option Addr :=
  match parse_addr (str s) with Some (a, []) => Some a | _ => None end.
(** Whether [net.ParseCIDR] takes it. *)
Definition net_ParseCIDR (s : string) : bool :=
  match split_at 47 (str s) with
  | (addr, Some mask) =>
      match parse_addr addr with
      | Some (a, []) =>
          match mask with
          | [] => false
          | _ => forallb is_digit mask && (dec_value mask <=? BitLen a)
          end
      | _ => false
      end
  | (_, None) => false
  end.

(** [strings.LastIndexByte(s, c) + 1] and what follows it; [strings.IndexAny] and what precedes it. *)
Definition after_last (c : Z) (s : bytes) : bytes :=
  match split_last c s with Some (_, b) => b | None => s end.
Definition before_any (cs s : bytes) : bytes :=
  (fix go (s : bytes) : bytes :=
     match s with
     | [] => []
     | d :: s => if has_byte d cs then [] else d :: go s
     end) s.
(** [strings.Index(s, sub)], and what follows [sub]. *)
Fixpoint after_first (sub s : bytes) : option bytes :=
  match strip_prefix sub s with
  | Some r => Some r
  | None => match s with [] => None | _ :: s => after_first sub s end
  end.

(** ** Texts once each, first occurrences in order: the loops with a [seen] map *)
Fixpoint once (seen : gset string) (l : list string) : list string :=
  match l with
  | [] => []
  | s :: l => if bool_decide (s ∈ seen) then once seen l else s :: once ({[s]} ∪ seen) l
  end.
Lemma once_elem seen l x : x ∈ once seen l <-> x ∈ l /\ (x ∉ seen).
Proof.
  revert seen. induction l as [|s l IH]; intros seen; cbn [once]; [rewrite elem_of_nil; naive_solver|].
  case_bool_decide as H.
  - rewrite IH, elem_of_cons. naive_solver.
  - rewrite !elem_of_cons, IH, not_elem_of_union, not_elem_of_singleton. destruct (decide (x = s)); naive_solver.
Qed.
Lemma once_NoDup seen l : NoDup (once seen l).
Proof.
  revert seen. induction l as [|s l IH]; intros seen; cbn [once]; [constructor|]. case_bool_decide; [done|].
  constructor; [|done]. rewrite once_elem. set_solver.
Qed.

Example fields_words : Fields (str " a  bc ") = [str "a"; str "bc"].
Proof. vm_compute. reflexivity. Qed.
Example atoi_signs : map Atoi [str "+12"; str "-007"; str "1_0"; str ""; str "9223372036854775808"] = [Some 12; Some (-7); None; None; None].
Proof. vm_compute. reflexivity. Qed.
Example cidr_shapes : map net_ParseCIDR ["10.0.0.0/08"; "10.0.0.0/33"; "10.0.0.0"; "fe80::1%eth0/64"; "::/0"] = [true; false; false; false; true].
Proof. vm_compute. reflexivity. Qed.

(** * Host and port: [net.SplitHostPort], [net.JoinHostPort] *)

Definition SplitHostPort (hostport : string) : option (string * string) :=
  let s := str hostport in
  '(before, port) ← split_last 58 s;
  match s with
  | 91 :: inner =>
      match split_at 93 inner with
      | (host, Some rest) =>
          (* the last colon follows the bracket at once *)
          if bool_decide (rest = 58 :: port) && negb (has_byte 91 host) && negb (has_byte 91 port) && negb (has_byte 93 port)
          then Some (unstr host, unstr port) else None
      | _ => None
      end
  | _ => if has_byte 58 before || has_byte 91 s || has_byte 93 s then None else Some (unstr before, unstr port)
  end.
Definition JoinHostPort (host port : string) : string :=
  if has_byte 58 (str host) then "[" +:+ host +:+ "]:" +:+ port else host +:+ ":" +:+ port.
Fixpoint drop_while (f : Z -> bool) (s : bytes) : bytes :=
  match s with [] => [] | c :: r => if f c then drop_while f r else s end.
(** [strings.Trim(host, "[]")]. *)
Definition trim_brackets (s : bytes) : bytes :=
  let f c := (c =? 91) || (c =? 93) in reverse (drop_while f (reverse (drop_while f s))).

Example host_ports : map SplitHostPort ["a:1"; "[::1]:2"; "::1"; "a"; "[a]"; "a:b:c"; ":5"; "a:"] =
  [Some ("a", "1"); Some ("::1", "2"); None; None; None; None; Some ("", "5"); Some ("a", "")].
Proof. vm_compute. reflexivity. Qed.
