(* ===== verification/GoCodec.v ===== *)
(** * Go's codecs

    [encoding/base64] with padding (the four encodings the code tries), [encoding/hex], the lines of a
    PEM block, and [time.ParseDuration], fractions through [float64] as Go computes them. *)
From stdpp Require Import gmap strings.
From S2P Require Import Prelude Util GoStrings GoText Netip AuthRecord.
Local Open Scope Z_scope.

(** ** Base64 *)
Inductive encoding := StdEncoding | RawStdEncoding | URLEncoding | RawURLEncoding.
Definition alphabet (e : encoding) : Z * Z := match e with StdEncoding | RawStdEncoding => (43, 47) | _ => (45, 95) end.
Definition padded (e : encoding) : bool := match e with StdEncoding | URLEncoding => true | _ => false end.
Fixpoint drop_pads (n : nat) (p : bytes) : bytes :=
  match n, p with S n, 61 :: p => drop_pads n p | _, _ => p end.
(** Line breaks are skipped; padding completes the last four characters and ends the text. *)
Definition DecodeString (e : encoding) (p : bytes) : option bytes :=
  let '(c62, c63) := alphabet e in
  if padded e then
    let q := filter (fun c => c <> 10 /\ c <> 13) p in
    if (length q mod 4 =? 0)%nat then vs ← mapM (b64_value c62 c63) (reverse (drop_pads 2 (reverse q))); b64_quads vs else None
  else b64_decode c62 c63 p.
Definition pad (p : bytes) : bytes := p ++ repeat 61 ((4 - length p mod 4) mod 4).
Definition EncodeToString (e : encoding) (p : bytes) : bytes :=
  let '(c62, c63) := alphabet e in let s := b64_encode c62 c63 p in if padded e then pad s else s.
(** The first of the encodings that decodes the text. *)
Fixpoint decode_any (es : list encoding) (p : bytes) : option bytes :=
  match es with [] => None | e :: es => match DecodeString e p with Some b => Some b | None => decode_any es p end end.

(** ** Hex *)
Definition is_hex_digit (c : Z) : bool := in_range 48 57 c || in_range 97 102 c || in_range 65 70 c.
Definition hex_val (c : Z) : Z := if in_range 48 57 c then c - 48 else if in_range 97 102 c then c - 87 else c - 55.
Fixpoint hex_decode (p : bytes) : bytes :=
  match p with a :: b :: p => hex_val a * 16 + hex_val b :: hex_decode p | _ => [] end.
Definition hex_encode (p : bytes) : bytes := b ← p; [hex_digit (b / 16); hex_digit (b mod 16)].

(** ** [encoding/pem]: a block ([Decode] itself is an argument where it is used) *)
Record Block := mkBlock { pem_Type : string; pem_Headers : gmap string string; pem_Bytes : bytes }.
(** [binary.BigEndian.Uint16], [Uint32]. *)
Definition be (p : bytes) : Z := foldl (fun acc c => acc * 256 + c) 0 p.

(** ** The lines of a PEM block without headers *)
Fixpoint chunks (fuel : nat) (p : bytes) : list bytes :=
  match fuel, p with
  | S fuel, _ :: _ => take 64 p :: chunks fuel (drop 64 p)
  | _, _ => []
  end.
Definition pem_lines (typ : string) (p : bytes) : list string :=
  let body := EncodeToString StdEncoding p in
  ("-----BEGIN " +:+ typ +:+ "-----") :: (unstr <$> chunks (length body) body) ++ ["-----END " +:+ typ +:+ "-----"].

(** ** [time.ParseDuration] *)
Definition two63 : Z := 2 ^ 63.
Fixpoint leadingInt (x : Z) (s : bytes) : option (Z * bytes) :=
  match s with
  | c :: r =>
      if is_digit c then
        if two63 / 10 <? x then None
        else let x := x * 10 + (c - 48) in if two63 <? x then None else leadingInt x r
      else Some (x, s)
  | [] => Some (x, s)
  end.
Fixpoint leadingFraction (x : Z) (scale : f64) (overflow : bool) (s : bytes) : Z * f64 * bytes :=
  match s with
  | c :: r =>
      if is_digit c then
        if overflow || ((two63 - 1) / 10 <? x) then leadingFraction x scale true r
        else let y := x * 10 + (c - 48) in
             if two63 <? y then leadingFraction x scale true r else leadingFraction y (f64_mul scale (f64_of_int64 10)) false r
      else (x, scale, s)
  | [] => (x, scale, s)
  end.
Definition unitMap (u : bytes) : option Z :=
  if bool_decide (u = str "ns") then Some 1
  else if bool_decide (u = str "us") || bool_decide (u = [0xC2; 0xB5; 115]) || bool_decide (u = [0xCE; 0xBC; 115]) then Some 1000
  else if bool_decide (u = str "ms") then Some 1000000
  else if bool_decide (u = str "s") then Some 1000000000
  else if bool_decide (u = str "m") then Some 60000000000
  else if bool_decide (u = str "h") then Some 3600000000000 else None.
Fixpoint take_unit (s : bytes) : bytes * bytes :=
  match s with
  | c :: r => if (c =? 46) || is_digit c then ([], s) else let '(u, r) := take_unit r in (c :: u, r)
  | [] => ([], [])
  end.
(** One number with its unit. *)
Definition duration_part (d : Z) (s : bytes) : option (Z * bytes) :=
  match s with
  | c :: _ =>
      if negb ((c =? 46) || is_digit c) then None
      else
        '(v, s1) ← leadingInt 0 s;
        let pre := negb (length s =? length s1)%nat in
        let '(f, scale, s2, post) :=
          match s1 with
          | 46 :: s2 => let '(f, scale, s3) := leadingFraction 0 (f64_of_int64 1) false s2 in
                        (f, scale, s3, negb (length s2 =? length s3)%nat)
          | _ => (0, f64_of_int64 1, s1, false)
          end in
        if negb pre && negb post then None
        else
          let '(u, s3) := take_unit s2 in
          unit ← unitMap u;
          if two63 / unit <? v then None
          else
            let v := v * unit + (if 0 <? f then f64_trunc (f64_mul (f64_of_int64 f) (f64_div (f64_of_int64 unit) scale)) else 0) in
            if (two63 <? v) || (two63 <? d + v) then None else Some (d + v, s3)
  | [] => None
  end.
Fixpoint duration_parts (fuel : nat) (d : Z) (s : bytes) : option Z :=
  match s with
  | [] => Some d
  | _ => match fuel with O => None | S fuel => '(d, s) ← duration_part d s; duration_parts fuel d s end
  end.
Definition ParseDuration (t : string) : option Z :=
  let s := str t in
  let '(neg, s) := match s with c :: r => if c =? 45 then (true, r) else if c =? 43 then (false, r) else (false, s) | [] => (false, s) end in
  if bool_decide (s = [48]) then Some 0
  else match s with
       | [] => None
       | _ =>
           d ← duration_parts (length s) 0 s;
           if (neg : bool) then Some (- d) else if two63 - 1 <? d then None else Some d
       end.

(** ** Facts *)
Lemma b64_value_range c v : b64_value 43 47 c = Some v -> 0 <= v < 64.
Proof. unfold b64_value, in_range. repeat case_match; intros [= <-]; rewrite ?andb_true_iff in *; lia. Qed.
Lemma quads_bytes vs : forall p, Forall (fun v => 0 <= v < 64) vs -> b64_quads vs = Some p -> Forall is_byte p.
Proof.
  induction vs as [vs IH] using (induction_ltof1 _ length). intros p H.
  unfold is_byte in *. destruct vs as [|v [|w [|x [|y vs]]]]; cbn [b64_quads]; rewrite ?Forall_cons in H; try done;
    [intros [= <-]; done|intros [= <-]; repeat constructor; Z.to_euclidean_division_equations; lia..|].
  destruct (b64_quads vs) as [r|] eqn:E; [|done]. intros [= <-]. destruct H as (?&?&?&?&H).
  apply IH in E; [|unfold ltof; cbn; lia|done]. repeat (constructor; [Z.to_euclidean_division_equations; lia|]). done.
Qed.
Lemma values_range l vs : mapM (b64_value 43 47) l = Some vs -> Forall (fun v => 0 <= v < 64) vs.
Proof.
  revert vs. induction l as [|c l IH]; intros vs; cbn; [by intros [= <-]|].
  destruct (b64_value 43 47 c) as [v|] eqn:E; [|done]. cbn. destruct (mapM _ l) as [ws|]; [|done]. intros [= <-].
  constructor; [by eapply b64_value_range|by apply IH].
Qed.
Lemma Std_decode_bytes p b : DecodeString StdEncoding p = Some b -> Forall is_byte b.
Proof.
  unfold DecodeString. cbn [alphabet padded]. case_match; [|done]. destruct (mapM _ _) as [vs|] eqn:E; [|done]. cbn.
  apply quads_bytes. by eapply values_range.
Qed.
Lemma b64_digit_visible i : 0 <= i < 64 -> visible (b64_digit 43 47 i) /\ b64_digit 43 47 i <> 61.
Proof.
  intros H. assert (exists k, (k < 64)%nat /\ i = Z.of_nat k) as (k & Hk & ->) by (exists (Z.to_nat i); lia).
  unfold visible. do 64 (destruct k as [|k]; [vm_compute; split; [split|]; done|]). lia.
Qed.
Lemma sextets_length p : length (sextets p) = ((4 * length p + 2) / 3)%nat.
Proof.
  induction p as [|a|a b|a b c p IH] using bytes_ind3; try done. cbn [sextets length]. rewrite IH.
  replace (4 * S (S (S (length p))) + 2)%nat with (4 * length p + 2 + 4 * 3)%nat by lia. rewrite Nat.div_add; lia.
Qed.
(** The encoder's text: digits, then one or two pads to a multiple of four. *)
Lemma Std_encode_shape p : Forall is_byte p -> exists ds, EncodeToString StdEncoding p = map (b64_digit 43 47) (sextets p) ++ ds /\
  (ds = [] \/ ds = [61] \/ ds = [61; 61]) /\ (length (EncodeToString StdEncoding p) mod 4 = 0)%nat.
Proof.
  intros H. unfold EncodeToString. cbn [alphabet padded]. change (b64_encode 43 47 p) with (RawStd_encode p). rewrite encode_sextets. unfold pad.
  eexists. split; [done|]. rewrite length_app, length_map, repeat_length, sextets_length.
  set (n := ((4 * length p + 2) / 3)%nat). assert (Hn : (n mod 4 <> 1)%nat).
  { subst n. generalize (length p). intros k. pose proof (Nat.div_mod_eq (4 * k + 2) 3). pose proof (Nat.mod_upper_bound (4 * k + 2) 3).
    intros E. pose proof (Nat.div_mod_eq ((4 * k + 2) / 3) 4). lia. }
  pose proof (Nat.mod_upper_bound n 4). pose proof (Nat.div_mod_eq n 4). remember (n mod 4)%nat as m.
  destruct m as [|[|[|[|m]]]]; [..|lia]; try done; (split; [cbn; auto|]).
  - change ((4 - 0) mod 4)%nat with 0%nat. replace (n + 0)%nat with (n / 4 * 4)%nat by lia. by apply Nat.Div0.mod_mul.
  - change ((4 - 2) mod 4)%nat with 2%nat. replace (n + 2)%nat with ((n / 4 + 1) * 4)%nat by lia. by apply Nat.Div0.mod_mul.
  - change ((4 - 3) mod 4)%nat with 1%nat. replace (n + 1)%nat with ((n / 4 + 1) * 4)%nat by lia. by apply Nat.Div0.mod_mul.
Qed.
Lemma drop_pads_stop n p : (forall c q, p = c :: q -> c <> 61) -> drop_pads n p = p.
Proof. intros H. destruct n, p as [|c p]; try done. cbn [drop_pads]. specialize (H c p eq_refl). destruct c; try done. repeat (case_match; try done). Qed.
Lemma Std_round_trip p : Forall is_byte p -> DecodeString StdEncoding (EncodeToString StdEncoding p) = Some p.
Proof.
  intros H. destruct (Std_encode_shape p H) as (ds & E & Hds & Hmod). unfold DecodeString. cbn [alphabet padded].
  pose proof (sextets_range p H) as Hr. destruct (decode_digits _ Hr) as [Hv _].
  assert (Hg : filter (fun c => c <> 10 /\ c <> 13) (map (b64_digit 43 47) (sextets p)) = map (b64_digit 43 47) (sextets p)).
  { clear -Hr. induction Hr as [|v vs Hv _ IH]; [done|].
    cbn [map]. destruct (b64_value_digit v Hv) as (_ & ? & ? & _). by rewrite filter_cons, decide_True, IH. }
  assert (Hf : filter (fun c => c <> 10 /\ c <> 13) (EncodeToString StdEncoding p) = EncodeToString StdEncoding p).
  { rewrite E, filter_app, Hg. f_equal. by destruct Hds as [->|[->| ->]]. }
  rewrite Hf, Hmod. cbn [Nat.eqb].
  assert (Hd : drop_pads 2 (reverse (EncodeToString StdEncoding p)) = reverse (map (b64_digit 43 47) (sextets p))).
  { rewrite E, reverse_app. set (r := reverse (map _ _)).
    assert (Hs : forall n, drop_pads n r = r).
    { intros n. apply drop_pads_stop. intros c q Er. assert (c ∈ map (b64_digit 43 47) (sextets p)) as Hc.
      { apply elem_of_reverse. fold r. rewrite Er. apply list_elem_of_here. }
      apply list_elem_of_fmap in Hc as (v & -> & Hv'). rewrite Forall_forall in Hr. by apply b64_digit_visible, Hr. }
    destruct Hds as [->|[->| ->]]; [change (drop_pads 2 r = r)|change (drop_pads 1 r = r)|change (drop_pads 0 r = r)]; apply Hs. }
  rewrite Hd, reverse_involutive. rewrite Hg in Hv. rewrite Hv. cbn. by apply quads_sextets.
Qed.

Lemma hex_encode_cons b p : hex_encode (b :: p) = hex_digit (b / 16) :: hex_digit (b mod 16) :: hex_encode p.
Proof. done. Qed.
Lemma hex_digit_facts i : 0 <= i < 16 -> is_hex_digit (hex_digit i) = true /\ hex_val (hex_digit i) = i /\ visible (hex_digit i) /\ hex_digit i <> 58 /\ hex_digit i <> 45.
Proof.
  intros H. assert (exists k, (k < 16)%nat /\ i = Z.of_nat k) as (k & Hk & ->) by (exists (Z.to_nat i); lia).
  unfold visible. do 16 (destruct k as [|k]; [vm_compute; repeat split; done|]). lia.
Qed.
Lemma hex_encode_facts p : Forall is_byte p ->
  hex_decode (hex_encode p) = p /\ length (hex_encode p) = (2 * length p)%nat /\ Forall (fun c => is_hex_digit c = true /\ visible c /\ c <> 58 /\ c <> 45) (hex_encode p).
Proof.
  induction 1 as [|b p Hb _ (IH1 & IH2 & IH3)]; [by repeat split|]. rewrite hex_encode_cons. unfold is_byte in Hb.
  destruct (hex_digit_facts (b / 16)) as (? & Hh & ? & ? & ?); [Z.to_euclidean_division_equations; lia|].
  destruct (hex_digit_facts (b mod 16)) as (? & Hl & ? & ? & ?); [Z.to_euclidean_division_equations; lia|].
  cbn [hex_decode length]. rewrite IH1, IH2, Hh, Hl. split_and!; [f_equal; Z.to_euclidean_division_equations; lia|lia|]. constructor; [by split_and!|]. constructor; [by split_and!|done].
Qed.
Lemma hex_decode_bytes p : Forall (fun c => is_hex_digit c = true) p -> Forall is_byte (hex_decode p) /\ length (hex_decode p) = (length p / 2)%nat.
Proof.
  induction p as [p IH] using (induction_ltof1 _ length). intros H.
  destruct p as [|a [|b p]]; [by split|by split|]. rewrite !Forall_cons in H. destruct H as (Ha & Hb & H). cbn [hex_decode].
  destruct (IH p) as [I1 I2]; [unfold ltof; cbn; lia|done|]. split.
  - constructor; [|done]. unfold is_hex_digit, hex_val, in_range, is_byte in *. repeat case_match; rewrite ?andb_true_iff, ?orb_true_iff, ?andb_false_iff in *; lia.
  - cbn [length]. rewrite I2. replace (S (S (length p))) with (length p + 1 * 2)%nat by lia. rewrite Nat.div_add; lia.
Qed.

Example durations : map ParseDuration ["10s"; "1h2m3s"; "1.5s"; "-5s"; "0"; "10"; "1d"; ""; ".5ms"; "9223372036854775808ns"; "-9223372036854775808ns"; "1s2"] =
  [Some 10000000000; Some 3723000000000; Some 1500000000; Some (-5000000000); Some 0; None; None; None; Some 500000; None; Some (-9223372036854775808); None].
Proof. vm_compute. reflexivity. Qed.
Example padded_decodes : map (fun s => DecodeString StdEncoding (str s)) ["aGk="; "aGk"; "aGkh"; "aA=="; "a==="; "aGk=x"] =
  [Some (str "hi"); None; Some (str "hi!"); Some [104]; None; None].
Proof. vm_compute. reflexivity. Qed.
Example padded_encodes : map (fun s => unstr (EncodeToString StdEncoding (str s))) [""; "h"; "hi"; "hi!"] = [""; "aA=="; "aGk="; "aGkh"].
Proof. vm_compute. reflexivity. Qed.
