(* ===== verification/Netlink.v ===== *)
(** * Conntrack over netlink: the wire format

    Models [src/internal/ctflush/nlmsg.go] and the receive loops of [sock_linux.go]: encoding a
    request, parsing attributes and entries, walking a receive buffer, deleting one entry. The host's
    byte order is an argument; the socket is the list of buffers it returns. *)
From S2P Require Import Prelude QrField Netip.
Local Open Scope Z_scope.

Definition nlmsgHdrLen : nat := 16.
Definition nfgenHdrLen : nat := 4.
Definition nlaHdrLen : nat := 4.
Definition nlmsgError : Z := 2.
Definition nlmsgDone : Z := 3.
Definition nlaTypeMask : Z := 16383.
Definition nfnlSubsysCT : Z := 1.
Definition ctMsgNew : Z := 0.
Definition ctMsgGet : Z := 1.
Definition ctMsgDelete : Z := 2.
Definition nlmFRequest : Z := 1.
Definition nlmFAck : Z := 4.
Definition nlmFDump : Z := 768.
Definition ctaTupleOrig : Z := 1.
Definition ctaMark : Z := 8.
Definition ctaID : Z := 12.
Definition ctaZone : Z := 18.
Definition ctaTupleIP : Z := 1.
Definition ctaIPv4Src : Z := 1.
Definition ctaIPv4Dst : Z := 2.
Definition ctaIPv6Src : Z := 3.
Definition ctaIPv6Dst : Z := 4.
Definition enoent : Z := 2.

(** [(n + 3) &^ 3]. *)
Definition nlAlign (n : nat) : nat := ((n + 3) / 4 * 4)%nat.

(** Big-endian value of a byte string. *)
Definition big (b : list Z) : Z := foldl (fun acc x => acc * 256 + x) 0 b.

Record Entry := mkEntry {
  Family : Z; Src : Addr; Dst : Addr; Mark : Z;
  tuple : list Z; zone : list Z; id_ : list Z     (* raw attributes; [] is nil *)
}.
#[export] Instance eta_entry : Eta Entry := fun e =>
  mkEntry (Family e) (Src e) (Dst e) (Mark e) (tuple e) (zone e) (id_ e).
#[export] Instance Entry_eq_dec : EqDecision Entry.
Proof. solve_decision. Defined.

Record nlAttr := mkAttr { typ : Z; payload : list Z; raw : list Z }.

Section wire.
Context (little : bool).   (* binary.NativeEndian *)

Definition order (b : list Z) : list Z := if little then b else rev b.
Definition put16 (v : Z) : list Z := order [v mod 256; v / 256 mod 256].
Definition put32 (v : Z) : list Z :=
  order [v mod 256; v / 256 mod 256; v / 65536 mod 256; v / 16777216 mod 256].
Definition get (n : nat) (b : list Z) : Z := big (rev (order (take n b))).
Definition get16 (b : list Z) : Z := get 2 b.
Definition get32 (b : list Z) : Z := get 4 b.

(** ** Requests *)
Definition pad (a : list Z) : list Z := a ++ replicate (nlAlign (length a) - length a) 0.
Definition encodeRequest (msgType flags seq family : Z) (attrs : list (list Z)) : list Z :=
  let n := (nlmsgHdrLen + nfgenHdrLen + sum_list (map (fun a => nlAlign (length a)) attrs))%nat in
  put32 (Z.of_nat n mod 2 ^ 32) ++ put16 (Z.lor (Z.shiftl nfnlSubsysCT 8) msgType) ++ put16 flags ++
  put32 seq ++ [0; 0; 0; 0] ++ [family; 0; 0; 0] ++ concat (map pad attrs).

Definition dumpRequest (seq family : Z) : list Z :=
  encodeRequest ctMsgGet (Z.lor nlmFRequest nlmFDump) seq family [].

Definition deleteRequest (seq : Z) (e : Entry) : option (list Z) :=
  if (length (tuple e) <=? nlaHdrLen)%nat || negb (get16 (tuple e) =? Z.of_nat (length (tuple e)))
     || negb (Z.land (get16 (drop 2 (tuple e))) nlaTypeMask =? ctaTupleOrig)
  then None
  else
    let attrs := [tuple e] in
    let attrs := if (0 <? length (id_ e))%nat then attrs ++ [id_ e] else attrs in
    let attrs := if (0 <? length (zone e))%nat then attrs ++ [zone e] else attrs in
    Some (encodeRequest ctMsgDelete (Z.lor nlmFRequest nlmFAck) seq (Family e) attrs).

(** ** Attributes and entries *)
Fixpoint parse_from (fuel : nat) (b : list Z) : option (list nlAttr) :=
  match fuel with
  | O => None
  | S fuel =>
      if (length b <? nlaHdrLen)%nat then Some []
      else
        let l := Z.to_nat (get16 b) in
        if (l <? nlaHdrLen)%nat || (length b <? l)%nat then None
        else
          let a := mkAttr (Z.land (get16 (drop 2 b)) nlaTypeMask) (drop nlaHdrLen (take l b)) (take l b) in
          let b := if (nlAlign l <? length b)%nat then drop (nlAlign l) b else [] in
          out ← parse_from fuel b; Some (a :: out)
  end.
Definition parseAttrs (b : list Z) : option (list nlAttr) := parse_from (S (length b)) b.

Definition set_ip (e : Entry) (ip : nlAttr) : Entry :=
  let n := length (payload ip) in
  if (typ ip =? ctaIPv4Src) && (n =? 4)%nat then e <| Src := Addr4 (big (payload ip)) |>
  else if (typ ip =? ctaIPv6Src) && (n =? 16)%nat then e <| Src := Addr16 (big (payload ip)) |>
  else if (typ ip =? ctaIPv4Dst) && (n =? 4)%nat then e <| Dst := Addr4 (big (payload ip)) |>
  else if (typ ip =? ctaIPv6Dst) && (n =? 16)%nat then e <| Dst := Addr16 (big (payload ip)) |>
  else e.

Fixpoint set_tuple (e : Entry) (inner : list nlAttr) : option Entry :=
  match inner with
  | [] => Some e
  | t :: inner =>
      if negb (typ t =? ctaTupleIP) then set_tuple e inner
      else ips ← parseAttrs (payload t); set_tuple (foldl set_ip e ips) inner
  end.

Definition set_attr (e : Entry) (a : nlAttr) : option Entry :=
  if typ a =? ctaTupleOrig then
    inner ← parseAttrs (payload a); set_tuple (e <| tuple := raw a |>) inner
  else if typ a =? ctaMark then
    Some (if (length (payload a) =? 4)%nat then e <| Mark := big (payload a) |> else e)
  else if typ a =? ctaZone then Some (e <| zone := raw a |>)
  else if typ a =? ctaID then
    Some (if (length (payload a) =? 4)%nat then e <| id_ := raw a |> else e)
  else Some e.

Fixpoint set_attrs (e : Entry) (attrs : list nlAttr) : option Entry :=
  match attrs with
  | [] => Some e
  | a :: attrs => e ← set_attr e a; set_attrs e attrs
  end.

Definition no_entry (family : Z) : Entry := mkEntry family NoAddr NoAddr 0 [] [] [].
Definition parseEntry (family : Z) (p : list Z) : option Entry :=
  if (length p <? nfgenHdrLen)%nat then None
  else
    attrs ← parseAttrs (drop nfgenHdrLen p);
    e ← set_attrs (no_entry family) attrs;
    if (length (tuple e) =? 0)%nat then None else Some e.

(** ** One receive buffer

    What [readMessages] reports: complete, with the kernel's errno; an error of its own; or nothing
    final yet. *)
Inductive verdict := Complete (errno : Z) | Malformed | More.
Definition to_int32 (u : Z) : Z := (u + 2 ^ 31) mod 2 ^ 32 - 2 ^ 31.

Fixpoint read_from (fuel : nat) (buf : list Z) (family seq : Z) : list Entry * verdict :=
  match fuel with
  | O => ([], Malformed)
  | S fuel =>
      if (length buf <? nlmsgHdrLen)%nat then ([], More)
      else
        let l := Z.to_nat (get32 buf) in
        if (l <? nlmsgHdrLen)%nat || (length buf <? l)%nat then ([], Malformed)
        else
          let t := get16 (drop 4 buf) in
          let p := drop nlmsgHdrLen (take l buf) in
          let next := if (nlAlign l <? length buf)%nat then drop (nlAlign l) buf else [] in
          if get32 (drop 8 buf) =? seq then
            if t =? nlmsgDone then ([], Complete 0)
            else if t =? nlmsgError then
              if (length p <? 4)%nat then ([], Malformed) else ([], Complete (to_int32 (get32 p)))
            else if t =? Z.lor (Z.shiftl nfnlSubsysCT 8) ctMsgNew then
              let '(es, v) := read_from fuel next family seq in
              (match parseEntry family p with Some e => e :: es | None => es end, v)
            else read_from fuel next family seq
          else read_from fuel next family seq
  end.
Definition readMessages (buf : list Z) (family seq : Z) : list Entry * verdict :=
  read_from (S (length buf)) buf family seq.

(** ** The receive loops: the socket returns these buffers, then fails *)
Inductive dump_result := DumpDone | DumpErrno (errno : Z) | DumpFailed.
Fixpoint dump_loop (bufs : list (list Z)) (family seq : Z) : list Entry * dump_result :=
  match bufs with
  | [] => ([], DumpFailed)
  | b :: bufs =>
      match readMessages b family seq with
      | (es, Malformed) => (es, DumpFailed)
      | (es, Complete errno) => (es, if errno =? 0 then DumpDone else DumpErrno errno)
      | (es, More) => let '(es', r) := dump_loop bufs family seq in (es ++ es', r)
      end
  end.

Inductive delete_result := Deleted_ | NoEntry | DeleteErrno (errno : Z) | DeleteFailed.
Fixpoint delete_loop (bufs : list (list Z)) (family seq : Z) : delete_result :=
  match bufs with
  | [] => DeleteFailed
  | b :: bufs =>
      match (readMessages b family seq).2 with
      | Malformed => DeleteFailed
      | More => delete_loop bufs family seq
      | Complete errno =>
          if errno =? - enoent then NoEntry else if errno =? 0 then Deleted_ else DeleteErrno errno
      end
  end.

(** ** Numbers on the wire *)
Lemma order_order b : order (order b) = b.
Proof. unfold order. destruct little; [done|apply rev_involutive]. Qed.
Lemma order_length b : length (order b) = length b.
Proof. unfold order. destruct little; [done|apply length_rev]. Qed.
Lemma get_order n b rest : length b = n -> get n (order b ++ rest) = big (rev b).
Proof.
  intros Hl. unfold get. rewrite take_app_length' by (by rewrite order_length). by rewrite order_order.
Qed.
Lemma get_app n b rest : (n <= length b)%nat -> get n (b ++ rest) = get n b.
Proof. intros Hl. unfold get. by rewrite take_app_le. Qed.
Lemma get_take n l b : (n <= l)%nat -> get n (take l b) = get n b.
Proof. intros Hl. unfold get. rewrite take_take. by rewrite Nat.min_l. Qed.
Lemma get16_put v rest : 0 <= v < 65536 -> get16 (put16 v ++ rest) = v.
Proof. intros Hv. unfold get16, put16. rewrite get_order by done. unfold big. cbn [rev app foldl].
  Z.to_euclidean_division_equations. lia. Qed.
Lemma get32_put v rest : 0 <= v < 2 ^ 32 -> get32 (put32 v ++ rest) = v.
Proof. intros Hv. unfold get32, put32. rewrite get_order by done. unfold big. cbn [rev app foldl].
  Z.to_euclidean_division_equations. lia. Qed.
Lemma put16_length v : length (put16 v) = 2%nat.
Proof. unfold put16. by rewrite order_length. Qed.
Lemma put32_length v : length (put32 v) = 4%nat.
Proof. unfold put32. by rewrite order_length. Qed.

Lemma big_bound b : Forall is_byte b -> 0 <= big b < 256 ^ Z.of_nat (length b).
Proof.
  unfold big. induction b as [|x b IH] using rev_ind; intros Hb; [simpl; lia|].
  apply Forall_app in Hb as [Hb Hx]. apply Forall_cons in Hx as [Hx _]. specialize (IH Hb).
  rewrite foldl_app, length_app, Nat.add_1_r, Nat2Z.inj_succ, Z.pow_succ_r by lia. unfold is_byte in Hx.
  cbn [foldl]. nia.
Qed.
Lemma get16_bound b : Forall is_byte b -> 0 <= get16 b < 65536.
Proof.
  intros Hb. unfold get16, get. assert (H : Forall is_byte (rev (order (take 2 b)))).
  { apply Forall_rev. unfold order. assert (Forall is_byte (take 2 b)) by (by apply Forall_take).
    destruct little; [done|by apply Forall_rev]. }
  apply big_bound in H. rewrite length_rev, order_length, length_take in H.
  assert (256 ^ Z.of_nat (Nat.min 2 (length b)) <= 256 ^ 2) by (apply Z.pow_le_mono_r; lia). lia.
Qed.

Lemma nlAlign_bounds n : (n <= nlAlign n < n + 4)%nat.
Proof. unfold nlAlign. pose proof (Nat.div_mod_eq (n + 3) 4). pose proof (Nat.mod_upper_bound (n + 3) 4). lia. Qed.
Lemma pad_length a : length (pad a) = nlAlign (length a).
Proof. unfold pad. rewrite length_app, length_replicate. pose proof (nlAlign_bounds (length a)). lia. Qed.

(** ** Attributes *)
Definition attr_of (a : list Z) : nlAttr :=
  mkAttr (Z.land (get16 (drop 2 a)) nlaTypeMask) (drop nlaHdrLen a) a.
Definition wf_raw (a : list Z) : Prop :=
  (nlaHdrLen <= length a)%nat /\ get16 a = Z.of_nat (length a) /\ Forall is_byte a.

(** The rest of the buffer after an item of length [l]. *)
Definition after (l : nat) (b : list Z) : list Z := if (nlAlign l <? length b)%nat then drop (nlAlign l) b else [].
Lemma after_length l b : (0 < l)%nat -> (l <= length b)%nat -> (length (after l b) < length b)%nat.
Proof.
  intros H0 Hl. unfold after. pose proof (nlAlign_bounds l). case_match; [rewrite length_drop; lia|simpl; lia].
Qed.
Lemma after_pad a rest : after (length a) (pad a ++ rest) = rest.
Proof.
  unfold after. rewrite length_app, pad_length. destruct (Nat.ltb_spec (nlAlign (length a)) (nlAlign (length a) + length rest)).
  - rewrite drop_app_length'; [done|by rewrite pad_length].
  - destruct rest; [done|simpl in *; lia].
Qed.

Lemma parse_fuel f1 : forall f2 b, (length b < f1)%nat -> (length b < f2)%nat -> parse_from f1 b = parse_from f2 b.
Proof.
  induction f1 as [|f1 IH]; intros [|f2] b H1 H2; try lia. cbn [parse_from].
  destruct (Nat.ltb_spec (length b) nlaHdrLen) as [|Hlen]; [done|].
  destruct ((Z.to_nat (get16 b) <? nlaHdrLen)%nat || (length b <? Z.to_nat (get16 b))%nat) eqn:E; [done|].
  unfold nlaHdrLen in *. bool_facts. pose proof (after_length (Z.to_nat (get16 b)) b ltac:(lia) ltac:(lia)) as Ha.
  unfold after in Ha. by rewrite (IH f2) by lia.
Qed.

Lemma parse_cons a rest : wf_raw a -> parseAttrs (pad a ++ rest) = cons (attr_of a) <$> parseAttrs rest.
Proof.
  intros (Hl & Hg & Hb). unfold parseAttrs at 1. cbn [parse_from].
  pose proof (nlAlign_bounds (length a)) as Hal.
  assert (Hlen : length (pad a ++ rest) = (nlAlign (length a) + length rest)%nat) by (by rewrite length_app, pad_length).
  unfold nlaHdrLen in *. destruct (Nat.ltb_spec (length (pad a ++ rest)) 4); [lia|].
  assert (E16 : get16 (pad a ++ rest) = Z.of_nat (length a)).
  { unfold pad, get16. rewrite <- app_assoc, get_app by lia. exact Hg. }
  rewrite E16, Nat2Z.id. destruct (Nat.ltb_spec (length a) 4), (Nat.ltb_spec (length (pad a ++ rest)) (length a));
    try lia. cbn [orb].
  assert (Etk : take (length a) (pad a ++ rest) = a) by (unfold pad; by rewrite <- app_assoc, take_app_length).
  assert (Ety : get16 (drop 2 (pad a ++ rest)) = get16 (drop 2 a)).
  { unfold pad, get16. rewrite <- app_assoc, drop_app_le by lia. apply get_app. rewrite length_drop. lia. }
  rewrite Etk, Ety. pose proof (after_pad a rest) as Hap. unfold after in Hap. rewrite Hap.
  unfold parseAttrs. rewrite (parse_fuel (length (pad a ++ rest)) (S (length rest))) by lia.
  by destruct (parse_from (S (length rest)) rest).
Qed.
Lemma parse_raws l : Forall wf_raw l -> parseAttrs (concat (map pad l)) = Some (map attr_of l).
Proof.
  induction 1 as [|a l Ha Hl IH]; [done|]. cbn [map concat]. by rewrite parse_cons, IH.
Qed.

(** What parsing yields: well-formed raw attributes, each read off its raw bytes. *)
Lemma parse_wf f : forall b l, Forall is_byte b -> parse_from f b = Some l ->
  Forall (fun a => wf_raw (raw a) /\ a = attr_of (raw a)) l.
Proof.
  induction f as [|f IH]; intros b l Hb H; [done|]. cbn [parse_from] in H. unfold nlaHdrLen in *.
  destruct (Nat.ltb_spec (length b) 4) as [|Hlen]; [by injection H as <-|].
  destruct ((Z.to_nat (get16 b) <? 4)%nat || (length b <? Z.to_nat (get16 b))%nat) eqn:E; [done|].
  set (n := Z.to_nat (get16 b)) in *. bool_facts.
  destruct (parse_from f _) as [out|] eqn:Ep; [|done]. injection H as <-.
  assert (Hn : get16 b = Z.of_nat n) by (pose proof (get16_bound b Hb); lia).
  assert (Hln : length (take n b) = n) by (rewrite length_take; lia).
  constructor.
  - cbn [raw]. split.
    + split_and!; [unfold nlaHdrLen; lia| |by apply Forall_take].
      rewrite Hln, <- Hn. unfold get16. apply get_take. lia.
    + unfold attr_of. do 2 f_equal. rewrite skipn_firstn_comm. unfold get16. symmetry. apply get_take. lia.
  - eapply IH; [|exact Ep]. case_match; [by apply Forall_drop|done].
Qed.

(** ** A parsed entry can be sent back

    The raw attributes an entry keeps: the tuple that parsed, the id and the zone. *)
Definition kept (t : Z) (a : list Z) : Prop := a = [] \/ (wf_raw a /\ typ (attr_of a) = t).
Definition parsed (e : Entry) : Prop :=
  kept ctaTupleOrig (tuple e) /\ kept ctaID (id_ e) /\ kept ctaZone (zone e) /\
  (id_ e = [] \/ length (payload (attr_of (id_ e))) = 4%nat) /\
  (tuple e = [] \/ exists inner e1 e2, parseAttrs (payload (attr_of (tuple e))) = Some inner /\ set_tuple e1 inner = Some e2).

Definition same_raws (e e' : Entry) : Prop :=
  tuple e' = tuple e /\ id_ e' = id_ e /\ zone e' = zone e /\ Family e' = Family e.
Lemma same_raws_trans e1 e2 e3 : same_raws e1 e2 -> same_raws e2 e3 -> same_raws e1 e3.
Proof. unfold same_raws. intuition congruence. Qed.
Lemma set_ip_raws e ip : same_raws e (set_ip e ip).
Proof. unfold set_ip. repeat case_match; done. Qed.
Lemma set_ips_raws ips e : same_raws e (foldl set_ip e ips).
Proof.
  revert e. induction ips as [|ip ips IH]; intros e; [done|]. cbn [foldl].
  eapply same_raws_trans; [apply set_ip_raws|apply IH].
Qed.
(** Whether a tuple's addresses parse does not depend on the entry. *)
Lemma set_tuple_raws inner e1 e2 : set_tuple e1 inner = Some e2 -> same_raws e1 e2.
Proof.
  revert e1. induction inner as [|t inner IH]; intros e1 H; cbn [set_tuple] in H; [by injection H as <-|].
  destruct (negb _); [by apply IH|]. destruct (parseAttrs (payload t)) as [ips|]; [|done].
  eapply same_raws_trans; [apply set_ips_raws|by apply IH].
Qed.
Lemma set_tuple_any inner e1 e2 e : set_tuple e1 inner = Some e2 -> exists e', set_tuple e inner = Some e'.
Proof.
  revert e1 e. induction inner as [|t inner IH]; intros e1 e H; cbn [set_tuple] in *; [by exists e|].
  destruct (negb _); [by eapply IH|]. destruct (parseAttrs (payload t)) as [ips|]; [|done]. by eapply IH.
Qed.

Lemma set_attr_parsed e a e' : wf_raw (raw a) -> a = attr_of (raw a) -> parsed e ->
  set_attr e a = Some e' -> parsed e' /\ Family e' = Family e.
Proof.
  intros Hwf Ha (H1 & H2 & H3 & H4 & H5) H. unfold set_attr in H.
  destruct (Z.eqb_spec (typ a) ctaTupleOrig) as [Et|_].
  { destruct (parseAttrs (payload a)) as [inner|] eqn:Ei; [|done]. cbn [mbind option_bind] in H.
    pose proof H as (Rt & Ri & Rz & Rf)%set_tuple_raws. cbn [tuple id_ zone Family set_field] in *.
    split; [|done]. split_and!; rewrite ?Rt, ?Ri, ?Rz; [right; split; [done|by rewrite <- Ha]|done..|].
    right. exists inner, (e <| tuple := raw a |>), e'. split; [|done]. by rewrite <- Ha. }
  destruct (typ a =? ctaMark); [injection H as <-; by case_match|].
  destruct (Z.eqb_spec (typ a) ctaZone) as [Ez|_].
  { injection H as <-. split; [|done]. split_and!; try done. right. cbn [zone set_field]. split; [done|by rewrite <- Ha]. }
  destruct (Z.eqb_spec (typ a) ctaID) as [Ei|_]; [|by injection H as <-].
  destruct (Nat.eqb_spec (length (payload a)) 4) as [El|_]; injection H as <-; [|by split].
  split; [|done]. split_and!; try done; right; cbn [id_ set_field]; [split; [done|by rewrite <- Ha]|by rewrite <- Ha].
Qed.
Lemma set_attrs_parsed l e e' : Forall (fun a => wf_raw (raw a) /\ a = attr_of (raw a)) l -> parsed e ->
  set_attrs e l = Some e' -> parsed e' /\ Family e' = Family e.
Proof.
  intros Hl. revert e. induction Hl as [|a l [Hw Ha] Hl IH]; intros e He H; cbn [set_attrs] in H;
    [by injection H as <-|]. destruct (set_attr e a) as [e1|] eqn:E; [|done]. cbn [mbind option_bind] in H.
  destruct (set_attr_parsed e a e1 Hw Ha He E) as [P1 F1]. destruct (IH e1 P1 H) as [P2 F2]. split; [done|congruence].
Qed.
Lemma parseEntry_parsed family p e : Forall is_byte p -> parseEntry family p = Some e ->
  parsed e /\ Family e = family /\ tuple e <> [].
Proof.
  intros Hp H. unfold parseEntry in H. destruct (length p <? nfgenHdrLen)%nat; [done|].
  destruct (parseAttrs (drop nfgenHdrLen p)) as [l|] eqn:El; [|done]. cbn [mbind option_bind] in H.
  destruct (set_attrs (no_entry family) l) as [e1|] eqn:Es; [|done]. cbn [mbind option_bind] in H.
  destruct (Nat.eqb_spec (length (tuple e1)) 0) as [|Hne]; [done|]. injection H as <-.
  assert (Hl : Forall (fun a => wf_raw (raw a) /\ a = attr_of (raw a)) l)
    by (eapply parse_wf; [|exact El]; by apply Forall_drop).
  assert (H0 : parsed (no_entry family)) by (unfold parsed, kept; simpl; split_and!; by left).
  destruct (set_attrs_parsed l _ _ Hl H0 Es) as [P F]. split_and!; [done|done|].
  intros E. by rewrite E in Hne.
Qed.

(** The attributes a delete carries. *)
Definition optional (a : list Z) : list (list Z) := if (0 <? length a)%nat then [a] else [].
Definition delete_attrs (e : Entry) : list (list Z) := [tuple e] ++ optional (id_ e) ++ optional (zone e).

Lemma deleteRequest_some seq e msg : deleteRequest seq e = Some msg ->
  msg = encodeRequest ctMsgDelete (Z.lor nlmFRequest nlmFAck) seq (Family e) (delete_attrs e).
Proof.
  unfold deleteRequest. case_match; [done|]. intros [= <-]. f_equal. unfold delete_attrs, optional.
  by destruct (0 <? length (id_ e))%nat, (0 <? length (zone e))%nat.
Qed.

Lemma optional_wf t a : kept t a -> Forall wf_raw (optional a).
Proof.
  intros [->|[Ha _]]; [constructor|]. unfold optional. case_match; [by constructor|constructor].
Qed.
Lemma set_attrs_app e l1 l2 : set_attrs e (l1 ++ l2) = e1 ← set_attrs e l1; set_attrs e1 l2.
Proof. revert e. induction l1 as [|a l1 IH]; intros e; [done|]. cbn [app set_attrs]. destruct (set_attr e a); [apply IH|done]. Qed.

(** An optional attribute restores its field. *)
Lemma restore_id e a : kept ctaID a -> a = [] \/ length (payload (attr_of a)) = 4%nat -> id_ e = [] ->
  set_attrs e (map attr_of (optional a)) = Some (e <| id_ := a |>).
Proof.
  intros [->|[Hw Et]] H4 He; [destruct e; simpl in *; by subst|]. unfold optional. destruct Hw as [Hl _].
  destruct (Nat.ltb_spec 0 (length a)); [|unfold nlaHdrLen in Hl; lia]. destruct H4 as [->|H4]; [unfold nlaHdrLen in Hl; simpl in Hl; lia|].
  cbn [map set_attrs]. unfold set_attr. rewrite Et, H4. done.
Qed.
Lemma restore_zone e a : kept ctaZone a -> zone e = [] ->
  set_attrs e (map attr_of (optional a)) = Some (e <| zone := a |>).
Proof.
  intros [->|[Hw Et]] He; [destruct e; simpl in *; by subst|]. unfold optional. destruct Hw as [Hl _].
  destruct (Nat.ltb_spec 0 (length a)); [|unfold nlaHdrLen in Hl; lia].
  cbn [map set_attrs]. unfold set_attr. rewrite Et. done.
Qed.

(** Setting the kept attributes on a blank entry restores them. *)
Lemma restore e : parsed e -> tuple e <> [] -> exists e',
  set_attrs (no_entry (Family e)) (map attr_of (delete_attrs e)) = Some e' /\ same_raws e e'.
Proof.
  intros (Ht & Hi & Hz & Hi4 & Hin) Hne. destruct Ht as [|[Ht Et]]; [done|].
  destruct Hin as [|(inner & e1 & e2 & Ep & Es)]; [done|].
  destruct (set_tuple_any _ _ _ ((no_entry (Family e)) <| tuple := tuple e |>) Es) as [e3 E3].
  assert (E : set_attr (no_entry (Family e)) (attr_of (tuple e)) = Some e3).
  { unfold set_attr. rewrite Et. change (ctaTupleOrig =? ctaTupleOrig) with true. cbn iota.
    rewrite Ep. exact E3. }
  pose proof (set_tuple_raws _ _ _ E3) as (Rt & Ri & Rz & Rf).
  unfold delete_attrs. rewrite !map_app, !set_attrs_app. cbn [map set_attrs]. rewrite E. cbn [mbind option_bind].
  rewrite set_attrs_app, restore_id by done. cbn [mbind option_bind]. rewrite restore_zone by done.
  eexists. split; [done|]. by split_and!.
Qed.

Lemma delete_attrs_wf e : parsed e -> tuple e <> [] -> Forall wf_raw (delete_attrs e).
Proof.
  intros (Ht & Hi & Hz & _) Hne. unfold delete_attrs. apply Forall_app. split.
  - destruct Ht as [|[Ht _]]; [done|by constructor].
  - apply Forall_app. split; by eapply optional_wf.
Qed.

(** The header of a request is read back. *)
Lemma header_length attrs : (nlmsgHdrLen + nfgenHdrLen + length (concat (map pad attrs)))%nat =
  (nlmsgHdrLen + nfgenHdrLen + sum_list (map (fun a => nlAlign (length a)) attrs))%nat.
Proof.
  f_equal. induction attrs as [|a attrs IH]; [done|]. cbn [map concat sum_list]. by rewrite length_app, pad_length, IH.
Qed.
Lemma encodeRequest_parts t flags seq family attrs :
  let msg := encodeRequest t flags seq family attrs in
  length msg = (nlmsgHdrLen + nfgenHdrLen + length (concat (map pad attrs)))%nat /\
  (Z.of_nat (length msg) < 2 ^ 32 -> get32 msg = Z.of_nat (length msg)) /\
  (0 <= Z.lor (Z.shiftl nfnlSubsysCT 8) t < 65536 ->
   get16 (drop 4 msg) = Z.lor (Z.shiftl nfnlSubsysCT 8) t) /\
  drop nfgenHdrLen (drop nlmsgHdrLen msg) = concat (map pad attrs).
Proof.
  intros msg. unfold msg, encodeRequest. set (n := (_ + sum_list _)%nat).
  assert (Hl : forall x y z, length (put32 x ++ put16 y ++ put16 flags ++ put32 z ++ [0; 0; 0; 0] ++ [family; 0; 0; 0] ++
    concat (map pad attrs)) = (nlmsgHdrLen + nfgenHdrLen + length (concat (map pad attrs)))%nat).
  { intros x y z. rewrite !length_app, !put32_length, !put16_length. simpl. lia. }
  rewrite Hl. split; [done|]. split; [|split].
  - rewrite header_length. fold n. intros Hn. rewrite Z.mod_small by lia. apply get32_put. lia.
  - intros Ht. rewrite drop_app_length' by (by rewrite put32_length). by apply get16_put.
  - rewrite drop_drop. rewrite !app_assoc. rewrite drop_app_length'; [done|].
    rewrite !length_app, !put32_length, !put16_length. done.
Qed.

Lemma wf_raw_small a : wf_raw a -> Z.of_nat (nlAlign (length a)) <= 65540.
Proof.
  intros (_ & Hg & Hb). pose proof (get16_bound a Hb). pose proof (nlAlign_bounds (length a)). lia.
Qed.
Lemma delete_small e : parsed e -> tuple e <> [] ->
  Z.of_nat (sum_list (map (fun a => nlAlign (length a)) (delete_attrs e))) <= 3 * 65540.
Proof.
  intros Hp Hne. pose proof (delete_attrs_wf e Hp Hne) as Hwf.
  assert (Hs : forall l, Forall wf_raw l ->
    Z.of_nat (sum_list (map (fun a => nlAlign (length a)) l)) <= Z.of_nat (length l) * 65540).
  { induction 1 as [|a l Ha Hl IH]; [done|]. apply wf_raw_small in Ha.
    change (sum_list (map (fun a => nlAlign (length a)) (a :: l)))
      with (nlAlign (length a) + sum_list (map (fun a => nlAlign (length a)) l))%nat. cbn [length]. lia. }
  specialize (Hs _ Hwf). assert (length (delete_attrs e) <= 3)%nat; [|lia].
  unfold delete_attrs, optional. rewrite !length_app. repeat case_match; simpl; lia.
Qed.
Lemma deleteRequest_refused seq e : parsed e -> tuple e <> [] -> deleteRequest seq e = None ->
  (length (tuple e) <= nlaHdrLen)%nat.
Proof.
  intros (Ht & _) Hne Hd. destruct Ht as [|[(Hl & Hg & _) Et]]; [done|]. unfold deleteRequest in Hd.
  destruct (_ || _) eqn:E in Hd; [|done]. rewrite Hg in E. cbn [typ attr_of] in Et. rewrite Et in E. lia.
Qed.
Lemma encodeRequest_parses t flags seq f family attrs e : Forall wf_raw attrs ->
  set_attrs (no_entry family) (map attr_of attrs) = Some e -> tuple e <> [] ->
  parseEntry family (drop nlmsgHdrLen (encodeRequest t flags seq f attrs)) = Some e.
Proof.
  intros Hwf Hs Hne. destruct (encodeRequest_parts t flags seq f attrs) as (L & _ & _ & D).
  unfold parseEntry. rewrite length_drop, L, D, parse_raws by done.
  destruct (Nat.ltb_spec (nlmsgHdrLen + nfgenHdrLen + length (concat (map pad attrs)) - nlmsgHdrLen) nfgenHdrLen); [lia|].
  cbn [mbind option_bind]. rewrite Hs. cbn [mbind option_bind].
  destruct (Nat.eqb_spec (length (tuple e)) 0) as [E|_]; [by apply nil_length_inv in E|done].
Qed.

(** A delete names one entry. For every entry read from a dump, [deleteRequest] either refuses it,
    when its tuple is empty, or builds a message of type DELETE whose length field is its length and
    which reads back as an entry with the same tuple, id, zone and family: never the kernel's
    flush-everything request, and never another entry. *)
Theorem delete_names_the_entry family seq p e : Forall is_byte p -> parseEntry family p = Some e ->
  (deleteRequest seq e = None /\ (length (tuple e) <= nlaHdrLen)%nat) \/
  exists msg e', deleteRequest seq e = Some msg /\ get32 msg = Z.of_nat (length msg) /\
    get16 (drop 4 msg) = Z.lor (Z.shiftl nfnlSubsysCT 8) ctMsgDelete /\
    parseEntry family (drop nlmsgHdrLen msg) = Some e' /\
    tuple e' = tuple e /\ id_ e' = id_ e /\ zone e' = zone e /\ (nlaHdrLen < length (tuple e'))%nat.
Proof.
  intros Hp He. destruct (parseEntry_parsed family p e Hp He) as (Hpar & Hfam & Hne).
  destruct (deleteRequest seq e) as [msg|] eqn:Ed.
  - right. assert (Hlen : (nlaHdrLen < length (tuple e))%nat).
    { unfold deleteRequest in Ed. destruct (Nat.leb_spec (length (tuple e)) nlaHdrLen); [done|lia]. }
    apply deleteRequest_some in Ed. pose proof (delete_small e Hpar Hne) as Hsmall.
    destruct (encodeRequest_parts ctMsgDelete (Z.lor nlmFRequest nlmFAck) seq (Family e) (delete_attrs e))
      as (L & G32 & G16 & _). rewrite <- Ed in *.
    destruct (restore e Hpar Hne) as (e' & Er & Rt & Ri & Rz & Rf). rewrite Hfam in Er.
    exists msg, e'. split; [done|]. split; [|split; [by apply G16|split_and!; try done; [|by rewrite Rt]]].
    + apply G32. rewrite L, header_length. unfold nlmsgHdrLen, nfgenHdrLen. lia.
    + rewrite Ed. apply encodeRequest_parses; [by apply delete_attrs_wf|done|by rewrite Rt].
  - left. split; [done|]. by eapply deleteRequest_refused.
Qed.
(** ** A receive buffer is read message by message *)
Record message := mkMsg { m_type : Z; m_flags : Z; m_seq : Z; m_body : list Z }.
Definition wf_msg (m : message) : Prop :=
  0 <= m_type m < 65536 /\ 0 <= m_seq m < 2 ^ 32 /\ Z.of_nat (nlmsgHdrLen + length (m_body m)) < 2 ^ 32.
(** The bytes of a message, padded to the next one. *)
Definition msg_bytes (m : message) : list Z :=
  pad (put32 (Z.of_nat (nlmsgHdrLen + length (m_body m))) ++ put16 (m_type m) ++ put16 (m_flags m) ++
       put32 (m_seq m) ++ [0; 0; 0; 0] ++ m_body m).

(** What a sequence of replies to one request says. *)
Fixpoint replies (family : Z) (ms : list message) : list Entry * verdict :=
  match ms with
  | [] => ([], More)
  | m :: ms =>
      if m_type m =? nlmsgDone then ([], Complete 0)
      else if m_type m =? nlmsgError then
        if (length (m_body m) <? 4)%nat then ([], Malformed) else ([], Complete (to_int32 (get32 (m_body m))))
      else if m_type m =? Z.lor (Z.shiftl nfnlSubsysCT 8) ctMsgNew then
        let '(es, v) := replies family ms in
        (match parseEntry family (m_body m) with Some e => e :: es | None => es end, v)
      else replies family ms
  end.

Lemma read_fuel f1 : forall f2 b family seq, (length b < f1)%nat -> (length b < f2)%nat ->
  read_from f1 b family seq = read_from f2 b family seq.
Proof.
  induction f1 as [|f1 IH]; intros [|f2] b family seq H1 H2; try lia. cbn [read_from].
  destruct (Nat.ltb_spec (length b) nlmsgHdrLen) as [|Hlen]; [done|].
  destruct ((Z.to_nat (get32 b) <? nlmsgHdrLen)%nat || (length b <? Z.to_nat (get32 b))%nat) eqn:E; [done|].
  unfold nlmsgHdrLen in *. bool_facts. pose proof (after_length (Z.to_nat (get32 b)) b ltac:(lia) ltac:(lia)) as Ha.
  unfold after in Ha. by rewrite (IH f2) by lia.
Qed.

Lemma read_cons m rest family seq : wf_msg m ->
  readMessages (msg_bytes m ++ rest) family seq =
  if m_seq m =? seq then
    if m_type m =? nlmsgDone then ([], Complete 0)
    else if m_type m =? nlmsgError then
      if (length (m_body m) <? 4)%nat then ([], Malformed) else ([], Complete (to_int32 (get32 (m_body m))))
    else if m_type m =? Z.lor (Z.shiftl nfnlSubsysCT 8) ctMsgNew then
      let '(es, v) := readMessages rest family seq in
      (match parseEntry family (m_body m) with Some e => e :: es | None => es end, v)
    else readMessages rest family seq
  else readMessages rest family seq.
Proof.
  intros (Ht & Hs & Hn). unfold readMessages at 1. cbn [read_from]. unfold msg_bytes.
  set (n := (nlmsgHdrLen + length (m_body m))%nat). fold n in Hn.
  set (a := put32 (Z.of_nat n) ++ _).
  assert (La : length a = n).
  { unfold a. rewrite !length_app, !put32_length, !put16_length. unfold n, nlmsgHdrLen. simpl. lia. }
  pose proof (nlAlign_bounds (length a)) as Hal.
  assert (Hlen : length (pad a ++ rest) = (nlAlign (length a) + length rest)%nat) by (by rewrite length_app, pad_length).
  unfold nlmsgHdrLen in *. destruct (Nat.ltb_spec (length (pad a ++ rest)) 16); [lia|].
  assert (E32 : get32 (pad a ++ rest) = Z.of_nat n).
  { unfold pad, a. rewrite <- !app_assoc. apply get32_put. lia. }
  assert (E16 : get16 (drop 4 (pad a ++ rest)) = m_type m).
  { unfold pad, a. rewrite <- !app_assoc. rewrite drop_app_length' by (by rewrite put32_length). by apply get16_put. }
  assert (Eseq : get32 (drop 8 (pad a ++ rest)) = m_seq m).
  { unfold pad, a. rewrite <- !app_assoc, app_assoc, (app_assoc (_ ++ _)).
    rewrite drop_app_length' by (by rewrite !length_app, put32_length, !put16_length). by apply get32_put. }
  assert (Etk : take n (pad a ++ rest) = a) by (unfold pad; rewrite <- app_assoc; by apply take_app_length').
  assert (Ebody : drop 16 a = m_body m).
  { unfold a. rewrite !app_assoc. apply drop_app_length'. by rewrite !length_app, !put32_length, !put16_length. }
  pose proof (after_pad a rest) as Hap. unfold after in Hap. rewrite La in Hap.
  rewrite E32, Nat2Z.id, E16, Eseq, Etk, Ebody, Hap.
  destruct (Nat.ltb_spec n 16), (Nat.ltb_spec (length (pad a ++ rest)) n); try lia. cbn [orb].
  unfold readMessages. by rewrite (read_fuel (length (pad a ++ rest)) (S (length rest))) by lia.
Qed.

(** Only the answers to this request count. A buffer of whole messages reads as the replies with
    the request's sequence number, in order, up to the first final one: a late answer to an earlier
    request, whatever it says, is skipped. *)
Theorem late_answers_are_skipped family seq ms : Forall wf_msg ms ->
  readMessages (concat (map msg_bytes ms)) family seq =
  replies family (filter (fun m => m_seq m = seq) ms).
Proof.
  induction 1 as [|m ms Hm Hms IH]; [done|]. cbn [map concat]. rewrite read_cons, IH by done.
  rewrite filter_cons. destruct (Z.eqb_spec (m_seq m) seq) as [E|E].
  - rewrite decide_True by done. done.
  - by rewrite decide_False.
Qed.
End wire.

(** ** Witnesses: a little-endian host *)
Definition sample_tuple : list Z :=
  [24; 0; 1; 0] ++ [20; 0; 1; 0] ++ [8; 0; 1; 0; 192; 168; 1; 20] ++ [8; 0; 2; 0; 8; 8; 8; 8].
Definition sample_dump : list Z :=
  [2; 0; 0; 0] ++ sample_tuple ++ [8; 0; 8; 0; 0; 1; 0; 0] ++ [8; 0; 12; 0; 1; 2; 3; 4].
Definition sample_entry : Entry :=
  mkEntry 2 (Addr4 3232235796) (Addr4 134744072) 65536 sample_tuple [] [8; 0; 12; 0; 1; 2; 3; 4].

Lemma delete_names_the_entry_witness :
  parseEntry true 2 sample_dump = Some sample_entry /\
  ((deleteRequest true 7 sample_entry = None /\ (length (tuple sample_entry) <= nlaHdrLen)%nat) \/
   exists msg e', deleteRequest true 7 sample_entry = Some msg /\ get32 true msg = Z.of_nat (length msg) /\
    get16 true (drop 4 msg) = Z.lor (Z.shiftl nfnlSubsysCT 8) ctMsgDelete /\
    parseEntry true 2 (drop nlmsgHdrLen msg) = Some e' /\
    tuple e' = tuple sample_entry /\ id_ e' = id_ sample_entry /\ zone e' = zone sample_entry /\
    (nlaHdrLen < length (tuple e'))%nat).
Proof.
  assert (He : parseEntry true 2 sample_dump = Some sample_entry) by reflexivity. split; [exact He|].
  apply (delete_names_the_entry true 2 7 sample_dump sample_entry); [|exact He].
  unfold sample_dump, sample_tuple, is_byte. simpl. repeat constructor; lia.
Defined.

(** A late end of the dump before this one's entry and end. *)
Definition sample_messages : list message :=
  [mkMsg nlmsgDone 0 6 []; mkMsg 256 0 7 sample_dump; mkMsg nlmsgDone 0 7 []].
Lemma late_answers_are_skipped_witness :
  readMessages true (concat (map (msg_bytes true) sample_messages)) 2 7 = ([sample_entry], Complete 0).
Proof.
  rewrite (late_answers_are_skipped true 2 7 sample_messages).
  - reflexivity.
  - unfold sample_messages. repeat constructor; vm_compute; done.
Defined.
