(* ===== verification/PbrPlan.v ===== *)
(** * The kernel-routing plan

    Models the data of [src/internal/pbr/pbr.go]: egresses, zones, the plan and the options it is
    compiled under, with [NDMPolicySlots]. *)
From S2P Require Import Prelude.
From stdpp Require Import sorting.
Local Open Scope Z_scope.

(** [EgressKind] is a string; [""] is its zero value. *)
Definition EgressWAN : string := "wan".
Definition EgressInterface : string := "interface".
Definition EgressBlackhole : string := "blackhole".
Definition EgressNDMPolicy : string := "ndm_policy".

Record Egress := mkEgress {
  Tag : string; Kind : string; Iface : string; E_Mark : Z; E_Table : Z; FailClosed : bool
}.
Record Zone := mkZone {
  Z_Name : string; EgressTag : string; Z_Mark : Z;
  V4 : list string; V6 : list string; Domains : list string;
  SrcV4 : list string; SrcV6 : list string; SrcMAC : list string; SrcIface : list string;
  SrcPort : list Z; SrcScoped : bool; SrcNegate : bool; NDMPolicy : string; NDMMark : Z
}.
#[export] Instance eta_zone : Eta Zone := fun z =>
  mkZone (Z_Name z) (EgressTag z) (Z_Mark z) (V4 z) (V6 z) (Domains z) (SrcV4 z) (SrcV6 z) (SrcMAC z)
    (SrcIface z) (SrcPort z) (SrcScoped z) (SrcNegate z) (NDMPolicy z) (NDMMark z).
Record Warning := mkWarning { Scope : string; Msg : string }.
Record Flowtable := mkFlowtable { Devices : list string; HW : bool }.
Record Plan := mkPlan {
  P_Table : string; Mask : Z; Egresses : list Egress; Zones : list Zone;
  BypassV4 : list string; BypassV6 : list string;
  P_Flowtable : option Flowtable; MasqIfaces : list string
}.
#[export] Instance eta_plan : Eta Plan := fun p =>
  mkPlan (P_Table p) (Mask p) (Egresses p) (Zones p) (BypassV4 p) (BypassV6 p) (P_Flowtable p) (MasqIfaces p).
#[export] Instance Egress_eq_dec : EqDecision Egress.
Proof. solve_decision. Defined.
#[export] Instance Zone_eq_dec : EqDecision Zone.
Proof. solve_decision. Defined.

Record Options := mkOptions {
  O_Table : string; MarkMask : Z; MarkStep : Z; TableBase : Z; WANTable : Z; RulePref : Z;
  Offload : string; OffloadDevices : list string; CollectDomainZones : bool; NDMPolicies : gmap string Z
}.
Definition or_default (z d : Z) : Z := if z =? 0 then d else z.
Definition withDefaults (o : Options) : Options :=
  mkOptions (if bool_decide (O_Table o = "") then "wayhop_pbr" else O_Table o)
    (or_default (MarkMask o) 0x00ff0000) (or_default (MarkStep o) 0x00010000)
    (or_default (TableBase o) 151) (or_default (WANTable o) 254) (or_default (RulePref o) 150)
    (Offload o) (OffloadDevices o) (CollectDomainZones o) (NDMPolicies o).

(** [NDMPolicySlots]: the access policies once each, in slot order. *)
Record NDMPolicySlot := mkSlot { Name : string; Slot : Z; S_Mark : Z }.
Fixpoint policies (seen : gset string) (zs : list Zone) : list NDMPolicySlot :=
  match zs with
  | [] => []
  | z :: zs =>
      if bool_decide (NDMPolicy z = "") || bool_decide (NDMPolicy z ∈ seen) then policies seen zs
      else mkSlot (NDMPolicy z) (Z_Mark z) (NDMMark z) :: policies ({[NDMPolicy z]} ∪ seen) zs
  end.
Definition slot_le (a b : NDMPolicySlot) : Prop := Slot a <= Slot b.
#[export] Instance slot_le_dec : RelDecision slot_le.
Proof. intros a b. unfold slot_le. apply _. Defined.
Definition NDMPolicySlots (pl : Plan) : list NDMPolicySlot := merge_sort slot_le (policies ∅ (Zones pl)).
