(* ===== verification/CtFlush.v ===== *)
(** * Conntrack flush: which flows a routing change leaves on the wrong exit

    Models [src/internal/ctflush/ctflush.go]: the view of a plan, [contains], the zones' match, the
    decision [stale], and [Flush]. Addresses and prefixes are [net/netip]'s; parsing their text
    ([ParsePrefix], [ParseAddr]) is an argument. The conntrack table is what its dumps and deletes
    answer. *)
From S2P Require Import Prelude Netip Netlink PbrPlan.
From stdpp Require Import sorting.
Local Open Scope Z_scope.

(** ** Views *)
Inductive tri := no | yes | unknown.
Record zoneView := mkView {
  mark : Z; v4 : list Prefix; v6 : list Prefix; domains : bool; sourceOnly : bool;
  scoped : bool; srcHidden : bool; src4 : list Prefix; src6 : list Prefix; negate : bool
}.
Record view := mkV { tags : gmap Z string; wan : gset Z; zones : list zoneView; bypass : list Prefix }.

(** [sort.Search]: the least index in [[i, j)] where [f] holds, [j] if none, for a monotone [f]. *)
Fixpoint Search (fuel : nat) (f : nat -> bool) (i j : nat) : nat :=
  match fuel with
  | O => i
  | S fuel =>
      if (i <? j)%nat then
        let h := ((i + j) / 2)%nat in
        if negb (f h) then Search fuel f (S h) j else Search fuel f i h
      else i
  end.

Definition contains (ps : list Prefix) (a : Addr) : bool :=
  let f j := match ps !! j with Some p => Less a (p_addr p) | None => false end in
  match Search (length ps) f 0 (length ps) with
  | O => false
  | S k => match ps !! k with Some p => Contains p a | None => false end
  end.
Fixpoint containsAny (ps : list Prefix) (a : Addr) : bool :=
  match ps with [] => false | p :: ps => if Contains p a then true else containsAny ps a end.

Definition match_ (z : zoneView) (e : Entry) : tri :=
  let is6 := Is6 (Dst e) in
  let dst :=
    if sourceOnly z then yes
    else if (negb is6 && contains (v4 z) (Dst e)) || (is6 && contains (v6 z) (Dst e)) then yes
    else if domains z then unknown else no in
  match dst with
  | no => no
  | _ =>
      let src :=
        if negb (scoped z) then yes
        else if srcHidden z || negb (IsValid (Src e)) || (length (src4 z) + length (src6 z) =? 0)%nat then unknown
        else
          let set := if is6 then src6 z else src4 z in
          if eqb (containsAny set (Src e)) (negate z) then no else yes in
      match src, dst with
      | no, _ => no
      | yes, yes => yes
      | _, _ => unknown
      end
  end.

(** [eval]'s loop runs from the last zone; [zs] is reversed. *)
Fixpoint eval_from (zs : list zoneView) (e : Entry) : Z * bool * bool :=
  match zs with
  | [] => (0, false, true)
  | z :: zs =>
      match match_ z e with
      | yes => (mark z, true, true)
      | unknown => (0, false, false)
      | no => eval_from zs e
      end
  end.
Definition eval (v : view) (e : Entry) : Z * bool * bool := eval_from (reverse (zones v)) e.

Definition owns (v : view) (m : Z) : bool := bool_decide (is_Some (tags v !! m)).
Definition route (v : view) (m : Z) : Z := if bool_decide (m ∈ wan v) then 0 else m.

Definition privateDst : list Prefix :=
  [mkPrefix (Addr4 (10 * 2 ^ 24)) 8; mkPrefix (Addr4 (172 * 2 ^ 24 + 16 * 2 ^ 16)) 12;
   mkPrefix (Addr4 (192 * 2 ^ 24 + 168 * 2 ^ 16)) 16;
   mkPrefix (Addr16 (252 * 2 ^ 120)) 7; mkPrefix (Addr16 (254 * 2 ^ 120 + 128 * 2 ^ 112)) 10].

(** ** The decision *)
Inductive Plane_ := PlaneNft | PlaneIpset.
Record Options := mkOptions { Limit : Z; Local_ : option (Addr -> bool); Plane : Plane_; Hybrid : bool }.
Record decider := mkDecider { d_mask : Z; old : view; cur : view; removed : bool; opt : Options }.

Definition unmapped (e : Entry) : Entry := e <| Src := Unmap (Src e) |> <| Dst := Unmap (Dst e) |>.
Definition local_ (o : Options) (a : Addr) : bool := match Local_ o with Some f => f a | None => false end.
(** What no plan moves: destinations outside the marks' reach, and the router's own flows. *)
Definition exempt (d : decider) (e : Entry) : bool :=
  negb (IsValid (Dst e)) || IsLoopback (Dst e) || containsAny privateDst (Dst e) || containsAny (bypass (cur d)) (Dst e)
  || local_ (opt d) (Dst e) || (IsValid (Src e) && local_ (opt d) (Src e)).

Definition stale (d : decider) (e : Entry) : bool :=
  let e := unmapped e in
  if exempt d e then false
  else
    let m := Z.land (Netlink.Mark e) (d_mask d) in
    if removed d then negb (m =? 0) && owns (old d) m && negb (bool_decide (m ∈ wan (old d)))
    else
      let '(nm, matched, known) := eval (cur d) e in
      if negb known then false
      else match Plane (opt d) with
           | PlaneIpset => if matched : bool then false else owns (cur d) m && negb (route (cur d) m =? 0)
           | PlaneNft =>
               if negb (m =? 0) && owns (cur d) m then negb (route (cur d) nm =? route (cur d) m)
               else (m =? 0) && Hybrid (opt d) && negb (route (cur d) nm =? 0)
           end.

Section plans.
Context (ParsePrefix : string -> option Prefix) (ParseAddr : string -> option Addr).

Definition prefix_le (a b : Prefix) : Prop := Less (p_addr b) (p_addr a) = false.
#[export] Instance prefix_le_dec : RelDecision prefix_le.
Proof. intros a b. unfold prefix_le. apply _. Defined.
Definition parse_one (c : string) : option Prefix :=
  match ParsePrefix c with
  | Some p => Some (Masked p)
  | None => match ParseAddr c with Some a => Some (mkPrefix a (BitLen a)) | None => None end
  end.
Definition parsePrefixes (cidrs : list string) : list Prefix := merge_sort prefix_le (omap parse_one cidrs).

Definition nonempty {A} (l : list A) : bool := (0 <? length l)%nat.
Definition zone_view (mask : Z) (z : Zone) : option zoneView :=
  let a4 := parsePrefixes (V4 z) in let a6 := parsePrefixes (V6 z) in
  let doms := nonempty (Domains z) in
  let hidden := nonempty (SrcMAC z) || nonempty (SrcIface z) || nonempty (SrcPort z) in
  let scoped := SrcScoped z || nonempty (SrcV4 z) || nonempty (SrcV6 z) || hidden in
  let empty := (length a4 + length a6 =? 0)%nat in
  let srcOnly := scoped && empty && negb doms in
  if empty && negb doms && negb srcOnly then None
  else Some (mkView (Z.land (Z_Mark z) mask) a4 a6 doms srcOnly scoped hidden
               (parsePrefixes (SrcV4 z)) (parsePrefixes (SrcV6 z)) (SrcNegate z)).

Definition add_egress (mask : Z) (v : view) (e : Egress) : view :=
  let m := Z.land (E_Mark e) mask in
  if m =? 0 then v
  else mkV (<[m := Tag e]> (tags v)) (if bool_decide (Kind e = EgressWAN) then {[m]} ∪ wan v else wan v)
           (zones v) (bypass v).
Definition add_slot (mask : Z) (v : view) (s : NDMPolicySlot) : view :=
  let m := Z.land (Slot s) mask in
  if m =? 0 then v else mkV (<[m := ("ndm-policy:" ++ Name s)%string]> (tags v)) (wan v) (zones v) (bypass v).
Definition newView (p : option Plan) (mask : Z) : view :=
  let v := mkV ∅ ∅ [] [] in
  match p with
  | None => v
  | Some p =>
      let v := foldl (add_egress mask) v (Egresses p) in
      let v := foldl (add_slot mask) v (NDMPolicySlots p) in
      mkV (tags v) (wan v) (omap (zone_view mask) (Zones p)) (parsePrefixes (BypassV4 p) ++ parsePrefixes (BypassV6 p))
  end.

Definition newDecider (old cur : option Plan) (o : Options) : decider :=
  let mask := match cur, old with
              | Some c, _ => if negb (Mask c =? 0) then Mask c else
                             match old with Some p => if negb (Mask p =? 0) then Mask p else 16711680 | None => 16711680 end
              | None, Some p => if negb (Mask p =? 0) then Mask p else 16711680
              | None, None => 16711680
              end in
  mkDecider mask (newView old mask) (newView cur mask) (match cur with None => true | _ => false end) o.

(** ** [Flush] *)
Record Result := mkResult { Seen : Z; Deleted : Z; Gone : Z; Capped : bool }.
#[export] Instance eta_result : Eta Result := fun r => mkResult (Seen r) (Deleted r) (Gone r) (Capped r).
(** The table: what each family's dump hands over before it ends or fails, and what the [k]-th delete
    answers. *)
Inductive delete_answer := Removed | NoSuchEntry | Refused.
Record Table := mkTable { Dump : Z -> list Entry * bool; Delete : nat -> Entry -> delete_answer }.

Definition visit (d : decider) (st : Z * list Entry) (e : Entry) : Z * list Entry :=
  let '(seen, doomed) := st in
  (seen + 1,
   if ((Limit (opt d) <=? 0) || (Z.of_nat (length doomed) <=? Limit (opt d))) && stale d e
   then doomed ++ [e] else doomed).

(** The delete loop: the result, whether some delete failed, and the entries asked for. *)
Fixpoint delete_all (t : Table) (limit : Z) (k : nat) (res : Result) (doomed : list Entry)
    : Result * bool * list Entry :=
  match doomed with
  | [] => (res, false, [])
  | e :: doomed =>
      if (0 <? limit) && (limit <=? Deleted res + Gone res) then (res <| Capped := true |>, false, [])
      else
        let '(res, failed) := match Delete t k e with
                              | Removed => (res <| Deleted := Deleted res + 1 |>, false)
                              | NoSuchEntry => (res <| Gone := Gone res + 1 |>, false)
                              | Refused => (res, true)
                              end in
        let '(res, failed', asked) := delete_all t limit (S k) res doomed in
        (res, failed || failed', e :: asked)
  end.

Definition flush_with (t : Table) (d : decider) : Result * bool * list Entry :=
  let '(es4, ok4) := Dump t 2 in
  let '(seen, doomed) := foldl (visit d) (0, []) es4 in
  if negb ok4 then (mkResult seen 0 0 false, true, [])
  else
    let '(es6, ok6) := Dump t 10 in
    let '(seen, doomed) := foldl (visit d) (seen, doomed) es6 in
    if negb ok6 then (mkResult seen 0 0 false, true, [])
    else delete_all t (Limit (opt d)) 0 (mkResult seen 0 0 false) doomed.

Definition Flush (t : Table) (old cur : option Plan) (o : Options) : Result * bool * list Entry :=
  match old, cur with
  | None, None => (mkResult 0 0 0 false, false, [])
  | _, _ => flush_with t (newDecider old cur o)
  end.

Definition Changed (old cur : option Plan) : bool :=
  match old, cur with
  | None, None => false
  | Some o, Some c =>
      negb (Mask o =? Mask c) || negb (bool_decide (Egresses o = Egresses c)) ||
      negb (bool_decide (Zones o = Zones c)) || negb (bool_decide (BypassV4 o = BypassV4 c)) ||
      negb (bool_decide (BypassV6 o = BypassV6 c))
  | _, _ => true
  end.
End plans.

(** ** [contains] is membership *)
Lemma Search_spec fuel f : forall i j, (i <= j)%nat -> (j - i <= fuel)%nat ->
  (forall a b, (i <= a <= b)%nat -> (b < j)%nat -> f a = true -> f b = true) ->
  let k := Search fuel f i j in
  (i <= k <= j)%nat /\ (forall a, (i <= a < k)%nat -> f a = false) /\ (forall a, (k <= a < j)%nat -> f a = true).
Proof.
  induction fuel as [|fuel IH]; intros i j Hij Hf Hm k; subst k; cbn [Search]; [split_and!; lia|].
  destruct (Nat.ltb_spec i j) as [Hlt|]; [|split_and!; lia].
  set (h := ((i + j) / 2)%nat).
  assert (Hh : (i <= h < j)%nat).
  { unfold h. pose proof (Nat.div_mod_eq (i + j) 2). pose proof (Nat.mod_upper_bound (i + j) 2). lia. }
  destruct (f h) eqn:Eh; cbn [negb].
  - destruct (IH i h) as (K & L & R); [lia|lia|intros; eapply Hm; eauto; lia|]. split_and!; [lia|lia|done|].
    intros a Ha. destruct (decide (a < h)%nat); [apply R; lia|]. apply (Hm h a); [lia|lia|done].
  - destruct (IH (S h) j) as (K & L & R); [lia|lia|intros; eapply Hm; eauto; lia|]. split_and!; [lia|lia| |done].
    intros a Ha. destruct (decide (a <= h)%nat); [|apply L; lia].
    destruct (f a) eqn:Ea; [|done]. rewrite <- Eh. symmetry. apply (Hm a h); [lia|lia|done].
Qed.

Lemma containsAny_spec ps a : containsAny ps a = true <-> exists p, p ∈ ps /\ Contains p a = true.
Proof.
  induction ps as [|p ps IH]; cbn [containsAny].
  - split; [done|]. intros (p & Hp & _). by apply elem_of_nil in Hp.
  - destruct (Contains p a) eqn:E.
    + split; [|done]. intros _. exists p. split; [left|done].
    + rewrite IH. split; intros (q & Hq & Hc); exists q; (split; [|done]); [by right|].
      apply elem_of_cons in Hq as [->|Hq]; [congruence|done].
Qed.

Lemma Less_trans_not a b c : Less a b = true -> Less c b = false -> Less a c = true.
Proof. unfold Less. lia. Qed.

(** The binary search is membership. Over one zone's sorted, disjoint members, [contains] holds
    exactly when some member contains the address. *)
Theorem contains_is_membership ps a : disjoint_sorted ps -> contains ps a = containsAny ps a.
Proof.
  intros [Hwf Hd]. unfold contains. set (f := fun j => _).
  destruct (Search_spec (length ps) f 0 (length ps)) as (K & L & R); [lia|lia| |].
  { intros i j Hij Hj. unfold f. destruct (ps !! i) as [p|] eqn:Ei; [|done].
    destruct (lookup_lt_is_Some_2 ps j Hj) as [q Eq]. rewrite Eq. intros Hi.
    destruct (decide (i = j)) as [<-|]; [congruence|].
    eapply Less_trans_not; [exact Hi|]. by apply (Hd i j p q); [lia|..]. }
  assert (Habove : forall i p, ps !! i = Some p -> Contains p a = true ->
    (i < Search (length ps) f 0 (length ps))%nat).
  { intros i p Ei Hc. destruct (Nat.ltb_spec i (Search (length ps) f 0 (length ps))) as [|Hge]; [done|].
    specialize (R i (conj Hge (lookup_lt_Some _ _ _ Ei))). unfold f in R. rewrite Ei in R.
    rewrite Forall_lookup in Hwf. rewrite (Contains_above p a (Hwf _ _ Ei) Hc) in R. done. }
  destruct (Search (length ps) f 0 (length ps)) as [|k].
  { symmetry. apply not_true_is_false. rewrite containsAny_spec. intros (p & Hp & Hc).
    apply list_elem_of_lookup in Hp as [i Ei]. specialize (Habove i p Ei Hc). lia. }
  destruct (lookup_lt_is_Some_2 ps k) as [p Ep]; [lia|]. rewrite Ep.
  destruct (Contains p a) eqn:Ec; symmetry.
  - apply containsAny_spec. exists p. split; [by eapply list_elem_of_lookup_2|done].
  - apply not_true_is_false. rewrite containsAny_spec. intros (q & Hq & Hc).
    apply list_elem_of_lookup in Hq as [i Ei]. specialize (Habove i q Ei Hc).
    destruct (decide (i = k)) as [->|]; [congruence|].
    destruct (Hd i k q p) as [Hle Hout]; [lia|done..|]. rewrite Forall_lookup in Hwf.
    rewrite (Contains_between q a (p_addr p)) in Hout; [done|by apply (Hwf i)|done|done|].
    specialize (L k ltac:(lia)). unfold f in L. by rewrite Ep in L.
Qed.

(** ** [stale] is "the next packet goes elsewhere"

    The exit a mark selects. A mark of the WAN egress goes straight out through the main table; any other
    mark through its own table. A flow without a mark goes through the main table too, unless a TUN runs
    beside the plane (hybrid mode), which then takes it. *)
Inductive exit_ := Direct | Tun | Out (m : Z).
#[export] Instance exit_eq_dec : EqDecision exit_.
Proof. solve_decision. Defined.
Definition exit_of (hybrid : bool) (v : view) (m : Z) : exit_ :=
  if m =? 0 then (if hybrid then Tun else Direct) else if bool_decide (m ∈ wan v) then Direct else Out m.
(** The two exits that are not told apart: out of the WAN by its mark, and into the TUN, which may send
    the flow to the WAN or anywhere else. *)
Definition straight_out (x : exit_) : Prop := x = Direct \/ x = Tun.

(** Where the plan sends a new flow: the last zone that matches, none left unknown above it. *)
Definition plan_mark (v : view) (e : Entry) (nm : Z) (matched : bool) : Prop :=
  if matched
  then exists l1 z l2, zones v = l1 ++ z :: l2 /\ match_ z e = yes /\ mark z = nm /\ Forall (fun z => match_ z e = no) l2
  else nm = 0 /\ Forall (fun z => match_ z e = no) (zones v).

(** Where the kernel sends the flow's next packet. iptables: a matching zone re-marks it, else the
    restored mark stays, and routes if the plan has it. nft: a restored mark of the plan is accepted
    at once, any other flow is re-marked; beside a TUN, an unmarked flow stays with the TUN. *)
Definition next_exit (d : decider) (e : Entry) (nm : Z) (matched : bool) : exit_ :=
  let m := Z.land (Netlink.Mark e) (d_mask d) in
  let v := cur d in
  let exit := exit_of (Hybrid (opt d)) v in
  match Plane (opt d) with
  | PlaneIpset => if matched then exit nm else if owns v m then exit m else exit 0
  | PlaneNft => if negb (m =? 0) && owns v m then exit m else if (m =? 0) && Hybrid (opt d) then Tun else exit nm
  end.
(** The flow's next packet goes to another exit than a new flow, and not just from one of the two exits
    that are not told apart to the other. *)
Definition moves (d : decider) (e : Entry) (nm : Z) (matched : bool) : Prop :=
  let now := next_exit d e nm matched in
  let then_ := exit_of (Hybrid (opt d)) (cur d) nm in
  now <> then_ /\ ~ (straight_out now /\ straight_out then_).

Lemma eval_spec v e nm matched : eval v e = (nm, matched, true) <-> plan_mark v e nm matched.
Proof.
  unfold eval, plan_mark. induction (zones v) as [|z zs IH] using rev_ind.
  - simpl. split; [intros [= <- <-]; by split|]. destruct matched; [|by intros [-> _]].
    intros (l1 & z & l2 & E & _). by destruct l1.
  - rewrite reverse_app. cbn [reverse rev_append app eval_from]. destruct (match_ z e) eqn:Em.
    + rewrite IH. destruct matched.
      * split; intros (l1 & z' & l2 & E & Hz & Hn & Hl).
        -- exists l1, z', (l2 ++ [z]). rewrite E, <- app_assoc. split_and!; try done.
           apply Forall_app. split; [done|by constructor].
        -- destruct l2 as [|x l2' _] using rev_ind; [apply app_inj_tail in E as [_ ->]; congruence|].
           rewrite app_comm_cons, app_assoc in E. apply app_inj_tail in E as [E ->].
           apply Forall_app in Hl as [Hl _]. by exists l1, z', l2'.
      * split; intros [Hn Hl]; (split; [done|]); [apply Forall_app; split; [done|by constructor]|by apply Forall_app in Hl as [? _]].
    + split.
      * intros [= <- <-]. exists zs, z, []. by split_and!.
      * destruct matched; [|intros [_ Hl]; apply Forall_app in Hl as [_ Hl]; apply Forall_cons in Hl as [? _]; congruence].
        intros (l1 & z' & l2 & E & Hz & Hn & Hl). destruct l2 as [|x l2 _] using rev_ind.
        -- apply app_inj_tail in E as [_ ->]. by rewrite Hn.
        -- rewrite app_comm_cons, app_assoc in E. apply app_inj_tail in E as [_ ->].
           apply Forall_app in Hl as [_ Hl]. apply Forall_cons in Hl as [? _]. congruence.
    + split; [done|]. destruct matched; [|intros [_ Hl]; apply Forall_app in Hl as [_ Hl]; apply Forall_cons in Hl as [? _]; congruence].
      intros (l1 & z' & l2 & E & Hz & Hn & Hl). destruct l2 as [|x l2 _] using rev_ind.
      * apply app_inj_tail in E as [_ ->]. congruence.
      * rewrite app_comm_cons, app_assoc in E. apply app_inj_tail in E as [_ ->].
        apply Forall_app in Hl as [_ Hl]. apply Forall_cons in Hl as [? _]. congruence.
Qed.

Lemma route_zero v : route v 0 = 0.
Proof. unfold route. by case_bool_decide. Qed.
(** What [route] tells apart: the exits that are neither the WAN's nor the TUN's. *)
Lemma exit_differs hybrid v a b :
  exit_of hybrid v a <> exit_of hybrid v b /\ ~ (straight_out (exit_of hybrid v a) /\ straight_out (exit_of hybrid v b)) <->
  route v a <> route v b.
Proof.
  unfold exit_of, route, straight_out.
  destruct (Z.eqb_spec a 0), (Z.eqb_spec b 0), hybrid; repeat case_bool_decide; naive_solver congruence.
Qed.

(** C14: a flow is deleted exactly when it would move. While a plane is up, [stale] holds of a flow
    exactly when it is not exempt (private, local, bypassed), the plan can tell where a new flow like
    it goes, and the kernel's rules would send its next packet to a different exit; the one move not
    acted on is between the WAN and, in hybrid mode, the TUN, which the marks do not tell apart. With
    the plane removed, exactly when the old plan's mark had sent it into a tunnel. *)
Theorem stale_iff_moved d e :
  (removed d = false ->
   stale d e = true <->
   exempt d (unmapped e) = false /\
   exists nm matched, plan_mark (cur d) (unmapped e) nm matched /\ moves d (unmapped e) nm matched) /\
  (removed d = true ->
   stale d e = true <->
   exempt d (unmapped e) = false /\
   let m := Z.land (Netlink.Mark e) (d_mask d) in
   m <> 0 /\ owns (old d) m = true /\ m ∉ wan (old d)).
Proof.
  unfold stale. set (e' := unmapped e). change (Netlink.Mark e) with (Netlink.Mark e').
  destruct (exempt d e'); [split; intros _; (split; [done|by intros [? _]])|].
  split; intros ->.
  - destruct (eval (cur d) e') as [[nm matched] known] eqn:Ee.
    assert (Hiff : forall b, (known = true -> b = true <-> moves d e' nm matched) ->
      (if negb known then false else b) = true <-> false = false /\ exists nm' matched',
        plan_mark (cur d) e' nm' matched' /\ moves d e' nm' matched').
    { intros b Hb. destruct known; cbn [negb].
      - rewrite Hb by done. apply eval_spec in Ee as Hpm. split; [intros H; split; [done|by exists nm, matched]|].
        intros (_ & nm' & matched' & Hp & Hx). apply eval_spec in Hp. rewrite Ee in Hp. by injection Hp as <- <-.
      - split; [done|]. intros (_ & nm' & matched' & Hp & _). apply eval_spec in Hp. congruence. }
    apply Hiff. intros ->. clear Hiff. apply eval_spec in Ee. unfold moves, next_exit.
    set (m := Z.land (Netlink.Mark e') (d_mask d)). set (hybrid := Hybrid (opt d)).
    destruct (Plane (opt d)).
    + destruct (negb (m =? 0) && owns (cur d) m) eqn:Eo.
      * rewrite exit_differs. lia.
      * destruct (Z.eqb_spec m 0), hybrid; cbn [andb]; try by (split; [|intros []]).
        change Tun with (exit_of true (cur d) 0). rewrite exit_differs, route_zero. lia.
    + destruct matched; [by split; [|intros []]|]. destruct Ee as [-> _].
      destruct (owns (cur d) m); cbn [andb]; [|by split; [|intros []]].
      rewrite exit_differs, route_zero. lia.
  - rewrite !andb_true_iff, !negb_true_iff, Z.eqb_neq, bool_decide_eq_false. tauto.
Qed.

(** ** [Flush] keeps its promises *)
Lemma visit_all d es seen all :
  let N := S (Z.to_nat (Limit (opt d))) in
  let cut l := if Limit (opt d) <=? 0 then l else take N l in
  foldl (visit d) (seen, cut all) es =
  (seen + Z.of_nat (length es), cut (all ++ filter (fun e => stale d e = true) es)).
Proof.
  intros N cut. revert seen all. induction es as [|e es IH]; intros seen all; cbn [foldl].
  - rewrite app_nil_r. f_equal. simpl. lia.
  - assert (Hstep : visit d (seen, cut all) e = (seen + 1, cut (all ++ (if stale d e then [e] else [])))).
    { unfold visit. f_equal. destruct (stale d e) eqn:Es.
      2: { by rewrite andb_false_r, app_nil_r. }
      rewrite andb_true_r. unfold cut. destruct (Z.leb_spec (Limit (opt d)) 0) as [|Hpos]; [done|]. cbn [orb].
      rewrite length_take. destruct (Z.leb_spec (Z.of_nat (Nat.min N (length all))) (Limit (opt d))) as [Hr|Hr].
      - rewrite !take_ge; [done|rewrite length_app; simpl; lia|lia].
      - by rewrite take_app_le by lia. }
    rewrite Hstep, IH, <- app_assoc, filter_cons. f_equal; [cbn [length]; lia|].
    destruct (stale d e); [by rewrite decide_True|by rewrite decide_False].
Qed.

Lemma delete_all_spec t limit doomed : forall k res,
  let '(res', failed, asked) := delete_all t limit k res doomed in
  (exists rest, doomed = asked ++ rest) /\ Seen res' = Seen res /\
  Deleted res + Gone res <= Deleted res' + Gone res' <= Deleted res + Gone res + Z.of_nat (length asked) /\
  (0 < limit -> Deleted res + Gone res <= limit -> Deleted res' + Gone res' <= limit) /\
  (failed = false -> Deleted res' + Gone res' = Deleted res + Gone res + Z.of_nat (length asked)) /\
  (Capped res' = false -> asked = doomed).
Proof.
  induction doomed as [|e doomed IH]; intros k res; cbn [delete_all].
  - cbn [length]. split_and!; try done; try lia. by exists [].
  - destruct ((0 <? limit) && (limit <=? Deleted res + Gone res)) eqn:Ecap.
    { cbn [length Seen Deleted Gone Capped set_field]. split_and!; try done; try lia. by exists (e :: doomed). }
    set (x := match Delete t k e with Removed => _ | NoSuchEntry => _ | Refused => _ end).
    assert (Hx : Seen x.1 = Seen res /\ Deleted res + Gone res <= Deleted x.1 + Gone x.1 <= Deleted res + Gone res + 1 /\
      (x.2 = false -> Deleted x.1 + Gone x.1 = Deleted res + Gone res + 1)).
    { unfold x. destruct (Delete t k e); simpl; split_and!; try done; lia. }
    destruct x as [res1 failed]. cbn [fst snd] in Hx. specialize (IH (S k) res1).
    destruct (delete_all t limit (S k) res1 doomed) as [[res' failed'] asked].
    destruct IH as ([rest ->] & I2 & I3 & I4 & I5 & I6), Hx as (X1 & X2 & X3). cbn [length].
    split; [by exists rest|]. split; [congruence|]. split; [lia|]. split; [intros; apply I4; lia|].
    split; [intros [-> ->]%orb_false_iff; rewrite I5, X3 by done; lia|].
    intros Hc. rewrite <- (I6 Hc). done.
Qed.

(** What a flush promises about its result. *)
Definition flush_ok (t : Table) (d : decider) (x : Result * bool * list Entry) : Prop :=
  let dumped := (Dump t 2).1 ++ (Dump t 10).1 in
  let doomed := filter (fun e => stale d e = true) dumped in
  let '(res, failed, asked) := x in
  (exists rest, doomed = asked ++ rest) /\
  (0 < Limit (opt d) ->
     Deleted res + Gone res <= Limit (opt d) /\ Z.of_nat (length asked) <= Limit (opt d) + 1) /\
  ((Dump t 2).2 = false \/ (Dump t 10).2 = false -> asked = []) /\
  (failed = false -> Capped res = false ->
     asked = doomed /\ Deleted res + Gone res = Z.of_nat (length doomed)).

Lemma flush_with_ok t d : flush_ok t d (flush_with t d).
Proof.
  unfold flush_ok, flush_with. destruct (Dump t 2) as [es4 ok4], (Dump t 10) as [es6 ok6]. cbn [fst snd].
  set (cut := fun l : list Entry => if Limit (opt d) <=? 0 then l else take (S (Z.to_nat (Limit (opt d)))) l).
  assert (Ecut : cut [] = []) by (unfold cut; by case_match).
  pose proof (visit_all d es4 0 []) as H4. fold cut in H4. cbv zeta in H4. fold cut in H4. rewrite Ecut in H4.
  rewrite H4. cbn [app].
  destruct ok4; cbn [negb]; [|split_and!; try done; [by eexists|intros; simpl; lia]].
  pose proof (visit_all d es6 (0 + Z.of_nat (length es4)) (filter (fun e => stale d e = true) es4)) as H6.
  cbv zeta in H6. fold cut in H6. rewrite H6.
  destruct ok6; cbn [negb]; [|split_and!; try done; [by eexists|intros; simpl; lia]].
  rewrite filter_app. set (all := filter _ es4 ++ filter _ es6).
  pose proof (delete_all_spec t (Limit (opt d)) (cut all) 0
    (mkResult (0 + Z.of_nat (length es4) + Z.of_nat (length es6)) 0 0 false)) as HD.
  destruct (delete_all _ _ _ _ _) as [[res failed] asked]. cbn [Seen Deleted Gone] in HD.
  destruct HD as ([rest Er] & D2 & D3 & D4 & D5 & D6).
  assert (Hcut : exists more, all = cut all ++ more).
  { unfold cut. case_match; [exists []; by rewrite app_nil_r|]. eexists. symmetry. apply take_drop. }
  destruct Hcut as [more Emore]. split; [exists (rest ++ more); rewrite Emore at 1; by rewrite Er, <- app_assoc|].
  split; [|split; [by intros [|]|]].
  - intros Hpos. split; [apply D4; lia|]. assert (length asked <= length (cut all))%nat by (rewrite Er, length_app; lia).
    assert (length (cut all) <= S (Z.to_nat (Limit (opt d))))%nat; [|lia].
    unfold cut. destruct (Z.leb_spec (Limit (opt d)) 0); [lia|]. rewrite length_take. lia.
  - intros -> Hc. specialize (D5 eq_refl). specialize (D6 Hc). subst asked.
    assert (Eall : cut all = all); [|rewrite Eall in *; split; [done|lia]].
    unfold cut in *. destruct (Z.leb_spec (Limit (opt d)) 0) as [|Hpos]; [done|].
    apply take_ge. specialize (D4 Hpos ltac:(lia)). rewrite D5, length_take in D4. lia.
Qed.

Lemma nothing_stale PP PA o e : stale (newDecider PP PA None None o) e = false.
Proof.
  unfold stale. case_match; [done|]. cbn [removed newDecider]. unfold owns. cbn [old newDecider newView tags].
  rewrite lookup_empty. rewrite (bool_decide_false (is_Some None)) by (by intros [? ?]). by rewrite andb_false_r.
Qed.

(** C39: a flush deletes nothing it should not, and says so when it stopped early. Whatever the table
    answers, every entry asked to be deleted was dumped and is stale; the asked are the first stale
    ones in dump order; no more than [Limit] are deleted or found gone; a failed dump deletes nothing;
    and when no error is reported and the result is not marked capped, every stale entry of the table
    was deleted or gone, and the counts say how many. *)
Theorem Flush_is_bounded_and_honest PP PA t old cur o :
  flush_ok t (newDecider PP PA old cur o) (Flush PP PA t old cur o).
Proof.
  destruct old as [p|], cur as [q|]; try apply flush_with_ok. unfold Flush, flush_ok.
  assert (E : forall es, filter (fun e => stale (newDecider PP PA None None o) e = true) es = []).
  { induction es as [|e es IH]; [done|]. rewrite filter_cons, nothing_stale. by rewrite decide_False. }
  rewrite E. split_and!; try done; [by exists []|intros; simpl in *; lia].
Qed.

(** ** Witnesses *)
Definition two_nets : list Prefix :=
  [mkPrefix (Addr4 (10 * 2 ^ 24)) 8; mkPrefix (Addr4 (192 * 2 ^ 24 + 168 * 2 ^ 16)) 16].
Lemma contains_is_membership_witness :
  contains two_nets (Addr4 (192 * 2 ^ 24 + 168 * 2 ^ 16 + 256 + 20)) =
  containsAny two_nets (Addr4 (192 * 2 ^ 24 + 168 * 2 ^ 16 + 256 + 20)).
Proof.
  apply contains_is_membership. split.
  - unfold two_nets, wf_prefix. repeat constructor; vm_compute; discriminate.
  - intros [|[|i]] [|[|j]] p q Hij Hp Hq; simpl in Hp, Hq; try lia; try done.
    injection Hp as <-. injection Hq as <-. split; reflexivity.
Defined.

(** A tunnel at mark 1 and the WAN at mark 2; the destination's zone moved from the tunnel to the WAN. *)
Definition moved_view : view :=
  mkV {[1 := "awg0"; 2 := "wan"]} {[2]}
    [mkView 2 [mkPrefix (Addr4 (8 * 2 ^ 24)) 8] [] false false false false [] [] false] [].
Definition moved_decider : decider :=
  mkDecider 255 moved_view moved_view false (mkOptions 100 None PlaneNft false).
Definition pinned (mark : Z) : Entry :=
  mkEntry 2 (Addr4 3232235796) (Addr4 134744072) mark [] [] [].

Lemma stale_iff_moved_witness :
  (stale moved_decider (pinned 1) = true /\ stale moved_decider (pinned 2) = false) /\
  exists nm matched, plan_mark (cur moved_decider) (unmapped (pinned 1)) nm matched /\
    moves moved_decider (unmapped (pinned 1)) nm matched.
Proof.
  split; [split; vm_compute; reflexivity|].
  apply (proj1 (stale_iff_moved moved_decider (pinned 1)) eq_refl). vm_compute. reflexivity.
Defined.
(** In hybrid mode, a flow the TUN holds whose destination now goes to the WAN is kept; one whose
    destination now goes to the tunnel is not. *)
Definition beside_tun (zone_mark : Z) : decider :=
  mkDecider 255 moved_view (mkV {[1 := "awg0"; 2 := "wan"]} {[2]}
    [mkView zone_mark [mkPrefix (Addr4 (8 * 2 ^ 24)) 8] [] false false false false [] [] false] []) false
    (mkOptions 100 None PlaneNft true).
Example tun_to_wan_kept :
  next_exit (beside_tun 2) (pinned 0) 2 true = Tun /\ exit_of true (cur (beside_tun 2)) 2 = Direct /\
  stale (beside_tun 2) (pinned 0) = false /\ stale (beside_tun 1) (pinned 0) = true.
Proof. vm_compute. done. Qed.
