(* ===== verification/Model.v ===== *)
(** * The profile

    Models the data of [src/internal/model]: the types of [model.go], [dns.go] and [ech.go], with the
    lookups and predicates the other components use. [any] is what a value of [map[string]any] holds,
    by its dynamic type: the parameters of a connection are such a map, and so is the configuration the
    generator builds. A pointer is an option; [zero_endpoint] and the like are Go's zero values.

    Further on: the graph of groups. *)
From S2P Require Import Prelude Util GoStrings.
Local Open Scope Z_scope.

Inductive any :=
  AString (s : string) | ABool (b : bool) | AInt (n : Z) | AInt64 (n : Z) | AUint32 (n : Z) | AFloat (f : f64)
| ANumber (s : string) | AStrings (l : list string) | AInts (l : list Z) | AList (l : list any)
| AMap (m : gmap string any) | AMaps (l : list (gmap string any)) | ANil | AOther.

Definition EngineSingBox : string := "singbox".
Definition EngineAmneziaWG : string := "amneziawg".
Definition EngineExternal : string := "external".
Definition EngineByeDPI : string := "byedpi".
Definition ProtoHysteria2 : string := "hysteria2".
Definition ProtoTUIC : string := "tuic".
Definition ProtoOpenVPN : string := "openvpn".
Definition ProtoOpenConnect : string := "openconnect".
Definition OwnerWayHop : string := "".
Definition OutboundDirect : string := "direct".
Definition OutboundBlock : string := "block".

(** ** Endpoints *)
Record ECH := mkECH { ech_Enabled : bool; ech_Config : string; ech_QueryServerName : string }.
Record TLS := mkTLS {
  tls_Enabled : bool; tls_Type : string; tls_SNI : string; tls_ALPN : list string; tls_Insecure : bool;
  tls_Fingerprint : string; tls_PublicKey : string; tls_ShortID : string; tls_Fragment : bool;
  tls_RecordFragment : bool; tls_ECH : option ECH; tls_PinCertSHA256 : list string;
  tls_PinPubKeySHA256 : list string; tls_PinCertMayBeCA : bool; tls_PinCertBesideChain : bool;
  tls_PinCertMayBeCAOf : list string; tls_PinCertBesideChainOf : list string
}.
Record Transport := mkTransport {
  tr_Type : string; tr_Path : string; tr_Host : string; tr_ServiceName : string; tr_Headers : gmap string string
}.
Record Brutal := mkBrutal { br_Enabled : bool; br_UpMbps : Z; br_DownMbps : Z }.
Record Multiplex := mkMultiplex {
  mx_Enabled : bool; mx_Protocol : string; mx_MaxConnections : Z; mx_MinStreams : Z; mx_MaxStreams : Z;
  mx_Padding : bool; mx_Brutal : option Brutal
}.
Record Health := mkHealth { h_URL : string; h_Interval : Z; h_Tolerance : Z }.
Record Endpoint := mkEndpoint {
  ep_ID : string; ep_Name : string; ep_Engine : string; ep_Protocol : string; ep_Owner : string;
  ep_Server : string; ep_Port : Z; ep_Params : gmap string any; ep_Transport : option Transport;
  ep_TLS : option TLS; ep_Multiplex : option Multiplex; ep_Health : option Health; ep_Enabled : bool;
  ep_MTU : Z; ep_PersistentKeepalive : Z; ep_AWGUserspace : bool; ep_Import : string
}.
#[export] Instance eta_endpoint : Eta Endpoint := fun e =>
  mkEndpoint (ep_ID e) (ep_Name e) (ep_Engine e) (ep_Protocol e) (ep_Owner e) (ep_Server e) (ep_Port e)
    (ep_Params e) (ep_Transport e) (ep_TLS e) (ep_Multiplex e) (ep_Health e) (ep_Enabled e) (ep_MTU e)
    (ep_PersistentKeepalive e) (ep_AWGUserspace e) (ep_Import e).
Definition zero_endpoint : Endpoint := mkEndpoint "" "" "" "" "" "" 0 ∅ None None None None false 0 0 false "".
Definition OwnsResource (e : Endpoint) : bool := bool_decide (ep_Owner e = OwnerWayHop).

(** ** Groups and rules *)
Record Group := mkGroup {
  gr_ID : string; gr_Name : string; gr_Type : string; gr_Members : list string; gr_Test : option Health;
  gr_KillSwitch : bool; gr_InterruptOnSwitch : bool; gr_Managed : bool
}.
#[export] Instance eta_group : Eta Group := fun g =>
  mkGroup (gr_ID g) (gr_Name g) (gr_Type g) (gr_Members g) (gr_Test g) (gr_KillSwitch g)
    (gr_InterruptOnSwitch g) (gr_Managed g).
Definition zero_group : Group := mkGroup "" "" "" [] None false false false.
Record Rule := mkRule {
  r_ID : string; DomainSuffix : list string; Domain : list string; GeoSite : list string; GeoIP : list string;
  IPCIDR : list string; r_Port : list Z; SourceIPCIDR : list string; SourceMAC : list string;
  SourceIface : list string; SourcePort : list Z; r_Default : bool; Disabled : bool; r_Outbound : string
}.
#[export] Instance eta_rule : Eta Rule := fun r =>
  mkRule (r_ID r) (DomainSuffix r) (Domain r) (GeoSite r) (GeoIP r) (IPCIDR r) (r_Port r) (SourceIPCIDR r)
    (SourceMAC r) (SourceIface r) (SourcePort r) (r_Default r) (Disabled r) (r_Outbound r).
Definition zero_rule : Rule := mkRule "" [] [] [] [] [] [] [] [] [] [] false false "".

(** ** Routing lists and device groups *)
Record RoutingList := mkList {
  rl_ID : string; rl_Name : string; Source : string; rl_Format : string; Manual : list string;
  rl_Outbound : string; DownloadVia : string; RefreshHours : Z; rl_Enabled : bool;
  CIDRSource : string; CIDRCache : list string; CIDRRefreshed : Z;
  DomainSource : string; DomainCache : list string; DomainRefreshed : Z;
  ScopeMode : string; ScopeGroups : list string; TLSFragment : string
}.
#[export] Instance eta_list : Eta RoutingList := fun l =>
  mkList (rl_ID l) (rl_Name l) (Source l) (rl_Format l) (Manual l) (rl_Outbound l) (DownloadVia l)
    (RefreshHours l) (rl_Enabled l) (CIDRSource l) (CIDRCache l) (CIDRRefreshed l) (DomainSource l)
    (DomainCache l) (DomainRefreshed l) (ScopeMode l) (ScopeGroups l) (TLSFragment l).
Definition zero_list : RoutingList := mkList "" "" "" "" [] "" "" 0 false "" [] 0 "" [] 0 "" [] "".
Record DeviceMember := mkMember { MAC : string; IP : string }.
Record DeviceGroup := mkDevices { dg_ID : string; dg_Name : string; dg_Members : list DeviceMember }.

(** ** The DNS plane *)
Record DNSServer := mkServer {
  ds_Tag : string; ds_Type : string; ds_Server : string; ds_ServerPort : Z; ds_Path : string; ds_SNI : string;
  ds_Detour : string; ds_DomainResolver : string; ds_Inet4Range : string; ds_Inet6Range : string;
  ds_Endpoint : string; ds_AcceptDefaultResolvers : bool; ds_AcceptSearchDomain : bool; ds_Enabled : bool
}.
#[export] Instance eta_server : Eta DNSServer := fun s =>
  mkServer (ds_Tag s) (ds_Type s) (ds_Server s) (ds_ServerPort s) (ds_Path s) (ds_SNI s) (ds_Detour s)
    (ds_DomainResolver s) (ds_Inet4Range s) (ds_Inet6Range s) (ds_Endpoint s) (ds_AcceptDefaultResolvers s)
    (ds_AcceptSearchDomain s) (ds_Enabled s).
Definition zero_server : DNSServer := mkServer "" "" "" 0 "" "" "" "" "" "" "" false false false.
Record DNSRule := mkDNSRule {
  dr_ID : string; dr_RuleSets : list string; dr_DomainSuffix : list string; dr_Domain : list string;
  dr_GeoSite : list string; dr_QueryType : list string; dr_Server : string; dr_Disabled : bool
}.
#[export] Instance eta_dns_rule : Eta DNSRule := fun r =>
  mkDNSRule (dr_ID r) (dr_RuleSets r) (dr_DomainSuffix r) (dr_Domain r) (dr_GeoSite r) (dr_QueryType r)
    (dr_Server r) (dr_Disabled r).
Definition zero_dns_rule : DNSRule := mkDNSRule "" [] [] [] [] [] "" false.
Record DNSSettings := mkDNS {
  dns_Enabled : bool; dns_Servers : list DNSServer; dns_Rules : list DNSRule; dns_Final : string;
  dns_Strategy : string; dns_LeakProof : bool; dns_Intercept : bool; dns_InterceptRejectEncrypted : bool;
  dns_FakeIP : bool; dns_DisableCache : bool; dns_IndependentCache : bool; dns_ClientSubnet : string;
  dns_ReverseMapping : bool
}.
#[export] Instance eta_dns : Eta DNSSettings := fun d =>
  mkDNS (dns_Enabled d) (dns_Servers d) (dns_Rules d) (dns_Final d) (dns_Strategy d) (dns_LeakProof d)
    (dns_Intercept d) (dns_InterceptRejectEncrypted d) (dns_FakeIP d) (dns_DisableCache d)
    (dns_IndependentCache d) (dns_ClientSubnet d) (dns_ReverseMapping d).
Definition zero_dns : DNSSettings := mkDNS false [] [] "" "" false false false false false false "" false.

(** ** The whole configuration *)
Record Profile := mkProfile {
  Endpoints : list Endpoint; Groups : list Group; Rules : list Rule; RoutingLists : list RoutingList;
  DeviceGroups : list DeviceGroup; DNS : option DNSSettings
}.
#[export] Instance eta_profile : Eta Profile := fun p =>
  mkProfile (Endpoints p) (Groups p) (Rules p) (RoutingLists p) (DeviceGroups p) (DNS p).
Definition zero_profile : Profile := mkProfile [] [] [] [] [] None.

Fixpoint find_by {A} (id : A -> string) (tag : string) (l : list A) : option A :=
  match l with
  | [] => None
  | x :: l => if bool_decide (id x = tag) then Some x else find_by id tag l
  end.
Definition EndpointByID (p : Profile) (id : string) : option Endpoint := find_by ep_ID id (Endpoints p).
Definition GroupByID (p : Profile) (id : string) : option Group := find_by gr_ID id (Groups p).
Definition RoutingListByID (p : Profile) (id : string) : option RoutingList := find_by rl_ID id (RoutingLists p).

Definition NDMPolicyPrefix : string := "ndm-policy:".
Definition NDMPolicyName (outbound : string) : option string := CutPrefix outbound NDMPolicyPrefix.
#[global] Arguments NDMPolicyName : simpl never.

Definition hasNonBlank (ss : list string) : bool := existsb (fun s => negb (bool_decide (trim s = ""))) ss.
Definition HasSourceMatcher (r : Rule) : bool :=
  hasNonBlank (SourceIPCIDR r) || hasNonBlank (SourceMAC r) || hasNonBlank (SourceIface r)
  || (0 <? length (SourcePort r))%nat.

(** ** Facts *)
Lemma find_by_Some {A} (id : A -> string) tag l x : find_by id tag l = Some x -> x ∈ l /\ id x = tag.
Proof.
  induction l as [|y l IH]; cbn [find_by]; [done|]. case_bool_decide as H.
  - intros [= ->]. split; [left|done].
  - intros Hx. destruct (IH Hx). split; [by right|done].
Qed.
Lemma find_by_None {A} (id : A -> string) tag l : find_by id tag l = None <-> tag ∉ (id <$> l).
Proof.
  induction l as [|y l IH]; cbn [find_by fmap list_fmap]; [split; [intros _; apply not_elem_of_nil|done]|].
  rewrite not_elem_of_cons. case_bool_decide as H; [split; [done|]; intros [H' _]; congruence|].
  rewrite IH. naive_solver.
Qed.
Lemma GroupByID_ID p tag g : GroupByID p tag = Some g -> g ∈ Groups p /\ gr_ID g = tag.
Proof. apply find_by_Some. Qed.

(** * The graph of groups

    A group and what it holds, and the measure of every search through nested groups: the groups it
    has not seen. *)
Local Close Scope Z_scope.
Local Open Scope nat_scope.

Section graph.
Context (q : Profile).
(** [a] is a group with member [m]. *)
Definition holds (a m : string) : Prop := exists g, GroupByID q a = Some g /\ m ∈ gr_Members g.
Definition unseen (seen : gset string) : nat := length (filter (fun g => gr_ID g ∉ seen) (Groups q)).

Lemma unseen_mono s t : s ⊆ t -> unseen t <= unseen s.
Proof.
  intros H. unfold unseen. induction (Groups q) as [|g l IH]; [done|]. rewrite !filter_cons.
  repeat case_decide; cbn [length]; try lia. set_solver.
Qed.
Lemma unseen_visit seen id g : GroupByID q id = Some g -> id ∉ seen -> unseen ({[id]} ∪ seen) < unseen seen.
Proof.
  unfold GroupByID, unseen. intros Hg Hn. apply find_by_Some in Hg as [Hin Hid].
  assert (Hle : forall l, length (filter (fun g => gr_ID g ∉ {[id]} ∪ seen) l) <= length (filter (fun g => gr_ID g ∉ seen) l)).
  { induction l as [|x l IH]; [done|]. rewrite !filter_cons. repeat case_decide; cbn [length]; try lia. set_solver. }
  induction (Groups q) as [|x l IH]; [by apply elem_of_nil in Hin|]. rewrite !filter_cons. specialize (Hle l).
  apply elem_of_cons in Hin as [<-|Hin].
  - rewrite decide_False by set_solver. rewrite decide_True by (by rewrite Hid). cbn [length]. lia.
  - specialize (IH Hin). repeat case_decide; cbn [length]; try lia. set_solver.
Qed.
Lemma unseen_bound s : unseen s <= length (Groups q).
Proof. apply length_filter. Qed.
End graph.
