(* ===== verification/Faults.v ===== *)
(** * Validation errors

    The error values of [src/internal/model/validate.go], an error monad over them, and the loops that
    stop at the first error. [Invalid kind id what] is one of the plain errors: the kind and id of the
    object the message names, and the fixed part of the message. *)
From S2P Require Import Prelude.

Inductive fault :=
  DisabledRef (kind id target : string) | UnresolvedRef (kind id target : string) | Invalid (kind id what : string).
#[export] Instance fault_eq_dec : EqDecision fault.
Proof. solve_decision. Defined.

#[export] Instance err_ret {E} : MRet (sum E) := fun A => inr.
#[export] Instance err_bind {E} : MBind (sum E) := fun A B f m => match m with inl e => inl e | inr a => f a end.

Definition refuse {E} (b : bool) (e : E) : E + unit := if b then inl e else inr tt.
Abbreviation ok := (inr tt) (only parsing).

(** [for _, x := range l { if err := f(x); err != nil { return err } }], with the state it carries. *)
Fixpoint each {E S A} (f : S -> A -> E + S) (s : S) (l : list A) : E + S :=
  match l with
  | [] => inr s
  | x :: l => s' ← f s x; each f s' l
  end.
Fixpoint for_all {E A} (f : A -> E + unit) (l : list A) : E + unit :=
  match l with
  | [] => inr tt
  | x :: l => _ ← f x; for_all f l
  end.

(** ** Facts *)
Lemma bind_inr {E A B} (f : A -> E + B) (m : E + A) b : (m ≫= f) = inr b <-> exists a, m = inr a /\ f a = inr b.
Proof. destruct m; cbn; naive_solver. Qed.
Lemma seq_inr {E B} (m : E + unit) (k : E + B) b : (m ≫= fun _ => k) = inr b <-> m = inr tt /\ k = inr b.
Proof. rewrite bind_inr. split; [intros ([] & ? & ?); done|intros [? ?]; by exists tt]. Qed.
Lemma refuse_ok {E} b (e : E) u : refuse b e = inr u <-> b = false.
Proof. destruct b, u; cbn; naive_solver. Qed.
Lemma if_ok {E} (b : bool) (m : E + unit) u : (if b then m else inr tt) = inr u <-> (b = true -> m = inr tt).
Proof. destruct b, u; naive_solver. Qed.
Lemma for_all_ok {E A} (f : A -> E + unit) l : for_all f l = inr tt <-> Forall (fun x => f x = inr tt) l.
Proof.
  induction l as [|x l IH]; cbn [for_all]; [by split|]. rewrite seq_inr, IH, Forall_cons. done.
Qed.
Lemma each_app {E S A} (f : S -> A -> E + S) l k s : each f s (l ++ k) = (each f s l ≫= fun s' => each f s' k).
Proof.
  revert s. induction l as [|x l IH]; intros s; [done|]. cbn [each app].
  destruct (f s x) as [e|s']; [done|]. cbn. apply IH.
Qed.
(** A loop whose step checks an element against the state and then adds its key, fresh, to it. *)
Lemma each_step {E S A} (f : S -> A -> E + S) s x l s' :
  each f s (x :: l) = inr s' <-> exists s1, f s x = inr s1 /\ each f s1 l = inr s'.
Proof. cbn [each]. apply bind_inr. Qed.
