(* ===== verification/ByeDPI.v ===== *)
(** * ByeDPI strategies

    Models [src/internal/model/byedpi.go]: the documented options of [ciadpi], which of them are refused
    or take inline data only, and [ByeDPIStrategy], which checks every word of a strategy. A strategy is
    the argv of a process; [reads] is how [getopt_long] takes such an argv apart, and
    [accepted_strategy_is_harmless] says what an accepted strategy then asks for. *)
From S2P Require Import Prelude GoStrings GoText Model Faults.
Local Open Scope Z_scope.

Definition DefaultByeDPIStrategy : string := "--disorder 1 --auto=torst --tlsrec 1+s".

Record byedpiFlag := mkFlag { short : string; long : string; arg : bool }.
Definition byedpiFlags : list byedpiFlag :=
  [mkFlag "i" "ip" true; mkFlag "p" "port" true; mkFlag "D" "daemon" false; mkFlag "w" "pidfile" true;
   mkFlag "E" "transparent" false; mkFlag "c" "max-conn" true; mkFlag "b" "buf-size" true; mkFlag "g" "def-ttl" true;
   mkFlag "N" "no-domain" false; mkFlag "U" "no-udp" false; mkFlag "F" "tfo" false; mkFlag "A" "auto" true;
   mkFlag "L" "auto-mode" true; mkFlag "u" "cache-ttl" true; mkFlag "y" "cache-dump" true; mkFlag "T" "timeout" true;
   mkFlag "K" "proto" true; mkFlag "H" "hosts" true; mkFlag "j" "ipset" true; mkFlag "V" "pf" true;
   mkFlag "R" "round" true; mkFlag "s" "split" true; mkFlag "d" "disorder" true; mkFlag "o" "oob" true;
   mkFlag "q" "disoob" true; mkFlag "f" "fake" true; mkFlag "t" "ttl" true; mkFlag "S" "md5sig" false;
   mkFlag "O" "fake-offset" true; mkFlag "l" "fake-data" true; mkFlag "e" "oob-data" true; mkFlag "n" "fake-sni" true;
   mkFlag "Q" "fake-tls-mod" true; mkFlag "M" "mod-http" true; mkFlag "r" "tlsrec" true; mkFlag "m" "tlsminor" true;
   mkFlag "a" "udp-fake" true; mkFlag "Y" "drop-sack" false].
Definition byedpiRefused : list string := ["ip"; "port"; "daemon"; "pidfile"; "transparent"; "cache-dump"].
Definition byedpiInlineOnly : list string := ["hosts"; "ipset"; "fake-data"].

(** The last entry of the table a name matches; no two entries share a name. *)
Definition flag_by (name : byedpiFlag -> string) (s : bytes) : option byedpiFlag :=
  last (filter (fun f => str (name f) = s) byedpiFlags).

(** A word as a flag: the option it names and the value it carries, [None] for neither form. *)
Definition read_flag (tok : bytes) : option (byedpiFlag * option bytes) :=
  match strip_prefix [45; 45] tok with
  | Some name =>
      let '(name, val) := Netip.split_at 61 name in
      f ← flag_by long name; Some (f, val)
  | None =>
      match strip_prefix [45] tok with
      | Some (c :: val) => f ← flag_by short [c]; Some (f, match val with [] => None | _ => Some val end)
      | _ => None
      end
  end.

Definition flag_char (c : Z) : bool := in_range 0x21 0x7e c.
(** What is left to check once a word's option and value are known. *)
Definition check_value (f : byedpiFlag) (val : bytes) : option string :=
  match val with
  | [] => Some "needs a value"
  | c :: _ => if bool_decide (long f ∈ byedpiInlineOnly) && negb (c =? 58) then Some "inline data only" else None
  end.
(** The loop over the words: the reason the first bad one is refused. *)
Fixpoint check_words (toks : list bytes) : option string :=
  match toks with
  | [] => None
  | tok :: rest =>
      if negb (forallb flag_char tok) then Some "character"
      else match read_flag tok with
      | None => Some "not a ciadpi flag"
      | Some (f, val) =>
          if bool_decide (long f ∈ byedpiRefused) then Some "not allowed"
          else if negb (arg f) then
            match val with Some _ => Some "takes no value" | None => check_words rest end
          else match val with
          | Some v => match check_value f v with Some e => Some e | None => check_words rest end
          | None =>
              match rest with
              | [] => Some "needs a value"
              | v :: rest => match check_value f v with Some e => Some e | None => check_words rest end
              end
          end
      end
  end.

Definition param_string (params : gmap string any) (k : string) : string :=
  match params !! k with Some (AString s) => s | _ => "" end.
Definition ByeDPIStrategy (params : gmap string any) : string + list bytes :=
  let raw := param_string params "strategy" in
  let raw := if bool_decide (trim raw = "") then DefaultByeDPIStrategy else raw in
  let toks := Fields (str raw) in
  if (64 <? length toks)%nat then inl "too many words"
  else match check_words toks with Some e => inl e | None => inr toks end.

(** ** What [ciadpi] reads

    [getopt_long] over an argv: a word that starts an option names it exactly, or by a prefix of a long
    name that only one option has, and takes its value from the same word or from the next one. An
    option without a value may be followed, in a short word, by more short options. [reads argv l]: the
    argv asks for the options [l], with their values. *)
Definition long_matches (name : bytes) (f : byedpiFlag) : Prop :=
  str (long f) = name \/ (exists rest, rest <> [] /\ str (long f) = name ++ rest /\
                          forall g, g ∈ byedpiFlags -> str (long g) <> name).
Inductive reads : list bytes -> list (byedpiFlag * option bytes) -> Prop :=
| reads_nil : reads [] []
| reads_long_inline name val f argv l : f ∈ byedpiFlags -> long_matches name f -> 61 ∉ name ->
    reads argv l -> reads ((45 :: 45 :: name ++ 61 :: val) :: argv) ((f, Some val) :: l)
| reads_long_next name val f argv l : f ∈ byedpiFlags -> long_matches name f -> 61 ∉ name -> arg f = true ->
    reads argv l -> reads ((45 :: 45 :: name) :: val :: argv) ((f, Some val) :: l)
| reads_long_bare name f argv l : f ∈ byedpiFlags -> long_matches name f -> 61 ∉ name -> arg f = false ->
    reads argv l -> reads ((45 :: 45 :: name) :: argv) ((f, None) :: l)
| reads_short_inline c val f argv l : f ∈ byedpiFlags -> str (short f) = [c] -> arg f = true -> val <> [] ->
    reads argv l -> reads ((45 :: c :: val) :: argv) ((f, Some val) :: l)
| reads_short_next c val f argv l : f ∈ byedpiFlags -> str (short f) = [c] -> arg f = true ->
    reads argv l -> reads ([45; c] :: val :: argv) ((f, Some val) :: l)
| reads_short_bare c f argv l : f ∈ byedpiFlags -> str (short f) = [c] -> arg f = false ->
    reads argv l -> reads ([45; c] :: argv) ((f, None) :: l)
| reads_short_more c d more f argv l : f ∈ byedpiFlags -> str (short f) = [c] -> arg f = false ->
    reads ((45 :: d :: more) :: argv) l -> reads ((45 :: c :: d :: more) :: argv) ((f, None) :: l).

(** An option the daemon leaves to the strategy, with the value it needs. *)
Definition harmless (o : byedpiFlag * option bytes) : Prop :=
  (long (fst o) ∉ byedpiRefused) /\
  (arg (fst o) = true <-> is_Some (snd o)) /\
  (long (fst o) ∈ byedpiInlineOnly -> exists data, snd o = Some (58 :: data)).

(** ** An accepted strategy *)
Lemma flag_by_long f : f ∈ byedpiFlags -> flag_by long (str (long f)) = Some f.
Proof. revert f. apply Forall_forall. repeat (constructor; [vm_compute; reflexivity|]). constructor. Qed.
Lemma flag_by_short f : f ∈ byedpiFlags -> flag_by short (str (short f)) = Some f.
Proof. revert f. apply Forall_forall. repeat (constructor; [vm_compute; reflexivity|]). constructor. Qed.
Lemma flag_by_in name s f : flag_by name s = Some f -> f ∈ byedpiFlags /\ str (name f) = s.
Proof. unfold flag_by. intros H%last_Some_elem_of. apply list_elem_of_filter in H as [? ?]. done. Qed.
(** A long name that is read by [getopt_long] and found in the table is its option's full name. *)
Lemma long_name_exact name f g : f ∈ byedpiFlags -> long_matches name f -> flag_by long name = Some g -> g = f.
Proof.
  intros Hf [<-|(rest & _ & _ & Hn)] Hg; [rewrite flag_by_long in Hg by done; congruence|].
  apply flag_by_in in Hg as [Hg E]. by destruct (Hn g Hg).
Qed.
Lemma read_long name val : 61 ∉ name ->
  read_flag (45 :: 45 :: name ++ 61 :: val) = (f ← flag_by long name; Some (f, Some val)).
Proof. intros H. cbn [read_flag strip_prefix Z.eqb Pos.eqb]. unfold read_flag. cbn. by rewrite Netip.split_at_first. Qed.
Lemma read_long_bare name : 61 ∉ name -> read_flag (45 :: 45 :: name) = (f ← flag_by long name; Some (f, None)).
Proof. intros H. unfold read_flag. cbn. by rewrite Netip.split_at_absent. Qed.
Lemma flag_by_dash : flag_by short [45] = None.
Proof. reflexivity. Qed.
Lemma read_short c val f : f ∈ byedpiFlags -> str (short f) = [c] ->
  read_flag (45 :: c :: val) = Some (f, match val with [] => None | _ => Some val end).
Proof.
  intros Hf Hc. pose proof (flag_by_short f Hf) as E. rewrite Hc in E.
  assert (c <> 45) by (intros ->; by rewrite flag_by_dash in E). unfold read_flag.
  assert (strip_prefix [45; 45] (45 :: c :: val) = None) as ->
    by (cbn [strip_prefix]; rewrite Z.eqb_refl; by destruct (Z.eqb_spec 45 c)).
  cbn [strip_prefix]. rewrite Z.eqb_refl, E. done.
Qed.
Lemma check_value_ok f v : arg f = true -> long f ∉ byedpiRefused -> check_value f v = None -> harmless (f, Some v).
Proof.
  intros Ha Hr Hv. split; [done|]. split; [naive_solver|]. intros Hi. cbn [fst snd] in *.
  destruct v as [|c v]; [done|]. cbn [check_value] in Hv. rewrite bool_decide_true in Hv by done.
  destruct (Z.eqb_spec c 58) as [->|]; [by exists v|done].
Qed.
Lemma bare_harmless f : arg f = false -> long f ∉ byedpiRefused -> long f ∉ byedpiInlineOnly -> harmless (f, None).
Proof.
  intros Ha Hr Hi. split; [done|]. split; [|done]. cbn. split; [congruence|intros [? [=]]].
Qed.
Lemma inline_only_arg f : f ∈ byedpiFlags -> arg f = false -> long f ∉ byedpiInlineOnly.
Proof.
  intros Hf. assert (H : forallb (fun f => arg f || bool_decide (long f ∉ byedpiInlineOnly)) byedpiFlags = true) by reflexivity.
  rewrite forallb_forall in H. intros Ha. specialize (H f (proj1 (list_elem_of_In _ _) Hf)). rewrite Ha in H. by apply bool_decide_eq_true in H.
Qed.

Lemma check_words_cons tok rest : check_words (tok :: rest) = None ->
  exists f val, read_flag tok = Some (f, val) /\ (f ∈ byedpiFlags) /\ (long f ∉ byedpiRefused) /\
    if arg f then
      match val with
      | Some v => check_value f v = None /\ check_words rest = None
      | None => exists v rest', rest = v :: rest' /\ check_value f v = None /\ check_words rest' = None
      end
    else val = None /\ check_words rest = None.
Proof.
  cbn [check_words]. destruct (negb (forallb flag_char tok)); [done|].
  destruct (read_flag tok) as [[f val]|] eqn:E; [|done]. case_bool_decide as Hr; [done|].
  intros H. exists f, val. split; [done|]. split.
  { revert E. unfold read_flag. destruct (strip_prefix [45; 45] tok) as [name|].
    - destruct (Netip.split_at 61 name) as [n v]. destruct (flag_by long n) as [g|] eqn:Eg; [|done]. intros [= <- _].
      by destruct (flag_by_in _ _ _ Eg).
    - destruct (strip_prefix [45] tok) as [[|c t]|]; [done| |done]. destruct (flag_by short [c]) as [g|] eqn:Eg; [|done].
      intros [= <- _]. by destruct (flag_by_in _ _ _ Eg). }
  split; [done|]. destruct (arg f); cbn [negb] in H.
  - destruct val as [v|]; [by destruct (check_value f v)|]. destruct rest as [|v rest]; [done|].
    exists v, rest. by destruct (check_value f v).
  - by destruct val.
Qed.
Ltac same_flag :=
  match goal with
  | Hf : ?f ∈ byedpiFlags, Hm : long_matches ?n ?f, E : (flag_by long ?n ≫= _) = Some _ |- _ =>
      let g := fresh "g" in let Eg := fresh "Eg" in
      destruct (flag_by long n) as [g|] eqn:Eg; [|discriminate]; injection E as -> <-;
      pose proof (long_name_exact n f _ Hf Hm Eg); subst
  end.
Lemma accepted_words_harmless argv l : reads argv l -> check_words argv = None -> Forall harmless l.
Proof.
  induction 1 as [|name val f argv l Hf Hm Hn _ IH|name val f argv l Hf Hm Hn Ha _ IH|name f argv l Hf Hm Hn Ha _ IH
                 |c val f argv l Hf Hc Ha Hv _ IH|c val f argv l Hf Hc Ha _ IH|c f argv l Hf Hc Ha _ IH|c d more f argv l Hf Hc Ha _ IH];
    [by constructor|..]; intros H; apply check_words_cons in H as (f' & v' & E & Hin & Hr & H).
  - rewrite read_long in E by done. same_flag. destruct (arg f) eqn:Ha; [|by destruct H].
    destruct H as [Hv H]. constructor; [by apply check_value_ok|by apply IH].
  - rewrite read_long_bare in E by done. same_flag. rewrite Ha in H. destruct H as (v & rest & [= <- <-] & Hv & H).
    constructor; [by apply check_value_ok|by apply IH].
  - rewrite read_long_bare in E by done. same_flag. rewrite Ha in H. destruct H as [_ H].
    constructor; [apply bare_harmless; [done|done|by apply inline_only_arg]|by apply IH].
  - rewrite (read_short c val f) in E by done. injection E as <- <-. rewrite Ha in H. destruct val as [|d val]; [done|].
    destruct H as [Hv' H]. constructor; [by apply check_value_ok|by apply IH].
  - rewrite (read_short c [] f) in E by done. injection E as <- <-. rewrite Ha in H. destruct H as (v & rest & [= <- <-] & Hv & H).
    constructor; [by apply check_value_ok|by apply IH].
  - rewrite (read_short c [] f) in E by done. injection E as <- <-. rewrite Ha in H. destruct H as [_ H].
    constructor; [apply bare_harmless; [done|done|by apply inline_only_arg]|by apply IH].
  - rewrite (read_short c (d :: more) f) in E by done. injection E as <- <-. rewrite Ha in H. by destruct H.
Qed.
Lemma split_at_parts c s a b : Netip.split_at c s = (a, b) ->
  (c ∉ a) /\ s = match b with Some r => a ++ c :: r | None => a end.
Proof.
  revert a b. induction s as [|d s IH]; intros a b; cbn [Netip.split_at].
  - intros [= <- <-]. split; [apply not_elem_of_nil|done].
  - destruct (Z.eqb_spec d c) as [->|Hd]; [intros [= <- <-]; split; [apply not_elem_of_nil|done]|].
    destruct (Netip.split_at c s) as [a' b'] eqn:E. intros [= <- <-]. destruct (IH a' b' eq_refl) as [H ->].
    split; [rewrite not_elem_of_cons; split; [by intros ->|done]|by destruct b'].
Qed.
Lemma strip_prefix_Some p s r : strip_prefix p s = Some r -> s = p ++ r.
Proof.
  revert s. induction p as [|c p IH]; intros [|d s]; cbn [strip_prefix]; try done; [by intros [= <-]|by intros [= <-]|].
  destruct (Z.eqb_spec c d) as [->|]; [|done]. intros H. by rewrite (IH s H).
Qed.
(** Every accepted argv is one that [ciadpi] can read. *)
Lemma accepted_words_read n argv : (length argv <= n)%nat -> check_words argv = None -> exists l, reads argv l.
Proof.
  revert argv. induction n as [|n IH]; intros [|tok rest] Hl H; [by exists []; constructor|cbn in Hl; lia|by exists []; constructor|].
  cbn [length] in Hl. apply check_words_cons in H as (f & val & E & Hf & _ & H). unfold read_flag in E.
  destruct (strip_prefix [45; 45] tok) as [name|] eqn:Et.
  - apply strip_prefix_Some in Et as ->. destruct (Netip.split_at 61 name) as [m v] eqn:Es. apply split_at_parts in Es as [Hm ->].
    destruct (flag_by long m) as [g|] eqn:Eg; [|done]. injection E as -> ->.
    assert (Hmatch : long_matches m f) by (left; by destruct (flag_by_in _ _ _ Eg)). cbn [app].
    destruct (arg f) eqn:Ha, val as [v|].
    + destruct H as [_ H]. destruct (IH rest) as [l Hr]; [lia|done|]. exists ((f, Some v) :: l). by constructor.
    + destruct H as (v & rest' & -> & _ & H). cbn in Hl. destruct (IH rest') as [l Hr]; [lia|done|]. exists ((f, Some v) :: l). by constructor.
    + by destruct H.
    + destruct H as [_ H]. destruct (IH rest) as [l Hr]; [lia|done|]. exists ((f, None) :: l). by constructor.
  - destruct (strip_prefix [45] tok) as [[|c t]|] eqn:Ed; [done| |done]. apply strip_prefix_Some in Ed as ->. cbn [app].
    destruct (flag_by short [c]) as [g|] eqn:Eg; [|done]. injection E as -> Ev.
    assert (Hc : str (short f) = [c]) by by destruct (flag_by_in _ _ _ Eg).
    destruct (arg f) eqn:Ha, val as [v|].
    + destruct H as [_ H]. destruct (IH rest) as [l Hr]; [lia|done|]. exists ((f, Some v) :: l).
      destruct t as [|d t]; [done|]. injection Ev as <-. by constructor.
    + destruct H as (v & rest' & -> & _ & H). cbn in Hl. destruct (IH rest') as [l Hr]; [lia|done|]. exists ((f, Some v) :: l).
      destruct t as [|d t]; [|done]. by constructor.
    + by destruct H.
    + destruct H as [_ H]. destruct (IH rest) as [l Hr]; [lia|done|]. exists ((f, None) :: l).
      destruct t as [|d t]; [|done]. by constructor.
Qed.

(** C25: a strategy cannot take [ciadpi] off its leash. The words of an accepted strategy are at most 64,
    [ciadpi] can read them, and however it reads them (abbreviated long names and clustered short ones
    included) no option says where it listens, makes it a daemon, writes a file or leaves the proxy mode;
    every option that takes a value has one, and where a file name would do, the value is inline data. *)
Theorem accepted_strategy_is_harmless params argv : ByeDPIStrategy params = inr argv ->
  (length argv <= 64)%nat /\ (exists l, reads argv l) /\ (forall l, reads argv l -> Forall harmless l).
Proof.
  unfold ByeDPIStrategy. set (raw := if bool_decide _ then _ else _). destruct (Nat.ltb_spec 64 (length (Fields (str raw)))) as [|Hl]; [done|].
  destruct (check_words (Fields (str raw))) eqn:E; [done|]. intros [= <-]. split; [done|]. split.
  - by eapply accepted_words_read.
  - intros l Hr. by eapply accepted_words_harmless.
Qed.
Lemma accepted_strategy_is_harmless_witness :
  ByeDPIStrategy {["strategy" := AString "--fake -1 -l :abc -Y"]} = inr [str "--fake"; str "-1"; str "-l"; str ":abc"; str "-Y"] /\
  exists l, reads [str "--fake"; str "-1"; str "-l"; str ":abc"; str "-Y"] l.
Proof.
  assert (H : ByeDPIStrategy {["strategy" := AString "--fake -1 -l :abc -Y"]} = inr [str "--fake"; str "-1"; str "-l"; str ":abc"; str "-Y"]) by (vm_compute; reflexivity).
  split; [exact H|]. exact (proj1 (proj2 (accepted_strategy_is_harmless _ _ H))).
Defined.
(** The empty strategy is the documented default, and it is accepted. *)
Example default_strategy_accepted : ByeDPIStrategy ∅ = inr (map str ["--disorder"; "1"; "--auto=torst"; "--tlsrec"; "1+s"]).
Proof. vm_compute. reflexivity. Qed.
(** A value in a word of its own is not held to the characters of a flag. *)
Example value_characters_unchecked :
  check_words [str "-n"; [208; 191]] = None /\ check_words [str "-n" ++ [208; 191]] = Some "character".
Proof. vm_compute. split; reflexivity. Qed.
