(* ===== verification/Dns.v ===== *)
(** * The DNS plane

    Models [src/internal/model/dns.go]: the server types, [DefaultServer], [validateDNS] in full, the
    connections whose pushed resolvers a server asks ([vpnResolverFault], [validateVPNDNSServer],
    [StrandedVPNResolvers]) and the namespace [ValidateDNS] resolves against; [isBuiltin] and
    [isResolvable] are [validate.go]'s. Case folding beyond ASCII is an argument.

    Further on: what a valid DNS plane is. *)
From S2P Require Import Prelude GoStrings GoText Model Faults.
Local Open Scope Z_scope.

Definition validDNSServerTypes : list string :=
  ["https"; "tls"; "quic"; "h3"; "udp"; "tcp"; "local"; "fakeip"; "openvpn"; "openconnect"].
Definition encryptedDNSTypes : list string := ["https"; "tls"; "quic"; "h3"].
Definition plaintextDNSTypes : list string := ["udp"; "tcp"].
Definition networkDNSTypes : list string := ["https"; "tls"; "quic"; "h3"; "udp"; "tcp"].
Definition validDNSStrategies : list string := [""; "prefer_ipv4"; "prefer_ipv6"; "ipv4_only"; "ipv6_only"].
Definition vpnDNSTypes (t : string) : option string :=
  if bool_decide (t = "openvpn") then Some ProtoOpenVPN
  else if bool_decide (t = "openconnect") then Some ProtoOpenConnect else None.

Definition blank (s : string) : bool := bool_decide (trim s = "").
Definition isEncryptedDNSType (t : string) : bool := bool_decide (t ∈ encryptedDNSTypes).

(** The server a query no rule matched goes to. *)
Definition emitted (tun : bool) (s : DNSServer) : bool := ds_Enabled s && (tun || negb (bool_decide (ds_Type s = "fakeip"))).
Definition DefaultServer (d : option DNSSettings) (tun : bool) : option DNSServer :=
  d ← d;
  match (if bool_decide (dns_Final d = "") then None
         else find (fun s => bool_decide (ds_Tag s = dns_Final d) && emitted tun s) (dns_Servers d)) with
  | Some s => Some s
  | None => find (emitted tun) (dns_Servers d)
  end.

Definition dnsRuleHasNoMatcher (r : DNSRule) : bool :=
  negb (hasNonBlank (dr_RuleSets r)) && negb (hasNonBlank (dr_DomainSuffix r)) && negb (hasNonBlank (dr_Domain r))
  && negb (hasNonBlank (dr_GeoSite r)) && negb (hasNonBlank (dr_QueryType r)).

(** ** Connections whose pushed resolvers are asked *)
Inductive vpn_fault := vpnFaultNone | vpnFaultMissing | vpnFaultProtocol | vpnFaultEngine | vpnFaultOff.
#[export] Instance vpn_fault_eq_dec : EqDecision vpn_fault.
Proof. solve_decision. Defined.
Definition vpnResolverFault (proto id : string) (eps : list Endpoint) : option Endpoint * vpn_fault :=
  match find_by ep_ID id eps with
  | None => (None, vpnFaultMissing)
  | Some e =>
      (Some e,
       if negb (bool_decide (ep_Protocol e = proto)) then vpnFaultProtocol
       else if negb (bool_decide (ep_Engine e = EngineSingBox)) then vpnFaultEngine
       else if negb (ep_Enabled e) then vpnFaultOff else vpnFaultNone)
  end.
Definition validateVPNDNSServer (s : DNSServer) (proto : string) (eps : list Endpoint) (seen : gmap string string) :
    fault + gmap string string :=
  let id := trim (ds_Endpoint s) in
  _ ← refuse (bool_decide (id = "")) (Invalid "dns server" (ds_Tag s) "choose the connection");
  _ ← match snd (vpnResolverFault proto id eps) with
      | vpnFaultMissing => inl (UnresolvedRef "DNS server" (ds_Tag s) id)
      | vpnFaultProtocol => inl (Invalid "dns server" (ds_Tag s) "protocol")
      | vpnFaultEngine => inl (Invalid "dns server" (ds_Tag s) "not run by the proxy core")
      | vpnFaultOff => inl (DisabledRef "DNS server" (ds_Tag s) id)
      | vpnFaultNone => ok
      end;
  _ ← refuse (bool_decide (is_Some (seen !! id))) (Invalid "dns server" (ds_Tag s) "one DNS server per connection");
  inr (<[id := ds_Tag s]> seen).

Record StrandedVPNResolver := mkStranded { sv_Tag : string; sv_Endpoint : string; sv_Why : vpn_fault }.
#[export] Instance stranded_eq_dec : EqDecision StrandedVPNResolver.
Proof. solve_decision. Defined.
Definition stranded_server (eps : list Endpoint) (s : DNSServer) : option StrandedVPNResolver :=
  proto ← vpnDNSTypes (ds_Type s);
  let id := trim (ds_Endpoint s) in
  if negb (ds_Enabled s) || bool_decide (id = "") then None
  else match snd (vpnResolverFault proto id eps) with
       | vpnFaultNone => None
       | why => Some (mkStranded (ds_Tag s) id why)
       end.
Definition StrandedVPNResolvers (p : Profile) : list StrandedVPNResolver :=
  match DNS p with None => [] | Some d => omap (stranded_server (Endpoints p)) (dns_Servers d) end.

Section dns.
Context (unicode_lower : bytes -> bytes).

Definition lower (s : string) : string := unstr (ToLower unicode_lower (str s)).
Definition isBuiltin (target : string) : bool :=
  bool_decide (lower target = OutboundDirect) || bool_decide (lower target = OutboundBlock).
Definition isResolvable (target : string) (ids : gmap string string) : bool :=
  isBuiltin target || bool_decide (is_Some (ids !! target)).
Definition IsVPNDNSType (t : string) : bool := bool_decide (is_Some (vpnDNSTypes (lower (trim t)))).
Definition IsEncryptedDNSType (t : string) : bool := isEncryptedDNSType (lower (trim t)).

(** ** [validateDNS] *)
Section validate.
Context (dns : DNSSettings) (ids : gmap string string) (enabled : gmap string bool) (eps : list Endpoint).

Definition off (id : string) : bool := negb (default false (enabled !! id)).

(** What the loop over the servers has seen: each tag with its switch and type, and the connections
    already asked. *)
Record scan := mkScan { tags : gmap string (bool * string); vpnServerOf : gmap string string }.
Definition serverEnabled (st : scan) (t : string) : bool := match tags st !! t with Some (b, _) => b | None => false end.
Definition serverType (st : scan) (t : string) : string := match tags st !! t with Some (_, y) => y | None => "" end.

Definition check_network (s : DNSServer) : fault + unit :=
  let bad := Invalid "dns server" (ds_Tag s) in
  _ ← refuse (blank (ds_Server s)) (bad "empty server address");
  _ ← refuse (isEncryptedDNSType (ds_Type s) && bool_decide (net_ParseIP (trim (ds_Server s)) = None) && blank (ds_DomainResolver s))
        (bad "needs a bootstrap domain_resolver");
  _ ← refuse (negb (ds_ServerPort s =? 0) && ((ds_ServerPort s <? 1) || (65535 <? ds_ServerPort s))) (bad "server_port out of range");
  if negb (bool_decide (ds_Detour s = "")) then
    _ ← refuse (bool_decide (ds_Detour s = OutboundBlock)) (bad "detour is a route action");
    _ ← refuse (negb (isResolvable (ds_Detour s) ids)) (bad "detour does not resolve");
    refuse (negb (isBuiltin (ds_Detour s)) && off (ds_Detour s)) (bad "detour targets a disabled endpoint")
  else ok.
Definition check_fakeip (s : DNSServer) : fault + unit :=
  let bad := Invalid "dns server" (ds_Tag s) in
  _ ← refuse (blank (ds_Inet4Range s)) (bad "fakeip needs an inet4_range");
  _ ← refuse (negb (net_ParseCIDR (trim (ds_Inet4Range s)))) (bad "inet4_range must be a CIDR");
  refuse (negb (blank (ds_Inet6Range s)) && negb (net_ParseCIDR (trim (ds_Inet6Range s)))) (bad "inet6_range must be a CIDR").
Definition check_server (st : scan) (s : DNSServer) : fault + scan :=
  let bad := Invalid "dns server" (ds_Tag s) in
  _ ← refuse (blank (ds_Tag s)) (bad "empty tag");
  _ ← refuse (bool_decide (is_Some (tags st !! ds_Tag s))) (bad "duplicate server tag");
  let tg := <[ds_Tag s := (ds_Enabled s, ds_Type s)]> (tags st) in
  _ ← refuse (negb (bool_decide (ds_Type s ∈ validDNSServerTypes))) (bad "unknown type");
  _ ← refuse (dns_LeakProof dns && bool_decide (ds_Type s ∈ plaintextDNSTypes)) (bad "plaintext with leak protection");
  seen ← match vpnDNSTypes (ds_Type s) with
         | Some proto => if ds_Enabled s then validateVPNDNSServer s proto eps (vpnServerOf st) else inr (vpnServerOf st)
         | None => inr (vpnServerOf st)
         end;
  _ ← (if bool_decide (ds_Type s ∈ networkDNSTypes) then check_network s else ok);
  _ ← (if bool_decide (ds_Type s = "fakeip") then check_fakeip s else ok);
  inr (mkScan tg seen).

Definition check_bootstrap (st : scan) (s : DNSServer) : fault + unit :=
  let bad := Invalid "dns server" (ds_Tag s) in
  let dr := trim (ds_DomainResolver s) in
  let t := serverType st dr in
  if negb (ds_Enabled s) || negb (bool_decide (ds_Type s ∈ networkDNSTypes)) || bool_decide (dr = "") then ok
  else
    _ ← refuse (negb (bool_decide (is_Some (tags st !! dr)))) (bad "domain_resolver is not a defined server tag");
    _ ← refuse (negb (serverEnabled st dr)) (bad "domain_resolver targets a disabled server");
    refuse (bool_decide (t = "fakeip") || bool_decide (t = "local") || IsVPNDNSType t) (bad "domain_resolver cannot bootstrap").

Definition check_default (tun : bool) : fault + unit :=
  match DefaultServer (Some dns) tun with
  | Some def => refuse (IsVPNDNSType (ds_Type def)) (Invalid "dns" "" "the first resolver only answers its VPN's names")
  | None => ok
  end.
Definition check_final (st : scan) : fault + unit :=
  let final := dns_Final dns in
  _ ← refuse (negb (bool_decide (final = "")) && negb (bool_decide (is_Some (tags st !! final)))) (Invalid "dns" "" "final is not a defined server tag");
  _ ← refuse (IsVPNDNSType (serverType st final)) (Invalid "dns" "" "the default resolver only answers its VPN's names");
  _ ← for_all check_default [false; true];
  _ ← (if dns_LeakProof dns && negb (bool_decide (final = "")) then
         for_all (fun s => refuse (bool_decide (ds_Tag s = final) && negb (isEncryptedDNSType (ds_Type s)))
                             (Invalid "dns" "" "leak protection requires an encrypted final")) (dns_Servers dns)
       else ok);
  _ ← (if dns_LeakProof dns && bool_decide (final = "") then
         match DefaultServer (Some dns) false with
         | Some def => refuse (negb (isEncryptedDNSType (ds_Type def))) (Invalid "dns" "" "leak protection requires an encrypted default")
         | None => ok
         end
       else ok);
  refuse (negb (bool_decide (final = "")) && negb (serverEnabled st final)) (Invalid "dns" "" "final targets a disabled server").

Definition check_dns_rule (st : scan) (r : DNSRule) : fault + unit :=
  let bad := Invalid "dns rule" (dr_ID r) in
  let reject := bool_decide (dr_Server r = "reject") in
  _ ← refuse (blank (dr_ID r)) (bad "empty id");
  if dr_Disabled r then ok
  else
    _ ← refuse (negb reject && negb (bool_decide (is_Some (tags st !! dr_Server r)))) (bad "server is not a defined tag");
    _ ← for_all (fun rs => if blank rs then ok
                           else refuse (negb (bool_decide (ids !! rs = Some "routing list"))) (bad "rule_set is not a routing list"))
          (dr_RuleSets r);
    _ ← refuse (dnsRuleHasNoMatcher r) (bad "no match condition");
    refuse (negb reject && negb (serverEnabled st (dr_Server r))) (bad "server is a disabled resolver").

Definition check_subnet : fault + unit :=
  let cs := trim (dns_ClientSubnet dns) in
  refuse (negb (bool_decide (cs = "")) && negb (net_ParseCIDR cs) && bool_decide (net_ParseIP cs = None))
    (Invalid "dns" "" "client_subnet must be an IP or CIDR").
Definition validateDNS : fault + unit :=
  _ ← refuse (negb (bool_decide (dns_Strategy dns ∈ validDNSStrategies))) (Invalid "dns" "" "unknown strategy");
  _ ← refuse (dns_FakeIP dns && negb (dns_IndependentCache dns)) (Invalid "dns" "" "fakeip requires independent_cache");
  st ← each check_server (mkScan ∅ ∅) (dns_Servers dns);
  _ ← for_all (check_bootstrap st) (dns_Servers dns);
  _ ← check_subnet;
  _ ← check_final st;
  for_all (check_dns_rule st) (dns_Rules dns).
End validate.

(** The namespace of a profile whose other parts are not checked: the last object of an id counts. *)
Definition put {A} (id : A -> string) (v : A -> string) (m : gmap string string) (l : list A) : gmap string string :=
  foldl (fun m x => if bool_decide (id x = "") then m else <[id x := v x]> m) m l.
Definition dnsNamespace (p : Profile) : gmap string string * gmap string bool :=
  let ids := put ep_ID (fun _ => "endpoint") ∅ (Endpoints p) in
  let ids := put gr_ID (fun _ => "group") ids (Groups p) in
  let ids := put r_ID (fun _ => "rule") ids (Rules p) in
  let ids := put rl_ID (fun _ => "routing list") ids (RoutingLists p) in
  let en := foldl (fun m e => if bool_decide (ep_ID e = "") then m else <[ep_ID e := ep_Enabled e]> m) ∅ (Endpoints p) in
  let en := foldl (fun m g => if bool_decide (gr_ID g = "") then m else <[gr_ID g := true]> m) en (Groups p) in
  (ids, en).
Definition ValidateDNS (p : Profile) : fault + unit :=
  match DNS p with
  | None => ok
  | Some d => let '(ids, en) := dnsNamespace p in validateDNS d ids en (Endpoints p)
  end.
End dns.

(** * What a valid DNS plane is

    [validateDNS] keeps maps as it goes and stops at the first error; [dns_fine] says what it accepts
    without them: server by server and rule by rule, in terms of what is on and what is a list. *)

Section spec.
Context (unicode_lower : bytes -> bytes).
Abbreviation isBuiltin := (isBuiltin unicode_lower).
Abbreviation IsVPNDNSType := (IsVPNDNSType unicode_lower).

(** ** The plane, given what is on ([live]), what is a routing list, and the connections *)
Section plane.
Context (live is_list : string -> Prop) (eps : list Endpoint).

Definition routes (t : string) : Prop := isBuiltin t = true \/ live t.
Definition vpn_serves (proto id : string) : Prop := id <> "" /\ snd (vpnResolverFault proto id eps) = vpnFaultNone.
(** The connection an enabled server asks. *)
Definition asked (s : DNSServer) : option string :=
  if bool_decide (is_Some (vpnDNSTypes (ds_Type s))) && ds_Enabled s then Some (trim (ds_Endpoint s)) else None.
Definition address_fine (s : DNSServer) : Prop :=
  blank (ds_Server s) = false /\
  (isEncryptedDNSType (ds_Type s) = true -> net_ParseIP (trim (ds_Server s)) = None -> blank (ds_DomainResolver s) = false) /\
  (ds_ServerPort s = 0 \/ 1 <= ds_ServerPort s <= 65535).
Definition detour_fine (s : DNSServer) : Prop :=
  ds_Detour s = "" \/ (ds_Detour s <> OutboundBlock /\ routes (ds_Detour s)).
Definition is_network (s : DNSServer) : Prop := ds_Type s ∈ networkDNSTypes.
Record server_fine (leakproof : bool) (s : DNSServer) : Prop := {
  sf_tag : blank (ds_Tag s) = false;
  sf_type : ds_Type s ∈ validDNSServerTypes;
  sf_plain : leakproof = true -> ds_Type s ∉ plaintextDNSTypes;
  sf_vpn : forall proto, vpnDNSTypes (ds_Type s) = Some proto -> ds_Enabled s = true -> vpn_serves proto (trim (ds_Endpoint s));
  sf_network : is_network s -> address_fine s /\ detour_fine s;
  sf_fakeip : ds_Type s = "fakeip" -> check_fakeip s = inr tt
}.
(** A switched-on server of [servers] with this tag. *)
Definition serves (servers : list DNSServer) (tag : string) (P : string -> Prop) : Prop :=
  exists t, t ∈ servers /\ ds_Tag t = tag /\ ds_Enabled t = true /\ P (ds_Type t).
Definition bootstrap_fine (servers : list DNSServer) (s : DNSServer) : Prop :=
  ds_Enabled s = true -> is_network s -> trim (ds_DomainResolver s) <> "" ->
  serves servers (trim (ds_DomainResolver s)) (fun t => t <> "fakeip" /\ t <> "local" /\ IsVPNDNSType t = false).
Definition dns_rule_fine (servers : list DNSServer) (r : DNSRule) : Prop :=
  blank (dr_ID r) = false /\
  (dr_Disabled r = false ->
   (forall rs, rs ∈ dr_RuleSets r -> blank rs = false -> is_list rs) /\
   dnsRuleHasNoMatcher r = false /\
   (dr_Server r = "reject" \/ serves servers (dr_Server r) (fun _ => True))).
Record dns_fine (d : DNSSettings) : Prop := {
  df_strategy : dns_Strategy d ∈ validDNSStrategies;
  df_fakeip : dns_FakeIP d = true -> dns_IndependentCache d = true;
  df_servers : Forall (server_fine (dns_LeakProof d)) (dns_Servers d);
  df_tags : NoDup (ds_Tag <$> dns_Servers d);
  df_asked : NoDup (omap asked (dns_Servers d));
  df_bootstrap : Forall (bootstrap_fine (dns_Servers d)) (dns_Servers d);
  df_subnet : check_subnet d = inr tt;
  df_final : dns_Final d <> "" ->
    serves (dns_Servers d) (dns_Final d)
      (fun t => IsVPNDNSType t = false /\ (dns_LeakProof d = true -> isEncryptedDNSType t = true));
  df_default : forall tun def, DefaultServer (Some d) tun = Some def -> IsVPNDNSType (ds_Type def) = false;
  df_leak : dns_LeakProof d = true -> dns_Final d = "" ->
    forall def, DefaultServer (Some d) false = Some def -> isEncryptedDNSType (ds_Type def) = true;
  df_rules : Forall (dns_rule_fine (dns_Servers d)) (dns_Rules d)
}.
End plane.

(** ** The loop over the servers *)
Lemma refuse_and {E} a b (e : E) : refuse (a && b) e = inr tt <-> (a = true -> b = false).
Proof. rewrite refuse_ok. destruct a, b; naive_solver. Qed.
Lemma off_false en id : off en id = false <-> en !! id = Some true.
Proof. unfold off. destruct (en !! id) as [[]|]; naive_solver. Qed.
Lemma is_None_dec {A} (o : option A) : bool_decide (is_Some o) = false <-> o = None.
Proof. rewrite bool_decide_eq_false, <- eq_None_not_Some. done. Qed.

Section loop.
Context (ids : gmap string string) (enabled : gmap string bool) (eps : list Endpoint) (live is_list : string -> Prop).
Hypothesis Hlive : forall t, t <> "" -> enabled !! t = Some true <-> live t.
Hypothesis Hknown : forall t, enabled !! t = Some true -> is_Some (ids !! t).
Hypothesis Hlists : forall rs, blank rs = false -> ids !! rs = Some "routing list" <-> is_list rs.

Lemma routes_ok t : t <> "" ->
  isResolvable unicode_lower t ids = true /\ (negb (isBuiltin t) && off enabled t = false) <-> routes live t.
Proof.
  intros Ht. unfold routes, isResolvable. rewrite <- Hlive by done. rewrite andb_false_iff, negb_false_iff, off_false, orb_true_iff.
  rewrite bool_decide_eq_true. split; [naive_solver|]. intros [H|H]; [naive_solver|]. split; [right; by apply Hknown|by right].
Qed.
Lemma validateVPN_ok s proto seen seen' :
  validateVPNDNSServer s proto eps seen = inr seen' <->
  vpn_serves eps proto (trim (ds_Endpoint s)) /\ seen !! trim (ds_Endpoint s) = None /\
  seen' = <[trim (ds_Endpoint s) := ds_Tag s]> seen.
Proof.
  unfold validateVPNDNSServer, vpn_serves. rewrite seq_inr, refuse_ok, bool_decide_eq_false, seq_inr, seq_inr, refuse_ok, is_None_dec.
  destruct (snd (vpnResolverFault proto (trim (ds_Endpoint s)) eps)); naive_solver.
Qed.
Lemma check_network_ok s : check_network unicode_lower ids enabled s = inr tt <-> address_fine s /\ detour_fine live s.
Proof.
  unfold check_network, address_fine, detour_fine. rewrite !seq_inr, !refuse_ok.
  assert (E : (isEncryptedDNSType (ds_Type s) && bool_decide (net_ParseIP (trim (ds_Server s)) = None) && blank (ds_DomainResolver s) = false)
              <-> (isEncryptedDNSType (ds_Type s) = true -> net_ParseIP (trim (ds_Server s)) = None -> blank (ds_DomainResolver s) = false)).
  { rewrite !andb_false_iff, bool_decide_eq_false. destruct (isEncryptedDNSType (ds_Type s)), (blank (ds_DomainResolver s)), (net_ParseIP (trim (ds_Server s))); naive_solver. }
  assert (P : (negb (ds_ServerPort s =? 0) && ((ds_ServerPort s <? 1) || (65535 <? ds_ServerPort s)) = false)
              <-> (ds_ServerPort s = 0 \/ 1 <= ds_ServerPort s <= 65535)) by lia.
  rewrite E, P. clear E P. case_bool_decide as Hd; cbn [negb].
  - naive_solver.
  - rewrite !seq_inr, !refuse_ok, negb_false_iff, bool_decide_eq_false. pose proof (routes_ok (ds_Detour s) Hd). naive_solver.
Qed.
Definition add_server (st : scan) (s : DNSServer) : scan :=
  mkScan (<[ds_Tag s := (ds_Enabled s, ds_Type s)]> (tags st))
    (match asked s with Some id => <[id := ds_Tag s]> (vpnServerOf st) | None => vpnServerOf st end).
Lemma check_server_ok d st s st' :
  check_server unicode_lower d ids enabled eps st s = inr st' <->
  server_fine live eps (dns_LeakProof d) s /\ tags st !! ds_Tag s = None /\
  (forall id, asked s = Some id -> vpnServerOf st !! id = None) /\ st' = add_server st s.
Proof.
  unfold check_server. rewrite !seq_inr, !refuse_ok, is_None_dec, negb_false_iff, bool_decide_eq_true, andb_false_iff, bool_decide_eq_false.
  rewrite bind_inr. repeat setoid_rewrite seq_inr. setoid_rewrite if_ok. setoid_rewrite bool_decide_eq_true. setoid_rewrite check_network_ok.
  unfold add_server, asked. split.
  - intros (Ht & Htag & Hty & Hpl & seen & Hseen & Hn & Hf & [= <-]). split.
    { split; [done|done|intros E; destruct Hpl as [Hpl|Hpl]; [congruence|done]| |done|done].
      intros proto Hp He. rewrite Hp, He in Hseen. by apply validateVPN_ok in Hseen as [? _]. }
    split; [done|]. destruct (vpnDNSTypes (ds_Type s)) as [proto|] eqn:Hp.
    + rewrite bool_decide_true by done. destruct (ds_Enabled s); cbn [andb].
      * apply validateVPN_ok in Hseen as (_ & Hs & ->). split; [by intros ? [= <-]|done].
      * injection Hseen as <-. split; done.
    + rewrite bool_decide_false by (intros [? [=]]). injection Hseen as <-. split; done.
  - intros (Hfine & Htag & Hask & ->). destruct Hfine as [H1 H2 H3 H4 H5 H6]. split; [done|]. split; [done|]. split; [done|].
    split; [destruct (dns_LeakProof d); [right; by apply H3|by left]|].
    destruct (vpnDNSTypes (ds_Type s)) as [proto|] eqn:Hp.
    + rewrite bool_decide_true in * by done. destruct (ds_Enabled s); cbn [andb] in *.
      * eexists. split; [apply validateVPN_ok; split; [by apply H4|split; [by apply Hask|done]]|done].
      * eexists. split; done.
    + rewrite bool_decide_false by (intros [? [=]]). eexists. split; done.
Qed.
Lemma tags_add_server st s : tags (add_server st s) = <[ds_Tag s := (ds_Enabled s, ds_Type s)]> (tags st).
Proof. done. Qed.
Lemma vpn_add_server st s id : vpnServerOf (add_server st s) !! id = None <-> asked s <> Some id /\ vpnServerOf st !! id = None.
Proof.
  cbn. destruct (asked s) as [x|]; [|naive_solver]. destruct (decide (x = id)) as [->|Hn].
  - rewrite lookup_insert_eq. naive_solver.
  - rewrite lookup_insert_ne by done. naive_solver.
Qed.
Lemma each_server d l st st' :
  each (check_server unicode_lower d ids enabled eps) st l = inr st' <->
  Forall (server_fine live eps (dns_LeakProof d)) l /\ NoDup (ds_Tag <$> l) /\ (forall s, s ∈ l -> tags st !! ds_Tag s = None) /\
  NoDup (omap asked l) /\ (forall s id, s ∈ l -> asked s = Some id -> vpnServerOf st !! id = None) /\
  st' = foldl add_server st l.
Proof.
  revert st. induction l as [|s l IH]; intros st.
  - cbn [each foldl omap list_omap fmap list_fmap]. split.
    + intros [= <-]. split_and!; [constructor|constructor|intros s Hs; by apply elem_of_nil in Hs|constructor|intros s id Hs; by apply elem_of_nil in Hs|done].
    + by intros (_ & _ & _ & _ & _ & ->).
  - rewrite each_step. setoid_rewrite check_server_ok. setoid_rewrite IH. clear IH. cbn [foldl]. rewrite Forall_cons, fmap_cons, NoDup_cons.
    assert (Eo : omap asked (s :: l) = match asked s with Some id => id :: omap asked l | None => omap asked l end) by done.
    assert (Hnd : NoDup (omap asked (s :: l)) <-> (forall id, asked s = Some id -> forall x, x ∈ l -> asked x <> Some id) /\ NoDup (omap asked l)).
    { rewrite Eo. destruct (asked s) as [id|]; [|naive_solver]. rewrite NoDup_cons. setoid_rewrite list_elem_of_omap. naive_solver. }
    rewrite Hnd. clear Hnd Eo. split.
    + intros (st1 & (Hs & Ht & Hv & ->) & Hl & Hnd & Hfr & Hna & Hav & ->).
      assert (Hnotin : ds_Tag s ∉ ds_Tag <$> l).
      { intros (x & Hx & Hxl)%list_elem_of_fmap. specialize (Hfr x Hxl). rewrite tags_add_server, <- Hx, lookup_insert_eq in Hfr. done. }
      split_and!; try done.
      * intros x [->|Hx]%elem_of_cons; [done|]. specialize (Hfr x Hx). rewrite tags_add_server in Hfr. by apply lookup_insert_None in Hfr as [? _].
      * intros id Hid x Hx Hax. specialize (Hav x id Hx Hax). by apply vpn_add_server in Hav as [? _].
      * intros x id [->|Hx]%elem_of_cons Hax; [by apply Hv|]. specialize (Hav x id Hx Hax). by apply vpn_add_server in Hav as [_ ?].
    + intros ([Hs Hl] & [Hni Hnd] & Hfr & [Hna Hna'] & Hav & ->). eexists. split.
      * split; [done|]. split; [apply Hfr; left|]. split; [|done]. intros id Hid. apply (Hav s id); [left|done].
      * split_and!; try done.
        -- intros x Hx. rewrite tags_add_server. apply lookup_insert_None. split; [apply Hfr; by right|].
           intros E. apply Hni. rewrite E. by apply list_elem_of_fmap_2.
        -- intros x id Hx Hax. apply vpn_add_server. split; [by intros E; apply (Hna id E x Hx)|]. apply (Hav x id); [by right|done].
Qed.

Lemma tags_foldl l st t : NoDup (ds_Tag <$> l) -> (forall s, s ∈ l -> tags st !! ds_Tag s = None) -> forall v,
  tags (foldl add_server st l) !! t = Some v <-> tags st !! t = Some v \/ exists s, s ∈ l /\ ds_Tag s = t /\ v = (ds_Enabled s, ds_Type s).
Proof.
  revert st. induction l as [|s l IH]; intros st Hnd Hfr v.
  - cbn. split; [by left|intros [?|(s & Hs & _)]; [done|by apply elem_of_nil in Hs]].
  - apply NoDup_cons in Hnd as [Hn Hnd]. cbn [foldl]. rewrite IH; [|done|].
    + rewrite tags_add_server. specialize (Hfr s (list_elem_of_here _ _)). setoid_rewrite elem_of_cons.
      destruct (decide (ds_Tag s = t)) as [<-|Hne].
      * rewrite lookup_insert_eq, Hfr. split; [intros [[= <-]|(x & Hx & E & _)]; [right; by exists s; auto|]|].
        { exfalso. apply Hn. rewrite <- E. by apply list_elem_of_fmap_2. }
        intros [?|(x & [->|Hx] & E & ->)]; [done|by left|right; by exists x].
      * rewrite lookup_insert_ne by done. split; [intros [?|(x & ? & ? & ?)]; [by left|right; exists x; auto]|].
        intros [?|(x & [->|Hx] & E & ->)]; [by left|done|right; by exists x].
    + intros x Hx. rewrite tags_add_server. apply lookup_insert_None. split; [apply Hfr; by right|].
      intros E. apply Hn. rewrite E. by apply list_elem_of_fmap_2.
Qed.

(** ** Servers by tag *)
Ltac plain_solver := clear Hlive Hknown Hlists; naive_solver.
Section by_tag.
Context (servers : list DNSServer).
Hypothesis Hnd : NoDup (ds_Tag <$> servers).
Abbreviation st := (foldl add_server (mkScan ∅ ∅) servers).
Lemma tag_lookup t v : tags st !! t = Some v <-> exists s, s ∈ servers /\ ds_Tag s = t /\ v = (ds_Enabled s, ds_Type s).
Proof.
  rewrite tags_foldl; [|done|intros s _; apply lookup_empty]. cbn. rewrite lookup_empty. naive_solver.
Qed.
Lemma serves_ok t P : serves servers t P <-> is_Some (tags st !! t) /\ serverEnabled st t = true /\ P (serverType st t).
Proof.
  unfold serves, serverEnabled, serverType. split.
  - intros (s & Hs & Ht & He & HP). assert (E : tags st !! t = Some (ds_Enabled s, ds_Type s)) by (apply tag_lookup; by exists s).
    rewrite E. split; [done|]. by split.
  - intros ([[b y] E] & He & HP). rewrite E in *. apply tag_lookup in E as (s & Hs & Ht & [= -> ->]). by exists s.
Qed.
Lemma bootstrap_ok s : check_bootstrap unicode_lower st s = inr tt <-> bootstrap_fine servers s.
Proof.
  unfold check_bootstrap, bootstrap_fine, is_network. rewrite serves_ok.
  destruct (ds_Enabled s); cbn [negb orb]; [|plain_solver]. case_bool_decide as Hn; cbn [negb orb]; [|plain_solver].
  case_bool_decide as Hd; [plain_solver|]. rewrite !seq_inr, !refuse_ok, !negb_false_iff, bool_decide_eq_true, !orb_false_iff, !bool_decide_eq_false.
  split; [by intros (H1 & H2 & (H3 & H4) & H5) _ _ _|]. intros H. destruct (H eq_refl Hn Hd) as (? & ? & ? & ? & ?). done.
Qed.
Lemma dns_rule_ok r : check_dns_rule ids st r = inr tt <-> dns_rule_fine is_list servers r.
Proof.
  unfold check_dns_rule, dns_rule_fine. rewrite seq_inr, refuse_ok, serves_ok. destruct (dr_Disabled r); [plain_solver|].
  rewrite !seq_inr, !refuse_ok, for_all_ok, Forall_forall.
  assert (E : (forall rs, rs ∈ dr_RuleSets r ->
     (if blank rs then inr tt else refuse (negb (bool_decide (ids !! rs = Some "routing list"))) (Invalid "dns rule" (dr_ID r) "rule_set is not a routing list")) = inr tt)
     <-> (forall rs, rs ∈ dr_RuleSets r -> blank rs = false -> is_list rs)).
  { apply forall_proper. intros rs. apply imp_iff_compat_l. destruct (blank rs) eqn:Eb; [plain_solver|].
    rewrite refuse_ok, negb_false_iff, bool_decide_eq_true. rewrite Hlists by done. plain_solver. }
  rewrite E. clear E. case_bool_decide as Hr; cbn [negb andb]; [plain_solver|]. rewrite !negb_false_iff, bool_decide_eq_true. plain_solver.
Qed.
End by_tag.

(** ** [validateDNS] accepts exactly the valid planes *)
Lemma default_ok d tun : check_default unicode_lower d tun = inr tt <->
  forall def, DefaultServer (Some d) tun = Some def -> IsVPNDNSType (ds_Type def) = false.
Proof. unfold check_default. destruct (DefaultServer (Some d) tun) as [def|]; [rewrite refuse_ok; plain_solver|plain_solver]. Qed.
Lemma final_ok d : NoDup (ds_Tag <$> dns_Servers d) -> (forall s, s ∈ dns_Servers d -> blank (ds_Tag s) = false) ->
  check_final unicode_lower d (foldl add_server (mkScan ∅ ∅) (dns_Servers d)) = inr tt <->
  (dns_Final d <> "" -> serves (dns_Servers d) (dns_Final d)
      (fun t => IsVPNDNSType t = false /\ (dns_LeakProof d = true -> isEncryptedDNSType t = true))) /\
  (forall tun def, DefaultServer (Some d) tun = Some def -> IsVPNDNSType (ds_Type def) = false) /\
  (dns_LeakProof d = true -> dns_Final d = "" ->
    forall def, DefaultServer (Some d) false = Some def -> isEncryptedDNSType (ds_Type def) = true).
Proof.
  intros Hnd Hb. unfold check_final. rewrite !seq_inr, !refuse_ok, !if_ok, for_all_ok, !Forall_cons, Forall_nil, !default_ok.
  rewrite serves_ok by done. set (st := foldl add_server (mkScan ∅ ∅) (dns_Servers d)).
  assert (Hdef : ((forall def, DefaultServer (Some d) false = Some def -> IsVPNDNSType (ds_Type def) = false) /\
                  (forall def, DefaultServer (Some d) true = Some def -> IsVPNDNSType (ds_Type def) = false) /\ True) <->
                 (forall tun def, DefaultServer (Some d) tun = Some def -> IsVPNDNSType (ds_Type def) = false)).
  { split; [intros (H1 & H2 & _) []; auto|intros H; split_and!; [apply H|apply H|done]]. }
  rewrite Hdef. clear Hdef. case_bool_decide as Hf; cbn [negb andb].
  - assert (Hnone : IsVPNDNSType (serverType st (dns_Final d)) = false).
    { unfold serverType. destruct (tags st !! dns_Final d) as [[b y]|] eqn:E; [|by unfold Dns.IsVPNDNSType].
      apply tag_lookup in E as (s & Hs & Ht & _); [|done]. rewrite Hf in Ht. specialize (Hb s Hs). by rewrite Ht in Hb. }
    rewrite andb_false_r, andb_true_r. destruct (DefaultServer (Some d) false) as [def|].
    + rewrite refuse_ok, negb_false_iff. plain_solver.
    + plain_solver.
  - rewrite andb_true_r, andb_false_r, !negb_false_iff, bool_decide_eq_true.
    assert (Hleak : is_Some (tags st !! dns_Final d) ->
       (for_all (fun s => refuse (bool_decide (ds_Tag s = dns_Final d) && negb (isEncryptedDNSType (ds_Type s)))
                            (Invalid "dns" "" "leak protection requires an encrypted final")) (dns_Servers d) = inr tt)
       <-> isEncryptedDNSType (serverType st (dns_Final d)) = true).
    { intros [[b y] E]. unfold serverType. rewrite E. pose proof E as E'. apply tag_lookup in E as (s & Hs & Ht & [= -> ->]); [|done].
      rewrite for_all_ok, Forall_forall. split.
      - intros H. specialize (H s Hs). rewrite refuse_and, bool_decide_eq_true, negb_false_iff in H. by apply H.
      - intros He x Hx. apply refuse_and. rewrite bool_decide_eq_true, negb_false_iff. intros Hxt.
        assert (Ex : tags st !! dns_Final d = Some (ds_Enabled x, ds_Type x)) by (apply tag_lookup; [done|by exists x]).
        rewrite E' in Ex. injection Ex as _ <-. done. }
    destruct (dns_LeakProof d); plain_solver.
Qed.
Theorem validateDNS_ok d : validateDNS unicode_lower d ids enabled eps = inr tt <-> dns_fine live is_list eps d.
Proof.
  unfold validateDNS. rewrite !seq_inr, !refuse_ok, negb_false_iff, bool_decide_eq_true, bind_inr. setoid_rewrite each_server. split.
  - intros (H1 & H2 & st & (H3 & H4 & _ & H5 & _ & ->) & H). rewrite !seq_inr, for_all_ok, final_ok, for_all_ok in H.
    + destruct H as (H6 & H7 & (H8 & H9 & H10) & H11). split; try done.
      * destruct (dns_FakeIP d), (dns_IndependentCache d); done.
      * eapply Forall_impl; [exact H6|]. intros s. by apply bootstrap_ok.
      * eapply Forall_impl; [exact H11|]. intros r. by apply dns_rule_ok.
    + done.
    + intros s Hs. rewrite Forall_forall in H3. by apply H3.
  - intros [H1 H2 H3 H4 H5 H6 H7 H8 H9 H10 H11]. split; [done|]. split; [destruct (dns_FakeIP d), (dns_IndependentCache d); plain_solver|].
    eexists. split.
    + by split_and!.
    + rewrite !seq_inr, for_all_ok, final_ok, for_all_ok; [|done|intros s Hs; rewrite Forall_forall in H3; by apply H3].
      split_and!; try done; [eapply Forall_impl; [exact H6|]; intros s; by apply bootstrap_ok|eapply Forall_impl; [exact H11|]; intros r; by apply dns_rule_ok].
Qed.
End loop.
End spec.
