(* ===== verification/PbrLists.v ===== *)
(** * Routing lists: addresses, names, MACs

    Models the text-to-kernel half of [src/internal/pbr/pbr.go]: [classifyCIDRs] and
    [collapsePrefixes], [normalizeDomains], [canonicalMACs] with [net.ParseMAC], and [nftName]. Case
    folding beyond ASCII is an argument. *)
From stdpp Require Import sorting.
From S2P Require Import Prelude GoStrings Netip.
Local Open Scope Z_scope.

(** ** Prefixes *)
Definition pfx_less (a b : Prefix) : bool :=
  if bool_decide (p_addr a = p_addr b) then p_bits a <? p_bits b else Less (p_addr a) (p_addr b).
Definition pfx_le (a b : Prefix) : Prop := pfx_less b a = false.
#[export] Instance pfx_le_dec : RelDecision pfx_le.
Proof. intros a b. unfold pfx_le. apply _. Defined.

(** The loop of [collapsePrefixes]: [last] is the prefix kept last. *)
Fixpoint sweep (last : option Prefix) (ps : list Prefix) : list Prefix :=
  match ps with
  | [] => []
  | p :: ps =>
      if match last with Some l => (p_bits l <=? p_bits p) && Contains l (p_addr p) | None => false end
      then sweep last ps
      else p :: sweep (Some p) ps
  end.
Definition collapsePrefixes (ps : list Prefix) : list Prefix := sweep None (merge_sort pfx_le ps).

(** What a trimmed entry of a list names: a CIDR without its host bits, or one address; a v4-mapped
    one as its v4 form. *)
Definition fold4in6 (p : Prefix) : Prefix :=
  if Is4In6 (p_addr p) then Masked (mkPrefix (Unmap (p_addr p)) (Z.max 0 (p_bits p - 96))) else p.
Definition entry_prefix (s : string) : option Prefix :=
  fold4in6 <$> (if has_byte 47 (str s) then Masked <$> ParsePrefix s
                else a ← ParseAddr s; Some (mkPrefix a (if Is6 a then 128 else 32))).

Record classes := mkClasses {
  p4 : list Prefix; p6 : list Prefix; seen4 : gset string; seen6 : gset string; bad : list string
}.
#[export] Instance eta_classes : Eta classes := fun c => mkClasses (p4 c) (p6 c) (seen4 c) (seen6 c) (bad c).
Definition classify_one (c : classes) (s : string) : classes :=
  let s := trim s in
  if bool_decide (s = "") then c
  else match entry_prefix s with
       | None => c <| bad := bad c ++ [s] |>
       | Some pfx =>
           let key := PrefixString pfx in
           if Is6 (p_addr pfx) then
             if bool_decide (key ∈ seen6 c) then c
             else c <| seen6 := {[key]} ∪ seen6 c |> <| p6 := p6 c ++ [pfx] |>
           else if bool_decide (key ∈ seen4 c) then c
           else c <| seen4 := {[key]} ∪ seen4 c |> <| p4 := p4 c ++ [pfx] |>
       end.
Definition no_classes : classes := mkClasses [] [] ∅ ∅ [].
Definition classifyCIDRs (entries : list string) : list string * list string * list string :=
  let c := foldl classify_one no_classes entries in
  (map PrefixString (collapsePrefixes (p4 c)), map PrefixString (collapsePrefixes (p6 c)), bad c).
#[global] Arguments classifyCIDRs : simpl never.

(** ** Names *)
Section names.
Context (unicode_lower : bytes -> bytes).

(** One entry as a domain, "" when it is not one. *)
Definition domain_of (s : string) : bytes :=
  let s := ToLower unicode_lower (TrimSpace (str s)) in
  let s := TrimPrefix (str ".") (TrimPrefix (str "*.") s) in
  if has_any (str " " ++ [9] ++ str "#!/") s || negb (has_byte 46 s) then [] else s.
Fixpoint dedup (seen : gset string) (l : list string) : list string :=
  match l with
  | [] => []
  | s :: l =>
      if bool_decide (s = "") || bool_decide (s ∈ seen) then dedup seen l
      else s :: dedup ({[s]} ∪ seen) l
  end.
Definition sort_strings (l : list string) : list string := merge_sort String.le l.
Definition normalizeDomains (entries : list string) : list string :=
  sort_strings (dedup ∅ (map (fun s => unstr (domain_of s)) entries)).
End names.

(** ** MACs: [net.ParseMAC] *)
Definition xtoi2 (s : bytes) (e : Z) : option Z :=
  match s with
  | a :: b :: r =>
      if match r with c :: _ => negb (c =? e) | [] => false end then None
      else h ← hex_value a; l ← hex_value b; Some (h * 16 + l)
  | _ => None
  end.
Fixpoint mac_pairs (n : nat) (sep : Z) (s : bytes) : option bytes :=
  match n with
  | O => Some []
  | S n => v ← xtoi2 s sep; r ← mac_pairs n sep (drop 3 s); Some (v :: r)
  end.
Fixpoint mac_quads (n : nat) (s : bytes) : option bytes :=
  match n with
  | O => Some []
  | S n => v ← xtoi2 (take 2 s) 0; w ← xtoi2 (drop 2 s) 46; r ← mac_quads n (drop 5 s); Some (v :: w :: r)
  end.
Definition mac_length (n : nat) : bool := (n =? 6)%nat || (n =? 8)%nat || (n =? 20)%nat.
Definition ParseMAC (s : bytes) : option bytes :=
  let l := S (length s) in
  if (length s <? 14)%nat then None
  else match s !! 2%nat, s !! 4%nat with
  | Some c2, Some c4 =>
      if (c2 =? 58) || (c2 =? 45) then
        if negb (l mod 3 =? 0)%nat || negb (mac_length (l / 3)) then None else mac_pairs (l / 3) c2 s
      else if c4 =? 46 then
        if negb (l mod 5 =? 0)%nat || negb (mac_length (2 * l / 5)) then None else mac_quads (l / 5) s
      else None
  | _, _ => None
  end.
(** [HardwareAddr.String]. *)
Definition hex2 (b : Z) : bytes := [hex_digit (b / 16); hex_digit (b mod 16)].
Definition mac_text (hw : bytes) : bytes := join [58] (map hex2 hw).
Definition canonicalMAC (m : string) : string :=
  let m := TrimSpace (str m) in
  match ParseMAC m with Some hw => unstr (mac_text hw) | None => unstr m end.
Definition canonicalMACs (macs : list string) : list string := map canonicalMAC macs.

(** ** nft identifiers *)
Definition nft_char (c : Z) : bool := is_letter c || is_digit c || (c =? 95).
Fixpoint nft_runes (fuel : nat) (p : bytes) : bytes :=
  match fuel, p with
  | S fuel, c :: _ => (if nft_char c then c else 95) :: nft_runes fuel (drop (rune_width p) p)
  | _, _ => []
  end.
Definition nftName (id : string) : string := unstr (nft_runes (length (str id)) (str id)).

(** ** [collapsePrefixes]: the same addresses, nothing twice *)
Lemma addr_eq_iff a b : a = b <-> BitLen a = BitLen b /\ value a = value b.
Proof. split; [by intros ->|]. destruct a, b; cbn; intros [? ?]; try lia; congruence. Qed.
Lemma pfx_less_spec a b : pfx_less a b = true <->
  BitLen (p_addr a) < BitLen (p_addr b) \/
  (BitLen (p_addr a) = BitLen (p_addr b) /\
   (value (p_addr a) < value (p_addr b) \/ (value (p_addr a) = value (p_addr b) /\ p_bits a < p_bits b))).
Proof.
  unfold pfx_less, Less. case_bool_decide as H.
  - rewrite H. lia.
  - rewrite addr_eq_iff in H. lia.
Qed.
Lemma pfx_le_spec a b : pfx_le a b <->
  BitLen (p_addr a) < BitLen (p_addr b) \/
  (BitLen (p_addr a) = BitLen (p_addr b) /\
   (value (p_addr a) < value (p_addr b) \/ (value (p_addr a) = value (p_addr b) /\ p_bits a <= p_bits b))).
Proof. unfold pfx_le. rewrite <- not_true_iff_false, pfx_less_spec. lia. Qed.
#[export] Instance pfx_le_total : Total pfx_le.
Proof. intros a b. rewrite !pfx_le_spec. lia. Qed.
#[export] Instance pfx_le_trans : Transitive pfx_le.
Proof. intros a b c. rewrite !pfx_le_spec. lia. Qed.

(** Two prefixes of one family, both at a multiple of the smaller block: a contained address that is
    the wider one's own is the narrower one's too. *)
Lemma nested_start l p : wf_prefix l -> wf_prefix p -> Contains l (p_addr p) = true -> p_bits p < p_bits l ->
  value (p_addr p) = value (p_addr l).
Proof.
  intros Hl Hp Hc Hb. destruct (Contains_block l _ Hl Hc) as (Hs & HB & Hd & Hv).
  destruct Hp as (_ & _ & Hpb & Hpm). destruct Hl as (_ & _ & Hlb & Hlm).
  rewrite Z.shiftl_mul_pow2 in Hpm, Hlm by lia. rewrite <- HB in *.
  set (B := BitLen (p_addr p)) in *.
  assert (Hpow : 2 ^ (B - p_bits p) = 2 ^ (p_bits l - p_bits p) * 2 ^ (B - p_bits l)).
  { rewrite <- Z.pow_add_r by lia. f_equal. lia. }
  rewrite Hpow, Z.mul_assoc in Hpm. rewrite Hpm, Hlm, !Z.div_mul in Hd by lia.
  rewrite Hpm, Hlm. by rewrite Hd.
Qed.
Lemma Contains_nested l p a : wf_prefix l -> wf_prefix p -> p_bits l <= p_bits p ->
  Contains l (p_addr p) = true -> Contains p a = true -> Contains l a = true.
Proof.
  intros Hl Hp Hb Hlp Hpa. destruct (Contains_block l _ Hl Hlp) as (Hs & HB & Hd & _).
  destruct (Contains_block p _ Hp Hpa) as (Hs' & HB' & Hd' & _).
  destruct Hl as (Hlv & _ & Hlb & _). destruct Hp as (_ & _ & Hpb & _).
  unfold Contains, net. rewrite Hlv, HB', <- HB, Z.eqb_refl. cbn [andb]. apply Z.eqb_eq.
  rewrite !Z.shiftr_div_pow2 by lia. rewrite <- HB in *. rewrite <- Hd.
  set (B := BitLen (p_addr p)) in *.
  assert (Hpow : 2 ^ (B - p_bits l) = 2 ^ (B - p_bits p) * 2 ^ (p_bits p - p_bits l)).
  { rewrite <- Z.pow_add_r by lia. f_equal. lia. }
  rewrite Hpow, <- !Z.div_div by lia. by rewrite Hd'.
Qed.

Lemma sweep_subset last ps q : q ∈ sweep last ps -> q ∈ ps.
Proof.
  revert last. induction ps as [|p ps IH]; intros last; cbn [sweep]; [done|].
  case_match; rewrite ?elem_of_cons; [intros Hq; right; by eapply IH|intros [->|Hq]; [by left|right; by eapply IH]].
Qed.
(** After [l] was kept, everything kept later starts outside it. *)
Lemma sweep_outside l ps q : wf_prefix l -> Forall wf_prefix ps -> StronglySorted pfx_le (l :: ps) ->
  q ∈ sweep (Some l) ps -> Less (p_addr q) (p_addr l) = false /\ Contains l (p_addr q) = false.
Proof.
  revert l q. induction ps as [|p ps IH]; intros l q Hl Hw Hs Hq; [by apply elem_of_nil in Hq|].
  apply Forall_cons in Hw as [Hp Hw]. apply StronglySorted_inv in Hs as [Hs Hle].
  assert (Hle' : pfx_le l q).
  { rewrite Forall_forall in Hle. apply Hle. by eapply sweep_subset. }
  assert (Hlow : forall x, pfx_le l x -> Less (p_addr x) (p_addr l) = false).
  { intros x. rewrite pfx_le_spec. unfold Less. lia. }
  split; [by apply Hlow|]. cbn [sweep] in Hq. apply Forall_cons in Hle as [Hlp Hlps].
  destruct ((p_bits l <=? p_bits p) && Contains l (p_addr p)) eqn:E.
  - apply StronglySorted_inv in Hs as [Hs _]. apply (IH l q); [done|done|by constructor|done].
  - assert (Hout : Contains l (p_addr p) = false).
    { destruct (Contains l (p_addr p)) eqn:Ec; [|done]. rewrite andb_true_r in E. apply Z.leb_gt in E.
      pose proof (nested_start l p Hl Hp Ec E). destruct (Contains_block l _ Hl Ec) as (_ & HB & _ & _).
      rewrite pfx_le_spec in Hlp. lia. }
    apply elem_of_cons in Hq as [->|Hq]; [done|].
    destruct (IH p q Hp Hw Hs Hq) as [Hpq _].
    destruct (Contains l (p_addr q)) eqn:Ec; [|done].
    rewrite (Contains_between l (p_addr q) (p_addr p)) in Hout; [done|done|done|by apply Hlow|done].
Qed.
Lemma sweep_disjoint last ps : Forall wf_prefix ps -> StronglySorted pfx_le ps -> disjoint_sorted (sweep last ps).
Proof.
  revert last. induction ps as [|p ps IH]; intros last Hw Hs; cbn [sweep]; [split; [constructor|by intros]|].
  apply Forall_cons in Hw as [Hp Hw]. pose proof Hs as [Hs' _]%StronglySorted_inv.
  case_match; [by apply IH|]. destruct (IH (Some p) Hw Hs') as [Hf Hd]. split; [by constructor|].
  intros [|i] [|j] a b Hij; cbn; intros Ha Hb; [lia| |lia|].
  - simplify_eq. apply (sweep_outside a ps b); [done..|]. by eapply list_elem_of_lookup_2.
  - apply (Hd i j a b); [lia|done|done].
Qed.
Lemma sweep_covers last ps a : Forall wf_prefix ps -> from_option wf_prefix True last ->
  from_option (fun l => Contains l a) false last || existsb (fun p => Contains p a) (sweep last ps) =
  from_option (fun l => Contains l a) false last || existsb (fun p => Contains p a) ps.
Proof.
  revert last. induction ps as [|p ps IH]; intros last Hw Hl; cbn [sweep]; [done|].
  apply Forall_cons in Hw as [Hp Hw]. case_match eqn:E.
  - destruct last as [l|]; [|done]. apply andb_true_iff in E as [Hb Hc]. apply Z.leb_le in Hb.
    rewrite IH by done. cbn [existsb from_option]. destruct (Contains p a) eqn:Ep; [|done].
    by rewrite (Contains_nested l p a).
  - specialize (IH (Some p) Hw Hp). cbn [existsb from_option] in *. by rewrite IH.
Qed.
Lemma existsb_perm {A} (f : A -> bool) l l' : l ≡ₚ l' -> existsb f l = existsb f l'.
Proof. induction 1; cbn; [done|by f_equal|by rewrite !orb_assoc, (orb_comm (f _))|congruence]. Qed.

Lemma collapse_disjoint ps : Forall wf_prefix ps -> disjoint_sorted (collapsePrefixes ps).
Proof.
  intros H. apply sweep_disjoint; [|apply StronglySorted_merge_sort; apply _]. by rewrite merge_sort_Permutation.
Qed.
Lemma collapse_covers ps a : Forall wf_prefix ps ->
  existsb (fun p => Contains p a) (collapsePrefixes ps) = existsb (fun p => Contains p a) ps.
Proof.
  intros H. pose proof (sweep_covers None (merge_sort pfx_le ps) a) as Hc. cbn [from_option orb] in Hc.
  unfold collapsePrefixes. rewrite Hc; [|by rewrite merge_sort_Permutation|done].
  apply existsb_perm, merge_sort_Permutation.
Qed.

(** ** [classifyCIDRs] *)
Lemma full_prefix_ok a : addr_ok a ->
  let p := mkPrefix a (if Is6 a then 128 else 32) in prefix_ok p /\ wf_prefix p.
Proof.
  intros Ha p. destruct (addr_ok_value _ Ha) as [Hv [H0 _]].
  assert (Hb : p_bits p = BitLen (p_addr p)) by by destruct a.
  assert (0 <= BitLen a) by by destruct a.
  split; [split; [done|]; rewrite Hb; cbn; lia|]. unfold wf_prefix, net. rewrite Hb, Z.sub_diag, Z.shiftr_0_r, Z.shiftl_0_r.
  cbn. split_and!; [done|done|lia|lia|done].
Qed.
Lemma entry_prefix_ok s p : entry_prefix s = Some p ->
  prefix_ok p /\ wf_prefix p /\ Is4In6 (p_addr p) = false.
Proof.
  unfold entry_prefix. intros (q & Hq & ->)%fmap_Some.
  assert (Hok : prefix_ok q /\ wf_prefix q).
  { destruct (has_byte _ _).
    - apply fmap_Some in Hq as (r & Hr & ->). by apply Masked_ok, ParsePrefix_ok in Hr || apply Masked_ok; eapply ParsePrefix_ok.
    - destruct (ParseAddr s) as [a|] eqn:Ea; simplify_eq/=. apply full_prefix_ok. by eapply ParseAddr_ok. }
  unfold fold4in6. destruct (Is4In6 (p_addr q)) eqn:E; [|by destruct Hok].
  destruct Hok as [[Ha Hb] _]. destruct q as [[|x|x] b]; [done|done|]. unfold Is4In6 in E. cbn [p_addr p_bits] in *.
  cbn [Unmap]. rewrite E.
  assert (Hr : prefix_ok (mkPrefix (Addr4 (x mod 2 ^ 32)) (Z.max 0 (b - 96)))).
  { split; cbn [p_addr p_bits addr_ok BitLen] in *; [apply Z.mod_pos_bound; lia|lia]. }
  destruct (Masked_ok _ Hr) as [H1 H2]. by split_and!.
Qed.
Definition names_addr (a : Addr) (s : string) : bool :=
  match entry_prefix (trim s) with Some p => Contains p a | None => false end.

Definition classes_inv (c : classes) : Prop :=
  Forall (fun p => prefix_ok p /\ wf_prefix p /\ Is4In6 (p_addr p) = false /\ Is6 (p_addr p) = false) (p4 c) /\
  Forall (fun p => prefix_ok p /\ wf_prefix p /\ Is4In6 (p_addr p) = false /\ Is6 (p_addr p) = true) (p6 c) /\
  (forall k, k ∈ seen4 c -> exists p, p ∈ p4 c /\ PrefixString p = k) /\
  (forall k, k ∈ seen6 c -> exists p, p ∈ p6 c /\ PrefixString p = k).
Lemma PrefixString_inj p q : prefix_ok p -> prefix_ok q -> Is4In6 (p_addr p) = false -> Is4In6 (p_addr q) = false ->
  PrefixString p = PrefixString q -> p = q.
Proof.
  intros Hp Hq Ep Eq E. pose proof (ParsePrefix_String p Hp Ep) as H1. rewrite E, ParsePrefix_String in H1 by done.
  by simplify_eq.
Qed.
Definition covered (a : Addr) (c : classes) : bool :=
  existsb (fun p => Contains p a) (p4 c) || existsb (fun p => Contains p a) (p6 c).

(** A prefix whose text was seen is already there. *)
Lemma seen_covers (P : Prefix -> Prop) (seen : gset string) ps p a :
  (forall q, P q -> prefix_ok q /\ Is4In6 (p_addr q) = false) -> Forall P ps -> P p ->
  (forall k, k ∈ seen -> exists p, p ∈ ps /\ PrefixString p = k) -> PrefixString p ∈ seen ->
  existsb (fun p => Contains p a) ps = existsb (fun p => Contains p a) ps || Contains p a.
Proof.
  intros HP Hps Hp Hs Hin. destruct (Hs _ Hin) as (q & Hq & E). rewrite Forall_forall in Hps.
  destruct (HP p Hp) as [? ?], (HP q (Hps q Hq)) as [? ?].
  apply PrefixString_inj in E as ->; [|done..].
  destruct (Contains p a) eqn:Ec; [|by rewrite orb_false_r]. rewrite orb_true_r.
  apply existsb_exists. exists p. split; [by apply list_elem_of_In|done].
Qed.
Lemma classify_one_spec c s : classes_inv c ->
  classes_inv (classify_one c s) /\ (forall a, covered a (classify_one c s) = covered a c || names_addr a s) /\
  bad (classify_one c s) = bad c ++ (if negb (bool_decide (trim s = "")) && negb (bool_decide (is_Some (entry_prefix (trim s)))) then [trim s] else []).
Proof.
  intros Hinv. unfold classify_one, names_addr. case_bool_decide as Ht.
  { rewrite Ht. split_and!; [done| |by rewrite app_nil_r]. intros a. by rewrite orb_false_r. }
  destruct (entry_prefix (trim s)) as [p|] eqn:E.
  2:{ split_and!; [done| |done]. intros a. by rewrite orb_false_r. }
  cbn [negb andb]. rewrite (bool_decide_eq_true_2 (is_Some (Some p))) by by eexists. cbn [negb]. rewrite app_nil_r.
  apply entry_prefix_ok in E as (Hok & Hwf & H46). destruct Hinv as (H4 & H6 & S4 & S6).
  destruct (Is6 (p_addr p)) eqn:Hp; case_bool_decide as Hin.
  - split_and!; [by split_and!| |done]. intros a. unfold covered. rewrite <- orb_assoc.
    f_equal. eapply seen_covers; [|exact H6|done|exact S6|done]. naive_solver.
  - split_and!; [|intros a; unfold covered; cbn; by rewrite existsb_app; cbn; rewrite orb_false_r, orb_assoc|done].
    split_and!; cbn; [done|by apply Forall_snoc_2|done|].
    intros k. rewrite elem_of_union, elem_of_singleton. intros [->|Hk].
    + exists p. split; [apply elem_of_app; right; left|done].
    + destruct (S6 k Hk) as (q & Hq & Eq). exists q. split; [apply elem_of_app; by left|done].
  - split_and!; [by split_and!| |done]. intros a. unfold covered.
    assert (Hc : existsb (fun p => Contains p a) (p4 c) = existsb (fun p => Contains p a) (p4 c) || Contains p a).
    { eapply seen_covers; [|exact H4|done|exact S4|done]. naive_solver. }
    rewrite Hc at 1. by rewrite <- !orb_assoc, (orb_comm (Contains p a)).
  - split_and!; [| |done].
    + split_and!; cbn; [by apply Forall_snoc_2|done| |done].
      intros k. rewrite elem_of_union, elem_of_singleton. intros [->|Hk].
      * exists p. split; [apply elem_of_app; right; left|done].
      * destruct (S4 k Hk) as (q & Hq & Eq). exists q. split; [apply elem_of_app; by left|done].
    + intros a. unfold covered; cbn. rewrite existsb_app. cbn. rewrite orb_false_r.
      by rewrite <- !orb_assoc, (orb_comm (Contains p a)).
Qed.
Lemma classify_fold_spec l c : classes_inv c ->
  classes_inv (foldl classify_one c l) /\
  forall a, covered a (foldl classify_one c l) = covered a c || existsb (names_addr a) l.
Proof.
  revert c. induction l as [|s l IH]; intros c Hc; cbn [foldl existsb].
  { split; [done|]. intros a. by rewrite orb_false_r. }
  destruct (classify_one_spec c s Hc) as (Hi & Hcov & _). destruct (IH _ Hi) as [Hi' Hcov'].
  split; [done|]. intros a. by rewrite Hcov', Hcov, orb_assoc.
Qed.

Lemma no_classes_inv : classes_inv no_classes.
Proof. split_and!; [constructor|constructor|intros k Hk; set_solver|intros k Hk; set_solver]. Qed.

(** The emitted texts are the collapsed prefixes', which read back, and cover just what was listed. *)
Lemma omap_PrefixString ps : Forall (fun p => prefix_ok p /\ Is4In6 (p_addr p) = false) ps ->
  omap ParsePrefix (map PrefixString ps) = ps.
Proof.
  induction 1 as [|p ps [Hp H4] _ IH]; [done|]. cbn [map].
  change (omap ParsePrefix (?x :: ?l)) with
    (match ParsePrefix x with Some y => y :: omap ParsePrefix l | None => omap ParsePrefix l end).
  by rewrite ParsePrefix_String, IH.
Qed.
