(* ===== verification/Validate.v ===== *)
(** * Validation

    Models [src/internal/model/validate.go], [ndmpolicy.go] and [quic.go]'s check: [Validate] in full, with the
    namespace it builds as it goes, the depth-first search for cyclic groups, and the validators of the
    fields. What stops an enabled endpoint of a protocol from loading in the core ([missingProtoParam],
    [invalidProtoParam], [echProblem], [pinProblem]) is an argument ([EndpointLoads.proto_problem]), as are the case tables beyond ASCII. *)
From S2P Require Import Prelude GoStrings Util GoText Netip Model Faults ByeDPI Dns PbrLists.
Local Open Scope Z_scope.

Definition minMTU : Z := 576.
Definition maxMTU : Z := 9200.
Definition MinCIDRRefreshHours : Z := 6.
Definition MaxCIDRRefreshHours : Z := 720.

(** ** Fields *)
Definition firstInvalidCIDR (cidrs : list string) : option string :=
  find (fun c => let s := trim c in
                 negb (bool_decide (s = "")) && negb (net_ParseCIDR s) && bool_decide (net_ParseIP s = None)) cidrs.
Definition iface_char (c : Z) : bool :=
  is_letter c || is_digit c || (c =? 46) || (c =? 45) || (c =? 95) || (c =? 64).
Definition validSourceIface (s : string) : bool :=
  let p := str s in
  if bool_decide (s = "") || (15 <? length p)%nat then false
  else match TrimSuffix1 42 p with [] => false | q => forallb iface_char q end.
Definition eui48 (mac : string) : bool :=
  match ParseMAC (str mac) with Some hw => (length hw =? 6)%nat | None => false end.
Definition ValidateDeviceGroup (g : DeviceGroup) : option string :=
  if blank (dg_ID g) then Some "id is required"
  else match for_all (fun m =>
      let mac := trim (MAC m) in
      let ip := trim (IP m) in
      _ ← refuse (bool_decide (mac = "") && bool_decide (ip = "")) "a member needs a MAC or an IP";
      _ ← refuse (negb (bool_decide (mac = "")) && negb (eui48 mac)) "invalid MAC";
      refuse (negb (bool_decide (ip = "")) && negb (bool_decide (firstInvalidCIDR [ip] = None))) "invalid IP/CIDR") (dg_Members g)
  with inl e => Some e | inr _ => None end.
Definition ValidRefreshHours (rl : RoutingList) : bool :=
  if bool_decide (CIDRSource rl = "") || (RefreshHours rl =? 0) then 0 <=? RefreshHours rl
  else (MinCIDRRefreshHours <=? RefreshHours rl) && (RefreshHours rl <=? MaxCIDRRefreshHours).
Definition policy_char (c : Z) : bool := is_letter c || is_digit c || (c =? 95) || (c =? 45).
Definition ValidNDMPolicyName (name : string) : bool :=
  negb (bool_decide (name = "")) && (length (str name) <=? 64)%nat && forallb policy_char (str name).
Definition ruleHasNoMatcher (r : Rule) : bool :=
  negb (hasNonBlank (DomainSuffix r)) && negb (hasNonBlank (Domain r)) && negb (hasNonBlank (GeoSite r))
  && negb (hasNonBlank (GeoIP r)) && negb (hasNonBlank (IPCIDR r)) && (length (r_Port r) =? 0)%nat
  && negb (hasNonBlank (SourceIPCIDR r)) && negb (hasNonBlank (SourceMAC r)) && negb (hasNonBlank (SourceIface r))
  && (length (SourcePort r) =? 0)%nat.
Definition UsesRealm (e : Endpoint) : bool :=
  bool_decide (ep_Protocol e = ProtoHysteria2) && negb (blank (param_string (ep_Params e) "realm")).

(** ** QUIC tuning *)
Definition QUICMinInitialPacketSize : Z := 1200.
Definition QUICMaxInitialPacketSize : Z := 1452.
Definition CarriesQUICTuning (proto : string) : bool := bool_decide (proto = ProtoHysteria2) || bool_decide (proto = ProtoTUIC).
Definition is_int32 (n : Z) : bool := (- 2 ^ 31 <=? n) && (n <=? 2 ^ 31 - 1).
Definition paramWholeNumber (v : any) : option Z :=
  match v with
  | AInt n => Some n
  | AInt64 n => if is_int32 n then Some n else None
  | AFloat f => match f64_whole f with Some n => if is_int32 n then Some n else None | None => None end
  | AString s => Atoi (TrimSpace (str s))
  | _ => None
  end.
Definition ValidQUICInitialPacketSize (n : Z) : bool := (QUICMinInitialPacketSize <=? n) && (n <=? QUICMaxInitialPacketSize).
Definition QUICTuningProblem (e : Endpoint) : bool :=
  if negb (CarriesQUICTuning (ep_Protocol e)) then false
  else match ep_Params e !! "initial_packet_size" with
       | None | Some ANil => false
       | Some v =>
           match v with
           | AString s => negb (blank s)
           | _ => true
           end &&
           match paramWholeNumber v with Some n => negb ((n =? 0) || ValidQUICInitialPacketSize n) | None => true end
       end.

(** ** Rule-set URLs *)
Section url.
Context (unicode_fold : bytes -> bytes -> bool).
Definition RuleSetURLKind (source : string) : string :=
  let path := before_any (str "?#") (str source) in
  let path := match after_first (str "://") path with
              | Some rest => match Netip.split_at 47 rest with (_, Some r) => 47 :: r | (_, None) => [] end
              | None => path
              end in
  let name := after_last 47 path in
  match split_last 46 name with
  | None => ""
  | Some (_, ext) =>
      if EqualFold unicode_fold (46 :: ext) (str ".srs") then "binary"
      else if EqualFold unicode_fold (46 :: ext) (str ".json") then "source" else "text"
  end.
Definition CarriedRuleSetFormat (format newSource : string) : bool :=
  let kind := RuleSetURLKind newSource in bool_decide (kind = "") || bool_decide (kind = format).
End url.

Section validate.
Context (unicode_lower unicode_upper : bytes -> bytes) (proto_problem : Endpoint -> option string).
Abbreviation isBuiltin := (isBuiltin unicode_lower).
Abbreviation isResolvable := (isResolvable unicode_lower).

Definition asn_ok (a : bytes) : bool :=
  match TrimPrefix (str "AS") (ToUpper unicode_upper (TrimSpace a)) with [] => false | d => forallb is_digit d end.
Definition validCIDRSource (s : string) : bool :=
  if HasPrefix s "https://" || HasPrefix s "http://" then true
  else match CutPrefix s "asn:" with
       | None => false
       | Some list => negb (blank list) && forallb asn_ok (Split 44 (str list))
       end.

Definition endpointLoadProblem (e : Endpoint) : option string :=
  if bool_decide (ep_Engine e = EngineByeDPI) then
    match ByeDPIStrategy (ep_Params e) with inl err => Some err | inr _ => None end
  else proto_problem e.

(** ** Endpoints

    The namespace so far: the kind of each id taken, and whether an endpoint or group is usable. *)
Record ns := mkNs { ids : gmap string string; enabled : gmap string bool }.
Definition first_ns : ns := mkNs (<[OutboundBlock := "builtin outbound"]> {[OutboundDirect := "builtin outbound"]}) ∅.
Definition claim (kind id : string) (s : ns) : fault + unit := refuse (bool_decide (is_Some (ids s !! id))) (Invalid kind id "duplicate id").
Definition named (kind id : string) (s : ns) : ns := mkNs (<[id := kind]> (ids s)) (enabled s).
Definition usable (id : string) (on : bool) (s : ns) : ns := mkNs (ids s) (<[id := on]> (enabled s)).

Definition bad_id (id : string) : bool :=
  has_any [47; 92] (str id) || bool_decide (id = ".") || bool_decide (id = "..") || has_byte 0 (str id).
Definition endpoint_checks (e : Endpoint) : fault + unit :=
  let bad := Invalid "endpoint" (ep_ID e) in
  let ifn := param_string (ep_Params e) "interface" in
  _ ← refuse (negb (ep_MTU e =? 0) && ((ep_MTU e <? minMTU) || (maxMTU <? ep_MTU e))) (bad "mtu out of range");
  _ ← refuse (negb (ep_PersistentKeepalive e =? 0) && ((ep_PersistentKeepalive e <? 1) || (65535 <? ep_PersistentKeepalive e)))
        (bad "persistent_keepalive out of range");
  _ ← refuse (QUICTuningProblem e) (bad "initial_packet_size out of range");
  _ ← refuse (ep_AWGUserspace e && (negb (bool_decide (ep_Engine e = EngineAmneziaWG)) || negb (OwnsResource e))) (bad "awg_userspace");
  if bool_decide (ep_Engine e = EngineExternal) then
    _ ← refuse (blank ifn) (bad "external engine needs params.interface");
    refuse (has_byte 42 (str ifn) || negb (validSourceIface ifn)) (bad "invalid params.interface")
  else if bool_decide (ep_Engine e = EngineByeDPI) then
    match ByeDPIStrategy (ep_Params e) with inl _ => inl (bad "byedpi") | inr _ => ok end
  else
    _ ← (if UsesRealm e then ok
         else
           _ ← refuse (bool_decide (ep_Server e = "")) (bad "empty server");
           refuse ((ep_Port e <? 1) || (65535 <? ep_Port e)) (bad "port out of range"));
    _ ← refuse (bool_decide (ep_Protocol e = "")) (bad "empty protocol");
    if ep_Enabled e then
      match endpointLoadProblem e with Some _ => inl (bad "load problem") | None => ok end
    else ok.
Definition check_endpoint (s : ns) (e : Endpoint) : fault + ns :=
  let bad := Invalid "endpoint" (ep_ID e) in
  _ ← refuse (bool_decide (ep_ID e = "")) (bad "empty id");
  _ ← refuse (bad_id (ep_ID e)) (bad "invalid id");
  _ ← refuse (isBuiltin (ep_ID e)) (bad "reserved builtin outbound tag");
  _ ← claim "endpoint" (ep_ID e) s;
  _ ← endpoint_checks e;
  inr (usable (ep_ID e) (ep_Enabled e) (named "endpoint" (ep_ID e) s)).

(** ** Groups *)
Definition check_group (s : ns) (g : Group) : fault + ns :=
  let bad := Invalid "group" (gr_ID g) in
  _ ← refuse (bool_decide (gr_ID g = "")) (bad "empty id");
  _ ← refuse (isBuiltin (gr_ID g)) (bad "reserved builtin outbound tag");
  _ ← claim "group" (gr_ID g) s;
  _ ← refuse (length (gr_Members g) =? 0)%nat (bad "no members");
  inr (usable (gr_ID g) true (named "group" (gr_ID g) s)).
Definition check_member (s : ns) (g : Group) (m : string) : fault + unit :=
  let bad := Invalid "group" (gr_ID g) in
  if bool_decide (m = OutboundDirect) then ok
  else
    _ ← refuse (bool_decide (m = OutboundBlock)) (bad "member is a route action");
    _ ← refuse (negb (bool_decide (is_Some (ids s !! m)))) (UnresolvedRef "group" (gr_ID g) m);
    _ ← refuse (bool_decide (m = gr_ID g)) (bad "cannot contain itself");
    refuse (off (enabled s) m) (DisabledRef "group" (gr_ID g) m).

(** The search for a cycle: [groupAdj id] is the map's entry of [id], [None] is out of fuel, [inl] names
    the back edge. *)
Definition groupAdj (s : ns) (groups : list Group) (id : string) : list string :=
  filter (fun m => ids s !! m = Some "group") (concat (gr_Members <$> filter (fun g => gr_ID g = id) groups)).
Inductive colour := colVisiting | colDone.
Section dfs.
Context (adj : string -> list string).
Fixpoint dfs_members (visit : gmap string colour -> string -> option (string * string + gmap string colour))
    (id : string) (c : gmap string colour) (ms : list string) : option (string * string + gmap string colour) :=
  match ms with
  | [] => Some (inr c)
  | m :: ms =>
      match c !! m with
      | Some colVisiting => Some (inl (id, m))
      | Some colDone => dfs_members visit id c ms
      | None =>
          match visit c m with
          | Some (inr c) => dfs_members visit id c ms
          | r => r
          end
      end
  end.
Fixpoint dfs (fuel : nat) (c : gmap string colour) (id : string) : option (string * string + gmap string colour) :=
  match fuel with
  | O => None
  | S fuel =>
      match dfs_members (dfs fuel) id (<[id := colVisiting]> c) (adj id) with
      | Some (inr c) => Some (inr (<[id := colDone]> c))
      | r => r
      end
  end.
(** The loop over the groups. *)
Fixpoint dfs_all (fuel : nat) (c : gmap string colour) (roots : list string) : option (string * string + gmap string colour) :=
  match roots with
  | [] => Some (inr c)
  | id :: roots =>
      match c !! id with
      | Some _ => dfs_all fuel c roots
      | None =>
          match dfs fuel c id with
          | Some (inr c) => dfs_all fuel c roots
          | r => r
          end
      end
  end.
End dfs.
(** One level more than there are groups is enough ([ValidateSpec.dfs_all_cycle]). *)
Definition check_cycles (s : ns) (groups : list Group) : fault + unit :=
  match dfs_all (groupAdj s groups) (S (length groups)) ∅ (map gr_ID groups) with
  | Some (inl (id, _)) => inl (Invalid "group" id "part of a cycle")
  | _ => ok
  end.

(** ** Rules *)
Definition bad_port (p : Z) : bool := (p <? 0) || (65535 <? p).
Definition check_matchers (r : Rule) : fault + unit :=
  let bad := Invalid "rule" (r_ID r) in
  _ ← refuse (ruleHasNoMatcher r) (bad "no match condition");
  _ ← refuse (negb (bool_decide (firstInvalidCIDR (IPCIDR r) = None))) (bad "invalid ip_cidr");
  _ ← refuse (existsb bad_port (r_Port r)) (bad "port out of range");
  _ ← refuse (negb (bool_decide (firstInvalidCIDR (SourceIPCIDR r) = None))) (bad "invalid source_ip_cidr");
  _ ← refuse (existsb bad_port (SourcePort r)) (bad "source_port out of range");
  _ ← refuse (existsb (fun m => negb (blank m) && negb (eui48 (trim m))) (SourceMAC r)) (bad "invalid source_mac");
  refuse (existsb (fun i => negb (blank i) && negb (validSourceIface (trim i))) (SourceIface r)) (bad "invalid source_iface").
Definition is_policy (o : string) : bool := bool_decide (is_Some (NDMPolicyName o)).
(** A target a rule or list points at: known, and switched on. *)
Definition check_target (kind id target : string) (s : ns) : fault + unit :=
  _ ← refuse (negb (isResolvable target (ids s))) (UnresolvedRef kind id target);
  refuse (negb (isBuiltin target) && off (enabled s) target) (DisabledRef kind id target).
Definition check_rule (st : ns * Z) (r : Rule) : fault + (ns * Z) :=
  let '(s, defaults) := st in
  let bad := Invalid "rule" (r_ID r) in
  _ ← refuse (bool_decide (r_ID r = "")) (bad "empty id");
  _ ← claim "rule" (r_ID r) s;
  let s := named "rule" (r_ID r) s in
  if Disabled r then inr (s, defaults)
  else
    _ ← (if r_Default r then ok else check_matchers r);
    _ ← refuse (is_policy (r_Outbound r)) (bad "outbound is an access policy");
    _ ← check_target "rule" (r_ID r) (r_Outbound r) s;
    inr (s, if r_Default r then defaults + 1 else defaults).

(** ** Device groups and routing lists *)
Definition check_devices (s : ns) (g : DeviceGroup) : fault + ns :=
  _ ← match ValidateDeviceGroup g with Some e => inl (Invalid "device group" (dg_Name g) e) | None => ok end;
  _ ← claim "device group" (dg_ID g) s;
  inr (named "device group" (dg_ID g) s).
Definition list_content (rl : RoutingList) : fault + unit :=
  let bad := Invalid "routing list" (rl_ID rl) in
  _ ← refuse (bool_decide (Source rl = "") && (length (Manual rl) =? 0)%nat && bool_decide (CIDRSource rl = "")
              && (length (CIDRCache rl) =? 0)%nat && bool_decide (DomainSource rl = "") && (length (DomainCache rl) =? 0)%nat)
        (bad "needs a source");
  _ ← refuse (negb (bool_decide (CIDRSource rl = "")) && negb (validCIDRSource (CIDRSource rl))) (bad "cidr_source");
  refuse (negb (bool_decide (DomainSource rl = "")) && negb (HasPrefix (DomainSource rl) "https://")
          && negb (HasPrefix (DomainSource rl) "http://")) (bad "domain_source").
Definition list_scope (devGroups : list string) (rl : RoutingList) : fault + unit :=
  let bad := Invalid "routing list" (rl_ID rl) in
  _ ← refuse (negb (bool_decide (ScopeMode rl ∈ [""; "all"; "only"; "except"]))) (bad "invalid scope_mode");
  _ ← refuse (existsb (fun gid => negb (bool_decide (gid ∈ devGroups))) (ScopeGroups rl)) (bad "unknown device group");
  _ ← refuse (negb (bool_decide (TLSFragment rl ∈ [""; "record"; "handshake"]))) (bad "invalid tls_fragment");
  refuse (bool_decide (ScopeMode rl ∈ ["only"; "except"]) && (length (ScopeGroups rl) =? 0)%nat) (bad "scope_mode needs a device group").
Definition list_target (s : ns) (rl : RoutingList) : fault + unit :=
  match NDMPolicyName (rl_Outbound rl) with
  | Some name => refuse (negb (ValidNDMPolicyName name)) (Invalid "routing list" (rl_ID rl) "access policy name")
  | None => check_target "routing list" (rl_ID rl) (rl_Outbound rl) s
  end.
Definition list_download (s : ns) (rl : RoutingList) : fault + unit :=
  if bool_decide (DownloadVia rl = "") then ok
  else
    _ ← refuse (is_policy (DownloadVia rl)) (Invalid "routing list" (rl_ID rl) "download_via is an access policy");
    check_target "routing list" (rl_ID rl) (DownloadVia rl) s.
Definition check_list (devGroups : list string) (s : ns) (rl : RoutingList) : fault + ns :=
  _ ← refuse (bool_decide (rl_ID rl = "")) (Invalid "routing list" (rl_ID rl) "empty id");
  _ ← claim "routing list" (rl_ID rl) s;
  let s := named "routing list" (rl_ID rl) s in
  _ ← list_content rl;
  _ ← list_target s rl;
  _ ← list_scope devGroups rl;
  _ ← list_download s rl;
  inr s.

(** ** [Validate] *)
Definition validate (p : Profile) : fault + unit :=
  s ← each check_endpoint first_ns (Endpoints p);
  s ← each check_group s (Groups p);
  _ ← for_all (fun g => for_all (check_member s g) (gr_Members g)) (Groups p);
  _ ← check_cycles s (Groups p);
  '(s, defaults) ← each check_rule (s, 0) (Rules p);
  _ ← refuse (1 <? defaults) (Invalid "rule" "" "more than one default rule");
  s ← each check_devices s (DeviceGroups p);
  s ← each (check_list (map dg_ID (DeviceGroups p))) s (RoutingLists p);
  match DNS p with None => ok | Some d => validateDNS unicode_lower d (ids s) (enabled s) (Endpoints p) end.
Definition Validate (p : Profile) : option fault := match validate p with inl e => Some e | inr _ => None end.
End validate.
