(* ===== verification/EndpointPins.v ===== *)
(** * Certificate pins

    Models [src/internal/model/pin.go]: the SHA-256 hash a pin is ([ParsePinSHA256], in hex or in
    canonical base64), its stored forms, the pins of a connection, and what validation refuses. A parse
    error is [None]; the messages of [pinProblem] are shortened. *)
From S2P Require Import Prelude GoStrings GoText Netip GoCodec AuthRecord Model Dns ByeDPI.
Local Open Scope Z_scope.

Definition pinSize : nat := 32.
Definition isHexDigits (s : bytes) : bool := match s with [] => false | _ => forallb is_hex_digit s end.
(** The bytes of a pin: ':' and '-' may stand between hex digits. *)
Definition parse_pin (p : bytes) : option bytes :=
  let s := TrimSpace p in
  match s with
  | [] => None
  | _ =>
      let h := filter (fun c => c <> 58 /\ c <> 45) s in
      if isHexDigits h then if (length h =? 2 * pinSize)%nat then Some (hex_decode h) else None
      else
        b ← DecodeString StdEncoding s;
        if (length b =? pinSize)%nat && bool_decide (EncodeToString StdEncoding b = s) then Some b else None
  end.
Definition ParsePinSHA256 (s : string) : option bytes := parse_pin (str s).
Definition CanonicalCertPin (s : string) : string :=
  match ParsePinSHA256 s with None => trim s | Some b => unstr (hex_encode b) end.
Definition CanonicalPubKeyPin (s : string) : string :=
  match ParsePinSHA256 s with None => trim s | Some b => unstr (EncodeToString StdEncoding b) end.
(** Commas, semicolons and white space separate pins. *)
Definition SplitPinList (s : string) : list string :=
  unstr <$> Fields (map (fun c => if (c =? 44) || (c =? 59) then 32 else c) (str s)).
Definition canonicalPins (pins : list string) (canon : string -> string) : list string :=
  once ∅ (filter (fun c => c <> "") (canon <$> pins)).
Definition CanonicalizePins (t : TLS) : TLS :=
  mkTLS (tls_Enabled t) (tls_Type t) (tls_SNI t) (tls_ALPN t) (tls_Insecure t) (tls_Fingerprint t) (tls_PublicKey t)
    (tls_ShortID t) (tls_Fragment t) (tls_RecordFragment t) (tls_ECH t)
    (canonicalPins (tls_PinCertSHA256 t) CanonicalCertPin) (canonicalPins (tls_PinPubKeySHA256 t) CanonicalPubKeyPin)
    (tls_PinCertMayBeCA t) (tls_PinCertBesideChain t)
    (canonicalPins (tls_PinCertMayBeCAOf t) CanonicalCertPin) (canonicalPins (tls_PinCertBesideChainOf t) CanonicalCertPin).

(** ** The pins of a connection *)
Definition ParamLegacyPin : string := "pin_sha256".
Definition ParamVerifyCertName : string := "vcn".
Definition parses (s : string) : bool := bool_decide (is_Some (ParsePinSHA256 s)).
Definition legacy_pin (e : Endpoint) : string := param_string (ep_Params e) ParamLegacyPin.
Definition CertPinsOf (e : Endpoint) : list string :=
  match ep_TLS e with
  | None => []
  | Some t =>
      canonicalPins (filter (fun p => parses p = true) (tls_PinCertSHA256 t)
                     ++ (if negb (bool_decide (legacy_pin e = "")) && parses (legacy_pin e) then [legacy_pin e] else []))
        CanonicalCertPin
  end.
Definition PubKeyPinsOf (e : Endpoint) : list string :=
  match ep_TLS e with
  | None => []
  | Some t => canonicalPins (filter (fun p => parses p = true) (tls_PinPubKeySHA256 t)) CanonicalPubKeyPin
  end.
Definition HasPinIntent (e : Endpoint) : bool :=
  match ep_TLS e with
  | None => false
  | Some t => (0 <? length (tls_PinCertSHA256 t))%nat || (0 <? length (tls_PinPubKeySHA256 t))%nat || negb (blank (legacy_pin e))
  end.
Definition VerifyCertNames (e : Endpoint) : list string :=
  filter (fun n => n <> "") ((fun n => unstr (TrimSpace n)) <$> Split 44 (str (param_string (ep_Params e) ParamVerifyCertName))).
Definition pinProblem (e : Endpoint) : option string :=
  match ep_TLS e with
  | None => None
  | Some t =>
      if existsb (fun p => negb (parses p)) (tls_PinCertSHA256 t) then Some "certificate pin is not a SHA-256 hash"
      else if existsb (fun p => negb (parses p)) (tls_PinPubKeySHA256 t) then Some "public-key pin is not a SHA-256 hash"
      else None
  end.

(** ** Facts *)
Lemma parse_pin_cases s b : parse_pin s = Some b -> length b = pinSize /\ Forall is_byte b.
Proof.
  unfold parse_pin. destruct (TrimSpace s) as [|c q]; [done|]. cbn zeta. remember (c :: q) as t. clear Heqt.
  destruct (isHexDigits _) eqn:Ex.
  - destruct (length _ =? _)%nat eqn:El; [|done]. intros [= <-]. apply Nat.eqb_eq in El.
    assert (Hh : Forall (fun c => is_hex_digit c = true) (filter (fun c => c <> 58 /\ c <> 45) t)).
    { unfold isHexDigits in Ex. destruct (filter _ t); [done|]. apply Forall_forall. rewrite forallb_forall in Ex. intros x Hx. by apply Ex, list_elem_of_In. }
    apply hex_decode_bytes in Hh as [H1 H2]. rewrite H2, El. split; [by vm_compute|done].
  - destruct (DecodeString _ _) as [b'|] eqn:Ed; [|done]. cbn. destruct (length b' =? _)%nat eqn:El; [|done]. cbn. case_bool_decide; [|done].
    intros [= <-]. apply Nat.eqb_eq in El. split; [done|by eapply Std_decode_bytes].
Qed.
Lemma filter_pass {A} (P : A -> Prop) `{forall x, Decision (P x)} l : Forall P l -> filter P l = l.
Proof. induction 1 as [|x l Hx _ IH]; [done|]. by rewrite filter_cons, decide_True, IH. Qed.
Lemma parse_hex b : length b = pinSize -> Forall is_byte b -> parse_pin (hex_encode b) = Some b.
Proof.
  intros Hl Hb. destruct (hex_encode_facts b Hb) as (Hd & Hlen & Hf). unfold parse_pin.
  rewrite TrimSpace_visible by (eapply Forall_impl; [exact Hf|by intros c (_ & ? & _)]).
  rewrite filter_pass by (eapply Forall_impl; [exact Hf|by intros c (_ & _ & ?)]).
  destruct (hex_encode b) as [|x y] eqn:E; [rewrite Hl in Hlen; done|].
  assert (isHexDigits (x :: y) = true) as ->.
  { apply forallb_forall. intros c Hc. rewrite Forall_forall in Hf. by apply Hf, list_elem_of_In. }
  by rewrite Hlen, Hl, Hd.
Qed.
Lemma parse_base64 b : length b = pinSize -> Forall is_byte b -> parse_pin (EncodeToString StdEncoding b) = Some b.
Proof.
  intros Hl Hb. destruct (Std_encode_shape b Hb) as (ds & E & Hds & Hmod).
  assert (Hs : length (sextets b) = 43%nat) by (rewrite sextets_length, Hl; by vm_compute).
  assert (Hp : 61 ∈ EncodeToString StdEncoding b).
  { rewrite E in Hmod |- *. rewrite length_app, length_map, Hs in Hmod. apply elem_of_app. right.
    destruct Hds as [->|[->| ->]]; [done|apply list_elem_of_here..]. }
  assert (Hv : Forall visible (EncodeToString StdEncoding b)).
  { rewrite E. apply Forall_app. split; [|unfold visible; destruct Hds as [->|[->| ->]]; repeat constructor; done].
    pose proof (sextets_range b Hb) as Hr. clear -Hr. induction Hr as [|v vs Hv _ IH]; [constructor|]. constructor; [by apply b64_digit_visible|done]. }
  unfold parse_pin. rewrite TrimSpace_visible by done. rewrite Std_round_trip by done. cbn [mbind option_bind].
  destruct (EncodeToString StdEncoding b) as [|x y] eqn:Ee; [by apply elem_of_nil in Hp|]. rewrite <- Ee in *.
  assert (isHexDigits (filter (fun c => c <> 58 /\ c <> 45) (EncodeToString StdEncoding b)) = false) as ->.
  { apply not_true_iff_false. unfold isHexDigits. assert (Hf : 61 ∈ filter (fun c => c <> 58 /\ c <> 45) (EncodeToString StdEncoding b)) by by apply list_elem_of_filter.
    destruct (filter _ _) as [|u v]; [by apply elem_of_nil in Hf|]. rewrite forallb_forall. intros H. apply list_elem_of_In, H in Hf. done. }
  rewrite Hl. cbn. by rewrite bool_decide_eq_true_2.
Qed.

(** A pin's stored forms are the same pin: whatever form it was written in, the hex and the base64
    that replace it read back as the same 32 bytes, so a pin survives any number of rewrites. *)
Theorem canonical_pin_reads_back s b : ParsePinSHA256 s = Some b ->
  length b = pinSize /\ ParsePinSHA256 (CanonicalCertPin s) = Some b /\ ParsePinSHA256 (CanonicalPubKeyPin s) = Some b /\
  CanonicalCertPin (CanonicalPubKeyPin s) = CanonicalCertPin s /\ CanonicalPubKeyPin (CanonicalCertPin s) = CanonicalPubKeyPin s.
Proof.
  intros H. unfold ParsePinSHA256 in H. destruct (parse_pin_cases _ _ H) as [Hl Hb].
  assert (Hc : ParsePinSHA256 (CanonicalCertPin s) = Some b).
  { unfold CanonicalCertPin, ParsePinSHA256. rewrite H. rewrite str_unstr; [by apply parse_hex|].
    destruct (hex_encode_facts b Hb) as (_ & _ & Hf). eapply Forall_impl; [exact Hf|]. unfold visible, is_byte. intros c (_ & ? & _). lia. }
  assert (Hk : ParsePinSHA256 (CanonicalPubKeyPin s) = Some b).
  { unfold CanonicalPubKeyPin, ParsePinSHA256. rewrite H. rewrite str_unstr; [by apply parse_base64|].
    destruct (Std_encode_shape b Hb) as (ds & -> & Hds & _). apply Forall_app. split; [|destruct Hds as [->|[->| ->]]; unfold is_byte; repeat constructor; done].
    pose proof (sextets_range b Hb) as Hr. clear -Hr. induction Hr as [|v vs Hv _ IH]; [constructor|]. constructor; [|done].
    destruct (b64_digit_visible v Hv) as [Hd _]. unfold visible, is_byte in *. lia. }
  split_and!; [done..| |].
  - unfold CanonicalCertPin at 1. rewrite Hk. unfold CanonicalCertPin, ParsePinSHA256. by rewrite H.
  - unfold CanonicalPubKeyPin at 1. rewrite Hc. unfold CanonicalPubKeyPin, ParsePinSHA256. by rewrite H.
Qed.
Definition example_pin : string := "AB:CD:EF-00:11:22:33:44:55:66:77:88:99:AA:BB:CC:dd:ee:ff:01:02:03:04:05:06:07:08:09:10:11:12:13".
Lemma canonical_pin_reads_back_witness :
  CanonicalCertPin example_pin = "abcdef00112233445566778899aabbccddeeff0102030405060708091011" +:+ "1213" /\
  exists b, ParsePinSHA256 example_pin = Some b /\ ParsePinSHA256 (CanonicalPubKeyPin example_pin) = Some b.
Proof.
  split; [by vm_compute|]. eexists. split; [by vm_compute|]. eapply (canonical_pin_reads_back example_pin). by vm_compute.
Defined.
Example pin_lists : SplitPinList " a,b;;c d " = ["a"; "b"; "c"; "d"].
Proof. vm_compute. reflexivity. Qed.
