(* ===== verification/EndpointEch.v ===== *)
(** * Encrypted Client Hello

    Models [src/internal/model/ech.go]: the ECH config of a connection as links carry it
    ([ParseECHConfigList]), the check of its framing, its stored form, and what validation refuses.
    [pem.Decode] is an argument. [check_is_framing]: the check takes exactly the lists the wire format
    can write, so the entries of an accepted list are the entries a client reads. *)
From S2P Require Import Prelude GoStrings GoText Netip GoCodec Model Faults.
Local Open Scope Z_scope.

Definition echVersion : Z := 0xfe0d.
Definition ECHActive (t : option TLS) : bool :=
  match t with
  | Some t => tls_Enabled t && negb (bool_decide (tls_Type t = "reality")) && match tls_ECH t with Some e => ech_Enabled e | None => false end
  | None => false
  end.
Inductive ech_error :=
  EchEmpty | EchNotPEM | EchPEMType | EchMorePEM | EchNotBase64 | EchShort | EchLength | EchTruncated | EchMalformed | EchNoVersion.

(** ** Framing *)
Definition take_bytes (n : nat) (c : bytes) : option (bytes * bytes) :=
  if (length c <? n)%nat then None else Some (take n c, drop n c).
(** A vector: a length in [w] bytes (1 or 2), then that many bytes, no fewer than [least]. *)
Definition vec (w least : nat) (c : bytes) : option (bytes * bytes) :=
  '(p, c) ← take_bytes w c;
  let n := Z.to_nat (be p) in
  if (n <? least)%nat then None else take_bytes n c.
Definition ext_length (ext : bytes) : nat := (4 + Z.to_nat (be (take 2 (drop 2 ext))))%nat.
Fixpoint extensions_ok (fuel : nat) (ext : bytes) : bool :=
  match ext, fuel with
  | [], _ => true
  | _, O => false
  | _, S fuel => if (length ext <? 4)%nat || (length ext <? ext_length ext)%nat then false else extensions_ok fuel (drop (ext_length ext) ext)
  end.
Definition checkECHConfigContents (c : bytes) : bool :=
  match
    '(_, c) ← take_bytes 3 c;
    '(_, c) ← vec 2 1 c;
    '(suites, c) ← vec 2 4 c;
    _ ← (if (length suites mod 4 =? 0)%nat then Some tt else None);
    '(_, c) ← take_bytes 1 c;
    '(_, c) ← vec 1 1 c;
    vec 2 0 c
  with
  | Some (ext, []) => extensions_ok (length ext) ext
  | _ => false
  end.
Fixpoint ech_entries (fuel : nat) (usable : nat) (b : bytes) : ech_error + nat :=
  match b, fuel with
  | [], _ => inr usable
  | _, O => inl EchTruncated
  | _, S fuel =>
      if (length b <? 4)%nat then inl EchTruncated
      else
        let version := be (take 2 b) in
        let n := Z.to_nat (be (take 2 (drop 2 b))) in
        _ ← refuse (length b <? 4 + n)%nat EchTruncated;
        if version =? echVersion then
          _ ← refuse (negb (checkECHConfigContents (take n (drop 4 b)))) EchMalformed;
          ech_entries fuel (S usable) (drop (4 + n) b)
        else ech_entries fuel usable (drop (4 + n) b)
  end.
Definition checkECHConfigList (b : bytes) : ech_error + unit :=
  _ ← refuse (length b <? 2)%nat EchShort;
  let rest := drop 2 b in
  _ ← refuse (negb (be (take 2 b) =? Z.of_nat (length rest))) EchLength;
  usable ← ech_entries (length rest) 0 rest;
  refuse (usable =? 0)%nat EchNoVersion.

(** ** Texts *)
Definition unwrap (s : bytes) : bytes :=
  (fun c => if c =? 32 then 43 else c) <$> filter (fun c => c <> 10 /\ c <> 13 /\ c <> 9) s.
Fixpoint first_decode (es : list encoding) (p : bytes) : option bytes :=
  match es with
  | [] => None
  | e :: es => match DecodeString e p with Some ((_ :: _) as b) => Some b | _ => first_decode es p end
  end.
Definition decodeECHBase64 (s : bytes) : option bytes :=
  first_decode [StdEncoding; RawStdEncoding; URLEncoding; RawURLEncoding] (unwrap s).
Definition isASCII (s : string) : bool := is_ascii (str s).
Definition name_char (c : Z) : bool := is_letter c || is_digit c || (c =? 45) || (c =? 95).
Definition name_label (l : bytes) : bool :=
  match l with [] => false | _ => (length l <=? 63)%nat && forallb name_char l end.
Definition IsDNSName (s : string) : bool :=
  let p := TrimSuffix1 46 (str s) in
  match p with
  | [] => false
  | _ => (length p <=? 253)%nat && bool_decide (net_ParseIP (unstr (trim_brackets p)) = None) && forallb name_label (Split 46 p)
  end.

Section text.
Context (pem_Decode : bytes -> option (Block * bytes)).
Definition ParseECHConfigList (text : string) : ech_error + bytes :=
  let s := TrimSpace (str text) in
  match s with
  | [] => inl EchEmpty
  | _ =>
      raw ← (match after_first (str "-----BEGIN") s with
             | Some _ =>
                 match pem_Decode s with
                 | None => inl EchNotPEM
                 | Some (block, rest) =>
                     _ ← refuse (negb (bool_decide (pem_Type block = "ECH CONFIGS"))) EchPEMType;
                     _ ← refuse (negb (bool_decide (TrimSpace rest = []))) EchMorePEM;
                     inr (pem_Bytes block)
                 end
             | None => match decodeECHBase64 s with Some b => inr b | None => inl EchNotBase64 end
             end);
      _ ← checkECHConfigList raw; inr raw
  end.
Definition CanonicalECHConfig (s : string) : string :=
  match ParseECHConfigList s with inl _ => trim s | inr b => unstr (EncodeToString StdEncoding b) end.
Definition echProblem (e : Endpoint) : option string :=
  match ep_TLS e with
  | None => None
  | Some t =>
      match tls_ECH t with
      | None => None
      | Some ech =>
          if negb (tls_Enabled t) || negb (ech_Enabled ech) then None
          else if bool_decide (tls_Type t = "reality") then Some "ECH cannot be combined with Reality"
          else if negb (bool_decide (ech_Config ech = "")) then
            match ParseECHConfigList (ech_Config ech) with inl _ => Some "invalid ECH config" | inr _ => None end
          else if bool_decide (ep_Protocol e = ProtoHysteria2) || bool_decide (ep_Protocol e = ProtoTUIC) then
            Some "ECH from DNS does not work over QUIC"
          else
            let q := trim (ech_QueryServerName ech) in
            if negb (bool_decide (q = "")) then if IsDNSName q then None else Some "invalid ECH query server name"
            else
              let name := if bool_decide (tls_SNI t = "") then ep_Server e else tls_SNI t in
              if IsDNSName name then None
              else if negb (isASCII name) then Some "ECH from DNS looks up the server name: write the SNI in its punycode form"
              else Some "ECH from DNS looks up the server name, and this connection has none to look up"
      end
  end.
End text.

(** ** The wire format *)
Definition u16 (n : Z) : bytes := [n / 256; n mod 256].
Definition vec_of (w : nat) (p : bytes) : bytes :=
  (if (w =? 1)%nat then [Z.of_nat (length p)] else u16 (Z.of_nat (length p))) ++ p.
Record key_config := mkKey {
  config_id : Z; kem_id : bytes; public_key : bytes; suites : bytes; max_name : Z; public_name : bytes;
  extensions : list (bytes * bytes)
}.
Definition tagged (x : bytes * bytes) : bytes := x.1 ++ vec_of 2 x.2.
Definition tagged_all (l : list (bytes * bytes)) : bytes := concat (tagged <$> l).
Definition tagged_ok (x : bytes * bytes) : Prop := length x.1 = 2%nat /\ Z.of_nat (length x.2) < 65536.
Definition key_bytes (k : key_config) : bytes :=
  [config_id k] ++ kem_id k ++ vec_of 2 (public_key k) ++ vec_of 2 (suites k) ++ [max_name k] ++ vec_of 1 (public_name k)
  ++ vec_of 2 (tagged_all (extensions k)).
Record key_ok (k : key_config) : Prop := {
  k_kem : length (kem_id k) = 2%nat;
  k_public : 1 <= Z.of_nat (length (public_key k)) < 65536;
  k_suites : 4 <= Z.of_nat (length (suites k)) < 65536 /\ (length (suites k) mod 4 = 0)%nat;
  k_name : 1 <= Z.of_nat (length (public_name k)) < 256;
  k_extensions : Forall tagged_ok (extensions k) /\ Z.of_nat (length (tagged_all (extensions k))) < 65536
}.
(** An entry is a version and its contents; one of ECH's version holds a key. *)
Definition entry_ok (x : bytes * bytes) : Prop :=
  tagged_ok x /\ (be x.1 = echVersion -> exists k, key_ok k /\ x.2 = key_bytes k).
Definition list_ok (es : list (bytes * bytes)) : Prop :=
  Forall entry_ok es /\ Exists (fun x => be x.1 = echVersion) es /\ Z.of_nat (length (tagged_all es)) < 65536.

(** ** Facts *)
Lemma take_bytes_spec n c p r : take_bytes n c = Some (p, r) <-> c = p ++ r /\ length p = n.
Proof.
  unfold take_bytes. destruct (length c <? n)%nat eqn:E.
  - split; [done|]. intros [-> <-]. rewrite length_app in E. apply Nat.ltb_lt in E. lia.
  - apply Nat.ltb_ge in E. split.
    + intros [= <- <-]. rewrite take_drop, length_take. split; [done|lia].
    + intros [-> <-]. by rewrite take_app_length, drop_app_length.
Qed.
Lemma length_vec_of w p : (w = 1 \/ w = 2)%nat -> length (vec_of w p) = (w + length p)%nat.
Proof. by intros [->| ->]. Qed.
Lemma vec_spec w least c p r : (w = 1 \/ w = 2)%nat -> Forall is_byte c ->
  vec w least c = Some (p, r) <-> c = vec_of w p ++ r /\ (least <= length p)%nat /\ Z.of_nat (length p) < 256 ^ Z.of_nat w.
Proof.
  intros Hw Hc. unfold vec. split.
  - destruct (take_bytes w c) as [[q c']|] eqn:E; [|done]. apply take_bytes_spec in E as [-> Hq]. cbn [mbind option_bind]. cbv zeta.
    destruct (_ <? least)%nat eqn:El; [done|]. intros [-> Hp]%take_bytes_spec. apply Nat.ltb_ge in El.
    apply Forall_app in Hc as [Hq' _]. split_and!; [|lia|].
    + rewrite app_assoc. f_equal. unfold vec_of. f_equal. destruct Hw as [->| ->]; destruct q as [|x [|y [|]]]; try done; cbn in Hp |- *;
        rewrite !Forall_cons in Hq'; unfold is_byte in Hq'; unfold u16.
      * f_equal. lia.
      * assert (Hn : Z.of_nat (length p) = x * 256 + y) by lia. rewrite Hn. f_equal; [|f_equal]; Z.to_euclidean_division_equations; lia.
    + destruct Hw as [->| ->]; destruct q as [|x [|y [|]]]; try done; cbn in Hp |- *; rewrite !Forall_cons in Hq'; unfold is_byte in Hq'; lia.
  - intros (-> & Hl & Hlt). set (q := if (w =? 1)%nat then [Z.of_nat (length p)] else u16 (Z.of_nat (length p))).
    assert (Hq : length q = w /\ be q = Z.of_nat (length p)).
    { subst q. destruct Hw as [->| ->]; (split; [done|]); unfold be, u16; cbn; Z.to_euclidean_division_equations; lia. }
    assert (take_bytes w (vec_of w p ++ r) = Some (q, p ++ r)) as ->.
    { apply take_bytes_spec. split; [|apply Hq]. unfold vec_of. fold q. by rewrite app_assoc. }
    cbn [mbind option_bind]. cbv zeta. destruct Hq as [_ ->]. rewrite Nat2Z.id. destruct (Nat.ltb_spec (length p) least); [lia|]. by apply take_bytes_spec.
Qed.
(** The head of a list of tagged vectors, as the loops read it. *)
Lemma piece b : Forall is_byte b -> (4 <= length b)%nat -> (ext_length b <= length b)%nat -> exists t d,
  b = tagged (t, d) ++ drop (ext_length b) b /\ tagged_ok (t, d) /\ take 2 b = t /\
  take (Z.to_nat (be (take 2 (drop 2 b)))) (drop 4 b) = d.
Proof.
  intros Hb H4 Hn. unfold ext_length in *. destruct b as [|x1 [|x2 [|y1 [|y2 b]]]]; cbn in H4; try lia. clear H4.
  change (take 2 (drop 2 (x1 :: x2 :: y1 :: y2 :: b))) with [y1; y2] in *. rewrite !Forall_cons in Hb. unfold is_byte in Hb. set (n := Z.to_nat (be [y1; y2])) in *.
  assert (Hbe : be [y1; y2] = y1 * 256 + y2) by (unfold be; cbn; lia). cbn [length] in Hn.
  exists [x1; x2], (take n b). assert (Hl : length (take n b) = n) by (rewrite length_take; lia).
  split_and!; [|split; [done|cbn [snd]; rewrite Hl; lia]|done|done]. cbn [Nat.add drop]. unfold tagged, vec_of. cbn [fst snd Nat.eqb]. rewrite Hl.
  assert (u16 (Z.of_nat n) = [y1; y2]) as ->; [|by cbn; rewrite take_drop].
  unfold u16. repeat f_equal; subst n; Z.to_euclidean_division_equations; lia.
Qed.
Lemma piece_read t d r : tagged_ok (t, d) -> let b := tagged (t, d) ++ r in
  (4 <= length b)%nat /\ (ext_length b <= length b)%nat /\ ext_length b = (4 + length d)%nat /\
  take 2 b = t /\ Z.to_nat (be (take 2 (drop 2 b))) = length d /\ take (length d) (drop 4 b) = d /\ drop (ext_length b) b = r.
Proof.
  intros [Ht Hd]. cbn [fst snd] in *. destruct t as [|x1 [|x2 [|]]]; try done. unfold tagged, vec_of, ext_length. cbn [fst snd Nat.eqb].
  set (n := Z.of_nat (length d)) in *. cbn zeta. cbn [app u16 take drop length Nat.add]. rewrite length_app.
  assert (Hbe : Z.to_nat (be [n / 256; n mod 256]) = length d) by (unfold be; cbn; Z.to_euclidean_division_equations; lia).
  rewrite !take_0, Hbe. cbn [drop]. rewrite ?drop_0, take_app_length, drop_app_length. split_and!; try done; lia.
Qed.
Lemma extensions_ok_spec fuel ext : (length ext <= fuel)%nat -> Forall is_byte ext ->
  extensions_ok fuel ext = true <-> exists xs, Forall tagged_ok xs /\ ext = tagged_all xs.
Proof.
  revert ext. induction fuel as [|fuel IH]; intros ext Hf Hb.
  - destruct ext; [|cbn in Hf; lia]. split; [intros _; by exists []|done].
  - destruct ext as [|c ext]; [split; [intros _; by exists []|done]|]. remember (c :: ext) as b.
    assert (E : extensions_ok (S fuel) b = if (length b <? 4)%nat || (length b <? ext_length b)%nat then false else extensions_ok fuel (drop (ext_length b) b)) by by subst b.
    rewrite E. clear E. split.
    + destruct (_ || _) eqn:El; [done|]. rewrite orb_false_iff, !Nat.ltb_ge in El. destruct El as [H4 Hn].
      destruct (piece b Hb H4 Hn) as (t & d & Eb & Hok & _). rewrite IH.
      * intros (xs & Hxs & Er). exists ((t, d) :: xs). split; [by constructor|]. unfold tagged_all. cbn [fmap list_fmap concat]. rewrite Eb at 1. f_equal. exact Er.
      * rewrite length_drop. unfold ext_length. lia.
      * by apply Forall_drop.
    + intros (xs & Hxs & Eb). destruct xs as [|[t d] xs]; [by subst b|]. apply Forall_cons in Hxs as [Hx Hxs].
      change (b = tagged (t, d) ++ tagged_all xs) in Eb. destruct (piece_read t d (tagged_all xs) Hx) as (H4 & Hn & Hel & _ & _ & _ & Hr).
      rewrite <- Eb in H4, Hn, Hel, Hr. destruct (_ || _) eqn:El; [rewrite orb_true_iff, !Nat.ltb_lt in El; lia|].
      apply IH; [rewrite length_drop; unfold ext_length; lia|by apply Forall_drop|]. exists xs. by rewrite Hr.
Qed.
Definition contents_parts (c : bytes) : option (bytes * bytes) :=
  '(_, c) ← take_bytes 3 c;
  '(_, c) ← vec 2 1 c;
  '(suites, c) ← vec 2 4 c;
  _ ← (if (length suites mod 4 =? 0)%nat then Some tt else None);
  '(_, c) ← take_bytes 1 c;
  '(_, c) ← vec 1 1 c;
  vec 2 0 c.
Lemma contents_parts_ok c ext r : Forall is_byte c -> contents_parts c = Some (ext, r) -> exists hd pk su mx name,
  c = hd ++ vec_of 2 pk ++ vec_of 2 su ++ mx ++ vec_of 1 name ++ vec_of 2 ext ++ r /\
  length hd = 3%nat /\ 1 <= Z.of_nat (length pk) < 65536 /\ 4 <= Z.of_nat (length su) < 65536 /\ (length su mod 4 = 0)%nat /\
  length mx = 1%nat /\ 1 <= Z.of_nat (length name) < 256 /\ Z.of_nat (length ext) < 65536.
Proof.
  intros Hb. unfold contents_parts.
  destruct (take_bytes 3 c) as [[hd c1]|] eqn:E1; [|done]. cbn [mbind option_bind]. apply take_bytes_spec in E1 as [-> H1]. apply Forall_app in Hb as [_ Hb].
  destruct (vec 2 1 c1) as [[pk c2]|] eqn:E2; [|done]. cbn [mbind option_bind]. apply vec_spec in E2 as (-> & L2 & M2); [|lia|done]. apply Forall_app in Hb as [_ Hb].
  destruct (vec 2 4 c2) as [[su c3]|] eqn:E3; [|done]. cbn [mbind option_bind]. apply vec_spec in E3 as (-> & L3 & M3); [|lia|done]. apply Forall_app in Hb as [_ Hb].
  destruct (_ =? 0)%nat eqn:E4; [|done]. apply Nat.eqb_eq in E4. cbn [mbind option_bind].
  destruct (take_bytes 1 c3) as [[mx c4]|] eqn:E5; [|done]. cbn [mbind option_bind]. apply take_bytes_spec in E5 as [-> H5]. apply Forall_app in Hb as [_ Hb].
  destruct (vec 1 1 c4) as [[name c5]|] eqn:E6; [|done]. cbn [mbind option_bind]. apply vec_spec in E6 as (-> & L6 & M6); [|lia|done]. apply Forall_app in Hb as [_ Hb].
  intros (-> & L7 & M7)%vec_spec; [|lia|done]. exists hd, pk, su, mx, name. cbn in M2, M3, M6, M7. split_and!; try done; lia.
Qed.
Lemma vec_read w least p r : (w = 1 \/ w = 2)%nat -> Forall is_byte (vec_of w p ++ r) -> (least <= length p)%nat ->
  Z.of_nat (length p) < (if (w =? 1)%nat then 256 else 65536) -> vec w least (vec_of w p ++ r) = Some (p, r).
Proof. intros Hw Hb Hl Hlt. apply vec_spec; [done..|]. split_and!; [done..|]. by destruct Hw as [->| ->]. Qed.
Lemma contents_parts_read k : Forall is_byte (key_bytes k) -> key_ok k -> contents_parts (key_bytes k) = Some (tagged_all (extensions k), []).
Proof.
  intros Hb [H1 H2 [H3 H3'] H4 [_ H5]]. unfold contents_parts, key_bytes in *. set (ext := tagged_all (extensions k)) in *.
  rewrite app_assoc in Hb |- *. rewrite <- (app_nil_r (vec_of 2 ext)) in Hb |- *.
  assert (H0 : length ([config_id k] ++ kem_id k) = 3%nat) by (cbn; by rewrite H1).
  rewrite (proj2 (take_bytes_spec 3 _ ([config_id k] ++ kem_id k) _) (conj eq_refl H0)). cbn [mbind option_bind].
  apply Forall_app in Hb as [_ Hb]. rewrite (vec_read 2 1 _ _ (or_intror eq_refl) Hb) by (cbn; lia). cbn [mbind option_bind].
  apply Forall_app in Hb as [_ Hb]. rewrite (vec_read 2 4 _ _ (or_intror eq_refl) Hb) by (cbn; lia). cbn [mbind option_bind].
  apply Forall_app in Hb as [_ Hb]. rewrite H3'. cbn [Nat.eqb mbind option_bind].
  rewrite (proj2 (take_bytes_spec 1 _ [max_name k] _) (conj eq_refl eq_refl)). cbn [mbind option_bind].
  apply Forall_app in Hb as [_ Hb]. rewrite (vec_read 1 1 _ _ (or_introl eq_refl) Hb) by (cbn; lia). cbn [mbind option_bind].
  apply Forall_app in Hb as [_ Hb]. apply (vec_read 2 0 _ _ (or_intror eq_refl) Hb); cbn; lia.
Qed.
Lemma contents_spec c : Forall is_byte c -> checkECHConfigContents c = true <-> exists k, key_ok k /\ c = key_bytes k.
Proof.
  intros Hb. change (checkECHConfigContents c) with (match contents_parts c with Some (ext, []) => extensions_ok (length ext) ext | _ => false end). split.
  - destruct (contents_parts c) as [[ext r]|] eqn:E; [|done]. destruct r; [|done].
    destruct (contents_parts_ok _ _ _ Hb E) as (hd & pk & su & mx & name & Ec & H1 & H2 & H3 & H3' & H4 & H5 & H6). intros He.
    assert (Hx : Forall is_byte ext).
    { rewrite Ec in Hb. unfold vec_of in Hb. rewrite !Forall_app in Hb. tauto. }
    apply extensions_ok_spec in He as (xs & Hxs & ->); [|done..].
    destruct hd as [|c0 [|c1 [|c2 [|]]]]; try done. destruct mx as [|m [|]]; try done.
    exists (mkKey c0 [c1; c2] pk su m name xs). split; [by split|]. rewrite Ec. unfold key_bytes. cbn [config_id kem_id public_key suites max_name public_name extensions].
    by rewrite app_nil_r.
  - intros (k & Hk & ->). rewrite contents_parts_read by done. apply extensions_ok_spec; [done| |].
    + unfold key_bytes, vec_of in Hb. rewrite !Forall_app in Hb. tauto.
    + exists (extensions k). split; [by apply Hk|done].
Qed.
Lemma entries_spec fuel n b m : (length b <= fuel)%nat -> Forall is_byte b ->
  ech_entries fuel n b = inr m <-> exists es, Forall entry_ok es /\ b = tagged_all es /\
    m = (n + length (filter (fun x => be x.1 = echVersion) es))%nat.
Proof.
  revert n b m. induction fuel as [|fuel IH]; intros n b m Hf Hb.
  - destruct b; [|cbn in Hf; lia]. split; [intros [= <-]; exists []; by rewrite Nat.add_0_r|].
    intros ([|[t d] es] & Hes & E & ->); [by cbn; rewrite Nat.add_0_r|]. apply Forall_cons in Hes as [[[Ht _] _] _]. destruct t; [done|done].
  - destruct b as [|c b'].
    { split; [intros [= <-]; exists []; by rewrite Nat.add_0_r|]. intros ([|[t d] es] & Hes & E & ->); [by cbn; rewrite Nat.add_0_r|].
      apply Forall_cons in Hes as [[[Ht _] _] _]. destruct t; [done|done]. }
    remember (c :: b') as b. set (next := drop (ext_length b) b). set (d0 := take (Z.to_nat (be (take 2 (drop 2 b)))) (drop 4 b)).
    assert (E : ech_entries (S fuel) n b = if (length b <? 4)%nat then inl EchTruncated else
      _ ← refuse (length b <? ext_length b)%nat EchTruncated;
      if be (take 2 b) =? echVersion then _ ← refuse (negb (checkECHConfigContents d0)) EchMalformed; ech_entries fuel (S n) next
      else ech_entries fuel n next) by by subst b.
    rewrite E. clear E.
    assert (Hnb : Forall is_byte next) by by apply Forall_drop. assert (Hd0 : Forall is_byte d0) by by apply Forall_take, Forall_drop.
    assert (Hnf : (length next <= fuel)%nat) by (unfold next; rewrite length_drop; unfold ext_length; lia). split.
    + destruct (length b <? 4)%nat eqn:E4; [done|]. apply Nat.ltb_ge in E4. intros (Hn & H)%seq_inr. apply refuse_ok, Nat.ltb_ge in Hn.
      destruct (piece b Hb E4 Hn) as (t & d & Eb & Hok & Et & Ed). fold next in Eb. fold d0 in Ed. rewrite Et, Ed in H.
      destruct (be t =? echVersion) eqn:Ev.
      * apply seq_inr in H as [Hc H]. apply refuse_ok, negb_false_iff in Hc. apply Z.eqb_eq in Ev. apply contents_spec in Hc; [|by rewrite <- Ed].
        apply IH in H as (es & Hes & En & ->); [|done..]. exists ((t, d) :: es). split_and!; [by constructor| |].
        -- rewrite Eb, En. done.
        -- rewrite filter_cons, decide_True by done. cbn. lia.
      * apply Z.eqb_neq in Ev. apply IH in H as (es & Hes & En & ->); [|done..]. exists ((t, d) :: es). split_and!; [by constructor| |].
        -- rewrite Eb, En. done.
        -- by rewrite filter_cons, decide_False.
    + intros ([|[t d] es] & Hes & Eb & ->); [by subst b|]. apply Forall_cons in Hes as [[Hok Hk] Hes]. change (b = tagged (t, d) ++ tagged_all es) in Eb.
      destruct (piece_read t d (tagged_all es) Hok) as (H4 & Hn & Hel & Ht & Hd & Hdd & Hr). rewrite <- Eb in H4, Hn, Hel, Ht, Hd, Hdd, Hr.
      fold next in Hr. unfold d0 in Hd0 |- *. rewrite Ht, Hd, Hdd in *. destruct (Nat.ltb_spec (length b) 4); [lia|].
      destruct (Nat.ltb_spec (length b) (ext_length b)); [lia|]. cbn [refuse mbind err_bind].
      rewrite filter_cons. cbn [fst snd] in *. destruct (be t =? echVersion) eqn:Ev.
      * apply Z.eqb_eq in Ev. rewrite decide_True by done. rewrite (proj2 (contents_spec d Hd0)) by (by apply Hk). cbn [negb refuse mbind err_bind length].
        apply IH; [done..|]. exists es. split_and!; [done..|lia].
      * apply Z.eqb_neq in Ev. rewrite decide_False by done. apply IH; [done..|]. by exists es.
Qed.

(** The framing check accepts a config exactly when it is a list the ECH wire format can write,
    with at least one entry of the version clients use: nothing garbled is taken, nothing well-formed
    is refused. *)
Theorem check_is_framing b : Forall is_byte b ->
  checkECHConfigList b = inr tt <-> exists es, list_ok es /\ b = vec_of 2 (tagged_all es).
Proof.
  intros Hb. unfold checkECHConfigList. rewrite seq_inr, refuse_ok, Nat.ltb_ge. split.
  - intros (H2 & H). apply seq_inr in H as [Hl H]. apply refuse_ok, negb_false_iff, Z.eqb_eq in Hl.
    apply bind_inr in H as (m & Hm & Hz). apply refuse_ok, Nat.eqb_neq in Hz.
    destruct b as [|x [|y b]]; cbn [length] in H2; try lia. cbn [drop take] in *. rewrite !Forall_cons in Hb. destruct Hb as (Hx & Hy & Hb). unfold is_byte in Hx, Hy.
    rewrite ?drop_0, ?take_0 in *. apply entries_spec in Hm as (es & Hes & -> & ->); [|done..]. exists es. unfold be in Hl. cbn in Hl. split.
    + split_and!; [done| |lia]. apply Exists_exists. destruct (filter _ es) as [|u l] eqn:Ef; [done|].
      assert (Hu : u ∈ filter (fun x => be x.1 = echVersion) es) by (rewrite Ef; apply list_elem_of_here). apply list_elem_of_filter in Hu as [? ?]. by exists u.
    + unfold vec_of. cbn [Nat.eqb app]. rewrite <- Hl. unfold u16. cbn [app]. f_equal; [|f_equal]; Z.to_euclidean_division_equations; lia.
  - intros (es & (Hes & Hex & Hlen) & ->). unfold vec_of in *. cbn [Nat.eqb app u16] in *. set (r := tagged_all es) in *. set (n := Z.of_nat (length r)) in *.
    rewrite !Forall_cons in Hb. destruct Hb as (_ & _ & Hb). split; [cbn; lia|]. cbn [take drop].
    assert (be (n / 256 :: n mod 256 :: take 0 r) = n) as -> by (rewrite take_0; unfold be; cbn; Z.to_euclidean_division_equations; lia).
    rewrite drop_0, Z.eqb_refl. cbn [negb refuse mbind err_bind]. apply bind_inr. eexists. split; [by apply entries_spec; [..|exists es]|].
    apply refuse_ok, Nat.eqb_neq. apply Exists_exists in Hex as (u & Hu & Ev).
    assert (Hf : u ∈ filter (fun x => be x.1 = echVersion) es) by by apply list_elem_of_filter. destruct (filter _ es); [by apply elem_of_nil in Hf|done].
Qed.
Definition example_key : key_config := mkKey 7 [0; 32] (repeat 9 32) [0; 1; 0; 1] 0 (str "cover.example") [([0; 1], [5; 6])].
Definition example_list : bytes := vec_of 2 (tagged_all [([0xfe; 0x0a], [1]); ([0xfe; 0x0d], key_bytes example_key)]).
Lemma check_is_framing_witness : checkECHConfigList example_list = inr tt /\
  (exists es, list_ok es /\ example_list = vec_of 2 (tagged_all es)) /\ checkECHConfigList (example_list ++ [0]) = inl EchLength.
Proof.
  split; [by vm_compute|]. split; [|by vm_compute]. apply (check_is_framing example_list); [|by vm_compute].
  apply (bool_decide_unpack _). by vm_compute.
Defined.
Example ech_texts : map IsDNSName ["a.b."; "1.2.3.4"; "[::1]"; "x_y.z"; ".a"; "a..b"; ""] = [true; false; false; true; false; false; false].
Proof. vm_compute. reflexivity. Qed.
Example ech_unwraps : decodeECHBase64 (str "aG k=") = None /\ decodeECHBase64 (str ("a-G_" +:+ "")) = Some [107; 225; 191].
Proof. split; vm_compute; reflexivity. Qed.
