(* ===== verification/EndpointSsh.v ===== *)
(** * SSH connections

    Models [src/internal/model/ssh.go]: the list parameters of a connection, its pinned host keys
    ([ParseSSHHostKey] down to the key blob, elliptic-curve points included), the algorithms offered
    for them, its private key, and what validation refuses. [pem.Decode] is an argument;
    [ecdh.NewPublicKey] is the check it makes of a point. The messages are shortened. *)
From S2P Require Import Prelude GoStrings GoText GoCodec Netip Model Faults ByeDPI Dns.
Local Open Scope Z_scope.

(** ** List parameters *)
(** [strings.ReplaceAll(s, "\r\n", "\n")]. *)
Fixpoint sub_crlf (s : bytes) : bytes :=
  match s with
  | c :: r => if (c =? 13) && match r with d :: _ => d =? 10 | [] => false end then sub_crlf r else c :: sub_crlf r
  | [] => []
  end.
(** [None] is the error; [[]any] must hold strings only. *)
Definition ParamLines (p : gmap string any) (key : string) : option (list string) :=
  match p !! key with
  | None | Some ANil => Some []
  | Some (AString v) => Some (if blank v then [] else unstr <$> Split 10 (sub_crlf (str v)))
  | Some (AStrings v) => Some v
  | Some (AList v) => mapM (fun x => match x with AString s => Some s | _ => None end) v
  | Some _ => None
  end.

(** ** Host keys *)
Definition sshHostKeyTypes : list string :=
  ["ssh-ed25519"; "ecdsa-sha2-nistp256"; "ecdsa-sha2-nistp384"; "ecdsa-sha2-nistp521"; "ssh-rsa"; "ssh-dss"].
Record SSHHostKey := mkHostKey { hk_Type : string; hk_Data : string }.
Definition host_key_text (k : SSHHostKey) : string := hk_Type k +:+ " " +:+ hk_Data k.

(** [crypto/ecdh]'s curves y² = x³ - 3x + b over a prime field. A point is taken in its uncompressed
    form, coordinates below the prime, on the curve. *)
Record Curve := mkCurve { cv_p : Z; cv_b : Z; cv_size : nat }.
Definition P256 : Curve := mkCurve (2 ^ 256 - 2 ^ 224 + 2 ^ 192 + 2 ^ 96 - 1)
  0x5ac635d8aa3a93e7b3ebbd55769886bc651d06b0cc53b0f63bce3c3e27d2604b 32.
Definition P384 : Curve := mkCurve (2 ^ 384 - 2 ^ 128 - 2 ^ 96 + 2 ^ 32 - 1)
  0xb3312fa7e23ee7e4988e056be3f82d19181d9c6efe8141120314088f5013875ac656398d8a2ed19d2a85c8edd3ec2aef 48.
Definition P521 : Curve := mkCurve (2 ^ 521 - 1)
  0x51953eb9618e1c9a1f929a21a0b68540eea2da725b99b315f3b8b489918ef109e156193951ec7e937b1652c0bd3bb1bf073573df883d2c34f1ef451fd46b503f00 66.
Definition on_curve (c : Curve) (x y : Z) : bool := (y * y - (x * x * x - 3 * x + cv_b c)) mod cv_p c =? 0.
Definition NewPublicKey (c : Curve) (key : bytes) : bool :=
  match key with
  | 4 :: xy =>
      let x := be (take (cv_size c) xy) in let y := be (drop (cv_size c) xy) in
      (length xy =? 2 * cv_size c)%nat && (x <? cv_p c) && (y <? cv_p c) && on_curve c x y
  | _ => false
  end.
Definition sshECDHCurves (typ : string) : option Curve :=
  if bool_decide (typ = "ecdsa-sha2-nistp256") then Some P256
  else if bool_decide (typ = "ecdsa-sha2-nistp384") then Some P384
  else if bool_decide (typ = "ecdsa-sha2-nistp521") then Some P521 else None.

(** The reader of length-prefixed strings: after a read that does not fit, nothing is read. *)
Record sshWire := mkWire { w_b : bytes; w_ok : bool }.
Definition next (w : sshWire) : bytes * sshWire :=
  let n := Z.to_nat (be (take 4 (w_b w))) in
  if negb (w_ok w) || (length (w_b w) <? 4)%nat || (length (w_b w) - 4 <? n)%nat then ([], mkWire (w_b w) false)
  else (take n (drop 4 (w_b w)), mkWire (drop n (drop 4 (w_b w))) true).
Definition sshMPInt (b : bytes) : Z :=
  match b with
  | c :: _ => if 128 <=? c then - (be ((fun x => 255 - x) <$> b) + 1) else be b
  | [] => 0
  end.
(** [big.Int]'s [BitLen], of the absolute value. *)
Definition BitLen (z : Z) : Z := if z =? 0 then 0 else Z.log2 (Z.abs z) + 1.
Definition sshKeyBlobOK (typ : string) (blob : bytes) : bool :=
  let '(name, w) := next (mkWire blob true) in
  if negb (bool_decide (name = str typ)) then false
  else
    let '(good, w) :=
      if bool_decide (typ = "ssh-ed25519") then let '(k, w) := next w in ((length k =? 32)%nat, w)
      else match sshECDHCurves typ with
           | Some c =>
               let '(curve, w) := next w in
               if bool_decide (Some (unstr curve) = CutPrefix typ "ecdsa-sha2-") then
                 let '(k, w) := next w in (NewPublicKey c k, w)
               else (false, w)
           | None =>
               if bool_decide (typ = "ssh-rsa") then
                 let '(e, w) := next w in let '(_, w) := next w in
                 let e := sshMPInt e in
                 ((BitLen e <=? 24) && (3 <=? e) && Z.odd e, w)
               else if bool_decide (typ = "ssh-dss") then
                 let '(p, w) := next w in let '(_, w) := next w in let '(_, w) := next w in let '(_, w) := next w in
                 (BitLen (sshMPInt p) =? 1024, w)
               else (false, w)
           end in
    good && w_ok w && (length (w_b w) =? 0)%nat.
Inductive ssh_error := NotStrings | FewFields | UnsupportedType (typ : string) | KeyNotBase64 (typ : string) | NotWholeKey (typ : string).
Definition is_key_type (f : bytes) : bool := bool_decide (unstr f ∈ sshHostKeyTypes).
Definition parse_fields (f : list bytes) : ssh_error + SSHHostKey :=
  match f with
  | t :: data :: _ =>
      let typ := unstr t in
      _ ← refuse (negb (is_key_type t)) (UnsupportedType typ);
      match DecodeString StdEncoding data with
      | None => inl (KeyNotBase64 typ)
      | Some blob => _ ← refuse (negb (sshKeyBlobOK typ blob)) (NotWholeKey typ); inr (mkHostKey typ (unstr data))
      end
  | _ => inl FewFields
  end.
(** The type, the key, a comment; a host name may stand in front. *)
Definition ParseSSHHostKey (line : bytes) : ssh_error + SSHHostKey :=
  let f := Fields line in
  parse_fields (match f with
                | h :: ((t :: _ :: _) as r) => if negb (is_key_type h) && is_key_type t then r else f
                | _ => f
                end).
Definition comment_line (l : bytes) : bool := match l with [] => true | c :: _ => c =? 35 end.
Definition add_host_key (keys : list SSHHostKey) (line : string) : ssh_error + list SSHHostKey :=
  let l := TrimSpace (str line) in
  if comment_line l then inr keys else k ← ParseSSHHostKey l; inr (keys ++ [k]).
Definition SSHHostKeys (e : Endpoint) : ssh_error + list SSHHostKey :=
  match ParamLines (ep_Params e) "host_key" with
  | None => inl NotStrings
  | Some lines => each add_host_key [] lines
  end.
Definition algorithm_order : list (string * string) :=
  [("ecdsa-sha2-nistp256", "ecdsa-sha2-nistp256"); ("ecdsa-sha2-nistp384", "ecdsa-sha2-nistp384");
   ("ecdsa-sha2-nistp521", "ecdsa-sha2-nistp521"); ("ssh-rsa", "rsa-sha2-256"); ("ssh-rsa", "rsa-sha2-512");
   ("ssh-rsa", "ssh-rsa"); ("ssh-dss", "ssh-dss"); ("ssh-ed25519", "ssh-ed25519")].
Definition SSHHostKeyAlgorithms (keys : list SSHHostKey) : list string :=
  snd <$> filter (fun o => o.1 ∈ hk_Type <$> keys) algorithm_order.

(** ** The private key *)
Definition SSHPrivateKey (e : Endpoint) : string :=
  let lines := default [] (ParamLines (ep_Params e) "private_key") in
  unstr (TrimSpace (sub_crlf (join [10] (str <$> lines)))).
Definition sshMissingAuth (e : Endpoint) : bool :=
  blank (param_string (ep_Params e) "password") && bool_decide (SSHPrivateKey e = "").
(** [openssh-key-v1] and a zero byte, then the cipher's and the KDF's names. *)
Definition openSSHKeyEncrypted (b : bytes) : option bool :=
  match strip_prefix (str "openssh-key-v1" ++ [0]) b with
  | None => None
  | Some r =>
      let '(cipher, w) := next (mkWire r true) in
      let '(kdf, w) := next w in
      if w_ok w then Some (negb (bool_decide (cipher = str "none")) || negb (bool_decide (kdf = str "none"))) else None
  end.
(** [unicode.IsControl], on the first rune. *)
Definition control_rune (p : bytes) : bool :=
  match take (rune_width p) p with
  | [c] => (c <? 32) || (c =? 127)
  | [c; d] => (c =? 0xC2) && in_range 0x80 0x9F d
  | _ => false
  end.
Fixpoint has_control (fuel : nat) (p : bytes) : bool :=
  match fuel, p with
  | S fuel, _ :: _ => control_rune p || has_control fuel (drop (rune_width p) p)
  | _, _ => false
  end.
Definition printable (c : Z) : bool := in_range 0x20 0x7e c.

Section pem.
Context (pem_Decode : bytes -> option (Block * bytes)).
Definition pem_key_types : list string := ["RSA PRIVATE KEY"; "EC PRIVATE KEY"; "DSA PRIVATE KEY"; "PRIVATE KEY"].
Definition sshPrivateKeyProblem (key : string) (havePassphrase : bool) : option string :=
  match pem_Decode (str key) with
  | None => Some "private_key is not a PEM private key"
  | Some (block, _) =>
      let encrypted : string + bool :=
        if bool_decide (pem_Type block ∈ pem_key_types) then
          inr (bool_decide (is_Some (after_first (str "ENCRYPTED") (str (default "" (pem_Headers block !! "Proc-Type"))))))
        else if bool_decide (pem_Type block = "OPENSSH PRIVATE KEY") then
          match openSSHKeyEncrypted (pem_Bytes block) with None => inl "private_key is not a valid OpenSSH private key" | Some b => inr b end
        else if bool_decide (pem_Type block = "ENCRYPTED PRIVATE KEY") then inl "private_key: an encrypted PKCS#8 key cannot be read"
        else inl "private_key: unsupported key type" in
      match encrypted with
      | inl err => Some err
      | inr true => if havePassphrase then None else Some "private_key is encrypted: enter its passphrase"
      | inr false => if havePassphrase then Some "private_key_passphrase is set, but the key is not encrypted" else None
      end
  end.
Definition algorithm_lists : list string := ["cipher"; "mac"; "kex_algorithm"].
Definition user_problem (e : Endpoint) : bool :=
  let u := str (param_string (ep_Params e) "user") in has_control (length u) u.
Definition client_version_problem (e : Endpoint) : bool :=
  let v := param_string (ep_Params e) "client_version" in
  negb (bool_decide (v = "")) &&
  (negb (HasPrefix v "SSH-2.0-") || (253 <? length (str v))%nat || negb (forallb printable (str v))).
Definition sshParamProblem (e : Endpoint) : option string :=
  match SSHHostKeys e with
  | inl _ => Some "host key"
  | inr _ =>
      let key := SSHPrivateKey e in
      match (if bool_decide (key = "") then None
             else sshPrivateKeyProblem key (negb (bool_decide (param_string (ep_Params e) "private_key_passphrase" = "")))) with
      | Some p => Some p
      | None =>
          if user_problem e then Some "user must not contain a line break or other control character"
          else if client_version_problem e then Some "client_version must be an SSH-2.0 identification string"
          else match find (fun k => bool_decide (ParamLines (ep_Params e) k = None)) algorithm_lists with
               | Some k => Some (k +:+ ": want a list of strings")
               | None => None
               end
      end
  end.
End pem.

(** ** The wire format of a key *)
Definition u32 (n : Z) : bytes := [n / 16777216; n / 65536 mod 256; n / 256 mod 256; n mod 256].
Definition wire (s : bytes) : bytes := u32 (Z.of_nat (length s)) ++ s.
Definition wire_all (l : list bytes) : bytes := concat (wire <$> l).
Definition short (s : bytes) : Prop := Z.of_nat (length s) < 2 ^ 32.
Definition curve_name (typ : string) : bytes := default [] (strip_prefix (str "ecdsa-sha2-") (str typ)).
(** The strings after the type's name in a key of each type. *)
Definition key_strings (typ : string) (l : list bytes) : Prop :=
  match l with
  | [k] => typ = "ssh-ed25519" /\ length k = 32%nat
  | [a; b] =>
      (exists c, sshECDHCurves typ = Some c /\ a = curve_name typ /\ NewPublicKey c b = true) \/
      (typ = "ssh-rsa" /\ 3 <= sshMPInt a < 2 ^ 24 /\ Z.odd (sshMPInt a) = true)
  | [p; _; _; _] => typ = "ssh-dss" /\ 2 ^ 1023 <= Z.abs (sshMPInt p) < 2 ^ 1024
  | _ => False
  end.

Lemma be_u32 n r : 0 <= n < 2 ^ 32 -> be (take 4 (u32 n ++ r)) = n.
Proof. intros H. unfold u32, be. cbn. rewrite take_0. cbn. Z.to_euclidean_division_equations; lia. Qed.
Lemma next_wire s r : short s -> next (mkWire (wire s ++ r) true) = (s, mkWire r true).
Proof.
  intros H. unfold next, wire. cbn [w_b w_ok negb orb]. rewrite <- app_assoc, be_u32 by (unfold short in H; lia). rewrite Nat2Z.id, length_app, length_app.
  change (length (u32 _)) with 4%nat. destruct (Nat.ltb_spec (4 + (length s + length r)) 4); [lia|].
  destruct (Nat.ltb_spec (4 + (length s + length r) - 4) (length s)); [lia|]. cbn [orb]. unfold u32. cbn [app drop]. rewrite drop_0.
  by rewrite take_app_length, drop_app_length.
Qed.
Lemma next_ok w s w' : Forall is_byte (w_b w) -> next w = (s, w') -> w_ok w' = true -> w_ok w = true /\ w_b w = wire s ++ w_b w' /\ short s.
Proof.
  intros Hb. unfold next. destruct w as [b [|]]; cbn [w_b w_ok negb orb] in *; [|by intros [= <- <-]].
  destruct (_ || _) eqn:E; [by intros [= <- <-]|]. rewrite orb_false_iff, !Nat.ltb_ge in E. destruct E as [H4 Hn]. intros [= <- <-]. cbn [w_b w_ok]. intros _.
  destruct b as [|x1 [|x2 [|x3 [|x4 b]]]]; cbn [length] in H4; try lia. change (take 4 (x1 :: x2 :: x3 :: x4 :: b)) with [x1; x2; x3; x4] in *. cbn [drop length] in *.
  rewrite !Forall_cons in Hb. unfold is_byte in Hb. set (n := Z.to_nat (be [x1; x2; x3; x4])) in *.
  assert (Hbe : be [x1; x2; x3; x4] = x1 * 16777216 + x2 * 65536 + x3 * 256 + x4) by (unfold be; cbn; lia).
  assert (Hl : length (take n b) = n) by (rewrite length_take; lia). rewrite drop_0.
  split_and!; [done| |unfold short; rewrite Hl; lia].
  unfold wire. rewrite Hl. assert (u32 (Z.of_nat n) = [x1; x2; x3; x4]) as ->; [|cbn; by rewrite take_drop].
  unfold u32. f_equal; [|f_equal; [|f_equal; [|f_equal]]]; subst n; Z.to_euclidean_division_equations; lia.
Qed.
Lemma BitLen_le z n : 0 <= n -> BitLen z <= n <-> Z.abs z < 2 ^ n.
Proof.
  intros Hn. unfold BitLen. destruct (Z.eqb_spec z 0) as [->|Hz]; [cbn; split; [intros _; by apply Z.pow_pos_nonneg|done]|].
  rewrite (Z.log2_lt_pow2 (Z.abs z)) by lia. lia.
Qed.
Lemma BitLen_eq z n : 0 < n -> BitLen z = n <-> 2 ^ (n - 1) <= Z.abs z < 2 ^ n.
Proof.
  intros Hn. pose proof (BitLen_le z n ltac:(lia)). pose proof (BitLen_le z (n - 1) ltac:(lia)). lia.
Qed.

(** A key of each type, as the reader sees it. *)
Definition read1 (typ : string) (w : sshWire) : bool * sshWire :=
  if bool_decide (typ = "ssh-ed25519") then let '(k, w) := next w in ((length k =? 32)%nat, w)
  else match sshECDHCurves typ with
       | Some c =>
           let '(curve, w) := next w in
           if bool_decide (Some (unstr curve) = CutPrefix typ "ecdsa-sha2-") then let '(k, w) := next w in (NewPublicKey c k, w) else (false, w)
       | None =>
           if bool_decide (typ = "ssh-rsa") then
             let '(e, w) := next w in let '(_, w) := next w in
             let e := sshMPInt e in ((BitLen e <=? 24) && (3 <=? e) && Z.odd e, w)
           else if bool_decide (typ = "ssh-dss") then
             let '(p, w) := next w in let '(_, w) := next w in let '(_, w) := next w in let '(_, w) := next w in
             (BitLen (sshMPInt p) =? 1024, w)
           else (false, w)
       end.
Lemma blob_eq typ blob : sshKeyBlobOK typ blob =
  let '(name, w) := next (mkWire blob true) in
  bool_decide (name = str typ) && (let '(good, w) := read1 typ w in good && w_ok w && (length (w_b w) =? 0)%nat).
Proof.
  unfold sshKeyBlobOK. destruct (next _) as [name w]. case_bool_decide; [|done]. cbn [negb andb]. unfold read1.
  by repeat case_match.
Qed.
Lemma rest_bytes w s r : Forall is_byte (w_b w) -> w_b w = wire s ++ r -> Forall is_byte s /\ Forall is_byte r.
Proof. intros H E. rewrite E in H. unfold wire in H. rewrite !Forall_app in H. tauto. Qed.
Lemma nil_of {A} (l : list A) : (length l =? 0)%nat = true -> l = [].
Proof. by destruct l. Qed.
Lemma curve_text a typ c : Forall is_byte a -> sshECDHCurves typ = Some c -> Some (unstr a) = CutPrefix typ "ecdsa-sha2-" -> a = curve_name typ.
Proof.
  intros Ha Hc. unfold CutPrefix, curve_name. destruct (strip_prefix _ _) as [q|] eqn:E; [|done]. cbn. intros [= H].
  apply (f_equal str) in H. rewrite !str_unstr in H; [done| |done].
  apply Forall_forall. intros x Hx. pose proof (str_bytes typ) as Hb. rewrite Forall_forall in Hb. apply Hb.
  unfold sshECDHCurves in Hc. repeat case_bool_decide; subst; try done; revert E; vm_compute; intros [= <-]; set_solver.
Qed.
Lemma read1_ok typ w w' : Forall is_byte (w_b w) -> read1 typ w = (true, w') -> w_ok w' = true -> w_b w' = [] ->
  w_ok w = true /\ exists l, key_strings typ l /\ Forall short l /\ w_b w = wire_all l.
Proof.
  intros Hb. unfold read1. case_bool_decide as Ht.
  { destruct (next w) as [k w1] eqn:E1. intros [= Hk <-] Ho Hn. apply Nat.eqb_eq in Hk. destruct (next_ok _ _ _ Hb E1 Ho) as (H1 & -> & Hs).
    split; [done|]. exists [k]. split_and!; [by split|by constructor|]. by rewrite Hn. }
  destruct (sshECDHCurves typ) as [c|] eqn:Ec.
  { destruct (next w) as [a w1] eqn:E1. case_bool_decide as Ha; [|done]. destruct (next w1) as [k w2] eqn:E2. intros [= Hk <-] Ho Hn.
    assert (Hb1 : w_ok w1 = true -> Forall is_byte (w_b w1)) by (intros H; destruct (next_ok _ _ _ Hb E1 H) as (_ & E & _); by apply (rest_bytes _ _ _ Hb E)).
    assert (H1 : w_ok w1 = true) by (unfold next in E2; destruct w1 as [? [|]]; [done|]; cbn in E2; injection E2 as <- <-; done).
    destruct (next_ok _ _ _ (Hb1 H1) E2 Ho) as (_ & E4 & Hs2). destruct (next_ok _ _ _ Hb E1 H1) as (H0 & E3 & Hs1). split; [done|].
    destruct (rest_bytes _ _ _ Hb E3) as [Hba _]. exists [a; k]. split_and!.
    - left. exists c. split_and!; [done|by eapply curve_text|done].
    - by repeat constructor.
    - rewrite E3, E4, Hn. done. }
  case_bool_decide as Hr.
  { destruct (next w) as [e w1] eqn:E1. destruct (next w1) as [m w2] eqn:E2. intros [= Hk <-] Ho Hn.
    assert (H1 : w_ok w1 = true) by (unfold next in E2; destruct w1 as [? [|]]; [done|]; cbn in E2; injection E2 as <- <-; done).
    destruct (next_ok _ _ _ Hb E1 H1) as (H0 & E3 & Hs1). destruct (next_ok _ _ _ (proj2 (rest_bytes _ _ _ Hb E3)) E2 Ho) as (_ & E4 & Hs2).
    rewrite !andb_true_iff in Hk. destruct Hk as [[Hk1%Z.leb_le Hk2%Z.leb_le] Hk3]. apply BitLen_le in Hk1; [|done].
    split; [done|]. exists [e; m]. split_and!; [right; split_and!; [done|lia..|done]|by repeat constructor|by rewrite E3, E4, Hn]. }
  case_bool_decide as Hd; [|done].
  destruct (next w) as [p w1] eqn:E1. destruct (next w1) as [q w2] eqn:E2. destruct (next w2) as [g w3] eqn:E5. destruct (next w3) as [y w4] eqn:E6.
  intros [= Hk <-] Ho Hn.
  assert (Hdown : forall w a w', next w = (a, w') -> w_ok w' = true -> w_ok w = true).
  { intros v a v' E H. unfold next in E. destruct v as [? [|]]; [done|]. cbn in E. injection E as <- <-. done. }
  pose proof (Hdown _ _ _ E6 Ho) as H3. pose proof (Hdown _ _ _ E5 H3) as H2. pose proof (Hdown _ _ _ E2 H2) as H1.
  destruct (next_ok _ _ _ Hb E1 H1) as (H0 & X1 & S1). pose proof (proj2 (rest_bytes _ _ _ Hb X1)) as B1.
  destruct (next_ok _ _ _ B1 E2 H2) as (_ & X2 & S2). pose proof (proj2 (rest_bytes _ _ _ B1 X2)) as B2.
  destruct (next_ok _ _ _ B2 E5 H3) as (_ & X3 & S3). pose proof (proj2 (rest_bytes _ _ _ B2 X3)) as B3.
  destruct (next_ok _ _ _ B3 E6 Ho) as (_ & X4 & S4).
  split; [done|]. exists [p; q; g; y]. split_and!; [split; [done|]; by apply (BitLen_eq _ 1024), Z.eqb_eq|by repeat constructor|by rewrite X1, X2, X3, X4, Hn].
Qed.
Lemma read1_wire typ l : key_strings typ l -> Forall short l -> read1 typ (mkWire (wire_all l) true) = (true, mkWire [] true).
Proof.
  intros Hk Hs. unfold read1. destruct l as [|a [|b [|c [|d [|]]]]]; try done; rewrite !Forall_cons in Hs; unfold wire_all; cbn [fmap list_fmap concat].
  - destruct Hk as [-> Hl]. rewrite bool_decide_eq_true_2 by done. rewrite next_wire by apply Hs. by rewrite Hl.
  - destruct Hs as (Ha & Hb & _). destruct Hk as [(cv & Hc & -> & Hp)|(-> & He & Ho)].
    + assert (typ <> "ssh-ed25519") by (intros ->; done). rewrite bool_decide_eq_false_2 by done. rewrite Hc, next_wire by done.
      rewrite bool_decide_eq_true_2; [rewrite next_wire by done; by rewrite Hp|].
      unfold sshECDHCurves in Hc. repeat case_bool_decide; subst; try done; by vm_compute.
    + rewrite bool_decide_eq_false_2 by done. change (sshECDHCurves "ssh-rsa") with (@None Curve). cbv iota. rewrite bool_decide_eq_true_2 by done.
      rewrite !next_wire by done. rewrite Ho. destruct He as [He1 He2]. rewrite (proj2 (Z.leb_le _ 24)) by (apply BitLen_le; lia).
      by rewrite (proj2 (Z.leb_le 3 _)) by done.
  - destruct Hs as (Ha & Hb & Hc & Hd & _). destruct Hk as [-> Hp]. rewrite bool_decide_eq_false_2 by done.
    change (sshECDHCurves "ssh-dss") with (@None Curve). cbv iota. rewrite bool_decide_eq_false_2 by done. rewrite bool_decide_eq_true_2 by done.
    rewrite !next_wire by done. by rewrite (proj2 (Z.eqb_eq _ 1024)) by (by apply BitLen_eq).
Qed.
Lemma curve_type typ c : sshECDHCurves typ = Some c -> typ ∈ sshHostKeyTypes.
Proof. unfold sshECDHCurves. repeat case_bool_decide; try done; subst; intros _; apply (bool_decide_unpack _); by vm_compute. Qed.
Lemma key_strings_type typ l : key_strings typ l -> typ ∈ sshHostKeyTypes.
Proof.
  destruct l as [|a [|b [|c [|d [|]]]]]; try done; cbn [key_strings].
  - intros [-> _]. apply (bool_decide_unpack _); by vm_compute.
  - intros [(cv & H & _)|[-> _]]; [by eapply curve_type|apply (bool_decide_unpack _); by vm_compute].
  - intros [-> _]. apply (bool_decide_unpack _); by vm_compute.
Qed.
Lemma known_short typ : typ ∈ sshHostKeyTypes -> short (str typ).
Proof. revert typ. apply Forall_forall. unfold short. repeat constructor; by vm_compute. Qed.
(** A pinned SSH host key is one whole key of the type it is pinned as: the blob is the type's name
    and that type's fields in the SSH wire format, and nothing else. A truncated key, one with bytes
    after it, or a point off its curve is refused. *)
Theorem host_key_is_one_key typ blob : Forall is_byte blob ->
  sshKeyBlobOK typ blob = true <-> exists l, key_strings typ l /\ Forall short l /\ blob = wire_all (str typ :: l).
Proof.
  intros Hb. rewrite blob_eq. split.
  - destruct (next (mkWire blob true)) as [name w] eqn:E. intros [Hn%bool_decide_eq_true H]%andb_true_iff. destruct (read1 typ w) as [good w'] eqn:Er.
    rewrite !andb_true_iff in H. destruct H as [[-> Ho] Hl%nil_of].
    assert (Hw : Forall is_byte (w_b w)).
    { unfold next in E. cbn [w_b w_ok negb orb] in E. destruct (_ || _); injection E as <- <-; [done|]. by apply Forall_drop, Forall_drop. }
    destruct (read1_ok _ _ _ Hw Er Ho Hl) as (Hok & l & Hk & Hs & El). exists l. split_and!; [done..|].
    destruct (next_ok (mkWire blob true) _ _ Hb E Hok) as (_ & Eb & _). cbn [w_b] in Eb. by rewrite Eb, El, Hn.
  - intros (l & Hk & Hs & ->). assert (Ht : short (str typ)) by (by apply known_short, (key_strings_type _ l)).
    unfold wire_all. cbn [fmap list_fmap concat]. rewrite next_wire by done. fold (wire_all l). rewrite bool_decide_eq_true_2 by done. cbn [andb].
    by rewrite read1_wire.
Qed.
Definition example_blob : bytes := wire (str "ssh-ed25519") ++ wire (repeat 7 32).
Lemma host_key_is_one_key_witness : sshKeyBlobOK "ssh-ed25519" example_blob = true /\
  sshKeyBlobOK "ssh-ed25519" (example_blob ++ [0]) = false /\ sshKeyBlobOK "ssh-rsa" example_blob = false.
Proof.
  split; [|by vm_compute]. apply (host_key_is_one_key "ssh-ed25519" example_blob); [apply (bool_decide_unpack _); by vm_compute|].
  exists [repeat 7 32]. split_and!; [by split|by repeat constructor|by vm_compute].
Defined.
Definition P256_base : bytes := 4 :: hex_decode (str "6b17d1f2e12c4247f8bce6e563a440f277037d812deb33a0f4a13945d898c2964fe342e2fe1a7f9b8ee7eb4a7c0f9e162bce33576b315ececbb6406837bf51f5").
Example points : NewPublicKey P256 P256_base = true /\ NewPublicKey P256 (take 64 P256_base ++ [0xf6]) = false /\ NewPublicKey P256 [0] = false.
Proof. split_and!; vm_compute; reflexivity. Qed.

(** ** The algorithms of the pinned keys *)
Lemma parsed_type line k : ParseSSHHostKey line = inr k -> hk_Type k ∈ sshHostKeyTypes.
Proof.
  unfold ParseSSHHostKey. generalize (match Fields line with h :: ((t :: _ :: _) as r) => if negb (is_key_type h) && is_key_type t then r else Fields line | _ => Fields line end).
  intros f. unfold parse_fields. destruct f as [|t [|d f]]; [done..|]. rewrite seq_inr, refuse_ok, negb_false_iff. intros [Ht%bool_decide_eq_true H].
  destruct (DecodeString _ _) as [blob|]; [|done]. apply seq_inr in H as [_ [= <-]]. done.
Qed.
Lemma host_keys_types e keys : SSHHostKeys e = inr keys -> Forall (fun k => hk_Type k ∈ sshHostKeyTypes) keys.
Proof.
  unfold SSHHostKeys. destruct (ParamLines _ _) as [lines|]; [|done]. assert (H : Forall (fun k => hk_Type k ∈ sshHostKeyTypes) []) by constructor. revert H.
  generalize (@nil SSHHostKey). induction lines as [|l lines IH]; intros ks Hks; cbn [each]; [by intros [= <-]|].
  intros (ks' & H1 & H2)%bind_inr. eapply IH; [|exact H2]. unfold add_host_key in H1. destruct (comment_line _); [by injection H1 as <-|].
  apply bind_inr in H1 as (k & Hk & [= <-]). apply Forall_app. split; [done|]. constructor; [by eapply parsed_type|done].
Qed.
(** Pinning is complete both ways. Every pinned key is of a type some offered algorithm verifies,
    and no algorithm is offered that a pinned key does not verify, so the server cannot answer with a
    key nobody pinned; the offer follows the fixed order of preference. *)
Theorem pinned_algorithms e keys : SSHHostKeys e = inr keys ->
  (forall k, k ∈ keys -> exists a, a ∈ SSHHostKeyAlgorithms keys /\ (hk_Type k, a) ∈ algorithm_order) /\
  (forall a, a ∈ SSHHostKeyAlgorithms keys -> exists k, k ∈ keys /\ (hk_Type k, a) ∈ algorithm_order) /\
  sublist (SSHHostKeyAlgorithms keys) (snd <$> algorithm_order) /\
  (SSHHostKeyAlgorithms keys = [] <-> keys = []).
Proof.
  intros H. apply host_keys_types in H. rewrite Forall_forall in H.
  assert (H1 : forall k, k ∈ keys -> exists a, a ∈ SSHHostKeyAlgorithms keys /\ (hk_Type k, a) ∈ algorithm_order).
  { intros k Hk. assert (exists a, (hk_Type k, a) ∈ algorithm_order) as [a Ha].
    { specialize (H k Hk). revert H. generalize (hk_Type k). apply Forall_forall.
      repeat constructor; eexists; repeat first [apply list_elem_of_here|apply list_elem_of_further]. }
    exists a. split; [|done]. unfold SSHHostKeyAlgorithms. apply list_elem_of_fmap. exists (hk_Type k, a). split; [done|].
    apply list_elem_of_filter. split; [|done]. apply list_elem_of_fmap. by exists k. }
  split_and!; [done| |apply fmap_sublist, sublist_filter|].
  - intros a ([t a'] & -> & [Ht Hin]%list_elem_of_filter)%list_elem_of_fmap. cbn in *. apply list_elem_of_fmap in Ht as (k & -> & Hk). by exists k.
  - split; [|by intros ->]. intros E. destruct keys as [|k keys]; [done|]. destruct (H1 k) as (a & Ha & _); [apply list_elem_of_here|]. rewrite E in Ha. by apply elem_of_nil in Ha.
Qed.
Definition example_ssh : Endpoint :=
  zero_endpoint <| ep_Params := {["host_key" := AStrings ["# comment"; "host ssh-ed25519 " +:+ unstr (EncodeToString StdEncoding example_blob)]]} |>.
Lemma pinned_algorithms_witness : exists keys, SSHHostKeys example_ssh = inr keys /\ SSHHostKeyAlgorithms keys = ["ssh-ed25519"] /\
  forall a, a ∈ SSHHostKeyAlgorithms keys -> exists k, k ∈ keys /\ (hk_Type k, a) ∈ algorithm_order.
Proof. eexists. split; [by vm_compute|]. split; [by vm_compute|]. eapply (pinned_algorithms example_ssh). by vm_compute. Defined.
Example private_keys : SSHPrivateKey (zero_endpoint <| ep_Params := {["private_key" := AStrings ["a"; "b"]]} |>) = unstr [97; 10; 98].
Proof. vm_compute. reflexivity. Qed.
