(* ===== verification/ValidateSpec.v ===== *)
(** * Cyclic groups

    The depth-first search of [Validate] ([Validate.dfs], [Validate.dfs_all]), over any graph of group
    ids: it comes to an end with one level of fuel per id, and it reports a cycle exactly when there is
    one.

    Further on: what a valid profile is. *)
From stdpp Require Import relations fin_maps.
From S2P Require Import Prelude GoStrings GoText Model Faults Dns Validate.
Local Open Scope nat_scope.

Section search.
Context (adj : string -> list string) (nodes : list string).
(** Members that are followed are groups themselves. *)
Hypothesis adj_nodes : forall a b, b ∈ adj a -> b ∈ nodes.

Definition edge (a b : string) : Prop := b ∈ adj a.

(** The finished part of the graph: closed, and without cycles. *)
Definition finished (c : gmap string colour) : Prop :=
  forall a, c !! a = Some colDone ->
    (forall b, edge a b -> c !! b = Some colDone) /\ ~ tc edge a a.
(** The ids on the stack all lead to [id]. *)
Definition leads (c : gmap string colour) (id : string) : Prop :=
  forall a, c !! a = Some colVisiting -> tc edge a id.
(** What a search may do to the colours: finish fresh ids. *)
Definition advances (c c' : gmap string colour) : Prop :=
  (forall a, c' !! a = Some colVisiting <-> c !! a = Some colVisiting) /\
  (forall a, c !! a = Some colDone -> c' !! a = Some colDone).
Definition has_cycle : Prop := exists a, tc edge a a.
(** How many ids are not coloured yet. *)
Definition fresh (c : gmap string colour) : nat := length (filter (fun a => c !! a = None) nodes).

#[local] Instance advances_refl : Reflexive advances.
Proof. intros c. split; [done|tauto]. Qed.
#[local] Instance advances_trans : Transitive advances.
Proof. intros a b c [H1 H2] [H3 H4]. split; [intros x; by rewrite H3|auto]. Qed.

Lemma finished_reach c a b : finished c -> c !! a = Some colDone -> tc edge a b -> c !! b = Some colDone.
Proof.
  intros Hf Ha H. revert Ha. induction H as [a b H|a b d H _ IH]; intros Ha; [by apply (proj1 (Hf a Ha))|].
  apply IH. by apply (proj1 (Hf a Ha)).
Qed.
Lemma advances_fresh c c' : advances c c' -> fresh c' <= fresh c.
Proof.
  intros [Hv Hd]. unfold fresh. clear adj_nodes. induction nodes as [|n l IH]; [done|].
  rewrite !filter_cons. destruct (decide (c' !! n = None)) as [E'|E'], (decide (c !! n = None)) as [E|E]; cbn [length]; try lia.
  destruct (c !! n) as [[]|] eqn:Ec; [apply Hv in Ec; congruence|apply Hd in Ec; congruence|done].
Qed.
Lemma fresh_visit c a : a ∈ nodes -> c !! a = None -> fresh (<[a := colVisiting]> c) < fresh c.
Proof.
  clear adj_nodes. unfold fresh. intros Ha Hc. induction nodes as [|n l IH]; [by apply elem_of_nil in Ha|].
  assert (Hle : forall l, length (filter (fun b => <[a := colVisiting]> c !! b = None) l) <= length (filter (fun b => c !! b = None) l)).
  { clear. intros l. induction l as [|n l IH]; [done|]. rewrite !filter_cons.
    destruct (decide (n = a)) as [->|Hn]; [rewrite lookup_insert_eq, decide_False by done; case_decide; cbn [length]; lia|].
    rewrite lookup_insert_ne by done. case_decide; cbn [length]; lia. }
  rewrite !filter_cons. destruct (decide (n = a)) as [->|Hn].
  - rewrite lookup_insert_eq, decide_False, decide_True by done. cbn [length]. specialize (Hle l). lia.
  - rewrite lookup_insert_ne by done. apply elem_of_cons in Ha as [->|Ha]; [done|]. specialize (IH Ha).
    case_decide; cbn [length]; lia.
Qed.

(** What a call promises: it ends; a report is a true cycle; otherwise the id is finished, and nothing
    on the stack was touched. *)
Definition outcome (c : gmap string colour) (id : string) (r : option (string * string + gmap string colour)) : Prop :=
  match r with
  | None => False
  | Some (inl _) => has_cycle
  | Some (inr c') => finished c' /\ advances c c' /\ c' !! id = Some colDone
  end.
Lemma dfs_members_ok visit id c ms : finished c -> c !! id = Some colVisiting -> leads (delete id c) id ->
  (forall m, m ∈ ms -> edge id m) ->
  (forall c1 m, finished c1 -> advances c c1 -> c1 !! m = None -> edge id m -> leads c1 m -> outcome c1 m (visit c1 m)) ->
  match dfs_members visit id c ms with
  | None => False
  | Some (inl _) => has_cycle
  | Some (inr c') => finished c' /\ advances c c' /\ forall m, m ∈ ms -> c' !! m = Some colDone
  end.
Proof.
  intros Hf Hid Hl. revert c Hf Hid Hl. induction ms as [|m ms IH]; intros c Hf Hid Hl Hms Hv; cbn [dfs_members].
  - split; [done|]. split; [done|]. intros m Hm. by apply elem_of_nil in Hm.
  - assert (Hm : edge id m) by (apply Hms; left).
    assert (Hlead : forall a, c !! a = Some colVisiting -> tc edge a m).
    { intros a Ha. destruct (decide (a = id)) as [->|Hn]; [by apply tc_once|].
      eapply tc_r; [apply Hl; by rewrite lookup_delete_ne|done]. }
    destruct (c !! m) as [[]|] eqn:Em.
    + exists m. by apply Hlead.
    + specialize (IH c Hf Hid Hl (fun x Hx => Hms x (list_elem_of_further _ _ _ Hx)) Hv).
      destruct (dfs_members visit id c ms) as [[|c']|]; [done| |done]. destruct IH as (Hf' & Ha & Hd).
      split; [done|]. split; [done|]. intros x [->|Hx]%elem_of_cons; [by apply Ha|by apply Hd].
    + specialize (Hv c m Hf (reflexivity c) Em Hm Hlead) as Hout.
      destruct (visit c m) as [[|c1]|]; [done| |done]. destruct Hout as (Hf1 & Ha1 & Hd1).
      assert (H1 : match dfs_members visit id c1 ms with
                   | None => False
                   | Some (inl _) => has_cycle
                   | Some (inr c') => finished c' /\ advances c1 c' /\ forall m, m ∈ ms -> c' !! m = Some colDone
                   end).
      { apply IH; [done|by apply Ha1| |by intros x Hx; apply Hms; right|].
        - intros a Ha. apply Hl. destruct (decide (a = id)) as [->|Hn]; [by rewrite lookup_delete_eq in Ha|].
          rewrite lookup_delete_ne in * by done. by apply Ha1.
        - intros c2 x Hf2 Ha2. apply Hv; [done|by transitivity c1]. }
      destruct (dfs_members visit id c1 ms) as [[|c']|]; [done| |done]. destruct H1 as (Hf' & Ha & Hd).
      split; [done|]. split; [by transitivity c1|]. intros x [->|Hx]%elem_of_cons; [by apply Ha|by apply Hd].
Qed.

Lemma dfs_ok fuel c id : id ∈ nodes -> fresh c <= fuel -> 0 < fuel -> finished c -> c !! id = None -> leads c id ->
  outcome c id (dfs adj fuel c id).
Proof.
  revert c id. induction fuel as [|fuel IH]; intros c id Hn Hfuel Hpos Hf Hc Hl; [lia|]. cbn [dfs].
  pose proof (fresh_visit c id Hn Hc) as Hfr. set (c0 := <[id := colVisiting]> c) in *.
  assert (Hc0 : forall a, c0 !! a = Some colDone <-> c !! a = Some colDone).
  { intros a. subst c0. destruct (decide (a = id)) as [->|Ha]; [rewrite lookup_insert_eq; naive_solver|by rewrite lookup_insert_ne]. }
  assert (Hf0 : finished c0).
  { intros a Ha. apply Hc0 in Ha. destruct (Hf a Ha) as [H1 H2]. split; [|done]. intros b Hb. apply Hc0. by apply H1. }
  pose proof (dfs_members_ok (dfs adj fuel) id c0 (adj id) Hf0) as H.
  assert (Hout : match dfs_members (dfs adj fuel) id c0 (adj id) with
                 | None => False
                 | Some (inl _) => has_cycle
                 | Some (inr c') => finished c' /\ advances c0 c' /\ forall m, m ∈ adj id -> c' !! m = Some colDone
                 end).
  { apply H; [by subst c0; rewrite lookup_insert_eq| |done|].
    - intros a Ha. apply Hl. subst c0. destruct (decide (a = id)) as [->|Hne]; [by rewrite lookup_delete_eq in Ha|].
      by rewrite lookup_delete_ne, lookup_insert_ne in Ha.
    - intros c1 m Hf1 Ha1 Hm1 Hm Hl1. pose proof (advances_fresh _ _ Ha1). assert (m ∈ nodes) by by eapply adj_nodes.
      pose proof (fresh_visit c1 m H1 Hm1). apply IH; [done|lia|lia|done|done|done]. }
  clear H. destruct (dfs_members (dfs adj fuel) id c0 (adj id)) as [[|c']|]; [done| |done].
  destruct Hout as (Hf' & [Hv' Hd'] & Hm). cbn [outcome].
  assert (Hvis : c' !! id = Some colVisiting) by (apply Hv'; subst c0; by rewrite lookup_insert_eq).
  split; [|split; [split|by rewrite lookup_insert_eq]].
  - intros a Ha. destruct (decide (a = id)) as [->|Hne].
    + split.
      * intros b Hb. destruct (decide (b = id)) as [->|Hb']; [by rewrite lookup_insert_eq|]. rewrite lookup_insert_ne by done. by apply Hm.
      * intros Hcyc. assert (Hin : exists b, edge id b /\ (b = id \/ tc edge b id)).
        { inversion Hcyc; subst; [by exists id; split; [|left]|]. eexists. split; [done|by right]. }
        destruct Hin as (b & Hb & [->|Hb']).
        { pose proof (Hm id Hb). congruence. }
        pose proof (finished_reach c' b id Hf' (Hm b Hb) Hb'). congruence.
    + rewrite lookup_insert_ne in Ha by done. destruct (Hf' a Ha) as [H1 H2]. split; [|done]. intros b Hb.
      destruct (decide (b = id)) as [->|Hb']; [by rewrite lookup_insert_eq|]. rewrite lookup_insert_ne by done. by apply H1.
  - intros a. destruct (decide (a = id)) as [->|Hne]; [rewrite lookup_insert_eq; naive_solver|].
    rewrite lookup_insert_ne by done. rewrite Hv'. subst c0. by rewrite lookup_insert_ne.
  - intros a Ha. destruct (decide (a = id)) as [->|Hne]; [by rewrite lookup_insert_eq|]. rewrite lookup_insert_ne by done.
    apply Hd'. by apply Hc0.
Qed.

(** Between two roots nothing is on the stack. *)
Lemma dfs_all_ok fuel c roots : length nodes <= fuel -> 0 < fuel -> finished c -> (forall a, c !! a <> Some colVisiting) ->
  (forall a, a ∈ roots -> a ∈ nodes) ->
  match dfs_all adj fuel c roots with
  | None => False
  | Some (inl _) => has_cycle
  | Some (inr c') => finished c' /\ (forall a, c !! a = Some colDone -> c' !! a = Some colDone) /\
                     forall a, a ∈ roots -> c' !! a = Some colDone
  end.
Proof.
  intros Hfuel Hpos. revert c. induction roots as [|r roots IH]; intros c Hf Hv Hr; cbn [dfs_all].
  - split; [done|]. split; [done|]. intros a Ha. by apply elem_of_nil in Ha.
  - assert (Hr' : forall a, a ∈ roots -> a ∈ nodes) by (intros a Ha; apply Hr; by right).
    destruct (c !! r) as [k|] eqn:E.
    + specialize (IH c Hf Hv Hr'). destruct (dfs_all adj fuel c roots) as [[|c']|]; [done| |done].
      destruct IH as (Hf' & Hd & Ha). split; [done|]. split; [done|]. intros a [->|Hin]%elem_of_cons; [|by apply Ha].
      apply Hd. destruct k; [by destruct (Hv r)|done].
    + pose proof (dfs_ok fuel c r (Hr r (list_elem_of_here _ _))) as Hout.
      assert (Hfr : fresh c <= fuel) by (unfold fresh; pose proof (length_filter (fun a => c !! a = None) nodes); lia).
      specialize (Hout Hfr Hpos Hf E (fun a Ha => False_ind _ (Hv a Ha))).
      destruct (dfs adj fuel c r) as [[|c1]|]; [done| |done]. destruct Hout as (Hf1 & [Hv1 Hd1] & Hr1).
      assert (Hv1' : forall a, c1 !! a <> Some colVisiting) by (intros a Ha; apply Hv1 in Ha; by apply (Hv a)).
      specialize (IH c1 Hf1 Hv1' Hr'). destruct (dfs_all adj fuel c1 roots) as [[|c']|]; [done| |done].
      destruct IH as (Hf' & Hd & Ha). split; [done|]. split; [auto|]. intros a [->|Hin]%elem_of_cons; [by apply Hd|by apply Ha].
Qed.

(** The search over all the ids reports exactly the graphs with a cycle. *)
Lemma dfs_all_cycle fuel : length nodes < fuel -> (forall a b, edge a b -> a ∈ nodes) ->
  match dfs_all adj fuel ∅ nodes with
  | None => False
  | Some (inl _) => has_cycle
  | Some (inr _) => ~ has_cycle
  end.
Proof.
  intros Hfuel Hfrom. pose proof (dfs_all_ok fuel ∅ nodes) as H.
  assert (H' := H ltac:(lia) ltac:(lia) (fun a Ha => ltac:(by rewrite lookup_empty in Ha))
    (fun a Ha => ltac:(by rewrite lookup_empty in Ha)) (fun a Ha => Ha)). clear H.
  destruct (dfs_all adj fuel ∅ nodes) as [[|c']|]; [done| |done]. destruct H' as (Hf & _ & Hd).
  intros [a Ha]. destruct (Hf a); [|done]. apply Hd. inversion Ha; subst; by eapply Hfrom.
Qed.
End search.

(** * What a valid profile is

    [Validate] builds a namespace as it goes and stops at the first error; [appliable] says what it
    accepts, without either: ids of their own, objects that are fine by themselves, references that lead
    to something switched on, groups without cycles, and a valid DNS plane. *)
Local Close Scope nat_scope.
Local Open Scope Z_scope.

(** The ids of a state that takes the keys of a list. *)
Section taken.
Context {S A : Type} (idm : S -> gmap string string) (key : A -> string) (kind : string) (add : S -> A -> S).
Hypothesis adds : forall s x, idm (add s x) = <[key x := kind]> (idm s).
Lemma ids_foldl s l k : idm (foldl add s l) !! k = if bool_decide (k ∈ key <$> l) then Some kind else idm s !! k.
Proof.
  revert s. induction l as [|x l IH]; intros s.
  - rewrite bool_decide_false; [done|]. apply not_elem_of_nil.
  - cbn [foldl]. rewrite IH, fmap_cons, adds. case_bool_decide as H.
    + rewrite bool_decide_true; [done|]. by right.
    + destruct (decide (key x = k)) as [<-|Hn].
      * rewrite lookup_insert_eq, bool_decide_true; [done|left].
      * rewrite lookup_insert_ne by done. rewrite bool_decide_false; [done|]. rewrite not_elem_of_cons. naive_solver.
Qed.
End taken.

(** A loop whose step checks an element, claims its key and adds it to the state. *)
Section claims.
Context {S A : Type} (f : S -> A -> fault + S) (idm : S -> gmap string string) (Inv : S -> Prop)
  (key : A -> string) (kind : string) (fine : A -> Prop) (add : S -> A -> S).
Hypothesis step : forall s x s', Inv s -> f s x = inr s' <-> fine x /\ idm s !! key x = None /\ s' = add s x.
Hypothesis inv : forall s x, Inv s -> Inv (add s x).
Hypothesis adds : forall s x, idm (add s x) = <[key x := kind]> (idm s).
Lemma inv_foldl s l : Inv s -> Inv (foldl add s l).
Proof. revert s. induction l as [|x l IH]; intros s Hs; [done|]. cbn. by apply IH, inv. Qed.
Lemma each_claim s l s' : Inv s ->
  each f s l = inr s' <-> Forall fine l /\ NoDup (key <$> l) /\ (forall x, x ∈ key <$> l -> idm s !! x = None) /\ s' = foldl add s l.
Proof.
  revert s. induction l as [|x l IH]; intros s Hs.
  - cbn. split; [intros [= <-]|by intros (_ & _ & _ & ->)]. split_and!; [constructor|constructor|intros x Hx; by apply elem_of_nil in Hx|done].
  - rewrite each_step, Forall_cons, fmap_cons, NoDup_cons. cbn [foldl]. split.
    + intros (s1 & Hx & Hl). apply step in Hx as (Hf & Hk & ->); [|done]. apply IH in Hl as (Hfl & Hnd & Hfr & ->); [|by apply inv].
      split_and!; try done.
      * intros Hin. specialize (Hfr _ Hin). by rewrite adds, lookup_insert_eq in Hfr.
      * intros k [->|Hk']%elem_of_cons; [done|]. specialize (Hfr _ Hk'). rewrite adds in Hfr. by apply lookup_insert_None in Hfr as [? _].
    + intros ([Hf Hfl] & [Hni Hnd] & Hfr & ->). exists (add s x). split.
      * apply step; [done|]. split; [done|]. split; [|done]. apply Hfr. left.
      * apply IH; [by apply inv|]. split_and!; try done. intros k Hk. rewrite adds. apply lookup_insert_None.
        split; [apply Hfr; by right|]. intros E. by rewrite E in Hni.
Qed.
End claims.

Section spec.
Context (unicode_lower unicode_upper : bytes -> bytes) (proto_problem : Endpoint -> option string).
Abbreviation isBuiltin := (isBuiltin unicode_lower).

(** ** References *)
Definition live (p : Profile) (id : string) : Prop :=
  (exists e, e ∈ Endpoints p /\ ep_ID e = id /\ ep_Enabled e = true) \/ id ∈ gr_ID <$> Groups p.
Definition goes (p : Profile) (id : string) : Prop := routes unicode_lower (live p) id.
Definition is_list (p : Profile) (id : string) : Prop := id ∈ rl_ID <$> RoutingLists p.
(** A group's member that is a group. *)
Definition nests (p : Profile) (a b : string) : Prop :=
  exists g, g ∈ Groups p /\ gr_ID g = a /\ b ∈ gr_Members g /\ b ∈ gr_ID <$> Groups p.

(** ** Objects *)
Definition endpoint_fine (e : Endpoint) : Prop :=
  ep_ID e <> "" /\ bad_id (ep_ID e) = false /\ isBuiltin (ep_ID e) = false /\ endpoint_checks proto_problem e = inr tt.
Definition member_fine (p : Profile) (g : Group) (m : string) : Prop :=
  m = OutboundDirect \/ (m <> OutboundBlock /\ m <> gr_ID g /\ live p m).
Definition group_fine (p : Profile) (g : Group) : Prop :=
  gr_ID g <> "" /\ isBuiltin (gr_ID g) = false /\ gr_Members g <> [] /\ Forall (member_fine p g) (gr_Members g).
Definition rule_fine (p : Profile) (r : Rule) : Prop :=
  r_ID r <> "" /\
  (Disabled r = false ->
   (r_Default r = false -> check_matchers r = inr tt) /\ NDMPolicyName (r_Outbound r) = None /\ goes p (r_Outbound r)).
Definition target_fine (p : Profile) (o : string) : Prop :=
  match NDMPolicyName o with Some name => ValidNDMPolicyName name = true | None => goes p o end.
Definition list_fine (p : Profile) (rl : RoutingList) : Prop :=
  rl_ID rl <> "" /\ list_content unicode_upper rl = inr tt /\ target_fine p (rl_Outbound rl) /\
  list_scope (dg_ID <$> DeviceGroups p) rl = inr tt /\
  (DownloadVia rl = "" \/ (NDMPolicyName (DownloadVia rl) = None /\ goes p (DownloadVia rl))).
Definition catch_all (r : Rule) : bool := negb (Disabled r) && r_Default r.
Definition all_ids (p : Profile) : list string :=
  (ep_ID <$> Endpoints p) ++ (gr_ID <$> Groups p) ++ (r_ID <$> Rules p) ++ (dg_ID <$> DeviceGroups p) ++ (rl_ID <$> RoutingLists p).

Record appliable (p : Profile) : Prop := {
  ap_ids : NoDup (all_ids p);
  ap_reserved : forall id, id ∈ all_ids p -> id <> OutboundDirect /\ id <> OutboundBlock;
  ap_endpoints : Forall endpoint_fine (Endpoints p);
  ap_groups : Forall (group_fine p) (Groups p);
  ap_acyclic : forall id, ~ tc (nests p) id id;
  ap_rules : Forall (rule_fine p) (Rules p);
  ap_defaults : (length (filter (fun r => catch_all r = true) (Rules p)) <= 1)%nat;
  ap_devices : Forall (fun g => ValidateDeviceGroup g = None) (DeviceGroups p);
  ap_lists : Forall (list_fine p) (RoutingLists p);
  ap_dns : forall d, DNS p = Some d -> dns_fine unicode_lower (live p) (is_list p) (Endpoints p) d
}.

(** ** The loops *)
Lemma claim_ok kind id s u : claim kind id s = inr u <-> ids s !! id = None.
Proof. unfold claim. by rewrite refuse_ok, is_None_dec. Qed.
Definition add_endpoint (s : ns) (e : Endpoint) : ns := usable (ep_ID e) (ep_Enabled e) (named "endpoint" (ep_ID e) s).
Definition add_group (s : ns) (g : Group) : ns := usable (gr_ID g) true (named "group" (gr_ID g) s).
Definition add_rule_id (st : ns * Z) (r : Rule) : ns * Z :=
  (named "rule" (r_ID r) st.1, if catch_all r then st.2 + 1 else st.2).
Definition add_devices (s : ns) (g : DeviceGroup) : ns := named "device group" (dg_ID g) s.
Definition add_list_id (s : ns) (rl : RoutingList) : ns := named "routing list" (rl_ID rl) s.

Lemma check_endpoint_ok s e s' : check_endpoint unicode_lower proto_problem s e = inr s' <->
  endpoint_fine e /\ ids s !! ep_ID e = None /\ s' = add_endpoint s e.
Proof.
  unfold check_endpoint, endpoint_fine. rewrite !seq_inr, !refuse_ok, bool_decide_eq_false, claim_ok. unfold add_endpoint. naive_solver.
Qed.
Definition group_named (g : Group) : Prop := gr_ID g <> "" /\ isBuiltin (gr_ID g) = false /\ gr_Members g <> [].
Lemma check_group_ok s g s' : check_group unicode_lower s g = inr s' <->
  group_named g /\ ids s !! gr_ID g = None /\ s' = add_group s g.
Proof.
  unfold check_group, group_named. rewrite !seq_inr, !refuse_ok, bool_decide_eq_false, claim_ok. unfold add_group.
  rewrite Nat.eqb_neq. destruct (gr_Members g); cbn [length]; naive_solver.
Qed.

(** Once the endpoints and groups are in, what may be pointed at is settled. *)
Record settled (p : Profile) (s : ns) : Prop := {
  st_live : forall id, enabled s !! id = Some true <-> live p id;
  st_known : forall id, is_Some (enabled s !! id) -> is_Some (ids s !! id)
}.
Lemma settled_named p s kind id : settled p s -> settled p (named kind id s).
Proof.
  intros [H1 H2]. split; [done|]. intros x Hx. cbn. destruct (decide (id = x)) as [->|Hn]; [by rewrite lookup_insert_eq|].
  rewrite lookup_insert_ne by done. by apply H2.
Qed.
Lemma settled_known p s id : settled p s -> enabled s !! id = Some true -> is_Some (ids s !! id).
Proof. intros [_ H] E. apply H. by rewrite E. Qed.
Lemma check_target_ok p s kind id t u : settled p s -> check_target unicode_lower kind id t s = inr u <-> goes p t.
Proof.
  intros Hs. destruct u. unfold check_target, goes. rewrite seq_inr, !refuse_ok, negb_false_iff.
  unfold isResolvable, routes. rewrite andb_false_iff, negb_false_iff, off_false, orb_true_iff, bool_decide_eq_true, (st_live p s Hs).
  pose proof (settled_known p s t Hs) as K. rewrite (st_live p s Hs) in K. naive_solver.
Qed.
Lemma is_policy_ok o : is_policy o = false <-> NDMPolicyName o = None.
Proof. unfold is_policy. apply is_None_dec. Qed.
Lemma check_rule_ok p st r st' : settled p st.1 -> check_rule unicode_lower st r = inr st' <->
  rule_fine p r /\ ids st.1 !! r_ID r = None /\ st' = add_rule_id st r.
Proof.
  intros Hs. destruct st as [s n]. unfold check_rule, rule_fine, add_rule_id, catch_all. cbn [fst snd] in *.
  rewrite !seq_inr, refuse_ok, bool_decide_eq_false, claim_ok. destruct (Disabled r); cbn [negb andb]; [naive_solver|].
  rewrite !seq_inr, refuse_ok, is_policy_ok, (check_target_ok p) by by apply settled_named.
  destruct (r_Default r); naive_solver.
Qed.
Lemma check_devices_ok s g s' : check_devices s g = inr s' <->
  ValidateDeviceGroup g = None /\ ids s !! dg_ID g = None /\ s' = add_devices s g.
Proof.
  unfold check_devices, add_devices. rewrite !seq_inr, claim_ok. destruct (ValidateDeviceGroup g); naive_solver.
Qed.
Lemma check_list_ok p devs s rl s' : settled p s -> devs = dg_ID <$> DeviceGroups p ->
  check_list unicode_lower unicode_upper devs s rl = inr s' <->
  list_fine p rl /\ ids s !! rl_ID rl = None /\ s' = add_list_id s rl.
Proof.
  intros Hs ->. unfold check_list, list_fine, target_fine, add_list_id. rewrite !seq_inr, refuse_ok, bool_decide_eq_false, claim_ok.
  pose proof (settled_named p s "routing list" (rl_ID rl) Hs) as Hs'.
  assert (Ht : list_target unicode_lower (named "routing list" (rl_ID rl) s) rl = inr tt <-> target_fine p (rl_Outbound rl)).
  { unfold list_target, target_fine. destruct (NDMPolicyName (rl_Outbound rl)); [by rewrite refuse_ok, negb_false_iff|by apply check_target_ok]. }
  assert (Hd : list_download unicode_lower (named "routing list" (rl_ID rl) s) rl = inr tt <->
               (DownloadVia rl = "" \/ (NDMPolicyName (DownloadVia rl) = None /\ goes p (DownloadVia rl)))).
  { unfold list_download. case_bool_decide as E; [naive_solver|]. rewrite seq_inr, refuse_ok, is_policy_ok, (check_target_ok p) by done. naive_solver. }
  rewrite Ht, Hd. unfold target_fine. clear. naive_solver.
Qed.

(** ** The namespace after the loops *)
Lemma enabled_endpoints s l id : enabled (foldl add_endpoint s l) !! id =
  match find_by ep_ID id (reverse l) with Some e => Some (ep_Enabled e) | None => enabled s !! id end.
Proof.
  induction l as [|e l IH] using rev_ind; [done|]. rewrite foldl_snoc, reverse_snoc. cbn [find_by]. unfold add_endpoint at 1. cbn [usable enabled named].
  case_bool_decide as H; [by rewrite H, lookup_insert_eq|]. by rewrite lookup_insert_ne.
Qed.
Lemma enabled_groups s l id : enabled (foldl add_group s l) !! id =
  if bool_decide (id ∈ gr_ID <$> l) then Some true else enabled s !! id.
Proof.
  revert s. induction l as [|g l IH]; intros s; [rewrite bool_decide_false; [done|apply not_elem_of_nil]|].
  cbn [foldl]. rewrite IH, fmap_cons. case_bool_decide as H; [rewrite bool_decide_true; [done|by right]|].
  unfold add_group. cbn [usable enabled named]. destruct (decide (gr_ID g = id)) as [<-|Hn].
  - rewrite lookup_insert_eq, bool_decide_true; [done|left].
  - rewrite lookup_insert_ne, bool_decide_false; [done|rewrite not_elem_of_cons; naive_solver|done].
Qed.
Lemma ids_endpoints s l id : ids (foldl add_endpoint s l) !! id = if bool_decide (id ∈ ep_ID <$> l) then Some "endpoint" else ids s !! id.
Proof. by apply (ids_foldl ids ep_ID "endpoint" add_endpoint). Qed.
Lemma ids_groups s l id : ids (foldl add_group s l) !! id = if bool_decide (id ∈ gr_ID <$> l) then Some "group" else ids s !! id.
Proof. by apply (ids_foldl ids gr_ID "group" add_group). Qed.
Lemma ids_rules st l id : ids (foldl add_rule_id st l).1 !! id = if bool_decide (id ∈ r_ID <$> l) then Some "rule" else ids st.1 !! id.
Proof. by apply (ids_foldl (fun st => ids st.1) r_ID "rule" add_rule_id). Qed.
Lemma ids_devices s l id : ids (foldl add_devices s l) !! id = if bool_decide (id ∈ dg_ID <$> l) then Some "device group" else ids s !! id.
Proof. by apply (ids_foldl ids dg_ID "device group" add_devices). Qed.
Lemma ids_lists s l id : ids (foldl add_list_id s l) !! id = if bool_decide (id ∈ rl_ID <$> l) then Some "routing list" else ids s !! id.
Proof. by apply (ids_foldl ids rl_ID "routing list" add_list_id). Qed.
Lemma rules_count st l : (foldl add_rule_id st l).2 = st.2 + Z.of_nat (length (filter (fun r => catch_all r = true) l)).
Proof.
  revert st. induction l as [|r l IH]; intros st; [cbn; lia|]. cbn [foldl]. rewrite IH, filter_cons. unfold add_rule_id. cbn [snd].
  destruct (catch_all r); [rewrite decide_True by done|rewrite decide_False by done]; cbn [length]; lia.
Qed.

Definition with_endpoints (p : Profile) : ns := foldl add_endpoint first_ns (Endpoints p).
Definition with_groups (p : Profile) : ns := foldl add_group (with_endpoints p) (Groups p).
Lemma settled_groups p : NoDup (ep_ID <$> Endpoints p) -> (forall id, id ∈ gr_ID <$> Groups p -> id ∉ ep_ID <$> Endpoints p) ->
  settled p (with_groups p).
Proof.
  intros Hnd Hdis. unfold with_groups, with_endpoints. split; intros id.
  - rewrite enabled_groups, enabled_endpoints. unfold live. case_bool_decide as Hg.
    + split; [by right|done].
    + destruct (find_by ep_ID id (reverse (Endpoints p))) as [e|] eqn:E.
      * apply find_by_Some in E as [Hin Hid]. rewrite elem_of_reverse in Hin. split.
        -- intros [= He]. left. by exists e.
        -- intros [(e' & Hin' & Hid' & He')|]; [|done]. f_equal. rewrite <- Hid' in Hid.
           apply list_elem_of_lookup in Hin as [i Hi], Hin' as [j Hj].
           assert (i = j) as ->; [|congruence]. apply (NoDup_lookup _ i j (ep_ID e)) in Hnd; [done| |]; rewrite list_lookup_fmap.
           ++ by rewrite Hi.
           ++ rewrite Hj. cbn. congruence.
      * apply find_by_None in E. unfold first_ns. cbn [enabled]. rewrite lookup_empty. split; [done|].
        intros [(e & Hin & Hid & _)|]; [|done]. exfalso. apply E. rewrite <- Hid. apply list_elem_of_fmap_2. by rewrite elem_of_reverse.
  - rewrite enabled_groups, enabled_endpoints, ids_groups, ids_endpoints. case_bool_decide as Hg; [done|].
    case_bool_decide as He; [done|]. destruct (find_by ep_ID id (reverse (Endpoints p))) as [e|] eqn:E.
    + apply find_by_Some in E as [Hin Hid]. rewrite elem_of_reverse in Hin. exfalso. apply He. rewrite <- Hid. by apply list_elem_of_fmap_2.
    + unfold first_ns. cbn [enabled]. rewrite lookup_empty. intros [? [=]].
Qed.

(** ** The groups *)
Lemma elem_of_concat {A} (x : A) ls : x ∈ concat ls <-> exists l, l ∈ ls /\ x ∈ l.
Proof.
  rewrite list_elem_of_In, in_concat. split; intros (l & H1 & H2); exists l; by rewrite !list_elem_of_In in *.
Qed.
Lemma members_ok p s g : settled p s -> Forall (fun m => check_member s g m = inr tt) (gr_Members g) <-> Forall (member_fine p g) (gr_Members g).
Proof.
  intros Hs. apply Forall_proper; [|done]. intros m. unfold check_member, member_fine. case_bool_decide as Hd; [naive_solver|].
  rewrite !seq_inr, !refuse_ok, bool_decide_eq_false, negb_false_iff, bool_decide_eq_true, bool_decide_eq_false, off_false, (st_live p s Hs).
  pose proof (settled_known p s m Hs) as K. rewrite (st_live p s Hs) in K. naive_solver.
Qed.
Lemma tc_mono {A} (R R' : relation A) a b : (forall x y, R x y -> R' x y) -> tc R a b -> tc R' a b.
Proof. intros H. induction 1; [by apply tc_once, H|eapply tc_l; [by apply H|done]]. Qed.
Lemma groupAdj_nests p s a b : (forall id, ids s !! id = Some "group" <-> id ∈ gr_ID <$> Groups p) ->
  b ∈ groupAdj s (Groups p) a <-> nests p a b.
Proof.
  intros Hk. unfold groupAdj, nests. rewrite list_elem_of_filter, Hk, elem_of_concat.
  setoid_rewrite list_elem_of_fmap. setoid_rewrite list_elem_of_filter. clear. naive_solver.
Qed.
Lemma check_cycles_ok p s : (forall id, ids s !! id = Some "group" <-> id ∈ gr_ID <$> Groups p) ->
  check_cycles s (Groups p) = inr tt <-> forall id, ~ tc (nests p) id id.
Proof.
  intros Hk. unfold check_cycles.
  assert (Hto : forall a b, b ∈ groupAdj s (Groups p) a -> b ∈ map gr_ID (Groups p)).
  { intros a b H. unfold groupAdj in H. apply list_elem_of_filter in H as [H _]. by apply Hk. }
  pose proof (dfs_all_cycle (groupAdj s (Groups p)) (map gr_ID (Groups p)) Hto (S (length (Groups p)))) as H.
  rewrite length_map in H. specialize (H ltac:(lia)).
  assert (Hfrom : forall a b, edge (groupAdj s (Groups p)) a b -> a ∈ map gr_ID (Groups p)).
  { intros a b Hb. unfold edge in Hb. rewrite groupAdj_nests in Hb by done. destruct Hb as (g & Hg & <- & _). by apply list_elem_of_fmap_2. }
  specialize (H Hfrom).
  assert (Hcyc : has_cycle (groupAdj s (Groups p)) <-> exists id, tc (nests p) id id).
  { unfold has_cycle. split; intros [id Hid]; exists id; (eapply tc_mono; [|exact Hid]); intros a b; by apply groupAdj_nests. }
  destruct (dfs_all _ _ _ _) as [[[x y]|c]|]; [| |done].
  - rewrite Hcyc in H. destruct H as [id Hid]. split; [done|]. intros Hn. by destruct (Hn id).
  - rewrite Hcyc in H. split; [|done]. intros _ id Hid. apply H. by exists id.
Qed.

(** ** [Validate] accepts exactly the valid profiles *)
Lemma first_ids x : ids first_ns !! x = None <-> x <> OutboundDirect /\ x <> OutboundBlock.
Proof.
  unfold first_ns. cbn [ids]. rewrite lookup_insert_None, lookup_singleton_None. naive_solver.
Qed.
Lemma if_taken (P : Prop) `{Decision P} {A} (k : A) o : (if bool_decide P then Some k else o) = None <-> ~ P /\ o = None.
Proof. case_bool_decide; naive_solver. Qed.
Definition with_rules (p : Profile) : ns * Z := foldl add_rule_id (with_groups p, 0) (Rules p).
Definition with_devices (p : Profile) : ns := foldl add_devices (with_rules p).1 (DeviceGroups p).
Definition with_lists (p : Profile) : ns := foldl add_list_id (with_devices p) (RoutingLists p).

(** The ids each loop finds free are, all together, ids of their own. *)
Lemma ids_free p :
  (NoDup (ep_ID <$> Endpoints p) /\ (forall x, x ∈ ep_ID <$> Endpoints p -> ids first_ns !! x = None)) /\
  (NoDup (gr_ID <$> Groups p) /\ (forall x, x ∈ gr_ID <$> Groups p -> ids (with_endpoints p) !! x = None)) /\
  (NoDup (r_ID <$> Rules p) /\ (forall x, x ∈ r_ID <$> Rules p -> ids (with_groups p) !! x = None)) /\
  (NoDup (dg_ID <$> DeviceGroups p) /\ (forall x, x ∈ dg_ID <$> DeviceGroups p -> ids (with_rules p).1 !! x = None)) /\
  (NoDup (rl_ID <$> RoutingLists p) /\ (forall x, x ∈ rl_ID <$> RoutingLists p -> ids (with_devices p) !! x = None)) <->
  NoDup (all_ids p) /\ (forall x, x ∈ all_ids p -> x <> OutboundDirect /\ x <> OutboundBlock).
Proof.
  unfold with_devices, with_rules, with_groups, with_endpoints, all_ids.
  setoid_rewrite ids_devices. setoid_rewrite ids_rules. cbn [fst]. setoid_rewrite ids_groups. setoid_rewrite ids_endpoints.
  repeat setoid_rewrite if_taken. repeat setoid_rewrite first_ids. rewrite !NoDup_app. repeat setoid_rewrite elem_of_app.
  set (A := ep_ID <$> _). set (B := gr_ID <$> _). set (C := r_ID <$> _). set (D := dg_ID <$> _). set (E := rl_ID <$> _).
  clearbody A B C D E. split.
  - intros ((HA & FA) & (HB & FB) & (HC & FC) & (HD & FD) & (HE & FE)). split_and!; try done; try naive_solver.
  - intros ((HA & FA & HB & FB & HC & FC & HD & FD & HE) & HR). split_and!; try done.
    + intros x Hx. apply HR. auto.
    + intros x Hx. split; [|apply HR; auto]. intros Hy. apply (FA x Hy). auto.
    + intros x Hx. split; [|split; [|apply HR; auto]]; intros Hy; [apply (FB x Hy)|apply (FA x Hy)]; auto.
    + intros x Hx. split; [|split; [|split; [|apply HR; auto]]]; intros Hy; [apply (FC x Hy)|apply (FB x Hy)|apply (FA x Hy)]; auto.
    + intros x Hx. split; [|split; [|split; [|split; [|apply HR; tauto]]]]; intros Hy;
        [apply (FD x Hy)|apply (FC x Hy)|apply (FB x Hy)|apply (FA x Hy)]; tauto.
Qed.
Lemma enabled_lists p : enabled (with_lists p) = enabled (with_groups p).
Proof.
  unfold with_lists, with_devices, with_rules.
  assert (HL : forall l s, enabled (foldl add_list_id s l) = enabled s) by (induction l as [|x l IH]; intros s; [done|apply (IH (add_list_id s x))]).
  assert (HD : forall l s, enabled (foldl add_devices s l) = enabled s) by (induction l as [|x l IH]; intros s; [done|apply (IH (add_devices s x))]).
  assert (HR : forall l st, enabled (foldl add_rule_id st l).1 = enabled st.1) by (induction l as [|x l IH]; intros st; [done|apply (IH (add_rule_id st x))]).
  by rewrite HL, HD, HR.
Qed.
Lemma settled_rules p st l : settled p st.1 -> settled p (foldl add_rule_id st l).1.
Proof. apply (inv_foldl (fun st => settled p st.1)). intros s x Hs. by apply settled_named. Qed.
Lemma settled_devices p s l : settled p s -> settled p (foldl add_devices s l).
Proof. apply (inv_foldl (settled p)). intros t x Hs. by apply settled_named. Qed.
Lemma settled_lists p s l : settled p s -> settled p (foldl add_list_id s l).
Proof. apply (inv_foldl (settled p)). intros t x Hs. by apply settled_named. Qed.

(** One step of [validate] at a time: what it accepts, and the state it leaves. *)
Lemma stage {S B} (m : fault + S) (k : S -> fault + B) (P Q : Prop) c b :
  (forall s, m = inr s <-> P /\ s = c) -> (P -> k c = inr b <-> Q) -> (m ≫= k) = inr b <-> P /\ Q.
Proof. intros Hm Hk. rewrite bind_inr. setoid_rewrite Hm. naive_solver. Qed.
Lemma unit_stage {B} (m : fault + unit) (k : fault + B) (P Q : Prop) b :
  (m = inr tt <-> P) -> (P -> k = inr b <-> Q) -> (m ≫= fun _ => k) = inr b <-> P /\ Q.
Proof. intros Hm Hk. rewrite seq_inr, Hm. naive_solver. Qed.
Definition free (l : list string) (s : ns) : Prop := NoDup l /\ (forall x, x ∈ l -> ids s !! x = None).
Lemma endpoints_stage p s : each (check_endpoint unicode_lower proto_problem) first_ns (Endpoints p) = inr s <->
  (Forall endpoint_fine (Endpoints p) /\ free (ep_ID <$> Endpoints p) first_ns) /\ s = with_endpoints p.
Proof.
  rewrite (each_claim _ ids (fun _ => True) ep_ID "endpoint" endpoint_fine add_endpoint
    (fun s x s' _ => check_endpoint_ok s x s') (fun _ _ _ => I) (fun _ _ => eq_refl)) by done. unfold free. naive_solver.
Qed.
Lemma groups_stage p s : each (check_group unicode_lower) (with_endpoints p) (Groups p) = inr s <->
  (Forall group_named (Groups p) /\ free (gr_ID <$> Groups p) (with_endpoints p)) /\ s = with_groups p.
Proof.
  rewrite (each_claim _ ids (fun _ => True) gr_ID "group" group_named add_group
    (fun s x s' _ => check_group_ok s x s') (fun _ _ _ => I) (fun _ _ => eq_refl)) by done. unfold free. naive_solver.
Qed.
Lemma rules_stage p st : settled p (with_groups p) -> each (check_rule unicode_lower) (with_groups p, 0) (Rules p) = inr st <->
  (Forall (rule_fine p) (Rules p) /\ free (r_ID <$> Rules p) (with_groups p)) /\ st = with_rules p.
Proof.
  intros Hs. rewrite (each_claim _ (fun st => ids st.1) (fun st => settled p st.1) r_ID "rule" (rule_fine p) add_rule_id
    (fun s x s' => check_rule_ok p s x s') (fun s x Hs => settled_named p _ _ _ Hs) (fun _ _ => eq_refl)) by done. unfold free. naive_solver.
Qed.
Lemma devices_stage p s : each check_devices (with_rules p).1 (DeviceGroups p) = inr s <->
  (Forall (fun g => ValidateDeviceGroup g = None) (DeviceGroups p) /\ free (dg_ID <$> DeviceGroups p) (with_rules p).1) /\ s = with_devices p.
Proof.
  rewrite (each_claim _ ids (fun _ => True) dg_ID "device group" (fun g => ValidateDeviceGroup g = None) add_devices
    (fun s x s' _ => check_devices_ok s x s') (fun _ _ _ => I) (fun _ _ => eq_refl)) by done. unfold free. naive_solver.
Qed.
Lemma lists_stage p s : settled p (with_devices p) ->
  each (check_list unicode_lower unicode_upper (map dg_ID (DeviceGroups p))) (with_devices p) (RoutingLists p) = inr s <->
  (Forall (list_fine p) (RoutingLists p) /\ free (rl_ID <$> RoutingLists p) (with_devices p)) /\ s = with_lists p.
Proof.
  intros Hs. rewrite (each_claim _ ids (settled p) rl_ID "routing list" (list_fine p) add_list_id
    (fun s x s' Hs => check_list_ok p _ s x s' Hs eq_refl) (fun s x Hs => settled_named p _ _ _ Hs) (fun _ _ => eq_refl)) by done.
  unfold free. naive_solver.
Qed.
Lemma dns_stage p : settled p (with_lists p) ->
  (match DNS p with None => inr tt | Some d => validateDNS unicode_lower d (ids (with_lists p)) (enabled (with_lists p)) (Endpoints p) end = inr tt)
  <-> forall d, DNS p = Some d -> dns_fine unicode_lower (live p) (is_list p) (Endpoints p) d.
Proof.
  intros Hs. destruct (DNS p) as [d|]; [|naive_solver]. rewrite (validateDNS_ok unicode_lower _ _ _ (live p) (is_list p)).
  - naive_solver.
  - intros t _. apply Hs.
  - intros t. by apply (settled_known p).
  - intros rs _. unfold with_lists, is_list. rewrite ids_lists. case_bool_decide as H; [done|]. split; [|done]. intros E. exfalso.
    unfold with_devices, with_rules, with_groups, with_endpoints in E. rewrite ids_devices, ids_rules in E. cbn [fst] in E. rewrite ids_groups, ids_endpoints in E.
    repeat case_bool_decide; try done. unfold first_ns in E. cbn [ids] in E. apply lookup_insert_Some in E as [[_ [=]]|[_ E]].
    by apply lookup_singleton_Some in E as [_ [=]].
Qed.

(** C9: [Validate] accepts exactly the profiles that can be applied. A profile passes if and only if its
    ids are non-empty, distinct across every kind of object and none of the builtin tags, every object is
    fine by itself, every live rule, list, download, group member and DNS detour leads to a builtin tag
    or to something of the profile that is switched on, groups are not empty and form no cycle, at most
    one live rule is the default, and the DNS plane is valid. *)
Theorem Validate_accepts_appliable p : Validate unicode_lower unicode_upper proto_problem p = None <-> appliable p.
Proof.
  transitivity (validate unicode_lower unicode_upper proto_problem p = inr tt).
  { unfold Validate. destruct (validate _ _ _ p) as [e|[]]; naive_solver. }
  etransitivity.
  - unfold validate. eapply stage; [apply endpoints_stage|intros [_ [Hend _]]].
    eapply stage; [apply groups_stage|intros [_ [_ Hgfr]]].
    assert (Hset : settled p (with_groups p)).
    { apply settled_groups; [done|]. intros id Hid Hin. specialize (Hgfr id Hid). unfold with_endpoints in Hgfr.
      rewrite ids_endpoints, if_taken in Hgfr. by destruct Hgfr. }
    assert (Hk : forall id, ids (with_groups p) !! id = Some "group" <-> id ∈ gr_ID <$> Groups p).
    { intros id. unfold with_groups. rewrite ids_groups. case_bool_decide as H; [done|]. split; [|done]. intros E. exfalso.
      unfold with_endpoints in E. rewrite ids_endpoints in E. case_bool_decide; [done|]. unfold first_ns in E. cbn [ids] in E.
      apply lookup_insert_Some in E as [[_ [=]]|[_ E]]. by apply lookup_singleton_Some in E as [_ [=]]. }
    eapply (unit_stage _ _ (Forall (fun g => Forall (member_fine p g) (gr_Members g)) (Groups p))); [|intros _].
    { rewrite for_all_ok. apply Forall_proper; [|done]. intros g. rewrite for_all_ok. by apply (members_ok p). }
    eapply unit_stage; [by apply (check_cycles_ok p)|intros _].
    eapply stage; [by intros st; apply rules_stage|intros _]. rewrite (surjective_pairing (with_rules p)).
    eapply unit_stage; [apply refuse_ok|intros _].
    eapply stage; [apply devices_stage|intros _].
    assert (Hset' : settled p (with_devices p)) by (apply settled_devices, settled_rules; exact Hset).
    eapply stage; [by intros t; apply lists_stage|intros _]. apply dns_stage. by apply settled_lists.
  - assert (Hn : (1 <? (with_rules p).2) = false <-> (length (filter (fun r => catch_all r = true) (Rules p)) <= 1)%nat).
    { unfold with_rules. rewrite rules_count. cbn [snd]. lia. }
    rewrite Hn. pose proof (ids_free p) as Hf. unfold free. split.
    + intros ((He & F1) & (Hg & F2) & Hm & Hc & (Hr & F3) & Hd & (Hdg & F4) & (Hl & F5) & Hdns).
      destruct (proj1 Hf (conj F1 (conj F2 (conj F3 (conj F4 F5))))) as [Hnd Hres]. split; try done.
      rewrite Forall_forall in *. intros g Hin. destruct (Hg g Hin) as (? & ? & ?). split_and!; [done|done|done|by apply Hm].
    + intros [Hnd Hres He Hg Hc Hr Hd Hdg Hl Hdns]. destruct (proj2 Hf (conj Hnd Hres)) as (F1 & F2 & F3 & F4 & F5).
      split_and!; try done; try apply F1; try apply F2; try apply F3; try apply F4; try apply F5.
      * eapply Forall_impl; [exact Hg|]. intros g (? & ? & ? & _). done.
      * eapply Forall_impl; [exact Hg|]. intros g (_ & _ & _ & ?). done.
Qed.
End spec.
