(* ===== verification/Store.v ===== *)
(** * The profile store

    Models [src/internal/store]: the published profile with its generation, the file behind it, and
    every operation of [store.go] and [rev.go]. An operation is an edit of a copy of the published
    profile ([snapshot]), which is refused or else given to [publish]; writers exclude each other, so
    they are steps. Whether a write of the file succeeds is an argument of the step, and so are the
    clock, the hashes behind the revisions, and what [Validate] takes as arguments. The file holds the
    profile as JSON; here it holds the profile.

    Further on: what routes through a connection. *)
From S2P Require Import Prelude GoStrings Model Faults Dns Validate.
Local Open Scope Z_scope.

Record published := mkPublished { p : Profile; gen : Z }.
Record Store := mkStore { cur : option published; file : option Profile }.
#[export] Instance eta_store : Eta Store := fun s => mkStore (cur s) (file s).

(** The errors, by the place that returns them. *)
Inductive store_err :=
  IDRequired (kind : string) | NotFound (kind id : string) | UsedBy (kind id : string) | OnlyMember (group : string)
| ReplacementRequired | ReplaceItself | NoSuchReplacement (tag : string) | WouldEmpty (group : string)
| CannotBeMember (group : string) | HoldsConnection (group : string)
| Stale | StaleGen (current : Z) | Invalid_ (f : fault) | WouldBreak (f : fault) | Stranded (l : list StrandedVPNResolver)
| WriteFailed | WrongCount | UnknownList (id : string) | NamedTwice (id : string).

Record Rev := mkRev { tag : string; set : bool }.
Definition AnyRev : Rev := mkRev "" false.
Definition At (t : string) : Rev := mkRev t true.
Record Saved := mkSaved { Was : string; S_Rev : string }.
Definition no_saved : Saved := mkSaved "" "".
Definition checkRev (rev : Rev) (found : bool) (cur : string) : store_err + unit :=
  if negb (set rev) then ok else if negb found then inl Stale else refuse (negb (bool_decide (cur = tag rev))) Stale.

(** ** Lists of objects *)
Definition has_id {A} (id : A -> string) (x : string) (l : list A) : bool := bool_decide (x ∈ id <$> l).
Fixpoint put_first {A} (id : A -> string) (x : A) (l : list A) : list A :=
  match l with
  | [] => []
  | y :: l => if bool_decide (id y = id x) then x :: l else y :: put_first id x l
  end.
(** Replace the object of that id, or append. *)
Definition upsert {A} (id : A -> string) (x : A) (l : list A) : list A :=
  if has_id id (id x) l then put_first id x l else l ++ [x].
Definition without {A} (id : A -> string) (x : string) (l : list A) : list A := filter (fun y => id y <> x) l.
Definition removeString (ss : list string) (target : string) : list string := filter (fun s => s <> target) ss.
Definition containsString (ss : list string) (target : string) : bool := existsb (fun s => bool_decide (s = target)) ss.
Definition onlyMember (members : list string) (id : string) : bool :=
  negb (length members =? 0)%nat && forallb (fun m => bool_decide (m = id)) members.
Fixpoint replace_from (seen : gset string) (ss : list string) (old repl : string) : list string :=
  match ss with
  | [] => []
  | s :: ss =>
      let s := if bool_decide (s = old) then repl else s in
      if bool_decide (s ∈ seen) then replace_from seen ss old repl else s :: replace_from ({[s]} ∪ seen) ss old repl
  end.
Definition replaceString (ss : list string) (old repl : string) : list string := replace_from ∅ ss old repl.

Definition drop_endpoint (id : string) (p : Profile) : store_err + Profile :=
  if has_id ep_ID id (Endpoints p) then inr (p <| Endpoints := without ep_ID id (Endpoints p) |>) else inl (NotFound "endpoint" id).
Definition map_members (f : Group -> list string) (p : Profile) : Profile :=
  p <| Groups := map (fun g => g <| gr_Members := f g |>) (Groups p) |>.
Definition prune (id : string) (p : Profile) : Profile := map_members (fun g => removeString (gr_Members g) id) p.

Section store.
Context (unicode_lower unicode_upper : bytes -> bytes) (unicode_fold : bytes -> bytes -> bool)
  (proto_problem : Endpoint -> option string).
(** [objectRev]: the hash of an object's stored form. *)
Context (endpoint_hash : Endpoint -> string) (group_hash : Group -> string) (list_hash : RoutingList -> string).
Abbreviation Validate := (Validate unicode_lower unicode_upper proto_problem).

Definition EndpointRev (e : Endpoint) : string := endpoint_hash e.
Definition GroupRev (g : Group) : string := group_hash g.
Definition RoutingListRev (rl : RoutingList) : string :=
  list_hash (rl <| CIDRCache := [] |> <| CIDRRefreshed := 0 |> <| DomainCache := [] |> <| DomainRefreshed := 0 |>).

(** ** Reading *)
Definition CurrentProfile (s : Store) : Profile := match cur s with Some c => p c | None => zero_profile end.
Definition Gen (s : Store) : Z := match cur s with Some c => gen c | None => 0 end.
Definition Snapshot (s : Store) : Profile * Z := match cur s with Some c => (p c, gen c) | None => (zero_profile, 0) end.
(** [cloneProfile] copies; a value is its own copy. *)
Definition snapshot (s : Store) : Profile := CurrentProfile s.

(** ** Publishing *)
Definition uint64 (z : Z) : Z := z mod 2 ^ 64.
Definition newlyStrandedResolvers (prev : option published) (next : Profile) : option store_err :=
  let now := StrandedVPNResolvers next in
  let before := match prev with
                | Some c => map (fun r => (sv_Tag r, sv_Endpoint r)) (StrandedVPNResolvers (p c))
                | None => [] end in
  match filter (fun r => (sv_Tag r, sv_Endpoint r) ∉ before) now with
  | [] => None
  | fresh => Some (Stranded fresh)
  end.
Definition persist (wrote : bool) (q : Profile) (s : Store) : option store_err * Store :=
  if wrote then (None, s <| file := Some q |>) else (Some WriteFailed, s).
(** A write that takes a valid profile to one with a switched-off reference. *)
Definition breaks (s : Store) (q : Profile) : option store_err :=
  match Validate q with
  | Some (DisabledRef k i t) =>
      match cur s with
      | Some c => if bool_decide (Validate (p c) = None) then Some (WouldBreak (DisabledRef k i t)) else None
      | None => None
      end
  | _ => None
  end.
Definition publish (wrote : bool) (q : Profile) (s : Store) : option store_err * Store :=
  match breaks s q with
  | Some e => (Some e, s)
  | None =>
      match newlyStrandedResolvers (cur s) q with
      | Some e => (Some e, s)
      | None =>
          match persist wrote q s with
          | (Some e, s) => (Some e, s)
          | (None, s) => (None, s <| cur := Some (mkPublished q (uint64 (Gen s + 1))) |>)
          end
      end
  end.
(** What every writer does: an edit of the copy, refused or published. *)
Definition commit (wrote : bool) (edit : store_err + Profile) (s : Store) : option store_err * Store :=
  match edit with inl e => (Some e, s) | inr q => publish wrote q s end.

(** ** Opening *)
Inductive on_disk := Missing | Unreadable | Blank | Unparsable | Parsed (q : Profile).
Definition startGen (random : Z) : Z := Z.shiftr (uint64 random) 12.
Definition Open (random : Z) (wrote : bool) (d : on_disk) : option (option store_err * Store) :=
  match d with
  | Missing | Blank =>
      let s := mkStore (Some (mkPublished zero_profile (startGen random))) None in Some (persist wrote zero_profile s)
  | Unreadable | Unparsable => None
  | Parsed q => Some (None, mkStore (Some (mkPublished q (startGen random))) (Some q))
  end.

(** ** The whole profile *)
Definition stored (e : Endpoint) : Endpoint := e <| ep_Import := "" |>.
Definition Replace (wrote : bool) (q : Profile) (s : Store) : option store_err * Store :=
  match Validate q with
  | Some f => (Some (Invalid_ f), s)
  | None => publish wrote (q <| Endpoints := map stored (Endpoints q) |>) s
  end.
Definition Reconcile (wrote : bool) (fn : Profile -> bool * Profile) (s : Store) : option store_err * Store :=
  let '(changed, q) := fn (snapshot s) in if changed then publish wrote q s else (None, s).

(** ** Conditional writes of one object

    [commit_at]: the edit of a write made at a revision; [was] is the revision of the stored object,
    [now] the one after the write. *)
Definition commit_at (wrote : bool) (rev : Rev) (was : option string) (now : string) (edit : store_err + Profile) (s : Store) :
    (Saved * option store_err) * Store :=
  let before := default "" was in
  match checkRev rev (bool_decide (is_Some was)) before with
  | inl e => ((mkSaved before "", Some e), s)
  | inr _ =>
      match commit wrote edit s with
      | (Some e, s) => ((mkSaved before "", Some e), s)
      | (None, s) => ((mkSaved before now, None), s)
      end
  end.
Definition refused (e : store_err) (s : Store) : (Saved * option store_err) * Store := ((no_saved, Some e), s).
Definition just_err (r : (Saved * option store_err) * Store) : option store_err * Store := (r.1.2, r.2).

(** ** Endpoints *)
Definition UpsertEndpointAt (wrote : bool) (e : Endpoint) (rev : Rev) (s : Store) :=
  if bool_decide (ep_ID e = "") then refused (IDRequired "endpoint") s
  else
    let e := stored e in
    let q := snapshot s in
    commit_at wrote rev (EndpointRev <$> EndpointByID q (ep_ID e)) (EndpointRev e)
      (inr (q <| Endpoints := upsert ep_ID e (Endpoints q) |>)) s.
Definition UpsertEndpoint (wrote : bool) (e : Endpoint) (s : Store) := just_err (UpsertEndpointAt wrote e AnyRev s).

(** The batch: [idx] maps an id to the place of its last endpoint. *)
Definition index_of (l : list Endpoint) : gmap string nat :=
  foldl (fun m x => <[ep_ID (snd x) := fst x]> m) ∅ (imap pair l).
Definition batch_one (st : list Endpoint * gmap string nat * list nat) (k : nat) (e : Endpoint) : list Endpoint * gmap string nat * list nat :=
  let '(l, idx, skipped) := st in
  let e := stored e in
  if bool_decide (ep_ID e = "") then (l, idx, skipped ++ [k])
  else match idx !! ep_ID e with
       | Some i => (<[i := e]> l, idx, skipped)
       | None => (l ++ [e], <[ep_ID e := length l]> idx, skipped)
       end.
Definition batch (eps : list Endpoint) (l : list Endpoint) : list Endpoint * list nat :=
  let '(l, _, skipped) := foldl (fun st x => batch_one st (fst x) (snd x)) (l, index_of l, []) (imap pair eps) in (l, skipped).
Definition upsertEndpoints (wrote : bool) (eps : list Endpoint) (ifGen : bool) (wantGen : Z) (s : Store) :
    (list nat * option store_err) * Store :=
  if (length eps =? 0)%nat then (([], None), s)
  else if ifGen && negb (Gen s =? wantGen) then (([], Some (StaleGen (Gen s))), s)
  else
    let q := snapshot s in
    let '(l, skipped) := batch eps (Endpoints q) in
    let '(e, s) := publish wrote (q <| Endpoints := l |>) s in ((skipped, e), s).
Definition UpsertEndpoints (wrote : bool) (eps : list Endpoint) (s : Store) := upsertEndpoints wrote eps false 0 s.
Definition UpsertEndpointsIfGen (wrote : bool) (eps : list Endpoint) (wantGen : Z) (s : Store) := upsertEndpoints wrote eps true wantGen s.

(** An enabled server that asks the resolvers connection [id] pushes. *)
Definition usesVPNResolvers (ds : DNSServer) (id : string) : bool :=
  ds_Enabled ds && IsVPNDNSType unicode_lower (ds_Type ds) && bool_decide (trim (ds_Endpoint ds) = id).
Definition servers (q : Profile) : list DNSServer := match DNS q with Some d => dns_Servers d | None => [] end.
(** What points at an outbound, as the delete paths refuse it. *)
Definition rules_to (id : string) (q : Profile) : store_err + unit :=
  for_all (fun r => refuse (bool_decide (r_Outbound r = id)) (UsedBy "rule" (r_ID r))) (Rules q).
Definition lists_to (id : string) (q : Profile) : store_err + unit :=
  for_all (fun rl => refuse (bool_decide (rl_Outbound rl = id) || bool_decide (DownloadVia rl = id)) (UsedBy "routing list" (rl_ID rl)))
    (RoutingLists q).

Definition delete_endpoint (id : string) (q : Profile) : store_err + Profile :=
  _ ← rules_to id q;
  _ ← for_all (fun g => refuse (onlyMember (gr_Members g) id) (OnlyMember (gr_ID g))) (Groups q);
  _ ← lists_to id q;
  _ ← for_all (fun ds => refuse (bool_decide (ds_Detour ds = id) || usesVPNResolvers ds id) (UsedBy "DNS server" (ds_Tag ds))) (servers q);
  q ← drop_endpoint id q;
  inr (prune id q).
Definition DeleteEndpoint (wrote : bool) (id : string) (s : Store) := commit wrote (delete_endpoint id (snapshot s)) s.

(** ** Groups *)
Definition UpsertGroupAt (wrote : bool) (g : Group) (rev : Rev) (s : Store) :=
  if bool_decide (gr_ID g = "") then refused (IDRequired "group") s
  else
    let q := snapshot s in
    commit_at wrote rev (GroupRev <$> GroupByID q (gr_ID g)) (GroupRev g) (inr (q <| Groups := upsert gr_ID g (Groups q) |>)) s.
Definition UpsertGroup (wrote : bool) (g : Group) (s : Store) := just_err (UpsertGroupAt wrote g AnyRev s).
Definition delete_group (id : string) (q : Profile) : store_err + Profile :=
  _ ← rules_to id q;
  _ ← for_all (fun g => refuse (negb (bool_decide (gr_ID g = id)) && onlyMember (gr_Members g) id) (OnlyMember (gr_ID g))) (Groups q);
  _ ← lists_to id q;
  _ ← for_all (fun ds => refuse (bool_decide (ds_Detour ds = id)) (UsedBy "DNS server" (ds_Tag ds))) (servers q);
  if has_id gr_ID id (Groups q) then inr (prune id (q <| Groups := without gr_ID id (Groups q) |>))
  else inl (NotFound "group" id).
Definition DeleteGroup (wrote : bool) (id : string) (s : Store) := commit wrote (delete_group id (snapshot s)) s.

(** ** Rules *)
Definition UpsertRule (wrote : bool) (r : Rule) (s : Store) : option store_err * Store :=
  if bool_decide (r_ID r = "") then (Some (IDRequired "rule"), s)
  else let q := snapshot s in publish wrote (q <| Rules := upsert r_ID r (Rules q) |>) s.
Definition delete_rule (id : string) (q : Profile) : store_err + Profile :=
  if has_id r_ID id (Rules q) then inr (q <| Rules := without r_ID id (Rules q) |>) else inl (NotFound "rule" id).
Definition DeleteRule (wrote : bool) (id : string) (s : Store) := commit wrote (delete_rule id (snapshot s)) s.

(** ** Routing lists

    What a user's edit of a stored list keeps of it: the format unless the new URL denies it, and the
    feeds' caches while their sources are the same. *)
Definition carry_format (old rl : RoutingList) : RoutingList :=
  if negb (bool_decide (Source rl = Source old)) && negb (bool_decide (rl_Format rl = ""))
     && bool_decide (rl_Format rl = rl_Format old) && negb (CarriedRuleSetFormat unicode_fold (rl_Format rl) (Source rl))
  then rl <| rl_Format := "" |> else rl.
Definition carry_cidrs (old rl : RoutingList) : RoutingList :=
  if negb (bool_decide (CIDRSource rl = CIDRSource old)) then rl <| CIDRCache := [] |> <| CIDRRefreshed := 0 |>
  else if (length (CIDRCache rl) =? 0)%nat then
    let rl := rl <| CIDRCache := CIDRCache old |> in
    if CIDRRefreshed rl =? 0 then rl <| CIDRRefreshed := CIDRRefreshed old |> else rl
  else rl.
Definition carry_domains (old rl : RoutingList) : RoutingList :=
  if negb (bool_decide (DomainSource rl = DomainSource old)) then rl <| DomainCache := [] |> <| DomainRefreshed := 0 |>
  else if (length (DomainCache rl) =? 0)%nat then
    let rl := rl <| DomainCache := DomainCache old |> in
    if DomainRefreshed rl =? 0 then rl <| DomainRefreshed := DomainRefreshed old |> else rl
  else rl.
Definition carried (old : option RoutingList) (rl : RoutingList) : RoutingList :=
  match old with Some old => carry_domains old (carry_cidrs old (carry_format old rl)) | None => rl end.
Definition UpsertRoutingListAt (wrote : bool) (rl : RoutingList) (rev : Rev) (s : Store) :=
  if bool_decide (rl_ID rl = "") then refused (IDRequired "routing list") s
  else
    let q := snapshot s in
    let old := RoutingListByID q (rl_ID rl) in
    let rl := carried old rl in
    commit_at wrote rev (RoutingListRev <$> old) (RoutingListRev rl)
      (inr (q <| RoutingLists := upsert rl_ID rl (RoutingLists q) |>)) s.
Definition UpsertRoutingList (wrote : bool) (rl : RoutingList) (s : Store) := just_err (UpsertRoutingListAt wrote rl AnyRev s).

Fixpoint alter_first {A} (id : A -> string) (x : string) (f : A -> A) (l : list A) : list A :=
  match l with
  | [] => []
  | y :: l => if bool_decide (id y = x) then f y :: l else y :: alter_first id x f l
  end.
Definition SetRoutingListCache (wrote : bool) (now : Z) (id : string) (cidrs : list string) (s : Store) : option store_err * Store :=
  let q := snapshot s in
  if has_id rl_ID id (RoutingLists q) then
    publish wrote (q <| RoutingLists := alter_first rl_ID id (fun rl => rl <| CIDRCache := cidrs |> <| CIDRRefreshed := now |>) (RoutingLists q) |>) s
  else (Some (NotFound "routing list" id), s).

Record CacheUpdate := mkUpdate { u_Source : string; CIDRs : list string; u_DomainSource : string; Domains : list string }.
(** One list, with whether anything was written to it. *)
Definition set_caches (now : Z) (caches : gmap string CacheUpdate) (rl : RoutingList) : RoutingList * bool :=
  match caches !! rl_ID rl with
  | None => (rl, false)
  | Some up =>
      let c := negb (bool_decide (u_Source up = "")) && bool_decide (CIDRSource rl = u_Source up) in
      let rl := if c then rl <| CIDRCache := CIDRs up |> <| CIDRRefreshed := now |> else rl in
      let d := negb (bool_decide (u_DomainSource up = "")) && bool_decide (DomainSource rl = u_DomainSource up) in
      let rl := if d then rl <| DomainCache := Domains up |> <| DomainRefreshed := now |> else rl in
      (rl, c || d)
  end.
Definition SetRoutingListCaches (wrote : bool) (now : Z) (caches : gmap string CacheUpdate) (s : Store) : (nat * option store_err) * Store :=
  if bool_decide (caches = ∅) then ((0%nat, None), s)
  else
    let q := snapshot s in
    let done := map (set_caches now caches) (RoutingLists q) in
    let matched := length (filter (fun x => snd x = true) done) in
    if (matched =? 0)%nat then ((0%nat, None), s)
    else let '(e, s) := publish wrote (q <| RoutingLists := map fst done |>) s in ((matched, e), s).

Definition delete_list (id : string) (q : Profile) : store_err + Profile :=
  _ ← match DNS q with
      | Some d => for_all (fun r => refuse (negb (dr_Disabled r) && bool_decide (id ∈ dr_RuleSets r)) (UsedBy "DNS rule" (dr_ID r))) (dns_Rules d)
      | None => ok
      end;
  if has_id rl_ID id (RoutingLists q) then inr (q <| RoutingLists := without rl_ID id (RoutingLists q) |>)
  else inl (NotFound "routing list" id).
Definition DeleteRoutingList (wrote : bool) (id : string) (s : Store) := commit wrote (delete_list id (snapshot s)) s.

(** The new order, list by list, from the place of each id's last list. *)
Fixpoint reorder (byID : gmap string nat) (lists : list RoutingList) (seen : gset string) (ids : list string) : store_err + list RoutingList :=
  match ids with
  | [] => inr []
  | id :: ids =>
      match byID !! id with
      | None => inl (UnknownList id)
      | Some i =>
          if bool_decide (id ∈ seen) then inl (NamedTwice id)
          else out ← reorder byID lists ({[id]} ∪ seen) ids; inr (default zero_list (lists !! i) :: out)
      end
  end.
Definition list_index (l : list RoutingList) : gmap string nat :=
  foldl (fun m x => <[rl_ID (snd x) := fst x]> m) ∅ (imap pair l).
Definition reorder_lists (ids : list string) (q : Profile) : store_err + Profile :=
  let l := RoutingLists q in
  _ ← refuse (negb (length ids =? length l)%nat) WrongCount;
  out ← reorder (list_index l) l ∅ ids;
  inr (q <| RoutingLists := out |>).
Definition ReorderRoutingLists (wrote : bool) (ids : list string) (s : Store) := commit wrote (reorder_lists ids (snapshot s)) s.

(** ** Device groups *)
Definition UpsertDeviceGroup (wrote : bool) (g : DeviceGroup) (s : Store) : option store_err * Store :=
  if bool_decide (dg_ID g = "") then (Some (IDRequired "device group"), s)
  else let q := snapshot s in publish wrote (q <| DeviceGroups := upsert dg_ID g (DeviceGroups q) |>) s.
Definition prune_scope (id : string) (rl : RoutingList) : RoutingList :=
  let sg := ScopeGroups rl in
  let pruned := filter (fun gid => gid <> id) sg in
  if (length sg =? 0)%nat || (length pruned =? length sg)%nat then rl
  else match pruned with
       | [] => rl <| ScopeMode := "" |> <| ScopeGroups := [] |>
       | _ => rl <| ScopeGroups := pruned |>
       end.
Definition delete_devices (id : string) (q : Profile) : store_err + Profile :=
  if has_id dg_ID id (DeviceGroups q) then
    inr (q <| DeviceGroups := without dg_ID id (DeviceGroups q) |> <| RoutingLists := map (prune_scope id) (RoutingLists q) |>)
  else inl (NotFound "device group" id).
Definition DeleteDeviceGroup (wrote : bool) (id : string) (s : Store) := commit wrote (delete_devices id (snapshot s)) s.

(** ** The DNS plane *)
Definition SetDNS (wrote : bool) (dns : option DNSSettings) (s : Store) : option store_err * Store :=
  publish wrote ((snapshot s) <| DNS := dns |>) s.
Definition SetDNSIfGen (wrote : bool) (dns : option DNSSettings) (wantGen : Z) (s : Store) : (Z * option store_err) * Store :=
  if negb (Gen s =? wantGen) then ((Gen s, Some (StaleGen (Gen s))), s)
  else let '(e, s) := SetDNS wrote dns s in ((Gen s, e), s).
End store.

(** * What routes through a connection

    The second half of [src/internal/store/store.go]: what would dangle if a connection or a group went
    ([EndpointDependents], [GroupDeleteBlockers] and the lists the panel offers), moving dependents
    elsewhere or parking them, and the writes that delete or switch off a connection with its
    dependents in one revision. *)

Record EndpointDependent := mkDependent { Kind : string; D_ID : string; D_Name : string }.

Section dependents.
Context (unicode_lower : bytes -> bytes).
Abbreviation usesVPNResolvers := (usesVPNResolvers unicode_lower).

(** ** Lists for the panel *)
Definition rule_dependents (id : string) (q : Profile) : list EndpointDependent :=
  map (fun r => mkDependent "rule" (r_ID r) (r_ID r)) (filter (fun r => r_Outbound r = id) (Rules q)).
Definition GroupDeleteBlockers (id : string) (q : Profile) : list EndpointDependent :=
  rule_dependents id q
  ++ map (fun g => mkDependent "sole_member_of" (gr_ID g) (gr_Name g))
       (filter (fun g => gr_ID g <> id /\ onlyMember (gr_Members g) id = true) (Groups q))
  ++ map (fun rl => mkDependent "routing_list" (rl_ID rl) (rl_Name rl))
       (filter (fun rl => rl_Outbound rl = id \/ DownloadVia rl = id) (RoutingLists q))
  ++ map (fun ds => mkDependent "dns_detour" (ds_Tag ds) (ds_Tag ds)) (filter (fun ds => ds_Detour ds = id) (servers q)).
Definition list_dependents (id : string) (rl : RoutingList) : list EndpointDependent :=
  (if bool_decide (rl_Outbound rl = id) then [mkDependent "routing_list" (rl_ID rl) (rl_Name rl)] else [])
  ++ (if bool_decide (DownloadVia rl = id) then [mkDependent "download_via" (rl_ID rl) (rl_Name rl)] else []).
Definition server_dependents (id : string) (ds : DNSServer) : list EndpointDependent :=
  (if bool_decide (ds_Detour ds = id) then [mkDependent "dns_detour" (ds_Tag ds) (ds_Tag ds)] else [])
  ++ (if usesVPNResolvers ds id then [mkDependent "dns_server" (ds_Tag ds) (ds_Tag ds)] else []).
Definition EndpointDependents (id : string) (q : Profile) : list EndpointDependent :=
  rule_dependents id q
  ++ concat (map (list_dependents id) (RoutingLists q))
  ++ concat (map (server_dependents id) (servers q))
  ++ map (fun g => mkDependent "group_member" (gr_ID g) (gr_Name g)) (filter (fun g => onlyMember (gr_Members g) id = true) (Groups q)).
Definition EndpointDisableBlockers (id : string) (q : Profile) : list EndpointDependent :=
  EndpointDependents id q
  ++ map (fun g => mkDependent "group_member" (gr_ID g) (gr_Name g))
       (filter (fun g => containsString (gr_Members g) id = true /\ onlyMember (gr_Members g) id = false) (Groups q)).
Definition EndpointReplacements (id : string) (q : Profile) : list string :=
  [OutboundDirect; OutboundBlock] ++ map ep_ID (filter (fun e => ep_ID e <> id) (Endpoints q))
  ++ map gr_ID (filter (fun g => onlyMember (gr_Members g) id = false) (Groups q)).

(** [groupReaches]: the walk marks what it has seen; [None] is out of fuel. *)
Section walk.
Context (q : Profile) (target : string).
Fixpoint any_member (visit : gset string -> string -> option (bool * gset string)) (seen : gset string) (ms : list string) :
    option (bool * gset string) :=
  match ms with
  | [] => Some (false, seen)
  | m :: ms =>
      if bool_decide (m = target) then Some (true, seen)
      else match visit seen m with
           | Some (false, seen) => any_member visit seen ms
           | r => r
           end
  end.
Fixpoint reach (fuel : nat) (seen : gset string) (id : string) : option (bool * gset string) :=
  match fuel with
  | O => None
  | S fuel =>
      if bool_decide (id ∈ seen) then Some (false, seen)
      else
        let seen := {[id]} ∪ seen in
        match GroupByID q id with
        | None => Some (false, seen)
        | Some g => any_member (reach fuel) seen (gr_Members g)
        end
  end.
End walk.
(** Two levels more than there are groups are enough ([StoreKeeps.groupReaches_ok]). *)
Definition groupReaches (q : Profile) (from target : string) : bool :=
  match reach q target (S (S (length (Groups q)))) ∅ from with Some (b, _) => b | None => false end.

Definition EndpointDisableReplacements (id : string) (q : Profile) : list string :=
  let out := EndpointReplacements id q in
  if existsb (fun g => containsString (gr_Members g) id) (Groups q) then
    filter (fun o => o <> OutboundDirect /\ o <> OutboundBlock /\ groupReaches q o id = false) out
  else out.

(** ** Moving and parking *)
Definition outboundExists (q : Profile) (t : string) : bool :=
  bool_decide (t = OutboundDirect) || bool_decide (t = OutboundBlock)
  || bool_decide (is_Some (EndpointByID q t)) || bool_decide (is_Some (GroupByID q t)).
Definition on_dns (f : DNSSettings -> DNSSettings) (q : Profile) : Profile := q <| DNS := f <$> DNS q |>.
Definition parkVPNResolver (t : string) (d : DNSSettings) : DNSSettings :=
  d <| dns_Servers := map (fun s => if bool_decide (ds_Tag s = t) then s <| ds_Enabled := false |> else s) (dns_Servers d) |>
    <| dns_Rules := map (fun r => if bool_decide (dr_Server r = t) then r <| dr_Disabled := true |> else r) (dns_Rules d) |>.
Definition vpnResolverTarget (q : Profile) (d : DNSSettings) (typ id : string) : bool :=
  match EndpointByID q id with
  | None => false
  | Some e =>
      ep_Enabled e && bool_decide (ep_Engine e = EngineSingBox) && bool_decide (ep_Protocol e = typ)
      && negb (existsb (fun ds => usesVPNResolvers ds id) (dns_Servers d))
  end.
Definition set_server (i : nat) (f : DNSServer -> DNSServer) (d : DNSSettings) : DNSSettings := d <| dns_Servers := alter f i (dns_Servers d) |>.
(** The servers one by one, each seeing what the ones before it left. *)
Definition move_resolver (q : Profile) (id repl : string) (d : DNSSettings) (i : nat) : DNSSettings :=
  match dns_Servers d !! i with
  | None => d
  | Some ds =>
      if usesVPNResolvers ds id then
        if vpnResolverTarget q d (ds_Type ds) repl then set_server i (fun s => s <| ds_Endpoint := repl |>) d
        else parkVPNResolver (ds_Tag ds) d
      else d
  end.
Definition each_server (f : DNSSettings -> nat -> DNSSettings) (d : DNSSettings) : DNSSettings :=
  foldl f d (seq 0 (length (dns_Servers d))).
Definition moved (id repl o : string) : string := if bool_decide (o = id) then repl else o.
Definition move_rules (id repl : string) (q : Profile) : Profile :=
  q <| Rules := map (fun r => r <| r_Outbound := moved id repl (r_Outbound r) |>) (Rules q) |>.
Definition move_lists (id repl : string) (q : Profile) : Profile :=
  q <| RoutingLists := map (fun rl => rl <| rl_Outbound := moved id repl (rl_Outbound rl) |>
                                         <| DownloadVia := moved id repl (DownloadVia rl) |>) (RoutingLists q) |>.
Definition move_detours (id repl : string) (d : DNSSettings) : DNSSettings :=
  d <| dns_Servers := map (fun s => s <| ds_Detour := moved id repl (ds_Detour s) |>) (dns_Servers d) |>.
Definition repointDependents (id repl : string) (q : Profile) : Profile :=
  let q := move_lists id repl (move_rules id repl q) in
  on_dns (fun d => each_server (move_resolver q id repl) (move_detours id repl d)) q.

Definition park_server (id : string) (d : DNSSettings) (i : nat) : DNSSettings :=
  let d := set_server i (fun s => if bool_decide (ds_Detour s = id) then s <| ds_Detour := "" |> else s) d in
  match dns_Servers d !! i with
  | Some ds => if usesVPNResolvers ds id then parkVPNResolver (ds_Tag ds) d else d
  | None => d
  end.
Definition park_rule (id : string) (r : Rule) : Rule :=
  if bool_decide (r_Outbound r = id) then r <| r_Outbound := OutboundDirect |> <| Disabled := true |> else r.
Definition park_list (id : string) (rl : RoutingList) : RoutingList :=
  let rl := if bool_decide (rl_Outbound rl = id) then rl <| rl_Outbound := OutboundDirect |> <| rl_Enabled := false |> else rl in
  if bool_decide (DownloadVia rl = id) then rl <| DownloadVia := "" |> else rl.
Definition parkDependents (id : string) (q : Profile) : Profile :=
  on_dns (each_server (park_server id))
    (q <| Rules := map (park_rule id) (Rules q) |> <| RoutingLists := map (park_list id) (RoutingLists q) |>).

(** ** Deleting a connection with its dependents *)
Definition delete_replacing (id repl : string) (q : Profile) : store_err + Profile :=
  _ ← refuse (negb (outboundExists q repl)) (NoSuchReplacement repl);
  let isEndpoint := bool_decide (is_Some (EndpointByID q repl)) in
  _ ← for_all (fun g => refuse (onlyMember (gr_Members g) id && negb isEndpoint) (WouldEmpty (gr_ID g))) (Groups q);
  q ← drop_endpoint id (repointDependents id repl q);
  inr (map_members (fun g => match removeString (gr_Members g) id with
                             | [] => if isEndpoint then [repl] else []
                             | ms => ms
                             end) q).
Definition detach (id : string) (q : Profile) : store_err + Profile :=
  _ ← for_all (fun g => refuse (onlyMember (gr_Members g) id) (WouldEmpty (gr_ID g))) (Groups q);
  q ← drop_endpoint id (parkDependents id q);
  inr (prune id q).

(** ** Switching a connection off with its dependents *)
Definition putEndpoint (e : Endpoint) (q : Profile) : store_err + Profile :=
  let e := stored e in
  if has_id ep_ID (ep_ID e) (Endpoints q) then inr (q <| Endpoints := put_first ep_ID e (Endpoints q) |>) else inl (NotFound "endpoint" (ep_ID e)).
Definition disable_replacing (e : Endpoint) (repl : string) (q : Profile) : store_err + Profile :=
  _ ← refuse (negb (outboundExists q repl)) (NoSuchReplacement repl);
  q ← putEndpoint e q;
  _ ← refuse (groupReaches q repl (ep_ID e)) (HoldsConnection repl);
  let memberable := bool_decide (is_Some (EndpointByID q repl)) || bool_decide (is_Some (GroupByID q repl)) in
  _ ← for_all (fun g => refuse (containsString (gr_Members g) (ep_ID e) && negb memberable) (CannotBeMember (gr_ID g))) (Groups q);
  inr (repointDependents (ep_ID e) repl
         (map_members (fun g => if containsString (gr_Members g) (ep_ID e) then replaceString (gr_Members g) (ep_ID e) repl else gr_Members g) q)).
Definition disable_detaching (e : Endpoint) (q : Profile) : store_err + Profile :=
  _ ← for_all (fun g => refuse (onlyMember (gr_Members g) (ep_ID e)) (WouldEmpty (gr_ID g))) (Groups q);
  q ← putEndpoint e q;
  inr (prune (ep_ID e) (parkDependents (ep_ID e) q)).

(** ** The writes *)
Section writes.
Context (unicode_upper : bytes -> bytes) (proto_problem : Endpoint -> option string) (endpoint_hash : Endpoint -> string).
Abbreviation commit := (commit unicode_lower unicode_upper proto_problem).
Definition DeleteEndpointReplacing (wrote : bool) (id repl : string) (s : Store) : option store_err * Store :=
  if bool_decide (repl = "") then DeleteEndpoint unicode_lower unicode_upper proto_problem wrote id s
  else if bool_decide (repl = id) then (Some ReplaceItself, s)
  else commit wrote (delete_replacing id repl (snapshot s)) s.
Definition DetachEndpointDependents (wrote : bool) (id : string) (s : Store) : option store_err * Store :=
  commit wrote (detach id (snapshot s)) s.
(** What is returned beside an error: some refusals return an empty [Saved]. *)
Definition saved_beside (e : store_err) (saved : Saved) : Saved :=
  match e with HoldsConnection _ | CannotBeMember _ | WouldEmpty _ => no_saved | _ => saved end.
Definition disable_at (wrote : bool) (e : Endpoint) (rev : Rev) (edit : store_err + Profile) (s : Store) : (Saved * option store_err) * Store :=
  let '(saved, err, s) := commit_at unicode_lower unicode_upper proto_problem wrote rev
    (endpoint_hash <$> EndpointByID (snapshot s) (ep_ID e)) (endpoint_hash e) edit s in
  ((match err with Some x => saved_beside x saved | None => saved end, err), s).
Definition SetEndpointDisabledReplacingAt (wrote : bool) (e : Endpoint) (repl : string) (rev : Rev) (s : Store) :=
  if bool_decide (ep_ID e = "") then refused (IDRequired "endpoint") s
  else if bool_decide (repl = "") then refused ReplacementRequired s
  else if bool_decide (repl = ep_ID e) then refused ReplaceItself s
  else disable_at wrote e rev (disable_replacing e repl (snapshot s)) s.
Definition SetEndpointDisabledReplacing (wrote : bool) (e : Endpoint) (repl : string) (s : Store) :=
  just_err (SetEndpointDisabledReplacingAt wrote e repl AnyRev s).
Definition SetEndpointDisabledDetachingAt (wrote : bool) (e : Endpoint) (rev : Rev) (s : Store) :=
  if bool_decide (ep_ID e = "") then refused (IDRequired "endpoint") s
  else disable_at wrote e rev (disable_detaching e (snapshot s)) s.
Definition SetEndpointDisabledDetaching (wrote : bool) (e : Endpoint) (s : Store) :=
  just_err (SetEndpointDisabledDetachingAt wrote e AnyRev s).
End writes.
End dependents.
