(* ===== verification/StoreKeeps.v ===== *)
(** * Groups that hold a connection

    [groupReaches] walks the nested groups with a set of what it has seen: it comes to an end, and it
    answers whether the target is held, directly or through nested groups. [replaceString] on a list of
    members.

    Further on: the DNS plane under the store's edits; edits that keep a profile valid. *)
From stdpp Require Import relations.
From S2P Require Import Prelude GoStrings Model Faults Dns Validate ValidateSpec Store.
Local Open Scope nat_scope.

Section reach.
Context (q : Profile) (target : string).
Abbreviation holds := (holds q).
Abbreviation unseen := (unseen q).

(** What a search that found nothing leaves: what it added is closed, and does not hold the target. *)
Definition swept (seen seen' : gset string) : Prop :=
  seen ⊆ seen' /\ forall a m, a ∈ seen' -> a ∉ seen -> holds a m -> m ∈ seen' /\ m <> target.
Definition outcome (seen : gset string) (id : string) (r : option (bool * gset string)) : Prop :=
  match r with
  | None => False
  | Some (true, _) => tc holds id target
  | Some (false, seen') => swept seen seen' /\ id ∈ seen'
  end.
Lemma swept_trans a b c : swept a b -> swept b c -> swept a c.
Proof.
  intros [H1 H2] [H3 H4]. split; [set_solver|]. intros x m Hx Hn Hm. destruct (decide (x ∈ b)) as [Hb|Hb].
  - destruct (H2 x m Hb Hn Hm). split; [by apply H3|done].
  - by apply (H4 x m).
Qed.
Lemma any_member_ok visit id seen ms : (forall m, m ∈ ms -> holds id m) ->
  (forall seen' m, seen ⊆ seen' -> holds id m -> outcome seen' m (visit seen' m)) ->
  match any_member target visit seen ms with
  | None => False
  | Some (true, _) => tc holds id target
  | Some (false, seen') => swept seen seen' /\ (forall m, m ∈ ms -> m ∈ seen' /\ m <> target)
  end.
Proof.
  revert seen. induction ms as [|m ms IH]; intros seen Hms Hv; cbn [any_member].
  - split; [|intros m Hm; by apply elem_of_nil in Hm]. split; [done|]. intros a m Ha Hn. done.
  - assert (Hm : holds id m) by (apply Hms; left). case_bool_decide as Ht; [subst; by apply tc_once|].
    specialize (Hv seen m (reflexivity seen) Hm) as Hout. destruct (visit seen m) as [[[] s1]|]; [by eapply tc_l| |done].
    destruct Hout as [Hsw Hin].
    assert (Hrec := IH s1 (fun x Hx => Hms x (list_elem_of_further _ _ _ Hx)) (fun s x Hs => Hv s x (transitivity (proj1 Hsw) Hs))).
    destruct (any_member target visit s1 ms) as [[[] s2]|]; [done| |done]. destruct Hrec as [Hsw2 Hall].
    split; [by eapply swept_trans|]. intros x [->|Hx]%elem_of_cons; [split; [by apply Hsw2|done]|by apply Hall].
Qed.
Lemma reach_ok fuel seen id : unseen seen < fuel -> outcome seen id (reach q target fuel seen id).
Proof.
  revert seen id. induction fuel as [|fuel IH]; intros seen id Hf; [lia|]. cbn [reach]. case_bool_decide as Hs.
  - split; [|done]. split; [done|]. intros a m Ha Hn. done.
  - destruct (GroupByID q id) as [g|] eqn:Eg.
    + pose proof (unseen_visit q seen id g Eg Hs) as Hu.
      assert (Hm : forall m, m ∈ gr_Members g -> holds id m) by (intros m Hm; by exists g).
      pose proof (any_member_ok (reach q target fuel) id ({[id]} ∪ seen) (gr_Members g) Hm) as H.
      assert (Hrec : forall s m, {[id]} ∪ seen ⊆ s -> holds id m -> outcome s m (reach q target fuel s m)).
      { intros s m Hsub _. apply IH. pose proof (unseen_mono q _ _ Hsub). lia. }
      specialize (H Hrec).
      destruct (any_member _ _ _ _) as [[[] s']|]; [done| |done]. destruct H as [[Hsub Hsw] Hall]. split; [|set_solver].
      split; [set_solver|]. intros a m Ha Hn Hh. destruct (decide (a = id)) as [->|Hne].
      * destruct Hh as (g' & Eg' & Hg'). rewrite Eg in Eg'. injection Eg' as <-. by apply Hall.
      * apply (Hsw a m); [done|set_solver|done].
    + split; [|set_solver]. split; [set_solver|]. intros a m Ha Hn (g & Hg & _). assert (a = id) as -> by set_solver. congruence.
Qed.
(** [groupReaches] is the reachability it is named for. *)
Lemma groupReaches_ok from : groupReaches q from target = true <-> tc holds from target.
Proof.
  unfold groupReaches. pose proof (reach_ok (S (S (length (Groups q)))) ∅ from) as H.
  assert (Hu : unseen ∅ < S (S (length (Groups q)))).  
  { eapply Nat.le_lt_trans; [apply unseen_bound|lia]. }
  specialize (H Hu). destruct (reach _ _ _ _ _) as [[[] s]|]; [done| |done]. split; [done|]. intros Ht. exfalso.
  destruct H as [[_ Hsw] Hin]. revert Hin. remember target as t eqn:Et. revert Et. induction Ht as [a b Hab|a b d Hab Hbd IH]; intros -> Ha.
  - destruct (Hsw a target) as [_ H]; [done|set_solver|done|done].
  - destruct (Hsw a b Ha (not_elem_of_empty a) Hab) as [Hb _]. naive_solver.
Qed.
End reach.

(** ** [replaceString] *)
Lemma replace_from_elem seen ss old repl x : x ∈ replace_from seen ss old repl <->
  (x ∉ seen) /\ exists s, s ∈ ss /\ x = if bool_decide (s = old) then repl else s.
Proof.
  revert seen. induction ss as [|s ss IH]; intros seen; cbn [replace_from].
  - rewrite elem_of_nil. setoid_rewrite elem_of_nil. naive_solver.
  - setoid_rewrite elem_of_cons. set (y := if bool_decide (s = old) then repl else s).
    destruct (decide (y ∈ seen)) as [Hy|Hy]; [rewrite bool_decide_true by done|rewrite bool_decide_false by done].
    + rewrite IH. split; [naive_solver|]. intros (Hn & z & [->|Hz] & E); [fold y in E; by subst|naive_solver].
    + rewrite elem_of_cons, IH. rewrite not_elem_of_union, not_elem_of_singleton. split.
      * intros [->|([Hne Hn] & z & Hz & E)]; [split; [done|]; by exists s; split; [left|]|naive_solver].
      * intros (Hn & z & [->|Hz] & E); [left; exact E|]. destruct (decide (x = y)) as [->|Hne]; [by left|right]. split; [done|naive_solver].
Qed.
Lemma replaceString_elem ss old repl x : x ∈ replaceString ss old repl <->
  (x <> old /\ x ∈ ss) \/ (old ∈ ss /\ x = repl).
Proof.
  unfold replaceString. rewrite replace_from_elem. split.
  - intros (_ & s & Hs & ->). case_bool_decide as E; [subst; by right|by left].
  - intros [[Hne Hx]|[Ho ->]]; (split; [apply not_elem_of_empty|]).
    + exists x. split; [done|]. by rewrite bool_decide_false.
    + exists old. split; [done|]. by rewrite bool_decide_true.
Qed.
Lemma containsString_ok ss t : containsString ss t = true <-> t ∈ ss.
Proof.
  unfold containsString. rewrite existsb_exists. setoid_rewrite bool_decide_eq_true. setoid_rewrite <- list_elem_of_In. naive_solver.
Qed.
Lemma onlyMember_ok ms id : onlyMember ms id = true <-> ms <> [] /\ forall m, m ∈ ms -> m = id.
Proof.
  unfold onlyMember. rewrite andb_true_iff, forallb_forall, negb_true_iff, Nat.eqb_neq.
  setoid_rewrite bool_decide_eq_true. setoid_rewrite <- list_elem_of_In. destruct ms; cbn [length]; naive_solver.
Qed.
Lemma removeString_elem ss t x : x ∈ removeString ss t <-> x <> t /\ x ∈ ss.
Proof. unfold removeString. by rewrite list_elem_of_filter. Qed.
Lemma removeString_nil ss t : ss <> [] -> onlyMember ss t = false -> removeString ss t <> [].
Proof.
  intros Hne Ho Hnil. apply not_true_iff_false in Ho. apply Ho, onlyMember_ok. split; [done|]. intros m Hm.
  destruct (decide (m = t)) as [|Hn]; [done|]. assert (H : m ∈ removeString ss t) by by apply removeString_elem.
  rewrite Hnil in H. by apply elem_of_nil in H.
Qed.

(** * The DNS plane under the store's edits

    Moving a connection's dependents, or parking them, rewrites the DNS plane server by server
    ([move_resolver], [park_server]). An edit that keeps every server but its detour and its connection,
    and that only switches off servers asking a connection, together with the rules that use them, takes
    a valid plane to a valid one ([dns_fine_edit]); the two loops are such edits, and leave no server
    asking the connection that goes. *)

Section dns.
Context (unicode_lower : bytes -> bytes).
Abbreviation IsVPNDNSType := (IsVPNDNSType unicode_lower).
Abbreviation usesVPNResolvers := (usesVPNResolvers unicode_lower).

Lemma vpn_type t proto : vpnDNSTypes t = Some proto -> IsVPNDNSType t = true /\ proto = t.
Proof.
  unfold vpnDNSTypes. case_bool_decide as H1; [intros [= <-]; subst; by split|]. case_bool_decide as H2; [intros [= <-]; subst; by split|done].
Qed.
Lemma valid_vpn_type t : t ∈ validDNSServerTypes -> IsVPNDNSType t = true -> vpnDNSTypes t = Some t.
Proof.
  unfold validDNSServerTypes. rewrite !elem_of_cons, elem_of_nil.
  intros H Hv. repeat destruct H as [->|H]; try done; vm_compute in Hv; done.
Qed.

(** ** Edits of servers and rules *)
Record server_edit (s s' : DNSServer) : Prop := {
  se_tag : ds_Tag s' = ds_Tag s; se_type : ds_Type s' = ds_Type s; se_server : ds_Server s' = ds_Server s;
  se_port : ds_ServerPort s' = ds_ServerPort s; se_boot : ds_DomainResolver s' = ds_DomainResolver s;
  se_inet4 : ds_Inet4Range s' = ds_Inet4Range s; se_inet6 : ds_Inet6Range s' = ds_Inet6Range s;
  se_on : ds_Enabled s' = true -> ds_Enabled s = true;
  se_keeps : IsVPNDNSType (ds_Type s) = false -> ds_Enabled s' = ds_Enabled s
}.
#[export] Instance server_edit_refl : Reflexive server_edit.
Proof. intros s. by split. Qed.
#[export] Instance server_edit_trans : Transitive server_edit.
Proof.
  intros a b c [] []. split; try congruence; [auto|]. intros H. rewrite se_keeps1 by congruence. auto.
Qed.
Definition rule_edit (r r' : DNSRule) : Prop :=
  dr_ID r' = dr_ID r /\ dr_RuleSets r' = dr_RuleSets r /\ dr_Server r' = dr_Server r /\
  dnsRuleHasNoMatcher r' = dnsRuleHasNoMatcher r /\ (dr_Disabled r' = false -> dr_Disabled r = false).
#[export] Instance rule_edit_refl : Reflexive rule_edit.
Proof. by intros r. Qed.
#[export] Instance rule_edit_trans : Transitive rule_edit.
Proof. intros a b c (? & ? & ? & ? & ?) (? & ? & ? & ? & ?). split_and!; try congruence. auto. Qed.
Record dns_edit (d d' : DNSSettings) : Prop := {
  de_servers : Forall2 server_edit (dns_Servers d) (dns_Servers d');
  de_rules : Forall2 rule_edit (dns_Rules d) (dns_Rules d');
  de_strategy : dns_Strategy d' = dns_Strategy d; de_fakeip : dns_FakeIP d' = dns_FakeIP d;
  de_cache : dns_IndependentCache d' = dns_IndependentCache d; de_leak : dns_LeakProof d' = dns_LeakProof d;
  de_subnet : dns_ClientSubnet d' = dns_ClientSubnet d; de_final : dns_Final d' = dns_Final d;
  (** a rule left on keeps its server on *)
  de_kept : forall r i s s', r ∈ dns_Rules d' -> dr_Disabled r = false -> dns_Servers d !! i = Some s ->
    dns_Servers d' !! i = Some s' -> ds_Tag s = dr_Server r -> ds_Enabled s = true -> ds_Enabled s' = true
}.
#[export] Instance dns_edit_refl : Reflexive dns_edit.
Proof.
  intros d. split; [apply Forall_Forall2_diag, Forall_true; done|apply Forall_Forall2_diag, Forall_true; done|done..|]. naive_solver.
Qed.
#[export] Instance dns_edit_trans : Transitive dns_edit.
Proof.
  intros a b c H1 H2. split.
  - transitivity (dns_Servers b); [apply H1|apply H2].
  - transitivity (dns_Rules b); [apply H1|apply H2].
  - rewrite (de_strategy _ _ H2). apply H1.
  - rewrite (de_fakeip _ _ H2). apply H1.
  - rewrite (de_cache _ _ H2). apply H1.
  - rewrite (de_leak _ _ H2). apply H1.
  - rewrite (de_subnet _ _ H2). apply H1.
  - rewrite (de_final _ _ H2). apply H1.
  - intros r i s s' Hr Hd Hs Hs' Ht He.
    destruct (Forall2_lookup_l _ _ _ i s (de_servers _ _ H1) Hs) as (t & Hi & Hst).
    apply list_elem_of_lookup in Hr as [k Hk]. destruct (Forall2_lookup_r _ _ _ k r (de_rules _ _ H2) Hk) as (r0 & Hk0 & (_ & _ & E & _ & Hoff)).
    apply (de_kept _ _ H2 r i t s'); [by eapply list_elem_of_lookup_2|done|done|done|by rewrite (se_tag _ _ Hst)|].
    apply (de_kept _ _ H1 r0 i s t); [by eapply list_elem_of_lookup_2|by apply Hoff|done|done|congruence|done].
Qed.

(** ** Edits keep a plane valid *)
Lemma find_edit P P' l l' : Forall2 server_edit l l' ->
  (forall i s s', l !! i = Some s -> l' !! i = Some s' -> P' s' = true -> P s = true) ->
  (forall i s s', find P l = Some s -> l !! i = Some s -> l' !! i = Some s' -> P' s' = true) ->
  match find P l, find P' l' with
  | Some s, Some s' => server_edit s s'
  | None, None => True
  | _, _ => False
  end.
Proof.
  induction 1 as [|s s' l l' He _ IH]; intros Hback Hkeep; [done|]. cbn [find] in *.
  pose proof (Hback 0 s s' eq_refl eq_refl) as Hb. pose proof (Hkeep 0 s s') as Hk. destruct (P s) eqn:E.
  - rewrite Hk; done.
  - destruct (P' s'); [by specialize (Hb eq_refl)|]. apply IH.
    + intros i x x' Hx Hx'. by apply (Hback (S i)).
    + intros i x x' Hf Hx Hx'. by apply (Hkeep (S i) x x').
Qed.
Lemma find_in {A} (P : A -> bool) l x : find P l = Some x -> x ∈ l /\ P x = true.
Proof. intros H. apply find_some in H as [H1 H2]. by rewrite list_elem_of_In. Qed.
Section fine.
Context (lv lv' il il' : string -> Prop) (eps eps' : list Endpoint) (d d' : DNSSettings).
Hypothesis Hfine : dns_fine unicode_lower lv il eps d.
Hypothesis Hedit : dns_edit d d'.
Lemma emitted_edit s s' tun : server_edit s s' -> emitted tun s' = true -> emitted tun s = true.
Proof. intros He. unfold emitted. rewrite (se_type _ _ He), !andb_true_iff. intros [H1 H2]. split; [by apply He|done]. Qed.
Lemma emitted_keeps s s' tun : server_edit s s' -> IsVPNDNSType (ds_Type s) = false -> emitted tun s' = emitted tun s.
Proof. intros He Hv. unfold emitted. by rewrite (se_type _ _ He), (se_keeps _ _ He Hv). Qed.
(** Every server that was the default of a plane still is: a default never asks a connection. *)
Lemma default_edit tun : match DefaultServer (Some d) tun, DefaultServer (Some d') tun with
  | Some s, Some s' => server_edit s s'
  | None, None => True
  | _, _ => False
  end.
Proof.
  pose proof (df_default _ _ _ _ _ Hfine tun) as Hdef. pose proof (de_servers _ _ Hedit) as Hs.
  unfold DefaultServer in *. cbn [mbind option_bind] in *. rewrite (de_final _ _ Hedit).
  assert (Hfind : match find (emitted tun) (dns_Servers d) with Some x => IsVPNDNSType (ds_Type x) = false | None => True end ->
    match find (emitted tun) (dns_Servers d), find (emitted tun) (dns_Servers d') with
    | Some s, Some s' => server_edit s s' | None, None => True | _, _ => False end).
  { intros Hx. apply find_edit; [done| |].
    - intros i s s' Hi Hi'. eapply emitted_edit. by eapply Forall2_lookup_lr.
    - intros i s s' Hf Hi Hi'. rewrite Hf in Hx. apply find_in in Hf as [_ Hf]. rewrite (emitted_keeps s s'); [done| |done]. by eapply Forall2_lookup_lr. }
  case_bool_decide as Hfin.
  - apply Hfind. destruct (find (emitted tun) (dns_Servers d)); [by apply Hdef|done].
  - set (P := fun s => bool_decide (ds_Tag s = dns_Final d) && emitted tun s) in *.
    assert (HP : match find P (dns_Servers d), find P (dns_Servers d') with
                 | Some s, Some s' => server_edit s s' | None, None => True | _, _ => False end).
    { apply find_edit; [done| |].
      - intros i s s' Hi Hi'. pose proof (Forall2_lookup_lr _ _ _ _ _ _ Hs Hi Hi') as He. unfold P. rewrite (se_tag _ _ He), !andb_true_iff.
        intros [H1 H2]. split; [done|by eapply emitted_edit].
      - intros i s s' Hf Hi Hi'. rewrite Hf in Hdef. pose proof (Hdef s eq_refl) as Hv. apply find_in in Hf as [_ Hf].
        pose proof (Forall2_lookup_lr _ _ _ _ _ _ Hs Hi Hi') as He. revert Hf. unfold P. by rewrite (se_tag _ _ He), (emitted_keeps s s'). }
    destruct (find P (dns_Servers d)) as [s|], (find P (dns_Servers d')) as [s'|]; try done. apply Hfind.
    destruct (find (emitted tun) (dns_Servers d)); [by apply Hdef|done].
Qed.
Lemma serves_edit t (Q : string -> Prop) : (forall y, Q y -> IsVPNDNSType y = false) ->
  serves (dns_Servers d) t Q -> serves (dns_Servers d') t Q.
Proof.
  intros HQ (s & Hs & Ht & He & HT). apply list_elem_of_lookup in Hs as [i Hi].
  destruct (Forall2_lookup_l _ _ _ i s (de_servers _ _ Hedit) Hi) as (s' & Hi' & Hse).
  exists s'. split; [by eapply list_elem_of_lookup_2|]. rewrite (se_tag _ _ Hse), (se_type _ _ Hse), (se_keeps _ _ Hse); [done|by apply HQ].
Qed.
Lemma server_fine_edit s s' : server_fine unicode_lower lv eps (dns_LeakProof d) s -> server_edit s s' ->
  (forall proto, vpnDNSTypes (ds_Type s') = Some proto -> ds_Enabled s' = true -> vpn_serves eps' proto (trim (ds_Endpoint s'))) ->
  (is_network s' -> detour_fine unicode_lower lv' s') ->
  server_fine unicode_lower lv' eps' (dns_LeakProof d') s'.
Proof.
  intros [H1 H2 H3 _ H5 H6] He Hv Hd. rewrite (de_leak _ _ Hedit). split.
  - by rewrite (se_tag _ _ He).
  - by rewrite (se_type _ _ He).
  - by rewrite (se_type _ _ He).
  - done.
  - intros Hn. split; [|by apply Hd]. unfold is_network in *. rewrite (se_type _ _ He) in Hn. destruct (H5 Hn) as [Ha _]. revert Ha.
    unfold address_fine. by rewrite (se_type _ _ He), (se_server _ _ He), (se_boot _ _ He), (se_port _ _ He).
  - rewrite (se_type _ _ He). intros Ht. rewrite <- (H6 Ht). unfold check_fakeip. by rewrite (se_tag _ _ He), (se_inet4 _ _ He), (se_inet6 _ _ He).
Qed.
Hypothesis Hlists : forall r x, r ∈ dns_Rules d -> dr_Disabled r = false -> x ∈ dr_RuleSets r -> il x -> il' x.
Hypothesis Hservers : Forall (server_fine unicode_lower lv' eps' (dns_LeakProof d')) (dns_Servers d').
Hypothesis Hasked : NoDup (omap asked (dns_Servers d')).
Lemma servers_bootstrap : Forall (bootstrap_fine unicode_lower (dns_Servers d')) (dns_Servers d').
Proof.
  apply Forall_forall. intros s' Hs'. apply list_elem_of_lookup in Hs' as [i Hi].
  destruct (Forall2_lookup_r _ _ _ i s' (de_servers _ _ Hedit) Hi) as (s & Hs & He).
  pose proof (df_bootstrap _ _ _ _ _ Hfine) as Hb. rewrite Forall_forall in Hb.
  specialize (Hb s (list_elem_of_lookup_2 _ _ _ Hs)). intros Hon Hn Ht. unfold is_network in Hn. rewrite (se_boot _ _ He) in *.
  rewrite (se_type _ _ He) in Hn. apply (serves_edit _ _ (fun y H => proj2 (proj2 H))). apply Hb; [by apply He|done|done].
Qed.
Lemma rules_edit : Forall (dns_rule_fine il' (dns_Servers d')) (dns_Rules d').
Proof.
  apply Forall_forall. intros r' Hr'. pose proof Hr' as Hin. apply list_elem_of_lookup in Hr' as [i Hi].
  destruct (Forall2_lookup_r _ _ _ i r' (de_rules _ _ Hedit) Hi) as (r & Hr & Hid & Hsets & Hsrv & Hm & Hoff).
  pose proof (df_rules _ _ _ _ _ Hfine) as Hb. rewrite Forall_forall in Hb. destruct (Hb r (list_elem_of_lookup_2 _ _ _ Hr)) as [Hne Hrest].
  split; [by rewrite Hid|]. intros Hd. destruct (Hrest (Hoff Hd)) as (Hs & Hnm & Ht). rewrite Hsets, Hm, Hsrv. split; [|split; [done|]].
  - intros rs Hrs Hbl. apply (Hlists r); [by eapply list_elem_of_lookup_2|by apply Hoff|done|by apply Hs].
  - destruct Ht as [Ht|(s & Hs' & Htag & Hon & _)]; [by left|right]. apply list_elem_of_lookup in Hs' as [k Hk].
    destruct (Forall2_lookup_l _ _ _ k s (de_servers _ _ Hedit) Hk) as (s' & Hk' & He).
    exists s'. split; [by eapply list_elem_of_lookup_2|]. split; [by rewrite (se_tag _ _ He)|]. split; [|done].
    apply (de_kept _ _ Hedit r' k s s'); congruence.
Qed.
Lemma dns_fine_edit : dns_fine unicode_lower lv' il' eps' d'.
Proof.
  pose proof Hfine as [H1 H2 H3 H4 H5 H6 H7 H8 H9 H10 H11]. split.
  - by rewrite (de_strategy _ _ Hedit).
  - by rewrite (de_fakeip _ _ Hedit), (de_cache _ _ Hedit).
  - done.
  - assert (E : ds_Tag <$> dns_Servers d' = ds_Tag <$> dns_Servers d); [|by rewrite E].
    symmetry. apply list_eq_Forall2, Forall2_fmap_2. eapply Forall2_impl; [apply Hedit|]. intros s s' He. by rewrite (se_tag _ _ He).
  - done.
  - apply servers_bootstrap.
  - unfold check_subnet. rewrite (de_subnet _ _ Hedit). exact H7.
  - rewrite (de_final _ _ Hedit), (de_leak _ _ Hedit). intros Hf. apply serves_edit; [by intros y [? _]|by apply H8].
  - intros tun def Hdef. pose proof (default_edit tun) as He. rewrite Hdef in He.
    destruct (DefaultServer (Some d) tun) as [s|] eqn:E; [|done]. rewrite (se_type _ _ He). by eapply H9.
  - rewrite (de_final _ _ Hedit), (de_leak _ _ Hedit). intros Hl Hf def Hdef. pose proof (default_edit false) as He. rewrite Hdef in He.
    destruct (DefaultServer (Some d) false) as [s|] eqn:E; [|done]. rewrite (se_type _ _ He). by apply (H10 Hl Hf).
  - apply rules_edit.
Qed.
End fine.

(** ** The single edits *)
Lemma asked_NoDup l l' : Forall2 (fun s s' => asked s' = None \/ asked s' = asked s) l l' -> NoDup (omap asked l) -> NoDup (omap asked l').
Proof.
  intros H. assert (Hsub : omap asked l' `sublist_of` omap asked l).
  { induction H as [|s s' l l' Hs _ IH]; [done|].
    change (omap asked (s :: l)) with (match asked s with Some y => y :: omap asked l | None => omap asked l end).
    change (omap asked (s' :: l')) with (match asked s' with Some y => y :: omap asked l' | None => omap asked l' end).
    destruct Hs as [-> | ->]; destruct (asked s); [by apply sublist_cons|done|by apply sublist_skip|done]. }
  intros Hnd. by eapply sublist_NoDup.
Qed.
Lemma dns_edit_tags d d' : dns_edit d d' -> ds_Tag <$> dns_Servers d' = ds_Tag <$> dns_Servers d.
Proof.
  intros H. symmetry. apply list_eq_Forall2, Forall2_fmap_2. eapply Forall2_impl; [apply H|]. intros s s' He. by rewrite (se_tag _ _ He).
Qed.
Lemma same_tag_server d i j s t : NoDup (ds_Tag <$> dns_Servers d) -> dns_Servers d !! i = Some s -> dns_Servers d !! j = Some t ->
  ds_Tag s = ds_Tag t -> s = t.
Proof.
  intros Hnd Hi Hj E. assert (i = j) as ->; [|congruence].
  apply (NoDup_lookup _ i j (ds_Tag s)) in Hnd; [done| |]; rewrite list_lookup_fmap; [by rewrite Hi|rewrite Hj; cbn; congruence].
Qed.
Lemma alter_edit i f l : (forall s, server_edit s (f s)) -> Forall2 server_edit l (alter f i l).
Proof.
  intros Hf. apply Forall2_same_length_lookup. split; [by rewrite length_alter|]. intros j s s' Hs Hs'.
  destruct (decide (i = j)) as [->|Hne]; [rewrite list_lookup_alter_eq, Hs in Hs'; by injection Hs' as <-|].
  rewrite list_lookup_alter_ne, Hs in Hs' by done. by injection Hs' as <-.
Qed.
Lemma set_server_edit d i f : (forall s, server_edit s (f s) /\ ds_Enabled (f s) = ds_Enabled s) -> dns_edit d (set_server i f d).
Proof.
  intros Hf. split; try done.
  - apply alter_edit. intros s. by apply Hf.
  - intros r j s s' _ _ Hs Hs' _ He. cbn in Hs'. destruct (decide (i = j)) as [->|Hne].
    + rewrite list_lookup_alter_eq, Hs in Hs'. injection Hs' as <-. by rewrite (proj2 (Hf s)).
    + rewrite list_lookup_alter_ne, Hs in Hs' by done. by injection Hs' as <-.
Qed.
Lemma move_detours_edit id repl d : dns_edit d (move_detours id repl d).
Proof.
  split; try done.
  - cbn. apply Forall2_fmap_r, Forall_Forall2_diag, Forall_true. intros s. by split.
  - intros r j s s' _ _ Hs Hs' _ He. cbn in Hs'. rewrite list_lookup_fmap, Hs in Hs'. by injection Hs' as <-.
Qed.
Definition parked (t : string) (s : DNSServer) : DNSServer := if bool_decide (ds_Tag s = t) then s <| ds_Enabled := false |> else s.
Lemma park_edit d i ds : NoDup (ds_Tag <$> dns_Servers d) -> dns_Servers d !! i = Some ds -> IsVPNDNSType (ds_Type ds) = true ->
  dns_edit d (parkVPNResolver (ds_Tag ds) d).
Proof.
  intros Hnd Hi Hv. split; try done.
  - cbn. apply Forall2_fmap_r.
    apply Forall2_same_length_lookup. split; [done|]. intros j s s' Hs Hs'. rewrite Hs in Hs'. injection Hs' as <-. cbn [compose].
    case_bool_decide as E; [|done]. assert (s = ds) as -> by by eapply same_tag_server. split; try done. cbn. by rewrite Hv.
  - cbn. apply Forall2_fmap_r, Forall_Forall2_diag, Forall_true. intros r. unfold rule_edit. cbn [compose]. case_bool_decide; [by split_and!|by split_and!].
  - intros r j s s' Hr Hd Hs Hs' Ht He. cbn in Hs', Hr. rewrite list_lookup_fmap, Hs in Hs'. injection Hs' as <-.
    apply list_elem_of_fmap in Hr as (r0 & -> & _). revert Hd Ht. case_bool_decide as E; [done|]. intros _ Ht.
    rewrite bool_decide_false by congruence. done.
Qed.
Lemma each_server_ind (P : nat -> DNSSettings -> Prop) f d : P 0 d ->
  (forall i d', i < length (dns_Servers d) -> P i d' -> P (S i) (f d' i)) -> P (length (dns_Servers d)) (each_server f d).
Proof.
  intros H0 HS. unfold each_server.
  assert (H : forall n i d', i + n = length (dns_Servers d) -> P i d' -> P (i + n) (foldl f d' (seq i n))).
  { induction n as [|n IH]; intros i d' Hn Hp; [by rewrite Nat.add_0_r|]. cbn [seq foldl]. rewrite Nat.add_succ_r. apply (IH (S i)); [lia|]. apply HS; [lia|done]. }
  by apply (H _ 0).
Qed.
Lemma parked_off t id s : ds_Tag s = t -> usesVPNResolvers (parked t s) id = false.
Proof. intros E. unfold parked. rewrite bool_decide_true by done. done. Qed.
Lemma parked_uses t id s : usesVPNResolvers s id = false -> usesVPNResolvers (parked t s) id = false.
Proof. unfold parked. by case_bool_decide. Qed.
Lemma parked_fields t s : ds_Endpoint (parked t s) = ds_Endpoint s /\ ds_Detour (parked t s) = ds_Detour s.
Proof. unfold parked. by case_bool_decide. Qed.
Lemma parked_asked t s : asked (parked t s) = None \/ asked (parked t s) = asked s.
Proof. unfold parked. case_bool_decide; [left; unfold asked; cbn; by rewrite andb_false_r|by right]. Qed.

(** ** The loop that moves resolvers *)
Section moving.
Context (q : Profile) (id repl : string) (d : DNSSettings).
Hypothesis Htags : NoDup (ds_Tag <$> dns_Servers d).
Hypothesis Hasked : NoDup (omap asked (dns_Servers d)).
Hypothesis Htypes : forall s, s ∈ dns_Servers d -> ds_Type s ∈ validDNSServerTypes.
Hypothesis Hrepl : repl <> id /\ trim repl = repl.
(** A connection that can take over a server of this type. *)
Definition takes_over (typ : string) : Prop :=
  exists e, EndpointByID q repl = Some e /\ ep_Enabled e = true /\ ep_Engine e = EngineSingBox /\ ep_Protocol e = typ.
(** A server after the move: its detour moved, its connection kept or moved to one that serves it. *)
Definition after_move (s s' : DNSServer) : Prop :=
  ds_Detour s' = moved id repl (ds_Detour s) /\
  (ds_Endpoint s' = ds_Endpoint s \/ (ds_Endpoint s' = repl /\ takes_over (ds_Type s))).
Record moving (i : nat) (d' : DNSSettings) : Prop := {
  mv_edit : dns_edit d d';
  mv_asked : NoDup (omap asked (dns_Servers d'));
  mv_servers : Forall2 after_move (dns_Servers d) (dns_Servers d');
  mv_done : forall j s, j < i -> dns_Servers d' !! j = Some s -> usesVPNResolvers s id = false
}.
Lemma moving_start : moving 0 (move_detours id repl d).
Proof.
  split; [apply move_detours_edit| | |lia].
  - eapply asked_NoDup; [|exact Hasked]. cbn. apply Forall2_fmap_r, Forall_Forall2_diag, Forall_true. intros s. by right.
  - cbn. apply Forall2_fmap_r, Forall_Forall2_diag, Forall_true. intros s. split; [done|by left].
Qed.
Lemma target_takes_over d' typ : vpnResolverTarget unicode_lower q d' typ repl = true ->
  takes_over typ /\ forall s, s ∈ dns_Servers d' -> usesVPNResolvers s repl = false.
Proof.
  unfold vpnResolverTarget, takes_over. destruct (EndpointByID q repl) as [e|]; [|done].
  rewrite !andb_true_iff, !bool_decide_eq_true, negb_true_iff. intros (((? & ?) & ?) & Hnone). split; [by exists e|].
  intros s Hs. apply not_true_iff_false. intros Hu. apply not_true_iff_false in Hnone. apply Hnone, existsb_exists. exists s.
  by rewrite <- list_elem_of_In.
Qed.
Lemma asked_uses s x : ds_Type s ∈ validDNSServerTypes -> asked s = Some x <-> usesVPNResolvers s x = true.
Proof.
  intros Ht. unfold asked, Store.usesVPNResolvers. rewrite !andb_true_iff, bool_decide_eq_true.
  destruct (ds_Enabled s); [|rewrite andb_false_r; naive_solver]. rewrite andb_true_r.
  destruct (vpnDNSTypes (ds_Type s)) as [proto|] eqn:E.
  - rewrite bool_decide_true by done. destruct (vpn_type _ _ E) as [-> _]. naive_solver.
  - rewrite bool_decide_false by (intros [? [=]]). split; [done|]. intros [[_ Hv] _]. rewrite (valid_vpn_type _ Ht Hv) in E. done.
Qed.
Lemma edit_types d' : dns_edit d d' -> forall s, s ∈ dns_Servers d' -> ds_Type s ∈ validDNSServerTypes.
Proof.
  intros H s [i Hi]%list_elem_of_lookup. destruct (Forall2_lookup_r _ _ _ i s (de_servers _ _ H) Hi) as (s0 & Hs0 & He).
  rewrite (se_type _ _ He). apply Htypes. by eapply list_elem_of_lookup_2.
Qed.
Lemma asked_set s x : is_Some (asked s) -> asked (s <| ds_Endpoint := x |>) = Some (trim x).
Proof.
  unfold asked. change (ds_Type (s <| ds_Endpoint := x |>)) with (ds_Type s). change (ds_Enabled (s <| ds_Endpoint := x |>)) with (ds_Enabled s).
  destruct (bool_decide _ && ds_Enabled s); [done|by intros [? [=]]].
Qed.
Lemma asked_replace i ds x l f : l !! i = Some ds -> is_Some (asked ds) -> asked (f ds) = Some x -> x ∉ omap asked l ->
  NoDup (omap asked l) -> NoDup (omap asked (alter f i l)).
Proof.
  intros Hi [y Hy] Hx Hn Hnd. pose proof (take_drop_middle l i ds Hi) as E. rewrite <- E in Hnd, Hn |- *.
  pose proof (lookup_lt_Some _ _ _ Hi) as Hlt.
  assert (Ea : alter f i (take i l ++ ds :: drop (S i) l) = take i l ++ f ds :: drop (S i) l).
  { rewrite alter_app_r_alt by (rewrite length_take; lia). by rewrite length_take, Nat.min_l, Nat.sub_diag by lia. }
  rewrite Ea, omap_app. rewrite omap_app in Hnd, Hn.
  change (omap asked (f ds :: drop (S i) l)) with (match asked (f ds) with Some z => z :: omap asked (drop (S i) l) | None => omap asked (drop (S i) l) end).
  change (omap asked (ds :: drop (S i) l)) with (match asked ds with Some z => z :: omap asked (drop (S i) l) | None => omap asked (drop (S i) l) end) in *.
  rewrite Hx. rewrite Hy in *. rewrite NoDup_app, NoDup_cons in *. rewrite not_elem_of_app, not_elem_of_cons in Hn.
  destruct Hnd as (H1 & H2 & H3 & H4). destruct Hn as (N1 & N2 & N3). split_and!; try done.
  intros z Hz. rewrite not_elem_of_cons. split; [by intros ->|]. specialize (H2 z Hz). rewrite not_elem_of_cons in H2. by destruct H2.
Qed.
Lemma moving_step i d' : moving i d' -> moving (S i) (move_resolver unicode_lower q id repl d' i).
Proof.
  intros [He Ha Hs Hd]. unfold move_resolver. pose proof (edit_types d' He) as Hty.
  destruct (dns_Servers d' !! i) as [ds|] eqn:Ei.
  2: { split; [done..|]. intros j s Hj. destruct (decide (j = i)) as [->|]; [by rewrite Ei|apply Hd; lia]. }
  pose proof (list_elem_of_lookup_2 _ _ _ Ei) as Hin.
  destruct (usesVPNResolvers ds id) eqn:Eu.
  2: { split; [done..|]. intros j s Hj Hjs. destruct (decide (j = i)) as [->|]; [by rewrite Ei in Hjs; injection Hjs as <-|apply (Hd j); [lia|done]]. }
  assert (Hask : asked ds = Some id) by by apply asked_uses; [apply Hty|].
  destruct (vpnResolverTarget unicode_lower q d' (ds_Type ds) repl) eqn:Et.
  - apply target_takes_over in Et as [Htake Hfree]. split.
    + transitivity d'; [done|]. apply set_server_edit. intros s. by split.
    + cbn. apply (asked_replace i ds repl); [done|by rewrite Hask| | |done].
      * rewrite asked_set by by rewrite Hask. by destruct Hrepl as [_ ->].
      * intros (s & Hsin & Hsa)%list_elem_of_omap. apply asked_uses in Hsa; [|by apply Hty]. by rewrite (Hfree s Hsin) in Hsa.
    + cbn. apply Forall2_same_length_lookup. split; [rewrite length_alter; by eapply Forall2_length|]. intros j s s' Hj Hj'.
      destruct (decide (i = j)) as [<-|Hne].
      * rewrite list_lookup_alter_eq, Ei in Hj'. injection Hj' as <-. destruct (Forall2_lookup_lr _ _ _ _ _ _ Hs Hj Ei) as [Hdet _].
        split; [done|]. right. split; [done|]. by rewrite <- (se_type _ _ (Forall2_lookup_lr _ _ _ _ _ _ (de_servers _ _ He) Hj Ei)).
      * rewrite list_lookup_alter_ne in Hj' by done. by eapply Forall2_lookup_lr.
    + cbn. intros j s Hj Hjs. destruct (decide (i = j)) as [<-|Hne].
      * rewrite list_lookup_alter_eq, Ei in Hjs. injection Hjs as <-. unfold Store.usesVPNResolvers.
        change (ds_Endpoint (ds <| ds_Endpoint := repl |>)) with repl. destruct Hrepl as [Hne ->].
        rewrite (bool_decide_false (repl = id)) by done. by rewrite andb_false_r.
      * rewrite list_lookup_alter_ne in Hjs by done. apply (Hd j); [lia|done].
  - assert (Hv : IsVPNDNSType (ds_Type ds) = true).
    { revert Eu. unfold Store.usesVPNResolvers. rewrite !andb_true_iff. naive_solver. }
    split.
    + transitivity d'; [done|]. apply (park_edit d' i); [by rewrite (dns_edit_tags d d')|done|done].
    + eapply asked_NoDup; [|exact Ha]. cbn. apply Forall2_fmap_r, Forall_Forall2_diag, Forall_true. intros s. apply parked_asked.
    + cbn. apply Forall2_fmap_r. eapply Forall2_impl; [exact Hs|]. intros s s' [H1 H2]. cbn [compose]. by case_bool_decide.
    + cbn. intros j s Hj Hjs. rewrite list_lookup_fmap in Hjs. destruct (dns_Servers d' !! j) as [s0|] eqn:Ej; [|done]. injection Hjs as <-.
      fold (parked (ds_Tag ds) s0). destruct (decide (j = i)) as [->|]; [rewrite Ei in Ej; injection Ej as <-; by apply parked_off|].
      apply parked_uses. apply (Hd j); [lia|done].
Qed.
Lemma moved_plane : moving (length (dns_Servers d)) (each_server (move_resolver unicode_lower q id repl) (move_detours id repl d)).
Proof.
  replace (length (dns_Servers d)) with (length (dns_Servers (move_detours id repl d))) by (cbn; apply length_map).
  apply each_server_ind; [apply moving_start|]. intros i d' _. apply moving_step.
Qed.
End moving.

(** ** The loop that parks them *)
Section parking.
Context (id : string) (d : DNSSettings).
Hypothesis Htags : NoDup (ds_Tag <$> dns_Servers d).
Hypothesis Hasked : NoDup (omap asked (dns_Servers d)).
Record parking (i : nat) (d' : DNSSettings) : Prop := {
  pk_edit : dns_edit d d';
  pk_asked : NoDup (omap asked (dns_Servers d'));
  pk_servers : forall j s s', dns_Servers d !! j = Some s -> dns_Servers d' !! j = Some s' ->
    ds_Endpoint s' = ds_Endpoint s /\ ds_Detour s' = if bool_decide (j < i) then moved id "" (ds_Detour s) else ds_Detour s;
  pk_done : forall j s, j < i -> dns_Servers d' !! j = Some s -> usesVPNResolvers s id = false
}.
Definition clear_detour (s : DNSServer) : DNSServer := if bool_decide (ds_Detour s = id) then s <| ds_Detour := "" |> else s.
Lemma clear_detour_edit s : server_edit s (clear_detour s) /\ ds_Enabled (clear_detour s) = ds_Enabled s.
Proof. unfold clear_detour. case_bool_decide; by split. Qed.
Lemma clear_detour_fields s : ds_Endpoint (clear_detour s) = ds_Endpoint s /\ ds_Detour (clear_detour s) = moved id "" (ds_Detour s) /\
  asked (clear_detour s) = asked s /\ forall x, usesVPNResolvers (clear_detour s) x = usesVPNResolvers s x.
Proof. unfold clear_detour, moved. by case_bool_decide. Qed.
Lemma parking_detour i d' : parking i d' -> 
  let d1 := set_server i clear_detour d' in
  dns_edit d d1 /\ NoDup (omap asked (dns_Servers d1)) /\
  (forall j s s', dns_Servers d !! j = Some s -> dns_Servers d1 !! j = Some s' ->
    ds_Endpoint s' = ds_Endpoint s /\ ds_Detour s' = if bool_decide (j < S i) then moved id "" (ds_Detour s) else ds_Detour s) /\
  (forall j s, j < i -> dns_Servers d1 !! j = Some s -> usesVPNResolvers s id = false).
Proof.
  intros [He Ha Hs Hd]. cbn. split_and!.
  - transitivity d'; [done|]. apply set_server_edit, clear_detour_edit.
  - eapply asked_NoDup; [|exact Ha]. apply Forall2_same_length_lookup. split; [by rewrite length_alter|]. intros j s s' Hj Hj'.
    destruct (decide (i = j)) as [<-|Hne]; [rewrite list_lookup_alter_eq, Hj in Hj'; injection Hj' as <-; right; apply clear_detour_fields|].
    rewrite list_lookup_alter_ne, Hj in Hj' by done. injection Hj' as <-. by right.
  - intros j s s' Hj Hj'. destruct (decide (i = j)) as [<-|Hne].
    + rewrite list_lookup_alter_eq in Hj'. destruct (dns_Servers d' !! i) as [t|] eqn:Et; [|done]. injection Hj' as <-.
      destruct (Hs i s t Hj Et) as [H1 H2]. rewrite bool_decide_false in H2 by lia. rewrite bool_decide_true by lia.
      destruct (clear_detour_fields t) as (-> & -> & _). by rewrite H2.
    + rewrite list_lookup_alter_ne in Hj' by done. destruct (Hs j s s' Hj Hj') as [H1 H2]. split; [done|]. rewrite H2.
      repeat case_bool_decide; try done; lia.
  - intros j s Hj Hjs. rewrite list_lookup_alter_ne in Hjs by lia. by apply (Hd j).
Qed.
Lemma parking_step i d' : parking i d' -> parking (S i) (park_server unicode_lower id d' i).
Proof.
  intros H. apply parking_detour in H as (He & Ha & Hs & Hd). unfold park_server. cbv zeta. fold clear_detour.
  set (d1 := set_server i clear_detour d') in *. clearbody d1.
  destruct (dns_Servers d1 !! i) as [ds|] eqn:Ei.
  2: { split; [done..|]. intros j s Hj. destruct (decide (j = i)) as [->|]; [by rewrite Ei|apply Hd; lia]. }
  destruct (usesVPNResolvers ds id) eqn:Eu.
  2: { split; [done..|]. intros j s Hj Hjs. destruct (decide (j = i)) as [->|]; [by rewrite Ei in Hjs; injection Hjs as <-|apply (Hd j); [lia|done]]. }
  assert (Hv : IsVPNDNSType (ds_Type ds) = true).
  { revert Eu. unfold Store.usesVPNResolvers. rewrite !andb_true_iff. naive_solver. }
  split.
  - transitivity d1; [done|]. apply (park_edit d1 i); [by rewrite (dns_edit_tags d d1)|done|done].
  - eapply asked_NoDup; [|exact Ha]. cbn. apply Forall2_fmap_r, Forall_Forall2_diag, Forall_true. intros s. apply parked_asked.
  - intros j s s' Hj Hj'. cbn in Hj'. rewrite list_lookup_fmap in Hj'. destruct (dns_Servers d1 !! j) as [t|] eqn:Et; [|done]. injection Hj' as <-.
    destruct (Hs j s t Hj Et) as [H1 H2]. fold (parked (ds_Tag ds) t). destruct (parked_fields (ds_Tag ds) t) as [-> ->]. by split.
  - cbn. intros j s Hj Hjs. rewrite list_lookup_fmap in Hjs. destruct (dns_Servers d1 !! j) as [s0|] eqn:Ej; [|done]. injection Hjs as <-.
    fold (parked (ds_Tag ds) s0). destruct (decide (j = i)) as [->|]; [rewrite Ei in Ej; injection Ej as <-; by apply parked_off|].
    apply parked_uses. apply (Hd j); [lia|done].
Qed.
Lemma parked_plane : parking (length (dns_Servers d)) (each_server (park_server unicode_lower id) d).
Proof.
  apply each_server_ind; [|intros i d' _; apply parking_step]. split; [done|done| |lia].
  intros j s s' Hj Hj'. rewrite Hj in Hj'. injection Hj' as <-. split; [done|]. case_bool_decide; [lia|done].
Qed.
End parking.
End dns.

(** * Edits that keep a profile valid

    The pure edits of the store, on a valid profile: deleting an object, deleting or switching off a
    connection with its dependents moved or parked, reordering lists and refreshing their feeds. Each
    leaves a profile [Validate] accepts. *)

Section keeps.
Context (unicode_lower unicode_upper : bytes -> bytes) (proto_problem : Endpoint -> option string).
Abbreviation isBuiltin := (isBuiltin unicode_lower).
Abbreviation appliable := (appliable unicode_lower unicode_upper proto_problem).
Abbreviation goes := (goes unicode_lower).
Abbreviation rule_fine := (rule_fine unicode_lower).
Abbreviation list_fine := (list_fine unicode_lower unicode_upper).
Abbreviation group_fine := (group_fine unicode_lower).
Abbreviation dns_fine := (dns_fine unicode_lower).

(** ** Parts of a profile *)
Lemma submseteq_fmap_filter {A} (f : A -> string) (P : A -> Prop) `{!forall x, Decision (P x)} l : f <$> filter P l ⊆+ f <$> l.
Proof. apply sublist_submseteq, fmap_sublist, sublist_filter. Qed.
Lemma ids_keep q q' : all_ids q' ⊆+ all_ids q -> NoDup (all_ids q) -> (forall id, id ∈ all_ids q -> id <> OutboundDirect /\ id <> OutboundBlock) ->
  NoDup (all_ids q') /\ forall id, id ∈ all_ids q' -> id <> OutboundDirect /\ id <> OutboundBlock.
Proof.
  intros Hs Hnd Hr. split; [destruct (submseteq_Permutation _ _ Hs) as [k Hk]; rewrite Hk in Hnd; by apply NoDup_app in Hnd as (? & _)|]. intros id Hid. apply Hr. by eapply elem_of_submseteq.
Qed.
Lemma goes_keep q q' o : (live q o -> live q' o) -> goes q o -> goes q' o.
Proof. unfold ValidateSpec.goes, routes. intros H [?|?]; [by left|right; by apply H]. Qed.
Lemma rule_keep q q' r : (live q (r_Outbound r) -> live q' (r_Outbound r)) -> rule_fine q r -> rule_fine q' r.
Proof.
  intros Hl [H1 H2]. split; [done|]. intros Hd. destruct (H2 Hd) as (? & ? & ?). split; [done|]. split; [done|]. by eapply goes_keep.
Qed.
Lemma list_keep q q' rl : (live q (rl_Outbound rl) -> live q' (rl_Outbound rl)) -> (live q (DownloadVia rl) -> live q' (DownloadVia rl)) ->
  DeviceGroups q' = DeviceGroups q -> list_fine q rl -> list_fine q' rl.
Proof.
  intros Ho Hd E (H1 & H2 & H3 & H4 & H5). split; [done|]. split; [done|]. split; [|split].
  - unfold target_fine in *. destruct (NDMPolicyName (rl_Outbound rl)); [done|by eapply goes_keep].
  - by rewrite E.
  - destruct H5 as [?|[? ?]]; [by left|right]. split; [done|by eapply goes_keep].
Qed.
Lemma groups_keep q q' gs F : Groups q' = map (fun g => g <| gr_Members := F g |>) gs -> Forall (group_fine q) gs ->
  (forall g, g ∈ gs -> F g <> [] /\ forall m, m ∈ F g -> member_fine q' g m) -> Forall (group_fine q') (Groups q').
Proof.
  intros E Hg HF. rewrite E. apply Forall_fmap, Forall_forall. intros g Hin. rewrite Forall_forall in Hg. destruct (Hg g Hin) as (H1 & H2 & _).
  destruct (HF g Hin) as [H3 H4]. split_and!; [done|done|done|]. apply Forall_forall. exact H4.
Qed.
Lemma acyclic_keep q q' : (forall a b, nests q' a b -> nests q a b) -> (forall id, ~ tc (nests q) id id) -> forall id, ~ tc (nests q') id id.
Proof. intros H Ha id Hid. apply (Ha id). eapply tc_mono; [|exact Hid]. exact H. Qed.
Lemma ids_of_members F gs : gr_ID <$> map (fun g => g <| gr_Members := F g |>) gs = gr_ID <$> gs.
Proof. change (map _ gs) with ((fun g => g <| gr_Members := F g |>) <$> gs). by rewrite <- list_fmap_compose. Qed.
Lemma nests_members q q' gs F : Groups q' = map (fun g => g <| gr_Members := F g |>) gs -> (forall g, g ∈ gs -> g ∈ Groups q) ->
  (forall g m, g ∈ gs -> m ∈ F g -> m ∈ gr_ID <$> Groups q -> m ∈ gr_Members g) -> forall a b, nests q' a b -> nests q a b.
Proof.
  intros E Hgs HF a b (g' & Hg' & Ha & Hb & Hin). rewrite E in Hg', Hin. apply list_elem_of_fmap in Hg' as (g & -> & Hg).
  rewrite ids_of_members in Hin. apply list_elem_of_fmap in Hin as (g0 & -> & Hg0).
  assert (Hid : gr_ID g0 ∈ gr_ID <$> Groups q) by by apply list_elem_of_fmap_2, Hgs.
  exists g. split; [by apply Hgs|]. split; [done|]. split; [|exact Hid]. by apply HF.
Qed.
Lemma defaults_keep (l l' : list Rule) : Forall2 (fun r r' => catch_all r' = true -> catch_all r = true) l l' ->
  length (filter (fun r => catch_all r = true) l') <= length (filter (fun r => catch_all r = true) l).
Proof. induction 1 as [|r r' l l' H _ IH]; [done|]. rewrite !filter_cons. repeat case_decide; cbn [length]; try lia; naive_solver. Qed.
Lemma defaults_filter (P : Rule -> Prop) `{!forall x, Decision (P x)} (l : list Rule) :
  length (filter (fun r => catch_all r = true) (filter P l)) <= length (filter (fun r => catch_all r = true) l).
Proof. induction l as [|r l IH]; [done|]. rewrite !filter_cons. repeat (case_decide; rewrite ?filter_cons); cbn [length]; lia. Qed.

(** ** A connection that goes *)
Lemma in_all_ids q id : id ∈ all_ids q <-> id ∈ ep_ID <$> Endpoints q \/ id ∈ gr_ID <$> Groups q \/ id ∈ r_ID <$> Rules q \/
  id ∈ dg_ID <$> DeviceGroups q \/ id ∈ rl_ID <$> RoutingLists q.
Proof. unfold all_ids. by rewrite !elem_of_app. Qed.
Lemma endpoint_id q id : appliable q -> id ∈ ep_ID <$> Endpoints q ->
  id <> "" /\ isBuiltin id = false /\ (id ∉ gr_ID <$> Groups q) /\ id <> OutboundDirect.
Proof.
  intros Hq Hid. assert (Hr : id <> OutboundDirect) by (apply (ap_reserved _ _ _ _ Hq), in_all_ids; auto).
  pose proof (ap_ids _ _ _ _ Hq) as Hnd. unfold all_ids in Hnd. apply NoDup_app in Hnd as (_ & Hd & _).
  pose proof (Hd id Hid) as Hn. apply list_elem_of_fmap in Hid as (e & -> & He).
  pose proof (ap_endpoints _ _ _ _ Hq) as Hf. rewrite Forall_forall in Hf. destruct (Hf e He) as (? & ? & ? & _).
  split_and!; [done|done| |done]. intros Hg. apply Hn. by rewrite elem_of_app; left.
Qed.
Lemma live_without q q' id o : Endpoints q' = without ep_ID id (Endpoints q) -> gr_ID <$> Groups q' = gr_ID <$> Groups q ->
  o <> id -> live q o -> live q' o.
Proof.
  intros E G Hn [(e & He & <- & Hon)|Hg]; [left|right; by rewrite G]. exists e. split; [|done]. rewrite E. unfold without.
  by rewrite list_elem_of_filter.
Qed.
Lemma Forall_without {A} (f : A -> string) id (P : A -> Prop) l : Forall P l -> Forall P (without f id l).
Proof. rewrite !Forall_forall. intros H x [_ Hx]%list_elem_of_filter. by apply H. Qed.
Lemma find_without {A} (f : A -> string) id x l : x <> id -> find_by f x (without f id l) = find_by f x l.
Proof.
  intros Hn. unfold without. induction l as [|y l IH]; [done|]. rewrite filter_cons. cbn [find_by]. destruct (decide (f y <> id)) as [H|H]; cbn [find_by]; rewrite IH; [done|].
  apply dec_stable in H. by rewrite bool_decide_false by congruence.
Qed.
Lemma vpn_serves_without eps id proto x : x <> id -> vpn_serves eps proto x -> vpn_serves (without ep_ID id eps) proto x.
Proof. intros Hn [H1 H2]. split; [done|]. unfold vpnResolverFault in *. by rewrite find_without. Qed.
Lemma uses_asks s id : usesVPNResolvers unicode_lower s id = false -> forall proto, vpnDNSTypes (ds_Type s) = Some proto -> ds_Enabled s = true ->
  trim (ds_Endpoint s) <> id.
Proof.
  unfold usesVPNResolvers. intros H proto Hp He E. destruct (vpn_type unicode_lower _ _ Hp) as [Hv _]. rewrite He, Hv, E in H.
  by rewrite bool_decide_true in H.
Qed.
Lemma detour_keep q q' s : (live q (ds_Detour s) -> live q' (ds_Detour s)) -> detour_fine unicode_lower (live q) s -> detour_fine unicode_lower (live q') s.
Proof. intros Hl [?|[? [?|?]]]; [by left|right|right]; (split; [done|]); [by left|right; by apply Hl]. Qed.
Lemma map_members_same q F : gr_ID <$> Groups (map_members F q) = gr_ID <$> Groups q.
Proof. apply ids_of_members. Qed.
Lemma for_all_refuse {E A} (b : A -> bool) (e : A -> E) l : for_all (fun x => refuse (b x) (e x)) l = inr tt <-> forall x, x ∈ l -> b x = false.
Proof. rewrite for_all_ok, Forall_forall. setoid_rewrite refuse_ok. done. Qed.

(** ** Deleting a connection nothing points at *)
Lemma delete_endpoint_keeps id q q' : appliable q -> delete_endpoint unicode_lower id q = inr q' -> appliable q'.
Proof.
  intros Hq. unfold delete_endpoint, rules_to, lists_to, drop_endpoint. rewrite !seq_inr, !for_all_refuse. intros (Hr & Hg & Hl & Hd & H).
  unfold has_id in H. case_bool_decide as Hid; [|done]. cbn in H. injection H as <-.
  destruct (endpoint_id q id Hq Hid) as (Hne & Hb & Hng & Hnd).
  set (q1 := q <| Endpoints := without ep_ID id (Endpoints q) |>). set (q' := prune id q1).
  assert (Hgs : gr_ID <$> Groups q' = gr_ID <$> Groups q) by apply (map_members_same q1).
  assert (Hlive : forall o, o <> id -> live q o -> live q' o) by (intros o; by apply live_without).
  destruct (ids_keep q q') as [Hids Hres]; [|apply Hq|apply Hq|].
  { unfold all_ids. rewrite Hgs. apply submseteq_app; [apply submseteq_fmap_filter|done]. }
  destruct Hq as [_ _ He Hgr Hac Hru Hde Hdev Hli Hdns]. split; try done.
  - change (Endpoints q') with (without ep_ID id (Endpoints q)). by apply Forall_without.
  - apply (groups_keep q q' (Groups q) (fun g => removeString (gr_Members g) id)); [done|done|]. intros g Hin.
    rewrite Forall_forall in Hgr. destruct (Hgr g Hin) as (_ & _ & Hmem & Hfine). split; [apply removeString_nil; [done|by apply Hg]|].
    intros m [Hm Hmi]%removeString_elem. rewrite Forall_forall in Hfine. destruct (Hfine m Hmi) as [?|(? & ? & ?)]; [by left|right]. split_and!; [done|done|by apply Hlive].
  - eapply (acyclic_keep q); [|done]. apply (nests_members q q' (Groups q) (fun g => removeString (gr_Members g) id)); [done|done|]. intros g m _ [_ ?]%removeString_elem _. done.
  - apply Forall_forall. intros r Hin. rewrite Forall_forall in Hru. eapply rule_keep; [|by apply Hru]. apply Hlive.
    specialize (Hr r Hin). by apply bool_decide_eq_false in Hr.
  - apply Forall_forall. intros rl Hin. rewrite Forall_forall in Hli. specialize (Hl rl Hin). apply orb_false_iff in Hl as [H1%bool_decide_eq_false H2%bool_decide_eq_false].
    eapply list_keep; [by apply Hlive|by apply Hlive|done|by apply Hli].
  - intros d Hdd. specialize (Hdns d Hdd). eapply dns_fine_edit; [exact Hdns|reflexivity|done| |apply Hdns].
    apply Forall_forall. intros s Hin. pose proof (df_servers _ _ _ _ _ Hdns) as Hsf. rewrite Forall_forall in Hsf. specialize (Hsf s Hin).
    assert (Hsd : s ∈ servers q) by (unfold servers; change (DNS q') with (DNS q) in Hdd; by rewrite Hdd).
    specialize (Hd s Hsd). apply orb_false_iff in Hd as [Hdet%bool_decide_eq_false Hu].
    eapply server_fine_edit; [reflexivity|exact Hsf|reflexivity| |].
    + intros proto Hp Hon. apply vpn_serves_without; [by eapply uses_asks|by apply Hsf].
    + intros Hn. eapply detour_keep; [|by apply Hsf]. by apply Hlive.
Qed.

(** ** Deleting a group *)
(** What points at an id neither as a rule, a list nor a DNS server. *)
Lemma rules_avoid id q : rules_to id q = inr tt <-> forall r, r ∈ Rules q -> r_Outbound r <> id.
Proof. unfold rules_to. rewrite for_all_refuse. setoid_rewrite bool_decide_eq_false. done. Qed.
Lemma lists_avoid id q : lists_to id q = inr tt <-> forall rl, rl ∈ RoutingLists q -> rl_Outbound rl <> id /\ DownloadVia rl <> id.
Proof. unfold lists_to. rewrite for_all_refuse. setoid_rewrite orb_false_iff. setoid_rewrite bool_decide_eq_false. done. Qed.
Lemma rules_live q q' : (forall r, r ∈ Rules q -> live q (r_Outbound r) -> live q' (r_Outbound r)) -> Forall (rule_fine q) (Rules q) -> Forall (rule_fine q') (Rules q).
Proof. rewrite !Forall_forall. intros H Hr r Hin. eapply rule_keep; [by apply H|by apply Hr]. Qed.
Lemma lists_live q q' : DeviceGroups q' = DeviceGroups q ->
  (forall rl, rl ∈ RoutingLists q -> (live q (rl_Outbound rl) -> live q' (rl_Outbound rl)) /\ (live q (DownloadVia rl) -> live q' (DownloadVia rl))) ->
  Forall (list_fine q) (RoutingLists q) -> Forall (list_fine q') (RoutingLists q).
Proof. rewrite !Forall_forall. intros E H Hl rl Hin. destruct (H rl Hin). eapply list_keep; [done|done|done|by apply Hl]. Qed.
(** The plane is untouched; what it points at is still there. *)
Lemma dns_live q q' d : dns_fine (live q) (is_list q) (Endpoints q) d ->
  (forall s, s ∈ dns_Servers d -> live q (ds_Detour s) -> live q' (ds_Detour s)) ->
  (forall s proto, s ∈ dns_Servers d -> vpnDNSTypes (ds_Type s) = Some proto -> ds_Enabled s = true ->
     vpn_serves (Endpoints q) proto (trim (ds_Endpoint s)) -> vpn_serves (Endpoints q') proto (trim (ds_Endpoint s))) ->
  (forall r x, r ∈ dns_Rules d -> dr_Disabled r = false -> x ∈ dr_RuleSets r -> is_list q x -> is_list q' x) ->
  dns_fine (live q') (is_list q') (Endpoints q') d.
Proof.
  intros Hd Hl Hv Hs. eapply dns_fine_edit; [exact Hd|reflexivity|exact Hs| |apply Hd].
  apply Forall_forall. intros s Hin. pose proof (df_servers _ _ _ _ _ Hd) as Hsf. rewrite Forall_forall in Hsf. specialize (Hsf s Hin).
  eapply server_fine_edit; [reflexivity|exact Hsf|reflexivity| |].
  - intros proto Hp Hon. apply (Hv s); [done|done|done|by apply Hsf].
  - intros Hn. eapply detour_keep; [|by apply Hsf]. by apply Hl.
Qed.
Lemma servers_in q d s : DNS q = Some d -> s ∈ dns_Servers d -> s ∈ servers q.
Proof. unfold servers. by intros ->. Qed.

Lemma delete_group_keeps id q q' : appliable q -> delete_group id q = inr q' -> appliable q'.
Proof.
  intros Hq. unfold delete_group. rewrite !seq_inr, rules_avoid, lists_avoid, !for_all_refuse. intros (Hr & Hg & Hl & Hd & H).
  destruct (has_id gr_ID id (Groups q)); [|done]. injection H as <-.
  set (q' := prune id _).
  assert (Hgs : gr_ID <$> Groups q' = gr_ID <$> without gr_ID id (Groups q)) by apply ids_of_members.
  assert (Hlive : forall o, o <> id -> live q o -> live q' o).
  { intros o Hn [?|Ho]; [by left|right]. rewrite Hgs. apply list_elem_of_fmap in Ho as (g & -> & Hin). apply list_elem_of_fmap_2.
    unfold without. by rewrite list_elem_of_filter. }
  destruct (ids_keep q q') as [Hids Hres]; [|apply Hq|apply Hq|].
  { unfold all_ids. rewrite Hgs. apply submseteq_app; [done|]. apply submseteq_app; [apply submseteq_fmap_filter|done]. }
  destruct Hq as [_ _ He Hgr Hac Hru Hde Hdev Hli Hdns]. split; try done.
  - apply (groups_keep q q' (without gr_ID id (Groups q)) (fun g => removeString (gr_Members g) id)); [done|by apply Forall_without|].
    intros g [Hgid Hin]%list_elem_of_filter. rewrite Forall_forall in Hgr. destruct (Hgr g Hin) as (_ & _ & Hmem & Hfine). split.
    + apply removeString_nil; [done|]. specialize (Hg g Hin). by rewrite bool_decide_false in Hg by done.
    + intros m [Hm Hmi]%removeString_elem. rewrite Forall_forall in Hfine. destruct (Hfine m Hmi) as [?|(? & ? & ?)]; [by left|right].
      split_and!; [done|done|by apply Hlive].
  - eapply (acyclic_keep q); [|done]. apply (nests_members q q' (without gr_ID id (Groups q)) (fun g => removeString (gr_Members g) id)); [done| |].
    + by intros g [_ ?]%list_elem_of_filter.
    + intros g m _ [_ ?]%removeString_elem _. done.
  - eapply (rules_live q); [|exact Hru]. intros r Hin. by apply Hlive, Hr.
  - eapply (lists_live q); [done| |exact Hli]. intros rl Hin. split; apply Hlive; by apply (Hl rl Hin).
  - intros d Hdd. eapply (dns_live q); [by apply Hdns| |done|done]. intros s Hin. apply Hlive.
    specialize (Hd s (servers_in q d s Hdd Hin)). by apply bool_decide_eq_false in Hd.
Qed.

(** ** Deleting a rule or a routing list *)
Lemma delete_rule_keeps id q q' : appliable q -> delete_rule id q = inr q' -> appliable q'.
Proof.
  intros Hq. unfold delete_rule. destruct (has_id r_ID id (Rules q)); [|done]. intros [= <-].
  set (q' := q <| Rules := _ |>). destruct (ids_keep q q') as [Hids Hres]; [|apply Hq|apply Hq|].
  { unfold all_ids. apply submseteq_app; [done|]. apply submseteq_app; [done|]. apply submseteq_app; [apply submseteq_fmap_filter|done]. }
  destruct Hq as [_ _ He Hgr Hac Hru Hde Hdev Hli Hdns]. split; try done.
  - change (Rules q') with (without r_ID id (Rules q)). apply Forall_without. eapply (rules_live q); [|exact Hru]. done.
  - etransitivity; [apply defaults_filter|exact Hde].
Qed.
Lemma delete_list_keeps id q q' : appliable q -> delete_list id q = inr q' -> appliable q'.
Proof.
  intros Hq. unfold delete_list. rewrite seq_inr. intros [Hd H]. destruct (has_id rl_ID id (RoutingLists q)); [|done]. injection H as <-.
  set (q' := q <| RoutingLists := _ |>). destruct (ids_keep q q') as [Hids Hres]; [|apply Hq|apply Hq|].
  { unfold all_ids. repeat (apply submseteq_app; [done|]). apply submseteq_fmap_filter. }
  destruct Hq as [_ _ He Hgr Hac Hru Hde Hdev Hli Hdns]. split; try done.
  - change (RoutingLists q') with (without rl_ID id (RoutingLists q)). apply Forall_without. eapply (lists_live q); [done| |exact Hli]. done.
  - intros d Hdd. change (DNS q' = Some d) with (DNS q = Some d) in Hdd. eapply (dns_live q); [by apply Hdns|done|done|].
    intros r x Hr Hon Hx (rl & -> & Hin)%list_elem_of_fmap. rewrite Hdd, for_all_refuse in Hd. specialize (Hd r Hr). rewrite Hon in Hd. cbn in Hd.
    apply bool_decide_eq_false in Hd. apply list_elem_of_fmap_2, list_elem_of_filter. split; [|done]. by intros <-.
Qed.

(** ** Deleting a device group *)
Lemma list_scope_ok devs rl : list_scope devs rl = inr tt <->
  ScopeMode rl ∈ [""; "all"; "only"; "except"] /\ (forall gid, gid ∈ ScopeGroups rl -> gid ∈ devs) /\
  TLSFragment rl ∈ [""; "record"; "handshake"] /\ (ScopeMode rl ∈ ["only"; "except"] -> ScopeGroups rl <> []).
Proof.
  unfold list_scope. rewrite !seq_inr, !refuse_ok, !negb_false_iff, !bool_decide_eq_true, andb_false_iff, bool_decide_eq_false, Nat.eqb_neq.
  assert (E : existsb (fun gid => negb (bool_decide (gid ∈ devs))) (ScopeGroups rl) = false <-> forall gid, gid ∈ ScopeGroups rl -> gid ∈ devs).
  { rewrite <- not_true_iff_false, existsb_exists. setoid_rewrite <- list_elem_of_In. setoid_rewrite negb_true_iff. setoid_rewrite bool_decide_eq_false.
    split; [|naive_solver]. intros H gid Hg. destruct (decide (gid ∈ devs)); [done|]. exfalso. apply H. by exists gid. }
  rewrite E. destruct (ScopeGroups rl); cbn [length]; split; intros (? & ? & ? & H); split_and!; try done; destruct (decide (ScopeMode rl ∈ ["only"; "except"])); naive_solver.
Qed.
Lemma filter_same_length {A} (P : A -> Prop) `{!forall x, Decision (P x)} l : length (filter P l) = length l -> Forall P l.
Proof.
  induction l as [|x l IH]; [done|]. rewrite filter_cons. case_decide; cbn [length]; intros E.
  - constructor; [done|]. apply IH. lia.
  - pose proof (length_filter P l). lia.
Qed.
Lemma prune_scope_ok devs id rl : list_scope devs rl = inr tt -> list_scope (filter (fun x => x <> id) devs) (prune_scope id rl) = inr tt.
Proof.
  intros H. apply list_scope_ok in H as (Hm & Hin & Hf & Hn). unfold prune_scope.
  destruct (_ || _) eqn:E; [apply list_scope_ok|].
  - split_and!; try done. intros gid Hg. apply list_elem_of_filter. split; [|by apply Hin]. apply orb_true_iff in E as [E%Nat.eqb_eq|E%Nat.eqb_eq].
    + apply nil_length_inv in E. rewrite E in Hg. by apply elem_of_nil in Hg.
    + apply filter_same_length in E. rewrite Forall_forall in E. by apply E.
  - destruct (filter (fun gid => gid <> id) (ScopeGroups rl)) as [|x l] eqn:Ef; apply list_scope_ok; cbn.
    + split_and!; [left|intros gid Hg; by apply elem_of_nil in Hg|done|]. rewrite !elem_of_cons, elem_of_nil. naive_solver.
    + split_and!; [done| |done|done]. intros gid Hg. rewrite <- Ef in Hg. apply list_elem_of_filter in Hg as [? ?]. apply list_elem_of_filter. split; [done|by apply Hin].
Qed.
Lemma prune_scope_fields id rl : rl_ID (prune_scope id rl) = rl_ID rl /\ rl_Outbound (prune_scope id rl) = rl_Outbound rl /\
  DownloadVia (prune_scope id rl) = DownloadVia rl /\ list_content unicode_upper (prune_scope id rl) = list_content unicode_upper rl.
Proof. unfold prune_scope. destruct (_ || _); [done|]. by destruct (filter _ _). Qed.
Lemma fmap_without {A} (f : A -> string) id l : f <$> without f id l = filter (fun x => x <> id) (f <$> l).
Proof. unfold without. induction l as [|x l IH]; [done|]. rewrite fmap_cons, !filter_cons. case_decide; [|done]. rewrite fmap_cons. by f_equal. Qed.
Lemma delete_devices_keeps id q q' : appliable q -> delete_devices id q = inr q' -> appliable q'.
Proof.
  intros Hq. unfold delete_devices. destruct (has_id dg_ID id (DeviceGroups q)); [|done]. intros [= <-]. set (q' := q <| DeviceGroups := _ |> <| RoutingLists := _ |>).
  assert (Hlids : rl_ID <$> RoutingLists q' = rl_ID <$> RoutingLists q).
  { cbn. change (map _ (RoutingLists q)) with (prune_scope id <$> RoutingLists q). rewrite <- list_fmap_compose. apply list_fmap_ext. intros _ rl _. cbn. apply prune_scope_fields. }
  destruct (ids_keep q q') as [Hids Hres]; [|apply Hq|apply Hq|].
  { unfold all_ids. rewrite Hlids. do 3 (apply submseteq_app; [done|]). apply submseteq_app; [apply submseteq_fmap_filter|done]. }
  destruct Hq as [_ _ He Hgr Hac Hru Hde Hdev Hli Hdns]. split; try done.
  - change (DeviceGroups q') with (without dg_ID id (DeviceGroups q)). by apply Forall_without.
  - cbn. apply Forall_fmap, Forall_forall. intros rl Hin. rewrite Forall_forall in Hli. destruct (Hli rl Hin) as (H1 & H2 & H3 & H4 & H5).
    destruct (prune_scope_fields id rl) as (E1 & E2 & E3 & E4). unfold compose, ValidateSpec.list_fine. rewrite E1, E2, E3, E4. split_and!; try done.
    cbn. rewrite fmap_without. by apply prune_scope_ok.
  - intros d Hdd. eapply (dns_live q); [by apply Hdns|done|done|]. intros r x _ _ _. unfold is_list. by rewrite Hlids.
Qed.

(** ** Reordering lists, and refreshing feeds *)
Lemma reorder_permutes q q' : appliable q -> q' = q <| RoutingLists := RoutingLists q' |> -> RoutingLists q' ≡ₚ RoutingLists q -> appliable q'.
Proof.
  intros Hq E Hp. set (l := RoutingLists q') in *. clearbody l. subst q'.
  assert (Hids' : all_ids (q <| RoutingLists := l |>) ⊆+ all_ids q).
  { unfold all_ids. repeat (apply submseteq_app; [done|]). cbn. by rewrite Hp. }
  destruct (ids_keep q _ Hids') as [Hids Hres]; [apply Hq|apply Hq|].
  destruct Hq as [_ _ He Hgr Hac Hru Hde Hdev Hli Hdns]. split; try done.
  - cbn. rewrite Hp. exact Hli.
  - intros d Hdd. eapply (dns_live q); [by apply Hdns|done|done|]. intros r x _ _ _. unfold is_list. cbn. by rewrite Hp.
Qed.
(** Lists whose feeds were refreshed. *)
Definition refreshed (rl rl' : RoutingList) : Prop :=
  rl_ID rl' = rl_ID rl /\ rl_Outbound rl' = rl_Outbound rl /\ DownloadVia rl' = DownloadVia rl /\
  (list_content unicode_upper rl = inr tt -> list_content unicode_upper rl' = inr tt) /\
  forall devs, list_scope devs rl' = list_scope devs rl.
Lemma refresh_keeps q l : appliable q -> Forall2 refreshed (RoutingLists q) l -> appliable (q <| RoutingLists := l |>).
Proof.
  intros Hq Hl. set (q' := q <| RoutingLists := l |>).
  assert (Hlids : rl_ID <$> RoutingLists q' = rl_ID <$> RoutingLists q).
  { symmetry. apply list_eq_Forall2, Forall2_fmap_2. eapply Forall2_impl; [exact Hl|]. by intros rl rl' [-> _]. }
  destruct (ids_keep q q') as [Hids Hres]; [|apply Hq|apply Hq|].
  { unfold all_ids. by rewrite Hlids. }
  destruct Hq as [_ _ He Hgr Hac Hru Hde Hdev Hli Hdns]. split; try done.
  - cbn. eapply Forall2_Forall_r; [exact Hl|]. eapply Forall_impl; [exact Hli|]. intros rl (H1 & H2 & H3 & H4 & H5) rl' (E1 & E2 & E3 & E4 & E5).
    unfold ValidateSpec.list_fine. rewrite E1, E2, E3, E5. split_and!; try done. by apply E4.
  - intros d Hdd. eapply (dns_live q); [by apply Hdns|done|done|]. intros r x _ _ _. unfold is_list. by rewrite Hlids.
Qed.

(** ** Moving and parking dependents

    [q'] is the profile after the dependents of [id] were moved or parked, its groups mapped by [F], and
    its connections changed only where they have that id. *)
Definition may_move (q : Profile) (id repl : string) : Prop :=
  repl <> id /\ trim repl = repl /\ NDMPolicyName repl = None /\
  (repl = OutboundDirect \/ (repl = OutboundBlock /\ forall s, s ∈ servers q -> ds_Detour s <> id) \/ live q repl).
Section others.
Context (q q' : Profile) (id : string) (F : Group -> list string).
Hypothesis Hq : appliable q.
Hypothesis Hlive : forall o, o <> id -> live q o -> live q' o.
Hypothesis Hfind : forall x, x <> id -> find_by ep_ID x (Endpoints q') = find_by ep_ID x (Endpoints q).
Hypothesis Heps : Forall (endpoint_fine unicode_lower proto_problem) (Endpoints q').
Hypothesis Hepids : ep_ID <$> Endpoints q' ⊆+ ep_ID <$> Endpoints q.
Hypothesis Hgroups : Groups q' = map (fun g => g <| gr_Members := F g |>) (Groups q).
Hypothesis Hmembers : forall g, g ∈ Groups q -> F g <> [] /\ forall m, m ∈ F g -> member_fine q' g m.
Hypothesis Hacyclic : forall x, ~ tc (nests q') x x.
Hypothesis Hdevs : DeviceGroups q' = DeviceGroups q.
Lemma vpn_serves_other proto x : x <> id -> vpn_serves (Endpoints q) proto x -> vpn_serves (Endpoints q') proto x.
Proof. intros Hn [H1 H2]. split; [done|]. unfold vpnResolverFault in *. by rewrite Hfind. Qed.
Lemma dns_enter d d' : DNS q = Some d -> dns_edit unicode_lower d d' -> NoDup (omap asked (dns_Servers d')) ->
  (forall x, is_list q x -> is_list q' x) ->
  (forall i s s', dns_Servers d !! i = Some s -> dns_Servers d' !! i = Some s' ->
    usesVPNResolvers unicode_lower s' id = false /\
    (ds_Endpoint s' = ds_Endpoint s \/ vpn_serves (Endpoints q') (ds_Type s) (trim (ds_Endpoint s'))) /\
    (detour_fine unicode_lower (live q) s -> detour_fine unicode_lower (live q') s')) ->
  dns_fine (live q') (is_list q') (Endpoints q') d'.
Proof.
  intros Hd He Ha Hl Hs. pose proof (ap_dns _ _ _ _ Hq d Hd) as Hdf. eapply dns_fine_edit; [exact Hdf|exact He|by intros ? x _ _ _; apply Hl| |exact Ha].
  apply Forall_forall. intros s' [i Hi]%list_elem_of_lookup. destruct (Forall2_lookup_r _ _ _ i s' (de_servers _ _ _ He) Hi) as (s & Hsi & Hse).
  pose proof (df_servers _ _ _ _ _ Hdf) as Hsf. rewrite Forall_forall in Hsf. specialize (Hsf s (list_elem_of_lookup_2 _ _ _ Hsi)).
  destruct (Hs i s s' Hsi Hi) as (Hu & Hep & Hdet). eapply server_fine_edit; [exact He|exact Hsf|done| |].
  - intros proto Hp Hon. destruct (vpn_type unicode_lower _ _ Hp) as [_ ->].
    destruct Hep as [E|E]; [|by rewrite (se_type _ _ _ Hse)].
    pose proof (uses_asks _ _ Hu _ Hp Hon) as Hn. apply vpn_serves_other; [done|]. rewrite E. rewrite (se_type _ _ _ Hse) in Hp |- *.
    apply Hsf; [done|by apply Hse].
  - intros Hn. apply Hdet. apply Hsf. unfold is_network in *. by rewrite <- (se_type _ _ _ Hse).
Qed.
Lemma appliable_enter : r_ID <$> Rules q' = r_ID <$> Rules q -> rl_ID <$> RoutingLists q' = rl_ID <$> RoutingLists q ->
  Forall (rule_fine q') (Rules q') -> Forall2 (fun r r' => catch_all r' = true -> catch_all r = true) (Rules q) (Rules q') ->
  Forall (list_fine q') (RoutingLists q') ->
  (forall d', DNS q' = Some d' -> dns_fine (live q') (is_list q') (Endpoints q') d') -> appliable q'.
Proof.
  intros Er El Hr Hc Hl Hd.
  assert (Hgs : gr_ID <$> Groups q' = gr_ID <$> Groups q) by (rewrite Hgroups; apply ids_of_members).
  destruct (ids_keep q q') as [Hids Hres]; [|apply Hq|apply Hq|].
  { unfold all_ids. rewrite Hgs, Er, El, Hdevs. by apply submseteq_app. }
  split; try done.
  - by apply (groups_keep q q' (Groups q) F), Hmembers; [|apply Hq].
  - etransitivity; [by apply defaults_keep|apply Hq].
  - rewrite Hdevs. apply Hq.
Qed.
Lemma is_list_same : rl_ID <$> RoutingLists q' = rl_ID <$> RoutingLists q -> forall x, is_list q x -> is_list q' x.
Proof. unfold is_list. by intros ->. Qed.

Section move.
Context (repl : string).
Hypothesis Hmove : may_move q id repl.
Hypothesis Hrules : Rules q' = map (fun r => r <| r_Outbound := moved id repl (r_Outbound r) |>) (Rules q).
Hypothesis Hlists : RoutingLists q' = map (fun rl => rl <| rl_Outbound := moved id repl (rl_Outbound rl) |>
                                                       <| DownloadVia := moved id repl (DownloadVia rl) |>) (RoutingLists q).
(** The plane moved with the connections as they were, or with the one that goes changed. *)
Context (q0 : Profile).
Hypothesis Hq0 : EndpointByID q0 repl = EndpointByID q repl.
Hypothesis Hdns : DNS q' = (fun d => each_server (move_resolver unicode_lower q0 id repl) (move_detours id repl d)) <$> DNS q.
Lemma repl_goes : goes q' repl.
Proof.
  destruct Hmove as (Hn & _ & _ & [->|[[-> _]|Hl]]); [by left|by left|right]. by apply Hlive.
Qed.
Lemma moved_goes o : goes q o -> goes q' (moved id repl o).
Proof.
  unfold moved. case_bool_decide as E; [intros _; apply repl_goes|]. apply goes_keep. by apply Hlive.
Qed.
Lemma moved_policy o : NDMPolicyName o = None -> NDMPolicyName (moved id repl o) = None.
Proof. unfold moved. case_bool_decide; [|done]. intros _. apply Hmove. Qed.
Lemma move_rules_fine : Forall (rule_fine q') (Rules q').
Proof.
  rewrite Hrules. apply Forall_fmap, Forall_forall. intros r Hin. pose proof (ap_rules _ _ _ _ Hq) as Hr. rewrite Forall_forall in Hr.
  destruct (Hr r Hin) as [H1 H2]. split; [done|]. intros Hd. destruct (H2 Hd) as (H3 & H4 & H5). split; [done|]. split; [by apply moved_policy|by apply moved_goes].
Qed.
Lemma move_lists_fine : Forall (list_fine q') (RoutingLists q').
Proof.
  rewrite Hlists. apply Forall_fmap, Forall_forall. intros rl Hin. pose proof (ap_lists _ _ _ _ Hq) as Hl. rewrite Forall_forall in Hl.
  destruct (Hl rl Hin) as (H1 & H2 & H3 & H4 & H5). split_and!; [done|done| |by rewrite Hdevs|].
  - change (target_fine unicode_lower q' (moved id repl (rl_Outbound rl))). unfold target_fine in *. unfold moved at 1.
    case_bool_decide as E.
    + destruct Hmove as (_ & _ & -> & _). unfold moved. rewrite bool_decide_true by done. apply repl_goes.
    + destruct (NDMPolicyName (rl_Outbound rl)); [done|by apply moved_goes].
  - change (moved id repl (DownloadVia rl) = "" \/ (NDMPolicyName (moved id repl (DownloadVia rl)) = None /\ goes q' (moved id repl (DownloadVia rl)))).
    destruct H5 as [E|[? ?]]; [|right; split; [by apply moved_policy|by apply moved_goes]]. rewrite E. unfold moved. case_bool_decide; [right|by left].
    split; [apply Hmove|apply repl_goes].
Qed.
Lemma moved_detour s : s ∈ servers q -> detour_fine unicode_lower (live q) s -> forall s', ds_Detour s' = moved id repl (ds_Detour s) -> detour_fine unicode_lower (live q') s'.
Proof.
  intros Hs Hd s' E. unfold detour_fine in *. rewrite E. unfold moved in *. case_bool_decide as Eid.
  - right. split; [|exact repl_goes]. intros Hb. destruct Hmove as (_ & _ & _ & [H|[[_ H]|H]]); [by rewrite H in Hb|by apply (H s)|].
    pose proof repl_goes as G. revert H. rewrite Hb. intros H.
    assert (Hin : OutboundBlock ∈ all_ids q).
    { apply in_all_ids. destruct H as [(e & He & <- & _)|H]; [left; by apply list_elem_of_fmap_2|by right; left]. }
    by destruct (ap_reserved _ _ _ _ Hq _ Hin).
  - destruct Hd as [?|[? [?|?]]]; [by left|right|right]; (split; [done|]); [by left|right; by apply Hlive].
Qed.
Lemma move_appliable : appliable q'.
Proof.
  assert (El : rl_ID <$> RoutingLists q' = rl_ID <$> RoutingLists q).
  { rewrite Hlists. change (map ?f (RoutingLists q)) with (f <$> RoutingLists q). by rewrite <- list_fmap_compose. }
  apply appliable_enter.
  - rewrite Hrules. change (map ?f (Rules q)) with (f <$> Rules q). by rewrite <- list_fmap_compose.
  - exact El.
  - apply move_rules_fine.
  - rewrite Hrules. apply Forall2_fmap_r, Forall_Forall2_diag, Forall_true. intros r H. exact H.
  - apply move_lists_fine.
  - intros d' Hd'. rewrite Hdns in Hd'. pose proof moved_detour as Hmd. pose proof dns_enter as Hent.
    destruct (DNS q) as [d|] eqn:Hd; [|done]. injection Hd' as <-.
    pose proof (ap_dns _ _ _ _ Hq d Hd) as Hdf. destruct Hmove as (Hne & Htrim & _).
    assert (Hty : forall s, s ∈ dns_Servers d -> ds_Type s ∈ validDNSServerTypes).
    { intros s Hs. pose proof (df_servers _ _ _ _ _ Hdf) as Hf. rewrite Forall_forall in Hf. by apply (Hf s). }
    destruct (moved_plane unicode_lower q0 id repl d (df_tags _ _ _ _ _ Hdf) (df_asked _ _ _ _ _ Hdf) Hty (conj Hne Htrim)) as [Me Ma Ms Md].
    set (d' := each_server _ _) in *. clearbody d'. apply (Hent d); [done|done|done|by apply is_list_same|].
    intros i s s' Hs Hs'. destruct (Forall2_lookup_lr _ _ _ _ _ _ Ms Hs Hs') as [Hdet Hep]. split_and!.
    + apply (Md i); [|done]. by eapply lookup_lt_Some.
    + destruct Hep as [?|[-> (e & He & Hon & Hen & Hpr)]]; [by left|right]. rewrite Htrim. rewrite Hq0 in He.
      split.
      * pose proof (ap_endpoints _ _ _ _ Hq) as Hf. rewrite Forall_forall in Hf. apply find_by_Some in He as [Hin <-]. by apply (Hf e Hin).
      * unfold vpnResolverFault. rewrite Hfind by done. unfold EndpointByID in He. rewrite He. cbn [snd].
        by rewrite Hpr, Hen, Hon, !bool_decide_true by done.
    + intros Hdf'. eapply Hmd; [|exact Hdf'|exact Hdet]. unfold servers. rewrite Hd. by eapply list_elem_of_lookup_2.
Qed.
End move.

Section park.
Hypothesis Hrules : Rules q' = map (park_rule id) (Rules q).
Hypothesis Hlists : RoutingLists q' = map (park_list id) (RoutingLists q).
Hypothesis Hdns : DNS q' = each_server (park_server unicode_lower id) <$> DNS q.
Lemma park_rules_fine : Forall (rule_fine q') (Rules q').
Proof.
  rewrite Hrules. apply Forall_fmap, Forall_forall. intros r Hin. pose proof (ap_rules _ _ _ _ Hq) as Hr. rewrite Forall_forall in Hr.
  unfold compose, park_rule. case_bool_decide as E; [split; [by apply (Hr r)|done]|]. eapply rule_keep; [|by apply Hr]. by apply Hlive.
Qed.
Lemma park_lists_fine : Forall (list_fine q') (RoutingLists q').
Proof.
  rewrite Hlists. apply Forall_fmap, Forall_forall. intros rl Hin. pose proof (ap_lists _ _ _ _ Hq) as Hl. rewrite Forall_forall in Hl.
  destruct (Hl rl Hin) as (H1 & H2 & H3 & H4 & H5). unfold compose, park_list.
  assert (H5' : DownloadVia rl <> id -> DownloadVia rl = "" \/ (NDMPolicyName (DownloadVia rl) = None /\ goes q' (DownloadVia rl))).
  { intros Hn. destruct H5 as [?|[? ?]]; [by left|right]. split; [done|]. eapply goes_keep; [|done]. by apply Hlive. }
  assert (H3' : rl_Outbound rl <> id -> target_fine unicode_lower q' (rl_Outbound rl)).
  { intros Hn. unfold target_fine in *. destruct (NDMPolicyName (rl_Outbound rl)); [done|]. eapply goes_keep; [|done]. by apply Hlive. }
  assert (Hdir : target_fine unicode_lower q' OutboundDirect) by by left.
  rewrite <- Hdevs in H4. case_bool_decide as E1; cbv zeta;
    [change (DownloadVia (rl <| rl_Outbound := OutboundDirect |> <| rl_Enabled := false |>)) with (DownloadVia rl)|]; case_bool_decide as E2;
    split_and!; try done; solve [by left|by apply H5'|by apply H3'].
Qed.
Lemma park_appliable : appliable q'.
Proof.
  assert (El : rl_ID <$> RoutingLists q' = rl_ID <$> RoutingLists q).
  { rewrite Hlists. change (map ?f (RoutingLists q)) with (f <$> RoutingLists q). rewrite <- list_fmap_compose. apply list_fmap_ext. intros _ rl _.
    unfold compose, park_list. by repeat case_bool_decide. }
  apply appliable_enter.
  - rewrite Hrules. change (map ?f (Rules q)) with (f <$> Rules q). rewrite <- list_fmap_compose. apply list_fmap_ext. intros _ r _.
    unfold compose, park_rule. by case_bool_decide.
  - exact El.
  - apply park_rules_fine.
  - rewrite Hrules. apply Forall2_fmap_r, Forall_Forall2_diag, Forall_true. intros r. unfold compose, park_rule. by case_bool_decide.
  - apply park_lists_fine.
  - intros d' Hd'. rewrite Hdns in Hd'. pose proof dns_enter as Hent. destruct (DNS q) as [d|] eqn:Hd; [|done]. injection Hd' as <-.
    pose proof (ap_dns _ _ _ _ Hq d Hd) as Hdf.
    destruct (parked_plane unicode_lower id d (df_tags _ _ _ _ _ Hdf) (df_asked _ _ _ _ _ Hdf)) as [Pe Pa Ps Pd].
    set (d' := each_server _ _) in *. clearbody d'. apply (Hent d); [done|done|done|by apply is_list_same|].
    intros i s s' Hs Hs'. destruct (Ps i s s' Hs Hs') as [Hep Hdet]. pose proof (lookup_lt_Some _ _ _ Hs) as Hlt.
    rewrite bool_decide_true in Hdet by done. split_and!; [by apply (Pd i)|by left|].
    unfold detour_fine. rewrite Hdet. unfold moved. case_bool_decide; [by left|].
    intros [?|[? [?|?]]]; [by left|right|right]; (split; [done|]); [by left|right; by apply Hlive].
Qed.
End park.
End others.

(** ** Deleting a connection with its dependents *)
Lemma pruned_members q q' id : appliable q -> (forall o, o <> id -> live q o -> live q' o) ->
  (forall g, g ∈ Groups q -> onlyMember (gr_Members g) id = false) ->
  forall g, g ∈ Groups q -> removeString (gr_Members g) id <> [] /\ forall m, m ∈ removeString (gr_Members g) id -> member_fine q' g m.
Proof.
  intros Hq Hl Ho g Hin. pose proof (ap_groups _ _ _ _ Hq) as Hg. rewrite Forall_forall in Hg. destruct (Hg g Hin) as (_ & _ & Hne & Hf).
  split; [by apply removeString_nil, Ho|]. intros m [Hm Hmi]%removeString_elem. rewrite Forall_forall in Hf.
  destruct (Hf m Hmi) as [?|(? & ? & ?)]; [by left|right]. split_and!; [done|done|by apply Hl].
Qed.
Lemma detach_keeps id q q' : appliable q -> detach unicode_lower id q = inr q' -> appliable q'.
Proof.
  intros Hq. unfold detach, drop_endpoint. rewrite seq_inr, for_all_refuse. intros [Hg H].
  change (Endpoints (parkDependents unicode_lower id q)) with (Endpoints q) in H. destruct (has_id ep_ID id (Endpoints q)); [|done]. injection H as <-.
  set (q' := prune id _).
  assert (Hlive : forall o, o <> id -> live q o -> live q' o) by (intros o; apply live_without; [done|apply ids_of_members]).
  apply (park_appliable q q' id (fun g => removeString (gr_Members g) id)); try done.
  - intros x Hx. by apply find_without.
  - change (Endpoints q') with (without ep_ID id (Endpoints q)). apply Forall_without, Hq.
  - apply submseteq_fmap_filter.
  - by apply pruned_members.
  - eapply (acyclic_keep q); [|apply Hq]. apply (nests_members q q' (Groups q) (fun g => removeString (gr_Members g) id)); [done|done|].
    by intros g m _ [_ ?]%removeString_elem _.
Qed.
Lemma endpoint_by_id q id e : EndpointByID q id = Some e -> id ∈ ep_ID <$> Endpoints q.
Proof. intros [Hin <-]%find_by_Some. by apply list_elem_of_fmap_2. Qed.
Lemma may_move_live q id repl : appliable q -> may_move q id repl -> repl ∈ ep_ID <$> Endpoints q \/ repl ∈ gr_ID <$> Groups q -> 
  live q repl /\ repl <> OutboundBlock.
Proof.
  intros Hq (_ & _ & _ & H) Hin. assert (Ha : repl ∈ all_ids q) by (apply in_all_ids; tauto).
  destruct (ap_reserved _ _ _ _ Hq _ Ha) as [Hd Hb]. destruct H as [?|[[? _]|?]]; done.
Qed.
Lemma delete_replacing_keeps id repl q q' : appliable q -> may_move q id repl -> delete_replacing unicode_lower id repl q = inr q' -> appliable q'.
Proof.
  intros Hq Hmove. unfold delete_replacing, drop_endpoint. rewrite !seq_inr, for_all_refuse. intros (_ & Hg & H).
  change (Endpoints (repointDependents unicode_lower id repl q)) with (Endpoints q) in H. destruct (has_id ep_ID id (Endpoints q)) eqn:Hid; [|done]. cbn [mbind err_bind] in H. injection H as <-.
  set (F := fun g => match removeString (gr_Members g) id with [] => if bool_decide (is_Some (EndpointByID q repl)) then [repl] else [] | ms => ms end).
  set (q' := map_members _ _).
  assert (Hlive : forall o, o <> id -> live q o -> live q' o) by (intros o; apply live_without; [done|apply ids_of_members]).
  assert (HF : forall g m, g ∈ Groups q -> m ∈ F g -> m ∈ removeString (gr_Members g) id \/ (m = repl /\ repl ∈ ep_ID <$> Endpoints q)).
  { intros g m _. unfold F. destruct (removeString (gr_Members g) id) as [|x l]; [|by left]. case_bool_decide as E; [|by intros ?%elem_of_nil].
    intros ->%list_elem_of_singleton. right. split; [done|]. destruct E as [e E]. by eapply endpoint_by_id. }
  apply (move_appliable q q' id F) with (repl := repl) (q0 := move_lists id repl (move_rules id repl q)); try done.
  - intros x Hx. by apply find_without.
  - change (Endpoints q') with (without ep_ID id (Endpoints q)). apply Forall_without, Hq.
  - apply submseteq_fmap_filter.
  - intros g Hin. split.
    + unfold F. destruct (removeString (gr_Members g) id) eqn:E; [|done]. specialize (Hg g Hin).
      pose proof (ap_groups _ _ _ _ Hq) as Hgr. rewrite Forall_forall in Hgr. destruct (Hgr g Hin) as (_ & _ & Hne & _).
      destruct (onlyMember (gr_Members g) id) eqn:Eo; [|by destruct (removeString_nil (gr_Members g) id Hne Eo)].
      cbn in Hg. apply negb_false_iff in Hg. by rewrite Hg.
    + intros m Hm. destruct (HF g m Hin Hm) as [[Hn Hmi]%removeString_elem|[-> He]].
      * pose proof (ap_groups _ _ _ _ Hq) as Hgr. rewrite Forall_forall in Hgr. destruct (Hgr g Hin) as (_ & _ & _ & Hf). rewrite Forall_forall in Hf.
        destruct (Hf m Hmi) as [?|(? & ? & ?)]; [by left|right]. split_and!; [done|done|by apply Hlive].
      * right. destruct (may_move_live q id repl Hq Hmove (or_introl He)) as [Hl Hb]. split_and!; [done| |apply Hlive; [apply Hmove|done]].
        intros E. destruct (endpoint_id q repl Hq He) as (_ & _ & Hng & _). apply Hng. rewrite E. by apply list_elem_of_fmap_2.
  - eapply (acyclic_keep q); [|apply Hq]. apply (nests_members q q' (Groups q) F); [done|done|].
    intros g m Hin Hm Hgm. destruct (HF g m Hin Hm) as [[_ ?]%removeString_elem|[-> He]]; [done|].
    by destruct (endpoint_id q repl Hq He) as (_ & _ & Hng & _).
Qed.

(** ** Switching a connection off with its dependents *)
Lemma put_first_ids {A} (f : A -> string) x l : f <$> put_first f x l = f <$> l.
Proof. induction l as [|y l IH]; [done|]. cbn [put_first]. case_bool_decide as E; rewrite !fmap_cons; [by rewrite E|by rewrite IH]. Qed.
Lemma put_first_in {A} (f : A -> string) x l y : y ∈ put_first f x l -> y = x \/ y ∈ l.
Proof.
  induction l as [|z l IH]; cbn [put_first]; [by intros ?%elem_of_nil|]. case_bool_decide; rewrite !elem_of_cons; naive_solver.
Qed.
Lemma put_first_other {A} (f : A -> string) x l y : y ∈ l -> f y <> f x -> y ∈ put_first f x l.
Proof.
  induction l as [|z l IH]; [done|]. cbn [put_first]. rewrite elem_of_cons. intros Hy Hn. case_bool_decide as E; rewrite elem_of_cons; [|naive_solver].
  destruct Hy as [->|?]; [done|by right].
Qed.
Lemma find_put_first {A} (f : A -> string) x l z : z <> f x -> find_by f z (put_first f x l) = find_by f z l.
Proof.
  intros Hn. induction l as [|y l IH]; [done|]. cbn [put_first]. case_bool_decide as E; cbn [find_by].
  - by rewrite E, bool_decide_false.
  - by rewrite IH.
Qed.
Lemma live_put q q' e o : Endpoints q' = put_first ep_ID e (Endpoints q) -> gr_ID <$> Groups q' = gr_ID <$> Groups q -> o <> ep_ID e ->
  live q o -> live q' o.
Proof.
  intros E G Hn [(x & Hx & <- & Hon)|Hg]; [left|right; by rewrite G]. exists x. split; [|done]. rewrite E. by apply put_first_other.
Qed.
Lemma put_fine q e : appliable q -> endpoint_fine unicode_lower proto_problem e ->
  Forall (endpoint_fine unicode_lower proto_problem) (put_first ep_ID e (Endpoints q)).
Proof.
  intros Hq He. apply Forall_forall. intros y [->|Hy]%put_first_in; [done|]. pose proof (ap_endpoints _ _ _ _ Hq) as Hf. rewrite Forall_forall in Hf. by apply Hf.
Qed.
Lemma disable_detaching_keeps e q q' : appliable q -> endpoint_fine unicode_lower proto_problem (stored e) ->
  disable_detaching unicode_lower e q = inr q' -> appliable q'.
Proof.
  intros Hq He. unfold disable_detaching, putEndpoint. rewrite seq_inr, for_all_refuse. intros [Hg H].
  destruct (has_id ep_ID (ep_ID (stored e)) (Endpoints q)); [|done]. injection H as <-. set (q' := prune _ _).
  assert (Hlive : forall o, o <> ep_ID e -> live q o -> live q' o) by (intros o; apply (live_put q q' (stored e)); [done|apply ids_of_members]).
  apply (park_appliable q q' (ep_ID e) (fun g => removeString (gr_Members g) (ep_ID e))); try done.
  - intros x Hx. by apply (find_put_first ep_ID (stored e)).
  - by apply put_fine.
  - change (Endpoints q') with (put_first ep_ID (stored e) (Endpoints q)). by rewrite put_first_ids.
  - by apply pruned_members.
  - eapply (acyclic_keep q); [|apply Hq]. apply (nests_members q q' (Groups q) (fun g => removeString (gr_Members g) (ep_ID e))); [done|done|].
    by intros g m _ [_ ?]%removeString_elem _.
Qed.
(** A group of groups put in the place of one that does not reach it makes no cycle. *)
Lemma acyclic_replace (R R' : relation string) (H : string -> Prop) r : (forall x, ~ tc R x x) ->
  (forall a b, R' a b -> R a b \/ (H a /\ b = r)) -> (forall a, rtc R r a -> ~ H a) -> forall x, ~ tc R' x x.
Proof.
  intros Hac Hstep Hr.
  assert (Hin : forall a b, rtc R r a -> R' a b -> R a b).
  { intros a b Ha Hab. destruct (Hstep a b Hab) as [?|[Hh _]]; [done|by destruct (Hr a Ha)]. }
  assert (Hpath : forall a b, tc R' a b -> tc R a b \/ (exists h, H h /\ rtc R' h b) /\ rtc R r b).
  { intros a b Hab. induction Hab as [a b Hab|a b c Hab Hbc IH].
    - destruct (Hstep a b Hab) as [?|[Hh ->]]; [left; by apply tc_once|right]. split; [|reflexivity]. exists a. split; [done|]. by apply rtc_once.
    - destruct IH as [IH|[(h & Hh & Hhc) Hrc]].
      + destruct (Hstep a b Hab) as [?|[Hh ->]]; [left; by eapply tc_l|right]. split; [exists a; split; [done|]|by apply tc_rtc].
        eapply rtc_l; [exact Hab|]. by apply tc_rtc.
      + right. split; [by exists h|done]. }
  intros x Hx. destruct (Hpath x x Hx) as [?|[_ Hrx]]; [by apply (Hac x)|].
  assert (Hclosed : forall a b, tc R' a b -> rtc R r a -> tc R a b /\ rtc R r b).
  { intros a b Hab. induction Hab as [a b Hab|a b c Hab Hbc IH]; intros Ha.
    - pose proof (Hin a b Ha Hab) as Hr'. split; [by apply tc_once|by eapply rtc_r].
    - pose proof (Hin a b Ha Hab) as Hr'. destruct IH as [H1 H2]; [by eapply rtc_r|]. split; [by eapply tc_l|done]. }
  destruct (Hclosed x x Hx Hrx) as [? _]. by apply (Hac x).
Qed.
Lemma group_by_id q g : appliable q -> g ∈ Groups q -> GroupByID q (gr_ID g) = Some g.
Proof.
  intros Hq Hin. pose proof (ap_ids _ _ _ _ Hq) as Hnd. unfold all_ids in Hnd. apply NoDup_app in Hnd as (_ & _ & Hnd). apply NoDup_app in Hnd as (Hnd & _).
  unfold GroupByID. destruct (find_by gr_ID (gr_ID g) (Groups q)) as [g'|] eqn:E.
  - apply find_by_Some in E as [Hin' Hid]. f_equal. apply list_elem_of_lookup in Hin as [i Hi], Hin' as [j Hj].
    assert (i = j) as ->; [|congruence]. apply (NoDup_lookup _ i j (gr_ID g)) in Hnd; [done| |]; rewrite list_lookup_fmap; [by rewrite Hi|rewrite Hj; cbn; congruence].
  - apply find_by_None in E. exfalso. apply E. by apply list_elem_of_fmap_2.
Qed.
Lemma disable_replacing_keeps e repl q q' : appliable q -> endpoint_fine unicode_lower proto_problem (stored e) -> may_move q (ep_ID e) repl ->
  disable_replacing unicode_lower e repl q = inr q' -> appliable q'.
Proof.
  intros Hq He Hmove. unfold disable_replacing, putEndpoint. rewrite seq_inr. intros [_ H].
  destruct (has_id ep_ID (ep_ID (stored e)) (Endpoints q)) eqn:Hid; [|done]. cbn [mbind err_bind] in H.
  set (q1 := q <| Endpoints := _ |>) in H. rewrite !seq_inr, refuse_ok, for_all_refuse in H. destruct H as (Hreach & Hmem & [= <-]).
  set (F := fun g => if containsString (gr_Members g) (ep_ID e) then replaceString (gr_Members g) (ep_ID e) repl else gr_Members g).
  set (q2 := map_members _ q1). set (q' := repointDependents _ _ _ q2).
  assert (Hne : repl <> ep_ID e) by apply Hmove.
  assert (Heid : ep_ID e ∈ ep_ID <$> Endpoints q) by (unfold has_id in Hid; by apply bool_decide_eq_true in Hid).
  assert (Hlive : forall o, o <> ep_ID e -> live q o -> live q' o) by (intros o; apply (live_put q q' (stored e)); [done|apply ids_of_members]).
  assert (Hby : EndpointByID q1 repl = EndpointByID q repl) by (by apply (find_put_first ep_ID (stored e))).
  (* a group that holds the connection gets a connection or a group in its place *)
  assert (Hheld : forall g, g ∈ Groups q -> ep_ID e ∈ gr_Members g -> live q repl /\ repl <> OutboundBlock).
  { intros g Hin Hm. specialize (Hmem g Hin). apply containsString_ok in Hm. rewrite Hm in Hmem. cbn [andb] in Hmem. apply negb_false_iff in Hmem.
    rewrite Hby in Hmem. apply may_move_live with (id := ep_ID e); [done|done|]. apply orb_true_iff in Hmem as [[x Hx]%bool_decide_eq_true|[x Hx]%bool_decide_eq_true].
    - left. by eapply endpoint_by_id.
    - right. apply GroupByID_ID in Hx as [? <-]. by apply list_elem_of_fmap_2. }
  assert (HF : forall g m, g ∈ Groups q -> m ∈ F g -> (m <> ep_ID e /\ m ∈ gr_Members g) \/ (ep_ID e ∈ gr_Members g /\ m = repl)).
  { intros g m _. unfold F. destruct (containsString (gr_Members g) (ep_ID e)) eqn:Ec.
    - rewrite replaceString_elem. naive_solver.
    - intros Hm. left. split; [|done]. intros ->. by apply containsString_ok in Hm; rewrite Ec in Hm. }
  assert (Hcyc : forall a, rtc (nests q) repl a -> ~ (exists g, g ∈ Groups q /\ gr_ID g = a /\ ep_ID e ∈ gr_Members g)).
  { intros a Ha (g & Hin & <- & Hm). apply not_true_iff_false in Hreach. apply Hreach, groupReaches_ok.
    assert (Hstep : forall g m, g ∈ Groups q -> m ∈ gr_Members g -> holds q1 (gr_ID g) m).
    { intros g0 m0 Hg0 Hm0. exists g0. split; [by apply (group_by_id q)|done]. }
    assert (Hall : forall a b, rtc (nests q) a b -> rtc (holds q1) a b).
    { intros x y Hxy. induction Hxy as [x|x y z (g0 & Hg0 & <- & Hm0 & _) _ IH]; [done|]. eapply rtc_l; [by apply Hstep|done]. }
    eapply tc_rtc_l; [by apply Hall|]. apply tc_once. by apply Hstep. }
  apply (move_appliable q q' (ep_ID e) F) with (repl := repl) (q0 := move_lists (ep_ID e) repl (move_rules (ep_ID e) repl q2)); try done.
  - intros x Hx. by apply (find_put_first ep_ID (stored e)).
  - by apply put_fine.
  - change (Endpoints q') with (put_first ep_ID (stored e) (Endpoints q)). by rewrite put_first_ids.
  - intros g Hin. pose proof (ap_groups _ _ _ _ Hq) as Hgr. rewrite Forall_forall in Hgr. destruct (Hgr g Hin) as (_ & _ & Hnn & Hf). rewrite Forall_forall in Hf. split.
    + unfold F. destruct (containsString (gr_Members g) (ep_ID e)) eqn:Ec; [|done]. apply containsString_ok in Ec. intros Hnil.
      assert (Hr : repl ∈ replaceString (gr_Members g) (ep_ID e) repl) by (apply replaceString_elem; by right). rewrite Hnil in Hr. by apply elem_of_nil in Hr.
    + intros m Hm. destruct (HF g m Hin Hm) as [[Hn Hmi]|[Hh ->]].
      * destruct (Hf m Hmi) as [?|(? & ? & ?)]; [by left|right]. split_and!; [done|done|by apply Hlive].
      * destruct (Hheld g Hin Hh) as [Hl Hb]. right. split_and!; [done| |by apply Hlive]. intros E. apply (Hcyc repl (reflexivity repl)). by exists g.
  - apply (acyclic_replace (nests q) (nests q') (fun a => exists g, g ∈ Groups q /\ gr_ID g = a /\ ep_ID e ∈ gr_Members g) repl); [apply Hq| |exact Hcyc].
    intros a b (g' & Hg' & Ha & Hb & Hin). change (Groups q') with (map (fun g => g <| gr_Members := F g |>) (Groups q)) in Hg', Hin.
    rewrite ids_of_members in Hin. apply list_elem_of_fmap in Hg' as (g & -> & Hg). destruct (HF g b Hg Hb) as [[_ Hm]|[Hh ->]].
    + left. by exists g.
    + right. split; [by exists g|done].
Qed.
End keeps.
