(* ===== verification/StoreHistory.v ===== *)
(** * The store over time

    Every write of the store as one step ([op], [step]), and what holds over any sequence of them: the
    file and the published profile are one, a refused write changes nothing, the generation names the
    profile, and so a conditional write never loses what was published since it was read. *)
From S2P Require Import Prelude GoStrings Model Faults Dns Validate Store.
Local Open Scope Z_scope.

(** The writes, each with its arguments and with whether the file can be written then. *)
Inductive op :=
| OReplace (q : Profile) | OReconcile (fn : Profile -> bool * Profile)
| OUpsertEndpointAt (e : Endpoint) (rev : Rev) | OUpsertEndpoints (eps : list Endpoint)
| OUpsertEndpointsIfGen (eps : list Endpoint) (wantGen : Z) | ODeleteEndpoint (id : string)
| ODeleteEndpointReplacing (id repl : string) | ODetachEndpointDependents (id : string)
| OSetEndpointDisabledReplacingAt (e : Endpoint) (repl : string) (rev : Rev) | OSetEndpointDisabledDetachingAt (e : Endpoint) (rev : Rev)
| OUpsertGroupAt (g : Group) (rev : Rev) | ODeleteGroup (id : string)
| OUpsertRule (r : Rule) | ODeleteRule (id : string)
| OUpsertRoutingListAt (rl : RoutingList) (rev : Rev) | OSetRoutingListCache (now : Z) (id : string) (cidrs : list string)
| OSetRoutingListCaches (now : Z) (caches : gmap string CacheUpdate) | ODeleteRoutingList (id : string)
| OReorderRoutingLists (ids : list string)
| OUpsertDeviceGroup (g : DeviceGroup) | ODeleteDeviceGroup (id : string)
| OSetDNS (dns : option DNSSettings) | OSetDNSIfGen (dns : option DNSSettings) (wantGen : Z).

Section history.
Context (unicode_lower unicode_upper : bytes -> bytes) (unicode_fold : bytes -> bytes -> bool)
  (proto_problem : Endpoint -> option string)
  (endpoint_hash : Endpoint -> string) (group_hash : Group -> string) (list_hash : RoutingList -> string).
#[local] Notation "f '!'" := (f unicode_lower unicode_upper proto_problem) (at level 1, only parsing).

(** A write: the error it reports, and the store after it. *)
Definition step (wrote : bool) (o : op) (s : Store) : option store_err * Store :=
  match o with
  | OReplace q => Replace ! wrote q s
  | OReconcile fn => Reconcile ! wrote fn s
  | OUpsertEndpointAt e rev => just_err (UpsertEndpointAt ! endpoint_hash wrote e rev s)
  | OUpsertEndpoints eps => let '(_, e, s) := UpsertEndpoints ! wrote eps s in (e, s)
  | OUpsertEndpointsIfGen eps g => let '(_, e, s) := UpsertEndpointsIfGen ! wrote eps g s in (e, s)
  | ODeleteEndpoint id => DeleteEndpoint ! wrote id s
  | ODeleteEndpointReplacing id repl => DeleteEndpointReplacing ! wrote id repl s
  | ODetachEndpointDependents id => DetachEndpointDependents ! wrote id s
  | OSetEndpointDisabledReplacingAt e repl rev => just_err (SetEndpointDisabledReplacingAt ! endpoint_hash wrote e repl rev s)
  | OSetEndpointDisabledDetachingAt e rev => just_err (SetEndpointDisabledDetachingAt ! endpoint_hash wrote e rev s)
  | OUpsertGroupAt g rev => just_err (UpsertGroupAt ! group_hash wrote g rev s)
  | ODeleteGroup id => DeleteGroup ! wrote id s
  | OUpsertRule r => UpsertRule ! wrote r s
  | ODeleteRule id => DeleteRule ! wrote id s
  | OUpsertRoutingListAt rl rev => just_err (UpsertRoutingListAt unicode_lower unicode_upper unicode_fold proto_problem list_hash wrote rl rev s)
  | OSetRoutingListCache now id cidrs => SetRoutingListCache ! wrote now id cidrs s
  | OSetRoutingListCaches now caches => let '(_, e, s) := SetRoutingListCaches ! wrote now caches s in (e, s)
  | ODeleteRoutingList id => DeleteRoutingList ! wrote id s
  | OReorderRoutingLists ids => ReorderRoutingLists ! wrote ids s
  | OUpsertDeviceGroup g => UpsertDeviceGroup ! wrote g s
  | ODeleteDeviceGroup id => DeleteDeviceGroup ! wrote id s
  | OSetDNS d => SetDNS ! wrote d s
  | OSetDNSIfGen d g => let '(_, e, s) := SetDNSIfGen ! wrote d g s in (e, s)
  end.
Definition run (s : Store) (l : list (bool * op)) : Store := foldl (fun s x => snd (step (fst x) (snd x) s)) s l.

(** ** What a step can do *)
Definition install (q : Profile) (s : Store) : Store := mkStore (Some (mkPublished q (uint64 (Gen s + 1)))) (Some q).
(** Nothing was changed, or [q] was published and written. *)
Inductive effect (s : Store) : option store_err * Store -> Prop :=
| refuses e : effect s (Some e, s)
| spares : effect s (None, s)
| publishes q : breaks ! s q = None -> newlyStrandedResolvers (cur s) q = None -> effect s (None, install q s).
Lemma publish_effect wrote q s : effect s (publish ! wrote q s).
Proof.
  unfold publish. destruct (breaks _ _ _ s q) eqn:E1; [constructor|]. destruct (newlyStrandedResolvers (cur s) q) eqn:E2; [constructor|].
  unfold persist. destruct wrote; [|constructor]. exact (publishes s q E1 E2).
Qed.
Lemma commit_effect wrote edit s : effect s (commit ! wrote edit s).
Proof. destruct edit; [constructor|apply publish_effect]. Qed.
Lemma commit_at_effect wrote rev was now edit s : effect s (just_err (commit_at ! wrote rev was now edit s)).
Proof.
  unfold commit_at, just_err. destruct (checkRev _ _ _); [constructor|]. pose proof (commit_effect wrote edit s) as H.
  destruct (commit _ _ _ wrote edit s) as [[e|] s']; exact H.
Qed.
Lemma step_effect wrote o s : effect s (step wrote o s).
Proof.
  destruct o; cbn [step].
  - unfold Replace. destruct (Validate _ _ _ q); [constructor|apply publish_effect].
  - unfold Reconcile. destruct (fn (snapshot s)) as [[] q]; [apply publish_effect|constructor].
  - unfold UpsertEndpointAt. case_bool_decide; [constructor|apply commit_at_effect].
  - unfold UpsertEndpoints, upsertEndpoints. destruct (length eps =? 0)%nat; [constructor|]. cbn [andb].
    destruct (batch eps (Endpoints (snapshot s))) as [l sk]. destruct (publish _ _ _ _ _ _) eqn:E. rewrite <- E. apply publish_effect.
  - unfold UpsertEndpointsIfGen, upsertEndpoints. destruct (length eps =? 0)%nat; [constructor|]. destruct (true && negb (Gen s =? wantGen)); [constructor|].
    destruct (batch eps (Endpoints (snapshot s))) as [l sk]. destruct (publish _ _ _ _ _ _) eqn:E. rewrite <- E. apply publish_effect.
  - apply commit_effect.
  - unfold DeleteEndpointReplacing. case_bool_decide; [apply commit_effect|]. case_bool_decide; [constructor|apply commit_effect].
  - apply commit_effect.
  - unfold SetEndpointDisabledReplacingAt, disable_at. do 3 (case_bool_decide; [constructor|]).
    destruct (commit_at _ _ _ _ _ _ _ _ _) as [[sv e'] s'] eqn:E. change (effect s (just_err ((sv, e'), s'))). rewrite <- E. apply commit_at_effect.
  - unfold SetEndpointDisabledDetachingAt, disable_at. case_bool_decide; [constructor|].
    destruct (commit_at _ _ _ _ _ _ _ _ _) as [[sv e'] s'] eqn:E. change (effect s (just_err ((sv, e'), s'))). rewrite <- E. apply commit_at_effect.
  - unfold UpsertGroupAt. case_bool_decide; [constructor|apply commit_at_effect].
  - apply commit_effect.
  - unfold UpsertRule. case_bool_decide; [constructor|apply publish_effect].
  - apply commit_effect.
  - unfold UpsertRoutingListAt. case_bool_decide; [constructor|apply commit_at_effect].
  - unfold SetRoutingListCache. destruct (has_id _ _ _); [apply publish_effect|constructor].
  - unfold SetRoutingListCaches. case_bool_decide; [constructor|]. destruct (_ =? 0)%nat; [constructor|].
    destruct (publish _ _ _ _ _ _) eqn:E. rewrite <- E. apply publish_effect.
  - apply commit_effect.
  - apply commit_effect.
  - unfold UpsertDeviceGroup. case_bool_decide; [constructor|apply publish_effect].
  - apply commit_effect.
  - apply publish_effect.
  - unfold SetDNSIfGen, SetDNS. destruct (negb _); [constructor|]. destruct (publish _ _ _ _ _ _) eqn:E. rewrite <- E. apply publish_effect.
Qed.

(** ** Over a history *)
(** [n] profiles were published on the way. *)
Inductive evolves (s : Store) : nat -> Store -> Prop :=
| evolves_0 : evolves s 0 s
| evolves_S n s' q : evolves s n s' -> evolves s (S n) (install q s').
Lemma run_evolves s l : exists n, (n <= length l)%nat /\ evolves s n (run s l).
Proof.
  induction l as [|[w o] l IH] using rev_ind; [exists 0%nat; split; [done|constructor]|].
  destruct IH as (n & Hn & H). unfold run. rewrite foldl_snoc. cbn [fst snd]. fold (run s l). rewrite length_app. cbn [length].
  pose proof (step_effect w o (run s l)) as He. destruct (step w o (run s l)) as [e s'] eqn:E. cbn [snd].
  inversion He; subst; [exists n; split; [lia|done]|exists n; split; [lia|done]|]. exists (S n). split; [lia|by constructor].
Qed.
Lemma uint64_range z : 0 <= uint64 z < 2 ^ 64.
Proof. apply Z.mod_pos_bound. lia. Qed.
Lemma evolves_gen s n s' : evolves s n s' -> 0 <= Gen s < 2 ^ 64 -> Gen s' = uint64 (Gen s + Z.of_nat n).
Proof.
  intros H Hg. induction H as [|n s' q H IH]; [unfold uint64; rewrite Z.mod_small by lia; lia|].
  cbn [install Gen cur gen]. rewrite IH. unfold uint64. rewrite Zplus_mod_idemp_l. f_equal. lia.
Qed.
Lemma same_gen s n s' : evolves s n s' -> 0 <= Gen s < 2 ^ 64 -> Z.of_nat n < 2 ^ 64 -> Gen s' = Gen s -> s' = s.
Proof.
  intros H Hg Hn E. rewrite (evolves_gen s n s') in E by done. unfold uint64 in E.
  assert (n = 0%nat) as ->; [|by inversion H]. destruct n as [|n]; [done|exfalso].
  destruct (Z.lt_ge_cases (Gen s + Z.of_nat (S n)) (2 ^ 64)); [rewrite Z.mod_small in E; lia|].
  rewrite <- (Z.mod_add _ (-1)), Z.mod_small in E by lia. lia.
Qed.

(** An opened store: what is published is what the file holds, under a generation of 64 bits. *)
Definition opened (s : Store) : Prop := exists q g, s = mkStore (Some (mkPublished q g)) (Some q) /\ 0 <= g < 2 ^ 64.
Lemma Open_opened random d s : Open random true d = Some (None, s) -> opened s.
Proof.
  assert (H : 0 <= startGen random < 2 ^ 64).
  { unfold startGen. rewrite Z.shiftr_div_pow2 by lia. pose proof (uint64_range random). split; [apply Z.div_pos; lia|].
    apply Z.div_lt_upper_bound; lia. }
  destruct d; cbn; intros E; simplify_eq; eexists _, _; done.
Qed.
Lemma evolves_opened s n s' : evolves s n s' -> opened s -> opened s'.
Proof.
  intros H Ho. destruct H as [|n s' q]; [done|]. eexists q, _. split; [reflexivity|]. apply uint64_range.
Qed.

(** C29: the generation names the profile. Over any history of writes, whatever they are and whichever of
    them fail, the published profile is the one in the file; a write that reports an error has changed
    neither; and between two moments less than 2^64 writes apart, an unchanged generation means that
    nothing was published in between. *)
Theorem generation_names_profile random d s l l' : Open random true d = Some (None, s) -> Z.of_nat (length l') < 2 ^ 64 ->
  file (run s l) = Some (CurrentProfile (run s l)) /\
  (forall w o e s', step w o (run s l) = (Some e, s') -> s' = run s l) /\
  (Gen (run s (l ++ l')) = Gen (run s l) -> run s (l ++ l') = run s l).
Proof.
  intros Ho Hl. destruct (run_evolves s l) as (n & _ & Hn).
  assert (Ho' : opened (run s l)) by (eapply evolves_opened; [done|by eapply Open_opened]). split_and!.
  - destruct Ho' as (q & g & -> & _). done.
  - intros w o e s' E. pose proof (step_effect w o (run s l)) as He. rewrite E in He. by inversion He.
  - destruct (run_evolves (run s l) l') as (m & Hm & Hev). unfold run. rewrite foldl_app. fold (run s l). fold (run (run s l) l').
    destruct Ho' as (q & g & E & Hg). apply (same_gen _ m); [done|by rewrite E|lia].
Qed.

(** A conditional write loses no update. A client reads the profile and its generation; other writes
    happen, fewer than 2^64; then the client's write of the DNS plane, or of a batch of connections, made
    at the generation it read, is accepted only if the store is exactly as the client read it. *)
Theorem conditional_write_loses_nothing random d s l l' q g :
  Open random true d = Some (None, s) -> Z.of_nat (length l') < 2 ^ 64 -> Snapshot (run s l) = (q, g) ->
  let now := run (run s l) l' in
  (forall w dns s', step w (OSetDNSIfGen dns g) now = (None, s') -> CurrentProfile now = q) /\
  (forall w eps s', eps <> [] -> step w (OUpsertEndpointsIfGen eps g) now = (None, s') -> CurrentProfile now = q).
Proof.
  intros Ho Hl Hs now. destruct (run_evolves s l) as (n & _ & Hn).
  assert (Ho' : opened (run s l)) by (eapply evolves_opened; [done|by eapply Open_opened]).
  destruct (run_evolves (run s l) l') as (m & Hm & Hev). fold now in Hev.
  destruct Ho' as (q0 & g0 & E0 & Hg). unfold Snapshot in Hs. rewrite E0 in Hs. cbn in Hs. injection Hs as -> ->.
  assert (Hsame : Gen now = g -> CurrentProfile now = q).
  { intros E. rewrite (same_gen (run s l) m now); [by rewrite E0|done|by rewrite E0|lia|by rewrite E, E0]. }
  split.
  - intros w dns s'. cbn [step]. unfold SetDNSIfGen. destruct (Z.eqb_spec (Gen now) g) as [E|]; [intros _; by apply Hsame|done].
  - intros w eps s' Hne. cbn [step]. unfold UpsertEndpointsIfGen, upsertEndpoints. destruct eps; [done|]. cbn [length Nat.eqb andb].
    destruct (Z.eqb_spec (Gen now) g) as [E|]; [intros _; by apply Hsame|done].
Qed.
End history.

(** ** A history *)
Definition sample_history : list (bool * op) :=
  [(true, OUpsertRule (zero_rule <| r_ID := "r" |>)); (false, ODeleteRule "r"); (true, ODeleteRule "none")].
Definition blank_store : Store := mkStore (Some (mkPublished zero_profile 0)) (Some zero_profile).
Abbreviation sampled f := (f (fun b => b) (fun b => b) (fun _ _ => false) (fun _ => None) ep_ID gr_ID rl_ID) (only parsing).
Lemma generation_names_profile_witness : Open 0 true Blank = Some (None, blank_store) /\
  Gen (sampled run blank_store sample_history) = 1 /\
  file (sampled run blank_store sample_history) = Some (CurrentProfile (sampled run blank_store sample_history)) /\
  (Gen (sampled run blank_store (sample_history ++ [(false, ODeleteRule "r")])) = Gen (sampled run blank_store sample_history) ->
   sampled run blank_store (sample_history ++ [(false, ODeleteRule "r")]) = sampled run blank_store sample_history).
Proof.
  split; [reflexivity|]. split; [by vm_compute|].
  destruct (generation_names_profile (fun b => b) (fun b => b) (fun _ _ => false) (fun _ => None) ep_ID gr_ID rl_ID 0 Blank blank_store
    sample_history [(false, ODeleteRule "r")]) as (H1 & _ & H2); [reflexivity|done|]. by split.
Defined.
Lemma conditional_write_loses_nothing_witness :
  exists s', sampled step true (OSetDNSIfGen None 1) (sampled run blank_store sample_history) = (None, s') /\
  CurrentProfile (sampled run (sampled run blank_store (take 1 sample_history)) (drop 1 sample_history)) =
  CurrentProfile (sampled run blank_store (take 1 sample_history)).
Proof.
  eexists. split; [by vm_compute|].
  destruct (conditional_write_loses_nothing (fun b => b) (fun b => b) (fun _ _ => false) (fun _ => None) ep_ID gr_ID rl_ID 0 Blank blank_store
    (take 1 sample_history) (drop 1 sample_history) (CurrentProfile (sampled run blank_store (take 1 sample_history))) 1) as [H _]; [reflexivity|done|by vm_compute|].
  eapply (H true None). by vm_compute.
Defined.
