(* ===== verification/StoreTheorems.v ===== *)
(** * The profile store: what it promises

    Over the definitions of [Store] and [StoreHistory]: guarded writes keep the profile
    one that can be applied, the lists of blockers are the refusals, a reorder is a permutation, and
    what a write made at a revision or at a generation may overwrite. *)
From S2P Require Import Prelude GoStrings GoText Model Faults Dns Validate ValidateSpec Store StoreKeeps.
From S2P Require Import StoreHistory.
Local Open Scope Z_scope.

(** ** Reordering *)
Lemma list_index_at l n i : list_index l !! n = Some i -> exists rl, l !! i = Some rl /\ rl_ID rl = n.
Proof.
  unfold list_index. induction l as [|x l IH] using rev_ind; [done|]. rewrite imap_app, foldl_app. cbn. rewrite Nat.add_0_r.
  rewrite lookup_insert_Some. intros [[<- <-]|[_ H]].
  - exists x. by rewrite lookup_app_r, Nat.sub_diag by lia.
  - destruct (IH H) as (rl & Hl & Hn). exists rl. split; [by apply lookup_app_l_Some|done].
Qed.
Lemma list_index_has l n : n ∈ rl_ID <$> l -> is_Some (list_index l !! n).
Proof.
  unfold list_index. induction l as [|x l IH] using rev_ind; [by intros ?%elem_of_nil|]. rewrite fmap_app, imap_app, foldl_app, elem_of_app.
  cbn. rewrite list_elem_of_singleton. destruct (decide (rl_ID x = n)) as [->|Hn]; [by rewrite lookup_insert_eq|].
  rewrite lookup_insert_ne by done. intros [H|H]; [by apply IH|by subst].
Qed.
Lemma reorder_ok l seen want out : reorder (list_index l) l seen want = inr out <->
  (NoDup want /\ (forall id, id ∈ want -> (id ∉ seen) /\ id ∈ rl_ID <$> l)) /\
  out = map (fun id => default zero_list (list_index l !! id ≫= fun i => l !! i)) want.
Proof.
  revert seen out. induction want as [|id want IH]; intros seen out; cbn [reorder map].
  - split; [intros [= <-]|by intros [_ ->]]. split; [|done]. split; [constructor|by intros ? ?%elem_of_nil].
  - destruct (list_index l !! id) as [i|] eqn:E.
    + assert (Hin : id ∈ rl_ID <$> l).
      { apply list_index_at in E as (rl & Hl & <-). apply list_elem_of_fmap_2. by eapply list_elem_of_lookup_2. }
      case_bool_decide as Hs.
      * split; [done|]. intros [[_ H] _]. destruct (H id); [left|done].
      * rewrite bind_inr. setoid_rewrite IH. rewrite NoDup_cons. setoid_rewrite elem_of_cons. cbn [mbind option_bind]. split.
        -- intros (o & [[Hnd H] ->] & [= <-]). split; [|done]. split; [split; [|done]|].
           ++ intros Hi. destruct (H id Hi). set_solver.
           ++ intros x [->|Hx]; [done|]. destruct (H x Hx). split; [set_solver|done].
        -- intros [[[Hn Hnd] H] ->]. eexists. split; [split; [|reflexivity]|done]. split; [done|].
           intros x Hx. destruct (H x (or_intror Hx)) as [H1 H2]. split; [|exact H2].
           rewrite not_elem_of_union, not_elem_of_singleton. split; [by intros ->|exact H1].
    + split; [done|]. intros [[_ H] _]. destruct (H id) as [_ Hin]; [left|]. apply list_index_has in Hin. rewrite E in Hin. by destruct Hin.
Qed.

Lemma reordered q want : NoDup (rl_ID <$> RoutingLists q) ->
  ((exists q', reorder_lists want q = inr q') <-> want ≡ₚ rl_ID <$> RoutingLists q) /\
  (forall q', reorder_lists want q = inr q' ->
     q' = q <| RoutingLists := RoutingLists q' |> /\ rl_ID <$> RoutingLists q' = want /\ RoutingLists q' ≡ₚ RoutingLists q).
Proof.
  intros Hnd. set (l := RoutingLists q).
  assert (Hat : forall id, id ∈ rl_ID <$> l -> exists rl, default zero_list (list_index l !! id ≫= fun i => l !! i) = rl /\ rl ∈ l /\ rl_ID rl = id).
  { intros id Hid. destruct (list_index_has l id Hid) as [i E]. destruct (list_index_at l id i E) as (rl & Hl & Hn).
    exists rl. rewrite E. cbn. rewrite Hl. split_and!; [done|by eapply list_elem_of_lookup_2|done]. }
  assert (Hids : forall k, (forall id, id ∈ k -> id ∈ rl_ID <$> l) ->
    rl_ID <$> map (fun id => default zero_list (list_index l !! id ≫= fun i => l !! i)) k = k).
  { induction k as [|id k IH]; intros Hk; [done|]. cbn [map]. rewrite fmap_cons, IH by (intros x Hx; apply Hk; by right).
    destruct (Hat id) as (rl & -> & _ & ->); [apply Hk; left|done]. }
  assert (Hrun : forall q', reorder_lists want q = inr q' <-> (length want = length l /\ NoDup want /\ forall id, id ∈ want -> id ∈ rl_ID <$> l) /\
    q' = q <| RoutingLists := map (fun id => default zero_list (list_index l !! id ≫= fun i => l !! i)) want |>).
  { intros q'. unfold reorder_lists. fold l. rewrite seq_inr, refuse_ok, negb_false_iff, Nat.eqb_eq, bind_inr. setoid_rewrite reorder_ok.
    split; [intros (Hlen & out & [[H1 H2] ->] & [= <-])|intros [(Hlen & H1 & H2) ->]].
    - split; [|done]. split_and!; [done|done|]. intros id Hid. by apply H2.
    - split; [done|]. eexists. split; [split; [|reflexivity]|done]. split; [done|]. intros id Hid. split; [set_solver|by apply H2]. }
  assert (Hperm : length want = length l /\ NoDup want /\ (forall id, id ∈ want -> id ∈ rl_ID <$> l) <-> want ≡ₚ rl_ID <$> l).
  { split; [intros (Hlen & Hw & Hin)|intros Hp].
    - apply submseteq_length_Permutation; [by apply NoDup_submseteq|]. rewrite length_fmap. lia.
    - split_and!; [rewrite <- (length_fmap rl_ID); by rewrite Hp|by rewrite Hp|intros id; by rewrite Hp]. }
  split; [rewrite <- Hperm; setoid_rewrite Hrun; split; [intros (q' & H & _); exact H|intros H; eexists; split; [exact H|reflexivity]]|].
  intros q' [[Hw H] ->]%Hrun. destruct H as (Hn & Hin). cbn. split_and!; [done|by apply Hids|].
  apply submseteq_length_Permutation; [|rewrite length_map; lia]. apply NoDup_submseteq.
  - apply (NoDup_fmap_1 rl_ID). by rewrite Hids.
  - intros x Hx. apply list_elem_of_In, in_map_iff in Hx as (id & <- & Hid). apply list_elem_of_In, Hin, Hat in Hid. by destruct Hid as (rl & -> & ? & _).
Qed.
(** The panel's new order is taken exactly when it is a reordering. With the lists' ids distinct, an
    order is accepted if and only if it names every list once, and the result is then the same lists, no
    one of them changed, in that order. *)
Theorem reorder_is_a_permutation q want : NoDup (rl_ID <$> RoutingLists q) ->
  ((exists q', reorder_lists want q = inr q') <-> want ≡ₚ rl_ID <$> RoutingLists q) /\
  (forall q', reorder_lists want q = inr q' ->
     q' = q <| RoutingLists := RoutingLists q' |> /\ rl_ID <$> RoutingLists q' = want /\ RoutingLists q' ≡ₚ RoutingLists q).
Proof. apply reordered. Qed.

Section theorems.
Context (unicode_lower unicode_upper : bytes -> bytes) (unicode_fold : bytes -> bytes -> bool)
  (proto_problem : Endpoint -> option string).
Abbreviation Validate := (Validate unicode_lower unicode_upper proto_problem).
Abbreviation publish := (publish unicode_lower unicode_upper proto_problem).
Abbreviation commit := (commit unicode_lower unicode_upper proto_problem).
Abbreviation appliable := (appliable unicode_lower unicode_upper proto_problem).

(** ** What a write leaves published *)
Lemma publish_profile w q s : CurrentProfile (publish w q s).2 = CurrentProfile s \/ CurrentProfile (publish w q s).2 = q.
Proof.
  unfold Store.publish. destruct (breaks _ _ _ s q); [by left|]. destruct (newlyStrandedResolvers (cur s) q); [by left|].
  destruct w; [by right|by left].
Qed.
Lemma commit_profile w edit s : CurrentProfile (commit w edit s).2 = CurrentProfile s \/ (exists q, edit = inr q /\ CurrentProfile (commit w edit s).2 = q).
Proof.
  destruct edit as [e|q]; [by left|]. cbn [Store.commit]. destruct (publish_profile w q s) as [?|?]; [by left|right]. by exists q.
Qed.
Lemma commit_at_profile w rev was now edit s : let r := commit_at unicode_lower unicode_upper proto_problem w rev was now edit s in
  CurrentProfile r.2 = CurrentProfile s \/ (exists q, edit = inr q /\ CurrentProfile r.2 = q).
Proof.
  cbn. unfold commit_at. destruct (checkRev _ _ _); [by left|]. pose proof (commit_profile w edit s) as H.
  destruct (commit w edit s) as [[e|] s']; exact H.
Qed.

(** ** Refreshing the feeds *)
Lemma cached_content rl : list_content unicode_upper rl = inr tt <->
  ~ (Source rl = "" /\ Manual rl = [] /\ CIDRSource rl = "" /\ CIDRCache rl = [] /\ DomainSource rl = "" /\ DomainCache rl = []) /\
  (negb (bool_decide (CIDRSource rl = "")) && negb (validCIDRSource unicode_upper (CIDRSource rl)) = false) /\
  (negb (bool_decide (DomainSource rl = "")) && negb (HasPrefix (DomainSource rl) "https://") && negb (HasPrefix (DomainSource rl) "http://") = false).
Proof.
  unfold list_content. rewrite !seq_inr, !refuse_ok. apply and_iff_compat_r.
  rewrite <- not_true_iff_false, !andb_true_iff, !bool_decide_eq_true, !Nat.eqb_eq, !length_zero_iff_nil. tauto.
Qed.
Lemma refreshed_refl rl : refreshed unicode_upper rl rl.
Proof. split_and!; auto. Qed.
Lemma refreshed_cidrs rl c t : CIDRSource rl <> "" \/ c <> [] -> refreshed unicode_upper rl (rl <| CIDRCache := c |> <| CIDRRefreshed := t |>).
Proof.
  intros Hc. split_and!; [reflexivity..| |reflexivity]. rewrite !cached_content. destruct rl; cbn in *. intros (_ & H2 & H3).
  split_and!; [clear H2 H3; naive_solver|exact H2|exact H3].
Qed.
Lemma refreshed_domains rl c t : DomainSource rl <> "" -> refreshed unicode_upper rl (rl <| DomainCache := c |> <| DomainRefreshed := t |>).
Proof.
  intros Hc. split_and!; [reflexivity..| |reflexivity]. rewrite !cached_content. destruct rl; cbn in *. intros (_ & H2 & H3).
  split_and!; [clear H2 H3; naive_solver|exact H2|exact H3].
Qed.
Lemma refreshed_trans a b c : refreshed unicode_upper a b -> refreshed unicode_upper b c -> refreshed unicode_upper a c.
Proof.
  intros (A1 & A2 & A3 & A4 & A5) (B1 & B2 & B3 & B4 & B5). split_and!; [congruence..|auto|]. intros devs. by rewrite B5, A5.
Qed.
Lemma fed_source (a b : string) : negb (bool_decide (a = "")) && bool_decide (b = a) = true -> b <> "".
Proof. rewrite andb_true_iff, negb_true_iff, bool_decide_eq_false, bool_decide_eq_true. by intros [? ->]. Qed.
Lemma set_caches_refreshed now caches rl : refreshed unicode_upper rl (fst (set_caches now caches rl)).
Proof.
  unfold set_caches. destruct (caches !! rl_ID rl) as [up|]; [|apply refreshed_refl]. cbn [fst].
  set (c := negb (bool_decide (u_Source up = "")) && _). eapply (refreshed_trans _ (if c then rl <| CIDRCache := CIDRs up |> <| CIDRRefreshed := now |> else rl)).
  - destruct c eqn:E; [|apply refreshed_refl]. apply refreshed_cidrs. left. by eapply fed_source.
  - set (rl1 := if c then _ else _). clearbody rl1. clear c. destruct (_ && _) eqn:E; [|apply refreshed_refl]. apply refreshed_domains. by eapply fed_source.
Qed.
Lemma set_cache_refreshed now id cidrs l : cidrs <> [] ->
  Forall2 (refreshed unicode_upper) l (alter_first rl_ID id (fun rl => rl <| CIDRCache := cidrs |> <| CIDRRefreshed := now |>) l).
Proof.
  intros Hc. assert (Hr : forall l, Forall2 (refreshed unicode_upper) l l) by (intros k; apply Forall_Forall2_diag, Forall_true, refreshed_refl).
  induction l as [|rl l IH]; [constructor|]. cbn [alter_first]. case_bool_decide; constructor; [|apply Hr|apply refreshed_refl|exact IH].
  apply refreshed_cidrs. by right.
Qed.

(** ** Blockers *)
Lemma map_filter_nil {A B} (f : A -> B) (P : A -> Prop) `{!forall x, Decision (P x)} l : map f (filter P l) = [] <-> forall x, x ∈ l -> ~ P x.
Proof.
  assert (E : map f (filter P l) = [] <-> filter P l = []) by (destruct (filter P l); naive_solver). rewrite E. clear E. split.
  - intros E x Hx Hp. assert (Hf : x ∈ filter P l) by by apply list_elem_of_filter. rewrite E in Hf. by apply elem_of_nil in Hf.
  - intros Hn. destruct (filter P l) as [|x k] eqn:E; [done|exfalso]. assert (Hx : x ∈ filter P l) by (rewrite E; left).
    apply list_elem_of_filter in Hx as [Hp Hx]. by apply (Hn x).
Qed.
Lemma concat_map_nil {A B} (f : A -> list B) l : concat (map f l) = [] <-> forall x, x ∈ l -> f x = [].
Proof.
  induction l as [|x l IH]; cbn; [split; [by intros _ x ?%elem_of_nil|done]|]. rewrite app_nil, IH. setoid_rewrite elem_of_cons. naive_solver.
Qed.
Lemma ite_nil {A} (b : bool) (x : A) : (if b then [x] else []) = [] <-> b = false.
Proof. destruct b; naive_solver. Qed.
Lemma list_dependents_nil id rl : list_dependents id rl = [] <-> rl_Outbound rl <> id /\ DownloadVia rl <> id.
Proof. unfold list_dependents. by rewrite app_nil_iff, !ite_nil, !bool_decide_eq_false. Qed.
Lemma server_dependents_nil id ds : server_dependents unicode_lower id ds = [] <->
  ds_Detour ds <> id /\ usesVPNResolvers unicode_lower ds id = false.
Proof. unfold server_dependents. by rewrite app_nil_iff, !ite_nil, bool_decide_eq_false. Qed.
Lemma dependents_nil id q : EndpointDependents unicode_lower id q = [] <->
  (forall r, r ∈ Rules q -> r_Outbound r <> id) /\
  (forall rl, rl ∈ RoutingLists q -> rl_Outbound rl <> id /\ DownloadVia rl <> id) /\
  (forall ds, ds ∈ servers q -> ds_Detour ds <> id /\ usesVPNResolvers unicode_lower ds id = false) /\
  (forall g, g ∈ Groups q -> onlyMember (gr_Members g) id = false).
Proof.
  unfold EndpointDependents, rule_dependents. rewrite !app_nil_iff, !map_filter_nil, !concat_map_nil.
  setoid_rewrite list_dependents_nil. setoid_rewrite server_dependents_nil. setoid_rewrite not_true_iff_false. done.
Qed.

(** ** Moving and parking leave nothing behind *)
Lemma moved_away id repl o : repl <> id -> moved id repl o <> id.
Proof. unfold moved. by case_bool_decide. Qed.
Lemma servers_moved q q0 id repl : appliable q -> repl <> id -> trim repl = repl ->
  forall ds, ds ∈ servers (on_dns (fun d => each_server (move_resolver unicode_lower q0 id repl) (move_detours id repl d)) q) ->
  ds_Detour ds <> id /\ usesVPNResolvers unicode_lower ds id = false.
Proof.
  intros Hq Hn Ht ds. unfold servers, on_dns. cbn [DNS set]. destruct (DNS q) as [d|] eqn:Hd; cbn; [|by intros ?%elem_of_nil].
  pose proof (ap_dns _ _ _ _ Hq d Hd) as Hdf.
  assert (Hty : forall s, s ∈ dns_Servers d -> ds_Type s ∈ validDNSServerTypes).
  { intros s Hs. pose proof (df_servers _ _ _ _ _ Hdf) as Hf. rewrite Forall_forall in Hf. by apply (Hf s). }
  destruct (moved_plane unicode_lower q0 id repl d (df_tags _ _ _ _ _ Hdf) (df_asked _ _ _ _ _ Hdf) Hty (conj Hn Ht)) as [_ _ Ms Md].
  intros [i Hi]%list_elem_of_lookup. destruct (Forall2_lookup_r _ _ _ i ds Ms Hi) as (s & Hs & [-> _]). split; [by apply moved_away|].
  apply (Md i); [|done]. by eapply lookup_lt_Some.
Qed.
Lemma servers_parked q id : appliable q -> id <> "" ->
  forall ds, ds ∈ servers (on_dns (each_server (park_server unicode_lower id)) q) ->
  ds_Detour ds <> id /\ usesVPNResolvers unicode_lower ds id = false.
Proof.
  intros Hq Hn ds. unfold servers, on_dns. cbn [DNS set]. destruct (DNS q) as [d|] eqn:Hd; cbn; [|by intros ?%elem_of_nil].
  pose proof (ap_dns _ _ _ _ Hq d Hd) as Hdf.
  destruct (parked_plane unicode_lower id d (df_tags _ _ _ _ _ Hdf) (df_asked _ _ _ _ _ Hdf)) as [Pe _ Ps Pd].
  intros [i Hi]%list_elem_of_lookup. destruct (Forall2_lookup_r _ _ _ i ds (de_servers _ _ _ Pe) Hi) as (s & Hs & _).
  pose proof (lookup_lt_Some _ _ _ Hs) as Hlt. destruct (Ps i s ds Hs Hi) as [_ Hdet]. rewrite bool_decide_true in Hdet by done.
  split; [rewrite Hdet; by apply moved_away|by apply (Pd i)].
Qed.
Lemma in_moved_rules id repl q r : repl <> id -> r ∈ Rules (move_rules id repl q) -> r_Outbound r <> id.
Proof. intros Hn (r0 & -> & _)%list_elem_of_fmap. by apply moved_away. Qed.
Lemma in_moved_lists id repl q rl : repl <> id -> rl ∈ RoutingLists (move_lists id repl q) -> rl_Outbound rl <> id /\ DownloadVia rl <> id.
Proof. intros Hn (r0 & -> & _)%list_elem_of_fmap. split; by apply moved_away. Qed.
Lemma repointed id repl q q0 : appliable q0 -> DNS q = DNS q0 -> repl <> id -> trim repl = repl ->
  let q' := repointDependents unicode_lower id repl q in
  (forall r, r ∈ Rules q' -> r_Outbound r <> id) /\
  (forall rl, rl ∈ RoutingLists q' -> rl_Outbound rl <> id /\ DownloadVia rl <> id) /\
  (forall ds, ds ∈ servers q' -> ds_Detour ds <> id /\ usesVPNResolvers unicode_lower ds id = false).
Proof.
  intros Hq E Hn Ht. cbv zeta. split_and!.
  - intros r. by apply in_moved_rules.
  - intros rl. by apply in_moved_lists.
  - intros ds. unfold repointDependents, servers, on_dns. cbn. rewrite E. by apply servers_moved.
Qed.
Lemma parked_away id q q' : appliable q -> id ∈ ep_ID <$> Endpoints q -> (forall g, g ∈ Groups q' -> onlyMember (gr_Members g) id = false) ->
  Rules q' = map (park_rule id) (Rules q) -> RoutingLists q' = map (park_list id) (RoutingLists q) ->
  DNS q' = each_server (park_server unicode_lower id) <$> DNS q -> EndpointDependents unicode_lower id q' = [].
Proof.
  intros Hq Hid Hg Hr Hl Hd. destruct (endpoint_id _ _ _ q id Hq Hid) as (Hne & _ & _ & Hdir). apply dependents_nil. split_and!.
  - rewrite Hr. intros r (r0 & -> & _)%list_elem_of_fmap. unfold park_rule. case_bool_decide; [by intros ?|done].
  - rewrite Hl. intros rl (r0 & -> & _)%list_elem_of_fmap. unfold park_list. 
    case_bool_decide; cbn; case_bool_decide; cbn; by split.
  - unfold servers. rewrite Hd. intros ds Hds. apply (servers_parked q id Hq); [done|]. exact Hds.
  - exact Hg.
Qed.
Lemma only_gone id ms : (id ∉ ms) -> onlyMember ms id = false.
Proof.
  intros H. apply not_true_iff_false. rewrite onlyMember_ok. intros [Hne Ho]. destruct ms as [|m ms]; [done|]. apply H. rewrite <- (Ho m); left.
Qed.
Lemma removed ms id : id ∉ removeString ms id.
Proof. rewrite removeString_elem. by intros [? _]. Qed.
Lemma in_members F gs (P : list string -> Prop) : (forall g, g ∈ gs -> P (F g)) ->
  forall g, g ∈ map (fun g => g <| gr_Members := F g |>) gs -> P (gr_Members g).
Proof. intros H g (g0 & -> & Hg)%list_elem_of_fmap. by apply H. Qed.
Lemma unheld id q : EndpointDependents unicode_lower id q = [] -> (forall g, g ∈ Groups q -> id ∉ gr_Members g) ->
  EndpointDisableBlockers unicode_lower id q = [].
Proof.
  intros E H. unfold EndpointDisableBlockers. rewrite E. cbn. apply map_filter_nil. intros g Hg [Hc _]. apply containsString_ok in Hc. by apply (H g).
Qed.

(** C24: what leaves takes every reference with it. A delete that moves the dependents, a delete that
    parks them, and the two ways of switching a connection off leave no rule, list, download, resolver,
    detour or group pointing at the connection: the lists the panel would show of them are empty. *)
Theorem nothing_is_left_behind id repl e q q' : appliable q ->
  (repl <> id -> trim repl = repl -> delete_replacing unicode_lower id repl q = inr q' -> EndpointDisableBlockers unicode_lower id q' = []) /\
  (detach unicode_lower id q = inr q' -> EndpointDisableBlockers unicode_lower id q' = []) /\
  (repl <> ep_ID e -> trim repl = repl -> disable_replacing unicode_lower e repl q = inr q' -> EndpointDisableBlockers unicode_lower (ep_ID e) q' = []) /\
  (disable_detaching unicode_lower e q = inr q' -> EndpointDisableBlockers unicode_lower (ep_ID e) q' = []).
Proof.
  intros Hq. split_and!.
  - intros Hn Ht. unfold delete_replacing, drop_endpoint. rewrite !seq_inr. intros (_ & _ & H).
    destruct (has_id _ _ _); [|done]. injection H as <-.
    assert (Hm : forall g, g ∈ Groups q -> id ∉ match removeString (gr_Members g) id with [] => if bool_decide (is_Some (EndpointByID q repl)) then [repl] else [] | ms => ms end).
    { intros g _. pose proof (removed (gr_Members g) id) as Hr. destruct (removeString (gr_Members g) id); [|done].
      case_bool_decide; [by intros ?%list_elem_of_singleton|apply not_elem_of_nil]. }
    pose proof (in_members _ _ (fun ms => id ∉ ms) Hm) as Hg. apply unheld; [|exact Hg].
    destruct (repointed id repl q q Hq eq_refl Hn Ht) as (H1 & H2 & H3).
    apply dependents_nil. split_and!; [exact H1|exact H2|exact H3|]. intros g Hin. by apply only_gone, Hg.
  - unfold detach, drop_endpoint. rewrite !seq_inr. intros (_ & H). change (Endpoints (parkDependents unicode_lower id q)) with (Endpoints q) in H.
    unfold has_id in H. case_bool_decide as Hid; [|done]. injection H as <-.
    pose proof (in_members (fun g => removeString (gr_Members g) id) (Groups q) (fun ms => id ∉ ms) (fun g _ => removed _ _)) as Hg.
    apply unheld; [|exact Hg]. apply (parked_away id q); [done|done| |done|done|done]. intros g Hin. by apply only_gone, Hg.
  - intros Hn Ht. unfold disable_replacing, putEndpoint. rewrite seq_inr. intros (_ & H).
    destruct (has_id _ _ _); [|done]. cbn [mbind err_bind] in H. rewrite !seq_inr in H. destruct H as (_ & _ & H). injection H as <-.
    assert (Hm : forall g, g ∈ Groups q -> ep_ID e ∉ (if containsString (gr_Members g) (ep_ID e) then replaceString (gr_Members g) (ep_ID e) repl else gr_Members g)).
    { intros g _. destruct (containsString _ _) eqn:Ec; [rewrite replaceString_elem; naive_solver|]. rewrite <- containsString_ok. by rewrite Ec. }
    pose proof (in_members _ _ (fun ms => ep_ID e ∉ ms) Hm) as Hg. apply unheld; [|exact Hg].
    set (q1 := map_members _ _). destruct (repointed (ep_ID e) repl q1 q Hq eq_refl Hn Ht) as (H1 & H2 & H3).
    apply dependents_nil. split_and!; [exact H1|exact H2|exact H3|]. intros g Hin. by apply only_gone, Hg.
  - unfold disable_detaching, putEndpoint. rewrite seq_inr. intros (_ & H). unfold has_id in H. case_bool_decide as Hid; [|done]. injection H as <-.
    pose proof (in_members (fun g => removeString (gr_Members g) (ep_ID e)) (Groups q) (fun ms => ep_ID e ∉ ms) (fun g _ => removed _ _)) as Hg.
    apply unheld; [|exact Hg]. apply (parked_away (ep_ID e) q); [done|exact Hid| |done|done|done]. intros g Hin. by apply only_gone, Hg.
Qed.

(** What the panel lists as blockers is what refuses. A connection is deleted exactly when it exists
    and the list of its dependents is empty; a group, exactly when it exists and its own list of blockers
    is empty. *)
Theorem blockers_are_refusals id q :
  ((exists q', delete_endpoint unicode_lower id q = inr q') <-> EndpointDependents unicode_lower id q = [] /\ id ∈ ep_ID <$> Endpoints q) /\
  ((exists q', delete_group id q = inr q') <-> GroupDeleteBlockers id q = [] /\ id ∈ gr_ID <$> Groups q).
Proof.
  split.
  - rewrite dependents_nil. unfold delete_endpoint, drop_endpoint. setoid_rewrite seq_inr. setoid_rewrite seq_inr. setoid_rewrite seq_inr. setoid_rewrite seq_inr.
    setoid_rewrite rules_avoid. setoid_rewrite lists_avoid. setoid_rewrite for_all_refuse. setoid_rewrite orb_false_iff. setoid_rewrite bool_decide_eq_false.
    unfold has_id. case_bool_decide as H; cbn; naive_solver.
  - unfold GroupDeleteBlockers, rule_dependents. rewrite !app_nil_iff, !map_filter_nil. unfold delete_group.
    setoid_rewrite seq_inr. setoid_rewrite seq_inr. setoid_rewrite seq_inr. setoid_rewrite seq_inr.
    setoid_rewrite rules_avoid. setoid_rewrite lists_avoid. setoid_rewrite for_all_refuse. setoid_rewrite andb_false_iff.
    setoid_rewrite negb_false_iff. setoid_rewrite bool_decide_eq_true. setoid_rewrite bool_decide_eq_false.
    setoid_rewrite <- not_true_iff_false. unfold has_id. case_bool_decide as H.
    + split; [intros (q' & H1 & H2 & H3 & H4 & _)|intros [(H1 & H2 & H3 & H4) _]].
      * split_and!; try done; [intros g Hg [Hn Ho]; by destruct (H2 g Hg)|intros rl Hrl [?|?]; by destruct (H3 rl Hrl)].
      * eexists. split_and!; try done; [|intros rl Hrl; split; intros E; apply (H3 rl Hrl); auto].
        intros g Hg. destruct (decide (gr_ID g = id)) as [|Hn]; [by left|right]. intros Ho. by apply (H2 g Hg).
    + split; [by intros (q' & _ & _ & _ & _ & ?)|by intros [_ ?]].
Qed.
Section guarded.
Context (endpoint_hash : Endpoint -> string) (group_hash : Group -> string) (list_hash : RoutingList -> string).
Abbreviation step := (step unicode_lower unicode_upper unicode_fold proto_problem endpoint_hash group_hash list_hash).
Abbreviation run := (run unicode_lower unicode_upper unicode_fold proto_problem endpoint_hash group_hash list_hash).

(** ** Guarded writes

    The writes whose edits keep references whole: the deletes, the moves and parkings, the reorder, the
    feeds' refreshes. A replacement is a connection or group that is on, or [direct], or [block] where no
    DNS server has to move; a connection that is switched off is otherwise fine. *)
Definition guarded (q : Profile) (o : op) : Prop :=
  match o with
  | ODeleteEndpoint _ | ODetachEndpointDependents _ | ODeleteGroup _ | ODeleteRule _ | ODeleteRoutingList _
  | OReorderRoutingLists _ | ODeleteDeviceGroup _ | OSetRoutingListCaches _ _ => True
  | ODeleteEndpointReplacing id repl => repl = "" \/ may_move q id repl
  | OSetEndpointDisabledReplacingAt e repl _ => endpoint_fine unicode_lower proto_problem (stored e) /\ may_move q (ep_ID e) repl
  | OSetEndpointDisabledDetachingAt e _ => endpoint_fine unicode_lower proto_problem (stored e)
  | OSetRoutingListCache _ _ cidrs => cidrs <> []
  | _ => False
  end.
Fixpoint all_guarded (s : Store) (l : list (bool * op)) : Prop :=
  match l with
  | [] => True
  | x :: l => guarded (CurrentProfile s) (snd x) /\ all_guarded (snd (step (fst x) (snd x) s)) l
  end.

(** ** Guarded writes keep the profile appliable *)
Lemma write_keeps (q : store_err + Profile) (s r : Store) : appliable (CurrentProfile s) -> (forall q', q = inr q' -> appliable q') ->
  CurrentProfile r = CurrentProfile s \/ (exists q', q = inr q' /\ CurrentProfile r = q') -> appliable (CurrentProfile r).
Proof. intros Hs Hq [->|(q' & E & ->)]; [done|by apply Hq]. Qed.
Lemma commit_keeps w edit s : appliable (CurrentProfile s) -> (forall q, edit = inr q -> appliable q) -> appliable (CurrentProfile (commit w edit s).2).
Proof. intros Hs Hq. eapply write_keeps; [exact Hs|exact Hq|apply commit_profile]. Qed.
Lemma publish_keeps w q s : appliable (CurrentProfile s) -> appliable q -> appliable (CurrentProfile (publish w q s).2).
Proof. intros Hs Hq. by destruct (publish_profile w q s) as [-> | ->]. Qed.
Lemma disable_keeps w e rev edit s : appliable (CurrentProfile s) -> (forall q, edit = inr q -> appliable q) ->
  appliable (CurrentProfile (disable_at unicode_lower unicode_upper proto_problem endpoint_hash w e rev edit s).2).
Proof.
  intros Hs Hq. unfold disable_at. pose proof (commit_at_profile w rev (endpoint_hash <$> EndpointByID (snapshot s) (ep_ID e)) (endpoint_hash e) edit s) as H.
  cbn zeta in H. destruct (commit_at _ _ _ _ _ _ _ _ _) as [[sv er] s']. by eapply write_keeps.
Qed.
Lemma step_keeps w o s : appliable (CurrentProfile s) -> guarded (CurrentProfile s) o -> appliable (CurrentProfile (step w o s).2).
Proof.
  intros Hs. destruct o; try done; cbn [guarded StoreHistory.step].
  - intros _. apply commit_keeps; [done|]. intros q. by apply delete_endpoint_keeps.
  - unfold DeleteEndpointReplacing. case_bool_decide as E1; [intros _; apply commit_keeps; [done|intros q; by apply delete_endpoint_keeps]|].
    intros [?|H]; [done|]. case_bool_decide; [done|]. apply commit_keeps; [done|]. intros q. by apply delete_replacing_keeps.
  - intros _. apply commit_keeps; [done|]. intros q. by apply detach_keeps.
  - intros [Hf Hm]. unfold just_err, SetEndpointDisabledReplacingAt. do 3 (case_bool_decide; [done|]). apply disable_keeps; [done|].
    intros q. by apply disable_replacing_keeps.
  - intros Hf. unfold just_err, SetEndpointDisabledDetachingAt. case_bool_decide; [done|]. apply disable_keeps; [done|].
    intros q. by apply disable_detaching_keeps.
  - intros _. apply commit_keeps; [done|]. intros q. by apply delete_group_keeps.
  - intros _. apply commit_keeps; [done|]. intros q. by apply delete_rule_keeps.
  - intros Hc. unfold SetRoutingListCache. destruct (has_id _ _ _); [|done]. apply publish_keeps; [done|]. eapply refresh_keeps; [exact Hs|].
    by apply set_cache_refreshed.
  - intros _. unfold SetRoutingListCaches. case_bool_decide; [done|]. destruct (_ =? 0)%nat; [done|].
    pose proof (publish_keeps w ((snapshot s) <| RoutingLists := map fst (map (set_caches now caches) (RoutingLists (snapshot s))) |>) s Hs) as Hk.
    destruct (publish _ _ _) as [er s']. apply Hk. eapply refresh_keeps; [exact Hs|]. rewrite map_map.
    apply Forall2_fmap_r, Forall_Forall2_diag, Forall_true. intros rl. apply set_caches_refreshed.
  - intros _. apply commit_keeps; [done|]. intros q. by apply delete_list_keeps.
  - intros _. apply commit_keeps; [done|]. intros q Hq. assert (Hnd : NoDup (rl_ID <$> RoutingLists (snapshot s))).
    { pose proof (ap_ids _ _ _ _ Hs) as H. unfold all_ids in H. rewrite !app_assoc in H. by apply NoDup_app in H as (_ & _ & H). }
    destruct (reordered (snapshot s) ids Hnd) as [_ Hr]. destruct (Hr q Hq) as (E & _ & Hp). by eapply reorder_permutes.
  - intros _. apply commit_keeps; [done|]. intros q. by apply delete_devices_keeps.
Qed.

(** C10: the guarded writes keep the profile one that can be applied. From a store whose profile [Validate]
    accepts, over any history of deletes, moves to a connection or group that is on, parkings, reorders
    and feed refreshes, some refused and some failing to be written, [Validate] accepts what is published. *)
Theorem guarded_writes_keep_appliable s l : Validate (CurrentProfile s) = None -> all_guarded s l ->
  Validate (CurrentProfile (run s l)) = None.
Proof.
  rewrite !Validate_accepts_appliable. revert s. induction l as [|[w o] l IH]; intros s Hs; [done|]. intros [Hg Hl].
  cbn [fst snd] in *. change (run s ((w, o) :: l)) with (run (snd (step w o s)) l). apply IH; [|exact Hl]. by apply step_keeps.
Qed.

End guarded.
End theorems.

(** ** A profile to run on

    Two connections, a group over both, a rule and a list through the first, a DNS server detouring
    through it, and a second list. *)
Definition sample_connection (id : string) : Endpoint :=
  zero_endpoint <| ep_ID := id |> <| ep_Engine := EngineSingBox |> <| ep_Protocol := "trojan" |>
    <| ep_Server := "192.0.2.7" |> <| ep_Port := 443 |> <| ep_Enabled := true |>.
Definition sample : Profile := zero_profile
  <| Endpoints := [sample_connection "a"; sample_connection "b"] |>
  <| Groups := [zero_group <| gr_ID := "g" |> <| gr_Members := ["a"; "b"] |>] |>
  <| Rules := [zero_rule <| r_ID := "r" |> <| Domain := ["example.org"] |> <| r_Outbound := "a" |>] |>
  <| RoutingLists := [zero_list <| rl_ID := "l" |> <| Manual := ["example.com"] |> <| rl_Outbound := "a" |> <| rl_Enabled := true |>;
                      zero_list <| rl_ID := "k" |> <| Manual := ["example.net"] |> <| rl_Outbound := "g" |>] |>
  <| DNS := Some (zero_dns <| dns_Servers := [zero_server <| ds_Tag := "q" |> <| ds_Type := "tls" |> <| ds_Server := "192.0.2.53" |>
                    <| ds_Detour := "a" |> <| ds_Enabled := true |>] |>) |>.
Definition sample_store : Store := mkStore (Some (mkPublished sample 7)) (Some sample).
Abbreviation plainly f := (f (fun b => b) (fun b => b)) (only parsing).
Lemma sample_valid : plainly Validate.Validate (fun _ => None) sample = None.
Proof. by vm_compute. Qed.
Lemma sample_appliable : plainly appliable (fun _ => None) sample.
Proof. apply Validate_accepts_appliable, sample_valid. Qed.
Lemma sample_live x : x ∈ ["a"; "b"; "g"] -> live sample x.
Proof.
  rewrite !elem_of_cons. intros [->|[->|[->|H]]]; [left|left|right|by apply elem_of_nil in H].
  - exists (sample_connection "a"). split_and!; [left|done|done].
  - exists (sample_connection "b"). split_and!; [right; left|done|done].
  - by vm_compute; left.
Qed.
Lemma reorder_is_a_permutation_witness : NoDup (rl_ID <$> RoutingLists sample) /\
  exists q', reorder_lists ["k"; "l"] sample = inr q' /\ rl_ID <$> RoutingLists q' = ["k"; "l"] /\ RoutingLists q' ≡ₚ RoutingLists sample.
Proof.
  assert (Hnd : NoDup (rl_ID <$> RoutingLists sample)).
  { apply (bool_decide_unpack _). by vm_compute. }
  split; [exact Hnd|]. destruct (reorder_is_a_permutation sample ["k"; "l"] Hnd) as [[_ H] H'].
  destruct H as [q' Hq']; [vm_compute; constructor|]. exists q'. split; [exact Hq'|]. by destruct (H' q' Hq') as (_ & ? & ?).
Defined.
Lemma nothing_is_left_behind_witness :
  exists q1 q2, plainly appliable (fun _ => None) sample /\
    delete_replacing (fun b => b) "a" "b" sample = inr q1 /\ EndpointDisableBlockers (fun b => b) "a" q1 = [] /\
    detach (fun b => b) "a" sample = inr q2 /\ EndpointDisableBlockers (fun b => b) "a" q2 = [].
Proof.
  destruct (delete_replacing (fun b => b) "a" "b" sample) as [e|q1] eqn:E1; [exfalso; by vm_compute in E1|].
  destruct (detach (fun b => b) "a" sample) as [e|q2] eqn:E2; [exfalso; by vm_compute in E2|].
  exists q1, q2. split; [apply sample_appliable|].
  destruct (nothing_is_left_behind (fun b => b) (fun b => b) (fun _ => None) "a" "b" zero_endpoint sample q1 sample_appliable) as (H1 & _).
  destruct (nothing_is_left_behind (fun b => b) (fun b => b) (fun _ => None) "a" "b" zero_endpoint sample q2 sample_appliable) as (_ & H2 & _).
  split; [reflexivity|]. split; [by apply H1|]. split; [reflexivity|]. by apply H2.
Defined.
Definition sample_writes : list (bool * op) :=
  [(true, OReorderRoutingLists ["k"; "l"]); (false, ODeleteRoutingList "l"); (true, ODeleteEndpoint "a");
   (true, ODeleteEndpointReplacing "a" "b"); (true, ODeleteRule "r")].
Abbreviation sampled f := (plainly f (fun _ _ => false) (fun _ => None) ep_ID gr_ID rl_ID) (only parsing).
Lemma guarded_writes_keep_appliable_witness :
  exists q, CurrentProfile (sampled run sample_store sample_writes) = q /\ Rules q = [] /\
    length (Endpoints q) = 1%nat /\ plainly Validate.Validate (fun _ => None) q = None.
Proof.
  eexists. split; [reflexivity|]. split; [by vm_compute|]. split; [by vm_compute|].
  apply (guarded_writes_keep_appliable (fun b => b) (fun b => b) (fun _ _ => false) (fun _ => None) ep_ID gr_ID rl_ID); [apply sample_valid|].
  cbn [all_guarded sample_writes guarded fst snd]. split_and!; try exact I. right.
  assert (E : exists k, CurrentProfile (sampled run sample_store (take 3 sample_writes)) = sample <| RoutingLists := k |>) by (eexists; by vm_compute).
  destruct E as [k E]. change (may_move (CurrentProfile (sampled run sample_store (take 3 sample_writes))) "a" "b"). rewrite E.
  split; [done|]. split; [by vm_compute|]. split; [by vm_compute|]. right. right. apply (sample_live "b"). right. left.
Defined.

(** ** Where references are not kept *)
(** Deleting a connection and moving its dependents to [block], which the panel offers, leaves a detour
    to [block]: the write is published, and [Validate] refuses what it published. *)
Example moved_to_block :
  let r := DeleteEndpointReplacing (fun b => b) (fun b => b) (fun _ => None) true "a" OutboundBlock sample_store in
  OutboundBlock ∈ EndpointReplacements "a" sample /\ r.1 = None /\ is_Some (plainly Validate.Validate (fun _ => None) (CurrentProfile r.2)).
Proof. split; [vm_compute; right; left|]. split; [by vm_compute|]. vm_compute. by eexists. Qed.
(** Switching off a connection that only a DNS detour uses is published too. *)
Definition detoured : Profile := sample <| Rules := [] |> <| RoutingLists := [] |> <| Groups := [] |>.
Example switched_off_under_a_detour :
  let s := mkStore (Some (mkPublished detoured 7)) (Some detoured) in
  let r := plainly UpsertEndpoint (fun _ => None) ep_ID true ((sample_connection "a") <| ep_Enabled := false |>) s in
  plainly Validate.Validate (fun _ => None) detoured = None /\ r.1 = None /\
  is_Some (plainly Validate.Validate (fun _ => None) (CurrentProfile r.2)).
Proof. split; [by vm_compute|]. split; [by vm_compute|]. vm_compute. by eexists. Qed.
(** The replacements offered for a group's sole member include ones that the delete refuses. *)
Definition sole : Profile := sample <| Groups := [zero_group <| gr_ID := "g" |> <| gr_Members := ["a"] |>] |>.
Example offered_and_refused : OutboundDirect ∈ EndpointReplacements "a" sole /\
  delete_replacing (fun b => b) "a" OutboundDirect sole = inl (WouldEmpty "g").
Proof. split; [vm_compute; left|by vm_compute]. Qed.
