(* ===== verification/Pbr.v ===== *)
(** * Compiling the profile into the kernel plan

    Models [Compile] of [src/internal/pbr/pbr.go] and what it calls: [kernelIface],
    [egressV4OnlyPosture], [resolveEgress] with its walk of nested groups, [addZone], the loops over
    rules and routing lists, the bypass and masquerade sets, the marks and tables, and
    [orderZonesForEmit]. Arguments: case folding beyond ASCII, and [%q]. *)
From stdpp Require Import sorting pretty.
From S2P Require Import Prelude Util GoStrings Netip PbrPlan PbrLists Model.
Local Open Scope Z_scope.

Definition param_string (e : Endpoint) (key : string) : string :=
  match ep_Params e !! key with Some (AString s) => s | _ => "" end.
Definition kernelIface (e : Endpoint) : string :=
  if bool_decide (ep_Engine e = EngineExternal) then param_string e "interface"
  else if bool_decide (ep_Engine e = EngineAmneziaWG) then AWGIface (ep_ID e)
  else "".
Definition isExternalEndpoint (p : Profile) (tag : string) : bool :=
  match EndpointByID p tag with Some e => bool_decide (ep_Engine e = EngineExternal) | None => false end.
Definition localAddrDeclaresV6 (e : Endpoint) : bool * bool :=
  match ep_Params e !! "local_address" with
  | None => (false, false)
  | Some raw =>
      let addrs := match raw with AStrings l => l | AList l => omap (fun a => match a with AString s => Some s | _ => None end) l | _ => [] end in
      match addrs with
      | [] => (false, false)
      | _ => (true, existsb (fun a => has_byte 58 (str a)) addrs)
      end
  end.
Definition egressV4OnlyPosture (p : Profile) (tag : string) : bool :=
  if isExternalEndpoint p tag then true
  else match EndpointByID p tag with
       | Some e =>
           if bool_decide (ep_Engine e = EngineAmneziaWG)
           then let '(known, hasV6) := localAddrDeclaresV6 e in known && negb hasV6 else false
       | None => false
       end.

(** The walk of a group's members, in preference order and into nested groups. [None] is out of fuel;
    else the interface found ("" if none) and the groups visited. *)
Fixpoint walk_members (walk : option Group -> gset string -> option (string * gset string)) (p : Profile)
    (ms : list string) (seen : gset string) : option (string * gset string) :=
  match ms with
  | [] => Some ("", seen)
  | m :: ms =>
      match EndpointByID p m with
      | Some me =>
          let ifc := kernelIface me in
          if bool_decide (ifc = "") then walk_members walk p ms seen else Some (ifc, seen)
      | None =>
          '(ifc, seen) ← walk (GroupByID p m) seen;
          if bool_decide (ifc = "") then walk_members walk p ms seen else Some (ifc, seen)
      end
  end.
Fixpoint walk (fuel : nat) (p : Profile) (grp : option Group) (seen : gset string) : option (string * gset string) :=
  match fuel with
  | O => None
  | S fuel =>
      match grp with
      | None => Some ("", seen)
      | Some g =>
          if bool_decide (gr_ID g ∈ seen) then Some ("", seen)
          else walk_members (walk fuel p) p (gr_Members g) ({[gr_ID g]} ∪ seen)
      end
  end.
Definition walk_group (p : Profile) (g : Group) : string :=
  match walk (S (S (length (Groups p)))) p (Some g) ∅ with Some (ifc, _) => ifc | None => "" end.

(** [resolveEgress]: kind, interface, whether it resolved, and what it warns. *)
Definition resolveEgress (opt : Options) (p : Profile) (scope tag : string) : string * string * bool * list Warning :=
  let no msg := ("", "", false, [mkWarning scope msg]) in
  if bool_decide (tag = OutboundDirect) || bool_decide (tag = "") then (EgressWAN, "", true, [])
  else if bool_decide (tag = OutboundBlock) then (EgressBlackhole, "", true, [])
  else match NDMPolicyName tag with
  | Some name =>
      if bool_decide (is_Some (NDMPolicies opt !! name)) then (EgressNDMPolicy, "", true, [])
      else no ("access policy " +:+ name +:+ " is not among this router's access policies — not kernel-routed")
  | None =>
  match EndpointByID p tag with
  | Some e =>
      let ifc := kernelIface e in
      if bool_decide (ifc = "")
      then no ("outbound " +:+ tag +:+ " is a proxy endpoint (userspace plane) — not kernel-routed")
      else (EgressInterface, ifc, true, [])
  | None =>
  match GroupByID p tag with
  | Some g =>
      let ifc := walk_group p g in
      if bool_decide (ifc = "") then no ("group " +:+ tag +:+ " has no kernel-plane member — not kernel-routed")
      else (EgressInterface, ifc, true, [])
  | None => no ("unknown outbound " +:+ tag)
  end end end.

(** ** Zones *)
Record srcSpec := mkSrc { cidrs : list string; mac : list string; iface : list string; port : list Z }.
Record state := mkState {
  s_Zones : list Zone; usedNames : gset string; usedEgress : gset string; warns : list Warning
}.
#[export] Instance eta_state : Eta state := fun st => mkState (s_Zones st) (usedNames st) (usedEgress st) (warns st).
Definition warn (st : state) (scope msg : string) : state := st <| warns := (warns st ++ [mkWarning scope msg])%list |>.
Definition empty {A} (l : list A) : bool := (length l =? 0)%nat.

(** The first of [base_2], [base_3], ... that is free. *)
Definition numbered (base : string) (i : nat) : string := base +:+ "_" +:+ pretty i.
Fixpoint free_name (fuel i : nat) (used : gset string) (base : string) : string :=
  let name := numbered base i in
  match fuel with
  | O => name
  | S fuel => if bool_decide (name ∈ used) then free_name fuel (S i) used base else name
  end.

Section compile.
Context (unicode_lower : bytes -> bytes) (quote : string -> string) (opt : Options) (p : Profile).

Definition addZone (name egTag : string) (dst : list string) (src : option srcSpec) (negate : bool)
    (scope : string) (st : state) : state :=
  let '(v4, v6, bad) := classifyCIDRs dst in
  let '(sv4, sv6) := match src with Some s => let '(a, b, _) := classifyCIDRs (cidrs s) in (a, b) | None => ([], []) end in
  let srcScoped := match src with
    | Some s => negb (empty sv4) || negb (empty sv6) || negb (empty (mac s)) || negb (empty (iface s)) || negb (empty (port s))
    | None => false end in
  let domains := if CollectDomainZones opt then normalizeDomains unicode_lower bad else [] in
  let st := if CollectDomainZones opt then st
            else foldl (fun st b => warn st scope ("skipped non-IP entry " +:+ b +:+ " (domain matching is Phase 2)")) st bad in
  let nodest := empty v4 && empty v6 && empty domains in
  if negb (empty dst) && nodest then st
  else if nodest && negb srcScoped then st
  else
    let taken := bool_decide (name ∈ usedNames st) in
    let name' := if taken then free_name (size (usedNames st)) 2 (usedNames st) name else name in
    let st := if taken then warn st scope ("kernel set name collided with another id → renamed to " +:+ name') else st in
    let st := st <| usedNames := {[name']} ∪ usedNames st |> in
    let policy := NDMPolicyName egTag in
    let st := match policy with Some _ => st | None => st <| usedEgress := {[egTag]} ∪ usedEgress st |> end in
    let z := mkZone name' egTag 0 v4 v6 domains [] [] [] [] [] false false (default "" policy) 0 in
    let z := match src with
      | Some s =>
          if srcScoped then
            mkZone name' egTag 0 v4 v6 domains sv4 sv6 (canonicalMACs (mac s)) (iface s) (port s) true negate (default "" policy) 0
          else z
      | None => z end in
    st <| s_Zones := (s_Zones st ++ [z])%list |>.

(** The destinations and sources a tunnel without IPv6 is given: the IPv4 CIDRs alone. *)
Definition stripped (k tag : string) : bool := bool_decide (k = EgressInterface) && egressV4OnlyPosture p tag.
Definition v4_only (strip : bool) (entries : list string) : list string :=
  if strip then let '(v4, _, _) := classifyCIDRs entries in v4 else entries.
Definition rule_src (r : Rule) (strip : bool) : option srcSpec :=
  if HasSourceMatcher r
  then Some (mkSrc (v4_only strip (SourceIPCIDR r)) (SourceMAC r) (SourceIface r) (SourcePort r)) else None.

Definition add_rule (st : state) (r : Rule) : state :=
  if Disabled r then st
  else if r_Default r then st
  else match NDMPolicyName (r_Outbound r) with
  | Some _ => warn st (r_ID r) "an access policy can carry a routing list only — rule not kernel-routed"
  | None =>
      let names := (length (Domain r) + length (DomainSuffix r) + length (GeoSite r))%nat in
      let st := if (0 <? names)%nat then warn st (r_ID r) "domain/geosite matching not kernel-routed in Phase 1" else st in
      let st := if negb (empty (GeoIP r))
                then warn st (r_ID r) "geoip rule-set not kernel-routed in Phase 1 (expand to a CIDR set in Phase 2)" else st in
      if empty (IPCIDR r) && (0 <? names + length (GeoIP r))%nat then st
      else if empty (IPCIDR r) && negb (HasSourceMatcher r) then st
      else
        let '(k, _, ok, ws) := resolveEgress opt p (r_ID r) (r_Outbound r) in
        let st := st <| warns := (warns st ++ ws)%list |> in
        if ok && negb (bool_decide (k = "")) then
          let strip := stripped k (r_Outbound r) in
          let dst := v4_only strip (IPCIDR r) in
          if negb (empty (IPCIDR r)) && empty dst then st
          else
            let src := rule_src r strip in
            if negb (empty dst) || bool_decide (is_Some src)
            then addZone ("rule_" +:+ nftName (r_ID r)) (r_Outbound r) dst src false (r_ID r) st else st
        else st
  end.

(** The members of a list's device groups; a later group of the same id shadows an earlier one. *)
Definition devGroupByID (gid : string) : option DeviceGroup := find_by dg_ID gid (reverse (DeviceGroups p)).
Definition nonblank (ss : list string) : list string := filter (fun s => s <> "") (map trim ss).
Definition scopeMembers (rl : RoutingList) : list string * list string :=
  let ms := mjoin (map (fun gid => match devGroupByID gid with Some g => dg_Members g | None => [] end) (ScopeGroups rl)) in
  (nonblank (map MAC ms), nonblank (map IP ms)).

Definition list_dst (strip : bool) (entries : list string) : list string :=
  if strip then let '(v4, _, names) := classifyCIDRs entries in
                if CollectDomainZones opt then (v4 ++ names)%list else v4
  else entries.

Definition add_list (st : state) (rl : RoutingList) : state :=
  if negb (rl_Enabled rl) then st
  else
    let st := if bool_decide (Source rl = "") then st
              else warn st (rl_ID rl) ("remote rule-set (" +:+ Source rl +:+ ") not kernel-routed in Phase 1 (set population is Phase 2)") in
    let entries := (Manual rl ++ CIDRCache rl ++ DomainCache rl)%list in
    if empty entries then st
    else
      let '(macs, ips) := scopeMembers rl in
      let nobody := empty macs && empty ips in
      if bool_decide (ScopeMode rl = "only") && nobody
      then warn st (rl_ID rl) "device scope resolves to no MAC/IP — list not kernel-routed"
      else
        let '(k, _, ok, ws) := resolveEgress opt p (rl_ID rl) (rl_Outbound rl) in
        let st := st <| warns := (warns st ++ ws)%list |> in
        if ok && negb (bool_decide (k = "")) then
          let dst := list_dst (stripped k (rl_Outbound rl)) entries in
          if empty dst then st
          else
            let base := "list_" +:+ nftName (rl_ID rl) in
            if bool_decide (ScopeMode rl = "only") then
              let st := if empty macs then st
                        else addZone (base +:+ "_dm") (rl_Outbound rl) dst (Some (mkSrc [] macs [] [])) false (rl_ID rl) st in
              if empty ips then st
              else addZone (base +:+ "_di") (rl_Outbound rl) dst (Some (mkSrc ips [] [] [])) false (rl_ID rl) st
            else if bool_decide (ScopeMode rl = "except") && negb nobody
            then addZone base (rl_Outbound rl) dst (Some (mkSrc ips macs [] [])) true (rl_ID rl) st
            else addZone base (rl_Outbound rl) dst None false (rl_ID rl) st
        else st.

Definition collect : state := foldl add_list (foldl add_rule (mkState [] ∅ ∅ []) (Rules p)) (RoutingLists p).

(** ** Bypass and masquerade *)
Definition bypass_of (e : Endpoint) : list string :=
  if negb (ep_Enabled e) || bool_decide (kernelIface e = "") then []
  else ((if bool_decide (ep_Server e = "") then [] else [ep_Server e]) ++
        (let eip := param_string e "endpoint_ip" in if bool_decide (eip = "") then [] else [eip]))%list.
Definition masq_ifaces : list string :=
  dedup ∅ (map kernelIface (filter (fun e => ep_Enabled e = true) (Endpoints p))).

(** ** Egresses, marks and tables *)
Definition u32 (z : Z) : Z := z mod 2 ^ 32.
Definition mark_of (n : nat) : Z := u32 (u32 (Z.of_nat n) * MarkStep opt).
Definition egress_at (i : nat) (tag : string) : Egress :=
  let '(k, ifc, _, _) := resolveEgress opt p tag tag in
  mkEgress tag k ifc (mark_of (i + 2)) (TableBase opt + Z.of_nat i)
    (bool_decide (k = EgressInterface) && match GroupByID p tag with Some g => gr_KillSwitch g | None => false end).
Definition other_tags (used : gset string) : list string :=
  sort_strings (filter (fun tag => tag <> OutboundDirect) (elements used)).
Definition egresses (used : gset string) : list Egress :=
  mkEgress OutboundDirect EgressWAN "" (mark_of 1) (WANTable opt) false :: imap egress_at (other_tags used).

Definition markByTag (es : list Egress) : gmap string Z :=
  foldl (fun m e => <[Tag e := E_Mark e]> m) ∅ es.
Definition kindByTag (es : list Egress) : gmap string string :=
  foldl (fun m e => <[Tag e := Kind e]> m) ∅ es.
Definition policy_names (zs : list Zone) : list string := sort_strings (dedup ∅ (map NDMPolicy zs)).
Definition slotOf (es : list Egress) (zs : list Zone) : gmap string Z :=
  list_to_map (imap (fun i name => (name, mark_of (length es + 1 + i))) (policy_names zs)).
Definition set_mark (es : list Egress) (slots : gmap string Z) (z : Zone) : Zone :=
  if bool_decide (NDMPolicy z = "") then z <| Z_Mark := default 0 (markByTag es !! EgressTag z) |>
  else z <| Z_Mark := default 0 (slots !! NDMPolicy z) |> <| NDMMark := default 0 (NDMPolicies opt !! NDMPolicy z) |>.

Definition isBlock (kinds : gmap string string) (z : Zone) : bool :=
  bool_decide (kinds !! EgressTag z = Some EgressBlackhole).
Definition zone_less (kinds : gmap string string) (a b : Zone) : bool :=
  if negb (eqb (isBlock kinds a) (isBlock kinds b)) then negb (isBlock kinds a)
  else negb (bool_decide (String.le (Z_Name b) (Z_Name a))).
Definition zone_le (kinds : gmap string string) (a b : Zone) : Prop := zone_less kinds b a = false.
#[export] Instance zone_le_dec kinds : RelDecision (zone_le kinds).
Proof. intros a b. unfold zone_le. apply _. Defined.
Definition orderZonesForEmit (zs : list Zone) (kinds : gmap string string) : list Zone := merge_sort (zone_le kinds) zs.

(** ** Flow offload *)
Definition dev_char (c : Z) : bool := is_letter c || is_digit c || (c =? 46) || (c =? 95) || (c =? 45).
Definition validOffloadDev (d : string) : bool :=
  match str d with
  | [] => false
  | c :: r => (is_letter c || is_digit c) && forallb dev_char r && (length r <=? 14)%nat
  end.
Definition flowtable : option Flowtable * list Warning :=
  let w msg := mkWarning "offload" msg in
  if bool_decide (Offload opt = "sw") || bool_decide (Offload opt = "hw") then
    if empty (OffloadDevices opt) then (None, [w "flow-offload requested but no devices supplied — skipped"])
    else
      let devs := filter (fun d => validOffloadDev d = true) (OffloadDevices opt) in
      let ws := map (fun d => w ("ignoring invalid offload device name " +:+ quote d))
                  (filter (fun d => validOffloadDev d = false) (OffloadDevices opt)) in
      if empty devs then (None, ws ++ [w "flow-offload requested but no valid device names — skipped"])%list
      else (Some (mkFlowtable (sort_strings devs) (bool_decide (Offload opt = "hw"))), ws)
  else if bool_decide (Offload opt = "") || bool_decide (Offload opt = "off") then (None, [])
  else (None, [w ("unknown offload mode " +:+ Offload opt +:+ " (want off|sw|hw) — skipped")]).

Definition compile_profile : Plan * list Warning :=
  let st := collect in
  let '(b4, b6, _) := classifyCIDRs (mjoin (map bypass_of (Endpoints p))) in
  let es := egresses (usedEgress st) in
  let zs := map (set_mark es (slotOf es (s_Zones st))) (s_Zones st) in
  let '(ft, ws) := flowtable in
  (mkPlan (O_Table opt) (MarkMask opt) es (orderZonesForEmit zs (kindByTag es)) b4 b6 ft masq_ifaces,
   warns st ++ ws)%list.
End compile.

(** [Compile]: the plan and the warnings, or the error of a nil profile. *)
Definition Compile (unicode_lower : bytes -> bytes) (quote : string -> string) (opt : Options) (p : option Profile)
    : string + Plan * list Warning :=
  match p with
  | None => inl "nil profile"
  | Some p => inr (compile_profile unicode_lower quote (withDefaults opt) p)
  end.
