(* ===== verification/PbrFacts.v ===== *)
(** * The walk of nested groups

    [walk] of [Pbr] against its specification: it ends on every profile, cyclic ones included, finds a
    kernel interface exactly when one is reachable, and on a profile without cycles finds the first
    one in preference order.

    Further on: the kernel plan: what [Compile] guarantees. *)
From stdpp Require Import sorting pretty.
From S2P Require Import Prelude Util GoStrings Netip Netlink CtFlush PbrPlan Model PbrLists Pbr.

Section walk.
Context (p : Profile).

Definition group_ids : gset string := list_to_set (map gr_ID (Groups p)).
(** A group the profile's lookup returns, or none. *)
Definition found (grp : option Group) : Prop := grp = None \/ exists tag, grp = GroupByID p tag.

Lemma found_in grp g : found grp -> grp = Some g -> gr_ID g ∈ group_ids /\ GroupByID p (gr_ID g) = Some g.
Proof.
  intros [->|[tag Ht]] Hg; [done|]. rewrite Hg in Ht. symmetry in Ht. destruct (GroupByID_ID p tag g Ht) as [Hin <-]. split; [|done].
  apply elem_of_list_to_set, list_elem_of_fmap. by exists g.
Qed.
Lemma found_GroupByID m : found (GroupByID p m).
Proof. right. by exists m. Qed.
Local Hint Resolve found_GroupByID : core.

(** What one call gives and keeps, passed along the members by [walk_members_ind]. *)
Lemma walk_members_ind (w : option Group -> gset string -> option (string * gset string))
    (I : gset string -> Prop) (Q : string -> gset string -> Prop) ms :
  (forall m S, m ∈ ms -> I S -> EndpointByID p m = None ->
     exists ifc S', w (GroupByID p m) S = Some (ifc, S') /\ (ifc = "" -> I S') /\ (ifc <> "" -> Q ifc S')) ->
  (forall m e S, m ∈ ms -> I S -> EndpointByID p m = Some e -> kernelIface e <> "" -> Q (kernelIface e) S) ->
  forall S, I S -> exists ifc S', walk_members w p ms S = Some (ifc, S') /\ (ifc = "" -> I S') /\ (ifc <> "" -> Q ifc S').
Proof.
  induction ms as [|m ms IH]; intros Hg He S HS; cbn [walk_members]; [by eexists _, _|].
  assert (IH' : forall S, I S -> exists ifc S', walk_members w p ms S = Some (ifc, S') /\ (ifc = "" -> I S') /\ (ifc <> "" -> Q ifc S')).
  { apply IH; [intros; apply Hg; [by right|done..]|intros m' e S0 Hin; apply (He m'); by right]. }
  destruct (EndpointByID p m) as [e|] eqn:Ee.
  - case_bool_decide as Hk; [by apply IH'|]. eexists _, _. split; [done|]. split; [done|].
    intros _. apply (He m); [left|done..].
  - destruct (Hg m S) as (ifc & S' & -> & Hi & Hq); [left|done..|]. cbn [mbind option_bind].
    case_bool_decide as Hk; [by apply IH', Hi|]. by eexists _, _.
Qed.

(** ** Termination

    Every group visited is new, so the unvisited ones bound the depth. *)
Lemma size_visit g (seen : gset string) : g ∈ group_ids -> g ∉ seen ->
  size (group_ids ∖ ({[g]} ∪ seen)) < size (group_ids ∖ seen).
Proof. intros Hg Hs. apply subset_size. set_solver. Qed.
Lemma walk_total fuel : forall grp seen, found grp -> size (group_ids ∖ seen) + 2 <= fuel ->
  exists ifc seen', walk fuel p grp seen = Some (ifc, seen') /\ seen ⊆ seen'.
Proof.
  induction fuel as [|fuel IH]; intros grp seen Hf Hs; [lia|]. cbn [walk].
  destruct grp as [g|]; [|by eexists _, _]. destruct (found_in _ g Hf eq_refl) as [Hg _].
  case_bool_decide as Hin; [by eexists _, _|]. pose proof (size_visit _ _ Hg Hin) as Hlt.
  destruct (walk_members_ind (walk fuel p) (fun S => {[gr_ID g]} ∪ seen ⊆ S) (fun _ S => seen ⊆ S) (gr_Members g))
    with (S := {[gr_ID g]} ∪ seen) as (ifc & S' & E & Hi & Hq).
  - intros m S _ HS _. destruct (IH (GroupByID p m) S) as (ifc & S' & E & Hsub); [done| |].
    { assert (size (group_ids ∖ S) <= size (group_ids ∖ ({[gr_ID g]} ∪ seen))) by (apply subseteq_size; set_solver). lia. }
    exists ifc, S'. split; [done|]. split; intros _; set_solver.
  - intros. set_solver.
  - done.
  - exists ifc, S'. split; [done|]. destruct (decide (ifc = "")) as [->|]; [|by apply Hq].
    specialize (Hi eq_refl). set_solver.
Qed.
Lemma size_group_ids : size group_ids <= length (Groups p).
Proof.
  unfold group_ids. induction (Groups p) as [|g l IH]; [done|]. cbn [map list_to_set length].
  rewrite size_union_alt, size_singleton.
  assert (size (list_to_set (map gr_ID l) ∖ {[gr_ID g]} : gset string) <= size (list_to_set (map gr_ID l) : gset string))
    by (apply subseteq_size; set_solver). lia.
Qed.

Lemma walk_enough fuel grp : found grp -> length (Groups p) + 2 <= fuel ->
  exists ifc seen', walk fuel p grp ∅ = Some (ifc, seen').
Proof.
  intros Hf Hl. destruct (walk_total fuel grp ∅ Hf) as (ifc & S & E & _); [|by eexists _, _].
  rewrite difference_empty_L. pose proof size_group_ids. lia.
Qed.

Lemma walk_members_mono w w' ms : (forall grp S r, w grp S = Some r -> w' grp S = Some r) ->
  forall S r, walk_members w p ms S = Some r -> walk_members w' p ms S = Some r.
Proof.
  intros Hw. induction ms as [|m ms IH]; intros S r; cbn [walk_members]; [done|].
  destruct (EndpointByID p m); [case_bool_decide; by auto|].
  destruct (w (GroupByID p m) S) as [[i S']|] eqn:E; cbn [mbind option_bind]; [|done].
  rewrite (Hw _ _ _ E). cbn [mbind option_bind]. case_bool_decide; by auto.
Qed.
Lemma walk_S fuel : forall grp S r, walk fuel p grp S = Some r -> walk (Datatypes.S fuel) p grp S = Some r.
Proof.
  induction fuel as [|fuel IH]; intros grp S r; [done|].
  change (walk (Datatypes.S (Datatypes.S fuel)) p grp S) with
    (match grp with None => Some ("", S) | Some g => if bool_decide (gr_ID g ∈ S) then Some ("", S)
     else walk_members (walk (Datatypes.S fuel) p) p (gr_Members g) ({[gr_ID g]} ∪ S) end).
  cbn [walk]. destruct grp as [g|]; [|done]. case_bool_decide; [done|]. by apply walk_members_mono.
Qed.
Lemma walk_mono fuel fuel' grp S r : fuel <= fuel' -> walk fuel p grp S = Some r -> walk fuel' p grp S = Some r.
Proof. induction 1; [done|]. intros H0. by apply walk_S, IHle. Qed.

(** ** What it finds

    The endpoints a member stands for: itself, or those of the group it names. *)
Inductive reaches : string -> Endpoint -> Prop :=
| reach_endpoint m e : EndpointByID p m = Some e -> reaches m e
| reach_member m g m' e : EndpointByID p m = None -> GroupByID p m = Some g ->
    m' ∈ gr_Members g -> reaches m' e -> reaches m e.

Lemma walk_sound fuel : forall grp seen ifc seen', walk fuel p grp seen = Some (ifc, seen') -> ifc <> "" ->
  exists g m e, grp = Some g /\ m ∈ gr_Members g /\ reaches m e /\ kernelIface e = ifc.
Proof.
  induction fuel as [|fuel IH]; intros grp seen ifc seen'; cbn [walk]; [done|].
  destruct grp as [g|]; [|by intros [= <- <-]]. case_bool_decide as Hin; [by intros [= <- <-]|].
  assert (Hm : forall ms S, (forall m, m ∈ ms -> m ∈ gr_Members g) ->
    walk_members (walk fuel p) p ms S = Some (ifc, seen') -> ifc <> "" ->
    exists m e, m ∈ gr_Members g /\ reaches m e /\ kernelIface e = ifc).
  { induction ms as [|m ms IHm]; intros S Hsub; cbn [walk_members]; [by intros [= <- <-]|].
    destruct (EndpointByID p m) as [e|] eqn:Ee.
    - case_bool_decide; [apply IHm; intros; apply Hsub; by right|]. intros [= <- <-] _.
      exists m, e. split_and!; [apply Hsub; left|by constructor|done].
    - destruct (walk fuel p (GroupByID p m) S) as [[i S']|] eqn:Ew; cbn [mbind option_bind]; [|done].
      case_bool_decide as Hi; [apply IHm; intros; apply Hsub; by right|]. intros [= -> ->] _.
      destruct (IH _ _ _ _ Ew Hi) as (g' & m' & e & Hg' & Hm' & Hr & Hk).
      exists m, e. split_and!; [apply Hsub; left|by eapply reach_member|done]. }
  intros Hw Hne. destruct (Hm _ _ (fun m H => H) Hw Hne) as (m & e & ? & ? & ?). by exists g, m, e.
Qed.

(** A set of groups fully walked: no member is a kernel endpoint, and the groups named are in it. *)
Definition member_done (S : gset string) (m : string) : Prop :=
  (forall e, EndpointByID p m = Some e -> kernelIface e = "") /\
  (EndpointByID p m = None -> forall g, GroupByID p m = Some g -> gr_ID g ∈ S).
Definition closed (old S : gset string) : Prop :=
  forall id g m, id ∈ S -> id ∉ old -> GroupByID p id = Some g -> m ∈ gr_Members g -> member_done S m.

Lemma member_done_mono S S' m : S ⊆ S' -> member_done S m -> member_done S' m.
Proof. intros Hs [H1 H2]. split; [done|]. intros He g Hg. by apply Hs, (H2 He). Qed.
Lemma closed_trans S0 S1 S2 : S0 ⊆ S1 -> S1 ⊆ S2 -> closed S0 S1 -> closed S1 S2 -> closed S0 S2.
Proof.
  intros H01 H12 Hc Hc' id g m Hin Hout Hg Hm. destruct (decide (id ∈ S1)) as [H|H].
  - eapply member_done_mono; [exact H12|]. by eapply Hc.
  - by eapply Hc'.
Qed.

Lemma walk_none fuel : forall grp seen seen', found grp -> walk fuel p grp seen = Some ("", seen') ->
  seen ⊆ seen' /\ closed seen seen' /\ forall g, grp = Some g -> gr_ID g ∈ seen'.
Proof.
  induction fuel as [|fuel IH]; intros grp seen seen' Hf; cbn [walk]; [done|].
  destruct grp as [g|].
  2:{ intros [= <-]. split_and!; [done|intros id ? ? ? ?; done|done]. }
  destruct (found_in _ g Hf eq_refl) as [_ Hid].
  case_bool_decide as Hin.
  { intros [= <-]. split_and!; [done|intros id ? ? ? ?; done|by intros ? [= <-]]. }
  assert (Hm : forall ms S S', walk_members (walk fuel p) p ms S = Some ("", S') ->
    S ⊆ S' /\ closed S S' /\ forall m, m ∈ ms -> member_done S' m).
  { induction ms as [|m ms IHm]; intros S S'; cbn [walk_members].
    { intros [= <-]. split_and!; [done|intros id ? ? ? ?; done|intros m Hm; by apply elem_of_nil in Hm]. }
    destruct (EndpointByID p m) as [e|] eqn:Ee.
    - case_bool_decide as Hk; [|by intros [= ? ?]]. intros Hw. destruct (IHm _ _ Hw) as (H1 & H2 & H3).
      split_and!; [done|done|]. intros m' [->|Hm']%elem_of_cons; [|by apply H3].
      split; [intros e' He'; rewrite Ee in He'; by simplify_eq|by rewrite Ee].
    - destruct (walk fuel p (GroupByID p m) S) as [[i S1]|] eqn:Ew; cbn [mbind option_bind]; [|done].
      case_bool_decide as Hi; [|by intros [= ? ?]]. subst i. intros Hw.
      destruct (IH _ _ _ (found_GroupByID _) Ew) as (H1 & H2 & H3). destruct (IHm _ _ Hw) as (K1 & K2 & K3).
      split_and!; [set_solver|by eapply closed_trans|].
      intros m' [->|Hm']%elem_of_cons; [|by apply K3].
      split; [by rewrite Ee|]. intros _ g' Hg'. apply K1. by apply H3. }
  intros Hw. destruct (Hm _ _ _ Hw) as (H1 & H2 & H3). split_and!; [set_solver| |intros g' [= <-]; set_solver].
  intros id g' m Hid' Hout Hg' Hm'. destruct (decide (id = gr_ID g)) as [->|Hne].
  - rewrite Hid in Hg'. simplify_eq. by apply H3.
  - apply (H2 id g' m); set_solver.
Qed.

Lemma closed_no_kernel S m e : closed ∅ S -> member_done S m -> reaches m e -> kernelIface e = "".
Proof.
  intros Hc Hm Hr. induction Hr as [m e He|m g m' e He Hg Hin Hr IH]; [by apply Hm|].
  destruct Hm as [_ Hm]. specialize (Hm He g Hg). apply IH.
  pose proof (GroupByID_ID _ _ _ Hg) as [_ Hid]. rewrite Hid in Hm. apply (Hc m g m'); [done|set_solver|done|done].
Qed.

(** ** The reference: plain recursion, for profiles without cycles

    The first kernel interface under a member in preference order; [None] when the recursion is
    deeper than [n]. *)
Fixpoint first_members (first : string -> option string) (ms : list string) : option string :=
  match ms with
  | [] => Some ""
  | m :: ms => ifc ← first m; if bool_decide (ifc = "") then first_members first ms else Some ifc
  end.
Fixpoint first_ifc (n : nat) (m : string) : option string :=
  match EndpointByID p m with
  | Some e => Some (kernelIface e)
  | None =>
      match GroupByID p m with
      | None => Some ""
      | Some g => match n with O => None | S n => first_members (first_ifc n) (gr_Members g) end
      end
  end.

Lemma first_members_mono (f h : string -> option string) ms r :
  (forall m r, f m = Some r -> h m = Some r) -> first_members f ms = Some r -> first_members h ms = Some r.
Proof.
  intros Hfh. induction ms as [|m ms IH]; cbn [first_members]; [done|].
  destruct (f m) as [i|] eqn:E; cbn [mbind option_bind]; [|done]. rewrite (Hfh _ _ E). cbn [mbind option_bind].
  by case_bool_decide.
Qed.
Lemma first_ifc_S n : forall m r, first_ifc n m = Some r -> first_ifc (S n) m = Some r.
Proof.
  induction n as [|n IH]; intros m r; cbn [first_ifc]; destruct (EndpointByID p m); try done;
    destruct (GroupByID p m) as [g|]; try done.
  apply first_members_mono. intros m' r' H. apply (IH m' r' H).
Qed.
Lemma first_ifc_mono n n' m r : n <= n' -> first_ifc n m = Some r -> first_ifc n' m = Some r.
Proof. induction 1; [done|]. intros H0. by apply first_ifc_S, IHle. Qed.
Lemma first_ifc_det n n' m r r' : first_ifc n m = Some r -> first_ifc n' m = Some r' -> r = r'.
Proof.
  intros H H'. destruct (Nat.le_ge_cases n n') as [Hl|Hl].
  - apply (first_ifc_mono _ _ _ _ Hl) in H. congruence.
  - apply (first_ifc_mono _ _ _ _ Hl) in H'. congruence.
Qed.
(** The least depth that is enough. *)
Lemma first_ifc_least n m r : first_ifc n m = Some r ->
  exists k, k <= n /\ first_ifc k m = Some r /\ forall j, j < k -> first_ifc j m = None.
Proof.
  induction n as [|n IH]; intros H; [exists 0; split_and!; [done|done|lia]|].
  destruct (first_ifc n m) as [r'|] eqn:E.
  - rewrite (first_ifc_det _ _ _ _ _ E H) in IH. destruct (IH eq_refl) as (k & Hk & Hr & Hl).
    exists k. split_and!; [lia|done|done].
  - exists (S n). split_and!; [done|done|]. intros j Hj. destruct (first_ifc j m) as [x|] eqn:Ej; [|done].
    rewrite (first_ifc_mono j n m x) in E; [done|lia|done].
Qed.

(** Visited groups hold nothing, or lie on the path above, where the depth [n] is not enough. *)
Definition walked (n : nat) (seen : gset string) : Prop :=
  forall id, id ∈ seen -> (exists k, first_ifc k id = Some "") \/ first_ifc n id = None.
Definition exhausted (old seen : gset string) : Prop :=
  forall id, id ∈ seen -> id ∈ old \/ exists k, first_ifc k id = Some "".

Lemma walk_first fuel : forall n m r seen ifc seen', EndpointByID p m = None ->
  first_ifc n m = Some r -> walked n seen -> walk fuel p (GroupByID p m) seen = Some (ifc, seen') ->
  ifc = r /\ (ifc = "" -> exhausted seen seen').
Proof.
  induction fuel as [|fuel IH]; intros n m r seen ifc seen' He Hn Hw; cbn [walk]; [done|].
  destruct (GroupByID p m) as [g|] eqn:Eg.
  2:{ intros [= <- <-]. destruct n; cbn [first_ifc] in Hn; rewrite He, Eg in Hn; simplify_eq; (split; [done|]); intros _ id Hid; by left. }
  pose proof (GroupByID_ID _ _ _ Eg) as [_ Hid]. rewrite Hid. case_bool_decide as Hin.
  { intros [= <- <-]. split; [|intros _ id ?; by left]. destruct (Hw _ Hin) as [[k Hk]|Hk]; [|congruence].
    by rewrite (first_ifc_det _ _ _ _ _ Hk Hn). }
  destruct (first_ifc_least _ _ _ Hn) as ([|k] & Hk & Hr & Hl); cbn [first_ifc] in Hr; rewrite He, Eg in Hr; [done|].
  assert (Hms : forall ms S ifc S', walked k S -> first_members (first_ifc k) ms = Some r ->
    walk_members (walk fuel p) p ms S = Some (ifc, S') -> ifc = r /\ (ifc = "" -> exhausted S S')).
  { clear Hr. induction ms as [|x ms IHm]; intros S i S' HS Hr; cbn [walk_members first_members] in *.
    { intros [= <- <-]. simplify_eq. split; [done|]. intros _ id ?. by left. }
    destruct (first_ifc k x) as [rx|] eqn:Ex; cbn [mbind option_bind] in Hr; [|done].
    destruct (EndpointByID p x) as [e|] eqn:Ee.
    - assert (rx = kernelIface e) as -> by (destruct k; cbn [first_ifc] in Ex; rewrite Ee in Ex; congruence).
      case_bool_decide as Hi; [by apply IHm|]. intros [= <- <-]. simplify_eq. by split.
    - destruct (walk fuel p (GroupByID p x) S) as [[ix S1]|] eqn:Ew; cbn [mbind option_bind]; [|done].
      destruct (IH k x rx S ix S1 Ee Ex HS Ew) as [-> Hex].
      case_bool_decide as Hi.
      + subst rx. specialize (Hex eq_refl). intros Hrest.
        assert (HS1 : walked k S1). { intros id Hd. destruct (Hex id Hd) as [H|H]; [by apply HS|by left]. }
        destruct (IHm _ _ _ HS1 Hr Hrest) as [-> Hex']. split; [done|]. intros Hr0 id Hd.
        destruct (Hex' Hr0 id Hd) as [H|H]; [by apply Hex|by right].
      + intros [= <- <-]. simplify_eq. by split. }
  intros Hrun. destruct (Hms (gr_Members g) ({[m]} ∪ seen) ifc seen') as [-> Hex]; [|done|done|].
  - intros id [->%elem_of_singleton|Hd]%elem_of_union; [right; apply Hl; lia|].
    destruct (Hw id Hd) as [H|H]; [by left|right]. destruct (first_ifc k id) as [x|] eqn:Ek; [|done].
    rewrite (first_ifc_mono k n id x) in H; [done|lia|done].
  - split; [done|]. intros Hr0 id Hd. destruct (Hex Hr0 id Hd) as [[->%elem_of_singleton|H]%elem_of_union|H].
    + right. exists n. by rewrite Hr0 in Hn.
    + by left.
    + by right.
Qed.
End walk.

(** C35: the walk of nested groups ends, on every profile. With two more steps of depth than the profile
    has groups, whatever cycles they form, the walk of any group comes to a result, the same one at
    every greater depth; and that result is an interface exactly when some member stands, directly or
    through nested groups, for an endpoint with a kernel interface, and is then that endpoint's. *)
Theorem walk_ends_and_finds p tag g : GroupByID p tag = Some g ->
  (forall fuel, length (Groups p) + 2 <= fuel -> fst <$> walk fuel p (Some g) ∅ = Some (walk_group p g)) /\
  (walk_group p g <> "" -> exists m e, m ∈ gr_Members g /\ reaches p m e /\ kernelIface e = walk_group p g) /\
  (walk_group p g = "" -> forall m e, m ∈ gr_Members g -> reaches p m e -> kernelIface e = "").
Proof.
  intros Hg. assert (Hf : found p (Some g)) by (right; by exists tag). unfold walk_group.
  destruct (walk_enough p (S (S (length (Groups p)))) (Some g) Hf) as (ifc & S & E); [lia|]. rewrite E.
  split_and!.
  - intros fuel Hl. apply (walk_mono p _ fuel) in E; [by rewrite E|lia].
  - intros Hne. destruct (walk_sound p _ _ _ _ _ E Hne) as (g' & m & e & [= <-] & Hm & Hr & Hk). by exists m, e.
  - intros -> m e Hm Hr. destruct (walk_none p _ _ _ _ Hf E) as (_ & Hc & Hin).
    eapply closed_no_kernel; [exact Hc| |exact Hr]. apply (Hc (gr_ID g) g m); [by apply Hin|set_solver| |done].
    by destruct (found_in p _ g Hf eq_refl).
Qed.

(** An adopted tunnel, and a group of members. *)
Definition adopted (id ifc : string) : Endpoint :=
  zero_endpoint <| ep_ID := id |> <| ep_Engine := EngineExternal |>
    <| ep_Params := {["interface" := AString ifc]} |> <| ep_Enabled := true |>.
Definition group_of (id : string) (members : list string) : Group :=
  zero_group <| gr_ID := id |> <| gr_Members := members |>.

(** A profile whose groups name each other, with an adopted tunnel at the end. *)
Definition cyclic_profile : Profile :=
  zero_profile
    <| Endpoints := [adopted "t1" "awg0"; zero_endpoint <| ep_ID := "x" |> <| ep_Engine := "singbox" |> <| ep_Enabled := true |>] |>
    <| Groups := [group_of "g" ["h"; "x"]; group_of "h" ["g"; "x"; "t1"]] |>.
Lemma walk_ends_and_finds_witness :
  GroupByID cyclic_profile "g" = Some (group_of "g" ["h"; "x"]) /\
  walk_group cyclic_profile (group_of "g" ["h"; "x"]) = "awg0" /\
  (fst <$> walk 100 cyclic_profile (Some (group_of "g" ["h"; "x"])) ∅ = Some "awg0").
Proof.
  assert (Hg : GroupByID cyclic_profile "g" = Some (group_of "g" ["h"; "x"])) by reflexivity.
  assert (Hw : walk_group cyclic_profile (group_of "g" ["h"; "x"]) = "awg0") by (vm_compute; reflexivity).
  split; [exact Hg|]. split; [exact Hw|]. rewrite <- Hw.
  apply (proj1 (walk_ends_and_finds cyclic_profile "g" _ Hg) 100). cbn. lia.
Defined.

(** Without cycles, the walk is the plain recursion. When the recursive search of a group's
    members in preference order, which keeps no visited set, comes to an end, the walk returns what it
    finds: the first kernel interface, nested groups searched in their place. *)
Theorem walk_in_preference_order p tag g n ifc : EndpointByID p tag = None -> GroupByID p tag = Some g ->
  first_ifc p n tag = Some ifc -> walk_group p g = ifc.
Proof.
  intros He Hg Hn. assert (Hf : found p (Some g)) by (right; by exists tag). unfold walk_group.
  destruct (walk_enough p (S (S (length (Groups p)))) (Some g) Hf) as (i & S & E); [lia|]. rewrite E.
  rewrite <- Hg in E. apply (walk_first p _ n tag ifc) in E as [-> _]; [done|done|done|]. intros id Hid. set_solver.
Qed.
Definition nested_profile : Profile :=
  zero_profile <| Endpoints := [adopted "t1" "awg0"; adopted "t2" "awg1"] |>
    <| Groups := [group_of "g" ["h"; "t2"]; group_of "h" ["t1"]] |>.
Lemma walk_in_preference_order_witness : walk_group nested_profile (group_of "g" ["h"; "t2"]) = "awg0".
Proof. by apply (walk_in_preference_order nested_profile "g" _ 2). Defined.

(** * The kernel plan: what [Compile] guarantees

    Theorems on [Compile] of [Pbr], alone and read through the view [CtFlush] takes of a plan. *)
Local Open Scope Z_scope.

(** ** Lists: the addresses listed are the addresses matched *)
Lemma containsAny_existsb ps a : containsAny ps a = existsb (fun p => Contains p a) ps.
Proof. induction ps as [|p ps IH]; [done|]. cbn. by destruct (Contains p a). Qed.

#[export] Instance prefix_le_total : Total prefix_le.
Proof. intros a b. unfold prefix_le, Less. lia. Qed.
#[export] Instance prefix_le_trans : Transitive prefix_le.
Proof. intros a b c. unfold prefix_le, Less. lia. Qed.

(** Sorting what is sorted, disjoint and masked changes nothing. *)
Lemma disjoint_sorted_strongly ps : disjoint_sorted ps -> StronglySorted prefix_le ps.
Proof.
  induction ps as [|p ps IH]; intros [Hf Hd]; [constructor|]. apply Forall_cons in Hf as [Hp Hf]. constructor.
  - apply IH. split; [done|]. intros i j a b Hij Ha Hb. apply (Hd (S i) (S j) a b); [lia|done|done].
  - apply Forall_lookup. intros j q Hq. by apply (Hd O (S j) p q); [lia|..].
Qed.
Lemma wf_Contains_self p : wf_prefix p -> Contains p (p_addr p) = true.
Proof. intros (Hv & _). unfold Contains. by rewrite Hv, !Z.eqb_refl. Qed.
Lemma disjoint_sorted_sort ps : disjoint_sorted ps -> merge_sort prefix_le ps = ps.
Proof.
  intros Hds. apply (StronglySorted_unique_strong prefix_le).
  - intros a b Ha Hb H1 H2. apply list_elem_of_lookup in Hb as [j Hb].
    rewrite merge_sort_Permutation in Ha. apply list_elem_of_lookup in Ha as [i Ha].
    destruct Hds as [Hf Hd]. rewrite Forall_lookup in Hf.
    assert (E : p_addr a = p_addr b). { apply addr_eq_iff. unfold prefix_le, Less in *. lia. }
    destruct (Nat.lt_total i j) as [Hij|[->|Hij]]; [|congruence|].
    + destruct (Hd i j a b Hij Ha Hb) as [_ Hc]. by rewrite <- E, wf_Contains_self in Hc by by eapply Hf.
    + destruct (Hd j i b a Hij Hb Ha) as [_ Hc]. by rewrite E, wf_Contains_self in Hc by by eapply Hf.
  - apply StronglySorted_merge_sort; apply _.
  - by apply disjoint_sorted_strongly.
  - apply merge_sort_Permutation.
Qed.

(** The prefixes [CtFlush] reads back from the texts of a collapsed list. *)
Abbreviation read_back := (parsePrefixes ParsePrefix ParseAddr).
Lemma read_back_collapsed ps :
  Forall (fun p => prefix_ok p /\ wf_prefix p /\ Is4In6 (p_addr p) = false) ps ->
  read_back (map PrefixString (collapsePrefixes ps)) = collapsePrefixes ps /\ disjoint_sorted (collapsePrefixes ps).
Proof.
  intros H. assert (Hds : disjoint_sorted (collapsePrefixes ps)).
  { apply collapse_disjoint. eapply Forall_impl; [exact H|]. naive_solver. }
  split; [|done]. rewrite <- (disjoint_sorted_sort _ Hds) at 2. unfold parsePrefixes. f_equal.
  assert (Hc : Forall (fun p => prefix_ok p /\ wf_prefix p /\ Is4In6 (p_addr p) = false) (collapsePrefixes ps)).
  { apply Forall_forall. intros q Hq. apply sweep_subset in Hq. rewrite merge_sort_Permutation in Hq.
    rewrite Forall_forall in H. by apply H. }
  clear Hds. induction Hc as [|p qs (Hp & Hw & H4) _ IH]; [done|]. cbn [map].
  change (omap ?f (?x :: ?l)) with (match f x with Some y => y :: omap f l | None => omap f l end).
  unfold parse_one at 1. rewrite ParsePrefix_String, IH, Masked_wf by done. done.
Qed.

Lemma classify_read_back entries v4 v6 names : classifyCIDRs entries = (v4, v6, names) ->
  disjoint_sorted (read_back v4) /\ disjoint_sorted (read_back v6) /\
  Forall (fun p => Is6 (p_addr p) = false) (read_back v4) /\ Forall (fun p => Is6 (p_addr p) = true) (read_back v6) /\
  (forall a, containsAny (read_back v4) a || containsAny (read_back v6) a = existsb (names_addr a) entries).
Proof.
  unfold classifyCIDRs. destruct (classify_fold_spec entries no_classes no_classes_inv) as [Hi Hc].
  destruct (foldl classify_one no_classes entries) as [q4 q6 s4 s6 b]. destruct Hi as (H4 & H6 & _ & _).
  cbn [p4 p6 bad] in *. intros [= <- <- <-].
  assert (W4 : Forall (fun p => prefix_ok p /\ wf_prefix p /\ Is4In6 (p_addr p) = false) q4)
    by (eapply Forall_impl; [exact H4|naive_solver]).
  assert (W6 : Forall (fun p => prefix_ok p /\ wf_prefix p /\ Is4In6 (p_addr p) = false) q6)
    by (eapply Forall_impl; [exact H6|naive_solver]).
  destruct (read_back_collapsed _ W4) as [-> D4]. destruct (read_back_collapsed _ W6) as [-> D6].
  assert (Hsub : forall (P : Prefix -> Prop) qs, Forall P qs -> Forall P (collapsePrefixes qs)).
  { intros P qs Hq. apply Forall_forall. intros q Hin. apply sweep_subset in Hin.
    rewrite merge_sort_Permutation in Hin. rewrite Forall_forall in Hq. by apply Hq. }
  split_and!; [done|done|apply Hsub; eapply Forall_impl; [exact H4|naive_solver]
                        |apply Hsub; eapply Forall_impl; [exact H6|naive_solver]|].
  intros a. rewrite !containsAny_existsb, !collapse_covers by (eapply Forall_impl; [eassumption|naive_solver]).
  rewrite <- (orb_false_l (existsb (names_addr a) entries)). apply (Hc a).
Qed.

(** The entries that are no address. *)
Definition name_entry (s : string) : option string :=
  if bool_decide (trim s = "") || bool_decide (is_Some (entry_prefix (trim s))) then None else Some (trim s).
Lemma classify_names entries c : classes_inv c ->
  bad (foldl classify_one c entries) = bad c ++ omap name_entry entries.
Proof.
  revert c. induction entries as [|s l IH]; intros c Hc; cbn [foldl]; [by rewrite app_nil_r|].
  destruct (classify_one_spec c s Hc) as (Hi & _ & Hb). rewrite IH, Hb, <- app_assoc by done. f_equal.
  change (omap name_entry (s :: l)) with (match name_entry s with Some y => y :: omap name_entry l | None => omap name_entry l end).
  unfold name_entry. by destruct (bool_decide (trim s = "")), (bool_decide (is_Some (entry_prefix (trim s)))).
Qed.
Lemma other_family ps a b : Forall (fun p => Is6 (p_addr p) = b) ps -> Is6 a = negb b -> containsAny ps a = false.
Proof.
  intros Hf Ha. rewrite containsAny_existsb. induction Hf as [|p ps Hp _ IH]; [done|]. cbn. rewrite IH, orb_false_r.
  unfold Contains. destruct (p_addr p) as [|x|x], a as [|y|y], b; done.
Qed.

(** What a list names is what the kernel sets match. The texts [classifyCIDRs] emits for any list of
    entries, parsed and searched the way the conntrack flush does, contain an address exactly when some
    entry names it, as an address or a CIDR, written as IPv4 or as IPv4 mapped into IPv6; no emitted
    prefix overlaps another; and the entries that are neither blank nor an address are returned, in
    order. *)
Theorem listed_addresses_match entries v4 v6 names : classifyCIDRs entries = (v4, v6, names) ->
  (forall a, contains (read_back (if Is6 a then v6 else v4)) a = existsb (names_addr a) entries) /\
  disjoint_sorted (read_back v4) /\ disjoint_sorted (read_back v6) /\ names = omap name_entry entries.
Proof.
  intros H. destruct (classify_read_back _ _ _ _ H) as (D4 & D6 & F4 & F6 & Hc). split_and!; [|done|done|].
  - intros a. rewrite <- Hc. destruct (Is6 a) eqn:Ea; rewrite contains_is_membership by done.
    + by rewrite (other_family _ a false F4 Ea).
    + by rewrite (other_family _ a true F6 Ea), orb_false_r.
  - unfold classifyCIDRs in H. simplify_eq. by rewrite classify_names by apply no_classes_inv.
Qed.
Lemma listed_addresses_match_witness :
  classifyCIDRs ["10.0.0.0/8"; "10.1.0.0/16"; " ::ffff:192.0.2.1"; "2001:db8::/32"; "example.org"] =
    (["10.0.0.0/8"; "192.0.2.1/32"], ["2001:db8::/32"], ["example.org"]) /\
  contains (read_back ["10.0.0.0/8"; "192.0.2.1/32"]) (Addr4 3221225985) =
    existsb (names_addr (Addr4 3221225985)) ["10.0.0.0/8"; "10.1.0.0/16"; " ::ffff:192.0.2.1"; "2001:db8::/32"; "example.org"].
Proof.
  assert (H : classifyCIDRs ["10.0.0.0/8"; "10.1.0.0/16"; " ::ffff:192.0.2.1"; "2001:db8::/32"; "example.org"] =
    (["10.0.0.0/8"; "192.0.2.1/32"], ["2001:db8::/32"], ["example.org"])) by (vm_compute; reflexivity).
  split; [exact H|]. exact (proj1 (listed_addresses_match _ _ _ _ H) (Addr4 3221225985)).
Defined.

(** ** The zones [Compile] collects *)
Section collect.
Context (unicode_lower : bytes -> bytes) (opt : Options) (p : Profile).
Abbreviation addZone := (addZone unicode_lower opt).

(** What one call adds: nothing, or a zone of a fresh name. *)
Record zone_of (name tag : string) (dst : list string) (src : option srcSpec) (used : gset string) (z : Zone) : Prop := {
  zo_fresh : Z_Name z ∉ used;
  zo_name : Z_Name z = name \/ exists i, Z_Name z = numbered name i;
  zo_tag : EgressTag z = tag;
  zo_mark : Z_Mark z = 0;
  zo_policy : NDMPolicy z = default "" (NDMPolicyName tag);
  zo_v4 : V4 z = (classifyCIDRs dst).1.1;
  zo_v6 : V6 z = (classifyCIDRs dst).1.2;
  zo_dest : V4 z = [] -> V6 z = [] -> Domains z = [] -> dst = [] /\ SrcScoped z = true;
  zo_unscoped : src = None -> SrcScoped z = false
}.
(** Warnings change nothing else. *)
Definition same (st st' : state) : Prop :=
  s_Zones st' = s_Zones st /\ usedNames st' = usedNames st /\ usedEgress st' = usedEgress st.
Definition adds (name tag : string) (dst : list string) (src : option srcSpec) (st st' : state) : Prop :=
  (same st st' /\ (classifyCIDRs dst).1.1 = [] /\ (classifyCIDRs dst).1.2 = []) \/
  exists z, s_Zones st' = s_Zones st ++ [z] /\ usedNames st' = {[Z_Name z]} ∪ usedNames st /\
    usedEgress st' = match NDMPolicyName tag with Some _ => usedEgress st | None => {[tag]} ∪ usedEgress st end /\
    zone_of name tag dst src (usedNames st) z.

(** One of the names [base_2], [base_3], ... is free: a set of [n] names holds at most [n] of them. *)
#[export] Instance numbered_inj base : Inj (=) (=) (numbered base).
Proof. intros i j H. unfold numbered in H. by repeat apply (inj _) in H. Qed.
Lemma free_name_spec fuel : forall i used base, exists j, free_name fuel i used base = numbered base j /\
  (numbered base j ∈ used -> forall k, (i <= k <= i + fuel)%nat -> numbered base k ∈ used).
Proof.
  induction fuel as [|fuel IH]; intros i used base; cbn [free_name].
  - exists i. split; [done|]. intros H k Hk. by replace k with i by lia.
  - case_bool_decide as Hi; [|by exists i]. destruct (IH (S i) used base) as (j & -> & Hj). exists j. split; [done|].
    intros H k Hk. destruct (decide (k = i)) as [->|]; [done|]. apply Hj; [done|lia].
Qed.
Lemma free_name_free i used base : free_name (size used) i used base ∉ used.
Proof.
  destruct (free_name_spec (size used) i used base) as (j & -> & Hj). intros H. specialize (Hj H).
  set (ns := map (numbered base) (seq i (S (size used)))).
  assert (Hn : NoDup ns) by (apply NoDup_fmap; [apply _|apply NoDup_seq]).
  assert (Hs : list_to_set ns ⊆ used).
  { intros x Hx. apply elem_of_list_to_set, list_elem_of_fmap in Hx as (k & -> & Hk%elem_of_seq). apply Hj. lia. }
  apply subseteq_size in Hs. rewrite size_list_to_set in Hs by done. unfold ns in Hs. rewrite length_map, length_seq in Hs. lia.
Qed.

Lemma empty_true {A} (l : list A) : empty l = true <-> l = [].
Proof. destruct l; [done|]. unfold empty. cbn. split; [lia|done]. Qed.
Lemma empty_false {A} (l : list A) : empty l = false <-> l <> [].
Proof. rewrite <- not_true_iff_false. by rewrite empty_true. Qed.
Lemma warn_same st scope msg : same st (warn st scope msg).
Proof. by split_and!. Qed.
Lemma warns_same st scope (l : list string) f : same st (foldl (fun st b => warn st scope (f b)) st l).
Proof.
  revert st. induction l as [|b l IH]; intros st; cbn [foldl]; [by split_and!|].
  destruct (IH (warn st scope (f b))) as (H1 & H2 & H3). split_and!; [by rewrite H1|by rewrite H2|by rewrite H3].
Qed.

Lemma addZone_adds name tag dst src neg scope st : adds name tag dst src st (addZone name tag dst src neg scope st).
Proof.
  unfold Pbr.addZone. destruct (classifyCIDRs dst) as [[v4 v6] names] eqn:Ec.
  destruct (match src with Some s => _ | None => ([], []) end) as [sv4 sv6].
  set (domains := if CollectDomainZones opt then _ else []).
  set (st1 := if CollectDomainZones opt then st else _).
  assert (Hw : same st st1).
  { unfold st1. destruct (CollectDomainZones opt); [by split_and!|]. apply (warns_same st scope names (fun b => _)). }
  destruct Hw as (E1 & E2 & E3). clearbody st1 domains.
  set (scoped := match src with Some s => _ | None => false end).
  assert (Hnone : empty v4 && empty v6 && empty domains = true -> same st st1 /\ v4 = [] /\ v6 = []).
  { intros [[H4%empty_true H6%empty_true]%andb_true_iff _]%andb_true_iff. by split_and!. }
  unfold adds. rewrite Ec. cbn [fst snd].
  destruct (negb (empty dst) && _) eqn:G1; [left; apply andb_true_iff in G1 as [_ G1]; by apply Hnone|].
  destruct (_ && negb scoped) eqn:G2; [left; apply andb_true_iff in G2 as [G2 _]; by apply Hnone|]. right.
  set (name' := if bool_decide (name ∈ usedNames st1) then _ else name).
  assert (Hfresh : name' ∉ usedNames st).
  { unfold name'. rewrite <- E2. case_bool_decide; [apply free_name_free|done]. }
  assert (Hname : name' = name \/ exists i, name' = numbered name i).
  { unfold name'. case_bool_decide; [right|by left]. destruct (free_name_spec (size (usedNames st1)) 2 (usedNames st1) name) as (j & -> & _). by exists j. }
  clearbody name'. set (st2 := if bool_decide (name ∈ usedNames st1) then warn st1 _ _ else st1).
  assert (Hw2 : same st st2). { unfold st2. case_bool_decide; by split_and!. } clearbody st2. destruct Hw2 as (F1 & F2 & F3).
  assert (Hdest : v4 = [] -> v6 = [] -> domains = [] -> dst = [] /\ scoped = true).
  { intros -> -> ->. cbn in G1, G2. rewrite andb_true_r in G1. apply negb_false_iff, empty_true in G1.
    split; [done|]. by apply negb_false_iff in G2. }
  rewrite <- F1, <- F3. clear F1 F3.
  destruct (NDMPolicyName tag) as [pol|] eqn:Epol; (destruct src as [s|]; [destruct scoped eqn:Esc|]);
    (eexists; split; [reflexivity|]); (split; [cbn; by rewrite F2|]); (split; [done|]);
    (constructor; try done; cbn; rewrite ?Epol, ?Ec; try done); by apply Hdest.
Qed.

(** What resolving a tag gives does not depend on who asks. *)
Definition resolves (tag k ifc : string) : Prop :=
  k <> "" /\ forall scope, exists ws, resolveEgress opt p scope tag = (k, ifc, true, ws).
Lemma resolveEgress_scope scope tag k ifc ws : resolveEgress opt p scope tag = (k, ifc, true, ws) -> k <> "" -> resolves tag k ifc.
Proof.
  intros H Hk. split; [done|]. intros scope'. revert H. unfold resolveEgress.
  repeat case_match; intros [= <- <-]; by eexists.
Qed.

(** Why a zone is there. *)
Definition rule_has_dest (r : Rule) : Prop :=
  ~ (IPCIDR r = [] /\ Domain r = [] /\ DomainSuffix r = [] /\ GeoSite r = [] /\ GeoIP r = []).
Definition live_rule (r : Rule) : Prop := r ∈ Rules p /\ Disabled r = false /\ r_Default r = false.
Definition list_entries (rl : RoutingList) : list string := Manual rl ++ CIDRCache rl ++ DomainCache rl.
Inductive origin : string -> string -> list string -> option srcSpec -> Prop :=
| origin_rule r k ifc : live_rule r -> NDMPolicyName (r_Outbound r) = None -> resolves (r_Outbound r) k ifc ->
    (v4_only (stripped p k (r_Outbound r)) (IPCIDR r) = [] -> ~ rule_has_dest r /\ HasSourceMatcher r = true) ->
    origin ("rule_" +:+ nftName (r_ID r)) (r_Outbound r) (v4_only (stripped p k (r_Outbound r)) (IPCIDR r))
      (rule_src r (stripped p k (r_Outbound r)))
| origin_list rl k ifc name src : rl ∈ RoutingLists p -> rl_Enabled rl = true -> resolves (rl_Outbound rl) k ifc ->
    list_dst opt (stripped p k (rl_Outbound rl)) (list_entries rl) <> [] ->
    (name = "list_" +:+ nftName (rl_ID rl) \/ name = ("list_" +:+ nftName (rl_ID rl)) +:+ "_dm" \/
     name = ("list_" +:+ nftName (rl_ID rl)) +:+ "_di") ->
    origin name (rl_Outbound rl) (list_dst opt (stripped p k (rl_Outbound rl)) (list_entries rl)) src.

Record zones_inv (st : state) : Prop := {
  zi_nodup : NoDup (map Z_Name (s_Zones st));
  zi_names : Forall (fun z => Z_Name z ∈ usedNames st) (s_Zones st);
  zi_origin : Forall (fun z => exists name tag dst src used, origin name tag dst src /\ zone_of name tag dst src used z) (s_Zones st);
  zi_egress : Forall (fun z => NDMPolicyName (EgressTag z) = None -> EgressTag z ∈ usedEgress st) (s_Zones st);
  zi_tags : forall tag, tag ∈ usedEgress st -> NDMPolicyName tag = None /\ exists k ifc, resolves tag k ifc
}.
Lemma zones_inv_same st st' : same st st' -> zones_inv st -> zones_inv st'.
Proof. intros (E1 & E2 & E3) [H1 H2 H3 H4 H5]. constructor; by rewrite ?E1, ?E2, ?E3. Qed.
Lemma origin_resolves name tag dst src : origin name tag dst src -> exists k ifc, resolves tag k ifc.
Proof. intros []; eauto. Qed.
Lemma origin_nodest name tag dst src : origin name tag dst src -> dst = [] ->
  exists r, live_rule r /\ tag = r_Outbound r /\ ~ rule_has_dest r /\ HasSourceMatcher r = true.
Proof.
  intros [r k ifc Hr _ _ Hnd|rl k ifc n s _ _ _ Hne _] Hd; [|done]. exists r. by destruct (Hnd Hd).
Qed.
Lemma zones_inv_adds name tag dst src st st' : origin name tag dst src -> adds name tag dst src st st' ->
  zones_inv st -> zones_inv st'.
Proof.
  intros Ho [[Hs _]|(z & Ez & En & Eu & Hz)] Hinv; [by eapply zones_inv_same|].
  destruct Hinv as [H1 H2 H3 H4 H5]. pose proof (zo_fresh _ _ _ _ _ _ Hz) as Hf. pose proof (zo_tag _ _ _ _ _ _ Hz) as Ht.
  constructor; rewrite ?Ez, ?En.
  - rewrite map_app. apply NoDup_app. split_and!; [done| |apply NoDup_singleton].
    intros x Hx Hx'%list_elem_of_singleton. subst x. apply list_elem_of_fmap in Hx as (z' & E & Hin).
    rewrite Forall_forall in H2. apply Hf. rewrite E. by apply H2.
  - apply Forall_snoc_2; [|set_solver]. eapply Forall_impl; [exact H2|]. set_solver.
  - apply Forall_snoc_2; [done|]. by exists name, tag, dst, src, (usedNames st).
  - apply Forall_snoc_2.
    + eapply Forall_impl; [exact H4|]. cbn. intros z' Hz' Hnone. specialize (Hz' Hnone). rewrite Eu. destruct (NDMPolicyName tag); set_solver.
    + rewrite Ht, Eu. intros ->. set_solver.
  - intros t. rewrite Eu. destruct (NDMPolicyName tag) eqn:E; [apply H5|].
    rewrite elem_of_union, elem_of_singleton. intros [->|Hin]; [|by apply H5].
    split; [done|by eapply origin_resolves].
Qed.

(** What every call to [addZone] keeps, the loops keep. *)
Section keep.
Context (P : state -> Prop) (Hsame : forall st st', same st st' -> P st -> P st').
Context (Hadds : forall name tag dst src st st', origin name tag dst src -> adds name tag dst src st st' -> P st -> P st').

Lemma add_rule_ind st r : r ∈ Rules p -> P st -> P (add_rule unicode_lower opt p st r).
Proof.
  intros Hr Hst. unfold add_rule. destruct (Disabled r) eqn:Ed; [done|]. destruct (r_Default r) eqn:Edef; [done|].
  destruct (NDMPolicyName (r_Outbound r)) eqn:Epol; [eapply Hsame; [apply warn_same|done]|].
  set (names := (length (Domain r) + _ + _)%nat). set (st1 := if (0 <? names)%nat then _ else st).
  assert (H1 : P st1). { unfold st1. case_match; [|done]. eapply Hsame; [apply warn_same|done]. }
  clearbody st1. set (st2 := if negb (empty (GeoIP r)) then _ else st1).
  assert (H2 : P st2). { unfold st2. case_match; [|done]. eapply Hsame; [apply warn_same|done]. }
  clearbody st2. destruct (empty (IPCIDR r) && (0 <? _)%nat) eqn:G1; [done|].
  destruct (empty (IPCIDR r) && negb _) eqn:G2; [done|].
  destruct (resolveEgress opt p (r_ID r) (r_Outbound r)) as [[[k ifc] ok] ws] eqn:Er.
  set (st3 := st2 <| warns := _ |>). assert (H3 : P st3) by (by eapply Hsame; [|exact H2]; split_and!).
  clearbody st3. destruct (ok && _) eqn:Gk; [|done]. apply andb_true_iff in Gk as [-> Gk].
  apply negb_true_iff in Gk. case_bool_decide as Hk; [done|].
  destruct (negb (empty (IPCIDR r)) && _) eqn:G3; [done|]. destruct (_ || _) eqn:G4; [|done].
  eapply Hadds; [|apply addZone_adds|done]. apply (origin_rule r k ifc); [done|done|by eapply resolveEgress_scope|].
  intros Hdst. rewrite Hdst in G3. cbn in G3. rewrite andb_true_r in G3. apply negb_false_iff in G3.
  rewrite G3 in G1, G2. cbn [andb] in G1, G2. apply negb_false_iff in G2. apply Nat.ltb_ge in G1. split; [|done].
  apply empty_true in G3. unfold rule_has_dest. intros Hn. apply Hn. unfold names in G1.
  assert (forall (l : list string), length l = O -> l = []) as Hl by (by intros []).
  split_and!; [done|apply Hl; lia..].
Qed.

Lemma add_list_ind st rl : rl ∈ RoutingLists p -> P st -> P (add_list unicode_lower opt p st rl).
Proof.
  intros Hr Hst. unfold add_list. destruct (rl_Enabled rl) eqn:Ee; [|done]. cbn [negb].
  set (st1 := if bool_decide (Source rl = "") then st else _).
  assert (H1 : P st1). { unfold st1. case_match; [done|]. eapply Hsame; [apply warn_same|done]. }
  clearbody st1. fold (list_entries rl). destruct (empty (list_entries rl)) eqn:G1; [done|].
  destruct (scopeMembers p rl) as [macs ips].
  destruct (bool_decide _ && _) eqn:G2; [eapply Hsame; [apply warn_same|done]|].
  destruct (resolveEgress opt p (rl_ID rl) (rl_Outbound rl)) as [[[k ifc] ok] ws] eqn:Er.
  set (st3 := st1 <| warns := _ |>). assert (H3 : P st3) by (by eapply Hsame; [|exact H1]; split_and!).
  clearbody st3. destruct (ok && _) eqn:Gk; [|done]. apply andb_true_iff in Gk as [-> Gk].
  apply negb_true_iff in Gk. case_bool_decide as Hk; [done|].
  destruct (empty (list_dst _ _ _)) eqn:G3; [done|]. apply empty_false in G3.
  assert (Hadd : forall name src neg s, P s ->
    (name = "list_" +:+ nftName (rl_ID rl) \/ name = ("list_" +:+ nftName (rl_ID rl)) +:+ "_dm" \/
     name = ("list_" +:+ nftName (rl_ID rl)) +:+ "_di") ->
    P (addZone name (rl_Outbound rl) (list_dst opt (stripped p k (rl_Outbound rl)) (list_entries rl)) src neg (rl_ID rl) s)).
  { intros name src neg s Hs Hn. eapply Hadds; [|apply addZone_adds|done].
    apply (origin_list rl k ifc); [done|done|by eapply resolveEgress_scope|done|done]. }
  destruct (bool_decide (ScopeMode rl = "only")).
  - set (st4 := if empty macs then st3 else _).
    assert (H4 : P st4). { unfold st4. destruct (empty macs); [done|]. apply Hadd; [done|]. right. by left. }
    clearbody st4. destruct (empty ips); [done|]. apply Hadd; [done|]. right. by right.
  - destruct (bool_decide (ScopeMode rl = "except") && _); apply Hadd; auto.
Qed.

End keep.

Lemma foldl_inv {A B} (P : A -> Prop) (f : A -> B -> A) l a :
  P a -> (forall a b, b ∈ l -> P a -> P (f a b)) -> P (foldl f a l).
Proof.
  revert a. induction l as [|b l IH]; intros a Ha Hf; [done|]. cbn. apply IH; [apply Hf; [left|done]|].
  intros; apply Hf; [by right|done].
Qed.
Lemma collect_inv : zones_inv (collect unicode_lower opt p).
Proof.
  unfold collect. 
  apply foldl_inv; [|intros; apply add_list_ind; [exact zones_inv_same|exact zones_inv_adds|done..]].
  apply foldl_inv; [|intros; apply add_rule_ind; [exact zones_inv_same|exact zones_inv_adds|done..]].
  constructor; cbn; try constructor; set_solver.
Qed.
End collect.
