(* ===== verification/PbrTheorems.v ===== *)
(** * The kernel plan: theorems on the whole plan

    What [Compile] guarantees of its plan: names, destinations, egresses and marks, and, read through
    the view [CtFlush] takes of it, that blocks win. [plan_of] is the plan of a profile.

    Further on: the kernel plan: where traffic goes. *)
From stdpp Require Import sorting pretty.
From S2P Require Import Prelude Util GoStrings Netip Netlink CtFlush PbrPlan Model PbrLists Pbr PbrFacts.
Local Open Scope Z_scope.

Section plan.
Context (unicode_lower : bytes -> bytes) (quote : string -> string) (opt : Options) (p : Profile).

Definition plan_of : Plan := (compile_profile unicode_lower quote (withDefaults opt) p).1.
Abbreviation o := (withDefaults opt).
Abbreviation st := (collect unicode_lower o p).
Abbreviation es := (egresses o p (usedEgress st)).

Lemma Compile_plan : exists ws, Compile unicode_lower quote opt (Some p) = inr (plan_of, ws).
Proof. unfold Compile, plan_of. destruct (compile_profile _ _ _ _) as [pl ws]. by exists ws. Qed.
Lemma plan_egresses : Egresses plan_of = es.
Proof. unfold plan_of, compile_profile. by destruct (classifyCIDRs _) as [[? ?] ?], (flowtable _ _). Qed.
Lemma plan_zones : Zones plan_of =
  orderZonesForEmit (map (set_mark o es (slotOf o es (s_Zones st))) (s_Zones st)) (kindByTag es).
Proof. unfold plan_of, compile_profile. by destruct (classifyCIDRs _) as [[? ?] ?], (flowtable _ _). Qed.
Lemma plan_zones_perm : Zones plan_of ≡ₚ map (set_mark o es (slotOf o es (s_Zones st))) (s_Zones st).
Proof. rewrite plan_zones. apply merge_sort_Permutation. Qed.

Lemma set_mark_fields slots z : let z' := set_mark o es slots z in
  Z_Name z' = Z_Name z /\ EgressTag z' = EgressTag z /\ V4 z' = V4 z /\ V6 z' = V6 z /\ Domains z' = Domains z /\
  SrcScoped z' = SrcScoped z /\ NDMPolicy z' = NDMPolicy z.
Proof. unfold set_mark. case_bool_decide; by split_and!. Qed.
(** A property of a zone's fields other than its marks passes from the collected zones to the plan's. *)
Lemma plan_zones_Forall (P : Zone -> Prop) :
  Forall (fun z => P (set_mark o es (slotOf o es (s_Zones st)) z)) (s_Zones st) -> Forall P (Zones plan_of).
Proof. intros H. rewrite plan_zones_perm. by apply Forall_map. Qed.

(** ** Names *)
Lemma sort_strings_perm l : sort_strings l ≡ₚ l.
Proof. apply merge_sort_Permutation. Qed.
Lemma plan_names_NoDup : NoDup (map Z_Name (Zones plan_of)).
Proof.
  rewrite plan_zones_perm, map_map. erewrite map_ext; [apply collect_inv|]. intros z. by apply set_mark_fields.
Qed.

Definition nft_safe (s : string) : Prop := Forall (fun c => nft_char c = true) (str s).
Lemma nft_safe_app a b : nft_safe a -> nft_safe b -> nft_safe (a +:+ b).
Proof. unfold nft_safe. rewrite str_app. apply Forall_app_2. Qed.
Lemma nft_runes_ok fuel s : Forall (fun c => nft_char c = true) (nft_runes fuel s).
Proof.
  revert s. induction fuel as [|fuel IH]; intros [|c s]; cbn [nft_runes]; constructor; [|apply IH].
  destruct (nft_char c) eqn:E; [done|reflexivity].
Qed.
Lemma nft_char_byte c : nft_char c = true -> is_byte c.
Proof. unfold nft_char, is_letter, is_digit, in_range, is_byte. lia. Qed.
Lemma nftName_safe id : nft_safe (nftName id).
Proof.
  unfold nft_safe, nftName. rewrite str_unstr; [apply nft_runes_ok|].
  eapply Forall_impl; [apply nft_runes_ok|]. apply nft_char_byte.
Qed.
Lemma pretty_N_go_safe x : forall s, nft_safe s -> nft_safe (pretty_N_go x s).
Proof.
  induction (N.lt_wf_0 x) as [x _ IH]. intros s Hs.
  assert (x = 0 \/ 0 < x)%N as [->|Hx] by lia; [by rewrite pretty_N_go_0|].
  rewrite pretty_N_go_step by done. apply IH; [by apply N.div_lt|].
  unfold nft_safe in *. change (str (String.String ?c ?s)) with (Z.of_nat (Ascii.nat_of_ascii c) :: str s).
  constructor; [|done]. unfold pretty_N_char. by repeat case_match.
Qed.
Lemma numbered_safe base i : nft_safe base -> nft_safe (numbered base i).
Proof.
  intros H. unfold numbered. apply nft_safe_app; [done|]. apply nft_safe_app; [by repeat constructor|].
  unfold pretty, pretty_nat, pretty, pretty_N. case_decide; [by repeat constructor|]. apply pretty_N_go_safe. constructor.
Qed.
Lemma origin_name_safe name tag dst src : origin o p name tag dst src -> nft_safe name.
Proof.
  assert (Hs : forall s, (forallb nft_char (str s)) = true -> nft_safe s) 
    by (intros s H; apply Forall_forall; intros c Hc; eapply forallb_forall in H; [done|by apply list_elem_of_In]).
  intros [r k ifc _ _ _ _|rl k ifc n s _ _ _ _ Hn].
  - apply nft_safe_app; [by apply Hs|apply nftName_safe].
  - assert (Hb : nft_safe ("list_" +:+ nftName (rl_ID rl))) by (apply nft_safe_app; [by apply Hs|apply nftName_safe]).
    destruct Hn as [->|[->| ->]]; [done|by apply nft_safe_app; [|apply Hs]..].
Qed.
Lemma zone_name_safe z : z ∈ s_Zones st -> nft_safe (Z_Name z).
Proof.
  intros Hz. pose proof (zi_origin _ _ _ (collect_inv unicode_lower o p)) as Ho. rewrite Forall_forall in Ho.
  destruct (Ho z Hz) as (name & tag & dst & src & used & Hor & Hzo).
  destruct (zo_name _ _ _ _ _ _ Hzo) as [->|[i ->]]; [|apply numbered_safe]; by eapply origin_name_safe.
Qed.
End plan.

(** Set names are safe and distinct. Whatever ids a profile holds, every zone's name is made of
    letters, digits and underscores, and no two zones share one, so the rendered ruleset can neither
    be broken out of nor declare a set twice. *)
Theorem zone_names_safe_and_distinct unicode_lower quote opt p :
  let zs := Zones (plan_of unicode_lower quote opt p) in
  Forall (fun z => nft_safe (Z_Name z)) zs /\ NoDup (map Z_Name zs).
Proof.
  split; [|apply plan_names_NoDup]. apply plan_zones_Forall, Forall_forall. intros z Hz.
  rewrite (proj1 (set_mark_fields _ _ _ _ z)). by eapply zone_name_safe.
Qed.

(** A rule or list that named a destination never becomes a device-wide zone. A zone without any
    destination, which marks everything its sources send, is scoped to those sources and comes from an
    enabled rule that names no destination of any kind, only sources. *)
Theorem no_destination_only_if_none_named unicode_lower quote opt p :
  Forall (fun z => V4 z = [] -> V6 z = [] -> Domains z = [] ->
    SrcScoped z = true /\ exists r, live_rule p r /\ EgressTag z = r_Outbound r /\ ~ rule_has_dest r /\ HasSourceMatcher r = true)
    (Zones (plan_of unicode_lower quote opt p)).
Proof.
  apply plan_zones_Forall. pose proof (zi_origin _ _ _ (collect_inv unicode_lower (withDefaults opt) p)) as Ho.
  eapply Forall_impl; [exact Ho|]. cbn. intros z (name & tag & dst & src & used & Hor & Hzo) H4 H6 Hd.
  destruct (set_mark_fields unicode_lower opt p (slotOf (withDefaults opt) (egresses (withDefaults opt) p (usedEgress (collect unicode_lower (withDefaults opt) p))) (s_Zones (collect unicode_lower (withDefaults opt) p))) z) as (_ & Et & E4 & E6 & Ed & Es & _).
  rewrite E4 in H4. rewrite E6 in H6. rewrite Ed in Hd. rewrite Es, Et, (zo_tag _ _ _ _ _ _ Hzo).
  destruct (zo_dest _ _ _ _ _ _ Hzo H4 H6 Hd) as [Hnil Hs]. split; [done|]. by eapply origin_nodest.
Qed.

(** ** Egresses and marks *)
Section egress.
Context (unicode_lower : bytes -> bytes) (opt : Options) (p : Profile).
Abbreviation o := (withDefaults opt).
Abbreviation st := (collect unicode_lower o p).
Abbreviation es := (egresses o p (usedEgress st)).

Lemma other_tags_spec used tag : tag ∈ other_tags used <-> tag ∈ used /\ tag <> OutboundDirect.
Proof.
  unfold other_tags. rewrite sort_strings_perm, list_elem_of_filter, elem_of_elements. naive_solver.
Qed.
Lemma other_tags_NoDup used : NoDup (other_tags used).
Proof. unfold other_tags. rewrite sort_strings_perm. apply NoDup_filter, NoDup_elements. Qed.
Lemma egress_at_fields i tag : Tag (egress_at o p i tag) = tag /\ E_Mark (egress_at o p i tag) = mark_of o (i + 2).
Proof. unfold egress_at. by destruct (resolveEgress _ _ _ _) as [[[? ?] ?] ?]. Qed.
Lemma imap_fmap_ext {A B C} (f : nat -> A -> B) (g : B -> C) (h : nat -> A -> C) l :
  (forall i x, g (f i x) = h i x) -> map g (imap f l) = imap h l.
Proof. intros H. change (map g (imap f l)) with (g <$> imap f l). rewrite fmap_imap. apply imap_ext. intros i x _. apply H. Qed.
Lemma imap_snd {A} (l : list A) : imap (fun _ x => x) l = l.
Proof. etrans; [apply (imap_const id l)|apply list_fmap_id]. Qed.
Lemma egress_tags used : map Tag (egresses o p used) = OutboundDirect :: other_tags used.
Proof.
  unfold egresses. cbn [map Tag]. f_equal.
  rewrite (imap_fmap_ext _ _ (fun _ x => x)) by (intros; apply egress_at_fields). apply imap_snd.
Qed.
Lemma egress_marks used : map E_Mark (egresses o p used) = map (mark_of o) (seq 1 (length (egresses o p used))).
Proof.
  unfold egresses. cbn [map E_Mark length]. rewrite length_imap. cbn [seq map]. f_equal.
  rewrite (imap_fmap_ext _ _ (fun i _ => mark_of o (i + 2))) by (intros; apply egress_at_fields).
  apply list_eq. intros i. rewrite list_lookup_imap. change (map (mark_of o) ?l) with (mark_of o <$> l). rewrite list_lookup_fmap.
  destruct (other_tags used !! i) as [t|] eqn:E.
  - rewrite lookup_seq_lt by by eapply lookup_lt_Some. cbn. do 2 f_equal. lia.
  - rewrite lookup_seq_ge by by apply lookup_ge_None. done.
Qed.
Lemma egress_tags_NoDup used : NoDup (map Tag (egresses o p used)).
Proof.
  rewrite egress_tags. constructor; [|apply other_tags_NoDup]. rewrite other_tags_spec. naive_solver.
Qed.

(** A map built from the egresses looks one up by its tag. *)
Lemma by_tag_lookup {A} (f : Egress -> A) (l : list Egress) (m : gmap string A) tag : NoDup (map Tag l) ->
  foldl (fun m e => <[Tag e := f e]> m) m l !! tag =
  match list_find (fun e => Tag e = tag) l with Some (_, e) => Some (f e) | None => m !! tag end.
Proof.
  revert m. induction l as [|e l IH]; intros m Hn; [done|]. apply NoDup_cons in Hn as [Hni Hn].
  cbn [foldl list_find]. rewrite IH by done. destruct (decide (Tag e = tag)) as [Ht|Ht].
  - destruct (list_find _ l) as [[i e']|] eqn:Ef.
    + exfalso. apply list_find_Some in Ef as (Hl & He' & _). apply Hni. rewrite Ht, <- He'.
      apply list_elem_of_fmap. exists e'. split; [done|]. by eapply list_elem_of_lookup_2.
    + rewrite <- Ht. by rewrite lookup_insert_eq.
  - destruct (list_find _ l) as [[i e']|]; cbn; [done|]. by rewrite lookup_insert_ne.
Qed.
Lemma tag_in_egresses tag : NDMPolicyName tag = None -> tag ∈ usedEgress st ->
  exists e, e ∈ es /\ Tag e = tag /\ markByTag es !! tag = Some (E_Mark e) /\ kindByTag es !! tag = Some (Kind e).
Proof.
  intros _ Hin. assert (Ht : tag ∈ map Tag es).
  { rewrite egress_tags. destruct (decide (tag = OutboundDirect)) as [->|]; [left|]. right. by apply other_tags_spec. }
  apply list_elem_of_fmap in Ht as (e & -> & He). exists e. split_and!; [done|done| |].
  all: unfold markByTag, kindByTag; rewrite by_tag_lookup by apply egress_tags_NoDup.
  all: apply list_elem_of_lookup in He as [i Hi].
  all: destruct (list_find (fun e' => Tag e' = Tag e) es) as [[j e']|] eqn:Ef.
  2,4: apply list_find_None in Ef; rewrite Forall_lookup in Ef; by destruct (Ef _ _ Hi).
  all: apply list_find_Some in Ef as (Hj & He' & _).
  all: assert (j = i) as -> by (eapply (NoDup_lookup (map Tag es)); [apply egress_tags_NoDup| |];
         change (map Tag ?l) with (Tag <$> l); rewrite list_lookup_fmap; [by rewrite Hj|by rewrite Hi; cbn; f_equal]).
  all: congruence.
Qed.

(** Every other egress is what its tag resolved to. *)
Lemma egress_spec e : e ∈ es -> (Tag e = OutboundDirect /\ Kind e = EgressWAN /\ E_Table e = WANTable o /\ FailClosed e = false) \/
  (resolves o p (Tag e) (Kind e) (Iface e) /\
   FailClosed e = bool_decide (Kind e = EgressInterface) && match GroupByID p (Tag e) with Some g => gr_KillSwitch g | None => false end).
Proof.
  unfold egresses. rewrite elem_of_cons. intros [->|Hin]; [by left|right].
  apply elem_of_lookup_imap in Hin as (i & tag & -> & Hl).
  assert (Ht : tag ∈ other_tags (usedEgress st)) by by eapply list_elem_of_lookup_2.
  apply other_tags_spec in Ht as [Ht _].
  destruct (zi_tags _ _ _ (collect_inv unicode_lower o p) tag Ht) as [_ (k & ifc & Hr)].
  unfold egress_at. destruct (proj2 Hr tag) as [ws ->]. by split.
Qed.
End egress.

(** ** Policies and their slots *)
Lemma dedup_elem seen l x : x ∈ dedup seen l <-> x ∈ l /\ x <> "" /\ x ∉ seen.
Proof.
  revert seen. induction l as [|y l IH]; intros seen; cbn [dedup]; [rewrite elem_of_nil; naive_solver|].
  rewrite elem_of_cons. case_bool_decide as H1; cbn [orb]; [rewrite IH; naive_solver|].
  case_bool_decide as H2; [rewrite IH; naive_solver|].
  rewrite elem_of_cons, IH, elem_of_union, elem_of_singleton.
  destruct (decide (x = y)) as [->|]; naive_solver.
Qed.
Lemma dedup_NoDup seen l : NoDup (dedup seen l).
Proof.
  revert seen. induction l as [|y l IH]; intros seen; cbn [dedup]; [constructor|].
  destruct (_ || _); [apply IH|]. constructor; [|apply IH]. rewrite dedup_elem. set_solver.
Qed.
Lemma policy_names_spec zs : NoDup (policy_names zs) /\
  forall n, n ∈ policy_names zs <-> n <> "" /\ exists z, z ∈ zs /\ NDMPolicy z = n.
Proof.
  unfold policy_names. split; [rewrite sort_strings_perm; apply dedup_NoDup|]. intros n.
  rewrite sort_strings_perm, dedup_elem. change (map NDMPolicy zs) with (NDMPolicy <$> zs). rewrite list_elem_of_fmap. set_solver.
Qed.
Lemma policy_names_length zs zs' : (forall n, (exists z, z ∈ zs /\ NDMPolicy z = n) <-> exists z, z ∈ zs' /\ NDMPolicy z = n) ->
  length (policy_names zs) = length (policy_names zs').
Proof.
  intros H. destruct (policy_names_spec zs) as [Hn Hs], (policy_names_spec zs') as [Hn' Hs'].
  apply Permutation_length, NoDup_Permutation; [done|done|]. intros n. by rewrite Hs, Hs', H.
Qed.
Lemma slotOf_lookup o es zs n : n ∈ policy_names zs -> exists i, policy_names zs !! i = Some n /\
  slotOf o es zs !! n = Some (mark_of o (length es + 1 + i)).
Proof.
  intros Hn. destruct (policy_names_spec zs) as [Hnd _]. apply list_elem_of_lookup in Hn as [i Hi]. exists i. split; [done|].
  unfold slotOf. apply elem_of_list_to_map_1.
  - change (fst <$> ?l) with (map fst l). rewrite (imap_fmap_ext _ _ (fun _ x => x)) by done. by rewrite imap_snd.
  - apply elem_of_lookup_imap. by exists i, n.
Qed.

(** With the default step, the first 255 marks are distinct, not 0, and within the mask. *)
Lemma mark_of_small o n : MarkStep o = 0x10000 -> (n <= 255)%nat -> mark_of o n = Z.of_nat n * 65536.
Proof. intros Hs Hn. unfold mark_of, u32. rewrite Hs, (Z.mod_small (Z.of_nat n)) by lia. apply Z.mod_small. lia. Qed.
Lemma mark_in_mask n : (n <= 255)%nat -> Z.land (Z.of_nat n * 65536) 0xff0000 = Z.of_nat n * 65536.
Proof.
  intros Hn. assert (Hz : 0 <= Z.of_nat n < 256) by lia. revert Hz. generalize (Z.of_nat n). apply below_256.
  intros k Hk. do 256 (destruct k as [|k]; [reflexivity|]). lia.
Qed.

Section marks.
Context (unicode_lower : bytes -> bytes) (quote : string -> string) (opt : Options) (p : Profile).
Context (Hmask : MarkMask opt = 0) (Hstep : MarkStep opt = 0).
Abbreviation o := (withDefaults opt).
Abbreviation st := (collect unicode_lower o p).
Abbreviation es := (egresses o p (usedEgress st)).
Abbreviation pl := (plan_of unicode_lower quote opt p).
Context (Hcount : (length (Egresses pl) + length (policy_names (Zones pl)) <= 255)%nat).

Lemma default_step : MarkStep o = 0x10000.
Proof. unfold withDefaults. cbn [MarkStep]. by rewrite Hstep. Qed.
Lemma plan_mask : Mask pl = 0xff0000.
Proof.
  unfold plan_of, compile_profile. destruct (classifyCIDRs _) as [[? ?] ?], (flowtable _ _).
  cbn. unfold withDefaults. cbn [MarkMask]. by rewrite Hmask.
Qed.
Lemma count_collected : (length es + length (policy_names (s_Zones st)) <= 255)%nat.
Proof.
  rewrite (plan_egresses unicode_lower quote opt p) in Hcount.
  rewrite (policy_names_length (s_Zones st) (Zones pl)); [done|]. intros n.
  setoid_rewrite (plan_zones_perm unicode_lower quote opt p). setoid_rewrite list_elem_of_fmap. split.
  - intros (z & Hz & <-). eexists. split; [by exists z|]. by apply set_mark_fields.
  - intros (z' & (z & -> & Hz) & <-). exists z. split; [done|]. symmetry. by apply set_mark_fields.
Qed.
Lemma marks_small : map E_Mark (Egresses pl) = map (fun n => Z.of_nat n * 65536) (seq 1 (length es)).
Proof.
  rewrite plan_egresses, egress_marks. apply map_ext_in. intros n Hn%in_seq.
  pose proof count_collected. apply mark_of_small; [apply default_step|lia].
Qed.
(** A policy zone of the plan carries its policy's slot. *)
Lemma policy_zone z : z ∈ Zones pl -> NDMPolicy z <> "" -> exists i,
  policy_names (s_Zones st) !! i = Some (NDMPolicy z) /\ (i < length (policy_names (s_Zones st)))%nat /\
  Z_Mark z = Z.of_nat (length es + 1 + i) * 65536 /\ NDMMark z = default 0 (NDMPolicies opt !! NDMPolicy z).
Proof.
  rewrite plan_zones_perm. intros (z0 & -> & Hz)%list_elem_of_fmap. 
  destruct (set_mark_fields unicode_lower opt p (slotOf o es (s_Zones st)) z0) as (_ & _ & _ & _ & _ & _ & ->). intros Hne.
  assert (Hin : NDMPolicy z0 ∈ policy_names (s_Zones st)) by (apply policy_names_spec; eauto).
  destruct (slotOf_lookup o es _ _ Hin) as (i & Hi & Hs). exists i.
  pose proof (lookup_lt_Some _ _ _ Hi) as Hlt. split_and!; [done|done| |].
  - unfold set_mark. rewrite bool_decide_eq_false_2 by done.
    transitivity (default 0 (slotOf o es (s_Zones st) !! NDMPolicy z0)); [reflexivity|].
    rewrite Hs. transitivity (mark_of o (length es + 1 + i)); [reflexivity|].
    pose proof count_collected. apply mark_of_small; [apply default_step|lia].
  - unfold set_mark. by rewrite bool_decide_eq_false_2.
Qed.
Lemma marks_NoDup : NoDup (map E_Mark (Egresses pl)).
Proof.
  rewrite marks_small. apply NoDup_fmap; [|apply NoDup_seq]. intros i j E. cbn beta in E. lia.
Qed.
End marks.

(** Marks are distinct and fit the mask. With the default marking, and no more than 255 egresses
    and access policies together, no two egresses share a mark, every mark is nonzero and within the
    plan's mask, and each access policy has a slot of its own, no egress's mark, that its zones carry
    together with the policy's mark. *)
Theorem marks_are_distinct unicode_lower quote opt p :
  MarkMask opt = 0 -> MarkStep opt = 0 -> let pl := plan_of unicode_lower quote opt p in
  (length (Egresses pl) + length (policy_names (Zones pl)) <= 255)%nat ->
  NoDup (map E_Mark (Egresses pl)) /\
  Forall (fun m => m <> 0 /\ Z.land m (Mask pl) = m) (map E_Mark (Egresses pl)) /\
  Forall (fun z => NDMPolicy z <> "" ->
    Z_Mark z <> 0 /\ Z.land (Z_Mark z) (Mask pl) = Z_Mark z /\ (Z_Mark z ∉ map E_Mark (Egresses pl)) /\
    NDMMark z = default 0 (NDMPolicies opt !! NDMPolicy z) /\
    Forall (fun z' => NDMPolicy z' <> "" -> (Z_Mark z = Z_Mark z' <-> NDMPolicy z = NDMPolicy z')) (Zones pl)) (Zones pl).
Proof.
  intros Hm Hs pl Hc. subst pl. pose proof (count_collected _ _ _ _ Hc) as Hc'. split_and!; [by apply marks_NoDup| |].
  - rewrite (marks_small _ _ _ _ Hs Hc). apply Forall_forall. intros m (n & -> & Hn%elem_of_seq)%list_elem_of_fmap.
    rewrite (plan_mask _ _ _ _ Hm). split; [lia|]. apply mark_in_mask. lia.
  - apply Forall_forall. intros z Hz Hne. destruct (policy_zone _ _ _ _ Hs Hc z Hz Hne) as (i & Hi & Hlt & Hmk & Hnm).
    rewrite (plan_mask _ _ _ _ Hm), (marks_small _ _ _ _ Hs Hc), Hmk. split_and!; [lia|apply mark_in_mask; lia| |done|].
    + intros (n & E & Hn%elem_of_seq)%list_elem_of_fmap. lia.
    + apply Forall_forall. intros z' Hz' Hne'. destruct (policy_zone _ _ _ _ Hs Hc z' Hz' Hne') as (j & Hj & _ & Hmk' & _).
      rewrite Hmk'. split; [intros E; assert (i = j) as -> by lia; congruence|]. intros E. rewrite E in Hi.
      assert (i = j) as -> by (eapply NoDup_lookup; [apply policy_names_spec|done|done]). done.
Qed.

(** ** Well-formed plans *)
Definition egress_ok (opt : Options) (p : Profile) (e : Egress) : Prop :=
  ((Kind e = EgressWAN \/ Kind e = EgressBlackhole) /\ Iface e = "" /\ FailClosed e = false) \/
  (Kind e = EgressInterface /\ Iface e <> "" /\
   (FailClosed e = true <-> exists g, GroupByID p (Tag e) = Some g /\ gr_KillSwitch g = true)).
Lemma resolves_kind o p tag k ifc : resolves o p tag k ifc ->
  ((k = EgressWAN \/ k = EgressBlackhole) /\ ifc = "") \/ (k = EgressInterface /\ ifc <> "") \/
  (k = EgressNDMPolicy /\ is_Some (NDMPolicyName tag)).
Proof.
  intros [_ H]. destruct (H "") as [ws Hr]. revert Hr. unfold resolveEgress.
  repeat (case_match; try (intros [= <- <- _]; auto; fail)); bool_facts; intros [= <- <- _]; eauto.
Qed.

Section wf.
Context (unicode_lower : bytes -> bytes) (quote : string -> string) (opt : Options) (p : Profile).
Abbreviation o := (withDefaults opt).
Abbreviation st := (collect unicode_lower o p).
Abbreviation es := (egresses o p (usedEgress st)).
Abbreviation pl := (plan_of unicode_lower quote opt p).

Lemma used_no_policy tag : tag ∈ usedEgress st -> NDMPolicyName tag = None.
Proof. intros H. by apply (zi_tags _ _ _ (collect_inv unicode_lower o p)). Qed.
Lemma egress_well_formed e : e ∈ es -> egress_ok o p e /\ NDMPolicyName (Tag e) = None.
Proof.
  intros He. destruct (egress_spec unicode_lower opt p e He) as [(Ht & Hk & _ & Hf)|[Hr Hf]].
  - split; [|by rewrite Ht]. left. split_and!; [by left| |done].
    unfold egresses in He. apply elem_of_cons in He as [->|Hin]; [done|].
    apply elem_of_lookup_imap in Hin as (i & tag & -> & Hl%list_elem_of_lookup_2). apply other_tags_spec in Hl as [_ Hne].
    by rewrite (proj1 (egress_at_fields _ _ _ _)) in Ht.
  - assert (Hn : NDMPolicyName (Tag e) = None).
    { assert (Ht : Tag e ∈ map Tag es) by (apply list_elem_of_fmap; by exists e).
      rewrite egress_tags in Ht. apply elem_of_cons in Ht as [->|Ht]; [done|].
      apply other_tags_spec in Ht as [Ht _]. by apply used_no_policy. }
    split; [|done]. unfold egress_ok. rewrite Hf.
    destruct (resolves_kind _ _ _ _ _ Hr) as [[[Hk|Hk] Hi]|[[Hk Hi]|[_ Hs]]].
    + left. rewrite Hk. split_and!; [by left|done|done].
    + left. rewrite Hk. split_and!; [by right|done|done].
    + right. rewrite Hk. split_and!; [done|done|]. cbn [andb]. rewrite bool_decide_eq_true_2 by done.
      destruct (GroupByID p (Tag e)) as [g|]; naive_solver.
    + rewrite Hn in Hs. by destruct Hs.
Qed.
(** A zone of the plan, by the zone it was collected as. *)
Lemma plan_zone z : z ∈ Zones pl -> exists z0 name tag dst src used, z0 ∈ s_Zones st /\
  z = set_mark o es (slotOf o es (s_Zones st)) z0 /\ origin o p name tag dst src /\ zone_of name tag dst src used z0 /\
  EgressTag z = tag /\ NDMPolicy z = default "" (NDMPolicyName tag).
Proof.
  rewrite plan_zones_perm. intros (z0 & -> & Hz)%list_elem_of_fmap.
  pose proof (zi_origin _ _ _ (collect_inv unicode_lower o p)) as Ho. rewrite Forall_forall in Ho.
  destruct (Ho z0 Hz) as (name & tag & dst & src & used & Hor & Hzo).
  destruct (set_mark_fields unicode_lower opt p (slotOf o es (s_Zones st)) z0) as (_ & -> & _ & _ & _ & _ & ->).
  exists z0, name, tag, dst, src, used. split_and!; [done|done|done|done|by apply (zo_tag _ _ _ _ _ _ Hzo)|by apply (zo_policy _ _ _ _ _ _ Hzo)].
Qed.
Lemma plan_zone_egress z : z ∈ Zones pl -> NDMPolicyName (EgressTag z) = None ->
  exists e, e ∈ Egresses pl /\ Tag e = EgressTag z /\ Z_Mark z = E_Mark e /\
    kindByTag (Egresses pl) !! EgressTag z = Some (Kind e) /\ resolves o p (EgressTag z) (Kind e) (Iface e).
Proof.
  intros Hz Hn. destruct (plan_zone z Hz) as (z0 & name & tag & dst & src & used & Hz0 & Ez & Hor & Hzo & Et & Epol).
  assert (Hu : EgressTag z0 ∈ usedEgress st).
  { pose proof (zi_egress _ _ _ (collect_inv unicode_lower o p)) as He. rewrite Forall_forall in He.
    apply He; [done|]. rewrite (zo_tag _ _ _ _ _ _ Hzo). by rewrite <- Et. }
  rewrite (zo_tag _ _ _ _ _ _ Hzo), <- Et in Hu. rewrite plan_egresses.
  destruct (tag_in_egresses unicode_lower opt p (EgressTag z) Hn Hu) as (e & He & Ht & Hm & Hk).
  exists e. split_and!; [done|done| |done|].
  - transitivity (Z_Mark (set_mark o es (slotOf o es (s_Zones st)) z0)); [by rewrite Ez|]. unfold set_mark. assert (NDMPolicy z0 = "") as ->.
    { rewrite (zo_policy _ _ _ _ _ _ Hzo), <- Et, Hn. done. }
    rewrite bool_decide_eq_true_2 by done. transitivity (default 0 (markByTag es !! EgressTag z0)); [reflexivity|].
    by rewrite (zo_tag _ _ _ _ _ _ Hzo), <- Et, Hm.
  - destruct (egress_spec unicode_lower opt p e He) as [(Hd & Hkd & _)|[Hr _]]; [|by rewrite <- Ht].
    rewrite <- Ht, Hd, Hkd. destruct (egress_well_formed e He) as [[(_ & -> & _)|(Hki & _)] _]; [|by rewrite Hkd in Hki].
    split; [done|]. intros scope. by exists [].
Qed.
Lemma kind_no_policy tag k : kindByTag (Egresses pl) !! tag = Some k -> NDMPolicyName tag = None.
Proof.
  rewrite plan_egresses. unfold kindByTag. rewrite by_tag_lookup by apply egress_tags_NoDup.
  destruct (list_find _ _) as [[i e]|] eqn:Ef; [|done]. intros _.
  apply list_find_Some in Ef as (Hl%list_elem_of_lookup_2 & <- & _). by apply egress_well_formed.
Qed.
End wf.

(** C36: a compiled plan is well formed. Egress tags are distinct, the WAN's first; every egress is the
    WAN or a blackhole without an interface, or a tunnel with one, which fails closed exactly when its
    tag is a kill-switched group; and every zone that no access policy routes carries the mark of the
    egress its tag names. *)
Theorem plan_well_formed unicode_lower quote opt p : let pl := plan_of unicode_lower quote opt p in
  NoDup (map Tag (Egresses pl)) /\ head (map Tag (Egresses pl)) = Some OutboundDirect /\
  Forall (egress_ok (withDefaults opt) p) (Egresses pl) /\
  Forall (fun z => NDMPolicyName (EgressTag z) = None ->
    exists e, e ∈ Egresses pl /\ Tag e = EgressTag z /\ Z_Mark z = E_Mark e) (Zones pl).
Proof.
  intros pl. subst pl. split_and!.
  - rewrite plan_egresses. apply egress_tags_NoDup.
  - rewrite plan_egresses, egress_tags. done.
  - rewrite plan_egresses. apply Forall_forall. intros e He. by apply (egress_well_formed unicode_lower).
  - apply Forall_forall. intros z Hz Hn.
    destruct (plan_zone_egress unicode_lower quote opt p z Hz Hn) as (e & He & Ht & Hm & _). by exists e.
Qed.

(** A small profile: an adopted tunnel carries a list, a block list cuts into it, and an access policy
    carries a third. *)
Definition demo_list (id outbound : string) (entries : list string) : RoutingList :=
  zero_list <| rl_ID := id |> <| Manual := entries |> <| rl_Outbound := outbound |> <| rl_Enabled := true |>.
Definition demo : Profile :=
  zero_profile <| Endpoints := [(adopted "t1" "awg0") <| ep_Server := "192.0.2.7" |>] |>
    <| RoutingLists := [demo_list "a" "t1" ["10.9.0.0/16"]; demo_list "b" "block" ["10.9.1.0/24"];
                        demo_list "c" "ndm-policy:P1" ["10.8.0.0/16"]] |>.
Definition demo_opt : Options := mkOptions "" 0 0 0 0 0 "" [] false {["P1" := 0xffffaab]}.
Abbreviation demo_plan := (plan_of (fun s => s) (fun s => s) demo_opt demo).
Lemma marks_are_distinct_witness :
  (length (Egresses demo_plan) + length (policy_names (Zones demo_plan)) <= 255)%nat /\ NoDup (map E_Mark (Egresses demo_plan)).
Proof.
  assert (H : (length (Egresses demo_plan) + length (policy_names (Zones demo_plan)) <= 255)%nat) by (apply Nat.leb_le; vm_compute; reflexivity).
  split; [exact H|]. exact (proj1 (marks_are_distinct (fun s => s) (fun s => s) demo_opt demo eq_refl eq_refl H)).
Defined.

(** * The kernel plan: where traffic goes

    The plan [Compile] makes, read through the view the conntrack flush takes of it ([CtFlush.newView],
    [eval]): blocks win over every other zone, and what an enabled list names is carried to the list's
    outbound. *)

(** ** Blocks win *)
Lemma zone_le_spec kinds a b : zone_le kinds a b <->
  (isBlock kinds a = isBlock kinds b /\ String.le (Z_Name a) (Z_Name b)) \/
  (isBlock kinds a = false /\ isBlock kinds b = true).
Proof.
  unfold zone_le, zone_less.
  destruct (isBlock kinds a), (isBlock kinds b); cbn; try naive_solver;
    (case_bool_decide; cbn; naive_solver).
Qed.
#[export] Instance zone_le_total kinds : Total (zone_le kinds).
Proof.
  intros a b. rewrite !zone_le_spec. pose proof (total String.le (Z_Name a) (Z_Name b)).
  destruct (isBlock kinds a), (isBlock kinds b); naive_solver.
Qed.
#[export] Instance zone_le_trans kinds : Transitive (zone_le kinds).
Proof.
  intros a b c. rewrite !zone_le_spec. intros [[E1 H1]|[H1 H1']] [[E2 H2]|[H2 H2']].
  - left. split; [congruence|by etrans].
  - right. split; congruence.
  - right. split; congruence.
  - congruence.
Qed.
(** After a block zone there are only block zones. *)
Lemma blocks_last kinds zs k1 x k2 b : orderZonesForEmit zs kinds = k1 ++ x :: k2 -> b ∈ k1 ++ [x] ->
  isBlock kinds b = true -> isBlock kinds x = true.
Proof.
  intros E Hb Hbl. apply elem_of_app in Hb as [Hb| ->%list_elem_of_singleton]; [|done].
  assert (Hs : StronglySorted (zone_le kinds) (k1 ++ x :: k2)).
  { rewrite <- E. apply StronglySorted_merge_sort; apply _. }
  assert (Hle : zone_le kinds b x) by (eapply StronglySorted_app_1_elem_of; [exact Hs|done|left]).
  rewrite zone_le_spec in Hle. destruct Hle as [[Eq _]|[Hf _]]; congruence.
Qed.
Lemma omap_split {A B} (f : A -> option B) l l1 y l2 : omap f l = l1 ++ y :: l2 ->
  exists k1 x k2, l = k1 ++ x :: k2 /\ f x = Some y /\ omap f k2 = l2.
Proof.
  revert l1. induction l as [|a l IH]; intros l1; [by destruct l1|].
  change (omap f (a :: l)) with (match f a with Some y => y :: omap f l | None => omap f l end).
  destruct (f a) as [z|] eqn:Ea.
  - destruct l1 as [|z' l1]; cbn; intros [= -> E].
    + by exists [], a, l.
    + destruct (IH l1 E) as (k1 & x & k2 & -> & Hx & Hk). by exists (a :: k1), x, k2.
  - intros E. destruct (IH l1 E) as (k1 & x & k2 & -> & Hx & Hk). by exists (a :: k1), x, k2.
Qed.
Lemma newView_zones pl mask : zones (newView ParsePrefix ParseAddr (Some pl) mask) = omap (zone_view ParsePrefix ParseAddr mask) (Zones pl).
Proof. done. Qed.
Lemma zone_view_mark pp pa mask z zv : zone_view pp pa mask z = Some zv -> mark zv = Z.land (Z_Mark z) mask.
Proof. unfold zone_view. case_match; [done|]. by intros [= <-]. Qed.

(** C28: blocks win. When a zone of the plan that drops traffic matches a flow, and the plan can tell
    where the flow goes, the mark it gives the flow is a blackhole's, whichever other zones match. *)
Theorem blocks_win unicode_lower quote opt p mask z zv e nm matched :
  let pl := plan_of unicode_lower quote opt p in
  z ∈ Zones pl -> isBlock (kindByTag (Egresses pl)) z = true ->
  zone_view ParsePrefix ParseAddr mask z = Some zv -> match_ zv e = yes ->
  eval (newView ParsePrefix ParseAddr (Some pl) mask) e = (nm, matched, true) ->
  matched = true /\ exists b, b ∈ Egresses pl /\ Kind b = EgressBlackhole /\ nm = Z.land (E_Mark b) mask.
Proof.
  intros pl Hz Hb Hv Hm He. apply eval_spec in He. unfold plan_mark in He. rewrite newView_zones in He.
  assert (Hin : zv ∈ omap (zone_view ParsePrefix ParseAddr mask) (Zones pl)) by (apply list_elem_of_omap; by exists z).
  destruct matched.
  2:{ exfalso. destruct He as [_ Hall]. rewrite Forall_forall in Hall. specialize (Hall _ Hin). congruence. }
  split; [done|]. destruct He as (l1 & zx & l2 & El & Hx & Hmark & Hall).
  destruct (omap_split _ _ _ _ _ El) as (k1 & x & k2 & Ek & Hvx & Hk2).
  assert (Hbx : isBlock (kindByTag (Egresses pl)) x = true).
  { assert (Hzk : z ∈ k1 ++ [x]).
    { rewrite Ek in Hz. apply elem_of_app in Hz as [Hz|[->|Hz]%elem_of_cons]; [apply elem_of_app; by left|set_solver|].
      exfalso. rewrite Forall_forall in Hall. assert (zv ∈ l2) as H2 by (rewrite <- Hk2; apply list_elem_of_omap; by exists z).
      specialize (Hall _ H2). congruence. }
    pose proof (plan_zones unicode_lower quote opt p) as Ho. fold pl in Ho. rewrite Ek in Ho.
    unfold pl in *. rewrite plan_egresses in *. symmetry in Ho. exact (blocks_last _ _ _ _ _ _ Ho Hzk Hb). }
  assert (Hxin : x ∈ Zones pl) by (rewrite Ek; set_solver).
  unfold isBlock in Hbx. apply bool_decide_eq_true_1 in Hbx.
  assert (Hn : NDMPolicyName (EgressTag x) = None) by by eapply kind_no_policy.
  destruct (plan_zone_egress unicode_lower quote opt p x Hxin Hn) as (b & Hbin & Ht & Hmk & Hk & _).
  exists b. split; [done|]. fold pl in Hk. split; [congruence|]. rewrite <- Hmark, (zone_view_mark _ _ _ _ _ Hvx). by rewrite Hmk.
Qed.

(** ** What is listed is routed *)
Lemma names_addr_text pfx a : prefix_ok pfx -> wf_prefix pfx -> Is4In6 (p_addr pfx) = false ->
  names_addr a (PrefixString pfx) = Contains pfx a.
Proof.
  intros Hok Hwf H4. unfold names_addr, entry_prefix. rewrite trim_PrefixString by done.
  assert (has_byte 47 (str (PrefixString pfx)) = true) as ->.
  { destruct (prefix_text_bytes pfx Hok) as [Hv Hs]. unfold PrefixString. by rewrite str_unstr by by apply visible_bytes. }
  rewrite ParsePrefix_String by done. cbn [fmap option_fmap option_map]. rewrite Masked_wf by done.
  unfold fold4in6. by rewrite H4.
Qed.
(** Dropping a list's IPv6 entries keeps the IPv4 addresses it names. *)
Lemma v4_only_names entries v4 v6 names a : classifyCIDRs entries = (v4, v6, names) -> Is6 a = false ->
  existsb (names_addr a) v4 = existsb (names_addr a) entries.
Proof.
  intros H Ha. pose proof (classify_read_back _ _ _ _ H) as (_ & _ & _ & F6 & Hc).
  rewrite <- Hc, (other_family _ a true F6 Ha), orb_false_r.
  unfold classifyCIDRs in H. destruct (classify_fold_spec entries no_classes no_classes_inv) as [(H4 & _) _].
  destruct (foldl classify_one no_classes entries) as [q4 q6 s4 s6 b]. cbn [p4 p6 PbrLists.bad] in *. simplify_eq.
  assert (W4 : Forall (fun p => prefix_ok p /\ wf_prefix p /\ Is4In6 (p_addr p) = false) q4)
    by (eapply Forall_impl; [exact H4|naive_solver]).
  destruct (read_back_collapsed _ W4) as [-> _]. rewrite containsAny_existsb.
  assert (Hall : Forall (fun p => prefix_ok p /\ wf_prefix p /\ Is4In6 (p_addr p) = false) (collapsePrefixes q4)).
  { apply Forall_forall. intros q Hin. apply sweep_subset in Hin. rewrite merge_sort_Permutation in Hin.
    rewrite Forall_forall in W4. by apply W4. }
  clear Hc F6. induction Hall as [|q qs (Hok & Hwf & Hq4) _ IH]; [done|]. cbn [map existsb]. rewrite IH. f_equal. by apply names_addr_text.
Qed.
Lemma list_dst_names opt strip entries a : existsb (names_addr a) entries = true -> (Is6 a = true -> strip = false) ->
  existsb (names_addr a) (list_dst opt strip entries) = true.
Proof.
  intros He Ha. unfold list_dst. destruct strip; [|done].
  assert (H6 : Is6 a = false) by (destruct (Is6 a); [by discriminate Ha|done]).
  destruct (classifyCIDRs entries) as [[v4 v6] names] eqn:Ec. rewrite <- (v4_only_names _ _ _ _ a Ec H6) in He.
  destruct (CollectDomainZones opt); [|done]. rewrite existsb_app, He. done.
Qed.

Section listed.
Context (unicode_lower : bytes -> bytes) (opt : Options) (p : Profile).

(** A call with an address among its destinations adds a zone that has it. *)
Lemma addZone_covers name tag dst src neg scope st a : existsb (names_addr a) dst = true ->
  exists z, s_Zones (Pbr.addZone unicode_lower opt name tag dst src neg scope st) = s_Zones st ++ [z] /\
    EgressTag z = tag /\ (src = None -> SrcScoped z = false) /\
    containsAny (read_back (if Is6 a then V6 z else V4 z)) a = true.
Proof.
  intros Ha. destruct (classifyCIDRs dst) as [[v4 v6] names] eqn:Ec.
  pose proof (classify_read_back _ _ _ _ Ec) as (_ & _ & F4 & F6 & Hc). rewrite <- Hc in Ha.
  assert (Hcov : containsAny (read_back (if Is6 a then v6 else v4)) a = true).
  { destruct (Is6 a) eqn:Ea; [by rewrite (other_family _ a false F4 Ea) in Ha|].
    by rewrite (other_family _ a true F6 Ea), orb_false_r in Ha. }
  destruct (addZone_adds unicode_lower opt name tag dst src neg scope st) as [(_ & E4 & E6)|(z & Ez & _ & _ & Hz)].
  - rewrite Ec in E4, E6. cbn in E4, E6. subst. by destruct (Is6 a).
  - exists z. split_and!; [done|by apply (zo_tag _ _ _ _ _ _ Hz)|by apply (zo_unscoped _ _ _ _ _ _ Hz)|].
    rewrite (zo_v4 _ _ _ _ _ _ Hz), (zo_v6 _ _ _ _ _ _ Hz), Ec. done.
Qed.
Lemma add_list_covers st rl k ifc a : rl_Enabled rl = true -> ScopeMode rl <> "only" -> ScopeMode rl <> "except" ->
  resolves opt p (rl_Outbound rl) k ifc -> existsb (names_addr a) (list_entries rl) = true ->
  (Is6 a = true -> stripped p k (rl_Outbound rl) = false) ->
  exists z, z ∈ s_Zones (add_list unicode_lower opt p st rl) /\ EgressTag z = rl_Outbound rl /\ SrcScoped z = false /\
    containsAny (read_back (if Is6 a then V6 z else V4 z)) a = true.
Proof.
  intros He Ho Hx [Hk Hr] Ha H6. unfold add_list. rewrite He. cbn [negb]. fold (list_entries rl).
  assert (empty (list_entries rl) = false) as -> by (apply empty_false; by intros E; rewrite E in Ha).
  destruct (scopeMembers p rl) as [macs ips]. rewrite (bool_decide_eq_false_2 (ScopeMode rl = "only")) by done.
  rewrite (bool_decide_eq_false_2 (ScopeMode rl = "except")) by done. cbn [andb].
  destruct (Hr (rl_ID rl)) as [ws ->]. rewrite (bool_decide_eq_false_2 (k = "")) by done. cbn [andb negb].
  pose proof (list_dst_names opt (stripped p k (rl_Outbound rl)) _ a Ha H6) as Hd.
  assert (empty (list_dst opt (stripped p k (rl_Outbound rl)) (list_entries rl)) = false) as ->
    by (apply empty_false; by intros E; rewrite E in Hd).
  match goal with |- context [Pbr.addZone _ _ ?n ?t ?d ?s ?g ?c ?s0] => destruct (addZone_covers n t d s g c s0 a Hd) as (z & Ez & Ht & Hs & Hc) end.
  exists z. rewrite Ez. split_and!; [set_solver|done|by apply Hs|done].
Qed.
Lemma add_list_keeps st rl z : rl ∈ RoutingLists p -> z ∈ s_Zones st -> z ∈ s_Zones (add_list unicode_lower opt p st rl).
Proof.
  intros Hrl. apply (add_list_ind unicode_lower opt p (fun st => z ∈ s_Zones st)); [| |done].
  - intros s s' (E & _). by rewrite E.
  - intros name tag dst src s s' _ [[(E & _) _]|(z' & E & _)] Hz; rewrite E; [done|]. apply elem_of_app. by left.
Qed.
Lemma collect_covers rl k ifc a : rl ∈ RoutingLists p -> rl_Enabled rl = true ->
  ScopeMode rl <> "only" -> ScopeMode rl <> "except" ->
  resolves opt p (rl_Outbound rl) k ifc -> existsb (names_addr a) (list_entries rl) = true ->
  (Is6 a = true -> stripped p k (rl_Outbound rl) = false) ->
  exists z, z ∈ s_Zones (collect unicode_lower opt p) /\ EgressTag z = rl_Outbound rl /\ SrcScoped z = false /\
    containsAny (read_back (if Is6 a then V6 z else V4 z)) a = true.
Proof.
  intros Hrl He Ho Hx Hr Ha H6. unfold collect. generalize (foldl (add_rule unicode_lower opt p) (mkState [] ∅ ∅ []) (Rules p)) as s0.
  assert (Hsub : forall rl', rl' ∈ RoutingLists p -> rl' ∈ RoutingLists p) by done. revert Hsub Hrl.
  generalize (RoutingLists p) at 1 3 4 as ls. induction ls as [|l ls IH]; intros Hsub Hrl s0; [by apply elem_of_nil in Hrl|].
  apply elem_of_cons in Hrl as [->|Hrl]; [|apply IH; [intros; apply Hsub; by right|done]]. cbn [foldl].
  destruct (add_list_covers s0 l k ifc a He Ho Hx Hr Ha H6) as (z & Hz & Hrest). exists z. split; [|done].
  clear IH. apply foldl_inv; [done|]. intros s b Hb. apply add_list_keeps. apply Hsub. by right.
Qed.
End listed.

(** C26: what is listed is routed. For an enabled list open to every device, whose outbound the kernel
    can carry, and an address some entry of it names (an IPv4 one, if the tunnel takes no IPv6), the
    plan has a zone, for every source, that contains the address and carries the mark of the list's
    egress, which leads where the outbound resolves. *)
Theorem listed_is_routed unicode_lower quote opt p rl k ifc a :
  let pl := plan_of unicode_lower quote opt p in
  rl ∈ RoutingLists p -> rl_Enabled rl = true -> ScopeMode rl <> "only" -> ScopeMode rl <> "except" ->
  NDMPolicyName (rl_Outbound rl) = None -> resolves (withDefaults opt) p (rl_Outbound rl) k ifc ->
  existsb (names_addr a) (list_entries rl) = true -> (Is6 a = true -> stripped p k (rl_Outbound rl) = false) ->
  exists z e, z ∈ Zones pl /\ SrcScoped z = false /\
    containsAny (read_back (if Is6 a then V6 z else V4 z)) a = true /\
    e ∈ Egresses pl /\ Tag e = rl_Outbound rl /\ Z_Mark z = E_Mark e /\ Kind e = k /\ Iface e = ifc.
Proof.
  intros pl Hrl He Ho Hx Hn Hr Ha H6. unfold pl in *.
  destruct (collect_covers unicode_lower (withDefaults opt) p rl k ifc a Hrl He Ho Hx Hr Ha H6) as (z0 & Hz0 & Ht & Hs & Hc).
  set (z := set_mark (withDefaults opt) (egresses (withDefaults opt) p (usedEgress (collect unicode_lower (withDefaults opt) p)))
    (slotOf (withDefaults opt) (egresses (withDefaults opt) p (usedEgress (collect unicode_lower (withDefaults opt) p)))
      (s_Zones (collect unicode_lower (withDefaults opt) p))) z0).
  assert (Hz : z ∈ Zones (plan_of unicode_lower quote opt p)) by (rewrite plan_zones_perm; apply list_elem_of_fmap; by exists z0).
  destruct (set_mark_fields unicode_lower opt p (slotOf (withDefaults opt) (egresses (withDefaults opt) p (usedEgress (collect unicode_lower (withDefaults opt) p))) (s_Zones (collect unicode_lower (withDefaults opt) p))) z0) as (_ & Et & E4 & E6 & _ & Es & _).
  fold z in Et, E4, E6, Es.
  destruct (plan_zone_egress unicode_lower quote opt p z Hz) as (e & Hein & Hte & Hmk & _ & Hre); [by rewrite Et, Ht|].
  exists z, e. rewrite Es, E4, E6, Hmk, Hte, Et. split_and!; [done|done|done|done|done|done| |].
  all: destruct Hre as [_ Hre], Hr as [_ Hr]; destruct (Hre "") as [w1 H1], (Hr "") as [w2 H2]; rewrite Et, Ht in H1; congruence.
Qed.

(** ** Concrete plans *)
Definition demo_zone (name tag : string) (m : Z) (v4 : list string) : Zone :=
  mkZone name tag m v4 [] [] [] [] [] [] [] false false "" 0.
Definition demo_block : Zone := demo_zone "list_b" "block" 0x20000 ["10.9.1.0/24"].
Definition demo_view : zoneView :=
  mkView 0x20000 [mkPrefix (Addr4 (10 * 2 ^ 24 + 9 * 2 ^ 16 + 256)) 24] [] false false false false [] [] false.
Definition demo_flow : Entry := mkEntry 2 (Addr4 3232235777) (Addr4 (10 * 2 ^ 24 + 9 * 2 ^ 16 + 257)) 0 [] [] [].
Lemma blocks_win_witness : exists b, b ∈ Egresses demo_plan /\ Kind b = EgressBlackhole /\ 0x20000 = Z.land (E_Mark b) 0xff0000.
Proof.
  assert (Hz : demo_block ∈ Zones demo_plan) by (apply (list_elem_of_lookup_2 _ 2); vm_compute; reflexivity).
  assert (Hb : isBlock (kindByTag (Egresses demo_plan)) demo_block = true) by (vm_compute; reflexivity).
  assert (Hv : zone_view ParsePrefix ParseAddr 0xff0000 demo_block = Some demo_view) by (vm_compute; reflexivity).
  assert (Hm : match_ demo_view demo_flow = yes) by (vm_compute; reflexivity).
  assert (He : eval (newView ParsePrefix ParseAddr (Some demo_plan) 0xff0000) demo_flow = (0x20000, true, true)) by (vm_compute; reflexivity).
  exact (proj2 (blocks_win (fun s => s) (fun s => s) demo_opt demo 0xff0000 demo_block demo_view demo_flow 0x20000 true Hz Hb Hv Hm He)).
Defined.
Lemma listed_is_routed_witness : exists z e, z ∈ Zones demo_plan /\ SrcScoped z = false /\
  containsAny (read_back (V4 z)) (Addr4 (10 * 2 ^ 24 + 9 * 2 ^ 16 + 1)) = true /\
  e ∈ Egresses demo_plan /\ Tag e = "t1" /\ Z_Mark z = E_Mark e /\ Kind e = EgressInterface /\ Iface e = "awg0".
Proof.
  assert (Hr : resolves (withDefaults demo_opt) demo "t1" EgressInterface "awg0").
  { split; [discriminate|]. intros scope. exists []. reflexivity. }
  apply (listed_is_routed (fun s => s) (fun s => s) demo_opt demo (demo_list "a" "t1" ["10.9.0.0/16"]) EgressInterface "awg0"
    (Addr4 (10 * 2 ^ 24 + 9 * 2 ^ 16 + 1))); [left|reflexivity|discriminate|discriminate|reflexivity|exact Hr|vm_compute; reflexivity|discriminate].
Defined.

(** A rule scoped to an IPv6 source and sent to a tunnel that takes no IPv6 loses its scope: its sources
    are stripped, and the zone marks its destinations for every device. *)
Definition scoped_profile : Profile :=
  zero_profile <| Endpoints := [adopted "t1" "awg0"] |>
    <| Rules := [zero_rule <| r_ID := "r" |> <| IPCIDR := ["10.9.0.0/16"] |>
                   <| SourceIPCIDR := ["2001:db8:1::/64"] |> <| r_Outbound := "t1" |>] |>.
Example stripping_can_unscope :
  map HasSourceMatcher (Rules scoped_profile) = [true] /\
  Zones (plan_of (fun s => s) (fun s => s) demo_opt scoped_profile) = [demo_zone "rule_r" "t1" 0x20000 ["10.9.0.0/16"]].
Proof. vm_compute. split; reflexivity. Qed.

(** The posture of an adopted tunnel is looked up by the outbound's own tag: through a group, its IPv6
    destinations are marked into it all the same. *)
Definition group_profile : Profile :=
  zero_profile <| Endpoints := [adopted "t1" "awg0"] |> <| Groups := [group_of "g" ["t1"]] |>
    <| RoutingLists := [demo_list "a" "t1" ["2001:db8::/32"]; demo_list "b" "g" ["2001:db8::/32"]] |>.
Example posture_stops_at_groups :
  map (fun z => (Z_Name z, V6 z)) (Zones (plan_of (fun s => s) (fun s => s) demo_opt group_profile)) = [("list_b", ["2001:db8::/32"])].
Proof. vm_compute. reflexivity. Qed.
