(* ===== verification/Json.v ===== *)
(** * Values of a generated configuration

    A [map[string]any] of the generator is a finite map, a [[]map[string]any] a list of them. Models the
    readers and the one writer of [src/internal/generator/singbox.go] ([str], [intp], [boolp], [addIf])
    and [ParamBool] of [src/internal/model/multiplex.go]; [typed] readers are Go's two-valued type
    assertions with the zero value on failure. *)
From S2P Require Import Prelude GoStrings GoText Util Model Dns.
Local Open Scope Z_scope.

Abbreviation obj := (gmap string any).
Definition object (l : list (string * any)) : obj := list_to_map l.

(** ** Type assertions *)
Definition as_string (a : option any) : string := match a with Some (AString s) => s | _ => "" end.
Definition as_strings (a : option any) : list string := match a with Some (AStrings l) => l | _ => [] end.
Definition as_object (a : option any) : option obj := match a with Some (AMap m) => Some m | _ => None end.
Definition as_objects (a : option any) : list obj := match a with Some (AMaps l) => l | _ => [] end.
Definition map_of (a : any) : option obj := match a with AMap m => Some m | _ => None end.
(** The objects of a list as generated or as decoded ([forEachObject]). *)
Definition forEachObject (a : option any) : list obj :=
  match a with Some (AMaps l) => l | Some (AList l) => omap map_of l | _ => [] end.

(** ** Parameters of a connection *)
Definition get_str (m : obj) (k : string) : string := as_string (m !! k).
(** [int(t)] of a JSON number truncates. *)
Definition intp (m : obj) (k : string) : Z :=
  match m !! k with Some (AInt n) => n | Some (AFloat f) => f64_trunc f | _ => 0 end.
Definition ParamBool (params : obj) (k : string) : bool :=
  match params !! k with
  | Some (ABool b) => b
  | Some (AString s) => bool_decide (s ∈ ["true"; "1"; "yes"])
  | _ => false
  end.
Definition boolp (m : obj) (k : string) : bool := ParamBool m k.

(** ** Writers *)
Definition addIf (m : obj) (key : string) (vals : list string) : obj :=
  let kept := filter (fun v => blank v = false) vals in
  match kept with [] => m | _ => <[key := AStrings kept]> m end.
(** [if c { m[k] = v }]. *)
Definition set_if (c : bool) (k : string) (v : any) (m : obj) : obj := if c then <[k := v]> m else m.
Definition set_str (k : string) (v : string) (m : obj) : obj := set_if (negb (bool_decide (v = ""))) k (AString v) m.

(** ** Facts *)
Lemma addIf_other m key k vals : k <> key -> addIf m key vals !! k = m !! k.
Proof. intros H. unfold addIf. destruct (filter _ vals); [done|]. by rewrite lookup_insert_ne. Qed.
Lemma addIf_key m key vals : m !! key = None ->
  as_strings (addIf m key vals !! key) = filter (fun v => blank v = false) vals.
Proof. intros H. unfold addIf. destruct (filter _ vals) eqn:E; [by rewrite H|]. by rewrite lookup_insert_eq. Qed.
Lemma addIf_nonblank m key vals v : m !! key = None -> v ∈ as_strings (addIf m key vals !! key) -> blank v = false.
Proof. intros H. rewrite addIf_key by done. by intros [? _]%list_elem_of_filter. Qed.
Lemma set_if_other c k v m k' : k' <> k -> set_if c k v m !! k' = m !! k'.
Proof. intros H. destruct c; [|done]. cbn. by rewrite lookup_insert_ne. Qed.
Lemma set_str_other k v m k' : k' <> k -> set_str k v m !! k' = m !! k'.
Proof. apply set_if_other. Qed.
