(* ===== verification/GenSplit.v ===== *)
(** * Which plane carries what

    The classification the proxy engine's generator starts from, of [src/internal/generator]: the
    builtin tags, [kernelEgress], [ipOnlyKernelRule], the entries of a list, [hybridReachable] (all of
    [singbox.go]), [NDMPoliciesInUse] of [src/internal/model/ndmpolicy.go], and the questions of
    [native_only.go]. Case folding beyond ASCII is an argument. [hybridReachable] is shown to be
    reachability, whatever order the roots are visited in.

    Further on: [hybridReachable] is reachability. *)
From stdpp Require Import relations.
From S2P Require Import Prelude GoStrings Netip GoText Model Dns PbrLists Pbr Json.
Local Open Scope Z_scope.

Definition ProtoVLESS : string := "vless".
Definition ProtoVMess : string := "vmess".
Definition ProtoTrojan : string := "trojan".
Definition ProtoShadowsocks : string := "shadowsocks".
Definition ProtoAnyTLS : string := "anytls".
Definition ProtoWireGuard : string := "wireguard".
Definition ProtoSnell : string := "snell".
Definition ProtoSSH : string := "ssh".
Definition ProtoSOCKS : string := "socks".
Definition ProtoHTTP : string := "http".

(** [strings.IndexAny(path, "?#")] cut, then the suffix. *)
Definition HasSuffix (s suf : bytes) : bool :=
  match strip_prefix (reverse suf) (reverse s) with Some _ => true | None => false end.

(** ** The entries of a list *)
Definition split_entry (st : list string * list string) (raw : string) : list string * list string :=
  let '(domains, ips) := st in
  let e := trim raw in
  if bool_decide (e = "") || HasPrefix e "#" then st
  else if has_byte 47 (str e) && net_ParseCIDR e then (domains, ips ++ [e])
  else match net_ParseIP e with
       | Some a => (domains, ips ++ [String.append e (if (BitLen (Unmap a) =? 32) then "/32" else "/128")])
       | None => (domains ++ [e], ips)
       end.
Definition splitDomainsIPs (entries : list string) : list string * list string :=
  foldl split_entry ([], []) entries.
Definition listEntries (rl : RoutingList) : list string * list string :=
  splitDomainsIPs (Manual rl ++ CIDRCache rl ++ DomainCache rl).
(** The IP members of a list's device groups; of two groups with one id the last counts. *)
Definition members_of (p : Profile) (gid : string) : list DeviceMember :=
  match find_by dg_ID gid (reverse (DeviceGroups p)) with Some g => dg_Members g | None => [] end.
Definition listScopeIPs (p : Profile) (rl : RoutingList) : list string :=
  gid ← ScopeGroups rl;
  filter (fun ip => ip <> "") ((fun m => trim (IP m)) <$> members_of p gid).

Definition ipOnlyKernelRule (r : Rule) : bool :=
  let none {A} (l : list A) := (length l =? 0)%nat in
  negb (none (IPCIDR r)) && none (Domain r) && none (DomainSuffix r) && none (GeoSite r) && none (GeoIP r)
  && none (r_Port r) && none (SourceIPCIDR r) && none (SourceMAC r) && none (SourceIface r) && none (SourcePort r).

(** ** The kernel's outbounds *)
Definition kernel_endpoint (p : Profile) (id : string) : bool :=
  match EndpointByID p id with Some e => negb (bool_decide (kernelIface e = "")) | None => false end.
Definition kernelEgress (p : Profile) (tag : string) : bool :=
  if bool_decide (tag ∈ [OutboundDirect; OutboundBlock; ""]) then false
  else match NDMPolicyName tag with
       | Some _ => true
       | None =>
           match EndpointByID p tag with
           | Some e => negb (bool_decide (kernelIface e = ""))
           | None =>
               match GroupByID p tag with
               | Some g => existsb (kernel_endpoint p) (gr_Members g)
               | None => false
               end
           end
       end.

(** The access policies in use, sorted and once each. *)
Definition NDMPoliciesInUse (p : Profile) : list string :=
  sort_strings (once ∅ (omap (fun rl => if rl_Enabled rl then NDMPolicyName (rl_Outbound rl) else None) (RoutingLists p))).

(** ** Reachability *)
Fixpoint visit_all (visit : string -> gset string -> option (gset string)) (ms : list string) (reach : gset string) :
    option (gset string) :=
  match ms with
  | [] => Some reach
  | m :: ms => reach ← visit m reach; visit_all visit ms reach
  end.
Fixpoint visit (fuel : nat) (p : Profile) (tag : string) (reach : gset string) : option (gset string) :=
  match fuel with
  | O => None
  | S fuel =>
      if bool_decide (tag ∈ reach) then Some reach
      else match GroupByID p tag with
           | Some g => visit_all (visit fuel p) (gr_Members g) ({[tag]} ∪ reach)
           | None => Some ({[tag]} ∪ reach)
           end
  end.

Section split.
Context (unicode_lower : bytes -> bytes) (unicode_fold : bytes -> bytes -> bool).
Abbreviation lower := (lower unicode_lower).

Definition isBlock (o : string) : bool := EqualFold unicode_fold (str o) (str OutboundBlock).
Definition canonicalOutbound (o : string) : string :=
  if bool_decide (lower o = OutboundDirect) then OutboundDirect
  else if bool_decide (lower o = OutboundBlock) then OutboundBlock else o.

Definition root (tag : string) : list string :=
  if bool_decide (canonicalOutbound tag ∈ [OutboundDirect; OutboundBlock; ""]) then [] else [tag].
(** What a list or a rule the kernel carries is left out on. *)
Definition kernel_list (p : Profile) (rl : RoutingList) : bool :=
  kernelEgress p (rl_Outbound rl) && bool_decide (Source rl = "") &&
  (let '(domains, ips) := listEntries rl in (length domains =? 0)%nat && (0 <? length ips)%nat).
Definition kernel_rule (p : Profile) (r : Rule) : bool := kernelEgress p (r_Outbound r) && ipOnlyKernelRule r.
Definition rule_roots (p : Profile) (r : Rule) : list string :=
  if Disabled r then [] else if negb (r_Default r) && kernel_rule p r then [] else root (r_Outbound r).
Definition list_roots (p : Profile) (rl : RoutingList) : list string :=
  if negb (rl_Enabled rl) then [] else if kernel_list p rl then []
  else root (rl_Outbound rl) ++ root (DownloadVia rl).
Definition server_roots (s : DNSServer) : list string :=
  if ds_Enabled s && negb (bool_decide (ds_Detour s = "")) && negb (bool_decide (ds_Type s ∈ ["local"; "fakeip"]))
     && negb (IsVPNDNSType unicode_lower (ds_Type s)) then root (ds_Detour s) else [].
Definition roots (p : Profile) : list string :=
  (Rules p ≫= rule_roots p) ++ (RoutingLists p ≫= list_roots p)
  ++ match DNS p with Some d => dns_Servers d ≫= server_roots | None => [] end.
Definition hybridReachable (p : Profile) : gset string :=
  default ∅ (visit_all (visit (S (S (length (Groups p)))) p) (roots p) ∅).

(** ** Could the profile do without the engine? *)
Definition singboxRequiredProtos : list string :=
  [ProtoVLESS; ProtoVMess; ProtoTrojan; ProtoShadowsocks; ProtoHysteria2; ProtoTUIC; ProtoAnyTLS; ProtoOpenVPN;
   ProtoSnell; ProtoOpenConnect; ProtoSSH; ProtoSOCKS; ProtoHTTP].
Definition ProtocolNeedsSingbox (proto : string) : bool := bool_decide (proto ∈ singboxRequiredProtos).
Definition EndpointNeedsSingbox (e : option Endpoint) : bool :=
  match e with
  | None => true
  | Some e =>
      if bool_decide (ep_Engine e ∈ [EngineExternal; EngineAmneziaWG]) then false
      else if bool_decide (ep_Engine e = EngineSingBox) then negb (bool_decide (ep_Protocol e = ProtoWireGuard))
      else true
  end.
Definition ProfileNativeOnly (p : option Profile) : bool :=
  match p with
  | None => false
  | Some p =>
      let on := filter (fun e => ep_Enabled e = true) (Endpoints p) in
      forallb (fun e => negb (EndpointNeedsSingbox (Some e))) on && (0 <? length on)%nat
  end.
Definition anyV6CIDR (cidrs : list string) : bool := existsb (fun c => has_byte 58 (str c)) cidrs.
Definition ruleHasDomainOrGeo (r : Rule) : bool :=
  (0 <? length (Domain r))%nat || (0 <? length (DomainSuffix r))%nat || (0 <? length (GeoSite r))%nat || (0 <? length (GeoIP r))%nat.
Definition DatapathNativeOnly (op : option Profile) (routingMode : string) : bool :=
  match op with
  | None => false
  | Some p =>
      ProfileNativeOnly op && bool_decide (routingMode = "fast")
      && forallb (fun r => negb (r_Default r) || bool_decide (canonicalOutbound (r_Outbound r) ∈ [OutboundDirect; ""])) (Rules p)
      && (size (hybridReachable p) =? 0)%nat
      && forallb (fun r => negb (ruleHasDomainOrGeo r)) (Rules p)
      && forallb (fun rl => negb (rl_Enabled rl) || (bool_decide (Source rl = "") && (length (listEntries rl).1 =? 0)%nat)) (RoutingLists p)
      && (negb (existsb (fun e => ep_Enabled e && bool_decide (ep_Engine e = EngineExternal)) (Endpoints p))
          || (forallb (fun r => negb (anyV6CIDR (IPCIDR r))) (Rules p)
              && forallb (fun rl => negb (rl_Enabled rl && (anyV6CIDR (Manual rl) || anyV6CIDR (CIDRCache rl)))) (RoutingLists p)))
  end.
End split.

(** * [hybridReachable] is reachability

    The search ends within its fuel, and what it collects is what some root leads to through nested
    groups: a set, whatever order the roots are taken in. *)
Local Close Scope Z_scope.
Local Open Scope nat_scope.

Section search.
Context (p : Profile).
Abbreviation leads := (rtc (holds p)).

(** What a search adds is led to from its start, and is closed under membership. *)
Definition grown (from : string -> Prop) (R R' : gset string) : Prop :=
  R ⊆ R' /\ forall x, x ∈ R' -> x ∉ R -> (exists a, from a /\ leads a x) /\ forall m, holds p x m -> m ∈ R'.
Lemma grown_refl from R : grown from R R.
Proof. split; [done|]. intros x H1 H2. done. Qed.
Lemma grown_trans from A B C : grown from A B -> grown from B C -> grown from A C.
Proof.
  intros [H1 H2] [H3 H4]. split; [set_solver|]. intros x Hx Hn. destruct (decide (x ∈ B)) as [Hb|Hb].
  - destruct (H2 x Hb Hn) as [Hl Hm]. split; [done|]. intros m H. by apply H3, Hm.
  - by apply H4.
Qed.
Lemma grown_from (f g : string -> Prop) R R' : (forall a, f a -> exists b, g b /\ leads b a) -> grown f R R' -> grown g R R'.
Proof.
  intros H [H1 H2]. split; [done|]. intros x Hx Hn. destruct (H2 x Hx Hn) as [(a & Ha & Hl) Hm]. split; [|done].
  destruct (H a Ha) as (b & Hb & Hba). exists b. split; [done|]. by etrans.
Qed.
Lemma visit_all_ok (v : string -> gset string -> option (gset string)) ms R :
  (forall m R', m ∈ ms -> R ⊆ R' -> exists R2, v m R' = Some R2 /\ grown (eq m) R' R2 /\ m ∈ R2) ->
  exists R', visit_all v ms R = Some R' /\ grown (fun a => a ∈ ms) R R' /\ forall m, m ∈ ms -> m ∈ R'.
Proof.
  revert R. induction ms as [|m ms IH]; intros R Hv; cbn [visit_all].
  - exists R. split_and!; [done|apply grown_refl|]. intros m Hm. by apply elem_of_nil in Hm.
  - destruct (Hv m R) as (R2 & -> & Hg & Hm); [left|done|]. cbn [mbind option_bind].
    destruct (IH R2) as (R3 & -> & Hg3 & Hall).
    { intros x R' Hx Hs. apply Hv; [by right|]. destruct Hg. set_solver. }
    exists R3. split; [done|]. split.
    + eapply grown_trans; (eapply grown_from; [|done]).
      * intros a <-. exists m. split; [left|done].
      * intros a Ha. exists a. split; [by right|done].
    + intros x [->|Hx]%elem_of_cons; [by apply (proj1 Hg3)|by apply Hall].
Qed.
Lemma visit_ok fuel tag R : unseen p R < fuel ->
  exists R', visit fuel p tag R = Some R' /\ grown (eq tag) R R' /\ tag ∈ R'.
Proof.
  revert tag R. induction fuel as [|fuel IH]; intros tag R Hf; [lia|]. cbn [visit]. case_bool_decide as Hs.
  - exists R. split_and!; [done|apply grown_refl|done].
  - destruct (GroupByID p tag) as [g|] eqn:Eg.
    + pose proof (unseen_visit p R tag g Eg Hs) as Hu.
      destruct (visit_all_ok (visit fuel p) (gr_Members g) ({[tag]} ∪ R)) as (R' & -> & [Hsub Hg] & Hall).
      { intros m R' _ Hsub. apply IH. pose proof (unseen_mono p _ _ Hsub). lia. }
      exists R'. split; [done|]. split; [|set_solver]. split; [set_solver|]. intros x Hx Hn.
      destruct (decide (x = tag)) as [->|Hne].
      * split; [by exists tag|]. intros m (g' & Eg' & Hm). rewrite Eg in Eg'. injection Eg' as <-. by apply Hall.
      * destruct (Hg x Hx) as [(a & Ha & Hl) Hm]; [set_solver|]. split; [|done]. exists tag. split; [done|].
        eapply rtc_l; [|done]. by exists g.
    + exists ({[tag]} ∪ R). split; [done|]. split; [|set_solver]. split; [set_solver|]. intros x Hx Hn.
      assert (x = tag) as -> by set_solver. split; [by exists tag|]. intros m (g & Eg' & _). congruence.
Qed.
End search.

Section reach.
Context (unicode_lower : bytes -> bytes) (p : Profile).
Abbreviation hybridReachable := (hybridReachable unicode_lower).
Abbreviation roots := (roots unicode_lower).

Lemma elem_of_hybridReachable tag :
  tag ∈ hybridReachable p <-> exists r, r ∈ roots p /\ rtc (holds p) r tag.
Proof.
  unfold GenSplit.hybridReachable.
  destruct (visit_all_ok p (visit (S (S (length (Groups p)))) p) (roots p) ∅) as (R & -> & [_ Hg] & Hall).
  { intros m R _ _. apply visit_ok. pose proof (unseen_bound p R). lia. }
  cbn [default]. split.
  - intros H. destruct (Hg tag H) as [(a & Ha & Hl) _]; [set_solver|]. by exists a.
  - intros (r & Hr & Hl). apply Hall in Hr. induction Hl as [x|x y z Hxy _ IH]; [done|].
    apply IH. destruct (Hg x Hr) as [_ Hm]; [set_solver|]. by apply Hm.
Qed.
(** What is reachable keeps its members. *)
Lemma hybridReachable_closed tag g m : tag ∈ hybridReachable p -> GroupByID p tag = Some g -> m ∈ gr_Members g ->
  m ∈ hybridReachable p.
Proof.
  rewrite !elem_of_hybridReachable. intros (r & Hr & Hl) Hg Hm. exists r. split; [done|]. eapply rtc_r; [done|]. by exists g.
Qed.
Lemma root_reachable tag : tag ∈ roots p -> tag ∈ hybridReachable p.
Proof. intros H. apply elem_of_hybridReachable. by exists tag. Qed.
End reach.
