(* ===== verification/GenRoute.v ===== *)
(** * The engine's routes

    The route side of [src/internal/generator/singbox.go]: [ruleMatch], [geoRuleSets], [routeFrom],
    [routingFrom] with the sets of a list, [groupOutbound], [endpointBypass]; [ndmPolicyOutbounds] of
    [ndmpolicy.go]. A slice of [map[string]any] is a list of finite maps.

    Further on: what depends on the core's version. *)
From S2P Require Import Prelude GoStrings Netip GoText Model Faults Dns PbrLists Validate Json GenSplit.
Local Open Scope Z_scope.

Definition geositeSRSBase : string := "https://raw.githubusercontent.com/SagerNet/sing-geosite/rule-set/geosite-".
Definition geoipSRSBase : string := "https://raw.githubusercontent.com/SagerNet/sing-geoip/rule-set/geoip-".
Definition defaultHealthURL : string := "http://cp.cloudflare.com/generate_204".
Definition is_empty (m : obj) : bool := (size m =? 0)%nat.
Definition nil {A} (l : list A) : bool := (length l =? 0)%nat.
(** [strconv.Itoa]. *)
Definition itoa (n : Z) : string := unstr (if n <? 0 then 45 :: fmt_d (- n) else fmt_d n).

(** ** Remote sets made of geosite and geoip names *)
Definition geo_names (l : list string) : list string := filter (fun g => g <> "") (trim <$> l).
Definition geo_set (tag url : string) : obj :=
  object [("tag", AString tag); ("type", AString "remote"); ("format", AString "binary"); ("url", AString url);
          ("download_detour", AString OutboundDirect); ("update_interval", AString "1d")].
(** The sets so far and their tags; [add] of [geoRuleSets], [addGeoSet] of [dnsFrom]. *)
Definition geo_state : Type := list obj * gset string.
Definition add_geo (st : geo_state) (tag url : string) : geo_state :=
  let '(sets, seen) := st in
  if bool_decide (tag ∈ seen) then st else (sets ++ [geo_set tag url], {[tag]} ∪ seen).
Definition add_site (st : geo_state) (g : string) : geo_state :=
  add_geo st ("geosite-" +:+ g) (geositeSRSBase +:+ g +:+ ".srs").
Definition add_ip (st : geo_state) (c : string) : geo_state :=
  add_geo st ("geoip-" +:+ c) (geoipSRSBase +:+ c +:+ ".srs").
Definition geoRuleSets (st : geo_state) (r : Rule) : list string * list string * geo_state :=
  let gs := geo_names (GeoSite r) in
  let gi := geo_names (GeoIP r) in
  ((fun g => "geosite-" +:+ g) <$> gs, (fun c => "geoip-" +:+ c) <$> gi, foldl add_ip (foldl add_site st gs) gi).

(** ** Rules *)
Definition ruleMatch (r : Rule) : obj :=
  let rule := addIf (addIf (addIf ∅ "domain_suffix" (DomainSuffix r)) "domain" (Domain r)) "ip_cidr" (IPCIDR r) in
  let rule := set_if (negb (nil (r_Port r))) "port" (AInts (r_Port r)) rule in
  let rule := addIf rule "source_ip_cidr" (SourceIPCIDR r) in
  set_if (negb (nil (SourcePort r))) "source_port" (AInts (SourcePort r)) rule.
(** Two kinds of sets must both match, the tags of one kind are alternatives. *)
Definition with_sets (rule : obj) (a b : list string) : obj :=
  match a, b with
  | _ :: _, _ :: _ =>
      object [("type", AString "logical"); ("mode", AString "and");
              ("rules", AMaps ((if is_empty rule then [] else [rule]) ++
                               [object [("rule_set", AStrings a)]; object [("rule_set", AStrings b)]]))]
  | _ :: _, [] => <["rule_set" := AStrings a]> rule
  | [], _ :: _ => <["rule_set" := AStrings b]> rule
  | [], [] => rule
  end.
Definition blockAllRule : obj := object [("network", AStrings ["tcp"; "udp"]); ("action", AString "reject")].

(** ** Lists *)
Definition ruleSetFormat (rl : RoutingList) : string :=
  if bool_decide (rl_Format rl ∈ ["binary"; "source"]) then rl_Format rl
  else if HasSuffix (before_any (str "?#") (str (Source rl))) (str ".json") then "source" else "binary".
Definition singboxConsumableSource (rl : RoutingList) : bool :=
  bool_decide (rl_Format rl ∈ ["binary"; "source"])
  || (let path := before_any (str "?#") (str (Source rl)) in HasSuffix path (str ".srs") || HasSuffix path (str ".json")).
Definition refreshInterval (hours : Z) : string := if hours <=? 0 then "1d" else itoa hours +:+ "h".

(** ** Groups *)
Definition health_test (t : option Health) : string * Z * string * Z :=
  match t with
  | None => (defaultHealthURL, 60, "1m", 50)
  | Some t =>
      let url := if bool_decide (h_URL t = "") then defaultHealthURL else h_URL t in
      let iv := if h_Interval t <? 5 then 5 else h_Interval t in
      let tol := if 0 <? h_Tolerance t then h_Tolerance t else 50 in
      if 0 <? h_Interval t then (url, iv, itoa iv +:+ "s", tol) else (url, 60, "1m", tol)
  end.
Definition groupOutbound (g : Group) : obj :=
  let ob := object [("tag", AString (gr_ID g)); ("outbounds", AStrings (gr_Members g))] in
  if gr_Managed g then <["type" := AString "selector"]> ob
  else
    let ob :=
      if bool_decide (gr_Type g ∈ ["urltest"; "fallback"]) then
        let '(url, ivSec, interval, tol) := health_test (gr_Test g) in
        let idleSec := if 1800 <? ivSec then ivSec else 1800 in
        <["idle_timeout" := AString (itoa idleSec +:+ "s")]> (<["tolerance" := AInt tol]>
          (<["interval" := AString interval]> (<["url" := AString url]> (<["type" := AString "urltest"]> ob))))
      else <["type" := AString "selector"]> ob in
    set_if (gr_InterruptOnSwitch g) "interrupt_exist_connections" (ABool true) ob.

(** ** The tunnels' own servers *)
Definition ServerAddress (e : Endpoint) : string := if UsesRealm e then "" else ep_Server e.
Definition bypass_text (s : string) : option string :=
  a ← net_ParseIP (trim s);
  let a := Unmap a in
  Some (unstr (addr_text a) +:+ (if BitLen a =? 32 then "/32" else "/128")).
Definition endpointBypass (p : Profile) : list string :=
  once ∅ (omap bypass_text (e ← Endpoints p;
    if ep_Enabled e then [ServerAddress e; get_str (ep_Params e) "endpoint_ip"] else [])).

(** ** Access policies *)
Definition policy_outbound (marks : gmap string Z) (name : string) : string + obj :=
  match marks !! name with
  | Some mark =>
      if mark =? 0 then inl name
      else inr (object [("type", AString "direct"); ("tag", AString (NDMPolicyPrefix +:+ name)); ("routing_mark", AUint32 mark)])
  | None => inl name
  end.
Fixpoint policy_outbounds (marks : gmap string Z) (names : list string) : string + list obj :=
  match names with
  | [] => inr []
  | name :: names => ob ← policy_outbound marks name; obs ← policy_outbounds marks names; inr (ob :: obs)
  end.
(** The error names the policy the router was not asked for. *)
Definition ndmPolicyOutbounds (p : Profile) (marks : gmap string Z) : string + list obj :=
  policy_outbounds marks (NDMPoliciesInUse p).

Section route.
Context (unicode_lower : bytes -> bytes) (unicode_fold : bytes -> bytes -> bool).
Abbreviation canonicalOutbound := (canonicalOutbound unicode_lower).
Abbreviation isBlock := (isBlock unicode_fold).

Definition send (o : string) (rule : obj) : obj :=
  if isBlock o then <["action" := AString "reject"]> rule
  else <["outbound" := AString (canonicalOutbound o)]> (<["action" := AString "route"]> rule).

(** ** [routeFrom] *)
Record routes := mkRoutes { ro_rules : list obj; ro_geo : geo_state; ro_final : string; ro_block : bool }.
#[export] Instance eta_routes : Eta routes := fun st => mkRoutes (ro_rules st) (ro_geo st) (ro_final st) (ro_block st).
Definition route_rule (p : Profile) (hybrid : bool) (st : routes) (r : Rule) : routes :=
  if Disabled r then st
  else if r_Default r then
    if isBlock (r_Outbound r) then st <| ro_block := true |> else st <| ro_final := canonicalOutbound (r_Outbound r) |>
  else if hybrid && kernel_rule p r then st
  else
    let rule := ruleMatch r in
    let '(gs, gi, geo) := geoRuleSets (ro_geo st) r in
    let st := st <| ro_geo := geo |> in
    if is_empty rule && nil gs && nil gi then st
    else st <| ro_rules := ro_rules st ++ [send (r_Outbound r) (with_sets rule gs gi)] |>.
Definition route_state (p : Profile) (hybrid : bool) : routes :=
  foldl (route_rule p hybrid) (mkRoutes [] ([], ∅) OutboundDirect false) (Rules p).
Definition routeFrom (p : Profile) (hybrid : bool) : obj * list obj * bool :=
  let st := route_state p hybrid in
  let out := object [("final", AString (ro_final st))] in
  (set_if (negb (nil (ro_rules st))) "rules" (AMaps (ro_rules st)) out, fst (ro_geo st), ro_block st).

(** ** [routingFrom] *)
Definition download_detour (rl : RoutingList) (ruleSetDetour : string) : string :=
  if negb (bool_decide (DownloadVia rl = "")) then canonicalOutbound (DownloadVia rl)
  else if negb (bool_decide (ruleSetDetour = "")) then canonicalOutbound ruleSetDetour else OutboundDirect.
Definition remote_set (rl : RoutingList) (ruleSetDetour : string) : list (string * obj) :=
  if negb (bool_decide (Source rl = "")) && singboxConsumableSource rl then
    let tag := "rs-" +:+ rl_ID rl in
    [(tag, object [("tag", AString tag); ("type", AString "remote"); ("url", AString (Source rl));
                   ("format", AString (ruleSetFormat rl)); ("download_detour", AString (download_detour rl ruleSetDetour));
                   ("update_interval", AString (refreshInterval (RefreshHours rl)))])]
  else [].
Definition core_entries (p : Profile) (hybrid : bool) (rl : RoutingList) : list string * list string :=
  if hybrid && kernelEgress p (rl_Outbound rl) && bool_decide (Source rl = "") && negb (nil (CIDRCache rl))
     && bool_decide (ScopeMode rl ∈ [""; "all"])
  then splitDomainsIPs (Manual rl ++ DomainCache rl) else listEntries rl.
Definition inline_set (p : Profile) (hybrid : bool) (rl : RoutingList) : list (string * obj) :=
  let '(domains, ips) := core_entries p hybrid rl in
  if nil domains && nil ips then []
  else
    let tag := "rsm-" +:+ rl_ID rl in
    let rules := (if nil domains then [] else [object [("domain_suffix", AStrings domains)]])
                 ++ (if nil ips then [] else [object [("ip_cidr", AStrings ips)]]) in
    [(tag, object [("tag", AString tag); ("type", AString "inline"); ("rules", AMaps rules)])].
(** What a list adds: its sets, and the rule that refers to them. *)
Definition scope_ips (p : Profile) (rl : RoutingList) : list string :=
  if bool_decide (ScopeMode rl = "only") then listScopeIPs p rl else [].
Definition left_out (p : Profile) (hybrid : bool) (rl : RoutingList) : bool :=
  negb (rl_Enabled rl) || (bool_decide (ScopeMode rl = "only") && nil (scope_ips p rl)) || (hybrid && kernel_list p rl).
Definition list_parts (p : Profile) (hybrid : bool) (ruleSetDetour : string) (rl : RoutingList) : list (string * obj) :=
  if left_out p hybrid rl then [] else remote_set rl ruleSetDetour ++ inline_set p hybrid rl.
Definition fragment (rl : RoutingList) (rule : obj) : obj :=
  if bool_decide (canonicalOutbound (rl_Outbound rl) = OutboundDirect) then
    if bool_decide (TLSFragment rl = "record") then <["tls_record_fragment" := ABool true]> rule
    else if bool_decide (TLSFragment rl = "handshake") then <["tls_fragment" := ABool true]> rule else rule
  else rule.
Definition list_rule (p : Profile) (rl : RoutingList) (tags : list string) : obj :=
  let rule := addIf (object [("rule_set", AStrings tags)]) "source_ip_cidr" (scope_ips p rl) in
  if isBlock (rl_Outbound rl) then send (rl_Outbound rl) rule else fragment rl (send (rl_Outbound rl) rule).
Definition routing_list (p : Profile) (hybrid : bool) (ruleSetDetour : string)
    (st : list obj * list obj * list obj) (rl : RoutingList) : list obj * list obj * list obj :=
  let '(sets, rejects, routes) := st in
  match list_parts p hybrid ruleSetDetour rl with
  | [] => st
  | parts =>
      let rule := list_rule p rl parts.*1 in
      if isBlock (rl_Outbound rl) then (sets ++ parts.*2, rejects ++ [rule], routes)
      else (sets ++ parts.*2, rejects, routes ++ [rule])
  end.
Definition routingFrom (p : Profile) (hybrid : bool) (ruleSetDetour : string) : list obj * list obj :=
  let '(sets, rejects, routes) := foldl (routing_list p hybrid ruleSetDetour) ([], [], []) (RoutingLists p) in
  (sets, rejects ++ routes).
(** The entries the inline sets hold. *)
Definition CoreInlineEntries (p : Profile) (hybrid : bool) : nat :=
  let entries (r : obj) := (length (as_strings (r !! "domain_suffix")) + length (as_strings (r !! "ip_cidr")))%nat in
  sum_list (s ← fst (routingFrom p hybrid ""); entries <$> as_objects (s !! "rules")).
End route.

(** * The engine's version, and what it decides

    [coreversion.go] and [vpndns.go] of [src/internal/generator]: the minor a version names, the schema
    1.14 wants ([applyModernCoreSchema]), the TUN option 1.16 refuses ([FitTUNToCore]). *)
Local Open Scope Z_scope.

Definition coreModernMinor : Z := 14.
Definition coreTUNStackLastMinor : Z := 15.
Definition vpnDNSMinMinor : Z := 14.
Definition ruleSetHTTPClientPrefix : string := "rs-dl-".

(** The first match of [(\d+)\.(\d+)\.(\d+)]: of the texts that start with digits, the leftmost that
    goes on as a version. *)
Fixpoint span (f : Z -> bool) (s : bytes) : bytes * bytes :=
  match s with
  | c :: r => if f c then let '(a, b) := span f r in (c :: a, b) else ([], s)
  | [] => ([], [])
  end.
Definition version_here (s : bytes) : option (bytes * bytes) :=
  match span is_digit s with
  | ((_ :: _) as a, d1 :: s) =>
      if d1 =? 46 then
        match span is_digit s with
        | ((_ :: _) as b, d2 :: s) => if (d2 =? 46) && (match s with c :: _ => is_digit c | [] => false end) then Some (a, b) else None
        | _ => None
        end
      else None
  | _ => None
  end.
Fixpoint find_version (s : bytes) : option (bytes * bytes) :=
  match version_here s with
  | Some v => Some v
  | None => match s with [] => None | _ :: s => find_version s end
  end.
Definition coreMinor (v : string) : Z :=
  match find_version (str v) with
  | Some (major, minor) => if bool_decide (major = str "1") then default (-1) (Atoi minor) else -1
  | None => -1
  end.
Definition modernCore (v : string) : bool := coreModernMinor <=? coreMinor v.
Definition TUNStackAccepted (v : string) : bool := coreMinor v <=? coreTUNStackLastMinor.
Definition VPNDNSCarried (coreVersion : string) : bool :=
  bool_decide (coreVersion = "") || (vpnDNSMinMinor <=? coreMinor coreVersion).

Definition fit_tun (o : obj) : obj := if bool_decide (get_str o "type" = "tun") then delete "stack" o else o.
Definition fit_tun_any (v : any) : any := match v with AMap o => AMap (fit_tun o) | _ => v end.
Definition FitTUNToCore (cfg : obj) (coreVersion : string) : obj :=
  if TUNStackAccepted coreVersion then cfg
  else match cfg !! "inbounds" with
       | Some (AMaps l) => <["inbounds" := AMaps (fit_tun <$> l)]> cfg
       | Some (AList l) => <["inbounds" := AList (fit_tun_any <$> l)]> cfg
       | _ => cfg
       end.

(** ** The 1.14 form of remote sets *)
Definition http_client (d : string) : obj :=
  set_if (negb (bool_decide (d = "")) && negb (bool_decide (d = OutboundDirect))) "detour" (AString d)
    (object [("tag", AString (ruleSetHTTPClientPrefix +:+ d))]).
Definition modern_set (st : list obj * gmap string obj) (s : obj) : list obj * gmap string obj :=
  let '(sets, clients) := st in
  match s !! "download_detour" with
  | Some (AString d) =>
      let tag := ruleSetHTTPClientPrefix +:+ d in
      (sets ++ [<["http_client" := AString tag]> (delete "download_detour" s)],
       match clients !! tag with Some _ => clients | None => <[tag := http_client d]> clients end)
  | _ => (sets ++ [s], clients)
  end.
Definition client_list (clients : gmap string obj) : list obj :=
  omap (fun t => clients !! t) (sort_strings (map_to_list clients).*1).
Definition applyModernCoreSchema (cfg : obj) : obj :=
  let cfg := match as_object (cfg !! "dns") with
             | Some dns => <["dns" := AMap (delete "independent_cache" dns)]> cfg
             | None => cfg
             end in
  match as_object (cfg !! "route") with
  | None => cfg
  | Some route =>
      let '(sets, clients) := foldl modern_set ([], ∅) (as_objects (route !! "rule_set")) in
      let cfg := match route !! "rule_set" with
                 | Some (AMaps _) => <["route" := AMap (<["rule_set" := AMaps sets]> route)]> cfg
                 | _ => cfg
                 end in
      if (size clients =? 0)%nat then cfg else <["http_clients" := AMaps (client_list clients)]> cfg
  end.

Example versions : map coreMinor ["1.14.3"; "v1.15.0-alpha.12"; "sing-box version 1.12.17"; "2.1.0"; ""; "1.14"; "go1.2 1.13.0"] = [14; 15; 12; -1; -1; -1; 13].
Proof. vm_compute. reflexivity. Qed.
