(* ===== verification/EndpointLoads.v ===== *)
(** * Hysteria realms

    Models [src/internal/model/hysteria2_realm.go]: the realm of a Hysteria2 connection ([Hy2RealmOf]),
    its address ([ParseHy2Realm]) and STUN servers, and the rendezvous URL. [url.Parse] is an argument:
    what the code reads of its result is [URL]. Messages are shortened; none quotes the address.

    Further on: what stops a connection from loading. *)
From S2P Require Import Prelude GoStrings AuthRecord Netip GoText GoCodec Model Faults ByeDPI Dns PbrLists.
From S2P Require Import Validate EndpointPins EndpointEch EndpointSsh Json GenSplit GenRoute.
Local Open Scope Z_scope.

(** [u_User] is [u.User.String()], [u_stun] the [stun] values of the query. *)
Record URL := mkURL {
  u_Scheme : string; u_Opaque : string; u_Host : string; u_User : option string; u_EscapedPath : string;
  u_Fragment : string; u_stun : list string
}.
Record Hy2Realm := mkRealm { re_HTTP : bool; re_Token : string; re_Host : string; re_Port : Z; re_ID : string; re_STUN : list string }.
#[export] Instance eta_realm : Eta Hy2Realm := fun r => mkRealm (re_HTTP r) (re_Token r) (re_Host r) (re_Port r) (re_ID r) (re_STUN r).

(** ** [net/url] *)
Definition strip_brackets (h : bytes) : bytes :=
  match h with 91 :: r => match reverse r with 93 :: r' => reverse r' | _ => h end | _ => h end.
(** Host and port of [u.Host]: a port is digits only, possibly none. *)
Definition splitHostPort (s : bytes) : bytes * bytes :=
  match split_last 58 s with
  | Some (h, port) => if forallb is_digit port then (strip_brackets h, port) else (strip_brackets s, [])
  | None => (strip_brackets s, [])
  end.
Definition Hostname (u : URL) : string := unstr (splitHostPort (str (u_Host u))).1.
Definition url_Port (u : URL) : string := unstr (splitHostPort (str (u_Host u))).2.
Fixpoint unescape (s : bytes) : option bytes :=
  match s with
  | [] => Some []
  | c :: r =>
      if c =? 37 then
        match r with
        | a :: b :: r => if is_hex_digit a && is_hex_digit b then cons (hex_val a * 16 + hex_val b) <$> unescape r else None
        | _ => None
        end
      else cons c <$> unescape r
  end.
Definition PathUnescape (s : string) : option string := unstr <$> unescape (str s).
(** A host in [u.String()]. *)
Definition host_char (c : Z) : bool := is_letter c || is_digit c || has_byte c (str "!$&'()*+,;=:[]<>-_.~") || (c =? 34).
Definition upper_hex (i : Z) : Z := if i <? 10 then 48 + i else 55 + i.
Definition escape_host (h : bytes) : bytes := c ← h; if host_char c then [c] else [37; upper_hex (c / 16); upper_hex (c mod 16)].

(** ** STUN servers *)
Definition appendUniqueSTUN (list_ add : list string) : list string :=
  foldl (fun l s => if bool_decide (s ∈ l) then l else l ++ [s]) list_ add.
Definition stun_label (l : bytes) : bool :=
  match l with
  | [] => false
  | c :: _ => is_alnum c && match reverse l with d :: _ => is_alnum d | [] => false end && forallb (fun d => is_alnum d || (d =? 45)) l
  end.
(** Dot-separated labels, a dot possibly after the last. *)
Definition stunHostRe (h : string) : bool := forallb stun_label (Split 46 (TrimSuffix1 46 (str h))).
Definition trim_bracket_pair (s : string) : string :=
  unstr (TrimSuffix1 93 (match str s with c :: r => if c =? 91 then r else c :: r | [] => [] end)).
Definition in_port_range (p : string) : bool :=
  match Atoi (str p) with Some n => negb ((n <? 1) || (65535 <? n)) | None => false end.
Definition add_stun (out : list string) (raw : string) : string + list string :=
  let s := trim raw in
  if bool_decide (s = "") then inr out
  else
    let '(host, port, s) := match SplitHostPort s with
                            | Some (host, port) => (host, port, s)
                            | None => let host := trim_bracket_pair s in (host, "-", host)
                            end in
    _ ← (if bool_decide (port = "") then inl "STUN server: the port is empty"
         else refuse (negb (bool_decide (port = "-")) && negb (in_port_range port)) "STUN server: port out of range");
    _ ← refuse (bool_decide (net_ParseIP host = None) && negb (stunHostRe host)) "STUN server is not host or host:port";
    inr (appendUniqueSTUN out [s]).
Definition hy2RealmSTUNList (raw : list string) : string + list string := each add_stun [] raw.
Definition stun_words (t : string) : list string :=
  filter (fun w => w <> "") (unstr <$> Split 32 ((fun c => if has_byte c [44; 9; 10] then 32 else c) <$> str t)).
Definition hy2RealmSTUNParam (v : option any) : string + list string :=
  let bad := "realm_stun must list STUN servers as host or host:port strings" in
  match v with
  | None | Some ANil => hy2RealmSTUNList []
  | Some (AString t) => hy2RealmSTUNList (stun_words t)
  | Some (AStrings t) => hy2RealmSTUNList t
  | Some (AList t) => match mapM (fun x => match x with AString s => Some s | _ => None end) t with
                      | Some l => hy2RealmSTUNList l
                      | None => inl bad
                      end
  | Some _ => inl bad
  end.

(** ** The address *)
Definition has_slash (s : string) : bool := has_byte 47 (str s).
Section realm.
Context (url_Parse : string -> option URL).
Definition ParseHy2Realm (s : string) : string + Hy2Realm :=
  match url_Parse (trim s) with
  | None => inl "realm address is not a URL"
  | Some u =>
      let scheme := map ascii_lower (str (u_Scheme u)) in
      http ← (if bool_decide (scheme = str "realm") then inr false
              else if bool_decide (scheme = str "realm+http") then inr true
              else inl "realm address must start with realm:// or realm+http://");
      let host := Hostname u in
      _ ← refuse (negb (bool_decide (u_Opaque u = "")) || bool_decide (host = "")) "realm address has no rendezvous host";
      _ ← refuse (has_byte 58 (str host) && bool_decide (net_ParseIP host = None)) "realm address: wrap an IPv6 rendezvous address in brackets";
      let p := url_Port u in
      _ ← refuse (negb (bool_decide (p = "")) && negb (in_port_range p)) "realm address: rendezvous port out of range";
      let port := default 0 (Atoi (str p)) in
      token ← match u_User u with
              | None => inr ""
              | Some t => match PathUnescape t with Some tok => inr tok | None => inl "realm address: the token is not valid percent-encoding" end
              end;
      let no_name := "realm address needs the realm name as its only path segment" in
      let seg := unstr (TrimPrefix (str "/") (str (u_EscapedPath u))) in
      _ ← refuse (bool_decide (seg = "") || has_slash seg) no_name;
      match PathUnescape seg with
      | None => inl no_name
      | Some name =>
          _ ← refuse (bool_decide (name = "") || has_slash name) no_name;
          _ ← refuse (negb (bool_decide (u_Fragment u = ""))) "realm address cannot carry a fragment";
          stun ← hy2RealmSTUNList (u_stun u);
          inr (mkRealm http token host port name stun)
      end
  end.
Definition Hy2RealmOf (e : Endpoint) : string + option Hy2Realm :=
  if negb (UsesRealm e) then inr None
  else
    r ← ParseHy2Realm (param_string (ep_Params e) "realm");
    extra ← hy2RealmSTUNParam (ep_Params e !! "realm_stun");
    inr (Some (r <| re_STUN := appendUniqueSTUN extra (re_STUN r) |>)).
End realm.
Definition realm_hostPort (r : Hy2Realm) : string :=
  if negb (re_Port r =? 0) then JoinHostPort (re_Host r) (itoa (re_Port r))
  else if has_byte 58 (str (re_Host r)) then "[" +:+ re_Host r +:+ "]" else re_Host r.
Definition ServerURL (r : Hy2Realm) : string :=
  (if re_HTTP r then "http" else "https") +:+ "://" +:+ unstr (escape_host (str (realm_hostPort r))).

(** ** Facts *)
Definition stun_host (h : string) : Prop := net_ParseIP h <> None \/ stunHostRe h = true.
Definition stun_server (s : string) : Prop := exists host, stun_host host /\
  (s = host \/ exists p, SplitHostPort s = Some (host, p) /\ (p = "-" \/ in_port_range p = true)).
Lemma elem_of_unique l add s : s ∈ appendUniqueSTUN l add <-> s ∈ l \/ s ∈ add.
Proof.
  unfold appendUniqueSTUN. revert l. induction add as [|a add IH]; intros l; cbn [foldl]; [rewrite elem_of_nil; tauto|].
  rewrite IH, elem_of_cons. case_bool_decide; [|rewrite elem_of_app, list_elem_of_singleton]; naive_solver.
Qed.
Lemma unique_NoDup l add : NoDup l -> NoDup (appendUniqueSTUN l add).
Proof.
  unfold appendUniqueSTUN. revert l. induction add as [|a add IH]; intros l Hl; cbn [foldl]; [done|]. apply IH. case_bool_decide; [done|].
  apply NoDup_app. split_and!; [done| |apply NoDup_singleton]. intros x Hx ->%list_elem_of_singleton. done.
Qed.
Lemma add_stun_ok out raw out' : add_stun out raw = inr out' -> NoDup out /\ Forall stun_server out -> NoDup out' /\ Forall stun_server out'.
Proof.
  unfold add_stun. cbv zeta. case_bool_decide; [by intros [= <-]|]. intros H0 [Hn Hf].
  assert (Hone : forall s, stun_server s -> NoDup (appendUniqueSTUN out [s]) /\ Forall stun_server (appendUniqueSTUN out [s])).
  { intros s Hs. split; [by apply unique_NoDup|]. apply Forall_forall. intros x [Hx| ->%list_elem_of_singleton]%elem_of_unique; [|done]. rewrite Forall_forall in Hf. by apply Hf. }
  assert (Hhost : forall h, bool_decide (net_ParseIP h = None) && negb (stunHostRe h) = false -> stun_host h).
  { intros h [H1%bool_decide_eq_false|H1%negb_false_iff]%andb_false_iff; [by left|by right]. }
  destruct (SplitHostPort (trim raw)) as [[host port]|] eqn:E; apply seq_inr in H0 as [H1 H2]; apply seq_inr in H2 as [H2%refuse_ok [= <-]]; apply Hone.
  - destruct (bool_decide (port = "")); [done|]. apply refuse_ok in H1. exists host. split; [by apply Hhost|]. right. exists port. split; [done|].
    apply andb_false_iff in H1 as [H1|H1]; apply negb_false_iff in H1; [left; by apply bool_decide_eq_true in H1|by right].
  - exists (trim_bracket_pair (trim raw)). split; [by apply Hhost|by left].
Qed.
Lemma stun_list_ok raw out : hy2RealmSTUNList raw = inr out -> NoDup out /\ Forall stun_server out.
Proof.
  unfold hy2RealmSTUNList. assert (H : NoDup ([] : list string) /\ Forall stun_server []) by (split; constructor). revert H. generalize ([] : list string).
  induction raw as [|r raw IH]; intros l Hl; cbn [each]; [by intros [= <-]|]. intros (l' & H1 & H2)%bind_inr. eapply IH; [|exact H2]. by eapply add_stun_ok.
Qed.
Lemma stun_param_ok v out : hy2RealmSTUNParam v = inr out -> NoDup out /\ Forall stun_server out.
Proof. unfold hy2RealmSTUNParam. repeat case_match; try done; apply stun_list_ok. Qed.
Record realm_ok (r : Hy2Realm) : Prop := {
  ro_host : re_Host r <> ""; ro_port : 0 <= re_Port r <= 65535; ro_id : re_ID r <> "" /\ has_slash (re_ID r) = false;
  ro_stun : NoDup (re_STUN r) /\ Forall stun_server (re_STUN r)
}.
Lemma parse_realm_ok url_Parse s r : ParseHy2Realm url_Parse s = inr r -> realm_ok r.
Proof.
  unfold ParseHy2Realm. destruct (url_Parse _) as [u|]; [|done]. cbv zeta. intros (http & _ & H)%bind_inr.
  apply seq_inr in H as [Hh%refuse_ok H]. apply seq_inr in H as [_ H]. apply seq_inr in H as [Hp%refuse_ok H]. apply bind_inr in H as (token & _ & H).
  apply seq_inr in H as [_ H]. destruct (PathUnescape _) as [name|]; [|done]. apply seq_inr in H as [Hn%refuse_ok H]. apply seq_inr in H as [_ H].
  apply bind_inr in H as (stun & Hs & [= <-]). apply orb_false_iff in Hh as [_ Hh%bool_decide_eq_false]. apply orb_false_iff in Hn as [Hn%bool_decide_eq_false Hsl].
  split; cbn; [done| |done|by eapply stun_list_ok].
  apply andb_false_iff in Hp as [Hp|Hp]; apply negb_false_iff in Hp.
  - apply bool_decide_eq_true in Hp. rewrite Hp. done.
  - unfold in_port_range in Hp. destruct (Atoi _) as [n|]; [|done]. apply negb_true_iff, orb_false_iff in Hp. cbn. lia.
Qed.
(** A realm that is read is one a client can use: a rendezvous host, a port in range (0 for the
    scheme's own), a realm name that is a single path segment, and STUN servers that are each a host or
    host and port, once each. *)
Theorem realm_is_usable url_Parse e r : Hy2RealmOf url_Parse e = inr (Some r) -> UsesRealm e = true /\ realm_ok r.
Proof.
  unfold Hy2RealmOf. destruct (UsesRealm e); [|done]. cbn [negb]. intros (r0 & H1 & H)%bind_inr. apply bind_inr in H as (extra & H2 & [= <-]).
  split; [done|]. apply parse_realm_ok in H1 as [Ha Hb Hc [Hd He]]. apply stun_param_ok in H2 as [Hf Hg]. split; cbn; [done..|].
  split; [by apply unique_NoDup|]. apply Forall_forall. rewrite Forall_forall in He, Hg. intros x [?|?]%elem_of_unique; auto.
Qed.
(** [net/url] on one address: [realm://tok%20en@h.example:8443/slot?stun=s.example]. *)
Definition example_Parse (s : string) : option URL :=
  if bool_decide (s = "realm://tok%20en@h.example:8443/slot?stun=s.example") then
    Some (mkURL "realm" "" "h.example:8443" (Some "tok%20en") "/slot" "" ["s.example"])
  else None.
Definition example_realm : Endpoint := zero_endpoint <| ep_Protocol := ProtoHysteria2 |>
  <| ep_Params := list_to_map [("realm", AString " realm://tok%20en@h.example:8443/slot?stun=s.example"); ("realm_stun", AString "[2001:db8::1], x.example:3478 s.example")] |>.
Lemma realm_is_usable_witness : exists r, Hy2RealmOf example_Parse example_realm = inr (Some r) /\ realm_ok r /\
  ServerURL r = "https://h.example:8443" /\ re_Token r = "tok en" /\ re_STUN r = ["2001:db8::1"; "x.example:3478"; "s.example"].
Proof.
  eexists. split; [by vm_compute|]. split; [|by vm_compute]. eapply (realm_is_usable example_Parse example_realm). by vm_compute.
Defined.
(** A port of "-" slips through: it is also the code's mark for "no port". *)
Theorem dash_port_is_taken : hy2RealmSTUNList ["stun.example:-"] = inr ["stun.example:-"] /\ in_port_range "-" = false.
Proof. split; vm_compute; reflexivity. Qed.

(** * What stops a connection from loading

    Models the protocol parameters of [src/internal/model/validate.go] ([missingProtoParam],
    [invalidProtoParam], [EndpointParamProblem]), multiplex ([multiplex.go]) and QUIC tuning ([quic.go]).
    [proto_problem] is what [Validate] asks of a connection of the engine: [Validate]'s theorems hold of
    it as of any such check. [pem.Decode] and [url.Parse] are arguments; messages are shortened. *)
Local Open Scope Z_scope.

Definition ProtoAmneziaWG : string := "amneziawg".
Definition trimmed (e : Endpoint) (k : string) : string := trim (param_string (ep_Params e) k).
Definition contains (sub s : string) : bool := bool_decide (is_Some (after_first (str sub) (str s))).

(** ** Missing parameters *)
Definition snellVersion (p : gmap string any) : Z :=
  match p !! "version" with
  | Some (AInt n) => n
  | Some (AFloat f) => Util.f64_trunc f
  | Some (AString s) => default 0 (Atoi (TrimSpace (str s)))
  | _ => 0
  end.
Definition firstEmpty (e : Endpoint) (keys : list string) : option string := find (fun k => bool_decide (trimmed e k = "")) keys.
Definition missingProtoParam (e : Endpoint) : option string :=
  let p := ep_Protocol e in
  if bool_decide (p = ProtoTUIC) then firstEmpty e ["uuid"]
  else if bool_decide (p = ProtoShadowsocks) then firstEmpty e ["method"; "password"]
  else if bool_decide (p ∈ [ProtoWireGuard; ProtoAmneziaWG]) then firstEmpty e ["private_key"; "peer_public_key"]
  else if bool_decide (p = ProtoSnell) then
    let k := trimmed e "psk" in
    if bool_decide (k = "") then Some "psk"
    else if (snellVersion (ep_Params e) =? 6) && ((length (str k) <? 12)%nat || (255 <? length (str k))%nat) then
      Some "psk (Snell v6 needs 12 to 255 bytes)"
    else None
  else if bool_decide (p = ProtoSSH) then if sshMissingAuth e then Some "password or private_key" else None
  else if bool_decide (p = ProtoOpenVPN) then
    if bool_decide (trimmed e "mode" = "static_key") then firstEmpty e ["static_key"; "address"; "peer_address"] else firstEmpty e ["ca"]
  else None.

(** ** Values the core rejects *)
Definition knownSSMethods : list string :=
  ["aes-128-gcm"; "aes-192-gcm"; "aes-256-gcm"; "chacha20-ietf-poly1305"; "xchacha20-ietf-poly1305";
   "2022-blake3-aes-128-gcm"; "2022-blake3-aes-256-gcm"; "2022-blake3-chacha20-poly1305";
   "aes-128-ctr"; "aes-192-ctr"; "aes-256-ctr"; "aes-128-cfb"; "aes-192-cfb"; "aes-256-cfb";
   "rc4-md5"; "chacha20-ietf"; "xchacha20"; "none"].
Fixpoint uuid_from (i : nat) (s : bytes) : bool :=
  match s with
  | [] => true
  | c :: s => (if bool_decide (i ∈ [8; 13; 18; 23])%nat then c =? 45 else is_hex_digit c) && uuid_from (S i) s
  end.
Definition isUUIDish (s : string) : bool := (length (str s) =? 36)%nat && uuid_from 0 (str s).
(** [None] is -1. *)
Definition b64Len (s : bytes) : option nat := length <$> decode_any [StdEncoding; RawStdEncoding; URLEncoding; RawURLEncoding] s.
Definition ss2022_problem (m pw : string) : option string :=
  let want := if contains "aes-128" m then 16%nat else 32%nat in
  if bool_decide (pw = "") then None
  else
    let keys := Split 58 (str pw) in
    if (1 <? length keys)%nat && negb (contains "-aes-" m) then Some "takes a single key (identity keys need an AES 2022 method)"
    else if existsb (fun k => negb (bool_decide (b64Len k = Some want))) keys then Some "needs a base64 key of the method's length" else None.
Section loads.
Context (pem_Decode : bytes -> option (Block * bytes)) (url_Parse : string -> option URL).
Definition invalidProtoParam (e : Endpoint) : option string :=
  let p := ep_Protocol e in
  if bool_decide (p = ProtoTUIC) then
    let u := trimmed e "uuid" in
    if negb (bool_decide (u = "")) && negb (isUUIDish u) then Some "invalid uuid" else None
  else if bool_decide (p = ProtoHysteria2) then match Hy2RealmOf url_Parse e with inl err => Some err | inr _ => None end
  else if bool_decide (p = ProtoSSH) then sshParamProblem pem_Decode e
  else if bool_decide (p = ProtoShadowsocks) then
    let m := trimmed e "method" in
    if negb (bool_decide (m = "")) && negb (bool_decide (m ∈ knownSSMethods)) then Some "unsupported method"
    else if HasPrefix m "2022-blake3-" then ss2022_problem m (trimmed e "password") else None
  else None.
Definition proto_problem (e : Endpoint) : option string :=
  match missingProtoParam e with
  | Some missing => Some ("missing required " +:+ missing)
  | None =>
      match invalidProtoParam e with
      | Some p => Some p
      | None => match echProblem pem_Decode e with Some p => Some p | None => pinProblem e end
      end
  end.
End loads.

(** ** QUIC tuning *)
Definition ParamQUICInitialPacketSize : string := "initial_packet_size".
Definition ParamQUICDisablePMTUD : string := "disable_path_mtu_discovery".
Definition QUICTuningOf (e : Endpoint) : Z * bool :=
  if negb (CarriesQUICTuning (ep_Protocol e)) then (0, false)
  else
    let size := match ep_Params e !! ParamQUICInitialPacketSize ≫= paramWholeNumber with
                | Some n => if ValidQUICInitialPacketSize n then n else 0
                | None => 0
                end in
    (size, ParamBool (ep_Params e) ParamQUICDisablePMTUD).
Definition HasQUICTuning (e : Endpoint) : bool := let '(n, off) := QUICTuningOf e in (0 <? n) || off.
Definition QUICEffectiveInitialPacketSize (n : Z) : Z :=
  if n <=? 0 then 0
  else let v := Z.land n 0xffff in
       if v =? 0 then 0 else Z.min (Z.max v QUICMinInitialPacketSize) QUICMaxInitialPacketSize.

(** ** Multiplex *)
Definition MuxProtocols : list string := ["h2mux"; "smux"; "yamux"].
Definition BrutalMaxMbps : Z := 100000.
Definition MultiplexCapable (p : string) : bool := bool_decide (p ∈ [ProtoVLESS; ProtoVMess; ProtoTrojan; ProtoShadowsocks]).
Definition BrutalRateOK (mbps : Z) : bool := (1 <=? mbps) && (mbps <=? BrutalMaxMbps).
Definition mux_on (e : Endpoint) : option Multiplex :=
  match ep_Multiplex e with Some m => if mx_Enabled m then Some m else None | None => None end.
Definition MuxUoTIgnored (e : Endpoint) : bool :=
  match mux_on e with
  | Some _ => bool_decide (ep_Protocol e = ProtoShadowsocks) && ParamBool (ep_Params e) "udp_over_tcp"
  | None => false
  end.
Definition brutal_on (m : Multiplex) : option Brutal := match mx_Brutal m with Some b => if br_Enabled b then Some b else None | None => None end.
Definition brutal_ok (b : Brutal) : bool := BrutalRateOK (br_UpMbps b) && BrutalRateOK (br_DownMbps b).
Definition muxProblem (e : Endpoint) : option string :=
  match mux_on e with
  | None => None
  | Some m =>
      if negb (MultiplexCapable (ep_Protocol e)) then Some "multiplex works only on vless, vmess, trojan and shadowsocks"
      else if negb (bool_decide (mx_Protocol m = "")) && negb (bool_decide (mx_Protocol m ∈ MuxProtocols)) then Some "unknown multiplex protocol"
      else if (mx_MaxConnections m <? 0) || (mx_MinStreams m <? 0) || (mx_MaxStreams m <? 0) then
        Some "multiplex connection and stream counts cannot be negative"
      else if (0 <? mx_MaxStreams m) && ((0 <? mx_MaxConnections m) || (0 <? mx_MinStreams m)) then
        Some "multiplex max streams cannot be combined with max connections or min streams"
      else match brutal_on m with
           | None => None
           | Some b =>
               if negb (brutal_ok b) then Some "TCP Brutal needs an upload and a download rate"
               else if negb (mx_MaxConnections m =? 0) || negb (mx_MinStreams m =? 0) || negb (mx_MaxStreams m =? 0) then
                 Some "multiplex connection and stream counts cannot be combined with TCP Brutal"
               else None
           end
  end.
Definition EndpointParamProblem (load_problem : Endpoint -> option string) (e : Endpoint) : option string :=
  match load_problem e with Some p => Some p | None => muxProblem e end.
Section normalize.
Context (unicode_lower : bytes -> bytes).
(** The settings kept of an imported block; the second component is whether a note says something was
    left out. *)
Definition NormalizeMultiplex (p : string) (m : option Multiplex) : option Multiplex * bool :=
  match m with
  | None => (None, false)
  | Some m =>
      if negb (mx_Enabled m) then (None, false)
      else if negb (MultiplexCapable p) then (None, true)
      else
        let proto := unstr (ToLower unicode_lower (TrimSpace (str (mx_Protocol m)))) in
        if negb (bool_decide (proto = "")) && negb (bool_decide (proto ∈ MuxProtocols)) then (None, true)
        else
          let conns := Z.max 0 (mx_MaxConnections m) in
          let streams := if 0 <? conns then 0 else Z.max 0 (mx_MaxStreams m) in
          let least := if negb (0 <? conns) && (0 <? streams) then 0 else Z.max 0 (mx_MinStreams m) in
          let c := mkMultiplex true proto conns least streams (mx_Padding m) None in
          match brutal_on m with
          | None => (Some c, false)
          | Some b =>
              if brutal_ok b then (Some (mkMultiplex true proto 0 0 0 (mx_Padding m) (Some (mkBrutal true (br_UpMbps b) (br_DownMbps b)))), false)
              else (Some c, true)
          end
  end.
End normalize.

(** ** Facts *)
(** What an importer keeps of a multiplex block is never refused at save, and keeping it again
    changes nothing and drops nothing. *)
Theorem normalized_multiplex unicode_lower p m m' note e : NormalizeMultiplex unicode_lower p m = (Some m', note) ->
  ep_Protocol e = p -> ep_Multiplex e = Some m' ->
  muxProblem e = None /\ NormalizeMultiplex unicode_lower p (Some m') = (Some m', false).
Proof.
  unfold NormalizeMultiplex at 1. destruct m as [m|]; [|done]. destruct (mx_Enabled m) eqn:Een; [|done]. cbn [negb].
  destruct (MultiplexCapable p) eqn:Ecap; [|done]. cbn [negb]. cbv zeta. set (proto := unstr _). set (conns := Z.max 0 _).
  set (streams := if 0 <? conns then 0 else _). set (least := if _ && _ then 0 else _).
  destruct (negb (bool_decide (proto = "")) && negb (bool_decide (proto ∈ MuxProtocols))) eqn:Ep; [done|].
  assert (Hproto : unstr (ToLower unicode_lower (TrimSpace (str proto))) = proto).
  { apply andb_false_iff in Ep as [Ep%negb_false_iff%bool_decide_eq_true|Ep%negb_false_iff%bool_decide_eq_true]; [by rewrite Ep|].
    revert Ep. generalize proto. apply Forall_forall. by repeat constructor. }
  assert (Hc : 0 <= conns /\ 0 <= streams /\ 0 <= least) by (subst least streams conns; repeat case_match; lia).
  assert (Hx : 0 < streams -> conns = 0 /\ least = 0).
  { subst least streams. destruct (Z.ltb_spec 0 conns); [lia|]. intros Hs. destruct (Z.ltb_spec 0 (Z.max 0 (mx_MaxStreams m))); [|lia]. cbn. lia. }
  set (c := mkMultiplex true proto conns least streams (mx_Padding m) None).
  assert (Hcase : forall b : option Brutal, (b = None \/ exists u d, b = Some (mkBrutal true u d) /\ brutal_ok (mkBrutal true u d) = true) ->
    forall m1, m1 = (match b with None => c | Some _ => mkMultiplex true proto 0 0 0 (mx_Padding m) b end) ->
    forall e, ep_Protocol e = p -> ep_Multiplex e = Some m1 ->
    muxProblem e = None /\ NormalizeMultiplex unicode_lower p (Some m1) = (Some m1, false)).
  { intros b Hb m1 -> e0 He0 Hm0. unfold muxProblem, mux_on. rewrite Hm0, He0, Ecap. unfold NormalizeMultiplex.
    destruct Hb as [->|(u & d & -> & Hok)]; cbn [mx_Enabled mx_Protocol mx_MaxConnections mx_MinStreams mx_MaxStreams mx_Padding mx_Brutal brutal_on br_Enabled c negb];
      rewrite Ecap, Hproto, Ep; cbn [negb]; cbv zeta.
    - split.
      + rewrite (proj2 (Z.ltb_ge conns 0)), (proj2 (Z.ltb_ge least 0)), (proj2 (Z.ltb_ge streams 0)) by lia. cbn [orb].
        destruct (Z.ltb_spec 0 streams) as [Hs|]; [destruct (Hx Hs) as [-> ->]|]; done.
      + rewrite (Z.max_r 0 conns), (Z.max_r 0 streams), (Z.max_r 0 least) by lia. subst c. f_equal. f_equal. f_equal.
        * destruct (Z.ltb_spec 0 conns); cbn; [done|]. destruct (Z.ltb_spec 0 streams) as [Hs|]; [by destruct (Hx Hs)|done].
        * destruct (Z.ltb_spec 0 conns); [|done]. assert (~ 0 < streams) by (intros Hs; destruct (Hx Hs); lia). lia.
    - change (brutal_ok (mkBrutal true u d)) with (BrutalRateOK u && BrutalRateOK d) in *. unfold brutal_ok. cbn [br_UpMbps br_DownMbps]. rewrite Hok. done. }
  unfold brutal_on. destruct (mx_Brutal m) as [b|]; [|intros [= <- _]; by apply (Hcase None); [left|]].
  destruct (br_Enabled b); [|intros [= <- _]; by apply (Hcase None); [left|]].
  destruct (brutal_ok b) eqn:Eb; intros [= <- _].
  - apply (Hcase (Some (mkBrutal true (br_UpMbps b) (br_DownMbps b)))); [right; by eexists _, _|done].
  - by apply (Hcase None); [left|].
Qed.
Definition example_mux : Multiplex := mkMultiplex true " SMux " (-3) 4 8 true (Some (mkBrutal true 0 10)).
Definition kept_mux : Multiplex := mkMultiplex true "smux" 0 0 8 true None.
Lemma normalized_multiplex_witness : NormalizeMultiplex id ProtoVLESS (Some example_mux) = (Some kept_mux, true) /\
  muxProblem (zero_endpoint <| ep_Protocol := ProtoVLESS |> <| ep_Multiplex := Some kept_mux |>) = None.
Proof.
  split; [by vm_compute|]. eapply (normalized_multiplex id ProtoVLESS (Some example_mux) kept_mux true); [by vm_compute|done|done].
Defined.

(** An imported QUIC packet size is read as the size the core runs with: none, or one in quic-go's
    range, and a size already in range is itself. *)
Theorem quic_size_bounds n :
  (QUICEffectiveInitialPacketSize n = 0 \/ ValidQUICInitialPacketSize (QUICEffectiveInitialPacketSize n) = true) /\
  (ValidQUICInitialPacketSize n = true -> QUICEffectiveInitialPacketSize n = n).
Proof.
  unfold QUICEffectiveInitialPacketSize, ValidQUICInitialPacketSize, QUICMinInitialPacketSize, QUICMaxInitialPacketSize.
  change 0xffff with (Z.ones 16). rewrite Z.land_ones by done. change (2 ^ 16) with 65536.
  split.
  - destruct (n <=? 0); [by left|]. destruct (n mod 65536 =? 0); [by left|]. right. lia.
  - intros [H1 H2]%andb_true_iff. apply Z.leb_le in H1, H2. destruct (Z.leb_spec n 0); [lia|]. rewrite Z.mod_small by lia.
    destruct (Z.eqb_spec n 0); [lia|]. lia.
Qed.
Lemma tuning_valid e n off : QUICTuningOf e = (n, off) -> (n = 0 \/ ValidQUICInitialPacketSize n = true) /\
  (CarriesQUICTuning (ep_Protocol e) = false -> n = 0 /\ off = false).
Proof.
  unfold QUICTuningOf. destruct (CarriesQUICTuning _); cbn [negb]; intros [= <- <-]; [|by split; [left|]].
  split; [|done]. destruct (_ ≫= _) as [m|]; [|by left]. destruct (ValidQUICInitialPacketSize m) eqn:E; [by right|by left].
Qed.
Example uuids : map isUUIDish ["123e4567-e89b-12d3-a456-426614174000"; "123e4567e89b-12d3-a456-4266141740000"; ""] = [true; false; false].
Proof. vm_compute. reflexivity. Qed.
Example ss2022 : ss2022_problem "2022-blake3-aes-128-gcm" "AAAAAAAAAAAAAAAAAAAAAA==:AAAAAAAAAAAAAAAAAAAAAA==" = None /\
  ss2022_problem "2022-blake3-aes-256-gcm" "AAAAAAAAAAAAAAAAAAAAAA==" <> None.
Proof. split; [vm_compute; reflexivity|vm_compute; discriminate]. Qed.
