(* ===== verification/GenTls.v ===== *)
(** * TLS, transport and multiplex of an outbound

    Models, of [src/internal/generator], the parts of an outbound that several protocols share:
    [tlsJSON] and [transportJSON] with their keys and tables and [multiplexJSON] ([singbox.go]), ECH
    ([ech.go]) and certificate pins ([pin.go]). [pem.Decode] is an argument. *)
From S2P Require Import Prelude GoStrings GoText GoCodec Netip Model Dns Json GenSplit GenRoute.
From S2P Require Import EndpointPins EndpointEch EndpointSsh EndpointLoads.
Local Open Scope Z_scope.

(** ** Tables *)
Definition knownFlows : list string := ["xtls-rprx-vision"].
Definition knownSSPlugins : list string := ["obfs-local"; "v2ray-plugin"].
Definition knownTUICCC : list string := ["cubic"; "new_reno"; "bbr"].
Definition knownTUICRelay : list string := ["native"; "quic"].
Definition knownHy2Obfs : list string := ["salamander"].
Definition knownVMessSec : list string := ["auto"; "none"; "zero"; "aes-128-gcm"; "chacha20-poly1305"].
Definition knownPacketEnc : list string := ["xudp"; "packetaddr"].
Definition knownUTLSFinger : list string :=
  ["chrome"; "firefox"; "edge"; "safari"; "ios"; "android"; "360"; "qq"; "random"; "randomized"].
Definition utlsFingerAlias : gmap string string := list_to_map [("randomizedalpn", "randomized"); ("randomizednoalpn", "randomized")].
Definition safeEnum (v : string) (allowed : list string) : string := if bool_decide (v ∈ allowed) then v else "".
Definition normalizeUTLSFinger (v : string) : string := default v (utlsFingerAlias !! v).
Definition fingerprint_of (t : TLS) : string := safeEnum (normalizeUTLSFinger (tls_Fingerprint t)) knownUTLSFinger.
Definition transportCapable (p : string) : bool := bool_decide (p ∈ [ProtoVLESS; ProtoVMess; ProtoTrojan]).
Definition tlsCapable (p : string) : bool :=
  bool_decide (p ∈ [ProtoVLESS; ProtoVMess; ProtoTrojan; ProtoHysteria2; ProtoTUIC; ProtoHTTP; ProtoAnyTLS]).

(** ** Keys *)
Definition wg_encodings : list encoding := [StdEncoding; RawStdEncoding; URLEncoding; RawURLEncoding].
Definition reality_encodings : list encoding := [RawURLEncoding; StdEncoding; RawStdEncoding; URLEncoding].
(** The first encoding that gives [n] bytes. *)
Fixpoint decode_size (n : nat) (es : list encoding) (p : bytes) : option bytes :=
  match es with
  | [] => None
  | e :: es => match DecodeString e p with
               | Some b => if (length b =? n)%nat then Some b else decode_size n es p
               | None => decode_size n es p
               end
  end.
(** [validWGKey] judges by the first encoding that decodes at all. *)
Definition validWGKey (s : string) : bool :=
  negb (bool_decide (s = "")) && match decode_any wg_encodings (str s) with Some b => (length b =? 32)%nat | None => false end.
Definition normalizeWGKey (s : string) : string :=
  match decode_size 32 wg_encodings (str s) with Some b => unstr (EncodeToString StdEncoding b) | None => s end.
Definition validRealityPubKey (s : string) : bool :=
  negb (bool_decide (s = "")) && bool_decide (is_Some (decode_size 32 reality_encodings (str s))).
Definition normalizeRealityPubKey (s : string) : string :=
  match decode_size 32 reality_encodings (str s) with Some b => unstr (EncodeToString RawURLEncoding b) | None => s end.
Definition validShortID (s : string) : bool :=
  let p := str s in
  negb (length p =? 0)%nat && (length p <=? 16)%nat && (length p mod 2 =? 0)%nat && forallb is_hex_digit p.

(** ** ECH *)
Definition echCarryingFingerprints : list string := ["chrome"; "firefox"].
Definition echQueryNameMinMinor : Z := 13.
Definition echMinGoMinor : Z := 24.
Definition re_space (c : Z) : bool := in_range 9 10 c || in_range 12 13 c || (c =? 32).
(** [Environment:\s*go1\.(\d+)], where [s] starts with it, and the first place it does. *)
Definition go_here (s : bytes) : option bytes :=
  r ← strip_prefix (str "Environment:") s;
  r ← strip_prefix (str "go1.") (span re_space r).2;
  match (span is_digit r).1 with [] => None | d => Some d end.
Fixpoint find_go (s : bytes) : option bytes :=
  match go_here s with
  | Some d => Some d
  | None => match s with [] => None | _ :: s => find_go s end
  end.
Definition coreGoMinor (v : string) : Z := match find_go (str v) with Some d => default (-1) (Atoi d) | None => -1 end.
Definition echGoTooOld (coreVersion : string) : bool :=
  let m := coreMinor coreVersion in let g := coreGoMinor coreVersion in
  (0 <=? m) && (m <=? 12) && (0 <=? g) && (g <? echMinGoMinor).
Definition echFitFingerprint (tl : obj) : obj :=
  match as_object (tl !! "utls"), tl !! "ech" with
  | Some u, Some _ =>
      if bool_decide (get_str u "fingerprint" ∈ echCarryingFingerprints) then tl
      else <["utls" := AMap (<["fingerprint" := AString "chrome"]> u)]> tl
  | _, _ => tl
  end.
Definition dropECH (tl : obj) (t : option TLS) : obj :=
  let tl := delete "ech" tl in
  match as_object (tl !! "utls"), t with
  | Some u, Some t =>
      let fp := fingerprint_of t in
      if bool_decide (fp = "") then tl else <["utls" := AMap (<["fingerprint" := AString fp]> u)]> tl
  | _, _ => tl
  end.
Definition fitECHToProtocol (p : string) (tl : obj) (t : option TLS) : obj :=
  if bool_decide (p = ProtoHysteria2) || bool_decide (p = ProtoTUIC) then
    match as_object (tl !! "ech") with
    | Some ech => if bool_decide (ech !! "config" = None) then dropECH tl t else tl
    | None => tl
    end
  else tl.

(** ** The tls block *)
Section tls.
Context (pem_Decode : bytes -> option (Block * bytes)).
Definition echJSON (t : option TLS) : option obj :=
  if negb (ECHActive t) then None
  else
    match t ≫= tls_ECH with
    | None => None
    | Some e =>
        if bool_decide (ech_Config e = "") then Some (object [("enabled", ABool true)])
        else match ParseECHConfigList pem_Decode (ech_Config e) with
             | inl _ => None
             | inr b => Some (object [("enabled", ABool true); ("config", AStrings (pem_lines "ECH CONFIGS" b))])
             end
    end.
Definition utls_block (fp : string) : any := AMap (object [("enabled", ABool true); ("fingerprint", AString fp)]).
Definition reality_block (t : TLS) : any :=
  AMap (set_if (validShortID (tls_ShortID t)) "short_id" (AString (tls_ShortID t))
    (object [("enabled", ABool true); ("public_key", AString (normalizeRealityPubKey (tls_PublicKey t)))])).
Definition is_reality (t : TLS) : bool := bool_decide (tls_Type t = "reality") && validRealityPubKey (tls_PublicKey t).
Definition tlsJSON (t : option TLS) : option obj :=
  match t with
  | None => None
  | Some t =>
      if negb (tls_Enabled t) then None
      else
        let out := object [("enabled", ABool true)] in
        let out := set_str "server_name" (tls_SNI t) out in
        let out := set_if (tls_Insecure t) "insecure" (ABool true) out in
        let out := set_if (negb (nil (tls_ALPN t))) "alpn" (AStrings (tls_ALPN t)) out in
        let fp := fingerprint_of t in
        let out := set_if (negb (bool_decide (fp = ""))) "utls" (utls_block fp) out in
        if is_reality t then
          Some (<["reality" := reality_block t]> (set_if (bool_decide (out !! "utls" = None)) "utls" (utls_block "chrome") out))
        else
          let out := set_if (tls_Fragment t) "fragment" (ABool true) out in
          let out := set_if (tls_RecordFragment t) "record_fragment" (ABool true) out in
          Some (match echJSON (Some t) with Some ech => echFitFingerprint (<["ech" := AMap ech]> out) | None => out end)
  end.
End tls.
(** The ALPN entries kept; the key goes with the last. *)
Definition keep_alpn (f : string -> bool) (tl : obj) : obj :=
  match tl !! "alpn" with
  | Some (AStrings a) => match filter (fun p => f p = true) a with [] => delete "alpn" tl | kept => <["alpn" := AStrings kept]> tl end
  | _ => tl
  end.
Definition h3_alpn (tl : obj) : obj :=
  let kept := filter (fun p => (bool_decide (p = "h3") || HasPrefix p "h3-") = true) (as_strings (tl !! "alpn")) in
  <["alpn" := AStrings (match kept with [] => ["h3"] | _ => kept end)]> tl.
Definition fit_alpn (e : Endpoint) (tl : obj) : obj :=
  let p := ep_Protocol e in
  let over l := transportCapable p && match ep_Transport e with Some t => bool_decide (tr_Type t ∈ l) | None => false end in
  let tl := if bool_decide (p = ProtoTUIC) then h3_alpn tl else tl in
  let tl := if over ["ws"; "httpupgrade"] then keep_alpn (fun a => negb (bool_decide (a = "h2"))) tl else tl in
  let tl := if over ["grpc"; "http"] then keep_alpn (fun a => bool_decide (a = "h2")) tl else tl in
  if negb (bool_decide (p = ProtoTUIC)) && negb (bool_decide (p = ProtoHysteria2)) then keep_alpn (fun a => negb (bool_decide (a = "h3"))) tl else tl.

(** ** Transport *)
Definition splitHosts (s : string) : list string := filter (fun h => h <> "") ((fun h => unstr (TrimSpace h)) <$> Split 44 (str s)).
Fixpoint early_data (kvs : list bytes) : option Z :=
  match kvs with
  | [] => None
  | kv :: kvs =>
      match split_at 61 kv with
      | (k, Some v) =>
          if bool_decide (k = str "ed") then match Atoi v with Some n => if 0 <? n then Some n else early_data kvs | None => early_data kvs end
          else early_data kvs
      | _ => early_data kvs
      end
  end.
Definition splitEarlyDataHint (p : string) : string * Z :=
  match split_at 63 (str p) with
  | (path, Some q) => match early_data (Split 38 q) with Some n => (unstr path, n) | None => (p, 0) end
  | _ => (p, 0)
  end.
Definition transportJSON (t : option Transport) : option obj :=
  match t with
  | None => None
  | Some t =>
      if bool_decide (tr_Type t = "") then None
      else
        let out := object [("type", AString (tr_Type t))] in
        let '(path, med) := splitEarlyDataHint (tr_Path t) in
        Some (if bool_decide (tr_Type t = "ws") then
                let out := set_str "path" path out in
                let out := if 0 <? med then <["early_data_header_name" := AString "Sec-WebSocket-Protocol"]> (<["max_early_data" := AInt med]> out) else out in
                set_if (negb (bool_decide (tr_Host t = ""))) "headers" (AMap (object [("Host", AString (tr_Host t))])) out
              else if bool_decide (tr_Type t = "grpc") then set_str "service_name" (tr_ServiceName t) out
              else if bool_decide (tr_Type t = "http") then
                let out := set_str "path" (tr_Path t) out in
                let hosts := splitHosts (tr_Host t) in set_if (negb (nil hosts)) "host" (AStrings hosts) out
              else if bool_decide (tr_Type t = "httpupgrade") then set_str "host" (tr_Host t) (set_str "path" path out)
              else out)
  end.

(** ** Multiplex *)
Definition multiplexCapable (p : string) : bool := MultiplexCapable p.
Definition multiplexJSON (e : Endpoint) : option obj :=
  match mux_on e with
  | None => None
  | Some m =>
      if negb (multiplexCapable (ep_Protocol e)) || MuxUoTIgnored e then None
      else if negb (bool_decide (mx_Protocol m = "")) && bool_decide (safeEnum (mx_Protocol m) MuxProtocols = "") then None
      else
        let out := set_str "protocol" (mx_Protocol m) (object [("enabled", ABool true)]) in
        let pool := if 0 <? mx_MaxConnections m then
                      set_if (0 <? mx_MinStreams m) "min_streams" (AInt (mx_MinStreams m)) (<["max_connections" := AInt (mx_MaxConnections m)]> out)
                    else set_if (0 <? mx_MaxStreams m) "max_streams" (AInt (mx_MaxStreams m)) out in
        let out := match brutal_on m with
                   | Some b => if brutal_ok b then
                                 <["brutal" := AMap (object [("enabled", ABool true); ("up_mbps", AInt (br_UpMbps b)); ("down_mbps", AInt (br_DownMbps b))])]> out
                               else pool
                   | None => pool
                   end in
        Some (set_if (mx_Padding m) "padding" (ABool true) out)
  end.

(** ** Pins *)
Definition pinPubKeyMinMinor : Z := 13.
Definition pinCertMinMinor : Z := 15.
Definition pinB64 (pins : list string) : list string := omap (fun p => (fun b => unstr (EncodeToString StdEncoding b)) <$> ParsePinSHA256 p) pins.
Definition pinTarget (e : Endpoint) (ob : obj) : option obj :=
  match ep_TLS e with
  | None => None
  | Some t =>
      if bool_decide (tls_Type t = "reality") then None
      else match as_object (ob !! "tls") with
           | Some tl => if bool_decide (tl !! "reality" = None) then Some tl else None
           | None => None
           end
  end.
Definition pinCoreExtras (e : Endpoint) (ob : obj) (coreVersion : string) : obj :=
  match pinTarget e ob with
  | None => ob
  | Some tl =>
      let m := coreMinor coreVersion in
      let cert := if pinCertMinMinor <=? m then pinB64 (CertPinsOf e) else [] in
      let pub := if pinPubKeyMinMinor <=? m then pinB64 (PubKeyPinsOf e) else [] in
      let tl := set_if (negb (nil cert)) "certificate_sha256" (AStrings cert) tl in
      let tl := set_if (negb (nil pub)) "certificate_public_key_sha256" (AStrings pub) tl in
      <["tls" := AMap (if negb (nil cert) || negb (nil pub) then delete "insecure" tl else tl)]> ob
  end.
Definition echCoreExtras (e : Endpoint) (ob : obj) (coreVersion : string) : obj :=
  match as_object (ob !! "tls") with
  | None => ob
  | Some tl =>
      match as_object (tl !! "ech") with
      | None => ob
      | Some ech =>
          if echGoTooOld coreVersion then <["tls" := AMap (dropECH tl (ep_TLS e))]> ob
          else if bool_decide (is_Some (ech !! "config")) || (coreMinor coreVersion <? echQueryNameMinMinor) then ob
          else
            let q := match ep_TLS e ≫= tls_ECH with Some c => trim (ech_QueryServerName c) | None => "" end in
            if bool_decide (q = "") then ob
            else <["tls" := AMap (<["ech" := AMap (<["query_server_name" := AString q]> ech)]> tl)]> ob
      end
  end.
