(* ===== verification/GenOutbound.v ===== *)
(** * What the generator asks of the renderers of single connections

    [render_error] are their errors. [Renderer] is the interface the generator is written against,
    [RendererLaws] what it needs of an implementation: the object rendered for a connection is tagged
    with its id and refers to no other outbound. [GenOutbound] implements it.

    Further on: outbounds and endpoints of single connections. *)
From S2P Require Import Prelude GoStrings Netip GoText GoCodec Model Faults Dns Validate EndpointPins.
From S2P Require Import EndpointEch.
From S2P Require Import EndpointSsh Json GenSplit GenRoute EndpointLoads GenTls.
Local Open Scope Z_scope.

Inductive render_error :=
  NotSupported (proto : string) | CoreTooOld (kind core : string) | SnellVersion (version : Z) | BadHostKey (e : ssh_error)
| BadPrivateKey (id key : string) | BadPeerKey (id key : string) | UnknownFlavor (flavor : string) | BadServerEntry
| StaticAddress (address : string) | PeerAddress (address : string).
Class Renderer := {
  OutboundForCore : Endpoint -> string -> render_error + obj;
  openvpnEndpointFor : Endpoint -> string -> render_error + obj;
  openconnectEndpointFor : Endpoint -> string -> render_error + obj;
  endpointFor : Endpoint -> render_error + obj
}.
Definition stands_for (e : Endpoint) (o : obj) : Prop :=
  o !! "tag" = Some (AString (ep_ID e)) /\ o !! "outbounds" = None /\ o !! "detour" = None.
Class RendererLaws (R : Renderer) : Prop := {
  OutboundForCore_stands : forall e v o, OutboundForCore e v = inr o -> stands_for e o;
  openvpn_stands : forall e v o, openvpnEndpointFor e v = inr o -> stands_for e o;
  openconnect_stands : forall e v o, openconnectEndpointFor e v = inr o -> stands_for e o;
  endpointFor_stands : forall e o, endpointFor e = inr o -> stands_for e o
}.

(** * Outbounds and endpoints of single connections

    Models the renderers of [src/internal/generator]: [outboundFor] and [endpointFor] of [singbox.go],
    [snell.go], [ssh.go], [openvpn.go], [openconnect.go], [hysteria2_114.go], [quic_tuning.go] and
    [export.go], as the implementation [singbox] of [Renderer]. [pem.Decode], [url.Parse] and case
    folding beyond ASCII are arguments. *)

Definition snellMinMinor : Z := 14.
Definition sshAlgorithmMinMinor : Z := 14.
Definition openvpnMinMinor : Z := 14.
Definition openconnectMinMinor : Z := 14.
Definition quicMinMinor : Z := 14.
Definition first_line (v : string) : string := unstr (TrimSpace (split_at 10 (str v)).1).
(** A parameter copied when it is one of [l]. *)
Definition set_enum (key : string) (v : string) (l : list string) (ob : obj) : obj :=
  set_if (bool_decide (v ∈ l)) key (AString v) ob.
Definition param (e : Endpoint) (k : string) : string := get_str (ep_Params e) k.
Definition flag (e : Endpoint) (k : string) (ob : obj) : obj := set_if (boolp (ep_Params e) k) k (ABool true) ob.

(** ** Ports of a hopping range *)
Definition range_port (p : bytes) : option Z :=
  n ← Atoi (TrimSpace p); if (n <? 1) || (65535 <? n) then None else Some n.
Definition singBoxPortRange (r : string) : string :=
  let r := TrimSpace (str r) in
  match r with
  | [] => ""
  | _ =>
      match split_at 45 r with
      | (p, None) => match range_port p with Some _ => let p := unstr (TrimSpace p) in p +:+ ":" +:+ p | None => "" end
      | (p, Some q) =>
          match range_port p, range_port q with
          | Some a, Some b => itoa (Z.min a b) +:+ ":" +:+ itoa (Z.max a b)
          | _, _ => ""
          end
      end
  end.
Definition server_ports (hp : string) : list string :=
  filter (fun s => s <> "") ((fun r => singBoxPortRange (unstr r)) <$> Split 44 (str hp)).
Definition proxyAuth (e : Endpoint) (ob : obj) : obj :=
  set_str "password" (param e "password") (set_str "username" (param e "username") ob).

(** ** Snell and SSH *)
Definition snellOutbound (e : Endpoint) (ob : obj) : render_error + obj :=
  let version := intp (ep_Params e) "version" in
  let version := if version =? 0 then default 0 (Atoi (str (param e "version"))) else version in
  _ ← refuse (negb (version =? 4) && negb (version =? 6)) (SnellVersion version);
  let ob := <["psk" := AString (param e "psk")]> (<["version" := AInt version]> (<["type" := AString "snell"]> ob)) in
  let ob := set_str "userkey" (param e "userkey") ob in
  let ob := flag e "reuse" ob in
  let ob := set_enum "network" (param e "network") ["tcp"; "udp"] ob in
  inr (if version =? 4 then
         if bool_decide (param e "obfs_mode" = "http") then set_str "obfs_host" (param e "obfs_host") (<["obfs_mode" := AString "http"]> ob) else ob
       else set_enum "mode" (param e "mode") ["default"; "unshaped"; "unsafe-raw"] ob).
Definition sshOutbound (e : Endpoint) (ob : obj) : render_error + obj :=
  let ob := <["type" := AString "ssh"]> ob in
  let ob := set_str "user" (trim (param e "user")) ob in
  let ob := set_str "password" (param e "password") ob in
  let k := SSHPrivateKey e in
  let ob := if bool_decide (k = "") then ob
            else set_str "private_key_passphrase" (param e "private_key_passphrase") (<["private_key" := AString k]> ob) in
  match SSHHostKeys e with
  | inl err => inl (BadHostKey err)
  | inr keys =>
      let ob := if nil keys then ob
                else <["host_key_algorithms" := AStrings (SSHHostKeyAlgorithms keys)]> (<["host_key" := AStrings (host_key_text <$> keys)]> ob) in
      inr (set_str "client_version" (param e "client_version") ob)
  end.
Definition sshList (p : gmap string any) (k : string) : list string :=
  l ← default [] (ParamLines p k);
  filter (fun s => s <> "") ((fun s => unstr (TrimSpace s)) <$> Split 44 (str l)).
Definition add_algorithms (e : Endpoint) (ob : obj) (k : string) : obj :=
  let l := sshList (ep_Params e) k in set_if (negb (nil l)) k (AStrings l) ob.
Definition sshCoreExtras (e : Endpoint) (ob : obj) (coreVersion : string) : obj :=
  if coreMinor coreVersion <? sshAlgorithmMinMinor then ob else foldl (add_algorithms e) ob algorithm_lists.

(** ** The protocols *)
Definition vless (e : Endpoint) (ob : obj) : obj :=
  let ob := <["uuid" := AString (param e "uuid")]> (<["type" := AString "vless"]> ob) in
  let tlsOn := match ep_TLS e with Some t => tls_Enabled t | None => false end in
  let hasTransport := match ep_Transport e with Some t => negb (bool_decide (tr_Type t = "")) | None => false end in
  let f := safeEnum (param e "flow") knownFlows in
  let ob := set_if (negb (bool_decide (f = "")) && tlsOn && negb hasTransport) "flow" (AString f) ob in
  set_str "packet_encoding" (safeEnum (param e "packet_encoding") knownPacketEnc) ob.
Definition vmess (e : Endpoint) (ob : obj) : obj :=
  let ob := <["uuid" := AString (param e "uuid")]> (<["type" := AString "vmess"]> ob) in
  let ob := <["alter_id" := AInt (intp (ep_Params e) "alter_id")]> ob in
  let sec := safeEnum (param e "security") knownVMessSec in
  <["security" := AString (if bool_decide (sec = "") then "auto" else sec)]> ob.
Definition shadowsocks (e : Endpoint) (ob : obj) : obj :=
  let ob := <["method" := AString (param e "method")]> (<["type" := AString "shadowsocks"]> ob) in
  let ob := <["password" := AString (param e "password")]> ob in
  let ob := flag e "udp_over_tcp" ob in
  let pl := safeEnum (param e "plugin") knownSSPlugins in
  if bool_decide (pl = "") then ob else set_str "plugin_opts" (param e "plugin_opts") (<["plugin" := AString pl]> ob).
Definition set_positive (e : Endpoint) (k : string) (ob : obj) : obj :=
  let n := intp (ep_Params e) k in set_if (0 <? n) k (AInt n) ob.
Definition hysteria2 (e : Endpoint) (ob : obj) : obj :=
  let ob := <["password" := AString (param e "password")]> (<["type" := AString "hysteria2"]> ob) in
  let realm := UsesRealm e in
  let ob := if realm then delete "server_port" (delete "server" ob) else ob in
  let o := safeEnum (param e "obfs") knownHy2Obfs in
  let pw := param e "obfs_password" in
  let ob := set_if (negb (bool_decide (o = "")) && negb (bool_decide (pw = ""))) "obfs" (AMap (object [("type", AString o); ("password", AString pw)])) ob in
  let hp := param e "hop_ports" in
  let ports := server_ports hp in
  let ob := set_if (negb (bool_decide (hp = "")) && negb realm && negb (nil ports)) "server_ports" (AStrings ports) ob in
  set_positive e "down_mbps" (set_positive e "up_mbps" ob).
Definition tuic (e : Endpoint) (ob : obj) : obj :=
  let ob := <["uuid" := AString (param e "uuid")]> (<["type" := AString "tuic"]> ob) in
  let ob := <["password" := AString (param e "password")]> ob in
  let ob := set_str "congestion_control" (safeEnum (param e "congestion_control") knownTUICCC) ob in
  let ob := if boolp (ep_Params e) "udp_over_stream" then <["udp_over_stream" := ABool true]> ob
            else set_str "udp_relay_mode" (safeEnum (param e "udp_relay_mode") knownTUICRelay) ob in
  let hb := param e "heartbeat" in
  let ob := set_if (negb (bool_decide (hb = "")) && match ParseDuration hb with Some d => 0 <? d | None => false end) "heartbeat" (AString hb) ob in
  flag e "zero_rtt_handshake" ob.
Definition protocol_fields (e : Endpoint) (ob : obj) : render_error + obj :=
  let p := ep_Protocol e in
  if bool_decide (p = ProtoVLESS) then inr (vless e ob)
  else if bool_decide (p = ProtoVMess) then inr (vmess e ob)
  else if bool_decide (p = ProtoTrojan) then inr (<["password" := AString (param e "password")]> (<["type" := AString "trojan"]> ob))
  else if bool_decide (p = ProtoSnell) then snellOutbound e ob
  else if bool_decide (p = ProtoSSH) then sshOutbound e ob
  else if bool_decide (p = ProtoAnyTLS) then inr (<["password" := AString (param e "password")]> (<["type" := AString "anytls"]> ob))
  else if bool_decide (p = ProtoShadowsocks) then inr (shadowsocks e ob)
  else if bool_decide (p = ProtoHysteria2) then inr (hysteria2 e ob)
  else if bool_decide (p = ProtoTUIC) then inr (tuic e ob)
  else if bool_decide (p = ProtoSOCKS) then inr (proxyAuth e (<["version" := AString "5"]> (<["type" := AString "socks"]> ob)))
  else if bool_decide (p = ProtoHTTP) then inr (proxyAuth e (<["type" := AString "http"]> ob))
  else inl (NotSupported p).
Section renderer.
Context (unicode_fold : bytes -> bytes -> bool) (pem_Decode : bytes -> option (Block * bytes)) (url_Parse : string -> option URL).
Definition rendered_tls (e : Endpoint) : option obj :=
  if tlsCapable (ep_Protocol e) then
    (fun tl => fit_alpn e (fitECHToProtocol (ep_Protocol e) tl (ep_TLS e))) <$> tlsJSON pem_Decode (ep_TLS e)
  else None.
Definition set_opt (k : string) (v : option obj) (ob : obj) : obj := match v with Some m => <[k := AMap m]> ob | None => ob end.
Definition outboundFor (e : Endpoint) : render_error + obj :=
  ob ← protocol_fields e (object [("tag", AString (ep_ID e)); ("server", AString (ep_Server e)); ("server_port", AInt (ep_Port e))]);
  let ob := set_opt "transport" (if transportCapable (ep_Protocol e) then transportJSON (ep_Transport e) else None) ob in
  let ob := set_opt "tls" (rendered_tls e) ob in
  inr (set_opt "multiplex" (multiplexJSON e) ob).

(** ** Hysteria2 on newer cores, QUIC *)
Definition hy2RealmDefaultSTUN : list string := ["stun.nextcloud.com:3478"; "stun.sip.us:3478"; "global.stun.twilio.com:3478"].
Definition hy2RealmJSON (r : Hy2Realm) : obj :=
  let stun := if nil (re_STUN r) then hy2RealmDefaultSTUN else re_STUN r in
  set_str "token" (re_Token r) (object [("server_url", AString (ServerURL r)); ("realm_id", AString (re_ID r)); ("stun_servers", AStrings stun)]).
Definition is_duration (v : string) : bool := bool_decide (is_Some (ParseDuration v)).
Definition hop_interval (e : Endpoint) (modern : bool) (ob : obj) : obj :=
  let v := param e "hop_interval" in
  if bool_decide (v = "") || UsesRealm e || negb (is_duration v) then ob
  else
    let m := param e "hop_interval_max" in
    set_if (negb (bool_decide (m = "")) && modern && is_duration m) "hop_interval_max" (AString m) (<["hop_interval" := AString v]> ob).
Definition is_gecko (e : Endpoint) : bool := EqualFold unicode_fold (str (param e "obfs")) (str "gecko").
Definition gecko_obfs (e : Endpoint) : obj :=
  let obfs := object [("type", AString "gecko"); ("password", AString (param e "obfs_password"))] in
  let n := intp (ep_Params e) "obfs_min_packet_size" in
  let obfs := set_if (0 <? n) "min_packet_size" (AInt n) obfs in
  let n := intp (ep_Params e) "obfs_max_packet_size" in
  set_if (0 <? n) "max_packet_size" (AInt n) obfs.
Definition hysteria2Extras (e : Endpoint) (ob : obj) (coreVersion : string) : obj :=
  let modern := coreModernMinor <=? coreMinor coreVersion in
  let ob := if UsesRealm e && modern then
              match Hy2RealmOf url_Parse e with inr (Some r) => <["realm" := AMap (hy2RealmJSON r)]> ob | _ => ob end
            else ob in
  let ob := hop_interval e modern ob in
  if is_gecko e && (negb modern || bool_decide (param e "obfs_password" = "")) then ob
  else
    let ob := if is_gecko e then <["obfs" := AMap (gecko_obfs e)]> ob else ob in
    if modern then
      flag e "disable_chrome_parrot" (set_enum "bbr_profile" (param e "bbr_profile") ["conservative"; "standard"; "aggressive"] ob)
    else ob.
Definition quicTuning (e : Endpoint) (ob : obj) (coreVersion : string) : obj :=
  let '(size, noPMTUD) := QUICTuningOf e in
  if ((size =? 0) && negb noPMTUD) || (coreMinor coreVersion <? quicMinMinor) then ob
  else set_if noPMTUD ParamQUICDisablePMTUD (ABool true) (set_if (0 <? size) ParamQUICInitialPacketSize (AInt size) ob).
Definition outbound_for_core (e : Endpoint) (coreVersion : string) : render_error + obj :=
  ob ← outboundFor e;
  let ob := if bool_decide (ep_Protocol e = ProtoHysteria2) then hysteria2Extras e ob coreVersion else ob in
  let ob := if bool_decide (ep_Protocol e = ProtoSSH) then sshCoreExtras e ob coreVersion else ob in
  inr (pinCoreExtras e (quicTuning e (echCoreExtras e ob coreVersion) coreVersion) coreVersion).
End renderer.

(** ** WireGuard *)
Definition default_allowed : any := AStrings ["0.0.0.0/0"; "::/0"].
Definition anyToStrings (v : option any) : list string :=
  let raw := match v with Some (AStrings t) => t | Some (AList t) => omap (fun x => match x with AString s => Some s | _ => None end) t | _ => [] end in
  filter (fun s => s <> "") (trim <$> raw).
Definition copy_param (params : gmap string any) (k key : string) (m : obj) : obj := match params !! k with Some v => <[key := v]> m | None => m end.
Definition wg_peer (params p : gmap string any) : option obj :=
  let addr := get_str p "server" in
  let pubKey := get_str p "public_key" in
  if bool_decide (addr = "") || negb (validWGKey pubKey) then None
  else
    let peer := object [("address", AString addr); ("port", AInt (intp p "port")); ("public_key", AString (normalizeWGKey pubKey));
                        ("allowed_ips", default_allowed)] in
    let aips := anyToStrings (p !! "allowed_ips") in
    let peer := set_if (negb (nil aips)) "allowed_ips" (AStrings aips) peer in
    let psk := get_str p "pre_shared_key" in
    let peer := set_if (negb (bool_decide (psk = ""))) "pre_shared_key" (AString (normalizeWGKey psk)) peer in
    let ka := intp p "persistent_keepalive" in
    let peer := set_if (0 <? ka) "persistent_keepalive_interval" (AInt ka) peer in
    Some (copy_param params "reserved" "reserved" peer).
Definition wgPeers (params : gmap string any) : list obj :=
  match params !! "peers" with
  | Some (AMaps l) => omap (wg_peer params) l
  | Some (AList l) => omap (wg_peer params) (omap map_of l)
  | _ => []
  end.
(** The typed setting, else the parameter. *)
Definition first_positive (a b : Z) : Z := if 0 <? a then a else b.
Definition wireguard_endpoint (e : Endpoint) : render_error + obj :=
  let params := ep_Params e in
  let privKey := param e "private_key" in
  let peerPubKey := param e "peer_public_key" in
  _ ← refuse (negb (validWGKey privKey)) (BadPrivateKey (ep_ID e) privKey);
  _ ← refuse (negb (validWGKey peerPubKey)) (BadPeerKey (ep_ID e) peerPubKey);
  let peer := object [("address", AString (ep_Server e)); ("port", AInt (ep_Port e)); ("public_key", AString (normalizeWGKey peerPubKey));
                      ("allowed_ips", default_allowed)] in
  let psk := param e "pre_shared_key" in
  let peer := set_if (negb (bool_decide (psk = ""))) "pre_shared_key" (AString (normalizeWGKey psk)) peer in
  let peer := copy_param params "reserved" "reserved" peer in
  let ka := first_positive (ep_PersistentKeepalive e) (intp params "persistent_keepalive") in
  let peer := set_if (0 <? ka) "persistent_keepalive_interval" (AInt ka) peer in
  let multi := wgPeers params in
  let peers := if (1 <? length multi)%nat then multi else [peer] in
  let ep := object [("type", AString "wireguard"); ("tag", AString (ep_ID e)); ("private_key", AString (normalizeWGKey privKey)); ("peers", AMaps peers)] in
  let ep := copy_param params "local_address" "address" ep in
  let mtu := first_positive (ep_MTU e) (intp params "mtu") in
  inr (set_if (0 <? mtu) "mtu" (AInt mtu) ep).

(** ** OpenConnect *)
Definition openconnectFlavors : list string := ["anyconnect"; "gp"; "fortinet"; "f5"; "pulse"; "nc"].
Definition openconnect_endpoint (e : Endpoint) (coreVersion : string) : render_error + obj :=
  _ ← refuse (negb (bool_decide (coreVersion = "")) && (coreMinor coreVersion <? openconnectMinMinor)) (CoreTooOld "OpenConnect" (first_line coreVersion));
  let server := "https://" +:+ (if negb (ep_Port e =? 0) && negb (ep_Port e =? 443) then JoinHostPort (ep_Server e) (itoa (ep_Port e)) else ep_Server e) in
  let ep := object [("type", AString "openconnect"); ("tag", AString (ep_ID e)); ("server", AString server)] in
  let f := param e "flavor" in
  _ ← refuse (negb (bool_decide (f = "")) && negb (bool_decide (f ∈ openconnectFlavors))) (UnknownFlavor f);
  let ep := set_str "flavor" f ep in
  let ep := foldl (fun ep k => set_str k (param e k) ep) ep ["username"; "password"; "auth_group"] in
  let s := param e "totp_secret" in
  let ep := set_if (negb (bool_decide (s = ""))) "token" (AMap (object [("mode", AString "totp"); ("secret", AString s)])) ep in
  let fp := param e "server_cert" in
  let ep := set_if (negb (bool_decide (fp = ""))) "tls" (AMap (object [("peer_fingerprint", AString fp)])) ep in
  inr (flag e "no_udp" ep).

(** ** OpenVPN *)
Definition openvpnPrefix (s : string) : option string :=
  match ParsePrefix s with
  | Some pfx => Some (PrefixString pfx)
  | None => match ParseAddr s with Some a => Some (PrefixString (mkPrefix a (Netip.BitLen a))) | None => None end
  end.
Definition server_entry (s : any) : render_error + obj :=
  let m := default ∅ (map_of s) in
  let host := get_str m "server" in
  let port := intp m "port" in
  _ ← refuse (bool_decide (host = "") || (port <? 1) || (65535 <? port)) BadServerEntry;
  inr (set_enum "network" (get_str m "network") ["tcp"; "udp"] (object [("server", AString host); ("server_port", AInt port)])).
Definition add_server (acc : list obj) (s : any) : render_error + list obj := o ← server_entry s; inr (acc ++ [o]).
Definition openvpn_servers (e : Endpoint) (ep : obj) : render_error + obj :=
  let single := <["server_port" := AInt (ep_Port e)]> (<["server" := AString (ep_Server e)]> ep) in
  match ep_Params e !! "servers" with
  | Some (AList servers) =>
      if (1 <? length servers)%nat then l ← each add_server [] servers; inr (flag e "remote_random" (<["servers" := AMaps l]> ep))
      else inr single
  | _ => inr single
  end.
Definition openvpn_static (e : Endpoint) (ep : obj) : render_error + obj :=
  let ep := <["static_key" := AString (param e "static_key")]> (<["mode" := AString "static_key"]> ep) in
  let ep := set_enum "key_direction" (param e "key_direction") ["server"; "client"] ep in
  match openvpnPrefix (param e "address") with
  | None => inl (StaticAddress (param e "address"))
  | Some local =>
      let ep := <["address" := AStrings [local]]> ep in
      let peer := param e "peer_address" in
      match ParseAddr peer with
      | None => inl (PeerAddress peer)
      | Some a =>
          let ep := <[(match a with Addr4 _ => "peer_address" | _ => "peer_address_ipv6" end) := AString peer]> ep in
          inr (set_str "cipher" (param e "cipher") ep)
      end
  end.
Definition control_wrap (e : Endpoint) (tls : obj) : obj :=
  let w := param e "control_wrap" in
  if bool_decide (w ∈ ["tls_auth"; "tls_crypt"; "tls_crypt_v2"]) then
    let d := param e "control_direction" in
    let wrap := object [("type", AString w); ("key", AString (param e "control_key"))] in
    <["control_wrap" := AMap (set_if (bool_decide (w = "tls_auth") && bool_decide (d ∈ ["server"; "client"])) "direction" (AString d) wrap)]> tls
  else tls.
Definition openvpn_tls (e : Endpoint) (ep : obj) : obj :=
  let u := param e "username" in
  let ep := if bool_decide (u = "") then ep else <["password" := AString (param e "password")]> (<["username" := AString u]> ep) in
  let tls := object [("certificate", AString (param e "ca"))] in
  let c := param e "cert" in
  let tls := if bool_decide (c = "") then tls else <["client_key" := AString (param e "key")]> (<["client_certificate" := AString c]> tls) in
  let n := param e "server_name" in
  let tls := if bool_decide (n = "") then tls
             else set_enum "server_name_type" (param e "server_name_type") ["subject"; "name"; "name-prefix"] (<["server_name" := AString n]> tls) in
  let tls := set_enum "remote_certificate_tls" (param e "remote_cert_tls") ["server"; "client"; "none"] tls in
  let tls := set_enum "version_min" (param e "tls_version_min") ["1.0"; "1.1"; "1.2"; "1.3"] tls in
  let ep := <["tls" := AMap (control_wrap e tls)]> ep in
  let ep := match ep_Params e !! "data_ciphers" with
            | Some (AList ((_ :: _) as l)) =>
                <["data_ciphers" := AStrings (omap (fun c => match c with AString s => if bool_decide (s = "") then None else Some s | _ => None end) l)]> ep
            | _ => ep
            end in
  let f := param e "data_ciphers_fallback" in
  set_str "data_ciphers_fallback" (if bool_decide (f = "") then param e "cipher" else f) ep.
Definition openvpn_endpoint (e : Endpoint) (coreVersion : string) : render_error + obj :=
  _ ← refuse (negb (bool_decide (coreVersion = "")) && (coreMinor coreVersion <? openvpnMinMinor)) (CoreTooOld "OpenVPN" (first_line coreVersion));
  let ep := object [("type", AString "openvpn-client"); ("tag", AString (ep_ID e))] in
  let ep := <["network" := AString (if bool_decide (param e "network" = "tcp") then "tcp" else "udp")]> ep in
  ep ← openvpn_servers e ep;
  ep ← (if bool_decide (param e "mode" = "static_key") then openvpn_static e ep else inr (openvpn_tls e ep));
  let ep := set_str "auth" (param e "auth") ep in
  let m := intp (ep_Params e) "mtu" in
  let ep := set_if (0 <? m) "mtu" (AInt m) ep in
  let ep := foldl (fun ep k => set_str k (param e k) ep) ep ["compression"; "compression_lzo"; "allow_compression"] in
  inr (flag e "route_no_pull" ep).

(** ** The implementation *)
Section singbox.
Context (unicode_fold : bytes -> bytes -> bool) (pem_Decode : bytes -> option (Block * bytes)) (url_Parse : string -> option URL).
Definition singbox : Renderer := {|
  OutboundForCore := outbound_for_core unicode_fold pem_Decode url_Parse;
  openvpnEndpointFor := openvpn_endpoint;
  openconnectEndpointFor := openconnect_endpoint;
  endpointFor := wireguard_endpoint
|}.
End singbox.
