(* ===== verification/GenFields.v ===== *)
(** * The fields of a rendered outbound

    The engine's decoder refuses a field it does not know, and one refusal stops every connection. The
    fields each type has, by the engine's minor version, against what the renderers write:
    [outbound_fields_known]. From the same lemmas: the renderers implement [Renderer]'s laws. *)
From S2P Require Import Prelude GoStrings GoText GoCodec Netip Model Faults Dns Validate Json GenSplit GenRoute.
From S2P Require Import GenRoute.
From S2P Require Import EndpointPins EndpointEch EndpointSsh EndpointLoads GenTls GenOutbound.
Local Open Scope Z_scope.

(** ** Keys of an object *)
Definition keys_in (l : list string) (o : obj) : Prop := forall k, is_Some (o !! k) -> k ∈ l.
Create HintDb keys.
Lemma keys_mono l l' o : keys_in l o -> l ⊆ l' -> keys_in l' o.
Proof. intros H Hl k Hk. by apply Hl, H. Qed.
Lemma keys_insert l k v o : keys_in l o -> k ∈ l -> keys_in l (<[k := v]> o).
Proof. intros H Hk k' [x Hx]. apply lookup_insert_Some in Hx as [[<- _]|[_ Hx]]; [done|]. apply H. by eexists. Qed.
Lemma keys_delete l k o : keys_in l o -> keys_in l (delete k o).
Proof. intros H k' [x [_ Hx]%lookup_delete_Some]. apply H. by eexists. Qed.
Lemma keys_set_if l c k v o : keys_in l o -> k ∈ l -> keys_in l (set_if c k v o).
Proof. intros H Hk. destruct c; [by apply keys_insert|done]. Qed.
Lemma keys_set_str l k v o : keys_in l o -> k ∈ l -> keys_in l (set_str k v o).
Proof. apply keys_set_if. Qed.
Lemma keys_set_enum l k v vs o : keys_in l o -> k ∈ l -> keys_in l (set_enum k v vs o).
Proof. apply keys_set_if. Qed.
Lemma keys_flag l e k o : keys_in l o -> k ∈ l -> keys_in l (flag e k o).
Proof. apply keys_set_if. Qed.
Lemma keys_set_positive l e k o : keys_in l o -> k ∈ l -> keys_in l (set_positive e k o).
Proof. apply keys_set_if. Qed.
Lemma keys_set_opt l k v o : keys_in l o -> k ∈ l -> keys_in l (set_opt k v o).
Proof. intros H Hk. destruct v; [by apply keys_insert|done]. Qed.
Lemma keys_if l (c : bool) a b : keys_in l a -> keys_in l b -> keys_in l (if c then a else b).
Proof. by destruct c. Qed.
Lemma keys_object l kvs : kvs.*1 ⊆ l -> keys_in l (object kvs).
Proof. intros H k [v Hv]. apply H. unfold object in Hv. apply elem_of_list_to_map_2 in Hv. apply list_elem_of_fmap. by exists (k, v). Qed.
Lemma keys_empty l : keys_in l ∅.
Proof. intros k [v Hv]. by rewrite lookup_empty in Hv. Qed.
Lemma keys_copy l p k k' o : keys_in l o -> k' ∈ l -> keys_in l (copy_param p k k' o).
Proof. intros H Hk. unfold copy_param. destruct (p !! k); [by apply keys_insert|done]. Qed.
#[export] Hint Resolve keys_insert keys_delete keys_set_if keys_set_str keys_set_enum keys_flag keys_set_positive keys_set_opt keys_if
  keys_object keys_copy keys_empty : keys.
Ltac decided := apply (bool_decide_unpack _); vm_compute; exact I.
#[export] Hint Extern 1 (_ ∈ _) => decided : keys.
#[export] Hint Extern 1 (_ ⊆ _) => decided : keys.
Ltac keys := repeat (cbv zeta; match goal with
  | |- keys_in _ (if ?c then _ else _) => destruct c
  | |- keys_in _ (match ?x with _ => _ end) => destruct x
  | |- keys_in _ _ => first [apply keys_insert|apply keys_delete|apply keys_set_if|apply keys_set_str|apply keys_set_enum|apply keys_flag
      |apply keys_set_positive|apply keys_set_opt|apply keys_copy|apply keys_object|apply keys_empty|apply keys_empty]
  end); auto with keys.

(** What a renderer leaves as it was. *)
Definition keeps (l : list string) (o o' : obj) : Prop := forall k, k ∈ l -> o' !! k = o !! k.
Lemma keeps_refl l o : keeps l o o.
Proof. done. Qed.
Lemma keeps_trans l a b c : keeps l a b -> keeps l b c -> keeps l a c.
Proof. intros H1 H2 k Hk. by rewrite H2, H1. Qed.
Lemma keeps_insert l o k v o' : keeps l o o' -> k ∉ l -> keeps l o (<[k := v]> o').
Proof. intros H Hk k' Hk'. rewrite lookup_insert_ne by congruence. by apply H. Qed.
Lemma keeps_delete l o k o' : keeps l o o' -> k ∉ l -> keeps l o (delete k o').
Proof. intros H Hk k' Hk'. rewrite lookup_delete_ne by congruence. by apply H. Qed.
Lemma keeps_set_if l o c k v o' : keeps l o o' -> k ∉ l -> keeps l o (set_if c k v o').
Proof. intros H Hk. destruct c; [by apply keeps_insert|done]. Qed.
Lemma keeps_set_str l o k v o' : keeps l o o' -> k ∉ l -> keeps l o (set_str k v o').
Proof. apply keeps_set_if. Qed.
Lemma keeps_set_enum l o k v vs o' : keeps l o o' -> k ∉ l -> keeps l o (set_enum k v vs o').
Proof. apply keeps_set_if. Qed.
Lemma keeps_flag l o e k o' : keeps l o o' -> k ∉ l -> keeps l o (flag e k o').
Proof. apply keeps_set_if. Qed.
Lemma keeps_set_positive l o e k o' : keeps l o o' -> k ∉ l -> keeps l o (set_positive e k o').
Proof. apply keeps_set_if. Qed.
Lemma keeps_set_opt l o k v o' : keeps l o o' -> k ∉ l -> keeps l o (set_opt k v o').
Proof. intros H Hk. destruct v; [by apply keeps_insert|done]. Qed.
Lemma keeps_copy l o p k k' o' : keeps l o o' -> k' ∉ l -> keeps l o (copy_param p k k' o').
Proof. intros H Hk. unfold copy_param. destruct (p !! k); [by apply keeps_insert|done]. Qed.
Ltac keeps := repeat (cbv zeta; match goal with
  | |- keeps _ ?o ?o => apply keeps_refl
  | |- keeps _ _ (if ?c then _ else _) => destruct c
  | |- keeps _ _ (match ?x with _ => _ end) => destruct x
  | |- keeps _ _ _ => first [apply keeps_insert|apply keeps_delete|apply keeps_set_if|apply keeps_set_str|apply keeps_set_enum|apply keeps_flag
      |apply keeps_set_positive|apply keeps_set_opt|apply keeps_copy]
  end); try decided.

(** ** The fields of each type *)
Definition dialled : list string := ["type"; "tag"; "server"; "server_port"].
Definition since {A} (minor m : Z) (l : list A) : list A := if minor <=? m then l else [].
Definition own_fields (proto : string) (m : Z) : list string :=
  dialled ++
  (if bool_decide (proto = ProtoVLESS) then ["uuid"; "flow"; "packet_encoding"]
   else if bool_decide (proto = ProtoVMess) then ["uuid"; "alter_id"; "security"]
   else if bool_decide (proto = ProtoTrojan) then ["password"]
   else if bool_decide (proto = ProtoSnell) then ["version"; "psk"; "userkey"; "reuse"; "network"; "obfs_mode"; "obfs_host"; "mode"]
   else if bool_decide (proto = ProtoSSH) then
     ["user"; "password"; "private_key"; "private_key_passphrase"; "host_key"; "host_key_algorithms"; "client_version"]
     ++ since 14 m ["cipher"; "mac"; "kex_algorithm"]
   else if bool_decide (proto = ProtoAnyTLS) then ["password"]
   else if bool_decide (proto = ProtoShadowsocks) then ["method"; "password"; "udp_over_tcp"; "plugin"; "plugin_opts"]
   else if bool_decide (proto = ProtoHysteria2) then
     ["password"; "obfs"; "server_ports"; "up_mbps"; "down_mbps"; "hop_interval"]
     ++ since 14 m ["hop_interval_max"; "realm"; "bbr_profile"; "disable_chrome_parrot"; "initial_packet_size"; "disable_path_mtu_discovery"]
   else if bool_decide (proto = ProtoTUIC) then
     ["uuid"; "password"; "congestion_control"; "udp_over_stream"; "udp_relay_mode"; "heartbeat"; "zero_rtt_handshake"]
     ++ since 14 m ["initial_packet_size"; "disable_path_mtu_discovery"]
   else if bool_decide (proto = ProtoSOCKS) then ["version"; "username"; "password"]
   else if bool_decide (proto = ProtoHTTP) then ["username"; "password"]
   else []).
(** The blocks several types share, and the types that have them. *)
Definition block_fields (proto : string) : list string :=
  (if bool_decide (proto ∈ [ProtoVLESS; ProtoVMess; ProtoTrojan]) then ["transport"] else [])
  ++ (if bool_decide (proto ∈ [ProtoVLESS; ProtoVMess; ProtoTrojan; ProtoHysteria2; ProtoTUIC; ProtoHTTP; ProtoAnyTLS]) then ["tls"] else [])
  ++ (if bool_decide (proto ∈ [ProtoVLESS; ProtoVMess; ProtoTrojan; ProtoShadowsocks]) then ["multiplex"] else []).
Definition fields_of (proto : string) (m : Z) : list string := own_fields proto m ++ block_fields proto.
Definition transport_fields (typ : string) : list string :=
  "type" :: (if bool_decide (typ = "ws") then ["path"; "max_early_data"; "early_data_header_name"; "headers"]
             else if bool_decide (typ = "grpc") then ["service_name"]
             else if bool_decide (typ = "http") then ["path"; "host"]
             else if bool_decide (typ = "httpupgrade") then ["path"; "host"] else []).
Definition tls_fields (m : Z) : list string :=
  ["enabled"; "server_name"; "insecure"; "alpn"; "utls"; "reality"; "fragment"; "record_fragment"; "ech"]
  ++ since 13 m ["certificate_public_key_sha256"] ++ since 15 m ["certificate_sha256"].
Definition ech_fields (m : Z) : list string := ["enabled"; "config"] ++ since 13 m ["query_server_name"].
Definition multiplex_fields : list string := ["enabled"; "protocol"; "brutal"; "max_connections"; "min_streams"; "max_streams"; "padding"].
(** Every field of the outbound, and of the blocks in it, is one the type has on a core of minor [m]. *)
Record known_fields (m : Z) (proto : string) (ob : obj) : Prop := {
  kf_top : keys_in (fields_of proto m) ob;
  kf_transport : forall t, as_object (ob !! "transport") = Some t -> keys_in (transport_fields (get_str t "type")) t;
  kf_multiplex : forall t, as_object (ob !! "multiplex") = Some t -> keys_in multiplex_fields t;
  kf_tls : forall t, as_object (ob !! "tls") = Some t -> keys_in (tls_fields m) t;
  kf_ech : forall t e, as_object (ob !! "tls") = Some t -> as_object (t !! "ech") = Some e -> keys_in (ech_fields m) e
}.

(** ** The renderers *)
Definition base (e : Endpoint) : obj := object [("tag", AString (ep_ID e)); ("server", AString (ep_Server e)); ("server_port", AInt (ep_Port e))].
Lemma snell_keys e ob l : keys_in l ob -> ["type"; "version"; "psk"; "userkey"; "reuse"; "network"; "obfs_mode"; "obfs_host"; "mode"] ⊆ l ->
  forall ob', snellOutbound e ob = inr ob' -> keys_in l ob'.
Proof.
  intros H Hl ob'. unfold snellOutbound. cbv zeta. rewrite seq_inr. intros [_ [= <-]].
  assert (K : forall k, k ∈ ["type"; "version"; "psk"; "userkey"; "reuse"; "network"; "obfs_mode"; "obfs_host"; "mode"] -> k ∈ l) by apply Hl.
  keys; first [assumption|apply K; decided].
Qed.
Lemma ssh_keys e ob l : keys_in l ob ->
  ["type"; "user"; "password"; "private_key"; "private_key_passphrase"; "host_key"; "host_key_algorithms"; "client_version"] ⊆ l ->
  forall ob', sshOutbound e ob = inr ob' -> keys_in l ob'.
Proof.
  intros H Hl ob'. unfold sshOutbound. cbv zeta. destruct (SSHHostKeys e) as [|keys]; [done|]. intros [= <-].
  assert (K : forall k, k ∈ ["type"; "user"; "password"; "private_key"; "private_key_passphrase"; "host_key"; "host_key_algorithms"; "client_version"] -> k ∈ l) by apply Hl.
  keys; first [assumption|apply K; decided].
Qed.
Lemma protocol_keys e m ob : protocol_fields e (base e) = inr ob -> keys_in (own_fields (ep_Protocol e) m) ob.
Proof.
  unfold protocol_fields. cbv zeta.
  assert (Hb : forall p, keys_in (own_fields p m) (base e)).
  { intros p. apply (keys_mono dialled); [apply keys_object; decided|]. apply list_subseteq_app_l. done. }
  generalize (Hb (ep_Protocol e)).
  repeat case_bool_decide; try (intros ? E; discriminate E);
    match goal with Hp : ep_Protocol e = _ |- _ => rewrite Hp end; intros Hbase; try (intros [= <-]).
  all: lazymatch goal with
    | |- snellOutbound _ _ = _ -> _ => apply (snell_keys e (base e)); [exact Hbase|decided]
    | |- sshOutbound _ _ = _ -> _ => apply (ssh_keys e (base e)); [exact Hbase|decided]
    | |- _ => unfold vless, vmess, shadowsocks, hysteria2, tuic, proxyAuth; keys; first [assumption|decided]
    end.
Qed.

Definition shared : list string := ["tag"; "transport"; "tls"; "multiplex"].
Lemma snell_keeps e ob ob' : snellOutbound e ob = inr ob' -> keeps shared ob ob'.
Proof. unfold snellOutbound. cbv zeta. rewrite seq_inr. intros [_ [= <-]]. keeps. Qed.
Lemma ssh_keeps e ob ob' : sshOutbound e ob = inr ob' -> keeps shared ob ob'.
Proof. unfold sshOutbound. cbv zeta. destruct (SSHHostKeys e) as [|keys]; [done|]. intros [= <-]. keeps. Qed.
Lemma protocol_keeps e ob ob' : protocol_fields e ob = inr ob' -> keeps shared ob ob'.
Proof.
  unfold protocol_fields. cbv zeta. repeat case_bool_decide; try (intros E; discriminate E); try (intros [= <-]).
  all: lazymatch goal with
    | |- snellOutbound _ _ = _ -> _ => apply snell_keeps
    | |- sshOutbound _ _ = _ -> _ => apply ssh_keeps
    | |- _ => unfold vless, vmess, shadowsocks, hysteria2, tuic, proxyAuth; keeps
    end.
Qed.
Lemma transport_type t o : transportJSON (Some t) = Some o -> get_str o "type" = tr_Type t.
Proof.
  unfold transportJSON. case_bool_decide; [done|]. cbv zeta. destruct (splitEarlyDataHint _) as [path med]. intros <-%(inj Some). unfold get_str.
  match goal with |- as_string (?x !! _) = _ => assert (H0 : keeps ["type"] (object [("type", AString (tr_Type t))]) x) by keeps end.
  by rewrite (H0 "type" (list_elem_of_here _ _)).
Qed.
Lemma transport_keys t o : transportJSON t = Some o -> keys_in (transport_fields (get_str o "type")) o.
Proof.
  destruct t as [t|]; [|done]. intros H. rewrite (transport_type _ _ H). revert H. unfold transportJSON. case_bool_decide; [done|]. cbv zeta.
  destruct (splitEarlyDataHint _) as [path med]. intros <-%(inj Some). unfold transport_fields. repeat case_bool_decide; keys.
Qed.
Lemma multiplex_keys e o : multiplexJSON e = Some o -> keys_in multiplex_fields o.
Proof.
  unfold multiplexJSON. destruct (mux_on e) as [m|]; [|done]. destruct (_ || _); [done|]. destruct (_ && _); [done|]. cbv zeta. intros <-%(inj Some). keys.
Qed.

(** ** TLS *)
Definition tls_base : list string := ["enabled"; "server_name"; "insecure"; "alpn"; "utls"; "reality"; "fragment"; "record_fragment"; "ech"].
Lemma echFit_keys l tl : "utls" ∈ l -> keys_in l tl -> keys_in l (echFitFingerprint tl).
Proof. intros H1 H2. unfold echFitFingerprint. keys. Qed.
Lemma echFit_ech tl : echFitFingerprint tl !! "ech" = tl !! "ech".
Proof. unfold echFitFingerprint. repeat case_match; try done. by rewrite lookup_insert_ne. Qed.
Lemma echJSON_keys pem t o : echJSON pem t = Some o -> keys_in ["enabled"; "config"] o.
Proof. unfold echJSON. repeat case_match; try done; intros [= <-]; keys. Qed.
Lemma dropECH_keys l tl t : "utls" ∈ l -> keys_in l tl -> keys_in l (dropECH tl t).
Proof. intros H1 H2. unfold dropECH. keys. Qed.
Lemma dropECH_ech tl t : dropECH tl t !! "ech" = None.
Proof. unfold dropECH. repeat case_match; rewrite ?lookup_insert_ne by done; apply lookup_delete_eq. Qed.
Lemma keep_alpn_keys l f tl : "alpn" ∈ l -> keys_in l tl -> keys_in l (keep_alpn f tl).
Proof. intros H1 H2. unfold keep_alpn. keys. Qed.
Lemma keep_alpn_keeps f tl : keeps ["ech"; "utls"; "reality"; "insecure"] tl (keep_alpn f tl).
Proof. unfold keep_alpn. keeps. Qed.
Lemma fit_alpn_keys l e tl : "alpn" ∈ l -> keys_in l tl -> keys_in l (fit_alpn e tl).
Proof.
  intros H1 H2. unfold fit_alpn, h3_alpn. cbv zeta.
  repeat match goal with
    | |- keys_in _ (if ?c then _ else _) => destruct c
    | |- keys_in _ (keep_alpn _ _) => apply keep_alpn_keys; [done|]
    | |- keys_in _ (<[_:=_]> _) => apply keys_insert; [|done]
    end; done.
Qed.
Lemma fit_alpn_keeps e tl : keeps ["ech"; "utls"; "reality"; "insecure"] tl (fit_alpn e tl).
Proof.
  unfold fit_alpn, h3_alpn. cbv zeta.
  repeat match goal with
    | |- keeps _ ?o ?o => apply keeps_refl
    | |- keeps _ _ (if ?c then _ else _) => destruct c
    | |- keeps _ _ (keep_alpn _ _) => eapply keeps_trans; [|apply keep_alpn_keeps]
    | |- keeps _ _ (<[_:=_]> _) => apply keeps_insert; [|decided]
    end.
Qed.
Section tls.
Context (pem_Decode : bytes -> option (Block * bytes)).
Lemma tlsJSON_keys t o : tlsJSON pem_Decode t = Some o -> keys_in tls_base o /\
  forall x, as_object (o !! "ech") = Some x -> keys_in ["enabled"; "config"] x.
Proof.
  unfold tlsJSON. destruct t as [t|]; [|done]. destruct (negb _); [done|]. cbv zeta. destruct (is_reality t).
  - intros <-%(inj Some). split; [keys|]. intros x. unfold set_str. by rewrite lookup_insert_ne, !set_if_other by done.
  - destruct (echJSON pem_Decode (Some t)) as [ech|] eqn:E; intros <-%(inj Some).
    + split; [apply echFit_keys; [decided|]; keys|]. intros x. rewrite echFit_ech, lookup_insert_eq. intros [= <-]. by eapply echJSON_keys.
    + split; [keys|]. intros x. unfold set_str. by rewrite !set_if_other by done.
Qed.
Lemma rendered_tls_keys e o : rendered_tls pem_Decode e = Some o -> tlsCapable (ep_Protocol e) = true /\ keys_in tls_base o /\
  forall x, as_object (o !! "ech") = Some x -> keys_in ["enabled"; "config"] x.
Proof.
  unfold rendered_tls. destruct (tlsCapable _); [|done]. destruct (tlsJSON pem_Decode (ep_TLS e)) as [tl|] eqn:E; [|done]. cbn. intros [= <-].
  apply tlsJSON_keys in E as [H1 H2]. split; [done|].
  assert (H : keys_in tls_base (fitECHToProtocol (ep_Protocol e) tl (ep_TLS e)) /\
    forall x, as_object (fitECHToProtocol (ep_Protocol e) tl (ep_TLS e) !! "ech") = Some x -> keys_in ["enabled"; "config"] x).
  { unfold fitECHToProtocol. destruct (_ || _); [|done]. destruct (as_object (tl !! "ech")) as [x|] eqn:Ex; [|by rewrite Ex]. case_bool_decide; [|by rewrite Ex].
    split; [apply dropECH_keys; [decided|done]|]. intros y. by rewrite dropECH_ech. }
  split; [apply fit_alpn_keys; [decided|apply H]|]. intros x. rewrite (fit_alpn_keeps e _ "ech") by decided. apply H.
Qed.
End tls.

(** ** Core versions *)
Lemma set_opt_eq k v ob : ob !! k = None -> as_object (set_opt k v ob !! k) = v.
Proof. intros H. destruct v; cbn; [by rewrite lookup_insert_eq|by rewrite H]. Qed.
Lemma set_opt_ne k k' v ob : k <> k' -> set_opt k v ob !! k' = ob !! k'.
Proof. intros H. destruct v; cbn; [by rewrite lookup_insert_ne|done]. Qed.
Lemma keys_none l o k : keys_in l o -> k ∉ l -> o !! k = None.
Proof. intros H Hk. destruct (o !! k) eqn:E; [|done]. destruct Hk. apply H. by rewrite E. Qed.
Lemma own_without e m ob k : keys_in (own_fields (ep_Protocol e) m) ob -> k ∈ ["transport"; "tls"; "multiplex"; "outbounds"; "detour"] -> ob !! k = None.
Proof.
  intros H Hk. apply (keys_none _ _ _ H). unfold own_fields, since, dialled.
  assert (forall l : list string, forallb (fun x => bool_decide (x ∉ ["transport"; "tls"; "multiplex"; "outbounds"; "detour"])) l = true -> k ∉ l) as Hd.
  { intros l Hl Hin. rewrite forallb_forall in Hl. apply list_elem_of_In, Hl, bool_decide_eq_true in Hin. done. }
  apply not_elem_of_app. split; [by apply Hd|]. repeat case_bool_decide; try (by apply Hd); destruct (14 <=? m); by apply Hd.
Qed.
Section outbound.
Context (unicode_fold : bytes -> bytes -> bool) (pem_Decode : bytes -> option (Block * bytes)) (url_Parse : string -> option URL).
(** An outbound before the core's version is considered. *)
Lemma outboundFor_parts e ob : outboundFor pem_Decode e = inr ob -> exists ob0,
  keys_in (own_fields (ep_Protocol e) 0) ob0 /\ ob0 !! "tag" = Some (AString (ep_ID e)) /\
  ob = set_opt "multiplex" (multiplexJSON e) (set_opt "tls" (rendered_tls pem_Decode e)
         (set_opt "transport" (if transportCapable (ep_Protocol e) then transportJSON (ep_Transport e) else None) ob0)).
Proof.
  unfold outboundFor. intros (ob0 & H0 & Ho)%bind_inr. apply (inj inr) in Ho as <-. exists ob0. split_and!; [by apply protocol_keys| |done].
  by rewrite (protocol_keeps _ _ _ H0 "tag" (list_elem_of_here _ _)).
Qed.
Lemma hysteria2_extras_keys l e ob v : keys_in l ob -> "obfs" ∈ l -> "hop_interval" ∈ l ->
  (14 <= coreMinor v -> ["hop_interval_max"; "realm"; "bbr_profile"; "disable_chrome_parrot"] ⊆ l) ->
  keys_in l (hysteria2Extras unicode_fold url_Parse e ob v).
Proof.
  intros H H1 H2 H3. unfold hysteria2Extras, hop_interval. cbv zeta. destruct (Z.leb_spec coreModernMinor (coreMinor v)) as [Hm|Hm].
  - specialize (H3 Hm). assert (K : forall k, k ∈ ["hop_interval_max"; "realm"; "bbr_profile"; "disable_chrome_parrot"] -> k ∈ l) by apply H3.
    rewrite !andb_true_r. keys; first [assumption|apply K; decided].
  - rewrite !andb_false_r. cbn [andb]. destruct (_ && _) eqn:E; keys; first [assumption|idtac].
Qed.
Lemma hysteria2_extras_keeps e ob v : keeps shared ob (hysteria2Extras unicode_fold url_Parse e ob v).
Proof. unfold hysteria2Extras, hop_interval. keeps. Qed.
Lemma ssh_extras_keys l e ob v : keys_in l ob -> (14 <= coreMinor v -> algorithm_lists ⊆ l) -> keys_in l (sshCoreExtras e ob v).
Proof.
  intros H Hl. unfold sshCoreExtras. destruct (Z.ltb_spec (coreMinor v) sshAlgorithmMinMinor) as [Hm|Hm]; [done|]. specialize (Hl Hm).
  revert ob H. induction algorithm_lists as [|k ks IH]; intros ob H; [done|]. cbn [foldl]. apply IH; [set_solver|]. unfold add_algorithms. apply keys_set_if; [done|]. set_solver.
Qed.
Lemma ssh_extras_keeps e ob v : keeps shared ob (sshCoreExtras e ob v).
Proof. unfold sshCoreExtras, algorithm_lists, add_algorithms. cbn [foldl]. keeps. Qed.
Lemma quic_keys l e ob v : keys_in l ob ->
  (14 <= coreMinor v -> CarriesQUICTuning (ep_Protocol e) = true -> ["initial_packet_size"; "disable_path_mtu_discovery"] ⊆ l) -> keys_in l (quicTuning e ob v).
Proof.
  intros H Hl. unfold quicTuning. destruct (QUICTuningOf e) as [size off] eqn:E. destruct (_ || _) eqn:Eo; [done|].
  apply orb_false_iff in Eo as [Eo Hm%Z.ltb_ge]. destruct (CarriesQUICTuning (ep_Protocol e)) eqn:Ec; [|apply tuning_valid in E as [_ [-> ->]]; done].
  specialize (Hl Hm eq_refl). apply keys_set_if; [apply keys_set_if; [done|]|]; apply Hl; decided.
Qed.
Lemma quic_keeps e ob v : keeps shared ob (quicTuning e ob v).
Proof. unfold quicTuning. destruct (QUICTuningOf e). keeps. Qed.
Definition tls_alone : list string := ["tag"; "transport"; "multiplex"; "outbounds"; "detour"].
Lemma tls_replaced l ob tl : keys_in l ob -> is_Some (as_object (ob !! "tls")) -> keys_in l (<["tls" := AMap tl]> ob).
Proof. intros H [x Hx]. apply keys_insert; [done|]. apply H. destruct (ob !! "tls"); [by eexists|done]. Qed.
(** What a version's changes do to an outbound: only its [tls] block changes. *)
Lemma ech_extras_ok e ob v : exists tl, echCoreExtras e ob v = set_opt "tls" tl ob /\
  (tl = None \/ is_Some (as_object (ob !! "tls"))) /\
  (forall t, as_object (ob !! "tls") = Some t -> keys_in tls_base t -> (forall x, as_object (t !! "ech") = Some x -> keys_in ["enabled"; "config"] x) ->
   forall t', tl = Some t' -> keys_in tls_base t' /\ forall x, as_object (t' !! "ech") = Some x -> keys_in (ech_fields (coreMinor v)) x).
Proof.
  unfold echCoreExtras. destruct (as_object (ob !! "tls")) as [t|] eqn:Et; [|by exists None; split_and!; [|left|]].
  destruct (as_object (t !! "ech")) as [x|] eqn:Ex; [|exists None; split_and!; [done|by left|done]].
  destruct (echGoTooOld v).
  { exists (Some (dropECH t (ep_TLS e))). split_and!; [done|by right; eexists|]. intros t0 [= <-] Hk _ t' [= <-]. split; [apply dropECH_keys; [decided|done]|]. intros y. by rewrite dropECH_ech. }
  destruct (_ || _) eqn:Ec; [exists None; split_and!; [done|by left|done]|]. cbv zeta.
  match goal with |- context [if ?b then ob else _] => destruct b end; [exists None; split_and!; [done|by left|done]|].
  apply orb_false_iff in Ec as [_ Hm%Z.ltb_ge]. eexists (Some _). split_and!; [done|by right; eexists|]. intros t0 [= <-] Hk He t' [= <-]. split; [apply keys_insert; [done|decided]|].
  intros y. rewrite lookup_insert_eq. intros [= <-]. unfold ech_fields, since. rewrite (proj2 (Z.leb_le 13 _)) by exact Hm.
  apply keys_insert; [|decided]. eapply keys_mono; [by apply He|decided].
Qed.
Lemma pin_extras_ok e ob v : exists tl, pinCoreExtras e ob v = set_opt "tls" tl ob /\
  (tl = None \/ is_Some (as_object (ob !! "tls"))) /\
  (forall t, as_object (ob !! "tls") = Some t -> keys_in tls_base t -> forall t', tl = Some t' ->
   keys_in (tls_fields (coreMinor v)) t' /\ t' !! "ech" = t !! "ech").
Proof.
  unfold pinCoreExtras, pinTarget. destruct (ep_TLS e) as [t0|]; [|exists None; split_and!; [done|by left|done]].
  case_bool_decide; [exists None; split_and!; [done|by left|done]|]. destruct (as_object (ob !! "tls")) as [t|] eqn:Et; [|exists None; split_and!; [done|by left|done]].
  case_bool_decide; [|exists None; split_and!; [done|by left|done]]. cbv zeta. eexists (Some _). split_and!; [done|by right; eexists|].
  intros t1 [= <-] Hk t' [= <-]. assert (Hb : keys_in (tls_fields (coreMinor v)) t) by (eapply keys_mono; [exact Hk|]; apply list_subseteq_app_l; done).
  unfold tls_fields, since in *. split.
  - assert (H13 : forall vs, keys_in (tls_base ++ (if 13 <=? coreMinor v then ["certificate_public_key_sha256"] else []) ++ (if 15 <=? coreMinor v then ["certificate_sha256"] else [])) vs ->
      forall l, keys_in (tls_base ++ (if 13 <=? coreMinor v then ["certificate_public_key_sha256"] else []) ++ (if 15 <=? coreMinor v then ["certificate_sha256"] else []))
        (set_if (negb (nil (if pinPubKeyMinMinor <=? coreMinor v then l else []))) "certificate_public_key_sha256" (AStrings (if pinPubKeyMinMinor <=? coreMinor v then l else [])) vs)).
    { intros vs Hvs l. unfold pinPubKeyMinMinor. destruct (13 <=? coreMinor v); [|done]. apply keys_set_if; [done|]. decided. }
    apply keys_if; [apply keys_delete|]; apply H13; unfold pinCertMinMinor; destruct (Z.leb_spec 15 (coreMinor v)) as [H15|]; try done;
      (apply keys_set_if; [done|]); rewrite (proj2 (Z.leb_le 13 _)) by lia; decided.
  - destruct (_ || _); rewrite ?lookup_delete_ne by done; by rewrite !set_if_other by done.
Qed.
Lemma since_sub {A} n m (l : list A) : since n m l ⊆ l.
Proof. unfold since. destruct (n <=? m); [done|apply list_subseteq_nil]. Qed.
Lemma own_0 p m : own_fields p 0 ⊆ own_fields p m.
Proof.
  assert (since 14 0 = fun _ : list string => []) as E by done. unfold own_fields. rewrite E.
  assert (H : forall a b c : list string, b ⊆ c -> a ++ b ⊆ a ++ c) by (intros a b c Hbc x; rewrite !elem_of_app; intros [?|?]; [by left|right; by apply Hbc]).
  apply H. repeat case_bool_decide; try done; apply H, list_subseteq_nil.
Qed.
Lemma own_sub p m : own_fields p m ⊆ fields_of p m.
Proof. by apply list_subseteq_app_l. Qed.
Lemma own_modern p m k : 14 <= m -> (p = ProtoHysteria2 /\ k ∈ ["hop_interval_max"; "realm"; "bbr_profile"; "disable_chrome_parrot"]) \/
  (p = ProtoSSH /\ k ∈ algorithm_lists) \/ (CarriesQUICTuning p = true /\ k ∈ ["initial_packet_size"; "disable_path_mtu_discovery"]) -> k ∈ fields_of p m.
Proof.
  intros Hm H. apply own_sub. unfold own_fields, since. rewrite (proj2 (Z.leb_le 14 m) Hm). revert k H.
  assert (K : forall l l' : list string, l ⊆ l' -> forall k, k ∈ l -> k ∈ l') by (intros l l' Hl k; apply Hl).
  intros k [[-> Hk]|[[-> Hk]|[Hp Hk]]]; [revert k Hk; apply K; decided..|].
  apply orb_true_iff in Hp as [->%bool_decide_eq_true| ->%bool_decide_eq_true]; revert k Hk; apply K; decided.
Qed.
Lemma hy2_own m : "obfs" ∈ fields_of ProtoHysteria2 m /\ "hop_interval" ∈ fields_of ProtoHysteria2 m.
Proof. split; apply own_sub; decided. Qed.

(** An outbound before its tls block is fitted to the version. *)
Lemma outbound_before e v ob : outbound_for_core unicode_fold pem_Decode url_Parse e v = inr ob -> exists ob2,
  keys_in (fields_of (ep_Protocol e) (coreMinor v)) ob2 /\ ob2 !! "tag" = Some (AString (ep_ID e)) /\
  as_object (ob2 !! "transport") = (if transportCapable (ep_Protocol e) then transportJSON (ep_Transport e) else None) /\
  as_object (ob2 !! "multiplex") = multiplexJSON e /\ as_object (ob2 !! "tls") = rendered_tls pem_Decode e /\
  ob = pinCoreExtras e (quicTuning e (echCoreExtras e ob2 v) v) v.
Proof.
  unfold outbound_for_core. intros (ob0 & H0 & Ho)%bind_inr. cbv zeta in Ho. apply (inj inr) in Ho as <-.
  apply outboundFor_parts in H0 as (own & Hk & Ht & ->). set (m := coreMinor v).
  set (ob0 := set_opt "multiplex" _ _).
  assert (Htr : own !! "transport" = None) by (eapply own_without; [exact Hk|decided]).
  assert (Htl : own !! "tls" = None) by (eapply own_without; [exact Hk|decided]).
  assert (Hmx : own !! "multiplex" = None) by (eapply own_without; [exact Hk|decided]).
  set (ob1 := if bool_decide (ep_Protocol e = ProtoHysteria2) then hysteria2Extras unicode_fold url_Parse e ob0 v else ob0).
  set (ob2 := if bool_decide (ep_Protocol e = ProtoSSH) then sshCoreExtras e ob1 v else ob1).
  assert (Ks : keeps shared ob0 ob2).
  { eapply keeps_trans with ob1; [unfold ob1; destruct (bool_decide (ep_Protocol e = ProtoHysteria2)); [apply hysteria2_extras_keeps|done]|].
    unfold ob2. destruct (bool_decide (ep_Protocol e = ProtoSSH)); [apply ssh_extras_keeps|done]. }
  assert (H0 : keys_in (fields_of (ep_Protocol e) m) ob0).
  { assert (Hc : keys_in (fields_of (ep_Protocol e) m) own) by (eapply keys_mono; [eapply keys_mono; [exact Hk|apply own_0]|apply own_sub]).
    unfold ob0, fields_of, block_fields in *. change (multiplexJSON e) with (multiplexJSON e).
    assert (Hset : forall k b v o l, keys_in l o -> (is_Some v -> (b : bool) = true) -> (b = true -> k ∈ l) -> keys_in l (set_opt k v o)).
    { intros k b [v0|] o l Ho Hv Hl; [|done]. apply keys_insert; [done|]. apply Hl, Hv. by eexists. }
    apply (Hset _ (MultiplexCapable (ep_Protocol e))); [apply (Hset _ (tlsCapable (ep_Protocol e))); [apply (Hset _ (transportCapable (ep_Protocol e))); [done|..]|..]|..].
    - intros [x Hx]. by destruct (transportCapable _).
    - unfold transportCapable. intros ->. apply elem_of_app. right. apply elem_of_app. left. decided.
    - intros [x Hx]. by apply rendered_tls_keys in Hx as [? _].
    - unfold tlsCapable. intros ->. apply elem_of_app. right. apply elem_of_app. right. apply elem_of_app. left. decided.
    - intros [x Hx]. unfold multiplexJSON, multiplexCapable in Hx. by destruct (mux_on e), (MultiplexCapable _).
    - unfold MultiplexCapable. intros ->. apply elem_of_app. right. apply elem_of_app. right. apply elem_of_app. right. decided. }
  assert (H1 : keys_in (fields_of (ep_Protocol e) m) ob1).
  { unfold ob1. destruct (bool_decide_reflect (ep_Protocol e = ProtoHysteria2)) as [Hp|]; [|done]. rewrite Hp in *.
    apply hysteria2_extras_keys; [done|apply hy2_own..|]. intros Hm k Hin. apply own_modern; [done|]. by left. }
  assert (H2 : keys_in (fields_of (ep_Protocol e) m) ob2).
  { unfold ob2. destruct (bool_decide_reflect (ep_Protocol e = ProtoSSH)) as [Hp|]; [|done]. apply ssh_extras_keys; [done|]. intros Hm k Hin. apply own_modern; [done|]. right. by left. }
  exists ob2. split_and!; [done| | | | |done]; rewrite !Ks by decided; unfold ob0.
  - by rewrite !set_opt_ne by done.
  - rewrite !set_opt_ne by done. by apply set_opt_eq.
  - apply set_opt_eq. by rewrite !set_opt_ne by done.
  - rewrite set_opt_ne by done. apply set_opt_eq. by rewrite set_opt_ne by done.
Qed.
Lemma tls_set l ob tl : keys_in l ob -> tl = None \/ is_Some (as_object (ob !! "tls")) -> keys_in l (set_opt "tls" tl ob).
Proof. intros H [->|Ht]; [done|]. destruct tl; [by apply tls_replaced|done]. Qed.
Lemma tls_at (tl : option obj) ob t : as_object (set_opt "tls" tl ob !! "tls") = Some t -> tl = Some t \/ (tl = None /\ as_object (ob !! "tls") = Some t).
Proof. destruct tl as [x|]; cbn; [rewrite lookup_insert_eq; intros [= ->]; by left|by right]. Qed.
(** C27: the engine knows every field of a rendered outbound. Whatever the connection holds, the outbound
    and its transport, multiplex, tls and ECH blocks have only fields their type has on a core of that
    version, and the outbound is tagged with the connection's id. *)
Theorem outbound_fields_known e v ob : outbound_for_core unicode_fold pem_Decode url_Parse e v = inr ob ->
  known_fields (coreMinor v) (ep_Protocol e) ob /\ ob !! "tag" = Some (AString (ep_ID e)).
Proof.
  intros (ob2 & Hk & Htag & Htr & Hmx & Htls & ->)%outbound_before. set (m := coreMinor v) in *.
  destruct (ech_extras_ok e ob2 v) as (tl1 & E1 & Ht1 & Hf1). rewrite E1. set (ob3 := set_opt "tls" tl1 ob2).
  assert (K3 : keys_in (fields_of (ep_Protocol e) m) ob3) by (by apply tls_set).
  set (ob4 := quicTuning e ob3 v). pose proof (quic_keeps e ob3 v) as Q. fold ob4 in Q.
  assert (K4 : keys_in (fields_of (ep_Protocol e) m) ob4).
  { apply quic_keys; [done|]. intros Hm Hc k Hin. apply own_modern; [done|]. by right; right. }
  destruct (pin_extras_ok e ob4 v) as (tl2 & E2 & Ht2 & Hf2). rewrite E2.
  assert (T3 : forall t, as_object (ob3 !! "tls") = Some t -> keys_in tls_base t /\ forall x, as_object (t !! "ech") = Some x -> keys_in (ech_fields m) x).
  { intros t Ht. destruct (rendered_tls pem_Decode e) as [t0|] eqn:Er.
    - destruct (rendered_tls_keys _ _ _ Er) as (_ & Hb & He). apply tls_at in Ht as [->|[-> Ht]]; [by eapply Hf1|].
      rewrite Htls in Ht. injection Ht as <-. split; [done|]. intros x Hx. eapply keys_mono; [by apply He|]. by apply list_subseteq_app_l.
    - rewrite Htls in Ht1. apply tls_at in Ht as [->|[_ Ht]]; [destruct Ht1 as [?|[? ?]]; done|by rewrite Htls in Ht]. }
  split; [split|].
  - by apply tls_set.
  - intros t. rewrite set_opt_ne by done. rewrite (Q "transport") by decided. unfold ob3. rewrite set_opt_ne, Htr by done.
    destruct (transportCapable _); [|done]. apply transport_keys.
  - intros t. rewrite set_opt_ne by done. rewrite (Q "multiplex") by decided. unfold ob3. rewrite set_opt_ne, Hmx by done. apply multiplex_keys.
  - intros t [->|[_ Ht]]%tls_at.
    + rewrite (Q "tls") in Ht2, Hf2 by decided. destruct Ht2 as [?|[t3 Ht3]]; [done|]. by destruct (Hf2 t3 Ht3 (proj1 (T3 t3 Ht3)) t eq_refl).
    + rewrite (Q "tls") in Ht by decided. eapply keys_mono; [by apply T3|]. by apply list_subseteq_app_l.
  - intros t x [->|[_ Ht]]%tls_at Hx.
    + rewrite (Q "tls") in Ht2, Hf2 by decided. destruct Ht2 as [?|[t3 Ht3]]; [done|]. destruct (Hf2 t3 Ht3 (proj1 (T3 t3 Ht3)) t eq_refl) as [_ E]. rewrite E in Hx. by eapply T3.
    + rewrite (Q "tls") in Ht by decided. by eapply T3.
  - rewrite set_opt_ne by done. rewrite (Q "tag") by decided. unfold ob3. by rewrite set_opt_ne.
Qed.
End outbound.
Definition no_fold (a b : bytes) : bool := bool_decide (a = b).
Definition example_exit : Endpoint :=
  zero_endpoint <| ep_ID := "exit" |> <| ep_Protocol := ProtoVLESS |> <| ep_Server := "h.example" |> <| ep_Port := 443 |>
  <| ep_Params := list_to_map [("uuid", AString "u"); ("flow", AString "xtls-rprx-vision"); ("plugin", AString "obfs-local"); ("detour", AString "x")] |>
  <| ep_TLS := Some (mkTLS true "" "s.example" ["h2"; "h3"] true "safari" "" "" true false (Some (mkECH true "" "q.example")) [example_pin] [] false false [] []) |>
  <| ep_Transport := Some (mkTransport "ws" "/p?ed=2048" "" "" ∅) |>.
Definition rendered_example : render_error + obj := outbound_for_core no_fold (fun _ => None) (fun _ => None) example_exit "sing-box version 1.15.0".
Definition example_outbound : obj := match rendered_example with inr ob => ob | inl _ => ∅ end.
Definition example_block (k : string) : obj := default ∅ (as_object (example_outbound !! k)).
Lemma example_renders : rendered_example = inr example_outbound.
Proof.
  assert (E : (if rendered_example then false else true) = true) by (vm_compute; reflexivity).
  unfold example_outbound. by destruct rendered_example.
Qed.
Lemma outbound_fields_known_witness : known_fields 15 ProtoVLESS example_outbound /\
  example_block "tls" !! "insecure" = None /\ example_block "tls" !! "alpn" = None /\
  get_str (default ∅ (as_object (example_block "tls" !! "utls"))) "fingerprint" = "chrome" /\
  get_str (default ∅ (as_object (example_block "tls" !! "ech"))) "query_server_name" = "q.example" /\
  get_str (example_block "transport") "path" = "/p" /\ intp (example_block "transport") "max_early_data" = 2048.
Proof.
  split; [|split_and!; vm_compute; reflexivity].
  apply (outbound_fields_known no_fold (fun _ => None) (fun _ => None) example_exit "sing-box version 1.15.0"). exact example_renders.
Defined.

(** ** The renderers implement the interface *)
Lemma stands o e l : keys_in l o -> "outbounds" ∉ l -> "detour" ∉ l -> o !! "tag" = Some (AString (ep_ID e)) -> stands_for e o.
Proof. intros H H1 H2 Ht. split_and!; [done|by eapply keys_none..]. Qed.
Definition endpoint_tag : list string := ["tag"; "outbounds"; "detour"].
Lemma stands_keeps o o' e : keeps endpoint_tag o o' -> stands_for e o -> stands_for e o'.
Proof. intros H (H1 & H2 & H3). unfold stands_for. rewrite !H by decided. done. Qed.
Lemma foldl_keeps l ks e o : (forall k, k ∈ ks -> k ∉ l) -> keeps l o (foldl (fun ep k => set_str k (param e k) ep) o ks).
Proof.
  revert o. induction ks as [|k ks IH]; intros o H; [done|]. cbn [foldl]. eapply keeps_trans; [|apply IH; set_solver].
  apply keeps_set_str; [done|]. apply H, list_elem_of_here.
Qed.
Lemma openconnect_ok e v o : openconnect_endpoint e v = inr o -> stands_for e o.
Proof.
  unfold openconnect_endpoint. cbv zeta. rewrite seq_inr. intros [_ H]. apply seq_inr in H as [_ H]. apply (inj inr) in H as <-.
  match goal with |- stands_for e (flag e _ (set_if _ _ _ (set_if _ _ _ (foldl _ (set_str _ _ ?b) ?ks)))) => set (o0 := b) end.
  assert (H0 : stands_for e o0) by by split_and!. revert H0. apply stands_keeps.
  apply keeps_flag; [apply keeps_set_if; [apply keeps_set_if; [eapply keeps_trans; [|apply foldl_keeps]|]|]|]; try decided.
  - keeps.
  - intros k Hk. revert k Hk. apply Forall_forall. repeat constructor; decided.
Qed.
Lemma openvpn_servers_keeps e ep o : openvpn_servers e ep = inr o -> keeps endpoint_tag ep o.
Proof.
  unfold openvpn_servers. cbv zeta. assert (H : forall r : render_error + obj, r = inr (<["server_port":=AInt (ep_Port e)]> (<["server":=AString (ep_Server e)]> ep)) -> r = inr o -> keeps endpoint_tag ep o).
  { intros r -> <-%(inj inr). keeps. }
  destruct (ep_Params e !! "servers") as [[]|]; try (by apply H). destruct (1 <? length _)%nat; [|by apply H].
  rewrite bind_inr. intros (srv & _ & <-%(inj inr)). keeps.
Qed.
Lemma openvpn_static_keeps e ep o : openvpn_static e ep = inr o -> keeps endpoint_tag ep o.
Proof. unfold openvpn_static. cbv zeta. repeat case_match; try done; intros <-%(inj inr); keeps. Qed.
Lemma openvpn_tls_keeps e ep : keeps endpoint_tag ep (openvpn_tls e ep).
Proof. unfold openvpn_tls. cbv zeta. keeps. Qed.
Lemma openvpn_ok e v o : openvpn_endpoint e v = inr o -> stands_for e o.
Proof.
  unfold openvpn_endpoint. cbv zeta. rewrite seq_inr. intros [_ H]. apply bind_inr in H as (ep1 & H1 & H). apply bind_inr in H as (ep2 & H2 & <-%(inj inr)).
  apply openvpn_servers_keeps in H1. assert (H0 : stands_for e ep1) by (by apply (stands_keeps _ _ _ H1)).
  assert (Hk : keeps endpoint_tag ep1 ep2).
  { destruct (bool_decide (param e "mode" = _)); [by apply (openvpn_static_keeps e)|]. apply (inj inr) in H2 as <-. apply openvpn_tls_keeps. }
  apply (stands_keeps _ _ _ Hk) in H0. revert H0. apply stands_keeps. apply keeps_flag; [eapply keeps_trans; [|apply foldl_keeps]|decided].
  - keeps.
  - intros k Hk'. revert k Hk'. apply Forall_forall. repeat constructor; decided.
Qed.
Lemma wireguard_ok e o : wireguard_endpoint e = inr o -> stands_for e o.
Proof.
  unfold wireguard_endpoint. cbv zeta. rewrite seq_inr. intros [_ H]. apply seq_inr in H as [_ H]. apply (inj inr) in H as <-.
  match goal with |- stands_for e (set_if _ _ _ (copy_param _ _ _ ?b)) => assert (H0 : stands_for e b) by by split_and! end.
  revert H0. apply stands_keeps. keeps.
Qed.
Lemma fields_none p m k : k ∈ ["outbounds"; "detour"] -> k ∉ fields_of p m.
Proof.
  intros Hk. assert (forall l : list string, forallb (fun x => bool_decide (x ∉ ["outbounds"; "detour"])) l = true -> k ∉ l) as Hd.
  { intros l Hl Hin. rewrite forallb_forall in Hl. apply list_elem_of_In, Hl, bool_decide_eq_true in Hin. done. }
  unfold fields_of, own_fields, block_fields, since, dialled. rewrite !not_elem_of_app. split_and!; [by apply Hd| |by case_bool_decide; apply Hd..].
  repeat case_bool_decide; try (by apply Hd); destruct (14 <=? m); by apply Hd.
Qed.
#[export] Instance singbox_laws fold pem url : RendererLaws (singbox fold pem url).
Proof.
  split; intros e v *; cbn.
  - intros [[Hk _ _ _ _] Ht]%outbound_fields_known. eapply stands; [exact Hk|apply fields_none; decided..|done].
  - apply openvpn_ok.
  - apply openconnect_ok.
  - apply wireguard_ok.
Qed.
