(* ===== verification/GenDns.v ===== *)
(** * The engine's DNS plane

    [dnsListTags], [dnsFrom] and [dnsDefaultResolverTag] of [src/internal/generator/singbox.go], and
    [VPNDNSNeedsNewerCore] of [vpndns.go]. The [extra] sets and the [seen] tags of [dnsFrom] are the
    state [add_geo] keeps. *)
From S2P Require Import Prelude GoStrings Netip Model Dns Json GenSplit GenRoute.
Local Open Scope Z_scope.

Section dns.
Context (unicode_lower : bytes -> bytes).
Abbreviation canonicalOutbound := (canonicalOutbound unicode_lower).
Abbreviation IsVPNDNSType := (IsVPNDNSType unicode_lower).

(** The sets a list has, by the tags [routingFrom] gives them. *)
Definition list_tags (p : Profile) (hybrid : bool) (rl : RoutingList) : list string :=
  if bool_decide (ScopeMode rl = "only") && nil (listScopeIPs p rl) then []
  else
    let '(dom, ips) := listEntries rl in
    let kernelRouted := hybrid && bool_decide (Source rl = "") && nil dom && negb (nil ips) && kernelEgress p (rl_Outbound rl) in
    (if negb (bool_decide (Source rl = "")) && singboxConsumableSource rl then ["rs-" +:+ rl_ID rl] else [])
    ++ (if negb (nil dom && nil ips) && negb kernelRouted then ["rsm-" +:+ rl_ID rl] else []).
Definition dnsListTags (p : Profile) (listID : string) (hybrid : bool) : list string :=
  match find (fun rl => bool_decide (rl_ID rl = listID) && rl_Enabled rl) (RoutingLists p) with
  | Some rl => list_tags p hybrid rl
  | None => []
  end.

(** ** Servers *)
Definition VPNDNSNeedsNewerCore (s : option DNSServer) (coreVersion : string) : bool :=
  match s with
  | Some s => ds_Enabled s && IsVPNDNSType (ds_Type s) && negb (VPNDNSCarried coreVersion)
  | None => false
  end.
(** A server left out of the configuration. *)
Definition drops (tun : bool) (coreVersion : string) (s : DNSServer) : bool :=
  negb (ds_Enabled s) || (bool_decide (ds_Type s = "fakeip") && negb tun)
  || (IsVPNDNSType (ds_Type s) && negb (VPNDNSCarried coreVersion)).
Definition network_server (s : DNSServer) (sv : obj) : obj :=
  let detour := canonicalOutbound (trim (ds_Detour s)) in
  set_if (negb (blank (ds_DomainResolver s))) "domain_resolver" (AString (ds_DomainResolver s))
    (set_if (negb (bool_decide (detour = "")) && negb (bool_decide (detour = OutboundDirect))) "detour" (AString detour)
      (set_if (bool_decide (ds_Type s ∈ ["https"; "h3"]) && negb (blank (ds_Path s))) "path" (AString (ds_Path s))
        (set_if (0 <? ds_ServerPort s) "server_port" (AInt (ds_ServerPort s))
          (<["server" := AString (ds_Server s)]> sv)))).
Definition server_json (s : DNSServer) : obj :=
  let sv := object [("tag", AString (ds_Tag s)); ("type", AString (ds_Type s))] in
  if bool_decide (ds_Type s = "local") then sv
  else if bool_decide (ds_Type s ∈ ["openvpn"; "openconnect"]) then
    set_if (ds_AcceptSearchDomain s) "accept_search_domain" (ABool true)
      (set_if (ds_AcceptDefaultResolvers s) "accept_default_resolvers" (ABool true)
        (<["endpoint" := AString (trim (ds_Endpoint s))]> sv))
  else if bool_decide (ds_Type s = "fakeip") then
    set_str "inet6_range" (trim (ds_Inet6Range s)) (set_str "inet4_range" (trim (ds_Inet4Range s)) sv)
  else network_server s sv.

(** ** Rules *)
Definition dns_match (r : DNSRule) : obj :=
  addIf (addIf (addIf ∅ "domain_suffix" (dr_DomainSuffix r)) "domain" (dr_Domain r)) "query_type" (dr_QueryType r).
Definition dns_rule (p : Profile) (hybrid : bool) (dropped : list string) (st : list obj * geo_state) (r : DNSRule) :
    list obj * geo_state :=
  let '(rules, geo) := st in
  let toward (m : obj) : obj :=
    if bool_decide (dr_Server r = "reject") then <["action" := AString "reject"]> m
    else <["server" := AString (dr_Server r)]> m in
  if dr_Disabled r then st
  else if negb (bool_decide (dr_Server r = "reject")) && bool_decide (dr_Server r ∈ dropped) then st
  else
    let listTags := id ← dr_RuleSets r; dnsListTags p id hybrid in
    if negb (nil (dr_RuleSets r)) && nil listTags then st
    else
      let sites := geo_names (dr_GeoSite r) in
      let geo := foldl add_site geo sites in
      let m := with_sets (dns_match r) listTags ((fun g => "geosite-" +:+ g) <$> sites) in
      if is_empty m then (rules, geo) else (rules ++ [toward m], geo).

(** ** The block *)
Definition first_asked (servers : list obj) : option any :=
  s ← find (fun s => negb (IsVPNDNSType (get_str s "type"))) servers; s !! "tag".
Definition set_opt (k : string) (v : option any) (m : obj) : obj := match v with Some v => <[k := v]> m | None => m end.
Definition dnsFrom (p : Profile) (d : DNSSettings) (tun hybrid : bool) (coreVersion : string) (seen : gset string) :
    obj * list obj :=
  let dropped := ds_Tag <$> filter (fun s => drops tun coreVersion s = true) (dns_Servers d) in
  let live := filter (fun s => drops tun coreVersion s = false) (dns_Servers d) in
  let servers := server_json <$> live in
  let fakeipUsed := existsb (fun s => bool_decide (ds_Type s = "fakeip")) live in
  let '(rules, (extra, _)) := foldl (dns_rule p hybrid dropped) ([], ([], seen)) (dns_Rules d) in
  let block : obj := set_if (negb (nil servers)) "servers" (AMaps servers) ∅ in
  let block := set_if (negb (nil rules)) "rules" (AMaps rules) block in
  let block := set_if (negb (bool_decide (dns_Final d = "")) && negb (bool_decide (dns_Final d ∈ dropped))) "final"
                 (AString (dns_Final d)) block in
  let block := match block !! "final", head servers with
               | None, Some s => if IsVPNDNSType (get_str s "type") then set_opt "final" (first_asked servers) block else block
               | _, _ => block
               end in
  let block := set_str "strategy" (dns_Strategy d) block in
  let block := set_if (dns_IndependentCache d || fakeipUsed) "independent_cache" (ABool true) block in
  let block := set_if (dns_DisableCache d) "disable_cache" (ABool true) block in
  (set_str "client_subnet" (trim (dns_ClientSubnet d)) block, extra).

(** ** The resolver of the tunnels' own names *)
Definition resolves (s : obj) : bool :=
  negb (bool_decide (get_str s "type" = "fakeip")) && negb (IsVPNDNSType (get_str s "type")).
Definition tagged (s : obj) : bool := negb (bool_decide (get_str s "tag" = "")).
Definition has_key (k : string) (s : obj) : bool := bool_decide (is_Some (s !! k)).
Definition first_of (l : list (option string)) : string := default "" (head (omap id l)).
Definition dnsDefaultResolverTag (block : obj) : string :=
  let servers := as_objects (block !! "servers") in
  let f := get_str block "final" in
  let pick (c : obj -> bool) : option string := (fun s => get_str s "tag") <$> find c servers in
  first_of
    [pick (fun s => bool_decide (get_str s "type" = "local") && tagged s);
     pick (fun s => negb (has_key "detour" s) && resolves s && tagged s);
     (if bool_decide (f = "") then None else pick (fun s => bool_decide (get_str s "tag" = f) && resolves s));
     pick (fun s => resolves s && tagged s);
     pick (fun s => negb (IsVPNDNSType (get_str s "type")))].
End dns.
