(* ===== verification/Override.v ===== *)
(** * The operator's override of the engine's configuration

    Models [src/internal/generator/override.go]: parsing the decoded text, the prepended arrays, the
    RFC 7396 merge patch, the check of the override's own rules, and what the panel says of it ([Keys],
    [OpenListeners], [DaemonLosses]); [ProbeInboundTag] and the probe rules at the head of a built
    configuration are [probe.go]'s. Arguments: [decode], the first JSON value of a text as
    [encoding/json] decodes it into an [any] with [UseNumber] (maps, [AList], [AString], [ANumber],
    [ABool], [ANil]) and whether the text ends after it; [sprint], [fmt.Sprint] of a decoded value.

    Further on: what the panel says of an override. *)
From S2P Require Import Prelude GoStrings Netip GoText Model Faults PbrLists Json GenSplit GenRoute.
Local Open Scope Z_scope.

Definition CoreOverrideMaxBytes : nat := 65536.
Definition coreOverridePrependKey : string := "prepend".
Definition coreOverridePrependPaths : list string := ["outbounds"; "dns.servers"; "dns.rules"; "route.rules"].
Definition ProbeInboundTag : string := "probe-in".
Definition path_keys (path : string) : list string := unstr <$> Split 46 (str path).

Record CoreOverride := mkOverride { patch : obj; prepend : gmap string (list any) }.
Inductive override_error :=
  TooLong | NotJSON | TextAfter | NotObject | PrependNotObject | PrependPath (path : string)
| PrependNotArray (path : string) | PrependItem (path : string) (i : nat) | PrependShadowed (path at_ : string)
| NoSuchOutbound (rule : nat) (tag : string).
#[export] Instance override_error_eq_dec : EqDecision override_error.
Proof. solve_decision. Defined.

(** ** Reading it *)
Definition isPrependPath (path : string) : bool := bool_decide (path ∈ coreOverridePrependPaths).
Fixpoint patchShadows (node : obj) (before : list string) (path : list string) : string :=
  match path with
  | [] => ""
  | key :: rest =>
      match node !! key with
      | None => ""
      | Some v =>
          match rest, map_of v with
          | _ :: _, Some next => patchShadows next (before ++ [key]) rest
          | _, _ => unstr (join [46] (str <$> before ++ [key]))
          end
      end
  end.
Definition check_item (path : string) (i : nat) (it : any) : override_error + nat :=
  match map_of it with Some _ => inr (S i) | None => inl (PrependItem path (S i)) end.
Definition read_prepend (pat : obj) (acc : gmap string (list any)) (pv : string * any) : override_error + gmap string (list any) :=
  let '(path, v) := pv in
  _ ← refuse (negb (isPrependPath path)) (PrependPath path);
  match v with
  | AList items =>
      _ ← each (check_item path) 0%nat items;
      let at_ := patchShadows pat [] (path_keys path) in
      _ ← refuse (negb (bool_decide (at_ = ""))) (PrependShadowed path at_);
      inr (<[path := items]> acc)
  | _ => inl (PrependNotArray path)
  end.
Definition read_override (root : any) : override_error + CoreOverride :=
  match root with
  | AMap m =>
      match m !! coreOverridePrependKey with
      | None => inr (mkOverride m ∅)
      | Some raw =>
          let pat := delete coreOverridePrependKey m in
          match raw with
          | AMap pre => acc ← each (read_prepend pat) ∅ (map_to_list pre); inr (mkOverride pat acc)
          | _ => inl PrependNotObject
          end
      end
  | _ => inl NotObject
  end.

(** ** RFC 7396 *)
Definition is_nil (v : any) : bool := match v with ANil => true | _ => false end.
Definition apply_key (tv : option any) (f : option (option (option any -> any))) : option any :=
  match f with None => tv | Some None => None | Some (Some f) => Some (f tv) end.
Fixpoint mergePatch (target : option any) (p : any) : any :=
  match p with
  | AMap p =>
      let fs := (fun v => if is_nil v then None else Some (fun t => mergePatch t v)) <$> p in
      AMap (merge apply_key (default ∅ (as_object target)) fs)
  | _ => p
  end.
(** [for k, v := range o.patch]: the keys are distinct, so their order does not matter. *)
Definition merge_keys (cfg p : obj) : obj :=
  merge apply_key cfg ((fun v => if is_nil v then None else Some (fun t => mergePatch t v)) <$> p).

(** ** Prepending *)
Definition clamp (at_ n : nat) : nat := Nat.max 0 (Nat.min at_ n).
Definition splice {A} (at_ : nat) (items cur : list A) : list A :=
  let i := clamp at_ (length cur) in take i cur ++ items ++ drop i cur.
Fixpoint prependAt (cfg : obj) (path : list string) (items : list any) (at_ : nat) : obj :=
  match path with
  | [] => cfg
  | [last] =>
      <[last := match cfg !! last with
                | Some (AMaps cur) => AMaps (splice at_ (omap map_of items) cur)
                | Some (AList cur) => AList (splice at_ items cur)
                | _ => AList items
                end]> cfg
  | key :: path => <[key := AMap (prependAt (default ∅ (as_object (cfg !! key))) path items at_)]> cfg
  end.
Definition prepend_path (o : CoreOverride) (routeGuards : nat) (cfg : obj) (path : string) : obj :=
  match prepend o !! path with
  | Some items => prependAt cfg (path_keys path) items (if bool_decide (path = "route.rules") then routeGuards else 0%nat)
  | None => cfg
  end.
Definition Apply (o : option CoreOverride) (cfg : obj) (routeGuards : nat) : obj :=
  match o with
  | None => cfg
  | Some o => merge_keys (foldl (prepend_path o routeGuards) cfg coreOverridePrependPaths) (patch o)
  end.

(** ** The override's own rules *)
Definition config_tags (cfg : obj) : list string :=
  filter (fun t => t <> "")
    ((fun m => get_str m "tag") <$> forEachObject (cfg !! "outbounds") ++ forEachObject (cfg !! "endpoints")).
Definition own_rules (o : CoreOverride) : list any :=
  default [] (prepend o !! "route.rules") ++
  match as_object (patch o !! "route") with
  | Some route => match route !! "rules" with Some (AList l) => l | _ => [] end
  | None => []
  end.
Definition check_rule (tags : list string) (i : nat) (r : any) : override_error + nat :=
  let tag := get_str (default ∅ (map_of r)) "outbound" in
  _ ← refuse (negb (bool_decide (tag = "")) && negb (bool_decide (tag ∈ tags))) (NoSuchOutbound (S i) tag);
  inr (S i).
Definition checkRuleOutbounds (o : option CoreOverride) (cfg : obj) : override_error + unit :=
  match o with
  | None => inr tt
  | Some o => _ ← each (check_rule (config_tags cfg)) 0%nat (own_rules o); inr tt
  end.

Section text.
Context (decode : string -> option (any * bool)).
Definition ParseCoreOverride (text : string) : override_error + option CoreOverride :=
  if bool_decide (trim text = "") then inr None
  else
    _ ← refuse (CoreOverrideMaxBytes <? length (str text))%nat TooLong;
    match decode text with
    | None => inl NotJSON
    | Some (root, ends) =>
        _ ← refuse (negb ends) TextAfter;
        o ← read_override root; inr (Some o)
    end.
Definition ApplyCoreOverride (cfg : obj) (text : string) (routeGuards : nat) : override_error + obj :=
  o ← ParseCoreOverride text;
  let cfg := Apply o cfg routeGuards in
  _ ← checkRuleOutbounds o cfg; inr cfg.
End text.

(** * What the panel says of an override

    [Keys], [OpenListeners] and [DaemonLosses] of [src/internal/generator/override.go], with what they
    use of [net]. *)

Definition IsUnspecified (a : Addr) : bool := bool_decide (a = Addr4 0) || bool_decide (a = Addr16 0).

Definition isLoopbackHost (host : string) : bool :=
  match parse_addr (trim_brackets (str host)) with Some (a, _) => IsLoopback (Unmap a) | None => false end.
Definition sameController (ctl want : string) : bool :=
  bool_decide (ctl = want) ||
  match SplitHostPort ctl, SplitHostPort want with
  | Some (host, port), Some (_, wantPort) =>
      bool_decide (port = wantPort) &&
      (bool_decide (host = "") || match parse_addr (str host) with Some (a, []) => IsUnspecified a | _ => false end)
  | _, _ => false
  end.
Definition listHasTag (l : option any) (tag : string) : bool :=
  existsb (fun m => match m !! "tag" with Some (AString t) => bool_decide (t = tag) | _ => false end) (forEachObject l).

(** ** [Keys] *)
Definition path_root (path : string) : string := unstr (split_at 46 (str path)).1.
Definition Keys (o : option CoreOverride) : list string :=
  match o with
  | None => []
  | Some o => sort_strings (once ∅ ((map_to_list (patch o)).*1 ++ (path_root <$> (map_to_list (prepend o)).*1)))
  end.

(** ** [OpenListeners] *)
Section listeners.
Context (sprint : any -> string).
Definition listenAddr (listen : string) (port : option any) : string :=
  match port with
  | None | Some ANil => listen
  | Some v => JoinHostPort listen (sprint v)
  end.
Definition open_listener (kind : string) (i : nat) (v : any) : option string :=
  l ← map_of v;
  let listen := get_str l "listen" in
  if bool_decide (get_str l "type" = "tun") || bool_decide (listen = "") || isLoopbackHost listen then None
  else
    let name := get_str l "tag" in
    let name := if bool_decide (name = "") then "#" +:+ itoa (Z.of_nat i + 1) else name in
    Some (kind +:+ " " +:+ name +:+ " (" +:+ get_str l "type" +:+ ") on " +:+ listenAddr listen (l !! "listen_port")).
Definition open_in (o : CoreOverride) (key kind : string) : list string :=
  omap id (imap (open_listener kind) (match patch o !! key with Some (AList l) => l | _ => [] end)).
Definition patched_clash (o : CoreOverride) : option obj :=
  exp ← as_object (patch o !! "experimental"); as_object (exp !! "clash_api").
Definition OpenListeners (o : option CoreOverride) : list string :=
  match o with
  | None => []
  | Some o =>
      let ctl := get_str (default ∅ (patched_clash o)) "external_controller" in
      open_in o "inbounds" "inbound" ++ open_in o "services" "service" ++
      (if bool_decide (ctl = "") then []
       else if (match SplitHostPort ctl with Some (host, _) => isLoopbackHost host | None => false end) then []
       else ["Clash API controller on " +:+ ctl])
  end.
End listeners.

(** ** [DaemonLosses] *)
Record DaemonUse := mkUse { ClashAddr : string; ClashSecret : string; Probe : bool }.
Inductive DaemonLossKind := LossClashAPI | LossProbe | LossInbounds | LossRouteRules.
#[export] Instance loss_kind_eq_dec : EqDecision DaemonLossKind.
Proof. solve_decision. Defined.
Record DaemonLoss := mkLoss { loss_Kind : DaemonLossKind; loss_Item : string }.

Definition clashAPILosses (o : CoreOverride) (use : DaemonUse) : list string :=
  match patch o !! "experimental" with
  | None => []
  | Some ANil => ["experimental deleted"]
  | Some (AMap exp) =>
      match exp !! "clash_api" with
      | None => []
      | Some ANil => ["experimental.clash_api deleted"]
      | Some (AMap clash) =>
          match clash !! "external_controller" with
          | Some v => if sameController (as_string (Some v)) (ClashAddr use) then [] else ["experimental.clash_api.external_controller changed"]
          | None => []
          end ++
          match clash !! "secret" with
          | Some (AString s) => if bool_decide (s = ClashSecret use) then [] else ["experimental.clash_api.secret changed"]
          | Some ANil => if bool_decide ("" = ClashSecret use) then [] else ["experimental.clash_api.secret changed"]
          | Some _ => ["experimental.clash_api.secret changed"]
          | None => []
          end
      | Some _ => ["experimental.clash_api replaced"]
      end
  | Some _ => ["experimental replaced"]
  end.
Definition inbound_losses (o : CoreOverride) (use : DaemonUse) : list DaemonLoss :=
  match patch o !! "inbounds" with
  | None => []
  | Some v =>
      mkLoss LossInbounds (if is_nil v then "inbounds deleted" else "inbounds replaced") ::
      (if Probe use && negb (listHasTag (Some v) ProbeInboundTag) then [mkLoss LossProbe ("inbound " +:+ ProbeInboundTag +:+ " dropped")] else [])
  end.
Definition route_losses (o : CoreOverride) : list DaemonLoss :=
  match patch o !! "route" with
  | None => []
  | Some ANil => [mkLoss LossRouteRules "route deleted"]
  | Some (AMap route) => match route !! "rules" with Some _ => [mkLoss LossRouteRules "route.rules replaced"] | None => [] end
  | Some _ => [mkLoss LossRouteRules "route replaced"]
  end.
Definition DaemonLosses (o : option CoreOverride) (use : DaemonUse) : list DaemonLoss :=
  match o with
  | None => []
  | Some o =>
      (if bool_decide (ClashAddr use = "") then [] else mkLoss LossClashAPI <$> clashAPILosses o use)
      ++ inbound_losses o use ++ route_losses o
  end.

Example split_ports : map SplitHostPort ["127.0.0.1:9090"; ":9090"; "[::1]:80"; "::1:80"; "host"; "[a]b:1"; "[::]:"] =
  [Some ("127.0.0.1", "9090"); Some ("", "9090"); Some ("::1", "80"); None; None; None; Some ("::", "")].
Proof. vm_compute. reflexivity. Qed.
Example controllers : map (fun c => sameController c "127.0.0.1:9090") ["0.0.0.0:9090"; ":9090"; "[::]:9090"; "192.168.1.1:9090"; ":9091"] = [true; true; true; false; false].
Proof. vm_compute. reflexivity. Qed.
