(* ===== verification/OverrideTheorems.v ===== *)
(** * What an override does to the configuration

    The merge patch read along paths, what stays of the prepended arrays, and what an override that
    reports no losses leaves alone. *)
From S2P Require Import Prelude GoStrings GoText Netip Model Faults PbrLists Json GenSplit GenRoute Override.
Local Open Scope nat_scope.

(** ** Reading along a path *)
Fixpoint at_path (a : option any) (ks : list string) : option any :=
  match ks with
  | [] => a
  | k :: ks => match as_object a with Some m => at_path (m !! k) ks | None => None end
  end.
(** What a merge patch says of a path. *)
Inductive verdict := Keep | Becomes (v : option any) | Merged.
Fixpoint says (p : any) (ks : list string) : verdict :=
  match p, ks with
  | AMap m, k :: ks =>
      match m !! k with
      | None => Keep
      | Some v => if is_nil v then Becomes None else says v ks
      end
  | AMap _, [] => Merged
  | _, _ => Becomes (at_path (Some p) ks)
  end.

Lemma merge_keys_lookup cfg p k :
  merge_keys cfg p !! k = match p !! k with
                          | None => cfg !! k
                          | Some v => if is_nil v then None else Some (mergePatch (cfg !! k) v)
                          end.
Proof.
  unfold merge_keys. rewrite lookup_merge, lookup_fmap. destruct (p !! k) as [v|]; cbn; [|by destruct (cfg !! k)].
  destruct (is_nil v); by destruct (cfg !! k).
Qed.
Lemma mergePatch_object t p : mergePatch t (AMap p) = AMap (merge_keys (default ∅ (as_object t)) p).
Proof. done. Qed.
Lemma mergePatch_other t p : map_of p = None -> mergePatch t p = p.
Proof. by destruct p. Qed.
Lemma says_other p ks : map_of p = None -> says p ks = Becomes (at_path (Some p) ks).
Proof. by destruct p, ks. Qed.
Lemma at_path_default a k ks : at_path (default ∅ (as_object a) !! k) ks = at_path a (k :: ks).
Proof. cbn. destruct (as_object a) as [m|]; [done|]. cbn. rewrite lookup_empty. by destruct ks. Qed.
Lemma at_path_object a k ks : at_path (Some (AMap (default ∅ (as_object a)))) (k :: ks) = at_path a (k :: ks).
Proof. exact (at_path_default a k ks). Qed.
Lemma merge_says p t ks :
  match says p ks with
  | Keep => at_path (Some (mergePatch t p)) ks = at_path t ks
  | Becomes v => at_path (Some (mergePatch t p)) ks = v
  | Merged => exists m, at_path (Some (mergePatch t p)) ks = Some (AMap m)
  end.
Proof.
  revert p t. induction ks as [|k ks IH]; intros p t.
  - destruct p; try done. by eexists.
  - destruct (map_of p) as [m|] eqn:E; [|by rewrite says_other, mergePatch_other].
    destruct p; try done. injection E as ->. rewrite mergePatch_object. cbn [says at_path as_object].
    rewrite merge_keys_lookup. destruct (m !! k) as [v|]; [|apply at_path_default].
    destruct (is_nil v); [by destruct ks|]. specialize (IH v (default ∅ (as_object t) !! k)).
    destruct (says v ks); [rewrite IH; apply at_path_default|done..].
Qed.

(** ** Prepending along a path *)
Fixpoint diverge (p q : list string) : bool :=
  match p, q with k :: p, j :: q => if bool_decide (k = j) then diverge p q else true | _, _ => false end.
Definition spliced (cur : option any) (items : list any) (at_ : nat) : any :=
  match cur with
  | Some (AMaps cur) => AMaps (splice at_ (omap map_of items) cur)
  | Some (AList cur) => AList (splice at_ items cur)
  | _ => AList items
  end.
Lemma at_prepended cfg k path items n :
  at_path (Some (AMap (prependAt cfg (k :: path) items n))) (k :: path) =
  Some (spliced (at_path (Some (AMap cfg)) (k :: path)) items n).
Proof.
  revert cfg k. induction path as [|j path IH]; intros cfg k; rewrite <- !(at_path_default _ k); cbn [as_object from_option id].
  - cbn [prependAt]. by rewrite lookup_insert_eq.
  - change (prependAt cfg (k :: j :: path) items n) with
      (<[k := AMap (prependAt (default ∅ (as_object (cfg !! k))) (j :: path) items n)]> cfg).
    rewrite lookup_insert_eq, IH. do 2 f_equal. apply at_path_object.
Qed.
Lemma at_diverging cfg p q items n : diverge p q = true ->
  at_path (Some (AMap (prependAt cfg p items n))) q = at_path (Some (AMap cfg)) q.
Proof.
  revert cfg q. induction p as [|k p IH]; intros cfg q; [done|]. destruct q as [|j q]; [done|]. cbn [diverge].
  rewrite <- !(at_path_default _ j). cbn [as_object from_option id]. case_bool_decide as E; [subst j|intros _].
  - intros H. destruct p as [|k' p]; [done|]. destruct q as [|j q]; [done|].
    change (prependAt cfg (k :: k' :: p) items n) with
      (<[k := AMap (prependAt (default ∅ (as_object (cfg !! k))) (k' :: p) items n)]> cfg).
    rewrite lookup_insert_eq, IH by done. apply at_path_object.
  - assert (H : forall v, <[k := v]> cfg !! j = cfg !! j) by (intros v; by rewrite lookup_insert_ne).
    destruct p; cbn [prependAt]; by rewrite H.
Qed.
Lemma paths_diverge p q : p ∈ coreOverridePrependPaths -> q ∈ coreOverridePrependPaths -> p <> q ->
  diverge (path_keys p) (path_keys q) = true.
Proof.
  unfold coreOverridePrependPaths. rewrite !elem_of_cons, !elem_of_nil.
  intros [->|[->|[->|[->|[]]]]] [->|[->|[->|[->|[]]]]] H; try done; vm_compute; done.
Qed.
Lemma path_keys_cons p : p ∈ coreOverridePrependPaths -> exists k ks, path_keys p = k :: ks.
Proof.
  unfold coreOverridePrependPaths. rewrite !elem_of_cons, !elem_of_nil.
  intros [->|[->|[->|[->|[]]]]]; vm_compute; by eexists _, _.
Qed.
Definition guard_index (path : string) (routeGuards : nat) : nat := if bool_decide (path = "route.rules") then routeGuards else 0.
Lemma prepends_at o n ps cfg path : NoDup ps -> (forall p, p ∈ ps -> p ∈ coreOverridePrependPaths) -> path ∈ coreOverridePrependPaths ->
  at_path (Some (AMap (foldl (prepend_path o n) cfg ps))) (path_keys path) =
  match prepend o !! path with
  | Some items => if bool_decide (path ∈ ps) then Some (spliced (at_path (Some (AMap cfg)) (path_keys path)) items (guard_index path n))
                  else at_path (Some (AMap cfg)) (path_keys path)
  | None => at_path (Some (AMap cfg)) (path_keys path)
  end.
Proof.
  intros Hnd Hps Hpath. revert cfg. induction Hnd as [|p ps Hni Hnd IH]; intros cfg.
  - cbn. by destruct (prepend o !! path).
  - cbn [foldl]. rewrite IH by (intros q Hq; apply Hps; by right). destruct (decide (p = path)) as [->|Hne].
    + rewrite (bool_decide_false (path ∈ ps)) by done. rewrite (bool_decide_true (path ∈ path :: ps)) by left.
      unfold prepend_path. destruct (prepend o !! path) as [items|]; [|done].
      destruct (path_keys_cons path Hpath) as (k & ks & E). rewrite E. apply at_prepended.
    + assert (E : at_path (Some (AMap (prepend_path o n cfg p))) (path_keys path) = at_path (Some (AMap cfg)) (path_keys path)).
      { unfold prepend_path. destruct (prepend o !! p) as [items|]; [|done]. apply at_diverging, paths_diverge; [apply Hps; left|done..]. }
      rewrite !E. destruct (prepend o !! path); [|done].
      assert (bool_decide (path ∈ ps) = bool_decide (path ∈ p :: ps)) as ->; [|done].
      apply bool_decide_ext. rewrite elem_of_cons. naive_solver.
Qed.

(** ** What a parsed override is *)
Lemma join_nil sep l : sep <> [] -> join sep l = [] -> forall w, w ∈ l -> w = [].
Proof.
  intros Hs. destruct l as [|p [|q l]]; cbn [join].
  - intros _ w Hw. by apply elem_of_nil in Hw.
  - intros -> w Hw. by apply list_elem_of_singleton in Hw.
  - intros [_ [H _]%app_nil]%app_nil. done.
Qed.
Lemma shadows_keep node before k path : (forall j, j ∈ k :: path -> j <> "") ->
  patchShadows node before (k :: path) = "" -> says (AMap node) (k :: path) = Keep.
Proof.
  revert node before k. induction path as [|j path IH]; intros node before k Hk; cbn [patchShadows says].
  all: destruct (node !! k) as [v|]; [|done].
  all: assert (Hbad : unstr (join [46%Z] (str <$> before ++ [k])) <> "").
  1,3: intros E; apply unstr_nil in E; apply (Hk k (list_elem_of_here _ _)), str_nil;
    apply (join_nil [46%Z] _ ltac:(done) E); apply list_elem_of_fmap_2; apply elem_of_app; right; by apply list_elem_of_singleton.
  - intros E. by destruct (Hbad E).
  - destruct (map_of v) as [m|] eqn:E; [|intros Hx; by destruct (Hbad Hx)]. destruct v; try done. injection E as ->.
    intros H. cbn [is_nil]. apply IH in H; [done|]. intros x Hx. apply Hk. by right.
Qed.

Record parsed (o : CoreOverride) : Prop := {
  pa_path : forall path items, prepend o !! path = Some items -> path ∈ coreOverridePrependPaths;
  pa_items : forall path items, prepend o !! path = Some items -> Forall (fun it => is_Some (map_of it)) items;
  pa_kept : forall path items, prepend o !! path = Some items -> says (AMap (patch o)) (path_keys path) = Keep
}.
Lemma check_items_ok path i items n : each (check_item path) i items = inr n -> Forall (fun it => is_Some (map_of it)) items.
Proof.
  revert i. induction items as [|it items IH]; intros i; [constructor|]. rewrite each_step. intros (s & H1 & H2).
  unfold check_item in H1. destruct (map_of it) eqn:E; [|done]. constructor; [by rewrite E|by eapply IH].
Qed.
Lemma path_keys_nonempty path : path ∈ coreOverridePrependPaths -> exists k ks, path_keys path = k :: ks /\ forall j, j ∈ k :: ks -> j <> "".
Proof.
  unfold coreOverridePrependPaths. rewrite !elem_of_cons, !elem_of_nil.
  intros [->|[->|[->|[->|[]]]]]; vm_compute path_keys; eexists _, _; (split; [reflexivity|]); intros j Hj;
    repeat (apply elem_of_cons in Hj as [->|Hj]; [done|]); by apply elem_of_nil in Hj.
Qed.
Lemma read_prepend_ok pat acc path v acc' : read_prepend pat acc (path, v) = inr acc' ->
  exists items, v = AList items /\ acc' = <[path := items]> acc /\ path ∈ coreOverridePrependPaths /\
    Forall (fun it => is_Some (map_of it)) items /\ says (AMap pat) (path_keys path) = Keep.
Proof.
  unfold read_prepend. rewrite seq_inr, refuse_ok, negb_false_iff. unfold isPrependPath. rewrite bool_decide_eq_true.
  intros [Hp H]. destruct v; try done. exists l. split; [done|]. apply bind_inr in H as (n & Hi & H).
  rewrite seq_inr, refuse_ok, negb_false_iff, bool_decide_eq_true in H. destruct H as [Hs [= <-]].
  split; [done|]. split; [done|]. split; [by eapply check_items_ok|].
  destruct (path_keys_nonempty path Hp) as (k & ks & E & Hne). rewrite E in *. by eapply shadows_keep.
Qed.
Lemma read_all pat l acc acc' : each (read_prepend pat) acc l = inr acc' -> parsed (mkOverride pat acc) -> parsed (mkOverride pat acc').
Proof.
  revert acc. induction l as [|[path v] l IH]; intros acc; [intros [= <-]; done|]. rewrite each_step. intros (s & H1 & H2) [P1 P2 P3].
  apply read_prepend_ok in H1 as (items & -> & -> & Hp & Hi & Hs). apply (IH _ H2).
  split; cbn in *; intros q its; rewrite lookup_insert_Some; intros [[<- <-]|[_ H]]; eauto.
Qed.
Lemma read_override_parsed root o : read_override root = inr o -> parsed o.
Proof.
  unfold read_override. destruct root; try done.
  destruct (m !! coreOverridePrependKey) as [raw|].
  - destruct raw; try done. intros (acc & H & [= <-])%bind_inr. eapply read_all; [exact H|]. by split; intros path items.
  - intros [= <-]. by split; intros path items.
Qed.

Section applied.
Context (decode : string -> option (any * bool)).
Lemma ParseCoreOverride_parsed text o : ParseCoreOverride decode text = inr (Some o) -> parsed o.
Proof.
  unfold ParseCoreOverride. case_bool_decide; [done|]. rewrite seq_inr. intros [_ Ht]. destruct (decode text) as [[root e]|]; [|done].
  rewrite seq_inr in Ht. destruct Ht as [_ Ht]. apply bind_inr in Ht as (o' & Ho & [= ->]). by eapply read_override_parsed.
Qed.
Lemma ApplyCoreOverride_inr cfg text n cfg' : ApplyCoreOverride decode cfg text n = inr cfg' <->
  exists o, ParseCoreOverride decode text = inr o /\ cfg' = Apply o cfg n /\ checkRuleOutbounds o cfg' = inr tt.
Proof.
  unfold ApplyCoreOverride. rewrite bind_inr. setoid_rewrite seq_inr. split.
  - intros (o & H1 & H2 & [= <-]). by exists o.
  - intros (o & H1 & -> & H2). by exists o.
Qed.
Lemma applied_at o cfg n path : parsed o -> path ∈ coreOverridePrependPaths -> says (AMap (patch o)) (path_keys path) = Keep ->
  at_path (Some (AMap (Apply (Some o) cfg n))) (path_keys path) =
  match prepend o !! path with
  | Some items => Some (spliced (at_path (Some (AMap cfg)) (path_keys path)) items (guard_index path n))
  | None => at_path (Some (AMap cfg)) (path_keys path)
  end.
Proof.
  intros Hp Hpath Hk. cbn [Apply]. pose proof (merge_says (AMap (patch o)) (Some (AMap (foldl (prepend_path o n) cfg coreOverridePrependPaths))) (path_keys path)) as H.
  rewrite Hk, mergePatch_object in H. change (default ∅ (as_object (Some (AMap ?m)))) with m in H. cbn [as_object from_option id] in H. rewrite H.
  rewrite prepends_at; [|by apply (bool_decide_unpack _); vm_compute|done|done]. by rewrite bool_decide_true.
Qed.
End applied.

(** ** What an override leaves alone *)
Lemma prepends_leave o n ps cfg q : (forall p, p ∈ ps -> is_Some (prepend o !! p) -> diverge (path_keys p) q = true) ->
  at_path (Some (AMap (foldl (prepend_path o n) cfg ps))) q = at_path (Some (AMap cfg)) q.
Proof.
  revert cfg. induction ps as [|p ps IH]; intros cfg H; [done|]. cbn [foldl]. rewrite IH by (intros x Hx; apply H; by right).
  unfold prepend_path. specialize (H p (list_elem_of_here _ _)). destruct (prepend o !! p) as [items|]; [|done].
  by apply at_diverging, H.
Qed.
Lemma applied_says o cfg n ks :
  match says (AMap (patch o)) ks with
  | Keep => (forall p, is_Some (prepend o !! p) -> diverge (path_keys p) ks = true) ->
            at_path (Some (AMap (Apply (Some o) cfg n))) ks = at_path (Some (AMap cfg)) ks
  | Becomes v => at_path (Some (AMap (Apply (Some o) cfg n))) ks = v
  | Merged => exists m, at_path (Some (AMap (Apply (Some o) cfg n))) ks = Some (AMap m)
  end.
Proof.
  cbn [Apply]. pose proof (merge_says (AMap (patch o)) (Some (AMap (foldl (prepend_path o n) cfg coreOverridePrependPaths))) ks) as H.
  rewrite mergePatch_object in H. cbn [as_object from_option id] in H.
  destruct (says (AMap (patch o)) ks); [|done|done]. intros Hd. rewrite H. apply prepends_leave. auto.
Qed.
Lemma applied_keeps o cfg n k ks : parsed o -> says (AMap (patch o)) (k :: ks) = Keep ->
  (forall p, p ∈ coreOverridePrependPaths -> diverge (path_keys p) (k :: ks) = true) ->
  at_path (Some (AMap (Apply (Some o) cfg n))) (k :: ks) = at_path (Some (AMap cfg)) (k :: ks).
Proof.
  intros Hp Hk Hd. pose proof (applied_says o cfg n (k :: ks)) as H. rewrite Hk in H. apply H.
  intros p [items Hi]. eapply Hd, pa_path; eassumption.
Qed.
Lemma away_from_prepends ks : forallb (fun p => diverge (path_keys p) ks) coreOverridePrependPaths = true ->
  forall p, p ∈ coreOverridePrependPaths -> diverge (path_keys p) ks = true.
Proof. rewrite forallb_forall. setoid_rewrite <- list_elem_of_In. auto. Qed.

Definition clash_path (k : string) : list string := ["experimental"; "clash_api"; k].
Lemma clash_losses o use k : clashAPILosses o use = [] -> k = "external_controller" \/ k = "secret" ->
  says (AMap (patch o)) (clash_path k) = Keep \/
  exists clash, at_path (Some (AMap (patch o))) ["experimental"; "clash_api"] = Some (AMap clash) /\
    match clash !! k with Some v => says (AMap (patch o)) (clash_path k) = if is_nil v then Becomes None else says v [] | None => False end.
Proof.
  unfold clashAPILosses, clash_path. intros H Hk. cbn [says at_path as_object].
  destruct (patch o !! "experimental") as [exp|]; [|by left]. destruct exp; try discriminate. cbn [is_nil].
  destruct (m !! "clash_api") as [c|] eqn:Ec; [|by left]. destruct c; try discriminate. cbn [is_nil].
  destruct (m0 !! k) as [v|] eqn:Ev; [right|by left]. exists m0. split; [cbn; by rewrite Ec|]. by rewrite Ev.
Qed.
Lemma controller_kept o use : ClashAddr use <> "" -> clashAPILosses o use = [] ->
  match says (AMap (patch o)) (clash_path "external_controller") with
  | Keep => True
  | Becomes v => sameController (as_string v) (ClashAddr use) = true /\ get_str (default ∅ (patched_clash o)) "external_controller" = as_string v
  | Merged => False end.
Proof.
  intros Ha H. destruct (clash_losses o use "external_controller" H (or_introl eq_refl)) as [->|(c & Hc & Hv)]; [done|].
  assert (Hp : patched_clash o = Some c).
  { unfold patched_clash. cbn [at_path as_object] in Hc. destruct (as_object (patch o !! "experimental")) as [m|]; [|done].
    cbn. by destruct (m !! "clash_api") as [[]|]; simplify_eq/=. }
  unfold get_str. rewrite Hp. cbn [default from_option id].
  destruct (c !! "external_controller") as [v|] eqn:Ev; [|done]. rewrite Hv. unfold clashAPILosses in H.
  cbn [at_path as_object] in Hc. destruct (patch o !! "experimental") as [[]|]; try done. cbn [as_object] in Hc. rewrite Hc, Ev in H.
  apply app_nil in H as [H _]. destruct (sameController _ _) eqn:E; [|done].
  assert (Hne : sameController "" (ClashAddr use) = false).
  { unfold sameController. rewrite bool_decide_false by done. reflexivity. }
  destruct v; cbn [as_string is_nil says at_path] in *; rewrite ?Hne in E; done.
Qed.
(** A controller that is the daemon's on every address is a listener the panel names. *)
Lemma split_at_in c s a b x : split_at c s = (a, b) -> (x ∈ a -> x ∈ s /\ x <> c) /\ (forall r, b = Some r -> x ∈ r -> x ∈ s).
Proof.
  revert a b. induction s as [|d s IH]; intros a b; cbn; [intros [= <- <-]; split; [by intros ?%elem_of_nil|done]|].
  destruct (Z.eqb_spec d c) as [->|Hd]; [intros [= <- <-]; split; [by intros ?%elem_of_nil|intros r [= <-] ?; by right]|].
  destruct (split_at c s) as [a' b'] eqn:E. intros [= <- <-]. destruct (IH a' b' eq_refl) as [H1 H2]. split.
  - intros [->|Hx]%elem_of_cons; [split; [left|done]|]. destruct (H1 Hx). split; [by right|done].
  - intros r Hr Hx. right. by eapply H2.
Qed.
Lemma split_last_in c s a b x : split_last c s = Some (a, b) -> x ∈ a -> x ∈ s.
Proof.
  unfold split_last. destruct (split_at c (reverse s)) as [b' [a'|]] eqn:E; [|done]. intros [= <- <-] Hx.
  rewrite elem_of_reverse in Hx. destruct (split_at_in c _ _ _ x E) as [_ H]. specialize (H a' eq_refl Hx). by rewrite elem_of_reverse in H.
Qed.
Lemma host_plain hp host port x : SplitHostPort hp = Some (host, port) -> x ∈ str host -> x <> 91%Z /\ x <> 93%Z.
Proof.
  unfold SplitHostPort. pose proof (str_bytes hp) as Hb. rewrite Forall_forall in Hb.
  destruct (split_last 58 (str hp)) as [[before p]|] eqn:El; [|done]. cbn [mbind option_bind].
  assert (Hplain : (if has_byte 58 before || has_byte 91 (str hp) || has_byte 93 (str hp) then None else Some (unstr before, unstr p)) = Some (host, port) ->
    x ∈ str host -> x <> 91%Z /\ x <> 93%Z).
  { destruct (_ || _) eqn:E; [done|]. bool_facts. intros [= <- <-]. rewrite str_unstr.
    - intros Hx. apply (split_last_in _ _ _ _ _ El) in Hx. split; intros ->; apply has_byte_spec in Hx; congruence.
    - apply Forall_forall. intros y Hy. by apply Hb, (split_last_in _ _ _ _ _ El). }
  destruct (str hp) as [|c inner] eqn:Es; [exact Hplain|]. destruct (Z.eq_dec c 91) as [->|Hc].
  - destruct (split_at 93 inner) as [h [rest|]] eqn:E; [|done]. destruct (_ && _) eqn:Eg; [|done]. bool_facts. intros [= <- <-].
    assert (Hh : Forall is_byte h).
    { apply Forall_forall. intros y Hy. apply Hb. right. by apply (split_at_in 93 inner h (Some rest) y). }
    rewrite str_unstr by done. intros Hx. split; [intros ->; apply has_byte_spec in Hx; congruence|by apply (split_at_in 93 inner h (Some rest) x)].
  - intros H. apply Hplain. rewrite <- H. destruct c as [|c|c]; try done. by do 7 (try (destruct c as [c|c|]; try done)); destruct Hc.
Qed.
Lemma trim_brackets_plain s : (forall x, x ∈ s -> x <> 91%Z /\ x <> 93%Z) -> trim_brackets s = s.
Proof.
  intros H. assert (Hd : forall l, (forall x, x ∈ l -> x ∈ s) -> drop_while (fun c => (c =? 91) || (c =? 93))%Z l = l).
  { intros [|c l] Hl; [done|]. cbn [drop_while]. destruct (H c (Hl c ltac:(left))) as [H1 H2].
    destruct (Z.eqb_spec c 91), (Z.eqb_spec c 93); done. }
  unfold trim_brackets. rewrite (Hd s) by done. rewrite Hd by (intros x; by rewrite elem_of_reverse). apply reverse_involutive.
Qed.
Lemma widened_is_named sprint o use : let ctl := get_str (default ∅ (patched_clash o)) "external_controller" in
  ClashAddr use <> "" -> sameController ctl (ClashAddr use) = true ->
  ctl = ClashAddr use \/ ("Clash API controller on " +:+ ctl) ∈ OpenListeners sprint (Some o).
Proof.
  intros ctl Ha H. unfold sameController in H. destruct (bool_decide_reflect (ctl = ClashAddr use)); [by left|right]. cbn [orb] in H.
  destruct (SplitHostPort ctl) as [[host port]|] eqn:Es; [|done]. destruct (SplitHostPort (ClashAddr use)) as [[? ?]|]; [|done].
  apply andb_true_iff in H as [_ H].
  unfold OpenListeners. fold ctl. rewrite Es. rewrite !elem_of_app. right. right.
  rewrite bool_decide_false by (intros E; rewrite E in Es; done).
  assert (isLoopbackHost host = false) as ->; [|apply list_elem_of_here].
  unfold isLoopbackHost. rewrite trim_brackets_plain by (intros x; by apply (host_plain ctl host port)).
  destruct (bool_decide_reflect (host = "")) as [->|]; [done|]. cbn [orb] in H.
  destruct (parse_addr (str host)) as [[a [|]]|]; [|done|done]. unfold IsUnspecified in H.
  apply orb_true_iff in H as [H|H]; apply bool_decide_eq_true in H; by subst a.
Qed.
Lemma secret_kept o use : clashAPILosses o use = [] ->
  match says (AMap (patch o)) (clash_path "secret") with
  | Keep => True | Becomes v => as_string v = ClashSecret use | Merged => False end.
Proof.
  intros H. destruct (clash_losses o use "secret" H (or_intror eq_refl)) as [->|(c & Hc & Hv)]; [done|].
  destruct (c !! "secret") as [v|] eqn:Ev; [|done]. rewrite Hv. unfold clashAPILosses in H.
  cbn [at_path as_object] in Hc. destruct (patch o !! "experimental") as [[]|]; try done. cbn [as_object] in Hc. rewrite Hc, Ev in H.
  apply app_nil in H as [_ H]. destruct v; cbn [as_string is_nil says at_path] in *; try done; by case_bool_decide.
Qed.
Lemma route_kept o : route_losses o = [] -> says (AMap (patch o)) ["route"; "rules"] = Keep.
Proof.
  unfold route_losses. cbn [says]. destruct (patch o !! "route") as [r|]; [|done]. destruct r; try done.
  cbn [is_nil says]. by destruct (m !! "rules").
Qed.

(** ** The theorems *)
Section theorems.
Context (decode : string -> option (any * bool)).

(** C23: an accepted override does to the configuration what its text says. Along every path a merge patch
    is read as RFC 7396 reads it: what it sets is there, what it nulls is gone, and what it does not
    mention, and no prepended array is on the way of, is as generated. And each prepended array is there
    in full, in front of the generated one (route rules: after the guards): the patch never discards
    it. *)
Theorem override_does_what_it_says cfg text n cfg' o :
  ParseCoreOverride decode text = inr (Some o) -> ApplyCoreOverride decode cfg text n = inr cfg' ->
  (forall ks, match says (AMap (patch o)) ks with
              | Keep => (forall p, is_Some (prepend o !! p) -> diverge (path_keys p) ks = true) ->
                        at_path (Some (AMap cfg')) ks = at_path (Some (AMap cfg)) ks
              | Becomes v => at_path (Some (AMap cfg')) ks = v
              | Merged => exists m, at_path (Some (AMap cfg')) ks = Some (AMap m)
              end) /\
  (forall p items, prepend o !! p = Some items ->
     at_path (Some (AMap cfg')) (path_keys p) =
     Some (spliced (at_path (Some (AMap cfg)) (path_keys p)) items (guard_index p n))).
Proof.
  intros Hp (o' & Ho & -> & _)%ApplyCoreOverride_inr. rewrite Hp in Ho. injection Ho as <-.
  split; [intros ks; apply applied_says|]. intros p items Hi. pose proof (ParseCoreOverride_parsed decode text o Hp) as P.
  rewrite applied_at, Hi; [done|done|by eapply pa_path|by eapply pa_kept].
Qed.

(** C22: an override the panel reports no losses for takes nothing from the daemon: the inbounds are the
    generated ones, the guard rules still lead the route, with the generated rules after whatever the
    override put between them, and the Clash API still answers where the daemon asks, with its
    secret. Its controller is the generated one, or is opened by the override to every address on the
    same port, and then the panel lists it as an open listener. *)
Theorem unreported_override_is_harmless sprint cfg text n cfg' o use :
  ParseCoreOverride decode text = inr o -> ApplyCoreOverride decode cfg text n = inr cfg' -> DaemonLosses o use = [] ->
  cfg' !! "inbounds" = cfg !! "inbounds" /\
  (forall rules, at_path (Some (AMap cfg)) ["route"; "rules"] = Some (AMaps rules) -> n <= length rules ->
     exists more, at_path (Some (AMap cfg')) ["route"; "rules"] = Some (AMaps (take n rules ++ more ++ drop n rules))) /\
  (ClashAddr use <> "" ->
   as_string (at_path (Some (AMap cfg)) (clash_path "external_controller")) = ClashAddr use ->
   as_string (at_path (Some (AMap cfg)) (clash_path "secret")) = ClashSecret use ->
   let ctl := as_string (at_path (Some (AMap cfg')) (clash_path "external_controller")) in
   sameController ctl (ClashAddr use) = true /\
   (ctl = ClashAddr use \/ ("Clash API controller on " +:+ ctl) ∈ OpenListeners sprint o) /\
   as_string (at_path (Some (AMap cfg')) (clash_path "secret")) = ClashSecret use).
Proof.
  intros Hp (o' & Ho & -> & _)%ApplyCoreOverride_inr. rewrite Hp in Ho. injection Ho as <-.
  assert (Hself : forall a, sameController a a = true) by (intros a; unfold sameController; by rewrite bool_decide_true).
  destruct o as [o|]; cbn [DaemonLosses].
  2:{ intros _. split; [done|]. split; [|intros _ H1 H2; cbn [Apply]; rewrite H1; by split_and!; [|left|]]. intros rules Hr _. exists []. cbn [app Apply].
      by rewrite take_drop. }
  pose proof (ParseCoreOverride_parsed decode text o Hp) as P. intros [Hc [Hi Hr]%app_nil]%app_nil. split; [|split].
  - unfold inbound_losses in Hi. destruct (patch o !! "inbounds") eqn:E; [done|].
    apply (applied_keeps o cfg n "inbounds" []); [done|cbn; by rewrite E|by apply away_from_prepends].
  - intros rules Hrules Hn. change ["route"; "rules"] with (path_keys "route.rules"). rewrite applied_at;
      [|done|apply (bool_decide_unpack _); by vm_compute|by apply route_kept]. change (path_keys "route.rules") with ["route"; "rules"].
    rewrite Hrules. destruct (prepend o !! "route.rules") as [items|]; [|exists []; cbn [app]; by rewrite take_drop].
    exists (omap map_of items). cbn [spliced]. unfold splice, clamp, guard_index. rewrite bool_decide_true by done.
    by rewrite Nat.max_0_l, Nat.min_l.
  - intros Ha Hctl Hsec. rewrite bool_decide_false in Hc by done.
    assert (Hl : clashAPILosses o use = []) by by destruct (clashAPILosses o use).
    pose proof (controller_kept o use Ha Hl) as Kc. pose proof (secret_kept o use Hl) as Ks.
    pose proof (applied_says o cfg n (clash_path "external_controller")) as Ac. pose proof (applied_says o cfg n (clash_path "secret")) as As.
    assert (Hd : forall k p, is_Some (prepend o !! p) -> diverge (path_keys p) (clash_path k) = true).
    { intros k p [items Hit]. pose proof (pa_path o P p items Hit) as Hin. unfold coreOverridePrependPaths in Hin.
      rewrite !elem_of_cons, elem_of_nil in Hin. by destruct Hin as [->|[->|[->|[->|[]]]]]. }
    cbv zeta. apply and_assoc. split.
    + destruct (says _ (clash_path "external_controller")); [|destruct Kc as [Kc E]|done].
      * rewrite (Ac (Hd _)), Hctl. split; [done|by left].
      * rewrite Ac, <- E. rewrite <- E in Kc. split; [done|by apply widened_is_named].
    + destruct (says _ (clash_path "secret")); [by rewrite (As (Hd _))|by rewrite As|done].
Qed.

(** An override is refused for a route rule of its own exactly when that rule sends to an outbound
    the patched configuration does not have. *)
Theorem own_rules_send_to_what_exists cfg text n o : ParseCoreOverride decode text = inr (Some o) ->
  (exists cfg', ApplyCoreOverride decode cfg text n = inr cfg') <->
  forall r, r ∈ own_rules o ->
    let tag := get_str (default ∅ (map_of r)) "outbound" in
    tag = "" \/ exists ob, (ob ∈ forEachObject (Apply (Some o) cfg n !! "outbounds") \/
                            ob ∈ forEachObject (Apply (Some o) cfg n !! "endpoints")) /\ get_str ob "tag" = tag.
Proof.
  intros Hp. setoid_rewrite ApplyCoreOverride_inr. rewrite Hp.
  assert (Hall : forall i rs c, (exists j, each (check_rule (config_tags c)) i rs = inr j) <->
            forall r, r ∈ rs -> get_str (default ∅ (map_of r)) "outbound" = "" \/ get_str (default ∅ (map_of r)) "outbound" ∈ config_tags c).
  { intros i rs c. revert i. induction rs as [|r rs IH]; intros i.
    - split; [intros _ r Hr; by apply elem_of_nil in Hr|intros _; by exists i].
    - setoid_rewrite each_step. setoid_rewrite elem_of_cons. unfold check_rule at 1. setoid_rewrite seq_inr. setoid_rewrite refuse_ok.
      setoid_rewrite andb_false_iff. setoid_rewrite negb_false_iff. setoid_rewrite bool_decide_eq_true. split.
      + intros (j & s & [Hr _] & Hrs) x [->|Hx]; [done|]. apply (proj1 (IH s)); [by exists j|done].
      + intros H. destruct (proj2 (IH (S i))) as [j Hj]; [intros x Hx; apply H; by right|]. exists j, (S i). split; [|done].
        split; [apply H; by left|done]. }
  assert (Htag : forall t c, t <> "" -> t ∈ config_tags c <-> exists ob, (ob ∈ forEachObject (c !! "outbounds") \/ ob ∈ forEachObject (c !! "endpoints")) /\ get_str ob "tag" = t).
  { intros t c Ht. unfold config_tags. rewrite list_elem_of_filter, list_elem_of_fmap. setoid_rewrite elem_of_app. naive_solver. }
  transitivity (exists j, each (check_rule (config_tags (Apply (Some o) cfg n))) 0 (own_rules o) = inr j).
  - split.
    + intros (cfg' & o' & [= <-] & -> & H). cbn [checkRuleOutbounds] in H. apply bind_inr in H as (j & H & _). by exists j.
    + intros [j H]. exists (Apply (Some o) cfg n), (Some o). split_and!; [done|done|]. cbn [checkRuleOutbounds]. by rewrite H.
  - rewrite Hall. apply forall_proper; intros r. apply forall_proper; intros Hr. cbn zeta.
    destruct (decide (get_str (default ∅ (map_of r)) "outbound" = "")) as [E|E]; [naive_solver|]. rewrite Htag by done. naive_solver.
Qed.
End theorems.

(** ** A configuration and an override of it *)
Definition rule_to (o : string) : obj := object [("outbound", AString o)].
Definition small_config : obj :=
  object [("inbounds", AMaps [object [("tag", AString ProbeInboundTag)]]);
          ("outbounds", AMaps [object [("tag", AString "direct")]; object [("tag", AString "vpn")]]);
          ("route", AMap (object [("rules", AMaps [rule_to "guard"; rule_to "vpn"])]));
          ("experimental", AMap (object [("clash_api", AMap (object [("external_controller", AString "127.0.0.1:9090"); ("secret", AString "s")]))]))].
Definition override_root : any :=
  AMap (object [("prepend", AMap (object [("route.rules", AList [AMap (rule_to "direct")])]));
                ("log", AMap (object [("level", AString "info"); ("output", ANil)]));
                ("experimental", AMap (object [("clash_api", AMap (object [("external_controller", AString ":9090")]))]))]).
Definition decode_one (text : string) : option (any * bool) := if bool_decide (text = "{}") then Some (override_root, true) else None.
Definition small_override : CoreOverride :=
  match read_override override_root with inr o => o | inl _ => mkOverride ∅ ∅ end.
Definition small_use : DaemonUse := mkUse "127.0.0.1:9090" "s" true.
Lemma small_parses : ParseCoreOverride decode_one "{}" = inr (Some small_override).
Proof. vm_compute. reflexivity. Qed.
Lemma small_applies : ApplyCoreOverride decode_one small_config "{}" 1 = inr (Apply (Some small_override) small_config 1).
Proof. vm_compute. reflexivity. Qed.

Lemma override_does_what_it_says_witness :
  at_path (Some (AMap (Apply (Some small_override) small_config 1))) ["log"; "output"] = None /\
  at_path (Some (AMap (Apply (Some small_override) small_config 1))) ["route"; "rules"] =
  Some (AMaps [rule_to "guard"; rule_to "direct"; rule_to "vpn"]).
Proof.
  pose proof (override_does_what_it_says decode_one small_config "{}" 1 _ _ small_parses small_applies) as [H1 H2]. split.
  - exact (H1 ["log"; "output"]).
  - apply (H2 "route.rules" [AMap (rule_to "direct")]). vm_compute. reflexivity.
Defined.
Lemma unreported_override_is_harmless_witness :
  Apply (Some small_override) small_config 1 !! "inbounds" = small_config !! "inbounds" /\
  let ctl := as_string (at_path (Some (AMap (Apply (Some small_override) small_config 1))) (clash_path "external_controller")) in
  ctl = ":9090" /\ OpenListeners (fun _ => "") (Some small_override) = ["Clash API controller on :9090"].
Proof.
  pose proof (unreported_override_is_harmless decode_one (fun _ => "") small_config "{}" 1 _ _ small_use small_parses small_applies eq_refl) as [H _].
  split; [exact H|]. cbv zeta. split; vm_compute; reflexivity.
Defined.
Lemma own_rules_send_to_what_exists_witness : exists cfg', ApplyCoreOverride decode_one small_config "{}" 1 = inr cfg'.
Proof.
  apply (own_rules_send_to_what_exists decode_one small_config "{}" 1 _ small_parses). intros r Hr.
  assert (E : own_rules small_override = [AMap (rule_to "direct")]) by (vm_compute; reflexivity).
  rewrite E in Hr. apply list_elem_of_singleton in Hr as ->. right. exists (object [("tag", AString "direct")]). split; [left|reflexivity].
  vm_compute. left.
Defined.
Example missing_outbound_refused :
  ApplyCoreOverride decode_one (delete "outbounds" small_config) "{}" 1 = inl (NoSuchOutbound 1 "direct").
Proof. vm_compute. reflexivity. Qed.
Example small_keys : Keys (Some small_override) = ["experimental"; "log"; "route"].
Proof. vm_compute. reflexivity. Qed.
