(* ===== verification/GenConfig.v ===== *)
(** * The engine's configuration

    [Generate] of [src/internal/generator/singbox.go] and the probe inbound of [probe.go], over the
    renderers of single connections ([Renderer], which [GenOutbound] implements): outbounds, endpoints
    and plugins, inbounds, route, DNS plane, cache, the 1.14 schema and the operator's override. Case
    folding, [decode] (JSON) and the hash of the probe password are arguments. *)
From S2P Require Import Prelude Util GoStrings GoText Netip Model Faults Dns Validate PbrLists Pbr.
From S2P Require Import Json GenSplit GenRoute GenOutbound GenDns Override.
Local Open Scope Z_scope.

Definition basePluginPort : Z := 17900.
Definition ByeDPIUID : Z := 65530.

Record Options := mkOptions {
  MixedPort : Z; ProbePort : Z; o_ClashAddr : string; o_ClashSecret : string; TunEnabled : bool; TunMTU : Z;
  TunAddr : string; CacheFile : string; RuleSetDetour : string; Hybrid : bool; KernelExcludeV4 : list string;
  KernelExcludeV6 : list string; NDMPolicies : gmap string Z; CoreVersion : string; o_CoreOverride : string
}.
Record Plugin := mkPlugin { pl_Endpoint : Endpoint; SOCKSPort : Z }.
Record Result := mkResult { Config : obj; Plugins : list Plugin }.
Inductive gen_error := BadProfile (f : fault) | BadEndpoint (id : string) (why : render_error) | PolicyNotRead (name : string) | BadOverride (e : override_error).
Definition tag_error {E A} (f : E -> gen_error) (m : E + A) : gen_error + A := match m with inl e => inl (f e) | inr a => inr a end.

(** ** The probe inbound *)
Section probe.
Context (sha256 : bytes -> bytes).
Definition ProbeUser (tag : string) : string := "x-" +:+ tag.
Definition hex_byte (b : Z) : bytes := [hex_digit (b / 16); hex_digit (b mod 16)].
Definition ProbePassword (clashSecret : string) : string :=
  unstr (concat (hex_byte <$> take 16 (sha256 (str "wayhop-probe-in" ++ 0 :: str clashSecret)))).
Definition obj_tags (l : list obj) : list string := filter (fun t => t <> "") ((fun o => get_str o "tag") <$> l).
Definition probeExitTags (outbounds endpoints : list obj) : list string := obj_tags outbounds ++ obj_tags endpoints.
Definition probeInbound (port : Z) (secret : string) (tags : list string) : option obj :=
  if (port <=? 0) || nil tags then None
  else Some (object [("type", AString "mixed"); ("tag", AString ProbeInboundTag); ("listen", AString "127.0.0.1");
    ("listen_port", AInt port);
    ("users", AMaps ((fun t => object [("username", AString (ProbeUser t)); ("password", AString (ProbePassword secret))]) <$> tags))]).
Definition probe_rule (t : string) : obj :=
  object [("inbound", AStrings [ProbeInboundTag]); ("auth_user", AStrings [ProbeUser t]); ("action", AString "route"); ("outbound", AString t)].
Definition probeRules (port : Z) (secret : string) (tags : list string) : list obj :=
  match probeInbound port secret tags with None => [] | Some _ => probe_rule <$> tags end.
Definition ProbeFor (port : Z) (secret : string) (outbounds endpoints : list obj) : option obj * list obj :=
  let tags := probeExitTags outbounds endpoints in (probeInbound port secret tags, probeRules port secret tags).
Definition isProbeRule (r : obj) : bool :=
  match r !! "inbound" with
  | Some (AStrings l) => bool_decide (l = [ProbeInboundTag])
  | Some (AList [AString s]) => bool_decide (s = ProbeInboundTag)
  | _ => false
  end.
Definition LeadingProbeRules (cfg : obj) : nat :=
  (fix go (l : list obj) : nat := match l with r :: l => if isProbeRule r then S (go l) else 0%nat | [] => 0%nat end)
    (forEachObject (default ∅ (as_object (cfg !! "route")) !! "rules")).

(** ** Outbounds, endpoints, plugins *)
Section generate.
Context (unicode_lower unicode_upper : bytes -> bytes) (unicode_fold : bytes -> bytes -> bool).
Context (proto_problem : Endpoint -> option string) (decode : string -> option (any * bool)).
Context {R : Renderer}.

Record emitted := mkEmitted { em_out : list obj; em_end : list obj; em_plug : list Plugin }.
#[export] Instance eta_emitted : Eta emitted := fun st => mkEmitted (em_out st) (em_end st) (em_plug st).
Definition direct_outbound : obj := object [("type", AString "direct"); ("tag", AString OutboundDirect)].
Definition bound_outbound (id iface : string) : obj :=
  object [("type", AString "direct"); ("tag", AString id); ("bind_interface", AString iface)].
Definition socks_outbound (id : string) (port : Z) : obj :=
  object [("type", AString "socks"); ("tag", AString id); ("server", AString "127.0.0.1"); ("server_port", AInt port); ("version", AString "5")].
Definition emit (opts : Options) (omit : string -> bool) (st : emitted) (e : Endpoint) : gen_error + emitted :=
  let put ob := st <| em_out := em_out st ++ [ob] |> in
  if negb (ep_Enabled e) then inr st
  else if bool_decide (ep_Engine e = EngineAmneziaWG) then
    let st' := if omit (ep_ID e) then st else put (bound_outbound (ep_ID e) (AWGIface (ep_ID e))) in
    inr (st' <| em_plug := em_plug st ++ [mkPlugin e 0] |>)
  else if bool_decide (ep_Engine e = EngineExternal) then
    inr (if omit (ep_ID e) then st else put (bound_outbound (ep_ID e) (get_str (ep_Params e) "interface")))
  else if negb (bool_decide (ep_Engine e = EngineSingBox)) then
    let port := basePluginPort + Z.of_nat (length (em_plug st)) in
    inr ((put (socks_outbound (ep_ID e) port)) <| em_plug := em_plug st ++ [mkPlugin e port] |>)
  else if bool_decide (ep_Protocol e ∈ [ProtoOpenVPN; ProtoOpenConnect]) then
    ep ← tag_error (BadEndpoint (ep_ID e))
           ((if bool_decide (ep_Protocol e = ProtoOpenConnect) then openconnectEndpointFor else openvpnEndpointFor) e (CoreVersion opts));
    inr (st <| em_end := em_end st ++ [ep] |>)
  else if bool_decide (ep_Protocol e = ProtoWireGuard) then
    ep ← tag_error (BadEndpoint (ep_ID e)) (endpointFor e);
    inr (st <| em_end := em_end st ++ [ep] |>)
  else
    _ ← refuse (bool_decide (ep_Protocol e = ProtoSnell) && negb (bool_decide (CoreVersion opts = ""))
                && (coreMinor (CoreVersion opts) <? snellMinMinor))
          (BadEndpoint (ep_ID e) (CoreTooOld "Snell" (first_line (CoreVersion opts))));
    ob ← tag_error (BadEndpoint (ep_ID e)) (OutboundForCore e (CoreVersion opts));
    inr (put ob).
Definition omit_group (p : Profile) (hybrid : bool) (reachable : gset string) (g : Group) : bool :=
  hybrid && kernelEgress p (gr_ID g) && negb (bool_decide (gr_ID g ∈ reachable)).
Definition kept_groups (p : Profile) (hybrid : bool) (reachable : gset string) : list Group :=
  filter (fun g => omit_group p hybrid reachable g = false) (Groups p).

(** ** Inbounds *)
Definition tun_inbound (opts : Options) (plugins : list Plugin) : obj :=
  let mtu := if TunMTU opts <=? 0 then 1500 else TunMTU opts in
  let addr := if bool_decide (TunAddr opts = "") then "172.31.3.1/30" else TunAddr opts in
  let addrs := addr :: (if Hybrid opts then [] else ["fdfe:dcba:9876::1/126"]) in
  let tun := object [("type", AString "tun"); ("tag", AString "tun-in"); ("address", AStrings addrs); ("mtu", AInt mtu);
                     ("auto_route", ABool true); ("auto_redirect", ABool true); ("stack", AString "system")] in
  let ex := KernelExcludeV4 opts ++ KernelExcludeV6 opts in
  let tun := set_if (Hybrid opts && negb (nil ex)) "route_exclude_address" (AStrings ex) tun in
  set_if (existsb (fun pl => bool_decide (ep_Engine (pl_Endpoint pl) = EngineByeDPI)) plugins) "exclude_uid" (AInts [ByeDPIUID]) tun.
Definition mixed_inbound (port : Z) : obj :=
  object [("type", AString "mixed"); ("tag", AString "mixed-in"); ("listen", AString "127.0.0.1"); ("listen_port", AInt port)].
(** The probe users' exits: none where a plugin listens on the probe's port. *)
Definition probe_tags (opts : Options) (outbounds endpoints : list obj) (plugins : list Plugin) : list string :=
  if (basePluginPort <=? ProbePort opts) && (ProbePort opts <? basePluginPort + Z.of_nat (length plugins)) then []
  else probeExitTags outbounds endpoints.
Definition inbounds (opts : Options) (plugins : list Plugin) (tags : list string) : list obj :=
  mixed_inbound (MixedPort opts) :: (if TunEnabled opts then [tun_inbound opts plugins] else [])
  ++ option_list (probeInbound (ProbePort opts) (o_ClashSecret opts) tags).

(** ** Route and DNS *)
Definition bypass_rule (bp : list string) : obj :=
  object [("ip_cidr", AStrings bp); ("action", AString "route"); ("outbound", AString OutboundDirect)].
Definition guards (p : Profile) (opts : Options) (tags : list string) : list obj :=
  probeRules (ProbePort opts) (o_ClashSecret opts) tags
  ++ (if TunEnabled opts then [object [("action", AString "sniff")]] else [])
  ++ (match endpointBypass p with [] => [] | bp => [bypass_rule bp] end).
Definition set_tags (sets : list obj) : gset string := list_to_set (obj_tags sets).
Definition dns_plane (p : Profile) (opts : Options) (sets : list obj) : option (obj * list obj) :=
  d ← DNS p;
  if dns_Enabled d then Some (dnsFrom unicode_lower p d (TunEnabled opts) (Hybrid opts) (CoreVersion opts) (set_tags sets)) else None.
Record routing := mkRouting { rt_route : obj; rt_sets : list obj; rt_dns : option obj; rt_guards : nat }.
Definition routing_of (p : Profile) (opts : Options) (tags : list string) : routing :=
  let '(route, geoSets, blockDefault) := routeFrom unicode_lower unicode_fold p (Hybrid opts) in
  let '(sets, listRules) := routingFrom unicode_lower unicode_fold p (Hybrid opts) (RuleSetDetour opts) in
  let sets := geoSets ++ sets in
  let plane := dns_plane p opts sets in
  let sets := sets ++ match plane with Some (_, dnsSets) => dnsSets | None => [] end in
  let route := set_if (negb (nil sets)) "rule_set" (AMaps sets) route in
  let gs := guards p opts tags in
  let rules := gs ++ as_objects (route !! "rules") ++ listRules ++ (if blockDefault then [blockAllRule] else []) in
  let route := set_if (negb (nil rules)) "rules" (AMaps rules) route in
  let route := match plane with
               | Some (block, _) =>
                   let rtag := dnsDefaultResolverTag unicode_lower block in
                   set_if (negb (bool_decide (rtag = ""))) "default_domain_resolver" (AMap (object [("server", AString rtag)])) route
               | None => route
               end in
  mkRouting route sets (fst <$> plane) (length gs).

(** ** The rest of the configuration *)
Definition cache_file (opts : Options) (dns : bool) : obj :=
  set_if dns "store_fakeip" (ABool true) (set_str "path" (CacheFile opts) (object [("enabled", ABool true)])).
Definition experimental (opts : Options) (cached dns : bool) : obj :=
  let exp := set_if (negb (bool_decide (o_ClashAddr opts = ""))) "clash_api"
    (AMap (object [("external_controller", AString (o_ClashAddr opts)); ("secret", AString (o_ClashSecret opts))])) ∅ in
  set_if cached "cache_file" (AMap (cache_file opts dns)) exp.
Definition assemble (opts : Options) (outbounds endpoints ins : list obj) (groupsEmitted : bool) (r : routing) : obj :=
  let dns := bool_decide (is_Some (rt_dns r)) in
  let cached := negb (nil (rt_sets r)) || groupsEmitted || dns in
  let cfg := object [("outbounds", AMaps outbounds)] in
  let cfg := set_if (negb (nil endpoints)) "endpoints" (AMaps endpoints) cfg in
  let cfg := <["route" := AMap (rt_route r)]> (<["inbounds" := AMaps ins]> cfg) in
  let cfg := match rt_dns r with Some block => <["dns" := AMap block]> cfg | None => cfg end in
  let cfg := <["log" := AMap (object [("level", AString "warn"); ("timestamp", ABool true)])]> cfg in
  let exp := experimental opts cached dns in
  set_if (negb (is_empty exp)) "experimental" (AMap exp) cfg.

(** Everything up to the schema fits. *)
Definition reachable_of (p : Profile) (opts : Options) : gset string := if Hybrid opts then hybridReachable unicode_lower p else ∅.
Record built := mkBuilt { bu_out : list obj; bu_end : list obj; bu_plug : list Plugin; bu_routing : routing; bu_config : obj }.
Definition build (p : Profile) (opts : Options) : gen_error + built :=
  _ ← match Validate.Validate unicode_lower unicode_upper proto_problem p with Some f => inl (BadProfile f) | None => inr tt end;
  let reachable := reachable_of p opts in
  let omit id := Hybrid opts && negb (bool_decide (id ∈ reachable)) in
  st ← each (emit opts omit) (mkEmitted [direct_outbound] [] []) (Endpoints p);
  let groups := kept_groups p (Hybrid opts) reachable in
  policies ← tag_error PolicyNotRead (ndmPolicyOutbounds p (NDMPolicies opts));
  let outbounds := em_out st ++ (groupOutbound <$> groups) ++ policies in
  let tags := probe_tags opts outbounds (em_end st) (em_plug st) in
  let ins := inbounds opts (em_plug st) tags in
  let r := routing_of p opts tags in
  inr (mkBuilt outbounds (em_end st) (em_plug st) r (assemble opts outbounds (em_end st) ins (negb (nil groups)) r)).
Definition fit (opts : Options) (cfg : obj) : obj :=
  FitTUNToCore (if modernCore (CoreVersion opts) then applyModernCoreSchema cfg else cfg) (CoreVersion opts).
Definition Generate (p : Profile) (opts : Options) : gen_error + Result :=
  b ← build p opts;
  cfg ← tag_error BadOverride (ApplyCoreOverride decode (fit opts (bu_config b)) (o_CoreOverride opts) (rt_guards (bu_routing b)));
  inr (mkResult cfg (bu_plug b)).
End generate.
End probe.
