(* ===== verification/GenEmit.v ===== *)
(** * A configuration without dangling references

    [wired]: every name the configuration refers to is one it defines. The engine refuses, or fails every
    connection of, a configuration that is not. The parts are read from the finished configuration, by
    the keys the engine reads them at.

    Further on: what is emitted. *)
From S2P Require Import Prelude Util GoStrings Netip GoText Model Faults Dns PbrLists Validate Pbr Json.
From S2P Require Import GenSplit.
From S2P Require Import GenRoute GenOutbound GenDns Override GenConfig.
Local Open Scope Z_scope.

Definition text_at (m : obj) (k : string) : option string := match m !! k with Some (AString s) => Some s | _ => None end.
(** The rule sets a rule refers to, those of a logical rule's parts included. *)
Definition set_refs (r : obj) : list string :=
  as_strings (r !! "rule_set") ++ (sub ← as_objects (r !! "rules"); as_strings (sub !! "rule_set")).

Record wired_parts (outs ends : list obj) (route dns : obj) (clients : list obj) : Prop := {
  (* outbounds *)
  w_final : exists t, text_at route "final" = Some t /\ t ∈ probeExitTags outs ends;
  w_rules : forall r t, r ∈ as_objects (route !! "rules") -> text_at r "outbound" = Some t -> t ∈ probeExitTags outs ends;
  w_members : forall o t, o ∈ outs -> t ∈ as_strings (o !! "outbounds") -> t ∈ probeExitTags outs ends;
  w_downloads : forall s t, s ∈ as_objects (route !! "rule_set") -> text_at s "download_detour" = Some t -> t ∈ probeExitTags outs ends;
  w_clients : forall c t, c ∈ clients -> text_at c "detour" = Some t -> t ∈ probeExitTags outs ends;
  w_detours : forall s t, s ∈ as_objects (dns !! "servers") -> text_at s "detour" = Some t -> t ∈ probeExitTags outs ends;
  w_vpn : forall s t, s ∈ as_objects (dns !! "servers") -> text_at s "endpoint" = Some t -> t ∈ obj_tags ends;
  (* the clients sets are fetched with, and the sets *)
  w_http : forall s t, s ∈ as_objects (route !! "rule_set") -> text_at s "http_client" = Some t -> t ∈ obj_tags clients;
  w_sets : forall r t, r ∈ as_objects (route !! "rules") -> t ∈ set_refs r -> t ∈ obj_tags (as_objects (route !! "rule_set"));
  w_dns_sets : forall r t, r ∈ as_objects (dns !! "rules") -> t ∈ set_refs r -> t ∈ obj_tags (as_objects (route !! "rule_set"));
  (* resolvers *)
  w_servers : forall r t, r ∈ as_objects (dns !! "rules") -> text_at r "server" = Some t -> t ∈ obj_tags (as_objects (dns !! "servers"));
  w_dns_final : forall t, text_at dns "final" = Some t -> t ∈ obj_tags (as_objects (dns !! "servers"));
  w_bootstrap : forall s t, s ∈ as_objects (dns !! "servers") -> text_at s "domain_resolver" = Some t ->
    t ∈ obj_tags (as_objects (dns !! "servers"));
  w_resolver : forall m t, as_object (route !! "default_domain_resolver") = Some m -> text_at m "server" = Some t ->
    t ∈ obj_tags (as_objects (dns !! "servers"))
}.
Definition part (cfg : obj) (k : string) : obj := default ∅ (as_object (cfg !! k)).
Definition wired (cfg : obj) : Prop :=
  wired_parts (as_objects (cfg !! "outbounds")) (as_objects (cfg !! "endpoints")) (part cfg "route") (part cfg "dns")
    (as_objects (cfg !! "http_clients")).

(** ** Facts *)
Lemma elem_of_obj_tags l t : t ∈ obj_tags l <-> t <> "" /\ exists o, o ∈ l /\ get_str o "tag" = t.
Proof. unfold obj_tags. rewrite list_elem_of_filter, list_elem_of_fmap. naive_solver. Qed.
Lemma obj_tags_app l k : obj_tags (l ++ k) = obj_tags l ++ obj_tags k.
Proof. unfold obj_tags. by rewrite fmap_app, filter_app. Qed.
Lemma elem_of_exits outs ends t : t ∈ probeExitTags outs ends <->
  t <> "" /\ exists o, (o ∈ outs \/ o ∈ ends) /\ get_str o "tag" = t.
Proof. unfold probeExitTags. rewrite elem_of_app, !elem_of_obj_tags. naive_solver. Qed.
Lemma tag_in l o t : o ∈ l -> get_str o "tag" = t -> t <> "" -> t ∈ obj_tags l.
Proof. rewrite elem_of_obj_tags. eauto. Qed.
Lemma config_tags_exits cfg : forEachObject (cfg !! "outbounds") = as_objects (cfg !! "outbounds") ->
  forEachObject (cfg !! "endpoints") = as_objects (cfg !! "endpoints") ->
  config_tags cfg = probeExitTags (as_objects (cfg !! "outbounds")) (as_objects (cfg !! "endpoints")).
Proof. intros H1 H2. unfold config_tags, probeExitTags, obj_tags. by rewrite H1, H2, fmap_app, filter_app. Qed.

(** * What is emitted

    The outbounds and endpoints [Generate] makes of a profile's connections, groups and policies: which
    there are, under which tags, and what they refer to. *)

Definition tag_of (o : obj) : string := get_str o "tag".
Lemma stands_tag e o : stands_for e o -> tag_of o = ep_ID e.
Proof. intros (H & _ & _). unfold tag_of, get_str. by rewrite H. Qed.

Section emit.
Context (opts : Options) (omit : string -> bool) {R : Renderer} {RL : RendererLaws R}.
Definition kernel_engine (e : Endpoint) : bool := bool_decide (ep_Engine e ∈ [EngineAmneziaWG; EngineExternal]).
Definition emits (e : Endpoint) : bool := ep_Enabled e && negb (kernel_engine e && omit (ep_ID e)).
Definition vpn_endpoint (e : Endpoint) : bool :=
  bool_decide (ep_Engine e = EngineSingBox) && bool_decide (ep_Protocol e ∈ [ProtoOpenVPN; ProtoOpenConnect]).

Lemma bound_stands e iface : stands_for e (bound_outbound (ep_ID e) iface).
Proof. by split_and!. Qed.
Lemma socks_stands e port : stands_for e (socks_outbound (ep_ID e) port).
Proof. by split_and!. Qed.
(** What one connection adds. *)
Definition adds (e : Endpoint) (st st' : emitted) : Prop :=
  exists outs ends, em_out st' = em_out st ++ outs /\ em_end st' = em_end st ++ ends /\
    Forall (stands_for e) (outs ++ ends) /\ length (outs ++ ends) = (if emits e then 1%nat else 0%nat) /\
    (vpn_endpoint e = true -> outs = []).
Lemma tag_error_inr {E A} (f : E -> gen_error) (m : E + A) a : tag_error f m = inr a <-> m = inr a.
Proof. destruct m; cbn; naive_solver. Qed.
Lemma adds_out e st st' o : emits e = true -> vpn_endpoint e = false -> stands_for e o ->
  em_out st' = em_out st ++ [o] -> em_end st' = em_end st -> adds e st st'.
Proof. intros He Hv Ho H1 H2. exists [o], []. rewrite app_nil_r, He. split_and!; [done..|by constructor|done|]. by rewrite Hv. Qed.
Lemma adds_end e st st' o : emits e = true -> stands_for e o ->
  em_out st' = em_out st -> em_end st' = em_end st ++ [o] -> adds e st st'.
Proof. intros He Ho H1 H2. exists [], [o]. rewrite app_nil_r, He. split_and!; [done..|by constructor|done|done]. Qed.
Lemma adds_none e st st' : emits e = false -> em_out st' = em_out st -> em_end st' = em_end st -> adds e st st'.
Proof. intros He H1 H2. exists [], []. rewrite !app_nil_r, He. by split_and!. Qed.
Lemma emit_ok st e st' : emit opts omit st e = inr st' -> adds e st st'.
Proof.
  unfold emit. destruct (ep_Enabled e) eqn:En; cbn [negb].
  2:{ intros [= <-]. apply adds_none; [|done..]. unfold emits. by rewrite En. }
  assert (Hem : kernel_engine e = false -> emits e = true) by (intros Hk; unfold emits; by rewrite En, Hk).
  assert (Hk : kernel_engine e = true -> emits e = negb (omit (ep_ID e))) by (intros Hk; unfold emits; by rewrite En, Hk).
  destruct (bool_decide_reflect (ep_Engine e = EngineAmneziaWG)) as [Ha|Ha];
    [|destruct (bool_decide_reflect (ep_Engine e = EngineExternal)) as [Hx|Hx];
    [|destruct (bool_decide_reflect (ep_Engine e = EngineSingBox)) as [Hs|Hs]; cbn [negb]]].
  - assert (Hke : kernel_engine e = true) by (apply bool_decide_true; rewrite Ha; left).
    intros [= <-]. specialize (Hk Hke). destruct (omit (ep_ID e)); [by apply adds_none|].
    eapply adds_out; [done|unfold vpn_endpoint; rewrite bool_decide_false; [done|by rewrite Ha]|apply bound_stands|done..].
  - assert (Hke : kernel_engine e = true) by (apply bool_decide_true; rewrite Hx; right; left).
    intros [= <-]. specialize (Hk Hke). destruct (omit (ep_ID e)); [by apply adds_none|].
    eapply adds_out; [done|unfold vpn_endpoint; rewrite bool_decide_false; [done|by rewrite Hx]|apply bound_stands|done..].
  - assert (Hke : emits e = true) by (apply Hem, bool_decide_false; rewrite Hs; intros [H|[H|H%elem_of_nil]%elem_of_cons]%elem_of_cons; done).
    case_bool_decide as Hv; [|case_bool_decide as Hw].
    + intros (o & Ho & [= <-])%bind_inr. apply tag_error_inr in Ho.
      eapply adds_end; [done| |done..]. case_bool_decide; [by eapply openconnect_stands|by eapply openvpn_stands].
    + intros (o & Ho & [= <-])%bind_inr. apply tag_error_inr in Ho. eapply adds_end; [done|by eapply endpointFor_stands|done..].
    + rewrite seq_inr. intros [_ (o & Ho & [= <-])%bind_inr]. apply tag_error_inr in Ho.
      eapply adds_out; [done| |by eapply OutboundForCore_stands|done..]. unfold vpn_endpoint. by rewrite (bool_decide_false (_ ∈ _)), andb_false_r.
  - intros [= <-]. assert (Hke : emits e = true) by (apply Hem, bool_decide_false; intros [H|[H|H%elem_of_nil]%elem_of_cons]%elem_of_cons; done).
    eapply adds_out; [done|unfold vpn_endpoint; by rewrite bool_decide_false|apply socks_stands|done..].
Qed.

(** What all of them add. *)
Record emission (l : list Endpoint) (st st' : emitted) : Prop := {
  es_tags : (tag_of <$> em_out st' ++ em_end st') ≡ₚ (tag_of <$> em_out st ++ em_end st) ++ (ep_ID <$> filter (fun e => emits e = true) l);
  es_plain : forall o, o ∈ em_out st' -> o ∈ em_out st \/ (o !! "outbounds" = None /\ o !! "detour" = None);
  es_vpn : forall e, e ∈ l -> emits e = true -> vpn_endpoint e = true -> ep_ID e ∈ tag_of <$> em_end st';
  es_more : em_end st ⊆ em_end st'
}.
Lemma adds_tags e st st' : adds e st st' ->
  (tag_of <$> em_out st' ++ em_end st') ≡ₚ (tag_of <$> em_out st ++ em_end st) ++ (ep_ID <$> (if emits e then [e] else [])).
Proof.
  intros (outs & ends & -> & -> & Hs & Hl & _).
  assert (E : tag_of <$> outs ++ ends = ep_ID <$> (if emits e then [e] else [])).
  { destruct (outs ++ ends) as [|o [|o' r]]; destruct (emits e); try done. cbn. f_equal. apply stands_tag. by inversion Hs. }
  rewrite <- E, <- fmap_app. apply Permutation_map. rewrite <- !app_assoc. apply Permutation_app_head.
  rewrite !app_assoc. apply Permutation_app_tail, Permutation_app_comm.
Qed.
Lemma emit_each l st st' : each (emit opts omit) st l = inr st' -> emission l st st'.
Proof.
  revert st. induction l as [|e l IH]; intros st.
  - intros [= <-]. split; [by rewrite app_nil_r|by left| |done]. intros e He. by apply elem_of_nil in He.
  - rewrite each_step. intros (s1 & H1%emit_ok & H2%IH). destruct H2 as [T2 P2 V2 M2]. pose proof (adds_tags _ _ _ H1) as T1.
    destruct H1 as (outs & ends & E1 & E2 & Hs & Hl & Hv). split.
    + rewrite T2, T1, <- app_assoc. apply Permutation_app_head. rewrite <- fmap_app. rewrite filter_cons.
      destruct (emits e); [rewrite decide_True by done|rewrite decide_False by done]; done.
    + intros o Ho. apply P2 in Ho as [Ho|Ho]; [|by right]. rewrite E1 in Ho. apply elem_of_app in Ho as [Ho|Ho]; [by left|right].
      rewrite Forall_forall in Hs. destruct (Hs o) as (_ & ? & ?); [apply elem_of_app; by left|done].
    + intros x [->|Hx]%elem_of_cons He Hvp; [|by apply V2]. rewrite (Hv Hvp), He in Hl. cbn [app] in Hl.
      destruct ends as [|o [|]]; try done. apply list_elem_of_fmap. exists o. split.
      * symmetry. apply stands_tag. rewrite Forall_forall in Hs. apply Hs. apply elem_of_app. right. left.
      * apply M2. rewrite E2. apply elem_of_app. right. left.
    + etrans; [|exact M2]. rewrite E2. apply list_subseteq_app_l. done.
Qed.
End emit.
