(* ===== verification/GenResolve.v ===== *)
(** * What is referred to is emitted

    Of an accepted profile: the tags of the configuration, and that everything a rule, list, group or
    resolver may point at, and that stays with the engine, is one of them. *)
From stdpp Require Import relations.
From S2P Require Import Prelude Util GoStrings GoText Netip Model Faults Dns Validate ValidateSpec PbrLists Pbr.
From S2P Require Import Json GenSplit GenRoute GenDns Override GenOutbound GenConfig GenEmit.
Local Open Scope Z_scope.

Lemma sort_strings_same l : sort_strings l ≡ₚ l.
Proof. apply sorting.merge_sort_Permutation. Qed.
Lemma elem_of_policies p name : name ∈ NDMPoliciesInUse p <->
  exists rl, rl ∈ RoutingLists p /\ rl_Enabled rl = true /\ NDMPolicyName (rl_Outbound rl) = Some name.
Proof.
  unfold NDMPoliciesInUse. rewrite sort_strings_same, once_elem, list_elem_of_omap. split.
  - intros [(rl & Hin & H) _]. destruct (rl_Enabled rl) eqn:E; [|done]. by exists rl.
  - intros (rl & Hin & E & H). split; [|apply not_elem_of_empty]. exists rl. by rewrite E.
Qed.
Lemma policy_outbounds_ok marks names obs : policy_outbounds marks names = inr obs ->
  tag_of <$> obs = (fun n => NDMPolicyPrefix +:+ n) <$> names /\ Forall (fun o => o !! "outbounds" = None /\ o !! "detour" = None) obs.
Proof.
  revert obs. induction names as [|name names IH]; intros obs; cbn [policy_outbounds]; [intros [= <-]; by split|].
  rewrite bind_inr. intros (ob & H1 & (obs' & H2 & [= <-])%bind_inr). destruct (IH _ H2) as [E F]. cbn [fmap list_fmap]. unfold policy_outbound in H1.
  destruct (marks !! name) as [mark|]; [|done]. destruct (mark =? 0); [done|]. injection H1 as <-.
  split; [by f_equal|]. constructor; [by split|done].
Qed.
Lemma NDMPolicyName_Some o name : NDMPolicyName o = Some name -> o = NDMPolicyPrefix +:+ name.
Proof.
  unfold NDMPolicyName, CutPrefix. rewrite fmap_Some. intros (q & Hq & ->).
  assert (G : forall a b, strip_prefix a b = Some q -> b = a ++ q).
  { induction a as [|c a IH]; intros [|d b]; cbn [strip_prefix app]; try congruence. destruct (Z.eqb_spec c d); [|done]. intros H. by rewrite (IH _ H), e. }
  apply G in Hq. apply (inj str). rewrite str_app, str_unstr; [done|].
  pose proof (str_bytes o) as Hby. rewrite Hq in Hby. by apply Forall_app in Hby as [_ ?].
Qed.

Lemma find_by_in {A} (id : A -> string) l x : NoDup (id <$> l) -> x ∈ l -> find_by id (id x) l = Some x.
Proof.
  induction l as [|y l IH]; [intros _ Hx; by apply elem_of_nil in Hx|]. rewrite fmap_cons, NoDup_cons. intros [Hn Hd] Hx. cbn [find_by].
  case_bool_decide as E; apply elem_of_cons in Hx as [->|Hx]; try done; [|by apply IH].
  exfalso. apply Hn. rewrite E. by apply list_elem_of_fmap_2.
Qed.
Lemma group_tag g : tag_of (groupOutbound g) = gr_ID g.
Proof.
  unfold tag_of, get_str, groupOutbound. destruct (gr_Managed g); [by rewrite lookup_insert_ne|].
  rewrite set_if_other by done. case_bool_decide; [|by rewrite lookup_insert_ne].
  destruct (health_test (gr_Test g)) as [[[? ?] ?] ?]. by rewrite !lookup_insert_ne.
Qed.
Lemma group_members g : as_strings (groupOutbound g !! "outbounds") = gr_Members g.
Proof.
  unfold groupOutbound. destruct (gr_Managed g); [by rewrite lookup_insert_ne|].
  rewrite set_if_other by done. case_bool_decide; [|by rewrite lookup_insert_ne].
  destruct (health_test (gr_Test g)) as [[[? ?] ?] ?]. by rewrite !lookup_insert_ne.
Qed.

(** ** Names, and what a valid profile says of them *)
Section names.
Context (unicode_lower unicode_upper : bytes -> bytes) (unicode_fold : bytes -> bytes -> bool).
Context (proto_problem : Endpoint -> option string).
Abbreviation canonicalOutbound := (canonicalOutbound unicode_lower).
Abbreviation isBuiltin := (isBuiltin unicode_lower).
Lemma canonical_other o : isBuiltin o = false -> canonicalOutbound o = o.
Proof. unfold Dns.isBuiltin, GenSplit.canonicalOutbound. intros [-> ->]%orb_false_iff. done. Qed.
Lemma canonical_builtin o : isBuiltin o = true -> canonicalOutbound o = OutboundDirect \/ canonicalOutbound o = OutboundBlock.
Proof. unfold Dns.isBuiltin, GenSplit.canonicalOutbound. case_bool_decide; [by left|]. case_bool_decide; [by right|done]. Qed.
Lemma lower_builtin : lower unicode_lower OutboundDirect = OutboundDirect /\ lower unicode_lower OutboundBlock = OutboundBlock.
Proof. split; vm_compute; reflexivity. Qed.
Lemma isBlock_canonical (fold_lower : forall o, isBlock unicode_fold o = bool_decide (lower unicode_lower o = OutboundBlock)) o :
  isBlock unicode_fold o = bool_decide (canonicalOutbound o = OutboundBlock).
Proof.
  rewrite fold_lower. unfold GenSplit.canonicalOutbound. destruct lower_builtin as [Hd Hbl].
  destruct (bool_decide_reflect (lower unicode_lower o = OutboundDirect)) as [E|E]; [by rewrite E|].
  destruct (bool_decide_reflect (lower unicode_lower o = OutboundBlock)) as [E2|E2]; [done|].
  symmetry. apply bool_decide_false. intros ->. done.
Qed.
Context (p : Profile) (Hap : appliable unicode_lower unicode_upper proto_problem p).
Lemma NoDup_ids : NoDup (ep_ID <$> Endpoints p) /\ NoDup (gr_ID <$> Groups p) /\
  (forall id, id ∈ ep_ID <$> Endpoints p -> id ∈ gr_ID <$> Groups p -> False).
Proof.
  pose proof (ap_ids _ _ _ _ Hap) as H. unfold all_ids in H. apply NoDup_app in H as (H1 & Hd & H).
  apply NoDup_app in H as (H2 & _ & _). split_and!; [done|done|]. intros id Ha Hg. apply (Hd id Ha), elem_of_app. by left.
Qed.
Lemma endpoint_found e : e ∈ Endpoints p -> EndpointByID p (ep_ID e) = Some e.
Proof. intros He. apply find_by_in; [apply NoDup_ids|done]. Qed.
Lemma group_found g : g ∈ Groups p -> GroupByID p (gr_ID g) = Some g /\ EndpointByID p (gr_ID g) = None.
Proof.
  intros Hg. split; [apply find_by_in; [apply NoDup_ids|done]|]. apply find_by_None. intros He.
  destruct NoDup_ids as (_ & _ & Hd). apply (Hd _ He). by apply list_elem_of_fmap_2.
Qed.
Lemma live_named t : live p t -> t <> "" /\ isBuiltin t = false.
Proof.
  intros [(e & He & <- & _)|(g & -> & Hg)%list_elem_of_fmap].
  - pose proof (ap_endpoints _ _ _ _ Hap) as H. rewrite Forall_forall in H. by destruct (H e He) as (? & _ & ? & _).
  - pose proof (ap_groups _ _ _ _ Hap) as H. rewrite Forall_forall in H. by destruct (H g Hg) as (? & ? & _).
Qed.
Lemma root_of o : live p o -> root unicode_lower o = [o].
Proof.
  intros Hl. destruct (live_named o Hl) as [Hne Hnb]. unfold root. rewrite canonical_other by done. rewrite bool_decide_false; [done|].
  rewrite !elem_of_cons, elem_of_nil. destruct lower_builtin as [Hd Hbl]. intros [->|[->|[->|[]]]]; [| |done].
  all: unfold Dns.isBuiltin in Hnb; rewrite ?Hd, ?Hbl in Hnb; done.
Qed.
End names.
#[global] Arguments NoDup_ids {_ _ _ _} _.
#[global] Arguments endpoint_found {_ _ _ _} _ _ _.
#[global] Arguments group_found {_ _ _ _} _ _ _.
#[global] Arguments live_named {_ _ _ _} _ _ _.
#[global] Arguments root_of {_ _ _ _} _ _ _.

Section built.
Context (sha256 : bytes -> bytes) (unicode_lower unicode_upper : bytes -> bytes) (unicode_fold : bytes -> bytes -> bool).
Context (proto_problem : Endpoint -> option string).
Context {R : Renderer} {RL : RendererLaws R}.
Abbreviation build := (build sha256 unicode_lower unicode_upper unicode_fold proto_problem).
Abbreviation appliable := (appliable unicode_lower unicode_upper proto_problem).
Abbreviation goes := (goes unicode_lower).
Abbreviation canonicalOutbound := (canonicalOutbound unicode_lower).
Abbreviation reachable_of := (reachable_of unicode_lower).
Context (p : Profile) (opts : Options) (b : built) (Hb : build p opts = inr b).

Definition omitted (id : string) : bool := Hybrid opts && negb (bool_decide (id ∈ reachable_of p opts)).
Abbreviation kept := (kept_groups p (Hybrid opts) (reachable_of p opts)).
Abbreviation exits := (probeExitTags (bu_out b) (bu_end b)).
Lemma build_inv : appliable p /\ exists st obs,
  each (emit opts omitted) (mkEmitted [direct_outbound] [] []) (Endpoints p) = inr st /\
  policy_outbounds (NDMPolicies opts) (NDMPoliciesInUse p) = inr obs /\
  bu_out b = em_out st ++ (groupOutbound <$> kept) ++ obs /\ bu_end b = em_end st /\ bu_plug b = em_plug st /\
  bu_routing b = routing_of sha256 unicode_lower unicode_fold p opts (probe_tags opts (bu_out b) (bu_end b) (bu_plug b)) /\
  bu_config b = assemble opts (bu_out b) (bu_end b)
    (inbounds sha256 opts (bu_plug b) (probe_tags opts (bu_out b) (bu_end b) (bu_plug b))) (negb (nil kept)) (bu_routing b).
Proof.
  unfold GenConfig.build in Hb. rewrite seq_inr in Hb. destruct Hb as [Hv Hr]. split.
  - apply Validate_accepts_appliable. by destruct (Validate.Validate _ _ _ p).
  - apply bind_inr in Hr as (st & Hst & (obs & Hp%tag_error_inr & [= <-])%bind_inr). exists st, obs. by split_and!.
Qed.
Lemma built_tags :
  (tag_of <$> bu_out b ++ bu_end b) ≡ₚ OutboundDirect :: (ep_ID <$> filter (fun e => emits omitted e = true) (Endpoints p))
    ++ (gr_ID <$> kept) ++ ((fun n => NDMPolicyPrefix +:+ n) <$> NDMPoliciesInUse p).
Proof.
  destruct build_inv as (_ & st & obs & Hst & Hp & -> & -> & _). apply (emit_each opts omitted) in Hst as [T _ _ _].
  apply policy_outbounds_ok in Hp as [Ho _]. rewrite fmap_app in T. rewrite !fmap_app, Ho, <- list_fmap_compose.
  assert (Hg : (tag_of ∘ groupOutbound) <$> kept = gr_ID <$> kept) by (apply list_fmap_ext; intros i g _; apply group_tag).
  rewrite Hg. set (P := (fun n => NDMPolicyPrefix +:+ n) <$> NDMPoliciesInUse p).
  transitivity (((tag_of <$> em_out st) ++ (tag_of <$> em_end st)) ++ (gr_ID <$> kept) ++ P); [|by rewrite T].
  rewrite <- !app_assoc. apply Permutation_app_head. rewrite app_assoc. apply Permutation_app_comm.
Qed.
Lemma built_members o t : o ∈ bu_out b -> t ∈ as_strings (o !! "outbounds") -> exists g, g ∈ kept /\ t ∈ gr_Members g.
Proof.
  destruct build_inv as (_ & st & obs & Hst & Hp & -> & _). apply (emit_each opts omitted) in Hst as [_ P _ _].
  apply policy_outbounds_ok in Hp as [_ Fo]. rewrite Forall_forall in Fo. rewrite !elem_of_app. intros [Ho|[Ho|Ho]] Ht.
  - apply P in Ho as [Ho|[Ho _]]; [apply list_elem_of_singleton in Ho as ->|rewrite Ho in Ht]; by apply elem_of_nil in Ht.
  - apply list_elem_of_fmap in Ho as (g & -> & Hg). rewrite group_members in Ht. by exists g.
  - destruct (Fo o Ho) as [E _]. rewrite E in Ht. by apply elem_of_nil in Ht.
Qed.
Lemma elem_of_built t : t ∈ exits <-> t <> "" /\ t ∈ tag_of <$> bu_out b ++ bu_end b.
Proof. rewrite elem_of_exits, list_elem_of_fmap. setoid_rewrite elem_of_app. unfold tag_of. naive_solver. Qed.

(** ** References that resolve *)
Hypothesis fold_lower : forall o, isBlock unicode_fold o = bool_decide (lower unicode_lower o = OutboundBlock).
Abbreviation isBuiltin := (isBuiltin unicode_lower).
Lemma built_appliable : appliable p.
Proof. apply build_inv. Qed.
Let Hap := built_appliable.

(** Connections of the kernel's engines have an interface there. *)
Lemma kernel_engine_iface e : e ∈ Endpoints p -> kernel_engine e = true -> kernelIface e <> "".
Proof.
  intros He Hk. pose proof (ap_endpoints _ _ _ _ built_appliable) as H. rewrite Forall_forall in H. destruct (H e He) as (_ & _ & _ & Hc).
  unfold kernel_engine in Hk. apply bool_decide_eq_true in Hk. rewrite !elem_of_cons, elem_of_nil in Hk. unfold kernelIface.
  destruct Hk as [Ha|[Hx|[]]].
  - rewrite bool_decide_false by (by rewrite Ha). rewrite bool_decide_true by done. unfold AWGIface. done.
  - rewrite bool_decide_true by done. unfold endpoint_checks in Hc. rewrite !seq_inr in Hc. destruct Hc as (_ & _ & _ & _ & Hc).
    rewrite bool_decide_true in Hc by done. rewrite seq_inr, refuse_ok in Hc. destruct Hc as [Hbl _].
    change (Pbr.param_string e "interface") with (ByeDPI.param_string (ep_Params e) "interface"). intros E. rewrite E in Hbl. done.
Qed.
Lemma live_exit t : live p t -> (Hybrid opts = true -> t ∈ reachable_of p opts \/ kernelEgress p t = false) -> t ∈ exits.
Proof.
  intros Hl Hh. destruct (live_named Hap t Hl) as [Hne Hnb]. apply elem_of_built. split; [done|]. rewrite built_tags. apply elem_of_cons. right.
  rewrite !elem_of_app. destruct Hl as [(e & He & Hid & Hen)|(g & -> & Hg)%list_elem_of_fmap].
  - left. apply list_elem_of_fmap. exists e. split; [done|]. apply list_elem_of_filter. split; [|done]. unfold emits. rewrite Hen, Hid.
    destruct (kernel_engine e) eqn:Ek; [|done]. cbn [andb negb]. unfold omitted. destruct (Hybrid opts); [|done]. cbn [andb].
    destruct (Hh eq_refl) as [Hr|Hk]; [by rewrite bool_decide_true|exfalso].
    apply (kernel_engine_iface e He Ek). unfold kernelEgress in Hk. rewrite bool_decide_false in Hk.
    + destruct (NDMPolicyName t); [done|]. rewrite <- Hid, (endpoint_found Hap) in Hk by done. by case_bool_decide.
    + rewrite !elem_of_cons, elem_of_nil. destruct (lower_builtin unicode_lower) as [Hd Hbl]. intros [->|[->|[->|[]]]]; [| |done].
      all: unfold Dns.isBuiltin in Hnb; rewrite ?Hd, ?Hbl in Hnb; done.
  - right. left. apply list_elem_of_fmap_2. apply list_elem_of_filter. split; [|done]. unfold omit_group.
    destruct (Hybrid opts); [|done]. cbn [andb]. destruct (Hh eq_refl) as [Hr|Hk]; [by rewrite bool_decide_true, andb_false_r|by rewrite Hk].
Qed.
Lemma direct_exit : OutboundDirect ∈ exits.
Proof. apply elem_of_built. split; [done|]. rewrite built_tags. left. Qed.
Lemma goes_exit o : goes p o -> canonicalOutbound o <> OutboundBlock ->
  (Hybrid opts = true -> live p o -> isBuiltin o = false -> o ∈ reachable_of p opts) -> canonicalOutbound o ∈ exits.
Proof.
  intros Hg Hb' Hr. destruct (isBuiltin o) eqn:E.
  - destruct (canonical_builtin unicode_lower o E) as [->|H]; [apply direct_exit|done].
  - rewrite canonical_other by done. destruct Hg as [H|Hl]; [congruence|]. apply live_exit; [done|]. intros Hy. left. by apply Hr.
Qed.
Lemma policy_exit rl name : rl ∈ RoutingLists p -> rl_Enabled rl = true -> NDMPolicyName (rl_Outbound rl) = Some name ->
  rl_Outbound rl ∈ exits.
Proof.
  intros Hin En Hn. apply elem_of_built. pose proof (NDMPolicyName_Some _ _ Hn) as E. split; [by rewrite E|]. rewrite built_tags.
  apply elem_of_cons. right. rewrite !elem_of_app. do 2 right. rewrite E. apply (list_elem_of_fmap_2 (fun n => NDMPolicyPrefix +:+ n)).
  apply elem_of_policies. by exists rl.
Qed.
End built.
