(* ===== verification/GenRefs.v ===== *)
(** * The references of each part

    What the rules, sets and servers of a generated configuration refer to, part by part: sets made of
    names are there for the rules that use them, the sets of a list for its rule and for the DNS rules
    that name it, and servers for what asks them.

    Further on: the references of the DNS plane. *)
From S2P Require Import Prelude Util GoStrings Netip GoText Model Faults Dns PbrLists Validate ValidateSpec Pbr.
From S2P Require Import Json.
From S2P Require Import GenSplit GenRoute GenOutbound GenDns Override GenConfig GenEmit GenResolve.
Local Open Scope Z_scope.

(** ** Matches and their sets *)
Record plain_match (m : obj) : Prop := {
  pm_outbound : m !! "outbound" = None; pm_server : m !! "server" = None;
  pm_set : m !! "rule_set" = None; pm_rules : m !! "rules" = None
}.
Lemma plain_addIf m k vals : k ∉ ["outbound"; "server"; "rule_set"; "rules"] -> plain_match m -> plain_match (addIf m k vals).
Proof. rewrite !not_elem_of_cons. intros (? & ? & ? & ? & _) [? ? ? ?]. split; by rewrite addIf_other. Qed.
Lemma plain_set_if c m k v : k ∉ ["outbound"; "server"; "rule_set"; "rules"] -> plain_match m -> plain_match (set_if c k v m).
Proof. rewrite !not_elem_of_cons. intros (? & ? & ? & ? & _) [? ? ? ?]. split; by rewrite set_if_other. Qed.
Lemma plain_empty : plain_match ∅.
Proof. by split. Qed.
#[local] Hint Resolve plain_empty : core.
Ltac plain := repeat first [apply plain_addIf; [apply (bool_decide_unpack _); vm_compute; exact I|]
                           |apply plain_set_if; [apply (bool_decide_unpack _); vm_compute; exact I|]|exact plain_empty].
Lemma ruleMatch_plain r : plain_match (ruleMatch r).
Proof. unfold ruleMatch. plain. Qed.
Lemma dns_match_plain r : plain_match (dns_match r).
Proof. unfold dns_match. plain. Qed.

Lemma elem_of_set_refs r t : t ∈ set_refs r <->
  t ∈ as_strings (r !! "rule_set") \/ exists sub, sub ∈ as_objects (r !! "rules") /\ t ∈ as_strings (sub !! "rule_set").
Proof. unfold set_refs. rewrite elem_of_app, list_elem_of_bind. naive_solver. Qed.
Lemma with_sets_refs m a b t : plain_match m -> t ∈ set_refs (with_sets m a b) -> t ∈ a ++ b.
Proof.
  intros [_ _ Hs Hr]. rewrite elem_of_set_refs. destruct a as [|x a], b as [|y b]; cbn [with_sets].
  - rewrite Hs, Hr. cbn. setoid_rewrite elem_of_nil. naive_solver.
  - rewrite lookup_insert_eq, lookup_insert_ne, Hr by done. cbn [as_strings as_objects app]. setoid_rewrite elem_of_nil. naive_solver.
  - rewrite lookup_insert_eq, lookup_insert_ne, Hr by done. cbn [as_strings as_objects]. setoid_rewrite elem_of_nil. rewrite app_nil_r. naive_solver.
  - intros [Hx|(sub & Hin & Ht)]; [by apply elem_of_nil in Hx|].
    change (as_objects _) with ((if is_empty m then [] else [m]) ++ [object [("rule_set", AStrings (x :: a))]; object [("rule_set", AStrings (y :: b))]]) in Hin.
    apply elem_of_app in Hin as [Hin|Hin].
    + destruct (is_empty m); [by apply elem_of_nil in Hin|]. apply list_elem_of_singleton in Hin as ->. rewrite Hs in Ht. by apply elem_of_nil in Ht.
    + rewrite elem_of_app. apply elem_of_cons in Hin as [->|Hin]; [by left|]. apply list_elem_of_singleton in Hin as ->. by right.
Qed.
Lemma with_sets_keeps m a b k : k ∈ ["outbound"; "server"] -> plain_match m -> with_sets m a b !! k = None.
Proof.
  intros Hk [Ho Hv _ _]. assert (E : m !! k = None) by (apply elem_of_cons in Hk as [->|Hk]; [done|by apply list_elem_of_singleton in Hk as ->]).
  assert (Hne : "rule_set" <> k) by (apply elem_of_cons in Hk as [->|Hk]; [done|by apply list_elem_of_singleton in Hk as ->]).
  destruct a, b; cbn [with_sets]; rewrite ?lookup_insert_ne by done; try done.
  apply elem_of_cons in Hk as [->|Hk]; [done|by apply list_elem_of_singleton in Hk as ->].
Qed.

(** ** Sets made of names *)
Definition geo_ok (seen0 : gset string) (st : geo_state) : Prop :=
  (forall t, t ∈ st.2 -> t ∈ seen0 \/ t ∈ obj_tags st.1) /\
  (forall s, s ∈ st.1 -> text_at s "download_detour" = Some OutboundDirect /\ s !! "http_client" = None) /\
  (forall t, t ∈ obj_tags st.1 -> t ∉ seen0) /\ NoDup (obj_tags st.1) /\ (forall t, t ∈ obj_tags st.1 -> t ∈ st.2) /\ seen0 ⊆ st.2.
Lemma add_geo_ok seen0 st tag url : tag <> "" -> geo_ok seen0 st ->
  geo_ok seen0 (add_geo st tag url) /\ tag ∈ (add_geo st tag url).2 /\ st.2 ⊆ (add_geo st tag url).2.
Proof.
  intros Hne. destruct st as [sets seen]. unfold add_geo. case_bool_decide as Hs; [done|]. intros (H1 & H2 & H3 & H4 & H5 & H6). cbn [fst snd] in *.
  assert (E : obj_tags (sets ++ [geo_set tag url]) = obj_tags sets ++ [tag]).
  { rewrite obj_tags_app. f_equal. unfold obj_tags. cbn [fmap list_fmap]. change (get_str (geo_set tag url) "tag") with tag.
    rewrite filter_cons, decide_True by done. done. }
  unfold geo_ok. cbn [fst snd]. rewrite E. split_and!; [..|set_solver|set_solver].
  - intros t [Ht%elem_of_singleton|Ht]%elem_of_union; rewrite elem_of_app; [subst; right; right; left|]. destruct (H1 t Ht); auto.
  - intros s [Hin|Hin%list_elem_of_singleton]%elem_of_app; [by apply H2|subst; by split].
  - intros t [Hin|Hin%list_elem_of_singleton]%elem_of_app; [by apply H3|subst; set_solver].
  - apply NoDup_app. split_and!; [done| |apply NoDup_singleton]. intros t Ht Hin%list_elem_of_singleton. subst. by apply Hs, H5.
  - intros t [Hin|Hin%list_elem_of_singleton]%elem_of_app; [apply H5 in Hin; set_solver|set_solver].
  - set_solver.
Qed.
Lemma foldl_geo_ok seen0 (add : geo_state -> string -> geo_state) (tag : string -> string) l st :
  (forall st g, geo_ok seen0 st -> geo_ok seen0 (add st g) /\ tag g ∈ (add st g).2 /\ st.2 ⊆ (add st g).2) -> geo_ok seen0 st ->
  geo_ok seen0 (foldl add st l) /\ (forall g, g ∈ l -> tag g ∈ (foldl add st l).2) /\ st.2 ⊆ (foldl add st l).2.
Proof.
  intros Ha. revert st. induction l as [|g l IH]; intros st Hs; cbn [foldl].
  - split_and!; [done|intros g Hg; by apply elem_of_nil in Hg|done].
  - destruct (Ha st g Hs) as (H1 & H2 & H3). destruct (IH _ H1) as (K1 & K2 & K3). split_and!; [done| |set_solver].
    intros x [->|Hx]%elem_of_cons; [set_solver|by apply K2].
Qed.
Lemma add_site_ok seen0 st g : geo_ok seen0 st -> geo_ok seen0 (add_site st g) /\ "geosite-" +:+ g ∈ (add_site st g).2 /\ st.2 ⊆ (add_site st g).2.
Proof. apply add_geo_ok. done. Qed.
Lemma add_ip_ok seen0 st g : geo_ok seen0 st -> geo_ok seen0 (add_ip st g) /\ "geoip-" +:+ g ∈ (add_ip st g).2 /\ st.2 ⊆ (add_ip st g).2.
Proof. apply add_geo_ok. done. Qed.
Lemma geoRuleSets_ok seen0 st r : geo_ok seen0 st ->
  let '(gs, gi, st') := geoRuleSets st r in
  geo_ok seen0 st' /\ st.2 ⊆ st'.2 /\ forall t, t ∈ gs ++ gi -> t ∈ st'.2.
Proof.
  intros H. unfold geoRuleSets.
  destruct (foldl_geo_ok seen0 add_site _ (geo_names (GeoSite r)) st (add_site_ok seen0) H) as (H1 & H2 & H3).
  destruct (foldl_geo_ok seen0 add_ip _ (geo_names (GeoIP r)) _ (add_ip_ok seen0) H1) as (K1 & K2 & K3).
  split; [exact K1|]. split; [by etrans|]. intros t [(g & -> & Hg)%list_elem_of_fmap|(g & -> & Hg)%list_elem_of_fmap]%elem_of_app; [apply K3; exact (H2 g Hg)|exact (K2 g Hg)].
Qed.

(** ** Routes *)
Section routes.
Context (unicode_lower unicode_upper : bytes -> bytes) (unicode_fold : bytes -> bytes -> bool).
Context (proto_problem : Endpoint -> option string).
Hypothesis fold_lower : forall o, isBlock unicode_fold o = bool_decide (lower unicode_lower o = OutboundBlock).
Context (p : Profile) (Hap : appliable unicode_lower unicode_upper proto_problem p) (hybrid : bool).
Abbreviation goes := (goes unicode_lower).
Abbreviation canonicalOutbound := (canonicalOutbound unicode_lower).
Abbreviation hybridReachable := (hybridReachable unicode_lower).
(** The tags there are, and what they answer for. *)
Context (T : list string) (T_direct : OutboundDirect ∈ T).
Hypothesis T_goes : forall o, goes p o -> canonicalOutbound o <> OutboundBlock ->
  (hybrid = true -> live p o -> o ∈ hybridReachable p) -> canonicalOutbound o ∈ T.
Hypothesis T_policy : forall rl name, rl ∈ RoutingLists p -> rl_Enabled rl = true -> NDMPolicyName (rl_Outbound rl) = Some name -> rl_Outbound rl ∈ T.

Lemma blocked_false o : isBlock unicode_fold o = false -> canonicalOutbound o <> OutboundBlock.
Proof. rewrite (isBlock_canonical unicode_lower) by done. by intros ?%bool_decide_eq_false. Qed.
Lemma rule_goes r : r ∈ Rules p -> Disabled r = false -> r_Default r = true \/ hybrid && kernel_rule p r = false ->
  isBlock unicode_fold (r_Outbound r) = false -> canonicalOutbound (r_Outbound r) ∈ T.
Proof.
  intros Hr Hd Hk Hb. pose proof (ap_rules _ _ _ _ Hap) as F. rewrite Forall_forall in F. destruct (F r Hr) as (_ & H). destruct (H Hd) as (_ & _ & Hg).
  apply T_goes; [done|by apply blocked_false|]. intros Hy Hl. apply root_reachable. unfold roots. apply elem_of_app. left. apply list_elem_of_bind.
  exists r. split; [|done]. unfold rule_roots. rewrite Hd, (root_of Hap) by done.
  destruct (r_Default r); [cbn; left|]. destruct Hk as [Hk|Hk]; [done|]. rewrite Hy in Hk. cbn in Hk |- *. rewrite Hk. left.
Qed.
Lemma send_outbound o m t : m !! "outbound" = None -> text_at (send unicode_lower unicode_fold o m) "outbound" = Some t ->
  isBlock unicode_fold o = false /\ t = canonicalOutbound o.
Proof.
  intros Hm. unfold send, text_at. destruct (isBlock unicode_fold o).
  - rewrite lookup_insert_ne by done. by rewrite Hm.
  - rewrite lookup_insert_eq. by intros [= <-].
Qed.
Lemma set_refs_ext r r' : r !! "rule_set" = r' !! "rule_set" -> r !! "rules" = r' !! "rules" -> set_refs r = set_refs r'.
Proof. intros H1 H2. unfold set_refs. by rewrite H1, H2. Qed.
Lemma set_refs_insert k v m : k <> "rule_set" -> k <> "rules" -> set_refs (<[k := v]> m) = set_refs m.
Proof. intros H1 H2. apply set_refs_ext; by rewrite lookup_insert_ne. Qed.
Lemma send_refs o m : set_refs (send unicode_lower unicode_fold o m) = set_refs m.
Proof. apply set_refs_ext; unfold send; destruct (isBlock unicode_fold o); by rewrite ?lookup_insert_ne. Qed.

Record routes_ok (st : routes) : Prop := {
  rk_final : ro_final st ∈ T;
  rk_geo : geo_ok ∅ (ro_geo st);
  rk_out : forall r t, r ∈ ro_rules st -> text_at r "outbound" = Some t -> t ∈ T;
  rk_refs : forall r t, r ∈ ro_rules st -> t ∈ set_refs r -> t ∈ (ro_geo st).2
}.
Lemma route_rule_ok st r : r ∈ Rules p -> routes_ok st -> routes_ok (route_rule unicode_lower unicode_fold p hybrid st r).
Proof.
  intros Hr [F G O S]. unfold route_rule. destruct (Disabled r) eqn:Ed; [by split|]. destruct (r_Default r) eqn:Edf.
  - destruct (isBlock unicode_fold (r_Outbound r)) eqn:Eb; split; try done. cbn. apply rule_goes; auto.
  - destruct (hybrid && kernel_rule p r) eqn:Ek; [by split|]. pose proof (geoRuleSets_ok ∅ (ro_geo st) r G) as Hg.
    destruct (geoRuleSets (ro_geo st) r) as [[gs gi] geo]. destruct Hg as (G' & Hsub & Hin).
    destruct (is_empty (ruleMatch r) && nil gs && nil gi); split; cbn; try done; [intros x t Hx Ht; by eapply Hsub, S|..].
    + intros x t [Hx|Hx%list_elem_of_singleton]%elem_of_app Ht; [by eapply O|subst x].
      apply send_outbound in Ht as [Hbl ->]; [|apply with_sets_keeps; [left|apply ruleMatch_plain]]. apply rule_goes; auto.
    + intros x t [Hx|Hx%list_elem_of_singleton]%elem_of_app Ht; [by eapply Hsub, S|subst x].
      rewrite send_refs in Ht. apply Hin. eapply with_sets_refs; [apply ruleMatch_plain|done].
Qed.
Lemma foldl_ind {A B} (P : A -> Prop) (f : A -> B -> A) l a : P a -> (forall a x, x ∈ l -> P a -> P (f a x)) -> P (foldl f a l).
Proof.
  revert a. induction l as [|x l IH]; intros a Ha Hf; [done|]. cbn. apply IH; [apply Hf; [left|done]|]. intros a' y Hy. apply Hf. by right.
Qed.
Lemma route_state_ok : routes_ok (route_state unicode_lower unicode_fold p hybrid).
Proof.
  unfold route_state. apply foldl_ind; [|intros st r Hr; by apply route_rule_ok]. split; cbn; [done| |intros r t Hr; by apply elem_of_nil in Hr..].
  split_and!; cbn; try (intros x Hx; by apply elem_of_nil in Hx); [intros t Ht; set_solver|constructor|done].
Qed.

(** ** Lists *)
Context (detour : string).
Abbreviation parts := (list_parts unicode_lower p hybrid detour).
Definition list_rules (block : bool) (ls : list RoutingList) : list obj :=
  rl ← ls; if bool_decide (parts rl = []) || negb (Bool.eqb (isBlock unicode_fold (rl_Outbound rl)) block) then []
           else [list_rule unicode_lower unicode_fold p rl (parts rl).*1].
Lemma routingFrom_eq : routingFrom unicode_lower unicode_fold p hybrid detour =
  (rl ← RoutingLists p; (parts rl).*2, list_rules true (RoutingLists p) ++ list_rules false (RoutingLists p)).
Proof.
  assert (Hone : forall s a c rl, routing_list unicode_lower unicode_fold p hybrid detour (s, a, c) rl =
            (s ++ (parts rl).*2, a ++ list_rules true [rl], c ++ list_rules false [rl])).
  { intros s a c rl. unfold routing_list, list_rules. cbn [mbind list_bind]. destruct (parts rl) as [|q qs] eqn:E.
    - cbn. by rewrite !app_nil_r.
    - rewrite (bool_decide_false (_ :: _ = [])) by done. destruct (isBlock unicode_fold (rl_Outbound rl)); cbn; by rewrite !app_nil_r. }
  assert (G : forall ls s a c, foldl (routing_list unicode_lower unicode_fold p hybrid detour) (s, a, c) ls =
              (s ++ (rl ← ls; (parts rl).*2), a ++ list_rules true ls, c ++ list_rules false ls)).
  { induction ls as [|rl ls IH]; intros s a c; cbn [foldl]; [cbn; by rewrite !app_nil_r|].
    rewrite Hone, IH, <- !app_assoc. cbn [mbind list_bind]. unfold list_rules. cbn [mbind list_bind]. by rewrite !app_nil_r. }
  unfold routingFrom. by rewrite G.
Qed.

Lemma parts_tagged rl x : x ∈ parts rl -> get_str x.2 "tag" = x.1 /\ x.1 <> "" /\ x.2 !! "http_client" = None.
Proof.
  unfold list_parts. destruct (left_out p hybrid rl); [by intros ?%elem_of_nil|]. rewrite elem_of_app. intros [Hx|Hx].
  - unfold remote_set in Hx. destruct (_ && _); [|by apply elem_of_nil in Hx]. apply list_elem_of_singleton in Hx as ->. by split_and!.
  - unfold inline_set in Hx. destruct (core_entries p hybrid rl) as [doms addrs]. destruct (nil doms && nil addrs); [by apply elem_of_nil in Hx|].
    apply list_elem_of_singleton in Hx as ->. by split_and!.
Qed.
Lemma parts_detour rl x t : x ∈ parts rl -> text_at x.2 "download_detour" = Some t ->
  left_out p hybrid rl = false /\ t = download_detour unicode_lower rl detour.
Proof.
  unfold list_parts. destruct (left_out p hybrid rl); [by intros ?%elem_of_nil|]. rewrite elem_of_app. intros [Hx|Hx].
  - unfold remote_set in Hx. destruct (_ && _); [|by apply elem_of_nil in Hx]. apply list_elem_of_singleton in Hx as ->. by intros [= <-].
  - unfold inline_set in Hx. destruct (core_entries p hybrid rl) as [doms addrs]. destruct (nil doms && nil addrs); [by apply elem_of_nil in Hx|].
    apply list_elem_of_singleton in Hx as ->. done.
Qed.
Lemma list_sets_tags t : t ∈ obj_tags (rl ← RoutingLists p; (parts rl).*2) <-> exists rl, rl ∈ RoutingLists p /\ t ∈ (parts rl).*1.
Proof.
  rewrite elem_of_obj_tags. setoid_rewrite list_elem_of_bind. setoid_rewrite list_elem_of_fmap. split.
  - intros (Hne & o & (rl & (x & Eo & Hx) & Hrl) & Ht). subst o. exists rl. split; [done|]. exists x. destruct (parts_tagged rl x Hx) as (E & _). split; [by rewrite <- Ht, E|done].
  - intros (rl & Hrl & x & -> & Hx). destruct (parts_tagged rl x Hx) as (E & Hne & _). split; [done|]. exists x.2. split; [|done]. exists rl. split; [by exists x|done].
Qed.
(** A list that is not left out keeps what it points at. *)
Lemma kept_roots rl : rl ∈ RoutingLists p -> left_out p hybrid rl = false -> hybrid = true ->
  forall o, o = rl_Outbound rl \/ o = DownloadVia rl -> live p o -> o ∈ hybridReachable p.
Proof.
  intros Hin Hl Hy o Ho Hlive. unfold left_out in Hl. rewrite !orb_false_iff, negb_false_iff, Hy in Hl. destruct Hl as [[En _] Hk]. cbn in Hk.
  apply root_reachable. unfold roots. rewrite !elem_of_app. right. left. apply list_elem_of_bind. exists rl. split; [|done].
  unfold list_roots. rewrite En, Hk. cbn [negb]. rewrite elem_of_app. destruct Ho as [->| ->]; [left|right]; rewrite (root_of Hap) by done; left.
Qed.
Lemma kept_enabled rl : left_out p hybrid rl = false -> rl_Enabled rl = true.
Proof. unfold left_out. by rewrite !orb_false_iff, negb_false_iff; intros [[? _] _]. Qed.
Lemma policy_plain name : ValidNDMPolicyName name = true -> forall o, NDMPolicyName o = Some name -> isBuiltin unicode_lower o = false.
Proof.
  unfold ValidNDMPolicyName. rewrite !andb_true_iff. intros [_ Hc] o Ho. apply NDMPolicyName_Some in Ho as ->.
  assert (Ha : is_ascii (str (NDMPolicyPrefix +:+ name)) = true).
  { rewrite str_app. unfold is_ascii. rewrite forallb_app, andb_true_iff. split; [by vm_compute|]. apply forallb_forall. intros c Hin.
    rewrite forallb_forall in Hc. specialize (Hc c Hin). unfold policy_char, is_letter, is_digit, in_range in *. lia. }
  unfold isBuiltin, lower, ToLower. rewrite Ha. rewrite str_app, map_app.
  assert (Hh : forall q tag, hd 0 (str tag) <> 110 -> str tag <> [] -> unstr (map ascii_lower (str NDMPolicyPrefix) ++ q) <> tag).
  { intros q tag Hh _ E. apply Hh. rewrite <- E. reflexivity. }
  rewrite !bool_decide_false; [done|apply Hh; by vm_compute..].
Qed.
Lemma list_goes rl : rl ∈ RoutingLists p -> left_out p hybrid rl = false -> isBlock unicode_fold (rl_Outbound rl) = false ->
  canonicalOutbound (rl_Outbound rl) ∈ T.
Proof.
  intros Hin Hl Hb. pose proof (ap_lists _ _ _ _ Hap) as F. rewrite Forall_forall in F. destruct (F rl Hin) as (_ & _ & Ht & _). unfold target_fine in Ht.
  destruct (NDMPolicyName (rl_Outbound rl)) as [name|] eqn:En.
  - rewrite (canonical_other unicode_lower) by (by eapply policy_plain). eapply T_policy; [done|by apply kept_enabled|done].
  - apply T_goes; [done|by apply blocked_false|]. intros Hy Hlive. by eapply kept_roots; [..|left|].
Qed.
Hypothesis downloads_route : forall rl, rl ∈ RoutingLists p -> rl_Enabled rl = true -> canonicalOutbound (DownloadVia rl) <> OutboundBlock.
Hypothesis default_detour : detour = "" \/ canonicalOutbound detour ∈ T.
Lemma download_goes rl : rl ∈ RoutingLists p -> left_out p hybrid rl = false -> download_detour unicode_lower rl detour ∈ T.
Proof.
  intros Hin Hl. unfold download_detour. case_bool_decide as Hv; cbn [negb].
  - case_bool_decide as Hd; cbn [negb]; [done|]. by destruct default_detour.
  - pose proof (ap_lists _ _ _ _ Hap) as F. rewrite Forall_forall in F. destruct (F rl Hin) as (_ & _ & _ & _ & [Hd|[_ Hd]]); [done|].
    apply T_goes; [done|by apply downloads_route, kept_enabled|]. intros Hy Hlive. by eapply kept_roots; [..|right|].
Qed.
Lemma parts_kept rl : parts rl <> [] -> left_out p hybrid rl = false.
Proof. unfold list_parts. by destruct (left_out p hybrid rl). Qed.
Lemma list_set_ok s : s ∈ (rl ← RoutingLists p; (parts rl).*2) ->
  s !! "http_client" = None /\ forall t, text_at s "download_detour" = Some t -> t ∈ T.
Proof.
  intros (rl & (x & Es & Hx)%list_elem_of_fmap & Hin)%list_elem_of_bind. subst s. split; [by apply (parts_tagged rl x)|].
  intros t Ht. destruct (parts_detour rl x t Hx Ht) as [Hl ->]. by apply download_goes.
Qed.
Lemma elem_of_list_rules r blk : r ∈ list_rules blk (RoutingLists p) ->
  exists rl, rl ∈ RoutingLists p /\ parts rl <> [] /\ r = list_rule unicode_lower unicode_fold p rl (parts rl).*1.
Proof.
  intros (rl & Hr & Hin)%list_elem_of_bind. exists rl. split; [done|]. case_bool_decide as E; [by apply elem_of_nil in Hr|].
  split; [done|]. destruct (negb _); [by apply elem_of_nil in Hr|]. by apply list_elem_of_singleton in Hr.
Qed.
Lemma list_rule_lookup rl tags k : k ∉ ["tls_record_fragment"; "tls_fragment"; "source_ip_cidr"; "action"; "outbound"] ->
  list_rule unicode_lower unicode_fold p rl tags !! k = object [("rule_set", AStrings tags)] !! k.
Proof.
  rewrite !not_elem_of_cons. intros (? & ? & ? & ? & ? & _). unfold list_rule, fragment, send.
  repeat case_match; rewrite ?lookup_insert_ne, addIf_other by done; done.
Qed.
Lemma list_rule_ok r blk : r ∈ list_rules blk (RoutingLists p) ->
  (forall t, text_at r "outbound" = Some t -> t ∈ T) /\ (forall t, t ∈ set_refs r -> t ∈ obj_tags (rl ← RoutingLists p; (parts rl).*2)).
Proof.
  intros (rl & Hin & Hp & Er)%elem_of_list_rules. subst r. split.
  - intros t. unfold text_at, list_rule. assert (E0 : addIf (object [("rule_set", AStrings (parts rl).*1)]) "source_ip_cidr" (scope_ips p rl) !! "outbound" = None)
      by by rewrite addIf_other.
    destruct (isBlock unicode_fold (rl_Outbound rl)) eqn:Eb.
    + unfold send. rewrite Eb. rewrite lookup_insert_ne, E0 by done. done.
    + assert (E : fragment unicode_lower rl (send unicode_lower unicode_fold (rl_Outbound rl) (addIf (object [("rule_set", AStrings (parts rl).*1)]) "source_ip_cidr" (scope_ips p rl))) !! "outbound"
                  = Some (AString (canonicalOutbound (rl_Outbound rl)))).
      { unfold fragment, send. rewrite Eb. repeat case_bool_decide; rewrite ?(lookup_insert_ne _ "tls_record_fragment"), ?(lookup_insert_ne _ "tls_fragment") by done;
          by rewrite lookup_insert_eq. }
      rewrite E. intros [= <-]. by apply list_goes; [|apply parts_kept|].
  - intros t. rewrite elem_of_set_refs, !list_rule_lookup by (apply (bool_decide_unpack _); by vm_compute).
    intros [Ht|(sub & Hs & _)]; [|by apply elem_of_nil in Hs]. apply list_sets_tags. by exists rl.
Qed.
End routes.

(** * The references of the DNS plane

    The servers that are emitted, what they and the rules refer to, and the server a block names as its
    final one and as the resolver of the tunnels' own names. *)

Lemma text_set_if c k v m k' : text_at (set_if c k v m) k' = if bool_decide (k = k') && c then text_at (<[k := v]> ∅) k' else text_at m k'.
Proof.
  unfold text_at, set_if. case_bool_decide as E; [subst k'|]; destruct c; cbn [andb]; try done; rewrite ?lookup_insert_eq, ?lookup_insert_ne by done; done.
Qed.
Lemma text_insert k v m k' : text_at (<[k := v]> m) k' = if bool_decide (k = k') then match v with AString s => Some s | _ => None end else text_at m k'.
Proof. unfold text_at. case_bool_decide as E; [subst k'; by rewrite lookup_insert_eq|by rewrite lookup_insert_ne]. Qed.

Lemma objects_set l k (m : obj) : m !! k = None -> as_objects (set_if (negb (nil l)) k (AMaps l) m !! k) = l.
Proof. intros H. destruct l; cbn; [by rewrite H|by rewrite lookup_insert_eq]. Qed.
Lemma first_of_elem l : first_of l = "" \/ Some (first_of l) ∈ l.
Proof.
  induction l as [|[t|] l IH]; [by left|right; left|]. change (first_of (None :: l)) with (first_of l).
  destruct IH as [H|H]; [by left|right; by right].
Qed.

Section dns.
Context (unicode_lower : bytes -> bytes).
Abbreviation canonicalOutbound := (canonicalOutbound unicode_lower).
Abbreviation IsVPNDNSType := (IsVPNDNSType unicode_lower).
Abbreviation drops := (drops unicode_lower).

Lemma network_not_vpn t : t ∈ networkDNSTypes -> IsVPNDNSType t = false /\ t ∉ ["local"; "fakeip"; "openvpn"; "openconnect"].
Proof.
  unfold networkDNSTypes. rewrite !elem_of_cons, elem_of_nil.
  intros [->|[->|[->|[->|[->|[->|[]]]]]]]; (split; [by vm_compute|apply (bool_decide_unpack _); by vm_compute]).
Qed.
Lemma valid_type_cases t : t ∈ validDNSServerTypes ->
  t = "local" \/ t = "fakeip" \/ (t ∈ ["openvpn"; "openconnect"]) \/ (t ∈ networkDNSTypes).
Proof.
  unfold validDNSServerTypes, networkDNSTypes. rewrite !elem_of_cons, !elem_of_nil. naive_solver.
Qed.
Lemma server_tag s : get_str (server_json unicode_lower s) "tag" = ds_Tag s.
Proof.
  unfold server_json, network_server. repeat case_bool_decide; unfold get_str; try done;
    by rewrite ?set_str_other, ?set_if_other, ?lookup_insert_ne by done.
Qed.
Lemma server_type s : get_str (server_json unicode_lower s) "type" = ds_Type s.
Proof.
  unfold server_json, network_server. repeat case_bool_decide; unfold get_str; try done;
    by rewrite ?set_str_other, ?set_if_other, ?lookup_insert_ne by done.
Qed.
(** What a server refers to. *)
Lemma server_refs s t :
  (text_at (server_json unicode_lower s) "detour" = Some t ->
     ds_Type s ∉ ["local"; "fakeip"; "openvpn"; "openconnect"] /\ t = canonicalOutbound (trim (ds_Detour s)) /\ t <> "" /\ t <> OutboundDirect) /\
  (text_at (server_json unicode_lower s) "endpoint" = Some t -> (ds_Type s ∈ ["openvpn"; "openconnect"]) /\ t = trim (ds_Endpoint s)) /\
  (text_at (server_json unicode_lower s) "domain_resolver" = Some t ->
     ds_Type s ∉ ["local"; "fakeip"; "openvpn"; "openconnect"] /\ t = ds_DomainResolver s /\ blank t = false).
Proof.
  unfold server_json. case_bool_decide as Hl; [done|]. case_bool_decide as Hv; [|case_bool_decide as Hf].
  - split_and!; rewrite !text_set_if; cbn [andb]; rewrite !(bool_decide_false (_ = _)) by done; cbn [andb]; rewrite text_insert.
    + by rewrite bool_decide_false.
    + rewrite bool_decide_true by done. by intros [= <-].
    + by rewrite bool_decide_false.
  - unfold set_str. split_and!; rewrite !text_set_if, !(bool_decide_false (_ = _)) by done; done.
  - assert (Hn : ds_Type s ∉ ["local"; "fakeip"; "openvpn"; "openconnect"]).
    { rewrite !not_elem_of_cons in *. destruct Hv as (? & ? & _). split_and!; try done. apply not_elem_of_nil. }
    unfold network_server. split_and!; rewrite !text_set_if.
    + rewrite (bool_decide_false ("domain_resolver" = "detour")), (bool_decide_true ("detour" = "detour")) by done. cbn [andb].
      case_bool_decide as E1; cbn [negb andb]; [|case_bool_decide as E2; cbn [negb]].
      * rewrite !(bool_decide_false (_ = "detour")) by done. cbn [andb]. rewrite text_insert, bool_decide_false by done. done.
      * rewrite !(bool_decide_false (_ = "detour")) by done. cbn [andb]. rewrite text_insert, bool_decide_false by done. done.
      * rewrite text_insert, bool_decide_true by done. by intros [= <-].
    + rewrite !(bool_decide_false (_ = "endpoint")) by done. cbn [andb]. rewrite text_insert, bool_decide_false by done. done.
    + rewrite bool_decide_true by done. cbn [andb]. destruct (blank (ds_DomainResolver s)) eqn:Eb; cbn [negb].
      * rewrite !(bool_decide_false (_ = "domain_resolver")) by done. cbn [andb]. rewrite text_insert, bool_decide_false by done. done.
      * rewrite text_insert, bool_decide_true by done. by intros [= <-].
Qed.

Context (p : Profile) (d : DNSSettings) (tun hybrid : bool) (cv : string) (seen : gset string).
Definition kept_servers : list DNSServer := filter (fun s => drops tun cv s = false) (dns_Servers d).
Definition dropped_tags : list string := ds_Tag <$> filter (fun s => drops tun cv s = true) (dns_Servers d).
Hypothesis tags_unique : NoDup (ds_Tag <$> dns_Servers d).
Hypothesis tags_set : forall s, s ∈ dns_Servers d -> ds_Tag s <> "".
Hypothesis lists_seen : forall id t, t ∈ dnsListTags p id hybrid -> t ∈ seen.
Hypothesis rules_served : forall r, r ∈ dns_Rules d -> dr_Disabled r = false -> dr_Server r <> "reject" -> dr_Server r ∈ ds_Tag <$> dns_Servers d.
Hypothesis final_served : dns_Final d <> "" -> dns_Final d ∈ ds_Tag <$> dns_Servers d.

Lemma kept_or_dropped t : t ∈ ds_Tag <$> dns_Servers d -> t ∉ dropped_tags -> t ∈ ds_Tag <$> kept_servers.
Proof.
  intros (s & -> & Hs)%list_elem_of_fmap Hn. apply list_elem_of_fmap_2, list_elem_of_filter. split; [|done].
  apply not_true_iff_false. intros E. apply Hn, list_elem_of_fmap_2, list_elem_of_filter. done.
Qed.
Lemma kept_tags t : t ∈ ds_Tag <$> kept_servers <-> t ∈ obj_tags (server_json unicode_lower <$> kept_servers).
Proof.
  rewrite elem_of_obj_tags, list_elem_of_fmap. setoid_rewrite list_elem_of_fmap. split.
  - intros (s & -> & Hs). split; [apply tags_set; by apply list_elem_of_filter in Hs as [_ ?]|]. exists (server_json unicode_lower s).
    split; [by exists s|apply server_tag].
  - intros (_ & o & (s & -> & Hs) & <-). exists s. by rewrite server_tag.
Qed.

(** ** Rules *)
Record dns_rules_ok (st : list obj * geo_state) : Prop := {
  dk_geo : geo_ok seen st.2;
  dk_server : forall r t, r ∈ st.1 -> text_at r "server" = Some t -> t ∈ ds_Tag <$> kept_servers;
  dk_refs : forall r t, r ∈ st.1 -> t ∈ set_refs r -> t ∈ st.2.2
}.
Lemma dns_rule_sets_ok st r : r ∈ dns_Rules d -> dns_rules_ok st -> dns_rules_ok (dns_rule p hybrid dropped_tags st r).
Proof.
  destruct st as [rules geo]. intros Hr [G S F]. cbn [fst snd] in *. unfold dns_rule. destruct (dr_Disabled r) eqn:Ed; [by split|].
  destruct (_ && bool_decide (dr_Server r ∈ dropped_tags)) eqn:Edr; [by split|].
  set (lt := id ← dr_RuleSets r; dnsListTags p id hybrid). destruct (negb (nil (dr_RuleSets r)) && nil lt); [by split|].
  destruct (foldl_geo_ok seen add_site _ (geo_names (dr_GeoSite r)) geo (add_site_ok seen) G) as (G' & Hin & Hsub).
  destruct (is_empty _); (split; cbn [fst snd]; [done|..]); [done|intros x t Hx Ht; by eapply Hsub, F|..].
  - intros x t [Hx|Hx%list_elem_of_singleton]%elem_of_app Ht; [by eapply S|subst x]. case_bool_decide as Er; rewrite text_insert in Ht.
    + rewrite bool_decide_false in Ht by done. unfold text_at in Ht.
      rewrite with_sets_keeps in Ht; [done|by right; left|apply dns_match_plain].
    + rewrite bool_decide_true in Ht by done. injection Ht as <-. apply kept_or_dropped; [by apply rules_served|]. by apply bool_decide_eq_false in Edr.
  - intros x t [Hx|Hx%list_elem_of_singleton]%elem_of_app Ht; [by eapply Hsub, F|subst x].
    assert (Ht' : t ∈ set_refs (with_sets (dns_match r) lt ((fun g => "geosite-" +:+ g) <$> geo_names (dr_GeoSite r)))).
    { revert Ht. case_bool_decide; by rewrite set_refs_insert. }
    apply with_sets_refs in Ht'; [|apply dns_match_plain]. apply elem_of_app in Ht' as [Ht'|(g & -> & Hg)%list_elem_of_fmap]; [|by apply Hin].
    apply list_elem_of_bind in Ht' as (id & Hid & _). destruct G as (_ & _ & _ & _ & _ & Hs). apply Hsub, Hs. by eapply lists_seen.
Qed.
Lemma dns_rules_all : dns_rules_ok (foldl (dns_rule p hybrid dropped_tags) ([], ([], seen)) (dns_Rules d)).
Proof.
  apply foldl_ind; [|intros st r Hr; by apply dns_rule_sets_ok]. split; cbn [fst snd]; [|intros r t Hr; by apply elem_of_nil in Hr..].
  split_and!; cbn [fst snd]; try (intros x Hx; by apply elem_of_nil in Hx); [intros t Ht; by left|constructor|done].
Qed.

(** ** The block *)
Abbreviation servers := (server_json unicode_lower <$> kept_servers).
Abbreviation dns_rules := (foldl (dns_rule p hybrid dropped_tags) ([], ([], seen)) (dns_Rules d)).
Definition base_block : obj :=
  set_if (negb (bool_decide (dns_Final d = "")) && negb (bool_decide (dns_Final d ∈ dropped_tags))) "final" (AString (dns_Final d))
    (set_if (negb (nil dns_rules.1)) "rules" (AMaps dns_rules.1) (set_if (negb (nil servers)) "servers" (AMaps servers) ∅)).
Definition final_block : obj :=
  match base_block !! "final", head servers with
  | None, Some s => if IsVPNDNSType (get_str s "type") then set_opt "final" (first_asked unicode_lower servers) base_block else base_block
  | _, _ => base_block
  end.
Lemma dnsFrom_eq : exists block, dnsFrom unicode_lower p d tun hybrid cv seen = (block, dns_rules.2.1) /\
  forall k, k ∉ ["strategy"; "independent_cache"; "disable_cache"; "client_subnet"] -> block !! k = final_block !! k.
Proof.
  unfold dnsFrom. fold kept_servers dropped_tags. destruct dns_rules as [rules [extra sn]] eqn:E. eexists. split; [reflexivity|].
  intros k. rewrite !not_elem_of_cons. intros (? & ? & ? & ? & _). rewrite set_str_other, !set_if_other, set_str_other by done.
  unfold final_block, base_block. rewrite E. done.
Qed.
Lemma final_block_other k : k <> "final" -> final_block !! k = base_block !! k.
Proof.
  intros H. unfold final_block. destruct (base_block !! "final"); [done|]. destruct (head servers); [|done]. destruct (IsVPNDNSType _); [|done].
  unfold set_opt. destruct (first_asked _ _); [by rewrite lookup_insert_ne|done].
Qed.
Lemma block_servers : as_objects (final_block !! "servers") = servers.
Proof.
  rewrite final_block_other by done. unfold base_block. rewrite !set_if_other by done. by apply objects_set.
Qed.
Lemma block_rules : as_objects (final_block !! "rules") = dns_rules.1.
Proof.
  rewrite final_block_other by done. unfold base_block. rewrite set_if_other by done. apply objects_set. by rewrite set_if_other.
Qed.
Lemma block_final t : text_at final_block "final" = Some t -> t ∈ ds_Tag <$> kept_servers.
Proof.
  assert (Hbase : text_at base_block "final" = Some t -> t ∈ ds_Tag <$> kept_servers).
  { unfold base_block. rewrite text_set_if, bool_decide_true by done. cbn [andb].
    destruct (_ && _) eqn:E; [|unfold text_at; rewrite !set_if_other by done; done].
    rewrite text_insert, bool_decide_true by done. intros [= <-]. apply andb_true_iff in E as [E1 E2]. apply negb_true_iff, bool_decide_eq_false in E1, E2.
    apply kept_or_dropped; [by apply final_served|done]. }
  unfold final_block. destruct (base_block !! "final") as [v|] eqn:Ef; [done|]. destruct (head servers) as [s|] eqn:Eh; [|done].
  destruct (IsVPNDNSType (get_str s "type")); [|done]. unfold set_opt. destruct (first_asked unicode_lower servers) as [v|] eqn:Ea; [|done].
  rewrite text_insert, bool_decide_true by done. unfold first_asked in Ea. apply bind_Some in Ea as (o & Ho & Et).
  apply find_some in Ho as [Ho _]. apply list_elem_of_In, list_elem_of_fmap in Ho as (srv & -> & Hs). intros Hv.
  assert (Ht : t = ds_Tag srv). { rewrite <- server_tag. unfold get_str. rewrite Et. destruct v; try done. by injection Hv as ->. }
  rewrite Ht. by apply list_elem_of_fmap_2.
Qed.
Lemma picked_tag (block : obj) (c : obj -> bool) : as_objects (block !! "servers") = servers ->
  forall t, (fun s => get_str s "tag") <$> find c (as_objects (block !! "servers")) = Some t -> t ∈ ds_Tag <$> kept_servers.
Proof.
  intros Hs t. rewrite Hs, fmap_Some. intros (o & Ho & ->). apply find_some in Ho as [Ho _].
  apply list_elem_of_In, list_elem_of_fmap in Ho as (srv & -> & Hsrv). rewrite server_tag. by apply list_elem_of_fmap_2.
Qed.
Lemma block_resolver (block : obj) : as_objects (block !! "servers") = servers ->
  dnsDefaultResolverTag unicode_lower block <> "" -> dnsDefaultResolverTag unicode_lower block ∈ ds_Tag <$> kept_servers.
Proof.
  intros Hs Hne. unfold dnsDefaultResolverTag in *. set (l := [_; _; _; _; _]) in *.
  assert (H : forall t, Some t ∈ l -> t ∈ ds_Tag <$> kept_servers).
  { intros t. unfold l. rewrite !elem_of_cons, elem_of_nil. intros [E|[E|[E|[E|[E|[]]]]]]; symmetry in E; try by apply (picked_tag block _ Hs) in E.
    case_bool_decide; [done|]. by apply (picked_tag block _ Hs) in E. }
  destruct (first_of_elem l) as [E|E]; [done|]. by apply H.
Qed.
End dns.
