(* ===== verification/GenWiring.v ===== *)
(** * Every reference of the generated configuration resolves

    The parts put together, through the 1.14 schema and the operator's (blank) override. *)
From S2P Require Import Prelude Util GoStrings GoText Netip Model Faults Dns Validate ValidateSpec PbrLists Pbr.
From S2P Require Import Json GenSplit GenRoute GenDns Override GenOutbound GenConfig GenEmit GenResolve.
From S2P Require Import GenRefs.
Local Open Scope Z_scope.

(** ** The entries of a list, in pieces *)
Lemma split_entry_acc ds addrs e : split_entry (ds, addrs) e = (ds ++ (split_entry ([], []) e).1, addrs ++ (split_entry ([], []) e).2).
Proof. unfold split_entry. repeat case_match; cbn; by rewrite ?app_nil_r. Qed.
Lemma split_acc l ds addrs : foldl split_entry (ds, addrs) l = (ds ++ (splitDomainsIPs l).1, addrs ++ (splitDomainsIPs l).2).
Proof.
  unfold splitDomainsIPs. revert ds addrs. induction l as [|e l IH]; intros ds addrs; cbn [foldl]; [by rewrite !app_nil_r|].
  rewrite (split_entry_acc ds addrs e), IH. rewrite (surjective_pairing (split_entry ([], []) e)), (IH (split_entry ([], []) e).1). cbn [fst snd].
  by rewrite <- !app_assoc.
Qed.
Lemma split_app a b : splitDomainsIPs (a ++ b) =
  ((splitDomainsIPs a).1 ++ (splitDomainsIPs b).1, (splitDomainsIPs a).2 ++ (splitDomainsIPs b).2).
Proof. unfold splitDomainsIPs at 1. rewrite foldl_app. change (foldl split_entry ([], []) a) with (splitDomainsIPs a). by rewrite (surjective_pairing (splitDomainsIPs a)), split_acc. Qed.

Section lists.
Context (unicode_lower : bytes -> bytes) (p : Profile) (hybrid : bool) (detour : string).
Abbreviation parts := (list_parts unicode_lower p hybrid detour).
Hypothesis feeds : hybrid = true -> forall rl, rl ∈ RoutingLists p -> (splitDomainsIPs (CIDRCache rl)).1 = [].
Lemma nil_true {A} (l : list A) : nil l = true <-> l = [].
Proof. by destruct l. Qed.
Lemma core_names rl : rl ∈ RoutingLists p -> (listEntries rl).1 <> [] -> (core_entries p hybrid rl).1 <> [].
Proof.
  intros Hin Hne. unfold core_entries. destruct (hybrid && _ && _ && _ && _) eqn:E; [|done]. intros H. apply Hne.
  unfold listEntries. rewrite !split_app. cbn [fst]. destruct hybrid; [|done]. rewrite (feeds eq_refl rl Hin). cbn [app].
  by rewrite split_app in H.
Qed.
Lemma dnsListTags_parts id t : t ∈ dnsListTags p id hybrid -> exists rl, rl ∈ RoutingLists p /\ t ∈ (parts rl).*1.
Proof.
  unfold dnsListTags. destruct (find _ (RoutingLists p)) as [rl|] eqn:Ef; [|by intros ?%elem_of_nil].
  apply find_some in Ef as [Hin Hen]. apply list_elem_of_In in Hin. apply andb_true_iff in Hen as [_ Hen]. intros Ht. exists rl. split; [done|].
  unfold list_tags in Ht. destruct (bool_decide (ScopeMode rl = "only") && nil (listScopeIPs p rl)) eqn:Esc; [by apply elem_of_nil in Ht|].
  unfold list_parts, left_out. rewrite Hen. unfold scope_ips. assert (Es : bool_decide (ScopeMode rl = "only") && nil (if bool_decide (ScopeMode rl = "only") then listScopeIPs p rl else []) = false).
  { destruct (bool_decide (ScopeMode rl = "only")); [exact Esc|reflexivity]. }
  rewrite Es. cbn [negb orb]. unfold kernel_list. destruct (listEntries rl) as [dom ips] eqn:El.
  assert (Hcore : dom <> [] -> (core_entries p hybrid rl).1 <> []) by (pose proof (core_names rl Hin) as H; by rewrite El in H).
  assert (Hr : t ∈ (if negb (bool_decide (Source rl = "")) && singboxConsumableSource rl then ["rs-" +:+ rl_ID rl] else []) -> t ∈ (remote_set unicode_lower rl detour).*1).
  { unfold remote_set. destruct (negb (bool_decide (Source rl = "")) && singboxConsumableSource rl); [done|by intros ?%elem_of_nil]. }
  destruct (hybrid && (kernelEgress p (rl_Outbound rl) && bool_decide (Source rl = "") && ((length dom =? 0)%nat && (0 <? length ips)%nat))) eqn:Ek.
  - rewrite !andb_true_iff in Ek. destruct Ek as [-> [[Hk Hs] [Hd Hi]]]. rewrite Hk, Hs in Ht. destruct dom; [|done]. destruct ips; [done|]. by apply elem_of_nil in Ht.
  - rewrite fmap_app, elem_of_app. apply elem_of_app in Ht as [Ht|Ht]; [by left; apply Hr|right].
    assert (Hin' : core_entries p hybrid rl <> ([], []) /\ t = "rsm-" +:+ rl_ID rl).
    { destruct (negb (nil dom && nil ips) && _) eqn:Ee; [|by apply elem_of_nil in Ht]. apply list_elem_of_singleton in Ht. split; [|done].
      destruct dom as [|x dom]; [|intros H; apply Hcore; [done|by rewrite H]]. apply andb_true_iff in Ee as [Ee Ekr]. destruct ips as [|y ips]; [done|].
      unfold core_entries. cbn [length Nat.eqb Nat.ltb Nat.leb andb] in Ek. rewrite andb_true_r in Ek.
      destruct (hybrid && kernelEgress p (rl_Outbound rl) && bool_decide (Source rl = "") && _ && _) eqn:Ec; [|by rewrite El].
      rewrite !andb_true_iff in Ec. destruct Ec as [[[[-> Hk] Hs] _] _]. by rewrite Hk, Hs in Ek. }
    destruct Hin' as [Hne ->]. unfold inline_set. destruct (core_entries p hybrid rl) as [ds addrs]. destruct (nil ds && nil addrs) eqn:En; [|left].
    apply andb_true_iff in En as [->%nil_true ->%nil_true]. done.
Qed.
End lists.

(** ** What the profile and the options must not ask for

    What validation accepts and the generator cannot wire: each clause is needed
    ([GenTheorems.stray_download], [GenTheorems.stray_default], [GenTheorems.stray_detour],
    [GenTheorems.stray_resolver], [GenTheorems.stray_nested], [GenTheorems.stray_feed]). *)
Section clean.
Context (unicode_lower : bytes -> bytes).
Record clean (p : Profile) (opts : Options) : Prop := {
  cl_download : forall rl, rl ∈ RoutingLists p -> rl_Enabled rl = true -> canonicalOutbound unicode_lower (DownloadVia rl) <> OutboundBlock;
  cl_default : RuleSetDetour opts = "" \/ canonicalOutbound unicode_lower (RuleSetDetour opts) = OutboundDirect \/
    (live p (RuleSetDetour opts) /\ (Hybrid opts = true -> RuleSetDetour opts ∈ hybridReachable unicode_lower p));
  cl_detour : forall d s, DNS p = Some d -> s ∈ dns_Servers d -> ds_Enabled s = true -> is_network s ->
    trim (ds_Detour s) = ds_Detour s /\ canonicalOutbound unicode_lower (ds_Detour s) <> OutboundBlock /\
    trim (ds_DomainResolver s) = ds_DomainResolver s;
  cl_nested : Hybrid opts = true -> forall g m, g ∈ Groups p -> m ∈ gr_Members g -> kernelEgress p m = true ->
    kernelEgress p (gr_ID g) = true \/ m ∈ hybridReachable unicode_lower p;
  cl_feeds : Hybrid opts = true -> forall rl, rl ∈ RoutingLists p -> (splitDomainsIPs (CIDRCache rl)).1 = []
}.
End clean.

Section wiring.
Context (sha256 : bytes -> bytes) (unicode_lower unicode_upper : bytes -> bytes) (unicode_fold : bytes -> bytes -> bool).
Context (proto_problem : Endpoint -> option string) {R : Renderer} {RL : RendererLaws R}.
Hypothesis fold_lower : forall o, isBlock unicode_fold o = bool_decide (lower unicode_lower o = OutboundBlock).
Context (p : Profile) (opts : Options) (b : built).
Hypothesis Hb : build sha256 unicode_lower unicode_upper unicode_fold proto_problem p opts = inr b.
Hypothesis Hc : clean unicode_lower p opts.
Abbreviation canonicalOutbound := (canonicalOutbound unicode_lower).
Abbreviation T := (probeExitTags (bu_out b) (bu_end b)).
Abbreviation hybrid := (Hybrid opts).
Lemma wired_appliable : appliable unicode_lower unicode_upper proto_problem p.
Proof. eapply built_appliable; exact Hb. Qed.
Let Hap := wired_appliable.
Lemma T_direct : OutboundDirect ∈ T.
Proof. by eapply direct_exit. Qed.
Lemma T_goes o : goes unicode_lower p o -> canonicalOutbound o <> OutboundBlock ->
  (hybrid = true -> live p o -> o ∈ hybridReachable unicode_lower p) -> canonicalOutbound o ∈ T.
Proof.
  intros Hg Hn Hr. eapply goes_exit; try done. intros Hy Hl _. unfold reachable_of. rewrite Hy. by apply Hr.
Qed.
Lemma T_policy rl name : rl ∈ RoutingLists p -> rl_Enabled rl = true -> NDMPolicyName (rl_Outbound rl) = Some name -> rl_Outbound rl ∈ T.
Proof. intros. by eapply policy_exit. Qed.
Lemma default_detour_ok : RuleSetDetour opts = "" \/ canonicalOutbound (RuleSetDetour opts) ∈ T.
Proof.
  destruct (cl_default _ _ _ Hc) as [H|[H|[H1 H2]]]; [by left|right; rewrite H; apply T_direct|right].
  destruct (live_named Hap _ H1) as [_ Hnb]. rewrite canonical_other by done. rewrite <- (canonical_other unicode_lower (RuleSetDetour opts)) by done.
  apply T_goes; [by right| |by intros Hy _; apply H2]. rewrite canonical_other by done. intros E. rewrite E in Hnb. vm_compute in Hnb. discriminate Hnb.
Qed.
Lemma members_wired o t : o ∈ bu_out b -> t ∈ as_strings (o !! "outbounds") -> t ∈ T.
Proof.
  intros Ho Ht. eapply built_members in Ht as (g & Hg & Hm); [|exact RL|exact Hb|exact Ho]. apply list_elem_of_filter in Hg as [Hk Hg].
  pose proof (ap_groups _ _ _ _ Hap) as F. rewrite Forall_forall in F. destruct (F g Hg) as (_ & _ & _ & Hmem). rewrite Forall_forall in Hmem.
  destruct (Hmem t Hm) as [->|(_ & _ & Hl)]; [apply T_direct|]. eapply live_exit; [done..|]. intros Hy.
  destruct (kernelEgress p t) eqn:Ek; [left|by right]. unfold reachable_of. rewrite Hy.
  destruct (cl_nested _ _ _ Hc Hy g t Hg Hm Ek) as [Hkg|Hr]; [|done].
  unfold omit_group in Hk. rewrite Hy, Hkg in Hk. cbn in Hk. apply negb_false_iff, bool_decide_eq_true in Hk. unfold reachable_of in Hk. rewrite Hy in Hk.
  eapply hybridReachable_closed; [exact Hk|by apply (group_found Hap)|done].
Qed.

(** ** The routing *)
Definition tags := probe_tags opts (bu_out b) (bu_end b) (bu_plug b).
Definition st := route_state unicode_lower unicode_fold p hybrid.
Definition list_sets := rl ← RoutingLists p; (list_parts unicode_lower p hybrid (RuleSetDetour opts) rl).*2.
Definition sets0 := (ro_geo st).1 ++ list_sets.
Definition plane := dns_plane unicode_lower p opts sets0.
Definition extra := match plane with Some (_, s) => s | None => [] end.
Definition block_rule : list obj := if ro_block st then [blockAllRule] else [].
Definition all_list_rules := list_rules unicode_lower unicode_fold p hybrid (RuleSetDetour opts) true (RoutingLists p)
  ++ list_rules unicode_lower unicode_fold p hybrid (RuleSetDetour opts) false (RoutingLists p).
Lemma routing_eq : let r := bu_routing b in
  text_at (rt_route r) "final" = Some (ro_final st) /\ rt_sets r = sets0 ++ extra /\
  as_objects (rt_route r !! "rule_set") = sets0 ++ extra /\
  as_objects (rt_route r !! "rules") = guards sha256 p opts tags ++ ro_rules st ++ all_list_rules ++ block_rule /\
  rt_dns r = fst <$> plane /\ rt_guards r = length (guards sha256 p opts tags) /\
  (forall m, as_object (rt_route r !! "default_domain_resolver") = Some m ->
     exists block s, plane = Some (block, s) /\ dnsDefaultResolverTag unicode_lower block <> "" /\
       m = object [("server", AString (dnsDefaultResolverTag unicode_lower block))]).
Proof.
  pose proof (build_inv _ _ _ _ _ _ _ _ Hb) as (_ & s' & obs & _ & _ & _ & _ & _ & -> & _). fold tags. unfold routing_of, routeFrom.
  fold st. rewrite routingFrom_eq. fold list_sets all_list_rules. fold sets0. fold plane. fold extra. cbn [fst snd].
  set (route0 := set_if (negb (nil (ro_rules st))) "rules" (AMaps (ro_rules st)) (object [("final", AString (ro_final st))])).
  set (route1 := set_if (negb (nil (sets0 ++ extra))) "rule_set" (AMaps (sets0 ++ extra)) route0).
  assert (Hr1 : as_objects (route1 !! "rules") = ro_rules st).
  { unfold route1, route0. rewrite set_if_other by done. by apply objects_set. }
  fold block_rule. rewrite Hr1. set (rules := guards sha256 p opts tags ++ _ ++ _ ++ block_rule).
  assert (Hrules : route1 !! "final" = Some (AString (ro_final st)) /\ as_objects (route1 !! "rule_set") = sets0 ++ extra /\ route1 !! "default_domain_resolver" = None).
  { unfold route1, route0. split_and!; [by rewrite !set_if_other|apply objects_set; by rewrite set_if_other|by rewrite !set_if_other]. }
  destruct Hrules as (Hf & Hs & Hd). set (route2 := set_if (negb (nil rules)) "rules" (AMaps rules) route1).
  assert (H2 : as_objects (route2 !! "rules") = rules).
  { unfold route2. destruct rules eqn:E; cbn; [|by rewrite lookup_insert_eq]. unfold rules in E. apply app_nil in E as [_ [E _]%app_nil]. by rewrite Hr1. }
  assert (Ho : forall k, k <> "rules" -> route2 !! k = route1 !! k) by (intros k Hk; unfold route2; by rewrite set_if_other).
  assert (Hs2 : as_objects (route2 !! "rule_set") = sets0 ++ extra) by (by rewrite Ho).
  assert (Hf2 : text_at route2 "final" = Some (ro_final st)) by (unfold text_at; rewrite Ho by done; by rewrite Hf).
  assert (Hd2 : route2 !! "default_domain_resolver" = None) by (by rewrite Ho).
  destruct plane as [[block xs]|]; cbn [rt_route rt_sets rt_dns rt_guards].
  - unfold text_at in *. rewrite !set_if_other by done. split_and!; try done. intros m Hm.
    destruct (bool_decide_reflect (dnsDefaultResolverTag unicode_lower block = "")) as [E|E]; cbn in Hm; [by rewrite Hd2 in Hm|].
    rewrite lookup_insert_eq in Hm. injection Hm as <-. by exists block, xs.
  - split_and!; try done. intros m Hm. by rewrite Hd2 in Hm.
Qed.

Ltac given := first [exact fold_lower|exact Hap|exact T_direct|exact T_goes|exact T_policy|exact (cl_download _ _ _ Hc)|exact default_detour_ok|eassumption].

(** ** Each kind of reference *)
Lemma st_ok : routes_ok T st.
Proof. unfold st. eapply route_state_ok; given. Qed.
Lemma list_sets_ok s : s ∈ list_sets -> s !! "http_client" = None /\ forall t, text_at s "download_detour" = Some t -> t ∈ T.
Proof.
  unfold list_sets. eapply list_set_ok; given.
Qed.
Lemma list_rules_ok r : r ∈ all_list_rules ->
  (forall t, text_at r "outbound" = Some t -> t ∈ T) /\ (forall t, t ∈ set_refs r -> t ∈ obj_tags list_sets).
Proof.
  unfold all_list_rules. intros [H|H]%elem_of_app; eapply list_rule_ok; given.
Qed.
Lemma probe_tags_exits t : t ∈ tags -> t ∈ T.
Proof. unfold tags, probe_tags. destruct (_ && _); [by intros ?%elem_of_nil|done]. Qed.
Lemma guards_ok r : r ∈ guards sha256 p opts tags ->
  (forall t, text_at r "outbound" = Some t -> t ∈ T) /\ (forall t, t ∈ set_refs r -> False).
Proof.
  unfold guards. rewrite !elem_of_app. intros [H|[H|H]].
  - unfold probeRules in H. destruct (probeInbound _ _ _ _); [|by apply elem_of_nil in H].
    apply list_elem_of_fmap in H as (x & -> & Hx). split; [intros t [= <-]; by apply probe_tags_exits|intros t Ht; by apply elem_of_nil in Ht].
  - destruct (TunEnabled opts); [|by apply elem_of_nil in H]. apply list_elem_of_singleton in H as ->. split; [done|intros t Ht; by apply elem_of_nil in Ht].
  - destruct (endpointBypass p); [by apply elem_of_nil in H|]. apply list_elem_of_singleton in H as ->.
    split; [intros t [= <-]; exact T_direct|intros t Ht; by apply elem_of_nil in Ht].
Qed.
Lemma block_rule_ok r : r ∈ block_rule -> text_at r "outbound" = None /\ forall t, t ∈ set_refs r -> False.
Proof.
  unfold block_rule. destruct (ro_block st); [|by intros ?%elem_of_nil]. intros ->%list_elem_of_singleton. split; [done|]. intros t Ht. by apply elem_of_nil in Ht.
Qed.
Lemma geo_tags t : t ∈ (ro_geo st).2 -> t ∈ obj_tags sets0.
Proof.
  destruct st_ok as [_ (G & _) _ _]. intros Ht. unfold sets0. rewrite obj_tags_app, elem_of_app. destruct (G t Ht) as [H|H]; [by apply not_elem_of_empty in H|by left].
Qed.

(** The DNS plane, when there is one. *)
Record plane_ok (block : obj) (xs : list obj) : Prop := {
  po_tags : forall o d s, o ∈ as_objects (block !! "servers") -> DNS p = Some d -> s ∈ kept_servers unicode_lower d (TunEnabled opts) (CoreVersion opts) ->
    ds_Tag s ∈ obj_tags (as_objects (block !! "servers"));
  po_servers : forall o, o ∈ as_objects (block !! "servers") -> exists d s, DNS p = Some d /\ dns_fine unicode_lower (live p) (is_list p) (Endpoints p) d /\
    s ∈ kept_servers unicode_lower d (TunEnabled opts) (CoreVersion opts) /\ o = server_json unicode_lower s;
  po_rules : forall r, r ∈ as_objects (block !! "rules") ->
    (forall t, text_at r "server" = Some t -> t ∈ obj_tags (as_objects (block !! "servers"))) /\ (forall t, t ∈ set_refs r -> t ∈ obj_tags (sets0 ++ xs));
  po_final : forall t, text_at block "final" = Some t -> t ∈ obj_tags (as_objects (block !! "servers"));
  po_resolver : dnsDefaultResolverTag unicode_lower block <> "" -> dnsDefaultResolverTag unicode_lower block ∈ obj_tags (as_objects (block !! "servers"));
  po_extra : forall s, s ∈ xs -> text_at s "download_detour" = Some OutboundDirect /\ s !! "http_client" = None
}.
Lemma dns_facts d : dns_fine unicode_lower (live p) (is_list p) (Endpoints p) d ->
  (forall s, s ∈ dns_Servers d -> ds_Tag s <> "") /\
  (forall r, r ∈ dns_Rules d -> dr_Disabled r = false -> dr_Server r <> "reject" -> dr_Server r ∈ ds_Tag <$> dns_Servers d) /\
  (dns_Final d <> "" -> dns_Final d ∈ ds_Tag <$> dns_Servers d).
Proof.
  intros F. split_and!.
  - intros s Hs E. pose proof (df_servers _ _ _ _ _ F) as G. rewrite Forall_forall in G. destruct (G s Hs) as [Ht _ _ _ _ _]. rewrite E in Ht. by vm_compute in Ht.
  - intros r Hr Hd Hn. pose proof (df_rules _ _ _ _ _ F) as G. rewrite Forall_forall in G. destruct (G r Hr) as (_ & H). destruct (H Hd) as (_ & _ & [E|(t & Ht & <- & _)]); [done|].
    by apply list_elem_of_fmap_2.
  - intros Hf. destruct (df_final _ _ _ _ _ F Hf) as (t & Ht & <- & _). by apply list_elem_of_fmap_2.
Qed.
Lemma plane_all block xs : plane = Some (block, xs) -> plane_ok block xs.
Proof.
  unfold plane, dns_plane. intros (d & Ed & H)%bind_Some. destruct (dns_Enabled d); [|done]. injection H as H.
  pose proof (ap_dns _ _ _ _ Hap d Ed) as F. destruct (dns_facts d F) as (F1 & F2 & F3).
  assert (Hseen : forall id t, t ∈ dnsListTags p id hybrid -> t ∈ set_tags sets0).
  { intros id t Ht. unfold set_tags. apply elem_of_list_to_set. unfold sets0. rewrite obj_tags_app. apply elem_of_app. right.
    eapply list_sets_tags. eapply dnsListTags_parts; [exact (cl_feeds _ _ _ Hc)|exact Ht]. }
  destruct (dnsFrom_eq unicode_lower p d (TunEnabled opts) hybrid (CoreVersion opts) (set_tags sets0)) as (block' & E & Hk).
  rewrite E in H. injection H as -> <-.
  pose proof (dns_rules_all unicode_lower p d (TunEnabled opts) hybrid (CoreVersion opts) (set_tags sets0) Hseen F2) as [G S R'].
  assert (Es : as_objects (block !! "servers") = server_json unicode_lower <$> kept_servers unicode_lower d (TunEnabled opts) (CoreVersion opts)).
  { rewrite Hk by (apply (bool_decide_unpack _); by vm_compute). apply block_servers. }
  assert (Hkt : forall t, t ∈ ds_Tag <$> kept_servers unicode_lower d (TunEnabled opts) (CoreVersion opts) <-> t ∈ obj_tags (as_objects (block !! "servers"))).
  { intros t. rewrite Es. by apply kept_tags. }
  split.
  - intros o d' s _ E' Hs. rewrite Ed in E'. injection E' as <-. apply Hkt. by apply list_elem_of_fmap_2.
  - intros o. rewrite Es. intros (s & -> & Hs)%list_elem_of_fmap. by exists d, s.
  - intros r. rewrite Hk by (apply (bool_decide_unpack _); by vm_compute). rewrite block_rules. intros Hr. split.
    + intros t Ht. apply Hkt. by eapply S.
    + intros t Ht. specialize (R' r t Hr Ht). destruct G as (G & _). rewrite obj_tags_app, elem_of_app.
      destruct (G t R') as [H|H]; [left|by right]. by apply elem_of_list_to_set in H.
  - intros t. unfold text_at. rewrite Hk by (apply (bool_decide_unpack _); by vm_compute). intros Ht. apply Hkt. by eapply block_final.
  - intros Hr. apply Hkt. eapply block_resolver; [exact Es|done].
  - intros s Hs. destruct G as (_ & G & _). by apply G.
Qed.

Lemma vpn_wired id proto : vpn_serves (Endpoints p) proto id -> proto ∈ [ProtoOpenVPN; ProtoOpenConnect] -> id ∈ obj_tags (bu_end b).
Proof.
  intros [Hne Hf] Hp. unfold vpnResolverFault in Hf. destruct (find_by ep_ID id (Endpoints p)) as [e|] eqn:Ef; [|done]. cbn [snd] in Hf.
  apply find_by_Some in Ef as [He Hid].
  destruct (bool_decide_reflect (ep_Protocol e = proto)) as [Ep|]; [|done]. destruct (bool_decide_reflect (ep_Engine e = EngineSingBox)) as [Ee|]; [|done].
  destruct (ep_Enabled e) eqn:En; [|done]. pose proof (build_inv _ _ _ _ _ _ _ _ Hb) as (_ & s' & obs & Hst & _ & _ & Hend & _).
  rewrite Hend. apply (emit_each opts (omitted unicode_lower p opts)) in Hst as [_ _ V _]. apply elem_of_obj_tags. split; [done|].
  assert (Hv : ep_ID e ∈ tag_of <$> em_end s').
  { apply V; [done| |].
    - unfold emits, kernel_engine. rewrite En, bool_decide_false; [done|]. rewrite Ee. by apply (bool_decide_unpack (_ ∉ _)); vm_compute.
    - unfold vpn_endpoint. rewrite !bool_decide_true; [done|by rewrite Ep|done]. }
  apply list_elem_of_fmap in Hv as (o & Ho & Hin). exists o. split; [done|]. by rewrite <- Hid, Ho.
Qed.
Lemma server_network d s : dns_fine unicode_lower (live p) (is_list p) (Endpoints p) d -> s ∈ dns_Servers d ->
  ds_Type s ∉ ["local"; "fakeip"; "openvpn"; "openconnect"] -> is_network s.
Proof.
  intros F Hs Hn. pose proof (df_servers _ _ _ _ _ F) as G. rewrite Forall_forall in G. destruct (G s Hs) as [_ Ht _ _ _ _].
  rewrite !not_elem_of_cons in Hn. destruct Hn as (? & ? & ? & ? & _). destruct (valid_type_cases _ Ht) as [H'|[H'|[H'|H']]]; [done..| |done].
  rewrite !elem_of_cons, elem_of_nil in H'. naive_solver.
Qed.
Lemma kept_on d s : s ∈ kept_servers unicode_lower d (TunEnabled opts) (CoreVersion opts) -> s ∈ dns_Servers d /\ ds_Enabled s = true.
Proof.
  unfold kept_servers. intros [Hd Hs]%list_elem_of_filter. split; [done|]. unfold drops in Hd. rewrite !orb_false_iff, negb_false_iff in Hd. by destruct Hd as [[? _] _].
Qed.
Lemma detour_wired block xs o t : plane_ok block xs -> o ∈ as_objects (block !! "servers") -> text_at o "detour" = Some t -> t ∈ T.
Proof.
  intros P Ho Ht. destruct (po_servers _ _ P o Ho) as (d & s & Ed & F & Hs & ->). destruct (kept_on d s Hs) as [Hin Hen].
  destruct (server_refs unicode_lower s t) as (Hd & _ & _). destruct (Hd Ht) as (Hty & -> & Hne & _).
  pose proof (server_network d s F Hin Hty) as Hnet. destruct (cl_detour _ _ _ Hc d s Ed Hin Hen Hnet) as (Htr & Hbl & _). rewrite Htr in *.
  pose proof (df_servers _ _ _ _ _ F) as G. rewrite Forall_forall in G. destruct (sf_network _ _ _ _ _ (G s Hin) Hnet) as [_ [E|[_ Hr]]].
  - rewrite E in Hne. by vm_compute in Hne.
  - apply T_goes; [done..|]. intros Hy Hl. apply root_reachable. unfold roots. rewrite !elem_of_app. do 2 right. rewrite Ed.
    apply list_elem_of_bind. exists s. split; [|done]. unfold server_roots. destruct (network_not_vpn unicode_lower _ Hnet) as [-> Hnl].
    rewrite Hen. rewrite !bool_decide_false; [cbn; rewrite (root_of Hap) by done; left| |].
    + rewrite !not_elem_of_cons in *. naive_solver.
    + by destruct (live_named Hap _ Hl).
Qed.
Lemma endpoint_wired block xs o t : plane_ok block xs -> o ∈ as_objects (block !! "servers") -> text_at o "endpoint" = Some t -> t ∈ obj_tags (bu_end b).
Proof.
  intros P Ho Ht. destruct (po_servers _ _ P o Ho) as (d & s & Ed & F & Hs & ->). destruct (kept_on d s Hs) as [Hin Hen].
  destruct (server_refs unicode_lower s t) as (_ & Hd & _). destruct (Hd Ht) as (Hty & ->).
  pose proof (df_servers _ _ _ _ _ F) as G. rewrite Forall_forall in G. pose proof (sf_vpn _ _ _ _ _ (G s Hin)) as Hv.
  rewrite !elem_of_cons, elem_of_nil in Hty. destruct Hty as [E|[E|[]]]; rewrite E in Hv.
  - eapply vpn_wired; [by apply (Hv ProtoOpenVPN)|left].
  - eapply vpn_wired; [by apply (Hv ProtoOpenConnect)|right; left].
Qed.
Lemma bootstrap_wired block xs o t : plane_ok block xs -> o ∈ as_objects (block !! "servers") -> text_at o "domain_resolver" = Some t ->
  t ∈ obj_tags (as_objects (block !! "servers")).
Proof.
  intros P Ho Ht. destruct (po_servers _ _ P o Ho) as (d & s & Ed & F & Hs & ->). destruct (kept_on d s Hs) as [Hin Hen].
  destruct (server_refs unicode_lower s t) as (_ & _ & Hd). destruct (Hd Ht) as (Hty & -> & Hbl).
  pose proof (server_network d s F Hin Hty) as Hnet. destruct (cl_detour _ _ _ Hc d s Ed Hin Hen Hnet) as (_ & _ & Htr).
  pose proof (df_bootstrap _ _ _ _ _ F) as G. rewrite Forall_forall in G. destruct (G s Hin Hen Hnet) as (s' & Hs' & Et & En' & Hf & _ & Hv).
  - by apply bool_decide_eq_false in Hbl.
  - rewrite <- Htr, <- Et. apply (po_tags _ _ P _ d s' Ho Ed). apply list_elem_of_filter. split; [|done].
    unfold drops. by rewrite En', Hv, (bool_decide_false (ds_Type s' = "fakeip")).
Qed.

Lemma text_server x t : text_at (object [("server", AString x)]) "server" = Some t -> t = x.
Proof. by intros [= <-]. Qed.
Lemma plane_fine : plane_ok (default ∅ (fst <$> plane)) extra.
Proof.
  unfold extra. destruct plane as [[block xs]|] eqn:E; cbn; [by apply plane_all|]. split; try (intros o d s H; by apply elem_of_nil in H).
  - intros o H. by apply elem_of_nil in H.
  - intros r H. by apply elem_of_nil in H.
  - done.
  - done.
  - intros s H. by apply elem_of_nil in H.
Qed.

(** ** Before the schema of the engine's version *)
Lemma sets_ok s : s ∈ sets0 ++ extra -> s !! "http_client" = None /\ forall t, text_at s "download_detour" = Some t -> t ∈ T.
Proof.
  rewrite elem_of_app. unfold sets0. rewrite elem_of_app. intros [[H|H]|H]; [|by apply list_sets_ok|].
  - destruct st_ok as [_ (_ & G & _) _ _]. destruct (G s H) as [E ->]. split; [done|]. rewrite E. intros t [= <-]. exact T_direct.
  - destruct (po_extra _ _ plane_fine s H) as [E ->]. split; [done|]. rewrite E. intros t [= <-]. exact T_direct.
Qed.
Lemma rules_ok r : r ∈ guards sha256 p opts tags ++ ro_rules st ++ all_list_rules ++ block_rule ->
  (forall t, text_at r "outbound" = Some t -> t ∈ T) /\ (forall t, t ∈ set_refs r -> t ∈ obj_tags (sets0 ++ extra)).
Proof.
  rewrite !elem_of_app. intros [H|[H|[H|H]]].
  - destruct (guards_ok r H) as [H1 H2]. split; [done|]. intros t Ht. by destruct (H2 t Ht).
  - split; [intros t Ht; by apply (rk_out _ _ st_ok r)|]. intros t Ht. rewrite obj_tags_app, elem_of_app. left. apply geo_tags. by eapply (rk_refs _ _ st_ok).
  - destruct (list_rules_ok r H) as [H1 H2]. split; [done|]. intros t Ht. unfold sets0. rewrite !obj_tags_app, !elem_of_app. left. right. by apply H2.
  - destruct (block_rule_ok r H) as [H1 H2]. split; [by rewrite H1|]. intros t Ht. by destruct (H2 t Ht).
Qed.
Lemma wired_before : wired_parts (bu_out b) (bu_end b) (rt_route (bu_routing b)) (default ∅ (rt_dns (bu_routing b))) [] /\
  forall s, s ∈ as_objects (rt_route (bu_routing b) !! "rule_set") -> s !! "http_client" = None.
Proof.
  destruct routing_eq as (Hf & _ & Hs & Hr & Hd & _ & Hres). pose proof plane_fine as P. rewrite <- Hd in P.
  split; [|intros s; rewrite Hs; apply sets_ok]. split.
  - exists (ro_final st). split; [done|apply st_ok].
  - intros r t. rewrite Hr. intros H. by apply rules_ok.
  - apply members_wired.
  - intros s t. rewrite Hs. intros H. by apply sets_ok.
  - intros c t H. by apply elem_of_nil in H.
  - intros s t. by eapply detour_wired.
  - intros s t. by eapply endpoint_wired.
  - intros s t. rewrite Hs. intros H. unfold text_at. by rewrite (proj1 (sets_ok s H)).
  - intros r t. rewrite Hr, Hs. intros H. by apply rules_ok.
  - intros r t H. rewrite Hs. by apply (po_rules _ _ P r).
  - intros r t H. by apply (po_rules _ _ P r).
  - intros t. apply (po_final _ _ P).
  - intros s t. by eapply bootstrap_wired.
  - intros m t Hm Ht. destruct (Hres m Hm) as (bl & xs & E & Hne & ->). apply text_server in Ht as ->.
    rewrite Hd, E in P. rewrite Hd, E. by apply (po_resolver _ _ P).
Qed.
End wiring.
