(* ===== verification/GenSchema.v ===== *)
(** * The schema of the engine's version keeps references

    [applyModernCoreSchema] renames the references of remote sets and [FitTUNToCore] touches none:
    what was wired stays wired. *)
From S2P Require Import Prelude Util GoStrings GoText Netip Model Faults PbrLists.
From S2P Require Import Json GenSplit GenRoute GenDns Override GenOutbound GenConfig GenEmit GenResolve.
From S2P Require Import GenRefs.
Local Open Scope Z_scope.

Definition renamed (s : obj) : obj :=
  match s !! "download_detour" with
  | Some (AString d) => <["http_client" := AString (ruleSetHTTPClientPrefix +:+ d)]> (delete "download_detour" s)
  | _ => s
  end.
Lemma text_at_Some m k t : text_at m k = Some t <-> m !! k = Some (AString t).
Proof. unfold text_at. destruct (m !! k) as [[]|]; naive_solver. Qed.
Lemma modern_sets sets : exists clients, foldl modern_set ([], ∅) sets = (renamed <$> sets, clients) /\
  forall k c, clients !! k = Some c <-> exists s d, s ∈ sets /\ text_at s "download_detour" = Some d /\ k = ruleSetHTTPClientPrefix +:+ d /\ c = http_client d.
Proof.
  induction sets as [|s sets IH] using rev_ind.
  - exists ∅. split; [done|]. intros k c. rewrite lookup_empty. split; [done|]. intros (s & d & Hs & _). by apply elem_of_nil in Hs.
  - destruct IH as (cl & E & Hcl). rewrite foldl_app, E. cbn [foldl]. unfold modern_set. rewrite fmap_app. cbn [fmap list_fmap].
    destruct (text_at s "download_detour") as [d|] eqn:Ed.
    + pose proof (proj1 (text_at_Some _ _ _) Ed) as Es.
      assert (Er : renamed s = <["http_client" := AString (ruleSetHTTPClientPrefix +:+ d)]> (delete "download_detour" s)) by (unfold renamed; by rewrite Es).
      rewrite Es, Er. eexists. split; [reflexivity|]. intros k c.
      assert (Hnew : forall k' c', <[ruleSetHTTPClientPrefix +:+ d := http_client d]> cl !! k' = Some c' <->
                exists s' d', s' ∈ sets ++ [s] /\ text_at s' "download_detour" = Some d' /\ k' = ruleSetHTTPClientPrefix +:+ d' /\ c' = http_client d').
      { intros k' c'. rewrite lookup_insert_Some, Hcl. setoid_rewrite elem_of_app. setoid_rewrite list_elem_of_singleton. split.
        - intros [[<- <-]|[_ (s' & d' & ? & ?)]]; [exists s, d; auto|exists s', d'; naive_solver].
        - intros (s' & d' & [Hs| ->] & Hd & -> & ->).
          + destruct (decide (d' = d)) as [->|Hne]; [by left|right]. split; [|by exists s', d'].
            intros H. apply Hne. apply (inj str). apply (f_equal str) in H. rewrite !str_app in H. by apply (inj (app _)) in H.
          + rewrite Ed in Hd. injection Hd as ->. by left. }
      destruct (cl !! (ruleSetHTTPClientPrefix +:+ d)) as [c0|] eqn:Ec; [|apply Hnew].
      rewrite <- Hnew. apply Hcl in Ec as (s' & d' & Hs & Hd & Hk & ->).
      assert (d' = d) as -> by (apply (inj str); apply (f_equal str) in Hk; rewrite !str_app in Hk; by apply (inj (app _)) in Hk).
      assert (cl !! (ruleSetHTTPClientPrefix +:+ d) = Some (http_client d)) by (apply Hcl; by exists s', d). by rewrite insert_id.
    + exists cl. split.
      * unfold renamed. destruct (s !! "download_detour") as [[]|] eqn:E'; try done. apply text_at_Some in E'. congruence.
      * intros k c. rewrite Hcl. setoid_rewrite elem_of_app. setoid_rewrite list_elem_of_singleton. split.
        -- intros (s' & d & Hs & Hd & Hk); exists s', d; split_and!; [by left|done|by apply Hk..].
        -- intros (s' & d & [Hs| ->] & Hd & Hk); [exists s', d; split_and!; [done|done|by apply Hk..]|congruence].
Qed.
Lemma elem_of_client_list clients c : c ∈ client_list clients <-> exists k, clients !! k = Some c.
Proof.
  unfold client_list. rewrite list_elem_of_omap. split; [naive_solver|]. intros [k H]. exists k. split; [|done].
  rewrite sort_strings_same. apply list_elem_of_fmap. exists (k, c). split; [done|]. by apply elem_of_map_to_list.
Qed.
Lemma renamed_tag s : get_str (renamed s) "tag" = get_str s "tag".
Proof. unfold renamed, get_str. case_match; try done. case_match; try done. by rewrite lookup_insert_ne, lookup_delete_ne. Qed.
Lemma renamed_tags sets : obj_tags (renamed <$> sets) = obj_tags sets.
Proof. unfold obj_tags. rewrite <- list_fmap_compose. f_equal. apply list_fmap_ext. intros i s _. apply renamed_tag. Qed.
Lemma renamed_detour s : text_at (renamed s) "download_detour" = None.
Proof.
  unfold renamed, text_at. destruct (s !! "download_detour") as [v|] eqn:E; [|by rewrite E]. destruct v; rewrite ?E; try done.
  by rewrite lookup_insert_ne, lookup_delete_eq.
Qed.
Lemma renamed_client s t : s !! "http_client" = None -> text_at (renamed s) "http_client" = Some t ->
  exists d, text_at s "download_detour" = Some d /\ t = ruleSetHTTPClientPrefix +:+ d.
Proof.
  intros Hn. unfold renamed, text_at. destruct (s !! "download_detour") as [v|] eqn:E; [|by rewrite Hn]. destruct v; rewrite ?Hn; try done.
  rewrite lookup_insert_eq. intros [= <-]. by eexists.
Qed.
Lemma client_tag d : get_str (http_client d) "tag" = ruleSetHTTPClientPrefix +:+ d.
Proof. unfold http_client, get_str. by rewrite set_if_other. Qed.
Lemma client_detour d t : text_at (http_client d) "detour" = Some t -> t = d.
Proof. unfold http_client, text_at, set_if. destruct (_ && _); [|done]. rewrite lookup_insert_eq. by intros [= <-]. Qed.

Lemma wired_parts_ext outs ends route route' dns dns' clients :
  (forall k, k ∈ ["final"; "rules"; "rule_set"; "default_domain_resolver"] -> route !! k = route' !! k) ->
  (forall k, k ∈ ["servers"; "rules"; "final"] -> dns !! k = dns' !! k) ->
  wired_parts outs ends route dns clients -> wired_parts outs ends route' dns' clients.
Proof.
  intros Hr Hd [H1 H2 H3 H4 H5 H6 H7 H8 H9 H10 H11 H12 H13 H14]. unfold text_at in *.
  rewrite (Hr "final") in * by (apply (bool_decide_unpack _); by vm_compute). rewrite (Hr "rules") in * by (apply (bool_decide_unpack _); by vm_compute).
  rewrite (Hr "rule_set") in * by (apply (bool_decide_unpack _); by vm_compute). rewrite (Hr "default_domain_resolver") in * by (apply (bool_decide_unpack _); by vm_compute).
  rewrite (Hd "servers") in * by (apply (bool_decide_unpack _); by vm_compute). rewrite (Hd "rules") in * by (apply (bool_decide_unpack _); by vm_compute).
  rewrite (Hd "final") in * by (apply (bool_decide_unpack _); by vm_compute). by split.
Qed.
(** The renaming, on the parts. *)
Lemma wired_renamed outs ends route dns clients sets : as_objects (route !! "rule_set") = sets ->
  (forall s, s ∈ sets -> s !! "http_client" = None) ->
  (forall k c, clients !! k = Some c <-> exists s d, s ∈ sets /\ text_at s "download_detour" = Some d /\ k = ruleSetHTTPClientPrefix +:+ d /\ c = http_client d) ->
  wired_parts outs ends route dns [] ->
  wired_parts outs ends (<["rule_set" := AMaps (renamed <$> sets)]> route) dns (client_list clients).
Proof.
  intros Hs Hn Hc [H1 H2 H3 H4 H5 H6 H7 H8 H9 H10 H11 H12 H13 H14]. rewrite Hs in *.
  assert (Ho : forall k, k <> "rule_set" -> <["rule_set" := AMaps (renamed <$> sets)]> route !! k = route !! k) by (intros k Hk; by rewrite lookup_insert_ne).
  assert (He : as_objects (<["rule_set" := AMaps (renamed <$> sets)]> route !! "rule_set") = renamed <$> sets) by (by rewrite lookup_insert_eq).
  split; unfold text_at in *; rewrite ?He, ?renamed_tags, ?Ho by done; try done.
  - intros s t (s0 & -> & Hs0)%list_elem_of_fmap Ht. pose proof (renamed_detour s0) as E. unfold text_at in E. by rewrite E in Ht.
  - intros c t (k & (s & d & Hin & Hd & -> & ->)%Hc)%elem_of_client_list Ht. apply client_detour in Ht as ->. by eapply H4.
  - intros s t (s0 & -> & Hs0)%list_elem_of_fmap Ht. apply renamed_client in Ht as (d & Hd & ->); [|by apply Hn].
    apply elem_of_obj_tags. split; [done|]. exists (http_client d). split; [|apply client_tag]. apply elem_of_client_list. eexists. apply Hc. by exists s0, d.
Qed.

(** ** The configuration *)
Lemma part_insert cfg k v : part (<[k := AMap v]> cfg) k = v.
Proof. unfold part. by rewrite lookup_insert_eq. Qed.
Lemma part_other cfg k v k' : k <> k' -> part (<[k := v]> cfg) k' = part cfg k'.
Proof. intros H. unfold part. by rewrite lookup_insert_ne. Qed.
(** [wired] looks at five keys. *)
Lemma wired_ext cfg cfg' :
  (forall k, k ∈ ["outbounds"; "endpoints"; "route"; "dns"; "http_clients"] -> cfg' !! k = cfg !! k) -> wired cfg -> wired cfg'.
Proof.
  intros H. unfold wired, part. rewrite !H; [done|apply (bool_decide_unpack _); by vm_compute..].
Qed.
Lemma wired_dns cfg dns : as_object (cfg !! "dns") = Some dns -> wired cfg -> wired (<["dns" := AMap (delete "independent_cache" dns)]> cfg).
Proof.
  intros Hd. unfold wired. rewrite part_insert, part_other, !lookup_insert_ne by done. apply wired_parts_ext; [done|].
  intros k Hk. unfold part. rewrite Hd. cbn [default from_option id]. rewrite lookup_delete_ne; [done|]. intros <-. revert Hk. apply (bool_decide_unpack (_ ∉ _)). by vm_compute.
Qed.
Lemma wired_modern cfg : cfg !! "http_clients" = None -> (forall s, s ∈ as_objects (part cfg "route" !! "rule_set") -> s !! "http_client" = None) ->
  wired cfg -> wired (applyModernCoreSchema cfg).
Proof.
  intros Hh Hn Hw. unfold applyModernCoreSchema.
  set (cfg1 := match as_object (cfg !! "dns") with Some dns => _ | None => cfg end).
  assert (Hw1 : wired cfg1) by (unfold cfg1; destruct (as_object (cfg !! "dns")) eqn:E; [by apply wired_dns|done]).
  assert (Ho : forall k, k <> "dns" -> cfg1 !! k = cfg !! k) by (intros k Hk; unfold cfg1; destruct (as_object (cfg !! "dns")); [by rewrite lookup_insert_ne|done]).
  destruct (as_object (cfg1 !! "route")) as [route|] eqn:Er; [|done].
  assert (Hp : part cfg1 "route" = route) by (unfold part; by rewrite Er).
  assert (Hp0 : part cfg "route" = route) by (unfold part; rewrite <- Ho by done; by rewrite Er).
  rewrite Hp0 in Hn. destruct (modern_sets (as_objects (route !! "rule_set"))) as (cl & -> & Hcl).
  assert (Hnil : as_objects (cfg1 !! "http_clients") = []) by (by rewrite Ho, Hh).
  assert (Hw2 : wired_parts (as_objects (cfg1 !! "outbounds")) (as_objects (cfg1 !! "endpoints")) route (part cfg1 "dns") []).
  { unfold wired in Hw1. by rewrite Hp, Hnil in Hw1. }
  destruct (route !! "rule_set") as [v|] eqn:Es.
  2:{ assert (cl = ∅) as ->; [|by rewrite map_size_empty]. apply map_empty. intros k. destruct (cl !! k) as [c|] eqn:Ek; [|done].
      apply Hcl in Ek as (s & d & Hs & _). by apply elem_of_nil in Hs. }
  destruct v; cbn [as_objects] in *; try (assert (cl = ∅) as ->; [|by rewrite map_size_empty]; apply map_empty; intros k; destruct (cl !! k) as [c|] eqn:Ek; [|done];
    apply Hcl in Ek as (s' & d & Hs & _); by apply elem_of_nil in Hs).
  assert (Hw3 : wired_parts (as_objects (cfg1 !! "outbounds")) (as_objects (cfg1 !! "endpoints")) (<["rule_set" := AMaps (renamed <$> l)]> route) (part cfg1 "dns") (client_list cl)).
  { apply wired_renamed; [by rewrite Es|exact Hn|exact Hcl|done]. }
  destruct (size cl =? 0)%nat eqn:Esz.
  - apply Nat.eqb_eq, map_size_empty_iff in Esz as ->. unfold wired. rewrite part_insert, part_other, !lookup_insert_ne, Hnil by done. exact Hw3.
  - unfold wired. rewrite lookup_insert_eq, !(lookup_insert_ne _ "http_clients"), !(part_other _ "http_clients"), part_insert, part_other, !lookup_insert_ne by done. exact Hw3.
Qed.
Lemma wired_fit_tun cfg v : wired cfg -> wired (FitTUNToCore cfg v).
Proof.
  apply wired_ext. intros k Hk. assert (k <> "inbounds") by (intros ->; revert Hk; apply (bool_decide_unpack (_ ∉ _)); by vm_compute).
  unfold FitTUNToCore. destruct (TUNStackAccepted v); [done|]. destruct (cfg !! "inbounds") as [[]|]; try done; by rewrite lookup_insert_ne.
Qed.
Lemma wired_fit opts cfg : cfg !! "http_clients" = None -> (forall s, s ∈ as_objects (part cfg "route" !! "rule_set") -> s !! "http_client" = None) ->
  wired cfg -> wired (fit opts cfg).
Proof. intros H1 H2 Hw. unfold fit. apply wired_fit_tun. destruct (modernCore _); [by apply wired_modern|done]. Qed.

(** What [assemble] puts under the keys read here. *)
Lemma assembled opts outs ends ins g r : let cfg := assemble opts outs ends ins g r in
  cfg !! "outbounds" = Some (AMaps outs) /\ as_objects (cfg !! "endpoints") = ends /\ cfg !! "inbounds" = Some (AMaps ins) /\
  part cfg "route" = rt_route r /\ part cfg "dns" = default ∅ (rt_dns r) /\ cfg !! "http_clients" = None.
Proof.
  unfold assemble. cbn zeta. set (c0 := object [("outbounds", AMaps outs)]). set (c1 := set_if (negb (nil ends)) "endpoints" (AMaps ends) c0).
  set (c2 := <["route" := AMap (rt_route r)]> (<["inbounds" := AMaps ins]> c1)).
  set (c3 := match rt_dns r with Some block => <["dns" := AMap block]> c2 | None => c2 end).
  assert (H3 : forall k, k <> "dns" -> c3 !! k = c2 !! k) by (intros k Hk; unfold c3; destruct (rt_dns r); [by rewrite lookup_insert_ne|done]).
  assert (Hd : part c3 "dns" = default ∅ (rt_dns r)).
  { unfold c3. destruct (rt_dns r) as [bl|]; [by rewrite part_insert|]. unfold part, c2. rewrite !lookup_insert_ne by done. unfold c1. by rewrite set_if_other. }
  unfold part in *. split_and!; rewrite ?set_if_other, ?lookup_insert_ne by done; [..|done|]; try rewrite H3 by done; unfold c2.
  - rewrite !lookup_insert_ne by done. unfold c1. by rewrite set_if_other.
  - rewrite !lookup_insert_ne by done. unfold c1. by apply objects_set.
  - by rewrite lookup_insert_ne, lookup_insert_eq.
  - by rewrite lookup_insert_eq.
  - rewrite !lookup_insert_ne by done. unfold c1. by rewrite set_if_other.
Qed.
