(* ===== verification/GenTheorems.v ===== *)
(** * The generated configuration

    [generated_config_is_wired]: what [Generate] returns with a blank override has no dangling
    reference, for the renderers of [GenOutbound]. [dangling] lists the dangling references of any
    configuration, so the profiles that need each clause of [GenWiring.clean] are shown by evaluation. *)
From S2P Require Import Prelude Util GoStrings GoText GoCodec Netip Model Faults Dns PbrLists Validate Json.
From S2P Require Import GenSplit.
From S2P Require Import GenRoute GenDns.
From S2P Require Import Override OverrideTheorems EndpointLoads GenOutbound GenFields GenConfig.
From S2P Require Import GenEmit GenResolve GenWiring GenSchema.
Local Open Scope Z_scope.

(** ** Dangling references, listed *)
Definition refs (l : list obj) (k : string) : list string := omap (fun o => text_at o k) l.
Definition missing (l tags : list string) : list string := filter (fun t => t ∉ tags) l.
Definition dangling_parts (outs ends : list obj) (route dns : obj) (clients : list obj) : list string :=
  let exits := probeExitTags outs ends in
  let sets := as_objects (route !! "rule_set") in
  let servers := as_objects (dns !! "servers") in
  missing (option_list (text_at route "final") ++ refs (as_objects (route !! "rules")) "outbound" ++ (o ← outs; as_strings (o !! "outbounds"))
           ++ refs sets "download_detour" ++ refs clients "detour" ++ refs servers "detour") exits
  ++ missing (refs servers "endpoint") (obj_tags ends)
  ++ missing (refs sets "http_client") (obj_tags clients)
  ++ missing ((r ← as_objects (route !! "rules"); set_refs r) ++ (r ← as_objects (dns !! "rules"); set_refs r)) (obj_tags sets)
  ++ missing (refs (as_objects (dns !! "rules")) "server" ++ option_list (text_at dns "final") ++ refs servers "domain_resolver"
              ++ match as_object (route !! "default_domain_resolver") with Some m => option_list (text_at m "server") | None => [] end) (obj_tags servers).
Definition dangling (cfg : obj) : list string :=
  dangling_parts (as_objects (cfg !! "outbounds")) (as_objects (cfg !! "endpoints")) (part cfg "route") (part cfg "dns") (as_objects (cfg !! "http_clients")).
Lemma elem_of_refs l k t : t ∈ refs l k <-> exists o, o ∈ l /\ text_at o k = Some t.
Proof. unfold refs. apply list_elem_of_omap. Qed.
Lemma missing_nil l tags : missing l tags = [] <-> forall t, t ∈ l -> t ∈ tags.
Proof.
  unfold missing. split.
  - intros H t Ht. destruct (decide (t ∈ tags)); [done|]. assert (t ∈ filter (fun t => t ∉ tags) l) as Hin by by apply list_elem_of_filter.
    rewrite H in Hin. by apply elem_of_nil in Hin.
  - intros H. destruct (filter _ l) as [|t k] eqn:E; [done|]. assert (t ∈ filter (fun t => t ∉ tags) l) as Hin by (rewrite E; apply list_elem_of_here).
    apply list_elem_of_filter in Hin as [Hn Ht]. by destruct Hn; apply H.
Qed.
Lemma elem_of_opt (o : option string) t : t ∈ option_list o <-> o = Some t.
Proof. destruct o; cbn; [rewrite list_elem_of_singleton; naive_solver|]. split; [by intros ?%elem_of_nil|done]. Qed.
Lemma wired_dangling cfg : wired cfg -> dangling cfg = [].
Proof.
  intros [Hf H1 H2 H3 H4 H5 H6 H7 H8 H9 H10 H11 H12 H13]. unfold dangling, dangling_parts. cbv zeta. rewrite !app_nil_iff, !missing_nil. split_and!.
  - intros t. rewrite !elem_of_app, elem_of_opt, !elem_of_refs, list_elem_of_bind. destruct Hf as (t0 & E & Ht0).
    intros [Hx|[(o & Ho & Ht)|[(o & Ht & Ho)|[(o & Ho & Ht)|[(o & Ho & Ht)|(o & Ho & Ht)]]]]]; [rewrite E in Hx; by injection Hx as <-|by eapply H1|by eapply H2|by eapply H3|by eapply H4|by eapply H5].
  - intros t (o & Ho & Ht)%elem_of_refs. by eapply H6.
  - intros t (o & Ho & Ht)%elem_of_refs. by eapply H7.
  - intros t. rewrite elem_of_app, !list_elem_of_bind. intros [(r & Ht & Hr)|(r & Ht & Hr)]; [by eapply H8|by eapply H9].
  - intros t. rewrite !elem_of_app, elem_of_opt, !elem_of_refs. intros [(r & Hr & Ht)|[Ht|[(r & Hr & Ht)|Ht]]]; [by eapply H10|by eapply H11|by eapply H12|].
    destruct (as_object _) as [m|] eqn:Em; [|by apply elem_of_nil in Ht]. apply elem_of_opt in Ht. by eapply H13.
Qed.

(** ** The theorem *)
Section main.
Context (sha256 : bytes -> bytes) (unicode_lower unicode_upper : bytes -> bytes) (unicode_fold : bytes -> bytes -> bool).
Context (pem_Decode : bytes -> option (Block * bytes)) (url_Parse : string -> option URL) (decode : string -> option (any * bool)).
Definition generate (p : Profile) (opts : Options) : gen_error + Result :=
  Generate sha256 unicode_lower unicode_upper unicode_fold (proto_problem pem_Decode url_Parse) decode
    (R := singbox unicode_fold pem_Decode url_Parse) p opts.
(** C11: the generated configuration has no dangling reference, where the profile and the options stay
    within [clean] and no override is set. For such a profile, any core version, and in hybrid mode (where
    exits the kernel carries are left out) as in TUN mode, every outbound, group member, download or DNS
    detour, resolver, rule set and HTTP client the configuration names is one it defines; one dangling
    name stops every connection. [clean] excludes five things validation accepts, each of which the
    examples below show to leave a name dangling: an enabled list that downloads through block; a
    rule-set detour that is neither direct nor a live exit hybrid mode keeps; a DNS server whose detour
    is block or whose detour or resolver is padded with blanks; in hybrid mode, a group the kernel
    carries nested in a kept group but not reached itself; and, in hybrid mode, a fetched address feed
    that holds domain names. *)
Theorem generated_config_is_wired p opts res :
  (forall o, isBlock unicode_fold o = bool_decide (lower unicode_lower o = OutboundBlock)) ->
  clean unicode_lower p opts -> trim (o_CoreOverride opts) = "" ->
  generate p opts = inr res -> wired (Config res) /\ dangling (Config res) = [].
Proof.
  intros Hfold Hc Ho H. assert (Hw : wired (Config res)); [|split; [done|by apply wired_dangling]].
  unfold generate, Generate in H. apply bind_inr in H as (b & Hb & H). apply bind_inr in H as (cfg & Hcfg & [= <-]). cbn [Config].
  destruct (wired_before _ _ _ _ _ Hfold p opts b Hb Hc) as [Hw Hn].
  assert (E : cfg = fit opts (bu_config b)).
  { unfold ApplyCoreOverride, ParseCoreOverride in Hcfg. rewrite bool_decide_eq_true_2 in Hcfg by done. by injection Hcfg as <-. }
  rewrite E. unfold build in Hb. apply seq_inr in Hb as [_ Hb]. apply bind_inr in Hb as (st & _ & Hb). apply bind_inr in Hb as (pol & _ & <-%(inj inr)).
  cbn [bu_out bu_end bu_routing bu_config] in *.
  match goal with |- wired (fit _ (assemble ?o ?outs ?ends ?ins ?g ?r)) => destruct (assembled o outs ends ins g r) as (A1 & A2 & _ & A4 & A5 & A6) end.
  apply wired_fit; [exact A6|by rewrite A4|]. unfold wired. rewrite A1, A2, A4, A5, A6. exact Hw.
Qed.
End main.

(** ** A profile *)
Definition no_texts (_ : string) : option (any * bool) := None.
Abbreviation generated := (generate id id id no_fold (fun _ => None) (fun _ => None) no_texts).
Definition sample_opts (hybrid : bool) (core : string) : Options :=
  mkOptions 2080 0 "127.0.0.1:9090" "secret" true 1500 "" "/tmp/cache.db" "" hybrid [] [] ∅ core "".
Definition a_key : string := "AAAAAAAAAAAAAAAAAAAAAAAAAAAAAAAAAAAAAAAAAAA=".
Definition kernel_exit (id : string) : Endpoint :=
  zero_endpoint <| ep_ID := id |> <| ep_Engine := EngineAmneziaWG |> <| ep_Protocol := ProtoAmneziaWG |> <| ep_Server := "192.0.2.1" |> <| ep_Port := 51820 |>
  <| ep_Enabled := true |> <| ep_Params := list_to_map [("private_key", AString a_key); ("peer_public_key", AString a_key)] |>.
Definition proxy_exit (id : string) : Endpoint :=
  zero_endpoint <| ep_ID := id |> <| ep_Engine := EngineSingBox |> <| ep_Protocol := ProtoVLESS |> <| ep_Server := "h.example" |> <| ep_Port := 443 |>
  <| ep_Enabled := true |> <| ep_Params := list_to_map [("uuid", AString "u")] |>.
Definition sample_list : RoutingList :=
  zero_list <| rl_ID := "ads" |> <| rl_Name := "ads" |> <| Source := "https://lists.example/ads.srs" |> <| rl_Format := "binary" |>
  <| rl_Outbound := "vl" |> <| rl_Enabled := true |> <| Manual := ["example.org"] |>.
Definition sample_doh : DNSServer :=
  zero_server <| ds_Tag := "doh" |> <| ds_Type := "https" |> <| ds_Server := "1.1.1.1" |> <| ds_Detour := "vl" |> <| ds_Enabled := true |>.
Definition sample_dns : DNSSettings :=
  zero_dns <| dns_Enabled := true |> <| dns_Servers := [sample_doh] |> <| dns_Final := "doh" |>
  <| dns_Rules := [zero_dns_rule <| dr_ID := "d1" |> <| dr_RuleSets := ["ads"] |> <| dr_Server := "doh" |>] |>.
Definition sample_profile : Profile :=
  mkProfile [kernel_exit "wg"; kernel_exit "wg2"; proxy_exit "vl"] [zero_group <| gr_ID := "auto" |> <| gr_Type := "urltest" |> <| gr_Members := ["vl"; "wg"] |>]
    [zero_rule <| r_ID := "r1" |> <| GeoSite := ["google"] |> <| r_Outbound := "auto" |>; zero_rule <| r_ID := "r2" |> <| IPCIDR := ["10.0.0.0/8"] |> <| r_Outbound := "wg2" |>]
    [sample_list] [] (Some sample_dns).
(** What comes out: the error, or the tags of the outbounds and the dangling references. *)
Inductive outcome := Refused (e : gen_error) | Made (tags dangling : list string).
Definition outcome_of (p : Profile) (opts : Options) : outcome :=
  match generated p opts with
  | inl e => Refused e
  | inr res => Made (obj_tags (as_objects (Config res !! "outbounds"))) (dangling (Config res))
  end.
Definition core14 : string := "sing-box version 1.14.0".
Example sample_hybrid : outcome_of sample_profile (sample_opts true core14) = Made ["direct"; "wg"; "vl"; "auto"] [].
Proof. vm_compute. reflexivity. Qed.
Example sample_tun : outcome_of sample_profile (sample_opts false "sing-box version 1.12.17") = Made ["direct"; "wg"; "wg2"; "vl"; "auto"] [].
Proof. vm_compute. reflexivity. Qed.
Lemma sample_fold o : isBlock no_fold o = bool_decide (lower id o = OutboundBlock).
Proof.
  unfold isBlock, EqualFold, lower, ToLower, no_fold. change (is_ascii (str "block")) with true. rewrite andb_true_r.
  destruct (is_ascii (str o)) eqn:Ea.
  - apply bool_decide_ext. rewrite <- (inj_iff str), str_unstr; [done|]. apply Forall_map, Forall_forall. intros c Hc.
    pose proof (str_bytes o) as Hb. rewrite Forall_forall in Hb. specialize (Hb c Hc). unfold is_byte in *. cbn.
    unfold ascii_lower. destruct (in_range 65 90 c) eqn:E; unfold in_range in E; [apply andb_true_iff in E|]; lia.
  - apply bool_decide_ext. unfold id. rewrite unstr_str. split; [by intros ?%(inj str)|by intros ->].
Qed.
Lemma sample_clean : clean id sample_profile (sample_opts true core14).
Proof.
  split.
  - intros rl Hrl _. revert rl Hrl. apply Forall_forall. repeat constructor. by vm_compute.
  - by left.
  - intros d s [= <-] Hs _ _. revert s Hs. apply Forall_forall. repeat constructor; by vm_compute.
  - intros _. assert (H : Forall (fun g => Forall (fun m => kernelEgress sample_profile m = true ->
      kernelEgress sample_profile (gr_ID g) = true \/ m ∈ hybridReachable id sample_profile) (gr_Members g)) (Groups sample_profile)).
    { repeat constructor; intros Hk; first [discriminate Hk|by left; vm_compute]. }
    rewrite Forall_forall in H. intros g m Hg. specialize (H g Hg). rewrite Forall_forall in H. apply H.
  - intros _ rl Hrl. revert rl Hrl. apply Forall_forall. by repeat constructor.
Qed.
Definition sample_result : Result := match generated sample_profile (sample_opts true core14) with inr r => r | inl _ => mkResult ∅ [] end.
Lemma sample_generates : generated sample_profile (sample_opts true core14) = inr sample_result.
Proof.
  unfold sample_result. destruct (generated sample_profile (sample_opts true core14)) as [err|r] eqn:E; [|done].
  assert (H : (if generated sample_profile (sample_opts true core14) then false else true) = true) by (vm_compute; reflexivity). rewrite E in H. done.
Qed.
Lemma generated_config_is_wired_witness : wired (Config sample_result) /\ dangling (Config sample_result) = [] /\
  length (as_objects (part (Config sample_result) "route" !! "rule_set")) = 3%nat.
Proof.
  split; [|split; vm_compute; reflexivity].
  apply (generated_config_is_wired id id id no_fold (fun _ => None) (fun _ => None) no_texts sample_profile (sample_opts true core14));
    [exact sample_fold|exact sample_clean|by vm_compute|exact sample_generates].
Defined.

(** ** Each clause of [clean] is needed

    A valid profile that one of the clauses excludes, and the name left dangling. *)
Definition with_list (rl : RoutingList) : Profile := sample_profile <| RoutingLists := [rl] |>.
Definition sample_udp : DNSServer := zero_server <| ds_Tag := "b" |> <| ds_Type := "udp" |> <| ds_Server := "9.9.9.9" |> <| ds_Enabled := true |>.
Definition with_server (s : DNSServer) : Profile := sample_profile <| DNS := Some (sample_dns <| dns_Servers := [s; sample_udp] |>) |>.
Definition dangles (o : outcome) : list string := match o with Made _ l => l | Refused _ => [] end.
Definition default_via (d : string) : Options :=
  mkOptions 2080 0 "127.0.0.1:9090" "secret" true 1500 "" "/tmp/cache.db" d true [] [] ∅ core14 "".
Example stray_download : dangles (outcome_of (with_list (sample_list <| DownloadVia := "block" |>)) (sample_opts false core14)) = ["block"].
Proof. vm_compute. reflexivity. Qed.
Example stray_default : dangles (outcome_of sample_profile (default_via "block")) = ["block"] /\
  dangles (outcome_of sample_profile (default_via "wg2")) = ["wg2"] /\ dangles (outcome_of sample_profile (default_via "nowhere")) = ["nowhere"].
Proof. split_and!; vm_compute; reflexivity. Qed.
Example stray_detour : dangles (outcome_of (with_server (sample_doh <| ds_Detour := "BLOCK" |>)) (sample_opts false core14)) = ["block"] /\
  dangles (outcome_of ((with_server (sample_doh <| ds_Detour := " pad" |>)) <| Endpoints := [kernel_exit "wg"; kernel_exit "wg2"; proxy_exit "vl"; proxy_exit " pad"] |>)
    (sample_opts false core14)) = ["pad"].
Proof. split; vm_compute; reflexivity. Qed.
Example stray_resolver : dangles (outcome_of (with_server (sample_doh <| ds_Server := "dns.example" |> <| ds_DomainResolver := " b" |>)) (sample_opts false core14)) = [" b"].
Proof. vm_compute. reflexivity. Qed.
Definition nested_groups : list Group :=
  [zero_group <| gr_ID := "auto" |> <| gr_Type := "urltest" |> <| gr_Members := ["vl"; "wg"] |>;
   zero_group <| gr_ID := "inner" |> <| gr_Type := "selector" |> <| gr_Members := ["vl"; "wg2"] |>;
   zero_group <| gr_ID := "outer" |> <| gr_Type := "selector" |> <| gr_Members := ["vl"; "inner"] |>].
Example stray_nested : dangles (outcome_of (sample_profile <| Groups := nested_groups |>) (sample_opts true core14)) = ["inner"].
Proof. vm_compute. reflexivity. Qed.
Example stray_feed : dangles (outcome_of (with_list (sample_list <| Source := "" |> <| Manual := [] |> <| rl_Outbound := "wg" |>
  <| CIDRSource := "https://x.example/c" |> <| CIDRCache := ["10.0.0.0/8"; "name.example"] |> <| RefreshHours := 24 |>)) (sample_opts true core14)) = ["rsm-ads"].
Proof. vm_compute. reflexivity. Qed.
