(* ===== verification/ApplyPlan.v ===== *)
(** * What a review finds, and what it makes of it

    [src/internal/server/applyplan.go]: how the raw findings become the review's findings ([foldFindings]),
    which of them refuse an Apply and which need an acknowledgement, and the verdict. What the sources
    of findings report, and the wording of each class ([findingTemplate]), are arguments. *)
From S2P Require Import Prelude GoStrings.
From stdpp Require Import sorting.
Local Open Scope Z_scope.

Record FindingFix := mkFix { fx_Action : string; fx_ID : string; fx_Label : string }.
Record PlanFinding := mkPlanFinding {
  pf_ID : string; CapabilityID : string; pf_Setting : string; pf_Requested : string; pf_Effective : string;
  pf_Severity : string; pf_Reason : string; pf_Detail : string; pf_Remedy : string; pf_Blocks : string;
  pf_Item : string; pf_Fix : option FindingFix
}.
Record Finding := mkFinding {
  fd_ID : string; fd_Code : string; fd_Severity : string; fd_Blocks : string; AckRequired : bool; Acked : bool;
  fd_Title : string; fd_Detail : string; fd_Remedy : string; fd_Count : Z; fd_Items : list string; fd_Fix : option FindingFix
}.
#[export] Instance eta_finding : Eta Finding := fun f =>
  mkFinding (fd_ID f) (fd_Code f) (fd_Severity f) (fd_Blocks f) (AckRequired f) (Acked f) (fd_Title f) (fd_Detail f)
    (fd_Remedy f) (fd_Count f) (fd_Items f) (fd_Fix f).

Definition SeverityBlocked : string := "blocked".
Definition SeverityDegraded : string := "degraded".
Definition SeverityPrivacy : string := "privacy".
Definition BlocksNothing : string := "nothing".
Definition BlocksOptimisation : string := "optimisation".
Definition BlocksFeature : string := "feature".
Definition BlocksApply : string := "apply".
Definition BlocksEdit : string := "edit".
Definition VerdictReady : string := "ready".
Definition VerdictWarning : string := "warning".
Definition VerdictBlocked : string := "blocked".
Definition planFindingItems : nat := 50.

Definition hard (f : Finding) : bool := bool_decide (fd_Blocks f = BlocksApply).
Definition needs_ack (f : Finding) : bool := AckRequired f && negb (Acked f).
Definition blockers (fs : list Finding) : list Finding := List.filter hard fs.
Definition unacked (fs : list Finding) : list Finding := List.filter needs_ack fs.
Fixpoint verdict_from (verdict : string) (fs : list Finding) : string :=
  match fs with
  | [] => verdict
  | f :: fs => if hard f then VerdictBlocked else verdict_from VerdictWarning fs
  end.
Definition planVerdict (fs : list Finding) : string := verdict_from VerdictReady fs.
Definition normalizeSeverity (severity : string) : string :=
  if bool_decide (severity ∈ [SeverityBlocked; SeverityDegraded; SeverityPrivacy]) then severity else SeverityDegraded.
Definition normalizeBlocks (blocks : string) : string :=
  if bool_decide (blocks ∈ [BlocksNothing; BlocksOptimisation; BlocksFeature; BlocksApply; BlocksEdit]) then blocks else BlocksApply.
Definition findingRank (f : Finding) : Z := if hard f then 0 else if AckRequired f then 1 else 2.
Definition containsString (l : list string) (want : string) : bool := bool_decide (want ∈ l).

(** ** [foldFindings] *)
Section fold.
Context (findingTemplate : PlanFinding -> string * string * string * string) (acked : string -> bool).

Definition key : Type := (string * string * string).
Definition key_of (f : PlanFinding) : key := (pf_ID f, normalizeSeverity (pf_Severity f), normalizeBlocks (pf_Blocks f)).
Definition item_of (f : PlanFinding) : string :=
  if bool_decide (pf_Item f = "") && negb (bool_decide (pf_Setting f = "")) && negb (bool_decide (pf_Setting f = pf_ID f))
  then pf_Setting f else pf_Item f.
Definition detail_of (detail : string) (f : PlanFinding) : string :=
  let detail := if bool_decide (pf_Detail f = "") then detail else pf_Detail f in
  if negb (bool_decide (pf_Requested f = "")) && negb (bool_decide (pf_Effective f = ""))
     && negb (bool_decide (pf_Requested f = pf_Effective f))
  then trim (detail +:+ " Requested: " +:+ pf_Requested f +:+ "; effective: " +:+ pf_Effective f +:+ ".") else detail.
Definition first_of (f : PlanFinding) : Finding :=
  let '(code, title, detail, remedy) := findingTemplate f in
  let '(_, severity, blocks) := key_of f in
  let ack := bool_decide (blocks = BlocksFeature) && negb (bool_decide (severity = SeverityPrivacy)) in
  mkFinding (pf_ID f) code severity blocks ack (ack && acked (pf_ID f)) title (detail_of detail f)
    (if bool_decide (pf_Remedy f = "") then remedy else pf_Remedy f) 1
    (if bool_decide (item_of f = "") then [] else [item_of f]) (pf_Fix f).
Definition more_of (f : PlanFinding) (g : Finding) : Finding :=
  let g := g <| fd_Count := fd_Count g + 1 |> in
  if negb (bool_decide (item_of f = "")) && (length (fd_Items g) <? planFindingItems)%nat && negb (containsString (fd_Items g) (item_of f))
  then g <| fd_Items := fd_Items g ++ [item_of f] |> else g.
(** The groups in the order their first member came. *)
Fixpoint add_finding (groups : list (key * Finding)) (f : PlanFinding) : list (key * Finding) :=
  match groups with
  | [] => [(key_of f, first_of f)]
  | (k, g) :: groups => if bool_decide (k = key_of f) then (k, more_of f g) :: groups else (k, g) :: add_finding groups f
  end.
Definition finding_less (a b : Finding) : bool :=
  if findingRank a =? findingRank b then String.ltb (fd_ID a) (fd_ID b) else findingRank a <? findingRank b.
(** [sort.SliceStable] *)
Fixpoint insert_finding (f : Finding) (fs : list Finding) : list Finding :=
  match fs with
  | [] => [f]
  | g :: fs => if finding_less g f then g :: insert_finding f fs else f :: g :: fs
  end.
Definition sort_findings (fs : list Finding) : list Finding := foldr insert_finding [] fs.
Definition groups_of (raw : list PlanFinding) : list (key * Finding) := foldl add_finding [] raw.
Definition foldFindings (raw : list PlanFinding) : list Finding := sort_findings (groups_of raw).*2.
End fold.

(** ** What a review keeps of what was found *)
Definition fd_key (g : Finding) : key := (fd_ID g, fd_Severity g, fd_Blocks g).
Definition with_key (k : key) (raw : list PlanFinding) : list PlanFinding := List.filter (fun f => bool_decide (key_of f = k)) raw.

Section facts.
Context (template : PlanFinding -> string * string * string * string) (acked : string -> bool).

Record grouped (raw : list PlanFinding) (gs : list (key * Finding)) : Prop := {
  gr_nodup : NoDup gs.*1;
  gr_key k g : (k, g) ∈ gs -> fd_key g = k /\ fd_Count g = Z.of_nat (length (with_key k raw)) /\ (0 < length (with_key k raw))%nat;
  gr_all f : f ∈ raw -> key_of f ∈ gs.*1
}.
Lemma first_key f : fd_key (first_of template acked f) = key_of f /\ fd_Count (first_of template acked f) = 1.
Proof. unfold first_of. by destruct (template f) as [[[??]?]?]. Qed.
Lemma more_key f g : fd_key (more_of f g) = fd_key g /\ fd_Count (more_of f g) = fd_Count g + 1.
Proof. unfold more_of. by case_match. Qed.
Lemma with_key_snoc k raw f :
  with_key k (raw ++ [f]) = with_key k raw ++ (if bool_decide (key_of f = k) then [f] else []).
Proof. unfold with_key. rewrite List.filter_app. cbn. by case_match. Qed.

Lemma add_finding_keys gs f : (add_finding template acked gs f).*1 = gs.*1 ++ (if bool_decide (key_of f ∈ gs.*1) then [] else [key_of f]).
Proof.
  induction gs as [|[k g] gs IH]; [done|]. cbn. destruct (decide (k = key_of f)) as [->|Hk].
  - rewrite !bool_decide_eq_true_2 by (done || by left). by rewrite app_nil_r.
  - rewrite (bool_decide_eq_false_2 (k = key_of f)) by done. cbn. rewrite IH. do 2 f_equal.
    assert (Hiff : key_of f ∈ gs.*1 <-> key_of f ∈ k :: gs.*1) by (rewrite elem_of_cons; naive_solver).
    by rewrite (bool_decide_ext _ _ Hiff).
Qed.
Lemma add_finding_elem gs f k g : (k, g) ∈ add_finding template acked gs f -> NoDup gs.*1 ->
  (k <> key_of f /\ (k, g) ∈ gs) \/ (k = key_of f /\ exists g0, (k, g0) ∈ gs /\ g = more_of f g0) \/
  (k = key_of f /\ k ∉ gs.*1 /\ g = first_of template acked f).
Proof.
  induction gs as [|[k0 g0] gs IH]; cbn.
  - intros Hin%list_elem_of_singleton _. injection Hin as -> ->. right; right. split_and!; [done|by intros ?%elem_of_nil|done].
  - intros Hin [Hn Hnd]%NoDup_cons. case_bool_decide as Hk.
    + subst k0. apply elem_of_cons in Hin as [[= -> ->]|Hin].
      * right; left. split; [done|]. exists g0. split; [by left|done].
      * left. split; [|by right]. intros ->. apply Hn. apply list_elem_of_fmap. by exists (key_of f, g).
    + apply elem_of_cons in Hin as [[= -> ->]|Hin]; [left; split; [done|by left]|].
      destruct (IH Hin Hnd) as [[? ?]|[[-> (g1 & ? & ->)]|(-> & Hk' & ->)]].
      * left. split; [done|by right].
      * right; left. split; [done|]. exists g1. split; [by right|done].
      * right; right. split_and!; [done| |done]. cbn. intros [?|?]%elem_of_cons; [congruence|done].
Qed.
Lemma groups_of_grouped raw : grouped raw (groups_of template acked raw).
Proof.
  induction raw as [|f raw [Hnd Hkey Hall]] using rev_ind.
  { split; [constructor|by intros ?? ?%elem_of_nil|by intros ? ?%elem_of_nil]. }
  unfold groups_of in *. rewrite foldl_snoc. set (gs := foldl _ [] raw) in *. split.
  - rewrite add_finding_keys. case_bool_decide; [by rewrite app_nil_r|].
    apply NoDup_app. split_and!; [done| |apply NoDup_singleton]. by intros k Hk ->%list_elem_of_singleton.
  - intros k g Hin. rewrite with_key_snoc, length_app.
    destruct (add_finding_elem _ _ _ _ Hin Hnd) as [[Hne Hg]|[[-> (g0 & Hg & ->)]|(-> & Hk & ->)]].
    + rewrite bool_decide_eq_false_2 by congruence. cbn. rewrite Nat.add_0_r. by apply Hkey.
    + rewrite bool_decide_eq_true_2 by done. destruct (Hkey _ _ Hg) as (Hk & Hc & _). destruct (more_key f g0) as [-> ->].
      cbn. split_and!; [done|rewrite Hc|]; lia.
    + rewrite bool_decide_eq_true_2 by done. destruct (first_key f) as [-> ->].
      destruct (with_key (key_of f) raw) as [|f' l] eqn:E; [cbn; split_and!; [done|lia|lia]|].
      exfalso. apply Hk. assert (Hin' : f' ∈ with_key (key_of f) raw) by (rewrite E; by left).
      apply list_elem_of_In, filter_In in Hin' as [Hin' Hk']. apply bool_decide_eq_true in Hk' as <-. by apply Hall, list_elem_of_In.
  - intros f' Hf'. rewrite add_finding_keys. apply elem_of_app.
    apply elem_of_app in Hf' as [Hf'| ->%list_elem_of_singleton]; [by left; apply Hall|].
    case_bool_decide; [by left|right; by apply list_elem_of_singleton].
Qed.
Lemma insert_finding_perm f fs : insert_finding f fs ≡ₚ f :: fs.
Proof. induction fs as [|g fs IH]; [done|]. cbn. case_match; [rewrite IH; apply Permutation_swap|done]. Qed.
Lemma sort_findings_perm fs : sort_findings fs ≡ₚ fs.
Proof. induction fs as [|f fs IH]; [done|]. cbn. by rewrite insert_finding_perm, IH. Qed.

Lemma normalizeBlocks_apply b : normalizeBlocks b = BlocksApply <-> b ∉ ["nothing"; "optimisation"; "feature"; "edit"]%string.
Proof.
  unfold normalizeBlocks, BlocksNothing, BlocksOptimisation, BlocksFeature, BlocksEdit.
  case_bool_decide as H; rewrite !elem_of_cons, elem_of_nil in *; naive_solver.
Qed.
Lemma planVerdict_blocked fs : planVerdict fs = VerdictBlocked <-> exists f, f ∈ fs /\ hard f = true.
Proof.
  unfold planVerdict. assert (Hg : forall v, v <> VerdictBlocked -> verdict_from v fs = VerdictBlocked <-> exists f, f ∈ fs /\ hard f = true); [|by apply Hg].
  induction fs as [|f fs IH]; intros v Hv; cbn.
  - split; [done|]. by intros (? & ?%elem_of_nil & _).
  - destruct (hard f) eqn:Eh; [split; [intros _; exists f; split; [by left|done]|done]|].
    rewrite IH by done. split; intros (g & Hg & Hh); exists g; (split; [|done]); [by right|].
    apply elem_of_cons in Hg as [->|?]; [congruence|done].
Qed.
Lemma fold_findings_of raw g :
  g ∈ foldFindings template acked raw ->
  fd_Count g = Z.of_nat (length (with_key (fd_key g) raw)) /\ exists f, f ∈ raw /\ key_of f = fd_key g.
Proof.
  unfold foldFindings. rewrite sort_findings_perm. intros ([k g'] & -> & Hin)%list_elem_of_fmap. cbn.
  destruct (gr_key _ _ (groups_of_grouped raw) _ _ Hin) as (Hk & Hc & Hlen). rewrite Hk. split; [done|].
  destruct (with_key k raw) as [|f l] eqn:E; [cbn in Hlen; lia|]. exists f.
  assert (Hf : f ∈ with_key k raw) by (rewrite E; by left).
  apply list_elem_of_In, filter_In in Hf as [Hf Hkf]. apply bool_decide_eq_true in Hkf. split; [by apply list_elem_of_In|done].
Qed.

(** C20: folding the findings of a review loses none and invents none: every finding a source reported is
    under one entry, found by its id, severity and what it blocks (an unknown severity counts as degraded,
    an unknown block as refusing the Apply), each entry counts exactly the findings it stands for, no two
    entries stand for the same ones, and the verdict is "blocked" exactly when some source reported a
    finding that refuses the Apply. *)
Theorem fold_findings_complete raw :
  let fs := foldFindings template acked raw in
  (forall f, f ∈ raw -> exists g, g ∈ fs /\ fd_key g = key_of f) /\
  (forall g, g ∈ fs -> fd_Count g = Z.of_nat (length (with_key (fd_key g) raw)) /\ 0 < fd_Count g) /\
  NoDup (map fd_key fs) /\
  (planVerdict fs = VerdictBlocked <-> exists f, f ∈ raw /\ pf_Blocks f ∉ ["nothing"; "optimisation"; "feature"; "edit"]%string).
Proof.
  intros fs. destruct (groups_of_grouped raw) as [Hnd Hkey Hall].
  assert (Hin : forall f, f ∈ raw -> exists g, g ∈ fs /\ fd_key g = key_of f).
  { intros f Hf. apply Hall in Hf as ([k g] & Hk & Hg)%list_elem_of_fmap. exists g. unfold fs, foldFindings.
    rewrite sort_findings_perm. split; [apply list_elem_of_fmap; by exists (k, g)|].
    destruct (Hkey _ _ Hg) as [-> _]. by rewrite Hk. }
  split_and!; [done| | |].
  - intros g (Hc & f & Hf & Hk)%fold_findings_of. split; [done|]. rewrite Hc.
    assert (Hw : f ∈ with_key (fd_key g) raw).
    { apply list_elem_of_In, filter_In. split; [by apply list_elem_of_In|by apply bool_decide_eq_true]. }
    destruct (with_key (fd_key g) raw); [by apply elem_of_nil in Hw|cbn; lia].
  - unfold fs, foldFindings. rewrite (Permutation_map fd_key (sort_findings_perm _)).
    replace (map fd_key (groups_of template acked raw).*2) with (groups_of template acked raw).*1; [done|].
    change (map fd_key (groups_of template acked raw).*2) with (fd_key <$> (groups_of template acked raw).*2).
    rewrite <- list_fmap_compose. apply list_fmap_ext. intros i [k g] Hi%list_elem_of_lookup_2. cbn. by destruct (Hkey _ _ Hi).
  - rewrite planVerdict_blocked. unfold hard. split.
    + intros (g & Hg & Hh). apply bool_decide_eq_true in Hh. apply fold_findings_of in Hg as (_ & f & Hf & Hk).
      exists f. split; [done|]. apply normalizeBlocks_apply. unfold fd_key, key_of in Hk. congruence.
    + intros (f & Hf & Hb%normalizeBlocks_apply). destruct (Hin f Hf) as (g & Hg & Hk). exists g. split; [done|].
      apply bool_decide_eq_true. unfold fd_key, key_of in Hk. congruence.
Qed.
End facts.
