(* ===== verification/ApplyRecord.v ===== *)
(** * Programs that may die at any moment

    A state monad whose computations may stop for good: [None] is a daemon that was killed (SIGKILL,
    power cut, panic), with the state it leaves behind. [wp m Q D s] says what holds when [m] returns
    ([Q]) and what holds wherever it dies ([D], the crash condition).

    Further on: the record of what was applied. *)
From S2P Require Import Prelude GoStrings PbrPlan Model PbrLists.

Definition C (S A : Type) : Type := S -> option A * S.
#[export] Instance C_ret {S} : MRet (C S) := fun A a s => (Some a, s).
#[export] Instance C_bind {S} : MBind (C S) := fun A B f m s =>
  match m s with (Some a, s) => f a s | (None, s) => (None, s) end.
Definition gets {S A} (f : S -> A) : C S A := fun s => (Some (f s), s).
Definition modify {S} (f : S -> S) : C S unit := fun s => (Some tt, f s).
Definition when {S} (b : bool) (m : C S unit) : C S unit := if b then m else mret tt.

Definition wp {S A} (m : C S A) (Q : A -> S -> Prop) (D : S -> Prop) (s : S) : Prop :=
  match m s with (Some a, s) => Q a s | (None, s) => D s end.
Arguments wp : simpl never.
(** Any state the daemon may die in. *)
Definition anywhere {S} : S -> Prop := fun _ => True.

Section rules.
Context {S : Type}.
Implicit Types (D : S -> Prop) (s : S).

Lemma wp_ret {A} (a : A) Q D s : Q a s -> wp (mret a) Q D s.
Proof. done. Qed.
Lemma wp_gets {A} (f : S -> A) Q D s : Q (f s) s -> wp (gets f) Q D s.
Proof. done. Qed.
Lemma wp_modify f Q D s : Q tt (f s) -> wp (modify f) Q D s.
Proof. done. Qed.
Lemma wp_bind {A B} (m : C S A) (k : A -> C S B) Q D s :
  wp m (fun a s => wp (k a) Q D s) D s -> wp (m ≫= k) Q D s.
Proof. unfold wp, mbind, C_bind. destruct (m s) as [[a|] s']; done. Qed.
Lemma wp_mono {A} (m : C S A) (Q Q' : A -> S -> Prop) D D' s :
  wp m Q D s -> (forall a s, Q a s -> Q' a s) -> (forall s, D s -> D' s) -> wp m Q' D' s.
Proof. unfold wp. destruct (m s) as [[a|] s']; auto. Qed.
Lemma wp_mono_post {A} (m : C S A) (Q Q' : A -> S -> Prop) D s :
  wp m Q D s -> (forall a s, Q a s -> Q' a s) -> wp m Q' D s.
Proof. intros H HQ. by apply (wp_mono _ _ _ _ _ _ H). Qed.
Lemma wp_seq {A B} (m : C S A) (k : A -> C S B) P Q D s :
  wp m P D s -> (forall a s, P a s -> wp (k a) Q D s) -> wp (m ≫= k) Q D s.
Proof. intros Hm Hk. apply wp_bind. eapply wp_mono_post; eauto. Qed.
Lemma wp_and {A} (m : C S A) (Q Q' : A -> S -> Prop) D D' s :
  wp m Q D s -> wp m Q' D' s -> wp m (fun a s => Q a s /\ Q' a s) (fun s => D s /\ D' s) s.
Proof. unfold wp. destruct (m s) as [[a|] s']; auto. Qed.
Lemma wp_run {A} (m : C S A) Q D s a s' : wp m Q D s -> m s = (Some a, s') -> Q a s'.
Proof. unfold wp. by intros H E; rewrite E in H. Qed.
Lemma wp_died {A} (m : C S A) Q D s s' : wp m Q D s -> m s = (None, s') -> D s'.
Proof. unfold wp. by intros H E; rewrite E in H. Qed.
Lemma wp_intro {A} (m : C S A) (Q : A -> S -> Prop) D s :
  (forall a s', m s = (Some a, s') -> Q a s') -> (forall s', m s = (None, s') -> D s') -> wp m Q D s.
Proof. unfold wp. destruct (m s) as [[a|] s'] eqn:E; auto. Qed.
End rules.

(** One step of a computation: the rules for the pure parts, the binds, and the conditionals. *)
Ltac wp_pure := first [apply wp_bind | apply wp_ret | apply wp_gets | apply wp_modify | progress cbn beta].

(** * The record of what was applied

    [src/internal/server/applystate.go], [routingswitch.go]'s record and the data of
    [applyexecution.go]: what an Apply installs, the revisions the record names (committed, live, the
    one whose rollback is unfinished), and every write of the record. Each operation here is the
    change it makes under the record's lock; [ApplyServer] persists after each, as the code does.

    The plans of the native platforms, the settings and the core's identity are opaque here
    ([Carriers]); the kernel plan is [PbrPlan]'s. *)
Local Open Scope Z_scope.

(** ** What one Apply installs *)
Class Carriers := {
  NativePlan : Type;
  NativePlatform : NativePlan -> string;
  Removal : Type;
  Unbinding : Type;
  AWGCapture : Type;
  CoreIdentity : Type;
  Config : Type;
  Demo : Config -> bool
}.

Definition ExecutionEnsurePresent : string := "ensure_present".
Definition ExecutionEnsureAbsent : string := "ensure_absent".
Definition ExecutionDemoNoop : string := "demo_noop".
Definition ExecutionSnapshotSchemaV1 : Z := 1.

Record ToolIdentity := mkTool { t_Tool : string; t_Path : string; t_SHA256 : string; t_Version : string; t_Runnable : bool }.
Definition no_tool : ToolIdentity := mkTool "" "" "" "" false.
Record IpsetArtifact := mkIpset {
  i_IpsetTool : ToolIdentity; i_IptablesTool : ToolIdentity; i_IP6Tool : ToolIdentity; i_IPTool : ToolIdentity;
  i_DnsmasqTool : ToolIdentity; i_ShellTool : ToolIdentity; i_Restore : bytes; i_Script : bytes;
  i_DnsmasqConf : bytes; i_SetNames : list string; i_Teardown : bytes; i_WANIface : string
}.
Record KernelArtifact := mkKernel {
  k_Action : string; k_NFTTool : ToolIdentity; k_IPTool : ToolIdentity; k_Plan : option Plan;
  k_Nft : bytes; k_IP : list string; k_Offload : bytes; k_Teardown : list string; k_Retire : list string;
  k_Ipset : option IpsetArtifact
}.
#[export] Instance eta_kernel : Eta KernelArtifact := fun k =>
  mkKernel (k_Action k) (k_NFTTool k) (k_IPTool k) (k_Plan k) (k_Nft k) (k_IP k) (k_Offload k) (k_Teardown k) (k_Retire k) (k_Ipset k).
Record PluginSpec := mkSpec { sp_ID : string; sp_Endpoint : Endpoint; sp_SOCKSPort : Z }.

Section data.
Context `{Carriers}.

Record CoreArtifact := mkCore {
  c_Action : string; c_BinaryPath : string; c_ConfigPath : string; c_HostIdentity : CoreIdentity; c_Config : bytes
}.
Record Reconciliation := mkReconciliation {
  r_Platform : string; r_Target : option NativePlan; OpenWrtRemovals : list Removal;
  OpenWrtUnbindings : list Unbinding; KeeneticTeardown : list string; KeeneticPriorityRestore : list (list string)
}.
(** [executionNativeMaterializationV1]; the delta's schema version is not read. *)
Record NativeArtifact := mkNative { n_Reconcile : Reconciliation; n_AWGKernel : option AWGCapture }.
Record Materialization := mkMaterialization {
  m_SchemaVersion : Z; m_Backend : string; m_Core : CoreArtifact; m_Kernel : KernelArtifact;
  m_PluginAction : string; m_Plugins : list PluginSpec; m_Native : option NativeArtifact
}.
#[export] Instance eta_core : Eta CoreArtifact := fun c =>
  mkCore (c_Action c) (c_BinaryPath c) (c_ConfigPath c) (c_HostIdentity c) (c_Config c).
#[export] Instance eta_reconciliation : Eta Reconciliation := fun r =>
  mkReconciliation (r_Platform r) (r_Target r) (OpenWrtRemovals r) (OpenWrtUnbindings r) (KeeneticTeardown r) (KeeneticPriorityRestore r).
#[export] Instance eta_native : Eta NativeArtifact := fun n => mkNative (n_Reconcile n) (n_AWGKernel n).
#[export] Instance eta_materialization : Eta Materialization := fun m =>
  mkMaterialization (m_SchemaVersion m) (m_Backend m) (m_Core m) (m_Kernel m) (m_PluginAction m) (m_Plugins m) (m_Native m).

Definition known (m : Materialization) : bool := m_SchemaVersion m =? ExecutionSnapshotSchemaV1.
Definition kernel_present (m : Materialization) : bool := bool_decide (k_Action (m_Kernel m) = ExecutionEnsurePresent).
Definition core_present (m : Materialization) : bool := bool_decide (c_Action (m_Core m) = ExecutionEnsurePresent).
Definition nativeTarget (m : Materialization) : option NativePlan := n ← m_Native m; r_Target (n_Reconcile n).
Definition kernelPlan (m : Materialization) : option Plan := if kernel_present m then k_Plan (m_Kernel m) else None.
Definition pluginSpecs (m : Materialization) : list PluginSpec :=
  if bool_decide (m_PluginAction m = ExecutionEnsurePresent) then m_Plugins m else [].
Definition materializationIsDemo (m : Materialization) : bool :=
  bool_decide (c_Action (m_Core m) = ExecutionDemoNoop) && bool_decide (k_Action (m_Kernel m) = ExecutionDemoNoop)
  && bool_decide (m_PluginAction m = ExecutionDemoNoop).

(** ** The record *)
Record Desired := mkDesired { d_Profile : Profile; d_Config : Config }.
Record Revision := mkRevision {
  rv_Rev : string; rv_At : Z; rv_Desired : option Desired; rv_Materialization : Materialization; rv_BootID : string
}.
#[export] Instance eta_revision : Eta Revision := fun r =>
  mkRevision (rv_Rev r) (rv_At r) (rv_Desired r) (rv_Materialization r) (rv_BootID r).
Record InFlightMark := mkInFlight { if_At : Z; if_Save : bool; if_Rev : string }.
Record LastResult := mkLast { l_At : Z; l_OK : bool; l_Rev : string; l_Error : string }.
(** How far a failed rollback got with the kernel plane. *)
Definition rollbackPlaneTested : string := "".
Definition rollbackPlaneCommitted : string := "committed".
Definition rollbackPlaneUnknown : string := "unknown".
Record Outstanding := mkOutstanding { o_Rev : string; o_At : Z; o_Error : string; o_KernelPlane : string }.
Record RoutingOffRecord := mkRoutingOff {
  off_At : Z; off_By : string; off_Rev : string; off_Leftover : option Revision; off_Error : string
}.
#[export] Instance eta_routing_off : Eta RoutingOffRecord := fun r =>
  mkRoutingOff (off_At r) (off_By r) (off_Rev r) (off_Leftover r) (off_Error r).
Record ApplyState := mkApplyState {
  Schema : Z; Committed : option Revision; Live : option Revision; InFlight : option InFlightMark;
  Acks : gmap string Z; Last : LastResult; RoutingOff : option RoutingOffRecord; RollbackOutstanding : option Outstanding
}.
#[export] Instance eta_apply_state : Eta ApplyState := fun s =>
  mkApplyState (Schema s) (Committed s) (Live s) (InFlight s) (Acks s) (Last s) (RoutingOff s) (RollbackOutstanding s).
Definition applyStateSchema : Z := 2.
Definition fresh_record : ApplyState := mkApplyState applyStateSchema None None None ∅ (mkLast 0 false "" "") None None.

(** ** What it says *)
Definition appliedBaseline (s : ApplyState) : option Revision := match Live s with Some l => Some l | None => Committed s end.
Definition names (o : Outstanding) (r : Revision) : bool := bool_decide (o_Rev o = rv_Rev r) && (o_At o =? rv_At r).
Definition rollbackOutstanding (s : ApplyState) : option Outstanding :=
  match RollbackOutstanding s, Live s with
  | Some m, Some l => if names m l then Some m else None
  | _, _ => None
  end.
Definition supervisedBaseline (s : ApplyState) : option Revision :=
  match Live s with
  | None => Committed s
  | Some l =>
      match rollbackOutstanding s with
      | None => Some l
      | Some m =>
          if bool_decide (o_KernelPlane m = rollbackPlaneTested) then Some l
          else if bool_decide (o_KernelPlane m = rollbackPlaneCommitted) then Committed s else None
      end
  end.
Definition sameRevision (a b : option Revision) : bool :=
  match a, b with
  | Some a, Some b => bool_decide (rv_Rev a = rv_Rev b) && (rv_At a =? rv_At b)
  | _, _ => false
  end.
Definition routingIsOff (s : ApplyState) : bool := match RoutingOff s with Some _ => true | None => false end.

(** ** Writes *)
Definition with_boot (bootID : string) (r : Revision) : Revision := r <| rv_BootID := bootID |>.
(** [None]: the record has another live revision, and nothing is written. *)
Definition noteRollbackFailed (live : option Revision) (plane msg : string) (s : ApplyState) : option ApplyState :=
  match live with
  | None => None
  | Some live =>
      if sameRevision (Live s) (Some live) then
        let plane :=
          match rollbackOutstanding s with
          | Some prev => if bool_decide (plane = rollbackPlaneTested) then o_KernelPlane prev else plane
          | None => plane
          end in
        Some (s <| RollbackOutstanding := Some (mkOutstanding (rv_Rev live) (rv_At live) msg plane) |>)
      else None
  end.
Definition noteLiveRollbackOutstanding (rev : Revision) (bootID plane msg : string) (s : ApplyState) : ApplyState :=
  s <| Live := Some (with_boot bootID rev) |>
    <| RollbackOutstanding := Some (mkOutstanding (rv_Rev rev) (rv_At rev) msg plane) |>.
Definition recordApplied (save : bool) (rev : Revision) (bootID : string) (now : Z) (s : ApplyState) : ApplyState :=
  (if save then s <| Committed := Some rev |> <| Live := None |> else s <| Live := Some (with_boot bootID rev) |>)
    <| RollbackOutstanding := None |> <| InFlight := None |> <| Last := mkLast now true (rv_Rev rev) "" |>.
Definition recordCommit (s : ApplyState) : ApplyState :=
  match Live s with
  | Some l => s <| Committed := Some l |> <| Live := None |> <| RollbackOutstanding := None |>
  | None => s <| RollbackOutstanding := None |>
  end.
Definition recordRollback (s : ApplyState) : ApplyState :=
  s <| Live := None |> <| RollbackOutstanding := None |> <| InFlight := None |>.
Definition recordFailure (rev msg : string) (now : Z) (s : ApplyState) : ApplyState :=
  s <| InFlight := None |> <| Last := mkLast now false rev msg |>.
Definition setInFlight (save : bool) (rev : string) (now : Z) (s : ApplyState) : ApplyState :=
  s <| InFlight := Some (mkInFlight now save rev) |>.
(** [setAcks]: the new acknowledgements, and whether anything changed. *)
Definition set_ack (now : Z) (acked : bool) (st : gmap string Z * bool) (id : string) : gmap string Z * bool :=
  if bool_decide (id = "") then st
  else if acked then if bool_decide (is_Some (st.1 !! id)) then st else (<[id := now]> st.1, true)
  else if bool_decide (is_Some (st.1 !! id)) then (delete id st.1, true) else st.
Definition setAcks (ids : list string) (acked : bool) (now : Z) (s : ApplyState) : option ApplyState :=
  let '(acks, changed) := foldl (set_ack now acked) (Acks s, false) ids in
  if changed then Some (s <| Acks := acks |>) else None.
Definition isAcked (s : ApplyState) (id : string) : bool := bool_decide (is_Some (Acks s !! id)).
Definition ackedIDs (s : ApplyState) : list string := sort_strings (map_to_list (Acks s)).*1.
(** [discardLiveOnBoot]: [None] when there was nothing. *)
Definition discardLiveOnBoot (keepLive : bool) (s : ApplyState) : option ApplyState :=
  match Live s, InFlight s with
  | None, None => None
  | _, _ =>
      let s := if keepLive then s else match Live s with Some _ => s <| Live := None |> <| RollbackOutstanding := None |> | None => s end in
      Some (s <| InFlight := None |>)
  end.
Definition publishRoutingOff (off : RoutingOffRecord) (dropLive : bool) (s : ApplyState) : ApplyState :=
  let s := s <| RoutingOff := Some off |> in
  if dropLive then s <| Live := None |> <| RollbackOutstanding := None |> <| InFlight := None |> else s.
Definition publishRoutingOn (s : ApplyState) : ApplyState := s <| RoutingOff := None |>.
Definition withRoutingError (off : RoutingOffRecord) (msg : string) : RoutingOffRecord := off <| off_Error := msg |>.
End data.
