(* ===== verification/ApplyExec.v ===== *)
(** * Installing a materialization, and taking it back

    [src/internal/server/applyexec.go] and the rollback of [apply.go]: the executor that installs a
    materialization in make-before-break order, the post-check, the teardown, and the rollback that
    re-executes the previous revision over a failed one.

    The router is what the source makes it for the executor: the operations of [applyExecOps] (function
    values, each may be nil), which change an opaque world and may fail or be cut by the death of the
    daemon. So are the readings the rollback makes: UCI, [nativeplan.Reconcile], the rebase of an
    OpenWrt plan. A context is what its [Cause] answers. *)
From S2P Require Import Prelude GoStrings ApplyRecord Model PbrPlan PbrLists Failsafe.
Local Open Scope Z_scope.

Class Router `{Carriers} := {
  World : Type;
  now : World -> Z;
  nowMilli : World -> Z;
  bootID : World -> string;
  Ctx : Type;
  Background : Ctx;
  withStrictNativePrepare : Ctx -> Ctx;
  (** [context.WithTimeout(context.WithoutCancel(ctx), d)]. *)
  withoutCancel : Ctx -> Ctx;
  withTimeout : Ctx -> Ctx;
  Cause : Ctx -> World -> option string;
  (** [strconv.Quote], as %q prints. *)
  quote : string -> string;
  flushFlows : option Plan -> option Plan -> World -> World;
  readUCI : World -> option (string * string);
  Reconcile : Ctx -> World -> NativePlan -> NativePlan -> string -> string -> string + Reconciliation;
  rebaseOpenWrtRollback : NativePlan -> NativePlan -> string -> string -> NativePlan
}.

(** What a write of the record's file comes to ([atomicfile.Write]: all of it or nothing). *)
Inductive Saving := Saved | SaveFailed (msg : string) | DiedBefore | DiedAfter.

(** [applyStepUntouchedError] marks an operation that refused before it changed anything. *)
Record OpErr := mkErr { e_msg : string; untouched : bool }.
Record Problem := mkProblem { pr_id : string; pr_engine : string; pr_reason : string }.
Record ExecErr := mkExecErr { x_Step : string; x_Err : OpErr }.
Record applyExecResult := mkResult { Mutated : bool; Steps : list string; Problems : list Problem }.
#[export] Instance eta_result : Eta applyExecResult := fun r => mkResult (Mutated r) (Steps r) (Problems r).
Definition no_result : applyExecResult := mkResult false [] [].

Definition stepNativePrepare : string := "native_prepare".
Definition stepPlugins : string := "plugins".
Definition stepCore : string := "core".
Definition stepKernel : string := "kernel".
Definition stepPluginsRetire : string := "plugins_retire".
Definition stepNativeCommit : string := "native_commit".
Definition stepPostcheck : string := "postcheck".
Definition stepNativePersist : string := "native_persist".
Definition kernelPlaneUnknown : Z := 0.
Definition kernelPlanePresent : Z := 1.
Definition kernelPlaneMissing : Z := 2.

Definition executable (action : string) : bool :=
  bool_decide (action = ExecutionEnsurePresent) || bool_decide (action = ExecutionEnsureAbsent).
(** [unionPluginSpecs]: the target, then what only the previous set has, each id once. *)
Fixpoint add_missing (seen : list string) (previous : list PluginSpec) : list PluginSpec :=
  match previous with
  | [] => []
  | spec :: previous =>
      if bool_decide (sp_ID spec ∈ seen) then add_missing seen previous
      else spec :: add_missing (sp_ID spec :: seen) previous
  end.
Definition unionPluginSpecs (target previous : list PluginSpec) : list PluginSpec :=
  target ++ add_missing (map sp_ID target) previous.
Definition kernelPlaneAfter (r : applyExecResult) (err : option ExecErr) : string :=
  if bool_decide (stepKernel ∈ Steps r) then rollbackPlaneCommitted
  else match err with
       | Some e => if bool_decide (x_Step e = stepKernel) then rollbackPlaneUnknown else rollbackPlaneTested
       | None => rollbackPlaneTested
       end.

(** What failed in a rollback: a step of the re-execution, parts of a teardown, or only the removal of
    the failed target's native objects ([nativeLeftoverError]). *)
Inductive TeardownErr := TdCore (e : OpErr) | TdKernel (e : OpErr) | TdNative (e : OpErr).
Inductive RollbackErr := RbExec (e : ExecErr) | RbTeardown (es : list TeardownErr) | RbLeftover (e : OpErr).
Definition is_native (e : TeardownErr) : bool := match e with TdNative _ => true | _ => false end.
Definition onlyNativeLeftover (e : RollbackErr) : bool :=
  match e with
  | RbExec _ => false
  | RbTeardown es => forallb is_native es && negb (bool_decide (es = []))
  | RbLeftover _ => true
  end.
Definition nl : string := String (Ascii.ascii_of_nat 10) "".
Definition leftover_msg (e : OpErr) : string :=
  "the router-native tunnels being rolled back could not be removed: " +:+ e_msg e.
Definition teardown_msg (e : TeardownErr) : string :=
  match e with
  | TdCore e => "stop core: " +:+ e_msg e
  | TdKernel e => "kernel plane teardown: " +:+ e_msg e
  | TdNative e => leftover_msg e
  end.
Definition exec_msg (e : ExecErr) : string := x_Step e +:+ ": " +:+ e_msg (x_Err e).
Definition rollback_msg (e : RollbackErr) : string :=
  match e with
  | RbExec e => exec_msg e
  | RbTeardown es => String.concat nl (map teardown_msg es)
  | RbLeftover e => leftover_msg e
  end.

Section exec.
Context {Car : Carriers} {R : Router}.

(** The daemon's state as far as an Apply sees it: the router, the record in memory and on disk (with
    the last failure to write it), the last word on the kernel plane, the published stage, the fail-safe
    manager with the revision each of its windows was armed for, and what boot found. *)
Record Server := mkServer {
  world : World; rec : ApplyState; disk : option ApplyState; saveErr : string;
  kernelPlaneState : Z; applyStage : string;
  failsafe : option Manager; windows : gmap Z Revision;
  bootLive : option Revision; bootDroppedPlan : option Plan
}.
#[export] Instance eta_server : Eta Server := fun s =>
  mkServer (world s) (rec s) (disk s) (saveErr s) (kernelPlaneState s) (applyStage s) (failsafe s) (windows s)
    (bootLive s) (bootDroppedPlan s).
Definition Op (A : Type) : Type := C World A.
Definition lift {A} (o : Op A) : C Server A := fun s => let '(r, w) := o (world s) in (r, s <| world := w |>).
Definition setStage (stage : string) : C Server unit := modify (fun s => s <| applyStage := stage |>).
Definition markKernelPlane (state : Z) : C Server unit := modify (fun s => s <| kernelPlaneState := state |>).
Definition flushStaleFlows (prev cur : option Plan) : C Server unit :=
  modify (fun s => s <| world := flushFlows prev cur (world s) |>).

Record applyExecOps := mkOps {
  prepareNative : option (Ctx -> NativePlan -> Op (option OpErr));
  commitNative : option (Ctx -> Reconciliation -> Op (option OpErr));
  abortNative : option (Ctx -> NativePlan -> Op (option OpErr));
  persistNative : option (Ctx -> Reconciliation -> Op (option OpErr));
  postcheckNative : option (Ctx -> Reconciliation -> Op (option OpErr));
  core : option (Ctx -> CoreArtifact -> Op (option OpErr));
  coreRunning : option (Op bool);
  checkCore : option (Ctx -> bytes -> Op (option OpErr));
  kernel : option (Ctx -> KernelArtifact -> option KernelArtifact -> Op (option OpErr));
  kernelTeardown : option (Ctx -> KernelArtifact -> Op (option OpErr));
  kernelPostcheck : option (Ctx -> KernelArtifact -> Op (option OpErr));
  plugins : option (Ctx -> list PluginSpec -> Op (list Problem));
  nativeRoutingOff : option (Ctx -> NativePlan -> Op (bool * option OpErr));
  nativeRoutingSave : option (Ctx -> NativePlan -> Op (option OpErr));
  resolverReload : option (Ctx -> KernelArtifact -> Op (option OpErr))
}.

(** ** The executor *)
(** A run of steps threads the result it reports and stops at the first error. *)
Definition X (A : Type) : Type := applyExecResult -> C Server (applyExecResult * (ExecErr + A)).
#[export] Instance X_ret : MRet X := fun A a r => mret (r, inr a).
#[export] Instance X_bind : MBind X := fun A B f x r =>
  v ← x r; match v.2 with inl e => mret (v.1, inl e) | inr a => f a v.1 end.
Definition fail_step {A} (name msg : string) : X A := fun r => mret (r, inl (mkExecErr name (mkErr msg false))).

(** [step]: [run] also gets at the result (the retired plugins' problems). *)
Definition step (ctx : Ctx) (name : string) (run : applyExecResult -> C Server (applyExecResult * option OpErr)) : X unit := fun r =>
  c ← gets (fun s => Cause ctx (world s));
  match c with
  | Some e => mret (r, inl (mkExecErr name (mkErr e false)))
  | None =>
      _ ← setStage name;
      v ← run (r <| Mutated := true |>);
      match v.2 with
      | Some e => mret ((if untouched e then v.1 <| Mutated := Mutated r |> else v.1), inl (mkExecErr name e))
      | None => mret (v.1 <| Steps := Steps v.1 ++ [name] |>, inr tt)
      end
  end.
Definition run_op (m : C Server (option OpErr)) (r : applyExecResult) : C Server (applyExecResult * option OpErr) :=
  e ← m; mret (r, e).
Definition x_when (b : bool) (x : X unit) : X unit := if b then x else mret tt.

Definition wrap_err (prefix : string) (e : OpErr) : OpErr := mkErr (prefix +:+ e_msg e) (untouched e).
Definition check_with (prefix : string) (m : C Server (option OpErr)) (k : C Server (option OpErr)) : C Server (option OpErr) :=
  e ← m; match e with Some e => mret (Some (wrap_err prefix e)) | None => k end.
Definition postcheckMaterialization (ctx : Ctx) (ops : applyExecOps) (running : Op bool) (m : Materialization)
    : C Server (option OpErr) :=
  let coreState : C Server (option OpErr) :=
    is_running ← lift running;
    mret (if eqb is_running (core_present m) then None
          else if core_present m then Some (mkErr "sing-box is not running after the apply" false)
          else Some (mkErr "sing-box is still running although this configuration does not use it" false)) in
  let kernelState : C Server (option OpErr) :=
    match kernelPostcheck ops with
    | Some post => if kernel_present m then check_with "the kernel routing plane is not installed: " (lift (post ctx (m_Kernel m))) coreState else coreState
    | None => coreState
    end in
  match m_Native m, postcheckNative ops with
  | Some n, Some post => check_with "native state does not match the plan: " (lift (post ctx (n_Reconcile n))) kernelState
  | _, _ => kernelState
  end.

Definition previousKernel (previous : option Materialization) : option KernelArtifact :=
  p ← previous; if known p && kernel_present p then Some (m_Kernel p) else None.
Definition previousPlugins (previous : option Materialization) : list PluginSpec :=
  match previous with Some p => if known p then pluginSpecs p else [] | None => [] end.

Section planes.
Context (ctx : Ctx) (ops : applyExecOps).
Context (core_ : Ctx -> CoreArtifact -> Op (option OpErr))
        (kernel_ : Ctx -> KernelArtifact -> option KernelArtifact -> Op (option OpErr))
        (plugins_ : Ctx -> list PluginSpec -> Op (list Problem)) (running_ : Op bool).
Context (m : Materialization) (previous : option Materialization).

Definition native_prepare : X unit :=
  match m_Native m, prepareNative ops with
  | Some _, Some prepare =>
      match nativeTarget m with
      | None => fail_step stepNativePrepare "the native program has no target plan"
      | Some target => step ctx stepNativePrepare (run_op (lift (prepare ctx target)))
      end
  | _, _ => mret tt
  end.
Definition has_plugins : bool :=
  negb (bool_decide (length (pluginSpecs m) = 0%nat)) || negb (bool_decide (length (previousPlugins previous) = 0%nat)).
Definition plugins_union : X unit :=
  x_when has_plugins (step ctx stepPlugins (run_op (
    _ ← lift (plugins_ ctx (unionPluginSpecs (pluginSpecs m) (previousPlugins previous))); mret None))).
Definition core_step : X unit := step ctx stepCore (run_op (lift (core_ ctx (m_Core m)))).
Definition kernel_step : X unit := step ctx stepKernel (run_op (lift (kernel_ ctx (m_Kernel m) (previousKernel previous)))).
Definition plugins_retire : X unit :=
  x_when has_plugins (step ctx stepPluginsRetire (fun r =>
    problems ← lift (plugins_ ctx (pluginSpecs m)); mret (r <| Problems := problems |>, None))).
Definition native_commit : X unit :=
  match m_Native m, commitNative ops with
  | Some n, Some commit => step ctx stepNativeCommit (run_op (lift (commit ctx (n_Reconcile n))))
  | _, _ => mret tt
  end.
Definition postcheck : X unit := step ctx stepPostcheck (run_op (postcheckMaterialization ctx ops running_ m)).
Definition absent (action : string) : bool := bool_decide (action = ExecutionEnsureAbsent).

Definition planes : X unit :=
  _ ← native_prepare;
  _ ← plugins_union;
  _ ← x_when (core_present m) core_step;
  _ ← x_when (kernel_present m) kernel_step;
  _ ← x_when (absent (c_Action (m_Core m))) core_step;
  _ ← x_when (absent (k_Action (m_Kernel m))) kernel_step;
  _ ← plugins_retire;
  _ ← native_commit;
  postcheck.
End planes.

Definition native_ops_missing (ops : applyExecOps) (m : Materialization) : bool :=
  match m_Native m, prepareNative ops, commitNative ops, postcheckNative ops with
  | Some _, Some _, Some _, Some _ => false
  | Some _, _, _, _ => true
  | None, _, _, _ => false
  end.
Definition executeMaterialization (ctx : Ctx) (ops : applyExecOps) (m : Materialization) (previous : option Materialization)
    : C Server (applyExecResult * option ExecErr) :=
  let refuse msg := mret (no_result, Some (mkExecErr "program" (mkErr msg false))) in
  if negb (known m) then refuse "nothing to execute: the materialization is unknown"
  else if materializationIsDemo m then mret (no_result, None)
  else match List.find (fun a => negb (executable a)) [c_Action (m_Core m); k_Action (m_Kernel m); m_PluginAction m] with
  | Some action => refuse ("plane action " +:+ quote action +:+ " cannot be executed")
  | None =>
      if native_ops_missing ops m then refuse "this daemon has no native (UCI/NDM) adapter"
      else match core ops, kernel ops, plugins ops, coreRunning ops with
      | Some core_, Some kernel_, Some plugins_, Some running_ =>
          v ← planes ctx ops core_ kernel_ plugins_ running_ m previous no_result;
          mret (v.1, match v.2 with inl e => Some e | inr _ => None end)
      | _, _, _, _ => refuse "the execution adapters are incomplete"
      end
  end.

(** ** Teardown *)
Definition collect (tag : OpErr -> TeardownErr) (m : C Server (option OpErr)) : C Server (list TeardownErr) :=
  e ← m; mret (match e with Some e => [tag e] | None => [] end).
Definition teardownMaterialization (ctx : Ctx) (ops : applyExecOps) (m : option Materialization) : C Server (list TeardownErr) :=
  match m with
  | None => mret []
  | Some m =>
      if negb (known m) || materializationIsDemo m then mret []
      else
        e1 ← match core ops with
             | Some core_ => collect TdCore (lift (core_ ctx ((m_Core m) <| c_Action := ExecutionEnsureAbsent |>)))
             | None => mret []
             end;
        e2 ← match kernelTeardown ops with
             | Some down => if kernel_present m then collect TdKernel (lift (down ctx (m_Kernel m))) else mret []
             | None => mret []
             end;
        e3 ← match nativeTarget m, abortNative ops with
             | Some target, Some abort => collect TdNative (lift (abort ctx target))
             | _, _ => mret []
             end;
        _ ← match plugins ops with Some sync => _ ← lift (sync ctx []); mret tt | None => mret tt end;
        mret (e1 ++ e2 ++ e3)
  end.

(** ** Re-executing a revision *)
(** [bindKernelRetire] *)
Definition bindKernelRetire (target : KernelArtifact) (previous : option Materialization) : KernelArtifact :=
  let target := target <| k_Retire := [] |> in
  match previous with
  | None => target
  | Some p =>
      if negb (known p) || negb (kernel_present p) then target
      else match k_Ipset (m_Kernel p) with
           | Some _ => target
           | None =>
               let retire := filter (fun c => c ∉ k_Teardown target) (k_Teardown (m_Kernel p)) in
               let target := target <| k_Retire := retire |> in
               if negb (bool_decide (retire = [])) && bool_decide (k_Action target = ExecutionEnsureAbsent)
               then target <| k_NFTTool := k_NFTTool (m_Kernel p) |> <| k_IPTool := k_IPTool (m_Kernel p) |> else target
           end
  end.
Definition additive (n : NativeArtifact) : NativeArtifact :=
  n <| n_Reconcile := (n_Reconcile n) <| KeeneticTeardown := [] |> <| OpenWrtRemovals := [] |> |>.
(** [convergeMaterialization] *)
Definition convergeMaterialization (m : Materialization) : Materialization :=
  let k := (m_Kernel m) <| k_Retire := [] |> in
  m <| m_Kernel := if absent (k_Action k) then k <| k_NFTTool := no_tool |> <| k_IPTool := no_tool |> else k |>
    <| m_Native := additive <$> m_Native m |>.

Definition abort_target (ctx : Ctx) (ops : applyExecOps) (target : NativePlan) : C Server (option OpErr) :=
  match abortNative ops with Some abort => lift (abort ctx target) | None => mret None end.
Definition PlatformOpenWrt : string := "openwrt".
(** [rollbackMaterialization]: what to execute, and the failed abort of the failed target. *)
Definition rollbackMaterialization (ctx : Ctx) (ops : applyExecOps) (base : Materialization) (failed : option Materialization)
    : C Server (Materialization * option OpErr) :=
  let target := base <| m_Kernel := bindKernelRetire (m_Kernel base) failed |> in
  let plain := target <| m_Native := additive <$> m_Native target |> in
  match failed ≫= nativeTarget, nativeTarget base with
  | None, _ => mret (plain, None)
  | Some failedNative, None => e ← abort_target ctx ops failedNative; mret (target, e)
  | Some failedNative, Some baseNative =>
      w ← gets world;
      let uci := if bool_decide (NativePlatform baseNative = PlatformOpenWrt) then default ("", "")%string (readUCI w) else ("", "")%string in
      match Reconcile ctx w failedNative baseNative uci.1 uci.2 with
      | inl _ => e ← abort_target ctx ops failedNative; mret (plain, e)
      | inr delta =>
          let delta := if bool_decide (NativePlatform baseNative = PlatformOpenWrt)
                       then delta <| r_Target := Some (rebaseOpenWrtRollback baseNative failedNative uci.1 uci.2) |> else delta in
          mret (target <| m_Native := Some (mkNative delta (m_Native base ≫= n_AWGKernel)) |>, None)
      end
  end.
Definition plan_of (m : option Materialization) : option Plan := m ≫= kernelPlan.
(** [rollbackTo]: how far it got with the kernel plane, and what failed. *)
Definition rollbackTo (ctx : Ctx) (ops : applyExecOps) (base : option Revision) (failed : option Materialization)
    : C Server (string * option RollbackErr) :=
  let rbCtx := withoutCancel ctx in
  let down :=
    es ← teardownMaterialization rbCtx ops failed;
    _ ← markKernelPlane kernelPlaneUnknown;
    if bool_decide (es = []) then
      _ ← flushStaleFlows (plan_of failed) None; mret (rollbackPlaneCommitted, None)
    else if onlyNativeLeftover (RbTeardown es) then
      _ ← flushStaleFlows (plan_of failed) None; mret (rollbackPlaneCommitted, Some (RbTeardown es))
    else mret (rollbackPlaneUnknown, Some (RbTeardown es)) in
  match base with
  | None => down
  | Some base =>
      if negb (known (rv_Materialization base)) then down
      else
        t ← rollbackMaterialization rbCtx ops (rv_Materialization base) failed;
        v ← executeMaterialization rbCtx ops t.1 failed;
        match v.2 with
        | Some e => mret (kernelPlaneAfter v.1 (Some e), Some (RbExec e))
        | None =>
            _ ← when (kernel_present t.1) (markKernelPlane kernelPlanePresent);
            _ ← flushStaleFlows (plan_of failed) (kernelPlan t.1);
            mret (rollbackPlaneCommitted, RbLeftover <$> t.2)
        end
  end.
End exec.
#[export] Typeclasses Opaque X.
Arguments Server {_ _}.
