(* ===== verification/ApplyExecFacts.v ===== *)
(** * What an execution leaves on the router

    Two planes of the router are watched: what the core was last told to run ([core_of]) and which
    kernel planes are wholly installed ([whole]). [RouterLaws] is what the platform adapters promise of
    them, per operation; from it follows what [executeMaterialization] and [rollbackTo] leave, however
    far they get and whatever fails, including how much of it [kernelPlaneAfter] may claim.

    Further on: the order of an execution; what an execution and a rollback leave, step by step; what a rollback leaves. *)
From S2P Require Import Prelude Failsafe GoStrings PbrPlan Model PbrLists ApplyRecord ApplyExec.
Local Open Scope Z_scope.

Create HintDb apply_db.

(** ** Rules for the executor's runs *)
Section rules.
Context {Car : Carriers} {R : Router}.
Implicit Types (s : Server) (D : Server -> Prop).

(** Nothing but the router and the published stage differs. *)
Definition only_world (s s' : Server) : Prop := s' = s <| world := world s' |> <| applyStage := applyStage s' |>.
Lemma only_world_refl s : only_world s s.
Proof. by destruct s. Qed.
Lemma only_world_world s s' w : only_world s s' -> only_world s (s' <| world := w |>).
Proof. unfold only_world. intros ->. by destruct s. Qed.
Lemma only_world_stage s s' st : only_world s s' -> only_world s (s' <| applyStage := st |>).
Proof. unfold only_world. intros ->. by destruct s. Qed.

Lemma wp_lift {A} (o : Op A) Q D s :
  (forall a w, o (world s) = (Some a, w) -> Q a (s <| world := w |>)) ->
  (forall w, o (world s) = (None, w) -> D (s <| world := w |>)) -> wp (lift o) Q D s.
Proof. unfold wp, lift. intros HQ HD. destruct (o (world s)) as [[a|] w] eqn:E; eauto. Qed.

Definition xp {A} (x : X A) (Q : A -> applyExecResult -> Server -> Prop) (E : ExecErr -> applyExecResult -> Server -> Prop) D r s : Prop :=
  wp (x r) (fun v s => match v.2 with inl e => E e v.1 s | inr a => Q a v.1 s end) D s.
Lemma xp_ret {A} (a : A) Q E D r s : Q a r s -> xp (mret a) Q E D r s.
Proof. done. Qed.
Lemma xp_bind {A B} (x : X A) (k : A -> X B) Q E D r s :
  xp x (fun a r s => xp (k a) Q E D r s) E D r s -> xp (x ≫= k) Q E D r s.
Proof.
  unfold xp. intros H. unfold mbind, X_bind. apply wp_bind. eapply wp_mono_post; [exact H|].
  intros [r' [e|a]] s'; cbn; [intros ?; by apply wp_ret|done].
Qed.
Lemma xp_mono {A} (x : X A) (Q Q' : A -> applyExecResult -> Server -> Prop) (E E' : ExecErr -> applyExecResult -> Server -> Prop) D r s :
  xp x Q E D r s -> (forall a r s, Q a r s -> Q' a r s) -> (forall e r s, E e r s -> E' e r s) -> xp x Q' E' D r s.
Proof. unfold xp. intros H HQ HE. eapply wp_mono_post; [exact H|]. intros [? [?|?]] ?; cbn; auto. Qed.
Lemma xp_when (b : bool) x Q E D r s :
  (b = true -> xp x Q E D r s) -> (b = false -> Q tt r s) -> xp (x_when b x) Q E D r s.
Proof. destruct b; cbn; intros H1 H2; [auto|by apply xp_ret, H2]. Qed.

(** One step: it may not start (the context is done), and then nothing changed. *)
Lemma xp_step ctx name run Q E D r s :
  (forall c, Cause ctx (world s) = Some c -> E (mkExecErr name (mkErr c false)) r s) ->
  wp (run (r <| Mutated := true |>))
    (fun v s => match v.2 with
       | None => Q tt (v.1 <| Steps := Steps v.1 ++ [name] |>) s
       | Some e => E (mkExecErr name e) (if untouched e then v.1 <| Mutated := Mutated r |> else v.1) s
       end) D (s <| applyStage := name |>) ->
  xp (step ctx name run) Q E D r s.
Proof.
  intros Hc Hrun. unfold xp, step. apply wp_bind, wp_gets.
  destruct (Cause ctx (world s)) as [c|]; [by apply wp_ret, Hc|].
  apply wp_bind, wp_modify, wp_bind. eapply wp_mono_post; [exact Hrun|].
  intros [r' [e|]] s'; cbn; intros H; by apply wp_ret.
Qed.
Lemma wp_run_op (m : C Server (option OpErr)) r Q D s :
  wp m (fun e s => Q (r, e) s) D s -> wp (run_op m r) Q D s.
Proof. intros H. unfold run_op. apply wp_bind. eapply wp_mono_post; [exact H|]. intros e s' He. by apply wp_ret. Qed.
End rules.

(** ** What the adapters promise *)
Class RouterView `{Router} := {
  core_of : World -> option (string * bytes);
  whole : World -> KernelArtifact -> Prop
}.

Section views.
Context {Car : Carriers} {R : Router} {V : RouterView}.
Implicit Types (s : Server) (w : World) (m : Materialization).

Definition expected_core (a : CoreArtifact) : option (string * bytes) :=
  if bool_decide (c_Action a = ExecutionEnsurePresent) then Some (c_ConfigPath a, c_Config a) else None.
(** A plane without the commands that retire what an earlier one left. *)
Definition plane (k : KernelArtifact) : KernelArtifact := k <| k_Retire := [] |>.
Definition keeps_planes w w' : Prop := forall k, whole w k -> whole w' k.
Definition same_core w w' : Prop := core_of w' = core_of w.
Definition calm w w' : Prop := same_core w w' /\ keeps_planes w w'.
Definition calm_op {A} (o : Op A) : Prop := forall w a w', o w = (Some a, w') -> calm w w'.

Record RouterLaws (ops : applyExecOps) : Prop := {
  law_prepare f ctx p : prepareNative ops = Some f -> calm_op (f ctx p);
  law_commit f ctx d : commitNative ops = Some f -> calm_op (f ctx d);
  law_abort f ctx p : abortNative ops = Some f -> calm_op (f ctx p);
  law_persist f ctx d : persistNative ops = Some f -> calm_op (f ctx d);
  law_postcheck f ctx d : postcheckNative ops = Some f -> calm_op (f ctx d);
  law_running f : coreRunning ops = Some f -> calm_op f;
  law_check f ctx b : checkCore ops = Some f -> calm_op (f ctx b);
  law_kernel_postcheck f ctx k : kernelPostcheck ops = Some f -> calm_op (f ctx k);
  law_plugins f ctx l : plugins ops = Some f -> calm_op (f ctx l);
  law_save f ctx p : nativeRoutingSave ops = Some f -> calm_op (f ctx p);
  law_flush p q w : calm w (flushFlows p q w);
  law_core f ctx a w e w' : core ops = Some f -> f ctx a w = (Some e, w') ->
    keeps_planes w w' /\
    match e with None => core_of w' = expected_core a | Some e => untouched e = true -> same_core w w' end;
  law_kernel f ctx t p w e w' : kernel ops = Some f -> f ctx t p w = (Some e, w') ->
    same_core w w' /\
    match e with
    | None => k_Action t = ExecutionEnsurePresent -> whole w' (plane t)
    | Some e => untouched e = true -> keeps_planes w w'
    end;
  law_teardown f ctx k w e w' : kernelTeardown ops = Some f -> f ctx k w = (Some e, w') -> same_core w w';
  law_present f ctx k w w' : kernelPostcheck ops = Some f -> f ctx k w = (Some None, w') -> whole w' (plane k)
}.

Lemma calm_refl w : calm w w.
Proof. split; [done|by intros ?]. Qed.
Lemma keeps_planes_trans w1 w2 w3 : keeps_planes w1 w2 -> keeps_planes w2 w3 -> keeps_planes w1 w3.
Proof. unfold keeps_planes. auto. Qed.
Lemma calm_trans w1 w2 w3 : calm w1 w2 -> calm w2 w3 -> calm w1 w3.
Proof. intros [H1 K1] [H2 K2]. split; [unfold same_core in *; congruence|by eapply keeps_planes_trans]. Qed.
End views.
#[export] Hint Resolve calm_refl calm_trans keeps_planes_trans only_world_refl only_world_world only_world_stage : apply_db.

(** * The order of an execution

    What [executeMaterialization] does first to last, and that it stops at the first step that fails. *)

Section steps.
Context {Car : Carriers} {R : Router}.
Implicit Types (s : Server) (r : applyExecResult).

(** Make before break: native interfaces, the new plugins beside the old, the core and the kernel plane
    (the plane first when the core retires), only then the old plugins and the obsolete native objects go,
    and the result is checked. *)
Definition step_names (m : Materialization) (previous : option Materialization) : list string :=
  let native := bool_decide (is_Some (m_Native m)) in
  let one (b : bool) (name : string) := if b then [name] else [] in
  one native stepNativePrepare ++ one (has_plugins m previous) stepPlugins ++
  one (core_present m) stepCore ++ one (kernel_present m) stepKernel ++
  one (absent (c_Action (m_Core m))) stepCore ++ one (absent (k_Action (m_Kernel m))) stepKernel ++
  one (has_plugins m previous) stepPluginsRetire ++ one native stepNativeCommit ++ [stepPostcheck].

(** [x] runs the steps [names] after those already done, and stops at the first that fails. *)
Definition does (names : list string) (x : X unit) : Prop :=
  forall r s, xp x (fun _ r' _ => Steps r' = Steps r ++ names)
    (fun e r' _ => exists pre rest, names = pre ++ x_Step e :: rest /\ Steps r' = Steps r ++ pre) anywhere r s.
Lemma does_nothing : does [] (mret tt).
Proof. intros r s. apply xp_ret. by rewrite app_nil_r. Qed.
Lemma does_seq n1 n2 (x y : X unit) : does n1 x -> does n2 y -> does (n1 ++ n2) (_ ← x; y).
Proof.
  intros Hx Hy r s. apply xp_bind. eapply xp_mono; [apply Hx| |]; cbn.
  - intros _ r1 s1 H1. eapply xp_mono; [apply Hy| |]; cbn.
    + intros _ r2 _ ->. by rewrite H1, app_assoc.
    + intros e r2 _ (pre & rest & -> & ->). exists (n1 ++ pre), rest. by rewrite H1, !app_assoc.
  - intros e r1 _ (pre & rest & -> & H1). exists pre, (rest ++ n2). split; [|done]. by rewrite <- app_assoc.
Qed.
Lemma does_step ctx name run :
  (forall r s, wp (run r) (fun v _ => Steps v.1 = Steps r) anywhere s) -> does [name] (step ctx name run).
Proof.
  intros Hrun r s. apply xp_step.
  - intros c _. exists [], []. by rewrite app_nil_r.
  - eapply wp_mono_post; [apply Hrun|]. intros [r' [e|]] s' Hr; cbn in *.
    + exists [], []. split; [done|]. rewrite app_nil_r. by destruct (untouched e).
    + by rewrite Hr.
Qed.
Lemma does_op ctx name (m : C Server (option OpErr)) : does [name] (step ctx name (run_op m)).
Proof. apply does_step. intros r s. apply wp_run_op, wp_intro; done. Qed.
Lemma does_when b name x : (b = true -> does [name] x) -> does (if b : bool then [name] else []) (x_when b x).
Proof. destruct b; intros H; [by apply H|apply does_nothing]. Qed.

Lemma planes_steps ctx ops fc fk fp fr m previous :
  native_ops_missing ops m = false -> does (step_names m previous) (planes ctx ops fc fk fp fr m previous).
Proof.
  intros Hn. unfold planes, step_names. cbv zeta.
  apply does_seq.
  { unfold native_prepare, native_ops_missing in *. destruct (m_Native m); [|apply does_nothing].
    destruct (prepareNative ops); [|done]. rewrite bool_decide_eq_true_2 by by eexists.
    destruct (nativeTarget m); [apply does_op|]. intros r s. unfold xp, fail_step. apply wp_ret.
    exists [], []. cbn. by rewrite app_nil_r. }
  apply does_seq; [apply does_when; intros _; apply does_op|].
  do 4 (apply does_seq; [apply does_when; intros _; apply does_op|]).
  apply does_seq.
  { apply does_when. intros _. apply does_step. intros r s. apply wp_bind, wp_intro; [|done]. intros problems s1 _. by apply wp_ret. }
  apply does_seq; [|apply does_op].
  unfold native_commit, native_ops_missing in *. destruct (m_Native m); [|apply does_nothing].
  destruct (prepareNative ops), (commitNative ops); try done. rewrite bool_decide_eq_true_2 by by eexists. apply does_op.
Qed.

(** C21: an execution does its steps in make-before-break order and stops at the first failure: a success did
    every step of [step_names], and an error names either the program itself, with nothing done, or the
    step right after the ones done. A demo's materialization does nothing. *)
Theorem execution_in_order ctx ops m previous s r e s' :
  executeMaterialization ctx ops m previous s = (Some (r, e), s') ->
  match e with
  | None => Steps r = if materializationIsDemo m then [] else step_names m previous
  | Some e => (x_Step e = "program"%string /\ r = no_result) \/
      exists rest, step_names m previous = Steps r ++ x_Step e :: rest
  end.
Proof.
  intros E. apply (wp_run _ (fun v _ => match v.2 with
    | None => Steps v.1 = if materializationIsDemo m then [] else step_names m previous
    | Some e => (x_Step e = "program"%string /\ v.1 = no_result) \/
        exists rest, step_names m previous = Steps v.1 ++ x_Step e :: rest
    end) anywhere) with (s := s) (a := (r, e)) in E; [exact E|]. clear E r e s'.
  assert (Hno : forall msg, wp (mret (no_result, Some (mkExecErr "program" (mkErr msg false)))) (fun v _ => match v.2 with
    | None => Steps v.1 = if materializationIsDemo m then [] else step_names m previous
    | Some e => (x_Step e = "program"%string /\ v.1 = no_result) \/
        exists rest, step_names m previous = Steps v.1 ++ x_Step e :: rest
    end) anywhere s) by (intros msg; apply wp_ret; by left).
  unfold executeMaterialization. destruct (negb (known m)); [apply Hno|].
  destruct (materializationIsDemo m); [by apply wp_ret|].
  destruct (List.find _ _) as [action|]; [apply Hno|]. destruct (native_ops_missing ops m) eqn:En; [apply Hno|].
  destruct (core ops) as [fc|]; [|apply Hno]. destruct (kernel ops) as [fk|]; [|apply Hno].
  destruct (plugins ops) as [fp|]; [|apply Hno]. destruct (coreRunning ops) as [fr|]; [|apply Hno].
  apply wp_bind. eapply wp_mono_post; [by apply planes_steps|]. intros [r [e|[]]] s'; cbn.
  - intros (pre & rest & Hp & Hs). apply wp_ret. right. exists rest. cbn. by rewrite Hp, Hs.
  - intros Hs. apply wp_ret. exact Hs.
Qed.
End steps.

(** * What an execution and a rollback leave, step by step

    The invariant of a run of the executor's steps ([stage]) and what follows of a whole run and of
    [rollbackTo], over any adapters that keep [RouterLaws]. *)

Section run.
Context {Car : Carriers} {R : Router} {V : RouterView} (ops : applyExecOps) (Laws : RouterLaws ops).
Implicit Types (s : Server) (w : World) (m : Materialization).

(** Where a run of [m] that began in world [w0] stands: [cb], [kb]: its core and kernel steps are done. *)
Record stage (m : Materialization) (w0 : World) (cb kb : bool) (r : applyExecResult) (w : World) : Prop := {
  st_untouched : Mutated r = false -> calm w0 w;
  st_before : kb = false -> keeps_planes w0 w;
  st_kernel : kb = true -> kernel_present m = true -> whole w (plane (m_Kernel m));
  st_core : cb = true -> core_of w = expected_core (m_Core m);
  st_mark : stepKernel ∈ Steps r <-> kb = true
}.
(** What is known of a run that ended, with an error or without one. *)
Record ended (m : Materialization) (w0 : World) (r : applyExecResult) (e : option ExecErr) (w : World) : Prop := {
  en_untouched : Mutated r = false -> calm w0 w;
  en_before : kernelPlaneAfter r e = rollbackPlaneTested -> keeps_planes w0 w;
  en_kernel : kernelPlaneAfter r e = rollbackPlaneCommitted -> kernel_present m = true -> whole w (plane (m_Kernel m))
}.
Lemma stage_start m w : stage m w false false no_result w.
Proof. split; try done; intros; [apply calm_refl|by intros ?|]. split; [by intros ?%elem_of_nil|done]. Qed.
Lemma stage_calm m w0 cb kb r w w' : stage m w0 cb kb r w -> calm w w' -> stage m w0 cb kb r w'.
Proof.
  intros [Hu Hb Hk Hc Hm] Hcalm. pose proof Hcalm as [Hsame Hkeep]. split; try done.
  - intros H. eapply calm_trans; eauto.
  - intros H. eapply keeps_planes_trans; eauto.
  - auto.
  - intros H. rewrite Hsame. auto.
Qed.
Lemma stage_ended m w0 cb kb r w e : stage m w0 cb kb r w -> e <> Some stepKernel -> forall err, x_Step <$> err = e -> ended m w0 r err w.
Proof.
  intros [Hu Hb Hk Hc Hm] He err Herr.
  assert (Hpl : kernelPlaneAfter r err = if kb then rollbackPlaneCommitted else rollbackPlaneTested).
  { unfold kernelPlaneAfter. case_bool_decide as Hin; [by apply Hm in Hin as ->|].
    destruct kb; [by destruct Hin; apply Hm|]. destruct err as [[st er]|]; [|done].
    cbn in *. case_bool_decide; [congruence|done]. }
  split; [done|rewrite Hpl..]; destruct kb; auto; done.
Qed.

(** A step that only watches the planes, or leaves them alone. *)
Lemma calm_step m w0 cb kb ctx name run s0 r s :
  name <> stepKernel -> stage m w0 cb kb r (world s) -> only_world s0 s ->
  (forall r s, only_world s0 s -> wp (run r) (fun v s' => Mutated v.1 = Mutated r /\ Steps v.1 = Steps r /\
      calm (world s) (world s') /\ only_world s0 s') (only_world s0) s) ->
  xp (step ctx name run) (fun _ r s => stage m w0 cb kb r (world s) /\ only_world s0 s)
     (fun e r s => ended m w0 r (Some e) (world s) /\ only_world s0 s) (only_world s0) r s.
Proof.
  intros Hn Hst How Hrun. apply xp_step.
  { intros c _. split; [|done]. apply (stage_ended m w0 cb kb _ _ (Some name)); [done|congruence|done]. }
  eapply wp_mono_post; [apply Hrun; by apply only_world_stage|].
  intros [r' e] s' (Hmu & Hsteps & Hcalm & How'). cbn in *.
  pose proof (stage_calm _ _ _ _ _ _ _ Hst Hcalm) as Hst'. destruct e as [e|].
  - split; [|done]. apply (stage_ended m w0 cb kb _ _ (Some name)); [|congruence|done].
    destruct Hst' as [Hu Hb Hk Hc Hm]. destruct (untouched e); cbn; split; cbn; rewrite ?Hsteps; try done.
    by rewrite Hmu.
  - split; [|done]. destruct Hst' as [Hu Hb Hk Hc Hm]. split; cbn; rewrite ?Hmu; try done.
    rewrite Hsteps. set_solver.
Qed.
(** An operation of the router as a step's run. *)
Lemma calm_run {A} (o : Op A) (f : A -> applyExecResult -> applyExecResult * option OpErr) s0 r s :
  calm_op o -> (forall a r, Mutated (f a r).1 = Mutated r /\ Steps (f a r).1 = Steps r) -> only_world s0 s ->
  wp (a ← lift o; mret (f a r)) (fun v s' => Mutated v.1 = Mutated r /\ Steps v.1 = Steps r /\
      calm (world s) (world s') /\ only_world s0 s') (only_world s0) s.
Proof.
  intros Ho Hf How. apply wp_bind, wp_lift; [|intros w _; by apply only_world_world].
  intros a w Ew. apply wp_ret. destruct (Hf a r) as [-> ->]. split_and!; try done; [by eapply Ho|by apply only_world_world].
Qed.
Lemma core_step_spec m w0 cb kb ctx f s0 r s :
  core ops = Some f -> stage m w0 cb kb r (world s) -> only_world s0 s ->
  xp (core_step ctx f m) (fun _ r s => stage m w0 true kb r (world s) /\ only_world s0 s)
     (fun e r s => ended m w0 r (Some e) (world s) /\ only_world s0 s) (only_world s0) r s.
Proof.
  intros Hf Hst How. apply xp_step.
  { intros c _. split; [|done]. apply (stage_ended m w0 cb kb _ _ (Some stepCore)); [done|done|done]. }
  destruct Hst as [Hu Hb Hk Hc Hm].
  apply wp_run_op, wp_lift; [|intros w _; apply only_world_world; by apply only_world_stage].
  intros e w Ew. destruct (law_core _ Laws _ _ _ _ _ _ Hf Ew) as [Hkeep He]. cbn in *.
  assert (Hb' : kb = false -> keeps_planes w0 w) by (intros ?; eapply keeps_planes_trans; eauto).
  destruct e as [e|]; (split; [|apply only_world_world; by apply only_world_stage]).
  - apply (stage_ended m w0 false kb _ _ (Some stepCore)); [|done|done].
    split; try done; destruct (untouched e); cbn; try done.
    + intros H. eapply calm_trans; [by apply Hu|]. split; [by apply He|done].
    + intros ? ?. by apply Hkeep, Hk.
    + intros ? ?. by apply Hkeep, Hk.
  - split; cbn; try done.
    + intros ? ?. by apply Hkeep, Hk.
    + set_solver.
Qed.
Lemma kernel_step_spec m w0 cb ctx f previous s0 r s :
  kernel ops = Some f -> stage m w0 cb false r (world s) -> only_world s0 s ->
  xp (kernel_step ctx f m previous) (fun _ r s => stage m w0 cb true r (world s) /\ only_world s0 s)
     (fun e r s => ended m w0 r (Some e) (world s) /\ only_world s0 s) (only_world s0) r s.
Proof.
  intros Hf Hst How.
  assert (Hun : forall r c, Steps r = Steps r -> stepKernel ∉ Steps r ->
    kernelPlaneAfter r (Some (mkExecErr stepKernel c)) = rollbackPlaneUnknown).
  { intros r' c _ Hin. unfold kernelPlaneAfter. by rewrite bool_decide_eq_false_2 by done. }
  destruct Hst as [Hu Hb Hk Hc Hm].
  assert (Hnot : stepKernel ∉ Steps r) by (by rewrite Hm).
  apply xp_step.
  { intros c _. split; [|done]. split; [done|rewrite Hun by done; done..]. }
  apply wp_run_op, wp_lift; [|intros w _; apply only_world_world; by apply only_world_stage].
  intros e w Ew. destruct (law_kernel _ Laws _ _ _ _ _ _ _ Hf Ew) as [Hsame He]. cbn in *.
  destruct e as [e|]; (split; [|apply only_world_world; by apply only_world_stage]).
  - split; [|rewrite Hun by (destruct (untouched e); done); done..].
    destruct (untouched e); cbn; [|done]. intros H. eapply calm_trans; [by apply Hu|]. split; [done|by apply He].
  - split; cbn; try done.
    + intros _ H. apply He. by apply bool_decide_eq_true in H.
    + intros H. rewrite Hsame. auto.
    + set_solver.
Qed.
Lemma plain_step m w0 cb kb ctx name {A} (o : Op A) f s0 r s :
  name <> stepKernel -> calm_op o -> (forall a r, Mutated (f a r).1 = Mutated r /\ Steps (f a r).1 = Steps r) ->
  stage m w0 cb kb r (world s) -> only_world s0 s ->
  xp (step ctx name (fun r => a ← lift o; mret (f a r))) (fun _ r s => stage m w0 cb kb r (world s) /\ only_world s0 s)
     (fun e r s => ended m w0 r (Some e) (world s) /\ only_world s0 s) (only_world s0) r s.
Proof. intros Hn Ho Hf Hst How. apply (calm_step m w0 cb kb); try done. intros. by apply calm_run. Qed.

(** The post-check only looks. *)
Lemma postcheck_calm ctx f m s0 s :
  coreRunning ops = Some f -> only_world s0 s ->
  wp (postcheckMaterialization ctx ops f m) (fun _ s' => calm (world s) (world s') /\ only_world s0 s') (only_world s0) s.
Proof.
  intros Hf How. unfold postcheckMaterialization.
  set (coreState := (is_running ← lift f; _)).
  set (Q := fun (_ : option OpErr) s' => calm (world s) (world s') /\ only_world s0 s').
  assert (Hrun : forall s1, calm (world s) (world s1) -> only_world s0 s1 -> wp coreState Q (only_world s0) s1).
  { intros s1 Hc Ho. apply wp_bind, wp_lift; [|intros w _; by apply only_world_world].
    intros b w Ew. apply wp_ret. split; [|by apply only_world_world].
    eapply calm_trans; [exact Hc|]. by apply (law_running _ Laws _ Hf _ _ _ Ew). }
  assert (Hwith : forall prefix (o : Op (option OpErr)) k s1, calm_op o -> calm (world s) (world s1) -> only_world s0 s1 ->
     (forall s1, calm (world s) (world s1) -> only_world s0 s1 -> wp k Q (only_world s0) s1) ->
     wp (check_with prefix (lift o) k) Q (only_world s0) s1).
  { intros prefix o k s1 Ho Hc Hw Hk. apply wp_bind, wp_lift; [|intros w _; by apply only_world_world].
    intros e w Ew. assert (calm (world s) w) by (eapply calm_trans; [exact Hc|by eapply Ho]).
    destruct e as [e|]; [apply wp_ret; split|apply Hk]; try done; by apply only_world_world. }
  set (kernelState := match kernelPostcheck ops with Some _ => _ | None => _ end).
  assert (Hker : forall s1, calm (world s) (world s1) -> only_world s0 s1 -> wp kernelState Q (only_world s0) s1).
  { intros s1 Hc Ho. unfold kernelState. destruct (kernelPostcheck ops) as [post|] eqn:Ep; [|by apply Hrun].
    destruct (kernel_present m); [|by apply Hrun]. apply Hwith; [|done|done|apply Hrun]. by eapply (law_kernel_postcheck _ Laws). }
  destruct (m_Native m) as [n|]; [|apply Hker; [apply calm_refl|done]].
  destruct (postcheckNative ops) as [post|] eqn:Ep; [|apply Hker; [apply calm_refl|done]].
  apply Hwith; [by eapply (law_postcheck _ Laws)|apply calm_refl|done|apply Hker].
Qed.

(** Runs in sequence: [goes I x J] takes a run from the stages [I] to the stages [J]. *)
Definition goes (m : Materialization) (s0 : Server) (w0 : World) (I : applyExecResult -> World -> Prop) (x : X unit)
    (J : applyExecResult -> World -> Prop) : Prop :=
  forall r s, I r (world s) -> only_world s0 s ->
    xp x (fun _ r s => J r (world s) /\ only_world s0 s)
       (fun e r s => ended m w0 r (Some e) (world s) /\ only_world s0 s) (only_world s0) r s.
Lemma goes_seq m s0 w0 I J K (x y : X unit) :
  goes m s0 w0 I x J -> goes m s0 w0 J y K -> goes m s0 w0 I (_ ← x; y) K.
Proof. intros Hx Hy r s HI How. apply xp_bind. eapply xp_mono; [by apply Hx| |done]. intros _ ?? [??]. by apply Hy. Qed.
Lemma goes_when m s0 w0 (I J : applyExecResult -> World -> Prop) b x :
  (b = true -> goes m s0 w0 I x J) -> (b = false -> forall r w, I r w -> J r w) -> goes m s0 w0 I (x_when b x) J.
Proof. intros Ht Hf r s HI How. apply xp_when; intros Hb; [by apply Ht|by split; [apply Hf|]]. Qed.
Lemma goes_plain m s0 w0 cb kb ctx name {A} (o : Op A) f :
  name <> stepKernel -> calm_op o -> (forall a r, Mutated (f a r).1 = Mutated r /\ Steps (f a r).1 = Steps r) ->
  goes m s0 w0 (stage m w0 cb kb) (step ctx name (fun r => a ← lift o; mret (f a r))) (stage m w0 cb kb).
Proof. intros ??? r s ??. by apply plain_step. Qed.

Lemma native_prepare_goes m s0 w0 cb kb ctx :
  goes m s0 w0 (stage m w0 cb kb) (native_prepare ctx ops m) (stage m w0 cb kb).
Proof.
  intros r s Hst How. unfold native_prepare. destruct (m_Native m); [|by apply xp_ret].
  destruct (prepareNative ops) as [prepare|] eqn:Ep; [|by apply xp_ret].
  destruct (nativeTarget m) as [t|].
  - apply plain_step; try done. by eapply (law_prepare _ Laws).
  - unfold xp, fail_step. apply wp_ret. split; [|done].
    by apply (stage_ended m w0 cb kb _ _ (Some stepNativePrepare)).
Qed.
Lemma native_commit_goes m s0 w0 cb kb ctx :
  goes m s0 w0 (stage m w0 cb kb) (native_commit ctx ops m) (stage m w0 cb kb).
Proof.
  intros r s Hst How. unfold native_commit. destruct (m_Native m); [|by apply xp_ret].
  destruct (commitNative ops) as [commit|] eqn:Ep; [|by apply xp_ret].
  apply plain_step; try done. by eapply (law_commit _ Laws).
Qed.
Lemma plugins_union_goes m s0 w0 cb kb ctx fp previous :
  plugins ops = Some fp -> goes m s0 w0 (stage m w0 cb kb) (plugins_union ctx fp m previous) (stage m w0 cb kb).
Proof.
  intros Hp r s Hst How. apply xp_when; [intros _|done]. apply calm_step; try done. intros r' s' Ho. apply wp_run_op.
  apply wp_bind, wp_lift; [|intros w _; by apply only_world_world]. intros a w Ew. apply wp_ret.
  split_and!; try done; [by eapply (law_plugins _ Laws)|by apply only_world_world].
Qed.
Lemma postcheck_goes m s0 w0 cb kb ctx fr :
  coreRunning ops = Some fr -> goes m s0 w0 (stage m w0 cb kb) (postcheck ctx ops fr m) (stage m w0 cb kb).
Proof.
  intros Hr r s Hst How. apply calm_step; try done.
  intros r' s' Ho. apply wp_run_op. eapply wp_mono_post; [by apply postcheck_calm|]. cbn. by intros e s'' [??].
Qed.

(** A whole run: on success every plane the materialization has is in place. *)
Definition run_done (m : Materialization) (w0 : World) (r : applyExecResult) (w : World) : Prop :=
  exists kb, (kernel_present m = true -> kb = true) /\ stage m w0 true kb r w.
Lemma planes_spec m previous ctx fc fk fp fr w0 s0 :
  core ops = Some fc -> kernel ops = Some fk -> plugins ops = Some fp -> coreRunning ops = Some fr ->
  executable (c_Action (m_Core m)) = true ->
  goes m s0 w0 (stage m w0 false false) (planes ctx ops fc fk fp fr m previous) (run_done m w0).
Proof.
  intros Hc Hk Hp Hr Hexec. set (st := stage m w0).
  eapply goes_seq; [apply native_prepare_goes|]. eapply goes_seq; [by apply plugins_union_goes|].
  apply (goes_seq _ _ _ _ (st (core_present m) false)).
  { apply goes_when; [intros -> ????; by eapply core_step_spec|by intros ->]. }
  apply (goes_seq _ _ _ _ (st (core_present m) (kernel_present m))).
  { apply goes_when; [intros -> ????; by eapply kernel_step_spec|by intros ->]. }
  apply (goes_seq _ _ _ _ (st true (kernel_present m))).
  { apply goes_when; [intros _ ????; by eapply core_step_spec|intros Ha r w].
    replace (core_present m) with true; [done|]. unfold executable, core_present, absent in *.
    by rewrite Ha, orb_false_r in Hexec. }
  apply (goes_seq _ _ _ _ (run_done m w0)).
  { apply goes_when; [intros Ha r s Hst How|intros _ r w Hst; by exists (kernel_present m)].
    assert (Hnp : kernel_present m = false).
    { unfold kernel_present, absent in *. by apply bool_decide_eq_true in Ha as ->. }
    unfold st in Hst. rewrite Hnp in Hst. eapply xp_mono; [by eapply kernel_step_spec| |done].
    intros _ r' s' [??]. split; [by exists true|done]. }
  intros r s (kb & Hkb & Hst) How.
  assert (Hrest : goes m s0 w0 (st true kb)
    (_ ← plugins_retire ctx fp m previous; _ ← native_commit ctx ops m; postcheck ctx ops fr m) (st true kb)).
  { eapply goes_seq; [|eapply goes_seq; [apply native_commit_goes|by apply postcheck_goes]].
    apply goes_when; [intros _; apply goes_plain; try done|done]. by eapply (law_plugins _ Laws). }
  eapply xp_mono; [by apply Hrest| |done]. intros _ r' s' [??]. split; [by exists kb|done].
Qed.

(** A materialization that is executed for real, and the router running it. *)
Definition real (m : Materialization) : bool := known m && negb (materializationIsDemo m).
Definition runs (m : Materialization) (w : World) : Prop :=
  core_of w = expected_core (m_Core m) /\ (kernel_present m = true -> whole w (plane (m_Kernel m))).
Lemma runs_calm m w w' : runs m w -> calm w w' -> runs m w'.
Proof. intros [Hc Hk] [Hs Hp]. split; [by rewrite Hs|auto]. Qed.

Lemma ended_refused m w msg : ended m w no_result (Some (mkExecErr "program" (mkErr msg false))) w.
Proof. apply (stage_ended m w false false _ _ (Some "program"%string)); [apply stage_start|done|done]. Qed.

(** What an execution leaves, whatever it was given and however it ends. *)
Lemma execute_spec ctx m previous s :
  wp (executeMaterialization ctx ops m previous)
    (fun v s' => ended m (world s) v.1 v.2 (world s') /\ (v.2 = None -> real m = true -> runs m (world s')) /\ only_world s s')
    (only_world s) s.
Proof.
  assert (Hno : forall msg, wp (mret (no_result, Some (mkExecErr "program" (mkErr msg false))))
    (fun v s' => ended m (world s) v.1 v.2 (world s') /\ (v.2 = None -> real m = true -> runs m (world s')) /\ only_world s s')
    (only_world s) s).
  { intros msg. apply wp_ret. split_and!; [apply ended_refused|done|apply only_world_refl]. }
  unfold executeMaterialization. destruct (known m) eqn:Ek; simpl negb; cbv iota; [|apply Hno].
  destruct (materializationIsDemo m) eqn:Ed.
  { apply wp_ret. split_and!; [|by unfold real; rewrite Ek, Ed|apply only_world_refl].
    apply (stage_ended m (world s) false false _ _ None); [apply stage_start|done|done]. }
  destruct (List.find _ _) as [action|] eqn:Ef; [apply Hno|].
  destruct (native_ops_missing ops m); [apply Hno|].
  destruct (core ops) as [fc|] eqn:Ec; [|apply Hno]. destruct (kernel ops) as [fk|] eqn:Ekn; [|apply Hno].
  destruct (plugins ops) as [fp|] eqn:Ep; [|apply Hno]. destruct (coreRunning ops) as [fr|] eqn:Er; [|apply Hno].
  assert (Hx : executable (c_Action (m_Core m)) = true).
  { pose proof (List.find_none _ _ Ef (c_Action (m_Core m)) (or_introl eq_refl)) as Hn. by apply negb_false_iff in Hn. }
  apply wp_bind. eapply wp_mono_post.
  - apply (planes_spec m previous ctx fc fk fp fr (world s) s); try done; [apply stage_start|apply only_world_refl].
  - intros [r [e|[]]] s'; cbn.
    + intros [??]. apply wp_ret. cbn. split; [done|split; [intros Hn; discriminate Hn|done]].
    + intros [(kb & Hkb & Hst) ?]. apply wp_ret. cbn. split_and!; [|intros _ _|done].
      * by apply (stage_ended m (world s) true kb _ _ None).
      * split; [by eapply st_core|]. intros Hp. eapply st_kernel; eauto.
Qed.
End run.

(** * What a rollback leaves

    The teardown, the re-execution of the previous revision over a failed one, and [rollbackTo]'s word
    on how far it got. *)

Section rollback.
Context {Car : Carriers} {R : Router} {V : RouterView} (ops : applyExecOps) (Laws : RouterLaws ops).
Implicit Types (s : Server) (w : World) (m : Materialization).

(** Nothing but the router and the two words published of it differs. *)
Definition only_router s s' : Prop :=
  s' = s <| world := world s' |> <| applyStage := applyStage s' |> <| kernelPlaneState := kernelPlaneState s' |>.
Lemma only_router_refl s : only_router s s.
Proof. by destruct s. Qed.
Lemma only_router_trans s1 s2 s3 : only_router s1 s2 -> only_router s2 s3 -> only_router s1 s3.
Proof. unfold only_router. intros -> ->. by destruct s1. Qed.
Lemma only_world_router s s' : only_world s s' -> only_router s s'.
Proof. unfold only_world, only_router. intros ->. by destruct s. Qed.
Lemma only_router_world s w : only_router s (s <| world := w |>).
Proof. by destruct s. Qed.
Lemma only_router_mark s k : only_router s (s <| kernelPlaneState := k |>).
Proof. by destruct s. Qed.

(** What is re-executed is the base: its core, and its plane but for what it retires. *)
Definition same_planes (t base : Materialization) : Prop :=
  m_Core t = m_Core base /\ m_PluginAction t = m_PluginAction base /\ m_SchemaVersion t = m_SchemaVersion base /\
  k_Action (m_Kernel t) = k_Action (m_Kernel base) /\
  (kernel_present base = true -> plane (m_Kernel t) = plane (m_Kernel base)).
Lemma bindKernelRetire_plane k failed :
  k_Action (bindKernelRetire k failed) = k_Action k /\
  (k_Action k = ExecutionEnsurePresent -> plane (bindKernelRetire k failed) = plane k).
Proof.
  unfold bindKernelRetire. destruct failed as [p|]; [|done].
  destruct (negb (known p) || negb (kernel_present p)); [done|]. destruct (k_Ipset (m_Kernel p)); [done|]. cbn.
  case_match eqn:E; [|done]. split; [done|]. intros Ha. exfalso.
  apply andb_true_iff in E as [_ E]. apply bool_decide_eq_true in E. by rewrite Ha in E.
Qed.
Lemma same_planes_real t base : same_planes t base -> real t = real base /\ kernel_present t = kernel_present base.
Proof. intros (Hc & Hp & Hv & Hk & _). unfold real, known, materializationIsDemo, kernel_present. by rewrite Hc, Hp, Hv, Hk. Qed.
Lemma same_planes_runs t base w : same_planes t base -> runs t w -> runs base w.
Proof.
  intros Ht [Hc Hk]. pose proof (same_planes_real _ _ Ht) as [_ Hp]. destruct Ht as (Hc' & _ & _ & _ & Hpl).
  split; [by rewrite <- Hc'|]. intros Hb. rewrite <- (Hpl Hb). apply Hk. by rewrite Hp.
Qed.

Lemma rollbackMaterialization_spec ctx base failed s :
  wp (rollbackMaterialization ctx ops base failed)
    (fun v s' => same_planes v.1 base /\ calm (world s) (world s') /\ only_world s s') (only_world s) s.
Proof.
  unfold rollbackMaterialization.
  set (target := base <| m_Kernel := bindKernelRetire (m_Kernel base) failed |>).
  set (plain := target <| m_Native := additive <$> m_Native target |>).
  assert (Ht : forall n, same_planes (target <| m_Native := n |>) base).
  { intros n. destruct (bindKernelRetire_plane (m_Kernel base) failed) as [Ha Hp].
    split_and!; try done. intros H. apply Hp. by apply bool_decide_eq_true in H. }
  assert (Hmt : same_planes target base) by (by pose proof (Ht (m_Native target)) as H; destruct target).
  assert (Habort : forall p (t : Materialization), same_planes t base ->
    wp (e ← abort_target ctx ops p; mret (t, e))
      (fun v s' => same_planes v.1 base /\ calm (world s) (world s') /\ only_world s s') (only_world s) s).
  { intros p t Hs. apply wp_bind. unfold abort_target. destruct (abortNative ops) as [abort|] eqn:Ea.
    - apply wp_lift; [|intros w _; by apply only_world_world, only_world_refl]. intros e w Ew. apply wp_ret.
      split_and!; [done|by eapply (law_abort _ Laws)|by apply only_world_world, only_world_refl].
    - apply wp_ret, wp_ret. split_and!; [done|apply calm_refl|apply only_world_refl]. }
  assert (Hret : forall t, same_planes t base ->
    wp (mret (t, None : option OpErr)) (fun v s' => same_planes v.1 base /\ calm (world s) (world s') /\ only_world s s') (only_world s) s).
  { intros t Hs. apply wp_ret. split_and!; [done|apply calm_refl|apply only_world_refl]. }
  destruct (failed ≫= nativeTarget) as [fn|]; [|apply Hret, Ht].
  destruct (nativeTarget base) as [bn|]; [|by apply Habort]. apply wp_bind, wp_gets.
  destruct (Reconcile _ _ _ _ _ _) as [err|delta]; [apply Habort, Ht|apply Hret, Ht].
Qed.

Lemma teardown_spec ctx (m : option Materialization) s :
  wp (teardownMaterialization ctx ops m) (fun _ s' => only_world s s') (only_world s) s.
Proof.
  unfold teardownMaterialization. destruct m as [m|]; [|apply wp_ret, only_world_refl].
  destruct (_ || _); [apply wp_ret, only_world_refl|].
  assert (Hop : forall tag (o : Op (option OpErr)) s1, only_world s s1 ->
    wp (collect tag (lift o)) (fun _ s' => only_world s s') (only_world s) s1).
  { intros tag o s1 H. apply wp_bind, wp_lift; intros; [apply wp_ret|]; by apply only_world_world. }
  assert (Hnone : forall {A} (a : A) s1, only_world s s1 -> wp (mret a) (fun _ s' => only_world s s') (only_world s) s1) by done.
  apply (wp_seq _ _ (fun _ s' => only_world s s')).
  { destruct (core ops); [apply Hop|apply Hnone]; apply only_world_refl. }
  intros e1 s1 H1. apply (wp_seq _ _ (fun _ s' => only_world s s')).
  { destruct (kernelTeardown ops); [destruct (kernel_present m)|]; first [by apply Hop|by apply Hnone]. }
  intros e2 s2 H2. apply (wp_seq _ _ (fun _ s' => only_world s s')).
  { destruct (nativeTarget m); [destruct (abortNative ops)|]; first [by apply Hop|by apply Hnone]. }
  intros e3 s3 H3. apply (wp_seq _ _ (fun _ s' => only_world s s')).
  { destruct (plugins ops); [|by apply Hnone]. apply wp_bind, wp_lift; intros; [apply wp_ret|]; by apply only_world_world. }
  intros _ s4 H4. by apply Hnone.
Qed.

(** The base a rollback re-executes; without one it only tears down. *)
Definition base_of (base : option Revision) : option Materialization :=
  b ← base; if known (rv_Materialization b) then Some (rv_Materialization b) else None.
(** What [rollbackTo] leaves when it answers [v] after starting in world [w0]. *)
Definition rolled (base : option Revision) (w0 : World) (v : string * option RollbackErr) (w : World) : Prop :=
  match base_of base with
  | Some b =>
      (v.1 = rollbackPlaneTested -> keeps_planes w0 w) /\
      (v.1 = rollbackPlaneCommitted -> real b = true -> kernel_present b = true -> whole w (plane (m_Kernel b))) /\
      (match v.2 with None => true | Some e => onlyNativeLeftover e end = true -> v.1 = rollbackPlaneCommitted /\ (real b = true -> runs b w))
  | None => v.1 <> rollbackPlaneTested
  end.
Lemma rollbackTo_spec ctx base failed s :
  wp (rollbackTo ctx ops base failed) (fun v s' => rolled base (world s) v (world s') /\ only_router s s') (only_router s) s.
Proof.
  unfold rollbackTo. set (down := (es ← teardownMaterialization _ ops failed; _)).
  assert (Hdown : base_of base = None -> wp down (fun v s' => rolled base (world s) v (world s') /\ only_router s s') (only_router s) s).
  { intros Hb. unfold rolled. rewrite Hb. apply wp_bind. eapply wp_mono; [apply teardown_spec| |by intros; apply only_world_router].
    intros es s1 H1%only_world_router. apply wp_bind, wp_modify.
    assert (H2 : forall w, only_router s (s1 <| kernelPlaneState := kernelPlaneUnknown |> <| world := w |>)).
    { intros w. eapply only_router_trans; [exact H1|]. by destruct s1. }
    assert (H2' : only_router s (s1 <| kernelPlaneState := kernelPlaneUnknown |>)).
    { eapply only_router_trans; [exact H1|]. by destruct s1. }
    case_bool_decide; [|destruct (onlyNativeLeftover _)]; [apply wp_bind, wp_modify, wp_ret..|apply wp_ret]; by split. }
  destruct base as [b|]; [|by apply Hdown]. unfold rolled, base_of in *. cbn in Hdown |- *.
  destruct (known (rv_Materialization b)) eqn:Ek; cbn; [|by apply Hdown]. clear Hdown down.
  set (bm := rv_Materialization b) in *. apply wp_bind. eapply wp_mono;
    [apply rollbackMaterialization_spec| |by intros; apply only_world_router].
  intros [t aborted] s1 (Ht & Hcalm1 & H1). cbn in *. apply wp_bind. eapply wp_mono; [by apply execute_spec| |].
  2: { intros s' ?. eapply only_router_trans; by apply only_world_router. }
  intros [r e] s2 ([Hu Hb Hk] & Hruns & H2). cbn in *.
  assert (Hr : only_router s s2) by (eapply only_router_trans; by apply only_world_router).
  destruct (same_planes_real _ _ Ht) as [Hreal Hpres]. destruct e as [e|].
  - apply wp_ret. split; [|done]. split_and!; cbn; [|intros Hc Hrl Hp|done].
    + intros Hc. eapply keeps_planes_trans; [apply Hcalm1|by apply Hb].
    + destruct Ht as (_ & _ & _ & _ & Hpl). rewrite <- (Hpl Hp). apply Hk; [done|by rewrite Hpres].
  - apply wp_bind. eapply (wp_mono_post _ (fun _ s3 => only_router s2 s3 /\ world s3 = world s2)).
    { destruct (kernel_present t); [apply wp_modify|apply wp_ret]; by destruct s2. }
    intros _ s3 [H3 Hw3]. apply wp_bind, wp_modify, wp_ret. cbn. rewrite Hw3.
    set (w := flushFlows _ _ _). assert (Hfl : calm (world s2) w) by apply (law_flush _ Laws).
    assert (Hbr : real bm = true -> runs bm w).
    { intros Hrl. eapply runs_calm; [|exact Hfl]. eapply same_planes_runs; [done|]. apply Hruns; [done|by rewrite Hreal]. }
    split; [|eapply only_router_trans; [done|]; eapply only_router_trans; [done|apply only_router_world]].
    split_and!; [done| |done]. intros _ Hrl Hp. by apply Hbr.
Qed.
End rollback.
