(* ===== verification/ApplyServer.v ===== *)
(** * Apply

    [POST /api/apply] ([src/internal/server/apply.go], [runApply]): the refusals in their order, the
    capture, the materialization, the execution, what a failure rolls back to and what it records, and
    what a success records. The record's writes go to disk one by one ([persistLocked]), so the daemon
    may die between any two.

    The record's file, the saved profile, the review's sources, the host capture and the materializer
    are the class [Front]; the executor and the rollback are [ApplyExec]'s, the record's changes
    [ApplyRecord]'s, the review's [ApplyPlan]'s. The remedies, constant texts, are left out of the
    errors. A lock that stays taken is [tryLock]'s refusal; every operation here is one run under it. *)
From stdpp Require Import pretty.
From S2P Require Import Prelude GoStrings ApplyRecord Model PbrPlan PbrLists Failsafe GenSplit ApplyPlan.
From S2P Require Import ApplyExec.
Local Open Scope Z_scope.

Class Front `{Router} := {
  saveRecord : ApplyState -> World -> option Saving * World;
  tryLock : Ctx -> World -> option bool * World;
  DesiredRev : Desired -> string;
  captureDesiredSnapshot : World -> option (string + Desired) * World;
  Validate : Profile -> option string;
  rawFindings : Ctx -> Desired -> World -> option (list PlanFinding) * World;
  findingTemplate : PlanFinding -> string * string * string * string;
  (** The host facts and, on a router, its native state. *)
  Capture : Type;
  captureForApply : Ctx -> Desired -> World -> option (string + Capture) * World;
  applyNDMPolicies : Config -> Capture -> gmap string Z;
  desiredRoutingMode : Config -> string;
  compileKernel : Desired -> Capture -> World -> string + (option Plan * string);
  ownershipBaseline : Materialization -> Materialization -> Capture -> Materialization;
  materialize : Desired -> Capture -> option Materialization -> option Plan -> (string * string) + (Materialization * list string);
  fastModeDomainWarning : Desired -> Capture -> string;
  (** [productionExecOps]. *)
  ops : applyExecOps;
  (** The settings now in force: demo, and reboot as the fail-safe's last resort. *)
  demoNow : World -> bool;
  autoReboot : World -> bool;
  sha256hex10 : string -> string
}.

Definition applyCodeBusy : string := "BUSY".
Definition applyCodeRevStale : string := "REV_STALE".
Definition applyCodeAckRequired : string := "ACK_REQUIRED".
Definition applyCodeBlocked : string := "BLOCKED".
Definition applyCodeInvalidConfig : string := "INVALID_CONFIG".
Definition applyCodeApplyFailed : string := "APPLY_FAILED".
Definition applyCodeRollbackOutstanding : string := "ROLLBACK_OUTSTANDING".
Definition applyCodeWindowChanged : string := "WINDOW_CHANGED".
Definition routingCodeOff : string := "ROUTING_OFF".
Definition routingCodeIncomplete : string := "ROUTING_INCOMPLETE".

Record applyRequest := mkRequest { q_Save : bool; q_Rev : string; q_Ack : list string }.
Record applyError := mkApplyError {
  ae_Status : Z; ae_Code : string; ae_Message : string; ae_Detail : string; ae_Stage : string;
  ae_RolledBack : option bool; ae_Findings : list Finding
}.
Record applyResult := mkApplyResult {
  ar_OK : bool; ar_Saved : bool; ar_Rev : string; ar_Problems : list Problem; ar_Warnings : list string
}.

(** [outputTail]: the last [max] bytes, from a line's start where there is one. *)
Definition outputTail (text : string) (max : nat) : string :=
  let t := TrimSpace (str text) in
  if (length t <=? max)%nat then unstr t
  else
    let cut := drop (length t - max) t in
    let cut := match list_find (fun b => b = 10) cut with
               | Some (i, _) => if (i <? length cut - 1)%nat then drop (S i) cut else cut
               | None => cut
               end in
    "…" +:+ unstr cut.
Fixpoint join (sep : string) (l : list string) : string :=
  match l with [] => "" | [x] => x | x :: l => x +:+ sep +:+ join sep l end.
Definition findingTitle (f : Finding) : string :=
  match fd_Items f with
  | [] => fd_Title f
  | [i] => fd_Title f +:+ " (" +:+ i +:+ ")"
  | _ => fd_Title f +:+ " (" +:+ pretty (fd_Count f) +:+ " affected)"
  end.
Definition findingTitles (fs : list Finding) : list string := map findingTitle fs.
Definition stageLabel (stage : string) : string :=
  if bool_decide (stage ∈ [stepNativePrepare; stepNativeCommit; stepNativePersist]) then "router-native tunnels"
  else if bool_decide (stage ∈ [stepPlugins; stepPluginsRetire]) then "engine plugins"
  else if bool_decide (stage = stepCore) then "sing-box core"
  else if bool_decide (stage = stepKernel) then "kernel routing plane"
  else if bool_decide (stage = stepPostcheck) then "post-apply verification"
  else stage.

Section apply.
Context {Car : Carriers} {R : Router} {F : Front}.

(** ** The record on disk *)
Definition persistLocked : C Server unit := fun s =>
  let '(o, w) := saveRecord (rec s) (world s) in
  let s := s <| world := w |> in
  match o with
  | Some Saved => (Some tt, s <| disk := Some (rec s) |> <| saveErr := "" |>)
  | Some (SaveFailed msg) => (Some tt, s <| saveErr := msg |>)
  | Some DiedAfter => (None, s <| disk := Some (rec s) |>)
  | Some DiedBefore | None => (None, s)
  end.
Definition set_rec (f : ApplyState -> ApplyState) : C Server unit := modify (fun s => s <| rec := f (rec s) |>).
Definition update (f : ApplyState -> ApplyState) : C Server unit := _ ← set_rec f; persistLocked.
(** A write that may find nothing to write. *)
Definition update_some (f : ApplyState -> option ApplyState) : C Server unit :=
  s ← gets rec; match f s with Some s => update (fun _ => s) | None => mret tt end.
Definition time_now : C Server Z := gets (fun s => now (world s)).
Definition on_failsafe (f : Manager -> Manager) : C Server unit := modify (fun s => s <| failsafe := f <$> failsafe s |>).

Definition noteRollbackFailed_ (live : option Revision) (plane : string) (err : RollbackErr) : C Server unit :=
  update_some (noteRollbackFailed live plane (outputTail (rollback_msg err) 512)).
Definition noteLiveRollbackOutstanding_ (rev : Revision) (plane : string) (err : RollbackErr) : C Server unit :=
  s ← gets world;
  update (noteLiveRollbackOutstanding rev (bootID s) plane (outputTail (rollback_msg err) 512)).
Definition recordApplied_ (save : bool) (rev : Revision) : C Server unit :=
  w ← gets world; update (recordApplied save rev (bootID w) (now w)).
Definition recordFailure_ (rev msg : string) : C Server unit := t ← time_now; update (recordFailure rev msg t).
Definition setInFlight_ (save : bool) (rev : string) : C Server unit := t ← time_now; update (setInFlight save rev t).
Definition setAcks_ (ids : list string) (acked : bool) : C Server unit :=
  if bool_decide (ids = []) then mret tt else t ← time_now; update_some (setAcks ids acked t).
(** [armFailSafe]: the window's closures are those of the revision it was armed for. *)
Definition armFailSafe (live : Revision) : C Server unit :=
  modify (fun s =>
    match failsafe s with
    | None => s
    | Some m =>
        let m := ArmHealth m (nowMilli (world s)) true true (negb (demoNow (world s)) && autoReboot (world s)) in
        s <| failsafe := Some m |> <| windows := <[epoch m := live]> (windows s) |>
    end).

(** ** Refusals *)
Definition E (A : Type) : Type := C Server (applyError + A).
#[export] Instance E_ret : MRet E := fun A a => mret (inr a).
#[export] Instance E_bind : MBind E := fun A B f m => v ← (m : C Server (applyError + A)); match v with inl e => mret (inl e) | inr a => f a end.
Definition ask {A} (m : C Server A) : E A := a ← m; mret (inr a).
Definition reject {A} (e : applyError) : E A := mret (inl e).
Definition refuse_when (b : bool) (e : applyError) : E unit := if b then reject e else mret tt.
Definition or_reject {A B} (e : A -> applyError) (v : A + B) : E B := match v with inl a => reject (e a) | inr b => mret b end.
Definition nothing_touched : option bool := Some true.

(** [buildPlan], as far as an Apply reads it: the review's findings. *)
Definition buildPlan (ctx : Ctx) : C Server (string + list Finding) :=
  d ← lift captureDesiredSnapshot;
  match d with
  | inl e => mret (inl ("capture desired state: " +:+ e))
  | inr desired =>
      raw ← lift (rawFindings ctx desired);
      s ← gets rec;
      mret (inr (foldFindings findingTemplate (isAcked s) raw))
  end.

Record Prepared := mkPrepared {
  p_Desired : Desired; p_Materialization : Materialization; p_Warnings : list string;
  p_Previous : option Materialization; p_Baseline : option Revision; p_Outstanding : option Outstanding
}.

(** What is decided before anything is captured. *)
Definition reviewed (ctx : Ctx) (req : applyRequest) : E Desired :=
  s ← ask (gets rec);
  _ ← refuse_when (routingIsOff s) (mkApplyError 409 routingCodeOff "WayHop's routing is switched off" "" "" None []);
  d ← ask (lift captureDesiredSnapshot);
  desired ← or_reject (fun e => mkApplyError 503 applyCodeBusy "the saved configuration is changing" e "" None []) d;
  _ ← (if negb (bool_decide (q_Rev req = "")) && negb (bool_decide (q_Rev req = DesiredRev desired)) then
         _ ← ask (buildPlan ctx);
         reject (mkApplyError 409 applyCodeRevStale "the configuration changed since you reviewed it" "" "" None [])
       else mret tt);
  _ ← match Validate (d_Profile desired) with
      | Some e => reject (mkApplyError 400 applyCodeInvalidConfig "the configuration is invalid" e "profile" None [])
      | None => mret tt
      end;
  _ ← ask (setAcks_ (q_Ack req) true);
  plan ← ask (buildPlan ctx);
  findings ← or_reject (fun e => mkApplyError 503 applyCodeBusy "the plan could not be built" e "" None []) plan;
  _ ← refuse_when (negb (bool_decide (length (blockers findings) = 0%nat)))
        (mkApplyError 422 applyCodeBlocked ("this router cannot run the configuration as saved: " +:+ join "; " (findingTitles (blockers findings)))
           "" "" None (blockers findings));
  _ ← refuse_when (negb (bool_decide (length (unacked findings) = 0%nat)))
        (mkApplyError 409 applyCodeAckRequired
           ("some settings will not take full effect and have not been acknowledged: " +:+ join "; " (findingTitles (unacked findings)))
           "" "" None (unacked findings));
  mret desired.

Definition kernel_mode (cfg : Config) : bool :=
  bool_decide (desiredRoutingMode cfg = "hybrid") || bool_decide (desiredRoutingMode cfg = "fast").
Definition warning (w : string) : list string := if bool_decide (w = "") then [] else [w].
(** The capture, the kernel plan, the materialization and its check: the router is only read. *)
Definition prepared (ctx : Ctx) (desired : Desired) : E Prepared :=
  _ ← ask (setStage "capture");
  c ← ask (lift (captureForApply ctx desired));
  capture ← or_reject (fun e => mkApplyError 500 applyCodeApplyFailed "the router state could not be read, nothing was changed" e "capture" nothing_touched []) c;
  let marks := applyNDMPolicies (d_Config desired) capture in
  let missing := List.filter (fun name => negb (bool_decide (is_Some (marks !! name)))) (NDMPoliciesInUse (d_Profile desired)) in
  _ ← refuse_when (negb (bool_decide (length missing = 0%nat)))
        (mkApplyError 422 applyCodeBlocked ("routing lists are sent to access policies this router does not have: " +:+ join ", " missing)
           "" "capture" nothing_touched []);
  _ ← ask (setStage "materialize");
  w ← ask (gets world);
  compiled ← (if kernel_mode (d_Config desired) then
                or_reject (fun e => mkApplyError 400 applyCodeInvalidConfig "the kernel routing plan could not be compiled" e "kernel" None [])
                  (compileKernel desired capture w)
              else mret (None, ""%string));
  s ← ask (gets rec);
  let baseline := appliedBaseline s in
  let outstanding := rollbackOutstanding s in
  let previous := b ← baseline; if known (rv_Materialization b) then Some (rv_Materialization b) else None in
  let previous :=
    match outstanding, previous, Committed s with
    | Some _, Some p, Some committed => Some (ownershipBaseline p (rv_Materialization committed) capture)
    | _, _, _ => previous
    end in
  built ← or_reject (fun e => mkApplyError 400 applyCodeInvalidConfig "the configuration cannot be materialized on this router" e.2 e.1 None [])
            (materialize desired capture previous compiled.1);
  let warnings := built.2 ++ warning (fastModeDomainWarning desired capture) ++ warning compiled.2 in
  _ ← match checkCore ops with
      | Some check =>
          if core_present built.1 then
            _ ← ask (setStage "check");
            e ← ask (lift (check ctx (c_Config (m_Core built.1))));
            match e with
            | Some e => reject (mkApplyError 400 applyCodeInvalidConfig "sing-box rejected the generated config" (outputTail (e_msg e) 2048) "check" None [])
            | None => mret tt
            end
          else mret tt
      | None => mret tt
      end;
  mret (mkPrepared desired built.1 warnings previous baseline outstanding).

(** ** After the execution *)
Definition revision_of (p : Prepared) (at_ : Z) : Revision :=
  mkRevision (DesiredRev (p_Desired p)) at_ (Some (p_Desired p)) (p_Materialization p) "".
(** The rollback of a failed execution: to the baseline, or, over a Test whose own rollback had failed,
    to the committed configuration, from the failed target and then from that Test. *)
Definition roll_back_apply (ctx : Ctx) (p : Prepared) : C Server (string * option RollbackErr) :=
  s ← gets rec;
  match p_Outstanding p with
  | None => rollbackTo ctx ops (p_Baseline p) (Some (p_Materialization p))
  | Some _ =>
      let target := Committed s in
      v ← rollbackTo ctx ops target (Some (p_Materialization p));
      match v.2 with
      | Some _ => mret v
      | None =>
          v ← rollbackTo ctx ops target (rv_Materialization <$> p_Baseline p);
          mret (match v.2 with
                | Some e => if bool_decide (v.1 = rollbackPlaneTested) then (rollbackPlaneCommitted, Some e) else v
                | None => v
                end)
      end
  end.
(** What is recorded of a rollback that failed with [err] after getting as far as [plane] says. *)
Definition note_failed_rollback (p : Prepared) (forwardPlane plane : string) (err : RollbackErr) : C Server unit :=
  s ← gets rec;
  match p_Outstanding p with
  | Some _ =>
      noteRollbackFailed_ (p_Baseline p)
        (if bool_decide (plane = rollbackPlaneTested) && negb (bool_decide (forwardPlane = rollbackPlaneTested)) then rollbackPlaneUnknown else plane) err
  | None =>
      if bool_decide (is_Some (p_Baseline p)) && sameRevision (p_Baseline p) (Live s) then
        noteRollbackFailed_ (p_Baseline p)
          (if bool_decide (plane = rollbackPlaneCommitted)
              || (bool_decide (plane = rollbackPlaneTested) && bool_decide (forwardPlane = rollbackPlaneTested))
           then rollbackPlaneTested else rollbackPlaneUnknown) err
      else
        t ← time_now;
        noteLiveRollbackOutstanding_ (revision_of p t)
          (if bool_decide (plane = rollbackPlaneTested) then
             if bool_decide (forwardPlane = rollbackPlaneTested) then rollbackPlaneCommitted
             else if bool_decide (forwardPlane = rollbackPlaneUnknown) then rollbackPlaneUnknown else plane
           else plane) err
  end.
Definition rolled_back_or_noted (ctx : Ctx) (p : Prepared) (forwardPlane : string) : C Server bool :=
  _ ← setStage "rollback";
  v ← roll_back_apply ctx p;
  match v.2 with
  | Some err => _ ← note_failed_rollback p forwardPlane v.1 err; mret false
  | None =>
      _ ← match p_Outstanding p with
          | Some _ => _ ← update recordRollback; on_failsafe MarkRolledBack
          | None => mret tt
          end;
      mret true
  end.
Definition failure_message (stage : string) (rolledBack finished mutated : bool) : string :=
  let msg := "the " +:+ stageLabel stage +:+ " could not be applied" in
  if rolledBack && finished then
    msg +:+ "; the committed configuration was restored, which also completes the earlier rollback that had failed"
  else if rolledBack then msg +:+ "; the previous configuration was restored"
  else if mutated then msg +:+ "; the previous configuration could NOT be fully restored"
  else msg.
Definition applyFailed (ctx : Ctx) (p : Prepared) (r : applyExecResult) (e : ExecErr) : C Server applyError :=
  rolledBack ← (if Mutated r then rolled_back_or_noted ctx p (kernelPlaneAfter r (Some e)) else mret false);
  _ ← recordFailure_ (DesiredRev (p_Desired p)) (exec_msg e);
  mret (mkApplyError 500 applyCodeApplyFailed
    (failure_message (x_Step e) rolledBack (bool_decide (is_Some (p_Outstanding p))) (Mutated r))
    (outputTail (e_msg (x_Err e)) 2048) (x_Step e) (Some rolledBack) []).

Definition persist_problem (e : OpErr) : Problem :=
  mkProblem stepNativePersist "native"
    ("the router-native configuration could not be saved: " +:+ e_msg e +:+ " — use Keep to retry").
Definition applySucceeded (ctx : Ctx) (req : applyRequest) (p : Prepared) (r : applyExecResult) : C Server applyResult :=
  let m := p_Materialization p in
  _ ← markKernelPlane (if kernel_present m then kernelPlanePresent else kernelPlaneUnknown);
  s ← gets rec;
  _ ← flushStaleFlows (appliedBaseline s ≫= fun b => kernelPlan (rv_Materialization b)) (kernelPlan m);
  t ← time_now;
  let rev := revision_of p t in
  v ← (if q_Save req then
         _ ← setStage stepNativePersist;
         match m_Native m, persistNative ops with
         | Some n, Some persist =>
             if Demo (d_Config (p_Desired p)) then mret (true, [])
             else e ← lift (persist ctx (n_Reconcile n));
                  mret (match e with Some e => (false, [persist_problem e]) | None => (true, []) end)
         | _, _ => mret (true, [])
         end
       else mret (false, []));
  let problems := Problems r ++ v.2 in
  _ ← recordApplied_ v.1 rev;
  _ ← (if (v.1 : bool) then on_failsafe Confirm else armFailSafe rev);
  mret (mkApplyResult (bool_decide (length problems = 0%nat)) v.1 (rv_Rev rev) problems (p_Warnings p)).

Definition executed (ctx : Ctx) (req : applyRequest) (p : Prepared) : E applyResult :=
  _ ← ask (setInFlight_ (q_Save req) (DesiredRev (p_Desired p)));
  v ← ask (executeMaterialization (withStrictNativePrepare ctx) ops (p_Materialization p) (p_Previous p));
  match v.2 with
  | Some e => err ← ask (applyFailed ctx p v.1 e); reject err
  | None => ask (applySucceeded ctx req p v.1)
  end.
Definition applyLocked (ctx : Ctx) (req : applyRequest) : E applyResult :=
  desired ← reviewed ctx req;
  p ← prepared ctx desired;
  executed ctx req p.
Definition runApply (ctx : Ctx) (req : applyRequest) : C Server (applyError + applyResult) :=
  got ← lift (tryLock ctx);
  if negb got then mret (inl (mkApplyError 503 applyCodeBusy "another Apply is still running" "" "" None []))
  else
    _ ← setStage "plan";
    v ← (applyLocked ctx req : C Server (applyError + applyResult));
    _ ← setStage "";
    mret v.
End apply.
