(* ===== verification/ApplyControl.v ===== *)
(** * Keep, Roll back, the routing switch and boot

    The other operations on what was applied: [applyConfirm] and [applyRollback] of
    [src/internal/server/apply.go], the rollback of a fail-safe window ([failsafe.go]), the routing
    switch ([routingswitch.go]), and boot and supervision ([applyboot.go]). Each is one run under
    [applyMu], but for [applyRollback] over an open window, which is written as the three critical
    sections it is, one after the other.

    Where boot compares pointers to tell whether the record still holds the revision it read, the answer
    is an argument ([same]).

    Further on: boot. *)
From stdpp Require Import pretty.
From S2P Require Import Prelude Failsafe GoStrings PbrPlan Model PbrLists ApplyPlan ApplyRecord ApplyExec.
From S2P Require Import ApplyServer.
Local Open Scope Z_scope.

Record Reply := mkReply {
  rp_Status : Z; rp_Code : string; rp_Committed : bool; rp_RolledBack : option bool; rp_Stage : string; rp_Detail : string
}.
Definition windowChanged : Reply := mkReply 409 applyCodeWindowChanged false None "" "".
Definition PlatformKeenetic : string := "keenetic".

Section control.
Context {Car : Carriers} {R : Router} {F : Front}.

(** [applyWindow] *)
Definition applyWindow (live : option Revision) : string :=
  match live with None => "" | Some l => sha256hex10 (rv_Rev l +:+ "@" +:+ pretty (rv_At l)) end.
Definition other_window (window : string) (live : option Revision) : bool :=
  negb (bool_decide (window = "")) && negb (bool_decide (applyWindow live = window)).

Definition applyConfirm (ctx : Ctx) (window : string) : C Server Reply :=
  s ← gets rec;
  match Live s with
  | None => mret (mkReply 409 "NO_WINDOW" false None "" "")
  | Some live =>
      if other_window window (Some live) then mret windowChanged
      else match rollbackOutstanding s with
      | Some failed => mret (mkReply 409 applyCodeRollbackOutstanding false None "" (o_Error failed))
      | None =>
          demo ← gets (fun s => demoNow (world s));
          e ← match m_Native (rv_Materialization live), persistNative ops with
              | Some n, Some persist => if demo : bool then mret None else lift (persist ctx (n_Reconcile n))
              | _, _ => mret None
              end;
          match e with
          | Some e => mret (mkReply 500 applyCodeApplyFailed false None stepNativePersist (e_msg e))
          | None =>
              _ ← update recordCommit;
              _ ← on_failsafe Confirm;
              mret (mkReply 200 "" true None "" "")
          end
      end
  end.

(** ** Roll back *)
(** The closure a window is armed with. *)
Definition windowRollback (e : Z) (live : Revision) : C Server (option Failsafe.error) :=
  current ← gets (fun s => match failsafe s with Some m => IsCurrent m e | None => false end);
  s ← gets rec;
  if negb current then mret (Some ErrSuperseded)
  else if routingIsOff s then mret None
  else if negb (sameRevision (Live s) (Some live)) then
    mret (if sameRevision (Committed s) (Some live) then Some ErrSuperseded else None)
  else
    v ← rollbackTo (withTimeout Background) ops (Committed s) (Some (rv_Materialization live));
    match v.2 with
    | Some err => _ ← noteRollbackFailed_ (Some live) v.1 err; mret (Some (ErrOther (rollback_msg err)))
    | None => _ ← update recordRollback; mret None
    end.
Definition RollbackNow (m : Manager) (only : option Z) : C Server (option Failsafe.error) :=
  match rollbackNow_start m (default 0 only) (bool_decide (is_Some only)) with
  | RsError e => mret (Some e)
  | RsFinalized m => _ ← on_failsafe (fun _ => m); mret None
  | RsRun m ep rb =>
      _ ← on_failsafe (fun _ => m);
      armed ← gets windows;
      err ← match e ← rb; live ← armed !! e; Some (e, live) with
            | Some (e, live) => windowRollback e live
            | None => mret None
            end;
      m ← gets failsafe;
      match m with
      | None => mret err
      | Some m => let '(m, err) := rollbackNow_settle m ep err in _ ← on_failsafe (fun _ => m); mret err
      end
  end.
Definition idle_as_rolled_back (s : Server) : bool :=
  match failsafe s with
  | Some m => negb (pending m) && bool_decide (phase m = "rolled_back") && negb (bool_decide (is_Some (Live (rec s))))
  | None => false
  end.
Definition rollback_window (m : Manager) (window : string) : C Server Reply :=
  s ← gets rec;
  if negb (bool_decide (applyWindow (Live s) = "")) && other_window window (Live s) then mret windowChanged
  else
    err ← RollbackNow m (if bool_decide (window = "") then None else Some (Epoch m));
    s ← gets id;
    mret match err with
         | None => mkReply 200 "" false (Some true) "" ""
         | Some e =>
             let superseded := bool_decide (e = ErrSuperseded) in
             if superseded && idle_as_rolled_back s then mkReply 200 "" false (Some true) "" ""
             else if superseded && negb (bool_decide (applyWindow (Live (rec s)) = "")) && other_window window (Live (rec s)) then windowChanged
             else mkReply 500 applyCodeApplyFailed false (Some false) "" (Error e)
         end.
Definition rollback_live (ctx : Ctx) (window : string) : C Server Reply :=
  s ← gets rec;
  match Live s with
  | None => mret (mkReply 200 "" false (Some false) "" "")
  | Some live =>
      if other_window window (Some live) then mret windowChanged
      else
        v ← rollbackTo ctx ops (Committed s) (Some (rv_Materialization live));
        match v.2 with
        | Some err =>
            _ ← noteRollbackFailed_ (Some live) v.1 err;
            mret (mkReply 500 applyCodeApplyFailed false (Some false) "" (rollback_msg err))
        | None => _ ← update recordRollback; mret (mkReply 200 "" false (Some true) "" "")
        end
  end.
Definition applyRollback (ctx : Ctx) (window : string) : C Server Reply :=
  m ← gets failsafe;
  match m with
  | Some m => if pending m then rollback_window m window else rollback_live ctx window
  | None => rollback_live ctx window
  end.

(** ** Converging *)
Definition convergeLocked (ctx : Ctx) (rev : Revision) : C Server (option ExecErr) :=
  let target := convergeMaterialization (rv_Materialization rev) in
  _ ← setStage "converge";
  v ← executeMaterialization ctx ops target None;
  _ ← when (bool_decide (v.2 = None :> option ExecErr) && kernel_present target) (markKernelPlane kernelPlanePresent);
  _ ← setStage "";
  mret v.2.
(** [reconcileKernelPlane]: one tick, and whether it did what it had to. *)
Definition plane_missing (ctx : Ctx) (k : KernelArtifact) (post : Ctx -> KernelArtifact -> Op (option OpErr)) : C Server bool :=
  e ← lift (post ctx k);
  match e with
  | None => _ ← markKernelPlane kernelPlanePresent; mret false
  | Some _ => mret true
  end.
Definition reconcileKernelPlane (ctx : Ctx) : C Server bool :=
  s ← gets rec;
  demo ← gets (fun s => demoNow (world s));
  got ← lift (tryLock ctx);
  if demo || routingIsOff s || negb got then mret true
  else
    match supervisedBaseline s, kernelPostcheck ops, kernel ops with
    | Some base, Some post, Some install =>
        if negb (known (rv_Materialization base)) || negb (kernel_present (rv_Materialization base)) then mret true
        else
          let k := (m_Kernel (rv_Materialization base)) <| k_Retire := [] |> in
          let tick := withTimeout ctx in
          missing ← plane_missing tick k post;
          if negb missing then mret true
          else
            late ← gets (fun s => bool_decide (is_Some (Cause tick (world s))));
            if late : bool then mret false
            else
              missing ← plane_missing tick k post;
              if negb missing then mret true
              else
                _ ← markKernelPlane kernelPlaneMissing;
                e ← lift (install tick k None);
                match e with
                | Some _ => mret false
                | None => missing ← plane_missing tick k post; mret (negb missing)
                end
    | _, _, _ => mret true
    end.
(** [convergeAfterInstall]: whether there was anything to do, or the failure. *)
Definition convergeAfterInstall (ctx : Ctx) : C Server (ExecErr + bool) :=
  s ← gets rec;
  demo ← gets (fun s => demoNow (world s));
  if routingIsOff s then mret (inr false)
  else
    match appliedBaseline s with
    | None => mret (inr false)
    | Some base =>
        let m := rv_Materialization base in
        if negb (known m) || bool_decide (is_Some (rollbackOutstanding s)) || demo || materializationIsDemo m || negb (core_present m)
        then mret (inr false)
        else e ← convergeLocked ctx base; mret (match e with Some e => inl e | None => inr true end)
    end.

(** ** The routing switch ([routingswitch.go]) *)
Definition report {A} (f : A -> string) (m : C Server (option A)) : C Server (list string) :=
  e ← m; mret (match e with Some e => [f e] | None => [] end).
Definition op_report (prefix : string) (m : C Server (option OpErr)) : C Server (list string) := report (fun e => prefix +:+ e_msg e) m.
(** What one revision may have left behind. *)
Definition remove_kernel (ctx : Ctx) (k : KernelArtifact) : C Server (list string) :=
  match kernelTeardown ops with
  | None => mret ["kernel routing plane: the kernel adapter is unavailable"%string]
  | Some down =>
      e ← lift (down ctx k);
      match e, resolverReload ops with
      | Some e, _ => mret ["kernel routing plane: " +:+ e_msg e]
      | None, Some reload => op_report "restart the resolver: " (lift (reload ctx k))
      | None, None => mret []
      end
  end.
Definition remove_native (ctx : Ctx) (target : NativePlan) : C Server (list string) :=
  match nativeRoutingOff ops with
  | None => mret ["router-native routing: this daemon has no native (UCI/NDM) adapter"%string]
  | Some off =>
      v ← lift (off ctx target);
      saved ← match nativeRoutingSave ops with
              | Some save => if (v.1 : bool) then op_report "save the router-native configuration: " (lift (save ctx target)) else mret []
              | None => mret []
              end;
      mret (match v.2 with Some e => ["router-native routing: " +:+ e_msg e] | None => [] end ++ saved)
  end.
Definition remove_revision (ctx : Ctx) (rev : option Revision) : C Server (list string) :=
  match rev with
  | None => mret []
  | Some rev =>
      let m := rv_Materialization rev in
      if materializationIsDemo m then mret []
      else if negb (known m) then
        mret ["the applied configuration " +:+ rv_Rev rev +:+ " predates WayHop's apply record, so the kernel routing it may have installed is not known and was not removed — apply once with routing on to bring the record up to date"]
      else
        e1 ← (if kernel_present m then remove_kernel ctx (m_Kernel m) else mret []);
        e2 ← match nativeTarget m with Some target => remove_native ctx target | None => mret [] end;
        mret (e1 ++ e2)
  end.
(** [removeRouting]; the core artifact it hands over carries nothing but its action. *)
Definition removeRouting (no_core : CoreArtifact) (ctx : Ctx) (revs : list (option Revision)) : C Server (list string) :=
  e0 ← match core ops with
       | None => mret ["stop sing-box: the core adapter is unavailable"%string]
       | Some core_ => op_report "stop sing-box: " (lift (core_ ctx (no_core <| c_Action := ExecutionEnsureAbsent |>)))
       end;
  es ← foldr (fun rev k => e ← remove_revision ctx rev; es ← k; mret (e ++ es)) (mret []) revs;
  last ← match coreRunning ops with
         | Some running => r ← lift running; mret (if (r : bool) then ["sing-box is still running"%string] else [])
         | None => mret []
         end;
  mret (e0 ++ es ++ last).
Definition failures (es : list string) : string := join nl es.

Section switch.
Context (no_core : CoreArtifact).

Definition publish (f : ApplyState -> ApplyState) : C Server string := _ ← update f; gets saveErr.
Definition incomplete (msg detail : string) : applyError := mkApplyError 500 routingCodeIncomplete msg detail "" None [].
Definition off_record (s : ApplyState) (by_ : string) (t : Z) : RoutingOffRecord :=
  let prev := RoutingOff s in
  mkRoutingOff (match prev with Some p => off_At p | None => t end) (match prev with Some p => off_By p | None => by_ end)
    (match Committed s with Some c => rv_Rev c | None => "" end)
    (match Live s with Some l => Some l | None => p ← prev; off_Leftover p end) "".
Definition routingOffLocked (ctx : Ctx) (by_ : string) : C Server (option applyError) :=
  _ ← setStage "routing_off";
  _ ← on_failsafe (fun m => (Disarm m).1);
  s ← gets rec;
  t ← time_now;
  let off := off_record s by_ t in
  saveErr_ ← publish (publishRoutingOff off true);
  demo ← gets (fun s => demoNow (world s));
  if demo : bool then
    mret (if bool_decide (saveErr_ = "") then None else Some (incomplete "routing is switched off, but the switch could not be recorded — a restart would switch it back on" saveErr_))
  else
    es ← removeRouting no_core ctx [off_Leftover off; Committed s];
    _ ← markKernelPlane kernelPlaneUnknown;
    if negb (bool_decide (es = [])) then
      _ ← publish (publishRoutingOff (withRoutingError off (failures es)) false);
      mret (Some (incomplete "routing is switched off, but part of WayHop's routing could not be removed" (outputTail (failures es) 2048)))
    else
      saveErr_ ← match RoutingOff s with
                 | Some p => if bool_decide (off_Error p = "") then mret saveErr_ else publish (publishRoutingOff off false)
                 | None => mret saveErr_
                 end;
      _ ← match off_Leftover off, Committed s with
          | Some was, _ | None, Some was => flushStaleFlows (kernelPlan (rv_Materialization was)) None
          | None, None => mret tt
          end;
      mret (if bool_decide (saveErr_ = "") then None else Some (incomplete "routing is switched off, but the switch could not be recorded — a restart would switch it back on" saveErr_)).

Definition runs_for_real (m : Materialization) : bool := known m && negb (materializationIsDemo m).
Definition really (rev : option Revision) : option Revision :=
  r ← rev; if runs_for_real (rv_Materialization r) then Some r else None.
(** The committed configuration put back over what a Test left; the leftover that could not be removed. *)
Inductive Restored := Back (leftover : option RollbackErr) | NotBack (msg : string).
Definition restore (ctx : Ctx) (off : RoutingOffRecord) (committed : option Revision) : C Server Restored :=
  match really (off_Leftover off) with
  | Some lft =>
      v ← rollbackTo ctx ops committed (Some (rv_Materialization lft));
      mret match v.2 with
           | None => Back None
           | Some e => if onlyNativeLeftover e then Back (Some e) else NotBack (rollback_msg e)
           end
  | None =>
      match committed with
      | None => mret (Back None)
      | Some c =>
          e ← convergeLocked ctx c;
          match e with
          | Some e => mret (NotBack (exec_msg e))
          | None => _ ← flushStaleFlows None (kernelPlan (rv_Materialization c)); mret (Back None)
          end
      end
  end.
Definition switched_on (off : RoutingOffRecord) (leftoverErr : option RollbackErr) : C Server (option applyError) :=
  saveErr_ ← publish publishRoutingOn;
  _ ← match leftoverErr, off_Leftover off with
      | Some e, Some lft => noteLiveRollbackOutstanding_ lft rollbackPlaneCommitted e
      | _, _ => mret tt
      end;
  mret (if bool_decide (saveErr_ = "") then None else Some (incomplete "routing is switched on, but the switch could not be recorded — a restart would switch it off again" saveErr_)).
Definition routingOnLocked (ctx : Ctx) : C Server (option applyError) :=
  s ← gets rec;
  match RoutingOff s with
  | None => mret None
  | Some off =>
      _ ← setStage "routing_on";
      demo ← gets (fun s => demoNow (world s));
      let committed := Committed s in
      if demo || negb (bool_decide (is_Some (really committed)) || bool_decide (is_Some (really (off_Leftover off)))) then switched_on off None
      else
        v ← restore ctx off committed;
        match v with
        | NotBack msg =>
            es ← removeRouting no_core ctx [off_Leftover off; committed];
            let note := "routing could not be switched back on: " +:+ msg +:+
              (if bool_decide (es = []) then " — WayHop's routing was removed again, so the router keeps routing on its own"
               else "; removing what was restored failed as well: " +:+ failures es) in
            _ ← markKernelPlane kernelPlaneUnknown;
            _ ← publish (publishRoutingOff (withRoutingError off note) false);
            mret (Some (mkApplyError 500 applyCodeApplyFailed "routing could not be switched back on; it stays off" (outputTail msg 2048) "" None []))
        | Back leftoverErr =>
            _ ← match really committed ≫= fun c => nativeTarget (rv_Materialization c), nativeRoutingSave ops with
                | Some target, Some save => _ ← lift (save ctx target); mret tt
                | _, _ => mret tt
                end;
            switched_on off leftoverErr
        end
  end.
Definition setRouting (ctx : Ctx) (enabled : bool) (by_ : string) : C Server (option applyError) :=
  let ctx := withoutCancel ctx in
  got ← lift (tryLock ctx);
  if negb got then mret (Some (mkApplyError 503 applyCodeBusy "an Apply is still running" "" "" None []))
  else
    v ← (if enabled then routingOnLocked ctx else routingOffLocked ctx by_);
    _ ← setStage "";
    mret v.
(** [reassertRoutingOff]: one pass of the boot of a daemon whose routing is switched off. *)
Definition reassertRoutingOff (ctx : Ctx) : C Server (list string) :=
  s ← gets rec;
  match RoutingOff s with
  | None => mret []
  | Some off =>
      es ← removeRouting no_core (withTimeout ctx) [off_Leftover off; Committed s];
      _ ← markKernelPlane kernelPlaneUnknown;
      _ ← (if negb (bool_decide (es = [])) then update (publishRoutingOff (withRoutingError off (failures es)) false)
           else if negb (bool_decide (off_Error off = "")) then update (publishRoutingOff (withRoutingError off "") false)
           else mret tt);
      mret es
  end.
End switch.
End control.

(** * Boot

    What a daemon start makes of the record it finds ([src/internal/server/applyboot.go] and the load of
    the record, [stateLocked] of [applystate.go]): the record is read, a half-done Apply's marks go, and
    the router is converged to the committed revision, rolled back from a Test that is still on it, or
    kept without WayHop's routing. Each attempt is one run under [applyMu]. *)

Section boot.
Context {Car : Carriers} {R : Router} {F : Front} (no_core : CoreArtifact).
(** The record an install from before it is imported from, the platform, and the removal of what an
    earlier daemon left running. *)
Context (imported : World -> option Revision) (detectedPlatform : World -> string) (reapStrays : Op unit).

(** A new process: nothing in memory survives but the file. [readable]: the record parses, with its schema. *)
Definition fresh_process (durations : option Durations) (s : Server) : Server :=
  mkServer (world s) fresh_record (disk s) "" kernelPlaneUnknown "" (Failsafe.New <$> durations) ∅ None None.
Definition stateLocked : C Server unit :=
  s ← gets id;
  match disk s with
  | Some r => if Schema r =? applyStateSchema then set_rec (fun _ => r) else mret tt
  | None =>
      match imported (world s) with
      | Some rev => update (fun r => r <| Committed := Some rev |>)
      | None => mret tt
      end
  end.

Definition liveNeedsRollbackOnBoot (s : Server) (live : Revision) : bool :=
  let m := rv_Materialization live in
  if negb (known m) || materializationIsDemo m || demoNow (world s) || routingIsOff (rec s) then false
  else
    let keenetic := bool_decide (detectedPlatform (world s) = PlatformKeenetic)
      || match nativeTarget m with Some t => bool_decide (NativePlatform t = PlatformKeenetic) | None => false end in
    if negb keenetic then true
    else negb (bool_decide (rv_BootID live = "")) && negb (bool_decide (bootID (world s) = "")) && bool_decide (rv_BootID live = bootID (world s)).
(** [StartApply], up to the goroutines. *)
Definition StartApply (durations : option Durations) : C Server unit :=
  _ ← modify (fresh_process durations);
  _ ← stateLocked;
  s ← gets id;
  _ ← match Live (rec s) with
      | None => mret tt
      | Some live =>
          modify (fun s => s <| bootDroppedPlan := kernelPlan (rv_Materialization live) |>
                            <| bootLive := if liveNeedsRollbackOnBoot s live then Some live else None |>)
      end;
  keep ← gets (fun s => bool_decide (is_Some (bootLive s)));
  _ ← update_some (discardLiveOnBoot keep);
  lift reapStrays.

(** What boot sets out to do, decided once. *)
Inductive BootTask := BootOff | BootRollback (live : Revision) | BootConverge (committed : Revision) | BootNothing.
Definition bootTask (s : Server) : BootTask :=
  if routingIsOff (rec s) then BootOff
  else match bootLive s with
  | Some live => BootRollback live
  | None =>
      match Committed (rec s) with
      | None => BootNothing
      | Some c =>
          if negb (known (rv_Materialization c)) || demoNow (world s) || materializationIsDemo (rv_Materialization c) then BootNothing
          else BootConverge c
      end
  end.
(** [convergeOnBootOnce]; [same]: the record still holds that very revision. *)
Definition convergeOnBootOnce (ctx : Ctx) (committed : Revision) (same : bool) : C Server bool :=
  s ← gets rec;
  if routingIsOff s || negb same || bool_decide (is_Some (Live s)) then mret true
  else
    e ← convergeLocked ctx committed;
    match e with
    | Some _ => mret false
    | None =>
        dropped ← gets bootDroppedPlan;
        _ ← match dropped with
            | Some p => flushStaleFlows (Some p) (kernelPlan (rv_Materialization committed))
            | None => mret tt
            end;
        mret true
    end.
(** [rollbackLiveOnBootOnce]; [same]: the live revision is still that one; [kept]: the committed one is. *)
Definition rollbackLiveOnBootOnce (ctx : Ctx) (live : Revision) (same kept : bool) : C Server bool :=
  s ← gets rec;
  if routingIsOff s then mret true
  else if negb same then
    if negb kept then mret true
    else e ← convergeLocked ctx live; mret (match e with Some _ => false | None => true end)
  else
    _ ← setStage "converge";
    v ← rollbackTo ctx ops (Committed s) (Some (rv_Materialization live));
    done ← match v.2 with
           | Some err => _ ← noteRollbackFailed_ (Some live) v.1 err; mret false
           | None => _ ← update recordRollback; mret true
           end;
    _ ← setStage "";
    mret done.
(** One attempt of [convergeOnBoot]; the demo re-asserts nothing. *)
Definition bootAttempt (ctx : Ctx) (task : BootTask) (same kept : bool) : C Server bool :=
  match task with
  | BootOff =>
      demo ← gets (fun s => demoNow (world s));
      if demo : bool then mret true
      else es ← reassertRoutingOff no_core ctx; mret (bool_decide (es = []))
  | BootRollback live => rollbackLiveOnBootOnce ctx live same kept
  | BootConverge committed => convergeOnBootOnce ctx committed same
  | BootNothing => mret true
  end.
End boot.
