(* ===== verification/ApplyInv.v ===== *)
(** * The record's writes, and what the record says the router runs

    Rules for the server's writes, the refusals' monad and the review, and the invariant of the record:
    while routing is on, the kernel plane of the revision the supervision keeps installed is wholly in,
    and, unless a rollback is unfinished, the core was last told to run what the applied revision says
    ([named]).

    Further on: an Apply keeps the record true. *)
From S2P Require Import Prelude Failsafe GoStrings PbrPlan Model PbrLists GenSplit ApplyPlan ApplyRecord.
From S2P Require Import ApplyExec ApplyExecFacts ApplyServer.
Local Open Scope Z_scope.

Section books.
Context {Car : Carriers} {R : Router} {V : RouterView} {F : Front}.
Implicit Types (s : Server) (w : World) (r : ApplyState).

(** Reading the router, writing the record's file and taking the lock leave the planes alone. *)
Record FrontLaws : Prop := {
  law_saveRecord r : calm_op (saveRecord r);
  law_tryLock ctx : calm_op (tryLock ctx);
  law_captureDesired : calm_op captureDesiredSnapshot;
  law_rawFindings ctx d : calm_op (rawFindings ctx d);
  law_capture ctx d : calm_op (captureForApply ctx d)
}.

(** ** What the record says *)
Definition plane_named r w : Prop :=
  forall rev, supervisedBaseline r = Some rev -> real (rv_Materialization rev) = true ->
    kernel_present (rv_Materialization rev) = true -> whole w (plane (m_Kernel (rv_Materialization rev))).
Definition core_named r w : Prop :=
  rollbackOutstanding r = None -> forall rev, appliedBaseline r = Some rev -> real (rv_Materialization rev) = true ->
    core_of w = expected_core (m_Core (rv_Materialization rev)).
Definition names_ r w : Prop := routingIsOff r = false -> plane_named r w /\ core_named r w.
Definition named s : Prop := names_ (rec s) (world s).

Definition same_revisions r r' : Prop :=
  Committed r' = Committed r /\ Live r' = Live r /\ RollbackOutstanding r' = RollbackOutstanding r /\ RoutingOff r' = RoutingOff r.
Lemma same_revisions_refl r : same_revisions r r.
Proof. done. Qed.
Lemma same_revisions_trans r1 r2 r3 : same_revisions r1 r2 -> same_revisions r2 r3 -> same_revisions r1 r3.
Proof. intros (?&?&?&?) (?&?&?&?). split_and!; congruence. Qed.
Lemma same_supervised r r' : same_revisions r r' ->
  supervisedBaseline r' = supervisedBaseline r /\ appliedBaseline r' = appliedBaseline r /\
  rollbackOutstanding r' = rollbackOutstanding r /\ routingIsOff r' = routingIsOff r.
Proof.
  intros (Hc & Hl & Hm & Ho). unfold supervisedBaseline, appliedBaseline, rollbackOutstanding, routingIsOff.
  by rewrite Hc, Hl, Hm, Ho.
Qed.
Lemma plane_named_keeps r r' w w' : supervisedBaseline r' = supervisedBaseline r -> plane_named r w -> keeps_planes w w' -> plane_named r' w'.
Proof. unfold plane_named. intros -> H Hk rev ???. by apply Hk, H. Qed.
Lemma names_calm r r' w w' : same_revisions r r' -> names_ r w -> calm w w' -> names_ r' w'.
Proof.
  intros Hr Hn [Hs Hk]. destruct (same_supervised _ _ Hr) as (Hsup & Happ & Hout & Hoff).
  unfold names_. rewrite Hoff. intros Ho. destruct (Hn Ho) as [Hp Hc]. split; [by eapply plane_named_keeps|].
  unfold core_named. rewrite Hout, Happ, Hs. exact Hc.
Qed.
(** A record without an unfinished rollback names what the router runs when it runs the baseline. *)
Lemma names_runs r w : rollbackOutstanding r = None ->
  (forall rev, appliedBaseline r = Some rev -> real (rv_Materialization rev) = true -> runs (rv_Materialization rev) w) -> names_ r w.
Proof.
  intros Hout Hb _. split; [|intros _ rev Hrev Hreal; by apply Hb].
  intros rev Hrev Hreal Hp. apply (Hb rev); [|done|done].
  unfold supervisedBaseline in Hrev. unfold appliedBaseline. rewrite Hout in Hrev. by destruct (Live r).
Qed.
(** With a rollback outstanding only the plane is named. *)
Lemma names_marked r w o : rollbackOutstanding r = Some o -> plane_named r w -> names_ r w.
Proof. intros Ho Hp _. split; [done|]. unfold core_named. by rewrite Ho. Qed.

(** ** Writes *)
Definition writes (f : ApplyState -> ApplyState) s s' : Prop := rec s' = f (rec s) /\ calm (world s) (world s').
Context (FL : FrontLaws).

Lemma persist_spec s : wp persistLocked (fun _ s' => rec s' = rec s /\ calm (world s) (world s') /\ failsafe s' = failsafe s) anywhere s.
Proof.
  unfold wp, persistLocked. destruct (saveRecord (rec s) (world s)) as [o w] eqn:E.
  destruct o as [[]|]; cbn; try done; (split_and!; [done|by eapply (law_saveRecord FL)|done]).
Qed.
Lemma update_spec f s : wp (update f) (fun _ s' => writes f s s' /\ failsafe s' = failsafe s) anywhere s.
Proof.
  unfold update. apply wp_bind, wp_modify. eapply wp_mono_post; [apply persist_spec|].
  intros _ s' (Hr & Hc & Hf). done.
Qed.
Lemma update_some_spec f s :
  wp (update_some f) (fun _ s' => rec s' = default (rec s) (f (rec s)) /\ calm (world s) (world s') /\ failsafe s' = failsafe s) anywhere s.
Proof.
  unfold update_some. apply wp_bind, wp_gets. destruct (f (rec s)) as [r|]; cbn.
  - eapply wp_mono_post; [apply update_spec|]. by intros _ s' [[??] ?].
  - apply wp_ret. split_and!; [done|apply calm_refl|done].
Qed.
Lemma setAcks_spec ids acked s :
  wp (setAcks_ ids acked) (fun _ s' => same_revisions (rec s) (rec s') /\ calm (world s) (world s') /\ failsafe s' = failsafe s) anywhere s.
Proof.
  unfold setAcks_. case_bool_decide; [apply wp_ret; split_and!; [done..|apply calm_refl|done]|].
  apply wp_bind, wp_gets. eapply wp_mono_post; [apply update_some_spec|]. intros _ s' (-> & Hc & Hf). split_and!; try done.
  all: unfold setAcks; by destruct (foldl _ _ _) as [? []].
Qed.

(** ** The refusals' monad *)
Definition ep {A} (x : E A) (Q : A -> Server -> Prop) (QE : applyError -> Server -> Prop) (D : Server -> Prop) s : Prop :=
  wp (x : C Server (applyError + A)) (fun v s => match v with inl e => QE e s | inr a => Q a s end) D s.
Lemma ep_ret {A} (a : A) Q QE D s : Q a s -> ep (mret a) Q QE D s.
Proof. done. Qed.
Lemma ep_reject {A} e Q QE D s : QE e s -> ep (reject e : E A) Q QE D s.
Proof. done. Qed.
Lemma ep_bind {A B} (x : E A) (k : A -> E B) Q QE D s : ep x (fun a s => ep (k a) Q QE D s) QE D s -> ep (x ≫= k) Q QE D s.
Proof.
  unfold ep, mbind at 1, E_bind. intros H. apply wp_bind. eapply wp_mono_post; [exact H|]. intros [e|a] s'; [|done].
  intros He. by apply wp_ret.
Qed.
Lemma ep_ask {A} (m : C Server A) Q QE D s : wp m Q D s -> ep (ask m) Q QE D s.
Proof. intros H. unfold ep, ask. apply wp_bind. eapply wp_mono_post; [exact H|]. intros a s' Ha. by apply wp_ret. Qed.
Lemma ep_refuse (b : bool) e Q QE D s : (b = true -> QE e s) -> (b = false -> Q tt s) -> ep (refuse_when b e) Q QE D s.
Proof. destruct b; cbn; intros H1 H2; [by apply ep_reject, H1|by apply ep_ret, H2]. Qed.
Lemma ep_or {A B} (e : A -> applyError) (v : A + B) Q QE D s :
  (forall a, v = inl a -> QE (e a) s) -> (forall b, v = inr b -> Q b s) -> ep (or_reject e v) Q QE D s.
Proof. destruct v; cbn; intros H1 H2; [by apply ep_reject, H1|by apply ep_ret, H2]. Qed.
Lemma ep_mono {A} (x : E A) (Q Q' : A -> Server -> Prop) (QE QE' : applyError -> Server -> Prop) D s :
  ep x Q QE D s -> (forall a s, Q a s -> Q' a s) -> (forall e s, QE e s -> QE' e s) -> ep x Q' QE' D s.
Proof. unfold ep. intros H HQ HE. eapply wp_mono_post; [exact H|]. intros [?|?] ?; auto. Qed.

(** ** The part of an Apply that only reads *)
(** Nothing of what the router runs or the record's revisions moved. *)
Definition still s s' : Prop := calm (world s) (world s') /\ same_revisions (rec s) (rec s').
Lemma still_refl s : still s s.
Proof. split; [apply calm_refl|done]. Qed.
Lemma still_trans s1 s2 s3 : still s1 s2 -> still s2 s3 -> still s1 s3.
Proof. intros [??] [??]. split; [by eapply calm_trans|by eapply same_revisions_trans]. Qed.
Lemma still_named s s' : still s s' -> named s -> named s'.
Proof. intros [Hc Hr] Hn. by eapply names_calm. Qed.
Lemma still_lift {A} (o : Op A) Q s0 s : calm_op o -> still s0 s ->
  (forall a s, still s0 s -> Q a s) -> wp (lift o) Q anywhere s.
Proof.
  intros Ho Hs HQ. apply wp_lift; [|done]. intros a w Ew. apply HQ. eapply still_trans; [done|].
  split; [by eapply Ho|done].
Qed.
Lemma still_stage st Q s0 s : still s0 s -> (forall s, still s0 s -> Q tt s) -> wp (setStage st) Q anywhere s.
Proof. intros Hs HQ. apply wp_modify, HQ. by eapply still_trans; [|split; [apply calm_refl|]]. Qed.
Lemma buildPlan_still ctx Q s0 s : still s0 s -> (forall a s, still s0 s -> Q a s) -> wp (buildPlan ctx) Q anywhere s.
Proof.
  intros Hs HQ. unfold buildPlan. apply wp_bind. eapply still_lift; [apply (law_captureDesired FL)|done|].
  intros [e|d] s1 H1; [by apply wp_ret, HQ|]. apply wp_bind.
  eapply still_lift; [apply (law_rawFindings FL)|done|]. intros raw s2 H2. apply wp_bind, wp_gets, wp_ret. by apply HQ.
Qed.
End books.

(** * An Apply keeps the record true

    The invariant of the record through [runApply]: what the review and the preparation leave alone, and
    what a failed and a successful execution record. *)

Section inv.
Context {Car : Carriers} {R : Router} {V : RouterView} {F : Front} (Laws : RouterLaws ops) (FL : FrontLaws).
Implicit Types (s : Server) (w : World) (r : ApplyState).

(** What the review let through: this revision, valid, with nothing that blocks and all acknowledged. *)
Definition passed (ctx : Ctx) (req : applyRequest) s0 (d : Desired) : Prop :=
  (q_Rev req = "" \/ q_Rev req = DesiredRev d) /\ Validate (d_Profile d) = None /\
  exists s1 s2 fs, still s0 s1 /\ buildPlan ctx s1 = (Some (inr fs), s2) /\ blockers fs = [] /\ unacked fs = [].
Lemma nonempty_false {A} (l : list A) : negb (bool_decide (length l = 0%nat)) = false -> l = [].
Proof. intros H. apply negb_false_iff in H. apply bool_decide_eq_true in H. by apply length_zero_iff_nil. Qed.
Lemma reviewed_spec ctx req s :
  ep (reviewed ctx req) (fun d s' => still s s' /\ routingIsOff (rec s') = false /\ passed ctx req s d) (fun _ s' => still s s') anywhere s.
Proof.
  unfold reviewed. apply ep_bind, ep_ask, wp_gets, ep_bind, ep_refuse; [intros _; apply still_refl|intros Hoff].
  apply ep_bind, ep_ask. eapply still_lift; [apply (law_captureDesired FL)|apply still_refl|]. intros d s1 H1.
  apply ep_bind, ep_or; [done|]. intros desired ->. apply ep_bind.
  eapply (ep_mono _ (fun _ s' => still s s' /\ (q_Rev req = "" \/ q_Rev req = DesiredRev desired)) _ (fun _ s' => still s s')); [|clear s1 H1|done].
  { case_match eqn:Erev.
    - apply ep_bind, ep_ask. eapply buildPlan_still; [done..|]. intros. by apply ep_reject.
    - apply ep_ret. split; [done|]. apply andb_false_iff in Erev as [H|H]; apply negb_false_iff, bool_decide_eq_true in H; auto. }
  intros [] s1 [H1 Hrev]. apply ep_bind.
  destruct (Validate (d_Profile desired)) as [e|] eqn:Ev; [by apply ep_reject|apply ep_ret].
  apply ep_bind, ep_ask. eapply wp_mono_post; [by apply setAcks_spec|]. intros [] s2 (Hr2 & Hc2 & _).
  assert (H2 : still s s2) by (eapply still_trans; [exact H1|by split]). clear s1 H1 Hr2 Hc2.
  apply ep_bind, ep_ask. apply wp_intro; [|done]. intros plan s3 Eplan.
  assert (H3 : still s s3).
  { eapply (wp_run _ (fun _ s' => still s s')); [|exact Eplan]. by eapply buildPlan_still. }
  apply ep_bind, ep_or; [done|]. intros fs ->.
  apply ep_bind, ep_refuse; [done|intros Hb%nonempty_false]. apply ep_bind, ep_refuse; [done|intros Hu%nonempty_false].
  apply ep_ret. split_and!; [done| |split_and!; [done|done|by exists s2, s3, fs]].
  destruct H3 as [_ Hr3]. destruct (same_supervised _ _ Hr3) as (_ & _ & _ & ->). exact Hoff.
Qed.

(** What an execution is given: the baseline and the outstanding rollback the record has. *)
Definition prepared_from r (desired : Desired) (p : Prepared) : Prop :=
  p_Desired p = desired /\ p_Baseline p = appliedBaseline r /\ p_Outstanding p = rollbackOutstanding r.
Lemma prepared_spec ctx desired s :
  ep (prepared ctx desired) (fun p s' => still s s' /\ prepared_from (rec s') desired p) (fun _ s' => still s s') anywhere s.
Proof.
  unfold prepared. apply ep_bind, ep_ask. eapply still_stage; [apply still_refl|]. intros s1 H1.
  apply ep_bind, ep_ask. eapply still_lift; [apply (law_capture FL)|done|]. clear s1 H1. intros c s1 H1.
  apply ep_bind, ep_or; [done|]. intros capture ->.
  apply ep_bind, ep_refuse; [done|intros _].
  apply ep_bind, ep_ask. eapply still_stage; [done|]. clear s1 H1. intros s1 H1.
  apply ep_bind, ep_ask, wp_gets. apply ep_bind.
  eapply (ep_mono _ (fun _ s' => s' = s1) _ (fun _ s' => still s s')); [| |done].
  { destruct (kernel_mode _); [|by apply ep_ret]. by apply ep_or. }
  intros compiled s' ->. apply ep_bind, ep_ask, wp_gets. apply ep_bind, ep_or; [done|]. intros built _.
  apply ep_bind.
  eapply (ep_mono _ (fun _ s' => still s s' /\ same_revisions (rec s1) (rec s')) _ (fun _ s' => still s s')); [| |done].
  { destruct (checkCore ops) as [check|] eqn:Ec; [|by apply ep_ret].
    destruct (core_present built.1); [|by apply ep_ret].
    apply ep_bind, ep_ask. eapply (still_stage _ _ s1); [apply still_refl|]. intros s2 H2.
    apply ep_bind, ep_ask. eapply still_lift; [by eapply (law_check _ Laws)|done|]. clear s2 H2. intros e s2 H2.
    pose proof (still_trans _ _ _ H1 H2). destruct e; [by apply ep_reject|apply ep_ret]. split; [done|by apply H2]. }
  intros [] s' [H' Hr]. apply ep_ret. split; [done|]. destruct (same_supervised _ _ Hr) as (_ & Ha & Ho & _).
  split_and!; [done|by rewrite Ha|by rewrite Ho].
Qed.

(** ** A failed execution *)
Lemma marked_supervised r l o : Live r = Some l -> rollbackOutstanding r = Some o ->
  supervisedBaseline r =
    if bool_decide (o_KernelPlane o = rollbackPlaneTested) then Some l
    else if bool_decide (o_KernelPlane o = rollbackPlaneCommitted) then Committed r else None.
Proof. intros Hl Ho. unfold supervisedBaseline. by rewrite Hl, Ho. Qed.
Lemma outstanding_live r o : rollbackOutstanding r = Some o -> exists l, Live r = Some l.
Proof. unfold rollbackOutstanding. destruct (RollbackOutstanding r), (Live r); naive_solver. Qed.
Lemma sameRevision_refl l : sameRevision (Some l) (Some l) = true.
Proof. cbn. by rewrite bool_decide_eq_true_2, Z.eqb_refl. Qed.
Lemma note_marks r l plane msg : Live r = Some l ->
  exists r' o, noteRollbackFailed (Some l) plane msg r = Some r' /\ Live r' = Some l /\ Committed r' = Committed r /\
    RoutingOff r' = RoutingOff r /\ rollbackOutstanding r' = Some o /\
    o_KernelPlane o =
      match rollbackOutstanding r with
      | Some prev => if bool_decide (plane = rollbackPlaneTested) then o_KernelPlane prev else plane
      | None => plane
      end.
Proof.
  intros Hl. unfold noteRollbackFailed. rewrite Hl, sameRevision_refl.
  eexists _, (mkOutstanding (rv_Rev l) (rv_At l) msg match rollbackOutstanding r with
    | Some prev => if bool_decide (plane = rollbackPlaneTested) then o_KernelPlane prev else plane | None => plane end).
  split; [done|]. cbn.
  split_and!; try done. unfold rollbackOutstanding, names. cbn. by rewrite Hl, bool_decide_eq_true_2, Z.eqb_refl.
Qed.
Lemma live_marks r rev boot plane msg :
  let r' := noteLiveRollbackOutstanding rev boot plane msg r in
  exists o, rollbackOutstanding r' = Some o /\ o_KernelPlane o = plane /\ Live r' = Some (with_boot boot rev) /\ Committed r' = Committed r.
Proof.
  cbn. exists (mkOutstanding (rv_Rev rev) (rv_At rev) msg plane). unfold rollbackOutstanding, names. cbn. by rewrite bool_decide_eq_true_2, Z.eqb_refl.
Qed.
(** The rollback a failed execution gets: its outcome is one rollback's to its target. *)
Definition rollback_target r (p : Prepared) : option Revision :=
  match p_Outstanding p with None => p_Baseline p | Some _ => Committed r end.
Lemma rolled_again base w1 w2 w3 (v1 v2 : string * option RollbackErr) :
  v1.2 = None -> rolled base w1 v1 w2 -> rolled base w2 v2 w3 ->
  rolled base w1 (match v2.2 with
                  | Some e => if bool_decide (v2.1 = rollbackPlaneTested) then (rollbackPlaneCommitted, Some e) else v2
                  | None => v2
                  end) w3.
Proof.
  destruct v1 as [p1 e1], v2 as [p2 e2]. cbn. intros ->. unfold rolled. destruct (base_of base) as [b|]; cbn.
  - intros (_ & _ & H1) (Ht & Hc & Hn). destruct (H1 eq_refl) as [_ Hruns]. destruct e2 as [e|]; cbn in *.
    + case_bool_decide as Et; cbn; [|split_and!; [done|done|exact Hn]].
      subst p2. split_and!; [done| |].
      * intros _ Hr Hp. apply Ht; [done|]. by apply Hruns.
      * intros He. by destruct (Hn He).
    + destruct (Hn eq_refl) as [-> ?]. by split_and!.
  - intros _ Ht. destruct e2; [|done]. by rewrite bool_decide_eq_false_2.
Qed.
Lemma roll_back_apply_spec ctx p s :
  wp (roll_back_apply ctx p) (fun v s' => rolled (rollback_target (rec s) p) (world s) v (world s') /\ only_router s s') anywhere s.
Proof.
  unfold roll_back_apply, rollback_target. apply wp_bind, wp_gets. destruct (p_Outstanding p).
  - eapply wp_seq; [eapply wp_mono; [by apply rollbackTo_spec|by intros ?? H; exact H|done]|].
    intros v1 s1 [H1 Ho1]. destruct v1.2 as [e|] eqn:E1; [by apply wp_ret|].
    eapply wp_seq; [eapply wp_mono; [by apply rollbackTo_spec|by intros ?? H; exact H|done]|].
    intros v2 s2 [H2 Ho2]. apply wp_ret. split; [by eapply rolled_again|by eapply only_router_trans].
  - eapply wp_mono; [by apply rollbackTo_spec|done|done].
Qed.
Lemma rolled_committed base w0 v w rev : rolled base w0 v w -> base = Some rev -> v.1 = rollbackPlaneCommitted ->
  real (rv_Materialization rev) = true -> kernel_present (rv_Materialization rev) = true -> whole w (plane (m_Kernel (rv_Materialization rev))).
Proof.
  intros H -> Hv Hr. unfold rolled, base_of in H. cbn in H. pose proof Hr as Hr'. unfold real in Hr'. apply andb_true_iff in Hr' as [Hk _].
  rewrite Hk in H. destruct H as (_ & H & _). by apply H.
Qed.
Lemma rolled_none base w0 v w rev : rolled base w0 v w -> base = Some rev -> v.2 = None ->
  real (rv_Materialization rev) = true -> runs (rv_Materialization rev) w.
Proof.
  intros H -> Hv Hr. unfold rolled, base_of in H. cbn in H. pose proof Hr as Hr'. unfold real in Hr'. apply andb_true_iff in Hr' as [Hk _].
  rewrite Hk, Hv in H. destruct H as (_ & _ & H). by apply H.
Qed.
Lemma rolled_tested base w0 v w : rolled base w0 v w -> v.1 = rollbackPlaneTested -> keeps_planes w0 w.
Proof. unfold rolled. destruct (base_of base); [naive_solver|done]. Qed.

(** A record with a rollback outstanding names a plane that is in when its mark says so truly. *)
Definition in_place w (rev : Revision) : Prop :=
  real (rv_Materialization rev) = true -> kernel_present (rv_Materialization rev) = true -> whole w (plane (m_Kernel (rv_Materialization rev))).
Lemma marked_names r l o w : Live r = Some l -> rollbackOutstanding r = Some o ->
  (o_KernelPlane o = rollbackPlaneTested -> in_place w l) ->
  (o_KernelPlane o = rollbackPlaneCommitted -> forall c, Committed r = Some c -> in_place w c) -> names_ r w.
Proof.
  intros Hl Ho Ht Hc. apply (names_marked _ _ _ Ho). intros rev Hrev. rewrite (marked_supervised _ _ _ Hl Ho) in Hrev.
  destruct (decide (o_KernelPlane o = rollbackPlaneTested)) as [E|E].
  - rewrite bool_decide_eq_true_2 in Hrev by done. apply (inj Some) in Hrev as <-. by apply Ht.
  - rewrite bool_decide_eq_false_2 in Hrev by done. destruct (decide (o_KernelPlane o = rollbackPlaneCommitted)) as [E'|E'].
    + rewrite bool_decide_eq_true_2 in Hrev by done. by apply Hc.
    + by rewrite bool_decide_eq_false_2 in Hrev by done.
Qed.
Lemma in_place_keeps w w' rev : in_place w rev -> keeps_planes w w' -> in_place w' rev.
Proof. intros H Hk ??. by apply Hk, H. Qed.
Lemma rolled_in_place base w0 v w rev : rolled base w0 v w -> base = Some rev -> v.1 = rollbackPlaneCommitted -> in_place w rev.
Proof. intros ??? ??. by eapply rolled_committed. Qed.
(** [noteRollbackFailed] keeps the record true when the plane it is told is. *)
Lemma note_failed_named l plane' err s :
  Live (rec s) = Some l ->
  (plane' = rollbackPlaneTested ->
     match rollbackOutstanding (rec s) with
     | Some prev => (o_KernelPlane prev = rollbackPlaneTested -> in_place (world s) l) /\
         (o_KernelPlane prev = rollbackPlaneCommitted -> forall c, Committed (rec s) = Some c -> in_place (world s) c)
     | None => in_place (world s) l
     end) ->
  (plane' = rollbackPlaneCommitted -> forall c, Committed (rec s) = Some c -> in_place (world s) c) ->
  wp (noteRollbackFailed_ (Some l) plane' err) (fun _ s' => named s') anywhere s.
Proof.
  intros Hl Ht Hc. eapply wp_mono_post; [by apply update_some_spec|]. intros _ s' (Hrec & Hcalm & _).
  destruct (note_marks (rec s) l plane' (outputTail (rollback_msg err) 512) Hl) as (r' & o & E & Hl' & Hc' & Ho' & Hm' & Hpl).
  rewrite E in Hrec. cbn in Hrec. unfold named. rewrite Hrec. apply (names_calm r' r' (world s)); [done| |exact Hcalm].
  revert Ht Hpl. destruct (rollbackOutstanding (rec s)) as [prev|]; intros Ht Hpl;
    apply (marked_names _ _ _ _ Hl' Hm'); rewrite ?Hc', Hpl; try done.
  all: case_bool_decide as E1; [by destruct (Ht E1)|done].
Qed.
Lemma supervised_marked r l o w : plane_named r w -> Live r = Some l -> rollbackOutstanding r = Some o ->
  (o_KernelPlane o = rollbackPlaneTested -> in_place w l) /\
  (o_KernelPlane o = rollbackPlaneCommitted -> forall c, Committed r = Some c -> in_place w c).
Proof.
  intros Hp Hl Ho. unfold plane_named in Hp. rewrite (marked_supervised _ _ _ Hl Ho) in Hp. split.
  - intros E ??. apply Hp; [by rewrite bool_decide_eq_true_2|done|done].
  - intros E c Hc ??. apply Hp; [|done|done]. by rewrite E, Hc.
Qed.

(** What is recorded of a failed rollback is true of the plane, whichever case it is: [w0] is before the
    execution, [w2] after it, and the rollback ended in [world s]. *)
Section failed.
Context (p : Prepared) (r0 : ApplyState) (w0 w2 : World) (forward plane_ : string) (err : RollbackErr) (s : Server).
Context (Hsame : same_revisions r0 (rec s)) (Hp : plane_named r0 w0).
Context (Hbase : p_Baseline p = appliedBaseline r0) (Hout : p_Outstanding p = rollbackOutstanding r0).
Context (Hft : forward = rollbackPlaneTested -> keeps_planes w0 w2).
Context (Hfc : forward = rollbackPlaneCommitted -> kernel_present (p_Materialization p) = true -> whole w2 (plane (m_Kernel (p_Materialization p)))).
Context (Hfin : forward ∈ [rollbackPlaneTested; rollbackPlaneUnknown; rollbackPlaneCommitted]).
Context (Hr : rolled (rollback_target r0 p) w2 (plane_, Some err) (world s)).

Lemma untouched_plane : plane_ = rollbackPlaneTested -> forward = rollbackPlaneTested -> keeps_planes w0 (world s).
Proof. intros Ht Hf. eapply keeps_planes_trans; [by apply Hft|]. by eapply rolled_tested; [exact Hr|]. Qed.

Lemma note_outstanding l prev : Live r0 = Some l -> rollbackOutstanding r0 = Some prev ->
  wp (noteRollbackFailed_ (Some l)
        (if bool_decide (plane_ = rollbackPlaneTested) && negb (bool_decide (forward = rollbackPlaneTested)) then rollbackPlaneUnknown else plane_) err)
     (fun _ s' => named s') anywhere s.
Proof.
  intros El Eout. pose proof Hsame as (Hcom & Hlive & _ & _). destruct (same_supervised _ _ Hsame) as (_ & _ & Hout' & _).
  assert (Ht : rollback_target r0 p = Committed r0) by (unfold rollback_target; by rewrite Hout, Eout).
  destruct (supervised_marked _ _ _ _ Hp El Eout) as [Hl Hc]. apply note_failed_named; rewrite ?Hlive, ?Hout', ?Eout, ?Hcom; [done|..].
  - intros E. case_bool_decide as E1; case_bool_decide as E2; try done; cbn in E.
    split; [intros Hk|intros Hk c Hcc]; eapply in_place_keeps; eauto using untouched_plane.
  - intros E c Hcc. case_bool_decide as E1; case_bool_decide as E2; try done; cbn in E; try congruence;
      (eapply rolled_in_place; [exact Hr|by rewrite Ht|done]).
Qed.
Lemma note_test l : Live r0 = Some l -> rollbackOutstanding r0 = None ->
  wp (noteRollbackFailed_ (Some l)
        (if bool_decide (plane_ = rollbackPlaneCommitted) || (bool_decide (plane_ = rollbackPlaneTested) && bool_decide (forward = rollbackPlaneTested))
         then rollbackPlaneTested else rollbackPlaneUnknown) err) (fun _ s' => named s') anywhere s.
Proof.
  intros El Eout. pose proof Hsame as (Hcom & Hlive & _ & _). destruct (same_supervised _ _ Hsame) as (_ & _ & Hout' & _).
  assert (Ht : rollback_target r0 p = Some l).
  { unfold rollback_target. rewrite Hout, Eout, Hbase. unfold appliedBaseline. by rewrite El. }
  apply note_failed_named; rewrite ?Hlive, ?Hout', ?Eout; [done|..].
  - intros E. case_match eqn:E1; [|done]. apply orb_true_iff in E1 as [Ec|E1].
    + apply bool_decide_eq_true in Ec. eapply rolled_in_place; [exact Hr|done|done].
    + apply andb_true_iff in E1 as [Et Ef]. apply bool_decide_eq_true in Et, Ef.
      eapply in_place_keeps; [|by apply untouched_plane]. intros ??. apply Hp; [|done|done].
      unfold supervisedBaseline. by rewrite El, Eout.
  - intros E. by case_match.
Qed.
Lemma note_live t : Live r0 = None -> rollbackOutstanding r0 = None ->
  wp (noteLiveRollbackOutstanding_ (revision_of p t)
       (if bool_decide (plane_ = rollbackPlaneTested) then
          if bool_decide (forward = rollbackPlaneTested) then rollbackPlaneCommitted
          else if bool_decide (forward = rollbackPlaneUnknown) then rollbackPlaneUnknown else plane_
        else plane_) err) (fun _ s' => named s') anywhere s.
Proof.
  intros El Eout. pose proof Hsame as (Hcom & Hlive & _ & _).
  assert (Ht : rollback_target r0 p = Committed r0).
  { unfold rollback_target. rewrite Hout, Eout, Hbase. unfold appliedBaseline. by rewrite El. }
  unfold noteLiveRollbackOutstanding_. apply wp_bind, wp_gets. match goal with |- context [noteLiveRollbackOutstanding _ _ ?x _] => set (plane' := x) end.
  eapply wp_mono_post; [by apply update_spec|]. intros _ s' [[Hrec Hcalm] _].
  destruct (live_marks (rec s) (revision_of p t) (bootID (world s)) plane' (outputTail (rollback_msg err) 512)) as (o & Hm' & Hpl & Hl' & Hc').
  rewrite <- Hrec in *. unfold named. apply (names_calm (rec s') (rec s') (world s)); [done| |exact Hcalm].
  apply (marked_names _ _ _ _ Hl' Hm'); rewrite Hpl, ?Hc', ?Hcom; unfold plane'.
  - intros E Hreal Hpres. cbn in *. case_bool_decide as E1; [|done]. case_bool_decide as E2; [done|]. case_bool_decide as E3; [done|].
    rewrite !elem_of_cons in Hfin. destruct Hfin as [?|[?|[Ef|Hn]]]; [done|done| |by apply elem_of_nil in Hn].
    eapply rolled_tested; [exact Hr|done|]. by apply Hfc.
  - intros E c Hcc. case_bool_decide as E1; [case_bool_decide as E2|].
    + eapply in_place_keeps; [|by apply untouched_plane]. intros ??. apply Hp; [|done|done].
      unfold supervisedBaseline. by rewrite El.
    + case_bool_decide; [done|]. rewrite E1 in E. done.
    + eapply rolled_in_place; [exact Hr|by rewrite Ht|done].
Qed.
Lemma note_failed_rollback_spec : wp (note_failed_rollback p forward plane_ err) (fun _ s' => named s') anywhere s.
Proof.
  unfold note_failed_rollback. apply wp_bind, wp_gets. rewrite Hout, Hbase. unfold appliedBaseline.
  rewrite (proj1 (proj2 Hsame)). case_eq (rollbackOutstanding r0); [intros prev Eout|intros Eout].
  - destruct (outstanding_live _ _ Eout) as [l El]. rewrite El. by apply (note_outstanding l prev).
  - case_eq (Live r0); [intros l El|intros El].
    + rewrite sameRevision_refl, bool_decide_eq_true_2 by by eexists. by apply note_test.
    + replace (sameRevision _ None) with false by (by case (Committed r0)). rewrite andb_false_r.
      apply wp_bind, wp_gets. by apply note_live.
Qed.
End failed.

(** ** The whole Apply *)
(** The record has no rollback outstanding, and the router runs the revision it names. *)
Definition settled_on r w : Prop :=
  rollbackOutstanding r = None /\
  forall rev, appliedBaseline r = Some rev -> real (rv_Materialization rev) = true -> runs (rv_Materialization rev) w.
Lemma settled_on_named s : settled_on (rec s) (world s) -> named s.
Proof. intros [? ?]. by apply names_runs. Qed.
Lemma settled_calm r r' w w' : same_revisions r r' -> settled_on r w -> calm w w' -> settled_on r' w'.
Proof.
  intros Hr [Ho Hb] Hc. destruct (same_supervised _ _ Hr) as (_ & Ha & Ho' & _). split; [by rewrite Ho'|].
  rewrite Ha. intros rev ??. eapply runs_calm; [by apply Hb|done].
Qed.
Lemma kernelPlaneAfter_cases (r : applyExecResult) e : kernelPlaneAfter r e ∈ [rollbackPlaneTested; rollbackPlaneUnknown; rollbackPlaneCommitted].
Proof. unfold kernelPlaneAfter. repeat case_match; rewrite !elem_of_cons; auto. Qed.
Lemma only_router_books s s' : only_router s s' -> rec s' = rec s /\ failsafe s' = failsafe s.
Proof. unfold only_router. intros ->. by destruct s. Qed.

Lemma rolled_back_spec ctx p d r0 w0 (r : applyExecResult) e s :
  same_revisions r0 (rec s) -> prepared_from r0 d p -> routingIsOff r0 = false ->
  ended (p_Materialization p) w0 r (Some e) (world s) ->
  wp (rolled_back_or_noted ctx p (kernelPlaneAfter r (Some e)))
     (fun b s' => if b then settled_on (rec s') (world s') else names_ r0 w0 -> named s') anywhere s.
Proof.
  intros Hsame (Hd & Hbase & Hout) Hoff Hend. unfold rolled_back_or_noted. apply wp_bind, wp_modify.
  eapply wp_seq; [apply roll_back_apply_spec|]. cbn. intros [plane_ err] s2 [Hr Ho]. cbn in *.
  destruct (only_router_books _ _ Ho) as [Hrec _]. cbn in Hrec.
  assert (Hsame2 : same_revisions r0 (rec s2)) by (by rewrite Hrec).
  assert (Htarget : rollback_target (rec s) p = rollback_target r0 p).
  { unfold rollback_target. destruct (p_Outstanding p); [apply Hsame|done]. }
  rewrite Htarget in Hr. destruct err as [err|].
  - apply (wp_seq _ _ (fun _ s' => names_ r0 w0 -> named s')); [|intros [] s3 H3; apply wp_ret; exact H3]. apply wp_intro; [|done]. intros [] s3 E3 Hn.
    destruct (Hn Hoff) as [Hp _]. destruct Hend as [_ Hb Hk].
    eapply (wp_run _ (fun _ s' => named s')); [|exact E3].
    eapply (note_failed_rollback_spec p r0 w0 (world s)); eauto using kernelPlaneAfter_cases.
  - assert (Hruns : forall rev, rollback_target r0 p = Some rev -> real (rv_Materialization rev) = true -> runs (rv_Materialization rev) (world s2)).
    { intros rev Hrev Hreal. by eapply rolled_none. }
    unfold rollback_target in Hruns. destruct (p_Outstanding p) as [o|] eqn:Eo.
    + apply (wp_seq _ _ (fun _ s' => settled_on (rec s') (world s'))); [|intros [] s3 H3; apply wp_ret; exact H3]. eapply wp_seq; [by apply update_spec|].
      intros [] s3 [[Hrec3 Hc3] _]. apply wp_modify. cbn. rewrite Hrec3.
      split; [done|].
      intros rev Hrev Hreal. eapply runs_calm; [|exact Hc3]. apply Hruns; [|done]. cbn in Hrev.
      by rewrite <- (proj1 Hsame2).
    + apply wp_bind, wp_ret, wp_ret. destruct (same_supervised _ _ Hsame2) as (_ & Ha & Ho' & _).
      split; [by rewrite Ho', <- Hout|]. rewrite Ha, <- Hbase. exact Hruns.
Qed.
Lemma applyFailed_spec ctx p d r0 w0 (r : applyExecResult) e s :
  same_revisions r0 (rec s) -> prepared_from r0 d p -> routingIsOff r0 = false ->
  ended (p_Materialization p) w0 r (Some e) (world s) ->
  wp (applyFailed ctx p r e) (fun err s' => (names_ r0 w0 -> named s') /\
     (ae_RolledBack err = Some true -> settled_on (rec s') (world s')) /\
     (Mutated r = false -> calm w0 (world s') /\ same_revisions r0 (rec s'))) anywhere s.
Proof.
  intros Hsame Hfrom Hoff Hend. unfold applyFailed.
  apply (wp_seq _ _ (fun b s' => (if b : bool then settled_on (rec s') (world s') else names_ r0 w0 -> named s') /\
    (Mutated r = false -> calm w0 (world s') /\ same_revisions r0 (rec s')))).
  - destruct (Mutated r) eqn:Em.
    + eapply wp_mono_post; [by eapply rolled_back_spec|]. intros b s' H. by split.
    + apply wp_ret. split; [|intros _; split; [by apply Hend|done]]. intros Hn.
      eapply names_calm; [exact Hsame|exact Hn|by apply Hend].
  - intros b s1 [Hb Hmut]. unfold recordFailure_. apply wp_bind, wp_bind, wp_gets.
    eapply wp_mono_post; [by apply update_spec|]. intros _ s2 [[Hrec Hcalm] _]. apply wp_ret. cbn.
    assert (Hs : same_revisions (rec s1) (rec s2)) by (by rewrite Hrec).
    split_and!.
    + intros Hn. destruct b.
      * apply settled_on_named. by eapply settled_calm.
      * eapply names_calm; [exact Hs|by apply Hb|done].
    + intros [= ->]. by eapply settled_calm.
    + intros Hm. destruct (Hmut Hm). split; [by eapply calm_trans|by eapply same_revisions_trans].
Qed.

Lemma recordApplied_settled save rev boot t r w :
  (real (rv_Materialization rev) = true -> runs (rv_Materialization rev) w) -> settled_on (recordApplied save rev boot t r) w.
Proof. intros H. destruct save; (split; [done|]); cbn; intros rev' [= <-]; exact H. Qed.
Lemma on_failsafe_spec f s : wp (on_failsafe f) (fun _ s' => rec s' = rec s /\ world s' = world s) anywhere s.
Proof. by apply wp_modify. Qed.
Lemma armFailSafe_spec live s : wp (armFailSafe live) (fun _ s' => rec s' = rec s /\ world s' = world s) anywhere s.
Proof. apply wp_modify. by destruct (failsafe s). Qed.
Lemma applySucceeded_spec ctx req p (r : applyExecResult) s :
  (real (p_Materialization p) = true -> runs (p_Materialization p) (world s)) ->
  wp (applySucceeded ctx req p r) (fun v s' => settled_on (rec s') (world s') /\
      (exists rev, appliedBaseline (rec s') = Some rev /\ rv_Materialization rev = p_Materialization p /\
                   rv_Rev rev = DesiredRev (p_Desired p)) /\ ar_Rev v = DesiredRev (p_Desired p) /\
      (ar_Saved v = true -> Live (rec s') = None)) anywhere s.
Proof.
  intros Hruns. unfold applySucceeded. apply wp_bind, wp_modify, wp_bind, wp_gets, wp_bind, wp_modify, wp_bind, wp_gets. cbn [world rec].
  set (m := p_Materialization p) in *. set (w1 := flushFlows _ _ _).
  assert (H1 : real m = true -> runs m w1).
  { intros Hr. eapply runs_calm; [by apply Hruns|apply (law_flush _ Laws)]. }
  clearbody w1. match goal with |- wp _ _ _ ?x => set (s1 := x) end.
  assert (Hw1 : world s1 = w1) by done. clearbody s1. clear Hruns s. subst w1.
  apply (wp_seq _ _ (fun _ s' => real m = true -> runs m (world s'))).
  { destruct (q_Save req); [|by apply wp_ret]. apply wp_bind, wp_modify.
    destruct (m_Native m); [|by apply wp_ret]. destruct (persistNative ops) as [persist|] eqn:Ep; [|by apply wp_ret].
    destruct (Demo _); [by apply wp_ret|]. apply wp_bind, wp_lift; [|done]. intros e w Ew. apply wp_ret.
    intros Hr. eapply runs_calm; [by apply H1|]. by eapply (law_persist _ Laws). }
  intros [saved problems] s2 H2. cbn. unfold recordApplied_. apply wp_bind, wp_bind, wp_gets.
  eapply wp_mono_post; [by apply update_spec|]. intros _ s3 [[Hrec Hcalm] _].
  set (rev := revision_of p (now (world s1))) in *.
  assert (Hset : settled_on (rec s3) (world s3)).
  { rewrite Hrec. apply recordApplied_settled. intros Hr. eapply runs_calm; [by apply H2|exact Hcalm]. }
  assert (Hbase : exists rev', appliedBaseline (rec s3) = Some rev' /\ rv_Materialization rev' = m /\ rv_Rev rev' = DesiredRev (p_Desired p)).
  { rewrite Hrec. destruct saved; by eexists. }
  assert (Hlive : saved = true -> Live (rec s3) = None) by (intros ->; by rewrite Hrec).
  apply (wp_seq _ _ (fun _ s' => rec s' = rec s3 /\ world s' = world s3)).
  { destruct saved; [apply on_failsafe_spec|apply armFailSafe_spec]. }
  intros _ s4 [Hr4 Hw4]. apply wp_ret. by rewrite Hr4, Hw4.
Qed.

(** What an Apply leaves when it answers, from a record and a router that were as the record said or not. *)
Record applied_well (s' : Server) (rev : string) (saved : bool) : Prop := {
  aw_settled : settled_on (rec s') (world s');
  aw_baseline : exists b : Revision, appliedBaseline (rec s') = Some b /\ rv_Rev b = rev;
  aw_saved : saved = true -> Live (rec s') = None
}.
Lemma executed_spec ctx req p d s :
  prepared_from (rec s) d p -> routingIsOff (rec s) = false ->
  ep (executed ctx req p)
     (fun v s' => applied_well s' (ar_Rev v) (ar_Saved v) /\ ar_Rev v = DesiredRev d)
     (fun e s' => (named s -> named s') /\ (ae_RolledBack e = Some true -> settled_on (rec s') (world s')) /\
                  (ae_Code e = applyCodeApplyFailed)) anywhere s.
Proof.
  intros Hfrom Hoff. unfold executed. apply ep_bind, ep_ask. unfold setInFlight_. apply wp_bind, wp_gets.
  eapply wp_mono_post; [by apply update_spec|]. intros _ s1 [[Hrec Hcalm] _].
  assert (Hs : same_revisions (rec s) (rec s1)) by (by rewrite Hrec).
  apply ep_bind, ep_ask. eapply wp_mono; [by apply execute_spec| |done]. intros [r err] s2 (Hend & Hruns & How). cbn in *.
  assert (Hrec2 : rec s2 = rec s1) by (rewrite How; by destruct s1). destruct err as [e|].
  - apply ep_bind, ep_ask. apply wp_intro; [|done]. intros err s3 E3. apply ep_reject.
    assert (Hf : (names_ (rec s) (world s1) -> named s3) /\ (ae_RolledBack err = Some true -> settled_on (rec s3) (world s3)) /\
       (Mutated r = false -> calm (world s1) (world s3) /\ same_revisions (rec s) (rec s3))).
    { eapply (wp_run _ (fun err s' => (names_ (rec s) (world s1) -> named s') /\ (ae_RolledBack err = Some true -> settled_on (rec s') (world s')) /\
       (Mutated r = false -> calm (world s1) (world s') /\ same_revisions (rec s) (rec s')))); [|exact E3].
      eapply applyFailed_spec; [by rewrite Hrec2|exact Hfrom|done|done]. }
    destruct Hf as (Hn & Hset & _). split_and!; [|done|].
    + intros H. apply Hn. eapply names_calm; [apply same_revisions_refl|exact H|done].
    + revert E3. unfold applyFailed. intros E3.
      eapply (wp_run _ (fun err _ => ae_Code err = applyCodeApplyFailed) anywhere); [|exact E3].
      apply wp_bind, wp_intro; [|done]. intros b s4 _. apply wp_bind, wp_intro; [|done]. intros _ s5 _. by apply wp_ret.
  - apply ep_ask. eapply wp_mono_post; [apply applySucceeded_spec; by apply Hruns|]. cbn.
    destruct Hfrom as (Hd & _ & _). rewrite Hd. intros v s3 (Hset & (rev & Hb & _ & Hrev) & Hv & Hl). split; [|done].
    split; [done| |done]. exists rev. by rewrite Hv.
Qed.

(** How [runApply] ends. *)
Lemma runApply_spec ctx req s :
  wp (runApply ctx req) (fun v s' =>
    match v with
    | inl e =>
        (still s s' \/ (ae_Code e = applyCodeApplyFailed /\ routingIsOff (rec s) = false /\ (named s -> named s') /\
                        (ae_RolledBack e = Some true -> settled_on (rec s') (world s'))))
    | inr v => applied_well s' (ar_Rev v) (ar_Saved v) /\ routingIsOff (rec s) = false /\
        exists d, passed ctx req s d /\ ar_Rev v = DesiredRev d
    end) anywhere s.
Proof.
  unfold runApply. apply wp_bind. eapply still_lift; [apply (law_tryLock FL)|apply still_refl|]. intros got s1 H1.
  destruct got; cbn [negb]; [|apply wp_ret; by left]. apply wp_bind. eapply (still_stage _ _ s); [done|]. clear s1 H1. intros s1 H1.
  apply wp_bind. eapply (wp_mono_post _ (fun v s' =>
    match v with
    | inl e =>
        (still s s' \/ (ae_Code e = applyCodeApplyFailed /\ routingIsOff (rec s) = false /\ (named s -> named s') /\
                        (ae_RolledBack e = Some true -> settled_on (rec s') (world s'))))
    | inr v => applied_well s' (ar_Rev v) (ar_Saved v) /\ routingIsOff (rec s) = false /\
        exists d, passed ctx req s d /\ ar_Rev v = DesiredRev d
    end)).
  2:{ intros v s2 Hv. apply wp_bind, wp_modify, wp_ret. destruct v as [e|v]; [|destruct Hv as [[] Hv]; by split; [split|]].
      destruct Hv as [[Hc Hr]|Hv]; [by left|by right]. }
  unfold applyLocked. apply ep_bind. eapply ep_mono; [apply reviewed_spec| |].
  2:{ cbn. intros e s2 H2. left. by eapply still_trans. }
  intros d s2 (H2 & Hoff & Hpass). apply ep_bind. pose proof (still_trans _ _ _ H1 H2) as H02.
  eapply ep_mono; [apply prepared_spec| |].
  2:{ cbn. intros e s3 H3. left. by eapply still_trans. }
  intros p s3 [H3 Hfrom]. pose proof (still_trans _ _ _ H02 H3) as H03.
  assert (Hoff3 : routingIsOff (rec s3) = false).
  { destruct H3 as [_ Hr3]. by destruct (same_supervised _ _ Hr3) as (_ & _ & _ & ->). }
  eapply ep_mono; [by eapply executed_spec| |].
  - intros v s4 [[Ha Hb Hc] Hrev]. split_and!; [done| |].
    + destruct H03 as [_ Hr]. destruct (same_supervised _ _ Hr) as (_ & _ & _ & <-). done.
    + exists d. split; [|done]. destruct Hpass as (Hq & Hv & sa & sb & fs & Hsa & ?). split_and!; [done|done|].
      exists sa, sb, fs. split; [eapply still_trans; [exact H1|exact Hsa]|done].
  - cbn. intros e s4 (Hn & Hset & Hcode). right. split_and!; [done| | |done].
    + destruct H03 as [_ Hr]. by destruct (same_supervised _ _ Hr) as (_ & _ & _ & <-).
    + intros H. apply Hn. by eapply still_named.
Qed.
End inv.
