(* ===== verification/ApplyControlInv.v ===== *)
(** * What an operation leaves alone, even where it dies

    [keeps P m]: whatever [m] answers, and wherever the daemon dies in it, the state is related by [P] to
    the one it started from. A relation over the record and its file ([Bookish]) is kept by everything that
    writes neither; what is left to see is each write of the record.

    Further on: keep, Roll back, the switch and boot keep the record true; the routing switch and boot. *)
From S2P Require Import Prelude Failsafe GoStrings PbrPlan Model PbrLists GenSplit ApplyPlan ApplyRecord.
From S2P Require Import ApplyExec ApplyExecFacts ApplyServer ApplyControl ApplyInv.
Local Open Scope Z_scope.

Create HintDb frame_db.

Section frame.
Context {Car : Carriers} {R : Router} {F : Front}.
Implicit Types (s : Server).

Definition keeps {A} (P : Server -> Server -> Prop) (m : C Server A) : Prop := forall s, wp m (fun _ s' => P s s') (P s) s.

Class Bookish (P : Server -> Server -> Prop) : Prop := {
  bk_books s s' : rec s' = rec s -> disk s' = disk s -> P s s';
  bk_save s s' : rec s' = rec s -> disk s' = Some (rec s) -> P s s';
  bk_trans s1 s2 s3 : P s1 s2 -> P s2 s3 -> P s1 s3
}.

Section rules.
Context (P : Server -> Server -> Prop) {BP : Bookish P}.
Lemma keeps_ret {A} (a : A) : keeps P (mret a).
Proof. intros s. by apply wp_ret, bk_books. Qed.
Lemma keeps_gets {A} (f : Server -> A) : keeps P (gets f).
Proof. intros s. by apply wp_gets, bk_books. Qed.
Lemma keeps_modify (f : Server -> Server) : (forall s, rec (f s) = rec s /\ disk (f s) = disk s) -> keeps P (modify f).
Proof. intros H s. destruct (H s) as [Hr Hd]. apply wp_modify. exact (bk_books s (f s) Hr Hd). Qed.
Lemma keeps_bind {A B} (m : C Server A) (k : A -> C Server B) : keeps P m -> (forall a, keeps P (k a)) -> keeps P (m ≫= k).
Proof.
  intros Hm Hk s. apply wp_bind. eapply wp_mono; [apply Hm| |done]. intros a s1 H1.
  eapply wp_mono; [apply Hk| |]; cbn in *; intros; eapply bk_trans; eauto.
Qed.
Lemma keeps_lift {A} (o : Op A) : keeps P (lift o).
Proof. intros s. unfold wp, lift. destruct (o (world s)) as [[a|] w]; by apply bk_books. Qed.
Lemma keeps_E {A B} (x : E A) (k : A -> E B) : keeps P (x : C Server (applyError + A)) -> (forall a, keeps P (k a : C Server (applyError + B))) ->
  keeps P (x ≫= k : C Server (applyError + B)).
Proof. intros Hx Hk. unfold mbind, E_bind. apply keeps_bind; [done|]. intros [e|a]; [apply keeps_ret|apply Hk]. Qed.
Lemma keeps_X {A B} (x : X A) (k : A -> X B) r : (forall r, keeps P (x r)) -> (forall a r, keeps P (k a r)) -> keeps P ((x ≫= k) r).
Proof. intros Hx Hk. unfold mbind, X_bind. apply keeps_bind; [apply Hx|]. intros [r' [e|a]]; cbn; [apply keeps_ret|apply Hk]. Qed.
End rules.
End frame.

(** One step towards [keeps]: a bind, a pure part, a case. *)
Ltac keeps_step :=
  match goal with
  | |- keeps _ (mret _) => apply keeps_ret; assumption
  | |- keeps _ (gets _) => apply keeps_gets; assumption
  | |- keeps _ (lift _) => apply keeps_lift; assumption
  | |- keeps _ (setStage _) => apply keeps_modify; [assumption|done]
  | |- keeps _ (markKernelPlane _) => apply keeps_modify; [assumption|done]
  | |- keeps _ (flushStaleFlows _ _) => apply keeps_modify; [assumption|done]
  | |- keeps _ (on_failsafe _) => apply keeps_modify; [assumption|done]
  | |- keeps _ (time_now) => apply keeps_gets; assumption
  | |- keeps _ (ask _) => unfold ask
  | |- keeps _ (reject _) => apply keeps_ret; assumption
  | |- keeps _ (refuse_when ?b _) => unfold refuse_when; destruct b
  | |- keeps _ (or_reject _ ?v) => unfold or_reject; destruct v
  | |- keeps _ (when ?b _) => unfold when; destruct b
  | |- keeps _ (@mbind (C Server) _ _ _ _ _) => apply keeps_bind; [assumption| |intros ?]
  | |- keeps _ (@mbind E _ _ _ _ _) => apply keeps_E; [assumption| |intros ?]
  | |- keeps _ (@mbind X _ _ _ _ _ _) => apply keeps_X; [assumption|intros ?|intros ? ?]
  | |- keeps _ (@mret X _ _ _ _) => apply keeps_ret; assumption
  | |- keeps _ (@mret E _ _ _) => apply keeps_ret; assumption
  | |- keeps _ (let _ := _ in _) => cbv zeta
  | |- keeps _ (match ?x with _ => _ end) => destruct x
  | |- keeps _ ((match ?x with _ => _ end) _) => destruct x
  | |- keeps _ _ => solve [eauto with frame_db]
  end.
Ltac keeps_all := repeat keeps_step.

Section ops.
Context {Car : Carriers} {R : Router} {F : Front}.
Implicit Types (s : Server).
Context (P : Server -> Server -> Prop) {BP : Bookish P}.

Lemma keeps_step_ ctx name run r : (forall r, keeps P (run r)) -> keeps P (step ctx name run r).
Proof. intros H. unfold step. keeps_all. Qed.
Lemma keeps_run_op (m : C Server (option OpErr)) r : keeps P m -> keeps P (run_op m r).
Proof. intros H. unfold run_op. keeps_all. Qed.
Lemma keeps_postcheck ctx ops running m : keeps P (postcheckMaterialization ctx ops running m).
Proof. unfold postcheckMaterialization, check_with. keeps_all. Qed.
Lemma keeps_run_planes ctx ops fc fk fp fr m previous r : keeps P (planes ctx ops fc fk fp fr m previous r).
Proof.
  assert (Hs : forall name run r, (forall r, keeps P (run r)) -> keeps P (step ctx name run r)) by (intros; by apply keeps_step_).
  assert (Hw : forall b (x : X unit) r, (forall r, keeps P (x r)) -> keeps P (x_when b x r)).
  { intros [] x r' Hx; [apply Hx|by apply keeps_ret]. }
  unfold planes, native_prepare, plugins_union, core_step, kernel_step, plugins_retire, native_commit, postcheck, fail_step.
  repeat (keeps_step || (apply Hw; intros ?) || (apply Hs; intros ?) || apply keeps_run_op || apply keeps_postcheck).
Qed.
Lemma keeps_execute ctx ops m previous : keeps P (executeMaterialization ctx ops m previous).
Proof. pose proof keeps_run_planes. unfold executeMaterialization. keeps_all. Qed.
Lemma keeps_teardown ctx ops m : keeps P (teardownMaterialization ctx ops m).
Proof. unfold teardownMaterialization, collect. keeps_all. Qed.
Lemma keeps_rollbackTo ctx ops base failed : keeps P (rollbackTo ctx ops base failed).
Proof.
  pose proof keeps_execute as He. pose proof keeps_teardown as Ht. unfold rollbackTo, rollbackMaterialization, abort_target.
  repeat (keeps_step || apply He || apply Ht).
Qed.
Lemma keeps_buildPlan ctx : keeps P (buildPlan ctx).
Proof. unfold buildPlan. keeps_all. Qed.
Lemma keeps_converge ctx rev : keeps P (convergeLocked ctx rev).
Proof. pose proof keeps_execute. unfold convergeLocked. keeps_all. Qed.
Lemma keeps_arm rev : keeps P (armFailSafe rev).
Proof. apply keeps_modify; [done|]. intros s. by destruct (failsafe s). Qed.
End ops.

(** ** The writes *)
Section writes.
Context {Car : Carriers} {R : Router} {F : Front}.
Implicit Types (s : Server).
Context (P : Server -> Server -> Prop) {BP : Bookish P}.

(** Writing [f] of the record in memory is within [P]. *)
Definition may_write (f : ApplyState -> ApplyState) : Prop := forall s, P s (s <| rec := f (rec s) |>).
Lemma keeps_persist : keeps P persistLocked.
Proof.
  intros s. unfold wp, persistLocked. destruct (saveRecord (rec s) (world s)) as [o w].
  destruct o as [[]|]; first [by apply bk_save|by apply bk_books].
Qed.
Lemma keeps_update f : may_write f -> keeps P (update f).
Proof. intros Hf. apply keeps_bind; [done|intros s; apply wp_modify, Hf|intros _; apply keeps_persist]. Qed.
Lemma keeps_update_some (f : ApplyState -> option ApplyState) :
  (forall s r, f (rec s) = Some r -> P s (s <| rec := r |>)) -> keeps P (update_some f).
Proof.
  intros Hf s. unfold update_some. apply wp_bind, wp_gets. destruct (f (rec s)) as [r|] eqn:E; [|by apply keeps_ret].
  unfold update. apply wp_bind, wp_modify. pose proof (keeps_persist (s <| rec := r |>)) as Hp.
  eapply wp_mono; [exact Hp|cbn|cbn]; intros; (eapply bk_trans; [by apply Hf|done]).
Qed.

(** The writes of an Apply that do not commit, and of the rollbacks. *)
Class TestWrites : Prop := {
  tw_note live plane msg s r : noteRollbackFailed live plane msg (rec s) = Some r -> P s (s <| rec := r |>);
  tw_live rev boot plane msg : may_write (noteLiveRollbackOutstanding rev boot plane msg);
  tw_applied rev boot t : may_write (recordApplied false rev boot t);
  tw_rollback : may_write recordRollback;
  tw_failure rev msg t : may_write (recordFailure rev msg t);
  tw_flight save rev t : may_write (setInFlight save rev t);
  tw_acks ids acked t s r : setAcks ids acked t (rec s) = Some r -> P s (s <| rec := r |>)
}.
Context {TW : TestWrites}.

Lemma keeps_note live plane err : keeps P (noteRollbackFailed_ live plane err).
Proof. apply keeps_update_some. intros s r. apply tw_note. Qed.
Lemma keeps_noteLive rev plane err : keeps P (noteLiveRollbackOutstanding_ rev plane err).
Proof. apply keeps_bind; [done|by apply keeps_gets|]. intros w. apply keeps_update, tw_live. Qed.
Lemma keeps_failure rev msg : keeps P (recordFailure_ rev msg).
Proof. apply keeps_bind; [done|by apply keeps_gets|]. intros t. apply keeps_update, tw_failure. Qed.
Lemma keeps_flight save rev : keeps P (setInFlight_ save rev).
Proof. apply keeps_bind; [done|by apply keeps_gets|]. intros t. apply keeps_update, tw_flight. Qed.
Lemma keeps_acks ids acked : keeps P (setAcks_ ids acked).
Proof.
  unfold setAcks_. case_bool_decide; [by apply keeps_ret|]. apply keeps_bind; [done|by apply keeps_gets|]. intros t.
  apply keeps_update_some. intros s r. apply tw_acks.
Qed.
Lemma keeps_recordRollback : keeps P (update recordRollback).
Proof. apply keeps_update, tw_rollback. Qed.
Lemma keeps_recordApplied save rev : (save = true -> forall boot t, may_write (recordApplied true rev boot t)) -> keeps P (recordApplied_ save rev).
Proof.
  intros Hs. apply keeps_bind; [done|by apply keeps_gets|]. intros w. apply keeps_update. destruct save; [by apply Hs|apply tw_applied].
Qed.

Lemma keeps_failed ctx p (r : applyExecResult) e : keeps P (applyFailed ctx p r e).
Proof.
  pose proof keeps_note. pose proof keeps_noteLive. pose proof keeps_failure. pose proof keeps_recordRollback.
  pose proof (keeps_rollbackTo P) as Hr. unfold applyFailed, rolled_back_or_noted, roll_back_apply, note_failed_rollback.
  repeat (keeps_step || apply Hr).
Qed.
Lemma keeps_succeeded ctx req p (r : applyExecResult) :
  (q_Save req = true -> forall rev boot t, may_write (recordApplied true rev boot t)) -> keeps P (applySucceeded ctx req p r).
Proof.
  intros Hs. pose proof (keeps_arm P) as Ha. unfold applySucceeded. cbv zeta.
  do 4 (apply keeps_bind; [done|keeps_all|intros ?]).
  destruct (q_Save req) eqn:Eq.
  - apply keeps_bind; [done|keeps_all|intros v]. apply keeps_bind; [done|apply keeps_recordApplied; intros _; by apply Hs|intros ?].
    keeps_all.
  - match goal with |- keeps _ (mret ?v ≫= ?k) => change (keeps P (k v)) end. cbv beta iota.
    apply keeps_bind; [done|by apply keeps_recordApplied|intros ?]. keeps_all.
Qed.
(** A whole Apply; one that saves also commits. *)
Lemma keeps_runApply ctx req :
  (q_Save req = true -> forall rev boot t, may_write (recordApplied true rev boot t)) -> keeps P (runApply ctx req).
Proof.
  intros Hs. pose proof keeps_acks. pose proof keeps_failed. pose proof keeps_flight. pose proof (keeps_buildPlan P).
  pose proof (keeps_execute P) as He. pose proof (fun p r => keeps_succeeded ctx req p r Hs).
  unfold runApply, applyLocked, reviewed, prepared, executed. repeat (keeps_step || apply He).
Qed.
Lemma keeps_windowRollback e live : keeps P (windowRollback e live).
Proof.
  pose proof keeps_note. pose proof keeps_recordRollback. pose proof (keeps_rollbackTo P) as Hr.
  unfold windowRollback. repeat (keeps_step || apply Hr).
Qed.
Lemma keeps_applyRollback ctx window : keeps P (applyRollback ctx window).
Proof.
  pose proof keeps_note. pose proof keeps_recordRollback. pose proof (keeps_rollbackTo P) as Hr. pose proof keeps_windowRollback.
  unfold applyRollback, rollback_window, rollback_live, RollbackNow. repeat (keeps_step || apply Hr).
Qed.
Lemma keeps_reconcile ctx : keeps P (reconcileKernelPlane ctx).
Proof. unfold reconcileKernelPlane, plane_missing. keeps_all. Qed.
Lemma keeps_install ctx : keeps P (convergeAfterInstall ctx).
Proof. pose proof (keeps_converge P) as Hc. unfold convergeAfterInstall. repeat (keeps_step || apply Hc). Qed.
End writes.

(** ** What is kept *)
Section kept.
Context {Car : Carriers} {R : Router} {F : Front}.
Implicit Types (s : Server).

(** The switch. *)
Definition switch_kept s s' : Prop := RoutingOff (rec s') = RoutingOff (rec s).
#[export] Instance switch_bookish : Bookish switch_kept.
Proof. unfold switch_kept. split; [by intros ?? ->|by intros ?? ->|]. intros s1 s2 s3 -> ->. done. Qed.
Lemma setAcks_kept ids acked t r r' : setAcks ids acked t r = Some r' ->
  Committed r' = Committed r /\ RoutingOff r' = RoutingOff r.
Proof. unfold setAcks. destruct (foldl _ _ _) as [acks []]; [|done]. by intros [= <-]. Qed.
Lemma note_kept live plane msg r r' : noteRollbackFailed live plane msg r = Some r' ->
  Committed r' = Committed r /\ RoutingOff r' = RoutingOff r.
Proof. unfold noteRollbackFailed. destruct live; [|done]. case_match; [|done]. by intros [= <-]. Qed.
#[export] Instance switch_writes : TestWrites switch_kept.
Proof.
  assert (Hrec : forall s r, RoutingOff r = RoutingOff (rec s) -> switch_kept s (s <| rec := r |>)) by done.
  split.
  1: intros live plane msg s r H; apply note_kept in H as [_ H]; exact H.
  6: intros ids acked t s r H; apply setAcks_kept in H as [_ H]; exact H.
  all: by intros; intros s.
Qed.
Lemma switch_kept_runApply ctx req : keeps switch_kept (runApply ctx req).
Proof. apply keeps_runApply; [apply _..|]. by intros _ rev boot t s. Qed.

(** The committed configuration, in memory and on disk. *)
Definition committed_kept s s' : Prop :=
  Committed (rec s') = Committed (rec s) /\
  (disk s' = disk s \/ exists d, disk s' = Some d /\ Committed d = Committed (rec s)).
#[export] Instance committed_bookish : Bookish committed_kept.
Proof.
  unfold committed_kept. split.
  - intros s s' -> ->. by split; [|left].
  - intros s s' -> ->. split; [done|right]. by eexists.
  - intros s1 s2 s3 [H1 D1] [H2 D2]. split; [congruence|]. destruct D2 as [D2|(d & D2 & E)].
    + rewrite D2. destruct D1 as [D1|(d & D1 & E)]; [by left|right; by exists d].
    + right. exists d. split; [done|congruence].
Qed.
#[export] Instance committed_writes : TestWrites committed_kept.
Proof.
  assert (Hrec : forall s r, Committed r = Committed (rec s) -> committed_kept s (s <| rec := r |>)).
  { intros s r H. split; [exact H|by left]. }
  split.
  1: intros live plane msg s r H; apply Hrec; apply note_kept in H as [H _]; exact H.
  6: intros ids acked t s r H; apply Hrec; apply setAcks_kept in H as [H _]; exact H.
  all: intros; intros s; by apply Hrec.
Qed.
End kept.

(** * Keep, Roll back, the switch and boot keep the record true

    The invariant of [ApplyInv] through the operations of [ApplyControl], and that a boot
    attempt that finished establishes it from any state at all. *)

Section control.
Context {Car : Carriers} {R : Router} {V : RouterView} {F : Front} (Laws : RouterLaws ops) (FL : FrontLaws).
Implicit Types (s : Server) (w : World) (r : ApplyState).

(** With routing off the record has no Test: nothing may put one back. *)
Definition closed r : Prop := routingIsOff r = true -> Live r = None.
Definition well s : Prop := named s /\ closed (rec s).
Lemma still_well s s' : still s s' -> well s -> well s'.
Proof.
  intros Hs [Hn Hc]. split; [by eapply still_named|]. destruct Hs as [_ Hr]. unfold closed.
  destruct (same_supervised _ _ Hr) as (_ & _ & _ & ->). destruct Hr as (_ & -> & _). done.
Qed.
Lemma settled_well s : settled_on (rec s) (world s) -> closed (rec s) -> well s.
Proof. intros ??. split; [by apply settled_on_named|done]. Qed.

(** ** Keep *)
Lemma applyConfirm_spec ctx window s :
  wp (applyConfirm ctx window) (fun v s' =>
    (still s s' /\ rp_Committed v = false) \/
    (rp_Committed v = true /\ rollbackOutstanding (rec s) = None /\ calm (world s) (world s') /\ rec s' = recordCommit (rec s) /\
     exists live, Live (rec s) = Some live /\ other_window window (Some live) = false)) anywhere s.
Proof.
  unfold applyConfirm. apply wp_bind, wp_gets. destruct (Live (rec s)) as [live|] eqn:El; [|apply wp_ret; left; by split; [apply still_refl|]].
  destruct (other_window window (Some live)) eqn:Ew; [apply wp_ret; left; by split; [apply still_refl|]|].
  destruct (rollbackOutstanding (rec s)) as [o|] eqn:Eo; [apply wp_ret; left; by split; [apply still_refl|]|].
  apply wp_bind, wp_gets.
  apply (wp_seq _ _ (fun _ s' => calm (world s) (world s') /\ rec s' = rec s)).
  { destruct (m_Native _); [|apply wp_ret; by split; [apply calm_refl|]].
    destruct (persistNative ops) as [persist|] eqn:Ep; [|apply wp_ret; by split; [apply calm_refl|]].
    destruct (demoNow _); [apply wp_ret; by split; [apply calm_refl|]|]. apply wp_lift; [|done]. intros e w Ee.
    split; [by eapply (law_persist _ Laws)|done]. }
  intros e s1 [Hc1 Hr1]. destruct e as [e|].
  - apply wp_ret. left. split; [|done]. split; [done|by rewrite Hr1].
  - eapply wp_seq; [by apply update_spec|]. intros _ s2 [[Hr2 Hc2] _]. apply wp_bind, wp_modify, wp_ret. right.
    split_and!; try done; [by eapply calm_trans| |by exists live]. cbn. by rewrite Hr2, Hr1.
Qed.
Lemma commit_named r w : rollbackOutstanding r = None -> names_ r w -> names_ (recordCommit r) w.
Proof.
  intros Ho Hn. unfold recordCommit. destruct (Live r) as [l|] eqn:El.
  - intros Hoff. destruct (Hn Hoff) as [Hp Hc]. split.
    + intros rev Hrev. apply Hp. unfold supervisedBaseline. rewrite El, Ho. exact Hrev.
    + intros _ rev Hrev. apply Hc; [done|]. unfold appliedBaseline. rewrite El. exact Hrev.
  - intros Hoff. destruct (Hn Hoff) as [Hp Hc]. unfold supervisedBaseline, appliedBaseline in *. split.
    + intros rev Hrev. apply Hp. unfold supervisedBaseline. rewrite El. cbn in Hrev. unfold supervisedBaseline in Hrev. cbn in Hrev.
      by rewrite El in Hrev.
    + intros _ rev Hrev. apply Hc; [done|]. unfold appliedBaseline in *. cbn in Hrev. by rewrite El in *.
Qed.

(** ** Roll back *)
(** The rollback of the record's live revision to the committed one, and what is recorded of it. *)
Lemma note_same n l plane err Q D s : sameRevision (Some l) (Some n) = true ->
  wp (noteRollbackFailed_ (Some l) plane err) Q D s -> wp (noteRollbackFailed_ (Some n) plane err) Q D s.
Proof.
  cbn. intros [E1 E2]%andb_true_iff. apply bool_decide_eq_true in E1. apply Z.eqb_eq in E2.
  unfold noteRollbackFailed_, update_some. intros H. unfold wp, gets, mbind, C_bind in *.
  replace (noteRollbackFailed (Some n) plane (outputTail (rollback_msg err) 512) (rec s))
    with (noteRollbackFailed (Some l) plane (outputTail (rollback_msg err) 512) (rec s)); [done|].
  unfold noteRollbackFailed, sameRevision. by rewrite E1, E2.
Qed.
Lemma rollback_recorded {A} (bad : RollbackErr -> A) (good : A) ctx live n s (Hl : Live (rec s) = Some live)
    (Hsame : sameRevision (Some live) (Some n) = true) m :
  wp (v ← rollbackTo ctx ops (Committed (rec s)) (Some m);
      match v.2 with
      | Some err => _ ← noteRollbackFailed_ (Some n) v.1 err; mret (bad err)
      | None => _ ← update recordRollback; mret good
      end)
    (fun v s' => (named s -> routingIsOff (rec s) = false -> named s') /\ RoutingOff (rec s') = RoutingOff (rec s) /\
       ((exists e, v = bad e) \/ (v = good /\ settled_on (rec s') (world s') /\ Live (rec s') = None))) anywhere s.
Proof.
  eapply wp_seq; [eapply wp_mono; [by apply rollbackTo_spec|by intros ?? H; exact H|done]|].
  intros [plane_ err] s1 [Hr Ho]. cbn in *. destruct (only_router_books _ _ Ho) as [Hrec _].
  assert (Hlive1 : Live (rec s1) = Some live) by (by rewrite Hrec).
  destruct err as [err|].
  - apply (wp_seq _ _ (fun _ s' => (named s -> routingIsOff (rec s) = false -> named s') /\ RoutingOff (rec s') = RoutingOff (rec s))).
    2:{ intros _ s2 [??]. apply wp_ret. split_and!; [done|done|left; by exists err]. }
    apply (note_same _ _ _ _ _ _ _ Hsame). apply wp_intro; [|done]. intros u s2 E. split.
    + intros Hn Hoff. destruct (Hn Hoff) as [Hp _].
      eapply (wp_run _ (fun _ s' => named s') anywhere); [|exact E]. apply note_failed_named; [done..| |].
      * intros ->. rewrite Hrec. destruct (rollbackOutstanding (rec s)) as [prev|] eqn:Eo.
        -- destruct (supervised_marked _ _ _ _ Hp Hl Eo) as [Ha Hb].
           pose proof (rolled_tested _ _ _ _ Hr eq_refl) as Hk. split; intros; eapply in_place_keeps; eauto.
        -- eapply in_place_keeps; [|by eapply rolled_tested]. intros ??. apply Hp; [|done|done].
           unfold supervisedBaseline. by rewrite Hl, Eo.
      * intros -> c Hc. eapply rolled_in_place; [exact Hr|by rewrite <- Hrec|done].
    + eapply (wp_run _ (fun _ s' => RoutingOff (rec s') = RoutingOff (rec s)) anywhere); [|exact E].
      eapply wp_mono_post; [by apply update_some_spec|]. intros _ s' (-> & _ & _). rewrite <- Hrec.
      unfold noteRollbackFailed. rewrite Hlive1. by destruct (sameRevision _ _).
  - eapply wp_seq; [by apply update_spec|]. intros _ s2 [[Hr2 Hc2] _]. apply wp_ret.
    assert (Hset : settled_on (rec s2) (world s2)).
    { split; [by rewrite Hr2|]. intros rev Hrev Hreal. eapply runs_calm; [|exact Hc2]. eapply rolled_none; [exact Hr| |done|done].
      rewrite Hr2, Hrec in Hrev. exact Hrev. }
    split_and!; [intros _ _; by apply settled_on_named|by rewrite Hr2, Hrec|right; split_and!; [done|done|by rewrite Hr2]].
Qed.

(** What a rollback that is over leaves: a true record, the same switch, and a settled router when it did it. *)
Definition rolled_to (s s' : Server) (did : Prop) : Prop :=
  (named s -> routingIsOff (rec s) = false -> named s') /\ RoutingOff (rec s') = RoutingOff (rec s) /\
  (did -> settled_on (rec s') (world s') /\ Live (rec s') = None) /\ is_Some (Live (rec s)).
Lemma rolled_to_well s s' did : rolled_to s s' did -> well s -> well s'.
Proof.
  intros (Hn & Ho & _ & [l Hl]) [Hw Hc].
  assert (Hoff : routingIsOff (rec s) = false).
  { destruct (routingIsOff (rec s)) eqn:E; [|done]. unfold closed in Hc. rewrite (Hc E) in Hl. done. }
  split; [by apply Hn|]. unfold closed, routingIsOff in *. rewrite Ho. by destruct (RoutingOff (rec s)).
Qed.
Lemma still_or_rolled s s' did : still s s' \/ rolled_to s s' did -> well s -> well s'.
Proof. intros [?|?]; [by apply still_well|by eapply rolled_to_well]. Qed.
Lemma windowRollback_spec e live s :
  wp (windowRollback e live) (fun v s' =>
    still s s' \/ rolled_to s s' (v = None)) anywhere s.
Proof.
  unfold windowRollback. apply wp_bind, wp_gets, wp_bind, wp_gets.
  destruct (negb _); [apply wp_ret; left; apply still_refl|].
  destruct (routingIsOff (rec s)) eqn:Eo; [apply wp_ret; left; apply still_refl|].
  destruct (negb (sameRevision _ _)) eqn:Es; [apply wp_ret; left; apply still_refl|].
  apply negb_false_iff in Es. destruct (Live (rec s)) as [l|] eqn:El; [|done].
  eapply wp_mono_post.
  - by eapply (rollback_recorded (fun err => Some (ErrOther (rollback_msg err))) None _ l live s El).
  - intros v s' (Hn & Hro & Hv). right. split_and!; [done|done| |by rewrite El]. intros ->. by destruct Hv as [[??]|(_ & ?)].
Qed.

Lemma rollback_live_spec ctx window s :
  wp (rollback_live ctx window) (fun v s' => still s s' /\ rp_RolledBack v <> Some true \/ rolled_to s s' (rp_RolledBack v = Some true)) anywhere s.
Proof.
  unfold rollback_live. apply wp_bind, wp_gets. destruct (Live (rec s)) as [live|] eqn:El;
    [|apply wp_ret; left; by split; [apply still_refl|]].
  destruct (other_window _ _); [apply wp_ret; left; by split; [apply still_refl|]|].
  eapply wp_mono_post.
  - by eapply (rollback_recorded (fun err => mkReply 500 applyCodeApplyFailed false (Some false) "" (rollback_msg err))
      (mkReply 200 "" false (Some true) "" "") ctx live live s El (sameRevision_refl live)).
  - intros v s' (Hn & Hro & Hv). right. split_and!; [done|done| |by rewrite El]. intros Hv'. destruct Hv as [[? ->]|(_ & ?)]; done.
Qed.
Lemma RollbackNow_well m only s : wp (RollbackNow m only) (fun _ s' => well s -> well s') anywhere s.
Proof.
  unfold RollbackNow. destruct (rollbackNow_start _ _ _) as [e|m'|m' ep rb]; [by apply wp_ret|by apply wp_bind, wp_modify, wp_ret|].
  apply wp_bind, wp_modify, wp_bind, wp_gets.
  apply (wp_seq _ _ (fun _ s' => well s -> well s')).
  - destruct (e ← rb; _) as [[e live]|]; [|by apply wp_ret].
    eapply wp_mono_post; [apply windowRollback_spec|]. intros v s' H Hw. by eapply (still_or_rolled _ _ _ H).
  - intros err s1 H1. apply wp_bind, wp_gets. destruct (failsafe s1) as [m1|]; [|by apply wp_ret].
    destruct (rollbackNow_settle m1 ep err). by apply wp_bind, wp_modify, wp_ret.
Qed.
Lemma applyRollback_well ctx window s : wp (applyRollback ctx window) (fun _ s' => well s -> well s') anywhere s.
Proof.
  assert (Hlive : wp (rollback_live ctx window) (fun _ s' => well s -> well s') anywhere s).
  { eapply wp_mono_post; [apply rollback_live_spec|]. intros v s' H Hw. destruct H as [[H _]|H]; [by eapply still_well|by eapply rolled_to_well]. }
  unfold applyRollback. apply wp_bind, wp_gets. destruct (failsafe s) as [m|]; [|done]. destruct (pending m); [|done].
  unfold rollback_window. apply wp_bind, wp_gets. destruct (_ && _); [by apply wp_ret|].
  eapply wp_seq; [apply RollbackNow_well|]. intros v s' H. apply wp_bind, wp_gets. by apply wp_ret.
Qed.

(** ** Converging *)
Lemma converge_planes m : same_planes (convergeMaterialization m) m.
Proof.
  unfold convergeMaterialization, same_planes. cbn. destruct (absent (k_Action (m_Kernel m))) eqn:E; cbn; split_and!; try done.
  intros Hp. unfold kernel_present, absent in *. apply bool_decide_eq_true in E, Hp. by rewrite E in Hp.
Qed.
Lemma convergeLocked_spec ctx rev s :
  wp (convergeLocked ctx rev) (fun e s' => only_router s s' /\
    (e = None -> real (rv_Materialization rev) = true -> runs (rv_Materialization rev) (world s'))) anywhere s.
Proof.
  unfold convergeLocked. apply wp_bind, wp_modify, wp_bind. eapply wp_mono; [by apply execute_spec| |done].
  intros [r e] s1 (_ & Hruns & How). cbn in *. apply wp_bind.
  apply (wp_mono_post _ (fun _ s2 => world s2 = world s1 /\ only_router s s2)).
  { assert (Ho : only_router s s1).
    { eapply only_router_trans; [|by apply only_world_router]. by destruct s. }
    destruct (_ && _); [apply wp_modify|by apply wp_ret]. split; [done|].
    eapply only_router_trans; [exact Ho|]. by destruct s1. }
  intros _ s2 [Hw2 Ho2]. apply wp_bind, wp_modify, wp_ret. cbn. split; [eapply only_router_trans; [exact Ho2|by destruct s2]|].
  intros -> Hreal. rewrite Hw2. eapply same_planes_runs; [apply converge_planes|]. apply Hruns; [done|].
  destruct (same_planes_real _ _ (converge_planes (rv_Materialization rev))) as [-> _]. done.
Qed.
Lemma plane_missing_spec ctx k post s :
  kernelPostcheck ops = Some post ->
  wp (plane_missing ctx k post) (fun b s' => rec s' = rec s /\ calm (world s) (world s') /\ (b = false -> whole (world s') (plane k))) anywhere s.
Proof.
  intros Hp. unfold plane_missing. apply wp_bind, wp_lift; [|done]. intros [e|] w Ew.
  - apply wp_ret. split_and!; [done|by eapply (law_kernel_postcheck _ Laws)|done].
  - apply wp_bind, wp_modify, wp_ret. split_and!; [done|by eapply (law_kernel_postcheck _ Laws)|].
    intros _. by eapply (law_present _ Laws).
Qed.
(** A tick that did what it had to leaves the supervised plane in, whatever was on the router. *)
Lemma reconcile_spec ctx s :
  wp (reconcileKernelPlane ctx) (fun b s' => rec s' = rec s /\ same_core (world s) (world s') /\
    (b = true -> keeps_planes (world s) (world s') \/ plane_named (rec s) (world s'))) anywhere s.
Proof.
  unfold reconcileKernelPlane. apply wp_bind, wp_gets, wp_bind, wp_gets, wp_bind, wp_lift; [|done]. intros got w Ew.
  pose proof (law_tryLock FL _ _ _ _ Ew) as [Hs0 Hk0]. set (s0 := s <| world := w |>).
  assert (Hdone : forall b, wp (mret b) (fun b s' => rec s' = rec s /\ same_core (world s) (world s') /\
    (b = true -> keeps_planes (world s) (world s') \/ plane_named (rec s) (world s'))) anywhere s0).
  { intros b. apply wp_ret. split_and!; [done|done|by left]. }
  destruct (_ || _); [apply Hdone|]. destruct (supervisedBaseline (rec s)) as [base|] eqn:Eb; [|apply Hdone].
  destruct (kernelPostcheck ops) as [post|] eqn:Ep; [|apply Hdone]. destruct (kernel ops) as [install|] eqn:Ei; [|apply Hdone].
  destruct (negb (known _) || _) eqn:Ek; [apply Hdone|]. set (k := _ <| k_Retire := [] |>).
  assert (Hin : forall w, whole w (plane k) -> plane_named (rec s) w).
  { intros w' Hw rev Hrev _ _. rewrite Eb in Hrev. by injection Hrev as <-. }
  assert (Ht : forall a b c, same_core a b -> same_core b c -> same_core a c) by (unfold same_core; congruence).
  eapply wp_seq; [by apply plane_missing_spec|]. intros b s1 (Hr1 & [Hc1 _] & Hp1).
  pose proof (Ht _ _ _ Hs0 Hc1) as H1. destruct b; cbn [negb].
  2:{ apply wp_ret. split_and!; [by rewrite Hr1|done|right; by apply Hin, Hp1]. }
  apply wp_bind, wp_gets. case_bool_decide; [apply wp_ret; split_and!; [by rewrite Hr1|done|done]|].
  eapply wp_seq; [by apply plane_missing_spec|]. intros b s2 (Hr2 & [Hc2 _] & Hp2).
  pose proof (Ht _ _ _ H1 Hc2) as H2. destruct b; cbn [negb].
  2:{ apply wp_ret. split_and!; [by rewrite Hr2, Hr1|done|right; by apply Hin, Hp2]. }
  apply wp_bind, wp_modify, wp_bind, wp_lift; [|done]. intros e w3 E3. cbn in E3.
  destruct (law_kernel _ Laws _ _ _ _ _ _ _ Ei E3) as [Hc3 _]. pose proof (Ht _ _ _ H2 Hc3) as H3. destruct e as [e|].
  { apply wp_ret. cbn. split_and!; [by rewrite Hr2, Hr1|done|done]. }
  eapply wp_seq; [by apply plane_missing_spec|]. intros b s4 (Hr4 & [Hc4 _] & Hp4). apply wp_ret. cbn in *.
  split_and!; [by rewrite Hr4, Hr2, Hr1|exact (Ht _ _ _ H3 Hc4)|].
  intros Hb. apply negb_true_iff in Hb. right. by apply Hin, Hp4.
Qed.
Lemma reconcile_well ctx s : wp (reconcileKernelPlane ctx) (fun b s' => b = true -> well s -> well s') anywhere s.
Proof.
  eapply wp_mono_post; [apply reconcile_spec|]. intros b s' (Hr & Hc & Hk) Hb [Hn Hcl]. split; [|unfold closed; by rewrite Hr].
  unfold named. rewrite Hr. intros Hoff. destruct (Hn Hoff) as [Hp Hco]. split.
  - destruct (Hk Hb) as [Hkeep|]; [by eapply plane_named_keeps|done].
  - unfold core_named. by rewrite Hc.
Qed.
Lemma convergeAfterInstall_well ctx s :
  wp (convergeAfterInstall ctx) (fun v s' => forall b, v = inr b -> well s -> well s') anywhere s.
Proof.
  unfold convergeAfterInstall. apply wp_bind, wp_gets, wp_bind, wp_gets.
  destruct (routingIsOff (rec s)) eqn:Eo; [by apply wp_ret|]. destruct (appliedBaseline (rec s)) as [base|] eqn:Eb; [|by apply wp_ret].
  destruct (_ || _) eqn:Ec; [by apply wp_ret|]. eapply wp_seq; [apply convergeLocked_spec|].
  intros e s1 [Ho Hruns]. apply wp_ret. intros b Hv [_ Hcl]. destruct e as [e|]; [done|].
  destruct (only_router_books _ _ Ho) as [Hr _].
  repeat (apply orb_false_iff in Ec as [Ec ?]). apply settled_well; [|unfold closed; by rewrite Hr].
  rewrite Hr. split; [match goal with H : bool_decide (is_Some _) = false |- _ => apply bool_decide_eq_false in H; by apply eq_None_not_Some in H end|].
  intros rev Hrev Hreal. rewrite Eb in Hrev. injection Hrev as <-. by apply Hruns.
Qed.
End control.

(** * The routing switch and boot

    The switch keeps the invariant of the record, whatever fails in it; and a boot attempt that finished
    establishes it whatever the router and the record on disk were. Outside the demo. *)

Section switch.
Context {Car : Carriers} {R : Router} {V : RouterView} {F : Front} (Laws : RouterLaws ops) (FL : FrontLaws).
Context (NoDemo : forall w, demoNow w = false) (no_core : CoreArtifact).
Implicit Types (s : Server) (w : World) (r : ApplyState).

(** With routing off and no Test recorded the invariant holds whatever is on the router. *)
Definition is_off r : Prop := is_Some (RoutingOff r) /\ Live r = None.
Lemma is_off_well s : is_off (rec s) -> well s.
Proof.
  intros [[o Ho] Hl]. split; [|intros _; exact Hl]. intros Hoff. unfold routingIsOff in Hoff. by rewrite Ho in Hoff.
Qed.
Definition same_rec s s' : Prop := rec s' = rec s.
#[local] Instance same_rec_bookish : Bookish same_rec.
Proof. unfold same_rec. split; [done|done|]. intros s1 s2 s3 -> ->. done. Qed.
Lemma removeRouting_rec ctx revs s : wp (removeRouting no_core ctx revs) (fun _ s' => rec s' = rec s) anywhere s.
Proof.
  assert (Hk : keeps same_rec (removeRouting no_core ctx revs)).
  { pose proof same_rec_bookish as HB.
    assert (Hrev : keeps same_rec (foldr (fun rev k => e ← remove_revision ctx rev; es ← k; mret (e ++ es)) (mret []) revs)).
    { induction revs as [|rev revs IH]; cbn; [by apply keeps_ret|].
      unfold remove_revision, remove_kernel, remove_native, op_report, report in *. keeps_all. }
    unfold removeRouting, op_report, report. keeps_all. }
  eapply wp_mono; [apply Hk|done|done].
Qed.
Lemma publish_spec f s : wp (publish f) (fun _ s' => writes f s s' /\ failsafe s' = failsafe s) anywhere s.
Proof. unfold publish. eapply wp_seq; [by apply update_spec|]. intros u s' H. by apply wp_gets. Qed.

Lemma routingOff_off ctx by_ s : wp (routingOffLocked no_core ctx by_) (fun _ s' => is_off (rec s')) anywhere s.
Proof.
  unfold routingOffLocked. apply wp_bind, wp_modify, wp_bind, wp_modify, wp_bind, wp_gets, wp_bind, wp_gets.
  eapply wp_seq; [apply publish_spec|]. intros e s1 [[Hr _] _].
  assert (H1 : is_off (rec s1)) by (rewrite Hr; by split; [eexists|]). clear Hr. apply wp_bind, wp_gets. rewrite NoDemo.
  eapply wp_seq; [apply removeRouting_rec|]. intros es s2 Hr2. apply wp_bind, wp_modify.
  assert (H2 : is_off (rec s2)) by (by rewrite Hr2).
  assert (Hpub : forall off s, is_off (rec s) -> wp (publish (publishRoutingOff off false)) (fun _ s' => is_off (rec s')) anywhere s).
  { intros off s' [_ Hl]. eapply wp_mono_post; [apply publish_spec|]. intros _ s'' [[-> _] _]. by split; [eexists|]. }
  case_match.
  - eapply wp_seq; [by apply Hpub|]. intros ? s3 H3. by apply wp_ret.
  - apply (wp_seq _ _ (fun _ s' => is_off (rec s'))).
    { destruct (RoutingOff _); [|by apply wp_ret]. case_match; [by apply wp_ret|by apply Hpub]. }
    intros e3 s3 H3. apply (wp_seq _ _ (fun _ s' => is_off (rec s'))).
    { repeat case_match; first [by apply wp_modify|by apply wp_ret]. }
    intros ? s4 H4. by apply wp_ret.
Qed.

(** What a successful switch on has put back: the committed revision. *)
Lemma restore_spec ctx off committed s :
  wp (restore ctx off committed) (fun v s' => only_router s s' /\
    match v with
    | Back _ => (bool_decide (is_Some (really committed)) || bool_decide (is_Some (really (off_Leftover off))) = true) ->
        forall c, committed = Some c -> real (rv_Materialization c) = true -> runs (rv_Materialization c) (world s')
    | NotBack _ => True
    end) anywhere s.
Proof.
  unfold restore. destruct (really (off_Leftover off)) as [lft|] eqn:El.
  - eapply wp_seq; [eapply wp_mono; [by apply rollbackTo_spec|by intros ?? H; exact H|done]|].
    intros [plane_ err] s1 [Hr Ho]. apply wp_ret. split; [done|].
    assert (Hback : match err with None => true | Some e => onlyNativeLeftover e end = true ->
      forall c, committed = Some c -> real (rv_Materialization c) = true -> runs (rv_Materialization c) (world s1)).
    { intros He c -> Hreal. unfold rolled, base_of in Hr. cbn in Hr. pose proof Hreal as Hk. unfold real in Hk.
      apply andb_true_iff in Hk as [Hk _]. rewrite Hk in Hr. destruct Hr as (_ & _ & Hr). by apply Hr. }
    destruct err as [e|]; cbn in *; [|intros _; by apply Hback]. destruct (onlyNativeLeftover e) eqn:Ee; [|done].
    intros _. by apply Hback.
  - destruct committed as [c|]; [|apply wp_ret; split; [apply only_router_refl|done]].
    eapply wp_seq; [by apply convergeLocked_spec|]. intros e s1 [Ho Hruns]. destruct e as [e|].
    + apply wp_ret. by split.
    + apply wp_bind, wp_modify, wp_ret. split; [eapply only_router_trans; [exact Ho|apply only_router_world]|].
      intros _ c' [= <-] Hreal. eapply runs_calm; [by apply Hruns|apply (law_flush _ Laws)].
Qed.
Lemma switched_on_spec off leftoverErr s :
  Live (rec s) = None ->
  (forall c, Committed (rec s) = Some c -> real (rv_Materialization c) = true -> runs (rv_Materialization c) (world s)) ->
  wp (switched_on off leftoverErr) (fun _ s' => well s' /\ routingIsOff (rec s') = false) anywhere s.
Proof.
  intros Hl Hc. unfold switched_on. eapply wp_seq; [apply publish_spec|]. intros e s1 [[Hr Hcalm] _].
  assert (Hset : settled_on (rec s1) (world s1)).
  { rewrite Hr. split; [unfold rollbackOutstanding; cbn; rewrite Hl; by destruct (RollbackOutstanding _)|].
    unfold appliedBaseline. cbn. rewrite Hl. intros c Hcc Hreal. eapply runs_calm; [by eapply Hc|exact Hcalm]. }
  assert (Hoff1 : RoutingOff (rec s1) = None) by (by rewrite Hr).
  assert (Hw1 : well s1 /\ routingIsOff (rec s1) = false).
  { split; [|by unfold routingIsOff; rewrite Hoff1]. apply settled_well; [done|]. unfold closed, routingIsOff. by rewrite Hoff1. }
  apply (wp_seq _ _ (fun _ s' => well s' /\ routingIsOff (rec s') = false)); [|by intros ? s2 H2; apply wp_ret].
  destruct leftoverErr as [err|]; [|by apply wp_ret]. destruct (off_Leftover off) as [lft|]; [|by apply wp_ret].
  unfold noteLiveRollbackOutstanding_. apply wp_bind, wp_gets. eapply wp_mono_post; [by apply update_spec|].
  intros ? s2 [[Hr2 Hc2] _].
  destruct (live_marks (rec s1) lft (bootID (world s1)) rollbackPlaneCommitted (outputTail (rollback_msg err) 512)) as (o & Hm & Hpl & Hlv & Hcm).
  rewrite <- Hr2 in *.
  assert (Hoff2 : routingIsOff (rec s2) = false) by (rewrite Hr2; unfold routingIsOff; cbn; by rewrite Hoff1).
  split; [|done]. split; [|unfold closed; by rewrite Hoff2]. unfold named. apply (names_calm (rec s2) (rec s2) (world s1)); [done| |exact Hc2].
  apply (marked_names _ _ _ _ Hlv Hm); rewrite Hpl, ?Hcm; [done|]. intros _ c Hcc Hreal Hp.
  destruct Hset as [_ Hset]. apply Hset; [|done|done]. unfold appliedBaseline. rewrite Hr. cbn. rewrite Hl. by rewrite Hr in Hcc.
Qed.
Lemma routingOn_well ctx s : wp (routingOnLocked no_core ctx) (fun _ s' => well s -> well s') anywhere s.
Proof.
  apply wp_intro; [|done]. intros v s' E [Hn Hcl]. eapply (wp_run _ (fun _ s' => well s') anywhere); [|exact E].
  unfold routingOnLocked. apply wp_bind, wp_gets. destruct (RoutingOff (rec s)) as [off|] eqn:Eoff; [|by apply wp_ret].
  assert (Hl : Live (rec s) = None) by (apply Hcl; unfold routingIsOff; by rewrite Eoff).
  apply wp_bind, wp_modify, wp_bind, wp_gets. rewrite NoDemo. cbn [orb world rec].
  destruct (negb _) eqn:Eb.
  - eapply wp_mono_post; [apply switched_on_spec; [done|]|by intros ?? [? _]]. cbn. intros c Hc Hreal.
    apply negb_true_iff, orb_false_iff in Eb as [Eb _]. apply bool_decide_eq_false in Eb. destruct Eb.
    unfold really. rewrite Hc. cbn. change (runs_for_real (rv_Materialization c)) with (real (rv_Materialization c)). by rewrite Hreal.
  - apply negb_false_iff in Eb. eapply wp_seq; [apply restore_spec|]. intros v1 s1 [Ho Hback]. cbn in Ho.
    destruct (only_router_books _ _ Ho) as [Hr1 _]. cbn in Hr1. destruct v1 as [leftoverErr|msg].
    + apply (wp_seq _ _ (fun _ s2 => rec s2 = rec s /\ calm (world s1) (world s2))).
      { destruct (really _ ≫= _); [|apply wp_ret; by split; [|apply calm_refl]].
        destruct (nativeRoutingSave ops) as [save|] eqn:Es; [|apply wp_ret; by split; [|apply calm_refl]].
        apply wp_bind, wp_lift; [|done]. intros e w Ew. apply wp_ret. split; [done|by eapply (law_save _ Laws)]. }
      intros ? s2 [Hr2 Hc2]. eapply wp_mono_post; [apply switched_on_spec|by intros ?? [? _]]; rewrite Hr2; [done|].
      intros c Hc Hreal. eapply runs_calm; [|exact Hc2]. by eapply Hback.
    + eapply wp_seq; [apply removeRouting_rec|]. intros es s2 Hr2. apply wp_bind, wp_modify.
      eapply wp_seq; [apply publish_spec|]. intros e s3 [[Hr3 _] _]. apply wp_ret. apply is_off_well. rewrite Hr3. cbn. rewrite Hr2, Hr1.
      by split; [eexists|].
Qed.
Lemma setRouting_well ctx enabled by_ s : wp (setRouting no_core ctx enabled by_) (fun _ s' => well s -> well s') anywhere s.
Proof.
  unfold setRouting. apply wp_bind. eapply still_lift; [apply (law_tryLock FL)|apply still_refl|]. intros got s1 H1.
  destruct got; cbn [negb]; [|apply wp_ret; by apply still_well].
  apply (wp_seq _ _ (fun _ s' => well s -> well s')).
  - destruct enabled.
    + eapply wp_mono_post; [apply routingOn_well|]. intros v s' Hw Hs. apply Hw. by eapply still_well.
    + eapply wp_mono_post; [apply routingOff_off|]. intros v s' Hoff _. by apply is_off_well.
  - intros v s2 H2. by apply wp_bind, wp_modify, wp_ret.
Qed.
End switch.
