(* ===== verification/ApplyTheorems.v ===== *)
(** * What Apply promises

    The record of what was applied names what the router runs: a finished boot makes it true from any
    router and any record (so after a crash anywhere, or a reboot), and every operation after it keeps it
    true. What the answers say is true, a refusal leaves everything as it was, and no operation but a
    saving Apply and Keep ever touches the committed configuration.

    Further on: a router the laws hold for, and the witnesses. *)
From stdpp Require Import relations.
From S2P Require Import Prelude Failsafe GoStrings PbrPlan Model PbrLists GenSplit ApplyPlan ApplyRecord.
From S2P Require Import ApplyExec ApplyExecFacts ApplyServer ApplyControl ApplyInv ApplyControlInv.
Local Open Scope Z_scope.

Section system.
Context {Car : Carriers} {R : Router} {F : Front} (no_core : CoreArtifact).
Context (imported : World -> option Revision) (detectedPlatform : World -> string) (reapStrays : Op unit).

(** What happens to a running daemon, each with whether it did what it set out to: only the reconcile tick
    and the converge after an install may fail without the record saying so. *)
Inductive Event :=
| EvApply (ctx : Ctx) (req : applyRequest)
| EvKeep (ctx : Ctx) (window : string)
| EvRollback (ctx : Ctx) (window : string)
| EvWindow (epoch : Z) (live : Revision)
| EvSwitch (ctx : Ctx) (enabled : bool) (by_ : string)
| EvAck (ids : list string) (acked : bool)
| EvReconcile (ctx : Ctx)
| EvInstall (ctx : Ctx)
| EvFailsafe (f : Manager -> Manager).
Definition run_event (ev : Event) : C Server bool :=
  match ev with
  | EvApply ctx req => _ ← runApply ctx req; mret true
  | EvKeep ctx window => _ ← applyConfirm ctx window; mret true
  | EvRollback ctx window => _ ← applyRollback ctx window; mret true
  | EvWindow e live => _ ← windowRollback e live; mret true
  | EvSwitch ctx enabled by_ => _ ← setRouting no_core ctx enabled by_; mret true
  | EvAck ids acked => _ ← setAcks_ ids acked; mret true
  | EvReconcile ctx => reconcileKernelPlane ctx
  | EvInstall ctx => v ← convergeAfterInstall ctx; mret (match v with inr _ => true | inl _ => false end)
  | EvFailsafe f => _ ← on_failsafe f; mret true
  end.
Definition happens (s s' : Server) : Prop := exists ev, run_event ev s = (Some true, s').
(** A start of the daemon whose boot attempt finished. *)
Definition booted (s s' : Server) : Prop :=
  exists durations ctx kept s1, StartApply imported detectedPlatform reapStrays durations s = (Some tt, s1) /\
    bootAttempt no_core ctx (bootTask s1) true kept s1 = (Some true, s').
Inductive settled_state : Server -> Prop :=
| ss_boot s s' : booted s s' -> settled_state s'
| ss_step s s' : settled_state s -> happens s s' -> settled_state s'.

Section promises.
Context {V : RouterView} (Laws : RouterLaws ops) (FL : FrontLaws) (NoDemo : forall w, demoNow w = false).

(** What a start finds: a Test it means to roll back is recorded and routing is on; else no Test is. *)
Definition found (s : Server) : Prop :=
  match bootLive s with
  | Some l => Live (rec s) = Some l /\ routingIsOff (rec s) = false
  | None => Live (rec s) = None
  end.
Lemma StartApply_found durations s : wp (StartApply imported detectedPlatform reapStrays durations) (fun _ s' => found s') anywhere s.
Proof.
  unfold StartApply. apply wp_bind, wp_modify.
  apply (wp_seq _ _ (fun _ s' => bootLive s' = None)).
  { unfold stateLocked. apply wp_bind, wp_gets. destruct (disk _).
    - case_match; [by apply wp_modify|by apply wp_ret].
    - destruct (imported _); [|by apply wp_ret]. unfold update. apply wp_bind, wp_modify.
      unfold wp, persistLocked. destruct (saveRecord _ _) as [o w]. by destruct o as [[]|]. }
  intros _ s1 Hn. apply wp_bind, wp_gets. unfold id.
  apply (wp_seq _ _ (fun _ s2 => match bootLive s2 with Some l => Live (rec s2) = Some l /\ routingIsOff (rec s2) = false | None => True end)).
  { destruct (Live (rec s1)) as [l|] eqn:El; [|apply wp_ret; cbn; by rewrite Hn]. apply wp_modify. cbn.
    destruct (liveNeedsRollbackOnBoot detectedPlatform s1 l) eqn:Eb; [|done]. split; [done|].
    unfold liveNeedsRollbackOnBoot in Eb. destruct (_ || _) eqn:Eo; [done|]. by apply orb_false_iff in Eo as [_ ?]. }
  intros _ s2 H2. apply wp_bind, wp_gets.
  apply (wp_seq _ _ (fun _ s3 => found s3)); [|intros _ s3 H3; by apply wp_lift].
  apply wp_intro; [|done]. intros u s3 E. unfold update_some, gets in E. cbn in E.
  assert (Hb : bootLive s3 = bootLive s2 /\ rec s3 = default (rec s2) (discardLiveOnBoot (bool_decide (is_Some (bootLive s2))) (rec s2))).
  { unfold mbind, C_bind in E. destruct (discardLiveOnBoot _ (rec s2)) as [r|] eqn:Ed; [|by inversion E].
    unfold update, set_rec, modify, mbind, C_bind, persistLocked in E. cbn in E.
    destruct (saveRecord r (world s2)) as [o w]. destruct o as [[]|]; by inversion E. }
  destruct Hb as [Hb Hr]. unfold found. rewrite Hb, Hr. unfold discardLiveOnBoot.
  destruct (bootLive s2) as [l|]; [destruct H2 as [Hl Ho]|].
  - rewrite Hl. by split.
  - rewrite bool_decide_eq_false_2 by (by intros [? ?]). destruct (Live (rec s2)) eqn:El; [done|]. by destruct (InFlight (rec s2)).
Qed.
Lemma boot_converge_well ctx c same s :
  Live (rec s) = None -> Committed (rec s) = Some c -> routingIsOff (rec s) = false -> same = true ->
  wp (convergeOnBootOnce ctx c same) (fun b s' => b = true -> well s') anywhere s.
Proof.
  intros Hl Hc Hoff ->. unfold convergeOnBootOnce. apply wp_bind, wp_gets. rewrite Hoff, Hl. cbn [negb orb].
  rewrite bool_decide_eq_false_2 by (by intros [? ?]). eapply wp_seq; [by apply convergeLocked_spec|].
  intros e s1 [Ho Hruns]. destruct e as [e|]; [by apply wp_ret|]. destruct (only_router_books _ _ Ho) as [Hr _].
  apply wp_bind, wp_gets. apply (wp_seq _ _ (fun _ s2 => rec s2 = rec s1 /\ calm (world s1) (world s2))).
  { destruct (bootDroppedPlan s1); [apply wp_modify|apply wp_ret]; (split; [done|]); [apply (law_flush _ Laws)|apply calm_refl]. }
  intros _ s2 [Hr2 Hc2]. apply wp_ret. intros _. apply settled_well; rewrite Hr2, Hr.
  - split; [unfold rollbackOutstanding; rewrite Hl; by destruct (RollbackOutstanding _)|].
    unfold appliedBaseline. rewrite Hl, Hc. intros rev [= <-] Hreal. eapply runs_calm; [by apply Hruns|done].
  - unfold closed. by rewrite Hoff.
Qed.
Lemma boot_well ctx kept s :
  found s -> wp (bootAttempt no_core ctx (bootTask s) true kept) (fun b s' => b = true -> well s') anywhere s.
Proof.
  intros Hf. unfold bootTask, found in *. destruct (routingIsOff (rec s)) eqn:Eoff.
  - assert (Hl : Live (rec s) = None) by (destruct (bootLive s); [by destruct Hf|done]).
    assert (Ho : is_off (rec s)). { split; [|done]. unfold routingIsOff in Eoff. destruct (RoutingOff (rec s)); [by eexists|done]. }
    cbn. apply wp_bind, wp_gets. rewrite NoDemo. unfold reassertRoutingOff. apply wp_bind, wp_bind, wp_gets.
    destruct (RoutingOff (rec s)) as [off|] eqn:E; [|destruct Ho as [[x Hx] _]; congruence].
    eapply wp_seq; [by apply removeRouting_rec|]. intros es s1 Hr1. apply wp_bind, wp_modify.
    apply (wp_seq _ _ (fun _ s2 => is_off (rec s2))); [|intros ? s2 H2; apply wp_ret, wp_ret; intros _; by apply is_off_well].
    assert (H1 : is_off (rec s1)) by (by rewrite Hr1).
    repeat case_match; try (by apply wp_ret);
      (eapply wp_mono_post; [by apply update_spec|]; intros ? s2 [[-> _] _]; destruct H1; by split; [eexists|]).
  - destruct (bootLive s) as [l|] eqn:Eb.
    + destruct Hf as [Hl _]. cbn. unfold rollbackLiveOnBootOnce. apply wp_bind, wp_gets. rewrite Eoff. cbn [negb]. apply wp_bind, wp_modify.
      set (s0 := s <| applyStage := _ |>). change (rec s) with (rec s0).
      eapply wp_seq; [eapply wp_mono; [by apply rollbackTo_spec|by intros ?? H; exact H|done]|].
      intros [plane_ err] s1 [Hr Ho]. destruct (only_router_books _ _ Ho) as [Hrec _]. cbn in *.
      apply (wp_seq _ _ (fun b s2 => b = true -> well s2)).
      * destruct err as [err|]; [apply wp_bind, wp_intro; [|done]; intros; by apply wp_ret|].
        eapply wp_seq; [by apply update_spec|]. intros ? s2 [[Hr2 Hc2] _]. apply wp_ret. intros _. apply settled_well.
        -- split; [by rewrite Hr2|]. intros rev Hrev Hreal. eapply runs_calm; [|exact Hc2].
           eapply rolled_none; [exact Hr| |done|done]. rewrite Hr2, Hrec in Hrev. exact Hrev.
        -- unfold closed. by rewrite Hr2.
      * intros b s2 H2. by apply wp_bind, wp_modify, wp_ret.
    + destruct (Committed (rec s)) as [c|] eqn:Ec.
      * destruct (_ || _) eqn:En; [|by eapply boot_converge_well]. apply wp_ret. intros _. apply settled_well; [|unfold closed; by rewrite Eoff].
        split; [unfold rollbackOutstanding; rewrite Hf; by destruct (RollbackOutstanding _)|].
        unfold appliedBaseline. rewrite Hf, Ec. intros rev [= <-] Hreal. rewrite NoDemo in En. unfold real in Hreal.
        by destruct (known (rv_Materialization c)), (materializationIsDemo (rv_Materialization c)).
      * apply wp_ret. intros _. apply settled_well; [|unfold closed; by rewrite Eoff].
        split; [unfold rollbackOutstanding; rewrite Hf; by destruct (RollbackOutstanding _)|]. unfold appliedBaseline. by rewrite Hf, Ec.
Qed.

Lemma runApply_well ctx req s : wp (runApply ctx req) (fun _ s' => well s -> well s') anywhere s.
Proof.
  eapply wp_mono; [apply wp_and; [by apply (runApply_spec Laws FL)|apply (switch_kept_runApply ctx req s)]| |done]. cbn.
  intros v s' [Hv Hk] Hw. unfold switch_kept in Hk.
  assert (Hcl : routingIsOff (rec s) = false -> closed (rec s')).
  { unfold closed, routingIsOff. rewrite Hk. by destruct (RoutingOff (rec s)). }
  destruct v as [e|v].
  - destruct Hv as [Hs|(_ & Hoff & Hn & _)]; [by eapply still_well|]. split; [by apply Hn, Hw|by apply Hcl].
  - destruct Hv as ([Hset _ _] & Hoff & _). by apply settled_well; [|apply Hcl].
Qed.
Lemma applyConfirm_well ctx window s : wp (applyConfirm ctx window) (fun _ s' => well s -> well s') anywhere s.
Proof.
  eapply wp_mono_post; [by apply applyConfirm_spec|]. intros v s' [[Hs _]|(_ & Ho & Hc & Hr & _)]; [by apply still_well|].
  intros [Hn Hcl]. split.
  - unfold named. rewrite Hr. eapply names_calm; [apply same_revisions_refl|by apply commit_named|done].
  - unfold closed. rewrite Hr. unfold recordCommit. by destruct (Live (rec s)) eqn:El.
Qed.
Lemma wp_then {A} (m : C Server A) (k : A -> bool) (Q : A -> Server -> Prop) s s' :
  wp m Q anywhere s -> (v ← m; mret (k v)) s = (Some true, s') -> exists v, k v = true /\ Q v s'.
Proof. unfold wp, mbind, C_bind. destruct (m s) as [[v|] s1]; [|done]. intros H [= Hk <-]. by exists v. Qed.
Lemma happens_well s s' : happens s s' -> well s -> well s'.
Proof.
  intros [ev Hev] Hw. destruct ev; cbn in Hev.
  - destruct (wp_then _ _ _ _ _ (runApply_well ctx req s) Hev) as (_ & _ & H). by apply H.
  - destruct (wp_then _ _ _ _ _ (applyConfirm_well ctx window s) Hev) as (_ & _ & H). by apply H.
  - destruct (wp_then _ _ _ _ _ (applyRollback_well Laws FL ctx window s) Hev) as (_ & _ & H). by apply H.
  - destruct (wp_then _ _ _ _ _ (windowRollback_spec Laws FL epoch live s) Hev) as (v & _ & H). by eapply still_or_rolled.
  - destruct (wp_then _ _ _ _ _ (setRouting_well Laws FL NoDemo no_core ctx enabled by_ s) Hev) as (_ & _ & H). by apply H.
  - destruct (wp_then _ _ _ _ _ (setAcks_spec FL ids acked s) Hev) as (_ & _ & Hr & Hc & _).
    by eapply still_well; [split|].
  - pose proof (reconcile_well Laws FL ctx s) as H. unfold wp in H. rewrite Hev in H. by apply H.
  - destruct (wp_then _ _ _ _ _ (convergeAfterInstall_well Laws ctx s) Hev) as ([e|b] & Hb & H); [done|]. by eapply H.
  - unfold on_failsafe, modify, mbind, C_bind in Hev. cbn in Hev. by injection Hev as <-.
Qed.
Lemma settled_state_well s : settled_state s -> well s.
Proof.
  induction 1 as [s s' (d & ctx & kept & s1 & Hstart & Hboot)|s s' _ IH Hh]; [|by eapply happens_well].
  pose proof (StartApply_found d s) as H1. unfold wp in H1. rewrite Hstart in H1.
  pose proof (boot_well ctx kept s1 H1) as H2. unfold wp in H2. rewrite Hboot in H2. by apply H2.
Qed.

(** C1: the record names what the router runs. Start the daemon on any router and any record on disk, as a
    crash in the middle of an Apply or a reboot leaves them; once its boot attempt finished, and after
    whatever Applies, Keeps, rollbacks, fail-safe windows and switches follow, failed ones included: while
    routing is on, the kernel plane of the revision the supervision keeps installed is wholly in the
    kernel, and, unless a rollback is recorded as unfinished, the core was last told to run exactly what the
    applied revision says (its configuration, or not to run). The daemon is not in demo mode, whose
    revisions run nothing, and a reconcile tick or a converge after an install that failed, which the record
    does not tell, is left out. *)
Theorem record_names_what_runs s :
  settled_state s -> routingIsOff (rec s) = false ->
  (forall rev, supervisedBaseline (rec s) = Some rev -> real (rv_Materialization rev) = true ->
     kernel_present (rv_Materialization rev) = true -> whole (world s) (plane (m_Kernel (rv_Materialization rev)))) /\
  (rollbackOutstanding (rec s) = None -> forall rev, appliedBaseline (rec s) = Some rev -> real (rv_Materialization rev) = true ->
     core_of (world s) = expected_core (m_Core (rv_Materialization rev))).
Proof. intros [Hn _]%settled_state_well Hoff. by apply Hn. Qed.

(** C2: an Apply's answer is true, whatever state it found. When it answers success, the revision it names is
    the applied one, passed the review (the reviewed revision, a valid profile, nothing that blocks and
    every acknowledgement given) and runs: its kernel plane in, its core as it says, with no rollback
    outstanding. When it answers that the previous configuration was restored, the applied revision runs.
    And whenever it refuses with any code but APPLY_FAILED, the router's planes and the recorded revisions
    are what they were. *)
Theorem apply_answers_true ctx req s v s' :
  runApply ctx req s = (Some v, s') ->
  match v with
  | inr res => settled_on (rec s') (world s') /\ (exists rev, appliedBaseline (rec s') = Some rev /\ rv_Rev rev = ar_Rev res) /\
      exists d, passed ctx req s d /\ ar_Rev res = DesiredRev d
  | inl e => (ae_RolledBack e = Some true -> still s s' \/ settled_on (rec s') (world s')) /\
      (ae_Code e <> applyCodeApplyFailed -> still s s')
  end.
Proof.
  intros E. pose proof (wp_run _ _ _ _ _ _ (runApply_spec Laws FL ctx req s) E) as H. destruct v as [e|res]; cbn in H.
  - destruct H as [Hs|(Hc & _ & _ & Hset)]; split; [by left|done|intros Hr; right; by apply Hset|done].
  - destruct H as ([Hset Hb _] & _ & Hp). done.
Qed.

(** C4: Keep commits what was tested and nothing else: it answers "committed" only for a Test that runs as it
    was tested (none of its rollbacks unfinished) and is the one the caller was asked about, and then that
    Test is the committed revision and no Test is left; any other answer leaves the router's planes and the
    recorded revisions as they were. *)
Theorem keep_commits_the_test ctx window s v s' :
  applyConfirm ctx window s = (Some v, s') ->
  (rp_Committed v = true -> exists live, Live (rec s) = Some live /\ rollbackOutstanding (rec s) = None /\
     (window = ""%string \/ applyWindow (Some live) = window) /\ Committed (rec s') = Some live /\ Live (rec s') = None) /\
  (rp_Committed v = false -> still s s').
Proof.
  intros E. pose proof (wp_run _ _ _ _ _ _ (applyConfirm_spec Laws FL ctx window s) E) as [[Hs Hv]|(Hv & Ho & _ & Hr & live & Hl & Hw)];
    rewrite Hv; (split; [|done]); [done|]. intros _. exists live. rewrite Hr. unfold recordCommit. rewrite Hl. split_and!; try done.
  unfold other_window in Hw. apply andb_false_iff in Hw as [Hw|Hw]; apply negb_false_iff, bool_decide_eq_true in Hw; auto.
Qed.
End promises.

(** C3: a Test, a rollback and the supervision never touch the committed configuration: whether one of them
    answers or the daemon dies anywhere inside it, the committed revision in memory is the one there was,
    and the file is as it was or carries that same committed revision. Only a saving Apply and Keep change it. *)
Theorem committed_survives (op : Event) s :
  match op with
  | EvApply _ req => q_Save req = false
  | EvRollback _ _ | EvWindow _ _ | EvReconcile _ | EvInstall _ | EvFailsafe _ | EvAck _ _ => True
  | EvKeep _ _ | EvSwitch _ _ _ => False
  end ->
  forall r s', run_event op s = (r, s') ->
    Committed (rec s') = Committed (rec s) /\
    (disk s' = disk s \/ exists d, disk s' = Some d /\ Committed d = Committed (rec s)).
Proof.
  intros Hop. assert (Hk : keeps committed_kept (run_event op)).
  { pose proof committed_bookish. destruct op; try done; cbn.
    - apply keeps_bind; [done| |intros; by apply keeps_ret]. apply keeps_runApply; [apply _..|congruence].
    - apply keeps_bind; [done|apply keeps_applyRollback; apply _|intros; by apply keeps_ret].
    - apply keeps_bind; [done|apply keeps_windowRollback; apply _|intros; by apply keeps_ret].
    - apply keeps_bind; [done|apply keeps_acks; apply _|intros; by apply keeps_ret].
    - apply keeps_reconcile; apply _.
    - apply keeps_bind; [done|apply keeps_install; apply _|intros; by apply keeps_ret].
    - apply keeps_bind; [done|by apply keeps_modify|intros; by apply keeps_ret]. }
  intros r s' E. specialize (Hk s). unfold wp in Hk. rewrite E in Hk. by destruct r.
Qed.
End system.

(** * A router, and what the model shows on it

    A small router that keeps the laws of [ApplyExecFacts] and [ApplyInv]: the core runs what it was last
    given, the kernel holds one plane, and core and kernel steps and writes of the record follow a script
    of failures. On it: the witnesses of [ApplyTheorems], and behaviours of the code worth knowing. *)
Local Open Scope Z_scope.
Local Open Scope string_scope.

(** A configuration is its name here. *)
#[local] Instance toy_carriers : Carriers := {|
  NativePlan := string; NativePlatform := fun _ => "linux"; Removal := unit; Unbinding := unit; AWGCapture := unit;
  CoreIdentity := unit; Config := string; Demo := fun _ => false |}.

(** What is on the router, the configuration that is saved, and what the next steps and writes come to
    (nothing left: they work). *)
Record Toy := mkToy {
  y_core : option (string * bytes); y_plane : option bytes; y_desired : string;
  y_steps : list bool; y_saves : list Saving
}.
#[local] Instance eta_toy : Eta Toy := fun y => mkToy (y_core y) (y_plane y) (y_desired y) (y_steps y) (y_saves y).
#[local] Instance toy_router : Router := {|
  World := Toy; now := fun _ => 0; nowMilli := fun _ => 0; bootID := fun _ => "boot"; Ctx := unit; Background := tt;
  withStrictNativePrepare := id; withoutCancel := id; withTimeout := id; Cause := fun _ _ => None; quote := id;
  flushFlows := fun _ _ w => w; readUCI := fun _ => None; Reconcile := fun _ _ _ _ _ _ => inl "";
  rebaseOpenWrtRollback := fun b _ _ _ => b |}.

Definition pop (w : Toy) : bool * Toy :=
  match y_steps w with [] => (true, w) | b :: l => (b, w <| y_steps := l |>) end.
Definition broken : option OpErr := Some (mkErr "failed" false).
Definition toy_core (a : CoreArtifact) : Op (option OpErr) := fun w =>
  let '(ok_, w) := pop w in
  if ok_ : bool then (Some None, w <| y_core := if bool_decide (c_Action a = ExecutionEnsurePresent) then Some (c_ConfigPath a, c_Config a) else None |>)
  else (Some broken, w).
(** A present plane replaces the one there is; an absent one removes what it was told of. *)
Definition toy_kernel (t : KernelArtifact) (p : option KernelArtifact) : Op (option OpErr) := fun w =>
  let '(ok_, w) := pop w in
  if ok_ : bool then
    (Some None, if bool_decide (k_Action t = ExecutionEnsurePresent) then w <| y_plane := Some (k_Nft t) |>
                else match k_Retire t with [] => w | _ => w <| y_plane := None |> end)
  else (Some broken, w <| y_plane := None |>).
Definition toy_ops : applyExecOps := {|
  prepareNative := None; commitNative := None; abortNative := None; persistNative := None; postcheckNative := None;
  core := Some (fun _ => toy_core);
  coreRunning := Some (fun w => (Some (bool_decide (is_Some (y_core w))), w));
  checkCore := None; kernel := Some (fun _ => toy_kernel);
  kernelTeardown := Some (fun _ _ w => (Some None, w <| y_plane := None |>));
  kernelPostcheck := Some (fun _ k w => (Some (if bool_decide (y_plane w = Some (k_Nft k)) then None else broken), w));
  plugins := Some (fun _ _ w => (Some [], w));
  nativeRoutingOff := None; nativeRoutingSave := None; resolverReload := None |}.
#[local] Instance toy_view : RouterView := {| core_of := y_core; whole := fun w k => y_plane w = Some (k_Nft k) |}.

(** "core": the core alone, "off": neither; any other name: the core and a kernel plane. *)
Definition toy_core_artifact (name : string) : CoreArtifact :=
  mkCore (if bool_decide (name = "off") then ExecutionEnsureAbsent else ExecutionEnsurePresent) "sing-box" "singbox.json" tt (str name).
Definition toy_plane (name : string) : KernelArtifact :=
  if bool_decide (name ∈ ["core"; "off"]) then mkKernel ExecutionEnsureAbsent no_tool no_tool None [] [] [] [] [] None
  else mkKernel ExecutionEnsurePresent no_tool no_tool None (str name) [] [] ["nft delete table"] [] None.
Definition toy_materialization (name : string) (previous : option Materialization) : Materialization :=
  mkMaterialization 1 "toy" (toy_core_artifact name) (bindKernelRetire (toy_plane name) previous) ExecutionEnsureAbsent [] None.
#[local] Instance toy_front : Front := {|
  saveRecord := fun _ w => match y_saves w with [] => (Some Saved, w) | o :: l => (Some o, w <| y_saves := l |>) end;
  tryLock := fun _ w => (Some true, w);
  DesiredRev := d_Config;
  captureDesiredSnapshot := fun w => (Some (inr (mkDesired zero_profile (y_desired w))), w);
  Validate := fun _ => None; rawFindings := fun _ _ w => (Some [], w);
  findingTemplate := fun _ => ("", "", "", "");
  Capture := unit; captureForApply := fun _ _ w => (Some (inr tt), w); applyNDMPolicies := fun _ _ => ∅;
  desiredRoutingMode := fun _ => "mixed"; compileKernel := fun _ _ _ => inr (None, "");
  ownershipBaseline := fun m _ _ => m;
  materialize := fun d _ previous _ => inr (toy_materialization (d_Config d) previous, []);
  fastModeDomainWarning := fun _ _ => ""; ops := toy_ops;
  demoNow := fun _ => false; autoReboot := fun _ => false; sha256hex10 := id |}.

Lemma toy_laws : RouterLaws toy_ops.
Proof.
  split; try done.
  1-3: intros *; intros [= <-]; intros w a w' [= _ <-]; apply calm_refl.
  - intros p q w. exact (calm_refl w).
  - intros f ctx a w e w' [= <-]. unfold toy_core, pop. destruct (y_steps w) as [|[] l]; intros [= <- <-]; split; try done; by intros ?.
  - intros f ctx t p w e w' [= <-].
    assert (Hok : forall w1 : Toy, y_core w1 = y_core w ->
      (if bool_decide (k_Action t = ExecutionEnsurePresent) then w1 <| y_plane := Some (k_Nft t) |>
       else match k_Retire t with [] => w1 | _ => w1 <| y_plane := None |> end) = w' ->
      same_core w w' /\ (k_Action t = ExecutionEnsurePresent -> whole w' (plane t))).
    { intros w1 Hc. case_bool_decide; intros <-; (split; [|done]); [exact Hc|by destruct (k_Retire t)]. }
    unfold toy_kernel, pop. destruct (y_steps w) as [|[] l]; intros Heq; injection Heq as <- Hw'.
    + by apply Hok in Hw'.
    + by apply Hok in Hw'.
    + subst w'. by split.
  - intros f ctx k w e w' [= <-] [= _ <-]. done.
  - intros f ctx k w w' [= <-]. cbn. case_bool_decide; [|done]. by intros [= <-].
Qed.
Lemma toy_front_laws : FrontLaws.
Proof.
  split; try (intros *; intros w a w' [= _ <-]; apply calm_refl).
  intros r w a w'. cbn. destruct (y_saves w); intros [= _ <-]; [apply calm_refl|]. split; [done|by intros ?].
Qed.

(** ** A history *)
Definition ctx0 : Ctx := tt.
Definition request (save : bool) : applyRequest := mkRequest save "" [].
Definition after {A} (m : C Server A) (s : Server) : Server := (m s).2.
Definition no_core : CoreArtifact := mkCore "" "" "" tt [].
Definition start (s : Server) : C Server unit := StartApply (fun _ => None) (fun _ => "linux") (fun w => (Some tt, w)) (Some DefaultDurations).
Definition boot_from (s : Server) : Server :=
  let s := after (start s) s in after (bootAttempt no_core ctx0 (bootTask s) true true) s.
Definition wants (name : string) (steps : list bool) (saves : list Saving) (s : Server) : Server :=
  s <| world := (world s) <| y_desired := name |> <| y_steps := steps |> <| y_saves := saves |> |>.
(** A router nothing was applied to; its fourth step will fail. *)
Definition blank : Server :=
  mkServer (mkToy None None "a" [true; true; true; false] []) fresh_record None "" 0 "" None ∅ None None.
Definition apply (save : bool) (s : Server) : Server := after (runApply ctx0 (request save)) s.

(** "a" applied and saved, then a Test of "b" whose kernel step fails and is rolled back. *)
Definition booted_blank : Server := boot_from blank.
Definition with_a : Server := apply true booted_blank.
Definition tested_b : Server := apply false (wants "b" [true; false] [] with_a).

Example failed_test_rolled_back :
  y_core (world tested_b) = Some ("singbox.json", str "a") /\ y_plane (world tested_b) = Some (str "a") /\
  rv_Rev <$> Committed (rec tested_b) = Some "a" /\ rv_Rev <$> Live (rec tested_b) = None.
Proof. vm_compute. by split_and!. Qed.

(** The first Apply dies after its last step, before it is recorded: there is no committed revision, so boot
    has "nothing to converge", and the core and the kernel plane of the Apply that never finished stay. *)
Definition died_first : Server := apply true (wants "a" [] [Saved; DiedBefore] booted_blank).
Example crash_of_the_first_apply_stays :
  let s := boot_from died_first in
  if_Rev <$> (disk died_first ≫= InFlight) = Some "a" /\
  rv_Rev <$> Committed (rec s) = None /\ if_Rev <$> InFlight (rec s) = None /\
  y_core (world s) = Some ("singbox.json", str "a") /\ y_plane (world s) = Some (str "a").
Proof. vm_compute. by split_and!. Qed.

(** An Apply with a kernel plane dies over a committed configuration without one. Boot converges to the
    committed revision, but that run is additive: it retires nothing, and the plane stays. *)
Definition died_over_core : Server :=
  apply false (wants "b" [] [Saved; DiedBefore] (apply true (wants "core" [] [] booted_blank))).
Example crashed_plane_survives_converge :
  let s := boot_from died_over_core in
  bootTask (after (start died_over_core) died_over_core) <> BootNothing /\
  rv_Rev <$> Committed (rec s) = Some "core" /\ rv_Rev <$> Live (rec s) = None /\
  y_core (world s) = Some ("singbox.json", str "core") /\ y_plane (world s) = Some (str "b").
Proof. vm_compute. split; [discriminate|by split_and!]. Qed.

(** A window rolls its Test back, its connectivity check still waiting; then an Apply fails and so does its
    rollback, which the record marks. Roll back now finds the window's earlier rollback done, answers that
    the configuration was rolled back, and has undone nothing: the mark is still there. *)
Definition window_rolled_back : Server :=
  let s := apply false (wants "b" [] [] with_a) in
  match failsafe s, Live (rec s) with
  | Some m, Some live =>
      let s := s <| failsafe := Some ((claimRollback m (epoch m)).1 <| rolledBack := true |> <| phase := "rolled_back" |>) |> in
      let s := after (windowRollback (epoch m) live) s in
      s <| failsafe := (fun m => markRollbackDone m (epoch m)) <$> failsafe s |>
  | _, _ => s
  end.
Definition failed_over_it : Server := apply false (wants "c" [true; false; false] [] window_rolled_back).
Example rolled_back_without_rolling_back :
  match applyRollback ctx0 "" failed_over_it with
  | (Some reply, s) =>
      rp_RolledBack reply = Some true /\ o_KernelPlane <$> rollbackOutstanding (rec failed_over_it) = Some rollbackPlaneUnknown /\
      o_KernelPlane <$> rollbackOutstanding (rec s) = Some rollbackPlaneUnknown /\ rv_Rev <$> Live (rec s) = Some "c" /\
      y_plane (world s) = None
  | _ => False
  end.
Proof. vm_compute. by split_and!. Qed.

(** A reboot of a router with a Test (its core and plane gone with it), and a boot rollback that fails at
    the core, before its kernel step: the mark says the Test's plane is the one in, and the next
    reconcile installs it, with no core running. *)
Definition rebooted_test : Server :=
  let s := apply false (wants "b" [] [] with_a) in
  s <| world := (world s) <| y_core := None |> <| y_plane := None |> <| y_steps := [false] |> |>.
Example reconcile_reinstalls_the_test_after_reboot :
  let s := boot_from rebooted_test in
  let s' := after (reconcileKernelPlane ctx0) s in
  o_KernelPlane <$> rollbackOutstanding (rec s) = Some rollbackPlaneTested /\ y_plane (world s) = None /\
  y_plane (world s') = Some (str "b") /\ y_core (world s') = None.
Proof. vm_compute. by split_and!. Qed.

(** ** Witnesses *)
Lemma booted_blank_settled : settled_state no_core (fun _ => None) (fun _ => "linux") (fun w => (Some tt, w)) booted_blank.
Proof.
  eapply (ss_boot _ _ _ _ blank). exists (Some DefaultDurations), ctx0, true, (after (start blank) blank).
  split; reflexivity.
Qed.
Definition answers (save : bool) (s : Server) : bool :=
  match (runApply ctx0 (request save) s).1 with Some _ => true | None => false end.
Lemma runs_apply save s : answers save s = true -> happens no_core s (apply save s).
Proof.
  intros H. exists (EvApply ctx0 (request save)). unfold answers in H. cbn. unfold apply, after, mbind, C_bind.
  destruct (runApply ctx0 (request save) s) as [[v|] s']; [reflexivity|done].
Qed.
(** "a" is applied and saved, and applied again: its kernel step fails, and the rollback puts "a" back. *)
Definition again : Server := apply false with_a.
Lemma answers_blank : answers true booted_blank = true.
Proof. vm_compute. reflexivity. Qed.
Lemma answers_again : answers false with_a = true.
Proof. vm_compute. reflexivity. Qed.
Lemma again_settled : settled_state no_core (fun _ => None) (fun _ => "linux") (fun w => (Some tt, w)) again.
Proof.
  exact (ss_step _ _ _ _ with_a again (ss_step _ _ _ _ booted_blank with_a booted_blank_settled (runs_apply true booted_blank answers_blank))
    (runs_apply false with_a answers_again)).
Qed.
Lemma record_names_what_runs_witness :
  (settled_state no_core (fun _ => None) (fun _ => "linux") (fun w => (Some tt, w)) again /\ l_OK (Last (rec again)) = false /\
    routingIsOff (rec again) = false /\ y_plane (world again) = Some (str "a") /\ rv_Rev <$> appliedBaseline (rec again) = Some "a") /\
    (rollbackOutstanding (rec again) = None -> forall rev, appliedBaseline (rec again) = Some rev -> real (rv_Materialization rev) = true ->
       core_of (world again) = expected_core (m_Core (rv_Materialization rev))).
Proof.
  split; [split; [exact again_settled|]; vm_compute; by split_and!|].
  exact (proj2 (record_names_what_runs no_core (fun _ => None) (fun _ => "linux") (fun w => (Some tt, w)) toy_laws toy_front_laws
    (fun _ => eq_refl) again again_settled eq_refl)).
Defined.
Lemma apply_answers_true_witness :
  match runApply ctx0 (request true) booted_blank with
  | (Some (inr res), s') => ar_Rev res = "a" /\ settled_on (rec s') (world s')
  | _ => False
  end.
Proof.
  destruct (runApply ctx0 (request true) booted_blank) as [[[e|res]|] s'] eqn:E.
  - exfalso. apply (f_equal (fun v => match v.1 with Some (inl _) => true | _ => false end)) in E. vm_compute in E. discriminate E.
  - split; [|exact (proj1 (apply_answers_true toy_laws toy_front_laws _ _ _ _ _ E))].
    apply (f_equal (fun v => match v.1 with Some (inr r) => ar_Rev r | _ => "" end)) in E. vm_compute in E. symmetry. exact E.
  - exfalso. apply (f_equal (fun v => match v.1 with None => true | _ => false end)) in E. vm_compute in E. discriminate E.
Defined.
Definition tested_b_kept : Server := apply false (wants "b" [] [] with_a).
Lemma keep_commits_the_test_witness :
  match applyConfirm ctx0 "" tested_b_kept with
  | (Some v, s') => rp_Committed v = true /\ exists live, Live (rec tested_b_kept) = Some live /\ Committed (rec s') = Some live
  | _ => False
  end.
Proof.
  destruct (applyConfirm ctx0 "" tested_b_kept) as [[v|] s'] eqn:E.
  - assert (Hc : rp_Committed v = true).
    { apply (f_equal (fun v => match v.1 with Some r => rp_Committed r | _ => false end)) in E. vm_compute in E. symmetry. exact E. }
    split; [exact Hc|]. destruct (proj1 (keep_commits_the_test (toy_laws : RouterLaws (ops (Front := toy_front))) toy_front_laws _ _ _ _ _ E) Hc) as (live & Hl & _ & _ & Hk & _).
    exists live. split; [exact Hl|exact Hk].
  - apply (f_equal (fun v => match v.1 with None => true | _ => false end)) in E. vm_compute in E. discriminate E.
Defined.
Lemma committed_survives_witness :
  let s := wants "b" [] [Saved; DiedBefore] with_a in
  (run_event no_core (EvApply ctx0 (request false)) s).1 = None /\
  rv_Rev <$> Committed (rec (after (run_event no_core (EvApply ctx0 (request false))) s)) = rv_Rev <$> Committed (rec s).
Proof.
  intros s. split; [reflexivity|].
  destruct (run_event no_core (EvApply ctx0 (request false)) s) as [r s'] eqn:E.
  unfold after. rewrite E. exact (f_equal (fmap rv_Rev) (proj1 (committed_survives no_core (EvApply ctx0 (request false)) s eq_refl r s' E))).
Defined.
Lemma execution_in_order_witness :
  match executeMaterialization ctx0 toy_ops (toy_materialization "b" None) None (wants "b" [true; false] [] with_a) with
  | (Some (r, Some e), _) => x_Step e = stepKernel /\ Steps r = [stepCore] /\
      ((x_Step e = "program" /\ r = no_result) \/ exists rest, (step_names (toy_materialization "b" None) None = Steps r ++ x_Step e :: rest)%list)
  | _ => False
  end.
Proof.
  destruct (executeMaterialization ctx0 toy_ops (toy_materialization "b" None) None (wants "b" [true; false] [] with_a)) as [[[r [e|]]|] s'] eqn:E.
  - pose proof (f_equal (fun v => match v.1 with Some (r, Some e) => (x_Step e, Steps r) | _ => ("", []) end) E) as E2.
    vm_compute in E2. injection E2 as H1 H2. split; [symmetry; exact H1|]. split; [symmetry; exact H2|].
    exact (execution_in_order _ _ _ _ _ _ _ _ E).
  - apply (f_equal (fun v => match v.1 with Some (_, Some _) => true | _ => false end)) in E. vm_compute in E. discriminate E.
  - apply (f_equal (fun v => match v.1 with Some (_, Some _) => true | _ => false end)) in E. vm_compute in E. discriminate E.
Defined.
