(* ===== verification/Changeset.v ===== *)
(** * The change review

    Models [src/internal/changeset/changeset.go] and [lifecycle.go]: [Diff], the canonical description of
    what an Apply would change between the applied configuration and the saved one, field by field,
    with secrets redacted.

    Of the settings only the four the review compares are told apart; the rest of the configuration is
    carried along ([cf_Rest]). Arguments: [sprint], [fmt.Sprint] of a parameter's value; SHA-256 as the
    first eight hex digits of the sum; Unicode's lower case; the decoding of an override's text
    ([Override]). The values [sameJSON] compares are plain data, so their encodings are equal exactly
    when they are. *)
From stdpp Require Import pretty.
From S2P Require Import Prelude GoStrings GoText GoCodec Model PbrLists Json EndpointPins Override.
Local Open Scope Z_scope.

Record Config {Rest : Type} := mkConfig {
  RoutingMode : string; Offload : string; RuleSetDetour : string; cf_CoreOverride : string; cf_Rest : Rest
}.
Arguments Config : clear implicits.
#[export] Instance eta_config {Rest} : Eta (Config Rest) := fun c =>
  mkConfig Rest (RoutingMode c) (Offload c) (RuleSetDetour c) (cf_CoreOverride c) (cf_Rest c).

Definition ActionAdded : string := "added".
Definition ActionModified : string := "modified".
Definition ActionRemoved : string := "removed".
Definition ActionReordered : string := "reordered".
Definition SubConnections : string := "connections".
Definition SubNativeVPN : string := "native_vpn".
Definition SubRouting : string := "routing".
Definition SubDeviceRules : string := "device_rules".
Definition SubGroups : string := "groups".
Definition SubDNS : string := "dns".
Definition SubFirewallPBR : string := "firewall_pbr".
Definition SubOffload : string := "offload".
Definition SubGeneral : string := "general".
Definition SecretSet : string := "Set".
Definition SecretNotSet : string := "Not set".
Definition SecretChanged : string := "Changed".
Definition SecretRemoved : string := "Removed".

Record Change := mkChange {
  ch_ID : string; ch_ObjectType : string; ch_ObjectName : string; ch_Action : string; ch_Field : string;
  ch_Before : string; ch_After : string; ch_Source : string; ch_Subsystem : string; ch_Impact : string;
  ch_RequiresApply : bool; ch_RequiresServiceRestart : bool; ch_RequiresReboot : bool; ch_MayInterrupt : bool;
  ch_Rollbackable : bool; ch_Secret : bool; ch_Warnings : list string
}.
#[export] Instance eta_change : Eta Change := fun c =>
  mkChange (ch_ID c) (ch_ObjectType c) (ch_ObjectName c) (ch_Action c) (ch_Field c) (ch_Before c) (ch_After c)
    (ch_Source c) (ch_Subsystem c) (ch_Impact c) (ch_RequiresApply c) (ch_RequiresServiceRestart c)
    (ch_RequiresReboot c) (ch_MayInterrupt c) (ch_Rollbackable c) (ch_Secret c) (ch_Warnings c).
Record ChangeSet := mkChangeSet { cs_BaselineRev : string; cs_DesiredRev : string; Changes : list Change }.
Definition Count (cs : ChangeSet) : nat := length (Changes cs).
Definition BySubsystem (cs : ChangeSet) : gmap string (list Change) :=
  foldl (fun out c => <[ch_Subsystem c := default [] (out !! ch_Subsystem c) ++ [c]]> out) ∅ (Changes cs).
Definition RequiresApply (cs : ChangeSet) : bool := existsb ch_RequiresApply (Changes cs).
Definition MayInterrupt (cs : ChangeSet) : bool := existsb ch_MayInterrupt (Changes cs).

(** Every row of the differ but the feeds': the user's, to apply with a restart, and to roll back. *)
Definition row (id type name action sub impact : string) : Change :=
  mkChange id type name action "" "" "" "user" sub impact true true false false true false [].
Definition interrupting (c : Change) : Change := c <| ch_MayInterrupt := true |>.
Definition on_field (c : Change) (field before after : string) : Change :=
  c <| ch_Field := field |> <| ch_Before := before |> <| ch_After := after |>.

(** ** Words *)
Definition nameOr (s fallback : string) : string := if bool_decide (trim s = "") then fallback else s.
Definition boolWord (b : bool) : string := if b then "On" else "Off".
Definition itoaOmitZero (n : Z) : string := if n =? 0 then "" else pretty n.
Definition countWord (n : nat) (one many : string) : string :=
  if (n =? 1)%nat then "1 " +:+ one else pretty (Z.of_nat n) +:+ " " +:+ many.
Definition sourceOrNone (s : string) : string := nameOr s "none".
Definition outboundOrDefault (s : string) : string := nameOr s "direct".
Definition refreshWord (h : Z) : string :=
  if h <=? 0 then "default"
  else if (h mod 24 =? 0) && (24 <? h) then "every " +:+ pretty (h / 24) +:+ " days"
  else if h =? 24 then "daily"
  else if h =? 1 then "every hour"
  else "every " +:+ pretty h +:+ " hours".
Definition scopeWord (mode : string) (groups : list string) : string :=
  if bool_decide (mode = "only") then "only " +:+ countWord (length groups) "device group" "device groups"
  else if bool_decide (mode = "except") then "all except " +:+ countWord (length groups) "device group" "device groups"
  else "all devices".
Definition structuredValue : string := "(structured value)".
Definition isScalar (v : any) : bool :=
  match v with AString _ | ABool _ | AInt _ | AInt64 _ | AUint32 _ | AFloat _ | ANumber _ => true | _ => false end.
(** [strings.ToUpper] of a text's first byte: half a character is not one. *)
Definition upper_first (b : Z) : bytes := if b <? 128 then [ascii_upper b] else [0xEF; 0xBF; 0xBD].
Definition replace_byte (c d : Z) (p : bytes) : bytes := map (fun b => if b =? c then d else b) p.
Definition fieldLabel (k : string) : string :=
  match replace_byte 95 32 (str (trim k)) with
  | [] => k
  | b :: rest => unstr (upper_first b ++ rest)
  end.
Definition sameStrings (a b : list string) : bool := bool_decide (a = b).
Definition sameJSON {A} `{EqDecision A} (a b : A) : bool := bool_decide (a = b).
#[export] Instance ECH_eq_dec : EqDecision ECH.
Proof. solve_decision. Defined.
#[export] Instance TLS_eq_dec : EqDecision TLS.
Proof. solve_decision. Defined.
#[export] Instance Transport_eq_dec : EqDecision Transport.
Proof. solve_decision. Defined.
#[export] Instance Brutal_eq_dec : EqDecision Brutal.
Proof. solve_decision. Defined.
#[export] Instance Multiplex_eq_dec : EqDecision Multiplex.
Proof. solve_decision. Defined.
#[export] Instance probe_eq_dec : EqDecision Health.
Proof. solve_decision. Defined.
#[export] Instance Rule_eq_dec : EqDecision Rule.
Proof. solve_decision. Defined.
#[export] Instance DeviceMember_eq_dec : EqDecision DeviceMember.
Proof. solve_decision. Defined.
#[export] Instance DeviceGroup_eq_dec : EqDecision DeviceGroup.
Proof. solve_decision. Defined.
#[export] Instance DNSServer_eq_dec : EqDecision DNSServer.
Proof. solve_decision. Defined.
#[export] Instance DNSRule_eq_dec : EqDecision DNSRule.
Proof. solve_decision. Defined.

(** ** Secrets *)
Definition secretParamKeys : list string :=
  ["private_key"; "pre_shared_key"; "password"; "uuid"; "token"; "obfs_password"; "auth"; "auth_str"; "secret";
   "short_id"; "api_key"; "subscription"; "private_key_passphrase"; "psk"; "totp_secret"; "key"; "control_key";
   "static_key"; "userkey"; "realm"].
Definition isEmptyParam (v : any) : bool :=
  match v with ANil => true | AString s => bool_decide (s = "") | _ => false end.

Section changes.
Context (sprint : any -> string) (sha256hex8 : string -> string) (unicode_lower : bytes -> bytes).
Context (decode : string -> option (any * bool)).

Definition IsSecretField (key : string) : bool :=
  bool_decide (unstr (ToLower unicode_lower (str (trim key))) ∈ secretParamKeys).
Definition secretTransition (before after : any) : string * string :=
  let had v := negb (isEmptyParam v) && negb (bool_decide (sprint v = "<nil>")) in
  if negb (had before) && had after then (SecretNotSet, SecretSet)
  else if had before && negb (had after) then (SecretSet, SecretRemoved)
  else (SecretSet, SecretChanged).
Definition valueWord (v : any) : string :=
  match v with
  | ANil => ""
  | _ => if negb (isScalar v) then structuredValue
         else if bool_decide (sprint v = "<nil>") then "" else sprint v
  end.

(** ** Descriptions *)
Definition describeHealth (h : option Health) : string :=
  match h with
  | None => "default"
  | Some h =>
      let parts :=
        (if bool_decide (h_URL h = "") then [] else [h_URL h]) ++
        (if 0 <? h_Interval h then ["every " +:+ pretty (h_Interval h) +:+ "s"] else []) ++
        (if 0 <? h_Tolerance h then ["tolerance " +:+ pretty (h_Tolerance h) +:+ "ms"] else []) in
      match parts with [] => "default" | _ => String.concat ", " parts end
  end.
Definition describe_ech (e : option ECH) : list string :=
  match e with
  | Some e =>
      if negb (ech_Enabled e) then []
      else if negb (bool_decide (ech_Config e = "")) then ["ECH (config " +:+ sha256hex8 (ech_Config e) +:+ ")"]
      else if negb (bool_decide (ech_QueryServerName e = "")) then ["ECH (DNS, " +:+ ech_QueryServerName e +:+ ")"]
      else ["ECH (DNS)"]
  | None => []
  end.
Definition describe_pin (kind p : string) : string :=
  match ParsePinSHA256 p with
  | None => kind +:+ " pin " +:+ trim p
  | Some b => kind +:+ " pin " +:+ unstr (hex_encode (take 4 b))
  end.
Definition describeTLS (t : option TLS) : string :=
  match t with
  | None => "off"
  | Some t =>
      if negb (tls_Enabled t) then "off"
      else String.concat ", "
        ([nameOr (tls_Type t) "tls"] ++
         (if bool_decide (tls_SNI t = "") then [] else ["SNI " +:+ tls_SNI t]) ++
         (if tls_Insecure t then ["insecure"%string] else []) ++
         (if tls_Fragment t || tls_RecordFragment t then ["fragmented"%string] else []) ++
         describe_ech (tls_ECH t) ++
         map (describe_pin "certificate") (tls_PinCertSHA256 t) ++
         map (describe_pin "public-key") (tls_PinPubKeySHA256 t))
  end.
Definition describeTransport (tr : option Transport) : string :=
  match tr with
  | None => "tcp"
  | Some tr =>
      if bool_decide (tr_Type tr = "") then "tcp"
      else if bool_decide (tr_Host tr = "") then tr_Type tr
      else tr_Type tr +:+ " (host " +:+ tr_Host tr +:+ ")"
  end.
Definition mux_pool (m : Multiplex) : list string :=
  (if 0 <? mx_MaxConnections m then [pretty (mx_MaxConnections m) +:+ " connections"] else []) ++
  (if 0 <? mx_MinStreams m then ["min " +:+ pretty (mx_MinStreams m) +:+ " streams"] else []) ++
  (if 0 <? mx_MaxStreams m then ["max " +:+ pretty (mx_MaxStreams m) +:+ " streams"] else []).
Definition mux_shape (m : Multiplex) : list string :=
  let pool := mux_pool m in
  match mx_Brutal m with
  | Some b =>
      if br_Enabled b then
        ["TCP Brutal " +:+ pretty (br_UpMbps b) +:+ "/" +:+ pretty (br_DownMbps b) +:+ " Mbps"] ++
        (match pool with [] => [] | _ => ["pool unused (" +:+ String.concat ", " pool +:+ ")"] end)
      else pool
  | None => pool
  end.
Definition describeMultiplex (m : option Multiplex) : string :=
  match m with
  | None => "off"
  | Some m =>
      if negb (mx_Enabled m) then "off"
      else String.concat ", "
        ([if bool_decide (mx_Protocol m = "") then "h2mux"%string else mx_Protocol m] ++ mux_shape m ++
         (if mx_Padding m then ["padding"%string] else []))
  end.
Definition overrideWord (text : string) : string :=
  if bool_decide (trim text = "") then "none"
  else match ParseCoreOverride decode text with
       | inl _ => "set"
       | inr o => match Keys o with [] => "set" | keys => "touches " +:+ String.concat ", " keys end
       end.

(** ** Collections

    Each collection is compared by id: what the desired state has, in its order, added or modified,
    then what only the baseline has. The last of equal ids counts. *)
Definition by_id {A} (id : A -> string) (l : list A) : gmap string A := foldl (fun m x => <[id x := x]> m) ∅ l.
Definition diff_by {A} (id : A -> string) (added : A -> Change) (modified : A -> A -> list Change) (removed : A -> Change)
    (base desired : list A) : list Change :=
  concat (map (fun d => match by_id id base !! id d with None => [added d] | Some b => modified b d end) desired) ++
  map removed (List.filter (fun b => negb (bool_decide (id b ∈ map id desired))) base).

(** *** Connections *)
Definition endpointSubsystem (e : Endpoint) : string :=
  if bool_decide (ep_Engine e = EngineExternal) then SubNativeVPN else SubConnections.
Definition endpointName (e : Endpoint) : string := nameOr (ep_Name e) (ep_ID e).
Definition fieldAWGEngine : string := "AmneziaWG engine".
Definition endpointScalarFields (e : Endpoint) : gmap string string :=
  let m : gmap string string := list_to_map
    [("Name"%string, ep_Name e); ("Server"%string, ep_Server e); ("Port"%string, itoaOmitZero (ep_Port e));
     ("Protocol"%string, ep_Protocol e); ("Engine"%string, ep_Engine e); ("Enabled"%string, boolWord (ep_Enabled e));
     ("MTU"%string, itoaOmitZero (ep_MTU e)); ("Keepalive"%string, itoaOmitZero (ep_PersistentKeepalive e))] in
  let m := if bool_decide (ep_Owner e = "") then m else <["Owner"%string := ep_Owner e]> m in
  if ep_AWGUserspace e then <[fieldAWGEngine := "amneziawg-go"%string]> m
  else if bool_decide (ep_Engine e = EngineAmneziaWG) then <[fieldAWGEngine := "automatic"%string]> m else m.
Definition endpoint_row (d : Endpoint) (field before after : string) (secret : bool) : Change :=
  let c := (on_field (row (ep_ID d) "endpoint" (endpointName d) ActionModified (endpointSubsystem d) "") field before after)
             <| ch_Secret := secret |> in
  if bool_decide (field = "Enabled") then
    (interrupting c) <| ch_Impact := "turns this egress on/off; traffic using it will move" |>
  else if bool_decide (field = fieldAWGEngine) then
    (interrupting c) <| ch_Impact := "moves this connection between the router's own AmneziaWG and amneziawg-go; its tunnel restarts" |>
  else if bool_decide (field = "Server") || bool_decide (field = "Port") then
    (interrupting c) <| ch_Impact := "reconnects this egress to a different address" |>
  else c <| ch_Impact := "the egress is reconfigured and reconnects" |>.
Definition when_changed (same : bool) (c : Change) : list Change := if same then [] else [c].
Definition keys_of {A} (m : gmap string A) : list string := (map_to_list m).*1.
Definition scalar_rows (b d : Endpoint) : list Change :=
  let bs := endpointScalarFields b in
  let ds := endpointScalarFields d in
  concat (map (fun k => let bv := default "" (bs !! k) in let dv := default "" (ds !! k) in
                        when_changed (bool_decide (bv = dv)) (endpoint_row d k bv dv false))
    (sort_strings (keys_of ds ++ List.filter (fun k => negb (bool_decide (is_Some (ds !! k)))) (keys_of bs)))).
Definition param (m : gmap string any) (k : string) : any := default ANil (m !! k).
Definition param_row (b d : Endpoint) (k : string) : list Change :=
  let bv := param (ep_Params b) k in
  let dv := param (ep_Params d) k in
  if bool_decide (sprint bv = sprint dv) then []
  else if isEmptyParam bv && isEmptyParam dv then []
  else if IsSecretField k then
    let '(before, after) := secretTransition bv dv in [endpoint_row d (fieldLabel k) before after true]
  else [endpoint_row d (fieldLabel k) (valueWord bv) (valueWord dv) false].
Definition param_keys (b d : Endpoint) : list string :=
  sort_strings (keys_of (ep_Params b) ++ List.filter (fun k => negb (bool_decide (is_Some (ep_Params b !! k)))) (keys_of (ep_Params d))).
Definition diffEndpointFields (b d : Endpoint) : list Change :=
  scalar_rows b d ++
  when_changed (sameJSON (ep_TLS b) (ep_TLS d))
    (endpoint_row d "TLS settings" (describeTLS (ep_TLS b)) (describeTLS (ep_TLS d)) false) ++
  when_changed (sameJSON (ep_Transport b) (ep_Transport d))
    (endpoint_row d "Transport" (describeTransport (ep_Transport b)) (describeTransport (ep_Transport d)) false) ++
  when_changed (sameJSON (ep_Multiplex b) (ep_Multiplex d))
    (endpoint_row d "Multiplex" (describeMultiplex (ep_Multiplex b)) (describeMultiplex (ep_Multiplex d)) false) ++
  when_changed (sameJSON (ep_Health b) (ep_Health d))
    (endpoint_row d "Health test" (describeHealth (ep_Health b)) (describeHealth (ep_Health d)) false) ++
  concat (map (param_row b d) (param_keys b d)).
Definition endpoint_added (d : Endpoint) : Change :=
  row (ep_ID d) "endpoint" (endpointName d) ActionAdded (endpointSubsystem d) "a new egress becomes available to routing rules".
Definition endpoint_removed (b : Endpoint) : Change :=
  interrupting (row (ep_ID b) "endpoint" (endpointName b) ActionRemoved (endpointSubsystem b)
    (if bool_decide (ep_Engine b = EngineExternal)
     then "WayHop stops routing through this native tunnel; the tunnel itself is left running (it is owned by the router, not WayHop)"
     else "traffic routed through this egress must move elsewhere")).
Definition diffEndpoints : list Endpoint -> list Endpoint -> list Change :=
  diff_by ep_ID endpoint_added diffEndpointFields endpoint_removed.

(** *** Groups *)
Definition group_row (g : Group) (action impact : string) : Change :=
  row (gr_ID g) "group" (nameOr (gr_Name g) (gr_ID g)) action SubGroups impact.
Definition group_fields (b d : Group) : list Change :=
  let mk field before after :=
    on_field (interrupting (group_row d ActionModified "changes which egress this group selects")) field before after in
  when_changed (bool_decide (gr_Name b = gr_Name d)) (mk "Name"%string (gr_Name b) (gr_Name d)) ++
  when_changed (bool_decide (gr_Type b = gr_Type d)) (mk "Type"%string (gr_Type b) (gr_Type d)) ++
  when_changed (bool_decide (String.concat ", " (gr_Members b) = String.concat ", " (gr_Members d)))
    (mk "Members"%string (String.concat ", " (gr_Members b)) (String.concat ", " (gr_Members d))) ++
  when_changed (sameJSON (gr_Test b) (gr_Test d)) (mk "Health test"%string (describeHealth (gr_Test b)) (describeHealth (gr_Test d))) ++
  when_changed (eqb (gr_KillSwitch b) (gr_KillSwitch d))
    ((mk "Kill switch"%string (boolWord (gr_KillSwitch b)) (boolWord (gr_KillSwitch d)))
       <| ch_Impact := "when every member is down, traffic is dropped instead of leaking to the provider" |>) ++
  when_changed (eqb (gr_InterruptOnSwitch b) (gr_InterruptOnSwitch d))
    (mk "Interrupt on switch"%string (boolWord (gr_InterruptOnSwitch b)) (boolWord (gr_InterruptOnSwitch d))) ++
  when_changed (eqb (gr_Managed b) (gr_Managed d))
    (mk "Managed by WayHop"%string (boolWord (gr_Managed b)) (boolWord (gr_Managed d))).
Definition diffGroups : list Group -> list Group -> list Change :=
  diff_by gr_ID (fun d => group_row d ActionAdded "a new failover/selection group becomes available") group_fields
    (fun b => interrupting (group_row b ActionRemoved "rules pointing at this group must be repointed")).

(** *** Routing lists *)
Definition list_row (rl : RoutingList) (action impact : string) : Change :=
  row (rl_ID rl) "routing_list" (nameOr (rl_Name rl) (rl_ID rl)) action SubRouting impact.
(** [relativeOrder]: the rank of each id among those the other state has too. *)
Fixpoint rank_from (other : list string) (rank : nat) (ids : list string) : gmap string nat :=
  match ids with
  | [] => ∅
  | id :: ids =>
      if negb (bool_decide (id ∈ other)) then rank_from other rank ids
      else let m := rank_from other (S rank) ids in
           if bool_decide (id ∈ ids) then m else <[id := rank]> m
  end.
Definition relativeOrder (ss other : list RoutingList) : gmap string nat :=
  rank_from (map rl_ID other) 0 (map rl_ID ss).
Definition external_feed (c : Change) : Change :=
  c <| ch_Source := "external" |> <| ch_Impact := "the set of destinations this list matches changes" |>.
Definition list_fields (b d : RoutingList) : list Change :=
  let mk field before after := on_field (list_row d ActionModified "changes where matching traffic is sent") field before after in
  let words kind kinds (l : list string) := countWord (length l) kind kinds in
  when_changed (bool_decide (rl_Name b = rl_Name d)) (mk "Name"%string (rl_Name b) (rl_Name d)) ++
  when_changed (bool_decide (rl_Outbound b = rl_Outbound d)) (interrupting (mk "Outbound"%string (rl_Outbound b) (rl_Outbound d))) ++
  when_changed (eqb (rl_Enabled b) (rl_Enabled d))
    (interrupting (mk "Enabled"%string (boolWord (rl_Enabled b)) (boolWord (rl_Enabled d)))) ++
  when_changed (bool_decide (Source b = Source d)) (mk "Source URL"%string (Source b) (Source d)) ++
  when_changed (bool_decide (rl_Format b = rl_Format d)) (mk "Feed format"%string (sourceOrNone (rl_Format b)) (sourceOrNone (rl_Format d))) ++
  when_changed ((length (Manual b) =? length (Manual d))%nat && bool_decide (String.concat "," (Manual b) = String.concat "," (Manual d)))
    (mk "Entries"%string (words "entry"%string "entries"%string (Manual b)) (words "entry"%string "entries"%string (Manual d))) ++
  when_changed (sameStrings (CIDRCache b) (CIDRCache d))
    (external_feed (mk "IP feed"%string (words "prefix"%string "prefixes"%string (CIDRCache b)) (words "prefix"%string "prefixes"%string (CIDRCache d)))) ++
  when_changed (sameStrings (DomainCache b) (DomainCache d))
    (external_feed (mk "Name feed"%string (words "name"%string "names"%string (DomainCache b)) (words "name"%string "names"%string (DomainCache d)))) ++
  when_changed (bool_decide (CIDRSource b = CIDRSource d))
    (mk "IP feed source"%string (sourceOrNone (CIDRSource b)) (sourceOrNone (CIDRSource d))) ++
  when_changed (bool_decide (DomainSource b = DomainSource d))
    (mk "Name feed source"%string (sourceOrNone (DomainSource b)) (sourceOrNone (DomainSource d))) ++
  when_changed (bool_decide (DownloadVia b = DownloadVia d))
    (mk "Download via"%string (outboundOrDefault (DownloadVia b)) (outboundOrDefault (DownloadVia d))) ++
  when_changed (RefreshHours b =? RefreshHours d)
    ((mk "Auto-update"%string (refreshWord (RefreshHours b)) (refreshWord (RefreshHours d)))
       <| ch_Impact := "changes how often this list re-fetches" |> <| ch_RequiresServiceRestart := false |>) ++
  when_changed (bool_decide (ScopeMode b = ScopeMode d) && sameStrings (ScopeGroups b) (ScopeGroups d))
    (interrupting (mk "Applies to"%string (scopeWord (ScopeMode b) (ScopeGroups b)) (scopeWord (ScopeMode d) (ScopeGroups d)))) ++
  when_changed (bool_decide (TLSFragment b = TLSFragment d))
    ((mk "TLS fragmentation"%string (nameOr (TLSFragment b) "off") (nameOr (TLSFragment d) "off"))
       <| ch_Impact := "changes how this list's direct TLS connections start" |>).
Definition position_rows (relBase relDesired : gmap string nat) (d : RoutingList) : list Change :=
  match relBase !! rl_ID d with
  | None => []
  | Some op =>
      let np := default 0%nat (relDesired !! rl_ID d) in
      when_changed (op =? np)%nat
        (on_field (list_row d ActionReordered "rules are evaluated in order, so this changes which rule wins for overlapping destinations")
           "Position" ("#" +:+ pretty (Z.of_nat op + 1)) ("#" +:+ pretty (Z.of_nat np + 1)))
  end.
Definition diffRoutingLists (base desired : list RoutingList) : list Change :=
  let relBase := relativeOrder base desired in
  let relDesired := relativeOrder desired base in
  diff_by rl_ID (fun d => list_row d ActionAdded "new destinations start being routed by this rule")
    (fun b d => list_fields b d ++ position_rows relBase relDesired d)
    (fun b => interrupting (list_row b ActionRemoved "these destinations fall back to the default route")) base desired.

(** *** Rules and device groups *)
Definition summariseRule (r : Rule) : string :=
  "→ " +:+ nameOr (r_Outbound r) "(no outbound)" +:+ (if Disabled r then " (disabled)" else "").
Definition rule_row (r : Rule) (action : string) : Change :=
  row (r_ID r) "rule" (r_ID r) action SubDeviceRules "changes which traffic this rule sends where".
Definition diffRules : list Rule -> list Rule -> list Change :=
  diff_by r_ID (fun d => rule_row d ActionAdded)
    (fun b d => when_changed (sameJSON b d) (on_field (rule_row d ActionModified) "Rule definition" (summariseRule b) (summariseRule d)))
    (fun b => interrupting (rule_row b ActionRemoved)).
Definition devices_row (g : DeviceGroup) (action : string) : Change :=
  row (dg_ID g) "device_group" (nameOr (dg_Name g) (dg_ID g)) action SubDeviceRules "changes which devices the rules using this group apply to".
Definition diffDeviceGroups : list DeviceGroup -> list DeviceGroup -> list Change :=
  diff_by dg_ID (fun d => devices_row d ActionAdded)
    (fun b d => when_changed (sameJSON b d) (on_field (devices_row d ActionModified) "Members"
                  (countWord (length (dg_Members b)) "device" "devices") (countWord (length (dg_Members d)) "device" "devices")))
    (fun b => devices_row b ActionRemoved).

(** *** The DNS plane and the settings *)
Definition dns_row (action impact : string) : Change := row "dns" "dns" "DNS plane" action SubDNS impact.
Definition dns_fields (b d : DNSSettings) : list Change :=
  let mk field before after := on_field (dns_row ActionModified "changes how names are resolved for routed traffic") field before after in
  let flag field (f : DNSSettings -> bool) := when_changed (eqb (f b) (f d)) (mk field (boolWord (f b)) (boolWord (f d))) in
  when_changed (eqb (dns_Enabled b) (dns_Enabled d))
    (interrupting (mk "DNS management"%string (boolWord (dns_Enabled b)) (boolWord (dns_Enabled d)))) ++
  flag "Leak protection"%string dns_LeakProof ++
  flag "FakeIP"%string dns_FakeIP ++
  when_changed (bool_decide (dns_Strategy b = dns_Strategy d))
    (mk "Strategy"%string (nameOr (dns_Strategy b) "default") (nameOr (dns_Strategy d) "default")) ++
  (if negb (length (dns_Servers b) =? length (dns_Servers d))%nat then
     [mk "Resolvers"%string (countWord (length (dns_Servers b)) "resolver" "resolvers") (countWord (length (dns_Servers d)) "resolver" "resolvers")]
   else when_changed (sameJSON (dns_Servers b) (dns_Servers d)) (mk "Resolvers"%string SecretSet SecretChanged)) ++
  when_changed ((length (dns_Rules b) =? length (dns_Rules d))%nat && sameJSON (dns_Rules b) (dns_Rules d))
    (mk "DNS rules"%string (countWord (length (dns_Rules b)) "rule" "rules") (countWord (length (dns_Rules d)) "rule" "rules")) ++
  when_changed (bool_decide (dns_Final b = dns_Final d))
    (mk "Default resolver"%string (nameOr (dns_Final b) "none") (nameOr (dns_Final d) "none")) ++
  when_changed (eqb (dns_Intercept b) (dns_Intercept d))
    (interrupting (mk "Intercept DNS"%string (boolWord (dns_Intercept b)) (boolWord (dns_Intercept d)))) ++
  flag "Reject encrypted DNS"%string dns_InterceptRejectEncrypted ++
  when_changed (eqb (dns_DisableCache b) (dns_DisableCache d))
    (mk "DNS cache"%string (boolWord (negb (dns_DisableCache b))) (boolWord (negb (dns_DisableCache d)))) ++
  flag "Independent cache"%string dns_IndependentCache ++
  when_changed (bool_decide (dns_ClientSubnet b = dns_ClientSubnet d))
    (mk "Client subnet"%string (nameOr (dns_ClientSubnet b) "none") (nameOr (dns_ClientSubnet d) "none")) ++
  flag "Reverse mapping"%string dns_ReverseMapping.
Definition diffDNSPlane (base desired : option DNSSettings) : list Change :=
  match base, desired with
  | None, None => []
  | None, Some _ => [dns_row ActionAdded "WayHop starts managing DNS resolution"]
  | Some _, None => [interrupting (dns_row ActionRemoved "WayHop stops managing DNS; the core falls back to its default resolver")]
  | Some b, Some d => dns_fields b d
  end.

Context {Rest : Type}.
Definition setting_row (field before after sub impact : string) (interrupt : bool) : Change :=
  (on_field (row "settings" "setting" field ActionModified sub impact) field before after) <| ch_MayInterrupt := interrupt |>.
Definition diffSettings (b d : Config Rest) : list Change :=
  when_changed (bool_decide (RoutingMode b = RoutingMode d))
    ((setting_row "Routing mode" (nameOr (RoutingMode b) "default") (nameOr (RoutingMode d) "default") SubFirewallPBR
       "changes how ALL traffic is captured and routed" true)
       <| ch_Warnings := ["switching routing mode rebuilds the datapath; verify connectivity inside the fail-safe window"%string] |>) ++
  when_changed (bool_decide (Offload b = Offload d))
    (setting_row "Flow offload" (nameOr (Offload b) "off") (nameOr (Offload d) "off") SubOffload
       "changes whether flows are accelerated in software/hardware" false) ++
  when_changed (bool_decide (RuleSetDetour b = RuleSetDetour d))
    (setting_row "Rule-set download route" (nameOr (RuleSetDetour b) "direct") (nameOr (RuleSetDetour d) "direct") SubRouting
       "changes which path routing-list downloads use (direct downloads fail on a censored network)" false) ++
  when_changed (bool_decide (cf_CoreOverride b = cf_CoreOverride d))
    (let before := overrideWord (cf_CoreOverride b) in
     let after := overrideWord (cf_CoreOverride d) in
     setting_row "Core override" before (if bool_decide (before = after) then after +:+ " (edited)" else after) SubGeneral
       "changes the sing-box config WayHop generates, after it is generated" true).

Definition Diff (baseRev desiredRev : string) (base desired : Profile) (baseCfg desiredCfg : Config Rest) : ChangeSet :=
  mkChangeSet baseRev desiredRev
    (diffEndpoints (Endpoints base) (Endpoints desired) ++ diffGroups (Groups base) (Groups desired) ++
     diffRoutingLists (RoutingLists base) (RoutingLists desired) ++ diffRules (Rules base) (Rules desired) ++
     diffDeviceGroups (DeviceGroups base) (DeviceGroups desired) ++ diffDNSPlane (DNS base) (DNS desired) ++
     diffSettings baseCfg desiredCfg).
End changes.

(** ** [lifecycle.go] *)
Record Lifecycle := mkLifecycle {
  lc_State : string; lc_Label : string; lc_Detail : string; lc_Actions : list string; Attention : bool
}.
Record LifecycleInputs := mkInputs {
  PendingChanges : Z; FailSafeArmed : bool; in_Effective : string; EffectiveReason : string; NothingConfigured : bool
}.
Definition reasonOr (reason fallback : string) : string := if bool_decide (reason = "") then fallback else reason.
Definition Describe (i : LifecycleInputs) : Lifecycle :=
  if FailSafeArmed i then
    mkLifecycle "live_not_committed" "Live — not saved permanently"
      "These changes are running now but will roll back automatically unless you confirm them."
      ["apply_permanently"; "rollback_now"; "review_changes"]%string true
  else if bool_decide (in_Effective i = "drift") then
    mkLifecycle "external_drift" "Router changed outside WayHop"
      (reasonOr (EffectiveReason i) "The router's live configuration no longer matches what WayHop applied.")
      ["review_changes"; "reapply"; "accept_router_state"; "run_diagnostics"]%string true
  else if NothingConfigured i then
    mkLifecycle "nothing_configured" "No changes" "Nothing is configured yet. Add a connection to get started." ["review_changes"]%string false
  else if bool_decide (in_Effective i = "unknown") then
    mkLifecycle "unverified" "Not verified"
      (reasonOr (EffectiveReason i) "WayHop cannot confirm what the router is actually running.")
      ["run_diagnostics"; "review_changes"]%string true
  else if 0 <? PendingChanges i then
    mkLifecycle "saved_not_applied" "Saved — not applied yet"
      "Your changes are stored but the router is still running the previous configuration."
      ["review_changes"; "test_changes"; "apply_permanently"; "discard_all"]%string false
  else mkLifecycle "committed" "Applied and confirmed" "The router is verified to be running this configuration." ["review_changes"]%string false.
