(* ===== verification/ChangesetUndo.v ===== *)
(** * Taking changes back

    Models [src/internal/changeset/undo.go]: [Undo], which reverts one field, one object, one subsystem
    or everything the review shows, by the differ's own rows ([Changeset]). An index is a [nat]; an id
    that is not there has none. Copies of slices and maps are values here. *)
From S2P Require Import Prelude GoStrings GoText Model Json Changeset.
Local Open Scope Z_scope.

Definition ScopeField : string := "field".
Definition ScopeObject : string := "object".
Definition ScopeSubsystem : string := "subsystem".
Definition ScopeAll : string := "all".
Definition objEndpoint : string := "endpoint".
Definition objGroup : string := "group".
Definition objRoutingList : string := "routing_list".
Definition objRule : string := "rule".
Definition objDeviceGroup : string := "device_group".
Definition objDNS : string := "dns".
Definition objSetting : string := "setting".
Record UndoRequest := mkUndo { u_Scope : string; u_ID : string; u_ObjectType : string; u_Field : string; u_Subsystem : string }.
Inductive undo_error :=
  ObjectNeedsID | NoPendingObject (id : string) | FieldNeedsBoth | NoPendingField (field id : string) | UnknownScope (scope : string)
| NothingToDiscard | NeedsSubsystem | NothingInSubsystem (sub : string).
Definition wants (objType kind : string) : bool := bool_decide (objType = "") || bool_decide (objType = kind).

(** ** Places in an order *)
Definition insertAt {A} (l : list A) (v : A) (i : nat) : list A := take i l ++ v :: drop i l.
(** The other ids, and where [id] stands among them. *)
Definition rest_of (ids : list string) (id : string) : list string := List.filter (fun x => negb (bool_decide (x = id))) ids.
Fixpoint cur_from (id : string) (n : nat) (cur : option nat) (ids : list string) : option nat :=
  match ids with
  | [] => cur
  | x :: ids => if bool_decide (x = id) then cur_from id n (Some n) ids else cur_from id (S n) cur ids
  end.
Definition cur_of (ids : list string) (id : string) : option nat := cur_from id 0 None ids.
Definition rank_of (ids : list string) : gmap string nat := foldl (fun m ix => <[ix.2 := ix.1]> m) ∅ (imap pair ids).
(** [restoreIndex]: the slot with the fewest objects on the other side than in the baseline. *)
Record Slide := mkSlide { sl_misplaced : Z; sl_best : Z; sl_bestAt : nat; sl_atCur : Z }.
Definition slide_one (rank : gmap string nat) (own : nat) (cur : option nat) (k : nat) (s : Slide) (x : string) : Slide :=
  let misplaced :=
    match rank !! x with
    | Some r => if (r <? own)%nat then sl_misplaced s - 1 else sl_misplaced s + 1
    | None => sl_misplaced s
    end in
  let better := misplaced <? sl_best s in
  mkSlide misplaced (if better then misplaced else sl_best s) (if better then S k else sl_bestAt s)
    (if bool_decide (cur = Some (S k)) then misplaced else sl_atCur s).
Fixpoint slide (rank : gmap string nat) (own : nat) (cur : option nat) (k : nat) (s : Slide) (rest : list string) : Slide :=
  match rest with [] => s | x :: rest => slide rank own cur (S k) (slide_one rank own cur k s x) rest end.
Definition before_own (rank : gmap string nat) (own : nat) (x : string) : bool :=
  match rank !! x with Some r => (r <? own)%nat | None => false end.
Definition restoreIndex (baseIDs desiredIDs : list string) (id : string) : nat :=
  let rank := rank_of baseIDs in
  let rest := rest_of desiredIDs id in
  let cur := cur_of desiredIDs id in
  match rank !! id with
  | None => default (length rest) cur
  | Some own =>
      let misplaced := Z.of_nat (length (List.filter (before_own rank own) rest)) in
      let s := slide rank own cur 0 (mkSlide misplaced misplaced 0 (if bool_decide (cur = Some 0%nat) then misplaced else -1)) rest in
      match cur with
      | Some c => if sl_atCur s =? sl_best s then c else sl_bestAt s
      | None => sl_bestAt s
      end
  end.
(** [rankSlot]: as many shared objects in front as the baseline has. *)
Fixpoint shared_before (inDesired : list string) (id : string) (baseIDs : list string) : nat :=
  match baseIDs with
  | [] => 0
  | x :: baseIDs =>
      if bool_decide (x = id) then 0
      else ((if bool_decide (x ∈ inDesired) then 1 else 0) + shared_before inDesired id baseIDs)%nat
  end.
Fixpoint slot_range (inBase : list string) (k i shared lo : nat) (len : nat) (rest : list string) : nat * nat :=
  match rest with
  | [] => (lo, len)
  | x :: rest =>
      if negb (bool_decide (x ∈ inBase)) then slot_range inBase k (S i) shared lo len rest
      else if (shared =? k)%nat then (lo, i)
      else slot_range inBase k (S i) (S shared) (if (S shared =? k)%nat then S i else lo) len rest
  end.
Definition rankSlot (baseIDs desiredIDs : list string) (id : string) : nat :=
  let rest := rest_of desiredIDs id in
  let cur := cur_of desiredIDs id in
  if negb (bool_decide (id ∈ baseIDs)) then default (length rest) cur
  else
    let '(lo, hi) := slot_range baseIDs (shared_before desiredIDs id baseIDs) 0 0 0 (length rest) rest in
    match cur with
    | None => lo
    | Some c => if (c <? lo)%nat then lo else if (hi <? c)%nat then hi else c
    end.
Definition slotFunc : Type := list string -> list string -> string -> nat.

(** ** One object of a collection *)
Definition find_at {A} (idOf : A -> string) (id : string) (l : list A) : option (nat * A) := list_find (fun x => idOf x = id) l.
Definition undoOrdered {A} (base desired : list A) (id : string) (idOf : A -> string) (equal : A -> A -> bool)
    (slot : option slotFunc) : option (list A) :=
  match find_at idOf id base, find_at idOf id desired with
  | None, None => None
  | None, Some (di, _) => Some (delete di desired)
  | Some (_, b), None =>
      let place := default restoreIndex slot in
      Some (insertAt desired b (place (map idOf base) (map idOf desired) id))
  | Some (_, b), Some (di, d) =>
      let target := match slot with Some f => f (map idOf base) (map idOf desired) id | None => di end in
      if (target =? di)%nat && equal b d then None else Some (insertAt (delete di desired) b target)
  end.
Definition keepRefreshClock (b cur : RoutingList) : RoutingList :=
  let b := if CIDRRefreshed cur =? 0 then b else b <| CIDRRefreshed := CIDRRefreshed cur |> in
  if DomainRefreshed cur =? 0 then b else b <| DomainRefreshed := DomainRefreshed cur |>.

Section undo.
Context (sprint : any -> string) (sha256hex8 : string -> string) (unicode_lower : bytes -> bytes).
Context (decode : string -> option (any * bool)) {Rest : Type}.

Definition no_rows (l : list Change) : bool := (length l =? 0)%nat.
Definition endpointsEqual (a b : Endpoint) : bool := no_rows (diffEndpointFields sprint sha256hex8 unicode_lower a b).
Definition groupsEqual (a b : Group) : bool := no_rows (diffGroups [a] [b]).
Definition routingEqual (a b : RoutingList) : bool := no_rows (diffRoutingLists [a] [b]).
Definition rulesEqual (a b : Rule) : bool := no_rows (diffRules [a] [b]).
Definition deviceGroupsEqual (a b : DeviceGroup) : bool := no_rows (diffDeviceGroups [a] [b]).

Definition undoEndpointObject (base desired : Profile) (id : string) : option Profile :=
  s ← undoOrdered (Endpoints base) (Endpoints desired) id ep_ID endpointsEqual None; Some (desired <| Endpoints := s |>).
Definition undoGroupObject (base desired : Profile) (id : string) : option Profile :=
  s ← undoOrdered (Groups base) (Groups desired) id gr_ID groupsEqual None; Some (desired <| Groups := s |>).
Definition undoRoutingObject (base desired : Profile) (id : string) (slot : slotFunc) : option Profile :=
  let lists :=
    match find_at rl_ID id (RoutingLists base), find_at rl_ID id (RoutingLists desired) with
    | Some (bi, b), Some (_, d) => <[bi := keepRefreshClock b d]> (RoutingLists base)
    | _, _ => RoutingLists base
    end in
  s ← undoOrdered lists (RoutingLists desired) id rl_ID routingEqual (Some slot); Some (desired <| RoutingLists := s |>).
Definition undoRuleObject (base desired : Profile) (id : string) : option Profile :=
  s ← undoOrdered (Rules base) (Rules desired) id r_ID rulesEqual None; Some (desired <| Rules := s |>).
Definition undoDeviceGroupObject (base desired : Profile) (id : string) : option Profile :=
  s ← undoOrdered (DeviceGroups base) (DeviceGroups desired) id dg_ID deviceGroupsEqual None; Some (desired <| DeviceGroups := s |>).
Definition undoDNSObject (base desired : Profile) (id : string) : option Profile :=
  if negb (bool_decide (id = "dns")) || no_rows (diffDNSPlane (DNS base) (DNS desired)) then None
  else Some (desired <| DNS := DNS base |>).

(** ** The settings *)
Definition settingsEqual (a b : Config Rest) : bool :=
  bool_decide (RoutingMode a = RoutingMode b) && bool_decide (Offload a = Offload b) &&
  bool_decide (RuleSetDetour a = RuleSetDetour b) && bool_decide (cf_CoreOverride a = cf_CoreOverride b).
Definition restoreSettings (baseCfg desiredCfg : Config Rest) : Config Rest :=
  desiredCfg <| RoutingMode := RoutingMode baseCfg |> <| Offload := Offload baseCfg |>
    <| RuleSetDetour := RuleSetDetour baseCfg |> <| cf_CoreOverride := cf_CoreOverride baseCfg |>.
Definition revert_setting (base c : Config Rest) (field : string) : Config Rest :=
  if bool_decide (field = "Routing mode") then c <| RoutingMode := RoutingMode base |>
  else if bool_decide (field = "Flow offload") then c <| Offload := Offload base |>
  else if bool_decide (field = "Rule-set download route") then c <| RuleSetDetour := RuleSetDetour base |>
  else if bool_decide (field = "Core override") then c <| cf_CoreOverride := cf_CoreOverride base |>
  else c.

(** ** One object *)
Definition State : Type := Profile * Config Rest.
Definition profile_undo (objType kind : string) (undo : option Profile) : option Profile := if wants objType kind then undo else None.
Definition or_else {A} (a b : option A) : option A := match a with Some x => Some x | None => b end.
Definition undoObject (base desired : State) (objType id : string) (listSlot : slotFunc) : option State :=
  if wants objType objSetting && bool_decide (id = "settings") && negb (settingsEqual base.2 desired.2)
  then Some (desired.1, restoreSettings base.2 desired.2)
  else
    p ← or_else (profile_undo objType objEndpoint (undoEndpointObject base.1 desired.1 id))
       (or_else (profile_undo objType objGroup (undoGroupObject base.1 desired.1 id))
       (or_else (profile_undo objType objRoutingList (undoRoutingObject base.1 desired.1 id listSlot))
       (or_else (profile_undo objType objRule (undoRuleObject base.1 desired.1 id))
       (or_else (profile_undo objType objDeviceGroup (undoDeviceGroupObject base.1 desired.1 id))
                (profile_undo objType objDNS (undoDNSObject base.1 desired.1 id))))));
    Some (p, desired.2).

(** ** One field *)
Definition paramKeyFromLabel (label : string) : string :=
  let s := str (trim label) in
  match s with [] => "" | _ => unstr (ToLower unicode_lower (replace_byte 32 95 s)) end.
Definition revert_param (e b : Endpoint) (field : string) : option Endpoint :=
  let key := paramKeyFromLabel field in
  if bool_decide (key = "") then None
  else match ep_Params b !! key, ep_Params e !! key with
       | None, None => None
       | None, Some _ => Some (e <| ep_Params := delete key (ep_Params e) |>)
       | Some v, _ => Some (e <| ep_Params := <[key := v]> (ep_Params e) |>)
       end.
Definition revertEndpointField (e b : Endpoint) (field : string) : option Endpoint :=
  if bool_decide (field = "Name") then Some (e <| ep_Name := ep_Name b |>)
  else if bool_decide (field = "Server") then Some (e <| ep_Server := ep_Server b |>)
  else if bool_decide (field = "Port") then Some (e <| ep_Port := ep_Port b |>)
  else if bool_decide (field = "Protocol") then Some (e <| ep_Protocol := ep_Protocol b |>)
  else if bool_decide (field = "Engine") then Some (e <| ep_Engine := ep_Engine b |>)
  else if bool_decide (field = "Enabled") then Some (e <| ep_Enabled := ep_Enabled b |>)
  else if bool_decide (field = "MTU") then Some (e <| ep_MTU := ep_MTU b |>)
  else if bool_decide (field = fieldAWGEngine) then Some (e <| ep_AWGUserspace := ep_AWGUserspace b |>)
  else if bool_decide (field = "Owner") then Some (e <| ep_Owner := ep_Owner b |>)
  else if bool_decide (field = "Keepalive") then Some (e <| ep_PersistentKeepalive := ep_PersistentKeepalive b |>)
  else if bool_decide (field = "TLS settings") then Some (e <| ep_TLS := ep_TLS b |>)
  else if bool_decide (field = "Transport") then Some (e <| ep_Transport := ep_Transport b |>)
  else if bool_decide (field = "Multiplex") then Some (e <| ep_Multiplex := ep_Multiplex b |>)
  else if bool_decide (field = "Health test") then Some (e <| ep_Health := ep_Health b |>)
  else revert_param e b field.
Definition revertGroupField (g b : Group) (field : string) : option Group :=
  if bool_decide (field = "Name") then Some (g <| gr_Name := gr_Name b |>)
  else if bool_decide (field = "Type") then Some (g <| gr_Type := gr_Type b |>)
  else if bool_decide (field = "Members") then Some (g <| gr_Members := gr_Members b |>)
  else if bool_decide (field = "Health test") then Some (g <| gr_Test := gr_Test b |>)
  else if bool_decide (field = "Kill switch") then Some (g <| gr_KillSwitch := gr_KillSwitch b |>)
  else if bool_decide (field = "Interrupt on switch") then Some (g <| gr_InterruptOnSwitch := gr_InterruptOnSwitch b |>)
  else if bool_decide (field = "Managed by WayHop") then Some (g <| gr_Managed := gr_Managed b |>)
  else None.
Definition revertRoutingField (r b : RoutingList) (field : string) : option RoutingList :=
  if bool_decide (field = "Name") then Some (r <| rl_Name := rl_Name b |>)
  else if bool_decide (field = "Outbound") then Some (r <| rl_Outbound := rl_Outbound b |>)
  else if bool_decide (field = "Enabled") then Some (r <| rl_Enabled := rl_Enabled b |>)
  else if bool_decide (field = "Source URL") then Some (r <| Source := Source b |>)
  else if bool_decide (field = "Entries") then Some (r <| Manual := Manual b |>)
  else if bool_decide (field = "Feed format") then Some (r <| rl_Format := rl_Format b |>)
  else if bool_decide (field = "IP feed") then Some (r <| CIDRCache := CIDRCache b |>)
  else if bool_decide (field = "Name feed") then Some (r <| DomainCache := DomainCache b |>)
  else if bool_decide (field = "IP feed source") then Some (r <| CIDRSource := CIDRSource b |>)
  else if bool_decide (field = "Name feed source") then Some (r <| DomainSource := DomainSource b |>)
  else if bool_decide (field = "Download via") then Some (r <| DownloadVia := DownloadVia b |>)
  else if bool_decide (field = "Auto-update") then Some (r <| RefreshHours := RefreshHours b |>)
  else if bool_decide (field = "Applies to") then Some (r <| ScopeMode := ScopeMode b |> <| ScopeGroups := ScopeGroups b |>)
  else if bool_decide (field = "TLS fragmentation") then Some (r <| TLSFragment := TLSFragment b |>)
  else None.
Definition revertDNSField (d b : DNSSettings) (field : string) : option DNSSettings :=
  if bool_decide (field = "DNS management") then Some (d <| dns_Enabled := dns_Enabled b |>)
  else if bool_decide (field = "Leak protection") then Some (d <| dns_LeakProof := dns_LeakProof b |>)
  else if bool_decide (field = "FakeIP") then Some (d <| dns_FakeIP := dns_FakeIP b |>)
  else if bool_decide (field = "Strategy") then Some (d <| dns_Strategy := dns_Strategy b |>)
  else if bool_decide (field = "Resolvers") then Some (d <| dns_Servers := dns_Servers b |>)
  else if bool_decide (field = "DNS rules") then Some (d <| dns_Rules := dns_Rules b |>)
  else if bool_decide (field = "Default resolver") then Some (d <| dns_Final := dns_Final b |>)
  else if bool_decide (field = "Intercept DNS") then Some (d <| dns_Intercept := dns_Intercept b |>)
  else if bool_decide (field = "Reject encrypted DNS") then Some (d <| dns_InterceptRejectEncrypted := dns_InterceptRejectEncrypted b |>)
  else if bool_decide (field = "DNS cache") then Some (d <| dns_DisableCache := dns_DisableCache b |>)
  else if bool_decide (field = "Independent cache") then Some (d <| dns_IndependentCache := dns_IndependentCache b |>)
  else if bool_decide (field = "Client subnet") then Some (d <| dns_ClientSubnet := dns_ClientSubnet b |>)
  else if bool_decide (field = "Reverse mapping") then Some (d <| dns_ReverseMapping := dns_ReverseMapping b |>)
  else None.
(** An object both states have, with one field of it put back. *)
Definition revert_in {A} (idOf : A -> string) (id : string) (revert : A -> A -> option A) (base desired : list A) : option (list A) :=
  match find_at idOf id base, find_at idOf id desired with
  | Some (_, b), Some (di, d) => x ← revert d b; Some (<[di := x]> desired)
  | _, _ => None
  end.
Definition undoRoutingPosition (base desired : Profile) (id : string) : option Profile :=
  match find_at rl_ID id (RoutingLists desired), find_at rl_ID id (RoutingLists base) with
  | Some (di, cur), Some _ =>
      let target := rankSlot (map rl_ID (RoutingLists base)) (map rl_ID (RoutingLists desired)) id in
      if (target =? di)%nat then None
      else Some (desired <| RoutingLists := insertAt (delete di (RoutingLists desired)) cur target |>)
  | _, _ => None
  end.
Definition has_both {A} (idOf : A -> string) (id : string) (base desired : list A) : bool :=
  bool_decide (id ∈ map idOf base) && bool_decide (id ∈ map idOf desired).
Definition undo_profile_field (base desired : Profile) (objType id field : string) : option Profile :=
  or_else (profile_undo objType objEndpoint
    (s ← revert_in ep_ID id (fun e b => revertEndpointField e b field) (Endpoints base) (Endpoints desired); Some (desired <| Endpoints := s |>)))
  (or_else (profile_undo objType objGroup
    (s ← revert_in gr_ID id (fun g b => revertGroupField g b field) (Groups base) (Groups desired); Some (desired <| Groups := s |>)))
  (or_else (profile_undo objType objRoutingList
    (or_else (if bool_decide (field = "Position") then undoRoutingPosition base desired id else None)
       (s ← revert_in rl_ID id (fun r b => revertRoutingField r b field) (RoutingLists base) (RoutingLists desired); Some (desired <| RoutingLists := s |>))))
  (or_else (profile_undo objType objRule
    (if bool_decide (field = "Rule definition") && has_both r_ID id (Rules base) (Rules desired) then undoRuleObject base desired id else None))
  (or_else (profile_undo objType objDeviceGroup
    (if bool_decide (field = "Members") && has_both dg_ID id (DeviceGroups base) (DeviceGroups desired) then undoDeviceGroupObject base desired id else None))
  (profile_undo objType objDNS
    (match DNS base, DNS desired with
     | Some b, Some d => if bool_decide (id = "dns") then x ← revertDNSField d b field; Some (desired <| DNS := Some x |>) else None
     | _, _ => None
     end)))))).
Definition undoField (base desired : State) (objType id field : string) : option State :=
  let out := revert_setting base.2 desired.2 field in
  if wants objType objSetting && bool_decide (id = "settings") && negb (settingsEqual out desired.2)
  then Some (desired.1, out)
  else p ← undo_profile_field base.1 desired.1 objType id field; Some (p, desired.2).

(** ** Many at once *)
Record Batch := mkBatch { b_State : State; b_Touched : bool; b_Seen : list (string * string) }.
Definition undo_change (base : State) (keep : Change -> bool) (b : Batch) (ch : Change) : Batch :=
  if negb (keep ch) then b
  else if bool_decide (ch_ObjectType ch = objSetting) then
    match undoField base (b_State b) objSetting (ch_ID ch) (ch_Field ch) with
    | Some s => mkBatch ((b_State b).1, s.2) true (b_Seen b)
    | None => b
    end
  else
    let key := (ch_ObjectType ch, ch_ID ch) in
    if bool_decide (key ∈ b_Seen b) then b
    else match undoObject base (b_State b) (ch_ObjectType ch) (ch_ID ch) restoreIndex with
         | Some s => mkBatch s true (key :: b_Seen b)
         | None => mkBatch (b_State b) (b_Touched b) (key :: b_Seen b)
         end.
Definition rows_between (base desired : State) : list Change :=
  Changes (Diff sprint sha256hex8 unicode_lower decode "" "" base.1 desired.1 base.2 desired.2).
Definition undoReportedOnce (base desired : State) (keep : Change -> bool) : Batch :=
  foldl (undo_change base keep) (mkBatch desired false []) (rows_between base desired).
Definition maxUndoPasses : nat := 4.
Fixpoint undo_passes (n : nat) (base desired : State) (keep : Change -> bool) (touched : bool) : State * bool :=
  match n with
  | O => (desired, touched)
  | S n =>
      let b := undoReportedOnce base desired keep in
      if negb (b_Touched b) then (desired, touched) else undo_passes n base (b_State b) keep true
  end.
Definition undoReported (base desired : State) (keep : Change -> bool) : State * bool := undo_passes maxUndoPasses base desired keep false.
Definition undoAll (base desired : State) : undo_error + State :=
  let '(out, touched) := undoReported base desired (fun _ => true) in
  if negb touched then inl NothingToDiscard else inr out.
Definition undoSubsystem (base desired : State) (sub : string) : undo_error + State :=
  if bool_decide (sub = "") then inl NeedsSubsystem
  else
    let '(out, touched) := undoReported base desired (fun ch => bool_decide (ch_Subsystem ch = sub)) in
    if negb touched then inl (NothingInSubsystem sub) else inr out.
Definition or_error {A} (e : undo_error) (a : option A) : undo_error + A := match a with Some x => inr x | None => inl e end.
Definition Undo (base desired : State) (req : UndoRequest) : undo_error + State :=
  if bool_decide (u_Scope req = ScopeAll) then undoAll base desired
  else if bool_decide (u_Scope req = ScopeSubsystem) then undoSubsystem base desired (u_Subsystem req)
  else if bool_decide (u_Scope req = ScopeObject) then
    if bool_decide (u_ID req = "") then inl ObjectNeedsID
    else or_error (NoPendingObject (u_ID req)) (undoObject base desired (u_ObjectType req) (u_ID req) rankSlot)
  else if bool_decide (u_Scope req = ScopeField) then
    if bool_decide (u_ID req = "") || bool_decide (u_Field req = "") then inl FieldNeedsBoth
    else or_error (NoPendingField (u_Field req) (u_ID req)) (undoField base desired (u_ObjectType req) (u_ID req) (u_Field req))
  else inl (UnknownScope (u_Scope req)).
End undo.
