(* ===== verification/ChangesetFacts.v ===== *)
(** * What the review is made of

    A row of [Diff] belongs to one object: [obj_rows] says which rows an object has from what the two
    states hold under its id, and [diff_by_elem] that the rows of a collection are those of its objects.
    The places of [restoreIndex] and [rankSlot] are counted by [shared_before].

    Further on: what reverting an object leaves. *)
From stdpp Require Import sorting.
From S2P Require Import Prelude GoStrings GoText Model Json GenResolve Changeset ChangesetUndo.
Local Open Scope Z_scope.

(** ** Looking objects up *)
Lemma map_fmap {A B} (f : A -> B) l : map f l = f <$> l.
Proof. done. Qed.
Section lookups.
Context {A : Type} (idOf : A -> string).
Implicit Types (l : list A) (id : string).

Lemma find_by_perm l l' id : NoDup (idOf <$> l) -> l ≡ₚ l' -> find_by idOf id l = find_by idOf id l'.
Proof.
  intros Hnd Hp. destruct (find_by idOf id l) as [x|] eqn:E; symmetry.
  - apply find_by_Some in E as [Hx <-]. apply find_by_in; [by rewrite <- Hp|by rewrite <- Hp].
  - apply find_by_None. apply find_by_None in E. by rewrite <- Hp.
Qed.
Lemma find_by_cons x l id : find_by idOf id (x :: l) = if bool_decide (idOf x = id) then Some x else find_by idOf id l.
Proof. done. Qed.
Lemma by_id_find l id : NoDup (idOf <$> l) -> by_id idOf l !! id = find_by idOf id l.
Proof.
  unfold by_id. induction l as [|x l IH] using rev_ind; [done|].
  intros Hnd. rewrite foldl_snoc. rewrite fmap_app, NoDup_app in Hnd. destruct Hnd as (Hnd & Hx & _).
  rewrite (find_by_perm _ (x :: l)); [|rewrite fmap_app; apply NoDup_app; split_and!; [done|done|apply NoDup_singleton]|by rewrite Permutation_app_comm].
  rewrite find_by_cons. case_bool_decide as E.
  - subst. by rewrite lookup_insert_eq.
  - rewrite lookup_insert_ne by done. by apply IH.
Qed.
Lemma find_at_Some l id i x : find_at idOf id l = Some (i, x) -> l !! i = Some x /\ idOf x = id /\ find_by idOf id l = Some x.
Proof.
  unfold find_at. intros H. pose proof H as (Hi & Hx & _)%list_find_Some. split_and!; [done|done|].
  clear Hi Hx. revert i H. induction l as [|y l IH]; intros i; cbn; [done|].
  destruct (decide (idOf y = id)) as [E|E]; [intros [= _ ->]; by rewrite bool_decide_eq_true_2|].
  rewrite bool_decide_eq_false_2 by done. destruct (list_find _ l) as [[j z]|] eqn:F; [|done]. cbn. intros [= _ <-]. by apply (IH j).
Qed.
Lemma find_at_None l id : find_at idOf id l = None <-> find_by idOf id l = None.
Proof.
  unfold find_at. rewrite list_find_None, find_by_None, Forall_forall. split.
  - intros H (x & -> & Hx)%list_elem_of_fmap. by apply (H x).
  - intros H x Hx E. apply H. rewrite <- E. by apply list_elem_of_fmap_2.
Qed.
Lemma insertAt_perm l (v : A) i : insertAt l v i ≡ₚ v :: l.
Proof. unfold insertAt. rewrite <- (take_drop i l) at 3. by rewrite Permutation_middle. Qed.

(** ** One object put back *)
Lemma undoOrdered_Some base desired id equal slot s :
  NoDup (idOf <$> base) -> NoDup (idOf <$> desired) -> undoOrdered base desired id idOf equal slot = Some s ->
  NoDup (idOf <$> s) /\ forall x, find_by idOf x s = if bool_decide (x = id) then find_by idOf id base else find_by idOf x desired.
Proof.
  intros Hb Hd. unfold undoOrdered.
  assert (Hins : forall b l i, idOf b = id -> NoDup (idOf <$> b :: l) ->
    NoDup (idOf <$> insertAt l b i) /\
    forall x, find_by idOf x (insertAt l b i) = if bool_decide (x = id) then Some b else find_by idOf x l).
  { intros b l i Hid Hnd. assert (Hnd' : NoDup (idOf <$> insertAt l b i)) by (by rewrite insertAt_perm).
    split; [done|]. intros x. rewrite (find_by_perm _ (b :: l)) by (done || apply insertAt_perm).
    rewrite find_by_cons, Hid. by rewrite (bool_decide_ext (id = x) (x = id)) by done. }
  assert (Hdel : forall di d, desired !! di = Some d -> idOf d = id ->
    NoDup (idOf <$> delete di desired) /\ id ∉ (idOf <$> delete di desired) /\
    forall x, find_by idOf x (delete di desired) = if bool_decide (x = id) then None else find_by idOf x desired).
  { intros di d Hi Hid. pose proof (delete_Permutation desired di d Hi) as Hp.
    assert (Hnd : NoDup (idOf <$> d :: delete di desired)) by (by rewrite <- Hp).
    rewrite fmap_cons, NoDup_cons in Hnd. destruct Hnd as [Hn Hnd]. rewrite Hid in Hn. split_and!; [done|done|].
    intros x. rewrite (find_by_perm desired _ x Hd Hp), find_by_cons, Hid. rewrite (bool_decide_ext (id = x) (x = id)) by done.
    case_bool_decide as E; [|done]. subst x. by apply find_by_None. }
  destruct (find_at idOf id base) as [[bi b]|] eqn:Eb; destruct (find_at idOf id desired) as [[di d]|] eqn:Ed.
  - apply find_at_Some in Eb as (_ & Hbid & Hfb), Ed as (Hdi & Hdid & _). destruct (Hdel di d Hdi Hdid) as (Hnd & Hn & Hf).
    destruct (_ && _); [done|]. intros [= <-]. destruct (Hins b (delete di desired) (match slot with Some f => f (map idOf base) (map idOf desired) id | None => di end) Hbid)
      as [Hnd' Hf']; [by rewrite fmap_cons, Hbid, NoDup_cons|].
    split; [done|]. intros x. rewrite Hf', Hfb. case_bool_decide as E; [done|]. by rewrite Hf, bool_decide_eq_false_2.
  - apply find_at_Some in Eb as (_ & Hbid & Hfb). apply find_at_None in Ed. intros [= <-].
    destruct (Hins b desired (default restoreIndex slot (map idOf base) (map idOf desired) id) Hbid) as [Hnd' Hf'].
    { rewrite fmap_cons, Hbid, NoDup_cons. split; [by apply find_by_None|done]. }
    split; [done|]. intros x. by rewrite Hf', Hfb.
  - apply find_at_None in Eb. apply find_at_Some in Ed as (Hdi & Hdid & _). intros [= <-].
    destruct (Hdel di d Hdi Hdid) as (Hnd & _ & Hf). split; [done|]. intros x. rewrite Hf, Eb. done.
  - done.
Qed.
Lemma undoOrdered_None base desired id equal slot :
  undoOrdered base desired id idOf equal slot = None ->
  (find_by idOf id base = None /\ find_by idOf id desired = None) \/
  (exists b d di, find_by idOf id base = Some b /\ find_by idOf id desired = Some d /\ equal b d = true /\
     desired !! di = Some d /\ match slot with Some f => f (map idOf base) (map idOf desired) id = di | None => True end).
Proof.
  unfold undoOrdered.
  destruct (find_at idOf id base) as [[bi b]|] eqn:Eb; destruct (find_at idOf id desired) as [[di d]|] eqn:Ed; try done.
  - apply find_at_Some in Eb as (_ & _ & Hb), Ed as (Hdi & _ & Hd). destruct (_ && _) eqn:E; [|done].
    apply andb_true_iff in E as [E1 E2]. intros _. right. exists b, d, di. split_and!; try done.
    destruct slot; [|done]. by apply Nat.eqb_eq in E1.
  - apply find_at_None in Eb, Ed. by left.
Qed.

(** ** The rows of a collection *)
Context (added : A -> Change) (modified : A -> A -> list Change) (removed : A -> Change).
Definition rows_at (b d : option A) : list Change :=
  match b, d with
  | None, None => []
  | None, Some d => [added d]
  | Some b, Some d => modified b d
  | Some b, None => [removed b]
  end.
Lemma diff_by_elem base desired ch : NoDup (idOf <$> base) -> NoDup (idOf <$> desired) ->
  ch ∈ diff_by idOf added modified removed base desired <->
  exists id, ch ∈ rows_at (find_by idOf id base) (find_by idOf id desired).
Proof.
  intros Hb Hd. unfold diff_by. rewrite elem_of_app, list_elem_of_In, in_concat. split.
  - intros [(l & (d & <- & Hdin)%in_map_iff & Hch)|(b & -> & Hbin)%list_elem_of_fmap].
    + apply list_elem_of_In in Hdin, Hch. exists (idOf d). rewrite (find_by_in idOf desired d) by done.
      rewrite by_id_find in Hch by done. by destruct (find_by idOf (idOf d) base).
    + apply list_elem_of_In, filter_In in Hbin as [Hbin Hn]. apply list_elem_of_In in Hbin. apply negb_true_iff, bool_decide_eq_false in Hn.
      exists (idOf b). rewrite (find_by_in idOf base b) by done. replace (find_by idOf (idOf b) desired) with (@None A).
      * cbn. by left.
      * symmetry. by apply find_by_None.
  - intros [id Hch]. destruct (find_by idOf id desired) as [d|] eqn:Ed.
    + left. apply find_by_Some in Ed as [Hdin Hid]. subst id.
      eexists. split; [apply in_map, list_elem_of_In, Hdin|]. cbn beta. rewrite by_id_find by done.
      apply list_elem_of_In. by destruct (find_by idOf (idOf d) base).
    + destruct (find_by idOf id base) as [b|] eqn:Eb; cbn in Hch; [|by apply elem_of_nil in Hch].
      apply list_elem_of_singleton in Hch as ->. apply find_by_Some in Eb as [Hbin Hid]. right. apply list_elem_of_fmap_2.
      apply list_elem_of_In, filter_In. split; [by apply list_elem_of_In|]. rewrite Hid. by apply negb_true_iff, bool_decide_eq_false, find_by_None.
Qed.
End lookups.

(** ** The rows of one object *)
Section objects.
Context (sprint : any -> string) (sha256hex8 : string -> string) (unicode_lower : bytes -> bytes).
Context (decode : string -> option (any * bool)) {Rest : Type}.
Implicit Types (base desired s : Profile * Config Rest).
Abbreviation endpoint_fields := (diffEndpointFields sprint sha256hex8 unicode_lower).

Definition group_added (d : Group) : Change := group_row d ActionAdded "a new failover/selection group becomes available".
Definition group_removed (b : Group) : Change := interrupting (group_row b ActionRemoved "rules pointing at this group must be repointed").
Definition list_added (d : RoutingList) : Change := list_row d ActionAdded "new destinations start being routed by this rule".
Definition list_removed (b : RoutingList) : Change := interrupting (list_row b ActionRemoved "these destinations fall back to the default route").
Definition rule_fields (b d : Rule) : list Change :=
  when_changed (sameJSON b d) (on_field (rule_row d ActionModified) "Rule definition" (summariseRule b) (summariseRule d)).
Definition devices_fields (b d : DeviceGroup) : list Change :=
  when_changed (sameJSON b d) (on_field (devices_row d ActionModified) "Members"
    (countWord (length (dg_Members b)) "device" "devices") (countWord (length (dg_Members d)) "device" "devices")).
Definition held {A} (idOf : A -> string) (get : Profile -> list A) s id : option A := find_by idOf id (get s.1).
Definition obj_rows base desired (type id : string) : list Change :=
  if bool_decide (type = objEndpoint) then
    rows_at endpoint_added endpoint_fields endpoint_removed (held ep_ID Endpoints base id) (held ep_ID Endpoints desired id)
  else if bool_decide (type = objGroup) then
    rows_at group_added group_fields group_removed (held gr_ID Groups base id) (held gr_ID Groups desired id)
  else if bool_decide (type = objRoutingList) then
    rows_at list_added list_fields list_removed (held rl_ID RoutingLists base id) (held rl_ID RoutingLists desired id)
  else if bool_decide (type = objRule) then
    rows_at (fun d => rule_row d ActionAdded) rule_fields (fun b => interrupting (rule_row b ActionRemoved))
      (held r_ID Rules base id) (held r_ID Rules desired id)
  else if bool_decide (type = objDeviceGroup) then
    rows_at (fun d => devices_row d ActionAdded) devices_fields (fun b => devices_row b ActionRemoved)
      (held dg_ID DeviceGroups base id) (held dg_ID DeviceGroups desired id)
  else if bool_decide (type = objDNS) then (if bool_decide (id = "dns") then diffDNSPlane (DNS base.1) (DNS desired.1) else [])
  else if bool_decide (type = objSetting) then (if bool_decide (id = "settings") then diffSettings decode base.2 desired.2 else [])
  else [].
(** The row of a list that moved. *)
Definition move_rows base desired (id : string) : list Change :=
  match held rl_ID RoutingLists base id, held rl_ID RoutingLists desired id with
  | Some _, Some d =>
      position_rows (relativeOrder (RoutingLists base.1) (RoutingLists desired.1))
        (relativeOrder (RoutingLists desired.1) (RoutingLists base.1)) d
  | _, _ => []
  end.
Record distinct (p : Profile) : Prop := {
  di_endpoints : NoDup (ep_ID <$> Endpoints p); di_groups : NoDup (gr_ID <$> Groups p);
  di_lists : NoDup (rl_ID <$> RoutingLists p); di_rules : NoDup (r_ID <$> Rules p);
  di_devices : NoDup (dg_ID <$> DeviceGroups p)
}.

(** *** Every row names its object *)
Definition about (type id : string) (ch : Change) : Prop := ch_ObjectType ch = type /\ ch_ID ch = id.
Lemma when_changed_about type id same c : about type id c -> Forall (about type id) (when_changed same c).
Proof. destruct same; [constructor|by constructor]. Qed.
Lemma concat_map_about {A} type id (f : A -> list Change) l :
  (forall x, Forall (about type id) (f x)) -> Forall (about type id) (concat (map f l)).
Proof. intros H. induction l; cbn; [constructor|]. apply Forall_app_2; auto. Qed.
Lemma endpoint_row_about d field before after secret : about objEndpoint (ep_ID d) (endpoint_row d field before after secret).
Proof. unfold endpoint_row. by repeat case_match. Qed.
Lemma endpoint_fields_about b d : Forall (about objEndpoint (ep_ID d)) (endpoint_fields b d).
Proof.
  unfold diffEndpointFields. repeat apply Forall_app_2; try (apply when_changed_about, endpoint_row_about).
  - apply concat_map_about. intros k. apply when_changed_about, endpoint_row_about.
  - apply concat_map_about. intros k. unfold param_row.
    repeat case_match; try constructor; try constructor; apply endpoint_row_about.
Qed.
Lemma group_fields_about b d : Forall (about objGroup (gr_ID d)) (group_fields b d).
Proof. unfold group_fields. by repeat apply Forall_app_2; apply when_changed_about. Qed.
Lemma list_fields_about b d : Forall (about objRoutingList (rl_ID d)) (list_fields b d).
Proof. unfold list_fields. by repeat apply Forall_app_2; apply when_changed_about. Qed.
Lemma dns_about b d : Forall (about objDNS "dns") (diffDNSPlane b d).
Proof.
  destruct b as [b|], d as [d|]; cbn; try (by repeat constructor). unfold dns_fields.
  repeat apply Forall_app_2; try (by apply when_changed_about). case_match; [by repeat constructor|by apply when_changed_about].
Qed.
Lemma settings_about (b d : Config Rest) : Forall (about objSetting "settings") (diffSettings decode b d).
Proof. unfold diffSettings. by repeat apply Forall_app_2; apply when_changed_about. Qed.
Lemma rows_at_about {A} (idOf : A -> string) type added modified removed id l l' :
  (forall x, about type (idOf x) (added x)) -> (forall b d, Forall (about type (idOf d)) (modified b d)) ->
  (forall x, about type (idOf x) (removed x)) ->
  Forall (about type id) (rows_at added modified removed (find_by idOf id l) (find_by idOf id l')).
Proof.
  intros Ha Hm Hr. destruct (find_by idOf id l) as [b|] eqn:Eb; destruct (find_by idOf id l') as [d|] eqn:Ed; cbn.
  - apply find_by_Some in Ed as [_ <-]. apply Hm.
  - apply find_by_Some in Eb as [_ <-]. constructor; [apply Hr|constructor].
  - apply find_by_Some in Ed as [_ <-]. constructor; [apply Ha|constructor].
  - constructor.
Qed.

(** *** The review is the rows of its objects *)
Lemma obj_rows_about base desired type id : Forall (about type id) (obj_rows base desired type id).
Proof.
  unfold obj_rows, held. repeat (case_bool_decide; [subst|]); try (apply rows_at_about; intros); try done; try (by repeat constructor).
  - apply endpoint_fields_about.
  - apply group_fields_about.
  - apply list_fields_about.
  - by apply when_changed_about.
  - by apply when_changed_about.
  - apply dns_about.
  - apply settings_about.
Qed.
Lemma rows_at_app {A} (added : A -> Change) (f g : A -> A -> list Change) removed b d ch :
  ch ∈ rows_at added (fun b d => f b d ++ g b d) removed b d <->
  ch ∈ rows_at added f removed b d \/ match b, d with Some b, Some d => ch ∈ g b d | _, _ => False end.
Proof. destruct b, d; cbn; rewrite ?elem_of_app; tauto. Qed.
Abbreviation rows := (rows_between sprint sha256hex8 unicode_lower decode).
Lemma rows_elem base desired ch : distinct base.1 -> distinct desired.1 ->
  ch ∈ rows base desired <->
  (exists type id, ch ∈ obj_rows base desired type id) \/ exists id, ch ∈ move_rows base desired id.
Proof.
  intros [He Hg Hl Hr Hd] [He' Hg' Hl' Hr' Hd'].
  unfold rows_between, Diff. cbn [Changes]. rewrite !elem_of_app.
  unfold diffEndpoints, diffGroups, diffRoutingLists, diffRules, diffDeviceGroups. rewrite !diff_by_elem by done.
  setoid_rewrite (rows_at_app list_added list_fields). split.
  - intros [[id H]|[[id H]|[[id [H|H]]|[[id H]|[[id H]|[H|H]]]]]].
    + left. exists objEndpoint, id. exact H.
    + left. exists objGroup, id. exact H.
    + left. exists objRoutingList, id. exact H.
    + right. exists id. unfold move_rows, held. by repeat case_match.
    + left. exists objRule, id. exact H.
    + left. exists objDeviceGroup, id. exact H.
    + left. exists objDNS, "dns"%string. exact H.
    + left. exists objSetting, "settings"%string. exact H.
  - intros [(type & id & H)|[id H]].
    + unfold obj_rows in H. repeat case_bool_decide; eauto 12; by apply elem_of_nil in H.
    + do 2 right. left. exists id. right. unfold move_rows, held in H.
      destruct (find_by rl_ID id (RoutingLists base.1)), (find_by rl_ID id (RoutingLists desired.1)); try done; by apply elem_of_nil in H.
Qed.

(** ** What reverting one object does to the rows *)
Lemma concat_map_none {A} (f : A -> list Change) l : (forall x, x ∈ l -> f x = []) -> concat (map f l) = [].
Proof.
  induction l as [|x l IH]; cbn; intros H; [done|]. rewrite (H x) by left. apply IH. intros y Hy. apply H. by right.
Qed.
Lemma sameJSON_refl {A} `{EqDecision A} (a : A) : sameJSON a a = true.
Proof. by apply bool_decide_eq_true. Qed.
Lemma sameStrings_refl l : sameStrings l l = true.
Proof. by apply bool_decide_eq_true. Qed.
Lemma endpoint_fields_refl b : endpoint_fields b b = [].
Proof.
  unfold diffEndpointFields, scalar_rows. rewrite !sameJSON_refl, !concat_map_none; [done| |].
  - intros k _. unfold param_row. by rewrite bool_decide_eq_true_2.
  - intros k _. by rewrite bool_decide_eq_true_2.
Qed.
Lemma group_fields_refl b : group_fields b b = [].
Proof. unfold group_fields. by rewrite sameJSON_refl, !bool_decide_eq_true_2, !eqb_reflx. Qed.
Lemma list_fields_clock b d r : list_fields (keepRefreshClock b r) d = list_fields b d /\ list_fields b (keepRefreshClock b r) = [].
Proof.
  unfold keepRefreshClock. split; [by repeat case_match|].
  assert (list_fields b b = []) as H.
  { unfold list_fields. by rewrite !sameStrings_refl, !bool_decide_eq_true_2, !eqb_reflx, !Z.eqb_refl, Nat.eqb_refl. }
  repeat case_match; exact H.
Qed.
Lemma rule_fields_refl b : rule_fields b b = [].
Proof. unfold rule_fields. by rewrite sameJSON_refl. Qed.
Lemma devices_fields_refl b : devices_fields b b = [].
Proof. unfold devices_fields. by rewrite sameJSON_refl. Qed.
Lemma dns_rows_refl b : diffDNSPlane b b = [].
Proof.
  destruct b as [b|]; [|done]. cbn. unfold dns_fields. by rewrite !Nat.eqb_refl, !sameJSON_refl, !bool_decide_eq_true_2, !eqb_reflx.
Qed.
Lemma settings_rows_nil (b d : Config Rest) : diffSettings decode b d = [] <-> settingsEqual b d = true.
Proof.
  unfold diffSettings, settingsEqual. rewrite !andb_true_iff, !bool_decide_eq_true. unfold when_changed.
  split; [intros H; split_and!; case_bool_decide; done || (by repeat case_bool_decide)|].
  intros [[[-> ->] ->] ->]. by rewrite !bool_decide_eq_true_2.
Qed.
Lemma rows_at_refl {A} added (modified : A -> A -> list Change) removed o :
  (forall b, modified b b = []) -> rows_at added modified removed o o = [].
Proof. destruct o; cbn; auto. Qed.
End objects.

(** * What reverting an object leaves

    [undoObject] on an object the review shows puts it back as the baseline has it: its rows are gone,
    and every other object's rows are what they were ([reverted]). It refuses only where there is
    nothing to put back. *)

Ltac wanted :=
  repeat match goal with
  | |- context [wants ?a ?b] => let v := eval vm_compute in (wants a b) in change (wants a b) with v
  | H : context [wants ?a ?b] |- _ => let v := eval vm_compute in (wants a b) in change (wants a b) with v in H
  end.
Ltac named_kind :=
  repeat match goal with
  | |- context [@bool_decide (?a = ?b) ?D] =>
      let v := eval vm_compute in (@bool_decide (a = b) D) in
      match v with true => idtac | false => idtac end; change (@bool_decide (a = b) D) with v
  end; cbn [negb andb orb].
Definition kinds : list string := [objEndpoint; objGroup; objRoutingList; objRule; objDeviceGroup; objDNS; objSetting].

Section reverts.
Context (sprint : any -> string) (sha256hex8 : string -> string) (unicode_lower : bytes -> bytes).
Context (decode : string -> option (any * bool)) {Rest : Type}.
Implicit Types (base desired s : Profile * Config Rest).
Abbreviation rows_of := (obj_rows sprint sha256hex8 unicode_lower decode).
Abbreviation undo_object := (undoObject sprint sha256hex8 unicode_lower).

Record reverted base desired (type id : string) s : Prop := {
  rv_distinct : distinct s.1;
  rv_rest : cf_Rest s.2 = cf_Rest desired.2;
  rv_rows t i : rows_of base s t i = if bool_decide (t = type /\ i = id) then [] else rows_of base desired t i;
  rv_lists : type <> objRoutingList -> RoutingLists s.1 = RoutingLists desired.1
}.
Lemma undo_one_Some base desired type id slot s :
  type <> "" -> undo_object base desired type id slot = Some s ->
  (type = objSetting /\ id = "settings"%string /\ settingsEqual base.2 desired.2 = false /\ s = (desired.1, restoreSettings base.2 desired.2)) \/
  (s.2 = desired.2 /\
   ((type = objEndpoint /\ undoEndpointObject sprint sha256hex8 unicode_lower base.1 desired.1 id = Some s.1) \/
    (type = objGroup /\ undoGroupObject base.1 desired.1 id = Some s.1) \/
    (type = objRoutingList /\ undoRoutingObject base.1 desired.1 id slot = Some s.1) \/
    (type = objRule /\ undoRuleObject base.1 desired.1 id = Some s.1) \/
    (type = objDeviceGroup /\ undoDeviceGroupObject base.1 desired.1 id = Some s.1) \/
    (type = objDNS /\ undoDNSObject base.1 desired.1 id = Some s.1))).
Proof.
  intros Ht. unfold undoObject, wants, profile_undo. rewrite (bool_decide_eq_false_2 (type = "")) by done. cbn [orb].
  destruct (_ && _ && _) eqn:E.
  - intros [= <-]. left. rewrite !andb_true_iff, !bool_decide_eq_true, negb_true_iff in E. naive_solver.
  - intros H. right. apply bind_Some in H as (p & H & [= <-]). cbn. split; [done|].
    unfold wants in H. rewrite (bool_decide_eq_false_2 (type = "")) in H by done. cbn [orb] in H.
    unfold or_else in H. repeat case_bool_decide; subst; try done; repeat case_match; simplify_eq; auto 10.
Qed.

(** One collection was put back: the rows of its objects follow their lookups. *)
Lemma reverted_by type id base desired s :
  distinct s.1 -> cf_Rest s.2 = cf_Rest desired.2 -> (type <> objRoutingList -> RoutingLists s.1 = RoutingLists desired.1) ->
  (forall t i, t <> type -> rows_of base s t i = rows_of base desired t i) ->
  (forall i, rows_of base s type i = if bool_decide (i = id) then [] else rows_of base desired type i) ->
  reverted base desired type id s.
Proof.
  intros Hd Hr Hl Hother Hthis. split; [done|done| |done]. intros t i. destruct (decide (t = type)) as [->|Hne].
  - rewrite Hthis. by rewrite (bool_decide_ext (type = type /\ i = id) (i = id)) by tauto.
  - rewrite Hother by done. by rewrite bool_decide_eq_false_2 by (by intros [? _]).
Qed.
Lemma undo_endpoint_reverted base desired id p :
  distinct base.1 -> distinct desired.1 -> undoEndpointObject sprint sha256hex8 unicode_lower base.1 desired.1 id = Some p ->
  reverted base desired objEndpoint id (p, desired.2).
Proof.
  intros Hb Hd. unfold undoEndpointObject. intros (l & H & [= <-])%bind_Some.
  apply undoOrdered_Some in H as [Hnd Hf]; [|apply Hb|apply Hd]. destruct Hd. apply reverted_by; try done.
  - intros t i Hne. unfold obj_rows. by rewrite (bool_decide_eq_false_2 (t = objEndpoint)).
  - intros i. unfold obj_rows, held. named_kind. cbn. rewrite Hf. case_bool_decide as E; [|done]. subst i. apply rows_at_refl, endpoint_fields_refl.
Qed.
Lemma undo_group_reverted base desired id p :
  distinct base.1 -> distinct desired.1 -> undoGroupObject base.1 desired.1 id = Some p -> reverted base desired objGroup id (p, desired.2).
Proof.
  intros Hb Hd. unfold undoGroupObject. intros (l & H & [= <-])%bind_Some.
  apply undoOrdered_Some in H as [Hnd Hf]; [|apply Hb|apply Hd]. destruct Hd. apply reverted_by; try done.
  - intros t i Hne. unfold obj_rows. by rewrite (bool_decide_eq_false_2 (t = objGroup)).
  - intros i. unfold obj_rows, held. named_kind. cbn. rewrite Hf. case_bool_decide as E; [|done]. subst i. apply rows_at_refl, group_fields_refl.
Qed.
Lemma undo_rule_reverted base desired id p :
  distinct base.1 -> distinct desired.1 -> undoRuleObject base.1 desired.1 id = Some p -> reverted base desired objRule id (p, desired.2).
Proof.
  intros Hb Hd. unfold undoRuleObject. intros (l & H & [= <-])%bind_Some.
  apply undoOrdered_Some in H as [Hnd Hf]; [|apply Hb|apply Hd]. destruct Hd. apply reverted_by; try done.
  - intros t i Hne. unfold obj_rows. by rewrite (bool_decide_eq_false_2 (t = objRule)).
  - intros i. unfold obj_rows, held. named_kind. cbn. rewrite Hf. case_bool_decide as E; [|done]. subst i. apply rows_at_refl, rule_fields_refl.
Qed.
Lemma undo_devices_reverted base desired id p :
  distinct base.1 -> distinct desired.1 -> undoDeviceGroupObject base.1 desired.1 id = Some p -> reverted base desired objDeviceGroup id (p, desired.2).
Proof.
  intros Hb Hd. unfold undoDeviceGroupObject. intros (l & H & [= <-])%bind_Some.
  apply undoOrdered_Some in H as [Hnd Hf]; [|apply Hb|apply Hd]. destruct Hd. apply reverted_by; try done.
  - intros t i Hne. unfold obj_rows. by rewrite (bool_decide_eq_false_2 (t = objDeviceGroup)).
  - intros i. unfold obj_rows, held. named_kind. cbn. rewrite Hf. case_bool_decide as E; [|done]. subst i. apply rows_at_refl, devices_fields_refl.
Qed.
Lemma undo_dns_reverted base desired id p :
  distinct desired.1 -> undoDNSObject base.1 desired.1 id = Some p -> reverted base desired objDNS id (p, desired.2).
Proof.
  intros Hd. unfold undoDNSObject. destruct (_ || _) eqn:E; [done|]. intros [= <-].
  apply orb_false_iff in E as [Hid%negb_false_iff%bool_decide_eq_true _]. subst id. destruct Hd. apply reverted_by; try done.
  - intros t i Hne. unfold obj_rows. by rewrite (bool_decide_eq_false_2 (t = objDNS)).
  - intros i. unfold obj_rows. named_kind. cbn. case_bool_decide; [|done]. apply dns_rows_refl.
Qed.
Lemma undo_settings_reverted base desired :
  distinct desired.1 -> reverted base desired objSetting "settings" (desired.1, restoreSettings base.2 desired.2).
Proof.
  intros Hd. apply reverted_by; try done.
  - intros t i Hne. unfold obj_rows. by rewrite (bool_decide_eq_false_2 (t = objSetting)).
  - intros i. unfold obj_rows. named_kind. cbn. case_bool_decide; [|done]. apply settings_rows_nil.
    unfold settingsEqual, restoreSettings. cbn. by rewrite !bool_decide_eq_true_2.
Qed.
(** A list keeps the feed clock it has now, which is no part of the review. *)
Definition clocked (bp dp : Profile) (id : string) : list RoutingList :=
  match find_at rl_ID id (RoutingLists bp), find_at rl_ID id (RoutingLists dp) with
  | Some (bi, b), Some (_, d) => <[bi := keepRefreshClock b d]> (RoutingLists bp)
  | _, _ => RoutingLists bp
  end.
Lemma clocked_ids bp dp id : rl_ID <$> clocked bp dp id = rl_ID <$> RoutingLists bp.
Proof.
  unfold clocked. destruct (find_at rl_ID id (RoutingLists bp)) as [[bi b]|] eqn:E; [|done].
  destruct (find_at rl_ID id (RoutingLists dp)) as [[? d]|]; [|done]. apply find_at_Some in E as (Hi & _ & _).
  rewrite list_fmap_insert. apply list_insert_id. rewrite list_lookup_fmap, Hi. cbn. unfold keepRefreshClock. by repeat case_match.
Qed.
Lemma clocked_held bp dp id : NoDup (rl_ID <$> RoutingLists bp) ->
  find_by rl_ID id (clocked bp dp id) =
  match find_by rl_ID id (RoutingLists bp), find_by rl_ID id (RoutingLists dp) with
  | Some b, Some d => Some (keepRefreshClock b d)
  | o, _ => o
  end.
Proof.
  intros Hnd. rewrite <- (clocked_ids bp dp id) in Hnd. unfold clocked in *.
  destruct (find_at rl_ID id (RoutingLists bp)) as [[bi b]|] eqn:Eb; [|apply find_at_None in Eb; by rewrite Eb].
  apply find_at_Some in Eb as (Hbi & Hid & Hfb). rewrite Hfb.
  destruct (find_at rl_ID id (RoutingLists dp)) as [[di d]|] eqn:Ed; [|apply find_at_None in Ed; by rewrite Ed, Hfb].
  apply find_at_Some in Ed as (_ & _ & ->).
  assert (Hk : rl_ID (keepRefreshClock b d) = id) by (unfold keepRefreshClock; by repeat case_match).
  pose proof (find_by_in rl_ID _ (keepRefreshClock b d) Hnd) as Hfk. rewrite Hk in Hfk. apply Hfk.
  apply list_elem_of_lookup. exists bi. apply list_lookup_insert_eq. by eapply lookup_lt_Some.
Qed.
Lemma undo_list_reverted base desired id slot p :
  distinct base.1 -> distinct desired.1 -> undoRoutingObject base.1 desired.1 id slot = Some p ->
  reverted base desired objRoutingList id (p, desired.2).
Proof.
  intros Hb Hd. unfold undoRoutingObject. intros (l & H & [= <-])%bind_Some. fold (clocked base.1 desired.1 id) in H.
  apply undoOrdered_Some in H as [Hnd Hf]; [|rewrite clocked_ids; apply Hb|apply Hd]. destruct Hd. apply reverted_by; try done.
  - intros t i Hne. unfold obj_rows. by rewrite (bool_decide_eq_false_2 (t = objRoutingList)).
  - intros i. unfold obj_rows, held. named_kind. cbn. rewrite Hf. case_bool_decide as E; [|done]. subst i.
    rewrite clocked_held by apply Hb.
    destruct (find_by rl_ID id (RoutingLists base.1)) as [b|], (find_by rl_ID id (RoutingLists desired.1)) as [d|]; try done.
    + apply (list_fields_clock b d d).
    + exact (proj2 (list_fields_clock b b zero_list)).
Qed.

Lemma undo_one_reverted base desired type id slot s :
  distinct base.1 -> distinct desired.1 -> type <> "" -> undo_object base desired type id slot = Some s -> reverted base desired type id s.
Proof.
  intros Hb Hd Ht H. apply undo_one_Some in H as [(-> & -> & _ & ->)|[H2 H]]; [by apply undo_settings_reverted| |done].
  destruct s as [p c]. cbn in *. subst c. destruct H as [[-> H]|[[-> H]|[[-> H]|[[-> H]|[[-> H]|[-> H]]]]]].
  - by apply undo_endpoint_reverted.
  - by apply undo_group_reverted.
  - by eapply undo_list_reverted.
  - by apply undo_rule_reverted.
  - by apply undo_devices_reverted.
  - by apply undo_dns_reverted.
Qed.
(** Refused: the object has nothing to put back; of a list, no move either. *)
Lemma undoOrdered_None_rows {A} (idOf : A -> string) added (modified : A -> A -> list Change) removed l l' id equal slot :
  (forall b d, idOf b = idOf d -> equal b d = true -> modified b d = []) -> undoOrdered l l' id idOf equal slot = None ->
  rows_at added modified removed (find_by idOf id l) (find_by idOf id l') = [].
Proof.
  intros He [[-> ->]|(b & d & di & Hb & Hd & H & _)]%undoOrdered_None; [done|]. rewrite Hb, Hd. apply He; [|done].
  apply find_by_Some in Hb as [_ ->]. by apply find_by_Some in Hd as [_ ->].
Qed.
Lemma no_rows_nil l : no_rows l = true -> l = [].
Proof. by destruct l. Qed.
Lemma diff_one {A} (idOf : A -> string) added modified removed (b d : A) :
  idOf b = idOf d -> diff_by idOf added modified removed [b] [d] = modified b d.
Proof.
  intros E. unfold diff_by, by_id. cbn. rewrite E, lookup_insert_eq, bool_decide_eq_true_2 by (by left). cbn. by rewrite !app_nil_r.
Qed.
Lemma undo_one_None base desired type id slot :
  distinct base.1 -> type ∈ kinds -> undo_object base desired type id slot = None ->
  rows_of base desired type id = [] /\
  (type = objRoutingList -> undoRoutingObject base.1 desired.1 id slot = None).
Proof.
  intros Hb Ht. unfold undoObject. destruct (_ && _ && _) eqn:E; [done|].
  intros H. unfold kinds in Ht. rewrite !elem_of_cons, elem_of_nil in Ht.
  destruct Ht as [->|[->|[->|[->|[->|[->|[->|[]]]]]]]]; unfold profile_undo in H; wanted; cbn [or_else] in H; unfold obj_rows, held; named_kind.
  - destruct (undoEndpointObject _ _ _ _ _ _) eqn:Hu; [done|]. split; [|done]. unfold undoEndpointObject in Hu.
    destruct (undoOrdered _ _ _ _ _ _) eqn:Ho in Hu; [done|]. eapply undoOrdered_None_rows; [|exact Ho]. intros b d _. apply no_rows_nil.
  - destruct (undoGroupObject _ _ _) eqn:Hu; [done|]. split; [|done]. unfold undoGroupObject in Hu.
    destruct (undoOrdered _ _ _ _ _ _) eqn:Ho in Hu; [done|]. eapply undoOrdered_None_rows; [|exact Ho].
    intros b d Hid Heq%no_rows_nil. unfold diffGroups in Heq. by rewrite diff_one in Heq.
  - destruct (undoRoutingObject _ _ _ _) eqn:Hu; [done|]. split; [|done]. unfold undoRoutingObject in Hu. fold (clocked base.1 desired.1 id) in Hu.
    destruct (undoOrdered _ _ _ _ _ _) eqn:Ho in Hu; [done|].
    apply undoOrdered_None in Ho. rewrite clocked_held in Ho by apply Hb.
    destruct Ho as [[H1 H2]|(b & d & di & H1 & H2 & H3 & _)]; rewrite H2 in *; destruct (find_by rl_ID id (RoutingLists base.1)) as [b0|] eqn:E0; try done.
    injection H1 as <-. apply find_by_Some in E0 as [_ Hid], H2 as [_ Hid'].
    apply no_rows_nil in H3. unfold diffRoutingLists in H3.
    rewrite diff_one in H3 by (unfold keepRefreshClock; repeat case_match; cbn; congruence). apply app_eq_nil in H3 as [H3 _].
    by rewrite (proj1 (list_fields_clock b0 d d)) in H3.
  - destruct (undoRuleObject _ _ _) eqn:Hu; [done|]. split; [|done]. unfold undoRuleObject in Hu.
    destruct (undoOrdered _ _ _ _ _ _) eqn:Ho in Hu; [done|]. eapply undoOrdered_None_rows; [|exact Ho].
    intros b d Hid Heq%no_rows_nil. unfold diffRules in Heq. by rewrite diff_one in Heq.
  - destruct (undoDeviceGroupObject _ _ _) eqn:Hu; [done|]. split; [|done]. unfold undoDeviceGroupObject in Hu.
    destruct (undoOrdered _ _ _ _ _ _) eqn:Ho in Hu; [done|]. eapply undoOrdered_None_rows; [|exact Ho].
    intros b d Hid Heq%no_rows_nil. unfold diffDeviceGroups in Heq. by rewrite diff_one in Heq.
  - destruct (undoDNSObject _ _ _) eqn:Hu; [done|]. split; [|done]. revert Hu. clear E. unfold undoDNSObject. case_bool_decide; [|done].
    cbn [negb orb]. destruct (no_rows _) eqn:En; [|done]. intros _. by apply no_rows_nil.
  - split; [|done]. revert E. case_bool_decide as Hs; [|done]. cbn [andb]. intros E%negb_false_iff. by apply settings_rows_nil.
Qed.
End reverts.
