(* ===== verification/ChangesetOrder.v ===== *)
(** * The order of the lists

    The differ compares the rank of a list among those both states have ([shared_before]); [rankSlot]
    gives a list the rank it had, and [restoreIndex] the slot with the fewest lists on the wrong side, so
    where no list would move the orders agree.

    Further on: the best slot. *)
From stdpp Require Import sorting.
From S2P Require Import Prelude GoStrings GoText Model Json GenResolve Changeset ChangesetUndo ChangesetFacts.
Local Open Scope nat_scope.

Definition shared (o : list string) (l : list string) : list string := List.filter (fun x => bool_decide (x ∈ o)) l.
Definition count (o l : list string) : nat := length (shared o l).
Lemma shared_elem o l x : x ∈ shared o l <-> x ∈ l /\ x ∈ o.
Proof. unfold shared. rewrite list_elem_of_In, filter_In, bool_decide_eq_true, <- list_elem_of_In. done. Qed.
Lemma shared_app o l l' : shared o (l ++ l') = shared o l ++ shared o l'.
Proof. apply List.filter_app. Qed.
Lemma shared_NoDup o l : NoDup l -> NoDup (shared o l).
Proof. rewrite !NoDup_ListNoDup. apply List.NoDup_filter. Qed.
Lemma count_app o l l' : count o (l ++ l') = count o l + count o l'.
Proof. unfold count. by rewrite shared_app, length_app. Qed.
Lemma count_one o x : count o [x] = if bool_decide (x ∈ o) then 1 else 0.
Proof. unfold count, shared. cbn. by case_bool_decide. Qed.
Lemma shared_ext o o' l : (forall x, x ∈ l -> x ∈ o <-> x ∈ o') -> shared o l = shared o' l.
Proof.
  unfold shared. induction l as [|x l IH]; [done|]. intros H. cbn. rewrite (bool_decide_ext (x ∈ o) (x ∈ o')) by (apply H; left).
  rewrite IH; [done|]. intros y Hy. apply H. by right.
Qed.
Lemma shared_before_at (o : list string) (id : string) (l1 l2 : list string) : id ∉ l1 -> shared_before o id (l1 ++ id :: l2) = count o l1.
Proof.
  induction l1 as [|x l1 IH]; cbn; intros Hn.
  - by rewrite bool_decide_eq_true_2.
  - apply not_elem_of_cons in Hn as [Hx Hn]. rewrite bool_decide_eq_false_2 by done. rewrite IH by done.
    unfold count, shared. cbn. by destruct (bool_decide _).
Qed.
Lemma split_at_id (id : string) (l : list string) : id ∈ l -> exists l1 l2, l = l1 ++ id :: l2 /\ id ∉ l1.
Proof. intros H. apply list_elem_of_split_l in H as (l1 & l2 & -> & H). by exists l1, l2. Qed.
Lemma shared_before_ext (o o' : list string) (id : string) (l : list string) : id ∈ l -> (forall x, x <> id -> x ∈ o <-> x ∈ o') -> shared_before o id l = shared_before o' id l.
Proof.
  intros (l1 & l2 & -> & Hn)%split_at_id H. rewrite !shared_before_at by done. unfold count. f_equal.
  apply shared_ext. intros x Hx. apply H. by intros ->.
Qed.

(** ** Where an id stands *)
Lemma rest_of_app id l1 l2 : rest_of (l1 ++ l2) id = rest_of l1 id ++ rest_of l2 id.
Proof. apply List.filter_app. Qed.
Lemma rest_of_absent id l : id ∉ l -> rest_of l id = l.
Proof.
  unfold rest_of. induction l as [|x l IH]; [done|]. intros [Hx Hn]%not_elem_of_cons. cbn.
  rewrite bool_decide_eq_false_2 by congruence. cbn. by rewrite IH.
Qed.
Lemma rest_of_at id l1 l2 : NoDup (l1 ++ id :: l2) -> rest_of (l1 ++ id :: l2) id = l1 ++ l2.
Proof.
  intros (_ & Hd & [Hn2 _]%NoDup_cons)%NoDup_app. assert (Hn1 : id ∉ l1) by (intros H; apply (Hd _ H); left).
  rewrite rest_of_app. change (id :: l2) with ([id] ++ l2). rewrite rest_of_app, (rest_of_absent id l1), (rest_of_absent id l2) by done.
  unfold rest_of. cbn. by rewrite bool_decide_eq_true_2.
Qed.
Lemma rest_of_elem id l x : x ∈ rest_of l id <-> x ∈ l /\ x <> id.
Proof. unfold rest_of. rewrite list_elem_of_In, filter_In, negb_true_iff, bool_decide_eq_false, <- list_elem_of_In. done. Qed.
Lemma cur_from_absent id l n c : id ∉ l -> cur_from id n c l = c.
Proof.
  revert n. induction l as [|x l IH]; intros n; [done|]. intros [Hx Hn]%not_elem_of_cons. cbn.
  rewrite bool_decide_eq_false_2 by congruence. by apply IH.
Qed.
Lemma cur_from_at id l1 l2 n : id ∉ l1 -> id ∉ l2 -> cur_from id n None (l1 ++ id :: l2) = Some (n + length l1).
Proof.
  revert n. induction l1 as [|x l1 IH]; intros n H1 H2; cbn.
  - rewrite bool_decide_eq_true_2 by done. rewrite cur_from_absent by done. f_equal. lia.
  - apply not_elem_of_cons in H1 as [Hx H1]. rewrite bool_decide_eq_false_2 by congruence. rewrite IH by done. f_equal. lia.
Qed.
Lemma cur_of_at id l1 l2 : NoDup (l1 ++ id :: l2) -> cur_of (l1 ++ id :: l2) id = Some (length l1).
Proof.
  intros (_ & Hd & [Hn2 _]%NoDup_cons)%NoDup_app. unfold cur_of. rewrite cur_from_at; [done| |done].
  intros H. apply (Hd _ H). left.
Qed.

(** ** [rankSlot] *)
Lemma slot_range_spec inBase k full pre rest lo :
  full = pre ++ rest -> k <= count inBase full -> count inBase pre <= k -> lo <= length pre ->
  (count inBase pre = k -> forall t, lo <= t <= length pre -> count inBase (take t full) = k) ->
  let '(lo', hi') := slot_range inBase k (length pre) (count inBase pre) lo (length full) rest in
  lo' <= hi' /\ forall t, lo' <= t <= hi' -> count inBase (take t full) = k.
Proof.
  revert pre lo. induction rest as [|x rest IH]; intros pre lo Hf Hk Hpre Hlo Hin; cbn [slot_range].
  - rewrite app_nil_r in Hf. subst full. split; [done|]. intros t Ht. apply Hin; lia.
  - assert (Hlen : length (pre ++ [x]) = S (length pre)) by (rewrite length_app; cbn; lia).
    assert (Hf' : full = (pre ++ [x]) ++ rest) by (by rewrite <- app_assoc).
    assert (Htake : take (S (length pre)) full = pre ++ [x]) by (rewrite Hf', <- Hlen; apply take_app_length).
    specialize (IH (pre ++ [x])). rewrite Hlen, count_app, count_one in IH. case_bool_decide as Hx; cbn [negb].
    + destruct (Nat.eqb_spec (count inBase pre) k) as [E|E]; [split; [done|]; by apply Hin|].
      replace (count inBase pre + 1) with (S (count inBase pre)) in IH by lia.
      apply IH; [done|done|lia|case_match; lia|]. intros E' t. rewrite E', Nat.eqb_refl. intros Ht.
      replace t with (S (length pre)) by lia. rewrite Htake, count_app, count_one, bool_decide_eq_true_2 by done. lia.
    + rewrite Nat.add_0_r in IH. apply IH; [done|done|done|lia|]. intros E t Ht.
      destruct (decide (t = S (length pre))) as [->|]; [|apply Hin; [done|lia]].
      rewrite Htake, count_app, count_one, bool_decide_eq_false_2 by done. lia.
Qed.
Lemma rank_at_most B D id : NoDup B -> NoDup D -> id ∈ B -> shared_before D id B <= count B (rest_of D id).
Proof.
  intros HB HD Hid. apply split_at_id in Hid as (l1 & l2 & -> & Hn). rewrite shared_before_at by done. unfold count.
  apply submseteq_length, NoDup_submseteq.
  - apply shared_NoDup. by apply NoDup_app in HB as [? _].
  - intros x [Hx HxD]%shared_elem. apply shared_elem. rewrite rest_of_elem. split; [split; [done|congruence]|].
    rewrite elem_of_app. by left.
Qed.
Lemma rankSlot_rank B D id : NoDup B -> NoDup D -> id ∈ B ->
  count B (take (rankSlot B D id) (rest_of D id)) = shared_before D id B.
Proof.
  intros HB HD Hid. unfold rankSlot. rewrite bool_decide_eq_true_2 by done. cbn [negb].
  pose proof (slot_range_spec B (shared_before D id B) (rest_of D id) [] (rest_of D id) 0) as H. cbn in H.
  destruct (slot_range _ _ _ _ _ _ _) as [lo hi]. destruct H as [Hle H]; [done|by apply rank_at_most|lia|lia|intros <- t Ht; by replace t with 0 by lia|].
  destruct (cur_of D id) as [c|]; [|apply H; lia]. destruct (Nat.ltb_spec c lo); [apply H; lia|]. destruct (Nat.ltb_spec hi c); apply H; lia.
Qed.

(** ** The "Position" row *)
Lemma rank_from_at other n ids id : NoDup ids ->
  rank_from other n ids !! id = if bool_decide (id ∈ ids /\ id ∈ other) then Some (n + shared_before other id ids) else None.
Proof.
  revert n. induction ids as [|x ids IH]; intros n; cbn.
  - intros _. rewrite bool_decide_eq_false_2; [done|]. intros [H _]. by apply elem_of_nil in H.
  - intros [Hx Hnd]%NoDup_cons. rewrite (bool_decide_eq_false_2 (x ∈ ids)) by done. destruct (decide (x = id)) as [->|Hne].
    + rewrite (bool_decide_eq_true_2 (id = id)) by done. destruct (decide (id ∈ other)) as [Ho|Ho].
      * rewrite !bool_decide_eq_true_2 by (done || (split; [left|done])). cbn. rewrite lookup_insert_eq. f_equal. lia.
      * rewrite bool_decide_eq_false_2 by done. cbn. rewrite IH by done. rewrite !bool_decide_eq_false_2 by tauto. done.
    + rewrite (bool_decide_eq_false_2 (x = id)) by done.
      rewrite (bool_decide_ext (id ∈ x :: ids /\ id ∈ other) (id ∈ ids /\ id ∈ other)) by (rewrite elem_of_cons; naive_solver).
      destruct (decide (x ∈ other)) as [Ho|Ho].
      * rewrite (bool_decide_eq_true_2 (x ∈ other)) by done. cbn [negb]. rewrite lookup_insert_ne, IH by done. case_bool_decide; [f_equal; lia|done].
      * rewrite (bool_decide_eq_false_2 (x ∈ other)) by done. cbn [negb]. by rewrite IH.
Qed.
(** A list both states have stands elsewhere among the lists they share. *)
Definition moved (B D : list string) (id : string) : Prop :=
  id ∈ B /\ id ∈ D /\ shared_before D id B <> shared_before B id D.
Lemma position_rows_nil {Rest} (base desired : Profile * Config Rest) id : distinct base.1 -> distinct desired.1 ->
  move_rows base desired id <> [] <-> moved (rl_ID <$> RoutingLists base.1) (rl_ID <$> RoutingLists desired.1) id.
Proof.
  intros Hb Hd. unfold move_rows, held, moved.
  destruct (find_by rl_ID id (RoutingLists base.1)) as [b|] eqn:Eb; [|apply find_by_None in Eb; tauto].
  destruct (find_by rl_ID id (RoutingLists desired.1)) as [d|] eqn:Ed; [|apply find_by_None in Ed; tauto].
  apply find_by_Some in Eb as [Hbin Hbid], Ed as [Hdin Hdid].
  assert (HB : id ∈ rl_ID <$> RoutingLists base.1) by (rewrite <- Hbid; by apply list_elem_of_fmap_2).
  assert (HD : id ∈ rl_ID <$> RoutingLists desired.1) by (rewrite <- Hdid; by apply list_elem_of_fmap_2).
  unfold position_rows, relativeOrder. rewrite !map_fmap, Hdid, !rank_from_at by (apply Hb || apply Hd).
  rewrite !bool_decide_eq_true_2 by done. cbn. unfold when_changed. case_match eqn:E.
  - apply Nat.eqb_eq in E. tauto.
  - apply Nat.eqb_neq in E. split; intros _; [exact (conj HB (conj HD E))|done].
Qed.
Lemma move_rows_about {Rest} (base desired : Profile * Config Rest) id :
  Forall (fun ch => about objRoutingList id ch /\ ch_Action ch = ActionReordered) (move_rows base desired id).
Proof.
  unfold move_rows, held. destruct (find_by rl_ID id (RoutingLists base.1)); [|done].
  destruct (find_by rl_ID id (RoutingLists desired.1)) eqn:Ed; [|done]. apply find_by_Some in Ed as [_ <-].
  unfold position_rows, when_changed. repeat case_match; by repeat constructor.
Qed.

(** An id put where [rankSlot] says has not moved. *)
Lemma map_insertAt {A B} (f : A -> B) l v i : f <$> insertAt l v i = insertAt (f <$> l) (f v) i.
Proof. unfold insertAt. by rewrite fmap_app, fmap_cons, fmap_take, fmap_drop. Qed.
Lemma delete_rest {A} (idOf : A -> string) l i x : NoDup (idOf <$> l) -> l !! i = Some x ->
  idOf <$> delete i l = rest_of (idOf <$> l) (idOf x).
Proof.
  intros Hnd Hi. apply list_elem_of_split_length in Hi as (l1 & l2 & -> & ->).
  rewrite delete_middle, !fmap_app, fmap_cons in *. by rewrite rest_of_at.
Qed.
Lemma rankSlot_unmoved B D id : NoDup B -> NoDup D -> ~ moved B (insertAt (rest_of D id) id (rankSlot B D id)) id.
Proof.
  intros HB HD (Hid & HD' & Hne). apply Hne. unfold insertAt at 2. rewrite shared_before_at.
  - rewrite rankSlot_rank by done. apply shared_before_ext; [done|]. intros x Hx. rewrite insertAt_perm, elem_of_cons, rest_of_elem. tauto.
  - intros H%elem_of_take. destruct H as (i & H & _). apply list_elem_of_lookup_2, rest_of_elem in H. tauto.
Qed.

(** * The best slot

    [restoreIndex] is a slot with the fewest shared objects on the other side of the id than the
    baseline has them ([misplaced_at]); where the order of the shared lists differs at all, some list
    that moved has a better slot than its own. *)
Local Close Scope nat_scope.
Local Open Scope Z_scope.

Definition after_own (rank : gmap string nat) (own : nat) (x : string) : bool :=
  match rank !! x with Some r => negb (r <? own)%nat | None => false end.
Definition tally (f : string -> bool) (l : list string) : Z := Z.of_nat (length (List.filter f l)).
Lemma tally_app f l l' : tally f (l ++ l') = tally f l + tally f l'.
Proof. unfold tally. rewrite List.filter_app, length_app. lia. Qed.
Lemma tally_one f x : tally f [x] = if f x then 1 else 0.
Proof. unfold tally. cbn. by destruct (f x). Qed.
Lemma tally_nonneg f l : 0 <= tally f l.
Proof. unfold tally. lia. Qed.
Lemma tally_zero f l : tally f l = 0 <-> forall x, x ∈ l -> f x = false.
Proof.
  induction l as [|x l IH].
  - split; [|done]. intros _ x H. by apply elem_of_nil in H.
  - change (x :: l) with ([x] ++ l). rewrite tally_app, tally_one. pose proof (tally_nonneg f l). split.
    + intros H0 y [->%list_elem_of_singleton|Hy]%elem_of_app; destruct (f x) eqn:E; try done; try lia. apply IH; [lia|done].
    + intros Hf. rewrite (Hf x) by (apply elem_of_app; left; by left). apply IH. intros y Hy. apply Hf, elem_of_app. by right.
Qed.
(** On the wrong side of a slot: in front of it though after the id in the baseline, or the other way. *)
Definition misplaced_at (rank : gmap string nat) (own : nat) (pre post : list string) : Z :=
  tally (after_own rank own) pre + tally (before_own rank own) post.
Lemma misplaced_step rank own pre x post :
  misplaced_at rank own (pre ++ [x]) post =
  match rank !! x with
  | Some r => if (r <? own)%nat then misplaced_at rank own pre (x :: post) - 1 else misplaced_at rank own pre (x :: post) + 1
  | None => misplaced_at rank own pre (x :: post)
  end.
Proof.
  unfold misplaced_at. change (x :: post) with ([x] ++ post). rewrite !tally_app, !tally_one. unfold after_own, before_own.
  destruct (rank !! x) as [r|]; [|lia]. destruct (r <? own)%nat; cbn; lia.
Qed.

Section slides.
Context (rank : gmap string nat) (own : nat) (cur : option nat) (full : list string).
Definition mis (k : nat) : Z := misplaced_at rank own (take k full) (drop k full).
(** After [n] of the others: the best slot up to [n], and the count at the one the id has now. *)
Record slid (n : nat) (s : Slide) : Prop := {
  sd_now : sl_misplaced s = mis n; sd_least k : (k <= n)%nat -> sl_best s <= mis k;
  sd_at : (sl_bestAt s <= n)%nat /\ sl_best s = mis (sl_bestAt s);
  sd_cur c : cur = Some c -> (c <= n)%nat -> sl_atCur s = mis c
}.
Lemma slide_one_slid n s x : full !! n = Some x -> slid n s -> slid (S n) (slide_one rank own cur n s x).
Proof.
  intros Hx [Hnow Hleast [Hat Hbest] Hcur].
  assert (Hstep : match rank !! x with Some r => if (r <? own)%nat then sl_misplaced s - 1 else sl_misplaced s + 1 | None => sl_misplaced s end = mis (S n)).
  { unfold mis. rewrite (take_S_r _ _ x Hx), misplaced_step, Hnow. unfold mis. by rewrite (drop_S _ _ _ Hx). }
  unfold slide_one. rewrite Hstep. destruct (Z.ltb_spec (mis (S n)) (sl_best s)); split; cbn; try done; try lia.
  - intros k Hk. destruct (decide (k = S n)) as [->|]; [lia|]. specialize (Hleast k). lia.
  - intros c -> Hc. case_bool_decide as E; [by injection E as ->|]. apply Hcur; [done|]. assert (c <> S n) by congruence. lia.
  - intros k Hk. destruct (decide (k = S n)) as [->|]; [lia|]. specialize (Hleast k). lia.
  - intros c -> Hc. case_bool_decide as E; [by injection E as ->|]. apply Hcur; [done|]. assert (c <> S n) by congruence. lia.
Qed.
Lemma slide_slid rest n s : drop n full = rest -> slid n s -> slid (n + length rest) (slide rank own cur n s rest).
Proof.
  revert n s. induction rest as [|x rest IH]; intros n s Hr Hs; cbn [slide length].
  - by rewrite Nat.add_0_r.
  - replace (n + S (length rest))%nat with (S n + length rest)%nat by lia. apply IH.
    + rewrite <- Nat.add_1_r, <- drop_drop, Hr. done.
    + apply slide_one_slid; [|done]. rewrite <- (Nat.add_0_r n), <- lookup_drop, Hr. done.
Qed.
Lemma slid_start : slid 0 (mkSlide (mis 0) (mis 0) 0 (if bool_decide (cur = Some 0%nat) then mis 0 else -1)).
Proof.
  split; cbn; try done.
  - intros k Hk. by replace k with 0%nat by lia.
  - intros c -> Hc. replace c with 0%nat by lia. by rewrite bool_decide_eq_true_2.
Qed.
End slides.
Lemma rank_of_lookup B x i : NoDup B -> rank_of B !! x = Some i <-> B !! i = Some x.
Proof.
  unfold rank_of. revert i. induction B as [|y B IH] using rev_ind; intros i Hnd; [cbn; by rewrite lookup_empty|].
  apply NoDup_app in Hnd as (Hnd & Hy & _). rewrite imap_app, foldl_app. cbn. rewrite Nat.add_0_r.
  destruct (decide (x = y)) as [->|Hne].
  - rewrite lookup_insert_eq. split; [intros [= <-]; by rewrite lookup_app_r, Nat.sub_diag by done|].
    intros H. apply lookup_app_Some in H as [H|[Hi H]].
    + apply list_elem_of_lookup_2 in H. destruct (Hy y); [done|by left].
    + destruct (i - length B)%nat eqn:E; [f_equal; lia|done].
  - rewrite lookup_insert_ne, IH by done. rewrite lookup_app_Some. split; [tauto|]. intros [H|[Hi H]]; [done|].
    destruct (i - length B)%nat; [|done]. cbn in H. congruence.
Qed.
(** Where some slot has no id on the wrong side, and the id's own has one, the id moves. *)
Lemma restoreIndex_moves B D id own c k :
  rank_of B !! id = Some own -> cur_of D id = Some c -> (c <= length (rest_of D id))%nat -> (k <= length (rest_of D id))%nat ->
  mis (rank_of B) own (rest_of D id) k = 0 -> 0 < mis (rank_of B) own (rest_of D id) c -> restoreIndex B D id <> c.
Proof.
  intros Hown Hc Hcl Hkl Hk Hpos. unfold restoreIndex. rewrite Hown, Hc.
  set (rank := rank_of B) in *. set (rest := rest_of D id) in *.
  assert (Hm0 : Z.of_nat (length (List.filter (before_own rank own) rest)) = mis rank own rest 0) by done.
  rewrite Hm0. pose proof (slide_slid rank own (Some c) rest rest 0 _ eq_refl (slid_start rank own (Some c) rest)) as [Hnow Hleast [Hat Hbest] Hcur].
  cbn [Nat.add] in *. set (s := slide _ _ _ _ _ _) in *. specialize (Hleast k Hkl). specialize (Hcur c eq_refl Hcl).
  assert (0 <= sl_best s) by (rewrite Hbest; unfold mis, misplaced_at; pose proof (tally_nonneg (after_own rank own) (take (sl_bestAt s) rest)); pose proof (tally_nonneg (before_own rank own) (drop (sl_bestAt s) rest)); lia).
  destruct (Z.eqb_spec (sl_atCur s) (sl_best s)); [lia|]. intros E. rewrite E in Hbest. lia.
Qed.

(** ** Where the orders differ, a list moves *)
Lemma shared_split o L l y t : shared o L = l ++ y :: t ->
  exists L1 L2, L = L1 ++ y :: L2 /\ shared o L1 = l /\ shared o L2 = t.
Proof.
  revert l. induction L as [|x L IH]; intros l; [by destruct l|]. unfold shared in *. cbn. destruct (bool_decide (x ∈ o)) eqn:Hx.
  - destruct l as [|z l]; cbn; intros [= -> H].
    + by exists [], L.
    + apply IH in H as (L1 & L2 & -> & HL & Ht). exists (z :: L1), L2. cbn. rewrite Hx. by rewrite HL.
  - intros H. apply IH in H as (L1 & L2 & -> & HL & Ht). exists (x :: L1), L2. cbn. by rewrite Hx.
Qed.
Lemma first_difference (l l' : list string) : length l = length l' -> l <> l' ->
  exists p y t x t', l = p ++ y :: t /\ l' = p ++ x :: t' /\ x <> y.
Proof.
  revert l'. induction l as [|y l IH]; intros [|x l'] Hlen Hne; try done. destruct (decide (x = y)) as [->|Hxy].
  - destruct (IH l') as (p & y' & t & x & t' & -> & -> & Hx); [by injection Hlen|congruence|]. by exists (y :: p), y', t, x, t'.
  - by exists [], y, l, x, l'.
Qed.
Lemma shared_perm B D : NoDup B -> NoDup D -> shared D B ≡ₚ shared B D.
Proof.
  intros HB HD. apply NoDup_Permutation; [by apply shared_NoDup..|]. intros x. rewrite !shared_elem. tauto.
Qed.
Lemma moved_orders B D id : moved B D id -> shared D B <> shared B D.
Proof.
  intros (HB & HD & Hne) E. apply Hne. apply split_at_id in HB as (B1 & B2 & -> & HnB), HD as (D1 & D2 & -> & HnD).
  rewrite !shared_before_at by done. unfold count. rewrite !shared_app in E.
  assert (Hcons : forall o l, id ∈ o -> shared o (id :: l) = id :: shared o l).
  { intros o l Ho. unfold shared. cbn. by rewrite bool_decide_eq_true_2. }
  rewrite !Hcons in E by (apply elem_of_app; right; left). f_equal. revert E.
  assert (Hn : forall o l, id ∉ l -> id ∉ shared o l) by (intros o l H [H' _]%shared_elem; done).
  pose proof (Hn (D1 ++ id :: D2) B1 HnB) as H1. pose proof (Hn (B1 ++ id :: B2) D1 HnD) as H2. revert H1 H2.
  generalize (shared (D1 ++ id :: D2) B1) (shared (B1 ++ id :: B2) D1). intros l. induction l as [|a l IH]; intros [|a' l']; cbn; try done.
  - intros _ H2 [= <- _]. destruct H2. left.
  - intros H1 _ [= -> _]. destruct H1. left.
  - rewrite !not_elem_of_cons. intros [_ H1] [_ H2] [= -> E]. f_equal. by apply IH.
Qed.
(** The lists at the first place the orders differ: [y] in the baseline, [x] now. *)
Record parted (B D B1 D1 E1 E2 : list string) (x y : string) : Prop := {
  pt_base : exists B2, B = B1 ++ y :: B2; pt_now : D = D1 ++ x :: E1 ++ y :: E2;
  pt_same : shared B D1 = shared D B1; pt_shared : x ∈ B
}.
Lemma orders_parted B D : NoDup B -> NoDup D -> shared D B <> shared B D -> exists B1 D1 E1 E2 x y, parted B D B1 D1 E1 E2 x y.
Proof.
  intros HB HD Hm. pose proof (shared_perm B D HB HD) as Hp.
  destruct (first_difference (shared D B) (shared B D)) as (p & y & t & x & t' & E1 & E2 & Hxy); [by rewrite Hp|done|].
  assert (Hy : y ∈ t').
  { assert (H : y ∈ p ++ x :: t') by (rewrite <- E2, <- Hp, E1; apply elem_of_app; right; left).
    pose proof (shared_NoDup D B HB) as Hnd. rewrite E1 in Hnd. apply NoDup_app in Hnd as (_ & Hd & _).
    apply elem_of_app in H as [H|H]; [destruct (Hd y H); left|]. apply elem_of_cons in H as [->|H]; done. }
  assert (HxB : x ∈ B) by (assert (H : x ∈ shared B D) by (rewrite E2; apply elem_of_app; right; left); by apply shared_elem in H as [_ H]).
  apply shared_split in E1 as (B1 & B2 & -> & HB1 & _). destruct (shared_split _ _ _ _ _ E2) as (D1 & D2 & EqD & HD1 & <-).
  apply shared_elem in Hy as [Hy _]. apply list_elem_of_split in Hy as (F1 & F2 & ->).
  exists B1, D1, F1, F2, x, y. split; [by exists B2|done| |done]. by rewrite HB1, HD1.
Qed.
Section parts.
Context (B D B1 D1 E1 E2 : list string) (x y : string) (HB : NoDup B) (HD : NoDup D) (P : parted B D B1 D1 E1 E2 x y).
Lemma part_NoDup : NoDup (D1 ++ x :: E1 ++ y :: E2).
Proof using HB HD P. destruct P. by subst D. Qed.
Lemma part_front z : z ∈ D -> z ∈ B1 -> z ∈ D1.
Proof using HB HD P.
  intros Hz Hz1. destruct P as [[B2 ->] _ Hs _]. assert (H : z ∈ shared D B1) by (by apply shared_elem). rewrite <- Hs in H. by apply shared_elem in H as [? _].
Qed.
Lemma part_back z : z ∈ D1 -> z ∈ B -> z ∈ B1.
Proof using HB HD P.
  intros Hz Hz1. destruct P as [_ _ Hs _]. assert (H : z ∈ shared B D1) by (by apply shared_elem). rewrite Hs in H. by apply shared_elem in H as [? _].
Qed.
Lemma part_rank z r : rank_of B !! z = Some r -> z ∈ B /\ ((r < length B1)%nat <-> z ∈ B1).
Proof using HB HD P.
  intros H%rank_of_lookup; [|done]. split; [by eapply list_elem_of_lookup_2|]. destruct P as [[B2 ->] _ _ _]. split.
  - intros Hr. rewrite lookup_app_l in H by done. by eapply list_elem_of_lookup_2.
  - intros Hz. apply lookup_app_Some in H as [H|[Hr H]]; [by eapply lookup_lt_Some|].
    apply NoDup_app in HB as (_ & Hd & _). apply list_elem_of_lookup_2 in H. by destruct (Hd z).
Qed.
Lemma part_own : rank_of B !! y = Some (length B1).
Proof using HB HD P. apply rank_of_lookup; [done|]. destruct P as [[B2 ->] _ _ _]. by apply list_lookup_middle. Qed.
Lemma part_not_front z : z ∈ D1 -> z ∉ x :: E1 ++ y :: E2.
Proof using HB HD P. pose proof part_NoDup as (_ & H & _)%NoDup_app. apply H. Qed.
Lemma part_best : mis (rank_of B) (length B1) (D1 ++ x :: E1 ++ E2) (length D1) = 0.
Proof using HB HD P.
  unfold mis, misplaced_at. rewrite take_app_length, drop_app_length.
  rewrite (proj2 (tally_zero _ D1)), (proj2 (tally_zero _ (x :: E1 ++ E2))); [done| |].
  - intros z Hz. unfold before_own. destruct (rank_of B !! z) as [r|] eqn:E; [|done]. apply Nat.ltb_ge, Nat.nlt_ge. intros Hr.
    apply part_rank in E as [HzB Hz1]. apply Hz1 in Hr. assert (HzD : z ∈ x :: E1 ++ y :: E2).
    { rewrite !elem_of_cons, !elem_of_app in Hz |- *. rewrite elem_of_cons. tauto. }
    apply (part_not_front z); [|done]. apply part_front; [|done]. destruct P. subst D. apply elem_of_app. by right.
  - intros z Hz. unfold after_own. destruct (rank_of B !! z) as [r|] eqn:E; [|done]. apply negb_false_iff, Nat.ltb_lt.
    apply part_rank in E as [HzB Hz1]. apply Hz1. by apply part_back.
Qed.
Lemma part_misplaced : 0 < mis (rank_of B) (length B1) (D1 ++ x :: E1 ++ E2) (length (D1 ++ x :: E1)).
Proof using HB HD P.
  unfold mis, misplaced_at. replace (D1 ++ x :: E1 ++ E2) with ((D1 ++ x :: E1) ++ E2) by (by rewrite <- app_assoc).
  rewrite take_app_length, drop_app_length. pose proof (tally_nonneg (before_own (rank_of B) (length B1)) E2).
  enough (tally (after_own (rank_of B) (length B1)) (D1 ++ x :: E1) <> 0) by (pose proof (tally_nonneg (after_own (rank_of B) (length B1)) (D1 ++ x :: E1)); lia).
  intros H0. pose proof (proj1 (tally_zero _ _) H0 x) as Hx. assert (Hin : x ∈ D1 ++ x :: E1) by (apply elem_of_app; right; left).
  specialize (Hx Hin). unfold after_own in Hx. destruct P as [_ HDeq _ HxB]. apply list_elem_of_lookup in HxB as [r Hr]. apply rank_of_lookup in Hr; [|done].
  rewrite Hr in Hx. apply negb_false_iff, Nat.ltb_lt in Hx. apply part_rank in Hr as [_ Hr]. apply Hr in Hx.
  apply (part_not_front x); [|left]. apply part_front; [|done]. subst D. apply elem_of_app. right. left.
Qed.
Lemma part_moves : exists c, D !! c = Some y /\ restoreIndex B D y <> c.
Proof using HB HD P.
  exists (length (D1 ++ x :: E1)). pose proof part_NoDup as Hnd. destruct P as [_ HDeq _ _].
  assert (HD' : D = (D1 ++ x :: E1) ++ y :: E2) by (rewrite HDeq; by rewrite <- app_assoc).
  assert (Hrest : rest_of D y = D1 ++ x :: E1 ++ E2).
  { rewrite HD', rest_of_at by (rewrite <- HD'; done). by rewrite <- app_assoc. }
  split; [rewrite HD'; by apply list_lookup_middle|].
  apply restoreIndex_moves with (length B1) (length D1).
  - apply part_own.
  - rewrite HD'. apply cur_of_at. by rewrite <- HD'.
  - rewrite Hrest, !length_app. cbn. rewrite length_app. lia.
  - rewrite Hrest, !length_app. cbn. lia.
  - rewrite Hrest. apply part_best.
  - rewrite Hrest. apply part_misplaced.
Qed.
Lemma part_moved : moved B D y.
Proof using HB HD P.
  pose proof part_NoDup as Hnd. pose proof P as [[B2 HBeq] HDeq Hs HxB].
  assert (HD' : D = (D1 ++ x :: E1) ++ y :: E2) by (rewrite HDeq; by rewrite <- app_assoc).
  split_and!.
  - rewrite HBeq. apply elem_of_app. right. left.
  - rewrite HD'. apply elem_of_app. right. left.
  - assert (HnB : y ∉ B1). { intros H. rewrite HBeq in HB. apply NoDup_app in HB as (_ & Hd & _). apply (Hd y H). left. }
    assert (HnD : y ∉ D1 ++ x :: E1). { intros H. rewrite HD' in HD. apply NoDup_app in HD as (_ & Hd & _). apply (Hd y H). left. }
    rewrite HBeq at 1. rewrite (shared_before_at D y B1 B2) by done. rewrite HD' at 2. rewrite (shared_before_at B y (D1 ++ x :: E1) E2) by done.
    rewrite count_app. change (x :: E1) with ([x] ++ E1). rewrite count_app, count_one, bool_decide_eq_true_2 by done. unfold count. rewrite Hs. lia.
Qed.
End parts.
Lemma orders_move B D : NoDup B -> NoDup D -> shared D B <> shared B D ->
  exists y c, moved B D y /\ D !! c = Some y /\ restoreIndex B D y <> c.
Proof.
  intros HB HD Hm. destruct (orders_parted B D HB HD Hm) as (B1 & D1 & E1 & E2 & x & y & P).
  destruct (part_moves B D B1 D1 E1 E2 x y HB HD P) as (c & Hc & Hne).
  exists y, c. split_and!; [|done|done]. by apply (part_moved B D B1 D1 E1 E2 x y).
Qed.
