(* ===== verification/ChangesetSweep.v ===== *)
(** * Taking everything back

    One pass of [undoReportedOnce] goes through the rows the differ shows and puts back each object
    and each setting once ([swept]); after it no object has a row of its own left, and it idles only
    where there is no row at all.

    Further on: what a batch leaves. *)
From S2P Require Import Prelude GoStrings GoText Model Json GenResolve Changeset ChangesetUndo ChangesetFacts.
From S2P Require Import ChangesetOrder.
Local Open Scope Z_scope.

Section sweep.
Context (sprint : any -> string) (sha256hex8 : string -> string) (unicode_lower : bytes -> bytes).
Context (decode : string -> option (any * bool)) {Rest : Type}.
Implicit Types (base desired s : Profile * Config Rest) (c : Config Rest).
Abbreviation rows := (rows_between sprint sha256hex8 unicode_lower decode).
Abbreviation rows_of := (obj_rows sprint sha256hex8 unicode_lower decode).
Abbreviation undo_object := (undoObject sprint sha256hex8 unicode_lower).
Abbreviation undo_field := (undoField unicode_lower).

(** ** The settings, one at a time *)
Definition settings : list (string * (Config Rest -> string)) :=
  [("Routing mode"%string, RoutingMode); ("Flow offload"%string, Offload); ("Rule-set download route"%string, RuleSetDetour);
   ("Core override"%string, cf_CoreOverride)].
Lemma settings_equal_get c c' : settingsEqual c c' = true <-> forall f get, (f, get) ∈ settings -> get c = get c'.
Proof.
  unfold settingsEqual. rewrite !andb_true_iff, !bool_decide_eq_true. unfold settings. split.
  - intros [[[H1 H2] H3] H4] f get. rewrite !elem_of_cons, elem_of_nil. intros [[= -> ->]|[[= -> ->]|[[= -> ->]|[[= -> ->]|[]]]]]; done.
  - intros H. split_and!; [apply (H "Routing mode"%string)|apply (H "Flow offload"%string)|apply (H "Rule-set download route"%string)|apply (H "Core override"%string)];
      rewrite !elem_of_cons; auto.
Qed.
Lemma revert_get c c' f g get : (f, get) ∈ settings -> get (revert_setting c c' g) = if bool_decide (g = f) then get c else get c'.
Proof.
  unfold settings. rewrite !elem_of_cons, elem_of_nil. intros [[= -> ->]|[[= -> ->]|[[= -> ->]|[[= -> ->]|[]]]]];
    unfold revert_setting; repeat (case_bool_decide; subst; try done).
Qed.
Lemma revert_rest c c' g : cf_Rest (revert_setting c c' g) = cf_Rest c'.
Proof. unfold revert_setting. by repeat case_bool_decide. Qed.
Lemma settings_row c c' f get : (f, get) ∈ settings -> get c <> get c' -> exists ch, ch ∈ diffSettings decode c c' /\ ch_Field ch = f.
Proof.
  unfold settings. rewrite !elem_of_cons, elem_of_nil. unfold diffSettings. intros Hf H.
  destruct Hf as [[= -> ->]|[[= -> ->]|[[= -> ->]|[[= -> ->]|[]]]]]; eexists; (split; [rewrite !elem_of_app; unfold when_changed|]).
  - left. rewrite bool_decide_eq_false_2 by done. by left.
  - done.
  - right. left. rewrite bool_decide_eq_false_2 by done. by left.
  - done.
  - do 2 right. left. rewrite bool_decide_eq_false_2 by done. by left.
  - done.
  - do 3 right. rewrite (bool_decide_eq_false_2 (cf_CoreOverride c = _)) by done. by left.
  - done.
Qed.
Lemma undo_setting base s f : undo_field base s objSetting "settings" f =
  if settingsEqual (revert_setting base.2 s.2 f) s.2 then None else Some (s.1, revert_setting base.2 s.2 f).
Proof. unfold undoField. wanted. named_kind. by destruct (settingsEqual _ _). Qed.

(** ** One pass *)
Lemma kinds_named t : t ∈ kinds -> t <> "".
Proof. intros H ->. revert H. by apply (bool_decide_eq_false (""%string ∈ kinds)). Qed.
Lemma row_kind base desired ch : distinct base.1 -> distinct desired.1 -> ch ∈ rows base desired ->
  ch_ObjectType ch ∈ kinds /\ (ch_ObjectType ch = objSetting -> ch ∈ diffSettings decode base.2 desired.2 /\ ch_ID ch = "settings"%string).
Proof.
  intros Hb Hd [(type & id & H)|[id H]]%rows_elem; [| |done|done].
  - pose proof (proj1 (Forall_forall _ _) (obj_rows_about sprint sha256hex8 unicode_lower decode base desired type id) ch H) as [Ht Hi].
    rewrite Ht, Hi. clear Ht Hi. unfold obj_rows in H. unfold kinds.
    repeat (case_bool_decide as E; [subst type; split; [rewrite !elem_of_cons; tauto|intros Es; try (exfalso; vm_compute in Es; discriminate Es)]|clear E]);
      try (by apply elem_of_nil in H). case_bool_decide; [done|by apply elem_of_nil in H].
  - pose proof (proj1 (Forall_forall _ _) (move_rows_about base desired id) ch H) as [[Ht _] _]. rewrite Ht. split; [|done].
    unfold kinds. rewrite !elem_of_cons. tauto.
Qed.
Definition key_of (ch : Change) : string * string := (ch_ObjectType ch, ch_ID ch).
Definition is_setting (ch : Change) : Prop := ch_ObjectType ch = objSetting.
(** What is left after the rows [done] of a pass that puts back those [keep] wants. *)
Record swept base desired (keep : Change -> bool) (done : list Change) (b : Batch (Rest := Rest)) : Prop := {
  sw_distinct : distinct (b_State b).1;
  sw_rest : cf_Rest (b_State b).2 = cf_Rest desired.2;
  sw_seen t i : (t, i) ∈ b_Seen b <-> exists ch, ch ∈ done /\ keep ch = true /\ ~ is_setting ch /\ key_of ch = (t, i);
  sw_rows t i : t <> objSetting -> rows_of base (b_State b) t i = if bool_decide ((t, i) ∈ b_Seen b) then [] else rows_of base desired t i;
  sw_settings f get : (f, get) ∈ settings ->
    (get (b_State b).2 = get base.2 /\ exists ch, ch ∈ done /\ keep ch = true /\ is_setting ch /\ ch_Field ch = f) \/
    (get (b_State b).2 = get desired.2 /\ forall ch, ch ∈ done -> keep ch = true -> is_setting ch -> ch_Field ch <> f);
  sw_idle : b_Touched b = false -> b_State b = desired /\
    forall t i, (t, i) ∈ b_Seen b -> undo_object base desired t i restoreIndex = None
}.
Lemma swept_start base desired keep : distinct desired.1 -> swept base desired keep [] (mkBatch desired false []).
Proof.
  intros Hd. split; cbn; try done.
  - intros t i. split; [intros H; by apply elem_of_nil in H|intros (ch & H & _); by apply elem_of_nil in H].
  - intros f get Hf. right. split; [done|]. intros ch H. by apply elem_of_nil in H.
  - intros _. split; [done|]. intros t i H. by apply elem_of_nil in H.
Qed.
Lemma snoc_ex {A} (P : A -> Prop) l x : (exists y, y ∈ l ++ [x] /\ P y) <-> (exists y, y ∈ l /\ P y) \/ P x.
Proof. setoid_rewrite elem_of_app. setoid_rewrite list_elem_of_singleton. naive_solver. Qed.
Lemma swept_skip base desired keep done b ch : keep ch = false -> swept base desired keep done b -> swept base desired keep (done ++ [ch]) b.
Proof.
  intros Hk [Hd Hr Hs Ho Hg Hi]. split; try done.
  - intros t i. rewrite Hs, snoc_ex. split; [by left|]. intros [H|[H _]]; [done|congruence].
  - intros f get Hf. destruct (Hg f get Hf) as [[H1 (c & H2 & H3)]|[H1 H2]]; [left|right]; (split; [done|]).
    + exists c. split; [apply elem_of_app; by left|done].
    + intros c [Hc| ->%list_elem_of_singleton]%elem_of_app Hkc; [by apply H2|congruence].
Qed.

Lemma rows_profile base s s' t i : t <> objSetting -> s.1 = s'.1 -> rows_of base s t i = rows_of base s' t i.
Proof. intros Ht E. unfold obj_rows, held. rewrite E. by rewrite (bool_decide_eq_false_2 (t = objSetting)). Qed.
Lemma undo_object_settings base s t i slot s' : t <> objSetting -> t <> "" -> undo_object base s t i slot = Some s' -> s'.2 = s.2.
Proof. intros Ht Hne [(-> & _)|[H _]]%undo_one_Some; done. Qed.
Lemma settings_step base desired keep done b ch c' :
  (forall f get, (f, get) ∈ settings -> get c' = if bool_decide (keep ch = true /\ is_setting ch /\ ch_Field ch = f) then get base.2 else get (b_State b).2) ->
  swept base desired keep done b ->
  forall f get, (f, get) ∈ settings ->
    (get c' = get base.2 /\ exists ch', ch' ∈ done ++ [ch] /\ keep ch' = true /\ is_setting ch' /\ ch_Field ch' = f) \/
    (get c' = get desired.2 /\ forall ch', ch' ∈ done ++ [ch] -> keep ch' = true -> is_setting ch' -> ch_Field ch' <> f).
Proof.
  intros Hc Hsw f get Hf. rewrite (Hc f get Hf). case_bool_decide as E.
  - left. split; [done|]. exists ch. split; [apply elem_of_app; right; left|done].
  - destruct (sw_settings _ _ _ _ _ Hsw f get Hf) as [[H1 (c & H2 & H3)]|[H1 H2]]; [left|right]; (split; [done|]).
    + exists c. split; [apply elem_of_app; by left|done].
    + intros c [H| ->%list_elem_of_singleton]%elem_of_app Hk Hs; [by apply H2|]. intros Hfc. by apply E.
Qed.
Lemma swept_setting base desired keep done b ch :
  distinct base.1 -> keep ch = true -> is_setting ch -> ch_ID ch = "settings"%string -> swept base desired keep done b ->
  swept base desired keep (done ++ [ch]) (undo_change sprint sha256hex8 unicode_lower base keep b ch).
Proof.
  intros Hb Hk Hset Hid Hsw. unfold undo_change. rewrite Hk, (bool_decide_eq_true_2 _ Hset), Hid, undo_setting. cbn [negb].
  set (c' := revert_setting base.2 (b_State b).2 (ch_Field ch)).
  assert (Hc : forall f get, (f, get) ∈ settings -> get c' = if bool_decide (keep ch = true /\ is_setting ch /\ ch_Field ch = f) then get base.2 else get (b_State b).2).
  { intros f get Hf. unfold c'. rewrite (revert_get _ _ f) by done. by rewrite (bool_decide_ext (ch_Field ch = f) (keep ch = true /\ is_setting ch /\ ch_Field ch = f)) by tauto. }
  pose proof (settings_step _ _ _ _ _ _ c' Hc Hsw) as Hg. destruct Hsw as [Hd Hr Hs Ho _ Hi].
  assert (Hseen : forall t i, (t, i) ∈ b_Seen b <-> exists ch', ch' ∈ done ++ [ch] /\ keep ch' = true /\ ~ is_setting ch' /\ key_of ch' = (t, i)).
  { intros t i. rewrite Hs, snoc_ex. tauto. }
  destruct (settingsEqual c' (b_State b).2) eqn:E.
  - split; try done. intros f get Hf. rewrite <- (proj1 (settings_equal_get _ _) E f get Hf). by apply Hg.
  - split; cbn; try done.
    + unfold c'. by rewrite revert_rest.
    + intros t i Ht. rewrite <- Ho by done. by apply rows_profile.
Qed.
Lemma swept_seen base desired keep done b ch :
  distinct base.1 -> keep ch = true -> ~ is_setting ch -> key_of ch ∈ b_Seen b -> swept base desired keep done b ->
  swept base desired keep (done ++ [ch]) b.
Proof.
  intros Hb Hk Hset Hin Hsw.
  assert (Hc : forall f get, (f, get) ∈ settings -> get (b_State b).2 = if bool_decide (keep ch = true /\ is_setting ch /\ ch_Field ch = f) then get base.2 else get (b_State b).2).
  { intros f get _. by rewrite bool_decide_eq_false_2 by tauto. }
  pose proof (settings_step base desired keep done b ch (b_State b).2 Hc Hsw) as Hg. destruct Hsw as [Hd Hr Hs Ho _ Hi]. split; try done.
  intros t i. rewrite snoc_ex, <- Hs. split; [by left|]. intros [H|(_ & _ & <-)]; done.
Qed.
Lemma swept_object base desired keep done b ch :
  distinct base.1 -> keep ch = true -> ch_ObjectType ch ∈ kinds -> ~ is_setting ch -> key_of ch ∉ b_Seen b -> swept base desired keep done b ->
  swept base desired keep (done ++ [ch])
    (match undo_object base (b_State b) (ch_ObjectType ch) (ch_ID ch) restoreIndex with
     | Some s => mkBatch s true (key_of ch :: b_Seen b)
     | None => mkBatch (b_State b) (b_Touched b) (key_of ch :: b_Seen b)
     end).
Proof.
  intros Hb Hk Hkind Hset Hin Hsw.
  pose proof (kinds_named _ Hkind) as Hne.
  assert (Hg : forall c', c' = (b_State b).2 -> forall f get, (f, get) ∈ settings ->
    (get c' = get base.2 /\ exists ch', ch' ∈ done ++ [ch] /\ keep ch' = true /\ is_setting ch' /\ ch_Field ch' = f) \/
    (get c' = get desired.2 /\ forall ch', ch' ∈ done ++ [ch] -> keep ch' = true -> is_setting ch' -> ch_Field ch' <> f)).
  { intros c' ->. apply (settings_step base desired keep done b ch); [|done]. intros f get _. by rewrite bool_decide_eq_false_2 by tauto. }
  destruct Hsw as [Hd Hr Hs Ho _ Hi].
  assert (Hseen : forall t i, (t, i) ∈ key_of ch :: b_Seen b <-> exists ch', ch' ∈ done ++ [ch] /\ keep ch' = true /\ ~ is_setting ch' /\ key_of ch' = (t, i)).
  { intros t i. rewrite snoc_ex, <- Hs, elem_of_cons. split; [intros [->|H]; [by right|by left]|]. intros [H|(_ & _ & <-)]; [by right|by left]. }
  assert (Hrows : forall t i s', t <> objSetting ->
    (forall t i, t <> objSetting -> rows_of base s' t i = if bool_decide (t = ch_ObjectType ch /\ i = ch_ID ch) then [] else rows_of base (b_State b) t i) ->
    rows_of base s' t i = if bool_decide ((t, i) ∈ key_of ch :: b_Seen b) then [] else rows_of base desired t i).
  { intros t i s' Ht H. rewrite (H t i Ht), (Ho t i Ht). unfold key_of.
    rewrite (bool_decide_ext ((t, i) ∈ (ch_ObjectType ch, ch_ID ch) :: b_Seen b) ((t = ch_ObjectType ch /\ i = ch_ID ch) \/ (t, i) ∈ b_Seen b))
      by (rewrite elem_of_cons; naive_solver). rewrite bool_decide_or. by destruct (bool_decide (t = _ /\ _)), (bool_decide ((t, i) ∈ _)). }
  destruct (undo_object base (b_State b) (ch_ObjectType ch) (ch_ID ch) restoreIndex) as [s|] eqn:E.
  - pose proof (undo_object_settings _ _ _ _ _ _ Hset Hne E) as Es.
    apply (undo_one_reverted sprint sha256hex8 unicode_lower decode) in E as [Hd' Hr' Hrw _]; [|done..].
    split; cbn; try done; [by rewrite Hr'|intros t i Ht; by apply Hrows|by apply Hg].
  - pose proof (proj1 (undo_one_None sprint sha256hex8 unicode_lower decode base (b_State b) _ _ _ Hb Hkind E)) as Hnil.
    split; cbn; try done; [intros t i Ht; apply Hrows; [done|]|by apply Hg|].
    + intros t' i' _. case_bool_decide as Eq; [|done]. by destruct Eq as [-> ->].
    + intros Ht. destruct (Hi Ht) as [Hst Hn]. split; [done|]. intros t i [[= -> ->]|H]%elem_of_cons; [by rewrite <- Hst|by apply Hn].
Qed.
Lemma swept_all base desired keep l done b :
  distinct base.1 -> distinct desired.1 -> (forall ch, ch ∈ l -> ch ∈ rows base desired) -> swept base desired keep done b ->
  swept base desired keep (done ++ l) (foldl (undo_change sprint sha256hex8 unicode_lower base keep) b l).
Proof.
  intros Hb Hd. revert done b. induction l as [|ch l IH]; intros done b Hl Hsw; [by rewrite app_nil_r|].
  cbn [foldl]. replace (done ++ ch :: l) with ((done ++ [ch]) ++ l) by (by rewrite <- app_assoc).
  apply IH; [intros c Hc; apply Hl; by right|].
  destruct (row_kind base desired ch Hb Hd) as [Hkind Hset]; [apply Hl; by left|].
  destruct (keep ch) eqn:Hk; [|unfold undo_change; rewrite Hk; by apply swept_skip].
  destruct (decide (ch_ObjectType ch = objSetting)) as [E|E].
  - apply swept_setting; try done. by apply Hset.
  - unfold undo_change. rewrite Hk, (bool_decide_eq_false_2 _ E). cbn [negb]. fold (key_of ch).
    case_bool_decide as Hin; [by apply swept_seen|by apply swept_object].
Qed.
Lemma swept_pass base desired keep : distinct base.1 -> distinct desired.1 ->
  swept base desired keep (rows base desired) (undoReportedOnce sprint sha256hex8 unicode_lower decode base desired keep).
Proof. intros Hb Hd. apply (swept_all base desired keep _ []); [done|done|done|by apply swept_start]. Qed.
End sweep.

(** * What a batch leaves

    A batch ([undoAll], [undoSubsystem]) repeats the pass; one pass takes exactly the rows of the
    subsystems it is for and leaves every other row, moves apart ([took]), and where it is given a row
    it does not idle. *)

Section passes.
Context (sprint : any -> string) (sha256hex8 : string -> string) (unicode_lower : bytes -> bytes).
Context (decode : string -> option (any * bool)) {Rest : Type}.
Implicit Types (base desired s : Profile * Config Rest) (c : Config Rest).
Abbreviation rows := (rows_between sprint sha256hex8 unicode_lower decode).
Abbreviation rows_of := (obj_rows sprint sha256hex8 unicode_lower decode).
Abbreviation undo_object := (undoObject sprint sha256hex8 unicode_lower).

(** ** No row of an object is a move, and all are of one subsystem *)
Definition plain (sub : string) (ch : Change) : Prop := ch_Action ch <> ActionReordered /\ ch_Subsystem ch = sub.
Lemma when_changed_plain sub same ch : plain sub ch -> Forall (plain sub) (when_changed same ch).
Proof. destruct same; [constructor|by constructor]. Qed.
Lemma endpoint_row_plain d field before after secret : plain (endpointSubsystem d) (endpoint_row d field before after secret).
Proof. unfold endpoint_row. by repeat case_match. Qed.
Lemma concat_map_all {A} (P : Change -> Prop) (f : A -> list Change) l : (forall x, Forall P (f x)) -> Forall P (concat (map f l)).
Proof. intros H. induction l; cbn; [constructor|]. apply Forall_app_2; auto. Qed.
Lemma endpoint_fields_plain b d : Forall (plain (endpointSubsystem d)) (diffEndpointFields sprint sha256hex8 unicode_lower b d).
Proof.
  unfold diffEndpointFields. repeat apply Forall_app_2; try (apply when_changed_plain, endpoint_row_plain).
  - apply concat_map_all. intros k. apply when_changed_plain, endpoint_row_plain.
  - apply concat_map_all. intros k. unfold param_row. repeat case_match; try constructor; try constructor; apply endpoint_row_plain.
Qed.
Lemma group_fields_plain b d : Forall (plain SubGroups) (group_fields b d).
Proof. unfold group_fields. by repeat apply Forall_app_2; apply when_changed_plain. Qed.
Lemma list_fields_plain b d : Forall (plain SubRouting) (list_fields b d).
Proof. unfold list_fields. by repeat apply Forall_app_2; apply when_changed_plain. Qed.
Lemma dns_plain b d : Forall (plain SubDNS) (diffDNSPlane b d).
Proof.
  destruct b as [b|], d as [d|]; cbn; try (by repeat constructor). unfold dns_fields.
  repeat apply Forall_app_2; try (by apply when_changed_plain). case_match; [by repeat constructor|by apply when_changed_plain].
Qed.
Definition subsystem_of base desired (type id : string) : string :=
  if bool_decide (type = objEndpoint) then
    match held ep_ID Endpoints desired id, held ep_ID Endpoints base id with
    | Some d, _ => endpointSubsystem d
    | None, Some b => endpointSubsystem b
    | _, _ => ""
    end
  else if bool_decide (type = objGroup) then SubGroups
  else if bool_decide (type = objRoutingList) then SubRouting
  else if bool_decide (type = objDNS) then SubDNS
  else SubDeviceRules.
Ltac of_two base desired id := let b := fresh in let d := fresh in
  destruct (held _ _ base id) as [b|], (held _ _ desired id) as [d|]; cbn; try (by repeat constructor).
Lemma obj_rows_plain base desired type id : type <> objSetting ->
  Forall (plain (subsystem_of base desired type id)) (rows_of base desired type id).
Proof.
  intros Hset. unfold obj_rows, subsystem_of.
  destruct (decide (type = objEndpoint)) as [->|H1].
  { named_kind. of_two base desired id. apply endpoint_fields_plain. }
  destruct (decide (type = objGroup)) as [->|H2].
  { named_kind. of_two base desired id. apply group_fields_plain. }
  destruct (decide (type = objRoutingList)) as [->|H3].
  { named_kind. of_two base desired id. apply list_fields_plain. }
  destruct (decide (type = objRule)) as [->|H4].
  { named_kind. of_two base desired id. by apply when_changed_plain. }
  destruct (decide (type = objDeviceGroup)) as [->|H5].
  { named_kind. of_two base desired id. by apply when_changed_plain. }
  destruct (decide (type = objDNS)) as [->|H6].
  { named_kind. case_bool_decide; [apply dns_plain|constructor]. }
  rewrite (bool_decide_eq_false_2 (type = objEndpoint)), (bool_decide_eq_false_2 (type = objGroup)), (bool_decide_eq_false_2 (type = objRoutingList)),
    (bool_decide_eq_false_2 (type = objRule)), (bool_decide_eq_false_2 (type = objDeviceGroup)), (bool_decide_eq_false_2 (type = objDNS)),
    (bool_decide_eq_false_2 (type = objSetting)) by done. constructor.
Qed.

(** ** The rows of the settings *)
Definition setting_change (field x y : string) : Change :=
  if bool_decide (field = "Routing mode") then
    (setting_row field (nameOr x "default") (nameOr y "default") SubFirewallPBR "changes how ALL traffic is captured and routed" true)
      <| ch_Warnings := ["switching routing mode rebuilds the datapath; verify connectivity inside the fail-safe window"%string] |>
  else if bool_decide (field = "Flow offload") then
    setting_row field (nameOr x "off") (nameOr y "off") SubOffload "changes whether flows are accelerated in software/hardware" false
  else if bool_decide (field = "Rule-set download route") then
    setting_row field (nameOr x "direct") (nameOr y "direct") SubRouting
      "changes which path routing-list downloads use (direct downloads fail on a censored network)" false
  else
    let before := overrideWord decode x in
    let after := overrideWord decode y in
    setting_row field before (if bool_decide (before = after) then after +:+ " (edited)" else after) SubGeneral
      "changes the sing-box config WayHop generates, after it is generated" true.
Lemma setting_change_field f x y : ch_Field (setting_change f x y) = f.
Proof. unfold setting_change. by repeat case_bool_decide. Qed.
Lemma setting_change_action f x y : ch_Action (setting_change f x y) = ActionModified.
Proof. unfold setting_change. by repeat case_bool_decide. Qed.
Lemma when_changed_elem (P : Prop) `{Decision P} ch' ch : ch ∈ when_changed (bool_decide P) ch' <-> ~ P /\ ch = ch'.
Proof.
  unfold when_changed. case_bool_decide; [split; [intros E; by apply elem_of_nil in E|tauto]|].
  rewrite list_elem_of_singleton. tauto.
Qed.
Lemma settings_elem c c' ch : ch ∈ diffSettings decode c c' <->
  exists f get, (f, get) ∈ settings /\ get c <> get c' /\ ch = setting_change f (get c) (get c').
Proof.
  unfold diffSettings. rewrite !elem_of_app, !when_changed_elem. unfold settings. split.
  - intros [[H ->]|[[H ->]|[[H ->]|[H ->]]]]; eexists _, _; (split; [rewrite !elem_of_cons|]).
    + by left.
    + by split.
    + by right; left.
    + by split.
    + by right; right; left.
    + by split.
    + by right; right; right; left.
    + by split.
  - intros (f & get & Hf & H & ->). rewrite !elem_of_cons, elem_of_nil in Hf.
    destruct Hf as [[= -> ->]|[[= -> ->]|[[= -> ->]|[[= -> ->]|[]]]]]; auto.
Qed.
Lemma settings_functional f (get get' : Config Rest -> string) : (f, get) ∈ settings -> (f, get') ∈ settings -> get = get'.
Proof.
  unfold settings. rewrite !elem_of_cons, !elem_of_nil. intros H H'.
  destruct H as [[= -> ->]|[[= -> ->]|[[= -> ->]|[[= -> ->]|[]]]]]; by repeat (destruct H' as [[= ->]|H']; [done|]) || naive_solver.
Qed.

(** ** One pass *)
Definition of_subs (K : string -> bool) (ch : Change) : bool := K (ch_Subsystem ch).
Record took base (K : string -> bool) s s' : Prop := {
  tk_distinct : distinct s'.1; tk_rest : cf_Rest s'.2 = cf_Rest s.2;
  tk_rows ch : ch_Action ch <> ActionReordered -> ch ∈ rows base s' <-> ch ∈ rows base s /\ of_subs K ch = false
}.
Lemma took_trans base K s s' s'' : took base K s s' -> took base K s' s'' -> took base K s s''.
Proof. intros [_ Hr Hc] [Hd Hr' Hc']. split; [done|congruence|]. intros ch Hne. rewrite Hc', Hc by done. tauto. Qed.
Lemma rows_plain base s ch : distinct base.1 -> distinct s.1 -> ch_Action ch <> ActionReordered ->
  ch ∈ rows base s <-> (exists t i, t <> objSetting /\ ch ∈ rows_of base s t i) \/ ch ∈ diffSettings decode base.2 s.2.
Proof.
  intros Hb Hs Hne. rewrite rows_elem by done. split.
  - intros [(t & i & H)|[i H]].
    + destruct (decide (t = objSetting)) as [->|Ht]; [|left; by exists t, i]. right. revert H. unfold obj_rows. named_kind.
      case_bool_decide; [done|]. intros H'. by apply elem_of_nil in H'.
    + pose proof (proj1 (Forall_forall _ _) (move_rows_about base s i) ch H) as [_ Hm]. done.
  - intros [(t & i & _ & H)|H]; left; [by exists t, i|]. exists objSetting, "settings"%string. unfold obj_rows. named_kind. exact H.
Qed.
Lemma rows_of_key base s t i ch : ch ∈ rows_of base s t i -> ch_ObjectType ch = t /\ ch_ID ch = i.
Proof. apply (proj1 (Forall_forall _ _) (obj_rows_about sprint sha256hex8 unicode_lower decode base s t i) ch). Qed.
Lemma rows_of_plain base s t i ch : t <> objSetting -> ch ∈ rows_of base s t i -> plain (subsystem_of base s t i) ch.
Proof. intros Ht. apply (proj1 (Forall_forall _ _) (obj_rows_plain base s t i Ht) ch). Qed.
(** What a move and a row of the moved list share: the subsystem. *)
Lemma row_subsystem base s ch t i : distinct base.1 -> distinct s.1 -> t <> objSetting -> ch ∈ rows base s -> key_of ch = (t, i) ->
  rows_of base s t i <> [] -> ch_Subsystem ch = subsystem_of base s t i.
Proof.
  intros Hb Hs Ht [(t' & i' & H)|[i' H]]%rows_elem [= Et Ei] Hne; [| |done|done].
  - pose proof (rows_of_key _ _ _ _ _ H) as [E1 E2]. rewrite <- Et, <- Ei, E1, E2 in *. apply rows_of_plain; [congruence|done].
  - pose proof (proj1 (Forall_forall _ _) (move_rows_about base s i') ch H) as [[E1 E2] _]. rewrite <- Et, E1 in *.
    revert H. unfold move_rows, position_rows, when_changed. repeat case_match; intros H'; try (by apply elem_of_nil in H').
    apply list_elem_of_singleton in H' as ->. done.
Qed.
Lemma pass_took base K s : distinct base.1 -> distinct s.1 ->
  took base K s (b_State (undoReportedOnce sprint sha256hex8 unicode_lower decode base s (of_subs K))).
Proof.
  intros Hb Hs. pose proof (swept_pass sprint sha256hex8 unicode_lower decode base s (of_subs K) Hb Hs) as [Hd Hr Hseen Ho Hg _].
  split; [done|done|]. intros ch Hne. rewrite !rows_plain by done. set (b := undoReportedOnce _ _ _ _ _ _ _) in *. split.
  - intros [(t & i & Ht & H)|H].
    + rewrite Ho in H by done. case_bool_decide as Hin; [by apply elem_of_nil in H|]. split; [left; by exists t, i|].
      apply not_true_iff_false. intros Hk. apply Hin, Hseen. exists ch. pose proof (rows_of_key _ _ _ _ _ H) as [E1 E2].
      split_and!; [apply rows_plain; [done..|]; left; by exists t, i|done|unfold is_setting; congruence|unfold key_of; congruence].
    + apply settings_elem in H as (f & get & Hf & Hgne & ->).
      destruct (Hg f get Hf) as [[E _]|[E Hno]]; [congruence|]. rewrite E in *.
      assert (Hin : setting_change f (get base.2) (get s.2) ∈ diffSettings decode base.2 s.2) by (apply settings_elem; by exists f, get).
      split; [by right|]. apply not_true_iff_false. intros Hk. apply (Hno _ (proj2 (rows_plain base s _ Hb Hs Hne) (or_intror Hin)) Hk); [|apply setting_change_field].
      unfold is_setting. unfold setting_change. by repeat case_bool_decide.
  - intros [[(t & i & Ht & H)|H] Hk].
    + left. exists t, i. split; [done|]. rewrite Ho by done. rewrite bool_decide_eq_false_2; [done|].
      intros (ch' & Hin & Hk' & _ & Hkey)%Hseen. pose proof (rows_of_plain _ _ _ _ _ Ht H) as [_ Hsub].
      unfold of_subs in *. rewrite (row_subsystem base s ch' t i), <- Hsub in Hk' by (try done; intros E; rewrite E in H; by apply elem_of_nil in H). congruence.
    + apply settings_elem in H as (f & get & Hf & Hgne & ->).
      destruct (Hg f get Hf) as [[E (ch' & Hin & Hk' & Hset' & Hf')]|[E _]].
      * apply rows_plain in Hin as [(t & i & Ht & H)|H]; [|apply settings_elem in H as (f' & get' & Hf2 & _ & ->)| |done|].
        -- pose proof (rows_of_key _ _ _ _ _ H) as [E1 _]. unfold is_setting in Hset'. congruence.
        -- rewrite setting_change_field in Hf'. subst f'. rewrite (settings_functional f get' get Hf2 Hf) in Hk'. congruence.
        -- done.
        -- intros Ha. pose proof Hin as Hin'. apply row_kind in Hin as [_ Hin]; [|done|done]. specialize (Hin Hset') as [Hin _].
           apply settings_elem in Hin as (f2 & get2 & _ & _ & ->). by rewrite setting_change_action in Ha.
      * right. apply settings_elem. exists f, get. by rewrite E.
Qed.

(** ** A pass with a row to take does something *)
Lemma move_row base s i ch : ch ∈ move_rows base s i ->
  ch_ObjectType ch = objRoutingList /\ ch_ID ch = i /\ ch_Action ch = ActionReordered /\ ch_Subsystem ch = SubRouting.
Proof.
  intros H. pose proof (proj1 (Forall_forall _ _) (move_rows_about base s i) ch H) as [[E1 E2] E3]. split_and!; try done.
  revert H. unfold move_rows, position_rows, when_changed. repeat case_match; intros H'; try (by apply elem_of_nil in H').
  by apply list_elem_of_singleton in H' as ->.
Qed.
Lemma reordered_row base s ch : distinct base.1 -> distinct s.1 -> ch ∈ rows base s -> ch_Action ch = ActionReordered ->
  exists i, ch ∈ move_rows base s i.
Proof.
  intros Hb Hs [(t & i & H)|H]%rows_elem Ha; [|done|done|done]. exfalso.
  destruct (decide (t = objSetting)) as [->|Ht].
  - revert H. unfold obj_rows. named_kind. case_bool_decide; [|intros H'; by apply elem_of_nil in H'].
    intros (f & get & _ & _ & ->)%settings_elem. by rewrite setting_change_action in Ha.
  - by apply rows_of_plain in H as [H _].
Qed.
Lemma move_idle base s y (c : nat) : distinct base.1 -> distinct s.1 ->
  moved (rl_ID <$> RoutingLists base.1) (rl_ID <$> RoutingLists s.1) y -> (rl_ID <$> RoutingLists s.1) !! c = Some y ->
  restoreIndex (rl_ID <$> RoutingLists base.1) (rl_ID <$> RoutingLists s.1) y <> c ->
  undoRoutingObject base.1 s.1 y restoreIndex <> None.
Proof.
  intros Hb Hs (HyB & HyD & _) Hc Hne. unfold undoRoutingObject. fold (clocked base.1 s.1 y).
  destruct (undoOrdered _ _ _ _ _ _) eqn:E; [done|]. intros _. apply Hne. apply undoOrdered_None in E as [[_ E]|(b & d & di & _ & Ed & _ & Hdi & E)].
  - by apply find_by_None in E.
  - rewrite !map_fmap, clocked_ids in E. change (map rl_ID ?l) with (rl_ID <$> l) in E. rewrite E. apply find_by_Some in Ed as [_ <-].
    eapply (proj1 (NoDup_alt _) (di_lists _ Hs)); [|exact Hc]. rewrite list_lookup_fmap, Hdi. done.
Qed.
Lemma pass_idle base K s : distinct base.1 -> distinct s.1 ->
  b_Touched (undoReportedOnce sprint sha256hex8 unicode_lower decode base s (of_subs K)) = false ->
  forall ch, ch ∈ rows base s -> of_subs K ch = false.
Proof.
  intros Hb Hs Ht ch Hch. pose proof (pass_took base K s Hb Hs) as [_ _ Htk].
  pose proof (swept_pass sprint sha256hex8 unicode_lower decode base s (of_subs K) Hb Hs) as Hsw.
  destruct (sw_idle _ _ _ _ _ _ _ _ _ Hsw Ht) as [Est Hidle].
  destruct (decide (ch_Action ch = ActionReordered)) as [Ha|Ha]; [|rewrite Est in Htk; by apply Htk in Hch as [_ ?]].
  destruct (reordered_row base s ch Hb Hs Hch Ha) as [i Hi]. destruct (move_row _ _ _ _ Hi) as (_ & _ & _ & Hsub).
  assert (Hm : move_rows base s i <> []) by (intros E; rewrite E in Hi; by apply elem_of_nil in Hi).
  apply position_rows_nil, moved_orders in Hm; [|done|done].
  destruct (orders_move _ _ (di_lists _ Hb) (di_lists _ Hs) Hm) as (y & c & Hy & Hc & Hne).
  pose proof (move_idle base s y c Hb Hs Hy Hc Hne) as Hmv. apply position_rows_nil in Hy; [|done|done].
  destruct (move_rows base s y) as [|ch' l] eqn:El; [done|].
  assert (Hch' : ch' ∈ move_rows base s y) by (rewrite El; by left). destruct (move_row _ _ _ _ Hch') as (E1 & E2 & _ & E3).
  apply not_true_iff_false. intros Hk. apply Hmv.
  assert (Hseen : (objRoutingList, y) ∈ b_Seen (undoReportedOnce sprint sha256hex8 unicode_lower decode base s (of_subs K))).
  { apply (sw_seen _ _ _ _ _ _ _ _ _ Hsw). exists ch'. split_and!; [apply rows_elem; [done..|]; right; by exists y| | |].
    - unfold of_subs in *. by rewrite E3, <- Hsub.
    - unfold is_setting. rewrite E1. done.
    - unfold key_of. by rewrite E1, E2. }
  apply Hidle, (undo_one_None sprint sha256hex8 unicode_lower decode) in Hseen as [_ H]; [by apply H|done|].
  unfold kinds. rewrite !elem_of_cons. tauto.
Qed.

(** ** A batch *)
Lemma passes_took base K n s touched : distinct base.1 -> distinct s.1 ->
  let '(s', touched') := undo_passes sprint sha256hex8 unicode_lower decode n base s (of_subs K) touched in
  (s' = s /\ touched' = touched) \/ (took base K s s' /\ touched' = true).
Proof.
  intros Hb. revert s touched. induction n as [|n IH]; intros s touched Hs; cbn; [by left|].
  destruct (b_Touched _); cbn; [|by left]. pose proof (pass_took base K s Hb Hs) as Htk.
  specialize (IH _ true (tk_distinct _ _ _ _ Htk)). destruct (undo_passes _ _ _ _ n _ _ _ _) as [s' t']. right.
  destruct IH as [[-> ->]|[H ->]]; (split; [|done]); [done|by eapply took_trans].
Qed.
Lemma passes_S base K n s touched :
  undo_passes sprint sha256hex8 unicode_lower decode (S n) base s (of_subs K) touched =
  let b := undoReportedOnce sprint sha256hex8 unicode_lower decode base s (of_subs K) in
  if negb (b_Touched b) then (s, touched) else undo_passes sprint sha256hex8 unicode_lower decode n base (b_State b) (of_subs K) true.
Proof. done. Qed.
Lemma batch_took base K s : distinct base.1 -> distinct s.1 ->
  let '(s', touched) := undoReported sprint sha256hex8 unicode_lower decode base s (of_subs K) in
  if touched then took base K s s' /\ exists ch, ch ∈ rows base s /\ of_subs K ch = true
  else s' = s /\ forall ch, ch ∈ rows base s -> of_subs K ch = false.
Proof.
  intros Hb Hs. unfold undoReported, maxUndoPasses. rewrite passes_S. cbv zeta.
  destruct (b_Touched (undoReportedOnce sprint sha256hex8 unicode_lower decode base s (of_subs K))) eqn:E; cbn [negb].
  - pose proof (pass_took base K s Hb Hs) as Htk.
    pose proof (passes_took base K 3 (b_State (undoReportedOnce sprint sha256hex8 unicode_lower decode base s (of_subs K))) true Hb (tk_distinct _ _ _ _ Htk)) as H.
    revert H. destruct (undo_passes _ _ _ _ 3 _ _ _ _) as [s' t']. intros H. assert (Hrow : exists ch, ch ∈ rows base s /\ of_subs K ch = true).
    { destruct (existsb (of_subs K) (rows base s)) eqn:Ex; [apply existsb_exists in Ex as (ch & H1 & H2); exists ch; by rewrite list_elem_of_In|].
      exfalso. unfold undoReportedOnce in E. revert E. clear -Ex.
      assert (Hn : forall l (b : Batch (Rest := Rest)), existsb (of_subs K) l = false -> foldl (undo_change sprint sha256hex8 unicode_lower base (of_subs K)) b l = b).
      { intros l. induction l as [|ch l IH]; intros b; cbn; [done|]. intros [Hc Hl]%orb_false_iff. unfold undo_change at 2. rewrite Hc. cbn. by apply IH. }
      by rewrite Hn. }
    destruct H as [[-> ->]|[H ->]]; split; try done. by eapply took_trans.
  - split; [done|]. by apply pass_idle.
Qed.
End passes.
