(* ===== verification/ChangesetSpec.v ===== *)
(** * What the review compares

    [reviewed_same] says, without the differ's rows and words, when two states are the same for the
    review: object by object under their ids, the lists both have in the same order, the DNS plane and
    the four settings. The review is empty exactly then ([rows_nil]).

    Further on: the review tells no secret. *)
From stdpp Require Import pretty sorting.
From S2P Require Import Prelude GoStrings GoText Model PbrLists Json GenResolve Changeset ChangesetUndo.
From S2P Require Import ChangesetFacts ChangesetOrder ChangesetSweep.
Local Open Scope Z_scope.

Section spec.
Context (sprint : any -> string) (sha256hex8 : string -> string) (unicode_lower : bytes -> bytes).
Context (decode : string -> option (any * bool)) {Rest : Type}.
Implicit Types (base desired s : Profile * Config Rest).
Abbreviation rows := (rows_between sprint sha256hex8 unicode_lower decode).
Abbreviation rows_of := (obj_rows sprint sha256hex8 unicode_lower decode).

(** ** The same connection, group, list *)
Record endpoint_agree (b d : Endpoint) : Prop := {
  ea_name : ep_Name b = ep_Name d; ea_server : ep_Server b = ep_Server d; ea_port : ep_Port b = ep_Port d;
  ea_protocol : ep_Protocol b = ep_Protocol d; ea_engine : ep_Engine b = ep_Engine d; ea_enabled : ep_Enabled b = ep_Enabled d;
  ea_mtu : ep_MTU b = ep_MTU d; ea_keepalive : ep_PersistentKeepalive b = ep_PersistentKeepalive d; ea_owner : ep_Owner b = ep_Owner d;
  ea_userspace : ep_AWGUserspace b = ep_AWGUserspace d; ea_tls : ep_TLS b = ep_TLS d; ea_transport : ep_Transport b = ep_Transport d;
  ea_multiplex : ep_Multiplex b = ep_Multiplex d; ea_health : ep_Health b = ep_Health d;
  ea_params k : let v := param (ep_Params b) k in let w := param (ep_Params d) k in
    sprint v = sprint w \/ isEmptyParam v = true /\ isEmptyParam w = true
}.
Record group_agree (b d : Group) : Prop := {
  ga_name : gr_Name b = gr_Name d; ga_type : gr_Type b = gr_Type d;
  ga_members : String.concat ", " (gr_Members b) = String.concat ", " (gr_Members d); ga_test : gr_Test b = gr_Test d;
  ga_kill : gr_KillSwitch b = gr_KillSwitch d; ga_interrupt : gr_InterruptOnSwitch b = gr_InterruptOnSwitch d; ga_managed : gr_Managed b = gr_Managed d
}.
Record list_agree (b d : RoutingList) : Prop := {
  la_name : rl_Name b = rl_Name d; la_outbound : rl_Outbound b = rl_Outbound d; la_enabled : rl_Enabled b = rl_Enabled d;
  la_source : Source b = Source d; la_format : rl_Format b = rl_Format d;
  la_manual : length (Manual b) = length (Manual d) /\ String.concat "," (Manual b) = String.concat "," (Manual d);
  la_cidrs : CIDRCache b = CIDRCache d; la_domains : DomainCache b = DomainCache d;
  la_cidr_source : CIDRSource b = CIDRSource d; la_domain_source : DomainSource b = DomainSource d;
  la_via : DownloadVia b = DownloadVia d; la_refresh : RefreshHours b = RefreshHours d;
  la_scope : ScopeMode b = ScopeMode d /\ ScopeGroups b = ScopeGroups d; la_fragment : TLSFragment b = TLSFragment d
}.
Record reviewed_same base desired : Prop := {
  rs_endpoints id : option_Forall2 endpoint_agree (held ep_ID Endpoints base id) (held ep_ID Endpoints desired id);
  rs_groups id : option_Forall2 group_agree (held gr_ID Groups base id) (held gr_ID Groups desired id);
  rs_lists id : option_Forall2 list_agree (held rl_ID RoutingLists base id) (held rl_ID RoutingLists desired id);
  rs_order : let B := rl_ID <$> RoutingLists base.1 in let D := rl_ID <$> RoutingLists desired.1 in shared D B = shared B D;
  rs_rules id : held r_ID Rules base id = held r_ID Rules desired id;
  rs_devices id : held dg_ID DeviceGroups base id = held dg_ID DeviceGroups desired id;
  rs_dns : DNS base.1 = DNS desired.1;
  rs_settings f get : (f, get) ∈ settings -> get base.2 = get desired.2
}.

(** ** Words tell values apart *)
Lemma boolWord_inj b b' : boolWord b = boolWord b' -> b = b'.
Proof. by destruct b, b'. Qed.
Lemma pretty_N_go_nonempty x t : t <> "" -> pretty_N_go x t <> "".
Proof.
  revert t. induction (N.lt_wf_0 x) as [x _ IH]. intros t Ht. destruct (decide (x = 0)%N) as [->|Hx].
  - by rewrite pretty_N_go_0.
  - rewrite pretty_N_go_step by lia. apply IH; [|done]. apply N.div_lt; lia.
Qed.
Lemma pretty_nonempty (z : Z) : pretty z <> "".
Proof.
  assert (H : forall n, pretty (Npos n) <> "").
  { intros n. unfold pretty, pretty_N. rewrite decide_False by done. rewrite pretty_N_go_step by done. by apply pretty_N_go_nonempty. }
  destruct z; [done|apply H|done].
Qed.
Lemma itoaOmitZero_inj n m : itoaOmitZero n = itoaOmitZero m -> n = m.
Proof.
  unfold itoaOmitZero. destruct (Z.eqb_spec n 0) as [->|], (Z.eqb_spec m 0) as [->|]; intros E; try done.
  - by destruct (pretty_nonempty m).
  - by destruct (pretty_nonempty n).
  - by apply (inj pretty).
Qed.
Lemma when_changed_nil (same : bool) ch : when_changed same ch = [] <-> same = true.
Proof. by destruct same. Qed.
Lemma concat_map_nil_iff {A} (f : A -> list Change) l : concat (map f l) = [] <-> forall x, x ∈ l -> f x = [].
Proof.
  split; [|apply concat_map_none]. induction l as [|y l IH]; cbn; [intros _ x H; by apply elem_of_nil in H|].
  intros [H1 H2]%app_eq_nil x [->|H]%elem_of_cons; [done|by apply IH].
Qed.
Lemma keys_of_elem {A} (m : gmap string A) k : k ∈ keys_of m <-> is_Some (m !! k).
Proof.
  unfold keys_of. rewrite list_elem_of_fmap. split.
  - intros ([k' v] & -> & H). apply elem_of_map_to_list in H. by exists v.
  - intros [v H]. exists (k, v). split; [done|by apply elem_of_map_to_list].
Qed.
Lemma merged_keys {A} (m m' : gmap string A) k :
  k ∈ sort_strings (keys_of m ++ List.filter (fun k => negb (bool_decide (is_Some (m !! k)))) (keys_of m')) <->
  is_Some (m !! k) \/ is_Some (m' !! k).
Proof.
  rewrite sort_strings_same, elem_of_app, keys_of_elem. rewrite (list_elem_of_In (List.filter _ _)), filter_In, <- list_elem_of_In, keys_of_elem.
  rewrite negb_true_iff, bool_decide_eq_false. destruct (m !! k); naive_solver.
Qed.

(** ** The fields of a connection *)
Definition text (m : gmap string string) (k : string) : string := default "" (m !! k).
Lemma scalar_rows_nil b d :
  scalar_rows b d = [] <-> forall k, text (endpointScalarFields b) k = text (endpointScalarFields d) k.
Proof.
  unfold scalar_rows. rewrite concat_map_nil_iff. setoid_rewrite merged_keys. setoid_rewrite when_changed_nil. setoid_rewrite bool_decide_eq_true.
  split; [|intros H k _; apply H]. intros H k. unfold text. destruct (endpointScalarFields b !! k) eqn:Eb, (endpointScalarFields d !! k) eqn:Ed; try done.
  - specialize (H k). rewrite Eb, Ed in H. apply H; auto using mk_is_Some || eauto.
  - specialize (H k). rewrite Eb, Ed in H. apply H; eauto.
  - specialize (H k). rewrite Eb, Ed in H. apply H; auto using mk_is_Some || eauto.
Qed.
Definition engine_word (e : Endpoint) : string :=
  if ep_AWGUserspace e then "amneziawg-go" else if bool_decide (ep_Engine e = EngineAmneziaWG) then "automatic" else "".
Lemma scalar_texts e :
  text (endpointScalarFields e) "Name" = ep_Name e /\ text (endpointScalarFields e) "Server" = ep_Server e /\
  text (endpointScalarFields e) "Port" = itoaOmitZero (ep_Port e) /\ text (endpointScalarFields e) "Protocol" = ep_Protocol e /\
  text (endpointScalarFields e) "Engine" = ep_Engine e /\ text (endpointScalarFields e) "Enabled" = boolWord (ep_Enabled e) /\
  text (endpointScalarFields e) "MTU" = itoaOmitZero (ep_MTU e) /\ text (endpointScalarFields e) "Keepalive" = itoaOmitZero (ep_PersistentKeepalive e) /\
  text (endpointScalarFields e) "Owner" = ep_Owner e /\ text (endpointScalarFields e) fieldAWGEngine = engine_word e.
Proof.
  unfold text, endpointScalarFields, fieldAWGEngine, engine_word. cbv zeta.
  destruct (decide (ep_Owner e = "")) as [E|E]; [rewrite (bool_decide_eq_true_2 _ E), E|rewrite (bool_decide_eq_false_2 _ E)];
    destruct (ep_AWGUserspace e); try (destruct (bool_decide (ep_Engine e = EngineAmneziaWG))); cbn [list_to_map foldr uncurry fst snd]; by simplify_map_eq.
Qed.
Lemma engine_word_inj b d : ep_Engine b = ep_Engine d -> engine_word b = engine_word d -> ep_AWGUserspace b = ep_AWGUserspace d.
Proof. unfold engine_word. intros ->. destruct (ep_AWGUserspace b), (ep_AWGUserspace d); try done; by case_bool_decide. Qed.
Lemma scalar_texts_agree b d :
  (forall k, text (endpointScalarFields b) k = text (endpointScalarFields d) k) <->
  (ep_Name b = ep_Name d /\ ep_Server b = ep_Server d /\ ep_Port b = ep_Port d /\ ep_Protocol b = ep_Protocol d /\ ep_Engine b = ep_Engine d) /\
  (ep_Enabled b = ep_Enabled d /\ ep_MTU b = ep_MTU d /\ ep_PersistentKeepalive b = ep_PersistentKeepalive d /\ ep_Owner b = ep_Owner d /\
   ep_AWGUserspace b = ep_AWGUserspace d).
Proof.
  split.
  - intros H. destruct (scalar_texts b) as (B1 & B2 & B3 & B4 & B5 & B6 & B7 & B8 & B9 & B10), (scalar_texts d) as (D1 & D2 & D3 & D4 & D5 & D6 & D7 & D8 & D9 & D10).
    assert (E5 : ep_Engine b = ep_Engine d) by (by rewrite <- B5, <- D5).
    split_and!; try done; [by rewrite <- B1, <- D1|by rewrite <- B2, <- D2| |by rewrite <- B4, <- D4| | | |by rewrite <- B9, <- D9|].
    + apply itoaOmitZero_inj. by rewrite <- B3, <- D3.
    + apply boolWord_inj. by rewrite <- B6, <- D6.
    + apply itoaOmitZero_inj. by rewrite <- B7, <- D7.
    + apply itoaOmitZero_inj. by rewrite <- B8, <- D8.
    + apply engine_word_inj; [done|]. by rewrite <- B10, <- D10.
  - intros [(E1 & E2 & E3 & E4 & E5) (E6 & E7 & E8 & E9 & E10)] k. unfold endpointScalarFields. by rewrite E1, E2, E3, E4, E5, E6, E7, E8, E9, E10.
Qed.
Lemma param_row_nil b d k : param_row sprint unicode_lower b d k = [] <->
  let v := param (ep_Params b) k in let w := param (ep_Params d) k in sprint v = sprint w \/ isEmptyParam v = true /\ isEmptyParam w = true.
Proof.
  unfold param_row. cbv zeta. case_bool_decide as E; [split; [by left|done]|]. rewrite <- andb_true_iff.
  destruct (isEmptyParam _ && isEmptyParam _); [split; [by right|done]|]. destruct (IsSecretField _ _).
  - destruct (secretTransition _ _ _). split; [done|]. by intros [?|?].
  - split; [done|]. by intros [?|?].
Qed.
Lemma endpoint_fields_nil b d : diffEndpointFields sprint sha256hex8 unicode_lower b d = [] <-> endpoint_agree b d.
Proof.
  unfold diffEndpointFields. rewrite !app_nil_iff, scalar_rows_nil, !when_changed_nil, concat_map_nil_iff, scalar_texts_agree.
  unfold sameJSON. rewrite !bool_decide_eq_true. setoid_rewrite param_row_nil. unfold param_keys. setoid_rewrite merged_keys. split.
  - intros ([(? & ? & ? & ? & ?) (? & ? & ? & ? & ?)] & ? & ? & ? & ? & Hp). split; try done. intros k. cbv zeta.
    destruct (ep_Params b !! k) eqn:Eb, (ep_Params d !! k) eqn:Ed; try (apply Hp; rewrite ?Eb, ?Ed; eauto; fail).
    left. unfold param. by rewrite Eb, Ed.
  - intros []. split_and!; done || (intros k _; by apply ea_params0).
Qed.
Lemma group_fields_nil b d : group_fields b d = [] <-> group_agree b d.
Proof.
  unfold group_fields, sameJSON. rewrite !app_nil_iff, !when_changed_nil, !bool_decide_eq_true, !eqb_true_iff. split.
  - intros (? & ? & ? & ? & ? & ? & ?). by split.
  - by intros [].
Qed.
Lemma list_fields_nil b d : list_fields b d = [] <-> list_agree b d.
Proof.
  unfold list_fields, sameStrings. cbv zeta. rewrite !app_nil_iff, !when_changed_nil, !andb_true_iff, !bool_decide_eq_true, !eqb_true_iff, Nat.eqb_eq, Z.eqb_eq. split.
  - intros (? & ? & ? & ? & ? & ? & ? & ? & ? & ? & ? & ? & ? & ?). by split.
  - intros [? ? ? ? ? [? ?] ? ? ? ? ? ? [? ?] ?]. by split_and!.
Qed.
Lemma dns_nil (b d : option DNSSettings) : diffDNSPlane b d = [] <-> b = d.
Proof.
  split; [|intros ->; apply dns_rows_refl]. destruct b as [b|], d as [d|]; cbn; try done. unfold dns_fields, sameJSON. cbv zeta.
  rewrite !app_nil_iff, !when_changed_nil, !andb_true_iff, !bool_decide_eq_true, !eqb_true_iff.
  intros (? & ? & ? & ? & Hs & [? ?] & ? & ? & ? & ? & ? & ? & ?). destruct (_ =? _)%nat; cbn in Hs; [|done].
  apply when_changed_nil, bool_decide_eq_true in Hs. destruct b, d; cbn in *. congruence.
Qed.

(** ** The review is empty exactly where nothing it compares differs *)
Lemma rows_at_nil {A} added (modified : A -> A -> list Change) removed (R : A -> A -> Prop) o o' :
  (forall b d, modified b d = [] <-> R b d) -> rows_at added modified removed o o' = [] <-> option_Forall2 R o o'.
Proof.
  intros HR. destruct o as [b|], o' as [d|]; cbn.
  - rewrite HR. split; [by constructor|by inversion 1].
  - split; [done|by inversion 1].
  - split; [done|by inversion 1].
  - split; [constructor|done].
Qed.
Lemma option_eq_Forall2 {A} (o o' : option A) : option_Forall2 (=) o o' <-> o = o'.
Proof. split; [by inversion 1; subst|]. intros ->. destruct o'; by constructor. Qed.
Lemma list_nil_iff (l : list Change) : l = [] <-> forall ch, ch ∉ l.
Proof. split; [intros -> ch H; by apply elem_of_nil in H|]. destruct l as [|ch l]; [done|]. intros H. destruct (H ch). left. Qed.
Lemma rows_nil_objects base desired : distinct base.1 -> distinct desired.1 ->
  rows base desired = [] <-> (forall t i, rows_of base desired t i = []) /\ forall i, move_rows base desired i = [].
Proof.
  intros Hb Hd. setoid_rewrite list_nil_iff. setoid_rewrite (rows_elem sprint sha256hex8 unicode_lower decode); [|done|done]. naive_solver.
Qed.
Lemma moves_nil base desired : distinct base.1 -> distinct desired.1 ->
  (forall i, move_rows base desired i = []) <->
  shared (rl_ID <$> RoutingLists desired.1) (rl_ID <$> RoutingLists base.1) = shared (rl_ID <$> RoutingLists base.1) (rl_ID <$> RoutingLists desired.1).
Proof.
  intros Hb Hd. split.
  - intros H. apply dec_stable. intros Hne. destruct (orders_move _ _ (di_lists _ Hb) (di_lists _ Hd) Hne) as (y & _ & Hm & _).
    apply position_rows_nil in Hm; [|done|done]. by apply Hm.
  - intros H i. apply dec_stable. rewrite position_rows_nil by done. by intros Hm%moved_orders.
Qed.
Lemma objects_nil base desired :
  (forall t i, rows_of base desired t i = []) <->
  (forall i, option_Forall2 endpoint_agree (held ep_ID Endpoints base i) (held ep_ID Endpoints desired i)) /\
  (forall i, option_Forall2 group_agree (held gr_ID Groups base i) (held gr_ID Groups desired i)) /\
  (forall i, option_Forall2 list_agree (held rl_ID RoutingLists base i) (held rl_ID RoutingLists desired i)) /\
  (forall i, held r_ID Rules base i = held r_ID Rules desired i) /\
  (forall i, held dg_ID DeviceGroups base i = held dg_ID DeviceGroups desired i) /\
  DNS base.1 = DNS desired.1 /\ forall f get, (f, get) ∈ settings -> get base.2 = get desired.2.
Proof.
  assert (Hr : forall b d : Rule, rule_fields b d = [] <-> b = d) by (intros b d; unfold rule_fields, sameJSON; by rewrite when_changed_nil, bool_decide_eq_true).
  assert (Hg : forall b d : DeviceGroup, devices_fields b d = [] <-> b = d) by (intros b d; unfold devices_fields, sameJSON; by rewrite when_changed_nil, bool_decide_eq_true).
  rewrite <- dns_nil, <- settings_equal_get, <- (settings_rows_nil decode).
  setoid_rewrite <- option_eq_Forall2.
  setoid_rewrite <- (rows_at_nil (fun d => rule_row d ActionAdded) rule_fields (fun b => interrupting (rule_row b ActionRemoved)) eq _ _ Hr).
  setoid_rewrite <- (rows_at_nil (fun d => devices_row d ActionAdded) devices_fields (fun b => devices_row b ActionRemoved) eq _ _ Hg).
  setoid_rewrite <- (rows_at_nil list_added list_fields list_removed list_agree _ _ list_fields_nil).
  setoid_rewrite <- (rows_at_nil group_added group_fields group_removed group_agree _ _ group_fields_nil).
  setoid_rewrite <- (rows_at_nil endpoint_added _ endpoint_removed endpoint_agree _ _ endpoint_fields_nil).
  unfold obj_rows. split.
  - intros H. split_and!.
    + intros i. exact (H objEndpoint i).
    + intros i. exact (H objGroup i).
    + intros i. exact (H objRoutingList i).
    + intros i. exact (H objRule i).
    + intros i. exact (H objDeviceGroup i).
    + exact (H objDNS "dns"%string).
    + exact (H objSetting "settings"%string).
  - intros (H1 & H2 & H3 & H4 & H5 & H6 & H7) t i. repeat case_bool_decide; done.
Qed.
Lemma rows_nil base desired : distinct base.1 -> distinct desired.1 -> rows base desired = [] <-> reviewed_same base desired.
Proof.
  intros Hb Hd. rewrite rows_nil_objects, objects_nil, moves_nil by done. split.
  - intros [(? & ? & ? & ? & ? & ? & ?) ?]. by split.
  - by intros [].
Qed.
End spec.

(** * The review tells no secret

    A [Veil] replaces secrets by others, equal ones by equal ones and empty ones by empty ones: the
    values of the parameters [IsSecretField] names, the REALITY keys, a transport's path and the
    DNS servers. The review of two veiled states is the review of the states, so nothing of a secret
    but that it was set, changed or removed shows in it. *)

(** ** The differ of two collections, each object renamed *)
Lemma by_id_map {A} (idOf : A -> string) (h : A -> A) l k : (forall x, idOf (h x) = idOf x) ->
  by_id idOf (map h l) !! k = h <$> (by_id idOf l !! k).
Proof.
  intros Hid. unfold by_id. induction l as [|x l IH] using rev_ind; [cbn; by rewrite !lookup_empty|].
  rewrite map_app. cbn [map]. rewrite !foldl_snoc, Hid. destruct (decide (k = idOf x)) as [->|Hne].
  - by rewrite !lookup_insert_eq.
  - by rewrite !lookup_insert_ne.
Qed.
Lemma map_ids {A} (idOf : A -> string) (h : A -> A) l : (forall x, idOf (h x) = idOf x) -> map idOf (map h l) = map idOf l.
Proof. intros Hid. rewrite map_map. by apply map_ext. Qed.
Lemma diff_by_map {A} (idOf : A -> string) added modified removed (h : A -> A) base desired :
  (forall x, idOf (h x) = idOf x) -> (forall x, added (h x) = added x) -> (forall x, removed (h x) = removed x) ->
  (forall b d, modified (h b) (h d) = modified b d) ->
  diff_by idOf added modified removed (map h base) (map h desired) = diff_by idOf added modified removed base desired.
Proof.
  intros Hid Ha Hr Hm. unfold diff_by. f_equal.
  - f_equal. rewrite map_map. apply map_ext. intros d. rewrite by_id_map by done. rewrite Hid. destruct (by_id idOf base !! idOf d); cbn; by rewrite ?Hm, ?Ha.
  - rewrite map_ids by done. induction base as [|b base IH]; cbn; [done|]. rewrite Hid. destruct (negb _); cbn; by rewrite ?Hr, IH.
Qed.
Lemma sort_strings_of_perm l l' : l ≡ₚ l' -> sort_strings l = sort_strings l'.
Proof.
  intros H. apply (Sorted_unique String.le); [apply Sorted_merge_sort; apply _..|]. unfold sort_strings. by rewrite !merge_sort_Permutation.
Qed.

Section secrets.
Context (sprint : any -> string) (sha256hex8 : string -> string) (unicode_lower : bytes -> bytes).
Context (decode : string -> option (any * bool)) {Rest : Type}.
Implicit Types (base desired s : Profile * Config Rest).
Abbreviation rows := (rows_between sprint sha256hex8 unicode_lower decode).

Record Veil := mkVeil {
  v_param : string -> any -> any; v_public : string -> string; v_short : string -> string; v_path : string -> string; v_server : DNSServer -> DNSServer
}.
Record veils (v : Veil) : Prop := {
  vl_nil k : v_param v k ANil = ANil;
  vl_empty k x : isEmptyParam (v_param v k x) = isEmptyParam x;
  vl_none k x : sprint (v_param v k x) = "<nil>" <-> sprint x = "<nil>";
  vl_same k x y : sprint (v_param v k x) = sprint (v_param v k y) <-> sprint x = sprint y;
  vl_public : Inj (=) (=) (v_public v); vl_short : Inj (=) (=) (v_short v); vl_path : Inj (=) (=) (v_path v); vl_server : Inj (=) (=) (v_server v)
}.
Definition veil_params (v : Veil) (m : gmap string any) : gmap string any :=
  map_imap (fun k x => Some (if IsSecretField unicode_lower k then v_param v k x else x)) m.
Definition veil_tls (v : Veil) (t : TLS) : TLS :=
  mkTLS (tls_Enabled t) (tls_Type t) (tls_SNI t) (tls_ALPN t) (tls_Insecure t) (tls_Fingerprint t) (v_public v (tls_PublicKey t))
    (v_short v (tls_ShortID t)) (tls_Fragment t) (tls_RecordFragment t) (tls_ECH t) (tls_PinCertSHA256 t) (tls_PinPubKeySHA256 t)
    (tls_PinCertMayBeCA t) (tls_PinCertBesideChain t) (tls_PinCertMayBeCAOf t) (tls_PinCertBesideChainOf t).
Definition veil_transport (v : Veil) (t : Transport) : Transport :=
  mkTransport (tr_Type t) (v_path v (tr_Path t)) (tr_Host t) (tr_ServiceName t) (tr_Headers t).
Definition veil_endpoint (v : Veil) (e : Endpoint) : Endpoint :=
  e <| ep_Params := veil_params v (ep_Params e) |> <| ep_TLS := veil_tls v <$> ep_TLS e |> <| ep_Transport := veil_transport v <$> ep_Transport e |>.
Definition veil_dns (v : Veil) (d : DNSSettings) : DNSSettings := d <| dns_Servers := map (v_server v) (dns_Servers d) |>.
Definition veil_profile (v : Veil) (p : Profile) : Profile :=
  p <| Endpoints := map (veil_endpoint v) (Endpoints p) |> <| DNS := veil_dns v <$> DNS p |>.
Definition veiled (v : Veil) s : Profile * Config Rest := (veil_profile v s.1, s.2).

Context (v : Veil) (Hv : veils v).
Lemma veil_param m k : param (veil_params v m) k = if IsSecretField unicode_lower k then v_param v k (param m k) else param m k.
Proof using Hv.
  unfold param, veil_params. rewrite map_lookup_imap. destruct (m !! k); cbn; [by destruct (IsSecretField _ _)|].
  destruct (IsSecretField _ _); [by rewrite (vl_nil _ Hv)|done].
Qed.
Lemma sameJSON_inj {A} `{EqDecision A} (f : A -> A) (a b : A) : Inj (=) (=) f -> sameJSON (f a) (f b) = sameJSON a b.
Proof. intros Hf. unfold sameJSON. apply bool_decide_ext. split; [apply Hf|by intros ->]. Qed.
#[local] Instance veil_tls_inj : Inj (=) (=) (veil_tls v).
Proof using Hv.
  intros [] [] H. injection H. intros. f_equal; try done; [by apply (vl_public _ Hv)|by apply (vl_short _ Hv)].
Qed.
#[local] Instance veil_transport_inj : Inj (=) (=) (veil_transport v).
Proof using Hv. intros [] [] H. injection H. intros. f_equal; try done. by apply (vl_path _ Hv). Qed.
#[local] Instance option_map_inj {A B} (f : A -> B) : Inj (=) (=) f -> Inj (=) (=) (fmap (M := option) f).
Proof. intros Hf [x|] [y|]; cbn; intros E; try done. injection E as E. f_equal. by apply Hf. Qed.
#[local] Instance list_map_inj {A B} (f : A -> B) : Inj (=) (=) f -> Inj (=) (=) (map f).
Proof. intros Hf l. induction l as [|x l IH]; intros [|y l']; cbn; intros E; try done. injection E as E1 E2. f_equal; [by apply Hf|by apply IH]. Qed.
Lemma veil_keys m : keys_of (veil_params v m) ≡ₚ keys_of m.
Proof.
  unfold keys_of. apply NoDup_Permutation; [apply NoDup_fst_map_to_list..|]. intros k. rewrite !list_elem_of_fmap. split.
  - intros ([k' x] & -> & H%elem_of_map_to_list). unfold veil_params in H. rewrite map_lookup_imap in H. apply bind_Some in H as (y & H & _).
    exists (k', y). split; [done|]. by apply elem_of_map_to_list.
  - intros ([k' x] & -> & H%elem_of_map_to_list). exists (k', if IsSecretField unicode_lower k' then v_param v k' x else x). split; [done|]. apply elem_of_map_to_list. unfold veil_params.
    rewrite map_lookup_imap, H. reflexivity.
Qed.
Lemma veil_has m k : is_Some (veil_params v m !! k) <-> is_Some (m !! k).
Proof. unfold veil_params. rewrite map_lookup_imap. destruct (m !! k); cbn; [split; by eexists|done]. Qed.
Lemma veil_param_keys b d : param_keys (veil_endpoint v b) (veil_endpoint v d) = param_keys b d.
Proof.
  unfold param_keys. apply sort_strings_of_perm. cbn. rewrite veil_keys. f_equiv.
  rewrite (filter_ext _ (fun k => negb (bool_decide (is_Some (ep_Params b !! k))))).
  - generalize (veil_keys (ep_Params d)). generalize (keys_of (veil_params v (ep_Params d))), (keys_of (ep_Params d)). intros l l' H.
    induction H as [|x l l' _ IH|x y l|l l' l'' _ IH _ IH']; cbn; [done| | |by rewrite IH].
    + by destruct (negb _); rewrite IH.
    + destruct (negb (bool_decide (is_Some (ep_Params b !! x)))), (negb (bool_decide (is_Some (ep_Params b !! y)))); done || apply Permutation_swap.
  - intros k. f_equal. apply bool_decide_ext, veil_has.
Qed.
Lemma veil_param_row b d k : param_row sprint unicode_lower (veil_endpoint v b) (veil_endpoint v d) k = param_row sprint unicode_lower b d k.
Proof using Hv.
  unfold param_row. cbn. rewrite !veil_param. destruct (IsSecretField unicode_lower k); [|done].
  rewrite (bool_decide_ext _ _ (vl_same _ Hv k _ _)), !(vl_empty _ Hv). unfold secretTransition. rewrite !(vl_empty _ Hv).
  by rewrite !(bool_decide_ext _ _ (vl_none _ Hv k _)).
Qed.
Lemma veil_endpoint_fields b d :
  diffEndpointFields sprint sha256hex8 unicode_lower (veil_endpoint v b) (veil_endpoint v d) = diffEndpointFields sprint sha256hex8 unicode_lower b d.
Proof using Hv.
  unfold diffEndpointFields. rewrite veil_param_keys, (map_ext _ _ (veil_param_row b d)).
  change (ep_TLS (veil_endpoint v b)) with (veil_tls v <$> ep_TLS b). change (ep_TLS (veil_endpoint v d)) with (veil_tls v <$> ep_TLS d).
  change (ep_Transport (veil_endpoint v b)) with (veil_transport v <$> ep_Transport b). change (ep_Transport (veil_endpoint v d)) with (veil_transport v <$> ep_Transport d).
  rewrite (sameJSON_inj (fmap (veil_tls v))), (sameJSON_inj (fmap (veil_transport v))) by apply _.
  assert (Ht : forall t, describeTLS sha256hex8 (veil_tls v <$> t) = describeTLS sha256hex8 t) by (by intros [[]|]).
  assert (Htr : forall t, describeTransport (veil_transport v <$> t) = describeTransport t) by (by intros [[]|]).
  by rewrite !Ht, !Htr.
Qed.
Lemma veil_dns_rows b d : diffDNSPlane (veil_dns v <$> b) (veil_dns v <$> d) = diffDNSPlane b d.
Proof using Hv.
  destruct b as [b|], d as [d|]; try done. cbn. unfold dns_fields. cbn. rewrite !length_map.
  rewrite (sameJSON_inj (map (v_server v))) by (apply list_map_inj, Hv). done.
Qed.
Lemma veiled_rows base desired : rows (veiled v base) (veiled v desired) = rows base desired.
Proof using Hv.
  unfold rows_between, Diff. cbn [Changes].
  change (diffDNSPlane (DNS (veiled v base).1) (DNS (veiled v desired).1)) with (diffDNSPlane (veil_dns v <$> DNS base.1) (veil_dns v <$> DNS desired.1)).
  rewrite veil_dns_rows. unfold diffEndpoints.
  change (Endpoints (veiled v base).1) with (map (veil_endpoint v) (Endpoints base.1)). change (Endpoints (veiled v desired).1) with (map (veil_endpoint v) (Endpoints desired.1)).
  rewrite diff_by_map; [done|done|done|done|]. apply veil_endpoint_fields.
Qed.
End secrets.
