(* ===== verification/ChangesetTheorems.v ===== *)
(** * The change review and its undo: the theorems

    What the review shows is what differs, and undo takes back what it shows: an object with all its
    rows, moves included; a subsystem or everything with the rows it names and no other. *)
From S2P Require Import Prelude GoStrings GoText Model GenResolve Json Changeset ChangesetUndo ChangesetFacts.
From S2P Require Import ChangesetOrder ChangesetSweep ChangesetSpec.
Local Open Scope Z_scope.

Section theorems.
Context (sprint : any -> string) (sha256hex8 : string -> string) (unicode_lower : bytes -> bytes).
Context (decode : string -> option (any * bool)) {Rest : Type}.
Implicit Types (base desired s : Profile * Config Rest).
Abbreviation rows := (rows_between sprint sha256hex8 unicode_lower decode).
Abbreviation rows_of := (obj_rows sprint sha256hex8 unicode_lower decode).
Abbreviation undo := (Undo sprint sha256hex8 unicode_lower decode).

(** ** The review *)
(** C8: the review of two states is empty exactly where they agree on everything it compares: each connection, group,
    list, rule and device group by its id, the order of the lists both have, the DNS plane and the four settings. *)
Theorem review_empty_iff_same (r r' : string) base desired : distinct base.1 -> distinct desired.1 ->
  Changes (Diff sprint sha256hex8 unicode_lower decode r r' base.1 desired.1 base.2 desired.2) = [] <-> reviewed_same sprint base desired.
Proof. intros Hb Hd. by rewrite <- (rows_nil sprint sha256hex8 unicode_lower decode). Qed.
(** C5: replacing secrets by others leaves the review the same: no row tells of a secret parameter, a REALITY key, a
    transport's path or a DNS server's address more than whether it was set, changed or removed. *)
Theorem review_tells_no_secret v (r r' : string) base desired : veils sprint v ->
  Diff sprint sha256hex8 unicode_lower decode r r' (veiled unicode_lower v base).1 (veiled unicode_lower v desired).1 base.2 desired.2 =
  Diff sprint sha256hex8 unicode_lower decode r r' base.1 desired.1 base.2 desired.2.
Proof.
  intros Hv. pose proof (veiled_rows sprint sha256hex8 unicode_lower decode v Hv base desired) as H. unfold rows_between in H.
  unfold Diff in *. cbn [Changes] in H. by rewrite <- H.
Qed.

(** ** Undoing an object *)
Lemma list_placed base desired i slot p : distinct base.1 -> distinct desired.1 ->
  undoRoutingObject base.1 desired.1 i slot = Some p ->
  let B := rl_ID <$> RoutingLists base.1 in
  let D := rl_ID <$> RoutingLists desired.1 in
  rl_ID <$> RoutingLists p = insertAt (rest_of D i) i (slot B D i) \/ i ∉ B.
Proof.
  intros Hb Hd. unfold undoRoutingObject. fold (clocked base.1 desired.1 i). intros (l & H & [= <-])%bind_Some. cbn zeta.
  unfold undoOrdered in H.
  assert (HB : forall n x, find_at rl_ID i (clocked base.1 desired.1 i) = Some (n, x) -> rl_ID x = i) by (intros n x E; by apply find_at_Some in E as (_ & E & _)).
  destruct (find_at rl_ID i (clocked base.1 desired.1 i)) as [[bi b]|] eqn:Eb.
  - left. specialize (HB bi b eq_refl). destruct (find_at rl_ID i (RoutingLists desired.1)) as [[di d]|] eqn:Ed.
    + destruct (_ && _); [done|]. injection H as <-. apply find_at_Some in Ed as (Hdi & Hdid & _). cbn.
      rewrite map_insertAt, HB, (delete_rest rl_ID _ _ _ (di_lists _ Hd) Hdi), Hdid. change (map rl_ID ?l) with (rl_ID <$> l). by rewrite clocked_ids.
    + injection H as <-. cbn. rewrite map_insertAt, HB. change (map rl_ID ?l) with (rl_ID <$> l). rewrite clocked_ids.
      apply find_at_None, find_by_None in Ed. rewrite rest_of_absent by done. done.
  - right. apply find_at_None, find_by_None in Eb. by rewrite clocked_ids in Eb.
Qed.
Lemma undo_list_unmoved base desired i s : distinct base.1 -> distinct desired.1 -> distinct s.1 ->
  undoRoutingObject base.1 desired.1 i rankSlot = Some s.1 -> move_rows base s i = [].
Proof.
  intros Hb Hd Hs H. apply dec_stable. rewrite position_rows_nil by done.
  destruct (list_placed base desired i rankSlot s.1 Hb Hd H) as [E|Hn]; cbv zeta in *.
  - rewrite E. apply rankSlot_unmoved; [apply Hb|apply Hd].
  - by intros (? & _).
Qed.
(** A list that is not undone is where [rankSlot] puts it. *)
Lemma undo_list_None_unmoved base desired i : distinct base.1 -> distinct desired.1 ->
  undoRoutingObject base.1 desired.1 i rankSlot = None -> move_rows base desired i = [].
Proof.
  intros Hb Hd. unfold undoRoutingObject. fold (clocked base.1 desired.1 i). destruct (undoOrdered _ _ _ _ _ _) eqn:E; [done|]. intros _.
  apply dec_stable. rewrite position_rows_nil by done.
  apply undoOrdered_None in E as [[_ E]|(b & d & di & _ & Ed & _ & Hdi & E)].
  - apply find_by_None in E. by intros (_ & ? & _).
  - rewrite !map_fmap, clocked_ids in E. change (map rl_ID ?l) with (rl_ID <$> l) in E.
    pose proof (rankSlot_unmoved (rl_ID <$> RoutingLists base.1) (rl_ID <$> RoutingLists desired.1) i (di_lists _ Hb) (di_lists _ Hd)) as H.
    rewrite E in H. apply find_by_Some in Ed as [_ Hid]. rewrite <- Hid in H |- *. rewrite <- (delete_rest rl_ID _ _ _ (di_lists _ Hd) Hdi) in H.
    rewrite <- map_insertAt in H. unfold insertAt in H. apply list_elem_of_split_length in Hdi as (l1 & l2 & Hl & ->).
    rewrite Hl in *. rewrite delete_middle, take_app_length, drop_app_length in H. done.
Qed.

Definition object_request (type id : string) : UndoRequest := mkUndo ScopeObject id type "" "".
Lemma shown_undone base desired ch : distinct base.1 -> distinct desired.1 -> ch ∈ rows base desired ->
  exists s, undoObject sprint sha256hex8 unicode_lower base desired (ch_ObjectType ch) (ch_ID ch) rankSlot = Some s.
Proof.
  intros Hb Hd Hch. destruct (row_kind _ _ _ _ _ _ ch Hb Hd Hch) as [Hkind _].
  destruct (undoObject _ _ _ _ _ _ _ _) as [s|] eqn:E; [by exists s|exfalso].
  apply (undo_one_None sprint sha256hex8 unicode_lower decode) in E as [Hnil Hlist]; [|done|done].
  apply rows_elem in Hch as [(t & i & H)|[i H]]; [| |done|done].
  - pose proof (rows_of_key _ _ _ _ _ _ _ _ _ H) as [Et Ei]. rewrite <- Et, <- Ei, Hnil in H. by apply elem_of_nil in H.
  - destruct (move_row _ _ _ _ H) as (Et & Ei & _). apply undo_list_None_unmoved in Hlist; [|done..]. rewrite Ei in Hlist.
    rewrite Hlist in H. by apply elem_of_nil in H.
Qed.
Lemma undone_clears base desired type id s : distinct base.1 -> distinct desired.1 -> type ∈ kinds ->
  undoObject sprint sha256hex8 unicode_lower base desired type id rankSlot = Some s ->
  forall ch, ch ∈ rows base s -> ~ about type id ch.
Proof.
  intros Hb Hd Hkind E ch Hch [Et Ei]. pose proof (kinds_named _ Hkind) as Hne.
  destruct (undo_one_reverted sprint sha256hex8 unicode_lower decode _ _ _ _ _ _ Hb Hd Hne E) as [Hds _ Hrows _].
  apply rows_elem in Hch as [(t & i & H)|[i H]]; [| |done|done].
  - pose proof (rows_of_key _ _ _ _ _ _ _ _ _ H) as [Et' Ei']. rewrite Hrows, bool_decide_eq_true_2 in H by (split; congruence). by apply elem_of_nil in H.
  - destruct (move_row _ _ _ _ H) as (Et' & Ei' & _). rewrite (undo_list_unmoved base desired i s) in H; [by apply elem_of_nil in H|done..|].
    assert (Et2 : type = objRoutingList) by congruence. rewrite <- Ei', Ei. clear -E Et2 Hne decode. rewrite Et2 in *.
    apply (undo_one_Some sprint sha256hex8 unicode_lower decode) in E as [(Ec & _)|[_ Ec]]; [vm_compute in Ec; discriminate Ec| |done].
    destruct Ec as [[Ec _]|[[Ec _]|[[_ Ec]|[[Ec _]|[[Ec _]|[Ec _]]]]]]; try (vm_compute in Ec; discriminate Ec). done.
Qed.

(** Moves are told by the lists alone. *)
Lemma same_moves base desired s i : RoutingLists s.1 = RoutingLists desired.1 -> move_rows base s i = move_rows base desired i.
Proof. intros E. unfold move_rows, held. by rewrite E. Qed.
(** C6: undoing an object the review shows is not refused: no row of it is left, a move's neither, nothing outside the
    review changes, and every row of the other objects is shown as before. One exception: undoing a routing list may
    change which of the other lists the review shows as moved, since a move is told by the order of all of them. *)
Theorem undo_object_clears base desired ch :
  distinct base.1 -> distinct desired.1 -> ch ∈ rows base desired -> ch_ID ch <> "" ->
  exists s, undo base desired (object_request (ch_ObjectType ch) (ch_ID ch)) = inr s /\ cf_Rest s.2 = cf_Rest desired.2 /\
    (forall ch', ch' ∈ rows base s -> ~ about (ch_ObjectType ch) (ch_ID ch) ch') /\
    (forall ch', ch_Action ch' <> ActionReordered \/ ch_ObjectType ch <> objRoutingList -> ~ about (ch_ObjectType ch) (ch_ID ch) ch' ->
       ch' ∈ rows base s <-> ch' ∈ rows base desired).
Proof.
  intros Hb Hd Hch Hid. destruct (row_kind _ _ _ _ _ _ ch Hb Hd Hch) as [Hkind _]. destruct (shown_undone base desired ch Hb Hd Hch) as [s E].
  exists s. pose proof (kinds_named _ Hkind) as Hne.
  destruct (undo_one_reverted sprint sha256hex8 unicode_lower decode _ _ _ _ _ _ Hb Hd Hne E) as [Hds Hrest Hrows Hlists]. split_and!.
  - unfold Undo. cbn. rewrite (bool_decide_eq_false_2 _ Hid), E. done.
  - done.
  - by apply undone_clears with desired.
  - intros ch' Ha Hab. rewrite !rows_elem by done.
    assert (Hm : forall i, ch' ∈ move_rows base s i <-> ch' ∈ move_rows base desired i).
    { intros i. destruct Ha as [Ha|Ht]; [|by rewrite (same_moves base desired s i (Hlists Ht))].
      split; intros H; destruct (move_row _ _ _ _ H) as (_ & _ & ? & _); done. }
    assert (Ho : forall t i s', ch' ∈ rows_of base s' t i -> ~ (t = ch_ObjectType ch /\ i = ch_ID ch)).
    { intros t i s' H [-> ->]. apply Hab. apply (rows_of_key _ _ _ _ _ _ _ _ _ H). }
    split; (intros [(t & i & H)|[i H]]; [|right; exists i; by apply Hm]); left; exists t, i; pose proof (Ho _ _ _ H) as Hk.
    + by rewrite Hrows, bool_decide_eq_false_2 in H.
    + by rewrite Hrows, bool_decide_eq_false_2.
Qed.

(** ** Undoing many at once *)
Definition subs_of (req : UndoRequest) (sub : string) : bool :=
  bool_decide (u_Scope req = ScopeAll) || bool_decide (sub = u_Subsystem req).
(** C7: discarding a subsystem, or everything, is refused only where the review has no row of it; otherwise the rows
    of it, moves apart, are gone, every other row is as it was, and nothing outside the review changes. *)
Theorem undo_batch_takes_its_rows base desired req :
  distinct base.1 -> distinct desired.1 ->
  u_Scope req = ScopeAll \/ (u_Scope req = ScopeSubsystem /\ u_Subsystem req <> "") ->
  match undo base desired req with
  | inl _ => forall ch, ch ∈ rows base desired -> subs_of req (ch_Subsystem ch) = false
  | inr s =>
      (exists ch, ch ∈ rows base desired /\ subs_of req (ch_Subsystem ch) = true) /\ cf_Rest s.2 = cf_Rest desired.2 /\
      forall ch, ch_Action ch <> ActionReordered ->
        ch ∈ rows base s <-> ch ∈ rows base desired /\ subs_of req (ch_Subsystem ch) = false
  end.
Proof.
  intros Hb Hd Hreq. pose proof (batch_took sprint sha256hex8 unicode_lower decode base (subs_of req) desired Hb Hd) as H.
  assert (E : undo base desired req =
    let '(s, touched) := undoReported sprint sha256hex8 unicode_lower decode base desired (of_subs (subs_of req)) in
    if negb touched then inl (if bool_decide (u_Scope req = ScopeAll) then NothingToDiscard else NothingInSubsystem (u_Subsystem req)) else inr s).
  { unfold Undo, subs_of, of_subs. destruct Hreq as [Es|[Es Hsub]]; rewrite Es; [done|]. cbn. unfold undoSubsystem. by rewrite (bool_decide_eq_false_2 _ Hsub). }
  rewrite E. destruct (undoReported _ _ _ _ _ _ _) as [s [|]]; cbn in *.
  - destruct H as [[_ Hr Hc] Hex]. done.
  - by apply H.
Qed.
End theorems.

(** ** At concrete states *)
Definition sprint0 (v : any) : string := match v with ANil => "<nil>" | AString t => t | _ => "" end.
Definition sha0 (t : string) : string := t.
Definition lower0 (p : bytes) : bytes := p.
Definition decode0 (t : string) : option (any * bool) := None.
Definition office : Endpoint :=
  zero_endpoint <| ep_ID := "office" |> <| ep_Params := {["password"%string := AString "before"]} |>.
Definition feed (id : string) : RoutingList := zero_list <| rl_ID := id |>.
Definition mode (m o : string) : Config unit := mkConfig unit m o "" "" tt.
Definition applied0 : Profile * Config unit :=
  (zero_profile <| Endpoints := [office] |> <| RoutingLists := [feed "a"; feed "b"; feed "c"] |>, mode "tun" "off").
Definition saved0 : Profile * Config unit :=
  (zero_profile <| Endpoints := [office <| ep_Params := {["password"%string := AString "after"]} |>] |>
                <| RoutingLists := [(feed "b") <| rl_Name := "books" |>; feed "c"; feed "a"] |>, mode "tproxy" "on").
Lemma applied0_distinct : distinct applied0.1.
Proof. split; apply (bool_decide_unpack _); vm_compute; exact I. Qed.
Lemma saved0_distinct : distinct saved0.1.
Proof. split; apply (bool_decide_unpack _); vm_compute; exact I. Qed.
Definition veil0 : Veil :=
  mkVeil (fun _ x => match x with AString t => if bool_decide (t = "") || bool_decide (t = "<nil>") then x else AString ("x" +:+ t) | _ => x end)
    id id id id.
Lemma veil0_veils : veils sprint0 veil0.
Proof.
  assert (Hx : forall t, "x" +:+ t = "<nil>" <-> False) by (split; [intros E; discriminate E|done]).
  split; try apply _; cbn.
  - done.
  - intros _ []; try done. cbn. do 2 (case_bool_decide; subst; try done).
  - intros _ []; try done. cbn. do 2 (case_bool_decide; subst; try done).
  - intros _ [] []; try done; cbn; repeat (case_bool_decide; subst; cbn; try done); naive_solver.
Qed.
(** The review at work: the row of the secret, the renamed list, the moved lists, the settings. *)
Example review0 : map (fun ch => (ch_ID ch, ch_Field ch, ch_After ch)) (rows_between sprint0 sha0 lower0 decode0 applied0 saved0) =
  [("office", "Password", "Changed"); ("b", "Name", "books"); ("b", "Position", "#1"); ("c", "Position", "#2"); ("a", "Position", "#3");
   ("settings", "Routing mode", "tproxy"); ("settings", "Flow offload", "on")]%string.
Proof. vm_compute. reflexivity. Qed.
Lemma review_empty_iff_same_witness : distinct applied0.1 /\ distinct saved0.1 /\ ~ reviewed_same sprint0 applied0 saved0.
Proof.
  split; [apply applied0_distinct|split; [apply saved0_distinct|]].
  intros H. apply (review_empty_iff_same sprint0 sha0 lower0 decode0 "" "" applied0 saved0 applied0_distinct saved0_distinct) in H.
  vm_compute in H. discriminate H.
Defined.
Lemma review_tells_no_secret_witness : veils sprint0 veil0 /\
  veiled lower0 veil0 saved0 <> saved0 /\
  Diff sprint0 sha0 lower0 decode0 "1" "2" (veiled lower0 veil0 applied0).1 (veiled lower0 veil0 saved0).1 applied0.2 saved0.2 =
  Diff sprint0 sha0 lower0 decode0 "1" "2" applied0.1 saved0.1 applied0.2 saved0.2.
Proof.
  split; [apply veil0_veils|split; [vm_compute; discriminate|]].
  apply (review_tells_no_secret sprint0 sha0 lower0 decode0 veil0 "1" "2" applied0 saved0 veil0_veils).
Defined.
Definition moved0 : Change := nth 2 (rows_between sprint0 sha0 lower0 decode0 applied0 saved0) (row "" "" "" "" "" "").
Lemma undo_object_clears_witness : (ch_ObjectType moved0, ch_ID moved0, ch_Field moved0) = ("routing_list", "b", "Position")%string /\
  exists s, Undo sprint0 sha0 lower0 decode0 applied0 saved0 (object_request (ch_ObjectType moved0) (ch_ID moved0)) = inr s /\
    cf_Rest s.2 = cf_Rest saved0.2 /\
    (forall ch', ch' ∈ rows_between sprint0 sha0 lower0 decode0 applied0 s -> ~ about (ch_ObjectType moved0) (ch_ID moved0) ch') /\
    (forall ch', ch_Action ch' <> ActionReordered \/ ch_ObjectType moved0 <> objRoutingList -> ~ about (ch_ObjectType moved0) (ch_ID moved0) ch' ->
       ch' ∈ rows_between sprint0 sha0 lower0 decode0 applied0 s <-> ch' ∈ rows_between sprint0 sha0 lower0 decode0 applied0 saved0).
Proof.
  split; [vm_compute; reflexivity|].
  apply (undo_object_clears sprint0 sha0 lower0 decode0 applied0 saved0 moved0 applied0_distinct saved0_distinct).
  - apply (list_elem_of_lookup_2 _ 2%nat). vm_compute. reflexivity.
  - vm_compute. discriminate.
Defined.
Definition routing_request : UndoRequest := mkUndo ScopeSubsystem "" "" "" SubRouting.
Lemma undo_batch_takes_its_rows_witness :
  match Undo sprint0 sha0 lower0 decode0 applied0 saved0 routing_request with
  | inl _ => forall ch, ch ∈ rows_between sprint0 sha0 lower0 decode0 applied0 saved0 -> subs_of routing_request (ch_Subsystem ch) = false
  | inr s =>
      (exists ch, ch ∈ rows_between sprint0 sha0 lower0 decode0 applied0 saved0 /\ subs_of routing_request (ch_Subsystem ch) = true) /\
      cf_Rest s.2 = cf_Rest saved0.2 /\
      forall ch, ch_Action ch <> ActionReordered ->
        ch ∈ rows_between sprint0 sha0 lower0 decode0 applied0 s <->
        ch ∈ rows_between sprint0 sha0 lower0 decode0 applied0 saved0 /\ subs_of routing_request (ch_Subsystem ch) = false
  end.
Proof.
  apply (undo_batch_takes_its_rows sprint0 sha0 lower0 decode0 applied0 saved0 routing_request applied0_distinct saved0_distinct).
  right. split; [reflexivity|discriminate].
Defined.
(** A header protection key is no secret to the review: its row shows the key itself. *)
Example header_protection_key_shown :
  let e k := office <| ep_Params := {["header_protection_key"%string := AString k]} |> in
  let p k := zero_profile <| Endpoints := [e k] |> in
  map ch_After (rows_between sprint0 sha0 lower0 decode0 (p "k0", mode "" "") (p "c2VjcmV0", mode "" "")) = ["c2VjcmV0"%string].
Proof. vm_compute. reflexivity. Qed.
