(* ===== verification/Awg.v ===== *)
(** * AmneziaWG: generations, settings and the socket protocol

    Models [src/internal/awg]: the generation a kernel module declares and the path chosen by it
    ([generation.go]), what a connection's settings need ([need.go]), the values handed to amneziawg-go
    ([params.go]) and the framing of its configuration socket ([uapi.go], without the connection itself).
    A generation is the [int] it is in the code. Lower case beyond ASCII is an argument; messages are
    shortened. *)
From S2P Require Import Prelude GoStrings GoText Netip Util Model Json PbrLists GoCodec GenRoute.
Local Open Scope Z_scope.

(** ** Generations *)
Definition GenNone : Z := 0.
Definition Gen1 : Z := 1.
Definition Gen2 : Z := 2.
Definition Gen30 : Z := 3.
Definition Gen31 : Z := 4.
Definition maxAttrGen31 : Z := 34.
Definition UserspaceGeneration : Z := Gen31.
Definition Classify (version maxAttr : Z) : Z :=
  if (3 <=? version) && (maxAttrGen31 <=? maxAttr) then Gen31
  else if 3 <=? version then Gen30
  else if version =? 2 then Gen2
  else if version =? 1 then Gen1
  else GenNone.
Definition gen_String (g : Z) : string :=
  if g =? Gen1 then "1" else if g =? Gen2 then "2" else if g =? Gen30 then "3.0" else if g =? Gen31 then "3.1" else "none".

(** ** The path an interface comes up by *)
Inductive Path := PathUnavailable | PathKernel | PathUserspace.
Definition path_String (p : Path) : string :=
  match p with PathKernel => "kernel" | PathUserspace => "userspace" | PathUnavailable => "unavailable" end.
Record Decision := mkDecision { d_Path : Path; d_Reason : string }.
Definition Decide (kernel : Z) (tun : bool) (need : Z) : Decision :=
  let need := if need <=? GenNone then Gen1 else need in
  if need <=? kernel then
    mkDecision PathKernel ("the loaded AmneziaWG kernel module is generation " +:+ gen_String kernel +:+
      ", enough for this configuration (needs " +:+ gen_String need +:+ ")")
  else
    let why := if negb (kernel =? GenNone) then
                 "the loaded AmneziaWG kernel module is generation " +:+ gen_String kernel +:+
                 " and this configuration needs " +:+ gen_String need
               else "no AmneziaWG kernel module is loaded" in
    if tun then mkDecision PathUserspace (why +:+ "; using amneziawg-go on /dev/net/tun")
    else mkDecision PathUnavailable (why +:+ ", and /dev/net/tun is missing, so amneziawg-go cannot run either").

(** ** Values *)
(** [strconv.ParseUint] in base 10. *)
Definition ParseUint (bits : Z) (p : bytes) : option Z :=
  match p with
  | [] => None
  | _ => if forallb is_digit p && (dec_value p <? 2 ^ bits) then Some (dec_value p) else None
  end.
Definition ParseRange (s : bytes) (max : Z) : string + (Z * Z) :=
  let '(a, b) := split_at 45 s in
  match ParseUint 32 a with
  | None => inl "neither a number nor a lo-hi range"
  | Some l =>
      match match b with None => Some l | Some b => ParseUint 32 b end with
      | None => inl "neither a number nor a lo-hi range"
      | Some h => if h <? l then inl "range runs backwards" else if max <? h then inl "above the bound" else inr (l, h)
      end
  end.
Definition settingText (value : option any) : string :=
  match value with
  | Some (AString v) => v
  | Some (AInt n) | Some (AInt64 n) => itoa n
  | Some (AFloat f) => itoa (f64_trunc f)
  | _ => ""
  end.
Definition SettingText (value : option any) : string := settingText value.

(** ** What a connection's settings need *)
Definition settingGen : gmap string Z := list_to_map
  [("jc", Gen1); ("jmin", Gen1); ("jmax", Gen1); ("s1", Gen1); ("s2", Gen1);
   ("h1", Gen1); ("h2", Gen1); ("h3", Gen1); ("h4", Gen1);
   ("s3", Gen2); ("s4", Gen2);
   ("i1", Gen2); ("i2", Gen2); ("i3", Gen2); ("i4", Gen2); ("i5", Gen2);
   ("header_protection_key", Gen30); ("content_padding_addition", Gen30);
   ("rekey_after_time", Gen30); ("rekey_timeout", Gen30); ("reject_after_time", Gen30);
   ("keepalive_timeout", Gen30); ("max_handshake_attempts", Gen30);
   ("random_trailers", Gen31); ("disable_cookies", Gen31)].
Definition Settings : list string := sort_strings (map_to_list settingGen).*1.
Definition Introduced (key : string) : Z := default GenNone (settingGen !! key).

Section values.
Context (unicode_lower : bytes -> bytes).
Definition ParseBool (s : string) : option bool :=
  let low := ToLower unicode_lower (TrimSpace (str s)) in
  if bool_decide (low ∈ [str "on"; str "true"]) then Some true
  else if bool_decide (low ∈ [str "off"; str "false"]) then Some false
  else (fun n => negb (n =? 0)) <$> ParseUint 32 (TrimSpace (str s)).
(** [None] is [ok = false]. *)
Definition settingBool (value : option any) : option bool :=
  match value with
  | Some (ABool b) => Some b
  | _ => let text := settingText value in if bool_decide (text = "") then None else ParseBool text
  end.
Definition settingNeed (key : string) (value : any) : Z :=
  match settingGen !! key with
  | None => GenNone
  | Some gen =>
      if gen =? Gen31 then match settingBool (Some value) with Some true => gen | _ => GenNone end
      else
        let text := settingText (Some value) in
        if bool_decide (text = "") then GenNone
        else if (gen =? Gen1) && bool_decide (head (str key) = Some 104) && has_byte 45 (str text) then Gen2
        else gen
  end.
Definition Need (params : obj) : Z :=
  map_fold (fun key value need => if need <? settingNeed key value then settingNeed key value else need) Gen1 params.
Definition Beyond (params : obj) (g : Z) : list string :=
  sort_strings (filter (fun kv => g < settingNeed kv.1 kv.2) (map_to_list params)).*1.
End values.

(** ** I-packets for amneziawg-go *)
Definition MaxDatagram : Z := 65507.
Definition note_counter : string := "<c> does not exist in amneziawg-go; sent as <r 4>, same length".
Definition note_stray : string := "text outside the <tags> is skipped by amneziawg-go; dropped".
Definition note_no_tag : string := "no <tag> in it; not sent".
(** One tag, between its brackets: the text to send, the bytes it adds and whether it was rewritten. *)
Definition go_tag (inside : bytes) : string + (bytes * Z * bool) :=
  match Fields inside with
  | [] => inl "empty tag <>"
  | key :: vals =>
      if (1 <? length vals)%nat then inl "takes at most one value"
      else
        let val := default [] (head vals) in
        let isk k := bool_decide (key = str k) in
        if isk "b" then
          let h := TrimPrefix (str "0x") val in
          if (length h =? 0)%nat || negb (Nat.even (length h)) then inl "needs an even, non-zero number of hex digits"
          else if negb (forallb is_hex_digit h) then inl "is not hex"
          else inr (str "<b 0x" ++ h ++ str ">", Z.of_nat (length h / 2), false)
        else if isk "t" || isk "d" || isk "ds" then
          if negb (bool_decide (val = [])) then inl "takes no value"
          else inr (60 :: key ++ [62], if isk "t" then 4 else 0, false)
        else if isk "r" || isk "rc" || isk "rd" || isk "dz" then
          match ParseUint 31 val with
          | None => inl "needs a length in bytes"
          | Some n => inr (60 :: key ++ 32 :: fmt_d n ++ [62], n, false)
          end
        else if isk "c" then
          if negb (bool_decide (val = [])) then inl "<c> takes no value" else inr (str "<r 4>", 4, true)
        else inl "unknown tag"
  end.
(** The loop: what is left to read, the text so far, its size, the notes so far, and whether text stood
    between tags. *)
Fixpoint go_tags (fuel : nat) (rest b : bytes) (size : Z) (notes : list string) (stray : bool)
  : string + (bytes * list string * bool) :=
  let blank p := bool_decide (TrimSpace p = []) in
  match fuel with
  | O => inl "unreachable"
  | S fuel =>
      match split_at 60 rest with
      | (before, None) => inr (b, notes, stray || negb (blank before))
      | (before, Some after) =>
          let stray := stray || negb (blank before) in
          match split_at 62 after with
          | (_, None) => inl "a tag is missing its closing >"
          | (inside, Some rest) =>
              match go_tag inside with
              | inl err => inl err
              | inr (text, n, rewritten) =>
                  if MaxDatagram <? size + n then inl "the packet is over one datagram"
                  else go_tags fuel rest (b ++ text) (size + n) (if rewritten : bool then notes ++ [note_counter] else notes) stray
              end
          end
      end
  end.
Definition GoIPacket (spec : bytes) : string + (bytes * list string) :=
  let rest := TrimSpace spec in
  if bool_decide (rest = []) then inr ([], [])
  else
    match go_tags (S (length rest)) rest [] 0 [] false with
    | inl err => inl err
    | inr (b, notes, stray) =>
        if bool_decide (b = []) then inr ([], [note_no_tag])
        else inr (b, if stray : bool then notes ++ [note_stray] else notes)
    end.

(** ** The configuration socket *)
Record KV := mkKV { Key : bytes; Value : bytes }.
Definition uapiMaxLine : Z := 65536.
Definition uapi_key_char (c : Z) : bool := in_range 97 122 c || is_digit c || (c =? 95).
Definition uapi_control (c : Z) : bool := ((c <? 0x20) && negb (c =? 9)) || (c =? 0x7f).
Definition checkLine (kv : KV) : option string :=
  if bool_decide (Key kv = []) then Some "a UAPI line needs a key"
  else if negb (forallb uapi_key_char (Key kv)) then Some "keys are made of a-z, 0-9 and _"
  else if existsb uapi_control (Value kv) then Some "carries a control character"
  else if uapiMaxLine <? Z.of_nat (length (Key kv) + 1 + length (Value kv) + 1) then Some "line too long"
  else None.
Definition uapi_line (kv : KV) : bytes := Key kv ++ 61 :: Value kv.
Definition set_request (lines : list KV) : string + bytes :=
  match lines with
  | [] => inl "a UAPI set needs at least one line"
  | _ =>
      match list_find (fun kv => checkLine kv <> None) lines with
      | Some (_, kv) => inl (default "" (checkLine kv))
      | None => inr (str "set=1" ++ 10 :: concat (map (fun kv => uapi_line kv ++ [10]) lines) ++ [10])
      end
  end.
Definition uapi_first (c : Z) : bool := is_letter c || is_digit c.
Definition validIface (s : bytes) : bool :=
  negb (bool_decide (s = [])) && (length s <=? 15)%nat &&
  match s with
  | [] => true
  | c :: s => uapi_first c && forallb (fun c => uapi_first c || (c =? 46) || (c =? 95) || (c =? 45)) s
  end.
Record Snapshot := mkSnapshot { Device : list KV; snap_Peers : list (list KV) }.
Definition splitSnapshot (body : list KV) : Snapshot :=
  foldl (fun s kv =>
    let peers := if bool_decide (Key kv = str "public_key") then snap_Peers s ++ [[]] else snap_Peers s in
    match reverse peers with
    | p :: ps => mkSnapshot (Device s) (reverse ps ++ [p ++ [kv]])
    | [] => mkSnapshot (Device s ++ [kv]) peers
    end) (mkSnapshot [] []) body.

(** ** Facts *)
Section facts.
Context (unicode_lower : bytes -> bytes).
Lemma Need_spec params g : Need unicode_lower params <= g <-> Gen1 <= g /\ map_Forall (fun k v => settingNeed unicode_lower k v <= g) params.
Proof.
  unfold Need. revert g. apply (map_fold_weak_ind (fun need (m : obj) => forall g, need <= g <->
    Gen1 <= g /\ map_Forall (fun k v => settingNeed unicode_lower k v <= g) m)).
  - intros g. split; [intros H; split; [done|apply map_Forall_empty]|by intros [? _]].
  - intros k v m need Hk IH g. rewrite map_Forall_insert by done. specialize (IH g).
    destruct (Z.ltb_spec need (settingNeed unicode_lower k v)); split; intros; split_and?; naive_solver lia.
Qed.
(** What a writer of generation [g] would drop is nothing exactly where [g] is enough. *)
Lemma Beyond_nil params g : Gen1 <= g -> Beyond unicode_lower params g = [] <-> Need unicode_lower params <= g.
Proof.
  intros Hg. rewrite Need_spec. unfold Beyond. transitivity (filter (fun kv : string * any => g < settingNeed unicode_lower kv.1 kv.2) (map_to_list params) = []).
  - split; [|by intros ->].
    intros H. apply (f_equal length) in H. unfold sort_strings in H. rewrite sorting.merge_sort_Permutation, length_fmap in H.
    by apply nil_length_inv in H.
  - split.
    + intros H. split; [done|]. intros k v Hkv. destruct (Z.le_gt_cases (settingNeed unicode_lower k v) g) as [?|Hgt]; [done|].
      assert ((k, v) ∈ ([] : list (string * any))) as HF; [|by apply not_elem_of_nil in HF].
      rewrite <- H. apply list_elem_of_filter. split; [done|by apply elem_of_map_to_list].
    + intros [_ H]. destruct (filter _ _) as [|[k v] l] eqn:E; [done|]. exfalso.
      assert ((k, v) ∈ (k, v) :: l) as Hin by left. rewrite <- E in Hin.
      apply list_elem_of_filter in Hin as [Hlt Hin%elem_of_map_to_list]. specialize (H k v Hin). cbn in *. lia.
Qed.
End facts.
Lemma Decide_kernel kernel tun need : d_Path (Decide kernel tun need) = PathKernel <-> Z.max Gen1 need <= kernel.
Proof.
  unfold Decide. change GenNone with 0. change Gen1 with 1.
  destruct (Z.leb_spec need 0); match goal with |- context [?a <=? ?b] => destruct (Z.leb_spec a b) end; cbn; [split; [lia|done]| |split; [lia|done]|];
    destruct tun; cbn; split; try done; lia.
Qed.
(** The loop of [GoIPacket] reads to the end of the text: its fuel is enough. *)
Lemma split_at_shorter c s a b : split_at c s = (a, Some b) -> (length b < length s)%nat.
Proof.
  revert a b. induction s as [|d s IH]; intros a b; cbn; [done|]. destruct (d =? c); [intros [= <- <-]; lia|].
  destruct (split_at c s) as [a' [b'|]] eqn:E; [|done]. intros [= <- <-]. specialize (IH _ _ eq_refl). lia.
Qed.
Lemma go_tags_enough fuel rest b size notes stray : (length rest < fuel)%nat ->
  go_tags fuel rest b size notes stray = go_tags (S (length rest)) rest b size notes stray.
Proof.
  revert rest b size notes stray. assert (forall n fuel rest b size notes stray, (length rest <= n)%nat -> (length rest < fuel)%nat ->
    go_tags fuel rest b size notes stray = go_tags (S (length rest)) rest b size notes stray) as H; [|eauto].
  induction n as [|n IH]; intros [|fuel'] rest b size notes stray Hn Hf; try lia;
    cbn [go_tags]; destruct (split_at 60 rest) as [before [after|]] eqn:E; try done;
    destruct (split_at 62 after) as [inside [rest'|]] eqn:E'; try done;
    apply split_at_shorter in E, E'; [lia|].
  destruct (go_tag inside) as [|[[text n'] rewritten]]; [done|]. destruct (_ <? _); [done|].
  rewrite (IH fuel'), (IH (length rest)) by lia. done.
Qed.

(** A request is read back line by line as it was sent: a value cannot end its line early, nor the
    request. *)
Lemma Split_line l rest : 10 ∉ l -> Split 10 (l ++ 10 :: rest) = l :: Split 10 rest.
Proof.
  induction l as [|c l IH]; intros H; [done|]. apply not_elem_of_cons in H as [H1 H2]. cbn [app Split].
  destruct (Z.eqb_spec c 10); [by subst|]. by rewrite IH.
Qed.
Lemma uapi_line_whole kv : checkLine kv = None -> 10 ∉ uapi_line kv /\ split_at 61 (uapi_line kv) = (Key kv, Some (Value kv)).
Proof.
  destruct kv as [k v]. unfold checkLine, uapi_line. cbn [Key Value]. intros H.
  destruct (bool_decide (k = [])); [done|]. destruct (forallb uapi_key_char k) eqn:Hk; [|done]. cbn [negb] in H.
  destruct (existsb uapi_control v) eqn:Hv; [done|]. clear H.
  rewrite forallb_forall in Hk. setoid_rewrite <- list_elem_of_In in Hk. split.
  - rewrite elem_of_app, elem_of_cons. intros [H|[H|H]]; [by specialize (Hk 10 H)|done|].
    apply not_true_iff_false in Hv. apply Hv, existsb_exists. exists 10. split; [by apply list_elem_of_In|done].
  - clear Hv. induction k as [|c k IH]; [done|]. cbn [app split_at]. destruct (Z.eqb_spec c 61) as [->|].
    + specialize (Hk 61 (list_elem_of_here _ _)). done.
    + rewrite IH; [done|]. intros x Hx. apply Hk. by right.
Qed.
Lemma request_framed lines req : set_request lines = inr req ->
  Split 10 req = str "set=1" :: map uapi_line lines ++ [[]; []] /\
  Forall (fun kv => split_at 61 (uapi_line kv) = (Key kv, Some (Value kv))) lines.
Proof.
  assert (Hs : lines <> [] -> set_request lines = match list_find (fun kv => checkLine kv <> None) lines with
      | Some (_, kv) => inl (default "" (checkLine kv))
      | None => inr (str "set=1" ++ 10 :: concat (map (fun kv => uapi_line kv ++ [10]) lines) ++ [10]) end) by (by destruct lines).
  destruct (decide (lines = [])) as [->|Hne]; [done|]. rewrite (Hs Hne). clear Hs Hne.
  destruct (list_find _ lines) as [[? ?]|] eqn:E; [done|]. intros H. assert (req = str "set=1" ++ 10 :: concat (map (fun kv => uapi_line kv ++ [10]) lines) ++ [10]) as -> by congruence. clear H.
  apply list_find_None in E.
  assert (Hc : Forall (fun kv => checkLine kv = None) lines).
  { eapply Forall_impl; [exact E|]. intros kv H. cbn in H. destruct (checkLine kv); [exfalso; apply H; congruence|done]. }
  clear E. split.
  - rewrite (Split_line (str "set=1")) by (vm_compute; set_solver). f_equal.
    induction Hc as [|kv lines Hkv _ IH]; [done|]. cbn [map concat app]. rewrite <- !app_assoc. cbn [app].
    rewrite Split_line by (by apply uapi_line_whole). f_equal. exact IH.
  - eapply Forall_impl; [exact Hc|]. intros kv Hkv. by apply uapi_line_whole.
Qed.
