(* ===== verification/Uci.v ===== *)
(** * OpenWrt's configuration as it is printed

    Models how [src/internal/netvpn] reads a router: the protocols it knows ([proto.go]), the quoting of a
    value ([q] of [openwrt_write.go]), and the readers of [uci show network] ([openwrt_read.go]) and
    [uci show firewall] ([openwrt_firewall.go]). A Go map that is only looked up is a finite map; sections
    keep the order they are printed in. *)
From S2P Require Import Prelude GoStrings GoText Netip.
Local Open Scope Z_scope.

(** ** Protocols *)
Definition ProtoAmneziaWG : string := "amneziawg".
Definition ProtoWireGuard : string := "wireguard".
(** [Proto.resolve]. *)
Definition resolve (p : string) : string := if bool_decide (p = "") then ProtoAmneziaWG else p.
Record protoSchema := mkSchema {
  sc_Name : string; sc_PeerType : string; sc_ObfPrefix : string; sc_PeerDisabled : bool; sc_Handler : string;
  sc_Packages : string
}.
Definition zero_schema : protoSchema := mkSchema "" "" "" false "" "".
Definition amneziawg_schema : protoSchema :=
  mkSchema ProtoAmneziaWG "amneziawg_" "awg_" true "amneziawg.sh" "kmod-amneziawg amneziawg-tools luci-proto-amneziawg".
Definition wireguard_schema : protoSchema :=
  mkSchema ProtoWireGuard "wireguard_" "" false "wireguard.sh" "kmod-wireguard wireguard-tools luci-proto-wireguard".
Definition protoSchemas : list (string * protoSchema) :=
  [(ProtoAmneziaWG, amneziawg_schema); (ProtoWireGuard, wireguard_schema)].
Definition schema_of (p : string) : option protoSchema := snd <$> List.find (fun ps => bool_decide (ps.1 = p)) protoSchemas.
Definition schemaFor (p : string) : option protoSchema := schema_of (resolve p).
(** [sc, _ := schemaFor(p)]. *)
Definition the_schema (p : string) : protoSchema := default zero_schema (schemaFor p).
Definition isTunnelProto (p : string) : bool := bool_decide (is_Some (schema_of p)).

(** ** Tunnels *)
Record AWGPeer := mkPeer {
  Description : string; PublicKey : string; PresharedKey : string; EndpointHost : string; EndpointPort : Z;
  AllowedIPs : list string; PersistentKeepalive : Z; Ref : string; PeerType : string; peer_Disabled : bool
}.
Record AWGInterface := mkInterface {
  if_Name : string; PrivateKey : string; Addresses : list string; if_MTU : Z; Obfuscation : gmap string string;
  Peers : list AWGPeer; if_Proto : string
}.
#[export] Instance eta_peer : Eta AWGPeer := fun p =>
  mkPeer (Description p) (PublicKey p) (PresharedKey p) (EndpointHost p) (EndpointPort p) (AllowedIPs p)
    (PersistentKeepalive p) (Ref p) (PeerType p) (peer_Disabled p).
#[export] Instance eta_interface : Eta AWGInterface := fun i =>
  mkInterface (if_Name i) (PrivateKey i) (Addresses i) (if_MTU i) (Obfuscation i) (Peers i) (if_Proto i).
Definition zero_interface : AWGInterface := mkInterface "" "" [] 0 ∅ [] "".

(** ** Values *)
(** [q]: single quotes, an apostrophe inside closed, escaped and reopened. *)
Definition quote_byte (c : Z) : bytes := if c =? 39 then [39; 92; 39; 39] else [c].
Definition q (s : bytes) : bytes := 39 :: (s ≫= quote_byte) ++ [39].

(** The scan of [splitUCIValues]: inside quotes or not, the value so far, what is left. *)
Fixpoint uci_scan (inQuote : bool) (cur : bytes) (s : bytes) : list bytes :=
  match s with
  | [] => if (0 <? length cur)%nat then [cur] else []
  | c :: s =>
      if negb (c =? 39) then uci_scan inQuote (if inQuote then cur ++ [c] else cur) s
      else if negb inQuote then uci_scan true cur s
      else
        match s with
        | [] => [cur]
        | d :: t =>
            if (d =? 92) && bool_decide (head t = Some 39) then
              match t with _ :: t' => uci_scan false (cur ++ [39]) t' | [] => [] end
            else if d =? 32 then cur :: uci_scan false [] s
            else uci_scan false cur s
        end
  end.
Definition splitUCIValues (rhs : bytes) : list bytes :=
  let rhs := TrimSpace rhs in
  match rhs with
  | [] => []
  | c :: _ => if c =? 39 then uci_scan false [] rhs else [rhs]
  end.
(** Values as [uci show] prints a list: quoted, one space between. *)
Definition uci_values (vs : list bytes) : bytes :=
  match vs with [] => [] | v :: vs => q v ++ (vs ≫= fun v => 32 :: q v) end.
Definition first (v : list string) : string := default "" (head v).
(** [strings.Trim] of apostrophes. *)
Fixpoint trim_quotes (s : bytes) : bytes := match s with c :: s' => if c =? 39 then trim_quotes s' else s | [] => [] end.
Definition unquote (s : bytes) : string := unstr (reverse (trim_quotes (reverse (trim_quotes s)))).
(** [n, _ := strconv.Atoi(s)]: 0 where it is no number, the nearest [int] where it is out of range. *)
Definition atoi_value (s : string) : Z :=
  let p := str s in
  let '(neg, d) := match p with c :: r => if c =? 45 then (true, r) else if c =? 43 then (false, r) else (false, p)
                   | [] => (false, p) end in
  match d with
  | [] => 0
  | _ => if forallb is_digit d then let v := (if neg : bool then - dec_value d else dec_value d) in
           Z.max min_int64 (Z.min max_int64 v)
         else 0
  end.

(** ** [uci show network] *)
(** A line of a configuration: what is left and right of its first [=]. *)
Definition uci_line (config : string) (ln : bytes) : option (bytes * bytes) :=
  rest ← strip_prefix (str config) (TrimSpace ln);
  match split_at 61 rest with (lhs, Some rhs) => Some (lhs, rhs) | (_, None) => None end.
Definition uci_lines (config out : string) : list (bytes * bytes) := omap (uci_line config) (Split 10 (str out)).
Record section := mkSection { typ : string; opts : gmap string (list string) }.
#[export] Instance eta_section : Eta section := fun s => mkSection (typ s) (opts s).
Definition sections : Type := gmap string section * list string.
Definition read_line (st : sections) (line : bytes * bytes) : sections :=
  let '(secs, order) := st in
  let '(lhs, rhs) := line in
  let '(name, opt) := match split_at 46 lhs with (n, Some o) => (unstr n, unstr o) | (n, None) => (unstr n, "") end in
  let '(s, order) := match secs !! name with Some s => (s, order) | None => (mkSection "" ∅, order ++ [name]) end in
  let s := if bool_decide (opt = "") then s <| typ := unquote rhs |>
           else s <| opts := <[opt := map unstr (splitUCIValues rhs)]> (opts s) |> in
  (<[name := s]> secs, order).
Definition read_sections (out : string) : sections := foldl read_line (∅, []) (uci_lines "network." out).
Definition opt_values (s : section) (k : string) : list string := default [] (opts s !! k).
Definition opt_first (s : section) (k : string) : string := first (opt_values s k).
Definition harvest (prefix : string) (s : section) : gmap string string :=
  if bool_decide (prefix = "") then ∅
  else list_to_map (omap (fun kv => (fun k => (k, first kv.2)) <$> CutPrefix kv.1 prefix) (map_to_list (opts s))).
Definition read_interface (name : string) (s : section) : option AWGInterface :=
  let p := opt_first s "proto" in
  if negb (bool_decide (typ s = "interface")) || negb (isTunnelProto p) then None
  else Some (mkInterface name (opt_first s "private_key") (opt_values s "addresses") (atoi_value (opt_first s "mtu"))
               (harvest (sc_ObfPrefix (the_schema p)) s) [] p).
Definition owner_of (typ : string) (sc : protoSchema) : option string :=
  owner ← CutPrefix typ (sc_PeerType sc); if bool_decide (owner = "") then None else Some owner.
Definition peerOwner (typ : string) : option string := head (omap (fun ps => owner_of typ ps.2) protoSchemas).
Definition read_peer (name : string) (s : section) : AWGPeer :=
  mkPeer (opt_first s "description") (opt_first s "public_key") (opt_first s "preshared_key") (opt_first s "endpoint_host")
    (atoi_value (opt_first s "endpoint_port")) (opt_values s "allowed_ips")
    (atoi_value (opt_first s "persistent_keepalive")) name (typ s) (bool_decide (opt_first s "disabled" = "1")).
Definition add_interface (secs : gmap string section) (ifaces : gmap string AWGInterface) (name : string) : gmap string AWGInterface :=
  match secs !! name ≫= read_interface name with Some i => <[name := i]> ifaces | None => ifaces end.
Definition add_peer (secs : gmap string section) (ifaces : gmap string AWGInterface) (name : string) : gmap string AWGInterface :=
  match secs !! name with
  | None => ifaces
  | Some s =>
      match peerOwner (typ s) with
      | None => ifaces
      | Some owner =>
          match ifaces !! owner with
          | None => ifaces
          | Some i =>
              if bool_decide (typ s = sc_PeerType (the_schema (if_Proto i)) +:+ owner)
              then <[owner := i <| Peers := Peers i ++ [read_peer name s] |>]> ifaces
              else ifaces
          end
      end
  end.
Definition ParseUCIShow (out : string) : gmap string AWGInterface :=
  let '(secs, order) := read_sections out in
  foldl (add_peer secs) (foldl (add_interface secs) ∅ order) order.
Definition PeerSectionsFor (uciNetwork iface : string) : list string :=
  omap (fun '(lhs, rhs) =>
    if has_byte 46 lhs then None
    else if bool_decide (peerOwner (unquote rhs) = Some iface) then Some (unstr lhs) else None)
    (uci_lines "network." uciNetwork).
Definition route_option : bytes := str ".route_allowed_ips=".
(** What is before and after the first occurrence of [sub]. *)
Fixpoint split_sub (sub s : bytes) : option (bytes * bytes) :=
  match strip_prefix sub s with
  | Some rest => Some ([], rest)
  | None => match s with [] => None | c :: s => (fun ab => (c :: ab.1, ab.2)) <$> split_sub sub s end
  end.
Definition RoutesOwnedByNetifd (out : string) : list string :=
  omap (fun ln =>
    let ln := TrimSpace ln in
    if negb (bool_decide (is_Some (strip_prefix (str "network.") ln))) then None
    else
      '(before, after) ← split_sub route_option ln;
      let v := unquote after in
      if bool_decide (v ∈ ["0"; ""]) then None else Some (unstr (TrimPrefix (str "network.") before)))
    (Split 10 (str out)).

(** ** [uci show firewall] *)
Record Zone := mkZone { z_Ref : string; z_Name : string; Networks : list string; Devices : list string }.
#[export] Instance eta_zone : Eta Zone := fun z => mkZone (z_Ref z) (z_Name z) (Networks z) (Devices z).
Definition set_option (opt : string) (vs : list string) (z : Zone) : Zone :=
  if bool_decide (opt = "name") then z <| z_Name := first vs |>
  else if bool_decide (opt = "network") then z <| Networks := vs |>
  else if bool_decide (opt = "device") then z <| Devices := vs |>
  else z.
(** The zone of this reference, as the option leaves it; a new one goes to the end. *)
Fixpoint set_zone (ref opt : string) (vs : list string) (zs : list Zone) : list Zone :=
  match zs with
  | [] => [set_option opt vs (mkZone ref "" [] [])]
  | z :: zs => if bool_decide (z_Ref z = ref) then set_option opt vs z :: zs else z :: set_zone ref opt vs zs
  end.
Definition zone_line (line : bytes * bytes) : option (string * string * list string) :=
  let '(lhs, rhs) := line in
  _ ← strip_prefix (str "@zone[") lhs;
  match split_at 93 lhs with
  | (ref, Some opt) => Some (unstr (ref ++ [93]), unstr (TrimPrefix [46] opt), map unstr (splitUCIValues rhs))
  | (_, None) => None
  end.
Definition ParseFirewallZones (out : string) : list Zone :=
  foldl (fun zs '(ref, opt, vs) => set_zone ref opt vs zs) [] (omap zone_line (uci_lines "firewall." out)).
Definition FindZone (zones : list Zone) (name : string) : option Zone := List.find (fun z => bool_decide (z_Name z = name)) zones.

(** ** Facts: what is written is read back *)
Lemma uci_scan_quoted v cur rest :
  uci_scan true cur ((v ≫= quote_byte) ++ 39 :: rest) = uci_scan true (cur ++ v) (39 :: rest).
Proof.
  revert cur. induction v as [|c v IH]; intros cur; [by rewrite app_nil_r|].
  cbn [mbind list_bind]. unfold quote_byte at 1. destruct (Z.eqb_spec c 39) as [->|Hc].
  - cbn [app uci_scan negb Z.eqb]. change (92 =? 92) with true. cbn. rewrite IH, <- app_assoc. done.
  - cbn [app uci_scan]. destruct (Z.eqb_spec c 39); [done|]. cbn [negb]. rewrite IH, <- app_assoc. done.
Qed.
Lemma uci_scan_token v cur rest : (rest = [] \/ head rest = Some 32) -> uci_scan false cur (q v ++ rest) = (cur ++ v) :: uci_scan false [] rest.
Proof.
  intros H. unfold q. cbn [app uci_scan negb Z.eqb]. rewrite <- app_assoc. cbn [app]. change (39 =? 39) with true. cbn [negb].
  rewrite uci_scan_quoted. cbn [uci_scan]. change (39 =? 39) with true. cbn [negb].
  destruct rest as [|d t]; [done|]. destruct H as [?|[= ->]]; [done|]. done.
Qed.
Lemma uci_scan_values vs : uci_scan false [] (vs ≫= fun v => 32 :: q v) = vs.
Proof.
  induction vs as [|v vs IH]; [done|].
  cbn [mbind list_bind app uci_scan]. change (32 =? 39) with false. cbn [negb]. rewrite uci_scan_token; [by rewrite IH|].
  destruct vs; [by left|by right].
Qed.
(** Text between two visible bytes has nothing to trim. *)
Lemma trim_left_head w c p : visible c -> Forall (fun s => match s with d :: _ => ~ visible d | [] => False end) w ->
  forall fuel, trim_left fuel w (c :: p) = c :: p.
Proof.
  intros Hc Hw fuel. apply trim_left_visible. eapply Forall_impl; [exact Hw|].
  intros [|d ?] H; [done|]. by intros ->.
Qed.
Lemma TrimSpace_ends c d p : visible c -> visible d -> TrimSpace (c :: p ++ [d]) = c :: p ++ [d].
Proof.
  intros Hc Hd. unfold TrimSpace. rewrite trim_left_head; [|done|].
  2:{ repeat constructor; unfold visible; lia. }
  rewrite reverse_cons, reverse_app. cbn [reverse rev_append app]. change (reverse [d]) with [d]. cbn [app].
  rewrite trim_left_head; [|done|].
  - rewrite reverse_cons, reverse_app, reverse_involutive. done.
  - cbv -[visible not]. repeat constructor; unfold visible; lia.
Qed.
Lemma uci_values_ends v vs : exists m, uci_values (v :: vs) = 39 :: m ++ [39].
Proof.
  cbn [uci_values]. revert v. induction vs as [|w vs IH] using rev_ind; intros v.
  - rewrite app_nil_r. unfold q. eauto.
  - rewrite bind_app, bind_singleton. unfold q at 1 3.
    eexists ((v ≫= quote_byte) ++ 39 :: (vs ≫= fun v => 32 :: q v) ++ 32 :: 39 :: (w ≫= quote_byte)).
    cbn [app]. rewrite <- !app_assoc. cbn [app]. rewrite <- !app_assoc. done.
Qed.
(** C19: Reading is the inverse of quoting: a list of values of an option, each written in single quotes
    with its own apostrophes escaped as the writer escapes them, is split back into exactly those values,
    whatever bytes they hold: spaces, quotes, backslashes and empty values included. *)
Theorem quoted_values_read_back vs : vs <> [] -> splitUCIValues (uci_values vs) = vs.
Proof.
  intros H. destruct vs as [|v vs]; [done|]. destruct (uci_values_ends v vs) as (m & E).
  unfold splitUCIValues. rewrite E, TrimSpace_ends by (unfold visible; lia). rewrite <- E.
  transitivity (uci_scan false [] (uci_values (v :: vs))); [by rewrite E|].
  cbn [uci_values]. rewrite uci_scan_token by (destruct vs; [by left|by right]). by rewrite uci_scan_values.
Qed.
(** A name with an apostrophe, and a value that looks like the end of one. *)
Lemma quoted_values_read_back_witness :
  splitUCIValues (uci_values [str "Bob's router"; str ""; str "a' 'b"; str "\"]) = [str "Bob's router"; str ""; str "a' 'b"; str "\"].
Proof. apply quoted_values_read_back. discriminate. Defined.
