(* ===== verification/Netvpn.v ===== *)
(** * Tunnels of the router's own: what is written to OpenWrt

    Models [src/internal/netvpn]: a connection as a device ([model.go]), the protocol a router can carry
    ([proto.go]), the [uci] commands of a tunnel ([openwrt_write.go]), plans and their checks
    ([openwrt_plan.go], [openwrt_diff.go], [openwrt_remove.go], [openwrt_bind.go]) and firewall zones
    ([openwrt_firewall.go]). Lower case beyond ASCII and [strconv.FormatFloat] are arguments; messages and
    warnings are shortened. *)
From S2P Require Import Prelude GoStrings GoText Netip Util Model Json PbrLists GoCodec GenRoute GenTls.
From S2P Require Import Faults EndpointLoads Awg Uci.
Local Open Scope Z_scope.

(** ** A connection as a device *)
Definition ProtoForModel (protocol : string) : option string :=
  if bool_decide (protocol = "amneziawg") then Some Uci.ProtoAmneziaWG
  else if bool_decide (protocol = "wireguard") then Some ProtoWireGuard
  else None.
Definition InterfaceName (e : Endpoint) : string := AWGIface (ep_ID e).
Definition iface_byte (c : Z) : bool := is_letter c || is_digit c || (c =? 95).
Definition ValidInterfaceName (name : string) : option string :=
  if bool_decide (name = "") then Some "no interface name given"
  else if (15 <? length (str name))%nat then Some "interface name is longer than 15 characters"
  else if forallb iface_byte (str name) then None
  else Some "only letters, digits and underscore are allowed".
Definition validUCIName (s : string) : bool := validIface (str s).

Definition awgObfuscationKeys : list string :=
  ["jc"; "jmin"; "jmax"; "s1"; "s2"; "s3"; "s4"; "h1"; "h2"; "h3"; "h4"; "i1"; "i2"; "i3"; "i4"; "i5"].
Definition awgKeys30 : list string :=
  ["header_protection_key"; "content_padding_addition"; "rekey_after_time"; "rekey_timeout"; "reject_after_time";
   "keepalive_timeout"; "max_handshake_attempts"].
Definition awgSwitches31 : list string := ["random_trailers"; "disable_cookies"].
Definition AWGGeneration : Z := Gen2.
Definition AWGMaxGeneration : Z := Gen31.
Definition AWGWriterGeneration (kernel : Z) : Z :=
  if AWGMaxGeneration <? kernel then AWGMaxGeneration else if AWGGeneration <? kernel then kernel else AWGGeneration.
Definition HandlerAWGGeneration (script : string) : Z :=
  let names keys := forallb (fun key => contains ("awg_" +:+ key) script) keys in
  if negb (names awgKeys30) then AWGGeneration else if negb (names awgSwitches31) then Gen30 else AWGMaxGeneration.
Definition headerProtectionNonce : Z := 12.
Definition standardKey (s : string) : option string :=
  (fun b => unstr (EncodeToString StdEncoding b)) <$> decode_size 32 wg_encodings (str s).
Definition boolOpt (b : bool) : string := if b then "1" else "0".
Definition modelParamInt (values : obj) (key : string) : Z :=
  match values !! key with
  | Some (AInt n) => n
  | Some (AFloat f) => f64_trunc f
  | Some (AString s) => atoi_value s
  | _ => 0
  end.
Definition text_item (a : any) : option string :=
  match a with AString s => if bool_decide (s = "") then None else Some s | _ => None end.
Definition modelParamStrings (values : obj) (key : string) : list string :=
  match values !! key with
  | Some (AStrings l) => l
  | Some (AList l) => omap text_item l
  | Some (AString s) => if bool_decide (s = "") then [] else [s]
  | _ => []
  end.
Definition modelParamList (values : obj) (key : string) : list any :=
  match values !! key with Some (AList l) => l | Some (AMaps l) => AMap <$> l | _ => [] end.
(** [util.LocalAddrs] and [util.WGAllowedIPs]. *)
Definition clean (l : list string) : list string := filter (fun s => s <> "") (trim <$> l).
Definition any_text (a : any) : option string := match a with AString s => Some s | _ => None end.
Definition LocalAddrs (p : obj) : list string :=
  match p !! "local_address" with
  | Some (AStrings l) => clean l
  | Some (AList l) => clean (omap any_text l)
  | Some (AString s) => clean (unstr <$> Split 44 (str s))
  | _ => []
  end.
Definition WGAllowedIPs (p : obj) : list string :=
  let hosts := (fun a => (split_at 47 (str a)).1) <$> LocalAddrs p in
  let v6 := existsb (has_byte 58) hosts in
  let v4 := existsb (fun h => negb (has_byte 58 h) && negb (bool_decide (h = []))) hosts in
  if v4 && v6 then ["0.0.0.0/0"; "::/0"] else if v6 then ["::/0"] else ["0.0.0.0/0"].

Section device.
Context (unicode_lower : bytes -> bytes) (FormatFloat : f64 -> string).
Definition modelParamString (values : obj) (key : string) : string :=
  match values !! key with
  | Some (AString s) => s
  | Some (AFloat f) => match f64_whole f with
                       | Some n => if (min_int64 <=? n) && (n <=? max_int64) then itoa n else FormatFloat f
                       | None => FormatFloat f
                       end
  | Some (AInt n) | Some (AInt64 n) => itoa n
  | Some (ABool b) => boolOpt b
  | _ => ""
  end.
Definition addAWG30_key (params : obj) (obf : gmap string string) (key : string) : string + gmap string string :=
  let value := trim (SettingText (params !! key)) in
  if bool_decide (value = "") then inr obf
  else if negb (bool_decide (key = "header_protection_key")) then
    match ParseRange (str value) 65535 with inl err => inl err | inr _ => inr (<[key := value]> obf) end
  else
    match standardKey value with
    | None => inl "header_protection_key is not a 32-byte base64 key"
    | Some std =>
        let padded i := match ParseUint 64 (str (default "" (obf !! i))) with Some n => headerProtectionNonce <=? n | None => false end in
        if forallb padded ["s1"; "s2"; "s3"; "s4"] then inr (<[key := std]> obf)
        else inl "with a header_protection_key every padding S1-S4 must be at least the size of the nonce"
    end.
Definition addAWG30 (obf : gmap string string) (params : obj) : string + gmap string string :=
  each (addAWG30_key params) obf awgKeys30.
Definition awgSwitch (value : option any) : string + bool :=
  let parsed s := match ParseBool unicode_lower s with Some b => inr b | None => inl "neither on/off nor a number" end in
  match value with
  | None | Some ANil => inr false
  | Some (ABool b) => inr b
  | Some (AString s) => if bool_decide (trim s = "") then inr false else parsed s
  | _ => let text := SettingText value in if bool_decide (text = "") then inl "unreadable value" else parsed text
  end.
Definition addAWG31_key (params : obj) (obf : gmap string string) (key : string) : string + gmap string string :=
  on ← awgSwitch (params !! key); inr (if on : bool then <[key := boolOpt true]> obf else obf).
Definition addAWG31 (obf : gmap string string) (params : obj) : string + gmap string string :=
  each (addAWG31_key params) obf awgSwitches31.
Definition peer_of (m : obj) : AWGPeer :=
  mkPeer "" (modelParamString m "public_key") (modelParamString m "pre_shared_key") (modelParamString m "server")
    (modelParamInt m "port") (modelParamStrings m "allowed_ips") (modelParamInt m "persistent_keepalive") "" "" false.
Definition peersFromEndpoint (e : Endpoint) : list AWGPeer :=
  let peers := filter (fun p => PublicKey p <> "") (peer_of <$> omap map_of (modelParamList (ep_Params e) "peers")) in
  match peers with
  | _ :: _ => peers
  | [] =>
      let publicKey := modelParamString (ep_Params e) "peer_public_key" in
      if bool_decide (publicKey = "") then []
      else
        let keepalive := if ep_PersistentKeepalive e =? 0 then modelParamInt (ep_Params e) "persistent_keepalive" else ep_PersistentKeepalive e in
        [mkPeer "" publicKey (modelParamString (ep_Params e) "pre_shared_key") (ep_Server e) (ep_Port e)
           (modelParamStrings (ep_Params e) "allowed_ips") keepalive "" "" false]
  end.
Definition obfuscation_of (kernel : Z) (e : Endpoint) : string + gmap string string :=
  if negb (bool_decide (ep_Protocol e = "amneziawg")) then inr ∅
  else
    let gen := AWGWriterGeneration kernel in
    match Beyond unicode_lower (ep_Params e) gen with
    | _ :: _ => inl "uses AmneziaWG settings the UCI interface cannot carry on this router"
    | [] =>
        let obf : gmap string string := list_to_map (omap (fun key =>
          let value := modelParamString (ep_Params e) key in if bool_decide (value = "") then None else Some (key, value)) awgObfuscationKeys) in
        obf ← (if Gen30 <=? gen then addAWG30 obf (ep_Params e) else inr obf);
        if Gen31 <=? gen then addAWG31 obf (ep_Params e) else inr obf
    end.
Definition InterfaceFromEndpointFor (e : Endpoint) (name protocol : string) (kernel : Z) : string + AWGInterface :=
  match ValidInterfaceName name with
  | Some err => inl err
  | None =>
      if bool_decide (is_Some (ep_Params e !! "reserved")) then inl "carries a WARP client id (reserved)"
      else
        let key := modelParamString (ep_Params e) "private_key" in
        let addresses := modelParamStrings (ep_Params e) "local_address" in
        if bool_decide (key = "") then inl "has no private key"
        else if bool_decide (addresses = []) then inl "has no interface address"
        else
          let mtu := if ep_MTU e =? 0 then modelParamInt (ep_Params e) "mtu" else ep_MTU e in
          obf ← obfuscation_of kernel e;
          match peersFromEndpoint e with
          | [] => inl "has no peer"
          | peers =>
              let full p := match AllowedIPs p with [] => p <| AllowedIPs := WGAllowedIPs (ep_Params e) |> | _ => p end in
              inr (mkInterface name key addresses mtu obf (full <$> peers) protocol)
          end
  end.
End device.

(** ** The protocol a router can carry: [None] is a set that was never probed *)
Definition RouterProtos : Type := option (gmap string bool).
Definition Has (r : RouterProtos) (p : string) : bool := match r with Some m => default false (m !! resolve p) | None => false end.
Definition resolveProto (want : string) (protos : RouterProtos) : string + (string * bool) :=
  let w := resolve want in
  if negb (bool_decide (is_Some (schemaFor w))) then inl "not a protocol this writer can render"
  else if negb (bool_decide (is_Some protos)) then inl "router netifd protocol handlers were not probed"
  else if Has protos w then inr (w, false)
  else if bool_decide (w = ProtoWireGuard) && Has protos Uci.ProtoAmneziaWG then inr (Uci.ProtoAmneziaWG, true)
  else inl "this router has no netifd handler for the protocol".

(** ** Commands *)
Definition quoted (s : string) : string := unstr (q (str s)).
Definition in_quotes (s : string) : string := "'" +:+ s +:+ "'".
Definition PeerSection (iface : string) (i : nat) : string := iface +:+ "_peer" +:+ itoa (Z.of_nat i + 1).
Definition CommitCmds : list string := ["uci commit network"; "/etc/init.d/network reload"].
Definition FirewallCommitCmds : list string := ["uci commit firewall"; "/etc/init.d/firewall reload"].
Definition set_cmd (path value : string) : string := "uci set network." +:+ path +:+ "=" +:+ value.
Definition delete_cmd (path : string) : string := "uci -q delete network." +:+ path.
Definition add_cmd (path value : string) : string := "uci add_list network." +:+ path +:+ "=" +:+ quoted value.
Definition cmd_if (b : bool) (c : string) : list string := if b then [c] else [].
Definition nonempty (s : string) : bool := negb (bool_decide (s = "")).
Definition sortedKeys (m : gmap string string) : list string := sort_strings (map_to_list m).*1.
Definition value_of (m : gmap string string) (k : string) : string := default "" (m !! k).
Definition render_peer (sc : protoSchema) (n : string) (cur : option AWGInterface) (i : nat) (p : AWGPeer) : list string :=
  let sec := PeerSection n i in
  [set_cmd sec (sc_PeerType sc +:+ n)]
  ++ cmd_if (nonempty (Description p)) (set_cmd (sec +:+ ".description") (quoted (Description p)))
  ++ [set_cmd (sec +:+ ".public_key") (quoted (PublicKey p))]
  ++ cmd_if (nonempty (PresharedKey p)) (set_cmd (sec +:+ ".preshared_key") (quoted (PresharedKey p)))
  ++ cmd_if (nonempty (EndpointHost p)) (set_cmd (sec +:+ ".endpoint_host") (quoted (EndpointHost p)))
  ++ cmd_if (nonempty (EndpointHost p) && (0 <? EndpointPort p)) (set_cmd (sec +:+ ".endpoint_port") (in_quotes (itoa (EndpointPort p))))
  ++ cmd_if (0 <? PersistentKeepalive p) (set_cmd (sec +:+ ".persistent_keepalive") (in_quotes (itoa (PersistentKeepalive p))))
  ++ [set_cmd (sec +:+ ".route_allowed_ips") "'0'"]
  ++ cmd_if (sc_PeerDisabled sc) (set_cmd (sec +:+ ".disabled") (in_quotes (boolOpt (peer_Disabled p))))
  ++ cmd_if (match cur ≫= fun c => Peers c !! i with Some p' => negb (bool_decide (AllowedIPs p' = [])) | None => false end)
       (delete_cmd (sec +:+ ".allowed_ips"))
  ++ map (add_cmd (sec +:+ ".allowed_ips")) (AllowedIPs p).
Definition RenderUCIFrom (iface : AWGInterface) (cur : option AWGInterface) : list string :=
  let n := if_Name iface in
  let sc := the_schema (if_Proto iface) in
  [set_cmd n "interface"; set_cmd (n +:+ ".proto") (in_quotes (sc_Name sc))]
  ++ cmd_if (nonempty (PrivateKey iface)) (set_cmd (n +:+ ".private_key") (quoted (PrivateKey iface)))
  ++ cmd_if (match cur with Some c => negb (bool_decide (Addresses c = [])) | None => false end) (delete_cmd (n +:+ ".addresses"))
  ++ map (add_cmd (n +:+ ".addresses")) (Addresses iface)
  ++ cmd_if (0 <? if_MTU iface) (set_cmd (n +:+ ".mtu") (in_quotes (itoa (if_MTU iface))))
  ++ (if nonempty (sc_ObfPrefix sc) then
        map (fun k => set_cmd (n +:+ "." +:+ sc_ObfPrefix sc +:+ k) (quoted (value_of (Obfuscation iface) k))) (sortedKeys (Obfuscation iface))
      else [])
  ++ concat (imap (render_peer sc n cur) (Peers iface)).
(** The bracket index of an anonymous section, -1 for a named one. *)
Definition anonIndex (ref : string) : Z :=
  match split_last 93 (str ref) with
  | None => -1
  | Some (before, after) =>
      if has_byte 91 after then -1
      else match split_last 91 before with Some (_, inside) => default (-1) (Atoi inside) | None => -1 end
  end.
(** [sort.SliceStable] by descending index. *)
Fixpoint insert_ref (r : string) (rs : list string) : list string :=
  match rs with
  | [] => [r]
  | r' :: rs => if anonIndex r <? anonIndex r' then r' :: insert_ref r rs else r :: r' :: rs
  end.
Definition sort_refs (rs : list string) : list string := foldr insert_ref [] rs.
Definition RemoveUCIRefs (name : string) (peerRefs : list string) : list string :=
  omap (fun ref => if bool_decide (trim ref = "") then None else Some (delete_cmd ref)) (sort_refs peerRefs) ++ [delete_cmd name].
Definition RemoveUCI (name : string) (peerCount : nat) : list string := RemoveUCIRefs name (map (PeerSection name) (seq 0 peerCount)).
Definition DeleteOptionCmds (section : string) (opts : list string) : list string := map (fun o => delete_cmd (section +:+ "." +:+ o)) opts.
Definition ZoneAttachCmds (z : Zone) (iface : string) : list string :=
  if bool_decide (iface ∈ Networks z) then [] else ["uci add_list firewall." +:+ z_Ref z +:+ ".network=" +:+ quoted iface].
Definition ZoneDetachCmds (z : Zone) (iface : string) : list string :=
  if bool_decide (iface ∈ Networks z) then ["uci del_list firewall." +:+ z_Ref z +:+ ".network=" +:+ quoted iface] else [].

(** ** Differences *)
Record Difference := mkDifference { Field : string; Want : string; Got : string }.
Definition differ (field w g : string) : list Difference := if bool_decide (w = g) then [] else [mkDifference field w g].
Definition redact (s : string) : string :=
  if bool_decide (s = "") then "(absent)" else "(present, " +:+ itoa (Z.of_nat (length (str s))) +:+ " chars)".
Definition join_words (l : list string) : string :=
  match l with [] => "" | w :: l => foldl (fun acc w => acc +:+ " " +:+ w) w l end.
Definition unionKeys (a b : gmap string string) : list string := sort_strings (elements (dom a ∪ dom b)).
Definition diff_peer (wsc : protoSchema) (i : nat) (w g : AWGPeer) : list Difference :=
  let p := "peer" +:+ itoa (Z.of_nat i + 1) +:+ "." in
  differ (p +:+ "public_key") (redact (PublicKey w)) (redact (PublicKey g))
  ++ differ (p +:+ "endpoint_host") (EndpointHost w) (EndpointHost g)
  ++ differ (p +:+ "endpoint_port") (itoa (EndpointPort w)) (itoa (EndpointPort g))
  ++ differ (p +:+ "persistent_keepalive") (itoa (PersistentKeepalive w)) (itoa (PersistentKeepalive g))
  ++ differ (p +:+ "allowed_ips") (join_words (AllowedIPs w)) (join_words (AllowedIPs g))
  ++ differ (p +:+ "description") (Description w) (Description g)
  ++ (if sc_PeerDisabled wsc then differ (p +:+ "disabled") (boolOpt (peer_Disabled w)) (boolOpt (peer_Disabled g)) else [])
  ++ (if eqb (nonempty (PresharedKey w)) (nonempty (PresharedKey g)) then []
      else differ (p +:+ "preshared_key") (redact (PresharedKey w)) (redact (PresharedKey g))).
Definition diff_obf (prefix : string) (w g : gmap string string) (k : string) : list Difference :=
  if bool_decide (k = "header_protection_key") then
    if bool_decide (value_of w k = value_of g k) then [] else [mkDifference (prefix +:+ k) (redact (value_of w k)) (redact (value_of g k))]
  else differ (prefix +:+ k) (value_of w k) (value_of g k).
Definition DiffInterface (want got : AWGInterface) : list Difference :=
  let wsc := the_schema (if_Proto want) in
  let obfPrefix := if nonempty (sc_ObfPrefix wsc) then sc_ObfPrefix wsc else "obfuscation_" in
  differ "name" (if_Name want) (if_Name got)
  ++ differ "proto" (resolve (if_Proto want)) (resolve (if_Proto got))
  ++ differ "mtu" (itoa (if_MTU want)) (itoa (if_MTU got))
  ++ differ "addresses" (join_words (Addresses want)) (join_words (Addresses got))
  ++ (if bool_decide (PrivateKey want = PrivateKey got) then []
      else [mkDifference "private_key" (redact (PrivateKey want)) (redact (PrivateKey got))])
  ++ concat (map (diff_obf obfPrefix (Obfuscation want) (Obfuscation got)) (unionKeys (Obfuscation want) (Obfuscation got)))
  ++ (if negb (length (Peers want) =? length (Peers got))%nat then
        differ "peer count" (itoa (Z.of_nat (length (Peers want)))) (itoa (Z.of_nat (length (Peers got))))
      else concat (imap (fun i wg => diff_peer wsc i wg.1 wg.2) (zip (Peers want) (Peers got)))).

(** ** Plans *)
Record Plan := mkPlan {
  Iface : string; Commands : list string; Commit : list string; Expected : AWGInterface; Intended : AWGInterface;
  p_Zone : string; ZoneRef : string; Warnings : list string; p_Proto : string; RequestedProto : string; Fallback : bool;
  Orphans : list string
}.
Definition routes_left_alone (c : string) : bool := negb (contains "route_allowed_ips=" c) || contains "route_allowed_ips='0'" c.
(** The sections and options of the protocol the interface spoke before. *)
Definition protocol_change (uciNetwork name resolved : string) (sc : protoSchema) (existing : option AWGInterface) : list string * list string :=
  match existing with
  | Some cur =>
      if bool_decide (resolve (if_Proto cur) = resolved) then ([], [])
      else
        let orphans := PeerSectionsFor uciNetwork name in
        let oldSc := the_schema (if_Proto cur) in
        let stale := if nonempty (sc_ObfPrefix oldSc) && negb (bool_decide (sc_ObfPrefix oldSc = sc_ObfPrefix sc))
                     then map (fun k => sc_ObfPrefix oldSc +:+ k) (sortedKeys (Obfuscation cur)) else [] in
        (orphans, removelast (RemoveUCIRefs "" orphans) ++ DeleteOptionCmds name stale)
  | None => ([], [])
  end.
Definition dropped_keys (sc : protoSchema) (expected intended : AWGInterface) : list string :=
  if nonempty (sc_ObfPrefix sc) then
    map (fun k => sc_ObfPrefix sc +:+ k) (filter (fun k => Obfuscation intended !! k = None) (sortedKeys (Obfuscation expected)))
  else [].
Definition BuildPlanFor (intended : AWGInterface) (protos : RouterProtos) (zoneName uciNetwork uciFirewall : string) : string + Plan :=
  if negb (validUCIName (if_Name intended)) then inl "not a usable interface name"
  else if (length (Peers intended) =? 0)%nat then inl "has no peers"
  else
    let requested := resolve (if_Proto intended) in
    '(resolved, fallback) ← resolveProto requested protos;
    let sc := the_schema resolved in
    if negb (nonempty (sc_ObfPrefix sc)) && (0 <? size (Obfuscation intended))%nat then inl "carries obfuscation parameters the proto has nowhere to put"
    else
      let intended := intended <| if_Proto := resolved |> in
      let name := if_Name intended in
      let existing := ParseUCIShow uciNetwork !! name in
      let expected := default zero_interface existing in
      let '(orphans, cleared) := protocol_change uciNetwork name resolved sc existing in
      let drop := dropped_keys sc expected intended in
      let commands := cleared ++ RenderUCIFrom intended existing ++ DeleteOptionCmds name drop in
      let warnings := (if fallback : bool then ["written under the other proto: plain on the wire"] else [])
                      ++ map (fun k => k +:+ " is set on the router and absent from this plan; applying will delete it") drop in
      '(zone, ref, commands, commit, warnings) ←
        (if nonempty zoneName then
           match FindZone (ParseFirewallZones uciFirewall) zoneName with
           | None => inl "firewall zone does not exist on this router"
           | Some z => inr (z_Name z, z_Ref z, commands ++ ZoneAttachCmds z name, CommitCmds ++ FirewallCommitCmds, warnings)
           end
         else inr ("", "", commands, CommitCmds, warnings ++ ["no firewall zone was named"]));
      if forallb routes_left_alone commands
      then inr (mkPlan name commands commit expected intended zone ref warnings resolved requested fallback orphans)
      else inl "refusing a plan that lets netifd own the routes".
Definition BuildPlan (intended : AWGInterface) (zoneName uciNetwork uciFirewall : string) : string + Plan :=
  BuildPlanFor intended None zoneName uciNetwork uciFirewall.
Definition PreflightAgainst (p : Plan) (freshUCINetwork : string) : list Difference :=
  match ParseUCIShow freshUCINetwork !! Iface p with
  | None => if bool_decide (if_Name (Expected p) = "") then []
            else [mkDifference "interface" "present (as when the plan was built)" "absent"]
  | Some cur => if bool_decide (if_Name (Expected p) = "") then [mkDifference "interface" "absent (the plan creates it)" "present"]
                else DiffInterface (Expected p) cur
  end.
Definition VerifyAgainst (p : Plan) (freshUCINetwork : string) : list Difference :=
  match ParseUCIShow freshUCINetwork !! Iface p with
  | None => [mkDifference "interface" "present after the write" "absent"]
  | Some cur => DiffInterface (Intended p) cur
  end.

(** ** Removal *)
Record RemovalPlan := mkRemoval {
  rm_Iface : string; rm_Commands : list string; rm_Commit : list string; rm_Expected : AWGInterface; rm_Zones : list string;
  rm_Warnings : list string
}.
Definition BuildRemovalPlan (name uciNetwork uciFirewall : string) : string + RemovalPlan :=
  if bool_decide (name = "") then inl "no interface name given"
  else
    match ParseUCIShow uciNetwork !! name with
    | None => inl "is not in the configuration"
    | Some cur =>
        let listing := filter (fun z => name ∈ Networks z) (ParseFirewallZones uciFirewall) in
        let detached := negb (length listing =? 0)%nat in
        inr (mkRemoval name (RemoveUCI name (length (Peers cur)) ++ concat (map (fun z => ZoneDetachCmds z name) listing))
               ((("ifdown " +:+ name) :: CommitCmds) ++ (if detached then FirewallCommitCmds else []))
               cur (z_Name <$> listing) (if detached then [] else ["is not a member of any firewall zone"]))
    end.
Definition zone_listing (name : string) (z : Zone) : list Difference :=
  map (fun _ => mkDifference ("firewall zone " +:+ z_Name z) ("no longer lists " +:+ name) "still lists it")
    (filter (fun n => n = name) (Networks z)).
Definition rm_VerifyRemoved (p : RemovalPlan) (freshNetwork freshFirewall : string) : list Difference :=
  match ParseUCIShow freshNetwork !! rm_Iface p with
  | Some _ => [mkDifference "interface" "absent" "still present"]
  | None => []
  end ++ concat (map (zone_listing (rm_Iface p)) (ParseFirewallZones freshFirewall)).

(** ** Devices netifd does not own *)
Record DeviceBinding := mkBinding {
  b_Device : string; b_Zone : string; b_ZoneRef : string; b_Commands : list string; b_Commit : list string
}.
Definition BuildDeviceBinding (device zoneName uciFirewall : string) : string + DeviceBinding :=
  if negb (validUCIName device) then inl "not a usable device name"
  else if bool_decide (zoneName = "") then inl "no firewall zone was reviewed"
  else
    match FindZone (ParseFirewallZones uciFirewall) zoneName with
    | None => inl "firewall zone does not exist on this router"
    | Some z =>
        inr (mkBinding device (z_Name z) (z_Ref z)
               (cmd_if (negb (bool_decide (device ∈ Devices z))) ("uci add_list firewall." +:+ z_Ref z +:+ ".device=" +:+ quoted device))
               FirewallCommitCmds)
    end.
Definition b_PreflightAgainst (b : DeviceBinding) (freshFirewall : string) : list Difference :=
  match List.find (fun z => bool_decide (z_Ref z = b_ZoneRef b)) (ParseFirewallZones freshFirewall) with
  | Some z => differ ("firewall zone " +:+ b_ZoneRef b) (b_Zone b) (z_Name z)
  | None => [mkDifference ("firewall zone " +:+ b_ZoneRef b) (b_Zone b) "absent"]
  end.
Definition b_VerifyAgainst (b : DeviceBinding) (freshFirewall : string) : list Difference :=
  match FindZone (ParseFirewallZones freshFirewall) (b_Zone b) with
  | None => [mkDifference ("firewall zone " +:+ b_Zone b) ("present, listing " +:+ b_Device b) "absent"]
  | Some z => if bool_decide (b_Device b ∈ Devices z) then []
              else [mkDifference ("firewall zone " +:+ b_Zone b) ("lists device " +:+ b_Device b) "does not"]
  end.
Record DeviceUnbinding := mkUnbinding {
  u_Device : string; u_Zones : list Zone; u_Commands : list string; u_Commit : list string
}.
Definition device_zones (device uciFirewall : string) : list Zone := filter (fun z => device ∈ Devices z) (ParseFirewallZones uciFirewall).
Definition BuildDeviceUnbinding (device uciFirewall : string) : DeviceUnbinding :=
  let zones := device_zones device uciFirewall in
  mkUnbinding device (map (fun z => mkZone (z_Ref z) (z_Name z) [] []) zones)
    (map (fun z => "uci del_list firewall." +:+ z_Ref z +:+ ".device=" +:+ quoted device) zones)
    (if (length zones =? 0)%nat then [] else FirewallCommitCmds).
Definition u_VerifyRemoved (u : DeviceUnbinding) (freshFirewall : string) : list Difference :=
  map (fun z => mkDifference ("firewall zone " +:+ z_Name z) ("no longer lists " +:+ u_Device u) "still lists it")
    (device_zones (u_Device u) freshFirewall).

(** ** Facts: decimals *)
Lemma dec_digits_value fuel z acc a : (0 < fuel)%nat -> 0 <= z < 10 ^ Z.of_nat fuel ->
  foldl (fun acc c => acc * 10 + (c - 48)) 0 (dec_digits fuel z acc) = foldl (fun acc c => acc * 10 + (c - 48)) z acc
  /\ (head (dec_digits fuel z acc) = Some a -> 48 <= a).
Proof.
  revert z acc. induction fuel as [|fuel IH]; intros z acc Hf Hz; [lia|]. cbn [dec_digits].
  pose proof (Z.div_mod z 10 ltac:(lia)). pose proof (Z.mod_pos_bound z 10 ltac:(lia)).
  rewrite Nat2Z.inj_succ, Z.pow_succ_r in Hz by lia. destruct (Z.ltb_spec z 10).
  - cbn [foldl head]. rewrite Z.mod_small by lia. split; [f_equal; lia|intros [= <-]; lia].
  - destruct fuel as [|fuel]; [change (10 ^ Z.of_nat 0) with 1 in Hz; lia|].
    destruct (IH (z / 10) (48 + z mod 10 :: acc)) as [-> Hh]; [lia| |].
    + split; [apply Z.div_pos; lia|apply Z.div_lt_upper_bound; lia].
    + split; [cbn [foldl]; f_equal; lia|exact Hh].
Qed.
Lemma fmt_d_value z : 0 <= z < 10 ^ 20 -> dec_value (fmt_d z) = z.
Proof. intros H. unfold dec_value, fmt_d. by destruct (dec_digits_value 20 z [] 0) as [-> _]; [lia|done|]. Qed.
Lemma fmt_d_head z a : 0 <= z < 10 ^ 20 -> head (fmt_d z) = Some a -> 48 <= a.
Proof. intros H. unfold fmt_d. by apply (dec_digits_value 20 z [] a); [lia|]. Qed.
Lemma fmt_d_bytes z : Forall is_byte (fmt_d z).
Proof.
  unfold fmt_d. assert (forall fuel z acc, Forall is_byte acc -> Forall is_byte (dec_digits fuel z acc)) as H.
  { induction fuel as [|fuel IH]; intros y acc Hacc; [done|]. cbn [dec_digits].
    assert (Forall is_byte (48 + y mod 10 :: acc)) by (constructor; [unfold is_byte; pose proof (Z.mod_pos_bound y 10); lia|done]).
    destruct (y <? 10); [done|]. by apply IH. }
  by apply H.
Qed.
(** An [int] is told by its decimal. *)
Lemma itoa_inj a b : is_int64 a -> is_int64 b -> itoa a = itoa b <-> a = b.
Proof.
  unfold is_int64, min_int64, max_int64. intros Ha Hb. split; [|by intros ->]. intros E.
  assert (forall x, Forall is_byte (if x <? 0 then 45 :: fmt_d (- x) else fmt_d x)) as Hbytes.
  { intros x. destruct (x <? 0); [constructor; [by unfold is_byte|]|]; apply fmt_d_bytes. }
  unfold itoa in E. apply (f_equal str) in E. rewrite !str_unstr in E by apply Hbytes.
  destruct (Z.ltb_spec a 0), (Z.ltb_spec b 0).
  - injection E as E. apply (f_equal dec_value) in E. rewrite !fmt_d_value in E by lia. lia.
  - apply (f_equal head) in E. cbn [head] in E. symmetry in E. apply fmt_d_head in E; lia.
  - apply (f_equal head) in E. cbn [head] in E. apply fmt_d_head in E; lia.
  - apply (f_equal dec_value) in E. rewrite !fmt_d_value in E by lia. lia.
Qed.

(** ** Facts: what a comparison sees *)
Definition ints_ok (i : AWGInterface) : Prop :=
  is_int64 (if_MTU i) /\ is_int64 (Z.of_nat (length (Peers i))) /\
  Forall (fun p => is_int64 (EndpointPort p) /\ is_int64 (PersistentKeepalive p) /\
                   is_int64 (Z.of_nat (length (str (PublicKey p))))) (Peers i).
(** Two peers of which no row differs. Of the keys, their lengths and that there is a preshared one. *)
Definition peer_seen (switch : bool) (w g : AWGPeer) : Prop :=
  length (str (PublicKey w)) = length (str (PublicKey g)) /\
  EndpointHost w = EndpointHost g /\ EndpointPort w = EndpointPort g /\ PersistentKeepalive w = PersistentKeepalive g /\
  join_words (AllowedIPs w) = join_words (AllowedIPs g) /\ Description w = Description g /\
  (switch = true -> peer_Disabled w = peer_Disabled g) /\ (PresharedKey w = "" <-> PresharedKey g = "").
Record interface_seen (w g : AWGInterface) : Prop := {
  is_name : if_Name w = if_Name g;
  is_proto : resolve (if_Proto w) = resolve (if_Proto g);
  is_mtu : if_MTU w = if_MTU g;
  is_addresses : join_words (Addresses w) = join_words (Addresses g);
  is_key : PrivateKey w = PrivateKey g;
  is_obfuscation : forall k, value_of (Obfuscation w) k = value_of (Obfuscation g) k;
  is_peers : Forall2 (peer_seen (sc_PeerDisabled (the_schema (if_Proto w)))) (Peers w) (Peers g)
}.
Lemma differ_nil f w g : differ f w g = [] <-> w = g.
Proof. unfold differ. by case_bool_decide. Qed.
Lemma redact_same a b : is_int64 (Z.of_nat (length (str a))) -> is_int64 (Z.of_nat (length (str b))) ->
  redact a = redact b <-> length (str a) = length (str b).
Proof.
  intros Ha Hb. unfold redact. destruct (decide (a = "")) as [->|Hna], (decide (b = "")) as [->|Hnb].
  - done.
  - rewrite bool_decide_eq_true_2, bool_decide_eq_false_2 by done. split; [done|]. intros E. exfalso. apply Hnb, str_nil.
    symmetry in E. by apply length_zero_iff_nil in E.
  - rewrite bool_decide_eq_false_2, bool_decide_eq_true_2 by done. split; [done|]. intros E. exfalso. apply Hna, str_nil.
    by apply length_zero_iff_nil in E.
  - rewrite !bool_decide_eq_false_2 by done. split; [|by intros ->]. intros E.
    apply (f_equal str) in E. rewrite !str_app in E. apply app_inv_head, app_inv_tail, (inj str), itoa_inj in E; [lia|done|done].
Qed.
Lemma nonempty_spec s : nonempty s = false <-> s = "".
Proof. unfold nonempty. by rewrite negb_false_iff, bool_decide_eq_true. Qed.
Lemma boolOpt_inj a b : boolOpt a = boolOpt b <-> a = b.
Proof. by destruct a, b. Qed.
Lemma diff_peer_nil sc i w g : is_int64 (EndpointPort w) -> is_int64 (EndpointPort g) ->
  is_int64 (PersistentKeepalive w) -> is_int64 (PersistentKeepalive g) ->
  is_int64 (Z.of_nat (length (str (PublicKey w)))) -> is_int64 (Z.of_nat (length (str (PublicKey g)))) ->
  diff_peer sc i w g = [] <-> peer_seen (sc_PeerDisabled sc) w g.
Proof.
  intros. unfold diff_peer, peer_seen. rewrite !app_nil_iff, !differ_nil, !itoa_inj, redact_same by done.
  assert ((if sc_PeerDisabled sc then differ ("peer" +:+ itoa (Z.of_nat i + 1) +:+ "." +:+ "disabled") (boolOpt (peer_Disabled w)) (boolOpt (peer_Disabled g)) else []) = []
    <-> (sc_PeerDisabled sc = true -> peer_Disabled w = peer_Disabled g)) as Hd.
  { destruct (sc_PeerDisabled sc); [rewrite differ_nil, boolOpt_inj; naive_solver|naive_solver]. }
  assert (forall f, (if eqb (nonempty (PresharedKey w)) (nonempty (PresharedKey g)) then []
      else differ f (redact (PresharedKey w)) (redact (PresharedKey g))) = [] <-> (PresharedKey w = "" <-> PresharedKey g = "")) as Hp.
  { intros f. rewrite <- !nonempty_spec. unfold nonempty, redact.
    destruct (bool_decide (PresharedKey w = "")), (bool_decide (PresharedKey g = "")); cbn; rewrite ?differ_nil; split; naive_solver. }
  rewrite Hp. destruct (sc_PeerDisabled sc); [rewrite differ_nil, boolOpt_inj|]; naive_solver.
Qed.
Lemma concat_nil {A} (l : list (list A)) : concat l = [] <-> Forall (fun x => x = []) l.
Proof. induction l as [|x l IH]; cbn [concat]; [by split|]. by rewrite app_nil_iff, Forall_cons, IH. Qed.
Lemma unionKeys_elem a b k : k ∈ unionKeys a b <-> is_Some (a !! k) \/ is_Some (b !! k).
Proof.
  unfold unionKeys, sort_strings. rewrite sorting.merge_sort_Permutation, elem_of_elements, elem_of_union, !elem_of_dom. done.
Qed.
Lemma diff_obf_nil prefix w g : concat (map (diff_obf prefix w g) (unionKeys w g)) = [] <-> forall k, value_of w k = value_of g k.
Proof.
  assert (forall k, diff_obf prefix w g k = [] <-> value_of w k = value_of g k) as H.
  { intros k. unfold diff_obf. case_bool_decide; [by case_bool_decide|apply differ_nil]. }
  rewrite concat_nil, Forall_map, Forall_forall. setoid_rewrite H. setoid_rewrite unionKeys_elem. split; [|naive_solver].
  intros Hk k. destruct (w !! k) eqn:Ew; [apply Hk; rewrite Ew; eauto|]. destruct (g !! k) eqn:Eg; [apply Hk; rewrite Eg; eauto|].
  unfold value_of. by rewrite Ew, Eg.
Qed.
Lemma peers_nil sc ws gs : length ws = length gs ->
  Forall (fun p => is_int64 (EndpointPort p) /\ is_int64 (PersistentKeepalive p) /\ is_int64 (Z.of_nat (length (str (PublicKey p))))) ws ->
  Forall (fun p => is_int64 (EndpointPort p) /\ is_int64 (PersistentKeepalive p) /\ is_int64 (Z.of_nat (length (str (PublicKey p))))) gs ->
  concat (imap (fun i wg => diff_peer sc i wg.1 wg.2) (zip ws gs)) = [] <-> Forall2 (peer_seen (sc_PeerDisabled sc)) ws gs.
Proof.
  intros Hl Hw Hg.
  enough (forall n, concat (imap (fun i wg => diff_peer sc (n + i) wg.1 wg.2) (zip ws gs)) = [] <-> Forall2 (peer_seen (sc_PeerDisabled sc)) ws gs) as H
    by exact (H 0%nat).
  revert gs Hl Hg. induction Hw as [|w ws (Hw1 & Hw2 & Hw3) Hw IH]; intros [|g gs] Hl Hg n; try done.
  apply Forall_cons in Hg as ((Hg1 & Hg2 & Hg3) & Hg). cbn [zip zip_with imap concat fst snd]. rewrite app_nil_iff, diff_peer_nil by done.
  rewrite Forall2_cons. injection Hl as Hl. specialize (IH gs Hl Hg (S n)).
  rewrite (imap_ext _ (fun i wg => diff_peer sc (S n + i) wg.1 wg.2)); [by rewrite IH|].
  intros i x _. cbn. by rewrite Nat.add_succ_r.
Qed.

(** C18: [DiffInterface], the check before and after every native write, returns no difference exactly
    where the two views agree on everything it compares: name, protocol, MTU, addresses, the private key,
    every obfuscation parameter of either side, and peer by peer the endpoint, keepalive, allowed
    prefixes, description and switch. Of a peer's public key it sees the length alone, of a preshared key
    whether there is one. *)
Theorem diff_sees_all_but_peer_keys w g : ints_ok w -> ints_ok g -> DiffInterface w g = [] <-> interface_seen w g.
Proof.
  intros (Hw1 & Hw2 & Hw3) (Hg1 & Hg2 & Hg3). unfold DiffInterface. rewrite !app_nil_iff, !differ_nil, itoa_inj, diff_obf_nil by done.
  assert ((if bool_decide (PrivateKey w = PrivateKey g) then [] else
    [mkDifference "private_key" (redact (PrivateKey w)) (redact (PrivateKey g))]) = [] <-> PrivateKey w = PrivateKey g) as Hk by (by case_bool_decide).
  assert ((if negb (length (Peers w) =? length (Peers g))%nat then
        differ "peer count" (itoa (Z.of_nat (length (Peers w)))) (itoa (Z.of_nat (length (Peers g))))
      else concat (imap (fun i wg => diff_peer (the_schema (if_Proto w)) i wg.1 wg.2) (zip (Peers w) (Peers g)))) = []
    <-> Forall2 (peer_seen (sc_PeerDisabled (the_schema (if_Proto w)))) (Peers w) (Peers g)) as Hp.
  { destruct (Nat.eqb_spec (length (Peers w)) (length (Peers g))) as [E|E]; cbn [negb]; [by apply peers_nil|].
    rewrite differ_nil, itoa_inj by done. split; [lia|]. intros H. by apply Forall2_length in H. }
  rewrite Hk, Hp. split; [intros (? & ? & ? & ? & ? & ? & ?); by constructor|by intros [? ? ? ? ? ? ?]].
Qed.

(** ** A router with a tunnel made by hand *)
Definition hand_made (mtu key : string) : string :=
  "network.loopback=interface
network.loopback.proto='static'
network.awg0=interface
network.awg0.proto='amneziawg'
network.awg0.private_key='aPrivateKey'
network.awg0.addresses='10.0.0.30/32' 'fd00::2/128'
network.awg0.mtu='" +:+ mtu +:+ "'
network.awg0.awg_jc='5'
network.@amneziawg_awg0[0]=amneziawg_awg0
network.@amneziawg_awg0[0].public_key='" +:+ key +:+ "'
network.@amneziawg_awg0[0].endpoint_host='203.0.113.10'
network.@amneziawg_awg0[0].allowed_ips='0.0.0.0/0' '::/0'
".
Definition hand_made_tunnel (mtu : Z) (key : string) : AWGInterface :=
  mkInterface "awg0" "aPrivateKey" ["10.0.0.30/32"; "fd00::2/128"] mtu {["jc" := "5"]}
    [mkPeer "" key "" "203.0.113.10" 0 ["0.0.0.0/0"; "::/0"] 0 "@amneziawg_awg0[0]" "amneziawg_awg0" false] "amneziawg".
Definition hand_made_zones : string :=
  "firewall.@zone[0]=zone
firewall.@zone[0].name='lan'
firewall.@zone[0].network='lan'
firewall.@zone[1]=zone
firewall.@zone[1].name='vpn'
firewall.@zone[1].network='awg0' 'awg1'
".
Example hand_made_read : ParseUCIShow (hand_made "1280" "keyA") = {["awg0" := hand_made_tunnel 1280 "keyA"]}.
Proof. vm_compute. reflexivity. Qed.
(** The check before a write does not see that the peer was replaced: the plan is applied over the edit. *)
Example changed_peer_key_unseen :
  DiffInterface (hand_made_tunnel 1280 "keyA") (hand_made_tunnel 1280 "keyB") = [] /\
  DiffInterface (hand_made_tunnel 1280 "keyA") (hand_made_tunnel 1280 "longer") =
    [mkDifference "peer1.public_key" "(present, 4 chars)" "(present, 6 chars)"].
Proof. vm_compute. done. Qed.
Lemma hand_made_ints key : length (str key) = 4%nat -> ints_ok (hand_made_tunnel 1280 key).
Proof.
  unfold ints_ok, is_int64, min_int64, max_int64. cbn [hand_made_tunnel if_MTU Peers EndpointPort PersistentKeepalive PublicKey length].
  intros H. rewrite Forall_singleton. cbn [EndpointPort PersistentKeepalive PublicKey]. rewrite H. lia.
Qed.
Lemma diff_sees_all_but_peer_keys_witness :
  interface_seen (hand_made_tunnel 1280 "keyA") (hand_made_tunnel 1280 "keyB").
Proof.
  apply diff_sees_all_but_peer_keys; [apply hand_made_ints; done|apply hand_made_ints; done|vm_compute; reflexivity].
Defined.
(** Removing it deletes a section it does not have ([uci -q delete] of an absent section fails, and the
    removal turns back), never the peer it has; nor would the check after it see the peer left behind. *)
Example anonymous_peer_is_not_removed :
  rm_Commands <$> (match BuildRemovalPlan "awg0" (hand_made "1280" "keyA") hand_made_zones with inr p => Some p | inl _ => None end)
    = Some ["uci -q delete network.awg0_peer1"; "uci -q delete network.awg0"; "uci del_list firewall.@zone[1].network='awg0'"] /\
  RemoveUCIRefs "awg0" (Ref <$> Peers (hand_made_tunnel 1280 "keyA")) = ["uci -q delete network.@amneziawg_awg0[0]"; "uci -q delete network.awg0"] /\
  rm_VerifyRemoved (mkRemoval "awg0" [] [] zero_interface [] [])
    "network.@amneziawg_awg0[0]=amneziawg_awg0" "firewall.@zone[1]=zone" = [].
Proof. vm_compute. done. Qed.
(** A connection that no longer sets an MTU: no command takes the old one off, and the check after the
    write finds it, so the change is turned back however often it is applied. *)
Definition without_mtu : string + Plan :=
  BuildPlanFor (hand_made_tunnel 0 "keyA") (Some {["amneziawg" := true]}) "" (hand_made "1280" "keyA") "".
Example cleared_mtu_is_never_applied :
  match without_mtu with
  | inr p => existsb (contains ".mtu") (Commands p) = false /\
             VerifyAgainst p (hand_made "1280" "keyA") = [mkDifference "mtu" "0" "1280"]
  | inl _ => False
  end.
Proof. vm_compute. done. Qed.
(** The list of a peer is cleared under the name the peer would have if WayHop had written it. *)
Example list_cleared_in_a_section_not_there :
  match BuildPlanFor (hand_made_tunnel 1280 "keyA") (Some {["amneziawg" := true]}) "vpn" (hand_made "1280" "keyA") hand_made_zones with
  | inr p => bool_decide ("uci -q delete network.awg0_peer1.allowed_ips" ∈ Commands p) && bool_decide (Warnings p = [])
  | inl _ => false
  end = true.
Proof. vm_compute. done. Qed.
