(* ===== verification/NetvpnApply.v ===== *)
(** * Writing to a router: stage, read back, commit

    Models [src/internal/netvpn/openwrt_apply.go] and the appliers of [openwrt_remove.go] and
    [openwrt_bind.go]: what an Apply, a removal, a binding and an unbinding run, in order, and how they
    turn back. The router is an argument: [answer] gives the output of a command and whether it failed,
    from everything run before it, so it may be any router, another writer at work included. *)
From S2P Require Import Prelude GoStrings GoText Netip Util Model Json PbrLists GoCodec GenRoute GenTls.
From S2P Require Import EndpointLoads Awg Uci Netvpn.
Local Open Scope Z_scope.

(** ** Key material in what is reported: [uciSecretRe] *)
Definition re_blank (c : Z) : bool := in_range 9 10 c || in_range 12 13 c || (c =? 32).
Fixpoint take_while (f : Z -> bool) (s : bytes) : bytes * bytes :=
  match s with
  | c :: s' => if f c then let '(a, b) := take_while f s' in (c :: a, b) else ([], s)
  | [] => ([], [])
  end.
(** A text between two [c], or none. *)
Definition between (c : Z) (s : bytes) : option (bytes * bytes) :=
  match s with
  | d :: s' =>
      if d =? c then
        match take_while (fun x => negb (x =? c)) s' with
        | (inside, e :: rest) => Some (c :: inside ++ [c], rest)
        | _ => None
        end
      else None
  | [] => None
  end.
Definition re_value (s : bytes) : option (bytes * bytes) :=
  match between 39 s with
  | Some m => Some m
  | None =>
      match between 34 s with
      | Some m => Some m
      | None => let '(word, rest) := take_while (fun c => negb (re_blank c)) s in
                if bool_decide (word = []) then None else Some (word, rest)
      end
  end.
(** A match at the head: what is kept of it, the value, the rest. *)
Definition secret_here (s : bytes) : option (bytes * bytes * bytes) :=
  rest ← match strip_prefix (str "private_key") s with Some r => Some (str "private_key", r)
         | None => (fun r => (str "preshared_key", r)) <$> strip_prefix (str "preshared_key") s end;
  let '(key, rest) := rest in
  let '(blanks, rest) := take_while re_blank rest in
  match rest with
  | c :: rest =>
      if c =? 61 then
        let '(lead, rest) := take_while re_blank rest in
        '(value, rest) ← re_value rest;
        Some (key ++ blanks ++ [61], lead ++ value, rest)
      else None
  | [] => None
  end.
Fixpoint trim_any (cs s : bytes) : bytes := match s with c :: s' => if has_byte c cs then trim_any cs s' else s | [] => [] end.
Definition Trim (cs s : bytes) : bytes := reverse (trim_any cs (reverse (trim_any cs s))).
Fixpoint scrub (fuel : nat) (s : bytes) : bytes :=
  match fuel, s with
  | S fuel, c :: s' =>
      match secret_here s with
      | Some (kept, value, rest) => kept ++ str (redact (unstr (Trim [39; 34] value))) ++ scrub fuel rest
      | None => c :: scrub fuel s'
      end
  | _, _ => s
  end.
Definition scrubUCI (s : string) : string := unstr (scrub (length (str s)) (str s)).

(** ** Results *)
Inductive RollbackState := RollbackNone | RollbackDone | RollbackPartial | RollbackFailed.
Record RevertOutcome := mkRevert { Config : string; OK : bool; rv_Err : string }.
Record ApplyResult := mkResult {
  Applied : bool; Rollback : RollbackState; Reverts : list RevertOutcome; Preflight : list Difference;
  Verify : list Difference; Ran : list string
}.
#[export] Instance eta_result : Eta ApplyResult := fun r =>
  mkResult (Applied r) (Rollback r) (Reverts r) (Preflight r) (Verify r) (Ran r).
Record shell := mkShell { history : list string; res : ApplyResult }.
Definition fresh_shell : shell := mkShell [] (mkResult false RollbackNone [] [] [] []).
Definition on_result (f : ApplyResult -> ApplyResult) (st : shell) : shell := mkShell (history st) (f (res st)).

Section router.
Context (answer : list string -> string -> string * bool).

(** [sh]: [note] is what of the command is recorded. *)
Definition sh (note : string -> string) (cmd : string) (st : shell) : string * bool * shell :=
  (answer (history st) cmd, mkShell (history st ++ [cmd]) ((res st) <| Ran := Ran (res st) ++ [note cmd] |>)).
(** A loop over commands that stops at the first one that fails. *)
Fixpoint run_all (note : string -> string) (cmds : list string) (st : shell) : bool * shell :=
  match cmds with
  | [] => (true, st)
  | c :: cmds => match sh note c st with (_, true, st) => (false, st) | (_, false, st) => run_all note cmds st end
  end.
Fixpoint revert_each (note : string -> string) (cfgs : list string) (st : shell) : nat * shell :=
  match cfgs with
  | [] => (0%nat, st)
  | cfg :: cfgs =>
      let '(out, failed, st) := sh note ("uci revert " +:+ cfg) st in
      let oc := mkRevert cfg (negb failed) (if failed : bool then scrubUCI (trim out) else "") in
      let '(errs, st) := revert_each note cfgs (on_result (fun r => r <| Reverts := Reverts r ++ [oc] |>) st) in
      ((if failed : bool then S errs else errs), st)
  end.
Definition revertConfigs (note : string -> string) (cfgs : list string) (st : shell) : shell :=
  let '(errs, st) := revert_each note cfgs st in
  on_result (fun r => r <| Rollback :=
    if (length cfgs =? 0)%nat then RollbackNone else if (errs =? 0)%nat then RollbackDone
    else if (errs =? length cfgs)%nat then RollbackFailed else RollbackPartial |>) st.
Definition as_is (cmd : string) : string := cmd.
Definition finish (st : shell) : option string * shell := (None, on_result (fun r => r <| Applied := true |>) st).
Definition refuse_preflight (d : list Difference) (err : string) (st : shell) : option string * shell :=
  (Some err, on_result (fun r => r <| Preflight := d |>) st).

(** [Plan.Apply] *)
Definition plan_configs (p : Plan) : list string := "network" :: (if nonempty (p_Zone p) then ["firewall"] else []).
Definition plan_Apply (p : Plan) : option string * shell :=
  let sh := sh scrubUCI in
  let turn_back err st := (Some err, revertConfigs scrubUCI (plan_configs p) st) in
  let '(changes, failed, st) := sh "uci changes" fresh_shell in
  if failed then (Some "reading uci changes", st)
  else if nonempty (trim changes) then (Some "the router has uncommitted uci changes already staged", st)
  else
    let '(before, failed, st) := sh "uci show network" st in
    if failed then (Some "reading network config", st)
    else
      match PreflightAgainst p before with
      | _ :: _ => refuse_preflight (PreflightAgainst p before) "the configuration changed after this plan was built" st
      | [] =>
          let '(ok, st) := run_all scrubUCI (Commands p) st in
          if negb ok then turn_back "a command failed" st
          else
            let '(after, failed, st) := sh "uci show network" st in
            if failed then turn_back "re-reading after the write" st
            else
              match VerifyAgainst p after with
              | _ :: _ => turn_back "the staged configuration does not match what was intended"
                            (on_result (fun r => r <| Verify := VerifyAgainst p after |>) st)
              | [] =>
                  let '(ok, st) := run_all scrubUCI (Commit p) st in
                  if negb ok then (Some "failed AFTER the configuration was verified", st) else finish st
              end
      end.

(** [RemovalPlan.Apply] *)
Definition nothing_staged (cfg : string) (st : shell) : option string * shell :=
  let '(out, failed, st) := sh as_is ("uci changes " +:+ cfg) st in
  if failed : bool then (Some "reading staged changes", st)
  else if nonempty (trim out) then (Some "has uncommitted changes", st) else (None, st).
Definition removal_Apply (p : RemovalPlan) : option string * shell :=
  let sh := sh as_is in
  let turn_back err st := (Some err, revertConfigs as_is ["network"; "firewall"] st) in
  match nothing_staged "network" fresh_shell with
  | (Some err, st) => (Some err, st)
  | (None, st) =>
      match nothing_staged "firewall" st with
      | (Some err, st) => (Some err, st)
      | (None, st) =>
          let '(net, failed, st) := sh "uci show network" st in
          if failed then (Some "reading network config", st)
          else
            match ParseUCIShow net !! rm_Iface p with
            | None => (Some "it is no longer in the configuration; the plan is stale", st)
            | Some cur =>
                match DiffInterface (rm_Expected p) cur with
                | _ :: _ => refuse_preflight (DiffInterface (rm_Expected p) cur) "the router no longer matches the plan" st
                | [] =>
                    let '(ok, st) := run_all as_is (rm_Commands p) st in
                    if negb ok then turn_back "a command failed" st
                    else
                      let '(freshNet, failed1, st) := sh "uci show network" st in
                      let '(freshFw, failed2, st) := sh "uci show firewall" st in
                      if failed1 || failed2 then turn_back "could not read the staged result back" st
                      else
                        match rm_VerifyRemoved p freshNet freshFw with
                        | _ :: _ => turn_back "the staged result is not a clean removal"
                                      (on_result (fun r => r <| Verify := rm_VerifyRemoved p freshNet freshFw |>) st)
                        | [] =>
                            let '(ok, st) := run_all as_is (rm_Commit p) st in
                            if negb ok then (Some "failed AFTER the change was committed", st) else finish st
                        end
                end
            end
      end
  end.

(** [firewallUnstaged]; [stageVerifyCommit]; [DeviceBinding.Apply]; [DeviceUnbinding.Apply] *)
Definition firewallUnstaged (st : shell) : (string + string) * shell :=
  let '(out, failed, st) := sh as_is "uci changes firewall" st in
  if failed : bool then (inl "reading staged firewall changes", st)
  else if nonempty (trim out) then (inl "the firewall has uncommitted changes", st)
  else
    let '(fw, failed, st) := sh as_is "uci show firewall" st in
    if failed : bool then (inl "reading the firewall config", st) else (inr fw, st).
Definition stageVerifyCommit (commands commit : list string) (verify : string -> list Difference) (st : shell) : option string * shell :=
  let turn_back err st := (Some err, revertConfigs as_is ["firewall"] st) in
  let '(ok, st) := run_all as_is commands st in
  if negb ok then turn_back "a command failed" st
  else
    let '(after, failed, st) := sh as_is "uci show firewall" st in
    if failed : bool then turn_back "re-reading after the write" st
    else
      match verify after with
      | _ :: _ => turn_back "the staged firewall does not match what was intended" (on_result (fun r => r <| Verify := verify after |>) st)
      | [] =>
          let '(ok, st) := run_all as_is commit st in
          if negb ok then (Some "failed AFTER the change was verified", st) else finish st
      end.
Definition binding_Apply (b : DeviceBinding) : option string * shell :=
  match firewallUnstaged fresh_shell with
  | (inl err, st) => (Some err, st)
  | (inr before, st) =>
      match b_PreflightAgainst b before with
      | _ :: _ => refuse_preflight (b_PreflightAgainst b before) "the firewall changed after this plan was built" st
      | [] =>
          match b_VerifyAgainst b before with
          | [] => finish st
          | _ :: _ =>
              if (length (b_Commands b) =? 0)%nat then (Some "this plan adds nothing; the plan is stale", st)
              else stageVerifyCommit (b_Commands b) (b_Commit b) (b_VerifyAgainst b) st
          end
      end
  end.
(** The first zone the plan names that no longer sits where it sat. *)
Definition zone_at (zones : list Zone) (ref : string) : string :=
  default "" (z_Name <$> List.find (fun z => bool_decide (z_Ref z = ref)) zones).
Definition moved_zone (zones : list Zone) (z : Zone) : list Difference :=
  if bool_decide (zone_at zones (z_Ref z) = z_Name z) then []
  else [mkDifference ("firewall zone " +:+ z_Ref z) (z_Name z)
          (if bool_decide (zone_at zones (z_Ref z) = "") then "absent" else zone_at zones (z_Ref z))].
Definition u_Preflight (u : DeviceUnbinding) (before : string) : list Difference :=
  take 1 (concat (map (moved_zone (ParseFirewallZones before)) (u_Zones u))).
Definition unbinding_Apply (u : DeviceUnbinding) : option string * shell :=
  match firewallUnstaged fresh_shell with
  | (inl err, st) => (Some err, st)
  | (inr before, st) =>
      match u_VerifyRemoved u before with
      | [] => finish st
      | _ :: _ =>
          match u_Preflight u before with
          | _ :: _ => refuse_preflight (u_Preflight u before) "the firewall changed after this plan was built" st
          | [] => stageVerifyCommit (u_Commands u) (u_Commit u) (u_VerifyRemoved u) st
          end
      end
  end.

(** ** What a careful write does

    [careful reads cmds readback reverts commit ready idle verified h err applied]: [h] is everything that
    was run. Either only reads, or staged commands that were all turned back, or a commit that came after
    the whole plan was staged and read back as intended. *)
Inductive careful (reads cmds readback reverts commit : list string) (ready idle verified : Prop)
  : list string -> option string -> bool -> Prop :=
| careful_refused h e : h `prefix_of` reads -> careful reads cmds readback reverts commit ready idle verified h (Some e) false
| careful_idle : ready -> idle -> careful reads cmds readback reverts commit ready idle verified reads None true
| careful_turned_back k e : ready -> (0 < k <= length cmds)%nat ->
    careful reads cmds readback reverts commit ready idle verified (reads ++ take k cmds ++ reverts) (Some e) false
| careful_read_back e : ready ->
    careful reads cmds readback reverts commit ready idle verified (reads ++ cmds ++ readback ++ reverts) (Some e) false
| careful_halfway k e : ready -> verified -> (0 < k <= length commit)%nat ->
    careful reads cmds readback reverts commit ready idle verified (reads ++ cmds ++ readback ++ take k commit) (Some e) false
| careful_done : ready -> verified ->
    careful reads cmds readback reverts commit ready idle verified (reads ++ cmds ++ readback ++ commit) None true.

Lemma run_all_history note cmds st : let '(ok, st') := run_all note cmds st in
  Applied (res st') = Applied (res st) /\
  if ok : bool then history st' = history st ++ cmds
  else exists k, (0 < k <= length cmds)%nat /\ history st' = history st ++ take k cmds.
Proof.
  revert st. induction cmds as [|c cmds IH]; intros st; cbn [run_all].
  - by rewrite app_nil_r.
  - destruct (sh note c st) as [[out failed] st1] eqn:E. unfold sh in E. simplify_eq.
    destruct failed.
    + split; [done|]. exists 1%nat. split; [cbn; lia|]. by destruct cmds.
    + specialize (IH (mkShell (history st ++ [c]) ((res st) <| Ran := Ran (res st) ++ [note c] |>))).
      destruct (run_all _ _ _) as [ok st']. destruct IH as [Ha Hh]. split; [by rewrite Ha|].
      destruct ok; [by rewrite Hh; cbn; rewrite <- app_assoc|]. destruct Hh as (k & Hk & ->).
      exists (S k). split; [cbn; lia|]. cbn. by rewrite <- app_assoc.
Qed.
Lemma revert_each_history note cfgs st : history (revert_each note cfgs st).2 = history st ++ map (fun c => "uci revert " +:+ c) cfgs
  /\ Applied (res (revert_each note cfgs st).2) = Applied (res st).
Proof.
  revert st. induction cfgs as [|c cfgs IH]; intros st; cbn [revert_each]; [by rewrite app_nil_r|].
  destruct (sh note _ st) as [[out failed] st1] eqn:E. unfold sh in E. simplify_eq.
  match goal with |- context [revert_each note cfgs ?s] => specialize (IH s); destruct (revert_each note cfgs s) as [errs st'] end.
  cbn in IH |- *. destruct IH as [-> ->]. by rewrite <- app_assoc.
Qed.
Definition reverting (cfgs : list string) : list string := map (fun c => "uci revert " +:+ c) cfgs.
Lemma revertConfigs_history note cfgs st : history (revertConfigs note cfgs st) = history st ++ reverting cfgs
  /\ Applied (res (revertConfigs note cfgs st)) = Applied (res st).
Proof.
  unfold revertConfigs. pose proof (revert_each_history note cfgs st) as H.
  destruct (revert_each note cfgs st) as [errs st']. cbn in *. exact H.
Qed.
Definition careful_end reads cmds readback reverts commit ready idle verified (out : option string * shell) : Prop :=
  careful reads cmds readback reverts commit ready idle verified (history out.2) out.1 (Applied (res out.2)).

(** The answers that let a write go ahead, and those that let it commit. *)
Definition quiet (h : list string) (cmd : string) : Prop := (answer h cmd).2 = false /\ trim (answer h cmd).1 = "".
Definition read_ok (h : list string) (cmd : string) (good : string -> Prop) : Prop := (answer h cmd).2 = false /\ good (answer h cmd).1.
Definition plan_reads : list string := ["uci changes"; "uci show network"].
Definition plan_ready (p : Plan) : Prop :=
  quiet [] "uci changes" /\ read_ok ["uci changes"] "uci show network" (fun out => PreflightAgainst p out = []).
Definition plan_verified (p : Plan) : Prop :=
  read_ok (plan_reads ++ Commands p) "uci show network" (fun out => VerifyAgainst p out = []).
Definition removal_reads : list string := ["uci changes network"; "uci changes firewall"; "uci show network"].
Definition removal_readback : list string := ["uci show network"; "uci show firewall"].
Definition removal_ready (p : RemovalPlan) : Prop :=
  quiet [] "uci changes network" /\ quiet ["uci changes network"] "uci changes firewall" /\
  read_ok ["uci changes network"; "uci changes firewall"] "uci show network"
    (fun out => exists cur, ParseUCIShow out !! rm_Iface p = Some cur /\ DiffInterface (rm_Expected p) cur = []).
Definition removal_verified (p : RemovalPlan) : Prop :=
  read_ok (removal_reads ++ rm_Commands p) "uci show network" (fun net =>
    read_ok (removal_reads ++ rm_Commands p ++ ["uci show network"]) "uci show firewall" (fun fw => rm_VerifyRemoved p net fw = [])).
Definition firewall_reads : list string := ["uci changes firewall"; "uci show firewall"].
Definition firewall_ready (good : string -> Prop) : Prop :=
  quiet [] "uci changes firewall" /\ read_ok ["uci changes firewall"] "uci show firewall" good.
Definition firewall_verified (cmds : list string) (verify : string -> list Difference) : Prop :=
  read_ok (firewall_reads ++ cmds) "uci show firewall" (fun out => verify out = []).

Lemma quiet_intro h cmd out : answer h cmd = (out, false) -> nonempty (trim out) = false -> quiet h cmd.
Proof. intros E H. unfold quiet. rewrite E. split; [done|]. cbn. unfold nonempty in H. by bool_facts. Qed.
Lemma read_intro h cmd out (good : string -> Prop) : answer h cmd = (out, false) -> good out -> read_ok h cmd good.
Proof. intros E H. unfold read_ok. by rewrite E. Qed.

(** Runs the commands in the goal: [Ha] that nothing is recorded as applied, [Hh] the history. *)
Ltac run_step st Ha Hh :=
  match goal with |- context [run_all ?note ?cmds ?s] =>
    pose proof (run_all_history note cmds s) as Hh; destruct (run_all note cmds s) as [[] st];
    destruct Hh as [Ha Hh];
    assert (Applied (res st) = false) as Ha' by (first [exact Ha|rewrite Ha; assumption]); clear Ha; rename Ha' into Ha;
    cbn [history negb fst snd] in Hh |- *
  end.
Lemma reverted_history note cfgs st h e reads cmds readback commit ready idle verified :
  history st = h -> Applied (res st) = false ->
  careful reads cmds readback (reverting cfgs) commit ready idle verified (h ++ reverting cfgs) (Some e) false ->
  careful_end reads cmds readback (reverting cfgs) commit ready idle verified (Some e, revertConfigs note cfgs st).
Proof.
  intros <- Ha H. unfold careful_end. cbn [fst snd]. destruct (revertConfigs_history note cfgs st) as [-> ->]. by rewrite Ha.
Qed.

Lemma plan_careful p : careful_end plan_reads (Commands p) ["uci show network"] (reverting (plan_configs p)) (Commit p)
  (plan_ready p) False (plan_verified p) (plan_Apply p).
Proof.
  unfold plan_Apply, sh. cbn [fresh_shell history res]. cbv zeta.
  destruct (answer [] "uci changes") as [changes f1] eqn:E1. destruct f1; [apply careful_refused; by exists ["uci show network"]|].
  destruct (nonempty (trim changes)) eqn:Eq; [apply careful_refused; by exists ["uci show network"]|]. cbn [history res app].
  destruct (answer ["uci changes"] _) as [before f2] eqn:E2. destruct f2; [by apply careful_refused|].
  destruct (PreflightAgainst p before) as [|d ds] eqn:Ep; [|by apply careful_refused].
  assert (plan_ready p) as Hready by (split; [by eapply quiet_intro|by eapply read_intro]).
  change (["uci changes"; "uci show network"]) with plan_reads. run_step st Ha Hh.
  2:{ destruct Hh as (k & Hk & Hh). eapply reverted_history; [exact Hh|done|]. rewrite <- app_assoc. by apply careful_turned_back. }
  rewrite Hh. destruct (answer (plan_reads ++ Commands p) _) as [after f3] eqn:E3.
  destruct f3; [eapply reverted_history; [done|done|]; cbn [history on_result]; rewrite <- !app_assoc; by apply careful_read_back|].
  destruct (VerifyAgainst p after) as [|d ds] eqn:Ev; [|eapply reverted_history; [done|done|]; cbn [history on_result]; rewrite <- !app_assoc; by apply careful_read_back].
  assert (plan_verified p) as Hver by (by eapply read_intro).
  run_step st2 Ha2 Hh2; unfold careful_end; cbn [fst snd finish on_result history res].
  - rewrite Hh2, <- !app_assoc. by apply careful_done.
  - destruct Hh2 as (k & Hk & Hh2). rewrite Ha2, Hh2, <- !app_assoc. by apply careful_halfway.
Qed.
Lemma removal_careful p : careful_end removal_reads (rm_Commands p) removal_readback (reverting ["network"; "firewall"]) (rm_Commit p)
  (removal_ready p) False (removal_verified p) (removal_Apply p).
Proof.
  unfold removal_Apply, nothing_staged, sh. cbn [fresh_shell history res]. cbv zeta.
  change ("uci changes " +:+ "network") with "uci changes network". change ("uci changes " +:+ "firewall") with "uci changes firewall".
  destruct (answer [] _) as [out1 f1] eqn:E1. destruct f1; [apply careful_refused; by eexists|].
  destruct (nonempty (trim out1)) eqn:Q1; [apply careful_refused; by eexists|]. cbn [history res app].
  destruct (answer ["uci changes network"] _) as [out2 f2] eqn:E2. destruct f2; [apply careful_refused; by eexists|].
  destruct (nonempty (trim out2)) eqn:Q2; [apply careful_refused; by eexists|]. cbn [history res app].
  destruct (answer ["uci changes network"; _] _) as [net f3] eqn:E3. destruct f3; [by apply careful_refused|].
  destruct (ParseUCIShow net !! rm_Iface p) as [cur|] eqn:Ec; [|by apply careful_refused].
  destruct (DiffInterface (rm_Expected p) cur) as [|d ds] eqn:Ep; [|by apply careful_refused].
  assert (removal_ready p) as Hready
    by (split; [by eapply quiet_intro|split; [by eapply quiet_intro|eapply read_intro; [exact E3|by exists cur]]]).
  change (["uci changes network"; "uci changes firewall"; "uci show network"]) with removal_reads. run_step st Ha Hh.
  2:{ destruct Hh as (k & Hk & Hh). eapply reverted_history; [exact Hh|done|]. rewrite <- app_assoc. by apply careful_turned_back. }
  rewrite Hh. destruct (answer (removal_reads ++ rm_Commands p) _) as [net2 f4] eqn:E4.
  destruct (answer ((removal_reads ++ rm_Commands p) ++ _) _) as [fw f5] eqn:E5.
  assert (forall st' e, history st' = ((removal_reads ++ rm_Commands p) ++ ["uci show network"]) ++ ["uci show firewall"] -> Applied (res st') = false ->
    careful_end removal_reads (rm_Commands p) removal_readback (reverting ["network"; "firewall"]) (rm_Commit p)
      (removal_ready p) False (removal_verified p) (Some e, revertConfigs as_is ["network"; "firewall"] st')) as Hback.
  { intros st' e H1 H2. eapply reverted_history; [exact H1|done|]. rewrite <- !app_assoc. by apply (careful_read_back _ _ removal_readback). }
  destruct (f4 || f5) eqn:Ef; [by apply Hback|]. apply orb_false_iff in Ef as [-> ->].
  destruct (rm_VerifyRemoved p net2 fw) as [|d ds] eqn:Ev; [|by apply Hback].
  assert (removal_verified p) as Hver.
  { eapply read_intro; [exact E4|]. eapply read_intro; [|exact Ev]. by rewrite app_assoc. }
  run_step st2 Ha2 Hh2; unfold careful_end; cbn [fst snd finish on_result history res].
  - rewrite Hh2, <- !app_assoc. by apply (careful_done _ _ removal_readback).
  - destruct Hh2 as (k & Hk & Hh2). rewrite Ha2, Hh2, <- !app_assoc. by apply (careful_halfway _ _ removal_readback).
Qed.
Lemma stage_careful cmds commit verify ready idle st : ready -> history st = firewall_reads -> Applied (res st) = false ->
  careful_end firewall_reads cmds ["uci show firewall"] (reverting ["firewall"]) commit ready idle (firewall_verified cmds verify)
    (stageVerifyCommit cmds commit verify st).
Proof.
  intros Hready H0 A0. unfold stageVerifyCommit, sh. cbv zeta. run_step st1 Ha Hh; rewrite H0 in Hh.
  2:{ destruct Hh as (k & Hk & Hh). eapply reverted_history; [exact Hh|done|]. rewrite <- app_assoc. by apply careful_turned_back. }
  rewrite Hh. destruct (answer (firewall_reads ++ cmds) _) as [after f] eqn:E.
  destruct f; [eapply reverted_history; [done|done|]; cbn [history on_result]; rewrite <- !app_assoc; by apply careful_read_back|].
  destruct (verify after) as [|d ds] eqn:Ev; [|eapply reverted_history; [done|done|]; cbn [history on_result]; rewrite <- !app_assoc; by apply careful_read_back].
  assert (firewall_verified cmds verify) as Hver by (by eapply read_intro).
  run_step st2 Ha2 Hh2; unfold careful_end; cbn [fst snd finish on_result history res].
  - rewrite Hh2, <- !app_assoc. by apply careful_done.
  - destruct Hh2 as (k & Hk & Hh2). rewrite Ha2, Hh2, <- !app_assoc. by apply careful_halfway.
Qed.
Lemma firewallUnstaged_spec : match firewallUnstaged fresh_shell with
  | (inl _, st) => history st `prefix_of` firewall_reads /\ Applied (res st) = false
  | (inr out, st) => history st = firewall_reads /\ Applied (res st) = false /\
      forall good : string -> Prop, good out -> firewall_ready good
  end.
Proof.
  unfold firewallUnstaged, sh. cbn [fresh_shell history res app].
  destruct (answer [] _) as [out f1] eqn:E1. destruct f1; [split; [by eexists|done]|].
  destruct (nonempty (trim out)) eqn:Q; [split; [by eexists|done]|].
  destruct (answer ["uci changes firewall"] _) as [fw f2] eqn:E2. destruct f2; [split; [by exists []|done]|].
  split; [done|]. split; [done|]. intros good Hg. split; [by eapply quiet_intro|by eapply read_intro].
Qed.
Lemma binding_careful b : careful_end firewall_reads (b_Commands b) ["uci show firewall"] (reverting ["firewall"]) (b_Commit b)
  (firewall_ready (fun out => b_PreflightAgainst b out = [])) (firewall_ready (fun out => b_VerifyAgainst b out = []))
  (firewall_verified (b_Commands b) (b_VerifyAgainst b)) (binding_Apply b).
Proof.
  unfold binding_Apply. pose proof firewallUnstaged_spec as H. destruct (firewallUnstaged fresh_shell) as [[err|before] st].
  { destruct H as [Hp Ha]. unfold careful_end. cbn. rewrite Ha. by apply careful_refused. }
  destruct H as (Hh & Ha & Hg).
  assert (forall e st', history st' = history st -> Applied (res st') = false -> careful_end firewall_reads (b_Commands b) ["uci show firewall"]
    (reverting ["firewall"]) (b_Commit b) (firewall_ready (fun out => b_PreflightAgainst b out = []))
    (firewall_ready (fun out => b_VerifyAgainst b out = [])) (firewall_verified (b_Commands b) (b_VerifyAgainst b)) (Some e, st')) as Hrefused.
  { intros e st' E1 E2. unfold careful_end. cbn. rewrite E1, E2, Hh. by apply careful_refused. }
  destruct (b_PreflightAgainst b before) as [|d ds] eqn:Ep; [|by apply Hrefused].
  destruct (b_VerifyAgainst b before) as [|d ds] eqn:Ev.
  - unfold careful_end. cbn. rewrite Hh. by apply careful_idle; apply Hg.
  - destruct (_ =? _)%nat; [by apply Hrefused|]. apply stage_careful; [by apply Hg|done|done].
Qed.
Lemma unbinding_careful u : careful_end firewall_reads (u_Commands u) ["uci show firewall"] (reverting ["firewall"]) (u_Commit u)
  (firewall_ready (fun out => u_VerifyRemoved u out = [] \/ u_Preflight u out = [])) (firewall_ready (fun out => u_VerifyRemoved u out = []))
  (firewall_verified (u_Commands u) (u_VerifyRemoved u)) (unbinding_Apply u).
Proof.
  unfold unbinding_Apply. pose proof firewallUnstaged_spec as H. destruct (firewallUnstaged fresh_shell) as [[err|before] st].
  { destruct H as [Hp Ha]. unfold careful_end. cbn. rewrite Ha. by apply careful_refused. }
  destruct H as (Hh & Ha & Hg).
  destruct (u_VerifyRemoved u before) as [|d ds] eqn:Ev.
  - unfold careful_end. cbn. rewrite Hh. apply careful_idle; apply Hg; [by left|done].
  - destruct (u_Preflight u before) as [|d' ds'] eqn:Ep.
    + apply stage_careful; [apply Hg; by right|done|done].
    + unfold careful_end. cbn. rewrite Hh, Ha. by apply careful_refused.
Qed.
End router.

(** C15: whatever the router answers, a tunnel, a removal, a device's binding and its unbinding are written
    the same way: nothing is run but reads until nothing else is staged and what is read of the router is
    as the plan was built against; on a failure or a difference before the commit every configuration the
    plan touches is reverted, and nothing is committed; a commit runs only after the whole plan was staged and
    what is read back is as intended. The answer is a success exactly when the whole commit ran, or there
    was nothing to do; a commit that fails halfway is reported and left as it is. What is read differs: of
    a tunnel the network configuration alone, though it may commit the firewall too (its zone is neither
    checked nor read back, [zone_slot_is_not_checked]); of a removal the network before and both after; of
    a binding and an unbinding the firewall. *)
Theorem router_writes_are_careful (answer : list string -> string -> string * bool) :
  (forall p, careful_end plan_reads (Commands p) ["uci show network"] (reverting (plan_configs p)) (Commit p)
     (plan_ready answer p) False (plan_verified answer p) (plan_Apply answer p)) /\
  (forall p, careful_end removal_reads (rm_Commands p) removal_readback (reverting ["network"; "firewall"]) (rm_Commit p)
     (removal_ready answer p) False (removal_verified answer p) (removal_Apply answer p)) /\
  (forall b, careful_end firewall_reads (b_Commands b) ["uci show firewall"] (reverting ["firewall"]) (b_Commit b)
     (firewall_ready answer (fun out => b_PreflightAgainst b out = [])) (firewall_ready answer (fun out => b_VerifyAgainst b out = []))
     (firewall_verified answer (b_Commands b) (b_VerifyAgainst b)) (binding_Apply answer b)) /\
  (forall u, careful_end firewall_reads (u_Commands u) ["uci show firewall"] (reverting ["firewall"]) (u_Commit u)
     (firewall_ready answer (fun out => u_VerifyRemoved u out = [] \/ u_Preflight u out = []))
     (firewall_ready answer (fun out => u_VerifyRemoved u out = []))
     (firewall_verified answer (u_Commands u) (u_VerifyRemoved u)) (unbinding_Apply answer u)).
Proof.
  split_and!; [apply plan_careful|apply removal_careful|apply binding_careful|apply unbinding_careful].
Qed.

(** ** What a plan stages *)
Definition staging (c : string) : Prop :=
  exists pre rest, c = pre +:+ rest /\
    pre ∈ ["uci set network."; "uci -q delete network."; "uci add_list network."; "uci add_list firewall."; "uci del_list firewall."].
Lemma staging_set path v : staging (set_cmd path v).
Proof. exists "uci set network.", (path +:+ "=" +:+ v). split; [done|set_solver]. Qed.
Lemma staging_delete path : staging (delete_cmd path).
Proof. exists "uci -q delete network.", path. split; [done|set_solver]. Qed.
Lemma staging_add path v : staging (add_cmd path v).
Proof. exists "uci add_list network.", (path +:+ "=" +:+ quoted v). split; [done|set_solver]. Qed.
Lemma staging_zone_add ref rest : staging ("uci add_list firewall." +:+ ref +:+ rest).
Proof. exists "uci add_list firewall.", (ref +:+ rest). split; [done|set_solver]. Qed.
Lemma staging_zone_del ref rest : staging ("uci del_list firewall." +:+ ref +:+ rest).
Proof. exists "uci del_list firewall.", (ref +:+ rest). split; [done|set_solver]. Qed.
Create HintDb staging.
#[local] Hint Resolve staging_set staging_delete staging_add staging_zone_add staging_zone_del : staging.
Lemma staging_if b c : staging c -> Forall staging (cmd_if b c).
Proof. destruct b; by repeat constructor. Qed.
Lemma staging_map {A} (f : A -> string) l : (forall x, staging (f x)) -> Forall staging (map f l).
Proof. intros H. apply Forall_map, Forall_true, H. Qed.
Lemma staging_render iface cur : Forall staging (RenderUCIFrom iface cur).
Proof.
  unfold RenderUCIFrom. rewrite !Forall_app. split_and!; try (apply staging_if; auto with staging); try (apply staging_map; auto with staging).
  - repeat constructor; auto with staging.
  - destruct (nonempty _); [|done]. apply staging_map. auto with staging.
  - apply Forall_concat, Forall_lookup. intros i x Hx. apply list_lookup_imap_Some in Hx as (p & _ & ->).
    unfold render_peer. rewrite !Forall_app.
    split_and!; try (apply staging_if; auto with staging); try (apply staging_map; auto with staging); repeat constructor; auto with staging.
Qed.
Lemma staging_refs name refs : Forall staging (RemoveUCIRefs name refs).
Proof.
  unfold RemoveUCIRefs. rewrite Forall_app. split; [|repeat constructor; auto with staging].
  apply Forall_forall. intros c Hc. apply list_elem_of_omap in Hc as (r & _ & E). destruct (bool_decide _); simplify_eq. auto with staging.
Qed.
Lemma Forall_removelast {A} (P : A -> Prop) l : Forall P l -> Forall P (removelast l).
Proof. induction 1 as [|x l Hx Hl IH]; [done|]. cbn. destruct l; [done|]. by constructor. Qed.

(** What a plan runs before it is read back can only stage: every command of a tunnel's plan, of a
    removal and of a device's binding or unbinding sets, deletes or lists an option of the network or the
    firewall configuration. The commit is what takes effect, and it is apart. *)
Theorem plans_only_stage intended protos zoneName uciNetwork uciFirewall name :
  match BuildPlanFor intended protos zoneName uciNetwork uciFirewall with
  | inr p => Forall staging (Commands p) /\ Commit p = CommitCmds ++ (if nonempty zoneName then FirewallCommitCmds else [])
  | inl _ => True
  end /\
  match BuildRemovalPlan name uciNetwork uciFirewall with inr p => Forall staging (rm_Commands p) | inl _ => True end /\
  match BuildDeviceBinding name zoneName uciFirewall with
  | inr b => Forall staging (b_Commands b) /\ b_Commit b = FirewallCommitCmds
  | inl _ => True
  end /\
  Forall staging (u_Commands (BuildDeviceUnbinding name uciFirewall)).
Proof.
  split_and!.
  - unfold BuildPlanFor. destruct (negb (validUCIName _)); [done|]. destruct (_ =? 0)%nat; [done|].
    destruct (resolveProto _ _) as [|[resolved fallback]]; [by cbn|].
    cbn [mbind Faults.err_bind]. cbv zeta. destruct (negb _ && _); [done|].
    destruct (protocol_change _ _ _ _ _) as [orphans cleared] eqn:Ec.
    assert (Forall staging cleared) as Hc.
    { unfold protocol_change in Ec. repeat case_match; simplify_eq; try done; rewrite Forall_app;
      (split; [apply Forall_removelast, staging_refs|]; apply staging_map; auto with staging). }
    assert (forall i e drop, Forall staging (cleared ++ RenderUCIFrom i e ++ DeleteOptionCmds (if_Name intended) drop)) as Hall.
    { intros i e drop. rewrite !Forall_app. split_and!; [done|apply staging_render|apply staging_map; auto with staging]. }
    destruct (nonempty zoneName); [destruct (FindZone _ _); [|by cbn]|];
      cbn [mbind Faults.err_bind]; destruct (forallb _ _); try done; cbn [Commands Commit].
    + split; [|done]. apply Forall_app. split; [apply Hall|]. unfold ZoneAttachCmds. case_match; repeat constructor; auto with staging.
    + split; [apply Hall|done].
  - unfold BuildRemovalPlan. destruct (bool_decide _); [done|]. destruct (_ !! _); [|done]. cbn. apply Forall_app. split; [apply staging_refs|].
    apply Forall_concat, Forall_map, Forall_true. intros z. unfold ZoneDetachCmds. case_match; repeat constructor; auto with staging.
  - unfold BuildDeviceBinding. destruct (negb _); [done|]. destruct (bool_decide _); [done|]. destruct (FindZone _ _); [|done]. split; [|done]. apply staging_if. auto with staging.
  - apply staging_map. auto with staging.
Qed.

(** The report of a write keeps the private key out, and the header protection key in. *)
Example scrub_keeps_the_header_key :
  scrubUCI "uci set network.wr_1.private_key='aPrivateKey'" = "uci set network.wr_1.private_key=(present, 11 chars)" /\
  scrubUCI "uci set network.wr_1.awg_header_protection_key='aSharedSecret'" = "uci set network.wr_1.awg_header_protection_key='aSharedSecret'".
Proof. vm_compute. done. Qed.
(** A tunnel that joins the zone "vpn", in the slot it had when the plan was built: whatever the firewall
    is by then, the tunnel is put into the zone of that slot, and the answer is a success. *)
Definition slots : string := "firewall.@zone[0]=zone
firewall.@zone[0].name='wan'
firewall.@zone[1]=zone
firewall.@zone[1].name='vpn'
".
Definition joining : string + Plan :=
  BuildPlanFor (hand_made_tunnel 1280 "keyA") (Some {["amneziawg" := true]}) "vpn" (hand_made "1280" "keyA") slots.
Definition router_by_then (firewall : string) (_ : list string) (cmd : string) : string * bool :=
  if bool_decide (cmd = "uci show network") then (hand_made "1280" "keyA", false)
  else if bool_decide (cmd = "uci show firewall") then (firewall, false) else ("", false).
Example zone_slot_is_not_checked firewall :
  match joining with
  | inr p =>
      let '(err, st) := plan_Apply (router_by_then firewall) p in
      err = None /\ Applied (res st) = true /\ existsb (String.eqb "uci add_list firewall.@zone[1].network='awg0'") (history st) = true
  | inl _ => False
  end.
Proof. vm_compute. done. Qed.
