(* ===== verification/NativePlan.v ===== *)
(** * Who carries a connection: the native plan

    Models [src/internal/nativeplan]: [Compile] for OpenWrt with the lanes it decides by ([plan.go]), the
    decisions it makes for KeeneticOS, and [Reconcile] ([reconcile.go]); the capability gate it asks
    ([src/internal/platform]: [Get], [Usable], [combine], [NativeOperationCapabilityID]) and what the server reads
    of the previous plan ([src/internal/server/applynative.go]). The KeeneticOS compiler and the two
    readers of its plan that [Reconcile] calls are arguments; so is [Validate]'s protocol check. Messages
    are shortened. *)
From S2P Require Import Prelude GoStrings GoText Netip Util Model Dns Validate ValidateSpec Json PbrLists GoCodec.
From S2P Require Import GenRoute Faults EndpointLoads Awg Uci Netvpn.
Local Open Scope Z_scope.

(** ** Capabilities *)
Definition CapSupported : string := "supported".
Definition CapUnknown : string := "unknown".
Definition VerdictYes : string := "yes".
Definition VerdictNo : string := "no".
Definition VerdictUnknown : string := "unknown".
Definition ReasonPlatformUnsupported : string := "PLATFORM_UNSUPPORTED".
Definition ReasonBackendNotWired : string := "BACKEND_NOT_WIRED".
Definition ReasonMissingFirmwareComp : string := "MISSING_FIRMWARE_COMPONENT".
Definition ReasonMissingKernelModule : string := "MISSING_KERNEL_MODULE".
Definition ReasonProbeFailed : string := "PROBE_FAILED".
Definition ReasonOperatorChoice : string := "OPERATOR_CHOICE".
Record Capability := mkCapability { cp_State : string; Reason : string; Detail : string; Remedy : string }.
(** [CapState.Usable] *)
Definition state_Usable (s : string) : bool := bool_decide (s = CapSupported).
Definition combine (host wayhop runtime reason : string) : string :=
  if bool_decide (host = VerdictNo) then "unsupported_platform"
  else if bool_decide (wayhop = VerdictNo) then "unsupported_platform"
  else if bool_decide (runtime = VerdictNo) then
    if bool_decide (reason ∈ ["MISSING_BINARY"; ReasonMissingKernelModule; ReasonMissingFirmwareComp; "BINARY_TOO_OLD"])
    then "available_after_install" else "blocked_by_dependency"
  else if bool_decide (host = VerdictUnknown) || bool_decide (wayhop = VerdictUnknown) || bool_decide (runtime = VerdictUnknown)
  then CapUnknown
  else CapSupported.
Definition CapabilitySet : Type := gmap string Capability.
Definition unevaluated : Capability :=
  mkCapability CapUnknown ReasonProbeFailed "this build does not evaluate that capability, so its support cannot be confirmed" "".
Definition Get (s : CapabilitySet) (id : string) : Capability := default unevaluated (s !! id).
Definition usable (s : CapabilitySet) (id : string) : bool := state_Usable (cp_State (Get s id)).
Definition requireCapability (s : CapabilitySet) (id : string) : option string :=
  if usable s id then None else Some "requires unavailable capability".
Definition CapEngineSingbox : string := "engine.singbox".
Definition CapProtocolPrefix : string := "protocol.".
Definition CapNativeAWGGen2 : string := "native.amneziawg.gen2".

(** ** Plans *)
Definition PathNativeCreate : string := "native_create".
Definition PathNativeManage : string := "native_manage".
Definition PathNativeUpdate : string := "native_update".
Definition PathNativeAdopt : string := "native_adopt".
Definition PathCompatibility : string := "compatibility_addon".
Definition PathExternal : string := "external_binding".
Definition PathEnginePlugin : string := "engine_plugin".
Definition OpenWrt : string := "openwrt".
Definition Keenetic : string := "keenetic".
Definition nativeManagedPath (path : string) : bool := bool_decide (path ∈ [PathNativeCreate; PathNativeManage; PathNativeUpdate]).
Record EndpointDecision := mkDecision {
  EndpointID : string; Protocol : string; d_Path : string; Interface : string; Cap : string; RollbackCap : string
}.
#[export] Instance eta_decision : Eta EndpointDecision := fun d =>
  mkDecision (EndpointID d) (Protocol d) (d_Path d) (Interface d) (Cap d) (RollbackCap d).
Record UserspaceEndpoint := mkUserspace { us_Device : string; us_Reason : string; us_Code : string; us_Remedy : string }.
#[export] Instance eta_userspace : Eta UserspaceEndpoint := fun u => mkUserspace (us_Device u) (us_Reason u) (us_Code u) (us_Remedy u).
Record MoveError := mkMove { mv_EndpointID : string; mv_Device : string; ToNative : bool; Why : string }.
Inductive plan_error := Refused (message : string) | Move (e : MoveError).
Definition IsExternal (e : Endpoint) : bool := bool_decide (ep_Owner e ∈ ["external"; "imported"; "system"; "third-party"; "unknown"]).
(** A slice sorted by a key of its elements, each key once. *)
Fixpoint insert_by {A} (key : A -> string) (x : A) (l : list A) : list A :=
  match l with
  | [] => [x]
  | y :: l' => if String.ltb (key y) (key x) then y :: insert_by key x l' else x :: l
  end.
Definition sort_by {A} (key : A -> string) (l : list A) : list A := foldr (insert_by key) [] l.

Section plan.
Context (unicode_lower unicode_upper : bytes -> bytes) (FormatFloat : f64 -> string) (proto_problem : Endpoint -> option string).
(** KeeneticOS's own plan, what tears it down, and the priorities it raised that the next one does not. *)
Context {KPlan : Type} (TeardownCommands : KPlan -> list string) (StaleGlobalPriorityBlocks : KPlan -> KPlan -> list (list string)).

Record NativePlan := mkNative {
  np_Platform : string; Decisions : list EndpointDecision; np_OpenWrt : list Netvpn.Plan; OpenWrtBindings : list DeviceBinding;
  np_Keenetic : option KPlan
}.
Record HostFacts := mkFacts {
  hf_Platform : string; Capabilities : CapabilitySet; NetworkUCI : string; FirewallUCI : string; hf_Protos : RouterProtos;
  FirewallZone : string; AdoptInterfaces : gmap string string; OwnedInterfaces : gmap string string;
  PluginDevices : gmap string string; AWGKernel : Z
}.
Definition NativeOperationCapabilityID (protocol operation : string) : string :=
  "native.operation." +:+ unstr (ToLower unicode_lower (TrimSpace (str protocol))) +:+ "." +:+ operation.

(** ** What the native writers carry *)
Definition keenetic_AWGGeneration : Z := Gen2.
Definition NativeAWGGenerationFor (p : string) (kernel : Z) : Z :=
  if bool_decide (p = Keenetic) then keenetic_AWGGeneration
  else if bool_decide (p = OpenWrt) then AWGWriterGeneration kernel
  else GenNone.
Definition NativeAWGGeneration (p : string) : Z := NativeAWGGenerationFor p GenNone.
Definition beyondGeneration (e : Endpoint) (generation : Z) : list string :=
  if negb (bool_decide (ep_Protocol e = "amneziawg")) then [] else Beyond unicode_lower (ep_Params e) generation.
Definition BeyondNativeFor (e : Endpoint) (p : string) (kernel : Z) : list string :=
  if negb (bool_decide (ep_Protocol e = "amneziawg")) then [] else Beyond unicode_lower (ep_Params e) (NativeAWGGenerationFor p kernel).
Definition BeyondNative (e : Endpoint) (p : string) : list string := BeyondNativeFor e p GenNone.
Definition KeeneticAWGGeneration (s : CapabilitySet) : Z :=
  if bool_decide (Reason (Get s CapNativeAWGGen2) = ReasonPlatformUnsupported) then Gen1 else keenetic_AWGGeneration.
Definition nativeAWGUsable (e : Endpoint) (s : CapabilitySet) : bool :=
  forallb (fun op => usable s (NativeOperationCapabilityID (ep_Protocol e) op)) ["create"; "remove"].
Definition NativeAWGAvailable (s : CapabilitySet) : bool := nativeAWGUsable (zero_endpoint <| ep_Protocol := "amneziawg" |>) s.
Definition KernelModuleWords (kernel : Z) : string :=
  if kernel =? GenNone then "no AmneziaWG kernel module of generation 3.0 or newer is known on this router"
  else "the router's AmneziaWG kernel module is generation " +:+ gen_String kernel.
Definition join_comma (l : list string) : string := match l with [] => "" | w :: l => foldl (fun acc w => acc +:+ ", " +:+ w) w l end.
Definition awgChosenReason (whose : string) (native : Z) : string :=
  if UserspaceGeneration <=? native then
    "it is set to run on amneziawg-go rather than on " +:+ whose +:+ " own AmneziaWG, which is generation " +:+ gen_String native +:+ " too"
  else "it is set to run on amneziawg-go, the newest AmneziaWG, rather than on " +:+ whose +:+ " own AmneziaWG".

(** ** The lane of WayHop's own engine *)
Definition openwrt_lane (s : CapabilitySet) (kernel : Z) (e : Endpoint) : option UserspaceEndpoint :=
  if negb (ep_Enabled e) || negb (bool_decide (ep_Engine e = EngineAmneziaWG)) || negb (OwnsResource e) then None
  else if negb (nativeAWGUsable e s) then None
  else if ep_AWGUserspace e then
    Some (mkUserspace (AWGIface (ep_ID e)) (awgChosenReason "OpenWrt's" (NativeAWGGenerationFor OpenWrt kernel)) ReasonOperatorChoice
            "Set the connection's engine back to Automatic to run it on OpenWrt's own AmneziaWG.")
  else
    let settings := BeyondNativeFor e OpenWrt kernel in
    match settings with
    | [] => None
    | _ =>
        let need := gen_String (Need unicode_lower (ep_Params e)) in
        Some (mkUserspace (AWGIface (ep_ID e))
                ("it uses AmneziaWG " +:+ need +:+ " settings (" +:+ join_comma settings +:+
                 ") that OpenWrt's own AmneziaWG cannot carry: " +:+ KernelModuleWords kernel)
                ReasonMissingKernelModule
                ("Install AmneziaWG " +:+ need +:+ " or newer for OpenWrt (kmod-amneziawg with amneziawg-tools) " +:+
                 "to run it as the router's own interface. Moving it there from WayHop's engine then takes two Applies: " +:+
                 "switch the connection off and apply, then switch it on and apply again."))
    end.
Definition lanes (lane : Endpoint -> option UserspaceEndpoint) (p : Profile) : gmap string UserspaceEndpoint :=
  foldl (fun out e => match lane e with Some u => <[ep_ID e := u]> out | None => out end) ∅ (Endpoints p).
Definition OpenWrtUserspaceFor (p : Profile) (s : CapabilitySet) (kernel : Z) : gmap string UserspaceEndpoint := lanes (openwrt_lane s kernel) p.
(** The first operation NDM cannot do, if the answer is a definite one. *)
Definition ndm_answer (s : CapabilitySet) (e : Endpoint) : option UserspaceEndpoint :=
  match List.find (fun op => negb (usable s (NativeOperationCapabilityID (ep_Protocol e) op))) ["create"; "remove"] with
  | None => None
  | Some op =>
      let c := Get s (NativeOperationCapabilityID (ep_Protocol e) op) in
      if bool_decide (Reason c ∈ [ReasonPlatformUnsupported; ReasonMissingFirmwareComp; ReasonBackendNotWired]) then
        Some (mkUserspace "" ("KeeneticOS cannot run it natively (" +:+ (if nonempty (Detail c) then Detail c else Reason c) +:+ ")") (Reason c) (Remedy c))
      else None
  end.
Definition keeneticAutomaticReason (s : CapabilitySet) (e : Endpoint) : option UserspaceEndpoint :=
  match beyondGeneration e (KeeneticAWGGeneration s) with
  | [] => ndm_answer s e
  | settings =>
      let uses := "it uses AmneziaWG " +:+ gen_String (Need unicode_lower (ep_Params e)) +:+ " settings (" +:+ join_comma settings +:+ ")" in
      match beyondGeneration e keenetic_AWGGeneration with
      | [] => let firmware := Get s CapNativeAWGGen2 in
              Some (mkUserspace "" (uses +:+ ": " +:+ Detail firmware) ReasonPlatformUnsupported (Remedy firmware))
      | _ => Some (mkUserspace "" (uses +:+ " that KeeneticOS's own AmneziaWG cannot carry") ReasonPlatformUnsupported "")
      end
  end.
Definition keeneticUserspaceReason (s : CapabilitySet) (e : Endpoint) : option UserspaceEndpoint :=
  if negb (ep_Enabled e) || negb (bool_decide (ep_Engine e = EngineAmneziaWG)) || negb (OwnsResource e) then None
  else
    match ProtoForModel (ep_Protocol e) with
    | None => None
    | Some _ =>
        if ep_AWGUserspace e then
          match keeneticAutomaticReason s e with
          | Some u => Some (mkUserspace (us_Device u)
                        ("it is set to run on amneziawg-go, where Automatic would run it too: " +:+ us_Reason u) ReasonOperatorChoice
                        (if nonempty (us_Remedy u) then us_Remedy u +:+ " Then set the connection's engine back to Automatic." else us_Remedy u))
          | None => Some (mkUserspace "" (awgChosenReason "KeeneticOS's" (KeeneticAWGGeneration s)) ReasonOperatorChoice
                        "Set the connection's engine back to Automatic to run it on KeeneticOS's own AmneziaWG.")
          end
        else keeneticAutomaticReason s e
    end.
Definition KeeneticUserspace (p : Profile) (s : CapabilitySet) : gmap string UserspaceEndpoint :=
  lanes (fun e => (fun u => u <| us_Device := AWGIface (ep_ID e) |>) <$> keeneticUserspaceReason s e) p.
Definition UserspaceFor (profile : Profile) (p : string) (s : CapabilitySet) (kernel : Z) : gmap string UserspaceEndpoint :=
  if bool_decide (p = Keenetic) then KeeneticUserspace profile s
  else if bool_decide (p = OpenWrt) then OpenWrtUserspaceFor profile s kernel
  else ∅.
Definition UserspaceLane (e : Endpoint) (p : string) (s : CapabilitySet) (kernel : Z) : option UserspaceEndpoint :=
  UserspaceFor (zero_profile <| Endpoints := [e] |>) p s kernel !! ep_ID e.
Definition OpenWrtMoveReason (e : Endpoint) (kernel : Z) : string :=
  if negb (bool_decide (ep_Protocol e = "amneziawg")) || ep_AWGUserspace e || (length (BeyondNative e OpenWrt) =? 0)%nat ||
     negb (length (BeyondNativeFor e OpenWrt kernel) =? 0)%nat then ""
  else "the router's AmneziaWG kernel module is generation " +:+ gen_String kernel +:+
       ", so OpenWrt's own AmneziaWG now carries its AmneziaWG " +:+ gen_String (Need unicode_lower (ep_Params e)) +:+ " settings".

(** ** Decisions *)
Definition lift_refusal {A} (m : string + A) : plan_error + A := match m with inl err => inl (Refused err) | inr a => inr a end.
Definition require (s : CapabilitySet) (id : string) : plan_error + unit :=
  match requireCapability s id with Some err => inl (Refused err) | None => inr tt end.
Definition reserveInterface (claimed : gmap string string) (name endpointID : string) : plan_error + gmap string string :=
  match ValidInterfaceName name with
  | Some _ => inl (Refused "has no safe captured interface")
  | None =>
      let previous := default "" (claimed !! name) in
      if nonempty previous && negb (bool_decide (previous = endpointID)) then inl (Refused "two endpoints claim the same interface")
      else inr (<[name := endpointID]> claimed)
  end.
Definition compatibilityDecision (s : CapabilitySet) (e : Endpoint) : plan_error + EndpointDecision :=
  if bool_decide (ep_Engine e = EngineExternal) || IsExternal e then inr (mkDecision (ep_ID e) (ep_Protocol e) PathExternal "" "" "")
  else
    protocol ← (if bool_decide (ep_Engine e = EngineSingBox) then inr (ep_Protocol e)
                else if bool_decide (ep_Engine e = EngineByeDPI) then inr "socks"
                else inl (Refused "has no native path and its engine is not a supported addon"));
    _ ← require s CapEngineSingbox;
    _ ← require s (CapProtocolPrefix +:+ protocol);
    inr (mkDecision (ep_ID e) (ep_Protocol e) PathCompatibility "" (CapProtocolPrefix +:+ protocol) "").
Definition adoptDecision (facts : HostFacts) (e : Endpoint) : plan_error + EndpointDecision :=
  let legacy := bool_decide (hf_Platform facts = OpenWrt) && bool_decide (ep_Engine e = EngineExternal) && OwnsResource e in
  if negb (IsExternal e) && negb legacy then inl (Refused "requires explicit external ownership before adoption")
  else
    let name := default "" (AdoptInterfaces facts !! ep_ID e) in
    match ValidInterfaceName name with
    | Some _ => inl (Refused "has no captured adoptable interface")
    | None =>
        let capability := NativeOperationCapabilityID (ep_Protocol e) "adopt" in
        _ ← require (Capabilities facts) capability;
        inr (mkDecision (ep_ID e) (ep_Protocol e) PathNativeAdopt name capability "")
    end.
Definition compileOpenWrtUserspaceEndpoint (facts : HostFacts) (existing : gmap string AWGInterface) (e : Endpoint) (lane : UserspaceEndpoint)
  : plan_error + (EndpointDecision * DeviceBinding) :=
  if bool_decide (is_Some (existing !! us_Device lane)) || nonempty (default "" (OwnedInterfaces facts !! ep_ID e)) then
    inl (Move (mkMove (ep_ID e) (us_Device lane) false ""))
  else if bool_decide (FirewallZone facts = "") then inl (Refused "requires an explicitly reviewed OpenWrt firewall zone")
  else
    binding ← lift_refusal (BuildDeviceBinding (us_Device lane) (FirewallZone facts) (FirewallUCI facts));
    inr (mkDecision (ep_ID e) (ep_Protocol e) PathEnginePlugin (us_Device lane) "" "", binding).
Definition compileOpenWrtNativeEndpoint (facts : HostFacts) (existing : gmap string AWGInterface) (e : Endpoint) (protocol : string)
  : plan_error + (EndpointDecision * Netvpn.Plan) :=
  if negb (OwnsResource e) then inl (Refused "ownership is not writable")
  else
    let name := InterfaceName e in
    let device := default "" (PluginDevices facts !! ep_ID e) in
    if nonempty device then inl (Move (mkMove (ep_ID e) device true (OpenWrtMoveReason e (AWGKernel facts))))
    else
      '(path, operation) ←
        (if bool_decide (is_Some (existing !! name)) then
           if bool_decide (default "" (OwnedInterfaces facts !! ep_ID e) = name) then inr (PathNativeUpdate, "update")
           else inl (Refused "cannot update existing interface without authenticated ownership")
         else inr (PathNativeCreate, "create"));
      let capability := NativeOperationCapabilityID (ep_Protocol e) operation in
      _ ← require (Capabilities facts) capability;
      let remove := NativeOperationCapabilityID (ep_Protocol e) "remove" in
      _ ← require (Capabilities facts) remove;
      intended ← lift_refusal (InterfaceFromEndpointFor unicode_lower FormatFloat e name protocol (AWGKernel facts));
      if bool_decide (FirewallZone facts = "") then inl (Refused "requires an explicitly reviewed OpenWrt firewall zone")
      else
        plan ← lift_refusal (BuildPlanFor intended (hf_Protos facts) (FirewallZone facts) (NetworkUCI facts) (FirewallUCI facts));
        inr (mkDecision (ep_ID e) (ep_Protocol e) path name capability remove, plan).

(** ** [Compile] *)
(** What the loop has so far: the interfaces claimed, and the plan's three lists. *)
Record progress := mkProgress {
  claimed : gmap string string; decided : list EndpointDecision; plans : list Netvpn.Plan; bindings : list DeviceBinding
}.
Definition decide_on (st : progress) (claimed' : gmap string string) (d : EndpointDecision) : progress :=
  mkProgress claimed' (decided st ++ [d]) (plans st) (bindings st).
Definition compile_endpoint (facts : HostFacts) (userspace : gmap string UserspaceEndpoint) (existing : gmap string AWGInterface)
  (st : progress) (e : Endpoint) : plan_error + progress :=
  if negb (ep_Enabled e) then inr st
  else
    let core := match ProtoForModel (ep_Protocol e) with
                | None => None
                | Some p => if bool_decide (ep_Engine e = EngineByeDPI) then None else Some p end in
    match core with
    | None =>
        decision ← compatibilityDecision (Capabilities facts) e;
        if bool_decide (d_Path decision = PathExternal) then
          let decision := decision <| Interface := default "" (AdoptInterfaces facts !! ep_ID e) |> in
          c ← reserveInterface (claimed st) (Interface decision) (ep_ID e);
          inr (decide_on st c decision)
        else inr (decide_on st (claimed st) decision)
    | Some protocol =>
        if IsExternal e || bool_decide (ep_Engine e = EngineExternal) then
          decision ← adoptDecision facts e;
          c ← reserveInterface (claimed st) (Interface decision) (ep_ID e);
          inr (decide_on st c decision)
        else if negb (bool_decide (ep_Engine e ∈ [EngineAmneziaWG; EngineSingBox])) then
          inl (Refused "engine cannot materialize a native WireGuard-family interface")
        else
          match userspace !! ep_ID e with
          | Some lane =>
              '(decision, binding) ← compileOpenWrtUserspaceEndpoint facts existing e lane;
              c ← reserveInterface (claimed st) (Interface decision) (ep_ID e);
              inr (mkProgress c (decided st ++ [decision]) (plans st) (bindings st ++ [binding]))
          | None =>
              let attempt :=
                '(decision, plan) ← compileOpenWrtNativeEndpoint facts existing e protocol;
                c ← reserveInterface (claimed st) (Interface decision) (ep_ID e);
                inr (mkProgress c (decided st ++ [decision]) (plans st ++ [plan]) (bindings st)) in
              match attempt with
              | inr st' => inr st'
              | inl err =>
                  if negb (bool_decide (ep_Engine e = EngineSingBox)) then inl err
                  else
                    decision ← compatibilityDecision (Capabilities facts) e;
                    inr (decide_on st (claimed st) decision)
              end
          end
    end.
Definition compileOpenWrt (profile : Profile) (facts : HostFacts) : plan_error + NativePlan :=
  let userspace := OpenWrtUserspaceFor profile (Capabilities facts) (AWGKernel facts) in
  st ← each (compile_endpoint facts userspace (ParseUCIShow (NetworkUCI facts))) (mkProgress ∅ [] [] []) (Endpoints profile);
  inr (mkNative OpenWrt (sort_by EndpointID (decided st)) (sort_by Iface (plans st)) (sort_by b_Device (bindings st)) None).
Definition Compile (compileKeenetic : Profile -> HostFacts -> plan_error + NativePlan) (profile : option Profile) (facts : HostFacts)
  : plan_error + NativePlan :=
  match profile with
  | None => inl (Refused "profile is nil")
  | Some profile =>
      match Validate unicode_lower unicode_upper proto_problem profile with
      | Some _ => inl (Refused "invalid profile")
      | None =>
          if bool_decide (hf_Platform facts = OpenWrt) then compileOpenWrt profile facts
          else if bool_decide (hf_Platform facts = Keenetic) then compileKeenetic profile facts
          else inl (Refused "not a supported router backend")
      end
  end.
(** The loop of [compileKeenetic], before its plan is compiled. *)
Definition keenetic_decision (facts : HostFacts) (userspace : gmap string UserspaceEndpoint) (e : Endpoint)
  : plan_error + list EndpointDecision :=
  if negb (ep_Enabled e) then inr []
  else if bool_decide (ep_Engine e = EngineByeDPI) then inl (Refused "ByeDPI is not available on KeeneticOS yet")
  else
    match ProtoForModel (ep_Protocol e) with
    | None => decision ← compatibilityDecision (Capabilities facts) e; inr [decision]
    | Some _ =>
        if IsExternal e || bool_decide (ep_Engine e = EngineExternal) then decision ← adoptDecision facts e; inr [decision]
        else if negb (bool_decide (ep_Engine e ∈ [EngineAmneziaWG; EngineSingBox])) then
          inl (Refused "engine cannot materialize a native WireGuard-family interface")
        else if negb (OwnsResource e) then inl (Refused "ownership is not writable")
        else
          let device := default "" (us_Device <$> userspace !! ep_ID e) in
          if nonempty device then inr [mkDecision (ep_ID e) (ep_Protocol e) PathEnginePlugin device "" ""]
          else
            let capability := NativeOperationCapabilityID (ep_Protocol e) "create" in
            _ ← require (Capabilities facts) capability;
            let remove := NativeOperationCapabilityID (ep_Protocol e) "remove" in
            _ ← require (Capabilities facts) remove;
            inr [mkDecision (ep_ID e) (ep_Protocol e) PathNativeCreate "" capability remove]
    end.
Definition keenetic_decisions (profile : Profile) (facts : HostFacts) : plan_error + list EndpointDecision :=
  each (fun ds e => d ← keenetic_decision facts (KeeneticUserspace profile (Capabilities facts)) e; inr (ds ++ d)) [] (Endpoints profile).

(** ** What the previous plan owned *)
Definition owned_step (counts : EndpointDecision -> bool) (m : gmap string string) (d : EndpointDecision) : gmap string string :=
  if counts d && nonempty (EndpointID d) && nonempty (Interface d) then <[EndpointID d := Interface d]> m else m.
Definition owned_by (counts : EndpointDecision -> bool) (previous : option NativePlan) : gmap string string :=
  match previous with None => ∅ | Some p => foldl (owned_step counts) ∅ (Decisions p) end.
Definition managed (d : EndpointDecision) : bool := nativeManagedPath (d_Path d).
Definition nativeOwnershipFrom (previous : option NativePlan) : gmap string string := owned_by managed previous.
Definition nativePluginDevicesFrom (previous : option NativePlan) : gmap string string :=
  owned_by (fun d => bool_decide (d_Path d = PathEnginePlugin)) previous.

(** ** [Reconcile] *)
Record Reconciliation := mkReconciliation {
  rc_Platform : string; Target : NativePlan; OpenWrtRemovals : list RemovalPlan; OpenWrtUnbindings : list DeviceUnbinding;
  KeeneticTeardown : list string; KeeneticPriorityRestore : list (list string)
}.
Definition validateManagedTargetOwnership (previous : option NativePlan) (target : NativePlan) : string + unit :=
  let owned := owned_by managed previous in
  for_all (fun d =>
    refuse (bool_decide (d_Path d ∈ [PathNativeManage; PathNativeUpdate]) &&
            (bool_decide (EndpointID d = "") || bool_decide (Interface d = "") ||
             negb (bool_decide (default "" (owned !! EndpointID d) = Interface d))))
      "cannot manage the interface without matching authenticated ownership") (Decisions target).
Definition still_listed (firewallUCI name : string) : bool :=
  existsb (fun z => bool_decide (name ∈ Networks z)) (ParseFirewallZones firewallUCI).
Definition reconcile_decision (s : CapabilitySet) (networkUCI firewallUCI : string) (kept : list string)
  (removals : list RemovalPlan) (d : EndpointDecision) : string + list RemovalPlan :=
  if negb (managed d) || bool_decide (Interface d ∈ kept) then inr removals
  else if bool_decide (RollbackCap d = "") then inl "baseline endpoint has no authenticated remove authority"
  else if negb (usable s (RollbackCap d)) then inl "current remove authority"
  else if negb (bool_decide (is_Some (ParseUCIShow networkUCI !! Interface d))) then
    if still_listed firewallUCI (Interface d) then inl "absent interface remains in a firewall zone" else inr removals
  else removal ← BuildRemovalPlan (Interface d) networkUCI firewallUCI; inr (removals ++ [removal]).
Definition managed_interfaces (p : NativePlan) : list string := omap (fun d => if managed d then Some (Interface d) else None) (Decisions p).
Definition reconcileOpenWrt (previous target : NativePlan) (s : CapabilitySet) (networkUCI firewallUCI : string) : string + list RemovalPlan :=
  if bool_decide (is_Some (np_Keenetic previous)) || bool_decide (is_Some (np_Keenetic target)) then inl "OpenWrt plan contains Keenetic artifacts"
  else
    removals ← each (reconcile_decision s networkUCI firewallUCI (managed_interfaces target)) [] (Decisions previous);
    inr (sort_by rm_Iface removals).
Definition reconcileOpenWrtBindings (previous target : NativePlan) (firewallUCI : string) : list DeviceUnbinding :=
  let kept := b_Device <$> OpenWrtBindings target in
  sort_by u_Device (omap (fun b =>
    if bool_decide (b_Device b ∈ kept) then None
    else let u := BuildDeviceUnbinding (b_Device b) firewallUCI in
         if (length (u_Commands u) =? 0)%nat then None else Some u) (OpenWrtBindings previous)).
Definition Reconcile (previous target : option NativePlan) (s : CapabilitySet) (networkUCI firewallUCI : string) : string + Reconciliation :=
  match target with
  | None => inl "target platform is unavailable"
  | Some target =>
      if negb (bool_decide (np_Platform target ∈ [OpenWrt; Keenetic])) then inl "target platform is unavailable"
      else if match previous with Some p => negb (bool_decide (np_Platform p = np_Platform target)) | None => false end
      then inl "baseline platform differs from target"
      else
        _ ← validateManagedTargetOwnership previous target;
        match previous with
        | None => inr (mkReconciliation (np_Platform target) target [] [] [] [])
        | Some previous =>
            if bool_decide (np_Platform target = OpenWrt) then
              removals ← reconcileOpenWrt previous target s networkUCI firewallUCI;
              inr (mkReconciliation OpenWrt target removals (reconcileOpenWrtBindings previous target firewallUCI) [] [])
            else
              match np_Keenetic previous, np_Keenetic target with
              | Some kp, Some kt =>
                  _ ← for_all (fun d => refuse (managed d && negb (usable s (RollbackCap d))) "Keenetic teardown authority") (Decisions previous);
                  let owned := TeardownCommands kt in
                  inr (mkReconciliation Keenetic target [] []
                         (filter (fun c => c ∉ owned) (TeardownCommands kp)) (StaleGlobalPriorityBlocks kp kt))
              | _, _ => inl "Keenetic baseline or target plan is missing"
              end
        end
  end.

(** ** Facts: a valid profile *)
Lemma valid_endpoints p : Validate unicode_lower unicode_upper proto_problem p = None ->
  NoDup (ep_ID <$> Endpoints p) /\ Forall (fun e => ep_ID e <> "") (Endpoints p).
Proof.
  unfold Validate. destruct (validate _ _ _ p) as [|u] eqn:E; [done|]. intros _. unfold validate in E.
  apply bind_inr in E as (s & E & _). apply endpoints_stage in E as [[Hf [Hn _]] _]. split; [done|].
  eapply Forall_impl; [exact Hf|]. by intros e [? _].
Qed.
Lemma lanes_lookup lane p id u : lanes lane p !! id = Some u -> exists e, e ∈ Endpoints p /\ ep_ID e = id /\ lane e = Some u.
Proof.
  unfold lanes. induction (Endpoints p) as [|e l IH] using rev_ind; [done|]. rewrite foldl_app. cbn [foldl].
  destruct (lane e) as [u'|] eqn:El.
  - intros [[<- <-]|[Hne H]]%lookup_insert_Some; [exists e; set_solver|]. destruct (IH H) as (e' & ? & ?). exists e'. set_solver.
  - intros H. destruct (IH H) as (e' & ? & ?). exists e'. set_solver.
Qed.
Lemma insert_by_perm {A} (key : A -> string) x l : insert_by key x l ≡ₚ x :: l.
Proof. induction l as [|y l IH]; [done|]. cbn. destruct (String.ltb _ _); [|done]. rewrite IH. constructor. Qed.
Lemma sort_by_perm {A} (key : A -> string) l : sort_by key l ≡ₚ l.
Proof. unfold sort_by. induction l as [|x l IH]; [done|]. cbn. by rewrite insert_by_perm, IH. Qed.
Lemma openwrt_lane_Some s kernel e u : openwrt_lane s kernel e = Some u -> OwnsResource e = true /\ us_Device u = AWGIface (ep_ID e).
Proof.
  unfold openwrt_lane. destruct (ep_Enabled e), (bool_decide (ep_Engine e = EngineAmneziaWG)), (OwnsResource e); cbn; try done.
  destruct (negb _); [done|]. destruct (ep_AWGUserspace e); [by intros [= <-]|]. destruct (BeyondNativeFor _ _ _); [done|]. by intros [= <-].
Qed.
Lemma require_ok s id : require s id = inr tt <-> usable s id = true.
Proof. unfold require, requireCapability. by destruct (usable s id). Qed.
Lemma lift_ok {A} (m : string + A) a : lift_refusal m = inr a <-> m = inr a.
Proof. destruct m; cbn; naive_solver. Qed.
Lemma BuildPlan_iface intended protos zone net fw p : BuildPlanFor intended protos zone net fw = inr p -> Iface p = if_Name intended.
Proof.
  unfold BuildPlanFor. destruct (negb (validUCIName _)); [done|]. destruct (_ =? 0)%nat; [done|].
  intros ([resolved fb] & _ & H)%bind_inr. cbv zeta in H. destruct (negb _ && _); [done|].
  destruct (protocol_change _ _ _ _ _) as [orphans cleared]. apply bind_inr in H as ([[[[z r] c] cm] w] & _ & H).
  destruct (forallb _ _); [|done]. by injection H as <-.
Qed.
Lemma Interface_name e name protocol kernel i :
  InterfaceFromEndpointFor unicode_lower FormatFloat e name protocol kernel = inr i -> if_Name i = name.
Proof.
  unfold InterfaceFromEndpointFor. destruct (ValidInterfaceName name); [done|]. destruct (bool_decide _); [done|].
  cbv zeta. destruct (bool_decide _); [done|]. destruct (bool_decide _); [done|]. intros (obf & _ & H)%bind_inr.
  destruct (peersFromEndpoint _ _); [done|]. by injection H as <-.
Qed.

(** ** What a decision is entitled to *)
Definition owned_name (m : gmap string string) (id : string) : string := default "" (m !! id).
Record authority (facts : HostFacts) (e : Endpoint) (d : EndpointDecision) : Prop := {
  au_id : EndpointID d = ep_ID e;
  au_on : ep_Enabled e = true;
  au_create : d_Path d = PathNativeCreate -> OwnsResource e = true /\ Interface d = AWGIface (ep_ID e) /\
    ParseUCIShow (NetworkUCI facts) !! Interface d = None /\
    usable (Capabilities facts) (NativeOperationCapabilityID (ep_Protocol e) "create") = true;
  au_update : d_Path d = PathNativeUpdate -> OwnsResource e = true /\ Interface d = AWGIface (ep_ID e) /\
    owned_name (OwnedInterfaces facts) (ep_ID e) = Interface d /\
    usable (Capabilities facts) (NativeOperationCapabilityID (ep_Protocol e) "update") = true;
  au_undo : managed d = true -> usable (Capabilities facts) (RollbackCap d) = true;
  au_adopt : d_Path d = PathNativeAdopt -> Interface d = owned_name (AdoptInterfaces facts) (ep_ID e) /\
    (IsExternal e = true \/ ep_Engine e = EngineExternal);
  au_plugin : d_Path d = PathEnginePlugin -> OwnsResource e = true /\ Interface d = AWGIface (ep_ID e) /\
    ParseUCIShow (NetworkUCI facts) !! Interface d = None /\ owned_name (OwnedInterfaces facts) (ep_ID e) = "";
  au_manage : d_Path d <> PathNativeManage
}.
Lemma compatibility_authority facts e d i : ep_Enabled e = true -> compatibilityDecision (Capabilities facts) e = inr d ->
  authority facts e (d <| Interface := i |>) /\ (d_Path d = PathExternal \/ d_Path d = PathCompatibility /\ Interface d = "").
Proof.
  intros Hon. unfold compatibilityDecision. destruct (_ || _).
  - intros [= <-]. split; [|by left]. split; done.
  - intros (proto & _ & (_ & _ & (_ & _ & [= <-])%bind_inr)%bind_inr)%bind_inr. split; [|by right]. split; done.
Qed.
Lemma adopt_authority facts e d : ep_Enabled e = true -> adoptDecision facts e = inr d -> authority facts e d /\ managed d = false.
Proof.
  intros Hon. unfold adoptDecision. destruct (negb (IsExternal e) && _) eqn:Ex; [done|]. cbv zeta. destruct (ValidInterfaceName _); [done|].
  intros (_ & _ & [= <-])%bind_inr. split; [|done]. split; try done. intros _. split; [done|].
  destruct (IsExternal e); [by left|right]. cbn in Ex. by bool_facts.
Qed.
Lemma userspace_authority facts e lane d b : ep_Enabled e = true -> OwnsResource e = true -> us_Device lane = AWGIface (ep_ID e) ->
  compileOpenWrtUserspaceEndpoint facts (ParseUCIShow (NetworkUCI facts)) e lane = inr (d, b) ->
  authority facts e d /\ d_Path d = PathEnginePlugin /\ b_Device b = Interface d.
Proof.
  intros Hon Hown Hdev. unfold compileOpenWrtUserspaceEndpoint.
  destruct (_ || nonempty _) eqn:Ex; [done|]. destruct (bool_decide (FirewallZone facts = "")); [done|].
  intros (b' & Hb & [= <- <-])%bind_inr. apply lift_ok in Hb. apply orb_false_iff in Ex as [E1 E2]. apply bool_decide_eq_false in E1.
  apply nonempty_spec in E2. split; [|split; [done|]].
  - split; try done. intros _. cbn. split_and!; try done.
    rewrite Hdev in *. destruct (ParseUCIShow _ !! _) eqn:E; [|done]. exfalso. apply E1. eauto.
  - unfold BuildDeviceBinding in Hb. destruct (negb _); [done|]. destruct (bool_decide _); [done|]. destruct (FindZone _ _); [|done].
    by injection Hb as <-.
Qed.
Lemma native_authority facts e protocol d p : ep_Enabled e = true ->
  compileOpenWrtNativeEndpoint facts (ParseUCIShow (NetworkUCI facts)) e protocol = inr (d, p) ->
  authority facts e d /\ managed d = true /\ Iface p = Interface d.
Proof.
  intros Hon. unfold compileOpenWrtNativeEndpoint. destruct (OwnsResource e) eqn:Hown; [|done]. cbn [negb]. cbv zeta.
  destruct (nonempty _); [done|]. intros ([path op] & Hop & H)%bind_inr.
  apply seq_inr in H as [Hc H]. apply seq_inr in H as [Hr H]. apply bind_inr in H as (i & Hi & H). apply lift_ok, Interface_name in Hi.
  destruct (bool_decide (FirewallZone facts = "")); [done|]. apply bind_inr in H as (p' & Hp & [= <- <-]).
  apply lift_ok, BuildPlan_iface in Hp. apply require_ok in Hc. apply require_ok in Hr. unfold InterfaceName in *.
  destruct (bool_decide (is_Some _)) eqn:Ex; [destruct (bool_decide (_ = AWGIface _)) eqn:Eo; [|done]|]; injection Hop as <- <-; bool_facts.
  - split; [|by rewrite Hp, Hi]. split; done.
  - split; [|by rewrite Hp, Hi]. split; try done. intros _. cbn. split_and!; try done.
    destruct (ParseUCIShow _ !! _) eqn:E; [|done]. exfalso. apply Ex. eauto.
Qed.

(** ** The loop *)
Record in_order (facts : HostFacts) (es : list Endpoint) (st : progress) : Prop := {
  io_authority : forall d, d ∈ decided st -> exists e, e ∈ es /\ authority facts e d;
  io_all : forall e, e ∈ es -> ep_Enabled e = true -> exists d, d ∈ decided st /\ EndpointID d = ep_ID e;
  io_ids : NoDup (EndpointID <$> decided st);
  io_claimed : forall d, d ∈ decided st -> Interface d <> "" ->
    claimed st !! Interface d = Some (EndpointID d) /\ ValidInterfaceName (Interface d) = None;
  io_plans : forall q, q ∈ plans st -> exists d, d ∈ decided st /\ managed d = true /\ Interface d = Iface q;
  io_bindings : forall b, b ∈ bindings st -> exists d, d ∈ decided st /\ d_Path d = PathEnginePlugin /\ Interface d = b_Device b
}.
Definition reserved (c c' : gmap string string) (d : EndpointDecision) : Prop :=
  c' = c /\ Interface d = "" \/ reserveInterface c (Interface d) (EndpointID d) = inr c'.
Lemma reserve_ok c name id c' : reserveInterface c name id = inr c' ->
  ValidInterfaceName name = None /\ c' = <[name := id]> c /\ (owned_name c name = "" \/ owned_name c name = id).
Proof.
  unfold reserveInterface. destruct (ValidInterfaceName name); [done|]. cbv zeta. fold (owned_name c name).
  destruct (_ && _) eqn:E; [done|]. intros [= <-]. split_and!; try done.
  apply andb_false_iff in E as [E|E]; [left; by apply nonempty_spec|right; by bool_facts].
Qed.
Lemma in_order_skip facts es e st : in_order facts es st -> ep_Enabled e = false -> in_order facts (es ++ [e]) st.
Proof.
  intros [Ha Hall Hn Hc Hp Hb] He. split; try done.
  - intros d Hd. destruct (Ha d Hd) as (e' & ? & ?). exists e'. set_solver.
  - intros e' [Hin|Hin]%elem_of_app Hon; [by apply Hall|]. apply list_elem_of_singleton in Hin as ->. congruence.
Qed.
Lemma in_order_add facts es e st c d ps bs : in_order facts es st -> ep_ID e ∉ ep_ID <$> es ->
  Forall (fun e => ep_ID e <> "") es -> authority facts e d -> reserved (claimed st) c d ->
  (forall q, q ∈ ps -> managed d = true /\ Interface d = Iface q) ->
  (forall b, b ∈ bs -> d_Path d = PathEnginePlugin /\ Interface d = b_Device b) ->
  in_order facts (es ++ [e]) (mkProgress c (decided st ++ [d]) (plans st ++ ps) (bindings st ++ bs)).
Proof.
  intros [Ha Hall Hn Hc Hp Hb] Hfresh Hne Hd Hres Hps Hbs.
  assert (forall d', d' ∈ decided st -> EndpointID d' <> EndpointID d /\ EndpointID d' <> "") as Hother.
  { intros d' Hd'. destruct (Ha d' Hd') as (e' & Hin & [-> _ _ _ _ _ _ _]). destruct Hd as [-> _ _ _ _ _ _ _].
    split; [|by rewrite Forall_forall in Hne; apply Hne]. intros E. apply Hfresh. rewrite <- E. by apply list_elem_of_fmap_2. }
  split; cbn [claimed decided plans bindings].
  - intros d' [Hin|Hin]%elem_of_app; [destruct (Ha d' Hin) as (e' & ? & ?); exists e'; set_solver|].
    apply list_elem_of_singleton in Hin as ->. exists e. set_solver.
  - intros e' [Hin|Hin]%elem_of_app Hon; [destruct (Hall e' Hin Hon) as (d' & ? & ?); exists d'; set_solver|].
    apply list_elem_of_singleton in Hin as ->. exists d. destruct Hd as [? _ _ _ _ _ _ _]. set_solver.
  - rewrite fmap_app. apply NoDup_app. split_and!; [done| |apply NoDup_singleton].
    intros x (d' & -> & Hd')%list_elem_of_fmap (d'' & E & ->%list_elem_of_singleton)%list_elem_of_fmap. by destruct (Hother d' Hd').
  - intros d' [Hin|Hin]%elem_of_app Hi.
    + destruct (Hc d' Hin Hi) as [Hcl Hv]. split; [|done]. destruct Hres as [[-> _]|(_ & -> & Hprev)%reserve_ok]; [done|].
      rewrite lookup_insert_ne; [done|]. intros E. rewrite <- E in Hcl. unfold owned_name in Hprev. rewrite Hcl in Hprev. cbn in Hprev.
      destruct (Hother d' Hin) as [H1 H2]. by destruct Hprev.
    + apply list_elem_of_singleton in Hin as ->. destruct Hres as [[_ ?]|(Hv & -> & _)%reserve_ok]; [done|]. by rewrite lookup_insert_eq.
  - intros q [Hin|Hin]%elem_of_app; [destruct (Hp q Hin) as (d' & ? & ?); exists d'; set_solver|]. exists d. destruct (Hps q Hin). set_solver.
  - intros b [Hin|Hin]%elem_of_app; [destruct (Hb b Hin) as (d' & ? & ?); exists d'; set_solver|]. exists d. destruct (Hbs b Hin). set_solver.
Qed.
Lemma in_order_decide facts es e st c d : in_order facts es st -> ep_ID e ∉ ep_ID <$> es ->
  Forall (fun e => ep_ID e <> "") es -> authority facts e d -> reserved (claimed st) c d -> in_order facts (es ++ [e]) (decide_on st c d).
Proof.
  intros Hst Hf Hne Hd Hres. pose proof (in_order_add facts es e st c d [] [] Hst Hf Hne Hd Hres) as H.
  rewrite !app_nil_r in H. apply H; set_solver.
Qed.
Lemma compile_step facts userspace es e st st' : in_order facts es st -> ep_ID e ∉ ep_ID <$> es -> Forall (fun e => ep_ID e <> "") es ->
  (forall lane, userspace !! ep_ID e = Some lane -> OwnsResource e = true /\ us_Device lane = AWGIface (ep_ID e)) ->
  compile_endpoint facts userspace (ParseUCIShow (NetworkUCI facts)) st e = inr st' -> in_order facts (es ++ [e]) st'.
Proof.
  intros Hst Hf Hne Hl. unfold compile_endpoint. destruct (ep_Enabled e) eqn:Hon; cbn [negb].
  2:{ intros [= <-]. by apply in_order_skip. }
  assert (forall st'', (decision ← compatibilityDecision (Capabilities facts) e; inr (decide_on st (claimed st) decision)) = inr st'' ->
    (ep_Engine e = EngineSingBox) -> IsExternal e = false -> in_order facts (es ++ [e]) st'') as Haddon.
  { intros st'' (d & Hd & [= <-])%bind_inr Hsb Hne'. destruct (compatibility_authority facts e d (Interface d) Hon Hd) as [Ha Hp].
    apply in_order_decide; try done; [by destruct d|]. left. split; [done|]. destruct Hp as [Hp|[_ Hp]]; [|done]. exfalso.
    unfold compatibilityDecision in Hd. rewrite Hsb, Hne' in Hd.
    destruct (bool_decide (EngineSingBox = EngineExternal) || false) eqn:Eb; [vm_compute in Eb; done|].
    by apply bind_inr in Hd as (? & _ & (_ & _ & (_ & _ & [= <-])%bind_inr)%bind_inr). }
  destruct (match ProtoForModel _ with Some _ => _ | None => _ end) as [protocol|].
  2:{ intros (d & Hd & H)%bind_inr. destruct (bool_decide (d_Path d = PathExternal)) eqn:Ep.
      - apply bind_inr in H as (c & Hc & [= <-]). destruct (compatibility_authority facts e d (owned_name (AdoptInterfaces facts) (ep_ID e)) Hon Hd) as [Ha _].
        apply in_order_decide; [done|done|done|exact Ha|]. right.
        replace (EndpointID _) with (ep_ID e) by (symmetry; exact (au_id _ _ _ Ha)). exact Hc.
      - injection H as <-. destruct (compatibility_authority facts e d (Interface d) Hon Hd) as [Ha Hp].
        apply in_order_decide; try done; [by destruct d|]. left. bool_facts. naive_solver. }
  destruct (IsExternal e || _) eqn:Ex.
  { intros (d & Hd & (c & Hc & [= <-])%bind_inr)%bind_inr. destruct (adopt_authority facts e d Hon Hd) as [Ha _].
    apply in_order_decide; try done. right. by rewrite (au_id _ _ _ Ha). }
  apply orb_false_iff in Ex as [Ex _]. destruct (negb _); [done|]. destruct (userspace !! ep_ID e) as [lane|] eqn:El.
  { destruct (Hl lane eq_refl) as [Hown Hdev]. intros ([d b] & Hd & (c & Hc & [= <-])%bind_inr)%bind_inr.
    destruct (userspace_authority facts e lane d b Hon Hown Hdev Hd) as (Ha & Hp & Hb).
    pose proof (in_order_add facts es e st c d [] [b] Hst Hf Hne Ha) as H. rewrite app_nil_r in H.
    apply H; [right; by rewrite (au_id _ _ _ Ha)|set_solver|]. intros b' ->%list_elem_of_singleton. done. }
  cbv zeta. match goal with |- context [match ?m with inl _ => _ | inr st' => inr st' end] => destruct m as [err|st1] eqn:Em end.
  - destruct (bool_decide (ep_Engine e = EngineSingBox)) eqn:Es; [|done]. cbn [negb]. bool_facts. intros H. by apply Haddon.
  - intros [= <-]. apply bind_inr in Em as ([d q] & Hd & (c & Hc & [= <-])%bind_inr).
    destruct (native_authority facts e protocol d q Hon Hd) as (Ha & Hm & Hq).
    pose proof (in_order_add facts es e st c d [q] [] Hst Hf Hne Ha) as H. rewrite app_nil_r in H.
    apply H; [right; by rewrite (au_id _ _ _ Ha)| |set_solver]. intros q' ->%list_elem_of_singleton. done.
Qed.
Lemma compile_loop facts userspace es st st' rest : in_order facts es st -> NoDup (ep_ID <$> es ++ rest) ->
  Forall (fun e => ep_ID e <> "") (es ++ rest) ->
  (forall e lane, e ∈ rest -> userspace !! ep_ID e = Some lane -> OwnsResource e = true /\ us_Device lane = AWGIface (ep_ID e)) ->
  each (compile_endpoint facts userspace (ParseUCIShow (NetworkUCI facts))) st rest = inr st' -> in_order facts (es ++ rest) st'.
Proof.
  revert es st. induction rest as [|e rest IH]; intros es st Hst Hnd Hne Hl; [intros [= <-]; by rewrite app_nil_r|].
  intros (st1 & H1 & H2)%each_step. replace (es ++ e :: rest) with ((es ++ [e]) ++ rest) in * by (by rewrite <- app_assoc).
  apply (IH (es ++ [e]) st1); [|done|done|intros e' lane Hin; apply Hl; by right|done].
  rewrite !fmap_app in Hnd. apply NoDup_app in Hnd as (Hnd & _ & _). apply NoDup_app in Hnd as (_ & Hnd & _).
  apply Forall_app in Hne as [Hne _]. apply Forall_app in Hne as [Hne _].
  eapply compile_step; [exact Hst| |done| |exact H1].
  - intros Hin. apply (Hnd _ Hin). by left.
  - intros lane. apply Hl. by left.
Qed.
Lemma compile_in_order profile facts plan : Validate unicode_lower unicode_upper proto_problem profile = None ->
  compileOpenWrt profile facts = inr plan ->
  exists st, in_order facts (Endpoints profile) st /\ Decisions plan ≡ₚ decided st /\ np_OpenWrt plan ≡ₚ plans st /\
    OpenWrtBindings plan ≡ₚ bindings st.
Proof.
  intros Hv H. apply valid_endpoints in Hv as [Hnd Hne]. unfold compileOpenWrt in H. apply bind_inr in H as (st & Hst & [= <-]).
  exists st. split; [|split_and!; apply sort_by_perm]. apply (compile_loop facts _ [] _ _ (Endpoints profile)) in Hst; try done.
  - split; cbn; try (intros ? ?%not_elem_of_nil; done). constructor.
  - intros e lane Hin Hl. apply lanes_lookup in Hl as (e' & Hin' & Hid & Hl).
    assert (e' = e) as ->; [|by eapply openwrt_lane_Some].
    apply list_elem_of_lookup in Hin as (i & Hi). apply list_elem_of_lookup in Hin' as (j & Hj).
    assert (i = j) as ->; [|congruence]. apply (NoDup_lookup _ i j (ep_ID e)) in Hnd; [done| |]; rewrite list_lookup_fmap.
    + by rewrite Hi.
    + by rewrite Hj, <- Hid.
Qed.
Lemma ownership_accepts facts previous plan es :
  (forall d, d ∈ Decisions plan -> exists e, e ∈ es /\ authority facts e d) -> Forall (fun e => ep_ID e <> "") es ->
  OwnedInterfaces facts = nativeOwnershipFrom previous -> validateManagedTargetOwnership previous plan = inr tt.
Proof.
  intros Ha Hne Ho. unfold validateManagedTargetOwnership. cbv zeta. apply for_all_ok, Forall_forall. intros d Hd.
  apply refuse_ok. destruct (Ha d Hd) as (e & He & [Hid _ _ Hu _ _ _ Hm]). rewrite Forall_forall in Hne. specialize (Hne e He).
  destruct (decide (d_Path d = PathNativeUpdate)) as [Ep|Ep].
  - destruct (Hu Ep) as (_ & Hi & Hown & _). apply andb_false_iff. right. rewrite Ho in Hown. unfold owned_name, nativeOwnershipFrom in Hown.
    rewrite !orb_false_iff, Hid, Hown. split_and!; try by apply bool_decide_eq_false.
    + apply bool_decide_eq_false. rewrite Hi. by unfold AWGIface.
    + by rewrite bool_decide_eq_true_2.
  - apply andb_false_iff. left. apply bool_decide_eq_false. intros [?|[?|?%elem_of_nil]%elem_of_cons]%elem_of_cons; done.
Qed.

(** A baseline's interface that the router and the capabilities let be removed. *)
Record removable (s : CapabilitySet) (net fw : string) (d : EndpointDecision) : Prop := {
  rv_cap : RollbackCap d <> "" /\ usable s (RollbackCap d) = true;
  rv_named : Interface d <> "";
  rv_gone : is_Some (ParseUCIShow net !! Interface d) \/ still_listed fw (Interface d) = false
}.
Lemma each_total {E A B} (f : A -> B -> E + A) l : (forall a x, x ∈ l -> exists a', f a x = inr a') ->
  forall a, exists a', each f a l = inr a'.
Proof.
  induction l as [|x l IH]; intros Hf a; cbn [each]; [by exists a|]. destruct (Hf a x ltac:(left)) as [a' E0].
  rewrite E0. apply IH. intros. apply Hf. by right.
Qed.
Lemma reconcile_decision_total s net fw kept rms d : (managed d = true -> Interface d ∉ kept -> removable s net fw d) ->
  exists rms', reconcile_decision s net fw kept rms d = inr rms'.
Proof.
  intros H. unfold reconcile_decision. destruct (managed d); [|by eexists]. cbn [negb orb]. case_bool_decide as Hk; [by eexists|].
  destruct (H eq_refl Hk) as [[Hc Hu] Hn Hg]. rewrite bool_decide_false by done. rewrite Hu. cbn [negb].
  destruct (bool_decide_reflect (is_Some (ParseUCIShow net !! Interface d))) as [[cur E]|Hno]; cbn [negb].
  - unfold BuildRemovalPlan. rewrite bool_decide_false by done. rewrite E. by eexists.
  - destruct Hg as [?|Hg]; [done|]. rewrite Hg. by eexists.
Qed.
Lemma reconcile_accepts previous plan s net fw : np_Platform plan = OpenWrt -> np_Keenetic plan = None ->
  validateManagedTargetOwnership previous plan = inr tt ->
  (forall p, previous = Some p -> np_Platform p = OpenWrt /\ np_Keenetic p = None /\
     forall d, d ∈ Decisions p -> managed d = true -> Interface d ∉ managed_interfaces plan -> removable s net fw d) ->
  exists r, Reconcile previous (Some plan) s net fw = inr r /\ Target r = plan.
Proof.
  intros Hp Hk Hv Hprev. unfold Reconcile. rewrite Hp, bool_decide_true by left. cbn [negb]. rewrite Hv.
  destruct previous as [p|]; [|cbn; by eexists]. destruct (Hprev p eq_refl) as (Ep & Ek & Hd).
  rewrite Ep, bool_decide_true by done. cbn [negb mbind err_bind]. unfold reconcileOpenWrt. rewrite Ek, Hk.
  assert (exists rms, each (reconcile_decision s net fw (managed_interfaces plan)) [] (Decisions p) = inr rms) as [rms E].
  { apply each_total. intros a d Hin. apply reconcile_decision_total. by apply Hd. }
  cbn. rewrite E. cbn. by eexists.
Qed.

(** C16: a native plan for OpenWrt writes only what is WayHop's. Every decision is about an enabled
    connection of the profile; one that creates an interface creates it under a name no WireGuard or
    AmneziaWG interface of the router's configuration has; one that
    updates updates the interface the authenticated previous plan gave that connection, under the
    connection's own name, for a resource WayHop owns and with the capability to undo it; an adopted
    interface is the captured one of an external connection; an engine's device shares its name with no
    such interface. No two connections are given one interface. Every enabled connection is decided on, each
    device plan and each binding belongs to a decision. Where the owned interfaces are those of the
    previous plan, the plan passes [Reconcile]'s check of ownership, and [Reconcile] accepts it wherever
    each interface the previous plan managed and this one does not can be removed: there is the
    authority, and it is on the router or in no zone. *)
Theorem native_writes_are_owned compileKeenetic profile facts plan previous : hf_Platform facts = OpenWrt ->
  Compile compileKeenetic (Some profile) facts = inr plan ->
  (forall d, d ∈ Decisions plan -> exists e, e ∈ Endpoints profile /\ authority facts e d) /\
  (forall e, e ∈ Endpoints profile -> ep_Enabled e = true -> exists d, d ∈ Decisions plan /\ EndpointID d = ep_ID e) /\
  (forall d d', d ∈ Decisions plan -> d' ∈ Decisions plan -> Interface d <> "" -> Interface d = Interface d' ->
     EndpointID d = EndpointID d' /\ ValidInterfaceName (Interface d) = None) /\
  (forall q, q ∈ np_OpenWrt plan -> exists d, d ∈ Decisions plan /\ managed d = true /\ Interface d = Iface q) /\
  (forall b, b ∈ OpenWrtBindings plan -> exists d, d ∈ Decisions plan /\ d_Path d = PathEnginePlugin /\ Interface d = b_Device b) /\
  (OwnedInterfaces facts = nativeOwnershipFrom previous -> validateManagedTargetOwnership previous plan = inr tt /\
     forall s net fw,
       (forall p, previous = Some p -> np_Platform p = OpenWrt /\ np_Keenetic p = None /\
          forall d, d ∈ Decisions p -> managed d = true -> Interface d ∉ managed_interfaces plan -> removable s net fw d) ->
       exists r, Reconcile previous (Some plan) s net fw = inr r /\ Target r = plan).
Proof.
  intros Hp H. unfold Compile in H. destruct (Validate _ _ _ profile) eqn:Hv; [done|]. rewrite Hp in H. cbn in H.
  destruct (compile_in_order profile facts plan Hv H) as (st & [Ha Hall _ Hc Hpl Hb] & E1 & E2 & E3).
  assert (Hau : forall d, d ∈ Decisions plan -> exists e, e ∈ Endpoints profile /\ authority facts e d) by (intros d; rewrite E1; apply Ha).
  split_and!; try setoid_rewrite E1; try setoid_rewrite E2; try setoid_rewrite E3; try done.
  - intros d d' H1 H2 Hi E. destruct (Hc d H1 Hi) as [Hd Hvn]. split; [|done]. destruct (Hc d' H2 ltac:(congruence)) as [Hd' _]. congruence.
  - intros Ho. assert (Hok : validateManagedTargetOwnership previous plan = inr tt)
      by (by eapply ownership_accepts; [exact Hau|apply valid_endpoints in Hv as [_ ?]|]).
    split; [done|]. intros s net fw. apply reconcile_accepts; [| |done]; by apply bind_inr in H as (? & _ & [= <-]).
Qed.

(** ** Removal *)
(** The commands of a removal delete the interface and take it out of every zone that lists it. *)
Definition takes_out (fw : string) (rm : RemovalPlan) : Prop :=
  delete_cmd (rm_Iface rm) ∈ rm_Commands rm /\
  forall z, z ∈ ParseFirewallZones fw -> rm_Iface rm ∈ Networks z ->
    ("uci del_list firewall." +:+ z_Ref z +:+ ".network=" +:+ quoted (rm_Iface rm)) ∈ rm_Commands rm.
Lemma removal_takes_out name net fw rm : BuildRemovalPlan name net fw = inr rm -> takes_out fw rm.
Proof.
  unfold BuildRemovalPlan. destruct (bool_decide _); [done|]. destruct (_ !! name) as [cur|]; [|done]. intros [= <-].
  unfold takes_out. cbn [rm_Iface rm_Commands]. split.
  - apply elem_of_app. left. unfold RemoveUCI, RemoveUCIRefs. apply elem_of_app. right. left.
  - intros z Hz Hn. apply elem_of_app. right. apply list_elem_of_In, in_concat. exists (ZoneDetachCmds z name).
    split; [apply (in_map (fun z => ZoneDetachCmds z name)), list_elem_of_In, list_elem_of_filter; done|].
    unfold ZoneDetachCmds. rewrite bool_decide_true by done. by left.
Qed.
Lemma each_removals s net fw kept ds rms rms' : each (reconcile_decision s net fw kept) rms ds = inr rms' ->
  (forall r, r ∈ rms' -> r ∈ rms \/ exists d, d ∈ ds /\ managed d = true /\ Interface d = rm_Iface r /\ Interface d ∉ kept /\
     usable s (RollbackCap d) = true /\ BuildRemovalPlan (Interface d) net fw = inr r) /\
  (forall r, r ∈ rms -> r ∈ rms') /\
  (forall d, d ∈ ds -> managed d = true -> Interface d ∉ kept ->
     (exists r, r ∈ rms' /\ rm_Iface r = Interface d) \/ ParseUCIShow net !! Interface d = None /\ still_listed fw (Interface d) = false).
Proof.
  revert rms. induction ds as [|d ds IH]; intros rms.
  { intros [= <-]. split_and!; [by left|done|]. intros d Hd. by apply not_elem_of_nil in Hd. }
  intros (rms1 & Hstep & H)%each_step. destruct (IH rms1 H) as (I1 & I2 & I3). clear IH H.
  unfold reconcile_decision in Hstep. destruct (negb (managed d) || _) eqn:Eskip.
  { injection Hstep as <-. split_and!; [|done|].
    - intros r Hr. destruct (I1 r Hr) as [?|(d' & ? & ?)]; [by left|right]. exists d'. set_solver.
    - intros d' [->|Hd']%elem_of_cons Hm Hk; [|by apply I3]. rewrite Hm in Eskip. cbn in Eskip. by bool_facts. }
  apply orb_false_iff in Eskip as [Em Ek]. apply negb_false_iff in Em. apply bool_decide_eq_false in Ek.
  destruct (bool_decide (RollbackCap d = "")); [done|]. destruct (usable s (RollbackCap d)) eqn:Eu; [|done]. cbn [negb] in Hstep.
  destruct (bool_decide (is_Some (ParseUCIShow net !! Interface d))) eqn:El; cbn [negb] in Hstep.
  - apply bind_inr in Hstep as (rm & Hrm & [= <-]).
    assert (rm_Iface rm = Interface d) as Hi.
    { unfold BuildRemovalPlan in Hrm. destruct (bool_decide (Interface d = "")); [done|].
      destruct (ParseUCIShow net !! Interface d); [|done]. by injection Hrm as <-. }
    split_and!.
    + intros r Hr. destruct (I1 r Hr) as [[?| ->%list_elem_of_singleton]%elem_of_app|(d' & ? & ?)]; [by left| |]; right.
      * exists d. set_solver.
      * exists d'. set_solver.
    + intros r Hr. apply I2. set_solver.
    + intros d' [->|Hd']%elem_of_cons Hm Hk; [|by apply I3]. left. exists rm. split; [apply I2; set_solver|done].
  - destruct (still_listed fw (Interface d)) eqn:Es; [done|]. injection Hstep as <-. split_and!; [|done|].
    + intros r Hr. destruct (I1 r Hr) as [?|(d' & ? & ?)]; [by left|right]. exists d'. set_solver.
    + intros d' [->|Hd']%elem_of_cons Hm Hk; [|by apply I3]. right. split; [|done].
      bool_facts. destruct (ParseUCIShow net !! Interface d); [|done]. exfalso. eauto.
Qed.
Lemma managed_interfaces_elem (p : NativePlan) i : i ∈ managed_interfaces p <-> exists d, d ∈ Decisions p /\ managed d = true /\ Interface d = i.
Proof.
  unfold managed_interfaces. rewrite list_elem_of_omap. split.
  - intros (d & Hd & E). exists d. destruct (managed d); [|done]. by injection E as <-.
  - intros (d & Hd & Hm & <-). exists d. by rewrite Hm.
Qed.

(** C17: A reconciliation on OpenWrt removes exactly what the previous plan managed and the target does
    not: each removal is of an interface the previous plan managed, with the authority to remove it, deletes
    its section and takes it out of every zone that lists it, and none the target still manages is removed; an interface no longer managed is removed, or is already gone
    from the router and from every zone it reads. The same holds of the devices it takes out of zones: the
    previous plan bound them, the target does not, and every one still listed is taken out of every zone. *)
Theorem reconcile_removes_its_own previous target s net fw r : np_Platform target = OpenWrt ->
  Reconcile (Some previous) (Some target) s net fw = inr r ->
  (forall rm, rm ∈ OpenWrtRemovals r -> rm_Iface rm ∈ managed_interfaces previous /\ rm_Iface rm ∉ managed_interfaces target /\
     BuildRemovalPlan (rm_Iface rm) net fw = inr rm /\ takes_out fw rm /\
     exists d, d ∈ Decisions previous /\ Interface d = rm_Iface rm /\ usable s (RollbackCap d) = true) /\
  (forall i, i ∈ managed_interfaces previous -> i ∉ managed_interfaces target ->
     (exists rm, rm ∈ OpenWrtRemovals r /\ rm_Iface rm = i) \/ ParseUCIShow net !! i = None /\ still_listed fw i = false) /\
  (forall u, u ∈ OpenWrtUnbindings r -> u_Device u ∈ b_Device <$> OpenWrtBindings previous /\ u_Device u ∉ b_Device <$> OpenWrtBindings target /\
     forall z, z ∈ ParseFirewallZones fw -> u_Device u ∈ Devices z ->
       ("uci del_list firewall." +:+ z_Ref z +:+ ".device=" +:+ quoted (u_Device u)) ∈ u_Commands u) /\
  (forall dev, dev ∈ b_Device <$> OpenWrtBindings previous -> dev ∉ b_Device <$> OpenWrtBindings target ->
     device_zones dev fw <> [] -> exists u, u ∈ OpenWrtUnbindings r /\ u_Device u = dev).
Proof.
  intros Ho H. unfold Reconcile in H. destruct (negb (bool_decide (_ ∈ _))); [done|]. destruct (negb (bool_decide (np_Platform previous = _))); [done|].
  apply bind_inr in H as (_ & _ & H). rewrite Ho in H. cbn in H. apply bind_inr in H as (rms & Hrms & [= <-]).
  cbn [OpenWrtRemovals OpenWrtUnbindings]. unfold reconcileOpenWrt in Hrms. destruct (_ || _); [done|].
  apply bind_inr in Hrms as (rms0 & H0 & [= <-]). apply each_removals in H0 as (I1 & _ & I3). split_and!.
  - intros rm Hrm. rewrite sort_by_perm in Hrm. destruct (I1 rm Hrm) as [?%not_elem_of_nil|(d & Hd & Hm & Hi & Hk & Hu & Hb)]; [done|].
    rewrite managed_interfaces_elem. rewrite <- Hi. split_and!; try done; [by exists d|by eapply removal_takes_out|by exists d].
  - intros i (d & Hd & Hm & <-)%managed_interfaces_elem Hk. setoid_rewrite sort_by_perm. by apply I3.
  - intros u Hu. unfold reconcileOpenWrtBindings in Hu. cbv zeta in Hu. rewrite sort_by_perm in Hu. apply list_elem_of_omap in Hu as (b & Hb & E).
    destruct (bool_decide _) eqn:Ek; [done|]. destruct (_ =? _)%nat; [done|]. injection E as <-. cbn. bool_facts.
    split_and!; [by apply list_elem_of_fmap_2|done|]. intros z Hz Hd. apply list_elem_of_fmap. exists z. split; [done|].
    apply list_elem_of_filter. done.
  - intros dev (b & -> & Hb)%list_elem_of_fmap Hk Hz. unfold reconcileOpenWrtBindings. cbv zeta.
    exists (BuildDeviceUnbinding (b_Device b) fw). split; [|done]. rewrite sort_by_perm. apply list_elem_of_omap. exists b. split; [done|].
    rewrite bool_decide_eq_false_2 by done. unfold BuildDeviceUnbinding. cbn [u_Commands]. rewrite length_map.
    destruct (device_zones (b_Device b) fw); done.
Qed.
End plan.

(** ** A router and two connections: one WayHop's already, one new *)
Definition tunnel (id : string) : Endpoint :=
  zero_endpoint <| ep_ID := id |> <| ep_Name := id |> <| ep_Engine := EngineAmneziaWG |> <| ep_Protocol := "amneziawg" |>
    <| ep_Server := "203.0.113.10" |> <| ep_Port := 51820 |> <| ep_Enabled := true |>
    <| ep_Params := {["private_key" := AString "priv"; "peer_public_key" := AString "pub"; "local_address" := AString "10.0.0.2/32"]} |>.
Definition two_tunnels : Profile := zero_profile <| Endpoints := [tunnel "a"; tunnel "b"] |>.
Definition wired (op : string) : string * Capability := ("native.operation.amneziawg." +:+ op, mkCapability CapSupported "" "" "").
Definition router_facts : HostFacts :=
  mkFacts OpenWrt (list_to_map [wired "create"; wired "update"; wired "remove"])
    ("network." +:+ AWGIface "a" +:+ "=interface
network." +:+ AWGIface "a" +:+ ".proto='amneziawg'
") hand_made_zones (Some {["amneziawg" := true]}) "vpn" ∅ {["a" := AWGIface "a"]} ∅ GenNone.
Definition first_plan : NativePlan (KPlan := unit) :=
  mkNative OpenWrt [mkDecision "a" "amneziawg" PathNativeCreate (AWGIface "a") "" "native.operation.amneziawg.remove"] [] [] None.
Definition compiled : plan_error + NativePlan (KPlan := unit) :=
  Compile id id (fun _ => "") (fun _ => None) (fun _ _ => inl (Refused "")) (Some two_tunnels) router_facts.
Definition compiled_plan : NativePlan (KPlan := unit) := match compiled with inr p => p | inl _ => mkNative "" [] [] [] None end.
Example compiled_decisions : (fun d => (EndpointID d, d_Path d)) <$> Decisions compiled_plan =
  [("a", PathNativeUpdate); ("b", PathNativeCreate)].
Proof. vm_compute. reflexivity. Qed.
Lemma native_writes_are_owned_witness :
  validateManagedTargetOwnership (Some first_plan) compiled_plan = inr tt /\
  (exists r, Reconcile (fun _ => []) (fun _ _ => []) (Some first_plan) (Some compiled_plan) ∅ "" "" = inr r /\ Target r = compiled_plan) /\
  exists e, e ∈ Endpoints two_tunnels /\ EndpointID <$> head (Decisions compiled_plan) = Some (ep_ID e).
Proof.
  destruct (native_writes_are_owned id id (fun _ => "") (fun _ => None) (fun _ => []) (fun _ _ => []) (fun _ _ => inl (Refused "")) two_tunnels router_facts
    compiled_plan (Some first_plan) eq_refl ltac:(vm_compute; reflexivity)) as (_ & _ & _ & _ & _ & H).
  destruct (H ltac:(vm_compute; reflexivity)) as [H1 H2]. split; [exact H1|]. split.
  - apply H2. intros p [= <-]. split_and!; [done|done|]. intros d Hd _ Hn. destruct Hn. apply list_elem_of_singleton in Hd as ->.
    vm_compute. left.
  - exists (tunnel "a"). split; [by left|vm_compute; reflexivity].
Defined.
(** The previous plan's connection is gone from the profile: its interface is removed, the new one's is not. *)
Definition next_plan : NativePlan (KPlan := unit) :=
  mkNative OpenWrt [mkDecision "b" "amneziawg" PathNativeCreate (AWGIface "b") "" "native.operation.amneziawg.remove"] [] [] None.
Definition reconciled : string + Reconciliation (KPlan := unit) :=
  Reconcile (fun _ => []) (fun _ _ => []) (Some first_plan) (Some next_plan) (Capabilities router_facts) (NetworkUCI router_facts) hand_made_zones.
Definition reconciliation : Reconciliation (KPlan := unit) :=
  match reconciled with inr r => r | inl _ => mkReconciliation "" next_plan [] [] [] [] end.
Lemma reconcile_removes_its_own_witness : exists rm, rm ∈ OpenWrtRemovals reconciliation /\ rm_Iface rm = AWGIface "a".
Proof.
  destruct (reconcile_removes_its_own (fun _ => []) (fun _ _ => []) first_plan next_plan (Capabilities router_facts)
    (NetworkUCI router_facts) hand_made_zones reconciliation eq_refl ltac:(vm_compute; reflexivity)) as (_ & H & _).
  destruct (H (AWGIface "a")) as [?|[H1 _]]; [vm_compute; by left| |done|].
  - intros Hin. vm_compute in Hin. apply list_elem_of_singleton in Hin. discriminate.
  - vm_compute in H1. discriminate.
Defined.
